(* ===== verification/_CoqProject ===== *)
-Q . S2P
Prelude.v
Riscv.v
Ram.v
KString.v
Block.v
Ring.v
Printf.v
Uart.v
Spinlock.v
Bits.v
LinkedList.v
Buddy.v
BuddyInv.v
BuddyProof.v
BuddySpec.v
BuddyInit.v
BuddyBoot.v
BuddyThm.v
Kalloc.v
Vm.v
VmProof.v
VmUser.v
VmFree.v
VmCopy.v
VmThm.v
Bio.v
BioProof.v
Virtio.v
VirtioSpec.v
VirtioProof.v
VirtioStep.v
VirtioRun.v
VirtioThm.v
Log.v
LogProof.v
LogThm.v
LogOps.v
LogSafe.v
Fs.v
FsBlock.v
FsInode.v
FsDinode.v
FsFile.v
FsThm.v
FsDir.v
FsPath.v
Pipe.v
Console.v
Kern.v
File.v
FileIO.v
Proc.v
ProcTree.v
ProcInv.v
FileThm.v
Sched.v
Exec.v
Fcntl.v
Sysfile.v
Syscall.v
Trap.v
Ulib.v
Grep.v
Wc.v
Sh.v
ShParse.v
ShPrint.v
ShRun.v
Umalloc.v
UmallocThm.v
Mkfs.v
MkfsInv.v
MkfsThm.v
FsInit.v
Asm.v
AsmThm.v
AsmTrap.v
Start.v
Kvm.v
Utils.v
