(* ===== verification/Prelude.v ===== *)
(** * A verification of xv6-riscv with a buddy allocator

    The program is a small Unix-like operating system for RISC-V: a kernel under
    [src/kernel] and user programs under [src/user]. This library translates most of
    it into Rocq functions and proves what makes its parts correct.

    ** How C code is translated

    - Integers are [Z] with the wrap-around of their C type written out ([u8],
      [u16], [u32], [u64], [i16], [i32] below). Bytes are integers from 0 to 255.
    - A function that can stop the machine, touch memory it does not own or loop
      returns an [outcome]: [Ok], [Panic] (a call of [panic]), [Fault] (an access the
      model knows to be wild, such as an index outside an array or a null pointer)
      or [Hang] (out of fuel).
    - Mutable state is passed explicitly, one record per component ([buddy], [bio],
      [log], [fs], [kern], ...), built on top of each other as the code is.
    - A loop without a structural bound takes fuel. Theorems that say a function
      returns give the fuel that is enough, or the definition that calls the loop
      passes an amount computed from its input (the bytes to copy, the length of
      the line, the levels of the page table) and [Hang] is shown not to happen.
    - Code under a lock runs as one step, because nothing else can touch its data.
      Where the code gives up a lock in the middle (sleeping, waiting for the disk,
      waiting for a child) it is cut at that point and a step relation interleaves
      the pieces: Spinlock, Sched, the Virtio files, LogSafe ([end_op] and its
      commit), Start, ShRun and Utils. [usertrap] and [kerneltrap] are cut where
      [yield] gives up the CPU, and go on in any state they are resumed in.
    - Assembly is a list of instructions run on a hart: registers, control registers,
      privilege mode, memory, and page tables that the hart reads from memory.

    ** Parts, files and sources

    - Prelude, Riscv, Ram, KString, Block, Ring: the shared base; page-table entry
      macros and the memory map ([hardware/riscv.h], [hardware/memlayout.h]); bytes
      in memory and [lib/string.c]; little-endian fields of disk blocks; ring buffers
      with free-running counters.
    - Bits, LinkedList, Buddy and BuddyInv to BuddyThm: [alloc/bits.c],
      [alloc/list.c], [alloc/buddy.c]. The invariant says that the bit arrays and the
      free lists describe one tiling of the heap into free and allocated blocks.
    - Kalloc: [alloc/kalloc.c] and the class [Allocator], the interface against
      which everything that allocates is proved; the buddy allocator is an instance.
    - Vm and VmProof to VmThm: [memory/vm.c]. A page table is a tree of pages in
      physical memory; its meaning is a map from virtual pages to frames.
    - Bio, BioProof: [file/bio.c], a transparent window on the disk. A request to
      the driver is its completed effect on the disk, which is what VirtioThm shows
      the driver to deliver.
    - Virtio, VirtioSpec, VirtioProof to VirtioThm: [hardware/virtio_disk.c] and
      [hardware/virtio.h]. Any number of processes in [virtio_disk_rw], the interrupt
      handler and the device take turns on the shared rings, the notify register
      and the interrupt status; the class [VirtioDevice] says what the device may do
      and what it may not ignore.
    - Log and LogProof to LogSafe: [log.c], with crashes between any two writes.
    - Fs and FsBlock to FsPath: [file/fs.c] on the format of [file/fs.h]: blocks,
      inodes, file contents, directories, path elements.
    - Pipe, Console, Uart, Printf: [file/pipe.c], [console.c], [hardware/uart.c],
      [lib/printf.c] and [user/printf.c].
    - Spinlock, Sched: [sync/spinlock.c], [sync/sleeplock.c], and [sleep], [wakeup],
      [sched], [yield], [scheduler] of [process/proc.c].
    - Kern, File, FileIO, FileThm, Proc, ProcTree, ProcInv: the state the kernel
      shares, [file/file.c] and the rest of [process/proc.c], with [dump] and
      [dump2].
    - Exec, Fcntl, Sysfile, Syscall, Trap: [syscall/], [process/exec.c],
      [file/fcntl.h], [trap.c], [hardware/plic.c].
    - Ulib, Grep, Wc: [user/ulib.c], [user/grep.c], [user/wc.c], [user/cat.c].
    - Sh, ShParse, ShPrint, ShRun: [user/sh.c], the parser and the processes it
      starts.
    - Umalloc, UmallocThm: [user/umalloc.c]; a block of memory is its header, and the
      free blocks form a ring in the order of their addresses.
    - Mkfs, MkfsInv, MkfsThm: the image builder [mkfs/mkfs.c]. FsInit: [fsinit] of
      [file/fs.c] on any disk a crash leaves, and on the image [mkfs] writes.
    - Asm, AsmThm: [startup/trampoline.S], [startup/kernelvec.S], [startup/entry.S] and
      [process/swtch.S]. AsmTrap joins the trampoline to [trap.c].
    - Start: [startup/start.c], [startup/main.c] and the register accessors of
      [hardware/riscv.h] they use. Kvm: [kvmmake], [kvminit] and [kvminithart] of
      [memory/vm.c], down to what the hardware reads.
    - Utils: [user/echo.c], [kill.c], [ln.c], [mkdir.c], [rm.c], [zombie.c],
      [forktest.c], [init.c] and [pingpong.c].

    ** What is shown

    - Allocation: the blocks [buddy_malloc] hands out, for requests of at most 2^63
      bytes, are large enough, aligned, inside the heap and disjoint; [buddy_free] gives back exactly one of them; the
      invariant holds after [buddy_init] and any sequence of calls.
    - Start-up: [start] leaves each hart in [main] in supervisor mode with its timer and
      its own scratch area; in [main] no hart uses what is not initialised, in whatever
      order stores become visible; loading the kernel's page table leaves every kernel
      address in place.
    - Address spaces: [uvmalloc], [uvmcopy], [uvmfree], [copyout] and [copyin] do what
      they say to the map from virtual addresses to bytes, on success and when
      memory runs out, and leak nothing.
    - The disk: whatever the interleaving, the driver behaves as a disk that serves
      each request at one moment between its call and its return; it never panics
      or touches a descriptor that is not its own, except that the handler panics
      over a request the device failed; and every call can be brought to its end,
      whatever the device does, with no notification, interrupt or wakeup lost.
    - The log: a crash at any moment leaves either all or none of a transaction;
      operations that log fewer than [MAXOPBLOCKS] blocks each never overflow the
      log that [mkfs] makes, however they and the commits interleave; for
      [MAXOPBLOCKS] blocks each it is one block short ([log_reservation_overflow]).
    - Files: [readi] and [writei] agree with a list of bytes; writes are isolated
      from other files; [filewrite] is durable; directories agree with a table of
      names; the image [mkfs] writes holds its files under their names, and the kernel
      mounts it, as it mounts what any crash leaves.
    - Processes: the process table is a tree rooted at init under every sequence of
      [fork], [exit], [wait] and [kill]; sleep locks exclude each other and lose no
      wakeup; spin locks exclude each other; a process that was killed or faulted
      does not return from its trap.
    - Assembly: [swtch] resumes a context where it left; a timer interrupt, from the first
      instruction of [uservec] through [usertrap] and [yield], and on whatever hart
      the process is resumed through [usertrapret] to the [sret] of [userret], changes
      nothing the user program can see, as long as the rest of the kernel leaves the
      process's page table and trapframe alone; [kernelvec] and [timervec] restore
      what they interrupt.
    - Devices: the console's line editor, the UART queue and pipes are queues of
      bytes.
    - User programs: [grep] prints exactly the lines its pattern describes; the
      shell's parser ends on every line and reads back every command; the shell
      starts exactly the programs of its commands with the right descriptors; [malloc]
      hands out disjoint memory, for requests of at most 2^30 bytes, and [free] takes
      it back; [pingpong] always ends with
      its two lines in order; [init] keeps one shell.

    ** Fuel and bounds

    Fuel is the length of the data a loop walks over: the bytes left to copy, the
    blocks of a file, the nodes of a free list, the characters of a line. The number
    of harts is [NCPU], of processes [NPROC], as in [param.h]; the step relations
    take any number of processes. [init] and [forktest] stop at [USpin] when the
    given number of rounds is over.

    ** Not modelled

    [initcode.S], a single [exec]; the accessors of [riscv.h] that nothing calls;
    [mycpu], [myproc] (the running process is an argument) and [forkret], which calls
    [fsinit] once and [usertrapret]; [ramdisk.c], which is not built; [ls.c], and the
    test programs ([usertests.c], [grind.c], [stressfs.c], [alloctest.c], the dump tests
    and their assembly), which only exercise the system calls. *)

From stdpp Require Export base gmap list strings.
From stdpp Require Export prelude.
From Stdlib Require Export ZArith Lia.
#[global] Open Scope Z_scope.

(** ** Outcomes of kernel code

    A C function of the kernel either returns, stops the machine through
    [panic], performs an access outside the memory the model knows (a wild
    read, a null dereference, an out-of-bounds index), or never returns. *)
Inductive outcome (A : Type) : Type :=
| Ok (a : A)
| Panic (msg : string)
| Fault
| Hang.
Arguments Ok {A} a.
Arguments Panic {A} msg.
Arguments Fault {A}.
Arguments Hang {A}.

#[global] Instance outcome_ret : MRet outcome := λ A a, Ok a.

#[global] Instance outcome_bind : MBind outcome := λ A B f m,
  match m with
  | Ok a => f a
  | Panic msg => Panic msg
  | Fault => Fault
  | Hang => Hang
  end.

#[global] Instance outcome_eq_dec {A} `{EqDecision A} : EqDecision (outcome A).
Proof. solve_decision. Defined.

(** The code came back to its caller. *)
Definition returns {A} (m : outcome A) : Prop := ∃ a, m = Ok a.

Lemma bind_Ok {A B} (f : A → outcome B) a : (Ok a ≫= f) = f a.
Proof. done. Qed.

Lemma Ok_inj {A} (a b : A) : Ok a = Ok b → a = b.
Proof. by injection 1. Qed.

Lemma Ok_pair_inj {A B} (a a' : A) (b b' : B) : Ok (a, b) = Ok (a', b') → a = a' ∧ b = b'.
Proof. by injection 1. Qed.

Lemma bind_Ok_inv {A B} (m : outcome A) (f : A → outcome B) b :
  (m ≫= f) = Ok b → ∃ a, m = Ok a ∧ f a = Ok b.
Proof. destruct m; simpl; intros; try done. eauto. Qed.

(** ** Arrays

    [a[i]] of a C array held as a list; an index outside it is a fault. *)
Definition arr_get {A} (a : list A) (i : Z) : outcome A :=
  if i <? 0 then Fault
  else match a !! Z.to_nat i with Some v => Ok v | None => Fault end.

Definition arr_set {A} (a : list A) (i : Z) (v : A) : outcome (list A) :=
  if (i <? 0) || (Z.of_nat (length a) <=? i) then Fault
  else Ok (<[Z.to_nat i := v]> a).

Definition zlen {A} (a : list A) : Z := Z.of_nat (length a).

(** Code that never calls [panic]. *)
Definition no_panic {A} (m : outcome A) : Prop := ∀ msg, m ≠ Panic msg.

Lemma no_panic_Ok {A} (a : A) : no_panic (Ok a).
Proof. by intros msg. Qed.

Lemma no_panic_bind {A B} (m : outcome A) (f : A → outcome B) :
  no_panic m → (∀ a, no_panic (f a)) → no_panic (m ≫= f).
Proof.
  intros Hm Hf msg. destruct m as [a|msg'| |]; simpl; [apply Hf| |done..].
  intros [= ->]. by apply (Hm msg).
Qed.

Lemma no_panic_if {A} (c : bool) (m1 m2 : outcome A) :
  no_panic m1 → no_panic m2 → no_panic (if c then m1 else m2).
Proof. by destruct c. Qed.

Lemma arr_get_no_panic {A} (a : list A) i : no_panic (arr_get a i).
Proof. intros msg. unfold arr_get. repeat case_match; done. Qed.

Lemma arr_set_no_panic {A} (a : list A) i v : no_panic (arr_set a i v).
Proof. intros msg. unfold arr_set. by case_match. Qed.

Create HintDb panic_db.
#[export] Hint Resolve no_panic_Ok no_panic_bind no_panic_if arr_get_no_panic arr_set_no_panic
  : panic_db.

(** ** Machine integers *)
Definition u8 (x : Z) : Z := x mod 2 ^ 8.
Definition u16 (x : Z) : Z := x mod 2 ^ 16.
Definition u32 (x : Z) : Z := x mod 2 ^ 32.
Definition u64 (x : Z) : Z := x mod 2 ^ 64.
Definition i32 (x : Z) : Z := (x + 2 ^ 31) mod 2 ^ 32 - 2 ^ 31.

Lemma u32_small x : 0 ≤ x < 2 ^ 32 → u32 x = x.
Proof. intros. by apply Z.mod_small. Qed.

Lemma u64_small x : 0 ≤ x < 2 ^ 64 → u64 x = x.
Proof. intros. by apply Z.mod_small. Qed.

Lemma i32_small x : - 2 ^ 31 ≤ x < 2 ^ 31 → i32 x = x.
Proof. intros. unfold i32. rewrite Z.mod_small; lia. Qed.

Lemma u32_range x : 0 ≤ u32 x < 2 ^ 32.
Proof. by apply Z.mod_pos_bound. Qed.

Lemma u64_range x : 0 ≤ u64 x < 2 ^ 64.
Proof. by apply Z.mod_pos_bound. Qed.

(** ** Strings

    A C string literal is the list of its bytes without the final NUL. *)
Fixpoint chars (s : string) : list Z :=
  match s with
  | EmptyString => []
  | String a s' => Z.of_N (Ascii.N_of_ascii a) :: chars s'
  end.

(** ** Array lemmas *)
Lemma arr_get_lookup {A} (a : list A) i v :
  0 ≤ i → a !! Z.to_nat i = Some v → arr_get a i = Ok v.
Proof.
  intros Hi Hl. unfold arr_get.
  destruct (Z.ltb_spec i 0); [lia|]. by rewrite Hl.
Qed.

Lemma arr_get_Ok {A} (a : list A) i v :
  arr_get a i = Ok v ↔ 0 ≤ i ∧ a !! Z.to_nat i = Some v.
Proof.
  unfold arr_get. destruct (Z.ltb_spec i 0).
  - split; [done | lia].
  - destruct (a !! Z.to_nat i) eqn:E; naive_solver lia.
Qed.

Lemma arr_get_in_range {A} (a : list A) i :
  0 ≤ i < zlen a → ∃ v, a !! Z.to_nat i = Some v ∧ arr_get a i = Ok v.
Proof.
  intros [H1 H2]. unfold zlen in H2.
  destruct (lookup_lt_is_Some_2 a (Z.to_nat i)) as [v Hv]; [lia|].
  exists v. split; [done|]. by apply arr_get_lookup.
Qed.

Lemma arr_set_in_range {A} (a : list A) i v :
  0 ≤ i < zlen a → arr_set a i v = Ok (<[Z.to_nat i := v]> a).
Proof.
  intros [H1 H2]. unfold zlen in H2. unfold arr_set.
  destruct (Z.ltb_spec i 0), (Z.leb_spec (Z.of_nat (length a)) i); try lia.
  done.
Qed.

Lemma zlen_insert {A} (a : list A) n v : zlen (<[n := v]> a) = zlen a.
Proof. unfold zlen. by rewrite length_insert. Qed.

Lemma to_nat_zlen {A} (a : list A) : Z.to_nat (zlen a) = length a.
Proof. apply Nat2Z.id. Qed.

(** ** Powers of two and dyadic blocks *)
Lemma pow2_pos n : 0 ≤ n → 0 < 2 ^ n.
Proof. intros. by apply Z.pow_pos_nonneg. Qed.

Lemma pow2_succ n : 0 ≤ n → 2 ^ (n + 1) = 2 * 2 ^ n.
Proof. intros. rewrite Z.pow_add_r; lia. Qed.

Lemma pow2_split a b : 0 ≤ b ≤ a → 2 ^ a = 2 ^ (a - b) * 2 ^ b.
Proof. intros. rewrite <- Z.pow_add_r by lia. f_equal. lia. Qed.

Lemma div_pow2_add i a b :
  0 ≤ a → 0 ≤ b → i / 2 ^ a / 2 ^ b = i / 2 ^ (a + b).
Proof.
  intros. rewrite Z.pow_add_r by lia.
  pose proof (pow2_pos a). pose proof (pow2_pos b).
  rewrite Z.div_div; lia.
Qed.

Lemma quot_nonneg a b : 0 ≤ a → 0 < b → Z.quot a b = a / b.
Proof. intros. apply Z.quot_div_nonneg; lia. Qed.

Lemma rem_nonneg a b : 0 ≤ a → 0 < b → Z.rem a b = a mod b.
Proof. intros. apply Z.rem_mod_nonneg; lia. Qed.

(** ** Automation *)

(** Case split on the first Boolean comparison of the goal or hypotheses. *)
Ltac zcase :=
  match goal with
  | |- context [ Z.eqb ?a ?b ] => destruct (Z.eqb_spec a b)
  | |- context [ Z.ltb ?a ?b ] => destruct (Z.ltb_spec a b)
  | |- context [ Z.leb ?a ?b ] => destruct (Z.leb_spec a b)
  | H : context [ Z.eqb ?a ?b ] |- _ => destruct (Z.eqb_spec a b)
  | H : context [ Z.ltb ?a ?b ] |- _ => destruct (Z.ltb_spec a b)
  | H : context [ Z.leb ?a ?b ] |- _ => destruct (Z.leb_spec a b)
  end.

(** Take apart a run of [Ok]-binds in a hypothesis. *)
Ltac unbind :=
  repeat match goal with
  | H : (_ ≫= _) = Ok _ |- _ =>
      apply bind_Ok_inv in H; destruct H as (? & ? & H)
  | H : Ok _ = Ok _ |- _ => injection H as H
  | H : mret _ = Ok _ |- _ => injection H as H
  end.
