(* ===== verification/Riscv.v ===== *)
(** * Pages, page-table entries and the memory map:
    [kernel/hardware/riscv.h], [kernel/hardware/memlayout.h]. *)

From S2P Require Import Prelude.

Definition PGSIZE : Z := 4096.
Definition PGSHIFT : Z := 12.

Definition PGROUNDUP (sz : Z) : Z := Z.land (u64 (sz + PGSIZE - 1)) (Z.lnot (PGSIZE - 1)).
Definition PGROUNDDOWN (a : Z) : Z := Z.land a (Z.lnot (PGSIZE - 1)).

Definition PTE_V : Z := 1.
Definition PTE_R : Z := 2.
Definition PTE_W : Z := 4.
Definition PTE_X : Z := 8.
Definition PTE_U : Z := 16.

Definition PA2PTE (pa : Z) : Z := u64 (Z.shiftl (Z.shiftr pa 12) 10).
Definition PTE2PA (pte : Z) : Z := u64 (Z.shiftl (Z.shiftr pte 10) 12).
Definition PTE_FLAGS (pte : Z) : Z := Z.land pte 0x3FF.

Definition PXMASK : Z := 0x1FF.
Definition PXSHIFT (level : Z) : Z := PGSHIFT + 9 * level.
Definition PX (level va : Z) : Z := Z.land (Z.shiftr va (PXSHIFT level)) PXMASK.

Definition MAXVA : Z := Z.shiftl 1 (9 + 9 + 9 + 12 - 1).

Definition UART0 : Z := 0x10000000.
Definition VIRTIO0 : Z := 0x10001000.
Definition PLIC : Z := 0x0c000000.
Definition KERNBASE : Z := 0x80000000.
Definition PHYSTOP : Z := KERNBASE + 128 * 1024 * 1024.
Definition TRAMPOLINE : Z := MAXVA - PGSIZE.
Definition KSTACK (p : Z) : Z := TRAMPOLINE - (p + 1) * 2 * PGSIZE.
Definition TRAPFRAME : Z := TRAMPOLINE - PGSIZE.

(** ** Rounding *)

Lemma land_page_mask x : Z.land x (Z.lnot (PGSIZE - 1)) = x / 4096 * 4096.
Proof.
  change (PGSIZE - 1) with (Z.ones 12). rewrite <- Z.ldiff_land, Z.ldiff_ones_r by lia.
  rewrite Z.shiftr_div_pow2, Z.shiftl_mul_pow2 by lia. done.
Qed.

Lemma PGROUNDDOWN_eq a : PGROUNDDOWN a = a / 4096 * 4096.
Proof. apply land_page_mask. Qed.

Lemma PGROUNDUP_eq sz :
  0 ≤ sz → sz + 4095 < 2 ^ 64 → PGROUNDUP sz = (sz + 4095) / 4096 * 4096.
Proof.
  intros. unfold PGROUNDUP. rewrite land_page_mask, u64_small by (unfold PGSIZE; lia).
  do 2 f_equal. unfold PGSIZE. lia.
Qed.

Lemma PGROUNDDOWN_bounds a :
  PGROUNDDOWN a ≤ a < PGROUNDDOWN a + PGSIZE ∧ PGROUNDDOWN a mod PGSIZE = 0.
Proof.
  rewrite PGROUNDDOWN_eq. unfold PGSIZE. rewrite Z.mod_mul by lia.
  Z.to_euclidean_division_equations. lia.
Qed.

Lemma PGROUNDUP_bounds sz :
  0 ≤ sz → sz + 4095 < 2 ^ 64 →
  sz ≤ PGROUNDUP sz < sz + PGSIZE ∧ PGROUNDUP sz mod PGSIZE = 0.
Proof.
  intros. rewrite PGROUNDUP_eq by done. unfold PGSIZE. rewrite Z.mod_mul by lia.
  Z.to_euclidean_division_equations. lia.
Qed.

(** ** Page-table entries *)

Lemma PX_range level va : 0 ≤ PX level va < 512.
Proof.
  unfold PX, PXMASK. change 511 with (Z.ones 9). rewrite Z.land_ones by lia.
  apply Z.mod_pos_bound. lia.
Qed.

Lemma PX_eq level va : 0 ≤ level → PX level va = va / 2 ^ (12 + 9 * level) mod 512.
Proof.
  intros. unfold PX, PXMASK, PXSHIFT, PGSHIFT. change 511 with (Z.ones 9).
  rewrite Z.land_ones, Z.shiftr_div_pow2 by lia. done.
Qed.

(** A page address survives the trip through an entry, whatever the flags. *)
Lemma PTE2PA_PA2PTE pa flags :
  pa mod PGSIZE = 0 → 0 ≤ pa < 2 ^ 56 → 0 ≤ flags < 2 ^ 10 →
  PTE2PA (Z.lor (PA2PTE pa) flags) = pa.
Proof.
  intros Hal Hpa Hf. unfold PTE2PA, PA2PTE, PGSIZE in *.
  rewrite !Z.shiftl_mul_pow2, !Z.shiftr_div_pow2 by lia.
  rewrite (u64_small (pa / _ * _)) by (Z.to_euclidean_division_equations; lia).
  rewrite <- (Z.shiftr_div_pow2 _ 10), Z.shiftr_lor, !Z.shiftr_div_pow2 by lia.
  rewrite Z.div_mul, (Z.div_small flags) by lia. rewrite Z.lor_0_r.
  rewrite u64_small by (Z.to_euclidean_division_equations; lia).
  Z.to_euclidean_division_equations. lia.
Qed.

Lemma land_shifted_low x n m : 0 ≤ n → 0 ≤ m < 2 ^ n → Z.land (x * 2 ^ n) m = 0.
Proof.
  intros Hn Hm. apply Z.bits_inj'. intros i Hi. rewrite Z.land_spec, Z.bits_0.
  destruct (decide (i < n)).
  - by rewrite Z.mul_pow2_bits_low by lia.
  - rewrite andb_comm. destruct (decide (m = 0)) as [->|]; [by rewrite Z.bits_0|].
    rewrite Z.bits_above_log2; [done|lia|].
    assert (Z.log2 m < n) by (apply Z.log2_lt_pow2; lia). lia.
Qed.

Lemma PTE_FLAGS_PA2PTE pa flags :
  0 ≤ pa < 2 ^ 56 → 0 ≤ flags < 2 ^ 10 → PTE_FLAGS (Z.lor (PA2PTE pa) flags) = flags.
Proof.
  intros Hpa Hf. unfold PTE_FLAGS, PA2PTE. change 1023 with (Z.ones 10).
  rewrite Z.shiftl_mul_pow2, Z.shiftr_div_pow2 by lia.
  rewrite u64_small by (Z.to_euclidean_division_equations; lia).
  rewrite Z.land_lor_distr_l, land_shifted_low by (lia || by split).
  rewrite Z.land_ones by lia. by rewrite Z.lor_0_l, Z.mod_small by lia.
Qed.
