(* ===== verification/Ram.v ===== *)
(** * Memory as bytes, and the byte routines of [kernel/lib/string.c]. *)

From S2P Require Import Prelude.

(** ** Bytes and words *)

Abbreviation ram := (gmap Z Z).
Create HintDb ram_db.

Definition ld8 (m : ram) (a : Z) : Z := default 0 (m !! a).
Definition st8 (m : ram) (a v : Z) : ram := <[a := u8 v]> m.

(** Little-endian 64-bit access. *)
Fixpoint ld_le (n : nat) (m : ram) (a : Z) : Z :=
  match n with O => 0 | S n' => ld8 m a + 256 * ld_le n' m (a + 1) end.

Fixpoint st_le (n : nat) (m : ram) (a v : Z) : ram :=
  match n with O => m | S n' => st_le n' (st8 m a v) (a + 1) (v / 256) end.

Definition ld64 (m : ram) (a : Z) : Z := ld_le 8 m a.
Definition st64 (m : ram) (a v : Z) : ram := st_le 8 m a v.

(** Every cell holds a byte. *)
Definition bytes_ok (m : ram) : Prop := ∀ a, 0 ≤ ld8 m a < 256.

(** ** [string.c] *)

Fixpoint memset_loop (n : nat) (m : ram) (dst c : Z) : ram :=
  match n with O => m | S n' => memset_loop n' (st8 m dst c) (dst + 1) c end.

Definition memset (m : ram) (dst c n : Z) : ram := memset_loop (Z.to_nat n) m dst c.

Fixpoint memcmp_loop (n : nat) (m : ram) (s1 s2 : Z) : Z :=
  match n with
  | O => 0
  | S n' =>
      if negb (ld8 m s1 =? ld8 m s2) then ld8 m s1 - ld8 m s2
      else memcmp_loop n' m (s1 + 1) (s2 + 1)
  end.

Definition memcmp (m : ram) (v1 v2 n : Z) : Z := memcmp_loop (Z.to_nat n) m v1 v2.

(** The backward loop, with [d] and [s] at the ends. *)
Fixpoint memmove_back (n : nat) (m : ram) (d s : Z) : ram :=
  match n with
  | O => m
  | S n' => memmove_back n' (st8 m (d - 1) (ld8 m (s - 1))) (d - 1) (s - 1)
  end.

(** The forward loop. *)
Fixpoint memmove_forw (n : nat) (m : ram) (d s : Z) : ram :=
  match n with
  | O => m
  | S n' => memmove_forw n' (st8 m d (ld8 m s)) (d + 1) (s + 1)
  end.

Definition memmove (m : ram) (dst src n : Z) : ram :=
  if n =? 0 then m
  else if (src <? dst) && (dst <? src + n)
  then memmove_back (Z.to_nat n) m (dst + n) (src + n)
  else memmove_forw (Z.to_nat n) m dst src.

Definition memcpy (m : ram) (dst src n : Z) : ram := memmove m dst src n.

Fixpoint strncmp_loop (n : nat) (m : ram) (p q : Z) : Z :=
  match n with
  | O => 0
  | S n' =>
      if negb (ld8 m p =? 0) && (ld8 m p =? ld8 m q)
      then strncmp_loop n' m (p + 1) (q + 1)
      else ld8 m p - ld8 m q
  end.

Definition strncmp (m : ram) (p q n : Z) : Z := strncmp_loop (Z.to_nat n) m p q.

(** The two loops of [strncpy]: copy up to and including the NUL, then pad. *)
Fixpoint strncpy_loop (n : nat) (m : ram) (s t : Z) : ram :=
  match n with
  | O => m
  | S n' =>
      let c := ld8 m t in
      let m := st8 m s c in
      if c =? 0 then memset_loop n' m (s + 1) 0 else strncpy_loop n' m (s + 1) (t + 1)
  end.

Definition strncpy (m : ram) (s t n : Z) : ram := strncpy_loop (Z.to_nat n) m s t.

(** The loop of [safestrcpy] and the final store, [n] counting the iterations
    that are left; after a NUL the store hits the byte behind it. *)
Fixpoint safestrcpy_loop (n : nat) (m : ram) (s t : Z) : ram :=
  match n with
  | O => st8 m s 0
  | S n' =>
      let c := ld8 m t in
      let m := st8 m s c in
      if c =? 0 then st8 m (s + 1) 0 else safestrcpy_loop n' m (s + 1) (t + 1)
  end.

Definition safestrcpy (m : ram) (s t n : Z) : ram :=
  if n <=? 0 then m else safestrcpy_loop (Z.to_nat (n - 1)) m s t.

(** The loop of [strlen] ends at the first NUL; [fuel] bounds the search. *)
Fixpoint strlen_loop (fuel : nat) (m : ram) (s n : Z) : outcome Z :=
  match fuel with
  | O => Hang
  | S fuel' => if ld8 m (s + n) =? 0 then Ok n else strlen_loop fuel' m s (n + 1)
  end.

Definition strlen (fuel : nat) (m : ram) (s : Z) : outcome Z := strlen_loop fuel m s 0.

(** ** Loads and stores *)

Lemma ld8_st8 m a v b : ld8 (st8 m a v) b = if a =? b then u8 v else ld8 m b.
Proof.
  unfold ld8, st8. destruct (Z.eqb_spec a b) as [<-|].
  - by rewrite lookup_insert_eq.
  - by rewrite lookup_insert_ne by done.
Qed.

Lemma u8_range x : 0 ≤ u8 x < 256.
Proof. apply Z.mod_pos_bound. lia. Qed.

Lemma u8_small x : 0 ≤ x < 256 → u8 x = x.
Proof. intros. by apply Z.mod_small. Qed.

Lemma bytes_ok_st8 m a v : bytes_ok m → bytes_ok (st8 m a v).
Proof. intros H b. rewrite ld8_st8. zcase; [apply u8_range|apply H]. Qed.

Lemma ld_le_ext n m m' a :
  (∀ b, a ≤ b < a + Z.of_nat n → ld8 m b = ld8 m' b) → ld_le n m a = ld_le n m' a.
Proof.
  revert a. induction n as [|n IH]; intros a H; simpl; [done|].
  rewrite H by lia. rewrite (IH (a + 1)); [done|]. intros. apply H. lia.
Qed.

Lemma ld8_st_le n m a v b :
  ld8 (st_le n m a v) b =
  if (a <=? b) && (b <? a + Z.of_nat n) then u8 (v / 256 ^ (b - a)) else ld8 m b.
Proof.
  revert m a v. induction n as [|n IH]; intros m a v; cbn [st_le].
  { repeat zcase; simpl; done || lia. }
  rewrite IH, ld8_st8. destruct (decide (a = b)) as [<-|Hne].
  - rewrite Z.sub_diag, Z.div_1_r. repeat zcase; simpl; done || lia.
  - repeat zcase; simpl; try done; try lia.
    replace (b - a) with (Z.succ (b - (a + 1))) by lia.
    rewrite Z.pow_succ_r by lia. by rewrite Z.div_div by lia.
Qed.

Lemma bytes_ok_st_le n m a v : bytes_ok m → bytes_ok (st_le n m a v).
Proof. intros H b. rewrite ld8_st_le. destruct (_ && _); [apply u8_range|apply H]. Qed.

Lemma bytes_ok_st64 m a v : bytes_ok m → bytes_ok (st64 m a v).
Proof. apply bytes_ok_st_le. Qed.

Lemma ld_le_range n m a : bytes_ok m → 0 ≤ ld_le n m a < 256 ^ Z.of_nat n.
Proof.
  intros H. revert a. induction n as [|n IH]; intros a; cbn [ld_le]; [lia|].
  rewrite Nat2Z.inj_succ, Z.pow_succ_r by lia. specialize (IH (a + 1)). specialize (H a). lia.
Qed.

Lemma ld64_range m a : bytes_ok m → 0 ≤ ld64 m a < 2 ^ 64.
Proof. intros H. apply (ld_le_range 8 m a H). Qed.

Lemma ld_st_le n m a v :
  0 ≤ v < 256 ^ Z.of_nat n → ld_le n (st_le n m a v) a = v.
Proof.
  revert m a v. induction n as [|n IH]; intros m a v Hv; cbn [ld_le st_le].
  { simpl in Hv. lia. }
  rewrite Nat2Z.inj_succ, Z.pow_succ_r in Hv by lia.
  rewrite IH by (split; [apply Z.div_pos; lia|apply Z.div_lt_upper_bound; lia]).
  rewrite ld8_st_le. destruct (Z.leb_spec (a + 1) a); [lia|]. simpl.
  rewrite ld8_st8, Z.eqb_refl. unfold u8. change (2 ^ 8) with 256.
  pose proof (Z.div_mod v 256 ltac:(lia)). lia.
Qed.

Lemma ld64_st64 m a v : 0 ≤ v < 2 ^ 64 → ld64 (st64 m a v) a = v.
Proof. apply (ld_st_le 8). Qed.

Lemma ld64_st64_ne m a v b : b + 8 ≤ a ∨ a + 8 ≤ b → ld64 (st64 m a v) b = ld64 m b.
Proof.
  intros H. apply ld_le_ext. intros c Hc. unfold st64. rewrite ld8_st_le.
  repeat zcase; simpl; done || lia.
Qed.

Lemma ld8_st64_ne m a v b : b < a ∨ a + 8 ≤ b → ld8 (st64 m a v) b = ld8 m b.
Proof. intros H. unfold st64. rewrite ld8_st_le. repeat zcase; simpl; done || lia. Qed.

(** ** Block operations *)

Lemma ld8_memset_loop n m dst c a :
  ld8 (memset_loop n m dst c) a =
  if (dst <=? a) && (a <? dst + Z.of_nat n) then u8 c else ld8 m a.
Proof.
  revert m dst. induction n as [|n IH]; intros m dst; cbn [memset_loop].
  { repeat zcase; simpl; done || lia. }
  rewrite IH, ld8_st8. repeat zcase; simpl; done || lia.
Qed.

Lemma ld8_memset m dst c n a :
  0 ≤ n →
  ld8 (memset m dst c n) a = if (dst <=? a) && (a <? dst + n) then u8 c else ld8 m a.
Proof. intros. unfold memset. by rewrite ld8_memset_loop, Z2Nat.id by done. Qed.

Lemma bytes_ok_memset m dst c n : 0 ≤ n → bytes_ok m → bytes_ok (memset m dst c n).
Proof.
  intros Hn H a. rewrite ld8_memset by done. destruct (_ && _); [apply u8_range|apply H].
Qed.

Lemma ld64_memset_zero m dst n a :
  dst ≤ a → a + 8 ≤ dst + n → ld64 (memset m dst 0 n) a = 0.
Proof.
  intros H1 H2. unfold ld64.
  assert (Hz : ∀ k b, dst ≤ b → b + Z.of_nat k ≤ dst + n → ld_le k (memset m dst 0 n) b = 0).
  { induction k as [|k IH]; intros b Hb1 Hb2; cbn [ld_le]; [done|].
    rewrite IH, ld8_memset by lia. repeat zcase; simpl; done || lia. }
  apply Hz; lia.
Qed.

Lemma ld64_memset_out m dst c n a :
  0 ≤ n → a + 8 ≤ dst ∨ dst + n ≤ a → ld64 (memset m dst c n) a = ld64 m a.
Proof.
  intros Hn H. apply ld_le_ext. intros b Hb. rewrite ld8_memset by done.
  repeat zcase; simpl; done || lia.
Qed.

Lemma ld8_memmove_forw n m d s a :
  bytes_ok m → ¬ (s < d < s + Z.of_nat n) →
  ld8 (memmove_forw n m d s) a =
  if (d <=? a) && (a <? d + Z.of_nat n) then ld8 m (s + (a - d)) else ld8 m a.
Proof.
  revert m d s. induction n as [|n IH]; intros m d s Hm Hov; cbn [memmove_forw].
  { repeat zcase; simpl; done || lia. }
  rewrite IH by (try apply bytes_ok_st8; done || lia).
  rewrite !ld8_st8, u8_small by apply Hm.
  repeat zcase; simpl; subst; try done; try lia; f_equal; lia.
Qed.

Lemma ld8_memmove_back n m d s a :
  bytes_ok m → s < d →
  ld8 (memmove_back n m d s) a =
  if (d - Z.of_nat n <=? a) && (a <? d) then ld8 m (s + (a - d)) else ld8 m a.
Proof.
  revert m d s. induction n as [|n IH]; intros m d s Hm Hov; cbn [memmove_back].
  { repeat zcase; simpl; done || lia. }
  rewrite IH by (try apply bytes_ok_st8; done || lia).
  rewrite !ld8_st8, u8_small by apply Hm.
  repeat zcase; simpl; subst; try done; try lia; f_equal; lia.
Qed.

Lemma ld8_memmove m dst src n a :
  bytes_ok m → 0 ≤ n →
  ld8 (memmove m dst src n) a =
  if (dst <=? a) && (a <? dst + n) then ld8 m (src + (a - dst)) else ld8 m a.
Proof.
  intros Hm Hn. unfold memmove. destruct (Z.eqb_spec n 0) as [->|].
  { repeat zcase; simpl; done || lia. }
  destruct (Z.ltb_spec src dst), (Z.ltb_spec dst (src + n)); simpl;
    rewrite ?ld8_memmove_back, ?ld8_memmove_forw, Z2Nat.id by (done || lia); try done.
  replace (dst + n - n) with dst by lia.
  by replace (src + n + (a - (dst + n))) with (src + (a - dst)) by lia.
Qed.

Lemma bytes_ok_memmove m dst src n :
  bytes_ok m → 0 ≤ n → bytes_ok (memmove m dst src n).
Proof. intros Hm Hn a. rewrite ld8_memmove by done. destruct (_ && _); apply Hm. Qed.

Lemma ld64_memmove_out m dst src n a :
  bytes_ok m → 0 ≤ n → a + 8 ≤ dst ∨ dst + n ≤ a → ld64 (memmove m dst src n) a = ld64 m a.
Proof.
  intros Hm Hn H. apply ld_le_ext. intros b Hb. rewrite ld8_memmove by done.
  repeat zcase; simpl; done || lia.
Qed.

#[export] Hint Resolve bytes_ok_st8 bytes_ok_st64 bytes_ok_memset bytes_ok_memmove : ram_db.

(** Concrete memories. *)
Fixpoint put (m : ram) (a : Z) (l : list Z) : ram :=
  match l with [] => m | v :: l' => put (st8 m a v) (a + 1) l' end.

Lemma bytes_ok_empty : bytes_ok ∅.
Proof. intros a. unfold ld8. rewrite lookup_empty. simpl. lia. Qed.

Lemma bytes_ok_put m a l : bytes_ok m → bytes_ok (put m a l).
Proof. revert m a. induction l as [|v l IH]; intros m a H; simpl; auto with ram_db. Qed.

#[export] Hint Resolve bytes_ok_empty bytes_ok_put : ram_db.
