(* ===== verification/KString.v ===== *)
(** * Correctness of the string routines of [kernel/lib/string.c]. *)

From S2P Require Import Prelude.
From S2P Require Import Ram.

(** [memmove] copies as if through a separate buffer, also when source and
    destination overlap: the destination holds what the source held before the
    call, and no other byte changes. *)
Theorem memmove_correct (m : ram) (dst src n : Z) :
  bytes_ok m → 0 ≤ n →
  (∀ i, 0 ≤ i < n → ld8 (memmove m dst src n) (dst + i) = ld8 m (src + i)) ∧
  (∀ a, a < dst ∨ dst + n ≤ a → ld8 (memmove m dst src n) a = ld8 m a).
Proof.
  intros Hm Hn. split.
  - intros i Hi. rewrite ld8_memmove by done.
    replace (src + (dst + i - dst)) with (src + i) by lia.
    repeat zcase; simpl; done || lia.
  - intros a Ha. rewrite ld8_memmove by done. repeat zcase; simpl; done || lia.
Qed.

Definition demo_ram : ram := put ∅ 100 [104; 101; 108; 108; 111; 0].

Lemma demo_ram_ok : bytes_ok demo_ram.
Proof. unfold demo_ram. auto with ram_db. Qed.

Lemma memmove_correct_witness :
  ld8 (memmove demo_ram 102 100 5) (102 + 3) = ld8 demo_ram (100 + 3).
Proof. apply (memmove_correct demo_ram 102 100 5 demo_ram_ok); lia. Defined.

(** ** Strings *)

(** The [n] bytes from [s] on are not NUL. *)
Definition no_nul (m : ram) (s n : Z) : Prop := ∀ i, 0 ≤ i < n → ld8 m (s + i) ≠ 0.

(** A NUL-terminated string of length [n] at [s]. *)
Definition cstring (m : ram) (s n : Z) : Prop := 0 ≤ n ∧ no_nul m s n ∧ ld8 m (s + n) = 0.

Lemma strlen_loop_ok fuel m s n k :
  cstring m s n → 0 ≤ k ≤ n → n - k < Z.of_nat fuel → strlen_loop fuel m s k = Ok n.
Proof.
  intros (Hn & Hnn & Hz). revert k. induction fuel as [|fuel IH]; intros k Hk Hf; [lia|].
  simpl. destruct (Z.eqb_spec (ld8 m (s + k)) 0) as [E|E].
  - destruct (decide (k = n)) as [->|]; [done|]. by destruct (Hnn k ltac:(lia)).
  - destruct (decide (k = n)) as [->|]; [done|]. apply IH; lia.
Qed.

Lemma cstring_tail m t n : cstring m t n → ld8 m t ≠ 0 → cstring m (t + 1) (n - 1).
Proof.
  intros (Hn & Hnn & Hz) Ht. destruct (decide (n = 0)) as [->|].
  { rewrite Z.add_0_r in Hz. done. }
  split; [lia|]. split.
  - intros i Hi. replace (t + 1 + i) with (t + (i + 1)) by lia. apply Hnn. lia.
  - by replace (t + 1 + (n - 1)) with (t + n) by lia.
Qed.

Lemma cstring_zero m t n : cstring m t n → ld8 m t = 0 → n = 0.
Proof.
  intros (Hn & Hnn & Hz) Ht. destruct (decide (n = 0)) as [|]; [done|].
  specialize (Hnn 0 ltac:(lia)). rewrite Z.add_0_r in Hnn. done.
Qed.

Lemma cstring_ext m m' t n :
  (∀ a, t ≤ a ≤ t + n → ld8 m' a = ld8 m a) → cstring m t n → cstring m' t n.
Proof.
  intros He (Hn & Hnn & Hz). split; [done|]. split.
  - intros i Hi. rewrite He by lia. by apply Hnn.
  - rewrite He by lia. done.
Qed.

Lemma safestrcpy_loop_ok n : ∀ m s t len,
  bytes_ok m → cstring m t len →
  (t + len < s ∨ s + Z.of_nat n < t) →
  let k := Z.min len (Z.of_nat n) in
  let m' := safestrcpy_loop n m s t in
  (∀ i, 0 ≤ i < k → ld8 m' (s + i) = ld8 m (t + i)) ∧ ld8 m' (s + k) = 0 ∧
  (∀ a, a < s ∨ s + Z.of_nat n < a → ld8 m' a = ld8 m a).
Proof.
  induction n as [|n IH]; intros m s t len Hm Hc Hd; cbn zeta; cbn [safestrcpy_loop].
  { pose proof Hc as [? _]. rewrite Z.min_r by lia. split_and!; [intros; lia| |].
    - rewrite ld8_st8. zcase; [done|lia].
    - intros a Ha. rewrite ld8_st8. zcase; [lia|done]. }
  pose proof Hc as [Hlen _]. destruct (Z.eqb_spec (ld8 m t) 0) as [E|E].
  - apply (cstring_zero _ _ _ Hc) in E as E0. subst len. rewrite Z.min_l by lia.
    split_and!; [intros; lia| |].
    + rewrite !ld8_st8. repeat zcase; try lia. by rewrite E.
    + intros a Ha. rewrite !ld8_st8. repeat zcase; lia.
  - pose proof (cstring_tail _ _ _ Hc E) as Ht. pose proof Ht as [? _].
    destruct (IH (st8 m s (ld8 m t)) (s + 1) (t + 1) (len - 1)) as (H1 & H2 & H3);
      [auto with ram_db| |lia|].
    { eapply cstring_ext; [|exact Ht]. intros a Ha. rewrite ld8_st8. zcase; [lia|done]. }
    replace (Z.min len (Z.of_nat (S n))) with (Z.min (len - 1) (Z.of_nat n) + 1) by lia.
    split_and!.
    + intros i Hi. destruct (decide (i = 0)) as [->|].
      * rewrite !Z.add_0_r, H3 by lia. rewrite ld8_st8, Z.eqb_refl. by apply u8_small.
      * replace (s + i) with (s + 1 + (i - 1)) by lia. rewrite H1 by lia.
        rewrite ld8_st8. zcase; [lia|]. f_equal. lia.
    + by replace (s + (Z.min (len - 1) (Z.of_nat n) + 1))
        with (s + 1 + Z.min (len - 1) (Z.of_nat n)) by lia.
    + intros a Ha. rewrite H3 by lia. rewrite ld8_st8. zcase; [lia|done].
Qed.

(** [safestrcpy] always leaves a NUL-terminated string in the buffer: the
    longest prefix of the source that fits with its NUL. It writes nothing
    outside the [n] bytes of the buffer, and [strlen] measures the result. *)
Theorem safestrcpy_correct (m : ram) (s t n len : Z) :
  bytes_ok m → 0 < n → cstring m t len → t + len < s ∨ s + n ≤ t →
  let m' := safestrcpy m s t n in
  let k := Z.min len (n - 1) in
  cstring m' s k ∧ (∀ i, 0 ≤ i < k → ld8 m' (s + i) = ld8 m (t + i)) ∧
  (∀ a, a < s ∨ s + n ≤ a → ld8 m' a = ld8 m a) ∧
  strlen (Z.to_nat n) m' s = Ok k.
Proof.
  intros Hm Hn Hc Hd m' k. subst m'. unfold safestrcpy.
  destruct (Z.leb_spec n 0); [lia|]. pose proof Hc as (Hlen & Hnn & _).
  destruct (safestrcpy_loop_ok (Z.to_nat (n - 1)) m s t len Hm Hc ltac:(lia)) as (H1 & H2 & H3).
  rewrite Z2Nat.id in H1, H2, H3 by lia.
  assert (Hs : cstring (safestrcpy_loop (Z.to_nat (n - 1)) m s t) s k).
  { split; [lia|]. split; [|done]. intros i Hi. rewrite H1 by lia. apply Hnn. lia. }
  split_and!; [done|done|intros; apply H3; lia|].
  apply strlen_loop_ok; [done|lia|lia].
Qed.

Lemma safestrcpy_correct_witness :
  cstring demo_ram 100 5 ∧ strlen 4 (safestrcpy demo_ram 200 100 4) 200 = Ok 3.
Proof.
  assert (Hc : cstring demo_ram 100 5).
  { split; [lia|]. split; [|reflexivity]. intros i Hi.
    assert (i = 0 ∨ i = 1 ∨ i = 2 ∨ i = 3 ∨ i = 4) as [->|[->|[->|[->| ->]]]] by lia;
      vm_compute; discriminate. }
  split; [exact Hc|].
  destruct (safestrcpy_correct demo_ram 200 100 4 5 demo_ram_ok ltac:(lia) Hc ltac:(lia))
    as (_ & _ & _ & E). exact E.
Defined.

Lemma strncmp_loop_zero n m p q :
  bytes_ok m →
  strncmp_loop n m p q = 0 ↔
  ∃ k, 0 ≤ k ≤ Z.of_nat n ∧ (∀ i, 0 ≤ i < k → ld8 m (p + i) = ld8 m (q + i)) ∧
    no_nul m p k ∧ (k < Z.of_nat n → ld8 m (p + k) = 0 ∧ ld8 m (q + k) = 0).
Proof.
  intros Hm. revert p q. induction n as [|n IH]; intros p q; cbn [strncmp_loop].
  { split; [|done]. intros _. exists 0. split; [lia|]. split_and!; unfold no_nul; intros; lia. }
  destruct (Z.eqb_spec (ld8 m p) 0) as [Ep|Ep]; simpl.
  - split.
    + intros H. exists 0. rewrite !Z.add_0_r. split; [lia|].
      split_and!; unfold no_nul; intros; lia.
    + intros (k & Hk & He & Hnn & Hend). destruct (decide (k = 0)) as [->|].
      * rewrite !Z.add_0_r in Hend. lia.
      * specialize (Hnn 0 ltac:(lia)). rewrite Z.add_0_r in Hnn. done.
  - destruct (Z.eqb_spec (ld8 m p) (ld8 m q)) as [Eq|Eq].
    + rewrite IH. split; intros (k & Hk & He & Hnn & Hend).
      * exists (k + 1). split; [lia|]. split_and!.
        -- intros i Hi. destruct (decide (i = 0)) as [->|]; [by rewrite !Z.add_0_r|].
           replace (p + i) with (p + 1 + (i - 1)) by lia.
           replace (q + i) with (q + 1 + (i - 1)) by lia. apply He. lia.
        -- intros i Hi. destruct (decide (i = 0)) as [->|]; [by rewrite !Z.add_0_r|].
           replace (p + i) with (p + 1 + (i - 1)) by lia. apply Hnn. lia.
        -- intros ?. replace (p + (k + 1)) with (p + 1 + k) by lia.
           replace (q + (k + 1)) with (q + 1 + k) by lia. apply Hend. lia.
      * destruct (decide (k = 0)) as [->|]; [rewrite !Z.add_0_r in Hend; lia|].
        exists (k - 1). split; [lia|]. split_and!.
        -- intros i Hi. replace (p + 1 + i) with (p + (i + 1)) by lia.
           replace (q + 1 + i) with (q + (i + 1)) by lia. apply He. lia.
        -- intros i Hi. replace (p + 1 + i) with (p + (i + 1)) by lia. apply Hnn. lia.
        -- intros ?. replace (p + 1 + (k - 1)) with (p + k) by lia.
           replace (q + 1 + (k - 1)) with (q + k) by lia. apply Hend. lia.
    + split; [lia|]. intros (k & Hk & He & Hnn & Hend).
      destruct (decide (k = 0)) as [->|]; [rewrite !Z.add_0_r in Hend; lia|].
      specialize (He 0 ltac:(lia)). rewrite !Z.add_0_r in He. lia.
Qed.
