(* ===== verification/Block.v ===== *)
(** * Byte blocks and little-endian fields.

    A disk block, like any C object the kernel views as raw bytes, is a list
    of bytes; casts of a buffer to a structure become reads and writes of little-endian
    fields at fixed offsets ([rd]/[wr]), and [memmove] into part of an object
    becomes [splice]. *)

From S2P Require Import Prelude.

(** [l[off .. off+n)]. *)
Definition slice (off n : Z) (l : list Z) : list Z :=
  take (Z.to_nat n) (drop (Z.to_nat off) l).

(** Overwriting [l] from offset [off] with [bs]. *)
Definition splice (off : Z) (bs l : list Z) : list Z :=
  take (Z.to_nat off) l ++ bs ++ drop (Z.to_nat off + length bs) l.

(** Little-endian coding of an integer in [n] bytes. *)
Fixpoint to_le (n : nat) (v : Z) : list Z :=
  match n with
  | O => []
  | S n' => v mod 256 :: to_le n' (v / 256)
  end.

Fixpoint of_le (l : list Z) : Z :=
  match l with
  | [] => 0
  | b :: l' => b + 256 * of_le l'
  end.

(** The [n]-byte unsigned field at offset [off]. *)
Definition rd (n : nat) (l : list Z) (off : Z) : Z := of_le (slice off (Z.of_nat n) l).
Definition wr (n : nat) (l : list Z) (off v : Z) : list Z := splice off (to_le n v) l.

Definition i16 (x : Z) : Z := (x + 2 ^ 15) mod 2 ^ 16 - 2 ^ 15.

(** ** Lemmas *)

Lemma length_to_le n v : length (to_le n v) = n.
Proof. revert v. induction n; intros; simpl; auto. Qed.

Lemma of_to_le n v : of_le (to_le n v) = v mod 2 ^ (8 * Z.of_nat n).
Proof.
  revert v. induction n as [|n IH]; intros v.
  - simpl. by rewrite Z.mod_1_r.
  - cbn [to_le of_le]. rewrite IH.
    replace (8 * Z.of_nat (S n)) with (8 + 8 * Z.of_nat n) by lia.
    rewrite Z.pow_add_r by lia. change (2 ^ 8) with 256.
    rewrite Z.rem_mul_r; [done|lia|]. apply Z.pow_pos_nonneg; lia.
Qed.

Lemma of_to_le_small n v : 0 ≤ v < 2 ^ (8 * Z.of_nat n) → of_le (to_le n v) = v.
Proof. intros. rewrite of_to_le. by apply Z.mod_small. Qed.

Lemma to_le_bytes n v : Forall (λ b, 0 ≤ b < 256) (to_le n v).
Proof.
  revert v. induction n; intros; simpl; constructor; auto.
  apply Z.mod_pos_bound. lia.
Qed.

Lemma of_le_range l : Forall (λ b, 0 ≤ b < 256) l → 0 ≤ of_le l < 2 ^ (8 * zlen l).
Proof.
  unfold zlen. induction 1 as [|b l Hb _ IH]; simpl; [lia|].
  replace (8 * Z.of_nat (S (length l))) with (8 + 8 * Z.of_nat (length l)) by lia.
  rewrite Z.pow_add_r by lia. change (2 ^ 8) with 256. lia.
Qed.

Lemma to_of_le l : Forall (λ b, 0 ≤ b < 256) l → to_le (length l) (of_le l) = l.
Proof.
  induction 1 as [|b l Hb Hl IH]; [done|]. cbn [length to_le of_le].
  rewrite (Z.mul_comm 256), Z_mod_plus_full, Z.mod_small by lia.
  rewrite Z_div_plus_full, Z.div_small by lia. by rewrite Z.add_0_l, IH.
Qed.

Lemma zlen_slice off n l : 0 ≤ off → 0 ≤ n → off + n ≤ zlen l → zlen (slice off n l) = n.
Proof. unfold zlen, slice. intros. rewrite length_take, length_drop. lia. Qed.

Lemma zlen_splice off bs l : 0 ≤ off → off + zlen bs ≤ zlen l → zlen (splice off bs l) = zlen l.
Proof.
  unfold zlen, splice. intros. rewrite !length_app, length_take, length_drop. lia.
Qed.

Lemma zlen_wr n l off v : 0 ≤ off → off + Z.of_nat n ≤ zlen l → zlen (wr n l off v) = zlen l.
Proof. intros. unfold wr. apply zlen_splice; [done|]. unfold zlen. by rewrite length_to_le. Qed.

(** Reading back exactly what was written. *)
Lemma slice_splice off bs l :
  0 ≤ off → off + zlen bs ≤ zlen l → slice off (zlen bs) (splice off bs l) = bs.
Proof.
  unfold zlen, slice, splice. intros H1 H2.
  rewrite drop_app_length' by (rewrite length_take; lia).
  rewrite take_app_length'; [done|lia].
Qed.

(** A field that does not meet the written range is unchanged. *)
Lemma slice_splice_ne off bs l o n :
  0 ≤ off → off + zlen bs ≤ zlen l → 0 ≤ o → 0 ≤ n →
  o + n ≤ off ∨ off + zlen bs ≤ o →
  slice o n (splice off bs l) = slice o n l.
Proof.
  unfold zlen, slice, splice. intros H1 H2 H3 H4 [H5|H5].
  - rewrite !take_drop_commute. f_equal.
    rewrite take_app_le by (rewrite length_take; lia).
    rewrite take_take. f_equal. lia.
  - f_equal. rewrite app_assoc.
    rewrite drop_app_ge by (rewrite length_app, length_take; lia).
    rewrite drop_drop. f_equal. rewrite length_app, length_take. lia.
Qed.

Lemma rd_wr n l off v :
  0 ≤ off → off + Z.of_nat n ≤ zlen l → rd n (wr n l off v) off = v mod 2 ^ (8 * Z.of_nat n).
Proof.
  intros. unfold rd, wr.
  assert (zlen (to_le n v) = Z.of_nat n) as E by (unfold zlen; by rewrite length_to_le).
  rewrite <- E. rewrite slice_splice by lia. rewrite of_to_le. by rewrite E.
Qed.

Lemma rd_wr_ne n k l off o v :
  0 ≤ off → off + Z.of_nat n ≤ zlen l → 0 ≤ o →
  o + Z.of_nat k ≤ off ∨ off + Z.of_nat n ≤ o →
  rd k (wr n l off v) o = rd k l o.
Proof.
  intros. unfold rd, wr. f_equal.
  apply slice_splice_ne; unfold zlen in *; rewrite ?length_to_le; lia.
Qed.
