(* ===== verification/Ring.v ===== *)
(** * Ring buffers with free-running counters.

    Pipes, the console and the UART driver all use the same structure: an array
    of [SZ] cells and two counters that only ever increase, modulo the machine
    word [W]; cell [i] of the stream lives at index [i % SZ]. Since [SZ] divides
    [W] the wrap-around of the counters is harmless. *)

From S2P Require Import Prelude.

Section ring.
Context (SZ W : Z).

Class RingSize : Prop := {
  ring_pos : 0 < SZ;
  ring_fit : SZ < W;
  ring_div : W mod SZ = 0;
}.

Context `{RS : RingSize}.

(** Cell [i] of the stream. *)
Definition cell (data : list Z) (i : Z) : Z := default 0 (data !! Z.to_nat (i mod SZ)).

(** The [n] bytes of the stream from counter value [r] on. *)
Definition content (data : list Z) (r : Z) (n : nat) : list Z :=
  (λ k, cell data (r + Z.of_nat k)) <$> seq 0 n.

(** [data], [r] and [w] represent the queue [q]. *)
Record ring (data : list Z) (r w : Z) (q : list Z) : Prop := {
  rg_len : zlen data = SZ;
  rg_r : 0 ≤ r < W;
  rg_w : 0 ≤ w < W;
  rg_count : (w - r) mod W = zlen q;
  rg_cap : zlen q ≤ SZ;
  rg_data : content data r (length q) = q;
}.

Lemma mod_mod x : x mod W mod SZ = x mod SZ.
Proof using RS.
  pose proof ring_pos. pose proof ring_fit. pose proof ring_div as Hd.
  apply Z.mod_divide in Hd as [k Hk]; [|lia].
  rewrite Hk. rewrite (Z.mul_comm k). rewrite Z.rem_mul_r by (lia || nia).
  rewrite (Z.mul_comm SZ ((x / SZ) mod k)), Z.mod_add by lia. apply Z.mod_mod. lia.
Qed.

Lemma cell_wrap data i : cell data (i mod W) = cell data i.
Proof using RS. unfold cell. by rewrite mod_mod. Qed.

Lemma content_cons data r n : content data r (S n) = cell data r :: content data (r + 1) n.
Proof.
  unfold content. cbn [seq fmap list_fmap]. rewrite Z.add_0_r. f_equal.
  rewrite <- seq_shift, <- list_fmap_compose. apply list_fmap_ext. intros i k _. simpl. f_equal. lia.
Qed.

Lemma content_snoc data r n : content data r (n + 1) = content data r n ++ [cell data (r + Z.of_nat n)].
Proof. unfold content. by rewrite seq_app, fmap_app. Qed.

Lemma content_wrap data r n : content data (r mod W) n = content data r n.
Proof using RS.
  unfold content. apply list_fmap_ext. intros i k _. cbn beta.
  rewrite <- (cell_wrap data (r mod W + Z.of_nat k)), <- (cell_wrap data (r + Z.of_nat k)).
  f_equal. pose proof ring_pos. pose proof ring_fit. by rewrite Zplus_mod_idemp_l.
Qed.

Lemma length_content data r n : length (content data r n) = n.
Proof. unfold content. by rewrite length_fmap, length_seq. Qed.

(** Writing one cell leaves the [SZ - 1] cells before it alone. *)
Lemma content_insert data r n w c :
  zlen data = SZ → w mod SZ = (r + Z.of_nat n) mod SZ → Z.of_nat n < SZ →
  content (<[Z.to_nat (w mod SZ) := c]> data) r n = content data r n.
Proof using RS.
  intros Hl Hw Hn. pose proof ring_pos as Hp. unfold content. apply list_fmap_ext. intros i k Hk. cbn beta.
  apply list_elem_of_lookup_2, elem_of_seq in Hk. unfold cell. f_equal. rewrite Hw.
  apply list_lookup_insert_ne. intros E.
  pose proof (Z.mod_pos_bound (r + Z.of_nat n) SZ Hp). pose proof (Z.mod_pos_bound (r + Z.of_nat k) SZ Hp).
  assert (E' : (r + Z.of_nat n) mod SZ = (r + Z.of_nat k) mod SZ) by lia.
  apply (f_equal (λ x, (x - (r + Z.of_nat k) mod SZ) mod SZ)) in E'. rewrite Z.sub_diag in E'.
  rewrite <- Zminus_mod in E'.
  replace (r + Z.of_nat n - (r + Z.of_nat k)) with (Z.of_nat n - Z.of_nat k) in E' by lia.
  rewrite !Z.mod_small in E' by lia. lia.
Qed.

Lemma cell_insert data i c :
  zlen data = SZ → cell (<[Z.to_nat (i mod SZ) := c]> data) i = c.
Proof using RS.
  intros Hl. unfold cell. pose proof ring_pos as Hp. pose proof (Z.mod_pos_bound i SZ Hp).
  rewrite list_lookup_insert_eq; [done|]. unfold zlen in Hl. lia.
Qed.

(** The write counter in terms of the queue. *)
Lemma ring_w data r w q : ring data r w q → w = (r + zlen q) mod W.
Proof using RS.
  intros [_ Hr Hw Hc Hcap _]. rewrite <- Hc.
  rewrite Zplus_mod_idemp_r. replace (r + (w - r)) with w by lia. symmetry. by apply Z.mod_small.
Qed.

(** [data[w++ % SZ] = c] when the ring is not full. *)
Lemma ring_push data r w q c :
  ring data r w q → zlen q < SZ →
  ring (<[Z.to_nat (w mod SZ) := c]> data) r ((w + 1) mod W) (q ++ [c]).
Proof using RS.
  intros Hr Hn. pose proof (ring_w _ _ _ _ Hr) as Ew. destruct Hr as [Hl Hr Hw Hc Hcap Hd].
  pose proof ring_pos. pose proof ring_fit.
  assert (Em : w mod SZ = (r + zlen q) mod SZ) by (rewrite Ew; apply mod_mod).
  constructor; try done.
  - by rewrite zlen_insert.
  - apply Z.mod_pos_bound. lia.
  - rewrite Zminus_mod_idemp_l. replace (w + 1 - r) with ((w - r) + 1) by lia.
    rewrite <- Zplus_mod_idemp_l, Hc. unfold zlen in *. rewrite length_app. simpl.
    rewrite Z.mod_small; lia.
  - unfold zlen in *. rewrite length_app. simpl. lia.
  - rewrite length_app. simpl. rewrite content_snoc. f_equal.
    + rewrite content_insert; done.
    + f_equal. unfold cell, zlen in *. rewrite <- Em. fold (cell data w).
      change (default 0 (<[Z.to_nat (w mod SZ) := c]> data !! Z.to_nat (w mod SZ)) = c).
      by apply cell_insert.
Qed.

(** [c = data[r++ % SZ]] when the ring is not empty. *)
Lemma ring_pop data r w c q :
  ring data r w (c :: q) → cell data r = c ∧ ring data ((r + 1) mod W) w q.
Proof using RS.
  intros [Hl Hr Hw Hc Hcap Hd]. pose proof ring_pos. pose proof ring_fit.
  cbn [length] in Hd. rewrite content_cons in Hd. injection Hd as Hd1 Hd2.
  split; [done|]. constructor; try done.
  - apply Z.mod_pos_bound. lia.
  - rewrite Zminus_mod_idemp_r. replace (w - (r + 1)) with ((w - r) - 1) by lia.
    rewrite <- Zminus_mod_idemp_l, Hc. unfold zlen in *. simpl in *. rewrite Z.mod_small; lia.
  - unfold zlen in *. simpl in *. lia.
  - by rewrite content_wrap.
Qed.

(** Dropping the newest byte: [w--]. *)
Lemma ring_unpush data r w q c :
  ring data r w (q ++ [c]) → cell data (w - 1) = c ∧ ring data r ((w - 1) mod W) q.
Proof using RS.
  intros Hr. pose proof (ring_w _ _ _ _ Hr) as Ew. destruct Hr as [Hl Hr Hw Hc Hcap Hd].
  pose proof ring_pos. pose proof ring_fit. unfold zlen in *. rewrite length_app in *. simpl in *.
  rewrite content_snoc in Hd. apply app_inj_2 in Hd as [Hd1 Hd2]; [|done]. injection Hd2 as Hd2.
  split.
  - rewrite <- Hd2. rewrite <- (cell_wrap data (w - 1)), <- (cell_wrap data (r + _)). f_equal.
    rewrite Ew, Zminus_mod_idemp_l. f_equal. lia.
  - constructor; unfold zlen; try done; [apply Z.mod_pos_bound; lia| |lia].
    rewrite Zminus_mod_idemp_l. replace (w - 1 - r) with ((w - r) - 1) by lia.
    rewrite <- Zminus_mod_idemp_l, Hc. rewrite Z.mod_small; lia.
Qed.

Lemma ring_nil data r : zlen data = SZ → 0 ≤ r < W → ring data r r [].
Proof using RS.
  intros Hl Hr. pose proof ring_pos. constructor; try done; [|unfold zlen; simpl; lia].
  rewrite Z.sub_diag. rewrite Z.mod_0_l by lia. done.
Qed.

(** The emptiness and fullness tests of the code. *)
Lemma ring_empty data r w q : ring data r w q → w = r ↔ q = [].
Proof using RS.
  intros [_ Hr Hw Hc Hcap _]. pose proof ring_fit. split.
  - intros ->. rewrite Z.sub_diag, Z.mod_0_l in Hc by lia. destruct q; [done|].
    unfold zlen in Hc. simpl in Hc. lia.
  - intros ->. unfold zlen in Hc. simpl in Hc. apply Z.mod_divide in Hc as [k Hk]; [|lia].
    assert (k = 0) by nia. nia.
Qed.

Lemma ring_full data r w q : ring data r w q → w = (r + SZ) mod W ↔ zlen q = SZ.
Proof using RS.
  intros Hr. pose proof (ring_w _ _ _ _ Hr) as Ew. destruct Hr as [_ Hr Hw Hc Hcap _].
  pose proof ring_fit. pose proof ring_pos. split.
  - intros ->. rewrite Zminus_mod_idemp_l in Hc. replace (r + SZ - r) with SZ in Hc by lia.
    rewrite Z.mod_small in Hc; lia.
  - intros E. by rewrite Ew, E.
Qed.
End ring.
