(* ===== verification/Printf.v ===== *)
(** * Formatted output: [kernel/lib/printf.c] and [user/printf.c].

    The bytes a call hands to [consputc] (kernel) or writes to its descriptor
    (user), in order, are its result. Format strings are byte lists without the
    final NUL; a variadic argument is tagged with the type the caller passed, and
    a conversion that fetches an argument of another type, or none, is a fault. *)

From S2P Require Import Prelude.

(** ** The code shared by both *)

Inductive va :=
| VInt (v : Z)
| VU64 (v : Z)
| VStr (s : option (list Z)).

Definition PERCENT : Z := 37.
Definition MINUS : Z := 45.

(** The [do ... while] loop of [printint]: fills [buf] from [i] with the digits
    of [x], least significant first. *)
Fixpoint printint_digits (fuel : nat) (digits : list Z) (base : Z) (buf : list Z) (i x : Z)
    : outcome (list Z * Z) :=
  match fuel with
  | O => Hang
  | S fuel' =>
      d ← arr_get digits (x mod base);
      buf' ← arr_set buf i d;
      if x / base =? 0 then Ok (buf', i + 1)
      else printint_digits fuel' digits base buf' (i + 1) (x / base)
  end.

(** [while (--i >= 0) putc(buf[i])]. *)
Fixpoint printint_emit (i : nat) (buf : list Z) : outcome (list Z) :=
  match i with
  | O => Ok []
  | S i' =>
      c ← arr_get buf (Z.of_nat i');
      l ← printint_emit i' buf;
      Ok (c :: l)
  end.

(** [printint], given the magnitude and whether a minus sign is due. *)
Definition print_magnitude (digits : list Z) (x base : Z) (neg : bool) : outcome (list Z) :=
  '(buf, i) ← printint_digits 32 digits base (replicate 16 0) 0 x;
  if neg then
    buf' ← arr_set buf i MINUS;
    printint_emit (Z.to_nat (i + 1)) buf'
  else printint_emit (Z.to_nat i) buf.

(** The loop of [printptr]. *)
Fixpoint printptr_loop (n : nat) (digits : list Z) (x : Z) : outcome (list Z) :=
  match n with
  | O => Ok []
  | S n' =>
      c ← arr_get digits (Z.shiftr x 60);
      l ← printptr_loop n' digits (u64 (Z.shiftl x 4));
      Ok (c :: l)
  end.

Definition print_pointer (digits : list Z) (x : Z) : outcome (list Z) :=
  l ← printptr_loop 16 digits x;
  Ok (chars "0x" ++ l).

Definition null_str : list Z := chars "(null)".

(** [va_arg(ap, T)] for the three types the code fetches. *)
Definition va_int (ap : list va) : outcome (Z * list va) :=
  match ap with VInt v :: ap' => Ok (v, ap') | _ => Fault end.
Definition va_u64 (ap : list va) : outcome (Z * list va) :=
  match ap with VU64 v :: ap' => Ok (v, ap') | _ => Fault end.
Definition va_str (ap : list va) : outcome (list Z * list va) :=
  match ap with VStr s :: ap' => Ok (default null_str s, ap') | _ => Fault end.

(** ** [kernel/lib/printf.c] *)

Module Kernel.

Definition digits : list Z := chars "0123456789abcdef".

Definition printint (xx base : Z) (sign : bool) : outcome (list Z) :=
  if sign && (xx <? 0) then print_magnitude digits (u32 (- xx)) base true
  else print_magnitude digits (u32 xx) base false.

Definition printptr (x : Z) : outcome (list Z) := print_pointer digits x.

(** One conversion: the bytes printed and the arguments left. *)
Definition conversion (c : Z) (ap : list va) : outcome (list Z * list va) :=
  if c =? 100 then '(v, ap') ← va_int ap; l ← printint v 10 true; Ok (l, ap')
  else if c =? 120 then '(v, ap') ← va_int ap; l ← printint v 16 true; Ok (l, ap')
  else if c =? 112 then '(v, ap') ← va_u64 ap; l ← printptr v; Ok (l, ap')
  else if c =? 115 then va_str ap
  else if c =? PERCENT then Ok ([PERCENT], ap)
  else Ok ([PERCENT; c], ap).

Fixpoint printf (fmt : list Z) (ap : list va) : outcome (list Z) :=
  match fmt with
  | [] => Ok []
  | c :: fmt' =>
      if c =? 0 then Ok []
      else if negb (c =? PERCENT) then l ← printf fmt' ap; Ok (c :: l)
      else
        match fmt' with
        | [] => Ok []
        | d :: fmt'' =>
            if d =? 0 then Ok []
            else
              '(l, ap') ← conversion d ap;
              l' ← printf fmt'' ap';
              Ok (l ++ l')
        end
  end.

(** What [panic(s)] prints before it stops; [s] is itself a format. *)
Definition panic_output (s : list Z) : outcome (list Z) :=
  l1 ← printf (chars "panic: ") [];
  l2 ← printf s [];
  l3 ← printf [10] [];
  Ok (l1 ++ l2 ++ l3).

End Kernel.

(** ** [user/printf.c] *)

Module User.

Definition digits : list Z := chars "0123456789ABCDEF".

Definition printint (xx base : Z) (sgn : bool) : outcome (list Z) :=
  if sgn && (xx <? 0) then print_magnitude digits (u32 (- xx)) base true
  else print_magnitude digits (u32 xx) base false.

Definition printptr (x : Z) : outcome (list Z) := print_pointer digits x.

Definition conversion (c : Z) (ap : list va) : outcome (list Z * list va) :=
  if c =? 100 then '(v, ap') ← va_int ap; l ← printint v 10 true; Ok (l, ap')
  else if c =? 108 then '(v, ap') ← va_u64 ap; l ← printint (i32 v) 10 false; Ok (l, ap')
  else if c =? 120 then '(v, ap') ← va_int ap; l ← printint v 16 false; Ok (l, ap')
  else if c =? 112 then '(v, ap') ← va_u64 ap; l ← printptr v; Ok (l, ap')
  else if c =? 115 then va_str ap
  else if c =? 99 then '(v, ap') ← va_int ap; Ok ([u8 v], ap')
  else if c =? PERCENT then Ok ([c], ap)
  else Ok ([PERCENT; c], ap).

(** [state] is true after a percent sign. *)
Fixpoint vprintf_loop (fmt : list Z) (state : bool) (ap : list va) : outcome (list Z) :=
  match fmt with
  | [] => Ok []
  | c :: fmt' =>
      if c =? 0 then Ok []
      else if negb state then
        if c =? PERCENT then vprintf_loop fmt' true ap
        else l ← vprintf_loop fmt' false ap; Ok (c :: l)
      else
        '(l, ap') ← conversion c ap;
        l' ← vprintf_loop fmt' false ap';
        Ok (l ++ l')
  end.

Definition vprintf (fmt : list Z) (ap : list va) : outcome (list Z) := vprintf_loop fmt false ap.

(** The writes of a call: one byte each, to [fd]. *)
Definition fprintf (fd : Z) (fmt : list Z) (ap : list va) : outcome (list (Z * Z)) :=
  l ← vprintf fmt ap;
  Ok (map (λ c, (fd, c)) l).

Definition printf (fmt : list Z) (ap : list va) : outcome (list (Z * Z)) := fprintf 1 fmt ap.

End User.

(** ** Numbers are printed so that they can be read back *)

(** The value of a digit string, most significant digit first. *)
Fixpoint digit_index (digits : list Z) (c : Z) : option Z :=
  match digits with
  | [] => None
  | d :: ds => if d =? c then Some 0 else (λ i, i + 1) <$> digit_index ds c
  end.

Fixpoint read_digits (digits : list Z) (base : Z) (acc : Z) (l : list Z) : option Z :=
  match l with
  | [] => Some acc
  | c :: l' =>
      d ← digit_index digits c;
      if d <? base then read_digits digits base (acc * base + d) l' else None
  end.

(** A numeral: an optional sign, then at least one digit, the first of them not
    zero unless it is the only one. *)
Definition read_int (digits : list Z) (base : Z) (l : list Z) : option Z :=
  let read l := match l with
    | [] => None
    | c :: l' => if (c =? 48) && negb (bool_decide (l' = [])) then None
                 else read_digits digits base 0 l
    end in
  match l with
  | c :: l' => if c =? MINUS then Z.opp <$> read l' else read l
  | [] => None
  end.

(** [x] in [base], least significant digit first. *)
Fixpoint digs (fuel : nat) (base x : Z) : list Z :=
  match fuel with
  | O => []
  | S fuel' => x mod base :: if x / base =? 0 then [] else digs fuel' base (x / base)
  end.

Section printint.
Context (digits : list Z) (base : Z).
Hypothesis Hbase : 2 ≤ base ≤ zlen digits.

(** Looking up a digit character. *)
Definition chr (d : Z) : Z := default 0 (digits !! Z.to_nat d).

Hypothesis Hchr : ∀ d, 0 ≤ d < base → digit_index digits (chr d) = Some d.

Lemma digs_bound fuel x : 0 ≤ x → Forall (λ d, 0 ≤ d < base) (digs fuel base x).
Proof using Hbase.
  revert x. induction fuel as [|f IH]; intros x Hx; simpl; constructor.
  - apply Z.mod_pos_bound. lia.
  - destruct (x / base =? 0); [constructor|]. apply IH. apply Z.div_pos; lia.
Qed.

(** A magnitude below [2^k] has at most [k] digits. *)
Lemma digs_length k fuel x : 0 ≤ x < 2 ^ Z.of_nat k → (0 < k)%nat → (length (digs fuel base x) ≤ k)%nat.
Proof using Hbase.
  revert k x. induction fuel as [|f IH]; intros k x Hx Hk; simpl; [lia|].
  destruct (Z.eqb_spec (x / base) 0); simpl; [lia|].
  destruct k as [|[|k]]; [lia| |].
  - exfalso. apply n. apply Z.div_small. simpl in Hx. lia.
  - assert (x / base < 2 ^ Z.of_nat (S k)).
    { apply Z.div_lt_upper_bound; [lia|]. rewrite (Nat2Z.inj_succ (S k)), Z.pow_succ_r in Hx by lia.
      pose proof (pow2_pos (Z.of_nat (S k)) ltac:(lia)). nia. }
    pose proof (IH (S k) (x / base)). assert (0 ≤ x / base) by (apply Z.div_pos; lia). lia.
Qed.

Lemma read_digits_app acc l1 l2 :
  read_digits digits base acc (l1 ++ l2) =
  read_digits digits base acc l1 ≫= λ a, read_digits digits base a l2.
Proof.
  revert acc. induction l1 as [|c l1 IH]; intros acc; simpl; [done|].
  destruct (digit_index digits c) as [d|]; simpl; [|done]. destruct (d <? base); [apply IH|done].
Qed.

(** Reading the printed digits gives the number back. *)
Lemma read_digs k fuel x :
  0 ≤ x < 2 ^ Z.of_nat k → (k ≤ fuel)%nat → (0 < fuel)%nat →
  read_digits digits base 0 (chr <$> reverse (digs fuel base x)) = Some x.
Proof using Hbase Hchr.
  revert fuel x. induction k as [k IH] using lt_wf_ind. intros fuel x Hx Hk Hf.
  destruct fuel as [|f]; [lia|]. cbn [digs]. rewrite reverse_cons, fmap_app, read_digits_app.
  change (chr <$> [x mod base]) with [chr (x mod base)].
  pose proof (Z.mod_pos_bound x base ltac:(lia)) as Hm.
  assert (Hlast : ∀ a, read_digits digits base a [chr (x mod base)] = Some (a * base + x mod base)).
  { intros a. cbn. rewrite Hchr by lia. cbn. destruct (Z.ltb_spec (x mod base) base); [done|lia]. }
  destruct (Z.eqb_spec (x / base) 0) as [E|E].
  - transitivity (read_digits digits base 0 [chr (x mod base)]); [done|]. rewrite Hlast.
    f_equal. rewrite Z.mod_eq, E by lia. lia.
  - destruct k as [|k]; [simpl in Hx; exfalso; apply E, Z.div_small; lia|].
    destruct (decide (k = 0%nat)) as [->|Hk0]; [exfalso; apply E, Z.div_small; simpl in Hx; lia|].
    rewrite (IH k) by (lia || (split; [apply Z.div_pos; lia|];
      apply Z.div_lt_upper_bound; [lia|]; rewrite Nat2Z.inj_succ, Z.pow_succ_r in Hx by lia;
      pose proof (pow2_pos (Z.of_nat k) ltac:(lia)); nia)).
    etransitivity; [apply Hlast|]. f_equal. rewrite Z.mod_eq by lia. lia.
Qed.

(** The leading digit of a number other than zero is not zero. *)
Lemma digs_lead k fuel x c l :
  0 ≤ x < 2 ^ Z.of_nat k → (k ≤ fuel)%nat →
  reverse (digs fuel base x) = c :: l → c = 0 → l = [].
Proof using Hbase.
  revert fuel x c l. induction k as [|k IH]; intros fuel x c l Hx Hk E ->.
  - assert (x = 0) as -> by (simpl in Hx; lia). destruct fuel; [done|].
    cbn [digs] in E. rewrite Z.div_0_l in E by lia. simpl in E. by injection E.
  - destruct fuel as [|f]; [lia|]. cbn [digs] in E. rewrite reverse_cons in E.
    destruct (Z.eqb_spec (x / base) 0) as [E0|E0]; [by injection E as _ <-|].
    assert (Hx' : 0 ≤ x / base < 2 ^ Z.of_nat k).
    { split; [apply Z.div_pos; lia|]. apply Z.div_lt_upper_bound; [lia|].
      rewrite Nat2Z.inj_succ, Z.pow_succ_r in Hx by lia. pose proof (pow2_pos (Z.of_nat k) ltac:(lia)). nia. }
    destruct (reverse (digs f base (x / base))) as [|c' l'] eqn:Er.
    { destruct f; [|by apply (f_equal length) in Er; rewrite length_reverse in Er].
      destruct k; [|lia]. simpl in Hx'. lia. }
    simpl in E. injection E as -> <-.
    rewrite (IH f (x / base) 0 l' Hx' ltac:(lia) Er eq_refl) in Er.
    exfalso. apply E0. destruct f as [|f]; [done|]. cbn [digs] in Er.
    destruct (x / base / base =? 0) eqn:Eb.
    + simpl in Er. injection Er as Er. rewrite (Z.div_mod (x / base) base) by lia. lia.
    + apply (f_equal length) in Er. rewrite length_reverse in Er. simpl in Er.
      destruct f as [|f]; [|simpl in Er; lia]. exfalso. destruct k as [|[|k]]; [simpl in *; lia| |lia].
      apply Z.eqb_neq in Eb. apply Eb, Z.div_small. simpl in Hx'. lia.
Qed.

Lemma printint_digits_ok fuel k buf i x :
  0 ≤ x < 2 ^ Z.of_nat k → (k ≤ fuel)%nat → (0 < fuel)%nat → 0 ≤ i →
  i + zlen (digs fuel base x) ≤ zlen buf →
  ∃ buf', printint_digits fuel digits base buf i x = Ok (buf', i + zlen (digs fuel base x)) ∧
    zlen buf' = zlen buf ∧
    take (Z.to_nat (i + zlen (digs fuel base x))) buf' = take (Z.to_nat i) buf ++ (chr <$> digs fuel base x).
Proof using Hbase.
  revert k buf i x. induction fuel as [|f IH]; intros k buf i x Hx Hk Hf Hi Hlen; [lia|].
  cbn [printint_digits digs] in *. pose proof (Z.mod_pos_bound x base ltac:(lia)) as Hm.
  destruct (arr_get_in_range digits (x mod base)) as (c & Hc & ->); [lia|]. cbn [mbind outcome_bind].
  assert (Ec : chr (x mod base) = c) by (unfold chr; by rewrite Hc).
  unfold zlen in Hlen. cbn [length] in Hlen.
  rewrite arr_set_in_range by (unfold zlen; lia). cbn [mbind outcome_bind].
  assert (Htake : take (Z.to_nat (i + 1)) (<[Z.to_nat i:=c]> buf) = take (Z.to_nat i) buf ++ [c]).
  { replace (Z.to_nat (i + 1)) with (S (Z.to_nat i)) by lia.
    rewrite (take_S_r _ _ c) by (apply list_lookup_insert_eq; lia).
    by rewrite take_insert_ge by lia. }
  destruct (Z.eqb_spec (x / base) 0) as [E|E].
  - exists (<[Z.to_nat i:=c]> buf). split_and!; [done|by rewrite zlen_insert|].
    change (zlen [x mod base]) with 1. rewrite Htake. by simpl; rewrite Ec.
  - destruct k as [|k]; [simpl in Hx; exfalso; apply E, Z.div_small; lia|].
    destruct (decide (k = 0%nat)) as [->|Hk0]; [exfalso; apply E, Z.div_small; simpl in Hx; lia|].
    destruct (IH k (<[Z.to_nat i:=c]> buf) (i + 1) (x / base)) as (buf' & E1 & E2 & E3); try lia.
    { split; [apply Z.div_pos; lia|]. apply Z.div_lt_upper_bound; [lia|].
      rewrite Nat2Z.inj_succ, Z.pow_succ_r in Hx by lia. pose proof (pow2_pos (Z.of_nat k) ltac:(lia)). nia. }
    { rewrite zlen_insert. unfold zlen. lia. }
    assert (Ez : i + zlen (x mod base :: digs f base (x / base)) = i + 1 + zlen (digs f base (x / base)))
      by (unfold zlen; cbn [length]; lia).
    rewrite Ez. exists buf'. split_and!; [done|by rewrite E2, zlen_insert|].
    rewrite E3, Htake, <- app_assoc. simpl. by rewrite Ec.
Qed.

Lemma printint_emit_ok i buf :
  (i ≤ length buf)%nat → printint_emit i buf = Ok (reverse (take i buf)).
Proof.
  induction i as [|i IH]; intros Hi; [done|]. cbn [printint_emit].
  destruct (arr_get_in_range buf (Z.of_nat i)) as (c & Hc & ->); [unfold zlen; lia|].
  rewrite Nat2Z.id in Hc. cbn [mbind outcome_bind]. rewrite IH by lia. cbn [mbind outcome_bind].
  by rewrite (take_S_r _ _ _ Hc), reverse_app.
Qed.

(** The buffer of sixteen bytes is large enough for the digits of any [uint] in
    a base from ten on, and for the sign. *)
Lemma digs_fit x : 10 ≤ base → 0 ≤ x < 2 ^ 32 → zlen (digs 32 base x) ≤ 11.
Proof using Hbase.
  intros Hb Hx.
  assert (H : ∀ n fuel y, 0 ≤ y < 8 ^ Z.of_nat n → (0 < n)%nat → (length (digs fuel base y) ≤ n)%nat).
  { induction n as [|n IH]; intros fuel y Hy Hn; [lia|]. destruct fuel as [|f]; simpl; [lia|].
    destruct (Z.eqb_spec (y / base) 0) as [E|E]; simpl; [lia|].
    destruct (decide (n = 0%nat)) as [->|Hn0]; [exfalso; apply E, Z.div_small; simpl in Hy; lia|].
    specialize (IH f (y / base)). rewrite Nat2Z.inj_succ, Z.pow_succ_r in Hy by lia.
    assert (0 ≤ y / base < 8 ^ Z.of_nat n); [|lia].
    split; [apply Z.div_pos; lia|]. apply Z.div_lt_upper_bound; [lia|].
    assert (0 < 8 ^ Z.of_nat n) by (apply Z.pow_pos_nonneg; lia). nia. }
  pose proof (H 11%nat 32%nat x). unfold zlen. change (8 ^ Z.of_nat 11) with (2 ^ 33) in H0. lia.
Qed.

Lemma print_magnitude_ok x (neg : bool) :
  10 ≤ base → 0 ≤ x < 2 ^ 32 →
  print_magnitude digits x base neg =
    Ok ((if neg then [MINUS] else []) ++ (chr <$> reverse (digs 32 base x))).
Proof using Hbase.
  intros Hb Hx. unfold print_magnitude.
  pose proof (digs_fit x Hb Hx) as Hfit.
  destruct (printint_digits_ok 32 32 (replicate 16 0) 0 x) as (buf & -> & Hlen & Ht);
    [done|lia|lia|lia|unfold zlen at 2; simpl length; lia|].
  cbn [mbind outcome_bind]. rewrite Z.add_0_l in Ht |- *. change (zlen (replicate 16 0)) with 16 in Hlen.
  rewrite fmap_reverse. change (Z.to_nat 0) with 0%nat in Ht.
  rewrite take_0, app_nil_l in Ht. set (n := zlen (digs 32 base x)) in *.
  assert (0 ≤ n) by (unfold n, zlen; lia).
  destruct neg.
  - rewrite arr_set_in_range by lia. cbn [mbind outcome_bind]. unfold zlen in Hlen.
    rewrite printint_emit_ok by (rewrite length_insert; lia).
    replace (Z.to_nat (n + 1)) with (S (Z.to_nat n)) by lia.
    rewrite (take_S_r _ _ MINUS) by (apply list_lookup_insert_eq; lia).
    rewrite take_insert_ge by lia. by rewrite Ht, reverse_app.
  - unfold zlen in Hlen. rewrite printint_emit_ok by lia. by rewrite Ht.
Qed.

Hypothesis Hdigits : ∀ d, 0 ≤ d < base → chr d ≠ MINUS ∧ (chr d = 48 → d = 0).

Lemma read_magnitude_ok x (neg : bool) l :
  10 ≤ base → 0 ≤ x < 2 ^ 32 →
  print_magnitude digits x base neg = Ok l →
  read_int digits base l = Some (if neg then - x else x).
Proof using Hbase Hchr Hdigits.
  intros Hb Hx. rewrite print_magnitude_ok by done. intros El%Ok_inj. subst l.
  pose proof (read_digs 32 32 x ltac:(done) ltac:(lia) ltac:(lia)) as Hread.
  pose proof (digs_lead 32 32 x) as Hlead.
  pose proof (digs_bound 32 x ltac:(lia)) as Hbd. rewrite <- Forall_reverse in Hbd.
  destruct (reverse (digs 32 base x)) as [|c l] eqn:Er.
  { apply (f_equal length) in Er. by rewrite length_reverse in Er. }
  apply Forall_cons_1 in Hbd as [Hc _]. destruct (Hdigits c Hc) as [Hm Hz].
  assert (Hgo : (if (chr c =? 48) && negb (bool_decide ((chr <$> l) = []))
      then None else read_digits digits base 0 (chr <$> c :: l)) = Some x).
  { destruct (Z.eqb_spec (chr c) 48) as [E0|E0]; simpl; [|exact Hread].
    rewrite (Hlead c l) in Hread |- * by (done || lia || auto).
    exact Hread. }
  destruct neg; cbn [app fmap list_fmap read_int].
  - rewrite Z.eqb_refl. cbn [fmap list_fmap] in Hgo. rewrite Hgo. done.
  - apply Z.eqb_neq in Hm. rewrite Hm. exact Hgo.
Qed.
End printint.

(** Both digit tables. *)
Lemma digit_table ds base :
  ds = Kernel.digits ∨ ds = User.digits → 10 ≤ base ≤ 16 →
  2 ≤ base ≤ zlen ds ∧
  ∀ d, 0 ≤ d < base →
    digit_index ds (chr ds d) = Some d ∧ chr ds d ≠ MINUS ∧ (chr ds d = 48 → d = 0).
Proof.
  intros Hds Hb. assert (zlen ds = 16) as -> by (by destruct Hds as [-> | ->]). split; [lia|].
  intros d Hd. assert (Hin : d ∈ seqZ 0 16) by (apply elem_of_seqZ; lia). clear Hb Hd.
  revert d Hin. apply Forall_forall. destruct Hds as [-> | ->]; repeat (constructor; [by split_and!|]); constructor.
Qed.

Lemma print_table ds base x (neg : bool) :
  ds = Kernel.digits ∨ ds = User.digits → 10 ≤ base ≤ 16 → 0 ≤ x < 2 ^ 32 →
  ∃ l, print_magnitude ds x base neg = Ok l ∧ read_int ds base l = Some (if neg then - x else x).
Proof.
  intros Hds Hb Hx. destruct (digit_table ds base Hds Hb) as [Hbase Hd].
  eexists. split; [apply print_magnitude_ok; [done|lia|done]|].
  eapply (read_magnitude_ok ds base); try done; try apply print_magnitude_ok; try done; try lia;
    intros d Hr; by apply Hd.
Qed.

Lemma signed_print ds base xx :
  ds = Kernel.digits ∨ ds = User.digits → 10 ≤ base ≤ 16 → - 2 ^ 31 ≤ xx < 2 ^ 31 →
  ∃ l, (if true && (xx <? 0) then print_magnitude ds (u32 (- xx)) base true
        else print_magnitude ds (u32 xx) base false) = Ok l ∧ read_int ds base l = Some xx.
Proof.
  intros Hds Hb Hx. simpl. destruct (Z.ltb_spec xx 0).
  - rewrite u32_small by lia. destruct (print_table ds base (- xx) true) as (l & E & Hr); try done; [lia|].
    exists l. rewrite Z.opp_involutive in Hr. done.
  - rewrite u32_small by lia. apply (print_table ds base xx false); try done. lia.
Qed.

(** [printint] of the kernel and of the user library print every [int] in
    base 10 or 16 without overrunning their 16-byte buffer, as a numeral that
    reads back as the number: a minus sign exactly for negative numbers, no
    leading zeros, [INT_MIN] included; and the unsigned form the user library
    uses for percent-x reads back as the number modulo 2^32. *)
Theorem printint_roundtrip xx base :
  - 2 ^ 31 ≤ xx < 2 ^ 31 → base = 10 ∨ base = 16 →
  (∃ l, Kernel.printint xx base true = Ok l ∧ read_int Kernel.digits base l = Some xx) ∧
  (∃ l, User.printint xx base true = Ok l ∧ read_int User.digits base l = Some xx) ∧
  (∃ l, User.printint xx base false = Ok l ∧ read_int User.digits base l = Some (u32 xx)).
Proof.
  intros Hx Hb. assert (10 ≤ base ≤ 16) by lia. split_and!.
  - apply signed_print; auto.
  - apply signed_print; auto.
  - apply (print_table User.digits base (u32 xx) false); auto. apply u32_range.
Qed.

Lemma printint_roundtrip_witness :
  (∃ l, Kernel.printint (- 2 ^ 31) 16 true = Ok l ∧ read_int Kernel.digits 16 l = Some (- 2 ^ 31)).
Proof.
  destruct (printint_roundtrip (- 2 ^ 31) 16) as [H _]; [lia|by right|]. exact H.
Defined.
