(* ===== verification/Uart.v ===== *)
(** * The UART driver: [kernel/hardware/uart.c].

    The device is seen through its registers: [lsr n] is what the [n]-th read of
    the line status register answers and [rhr n] the [n]-th byte read from the
    receive register; the writes to the registers are recorded in order. The
    transmit buffer is verified against a bounded FIFO: the bytes written to the
    device followed by the bytes in the buffer are the bytes accepted. *)

From S2P Require Import Prelude Ram Ring.

Definition RHR : Z := 0.
Definition THR : Z := 0.
Definition IER : Z := 1.
Definition IER_RX_ENABLE : Z := Z.shiftl 1 0.
Definition IER_TX_ENABLE : Z := Z.shiftl 1 1.
Definition FCR : Z := 2.
Definition FCR_FIFO_ENABLE : Z := Z.shiftl 1 0.
Definition FCR_FIFO_CLEAR : Z := Z.shiftl 3 1.
Definition LCR : Z := 3.
Definition LCR_EIGHT_BITS : Z := Z.shiftl 3 0.
Definition LCR_BAUD_LATCH : Z := Z.shiftl 1 7.
Definition LSR_RX_READY : Z := Z.shiftl 1 0.
Definition LSR_TX_IDLE : Z := Z.shiftl 1 5.

Definition UART_TX_BUF_SIZE : Z := 32.

Record uart := mk_uart {
  uart_tx_buf : list Z;
  uart_tx_w : Z;
  uart_tx_r : Z;
  panicked : bool;
  writes : list (Z * Z);   (* register writes so far *)
  polls : nat;             (* reads of LSR so far *)
  reads : nat;             (* reads of RHR so far *)
}.

Definition WriteReg (u : uart) (reg v : Z) : uart :=
  mk_uart (uart_tx_buf u) (uart_tx_w u) (uart_tx_r u) (panicked u) (writes u ++ [(reg, u8 v)]) (polls u) (reads u).

Section uart.
Context (lsr rhr : nat → Z).

(** A read of the line status register. *)
Definition ReadLSR (u : uart) : Z * uart :=
  (lsr (polls u),
   mk_uart (uart_tx_buf u) (uart_tx_w u) (uart_tx_r u) (panicked u) (writes u) (S (polls u)) (reads u)).

Definition ReadRHR (u : uart) : Z * uart :=
  (u8 (rhr (reads u)),
   mk_uart (uart_tx_buf u) (uart_tx_w u) (uart_tx_r u) (panicked u) (writes u) (polls u) (S (reads u))).

Definition uartinit (u : uart) : uart :=
  let u := WriteReg u IER 0 in
  let u := WriteReg u LCR LCR_BAUD_LATCH in
  let u := WriteReg u 0 3 in
  let u := WriteReg u 1 0 in
  let u := WriteReg u LCR LCR_EIGHT_BITS in
  let u := WriteReg u FCR (Z.lor FCR_FIFO_ENABLE FCR_FIFO_CLEAR) in
  WriteReg u IER (Z.lor IER_TX_ENABLE IER_RX_ENABLE).

(** The loop of [uartstart]; the Boolean says whether it called
    [wakeup(&uart_tx_r)]. *)
Fixpoint uartstart_loop (fuel : nat) (u : uart) (woke : bool) : outcome (bool * uart) :=
  match fuel with
  | O => Hang
  | S fuel' =>
      if uart_tx_w u =? uart_tx_r u then Ok (woke, u)
      else
        let '(status, u) := ReadLSR u in
        if Z.land status LSR_TX_IDLE =? 0 then Ok (woke, u)
        else
          c ← arr_get (uart_tx_buf u) (uart_tx_r u mod UART_TX_BUF_SIZE);
          let u := mk_uart (uart_tx_buf u) (uart_tx_w u) (u64 (uart_tx_r u + 1)) (panicked u)
                     (writes u) (polls u) (reads u) in
          uartstart_loop fuel' (WriteReg u THR c) true
  end.

(** Enough for every byte the buffer can hold. *)
Definition uartstart (u : uart) : outcome (bool * uart) :=
  uartstart_loop (S (Z.to_nat UART_TX_BUF_SIZE)) u false.

(** A turn of [uartputc]: [None] when it sleeps for room in the buffer. *)
Definition uartputc (u : uart) (c : Z) : outcome (option (bool * uart)) :=
  if panicked u then Hang
  else if uart_tx_w u =? u64 (uart_tx_r u + UART_TX_BUF_SIZE) then Ok None
  else
    b ← arr_set (uart_tx_buf u) (uart_tx_w u mod UART_TX_BUF_SIZE) (u8 c);
    let u := mk_uart b (u64 (uart_tx_w u + 1)) (uart_tx_r u) (panicked u) (writes u) (polls u) (reads u) in
    r ← uartstart u;
    Ok (Some r).

(** Waiting for the transmit holding register to be empty. *)
Fixpoint spin_tx_idle (fuel : nat) (u : uart) : outcome uart :=
  match fuel with
  | O => Hang
  | S fuel' =>
      let '(status, u) := ReadLSR u in
      if Z.land status LSR_TX_IDLE =? 0 then spin_tx_idle fuel' u else Ok u
  end.

Definition uartputc_sync (fuel : nat) (u : uart) (c : Z) : outcome uart :=
  if panicked u then Hang
  else
    u ← spin_tx_idle fuel u;
    Ok (WriteReg u THR c).

Definition uartgetc (u : uart) : Z * uart :=
  let '(status, u) := ReadLSR u in
  if negb (Z.land status 1 =? 0) then ReadRHR u else (-1, u).

(** The input half of [uartintr] with [consoleintr] a parameter, then the
    output half. *)
Fixpoint uartintr_input {C} (fuel : nat) (consoleintr : C → uart → Z → outcome (C * uart)) (cons : C) (u : uart)
    : outcome (C * uart) :=
  match fuel with
  | O => Hang
  | S fuel' =>
      let '(c, u) := uartgetc u in
      if c =? -1 then Ok (cons, u)
      else
        '(cons, u) ← consoleintr cons u c;
        uartintr_input fuel' consoleintr cons u
  end.

Definition uartintr {C} (fuel : nat) (consoleintr : C → uart → Z → outcome (C * uart)) (cons : C) (u : uart)
    : outcome (C * bool * uart) :=
  '(cons, u) ← uartintr_input fuel consoleintr cons u;
  '(woke, u) ← uartstart u;
  Ok (cons, woke, u).

(** ** The transmit queue *)

#[local] Instance uart_ring : RingSize UART_TX_BUF_SIZE (2 ^ 64).
Proof. constructor; done. Qed.

(** The bytes accepted and not yet given to the device, oldest first. *)
Definition pending (u : uart) (q : list Z) : Prop :=
  ring UART_TX_BUF_SIZE (2 ^ 64) (uart_tx_buf u) (uart_tx_r u) (uart_tx_w u) q ∧ Forall (λ x, 0 ≤ x < 256) q.

Definition busy (n : nat) : Prop := Z.land (lsr n) LSR_TX_IDLE = 0.

(** The writes that send [bs]. *)
Definition sends (bs : list Z) : list (Z * Z) := map (pair THR) bs.

Lemma uartstart_loop_ok fuel u woke q :
  pending u q → (length q < fuel)%nat →
  ∃ u' k, uartstart_loop fuel u woke = Ok (woke || bool_decide (0 < k)%nat, u') ∧
    (k ≤ length q)%nat ∧ pending u' (drop k q) ∧ writes u' = writes u ++ sends (take k q) ∧
    panicked u' = panicked u ∧ reads u' = reads u ∧
    ((k = length q ∧ polls u' = (polls u + k)%nat) ∨ (polls u' = (polls u + k + 1)%nat ∧ busy (polls u + k))).
Proof.
  revert u woke q. induction fuel as [|f IH]; intros u woke q Hp Hf; [lia|].
  cbn [uartstart_loop]. pose proof Hp as [Hring Hb].
  destruct (Z.eqb_spec (uart_tx_w u) (uart_tx_r u)) as [E|E].
  { assert (q = []) as -> by (by apply (ring_empty _ _ _ _ _ _ Hring)).
    exists u, 0%nat. rewrite orb_false_r, app_nil_r. split_and!; try done. left. simpl. lia. }
  destruct q as [|c q]; [destruct E; by apply (ring_empty _ _ _ _ _ _ Hring)|].
  unfold ReadLSR. cbv zeta.
  destruct (Z.eqb_spec (Z.land (lsr (polls u)) LSR_TX_IDLE) 0) as [El|El].
  { eexists _, 0%nat. rewrite orb_false_r, app_nil_r. split; [done|]. split_and!; try done; [simpl; lia|].
    right. simpl. rewrite !Nat.add_0_r, Nat.add_1_r. done. }
  destruct (ring_pop _ _ _ _ _ _ _ Hring) as [Hcell Hring'].
  apply Forall_cons_1 in Hb as [Hc Hb]. cbn [uart_tx_buf uart_tx_w uart_tx_r panicked writes polls reads].
  pose proof (Z.mod_pos_bound (uart_tx_r u) UART_TX_BUF_SIZE ltac:(done)) as Hmod.
  destruct (arr_get_in_range (uart_tx_buf u) (uart_tx_r u mod UART_TX_BUF_SIZE)) as (c' & Hc' & ->);
    [rewrite (rg_len _ _ _ _ _ _ Hring); done|].
  assert (c' = c) as -> by (unfold cell in Hcell; rewrite Hc' in Hcell; done).
  cbn [mbind outcome_bind].
  edestruct (IH (WriteReg (mk_uart (uart_tx_buf u) (uart_tx_w u) (u64 (uart_tx_r u + 1)) (panicked u)
    (writes u) (S (polls u)) (reads u)) THR c) true q) as (u' & k & E' & Hk & Hp' & Hw & Hpan & Hrd & Hpoll);
    [by split|simpl in Hf; lia|].
  exists u', (S k). rewrite E'. simpl in Hw, Hpoll, Hpan, Hrd. split_and!; try done; [by rewrite orb_true_r|simpl; lia| |].
  - rewrite Hw, <- app_assoc. simpl. by rewrite u8_small.
  - replace (polls u + S k)%nat with (S (polls u + k)) by lia. destruct Hpoll as [[-> ->]|[-> Hbusy]].
    + left. simpl. lia.
    + right. split; [lia|done].
Qed.

Lemma pending_len u q : pending u q → (length q ≤ 32)%nat.
Proof. intros [H _]. pose proof (rg_cap _ _ _ _ _ _ H) as Hc. unfold zlen, UART_TX_BUF_SIZE in Hc. lia. Qed.

(** [uartstart] on a buffer holding [q] ends (its loop needs no more turns
    than the buffer has cells), having written to the transmit register the first
    [k] bytes of [q] in order and removed exactly those, waking the writers when
    [k > 0]. It stops short of the whole queue only when the device, polled once
    more, was busy; so when the device is idle at every poll the queue is
    drained. The counters may wrap around. *)
Theorem uartstart_drains u q :
  pending u q →
  ∃ u' k, uartstart u = Ok (bool_decide (0 < k)%nat, u') ∧ (k ≤ length q)%nat ∧ pending u' (drop k q) ∧
    writes u' = writes u ++ sends (take k q) ∧
    (k = length q ∨ busy (polls u + k)) ∧
    ((∀ n, (polls u ≤ n)%nat → ¬ busy n) → pending u' []).
Proof.
  intros Hp. pose proof (pending_len _ _ Hp).
  destruct (uartstart_loop_ok 33 u false q Hp ltac:(lia)) as (u' & k & E & Hk & Hp' & Hw & _ & _ & Hc).
  exists u', k. split_and!; try done.
  - destruct Hc as [[-> _]|[_ Hb]]; auto.
  - intros Hidle. destruct Hc as [[-> _]|[_ Hb]]; [by rewrite drop_all in Hp'|].
    destruct (Hidle (polls u + k)%nat ltac:(lia) Hb).
Qed.

(** ** A history of the driver *)

(** One step and the byte it accepts, if any: a system call that adds a byte
    (and does not sleep), or the output half of an interrupt. *)
Inductive uart_step : uart → list Z → uart → Prop :=
| step_putc u c b u' : 0 ≤ c < 256 → uartputc u c = Ok (Some (b, u')) → uart_step u [c] u'
| step_start u b u' : uartstart u = Ok (b, u') → uart_step u [] u'.

Inductive uart_run : uart → list Z → uart → Prop :=
| run_nil u : uart_run u [] u
| run_step u1 u2 u3 bs cs : uart_run u1 bs u2 → uart_step u2 cs u3 → uart_run u1 (bs ++ cs) u3.

Lemma uart_step_ok u q cs u' :
  pending u q → uart_step u cs u' →
  ∃ k, pending u' (drop k (q ++ cs)) ∧ (k ≤ length (q ++ cs))%nat ∧
    writes u' = writes u ++ sends (take k (q ++ cs)).
Proof.
  intros Hp Hs. destruct Hs as [u c b u' Hc E|u b u' E].
  - unfold uartputc in E. destruct (panicked u); [done|]. pose proof Hp as [Hring Hb].
    destruct (Z.eqb_spec (uart_tx_w u) (u64 (uart_tx_r u + UART_TX_BUF_SIZE))) as [Ef|Ef]; [done|].
    pose proof (Z.mod_pos_bound (uart_tx_w u) UART_TX_BUF_SIZE ltac:(done)) as Hmod.
    rewrite arr_set_in_range in E by (rewrite (rg_len _ _ _ _ _ _ Hring); done).
    cbn [mbind outcome_bind] in E. rewrite u8_small in E by done.
    assert (Hcap : zlen q < UART_TX_BUF_SIZE).
    { pose proof (rg_cap _ _ _ _ _ _ Hring). assert (zlen q ≠ UART_TX_BUF_SIZE); [|lia].
      intros Eq. apply Ef. by apply (ring_full _ _ _ _ _ _ Hring). }
    apply bind_Ok_inv in E as ([b' u2] & E & Er). injection Er as -> ->.
    edestruct uartstart_loop_ok as (u3 & k & E' & Hk & Hp' & Hw & _).
    3: { unfold uartstart in E. rewrite E' in E. apply Ok_pair_inj in E as [_ <-].
         exists k. split; [exact Hp'|]. split; [done|exact Hw]. }
    + split; [exact (ring_push _ _ _ _ _ _ c Hring Hcap)|].
      apply Forall_app. split; [done|]. by apply Forall_singleton.
    + rewrite length_app. simpl. unfold zlen, UART_TX_BUF_SIZE in Hcap.
      change (Z.to_nat UART_TX_BUF_SIZE) with 32%nat. lia.
  - rewrite app_nil_r. pose proof (pending_len _ _ Hp).
    destruct (uartstart_loop_ok 33 u false q Hp ltac:(lia)) as (u2 & k & E' & Hk & Hp' & Hw & _).
    unfold uartstart in E. change (S (Z.to_nat UART_TX_BUF_SIZE)) with 33%nat in E.
    rewrite E' in E. apply Ok_pair_inj in E as [_ <-]. exists k. done.
Qed.

(** Over any history of system calls and transmit interrupts, however the
    device answers, starting from an empty buffer: the bytes given to the device
    followed by the bytes still in the buffer are exactly the bytes accepted, in
    order. None is lost, repeated or reordered. *)
Theorem uart_fifo u0 accepted u :
  pending u0 [] → uart_run u0 accepted u →
  ∃ sent q, writes u = writes u0 ++ sends sent ∧ pending u q ∧ sent ++ q = accepted.
Proof.
  intros H0 Hr. induction Hr as [u|u1 u2 u3 bs cs Hr IH Hs].
  - exists [], []. rewrite app_nil_r. done.
  - destruct (IH H0) as (sent & q & Hw & Hp & <-).
    destruct (uart_step_ok _ _ _ _ Hp Hs) as (k & Hp' & Hk & Hw').
    exists (sent ++ take k (q ++ cs)), (drop k (q ++ cs)). split_and!; [|done|].
    + rewrite Hw', Hw, <- app_assoc. unfold sends. by rewrite map_app.
    + by rewrite <- !app_assoc, take_drop.
Qed.
End uart.

(** ** Example *)

Definition demo_uart : uart := mk_uart (replicate 32 0) (2 ^ 64 - 1) (2 ^ 64 - 1) false [] 0 0.

Lemma demo_uart_pending : pending demo_uart [].
Proof. split; [|constructor]. by constructor. Qed.

Definition demo_uart2 : uart :=
  mk_uart (65 :: replicate 30 0 ++ [64]) 1 (2 ^ 64 - 1) false [] 0 0.

Lemma demo_uart2_pending : pending demo_uart2 [64; 65].
Proof. split; [|repeat constructor; lia]. by constructor. Qed.

Lemma uartstart_drains_witness :
  ∃ u' k, uartstart (λ n, if decide (n = 1%nat) then 0 else 32) demo_uart2 = Ok (bool_decide (0 < k)%nat, u').
Proof.
  destruct (uartstart_drains (λ n, if decide (n = 1%nat) then 0 else 32) demo_uart2 [64; 65] demo_uart2_pending)
    as (u' & k & E & _).
  exists u', k. exact E.
Defined.

Lemma uart_fifo_witness :
  ∃ u sent q, uart_run (λ _, 32) demo_uart [66] u ∧ sent ++ q = [66].
Proof.
  set (u := mk_uart (replicate 31 0 ++ [66]) 0 0 false [(0, 66)] 1 0).
  assert (Hrun : uart_run (λ _, 32) demo_uart ([] ++ [66]) u).
  { eapply run_step; [apply run_nil|]. eapply (step_putc _ _ _ true); [lia|]. vm_compute. reflexivity. }
  destruct (uart_fifo (λ _, 32) demo_uart ([] ++ [66]) u demo_uart_pending Hrun) as (sent & q & _ & _ & E).
  exists u, sent, q. split; [exact Hrun|exact E].
Defined.
