(* ===== verification/Spinlock.v ===== *)
(** * Spin locks: [kernel/sync/spinlock.c].

    [push_off] and [pop_off] act on the state of one CPU. [acquire] and
    [release] are taken apart into the steps other CPUs can see between, the
    atomic swaps and the writes of [lk->cpu], and the steps of any number of
    CPUs are interleaved in every way. *)

From Stdlib Require Import ZifyBool.
From S2P Require Import Prelude.

(** The part of [struct cpu] the locks use, and the interrupt enable bit of the
    processor, [intr_get()]. *)
Record cpu := mk_cpu { noff : Z; intena : bool; intr : bool }.

Definition push_off (c : cpu) : cpu :=
  mk_cpu (noff c + 1) (if noff c =? 0 then intr c else intena c) false.

Definition pop_off (c : cpu) : outcome cpu :=
  if intr c then Panic "pop_off - interruptible"
  else if noff c <? 1 then Panic "pop_off"
  else
    let n := noff c - 1 in
    Ok (mk_cpu n (intena c) (if (n =? 0) && intena c then true else intr c)).

Record spinlock := mk_lock { locked : Z; lcpu : option nat }.

Definition initlock : spinlock := mk_lock 0 None.

(** [holding(lk)] on CPU [c]. *)
Definition holding (lk : spinlock) (c : nat) : bool := negb (locked lk =? 0) && bool_decide (lcpu lk = Some c).

(** ** Nesting *)

(** A sequence of calls in which every [push_off] has its [pop_off]. *)
Inductive op := Push | Pop.

Inductive balanced : list op → Prop :=
| bal_nil : balanced []
| bal_wrap l : balanced l → balanced (Push :: l ++ [Pop])
| bal_app l1 l2 : balanced l1 → balanced l2 → balanced (l1 ++ l2).

Fixpoint run (l : list op) (c : cpu) : outcome cpu :=
  match l with
  | [] => Ok c
  | Push :: l' => run l' (push_off c)
  | Pop :: l' => c' ← pop_off c; run l' c'
  end.

Lemma run_app l1 l2 c : run (l1 ++ l2) c = (run l1 c ≫= run l2).
Proof.
  revert c. induction l1 as [|[] l1 IH]; intros c; simpl; [done|apply IH|].
  destruct (pop_off c); simpl; [apply IH|done..].
Qed.

(** [push_off] and [pop_off] nest: any balanced sequence of them runs
    without panic and leaves the nesting depth and the interrupt enable bit as it
    found them. In between, inside at least one [push_off], interrupts are off. *)
Theorem push_pop_balanced l c :
  balanced l → 0 ≤ noff c → (0 < noff c → intr c = false) →
  ∃ c', run l c = Ok c' ∧ noff c' = noff c ∧ intr c' = intr c ∧ (0 < noff c → intena c' = intena c).
Proof.
  intros Hb. revert c. induction Hb as [|l Hb IH|l1 l2 Hb1 IH1 Hb2 IH2]; intros c Hn Hi.
  - by exists c.
  - cbn [run]. rewrite run_app. unfold push_off.
    destruct (IH (mk_cpu (noff c + 1) (if noff c =? 0 then intr c else intena c) false)) as (c1 & -> & En & Ei & Ea);
      simpl; [lia|done|].
    simpl in En, Ei, Ea. specialize (Ea ltac:(lia)). unfold pop_off. rewrite Ei, En, (proj2 (Z.ltb_ge _ _)) by lia.
    replace (noff c + 1 - 1) with (noff c) by lia. rewrite Ea. simpl. eexists. split; [done|]. simpl.
    destruct (Z.eqb_spec (noff c) 0) as [E|E]; simpl.
    + destruct (intr c); split_and!; try done; lia.
    + split_and!; try done. by rewrite Hi by lia.
  - rewrite run_app. destruct (IH1 c Hn Hi) as (c1 & -> & En & Ei & Ea). simpl.
    destruct (IH2 c1) as (c2 & -> & En2 & Ei2 & Ea2); [lia|rewrite En, Ei; done|].
    exists c2. rewrite En2, En, Ei2, Ei. split_and!; try done. intros H. rewrite Ea2 by lia. by apply Ea.
Qed.

(** ** Mutual exclusion *)

(** Where a CPU is: outside; in the swap loop of [acquire]; past the swap, with
    [lk->cpu] not yet set; in the critical section; in [release], with [lk->cpu]
    cleared. *)
Inductive phase := Out | Spinning | Swapped | In | Cleared.

#[global] Instance phase_eq_dec : EqDecision phase.
Proof. solve_decision. Defined.

(** The next step of CPU [c]. *)
Definition lock_step (lk : spinlock) (c : nat) (x : cpu) (ph : phase) : outcome (spinlock * cpu * phase) :=
  match ph with
  | Out =>
      let x := push_off x in
      if holding lk c then Panic "acquire" else Ok (lk, x, Spinning)
  | Spinning => Ok (mk_lock 1 (lcpu lk), x, if locked lk =? 0 then Swapped else Spinning)
  | Swapped => Ok (mk_lock (locked lk) (Some c), x, In)
  | In => if negb (holding lk c) then Panic "release" else Ok (mk_lock (locked lk) None, x, Cleared)
  | Cleared => x ← pop_off x; Ok (mk_lock 0 (lcpu lk), x, Out)
  end.

(** The machine: the lock and, for each CPU, its state and phase. *)
Definition machine : Type := spinlock * list (cpu * phase).

(** CPU [c] takes its next step, or enables or disables interrupts while it is
    outside and no [push_off] is in force. *)
Inductive machine_step : machine → machine → Prop :=
| ms_step lk cs c x ph lk' x' ph' :
    cs !! c = Some (x, ph) → lock_step lk c x ph = Ok (lk', x', ph') →
    machine_step (lk, cs) (lk', <[c := (x', ph')]> cs)
| ms_intr lk cs c x b :
    cs !! c = Some (x, Out) → noff x = 0 →
    machine_step (lk, cs) (lk, <[c := (mk_cpu (noff x) (intena x) b, Out)]> cs).

Definition start_machine (n : nat) : machine := (initlock, replicate n (mk_cpu 0 false false, Out)).

(** Between the successful swap and the one that gives the lock back. *)
Definition owns (ph : phase) : Prop := ph = Swapped ∨ ph = In ∨ ph = Cleared.

Record machine_ok (m : machine) : Prop := {
  mo_cpu : ∀ c x ph, m.2 !! c = Some (x, ph) →
    if decide (ph = Out) then noff x = 0 else noff x = 1 ∧ intr x = false;
  mo_excl : ∀ c d x y ph ph', m.2 !! c = Some (x, ph) → m.2 !! d = Some (y, ph') → owns ph → owns ph' → c = d;
  mo_locked : locked m.1 ≠ 0 ↔ ∃ c x ph, m.2 !! c = Some (x, ph) ∧ owns ph;
  mo_lcpu : ∀ c, lcpu m.1 = Some c ↔ ∃ x, m.2 !! c = Some (x, In);
}.

Lemma holding_ok m c x ph :
  machine_ok m → m.2 !! c = Some (x, ph) → holding m.1 c = bool_decide (ph = In).
Proof.
  intros Hm Hc. unfold holding. destruct (decide (ph = In)) as [->|Hne].
  - rewrite !bool_decide_true; [|done|apply (mo_lcpu _ Hm); eauto]. rewrite andb_true_r.
    assert (locked m.1 ≠ 0); [|lia]. apply (mo_locked _ Hm). exists c, x, In. unfold owns. auto.
  - rewrite (bool_decide_false (ph = In)) by done. rewrite bool_decide_false; [by rewrite andb_false_r|].
    intros [y Hy]%(mo_lcpu _ Hm). rewrite Hc in Hy. by injection Hy as _ ->.
Qed.

(** No step panics: what [acquire] and [release] check always holds. *)
Lemma lock_step_ok m c x ph :
  machine_ok m → m.2 !! c = Some (x, ph) → ∃ r, lock_step m.1 c x ph = Ok r.
Proof.
  intros Hm Hc. pose proof (holding_ok _ _ _ _ Hm Hc) as Hh. pose proof (mo_cpu _ Hm _ _ _ Hc) as Hx.
  destruct ph; simpl; rewrite ?Hh; try (by eexists).
  - rewrite decide_False in Hx by done. destruct Hx as [En Ei]. unfold pop_off. rewrite En, Ei. simpl. eauto.
Qed.

Lemma start_ok n : machine_ok (start_machine n).
Proof.
  assert (H : ∀ c x ph, (start_machine n).2 !! c = Some (x, ph) → x = mk_cpu 0 false false ∧ ph = Out).
  { intros c x ph Hc. apply lookup_replicate_1 in Hc as [Hc _]. by injection Hc. }
  constructor.
  - intros c x ph [-> ->]%H. by rewrite decide_True.
  - intros c d x y ph ph' [-> ->]%H _ [?|[?|?]]; done.
  - split; [done|]. intros (c & x & ph & [-> ->]%H & [?|[?|?]]); done.
  - intros c. split; [done|]. by intros [x [_ ?]%H].
Qed.

(** Outside the lock a CPU may turn interrupts on or off. *)
Lemma toggle_ok lk cs c x b :
  machine_ok (lk, cs) → cs !! c = Some (x, Out) → machine_ok (lk, <[c := (mk_cpu (noff x) (intena x) b, Out)]> cs).
Proof.
  intros Hm Hc.
  assert (Hl : ∀ d y p, <[c:=(mk_cpu (noff x) (intena x) b, Out)]> cs !! d = Some (y, p) →
    ∃ y', cs !! d = Some (y', p) ∧ noff y' = noff y ∧ (d ≠ c → y' = y) ∧ (d = c → p = Out)).
  { intros d y p [(<- & [= <- <-] & _)|[Hne Hd]]%list_lookup_insert_Some; [by exists x|].
    exists y. by split_and!. }
  assert (Hl2 : ∀ d y p, cs !! d = Some (y, p) → ∃ y', <[c:=(mk_cpu (noff x) (intena x) b, Out)]> cs !! d = Some (y', p)).
  { intros d y p Hd. destruct (decide (d = c)) as [->|Hne].
    - rewrite Hc in Hd. injection Hd as <- <-. eexists. apply list_lookup_insert_eq. by eapply lookup_lt_Some.
    - exists y. by rewrite list_lookup_insert_ne. }
  constructor; simpl.
  - intros d y p (y' & Hd & En & Hy & Hp)%Hl. pose proof (mo_cpu _ Hm _ _ _ Hd) as Hr. simpl in Hr.
    destruct (decide (p = Out)); [by rewrite <- En|]. rewrite <- Hy; [done|]. intros ->. by destruct n; apply Hp.
  - intros d e y z p q (y' & Hd & _)%Hl (z' & He & _)%Hl. by apply (mo_excl _ Hm d e y' z').
  - rewrite (mo_locked _ Hm). simpl. split; intros (d & y & p & Hd & Ho); exists d.
    + destruct (Hl2 _ _ _ Hd) as [y' ?]. eauto.
    + destruct (Hl _ _ _ Hd) as (y' & ? & _). eauto.
  - intros d. rewrite (mo_lcpu _ Hm d). simpl. split; intros [y Hd].
    + by apply Hl2 in Hd.
    + destruct (Hl _ _ _ Hd) as (y' & ? & _). eauto.
Qed.

(** A CPU moves on: what its step has to show about the owners of the lock. *)
Lemma cpu_update_ok lk cs c x ph lk' x' ph' :
  machine_ok (lk, cs) → cs !! c = Some (x, ph) →
  (if decide (ph' = Out) then noff x' = 0 else noff x' = 1 ∧ intr x' = false) →
  (owns ph' → ∀ d y p, d ≠ c → cs !! d = Some (y, p) → ¬ owns p) →
  (locked lk' ≠ 0 ↔ owns ph' ∨ ∃ d y p, d ≠ c ∧ cs !! d = Some (y, p) ∧ owns p) →
  (∀ d, lcpu lk' = Some d ↔ (d = c ∧ ph' = In) ∨ (d ≠ c ∧ ∃ y, cs !! d = Some (y, In))) →
  machine_ok (lk', <[c := (x', ph')]> cs).
Proof.
  intros Hm Hc. assert (Hlen : (c < length cs)%nat) by (by eapply lookup_lt_Some).
  intros H1 H2 H3 H4. constructor; simpl.
  - intros d y p [(<- & [= <- <-] & _)|[Hne Hd]]%list_lookup_insert_Some; [done|]. by apply (mo_cpu _ Hm d).
  - intros d e y z p q [(<- & [= <- <-] & _)|[Hne Hd]]%list_lookup_insert_Some
      [(<- & [= <- <-] & _)|[Hne' He]]%list_lookup_insert_Some Hp Hq; try done.
    + by destruct (H2 Hp e z q).
    + by destruct (H2 Hq d y p).
    + by apply (mo_excl _ Hm d e y z p q).
  - rewrite H3. split.
    + intros [Ho|(d & y & p & Hne & Hd & Ho)].
      * exists c, x', ph'. rewrite list_lookup_insert_eq by done. done.
      * exists d, y, p. by rewrite list_lookup_insert_ne.
    + intros (d & y & p & [(<- & [= <- <-] & _)|[Hne Hd]]%list_lookup_insert_Some & Ho); [by left|right; eauto 10].
  - intros d. rewrite H4. split.
    + intros [[-> ->]|[Hne [y Hy]]]; [exists x'; by rewrite list_lookup_insert_eq|exists y; by rewrite list_lookup_insert_ne].
    + intros [y [(<- & [= _ ->] & _)|[Hne Hd]]%list_lookup_insert_Some]; [by left|right; eauto].
Qed.

Lemma machine_step_ok m m' : machine_ok m → machine_step m m' → machine_ok m'.
Proof.
  intros Hm Hs. destruct Hs as [lk cs c x ph lk' x' ph' Hc E|lk cs c x b Hc Hx]; [|by apply toggle_ok].
  pose proof (mo_cpu _ Hm _ _ _ Hc) as Hx. simpl in Hx.
  assert (Hothers : owns ph → ∀ d y p, cs !! d = Some (y, p) → owns p → d = c).
  { intros Ho d y p Hd Hp. by apply (mo_excl _ Hm d c y x p ph). }
  pose proof (cpu_update_ok lk cs c x ph lk' x' ph' Hm Hc) as Hgen.
  pose proof (mo_locked _ Hm) as Hlk. simpl in Hlk. pose proof (mo_lcpu _ Hm) as Hcpu. simpl in Hcpu.
  assert (Hlk' : locked lk ≠ 0 ↔ owns ph ∨ ∃ d y p, d ≠ c ∧ cs !! d = Some (y, p) ∧ owns p).
  { rewrite Hlk. split.
    - intros (d & y & p & Hd & Ho). destruct (decide (d = c)) as [->|Hne]; [|right; eauto 10].
      rewrite Hc in Hd. injection Hd as <- <-. by left.
    - intros [Ho|(d & y & p & _ & Hd & Ho)]; eauto. }
  assert (Hcpu' : ∀ d, lcpu lk = Some d ↔ (d = c ∧ ph = In) ∨ (d ≠ c ∧ ∃ y, cs !! d = Some (y, In))).
  { intros d. rewrite Hcpu. destruct (decide (d = c)) as [->|Hne].
    - split; [intros [y Hy]; rewrite Hc in Hy; injection Hy as _ ->; by left|].
      intros [[_ ->]|[? _]]; [by exists x|done].
    - split; [right; done|]. intros [[? _]|[_ ?]]; done. }
  assert (Hno : owns ph → ∀ d y p, d ≠ c → cs !! d = Some (y, p) → ¬ owns p).
  { intros Ho d y p Hne Hd Hp. by apply Hne, (Hothers Ho d y p). }
  clear Hlk Hcpu Hothers Hc Hm. unfold owns in *.
  destruct ph; simpl in E.
  - (* Out *) change (noff x = 0) in Hx. destruct (holding lk c); [done|]. injection E as <- <- <-. apply Hgen; simpl.
    + split; [lia|done].
    + by intros [?|[?|?]].
    + rewrite Hlk'. split; intros [[?|[?|?]]|?]; try done; by right.
    + intros d. rewrite Hcpu'. naive_solver.
  - (* Spinning *) change (noff x = 1 ∧ intr x = false) in Hx. injection E as <- <- <-. apply Hgen; simpl.
    + by destruct (locked lk =? 0).
    + destruct (Z.eqb_spec (locked lk) 0) as [E0|E0]; [|by intros [?|[?|?]]]. intros _ d y p Hne Hd Hp.
      apply (proj2 Hlk'); [right; eauto 10|done].
    + split; [|done]. intros _. destruct (Z.eqb_spec (locked lk) 0) as [E0|E0]; [auto|].
      right. apply Hlk' in E0 as [[?|[?|?]]|?]; done.
    + intros d. rewrite Hcpu'. destruct (locked lk =? 0); naive_solver.
  - (* Swapped *) change (noff x = 1 ∧ intr x = false) in Hx. injection E as <- <- <-. apply Hgen; simpl; [done|intros _; apply Hno; auto|rewrite Hlk'; naive_solver|].
    intros d. split; [intros [= <-]; by left|]. intros [[-> _]|[Hne [y Hy]]]; [done|].
    exfalso. eapply (Hno ltac:(auto) d y In); auto.
  - (* In *) change (noff x = 1 ∧ intr x = false) in Hx. destruct (negb (holding lk c)); [done|]. injection E as <- <- <-. apply Hgen; simpl; [done|intros _; apply Hno; auto|rewrite Hlk'; naive_solver|].
    intros d. split; [done|]. intros [[_ ?]|[Hne [y Hy]]]; [done|]. exfalso. eapply (Hno ltac:(auto) d y In); auto.
  - (* Cleared *) change (noff x = 1 ∧ intr x = false) in Hx. destruct Hx as [En Ei]. unfold pop_off in E. rewrite En, Ei in E. simpl in E. injection E as <- <- <-.
    apply Hgen; simpl; [done|by intros [?|[?|?]]| |].
    + split; [done|]. intros [[?|[?|?]]|(d & y & p & Hne & Hd & Hp)]; try done. by destruct (Hno ltac:(auto) d y p).
    + intros d. rewrite Hcpu'. naive_solver.
Qed.

(** C25: However the steps of any number of CPUs are interleaved, at most one CPU
    is ever between taking and giving back a spin lock; a CPU inside has
    interrupts off; and the panics of [acquire] and [release] never happen: every
    CPU can always take its next step, because [holding] answers yes exactly on
    the CPU in the critical section. *)
Theorem spinlock_mutual_exclusion n m :
  rtc machine_step (start_machine n) m →
  (∀ c d x y, m.2 !! c = Some (x, In) → m.2 !! d = Some (y, In) → c = d) ∧
  (∀ c x, m.2 !! c = Some (x, In) → intr x = false) ∧
  (∀ c x ph, m.2 !! c = Some (x, ph) →
    holding m.1 c = bool_decide (ph = In) ∧ ∃ r, lock_step m.1 c x ph = Ok r).
Proof.
  intros Hr. assert (Hm : machine_ok m).
  { remember (start_machine n) as m0 eqn:E. assert (H0 : machine_ok m0) by (subst; apply start_ok). clear E.
    induction Hr as [m0|m0 m1 m2 Hs Hr IH]; [done|]. by apply IH, (machine_step_ok m0). }
  split_and!.
  - intros c d x y Hc Hd. apply (mo_excl _ Hm c d x y In In); unfold owns; auto.
  - intros c x Hc. by destruct (mo_cpu _ Hm _ _ _ Hc).
  - intros c x ph Hc. split; [by eapply holding_ok|by eapply lock_step_ok].
Qed.

(** ** Examples *)

Lemma push_pop_balanced_witness :
  ∃ c', run [Push; Push; Pop; Push; Pop; Pop] (mk_cpu 0 false true) = Ok c' ∧ intr c' = true.
Proof.
  destruct (push_pop_balanced [Push; Push; Pop; Push; Pop; Pop] (mk_cpu 0 false true)) as (c' & E & _ & Ei & _).
  - apply (bal_wrap [Push; Pop; Push; Pop]). apply (bal_app [Push; Pop] [Push; Pop]); apply (bal_wrap []), bal_nil.
  - simpl. lia.
  - simpl. lia.
  - exists c'. split; [exact E|exact Ei].
Defined.

Lemma spinlock_mutual_exclusion_witness :
  ∃ m, rtc machine_step (start_machine 2) m ∧ ∃ x, m.2 !! 1%nat = Some (x, Spinning).
Proof.
  set (m := (mk_lock 0 None, [(mk_cpu 0 false false, Out); (mk_cpu 1 false false, Spinning)]) : machine).
  assert (Hr : rtc machine_step (start_machine 2) m).
  { eapply rtc_l; [|apply rtc_refl]. exact (ms_step initlock (replicate 2 (mk_cpu 0 false false, Out)) 1 (mk_cpu 0 false false) Out
      initlock (mk_cpu 1 false false) Spinning eq_refl eq_refl). }
  destruct (spinlock_mutual_exclusion 2 m Hr) as (_ & _ & H).
  exists m. split; [exact Hr|]. exists (mk_cpu 1 false false). reflexivity.
Defined.
