(* ===== verification/Bits.v ===== *)
(** * Bit vectors: [kernel/alloc/bits.c]. *)

From S2P Require Import Prelude.

(** A [bits] value is a pointer to an array of bytes; the array is held as a
    list of its bytes. A negative index makes the C shift undefined, so it is
    a fault, like an index past the end of the array. *)
Abbreviation bits := (list Z).

(** The cell index and the one-bit mask of a position. *)
Definition bits_cell_mask (index : Z) : outcome (Z * Z) :=
  if index <? 0 then Fault
  else Ok (Z.quot index 8, u8 (Z.shiftl 1 (Z.rem index 8))).

Definition bits_is_set (b : bits) (index : Z) : outcome bool :=
  '(c, mask) ← bits_cell_mask index;
  cell ← arr_get b c;
  Ok (Z.land cell mask =? mask).

Definition bits_set (b : bits) (index : Z) : outcome bits :=
  '(c, mask) ← bits_cell_mask index;
  cell ← arr_get b c;
  arr_set b c (u8 (Z.lor cell mask)).

Definition bits_clear (b : bits) (index : Z) : outcome bits :=
  '(c, mask) ← bits_cell_mask index;
  cell ← arr_get b c;
  arr_set b c (u8 (Z.land cell (Z.lnot mask))).

Definition bits_switch (b : bits) (index : Z) : outcome bits :=
  s ← bits_is_set b index;
  if (s : bool) then bits_clear b index else bits_set b index.

(** [bits_print] writes a sequence of half-open ranges; the model returns the
    ranges in the order they are printed. The loop runs over the indices that
    are left, with [last_bit] and [last_bit_index] as its state. *)
Fixpoint bits_print_loop (b : bits) (n : nat) (bit_index : Z)
    (last_bit : bool) (last_bit_index : Z)
    : outcome (list (Z * Z) * (bool * Z)) :=
  match n with
  | O => Ok ([], (last_bit, last_bit_index))
  | S n' =>
      s ← bits_is_set b bit_index;
      if Bool.eqb last_bit s
      then bits_print_loop b n' (bit_index + 1) last_bit last_bit_index
      else
        '(out, fin) ← bits_print_loop b n' (bit_index + 1) s bit_index;
        Ok ((if last_bit then [(last_bit_index, bit_index)] else []) ++ out, fin)
  end.

Definition bits_print (b : bits) (len : Z) : outcome (list (Z * Z)) :=
  '(out, (last_bit, last_bit_index)) ← bits_print_loop b (Z.to_nat len) 0 true 0;
  Ok (out ++ (if (last_bit_index =? 0) || last_bit
              then [(last_bit_index, len)] else [])).

(** ** Specification *)

(** The abstract value of a bit vector: bit [i] of the array. *)
Definition bit (b : bits) (i : Z) : bool :=
  Z.testbit (default 0 (b !! Z.to_nat (i / 8))) (i mod 8).

(** The number of bits the array holds. *)
Definition nbits (b : bits) : Z := 8 * zlen b.

Lemma bits_cell_mask_ok i :
  0 ≤ i → bits_cell_mask i = Ok (i / 8, 2 ^ (i mod 8)).
Proof.
  intros Hi. unfold bits_cell_mask. zcase; [lia|].
  rewrite quot_nonneg, rem_nonneg by lia.
  rewrite Z.shiftl_1_l. pose proof (Z.mod_pos_bound i 8 ltac:(lia)).
  unfold u8. rewrite Z.mod_small; [done|].
  split; [by apply Z.pow_nonneg|]. apply Z.pow_lt_mono_r; lia.
Qed.

Lemma land_pow2_eqb c j :
  0 ≤ j → (Z.land c (2 ^ j) =? 2 ^ j) = Z.testbit c j.
Proof.
  intros Hj. destruct (Z.testbit c j) eqn:E.
  - apply Z.eqb_eq. apply Z.bits_inj'. intros n Hn.
    rewrite Z.land_spec, Z.pow2_bits_eqb by lia.
    zcase; [subst; by rewrite E | by rewrite andb_false_r].
  - apply Z.eqb_neq. intros H.
    assert (Hb : Z.testbit (Z.land c (2 ^ j)) j = true)
      by (rewrite H; by apply Z.pow2_bits_true).
    rewrite Z.land_spec, E in Hb. done.
Qed.

Lemma u8_testbit x j : 0 ≤ j < 8 → Z.testbit (u8 x) j = Z.testbit x j.
Proof. intros. unfold u8. by rewrite Z.mod_pow2_bits_low by lia. Qed.

Lemma bits_div_range b i : 0 ≤ i < nbits b → 0 ≤ i / 8 < zlen b.
Proof.
  unfold nbits. intros. split; [apply Z.div_pos; lia|].
  apply Z.div_lt_upper_bound; lia.
Qed.

Lemma bits_get_cell b i :
  0 ≤ i < nbits b → arr_get b (i / 8) = Ok (default 0 (b !! Z.to_nat (i / 8))).
Proof.
  intros Hi. pose proof (bits_div_range b i Hi) as Hd.
  destruct (arr_get_in_range b (i / 8) Hd) as (v & Hv & ->).
  by rewrite Hv.
Qed.

(** Replacing one cell changes only the bits of that cell. *)
Lemma bit_update b i j c :
  0 ≤ i < nbits b → 0 ≤ j →
  bit (<[Z.to_nat (i / 8) := c]> b) j =
  if i / 8 =? j / 8 then Z.testbit c (j mod 8) else bit b j.
Proof.
  intros Hi Hj. pose proof (bits_div_range b i Hi) as Hd.
  pose proof (Z.div_pos j 8 Hj ltac:(lia)).
  unfold bit, zlen in *. zcase.
  - rewrite e. rewrite list_lookup_insert_eq by lia. done.
  - rewrite list_lookup_insert_ne; [done|lia].
Qed.

Lemma same_cell_pos i j :
  i / 8 = j / 8 → (i =? j) = (i mod 8 =? j mod 8).
Proof.
  intros E. pose proof (Z.div_mod i 8 ltac:(lia)).
  pose proof (Z.div_mod j 8 ltac:(lia)). repeat zcase; lia.
Qed.

Lemma bits_is_set_ok b i :
  0 ≤ i < nbits b → bits_is_set b i = Ok (bit b i).
Proof.
  intros Hi. unfold bits_is_set. rewrite bits_cell_mask_ok by lia. simpl.
  rewrite bits_get_cell by done. simpl. f_equal. apply land_pow2_eqb.
  by apply Z.mod_pos_bound.
Qed.

(** A write to position [i] that leaves the vector otherwise unchanged. *)
Definition bits_upd (b b' : bits) (i : Z) (v : bool) : Prop :=
  zlen b' = zlen b ∧ ∀ j, 0 ≤ j → bit b' j = if i =? j then v else bit b j.

Lemma bits_store_upd b i c v :
  0 ≤ i < nbits b →
  (∀ j, 0 ≤ j < 8 → Z.testbit c j =
     if i mod 8 =? j then v else Z.testbit (default 0 (b !! Z.to_nat (i / 8))) j) →
  ∃ b', arr_set b (i / 8) (u8 c) = Ok b' ∧ bits_upd b b' i v.
Proof.
  intros Hi Hc. eexists. split.
  { apply arr_set_in_range. by apply bits_div_range. }
  split; [apply zlen_insert|]. intros j Hj.
  rewrite bit_update by done.
  pose proof (Z.mod_pos_bound j 8 ltac:(lia)) as Hm.
  zcase.
  - rewrite same_cell_pos by done. rewrite u8_testbit, Hc by lia.
    unfold bit. by rewrite e.
  - zcase; [congruence|done].
Qed.

Lemma bits_set_ok b i :
  0 ≤ i < nbits b → ∃ b', bits_set b i = Ok b' ∧ bits_upd b b' i true.
Proof.
  intros Hi. unfold bits_set. rewrite bits_cell_mask_ok by lia. simpl.
  rewrite bits_get_cell by done. simpl. apply bits_store_upd; [done|].
  intros j Hj. rewrite Z.lor_spec, Z.pow2_bits_eqb by (apply Z.mod_pos_bound; lia).
  zcase; [apply orb_true_r | apply orb_false_r].
Qed.

Lemma bits_clear_ok b i :
  0 ≤ i < nbits b → ∃ b', bits_clear b i = Ok b' ∧ bits_upd b b' i false.
Proof.
  intros Hi. unfold bits_clear. rewrite bits_cell_mask_ok by lia. simpl.
  rewrite bits_get_cell by done. simpl. apply bits_store_upd; [done|].
  intros j Hj.
  rewrite Z.land_spec, Z.lnot_spec, Z.pow2_bits_eqb
    by (try apply Z.mod_pos_bound; lia).
  zcase; [apply andb_false_r | apply andb_true_r].
Qed.

Lemma bits_switch_ok b i :
  0 ≤ i < nbits b →
  ∃ b', bits_switch b i = Ok b' ∧ bits_upd b b' i (negb (bit b i)).
Proof.
  intros Hi. unfold bits_switch. rewrite bits_is_set_ok by done. simpl.
  destruct (bit b i); [by apply bits_clear_ok | by apply bits_set_ok].
Qed.

Lemma bits_upd_nbits b b' i v : bits_upd b b' i v → nbits b' = nbits b.
Proof. unfold nbits. by intros [-> _]. Qed.

(** A freshly zeroed vector. *)
Lemma bit_zero n i : bit (replicate n 0) i = false.
Proof.
  unfold bit. destruct (replicate n 0 !! Z.to_nat (i / 8)) eqn:E.
  - apply lookup_replicate in E as [-> _]. apply Z.bits_0.
  - apply Z.bits_0.
Qed.

(** ** The printed ranges *)

(** Position [i] lies in one of the printed ranges. *)
Definition in_ranges (out : list (Z * Z)) (i : Z) : Prop :=
  ∃ lo hi, (lo, hi) ∈ out ∧ lo ≤ i < hi.

Lemma in_ranges_app o1 o2 i :
  in_ranges (o1 ++ o2) i ↔ in_ranges o1 i ∨ in_ranges o2 i.
Proof. unfold in_ranges. setoid_rewrite elem_of_app. naive_solver. Qed.

Lemma in_ranges_nil i : ¬ in_ranges [] i.
Proof. intros (?&?&H&_). by apply elem_of_nil in H. Qed.

Lemma in_ranges_one lo hi i : in_ranges [(lo, hi)] i ↔ lo ≤ i < hi.
Proof. unfold in_ranges. setoid_rewrite list_elem_of_singleton. naive_solver. Qed.

Lemma bits_print_loop_ok b n : ∀ bi lb li,
  0 ≤ li ≤ bi → bi + Z.of_nat n ≤ nbits b →
  (∀ i, li ≤ i < bi → bit b i = lb) →
  ∃ out lb' li', bits_print_loop b n bi lb li = Ok (out, (lb', li')) ∧
    li ≤ li' ≤ bi + Z.of_nat n ∧
    (∀ i, li' ≤ i < bi + Z.of_nat n → bit b i = lb') ∧
    (∀ i, in_ranges out i ↔ li ≤ i < li' ∧ bit b i = true).
Proof.
  induction n as [|n IH]; intros bi lb li Hli Hn Hrun; simpl.
  { exists [], lb, li. split; [done|]. split; [lia|].
    split; [intros; apply Hrun; lia|].
    intros i. split; [by intros ?%in_ranges_nil | lia]. }
  rewrite bits_is_set_ok by lia. simpl.
  destruct (Bool.eqb_spec lb (bit b bi)) as [E|E].
  - destruct (IH (bi + 1) lb li) as (out & lb' & li' & -> & ? & Hrun' & Hout);
      [lia | lia | |].
    { intros i Hi. destruct (decide (i = bi)) as [->|]; [done|]. apply Hrun; lia. }
    exists out, lb', li'. split; [done|]. split; [lia|].
    split; [intros; apply Hrun'; lia|done].
  - destruct (IH (bi + 1) (bit b bi) bi) as (out & lb' & li' & -> & ? & Hrun' & Hout);
      [lia | lia | |].
    { intros i Hi. by replace i with bi by lia. }
    simpl. eexists _, lb', li'. split; [done|]. split; [lia|].
    split; [intros; apply Hrun'; lia|].
    intros i. rewrite in_ranges_app, Hout.
    assert (Hl : in_ranges (if lb then [(li, bi)] else []) i ↔
                 li ≤ i < bi ∧ bit b i = true).
    { destruct lb.
      - rewrite in_ranges_one. split; [intros; split; [lia|by apply Hrun]|tauto].
      - split; [by intros ?%in_ranges_nil|].
        intros [? Ht]. rewrite Hrun in Ht by lia. done. }
    rewrite Hl. destruct (decide (i < bi)); intuition lia.
Qed.

(** The ranges [bits_print] prints are exactly the set bits, whenever at
    least one bit is set. *)
Lemma bits_print_ranges b len :
  0 < len ≤ nbits b → (∃ i, 0 ≤ i < len ∧ bit b i = true) →
  ∃ out, bits_print b len = Ok out ∧
    ∀ i, in_ranges out i ↔ 0 ≤ i < len ∧ bit b i = true.
Proof.
  intros Hlen (w & Hw & Hbit). unfold bits_print.
  destruct (bits_print_loop_ok b (Z.to_nat len) 0 true 0)
    as (out & lb & li & -> & Hli & Hrun & Hout); [lia..|].
  rewrite Z2Nat.id in * by lia. rewrite Z.add_0_l in *.
  simpl. eexists. split; [done|]. intros i. rewrite in_ranges_app, Hout.
  assert (Htail : in_ranges (if (li =? 0) || lb then [(li, len)] else []) i ↔
                  li ≤ i < len ∧ bit b i = true).
  { destruct lb; rewrite ?orb_true_r, ?orb_false_r.
    - rewrite in_ranges_one. split; [intros; split; [lia|by apply Hrun]|tauto].
    - zcase.
      + subst li. rewrite Hrun in Hbit by lia. done.
      + split; [by intros ?%in_ranges_nil|].
        intros [? Ht]. rewrite Hrun in Ht by lia. done. }
  rewrite Htail. destruct (decide (i < li)); intuition lia.
Qed.

(** On a vector with no bit set the code prints the whole vector as one range
    of ones, which its doc comment excludes. *)
Lemma bits_print_all_clear b len :
  0 < len ≤ nbits b → (∀ i, 0 ≤ i < len → bit b i = false) →
  bits_print b len = Ok [(0, 0); (0, len)].
Proof.
  intros Hlen Hz. unfold bits_print.
  destruct (Z.to_nat len) as [|n] eqn:E; [lia|]. cbn [bits_print_loop].
  rewrite bits_is_set_ok, Hz by lia. cbn [mbind outcome_bind Bool.eqb].
  assert (Hloop : ∀ m bi, 0 ≤ bi → bi + Z.of_nat m ≤ len →
            bits_print_loop b m bi false 0 = Ok ([], (false, 0))).
  { induction m as [|m IHm]; intros bi ? ?; simpl; [done|].
    rewrite bits_is_set_ok, Hz by lia. simpl. apply IHm; lia. }
  rewrite Hloop by lia. done.
Qed.
