(* ===== verification/LinkedList.v ===== *)
(** * Circular doubly-linked lists: [kernel/alloc/list.c].

    The nodes live in the memory they describe (a free block stores its own
    links), so the model is a store from addresses to [struct list] values and
    every operation is a sequence of field reads and writes on that store. The
    specification relates the store to an ordinary list of addresses. *)

From S2P Require Import Prelude.

Record list_node := mk_node { next : Z; prev : Z }.

(** The part of memory that holds [struct list] values, by address. *)
Abbreviation nodes := (gmap Z list_node).

(** ** The code *)

(** Reading a field of a node: memory that was never initialised as a node has
    no known contents, so reading it is a fault. *)
Definition node_at (m : nodes) (a : Z) : outcome list_node :=
  match m !! a with Some n => Ok n | None => Fault end.

(** [a->next = v]. Writing the first field of a node into raw memory leaves
    the other field with arbitrary contents (zero here). *)
Definition set_next (m : nodes) (a v : Z) : nodes :=
  <[a := mk_node v (default 0 (prev <$> m !! a))]> m.

(** [a->prev = v]. *)
Definition set_prev (m : nodes) (a v : Z) : nodes :=
  <[a := mk_node (default 0 (next <$> m !! a)) v]> m.

Definition lst_init (m : nodes) (lst : Z) : nodes :=
  set_prev (set_next m lst lst) lst lst.

Definition lst_empty (m : nodes) (lst : Z) : outcome bool :=
  n ← node_at m lst; Ok (next n =? lst).

Definition lst_remove (m : nodes) (node : Z) : outcome nodes :=
  n ← node_at m node;
  let m1 := set_next m (prev n) (next n) in
  n1 ← node_at m1 node;
  Ok (set_prev m1 (next n1) (prev n1)).

Definition lst_pop (m : nodes) (lst : Z) : outcome (Z * nodes) :=
  n ← node_at m lst;
  if next n =? lst then Panic "lst_pop on en empty list"
  else
    let p := next n in
    m' ← lst_remove m p;
    Ok (p, m').

Definition lst_push (m : nodes) (lst p : Z) : outcome nodes :=
  n ← node_at m lst;
  let m1 := set_next m p (next n) in
  let m2 := set_prev m1 p lst in
  n2 ← node_at m2 lst;
  let m3 := set_prev m2 (next n2) p in
  Ok (set_next m3 lst p).

(** [lst_print] walks the list; the model returns the addresses it prints.
    The fuel bounds the number of loop iterations. *)
Fixpoint lst_print_loop (fuel : nat) (m : nodes) (lst node : Z)
    : outcome (list Z) :=
  match fuel with
  | O => Hang
  | S fuel' =>
      if node =? lst then Ok []
      else
        n ← node_at m node;
        out ← lst_print_loop fuel' m lst (next n);
        Ok (node :: out)
  end.

Definition lst_print (fuel : nat) (m : nodes) (lst : Z) : outcome (list Z) :=
  n ← node_at m lst; lst_print_loop fuel m lst (next n).

(** ** Specification *)

Definition nxt (m : nodes) (a v : Z) : Prop := next <$> m !! a = Some v.
Definition prv (m : nodes) (a v : Z) : Prop := prev <$> m !! a = Some v.

(** [dseg m a xs b]: following [next] from [a] visits [xs] and then [b], and
    the [prev] links run back along the same path. *)
Fixpoint dseg (m : nodes) (a : Z) (xs : list Z) (b : Z) : Prop :=
  match xs with
  | [] => nxt m a b ∧ prv m b a
  | x :: xs' => nxt m a x ∧ prv m x a ∧ dseg m x xs' b
  end.

(** [dll m h xs]: [h] heads a circular list whose members are [xs], in order,
    all of them distinct. *)
Definition dll (m : nodes) (h : Z) (xs : list Z) : Prop :=
  dseg m h xs h ∧ NoDup (h :: xs).

(** *** Field reads and writes *)

Lemma nxt_node_at m a v : nxt m a v → ∃ n, node_at m a = Ok n ∧ next n = v.
Proof.
  unfold nxt, node_at. destruct (m !! a) as [n|]; naive_solver.
Qed.

Lemma nxt_prv_node_at m a v w :
  nxt m a v → prv m a w → node_at m a = Ok (mk_node v w).
Proof.
  unfold nxt, prv, node_at. destruct (m !! a) as [[??]|]; naive_solver.
Qed.

Lemma nxt_set_next m a v x w :
  nxt (set_next m a v) x w ↔ if decide (a = x) then v = w else nxt m x w.
Proof.
  unfold nxt, set_next. case_decide as E.
  - subst. rewrite lookup_insert_eq. naive_solver.
  - by rewrite lookup_insert_ne.
Qed.

Lemma prv_set_prev m a v x w :
  prv (set_prev m a v) x w ↔ if decide (a = x) then v = w else prv m x w.
Proof.
  unfold prv, set_prev. case_decide as E.
  - subst. rewrite lookup_insert_eq. naive_solver.
  - by rewrite lookup_insert_ne.
Qed.

Lemma prv_set_next m a v x w : prv m x w → prv (set_next m a v) x w.
Proof.
  unfold prv, set_next. destruct (decide (a = x)) as [->|].
  - rewrite lookup_insert_eq. by destruct (m !! x) as [[??]|].
  - by rewrite lookup_insert_ne.
Qed.

Lemma nxt_set_prev m a v x w : nxt m x w → nxt (set_prev m a v) x w.
Proof.
  unfold nxt, set_prev. destruct (decide (a = x)) as [->|].
  - rewrite lookup_insert_eq. by destruct (m !! x) as [[??]|].
  - by rewrite lookup_insert_ne.
Qed.

Lemma set_next_frame m a v x : a ≠ x → set_next m a v !! x = m !! x.
Proof. intros. unfold set_next. by rewrite lookup_insert_ne. Qed.

Lemma set_prev_frame m a v x : a ≠ x → set_prev m a v !! x = m !! x.
Proof. intros. unfold set_prev. by rewrite lookup_insert_ne. Qed.

Create HintDb dll_db.
#[export] Hint Resolve prv_set_next nxt_set_prev : dll_db.

(** *** Segments *)

Lemma dseg_app m a xs x ys b :
  dseg m a (xs ++ x :: ys) b ↔ dseg m a xs x ∧ dseg m x ys b.
Proof.
  revert a. induction xs as [|y xs IH]; intros a; simpl; [tauto|].
  rewrite IH. tauto.
Qed.

(** A segment only depends on the [next] links of its first nodes and the
    [prev] links of its last ones. *)
Lemma dseg_mono m m' a xs b :
  (∀ x w, x ∈ a :: xs → nxt m x w → nxt m' x w) →
  (∀ x w, x ∈ xs ++ [b] → prv m x w → prv m' x w) →
  dseg m a xs b → dseg m' a xs b.
Proof.
  revert a. induction xs as [|y xs IH]; intros a Hn Hp; simpl.
  - intros [H1 H2]. split; [apply Hn | apply Hp]; set_solver.
  - intros (H1 & H2 & H3). split_and!.
    + apply Hn; set_solver.
    + apply Hp; set_solver.
    + apply IH; [set_solver..|done].
Qed.

Lemma default_last_cons (a y : Z) xs :
  default a (last (y :: xs)) = default y (last xs).
Proof. by rewrite last_cons; destruct (last xs). Qed.

Lemma default_last_elem (a : Z) xs : default a (last xs) ∈ a :: xs.
Proof.
  destruct (last xs) as [l|] eqn:E; simpl; [|set_solver].
  apply last_Some in E as [l' ->]. set_solver.
Qed.

(** The links between the last node of a segment and its end. *)
Lemma dseg_last_links m a xs b :
  dseg m a xs b →
  nxt m (default a (last xs)) b ∧ prv m b (default a (last xs)).
Proof.
  revert a. induction xs as [|y xs IH]; intros a; simpl; [done|].
  intros (_ & _ & H). change (match xs with [] => _ | _ => _ end)
    with (last (y :: xs)). rewrite default_last_cons. by apply IH.
Qed.

Lemma dseg_first_links m a xs b :
  dseg m a xs b →
  nxt m a (default b (head xs)) ∧ prv m (default b (head xs)) a.
Proof. destruct xs; simpl; tauto. Qed.

(** Redirecting the end of a segment: its last node [p] now points to [s]. *)
Lemma dseg_end m m' a xs x p s :
  NoDup (a :: xs) → p = default a (last xs) →
  (∀ y w, y ∈ a :: xs → y ≠ p → nxt m y w → nxt m' y w) →
  (∀ y w, y ∈ xs → prv m y w → prv m' y w) →
  nxt m' p s → prv m' s p →
  dseg m a xs x → dseg m' a xs s.
Proof.
  revert a. induction xs as [|y xs IH]; intros a Hnd Hp Hn Hv Hps Hsp.
  { simpl in *. by subst. }
  apply NoDup_cons in Hnd as [Ha Hnd]. simpl.
  intros (H1 & H2 & H3).
  rewrite default_last_cons in Hp.
  assert (Hpin : p ∈ y :: xs) by (rewrite Hp; apply default_last_elem).
  split_and!.
  - apply Hn; [set_solver | set_solver | done].
  - apply Hv; [set_solver | done].
  - apply IH; [done | done | set_solver | set_solver | done..].
Qed.

Lemma dll_frame m m' h xs :
  (∀ a, a ∈ h :: xs → m' !! a = m !! a) → dll m h xs → dll m' h xs.
Proof.
  intros Hf [Hs Hd]. split; [|done].
  eapply dseg_mono; [| |done]; unfold nxt, prv;
    intros x w Hx; rewrite Hf; set_solver.
Qed.

(** *** Each operation implements its counterpart on lists *)

Lemma lst_init_ok m h : dll (lst_init m h) h [].
Proof.
  unfold lst_init. split; [|apply NoDup_singleton]. simpl. split.
  - apply nxt_set_prev, nxt_set_next. by rewrite decide_True.
  - apply prv_set_prev. by rewrite decide_True.
Qed.

Lemma lst_init_frame m h a : a ≠ h → lst_init m h !! a = m !! a.
Proof.
  intros. unfold lst_init. by rewrite set_prev_frame, set_next_frame.
Qed.

Lemma dll_head m h xs :
  dll m h xs → ∃ n, node_at m h = Ok n ∧ next n = default h (head xs).
Proof.
  intros [Hs _]. destruct xs; simpl in *; apply nxt_node_at; tauto.
Qed.

Lemma lst_empty_ok m h xs :
  dll m h xs → lst_empty m h = Ok (bool_decide (xs = [])).
Proof.
  intros H. destruct (dll_head _ _ _ H) as (n & Hn & E).
  unfold lst_empty. rewrite Hn. simpl. rewrite E. destruct H as [_ Hd].
  destruct xs as [|x xs]; simpl; [by rewrite Z.eqb_refl|].
  apply NoDup_cons in Hd as [Hh _].
  destruct (Z.eqb_spec x h) as [->|]; [set_solver|done].
Qed.

(** Unlinking [x] from the middle of a list. *)
Lemma lst_remove_ok m h xs x ys :
  dll m h (xs ++ x :: ys) →
  ∃ m', lst_remove m x = Ok m' ∧ dll m' h (xs ++ ys) ∧
    ∀ a, a ∉ h :: xs ++ ys → m' !! a = m !! a.
Proof.
  intros [Hs Hnd].
  pose proof Hs as [H1 H2]%dseg_app.
  pose proof (dseg_last_links _ _ _ _ H1) as [Hp1 Hp2].
  pose proof (dseg_first_links _ _ _ _ H2) as [Hs1 Hs2].
  pose proof (default_last_elem h xs) as Hpin.
  assert (Hsin : default h (head ys) ∈ ys ++ [h])
    by (destruct ys; simpl; set_solver).
  remember (default h (last xs)) as p eqn:Ep.
  remember (default h (head ys)) as s eqn:Es.
  apply NoDup_cons in Hnd as [Hh Hnd].
  apply NoDup_app in Hnd as (Hx1 & Hx2 & Hx3).
  apply NoDup_cons in Hx3 as [Hx3 Hx4].
  assert (Hpys : ∀ z, z ∈ x :: ys → z ≠ p).
  { intros z Hz ->. apply elem_of_cons in Hpin as [->|Hin];
      [apply Hh; set_solver +Hz | by apply (Hx2 _ Hin)]. }
  assert (Hsxs : ∀ z, z ∈ xs → z ≠ s).
  { intros z Hz ->. apply elem_of_app in Hsin as [Hin|Hin%list_elem_of_singleton];
      [apply (Hx2 _ Hz); set_solver +Hin | apply Hh; set_solver +Hz Hin]. }
  assert (Hhx : h ∉ xs ∧ h ≠ x ∧ h ∉ ys) by set_solver +Hh.
  destruct Hhx as (Hhxs & Hhx & Hhys).
  assert (Hpx : p ≠ x) by (apply not_eq_sym, Hpys; set_solver +).
  exists (set_prev (set_next m p s) s p). split_and!.
  - unfold lst_remove. rewrite (nxt_prv_node_at _ _ _ _ Hs1 Hp2). simpl.
    rewrite (nxt_prv_node_at _ _ s p); [done| |auto with dll_db].
    apply nxt_set_next. by rewrite decide_False.
  - assert (Hn : ∀ y w, y ≠ p → nxt m y w →
              nxt (set_prev (set_next m p s) s p) y w).
    { intros y w Hy Hw. apply nxt_set_prev, nxt_set_next. by rewrite decide_False. }
    assert (Hv : ∀ y w, y ≠ s → prv m y w →
              prv (set_prev (set_next m p s) s p) y w).
    { intros y w Hy Hw. apply prv_set_prev. rewrite decide_False by done.
      by apply prv_set_next. }
    assert (Hps : nxt (set_prev (set_next m p s) s p) p s).
    { apply nxt_set_prev, nxt_set_next. by rewrite decide_True. }
    assert (Hsp : prv (set_prev (set_next m p s) s p) s p).
    { apply prv_set_prev. by rewrite decide_True. }
    split.
    + destruct ys as [|y ys]; simpl in Es; subst s.
      * rewrite app_nil_r.
        eapply (dseg_end m _ h xs x p h); try done; [by constructor|auto|].
        intros y w Hy. apply Hv. by apply Hsxs.
      * apply dseg_app. split.
        -- eapply (dseg_end m _ h xs x p y); try done; [by constructor|auto|].
           intros z w Hz. apply Hv. by apply Hsxs.
        -- destruct H2 as (_ & _ & H2). apply NoDup_cons in Hx4 as [Hx4 Hx5].
           eapply dseg_mono; [| |done]; intros z w Hz.
           ++ apply Hn, Hpys. set_solver +Hz.
           ++ apply Hv. intros ->.
              apply elem_of_app in Hz as [?|Hz%list_elem_of_singleton]; [done|].
              apply Hhys. set_solver +Hz.
    + constructor; [by apply not_elem_of_app|]. apply NoDup_app.
      split_and!; [done| |done]. intros z Hz1 Hz2. apply (Hx2 z Hz1).
      set_solver +Hz2.
  - intros a Ha. rewrite set_prev_frame, set_next_frame; [done| |].
    + intros ->. apply Ha. set_solver +Hpin.
    + intros ->. apply Ha. set_solver +Hsin.
Qed.

Lemma lst_pop_ok m h x xs :
  dll m h (x :: xs) →
  ∃ m', lst_pop m h = Ok (x, m') ∧ dll m' h xs ∧
    ∀ a, a ∉ h :: xs → m' !! a = m !! a.
Proof.
  intros H. destruct (dll_head _ _ _ H) as (n & Hn & E). simpl in E.
  unfold lst_pop. rewrite Hn. simpl. rewrite E.
  pose proof H as [_ [Hh _]%NoDup_cons].
  destruct (Z.eqb_spec x h) as [->|]; [set_solver|].
  destruct (lst_remove_ok m h [] x xs H) as (m' & -> & Hd & Hf).
  simpl. by exists m'.
Qed.

Lemma lst_pop_empty m h :
  dll m h [] → lst_pop m h = Panic "lst_pop on en empty list".
Proof.
  intros H. destruct (dll_head _ _ _ H) as (n & Hn & E). simpl in E.
  unfold lst_pop. rewrite Hn. simpl. by rewrite E, Z.eqb_refl.
Qed.

Lemma lst_push_ok m h p xs :
  dll m h xs → p ∉ h :: xs →
  ∃ m', lst_push m h p = Ok m' ∧ dll m' h (p :: xs) ∧
    ∀ a, a ∉ h :: p :: xs → m' !! a = m !! a.
Proof.
  intros [Hs Hnd] Hp.
  pose proof (dseg_first_links _ _ _ _ Hs) as [Hf1 Hf2].
  assert (Hfin : default h (head xs) ∈ h :: xs) by (destruct xs; simpl; set_solver).
  remember (default h (head xs)) as f eqn:Ef.
  set (m3 := set_prev (set_prev (set_next m p f) p h) f p).
  exists (set_next m3 h p). split_and!.
  - unfold lst_push. destruct (nxt_node_at _ _ _ Hf1) as (n & -> & Hn).
    simpl. rewrite Hn.
    assert (H2 : nxt (set_prev (set_next m p f) p h) h f).
    { apply nxt_set_prev, nxt_set_next. rewrite decide_False; [done|set_solver]. }
    destruct (nxt_node_at _ _ _ H2) as (n2 & -> & Hn2). simpl. by rewrite Hn2.
  - assert (Hn : ∀ y w, y ≠ p → y ≠ h → nxt m y w → nxt (set_next m3 h p) y w).
    { intros y w Hy1 Hy2 Hw. apply nxt_set_next. rewrite decide_False by done.
      apply nxt_set_prev, nxt_set_prev, nxt_set_next. by rewrite decide_False. }
    assert (Hv : ∀ y w, y ≠ f → y ≠ p → prv m y w → prv (set_next m3 h p) y w).
    { intros y w Hy1 Hy2 Hw. apply prv_set_next, prv_set_prev.
      rewrite decide_False by done. apply prv_set_prev. rewrite decide_False by done.
      by apply prv_set_next. }
    assert (Hhp : nxt (set_next m3 h p) h p).
    { apply nxt_set_next. by rewrite decide_True. }
    assert (Hph : prv (set_next m3 h p) p h).
    { apply prv_set_next, prv_set_prev. rewrite decide_False by set_solver.
      apply prv_set_prev. by rewrite decide_True. }
    assert (Hpf : nxt (set_next m3 h p) p f).
    { apply nxt_set_next. rewrite decide_False by set_solver.
      apply nxt_set_prev, nxt_set_prev, nxt_set_next. by rewrite decide_True. }
    assert (Hfp : prv (set_next m3 h p) f p).
    { apply prv_set_next, prv_set_prev. by rewrite decide_True. }
    split.
    + simpl. split_and!; [done..|]. destruct xs as [|x xs]; simpl in *; subst f.
      * done.
      * split_and!; [done..|]. destruct Hs as (_ & _ & Hs).
        apply NoDup_cons in Hnd as [? [? ?]%NoDup_cons].
        eapply dseg_mono; [| |done]; intros y w Hy.
        -- apply Hn; set_solver.
        -- apply Hv; set_solver.
    + apply NoDup_cons in Hnd as [Hh Hnd].
      constructor; [set_solver|]. constructor; [set_solver|done].
  - intros a Ha. unfold m3.
    rewrite set_next_frame, !set_prev_frame, set_next_frame; [done|set_solver..].
Qed.

(** Printing visits every member once and stops at the head. *)
Lemma lst_print_loop_ok fuel m a xs h :
  dseg m a xs h → h ∉ xs → (length xs < fuel)%nat →
  ∀ y, nxt m a y → lst_print_loop fuel m h y = Ok xs.
Proof.
  revert fuel a. induction xs as [|x xs IH]; intros [|fuel] a Hs Hh Hf y Hy;
    simpl in *; try lia.
  - destruct Hs as [Hs _]. unfold nxt in *. rewrite Hs in Hy.
    injection Hy as <-. by rewrite Z.eqb_refl.
  - destruct Hs as (H1 & H2 & H3). unfold nxt in H1, Hy. rewrite H1 in Hy.
    injection Hy as <-.
    destruct (Z.eqb_spec x h) as [->|]; [set_solver|].
    destruct (dseg_first_links _ _ _ _ H3) as [Hx _].
    destruct (nxt_node_at _ _ _ Hx) as (nd & -> & Hn). simpl.
    erewrite (IH fuel x); [done|done|set_solver|lia|by rewrite Hn].
Qed.

Lemma lst_print_ok fuel m h xs :
  dll m h xs → (length xs < fuel)%nat → lst_print fuel m h = Ok xs.
Proof.
  intros [Hs [Hh _]%NoDup_cons] Hf. unfold lst_print.
  destruct (dseg_first_links _ _ _ _ Hs) as [Hx _].
  destruct (nxt_node_at _ _ _ Hx) as (n & -> & Hn). simpl.
  eapply lst_print_loop_ok; [done..|by rewrite Hn].
Qed.
