(* ===== verification/Buddy.v ===== *)
(** * The buddy allocator: [kernel/alloc/buddy.c].

    The allocator's global variables are the record [buddy]. The bit arrays
    are byte lists, the free lists are circular lists threaded through the
    free blocks themselves ([LinkedList]); the head of the free list of size
    [k] is the first field of [buddy_size_groups[k]], an array that starts at
    [buddy_base]. [buddy_lock] is held for the whole of every operation, so an
    operation is one function on the record. *)

From S2P Require Import Prelude.
From S2P Require Import Bits.
From S2P Require Import LinkedList.

(** ** Data *)

Record buddy_size_group_info := mk_group {
  pair_alloc_xor : bits;
  split : bits;
}.

Record buddy := mk_buddy {
  buddy_base : Z;
  buddy_size_groups : list buddy_size_group_info;
  mem : nodes;
}.

Definition buddy_size_groups_count (st : buddy) : Z := zlen (buddy_size_groups st).

Definition LEAF_SIZE : Z := 16.
Definition MAXSIZE (st : buddy) : Z := buddy_size_groups_count st - 1.
Definition BLK_SIZE (k : Z) : Z := Z.shiftl 1 k * LEAF_SIZE.
Definition NBLK (maxsize k : Z) : Z := Z.shiftl 1 (maxsize - k).
Definition ROUNDUP (n sz : Z) : Z := ((n - 1) / sz + 1) * sz.

(** [sizeof(buddy_size_group_info)]: a [struct list] and two pointers. *)
Definition sizeof_group : Z := 32.

(** [&buddy_size_groups[k].freelist]. *)
Definition freelist (base k : Z) : Z := base + sizeof_group * k.

(** ** Index arithmetic *)

Definition buddy_pair_index (block_index : Z) : Z :=
  let block_index :=
    if Z.rem block_index 2 =? 1 then block_index - 1 else block_index in
  Z.quot block_index 2.

(** The loop doubles [size] in 64 bits: past [2^63] it becomes 0 and the loop
    never ends, which 64 iterations are enough to tell. *)
Fixpoint firstk_loop (fuel : nat) (n k size : Z) : outcome Z :=
  match fuel with
  | O => Hang
  | S fuel' =>
      if size <? n then firstk_loop fuel' n (k + 1) (u64 (size * 2)) else Ok k
  end.

Definition firstk (n : Z) : outcome Z := firstk_loop 64 n 0 LEAF_SIZE.

Definition blk_index (base k p : Z) : Z :=
  let n := i32 (p - base) in Z.quot n (BLK_SIZE k).

Definition addr (base k bi : Z) : Z :=
  let n := i32 (bi * BLK_SIZE k) in base + n.

Definition blk_index_next (base k p : Z) : Z :=
  let n := i32 (Z.quot (p - base) (BLK_SIZE k)) in
  if negb (Z.rem (p - base) (BLK_SIZE k) =? 0) then n + 1 else n.

Fixpoint log2_loop (fuel : nat) (k n : Z) : outcome Z :=
  match fuel with
  | O => Hang
  | S fuel' => if 1 <? n then log2_loop fuel' (k + 1) (Z.shiftr n 1) else Ok k
  end.

Definition log2 (n : Z) : outcome Z := log2_loop 65 0 n.

Definition buddy_of (bi : Z) : Z := if Z.rem bi 2 =? 0 then bi + 1 else bi - 1.

(** ** Access to the size groups *)

Definition with_mem (st : buddy) (m : nodes) : buddy :=
  mk_buddy (buddy_base st) (buddy_size_groups st) m.

Definition set_group (st : buddy) (k : Z) (g : buddy_size_group_info) : outcome buddy :=
  gs ← arr_set (buddy_size_groups st) k g;
  Ok (mk_buddy (buddy_base st) gs (mem st)).

(** [bits_switch(buddy_size_groups[k].pair_alloc_xor, pi)] *)
Definition xor_switch (st : buddy) (k pi : Z) : outcome buddy :=
  g ← arr_get (buddy_size_groups st) k;
  x ← bits_switch (pair_alloc_xor g) pi;
  set_group st k (mk_group x (split g)).

(** [bits_is_set(buddy_size_groups[k].pair_alloc_xor, pi)] *)
Definition xor_is_set (st : buddy) (k pi : Z) : outcome bool :=
  g ← arr_get (buddy_size_groups st) k; bits_is_set (pair_alloc_xor g) pi.

(** [bits_set(buddy_size_groups[k].split, bi)] *)
Definition split_set (st : buddy) (k bi : Z) : outcome buddy :=
  g ← arr_get (buddy_size_groups st) k;
  s ← bits_set (split g) bi;
  set_group st k (mk_group (pair_alloc_xor g) s).

(** [bits_clear(buddy_size_groups[k].split, bi)] *)
Definition split_clear (st : buddy) (k bi : Z) : outcome buddy :=
  g ← arr_get (buddy_size_groups st) k;
  s ← bits_clear (split g) bi;
  set_group st k (mk_group (pair_alloc_xor g) s).

(** [bits_is_set(buddy_size_groups[k].split, bi)] *)
Definition split_is_set (st : buddy) (k bi : Z) : outcome bool :=
  g ← arr_get (buddy_size_groups st) k; bits_is_set (split g) bi.

(** [lst_push(&buddy_size_groups[k].freelist, p)] *)
Definition free_push (st : buddy) (k p : Z) : outcome buddy :=
  m ← lst_push (mem st) (freelist (buddy_base st) k) p; Ok (with_mem st m).

(** ** Allocation *)

(** The first loop of [buddy_malloc]: the first size from [k] on with a free
    block, or the number of sizes. *)
Fixpoint malloc_find (n : nat) (st : buddy) (k : Z) : outcome Z :=
  match n with
  | O => Ok k
  | S n' =>
      e ← lst_empty (mem st) (freelist (buddy_base st) k);
      if (e : bool) then malloc_find n' st (k + 1) else Ok k
  end.

(** The second loop, from size [k] down by [n] sizes. *)
Fixpoint malloc_split (n : nat) (st : buddy) (k p : Z) : outcome buddy :=
  match n with
  | O => Ok st
  | S n' =>
      let q := p + BLK_SIZE (k - 1) in
      st ← split_set st k (blk_index (buddy_base st) k p);
      st ← xor_switch st (k - 1)
             (buddy_pair_index (blk_index (buddy_base st) (k - 1) p));
      st ← free_push st (k - 1) q;
      malloc_split n' st (k - 1) p
  end.

Definition buddy_malloc (st : buddy) (nbytes : Z) : outcome (Z * buddy) :=
  fk ← firstk nbytes;
  k ← malloc_find (Z.to_nat (buddy_size_groups_count st - fk)) st fk;
  if buddy_size_groups_count st <=? k then Ok (0, st)
  else
    '(p, m) ← lst_pop (mem st) (freelist (buddy_base st) k);
    st ← xor_switch (with_mem st m) k
           (buddy_pair_index (blk_index (buddy_base st) k p));
    st ← malloc_split (Z.to_nat (k - fk)) st k p;
    Ok (p, st).

(** ** Release *)

(** [size(p)]: the loop over [n] sizes from [k] on. *)
Fixpoint bd_size_loop (n : nat) (st : buddy) (k p : Z) : outcome Z :=
  match n with
  | O => Ok 0
  | S n' =>
      s ← split_is_set st (k + 1) (blk_index (buddy_base st) (k + 1) p);
      if (s : bool) then Ok k else bd_size_loop n' st (k + 1) p
  end.

Definition bd_size (st : buddy) (p : Z) : outcome Z :=
  bd_size_loop (Z.to_nat (buddy_size_groups_count st)) st 0 p.

(** The loop of [buddy_free]; its result is the size, the address and the
    state at its exit. *)
Fixpoint free_loop (n : nat) (st : buddy) (k p : Z) : outcome (Z * Z * buddy) :=
  match n with
  | O => Ok (k, p, st)
  | S n' =>
      let bi := blk_index (buddy_base st) k p in
      let pi := buddy_pair_index bi in
      let bd := buddy_of bi in
      st ← xor_switch st k pi;
      s ← xor_is_set st k pi;
      if (s : bool) then Ok (k, p, st)
      else
        let q := addr (buddy_base st) k bd in
        m ← lst_remove (mem st) q;
        let st := with_mem st m in
        let p := if Z.rem bd 2 =? 0 then q else p in
        st ← split_clear st (k + 1) (blk_index (buddy_base st) (k + 1) p);
        free_loop n' st (k + 1) p
  end.

Definition buddy_free (st : buddy) (p : Z) : outcome buddy :=
  k ← bd_size st p;
  '(k, p, st) ← free_loop (Z.to_nat (MAXSIZE st - k)) st k p;
  free_push st k p.

(** ** Initialisation *)

(** The inner loop of [bd_mark]: [n] blocks of size [k] from [bi] on. *)
Fixpoint bd_mark_blocks (n : nat) (st : buddy) (k bi : Z) : outcome buddy :=
  match n with
  | O => Ok st
  | S n' =>
      st ← (if 0 <? k then split_set st k bi else Ok st);
      st ← xor_switch st k (buddy_pair_index bi);
      bd_mark_blocks n' st k (bi + 1)
  end.

(** Its outer loop: [n] sizes from [k] on. *)
Fixpoint bd_mark_sizes (n : nat) (st : buddy) (k start stop : Z) : outcome buddy :=
  match n with
  | O => Ok st
  | S n' =>
      let bi := blk_index (buddy_base st) k start in
      let bj := blk_index_next (buddy_base st) k stop in
      st ← bd_mark_blocks (Z.to_nat (bj - bi)) st k bi;
      bd_mark_sizes n' st (k + 1) start stop
  end.

Definition bd_mark (st : buddy) (start stop : Z) : outcome buddy :=
  if negb (start mod LEAF_SIZE =? 0) || negb (stop mod LEAF_SIZE =? 0)
  then Panic "bd_mark"
  else bd_mark_sizes (Z.to_nat (buddy_size_groups_count st)) st 0 start stop.

Definition bd_initfree_pair_right (st : buddy) (k bi : Z) : outcome (Z * buddy) :=
  s ← xor_is_set st k (buddy_pair_index bi);
  if (s : bool)
  then
    st ← free_push st k (addr (buddy_base st) k (buddy_of bi));
    Ok (i32 (BLK_SIZE k), st)
  else Ok (0, st).

Definition bd_initfree_pair_left (st : buddy) (k bi : Z) : outcome (Z * buddy) :=
  s ← xor_is_set st k (buddy_pair_index bi);
  if (s : bool)
  then
    st ← free_push st k (addr (buddy_base st) k bi);
    Ok (i32 (BLK_SIZE k), st)
  else Ok (0, st).

(** [n] sizes from [k] on, with the bytes freed so far. *)
Fixpoint bd_initfree_loop (n : nat) (st : buddy) (k bd_left bd_right free : Z)
    : outcome (Z * buddy) :=
  match n with
  | O => Ok (free, st)
  | S n' =>
      let left := blk_index_next (buddy_base st) k bd_left in
      let right := blk_index (buddy_base st) k bd_right in
      '(f, st) ← bd_initfree_pair_left st k left;
      let free := i32 (free + f) in
      if right <=? left then bd_initfree_loop n' st (k + 1) bd_left bd_right free
      else
        '(f, st) ← bd_initfree_pair_right st k right;
        bd_initfree_loop n' st (k + 1) bd_left bd_right (i32 (free + f))
  end.

Definition bd_initfree (st : buddy) (bd_left bd_right : Z) : outcome (Z * buddy) :=
  bd_initfree_loop (Z.to_nat (MAXSIZE st)) st 0 bd_left bd_right 0.

Definition bd_mark_data_structures (st : buddy) (p : Z) : outcome (Z * buddy) :=
  let meta := i32 (p - buddy_base st) in
  st ← bd_mark st (buddy_base st) p;
  Ok (meta, st).

Definition bd_mark_unavailable (st : buddy) (end_ left : Z) : outcome (Z * buddy) :=
  let unavailable := i32 (BLK_SIZE (MAXSIZE st) - (end_ - buddy_base st)) in
  let unavailable :=
    if 0 <? unavailable then i32 (ROUNDUP unavailable LEAF_SIZE) else unavailable in
  let bd_end := buddy_base st + BLK_SIZE (MAXSIZE st) - unavailable in
  st ← bd_mark st bd_end (buddy_base st + BLK_SIZE (MAXSIZE st));
  Ok (unavailable, st).

(** The sizes in bytes of the two bit arrays of size [k]. *)
Definition xor_bytes (maxsize k : Z) : Z :=
  let sz := ROUNDUP (NBLK maxsize k) 8 / 8 in
  if 0 <? sz / 2 then sz / 2 else 1.

Definition split_bytes (maxsize k : Z) : Z := ROUNDUP (NBLK maxsize k) 8 / 8.

(** The first layout loop: free-list heads and [pair_alloc_xor] arrays of the
    [n] sizes from [k] on, placed from [p] on. *)
Fixpoint init_xor (n : nat) (base maxsize k p : Z) (m : nodes)
    : list bits * Z * nodes :=
  match n with
  | O => ([], p, m)
  | S n' =>
      let m := lst_init m (freelist base k) in
      let sz := xor_bytes maxsize k in
      let '(l, p, m) := init_xor n' base maxsize (k + 1) (p + sz) m in
      (replicate (Z.to_nat sz) 0 :: l, p, m)
  end.

(** The second layout loop: the [split] arrays. *)
Fixpoint init_split (n : nat) (maxsize k p : Z) : list bits * Z :=
  match n with
  | O => ([], p)
  | S n' =>
      let sz := split_bytes maxsize k in
      let '(l, p) := init_split n' maxsize (k + 1) (p + sz) in
      (replicate (Z.to_nat sz) 0 :: l, p)
  end.

(** The size-0 group has no split array: its pointer stays null, so that an
    access through it is a fault. *)
Definition init_groups (xs ss : list bits) : list buddy_size_group_info :=
  zip_with mk_group xs ([] :: ss).

Definition buddy_init (base end_ : Z) : outcome buddy :=
  let p := ROUNDUP base LEAF_SIZE in
  let bbase := p in
  l ← log2 (u64 (Z.quot (end_ - p) LEAF_SIZE));
  let count := l + 1 in
  let count := if BLK_SIZE (count - 1) <? end_ - p then count + 1 else count in
  let maxsize := count - 1 in
  let p := p + sizeof_group * count in
  let '(xs, p, m) := init_xor (Z.to_nat count) bbase maxsize 0 p ∅ in
  let '(ss, p) := init_split (Z.to_nat maxsize) maxsize 1 p in
  let p := ROUNDUP p LEAF_SIZE in
  let st := mk_buddy bbase (init_groups xs ss) m in
  '(meta, st) ← bd_mark_data_structures st p;
  '(unavailable, st) ← bd_mark_unavailable st end_ p;
  let bd_end := bbase + BLK_SIZE maxsize - unavailable in
  '(free, st) ← bd_initfree st p bd_end;
  if negb (free =? BLK_SIZE maxsize - meta - unavailable)
  then Panic "bd_init: free mem"
  else Ok st.

(** ** Printing *)

(** What [buddy_print] shows of each size: the free list, the ranges of
    [pair_alloc_xor] and (for [k > 0]) the ranges of [split]. *)
Fixpoint buddy_print_loop (n fuel : nat) (st : buddy) (k : Z)
    : outcome (list (list Z * list (Z * Z) * list (Z * Z))) :=
  match n with
  | O => Ok []
  | S n' =>
      fl ← lst_print fuel (mem st) (freelist (buddy_base st) k);
      g ← arr_get (buddy_size_groups st) k;
      xr ← bits_print (pair_alloc_xor g) (Z.quot (NBLK (MAXSIZE st) k) 2);
      sr ← (if 0 <? k then bits_print (split g) (NBLK (MAXSIZE st) k) else Ok []);
      rest ← buddy_print_loop n' fuel st (k + 1);
      Ok ((fl, xr, sr) :: rest)
  end.

Definition buddy_print (fuel : nat) (st : buddy) :=
  buddy_print_loop (Z.to_nat (buddy_size_groups_count st)) fuel st 0.
