(* ===== verification/BuddyInv.v ===== *)
(** * The invariant of the buddy allocator.

    Blocks are pairs [(k, i)]: the [i]-th block of size [16 * 2^k]. The state
    of the allocator is described by three sets of blocks: the free ones [F],
    the ones handed out [A], and the ones reserved at initialisation [R]. *)

From S2P Require Import Prelude.
From S2P Require Import Bits.
From S2P Require Import LinkedList.
From S2P Require Import Buddy.

Abbreviation block := (Z * Z)%type.

(** [inside b c]: block [b] lies in block [c]. *)
Definition inside (b c : block) : Prop :=
  b.1 ≤ c.1 ∧ b.2 / 2 ^ (c.1 - b.1) = c.2.

Definition strictly_inside (b c : block) : Prop := b.1 < c.1 ∧ inside b c.

Definition apart (b c : block) : Prop := ¬ inside b c ∧ ¬ inside c b.

Definition valid (max : Z) (b : block) : Prop :=
  0 ≤ b.1 ≤ max ∧ 0 ≤ b.2 < 2 ^ (max - b.1).

(** The address of a block and the number of bytes it has. *)
Definition bsize (b : block) : Z := 2 ^ b.1 * 16.
Definition baddr (base : Z) (b : block) : Z := base + b.2 * bsize b.

(** ** Geometry of blocks *)

Lemma inside_refl b : 0 ≤ b.1 → inside b b.
Proof. intros. split; [lia|]. by rewrite Z.sub_diag, Z.div_1_r. Qed.

Lemma inside_trans b c d : inside b c → inside c d → inside b d.
Proof.
  intros [H1 H2] [H3 H4]. split; [lia|].
  rewrite <- H4, <- H2, div_pow2_add by lia. do 2 f_equal. lia.
Qed.

Lemma inside_antisym b c : inside b c → inside c b → b = c.
Proof.
  destruct b as [k i], c as [k' i']. unfold inside; simpl. intros [H1 H2] [H3 _].
  assert (k' = k) as -> by lia. by rewrite Z.sub_diag, Z.div_1_r in H2; subst.
Qed.

(** Two blocks around a common block are nested. *)
Lemma inside_linear b c d : inside b c → inside b d → inside c d ∨ inside d c.
Proof.
  intros [H1 H2] [H3 H4]. destruct (decide (c.1 ≤ d.1)).
  - left. split; [done|]. rewrite <- H4, <- H2, div_pow2_add by lia.
    do 2 f_equal. lia.
  - right. split; [lia|]. rewrite <- H4, <- H2, div_pow2_add by lia.
    do 2 f_equal. lia.
Qed.

Lemma inside_valid max b c :
  0 ≤ b.1 → inside b c → 0 ≤ b.2 → c.1 ≤ max → b.2 < 2 ^ (max - b.1) →
  valid max c.
Proof.
  intros H0 [H1 H2] H3 H4 H5. split; [lia|]. rewrite <- H2.
  pose proof (pow2_pos (c.1 - b.1)). split; [apply Z.div_pos; lia|].
  apply Z.div_lt_upper_bound; [lia|]. rewrite <- Z.pow_add_r by lia.
  by replace (c.1 - b.1 + (max - c.1)) with (max - b.1) by lia.
Qed.

Lemma apart_sym b c : apart b c → apart c b.
Proof. unfold apart. tauto. Qed.

Lemma apart_inside b c d : 0 ≤ d.1 → apart b c → inside d c → apart b d.
Proof.
  intros H0 [H1 H2] Hd. split; intros H.
  - apply H1. by eapply inside_trans.
  - destruct (inside_linear d b c) as [?|?]; done.
Qed.

(** The children of a block, and its sibling. *)
Lemma inside_child_l k i : inside (k - 1, 2 * i) (k, i).
Proof.
  split; simpl; [lia|]. replace (k - (k - 1)) with 1 by lia.
  rewrite Z.pow_1_r, Z.mul_comm, Z.div_mul; lia.
Qed.

Lemma inside_child_r k i : inside (k - 1, 2 * i + 1) (k, i).
Proof.
  split; simpl; [lia|]. replace (k - (k - 1)) with 1 by lia.
  rewrite Z.pow_1_r. symmetry. apply (Z.div_unique_pos _ _ _ 1); lia.
Qed.

Lemma inside_parent k i : inside (k, i) (k + 1, i / 2).
Proof.
  split; simpl; [lia|]. replace (k + 1 - k) with 1 by lia. by rewrite Z.pow_1_r.
Qed.

Lemma strictly_inside_parent b k i :
  strictly_inside b (k + 1, i / 2) → 0 ≤ i →
  inside b (k, 2 * (i / 2)) ∨ inside b (k, 2 * (i / 2) + 1).
Proof.
  intros [H1 [H2 H3]] Hi. destruct b as [kb ib]. unfold inside in *; simpl in *.
  assert (E : ib / 2 ^ (k - kb) / 2 ^ 1 = i / 2).
  { rewrite div_pow2_add by lia. rewrite <- H3. do 2 f_equal. lia. }
  rewrite Z.pow_1_r in E. set (j := ib / 2 ^ (k - kb)) in *.
  pose proof (Z.div_mod j 2 ltac:(lia)).
  pose proof (Z.mod_pos_bound j 2 ltac:(lia)).
  destruct (decide (j mod 2 = 0)); [left|right]; split; lia.
Qed.

(** Every block strictly inside [(k, i)] lies in one of its two halves. *)
Lemma strictly_inside_child b k i :
  strictly_inside b (k, i) →
  inside b (k - 1, 2 * i) ∨ inside b (k - 1, 2 * i + 1).
Proof.
  intros [H1 [H2 H3]]. destruct b as [kb ib]. unfold inside in *; simpl in *.
  assert (E : ib / 2 ^ (k - 1 - kb) / 2 ^ 1 = i).
  { rewrite div_pow2_add by lia. rewrite <- H3. do 2 f_equal. lia. }
  rewrite Z.pow_1_r in E. set (j := ib / 2 ^ (k - 1 - kb)) in *.
  pose proof (Z.div_mod j 2 ltac:(lia)).
  pose proof (Z.mod_pos_bound j 2 ltac:(lia)).
  destruct (decide (j mod 2 = 0)); [left|right]; split; lia.
Qed.

(** ** Index arithmetic of the code, on blocks of a heap of at most [2^30] bytes *)

Lemma BLK_SIZE_eq k : 0 ≤ k → BLK_SIZE k = 2 ^ k * 16.
Proof. intros. unfold BLK_SIZE, LEAF_SIZE. by rewrite Z.shiftl_1_l. Qed.

Lemma valid_offset max b :
  valid max b → 0 ≤ b.2 * bsize b ∧ b.2 * bsize b + bsize b ≤ 2 ^ max * 16.
Proof.
  intros [H1 H2]. unfold bsize. pose proof (pow2_pos b.1 ltac:(lia)).
  rewrite (pow2_split max b.1) by lia. nia.
Qed.

Lemma blk_index_up max base k k' i :
  valid max (k, i) → max ≤ 26 → k ≤ k' ≤ max →
  blk_index base k' (baddr base (k, i)) = i / 2 ^ (k' - k).
Proof.
  intros Hv Hm Hk. pose proof (valid_offset _ _ Hv) as [H1 H2].
  destruct Hv as [Hv1 Hv2]. unfold bsize in *; simpl in *.
  pose proof (pow2_pos k ltac:(lia)). pose proof (pow2_pos (k' - k) ltac:(lia)).
  assert (2 ^ max ≤ 2 ^ 26) by (apply Z.pow_le_mono_r; lia).
  unfold blk_index, baddr, bsize; simpl.
  replace (base + i * (2 ^ k * 16) - base) with (i * (2 ^ k * 16)) by lia.
  rewrite i32_small by lia. rewrite BLK_SIZE_eq by lia.
  rewrite quot_nonneg by lia.
  rewrite (pow2_split k' k) by lia.
  replace (2 ^ (k' - k) * 2 ^ k * 16) with (2 ^ (k' - k) * (2 ^ k * 16)) by lia.
  rewrite Z.div_mul_cancel_r; lia.
Qed.

Lemma blk_index_same max base k i :
  valid max (k, i) → max ≤ 26 → blk_index base k (baddr base (k, i)) = i.
Proof.
  intros Hv ?. rewrite (blk_index_up max) by (destruct Hv; simpl in *; lia || done).
  by rewrite Z.sub_diag, Z.div_1_r.
Qed.

Lemma addr_baddr max base k i :
  valid max (k, i) → max ≤ 26 → addr base k i = baddr base (k, i).
Proof.
  intros Hv Hm. pose proof (valid_offset _ _ Hv) as [H1 H2].
  assert (2 ^ max ≤ 2 ^ 26) by (apply Z.pow_le_mono_r; lia).
  destruct Hv as [Hv1 Hv2]. unfold addr, baddr, bsize in *; simpl in *.
  rewrite BLK_SIZE_eq by lia. pose proof (pow2_pos k ltac:(lia)).
  rewrite i32_small; lia.
Qed.

Lemma buddy_pair_index_eq i : 0 ≤ i → buddy_pair_index i = i / 2.
Proof.
  intros. unfold buddy_pair_index. rewrite rem_nonneg by lia.
  pose proof (Z.div_mod i 2 ltac:(lia)). pose proof (Z.mod_pos_bound i 2 ltac:(lia)).
  destruct (Z.eqb_spec (i mod 2) 1); rewrite quot_nonneg by lia; [|done].
  symmetry. apply (Z.div_unique_pos _ _ _ 0); lia.
Qed.

(** [(k, i)] and [(k, buddy_of i)] are the two halves of [(k + 1, i / 2)]. *)
Lemma buddy_of_cases i :
  0 ≤ i →
  (i = 2 * (i / 2) ∧ buddy_of i = 2 * (i / 2) + 1) ∨
  (i = 2 * (i / 2) + 1 ∧ buddy_of i = 2 * (i / 2)).
Proof.
  intros. unfold buddy_of. rewrite rem_nonneg by lia.
  pose proof (Z.div_mod i 2 ltac:(lia)). pose proof (Z.mod_pos_bound i 2 ltac:(lia)).
  zcase; lia.
Qed.

Lemma buddy_of_even i : 0 ≤ i → (Z.rem (buddy_of i) 2 =? 0) = negb (i mod 2 =? 0).
Proof.
  intros Hi. pose proof (Z.div_mod i 2 ltac:(lia)).
  destruct (buddy_of_cases i Hi) as [[E ->]|[E ->]];
    rewrite rem_nonneg by lia.
  - replace (2 * (i / 2) + 1) with (1 + i / 2 * 2) by lia.
    rewrite Z.mod_add by lia. replace (i mod 2) with 0 by lia. done.
  - rewrite Z.mul_comm, Z.mod_mul by lia. replace (i mod 2) with 1 by lia. done.
Qed.

(** ** The bit arrays as functions of size and index *)

Definition xbit (st : buddy) (k j : Z) : bool :=
  match buddy_size_groups st !! Z.to_nat k with
  | Some g => bit (pair_alloc_xor g) j
  | None => false
  end.

Definition sbit (st : buddy) (k i : Z) : bool :=
  match buddy_size_groups st !! Z.to_nat k with
  | Some g => bit (split g) i
  | None => false
  end.

(** Every size has bit arrays that are long enough. *)
Definition wf_groups (st : buddy) : Prop :=
  0 ≤ MAXSIZE st ∧
  ∀ k, 0 ≤ k ≤ MAXSIZE st →
    ∃ g, buddy_size_groups st !! Z.to_nat k = Some g ∧
      2 ^ (MAXSIZE st - k) ≤ 2 * nbits (pair_alloc_xor g) ∧
      (1 ≤ k → 2 ^ (MAXSIZE st - k) ≤ nbits (split g)).

(** [st'] has the bits given by [X] and [S] and is otherwise [st]. *)
Record rebits (st st' : buddy) (X S : Z → Z → bool) : Prop := {
  rb_base : buddy_base st' = buddy_base st;
  rb_mem : mem st' = mem st;
  rb_max : MAXSIZE st' = MAXSIZE st;
  rb_wf : wf_groups st';
  rb_x : ∀ k j, 0 ≤ k → 0 ≤ j → xbit st' k j = X k j;
  rb_s : ∀ k i, 0 ≤ k → 0 ≤ i → sbit st' k i = S k i;
}.

(** Pointwise update of a table of bits. *)
Definition upd2 (f : Z → Z → bool) (k j : Z) (v : bool) : Z → Z → bool :=
  λ k' j', if (k =? k') && (j =? j') then v else f k' j'.

Lemma upd2_eq f k j v : upd2 f k j v k j = v.
Proof. unfold upd2. by rewrite !Z.eqb_refl. Qed.

Lemma upd2_ne f k j v k' j' : (k, j) ≠ (k', j') → upd2 f k j v k' j' = f k' j'.
Proof. intros. unfold upd2. repeat zcase; subst; simpl; congruence. Qed.

Lemma set_group_ok st k g g' :
  wf_groups st → 0 ≤ k ≤ MAXSIZE st →
  buddy_size_groups st !! Z.to_nat k = Some g →
  zlen (pair_alloc_xor g') = zlen (pair_alloc_xor g) →
  zlen (split g') = zlen (split g) →
  ∃ st', set_group st k g' = Ok st' ∧
    rebits st st'
      (λ k' j, if k =? k' then bit (pair_alloc_xor g') j else xbit st k' j)
      (λ k' i, if k =? k' then bit (split g') i else sbit st k' i).
Proof.
  intros [Hm Hwf] Hk Hg Hx Hs. unfold set_group.
  assert (Hlen : 0 ≤ k < zlen (buddy_size_groups st)).
  { unfold MAXSIZE, buddy_size_groups_count in Hk. lia. }
  rewrite arr_set_in_range by done. simpl. eexists. split; [done|].
  assert (Hmax : MAXSIZE (mk_buddy (buddy_base st)
    (<[Z.to_nat k:=g']> (buddy_size_groups st)) (mem st)) = MAXSIZE st).
  { unfold MAXSIZE, buddy_size_groups_count; simpl. by rewrite zlen_insert. }
  assert (Hnk : (Z.to_nat k < length (buddy_size_groups st))%nat)
    by (unfold zlen in Hlen; lia).
  split; try done.
  - split; rewrite Hmax; [done|]. intros k' Hk'. simpl.
    destruct (decide (k = k')) as [<-|Hne].
    + rewrite list_lookup_insert_eq by done. exists g'. split; [done|].
      destruct (Hwf k Hk) as (g0 & Hg0 & Hb). rewrite Hg in Hg0.
      injection Hg0 as <-. unfold nbits in *. by rewrite Hx, Hs.
    + rewrite list_lookup_insert_ne by lia. by apply Hwf.
  - intros k' j Hk' Hj. unfold xbit; simpl. zcase.
    + subst. by rewrite list_lookup_insert_eq.
    + by rewrite list_lookup_insert_ne by lia.
  - intros k' j Hk' Hj. unfold sbit; simpl. zcase.
    + subst. by rewrite list_lookup_insert_eq.
    + by rewrite list_lookup_insert_ne by lia.
Qed.

Lemma group_get st k :
  wf_groups st → 0 ≤ k ≤ MAXSIZE st →
  ∃ g, buddy_size_groups st !! Z.to_nat k = Some g ∧
    arr_get (buddy_size_groups st) k = Ok g ∧
    2 ^ (MAXSIZE st - k) ≤ 2 * nbits (pair_alloc_xor g) ∧
    (1 ≤ k → 2 ^ (MAXSIZE st - k) ≤ nbits (split g)).
Proof.
  intros [_ Hwf] Hk. destruct (Hwf k Hk) as (g & Hg & H).
  exists g. split; [done|]. split; [|done]. apply arr_get_lookup; [lia|done].
Qed.

Lemma xor_switch_ok st k j :
  wf_groups st → 0 ≤ k ≤ MAXSIZE st → 0 ≤ j → 2 * j < 2 ^ (MAXSIZE st - k) →
  ∃ st', xor_switch st k j = Ok st' ∧
    rebits st st' (upd2 (xbit st) k j (negb (xbit st k j))) (sbit st).
Proof.
  intros Hwf Hk Hj Hj2. destruct (group_get st k Hwf Hk) as (g & Hg & Hget & Hb & _).
  unfold xor_switch. rewrite Hget. simpl.
  destruct (bits_switch_ok (pair_alloc_xor g) j) as (b' & -> & Hlen & Hupd); [lia|].
  simpl. destruct (set_group_ok st k g (mk_group b' (split g)))
    as (st' & -> & [? ? ? ? Hx Hs]); try done.
  exists st'. split; [done|]. split; try done.
  - intros k' j' ? ?. rewrite Hx by done. simpl. unfold upd2. zcase; [|done].
    subst k'. simpl. rewrite Hupd by done. unfold xbit. by rewrite Hg.
  - intros k' i' ? ?. rewrite Hs by done. simpl. zcase; [|done].
    subst k'. unfold sbit. by rewrite Hg.
Qed.

Lemma split_set_ok st k i :
  wf_groups st → 1 ≤ k ≤ MAXSIZE st → 0 ≤ i < 2 ^ (MAXSIZE st - k) →
  ∃ st', split_set st k i = Ok st' ∧
    rebits st st' (xbit st) (upd2 (sbit st) k i true).
Proof.
  intros Hwf Hk Hi.
  destruct (group_get st k Hwf ltac:(lia)) as (g & Hg & Hget & _ & Hb).
  unfold split_set. rewrite Hget. simpl. specialize (Hb ltac:(lia)).
  destruct (bits_set_ok (split g) i) as (b' & -> & Hlen & Hupd); [lia|].
  simpl. destruct (set_group_ok st k g (mk_group (pair_alloc_xor g) b'))
    as (st' & -> & [? ? ? ? Hx Hs]); try done; [lia|].
  exists st'. split; [done|]. split; try done.
  - intros k' j' ? ?. rewrite Hx by done. simpl. zcase; [|done].
    subst k'. unfold xbit. by rewrite Hg.
  - intros k' i' ? ?. rewrite Hs by done. simpl. unfold upd2. zcase; [|done].
    subst k'. simpl. rewrite Hupd by done. unfold sbit. by rewrite Hg.
Qed.

Lemma split_clear_ok st k i :
  wf_groups st → 1 ≤ k ≤ MAXSIZE st → 0 ≤ i < 2 ^ (MAXSIZE st - k) →
  ∃ st', split_clear st k i = Ok st' ∧
    rebits st st' (xbit st) (upd2 (sbit st) k i false).
Proof.
  intros Hwf Hk Hi.
  destruct (group_get st k Hwf ltac:(lia)) as (g & Hg & Hget & _ & Hb).
  unfold split_clear. rewrite Hget. simpl. specialize (Hb ltac:(lia)).
  destruct (bits_clear_ok (split g) i) as (b' & -> & Hlen & Hupd); [lia|].
  simpl. destruct (set_group_ok st k g (mk_group (pair_alloc_xor g) b'))
    as (st' & -> & [? ? ? ? Hx Hs]); try done; [lia|].
  exists st'. split; [done|]. split; try done.
  - intros k' j' ? ?. rewrite Hx by done. simpl. zcase; [|done].
    subst k'. unfold xbit. by rewrite Hg.
  - intros k' i' ? ?. rewrite Hs by done. simpl. unfold upd2. zcase; [|done].
    subst k'. simpl. rewrite Hupd by done. unfold sbit. by rewrite Hg.
Qed.

Lemma xor_is_set_ok st k j :
  wf_groups st → 0 ≤ k ≤ MAXSIZE st → 0 ≤ j → 2 * j < 2 ^ (MAXSIZE st - k) →
  xor_is_set st k j = Ok (xbit st k j).
Proof.
  intros Hwf Hk Hj Hj2. destruct (group_get st k Hwf Hk) as (g & Hg & Hget & Hb & _).
  unfold xor_is_set, xbit. rewrite Hget, Hg. simpl. apply bits_is_set_ok. lia.
Qed.

Lemma split_is_set_ok st k i :
  wf_groups st → 1 ≤ k ≤ MAXSIZE st → 0 ≤ i < 2 ^ (MAXSIZE st - k) →
  split_is_set st k i = Ok (sbit st k i).
Proof.
  intros Hwf Hk Hi.
  destruct (group_get st k Hwf ltac:(lia)) as (g & Hg & Hget & _ & Hb).
  unfold split_is_set, sbit. rewrite Hget, Hg. simpl. apply bits_is_set_ok.
  specialize (Hb ltac:(lia)). lia.
Qed.

(** ** Memory regions *)

Definition in_region (base : Z) (b : block) (a : Z) : Prop :=
  baddr base b ≤ a < baddr base b + bsize b.

Lemma bsize_pos b : 0 ≤ b.1 → 0 < bsize b.
Proof. intros. unfold bsize. pose proof (pow2_pos b.1). lia. Qed.

(** An address of the region of [b] is in the region of every block around it. *)
Lemma inside_region base b c a :
  0 ≤ b.1 → inside b c → in_region base b a → in_region base c a.
Proof.
  intros H0 [H1 H2] [Ha1 Ha2]. unfold in_region, baddr, bsize in *.
  rewrite (pow2_split c.1 b.1) by lia.
  pose proof (pow2_pos b.1 H0). pose proof (pow2_pos (c.1 - b.1) ltac:(lia)).
  pose proof (Z.div_mod b.2 (2 ^ (c.1 - b.1)) ltac:(lia)) as Hd.
  pose proof (Z.mod_pos_bound b.2 (2 ^ (c.1 - b.1)) ltac:(lia)) as Hm.
  rewrite H2 in Hd. nia.
Qed.

Lemma apart_regions base b c a :
  0 ≤ b.1 → 0 ≤ c.1 → apart b c →
  in_region base b a → in_region base c a → False.
Proof.
  assert (Hle : ∀ b c, 0 ≤ b.1 → b.1 ≤ c.1 → ¬ inside b c →
            in_region base b a → in_region base c a → False).
  { clear. intros b c H0 Hle Hn Hb Hc.
    assert (Hb' : in_region base (c.1, b.2 / 2 ^ (c.1 - b.1)) a).
    { eapply inside_region; [done| |done]. by split. }
    apply Hn. split; [done|]. unfold in_region, baddr, bsize in *; simpl in *.
    pose proof (pow2_pos c.1 ltac:(lia)). nia. }
  intros H0 H1 [Hn1 Hn2] Hb Hc. destruct (decide (b.1 ≤ c.1)).
  - by apply (Hle b c).
  - apply (Hle c b); [done|lia|done..].
Qed.

Lemma baddr_in_region base b : 0 ≤ b.1 → in_region base b (baddr base b).
Proof. intros. unfold in_region. pose proof (bsize_pos b). lia. Qed.

(** ** Tilings

    The blocks of the heap never overlap and leave no gap. *)
Definition tiling (max : Z) (U : gset block) : Prop :=
  (∀ b, b ∈ U → valid max b) ∧
  (∀ b c, b ∈ U → c ∈ U → b ≠ c → apart b c) ∧
  (∀ i, 0 ≤ i < 2 ^ max → ∃ b, b ∈ U ∧ inside (0, i) b).

Lemma children_apart k i : apart (k, 2 * i) (k, 2 * i + 1).
Proof.
  unfold apart, inside; simpl. rewrite Z.sub_diag, !Z.div_1_r. lia.
Qed.

Lemma valid_children max k i :
  1 ≤ k → valid max (k, i) → valid max (k - 1, 2 * i) ∧ valid max (k - 1, 2 * i + 1).
Proof.
  unfold valid; simpl. intros Hk [H1 H2].
  replace (max - (k - 1)) with (max - k + 1) by lia. rewrite pow2_succ by lia. lia.
Qed.

Lemma valid_parent max k i : k < max → valid max (k, i) → valid max (k + 1, i / 2).
Proof.
  intros Hk [H1 H2]; simpl in *.
  apply (inside_valid max (k, i)); simpl; try lia. apply inside_parent.
Qed.

Lemma tiling_split max U k i :
  1 ≤ k → tiling max U → (k, i) ∈ U →
  tiling max ({[(k - 1, 2 * i)]} ∪ {[(k - 1, 2 * i + 1)]} ∪ U ∖ {[(k, i)]}).
Proof.
  intros Hk (Hv & Ha & Hc) Hin.
  destruct (valid_children max k i Hk (Hv _ Hin)) as [Hvl Hvr].
  assert (Hout : ∀ c, c ∈ U ∖ {[(k, i)]} →
            apart c (k - 1, 2 * i) ∧ apart c (k - 1, 2 * i + 1)).
  { intros c [HcU Hne]%elem_of_difference. rewrite elem_of_singleton in Hne.
    assert (apart c (k, i)) by (by apply Ha).
    split; (eapply apart_inside; [|done|]); simpl; try lia;
      [apply inside_child_l | apply inside_child_r]. }
  split_and!.
  - intros b. rewrite !elem_of_union, !elem_of_singleton, elem_of_difference.
    intros [[->| ->]|[? _]]; auto.
  - intros b c. rewrite !elem_of_union, !elem_of_singleton.
    intros [[->| ->]|Hb] [[->| ->]|Hc'] Hne; try done.
    + apply children_apart.
    + by apply apart_sym, Hout.
    + apply apart_sym, children_apart.
    + by apply apart_sym, Hout.
    + by apply Hout.
    + by apply Hout.
    + apply elem_of_difference in Hb as [? _], Hc' as [? _]. by apply Ha.
  - intros j Hj. destruct (Hc j Hj) as (b & Hb & Hjb).
    destruct (decide (b = (k, i))) as [->|Hne].
    + destruct (strictly_inside_child (0, j) k i) as [?|?].
      { split; simpl; [lia|done]. }
      * exists (k - 1, 2 * i). set_solver.
      * exists (k - 1, 2 * i + 1). set_solver.
    + exists b. set_solver.
Qed.

Lemma tiling_merge max U k j :
  k < max → tiling max U → (k, 2 * j) ∈ U → (k, 2 * j + 1) ∈ U →
  tiling max ({[(k + 1, j)]} ∪ U ∖ {[(k, 2 * j)]} ∖ {[(k, 2 * j + 1)]}).
Proof.
  intros Hk (Hv & Ha & Hc) Hl Hr.
  pose proof (Hv _ Hl) as Hvl. pose proof (valid_parent max k (2 * j) Hk Hvl) as Hvp.
  rewrite (Z.mul_comm 2 j), Z.div_mul in Hvp by lia.
  pose proof (inside_child_l (k + 1) j) as Hil.
  pose proof (inside_child_r (k + 1) j) as Hir.
  replace (k + 1 - 1) with k in * by lia.
  assert (Hout : ∀ c, c ∈ U ∖ {[(k, 2 * j)]} ∖ {[(k, 2 * j + 1)]} →
            apart c (k + 1, j)).
  { intros c [[HcU H1]%elem_of_difference H2]%elem_of_difference.
    rewrite elem_of_singleton in H1, H2.
    pose proof (Ha _ _ HcU Hl H1) as [A1 A2]. pose proof (Ha _ _ HcU Hr H2) as [A3 A4].
    split; intros Hin.
    - destruct (decide (c.1 < k + 1)) as [Hlt|].
      + destruct (strictly_inside_child c (k + 1) j) as [?|?]; [by split| |];
          replace (k + 1 - 1) with k in * by lia; done.
      + destruct Hin as [H3 H4], c as [kc ic]; simpl in *.
        assert (kc = k + 1) as -> by lia.
        rewrite Z.sub_diag, Z.div_1_r in H4. by subst.
    - apply A2. by eapply inside_trans. }
  split_and!.
  - intros b. rewrite elem_of_union, elem_of_singleton.
    intros [->|Hb]; [done|]. set_solver.
  - intros b c. rewrite !elem_of_union, !elem_of_singleton.
    intros [->|Hb] [->|Hc'] Hne; [done|by apply apart_sym, Hout|by apply Hout|].
    apply Ha; set_solver.
  - intros i Hi. destruct (Hc i Hi) as (b & Hb & Hib).
    destruct (decide (b = (k, 2 * j))) as [->|];
      [exists (k + 1, j); split; [set_solver|by eapply inside_trans]|].
    destruct (decide (b = (k, 2 * j + 1))) as [->|];
      [exists (k + 1, j); split; [set_solver|by eapply inside_trans]|].
    exists b. set_solver.
Qed.

(** ** Free lists *)

(** The nodes of the free lists have distinct addresses, none of them a list
    head. *)
Definition sep (base max : Z) (F : gset block) : Prop :=
  (∀ b k, b ∈ F → 0 ≤ k ≤ max → baddr base b ≠ freelist base k) ∧
  (∀ b c, b ∈ F → c ∈ F → baddr base b = baddr base c → b = c).

(** The list of size [k] holds the blocks of size [k] of [F]. *)
Definition list_of (base k : Z) (l : list Z) : list Z :=
  (λ i, baddr base (k, i)) <$> l.

Definition lists (base max : Z) (m : nodes) (F : gset block) : Prop :=
  ∀ k, 0 ≤ k ≤ max →
    ∃ l, dll m (freelist base k) (list_of base k l) ∧ ∀ i, i ∈ l ↔ (k, i) ∈ F.

Lemma freelist_inj base k k' : freelist base k = freelist base k' → k = k'.
Proof. unfold freelist, sizeof_group. lia. Qed.

Lemma elem_of_list_of base k l a :
  a ∈ list_of base k l ↔ ∃ i, a = baddr base (k, i) ∧ i ∈ l.
Proof. apply list_elem_of_fmap. Qed.

Lemma baddr_inj_k base k i j :
  0 ≤ k → baddr base (k, i) = baddr base (k, j) → i = j.
Proof.
  unfold baddr, bsize; simpl. intros. pose proof (pow2_pos k). nia.
Qed.

(** The other lists are untouched when only nodes of list [k] (and possibly a
    new block [b] of that size) are written. *)
Lemma lists_frame base max m m' F k l k' l' :
  sep base max F → 0 ≤ k ≤ max → 0 ≤ k' ≤ max → k ≠ k' →
  (∀ i, i ∈ l → (k, i) ∈ F) → (∀ i, i ∈ l' → (k', i) ∈ F) →
  (∀ a, a ∉ freelist base k :: list_of base k l → m' !! a = m !! a) →
  dll m (freelist base k') (list_of base k' l') →
  dll m' (freelist base k') (list_of base k' l').
Proof.
  intros [Hs1 Hs2] Hk Hk' Hne Hl Hl' Hf. apply dll_frame.
  intros a Ha. apply Hf. intros Ha'.
  apply elem_of_cons in Ha as [->|Ha], Ha' as [Ha'|Ha'].
  - by apply freelist_inj in Ha'.
  - apply elem_of_list_of in Ha' as (i & E & Hi). eapply Hs1; [by apply Hl| |done]. done.
  - subst. apply elem_of_list_of in Ha as (i & E & Hi).
    eapply Hs1; [by apply Hl'| |done]. done.
  - apply elem_of_list_of in Ha as (i & -> & Hi), Ha' as (i' & E & Hi').
    apply Hs2 in E; [|by apply Hl'|by apply Hl]. by injection E.
Qed.

Lemma lists_push base max m F k i :
  sep base max ({[(k, i)]} ∪ F) → 0 ≤ k ≤ max → (k, i) ∉ F →
  lists base max m F →
  ∃ m', lst_push m (freelist base k) (baddr base (k, i)) = Ok m' ∧
    lists base max m' ({[(k, i)]} ∪ F).
Proof.
  intros Hsep Hk Hnew Hls. destruct (Hls k Hk) as (l & Hd & Hl).
  destruct (lst_push_ok m (freelist base k) (baddr base (k, i)) (list_of base k l))
    as (m' & Hpush & Hd' & Hf); [done| |].
  { intros [E|Hin]%elem_of_cons.
    - eapply (proj1 Hsep); [|done|done]. set_solver.
    - apply elem_of_list_of in Hin as (j & E & Hj).
      apply baddr_inj_k in E; [|lia]. subst. by apply Hnew, Hl. }
  exists m'. split; [done|]. intros k' Hk'. destruct (decide (k = k')) as [<-|Hne].
  - exists (i :: l). split; [done|]. intros j. rewrite elem_of_cons, Hl.
    rewrite elem_of_union, elem_of_singleton. naive_solver.
  - destruct (Hls k' Hk') as (l' & Hdl' & Hl'). exists l'. split.
    + eapply (lists_frame base max m m' ({[(k, i)]} ∪ F) k (i :: l));
        [done|done|done|done| | |exact Hf|done].
      * intros j [->|Hj]%elem_of_cons; [set_solver|].
        apply Hl in Hj. set_solver.
      * intros j Hj. apply Hl' in Hj. set_solver.
    + intros j. rewrite Hl'. rewrite elem_of_union, elem_of_singleton. naive_solver.
Qed.

(** Unlinking a free block, wherever it is in its list. *)
Lemma lists_remove base max m F k i :
  sep base max F → 0 ≤ k ≤ max → (k, i) ∈ F → lists base max m F →
  ∃ m', lst_remove m (baddr base (k, i)) = Ok m' ∧
    lists base max m' (F ∖ {[(k, i)]}).
Proof.
  intros Hsep Hk Hin Hls. destruct (Hls k Hk) as (l & Hd & Hl).
  pose proof (proj2 (Hl i) Hin) as Hil.
  apply list_elem_of_split in Hil as (l1 & l2 & ->).
  unfold list_of in Hd. rewrite fmap_app, fmap_cons in Hd.
  destruct (lst_remove_ok _ _ _ _ _ Hd) as (m' & Hrm & Hd' & Hf).
  exists m'. split; [done|].
  assert (Hnd : i ∉ l1 ++ l2).
  { destruct Hd as [_ Hnd]. apply NoDup_cons in Hnd as [_ Hnd].
    rewrite <- Permutation_middle in Hnd. apply NoDup_cons in Hnd as [Hnd _].
    intros Hi. apply Hnd. rewrite <- fmap_app. apply list_elem_of_fmap. by exists i. }
  intros k' Hk'. destruct (decide (k = k')) as [<-|Hne].
  - exists (l1 ++ l2). split; [unfold list_of; by rewrite fmap_app|].
    intros j. rewrite elem_of_difference, elem_of_singleton, <- Hl.
    rewrite !elem_of_app, elem_of_cons. split; [|naive_solver].
    intros Hj. split; [tauto|]. intros [= ->]. apply Hnd. by apply elem_of_app.
  - destruct (Hls k' Hk') as (l' & Hdl' & Hl'). exists l'. split.
    + eapply (lists_frame base max m m' F k (l1 ++ l2));
        [done|done|done|done| | | |done].
      * intros j Hj. apply Hl. set_solver.
      * intros j Hj. by apply Hl'.
      * unfold list_of. by rewrite fmap_app.
    + intros j. rewrite Hl', elem_of_difference, elem_of_singleton. naive_solver.
Qed.

(** Popping the first free block of a size that has one. *)
Lemma lists_pop base max m F k :
  sep base max F → 0 ≤ k ≤ max → lists base max m F → (∃ i, (k, i) ∈ F) →
  ∃ i m', (k, i) ∈ F ∧ lst_pop m (freelist base k) = Ok (baddr base (k, i), m') ∧
    lists base max m' (F ∖ {[(k, i)]}).
Proof.
  intros Hsep Hk Hls [i0 Hi0]. destruct (Hls k Hk) as (l & Hd & Hl).
  destruct l as [|i l]; [apply Hl in Hi0; by apply elem_of_nil in Hi0|].
  assert (Hin : (k, i) ∈ F) by (apply Hl; set_solver +).
  destruct (lst_pop_ok _ _ _ _ Hd) as (m' & Hpop & _).
  destruct (lists_remove base max m F k i) as (m'' & Hrm & Hls'); [done..|].
  exists i, m'. split; [done|]. split; [done|].
  unfold lst_pop in Hpop. destruct (dll_head _ _ _ Hd) as (n & Hn & E).
  rewrite Hn in Hpop. simpl in Hpop, E. rewrite E in Hpop.
  destruct (Z.eqb _ _); [done|]. rewrite Hrm in Hpop. simpl in Hpop.
  by injection Hpop as <-.
Qed.

Lemma lists_empty base max m F k :
  0 ≤ k ≤ max → lists base max m F →
  ∃ e, lst_empty m (freelist base k) = Ok e ∧ (e = true ↔ ∀ i, (k, i) ∉ F).
Proof.
  intros Hk Hls. destruct (Hls k Hk) as (l & Hd & Hl).
  rewrite (lst_empty_ok _ _ _ Hd). eexists. split; [done|].
  rewrite bool_decide_eq_true. split.
  - intros E i Hi. apply Hl in Hi. apply fmap_nil_inv in E. subst.
    by apply elem_of_nil in Hi.
  - intros Hn. destruct l as [|i l]; [done|]. destruct (Hn i). apply Hl.
    set_solver +.
Qed.

(** ** The invariant *)

Definition xor_bits (st : buddy) (F : gset block) : Prop :=
  ∀ k j, 0 ≤ k < MAXSIZE st → 0 ≤ j → 2 * j < 2 ^ (MAXSIZE st - k) →
    xbit st k j = xorb (bool_decide ((k, 2 * j) ∈ F)) (bool_decide ((k, 2 * j + 1) ∈ F)).

Definition split_bits (st : buddy) (U : gset block) : Prop :=
  ∀ k i, 1 ≤ k ≤ MAXSIZE st → 0 ≤ i < 2 ^ (MAXSIZE st - k) →
    sbit st k i = true ↔ ∃ b, b ∈ U ∧ strictly_inside b (k, i).

(** No two halves of a block are both free. *)
Definition coalesced (max : Z) (F : gset block) : Prop :=
  ∀ k j, k < max → (k, 2 * j) ∈ F → (k, 2 * j + 1) ∈ F → False.

Record inv (st : buddy) (F A R : gset block) : Prop := {
  i_wf : wf_groups st;
  i_max : MAXSIZE st ≤ 26;
  i_base : 0 < buddy_base st;
  i_tiling : tiling (MAXSIZE st) (F ∪ A ∪ R);
  i_FA : F ## A;
  i_FR : F ## R;
  i_AR : A ## R;
  i_coalesced : coalesced (MAXSIZE st) F;
  i_xor : xor_bits st F;
  i_split : split_bits st (F ∪ A ∪ R);
  i_lists : lists (buddy_base st) (MAXSIZE st) (mem st) F;
  i_heads : ∀ k, 0 ≤ k ≤ MAXSIZE st →
    ∃ r, r ∈ R ∧ in_region (buddy_base st) r (freelist (buddy_base st) k);
}.

(** Blocks outside the reserved area can be list nodes. *)
Lemma tiling_sep (base max : Z) (U R F : gset block) :
  tiling max U → R ⊆ U → F ⊆ U → F ## R →
  (∀ k, 0 ≤ k ≤ max → ∃ r, r ∈ R ∧ in_region base r (freelist base k)) →
  sep base max F.
Proof.
  intros (Hv & Ha & _) HR HF HFR Hh. split.
  - intros b k Hb Hk E. destruct (Hh k Hk) as (r & Hr & Hreg).
    assert (Hne : b ≠ r) by (intros ->; by apply (HFR r)).
    destruct (Hv b) as [? _]; [set_solver|]. destruct (Hv r) as [? _]; [set_solver|].
    apply (apart_regions base b r (freelist base k)); [lia|lia| | |done].
    + apply Ha; set_solver.
    + rewrite <- E. apply baddr_in_region. lia.
  - intros b c Hb Hc E. destruct (decide (b = c)) as [|Hne]; [done|exfalso].
    destruct (Hv b) as [? _]; [set_solver|]. destruct (Hv c) as [? _]; [set_solver|].
    apply (apart_regions base b c (baddr base b)); [lia|lia| | |].
    + apply Ha; set_solver.
    + apply baddr_in_region. lia.
    + rewrite E. apply baddr_in_region. lia.
Qed.

Lemma inv_sep st F A R :
  inv st F A R → sep (buddy_base st) (MAXSIZE st) (F ∪ A).
Proof.
  intros H. destruct H. eapply (tiling_sep _ _ (F ∪ A ∪ R) R); try done.
  - set_solver.
  - set_solver.
  - set_solver.
Qed.
