(* ===== verification/BuddyProof.v ===== *)
(** * Correctness of the buddy allocator's operations. *)

From S2P Require Import Prelude.
From S2P Require Import Bits.
From S2P Require Import LinkedList.
From S2P Require Import Buddy.
From S2P Require Import BuddyInv.

(** ** Effect of one toggle, one split and one merge on the bit tables *)

(** Toggling the pair bit of [(k, i)] accounts for that block entering or
    leaving the free set. *)
Lemma xor_toggle (st : buddy) (F F' : gset block) (k i : Z) :
  0 ≤ i → xor_bits st F →
  (∀ b, b ≠ (k, i) → b ∈ F' ↔ b ∈ F) → ((k, i) ∈ F' ↔ (k, i) ∉ F) →
  ∀ k' j, 0 ≤ k' < MAXSIZE st → 0 ≤ j → 2 * j < 2 ^ (MAXSIZE st - k') →
    upd2 (xbit st) k (i / 2) (negb (xbit st k (i / 2))) k' j =
    xorb (bool_decide ((k', 2 * j) ∈ F')) (bool_decide ((k', 2 * j + 1) ∈ F')).
Proof.
  intros Hi Hx Hsame Hflip k' j Hk Hj Hj2.
  assert (Hd : ∀ b, b ≠ (k, i) → bool_decide (b ∈ F') = bool_decide (b ∈ F)).
  { intros b Hb. apply bool_decide_ext. by apply Hsame. }
  assert (Hn : bool_decide ((k, i) ∈ F') = negb (bool_decide ((k, i) ∈ F))).
  { rewrite <- bool_decide_not. by apply bool_decide_ext. }
  unfold upd2. destruct (Z.eqb_spec k k') as [<-|]; simpl.
  2:{ rewrite !Hd by congruence. by apply Hx. }
  destruct (Z.eqb_spec (i / 2) j) as [<-|].
  - rewrite Hx by done. destruct (buddy_of_cases i Hi) as [[E _]|[E _]].
    + rewrite (Hd (k, 2 * (i / 2) + 1)) by (intros [=]; lia).
      rewrite <- E, Hn. by rewrite negb_xorb_l.
    + rewrite (Hd (k, 2 * (i / 2))) by (intros [=]; lia).
      rewrite <- E, Hn. by rewrite negb_xorb_r.
  - pose proof (Z.div_mod i 2 ltac:(lia)). pose proof (Z.mod_pos_bound i 2 ltac:(lia)).
    rewrite !Hd by (intros [=]; lia). by apply Hx.
Qed.

(** Exchanging a block for its two halves changes which blocks have something
    strictly inside them only at the block itself. *)
Lemma strict_halves (W : gset block) (k i : Z) (c : block) :
  c ≠ (k, i) →
  (∃ b, b ∈ {[(k, i)]} ∪ W ∧ strictly_inside b c) ↔
  (∃ b, b ∈ {[(k - 1, 2 * i)]} ∪ {[(k - 1, 2 * i + 1)]} ∪ W ∧ strictly_inside b c).
Proof.
  intros Hne. split.
  - intros (b & Hb & Hs).
    apply elem_of_union in Hb as [Hb|Hb];
      [apply elem_of_singleton in Hb; subst b
      |exists b; split; [set_solver|done]].
    exists (k - 1, 2 * i). split; [set_solver|]. destruct Hs as [H1 H2].
    split; simpl in *; [lia|]. eapply inside_trans; [apply inside_child_l|done].
  - intros (b & Hb & Hs).
    assert (Hchild : inside b (k, i) → b.1 = k - 1 → strictly_inside (k, i) c).
    { intros Hin Hk. destruct Hs as [H1 H2].
      destruct (inside_linear b (k, i) c Hin H2) as [H3|H3].
      - split; [|done]. destruct H3 as [H3 H4], c as [kc ic]; simpl in *.
        destruct (decide (k = kc)) as [->|]; [|lia].
        rewrite Z.sub_diag, Z.div_1_r in H4. by subst.
      - destruct H3 as [H3 H4], c as [kc ic]; simpl in *.
        assert (kc = k) as -> by lia.
        rewrite Z.sub_diag, Z.div_1_r in H4. by subst. }
    apply elem_of_union in Hb as [[E|E]%elem_of_union|Hb];
      [apply elem_of_singleton in E; subst b.. |].
    + exists (k, i). split; [set_solver|]. apply Hchild; [apply inside_child_l|done].
    + exists (k, i). split; [set_solver|]. apply Hchild; [apply inside_child_r|done].
    + exists b. split; [set_solver|done].
Qed.

(** A new state from an old one: the bits [X], [S], the memory [m] and the
    sets are given; the rest is inherited. *)
Lemma inv_step (st st' : buddy) (m : nodes) (X S : Z → Z → bool)
    (F A R F' A' : gset block) :
  inv st F A R → rebits (with_mem st m) st' X S →
  tiling (MAXSIZE st) (F' ∪ A' ∪ R) →
  F' ## A' → F' ## R → A' ## R → coalesced (MAXSIZE st) F' →
  (∀ k j, 0 ≤ k < MAXSIZE st → 0 ≤ j → 2 * j < 2 ^ (MAXSIZE st - k) →
     X k j = xorb (bool_decide ((k, 2 * j) ∈ F')) (bool_decide ((k, 2 * j + 1) ∈ F'))) →
  (∀ k i, 1 ≤ k ≤ MAXSIZE st → 0 ≤ i < 2 ^ (MAXSIZE st - k) →
     S k i = true ↔ ∃ b, b ∈ F' ∪ A' ∪ R ∧ strictly_inside b (k, i)) →
  lists (buddy_base st) (MAXSIZE st) m F' →
  inv st' F' A' R ∧ buddy_base st' = buddy_base st ∧ MAXSIZE st' = MAXSIZE st.
Proof.
  intros Hinv [Hb Hm Hmax Hwf Hx Hs] Ht H1 H2 H3 Hco HX HS Hl.
  change (MAXSIZE (with_mem st m)) with (MAXSIZE st) in Hmax.
  change (buddy_base (with_mem st m)) with (buddy_base st) in Hb.
  simpl in Hm. split; [|done]. destruct Hinv. split; rewrite ?Hmax, ?Hb, ?Hm; try done.
  - intros k j ? ? ?. rewrite Hmax in *. rewrite Hx by lia. by apply HX.
  - intros k i ? ?. rewrite Hmax in *. rewrite Hs by lia. by apply HS.
Qed.

Lemma wf_with_mem st m : wf_groups st → wf_groups (with_mem st m).
Proof. done. Qed.

Lemma pair_range max k i : 0 ≤ k ≤ max → 0 ≤ i < 2 ^ (max - k) →
  0 ≤ i / 2 ∧ 2 * (i / 2) < 2 ^ (max - k).
Proof.
  intros. split; [apply Z.div_pos; lia|].
  pose proof (Z.mul_div_le i 2 ltac:(lia)). lia.
Qed.

(** ** Bookkeeping of the three sets *)

Section sets.
Context (F A R : gset block) (b : block).
Hypothesis (HbA : b ∈ A) (HFA : F ## A) (HFR : F ## R) (HAR : A ## R).

Lemma split_sets l r :
  l ∉ F ∪ A ∪ R → r ∉ F ∪ A ∪ R → l ≠ r →
  {[r]} ∪ F ∪ ({[l]} ∪ A ∖ {[b]}) ∪ R = {[l]} ∪ {[r]} ∪ (F ∪ A ∪ R) ∖ {[b]} ∧
  {[r]} ∪ F ## {[l]} ∪ A ∖ {[b]} ∧ {[r]} ∪ F ## R ∧ {[l]} ∪ A ∖ {[b]} ## R.
Proof using Type*.
  intros Hl Hr Hne. split_and!; [apply set_eq; intros x|..]; set_solver.
Qed.

Lemma merge_sets c p :
  c ∈ F → p ∉ F ∪ A ∪ R →
  F ∖ {[c]} ∪ ({[p]} ∪ A ∖ {[b]}) ∪ R = {[p]} ∪ (F ∪ A ∪ R) ∖ {[b]} ∖ {[c]} ∧
  F ∖ {[c]} ## {[p]} ∪ A ∖ {[b]} ∧ F ∖ {[c]} ## R ∧ {[p]} ∪ A ∖ {[b]} ## R.
Proof using Type*.
  intros Hc Hp. split_and!; [apply set_eq; intros x|..]; set_solver.
Qed.

Lemma release_sets :
  {[b]} ∪ F ∪ A ∖ {[b]} ∪ R = F ∪ A ∪ R ∧
  {[b]} ∪ F ## A ∖ {[b]} ∧ {[b]} ∪ F ## R ∧ A ∖ {[b]} ## R.
Proof using Type*.
  split_and!; [apply set_eq; intros x; destruct (decide (x = b))|..]; set_solver.
Qed.
End sets.

Lemma two_back (U : gset block) (a b : block) :
  a ∈ U → b ∈ U → {[a]} ∪ {[b]} ∪ U ∖ {[a]} ∖ {[b]} = U.
Proof.
  intros Ha Hb. apply set_eq. intros x.
  destruct (decide (x = a)), (decide (x = b)); set_solver.
Qed.

Lemma halves_diff (U : gset block) (k i : Z) :
  0 ≤ i →
  U ∖ {[(k, i)]} ∖ {[(k, buddy_of i)]} =
  U ∖ {[(k, 2 * (i / 2))]} ∖ {[(k, 2 * (i / 2) + 1)]}.
Proof.
  intros Hi. destruct (buddy_of_cases i Hi) as [[E B]|[E B]]; rewrite B;
    remember (i / 2) as j; clear Heqj B; subst i; [reflexivity|].
  apply set_eq. set_solver +.
Qed.

(** ** The four state transitions *)

Section transitions.
Context (st : buddy) (F A R : gset block).
Hypothesis Hinv : inv st F A R.

Local Notation base := (buddy_base st).
Local Notation max := (MAXSIZE st).

Lemma inv_valid b : b ∈ F ∪ A ∪ R → valid max b.
Proof. destruct (i_tiling _ _ _ _ Hinv) as [H _]. apply H. Qed.

Lemma inv_apart b c : b ∈ F ∪ A ∪ R → c ∈ F ∪ A ∪ R → b ≠ c → apart b c.
Proof. destruct (i_tiling _ _ _ _ Hinv) as (_ & H & _). apply H. Qed.

(** A block strictly inside or around a block of the tiling is not in it. *)
Lemma inv_not_nested b c :
  b ∈ F ∪ A ∪ R → b ≠ c → inside b c ∨ inside c b → c ∉ F ∪ A ∪ R.
Proof.
  intros Hb Hne Hin Hc. destruct (inv_apart b c Hb Hc Hne). tauto.
Qed.

Lemma sep_F : sep base max F.
Proof.
  destruct (inv_sep _ _ _ _ Hinv) as [H1 H2]. split.
  - intros b k Hb. apply H1. set_solver.
  - intros b c Hb Hc. apply H2; set_solver.
Qed.

(** Taking a free block of size [k] off its list. *)
Lemma take_ok k :
  0 ≤ k ≤ max → (∃ i, (k, i) ∈ F) →
  ∃ i m st', (k, i) ∈ F ∧
    lst_pop (mem st) (freelist base k) = Ok (baddr base (k, i), m) ∧
    xor_switch (with_mem st m) k
      (buddy_pair_index (blk_index base k (baddr base (k, i)))) = Ok st' ∧
    inv st' (F ∖ {[(k, i)]}) ({[(k, i)]} ∪ A) R ∧
    buddy_base st' = base ∧ MAXSIZE st' = max.
Proof.
  intros Hk Hex. pose proof Hinv as [Hwf Hmax ? Ht HFA HFR HAR Hco Hx Hs Hl Hh].
  destruct (lists_pop base max (mem st) F k sep_F Hk Hl Hex)
    as (i & m & Hin & Hpop & Hl').
  assert (Hv : valid max (k, i)) by (apply inv_valid; set_solver).
  pose proof Hv as [_ Hi]. simpl in Hi.
  destruct (pair_range max k i Hk Hi) as [Hp1 Hp2].
  destruct (xor_switch_ok (with_mem st m) k (i / 2)) as (st' & Hsw & Hrb); [done..|].
  exists i, m, st'. split; [done|]. split; [done|].
  rewrite (blk_index_same max) by done. rewrite buddy_pair_index_eq by lia.
  split; [done|].
  assert (HU : F ∖ {[(k, i)]} ∪ ({[(k, i)]} ∪ A) ∪ R = F ∪ A ∪ R).
  { rewrite assoc_L by apply _. by rewrite difference_union_L, (union_comm_L F),
      (subseteq_union_1_L _ F) by set_solver. }
  eapply inv_step; [done|done|..]; rewrite ?HU; try done.
  - set_solver.
  - set_solver.
  - set_solver.
  - intros k' j Hk' H1 H2. apply (Hco k' j); set_solver.
  - apply (xor_toggle st F); [lia|done|set_solver|set_solver].
Qed.

(** Splitting an allocated block: the right half becomes free. *)
Lemma split_step_ok k i :
  1 ≤ k → (k, i) ∈ A →
  ∃ st1 st2 st3,
    split_set st k (blk_index base k (baddr base (k, i))) = Ok st1 ∧
    xor_switch st1 (k - 1)
      (buddy_pair_index (blk_index base (k - 1) (baddr base (k - 1, 2 * i)))) = Ok st2 ∧
    free_push st2 (k - 1) (baddr base (k - 1, 2 * i + 1)) = Ok st3 ∧
    buddy_base st1 = base ∧ buddy_base st2 = base ∧
    inv st3 ({[(k - 1, 2 * i + 1)]} ∪ F) ({[(k - 1, 2 * i)]} ∪ A ∖ {[(k, i)]}) R ∧
    buddy_base st3 = base ∧ MAXSIZE st3 = max.
Proof.
  intros Hk Hin. pose proof Hinv as [Hwf Hmax ? Ht HFA HFR HAR Hco Hx Hs Hl Hh].
  assert (HinU : (k, i) ∈ F ∪ A ∪ R) by set_solver.
  pose proof (inv_valid _ HinU) as Hv.
  destruct (valid_children max k i Hk Hv) as [Hvl Hvr].
  pose proof Hv as [Hk' Hi]; simpl in Hk', Hi.
  assert (Hl1 : (k - 1, 2 * i) ∉ F ∪ A ∪ R).
  { apply (inv_not_nested (k, i)); [done|intros [=]; lia|].
    right. apply inside_child_l. }
  assert (Hr1 : (k - 1, 2 * i + 1) ∉ F ∪ A ∪ R).
  { apply (inv_not_nested (k, i)); [done|intros [=]; lia|].
    right. apply inside_child_r. }
  rewrite (blk_index_same max) by done.
  rewrite (blk_index_same max) by done. rewrite buddy_pair_index_eq by lia.
  replace (2 * i / 2) with i by (rewrite Z.mul_comm, Z.div_mul; lia).
  destruct (split_set_ok st k i) as (st1 & E1 & Hrb1); [done|lia|done|].
  pose proof Hrb1 as [Hb1 Hm1 Hx1 Hw1 HX1 HS1].
  destruct (xor_switch_ok st1 (k - 1) i) as (st2 & E2 & Hrb2);
    [done|lia|lia| |].
  { rewrite Hx1. destruct Hvl as [_ ?]; simpl in *; lia. }
  pose proof Hrb2 as [Hb2 Hm2 Hx2 Hw2 HX2 HS2].
  destruct (split_sets F A R (k, i) Hin HFA HFR HAR _ _ Hl1 Hr1)
    as (HU & HFA' & HFR' & HAR'); [intros [=]; lia|].
  assert (Ht' : tiling max ({[(k - 1, 2 * i + 1)]} ∪ F ∪
                  ({[(k - 1, 2 * i)]} ∪ A ∖ {[(k, i)]}) ∪ R)).
  { rewrite HU. by apply tiling_split. }
  destruct (lists_push base max (mem st) F (k - 1) (2 * i + 1)) as (m & Epush & Hl');
    [|lia|set_solver +Hr1|done|].
  { eapply (tiling_sep _ _ _ R); [exact Ht'|set_solver +|set_solver +|done|done]. }
  exists st1, st2, (with_mem st2 m).
  split; [done|]. split; [done|]. split.
  { unfold free_push. by rewrite Hm2, Hb2, Hm1, Hb1, Epush. }
  split; [congruence|]. split; [congruence|].
  assert (Hrb : rebits (with_mem st m) (with_mem st2 m) (xbit st2) (sbit st2)).
  { split; try done; simpl; [congruence|].
    change (MAXSIZE st2 = MAXSIZE st). congruence. }
  eapply (inv_step st _ m _ _ F A R); try done.
  - intros k1 j Hk1 H1 H2.
    apply elem_of_union in H1 as [H1%elem_of_singleton|H1],
      H2 as [H2%elem_of_singleton|H2].
    + injection H1 as ? ?. injection H2 as ? ?. lia.
    + injection H1 as ? ?. lia.
    + injection H2 as -> ?. replace j with i in * by lia. set_solver +Hl1 H1.
    + by apply (Hco k1 j).
  - intros k1 j ? ? ?. rewrite HX2 by lia.
    assert (Eu : upd2 (xbit st1) (k - 1) i (negb (xbit st1 (k - 1) i)) k1 j =
      upd2 (xbit st) (k - 1) ((2 * i + 1) / 2)
        (negb (xbit st (k - 1) ((2 * i + 1) / 2))) k1 j).
    { replace ((2 * i + 1) / 2) with i by (apply (Z.div_unique_pos _ _ _ 1); lia).
      unfold upd2. by rewrite !HX1 by lia. }
    rewrite Eu. apply (xor_toggle st F); try done; [lia|set_solver +|set_solver +Hr1].
  - intros k1 i1 ? ?. rewrite HS2, HS1 by lia. rewrite HU.
    destruct (decide ((k, i) = (k1, i1))) as [E|Hne].
    + injection E as <- <-. rewrite upd2_eq. split; [|done]. intros _.
      exists (k - 1, 2 * i). split; [set_solver +|].
      split; [simpl; lia|apply inside_child_l].
    + rewrite upd2_ne by done. rewrite (Hs k1 i1) by done.
      rewrite <- (strict_halves ((F ∪ A ∪ R) ∖ {[(k, i)]}) k i) by done.
      by rewrite <- union_difference_singleton_L.
Qed.

Lemma buddy_valid k i :
  k < max → valid max (k, i) → valid max (k, buddy_of i).
Proof.
  intros Hk [H1 H2]; simpl in *. split; simpl; [done|].
  replace (max - k) with (max - k - 1 + 1) in * by lia.
  rewrite pow2_succ in * by lia.
  destruct (buddy_of_cases i) as [[? ->]|[? ->]]; lia.
Qed.

(** The pair bit of an allocated block tells whether its sibling is free. *)
Lemma pair_bit k i :
  k < max → (k, i) ∈ A → xbit st k (i / 2) = bool_decide ((k, buddy_of i) ∈ F).
Proof.
  intros Hk Hin. pose proof Hinv as [? ? ? ? HFA HFR HAR Hco Hx Hs Hl Hh].
  destruct (inv_valid (k, i)) as [H1 H2]; [set_solver|]. simpl in *.
  destruct (pair_range max k i) as [Hp1 Hp2]; [lia|done|].
  rewrite Hx by lia.
  assert (Hni : bool_decide ((k, i) ∈ F) = false)
    by (apply bool_decide_eq_false; set_solver).
  destruct (buddy_of_cases i ltac:(lia)) as [[E E2]|[E E2]]; rewrite E2, <- E, Hni.
  - by rewrite xorb_false_l.
  - by rewrite xorb_false_r.
Qed.

(** Freeing a block whose sibling is in use. *)
Lemma release_ok k i :
  k < max → (k, i) ∈ A → (k, buddy_of i) ∉ F →
  ∃ st1 st2, xor_switch st k (i / 2) = Ok st1 ∧
    xor_is_set st1 k (i / 2) = Ok true ∧
    free_push st1 k (baddr base (k, i)) = Ok st2 ∧
    inv st2 ({[(k, i)]} ∪ F) (A ∖ {[(k, i)]}) R ∧
    buddy_base st1 = base ∧ buddy_base st2 = base ∧ MAXSIZE st2 = max.
Proof.
  intros Hk Hin Hnb. pose proof Hinv as [Hwf Hmax ? Ht HFA HFR HAR Hco Hx Hs Hl Hh].
  destruct (inv_valid (k, i)) as [H1 H2]; [set_solver|]. simpl in H1, H2.
  destruct (pair_range max k i) as [Hp1 Hp2]; [lia|done|].
  destruct (release_sets F A R (k, i) Hin HFA HFR HAR) as (HU & HFA' & HFR' & HAR').
  assert (HnF : (k, i) ∉ F) by (intros HF; by apply (HFA (k, i))).
  destruct (xor_switch_ok st k (i / 2)) as (st1 & E1 & Hrb1); [done|lia|done..|].
  pose proof Hrb1 as [Hb1 Hm1 Hx1 Hw1 HX1 HS1].
  destruct (lists_push base max (mem st) F k i) as (m & Epush & Hl');
    [|lia|done|done|].
  { destruct (inv_sep _ _ _ _ Hinv) as [S1 S2].
    split; [intros b k' Hb; apply S1 | intros b c Hb Hc; apply S2];
      set_solver +Hin Hb || set_solver +Hin Hc. }
  exists st1, (with_mem st1 m). split; [done|]. split.
  { rewrite xor_is_set_ok by (rewrite ?Hx1; done || lia).
    rewrite HX1 by lia. rewrite upd2_eq, pair_bit by done.
    by rewrite bool_decide_eq_false_2. }
  split; [unfold free_push; by rewrite Hm1, Hb1, Epush|].
  assert (Hrb : rebits (with_mem st m) (with_mem st1 m) (xbit st1) (sbit st1)).
  { split; done. }
  assert (Hres : inv (with_mem st1 m) ({[(k, i)]} ∪ F) (A ∖ {[(k, i)]}) R ∧
    buddy_base (with_mem st1 m) = base ∧ MAXSIZE (with_mem st1 m) = max).
  { eapply (inv_step st _ m _ _ F A R); rewrite ?HU; try done.
    - intros k1 j Hk1 P1 P2.
      destruct (buddy_of_cases i ltac:(lia)) as [[E E2]|[E E2]];
        rewrite E2 in Hnb;
        apply elem_of_union in P1 as [P1%elem_of_singleton|P1],
          P2 as [P2%elem_of_singleton|P2]; try by apply (Hco k1 j).
      + injection P1 as ? ?. injection P2 as ? ?. lia.
      + injection P1 as -> ?. apply Hnb. by replace (i / 2) with j by lia.
      + injection P2 as ? ?. lia.
      + injection P1 as ? ?. injection P2 as ? ?. lia.
      + injection P1 as ? ?. lia.
      + injection P2 as -> ?. apply Hnb. by replace (i / 2) with j by lia.
    - intros k1 j ? ? ?. rewrite HX1 by lia.
      apply (xor_toggle st F); try done; [lia|set_solver +|set_solver +HnF].
    - intros k1 i1 ? ?. rewrite HS1 by lia. by apply Hs. }
  tauto.
Qed.

(** Freeing the block of the largest size. *)
Lemma release_max_ok i :
  (max, i) ∈ A →
  ∃ st2, free_push st max (baddr base (max, i)) = Ok st2 ∧
    inv st2 ({[(max, i)]} ∪ F) (A ∖ {[(max, i)]}) R ∧
    buddy_base st2 = base ∧ MAXSIZE st2 = max.
Proof.
  intros Hin. pose proof Hinv as [Hwf Hmax ? Ht HFA HFR HAR Hco Hx Hs Hl Hh].
  destruct (inv_valid (max, i)) as [H1 H2]; [set_solver|]. simpl in H1, H2.
  destruct (release_sets F A R (max, i) Hin HFA HFR HAR) as (HU & HFA' & HFR' & HAR').
  assert (HnF : (max, i) ∉ F) by (intros HF; by apply (HFA (max, i))).
  destruct (lists_push base max (mem st) F max i) as (m & Epush & Hl');
    [|lia|done|done|].
  { destruct (inv_sep _ _ _ _ Hinv) as [S1 S2].
    split; [intros b k' Hb; apply S1 | intros b c Hb Hc; apply S2];
      set_solver +Hin Hb || set_solver +Hin Hc. }
  exists (with_mem st m). split; [unfold free_push; by rewrite Epush|].
  eapply (inv_step st _ m (xbit st) (sbit st) F A R); rewrite ?HU; try done.
  - intros k1 j Hk1 P1 P2.
    apply elem_of_union in P1 as [P1%elem_of_singleton|P1]; [injection P1; lia|].
    apply elem_of_union in P2 as [P2%elem_of_singleton|P2]; [injection P2; lia|].
    by apply (Hco k1 j).
  - intros k1 j ? ? ?. rewrite Hx by done.
    f_equal; apply bool_decide_ext; rewrite elem_of_union, elem_of_singleton;
      (split; [tauto|]; intros [[=]|?]; [lia|done]).
Qed.

(** Freeing a block whose sibling is free: the two become one block, which
    is still to be freed. *)
Lemma merge_ok k i :
  k < max → (k, i) ∈ A → (k, buddy_of i) ∈ F →
  ∃ st1 m st2, xor_switch st k (i / 2) = Ok st1 ∧
    xor_is_set st1 k (i / 2) = Ok false ∧
    lst_remove (mem st1) (baddr base (k, buddy_of i)) = Ok m ∧
    split_clear (with_mem st1 m) (k + 1) (i / 2) = Ok st2 ∧
    inv st2 (F ∖ {[(k, buddy_of i)]}) ({[(k + 1, i / 2)]} ∪ A ∖ {[(k, i)]}) R ∧
    buddy_base st1 = base ∧ buddy_base st2 = base ∧ MAXSIZE st2 = max.
Proof.
  intros Hk Hin Hnb. pose proof Hinv as [Hwf Hmax ? Ht HFA HFR HAR Hco Hx Hs Hl Hh].
  assert (HinU : (k, i) ∈ F ∪ A ∪ R) by set_solver +Hin.
  assert (HbU : (k, buddy_of i) ∈ F ∪ A ∪ R) by set_solver +Hnb.
  pose proof (inv_valid _ HinU) as Hv. pose proof Hv as [H1 H2]; simpl in H1, H2.
  pose proof (valid_parent max k i Hk Hv) as [Hvp1 Hvp2]; simpl in Hvp1, Hvp2.
  destruct (pair_range max k i) as [Hp1 Hp2]; [lia|done|].
  assert (Hp : (k + 1, i / 2) ∉ F ∪ A ∪ R).
  { apply (inv_not_nested (k, i)); [done|intros [=]; lia|].
    left. apply inside_parent. }
  destruct (merge_sets F A R (k, i) Hin HFA HFR HAR _ _ Hnb Hp)
    as (HU & HFA' & HFR' & HAR').
  pose proof (λ U, halves_diff U k i ltac:(lia)) as Hhalves.
  destruct (xor_switch_ok st k (i / 2)) as (st1 & E1 & Hrb1); [done|lia|done..|].
  pose proof Hrb1 as [Hb1 Hm1 Hx1 Hw1 HX1 HS1].
  destruct (lists_remove base max (mem st) F k (buddy_of i)) as (m & Erm & Hl');
    [apply sep_F|lia|done|done|].
  destruct (split_clear_ok (with_mem st1 m) (k + 1) (i / 2)) as (st2 & E2 & Hrb2);
    [done| | |].
  { change (MAXSIZE (with_mem st1 m)) with (MAXSIZE st1). rewrite Hx1. lia. }
  { change (MAXSIZE (with_mem st1 m)) with (MAXSIZE st1). by rewrite Hx1. }
  pose proof Hrb2 as [Hb2 Hm2 Hx2 Hw2 HX2 HS2].
  exists st1, m, st2. split; [done|]. split.
  { rewrite xor_is_set_ok by (rewrite ?Hx1; done || lia).
    rewrite HX1 by lia. rewrite upd2_eq, pair_bit by done.
    by rewrite bool_decide_eq_true_2. }
  split; [by rewrite Hm1|]. split; [done|].
  assert (Hrb : rebits (with_mem st m) st2 (xbit st2) (sbit st2)).
  { split; try done; [by rewrite Hb2|by rewrite Hx2]. }
  assert (Ht' : tiling max ({[(k + 1, i / 2)]} ∪
                  (F ∪ A ∪ R) ∖ {[(k, i)]} ∖ {[(k, buddy_of i)]})).
  { rewrite Hhalves. apply tiling_merge; try done;
      destruct (buddy_of_cases i ltac:(lia)) as [[E E']|[E E']]; congruence. }
  assert (Hres : inv st2 (F ∖ {[(k, buddy_of i)]})
    ({[(k + 1, i / 2)]} ∪ A ∖ {[(k, i)]}) R ∧
    buddy_base st2 = base ∧ MAXSIZE st2 = max).
  { eapply (inv_step st _ m _ _ F A R); rewrite ?HU; try done.
    - intros k1 j Hk1 P1 P2. apply (Hco k1 j); [done|set_solver +P1|set_solver +P2].
    - intros k1 j ? ? ?. rewrite HX2 by lia.
      change (xbit (with_mem st1 m)) with (xbit st1). rewrite HX1 by lia.
      assert (Hpi : i / 2 = buddy_of i / 2).
      { destruct (buddy_of_cases i ltac:(lia)) as [[E ->]|[E ->]].
        - apply (Z.div_unique_pos _ _ _ 1); lia.
        - rewrite (Z.mul_comm 2), Z.div_mul; lia. }
      rewrite Hpi. apply (xor_toggle st F); try done; [|set_solver +|set_solver +Hnb].
      destruct (buddy_of_cases i ltac:(lia)) as [[E ->]|[E ->]]; lia.
    - intros k1 i1 ? ?. rewrite HS2 by lia.
      change (sbit (with_mem st1 m)) with (sbit st1).
      destruct (decide ((k + 1, i / 2) = (k1, i1))) as [E|Hne].
      + injection E as <- <-. rewrite upd2_eq. split; [done|].
        intros (b & Hb & Hs1 & Hs2). destruct Ht' as (_ & Hap & _).
        destruct (Hap b (k + 1, i / 2)) as [Hn _]; [done|set_solver +| |done].
        intros ->. simpl in Hs1. lia.
      + rewrite upd2_ne by done. rewrite HS1, (Hs k1 i1) by lia.
        rewrite Hhalves, (strict_halves _ (k + 1) (i / 2)) by done.
        replace (k + 1 - 1) with k by lia.
        assert (HUeq : {[(k, 2 * (i / 2))]} ∪ {[(k, 2 * (i / 2) + 1)]} ∪
          (F ∪ A ∪ R) ∖ {[(k, 2 * (i / 2))]} ∖ {[(k, 2 * (i / 2) + 1)]} = F ∪ A ∪ R).
        { apply two_back;
          destruct (buddy_of_cases i ltac:(lia)) as [[E E']|[E E']]; congruence. }
        by rewrite HUeq. }
  split; [tauto|]. split; [done|]. tauto.
Qed.
End transitions.

(** ** Size classes *)

(** [k] is the smallest size whose blocks hold [n] bytes. *)
Definition size_class (n k : Z) : Prop :=
  0 ≤ k ∧ n ≤ 2 ^ k * 16 ∧ (0 < k → 2 ^ (k - 1) * 16 < n).

Lemma firstk_loop_ok fuel n k :
  0 ≤ k ≤ 59 → n ≤ 2 ^ 63 → 59 - k < Z.of_nat fuel →
  (0 < k → 2 ^ (k - 1) * 16 < n) →
  ∃ k', firstk_loop fuel n k (2 ^ k * 16) = Ok k' ∧ k' ≤ 59 ∧ size_class n k'.
Proof.
  revert k. induction fuel as [|fuel IH]; intros k Hk Hn Hf Hlow; [lia|].
  simpl. zcase.
  - assert (k < 59).
    { destruct (decide (k = 59)) as [->|]; [|lia]. change (2 ^ 59 * 16) with (2 ^ 63) in *. lia. }
    replace (2 ^ k * 16 * 2) with (2 ^ (k + 1) * 16) by (rewrite pow2_succ; lia).
    rewrite u64_small.
    + apply IH; [lia|lia|lia|]. intros _. by replace (k + 1 - 1) with k by lia.
    + pose proof (pow2_pos (k + 1) ltac:(lia)).
      assert (2 ^ (k + 1) ≤ 2 ^ 59) by (apply Z.pow_le_mono_r; lia).
      change (2 ^ 64) with (2 ^ 59 * 32). lia.
  - exists k. split; [done|]. split; [lia|]. by split; [lia|].
Qed.

Lemma firstk_ok n :
  n ≤ 2 ^ 63 → ∃ k, firstk n = Ok k ∧ k ≤ 59 ∧ size_class n k.
Proof. intros. apply (firstk_loop_ok 64 n 0); lia. Qed.

Lemma firstk_loop_zero fuel n k : 0 < n → firstk_loop fuel n k 0 = Hang.
Proof.
  intros Hn. revert k. induction fuel as [|fuel IH]; intros k; simpl; [done|].
  zcase; [|lia]. apply IH.
Qed.

(** Above [2^63] the doubling overflows and the loop never ends. *)
Lemma firstk_loop_hang fuel n k :
  0 ≤ k ≤ 59 → 2 ^ 63 < n → firstk_loop fuel n k (2 ^ k * 16) = Hang.
Proof.
  revert k. induction fuel as [|fuel IH]; intros k Hk Hn; simpl; [done|].
  assert (2 ^ k ≤ 2 ^ 59) by (apply Z.pow_le_mono_r; lia).
  change (2 ^ 63) with (2 ^ 59 * 16) in Hn. pose proof (pow2_pos k ltac:(lia)).
  zcase; [|lia]. destruct (decide (k = 59)) as [->|].
  - change (u64 (2 ^ 59 * 16 * 2)) with 0. apply firstk_loop_zero. lia.
  - replace (2 ^ k * 16 * 2) with (2 ^ (k + 1) * 16) by (rewrite pow2_succ; lia).
    assert (2 ^ (k + 1) ≤ 2 ^ 59) by (apply Z.pow_le_mono_r; lia).
    pose proof (pow2_pos (k + 1) ltac:(lia)).
    rewrite u64_small by (change (2 ^ 64) with (2 ^ 59 * 32); lia).
    apply IH; [lia|]. change (2 ^ 63) with (2 ^ 59 * 16). lia.
Qed.

Lemma firstk_hang n : 2 ^ 63 < n → firstk n = Hang.
Proof. intros. apply (firstk_loop_hang 64 n 0); lia. Qed.

(** ** The loops of [buddy_malloc] *)

Lemma malloc_find_ok st F A R n k :
  inv st F A R → 0 ≤ k ≤ buddy_size_groups_count st →
  Z.of_nat n = buddy_size_groups_count st - k →
  ∃ k', malloc_find n st k = Ok k' ∧ k ≤ k' ≤ buddy_size_groups_count st ∧
    (∀ j i, k ≤ j < k' → (j, i) ∉ F) ∧
    (k' < buddy_size_groups_count st → ∃ i, (k', i) ∈ F).
Proof.
  intros Hinv. revert k. induction n as [|n IH]; intros k Hk Hn; simpl.
  - exists k. split; [done|]. split; [lia|]. split; [intros; lia|lia].
  - destruct (lists_empty (buddy_base st) (MAXSIZE st) (mem st) F k)
      as (e & -> & He); [unfold MAXSIZE; lia|apply Hinv|]. simpl. destruct e.
    + destruct (IH (k + 1)) as (k' & -> & Hk' & Hno & Hyes); [lia|lia|].
      exists k'. split; [done|]. split; [lia|]. split; [|done].
      intros j i Hj. destruct (decide (j = k)) as [->|]; [by apply He|].
      apply Hno. lia.
    + exists k. split; [done|]. split; [lia|]. split; [intros; lia|]. intros _.
      destruct (Hinv) as [_ _ _ _ _ _ _ _ _ _ Hl _].
      destruct (Hl k) as (l & Hd & Hel); [unfold MAXSIZE; lia|].
      destruct l as [|i l]; [|exists i; apply Hel; set_solver +].
      assert (false = true); [|done]. apply He. intros i Hi.
      apply Hel in Hi. by apply elem_of_nil in Hi.
Qed.

Lemma baddr_left base k i :
  1 ≤ k → baddr base (k, i) = baddr base (k - 1, 2 * i).
Proof.
  intros. unfold baddr, bsize; simpl. rewrite (pow2_split k 1) by lia.
  rewrite Z.pow_1_r. lia.
Qed.

Lemma baddr_right base k i :
  1 ≤ k → baddr base (k, i) + BLK_SIZE (k - 1) = baddr base (k - 1, 2 * i + 1).
Proof.
  intros. rewrite baddr_left, BLK_SIZE_eq by lia.
  unfold baddr, bsize; simpl. lia.
Qed.

Lemma malloc_split_ok n st F A R k i :
  inv st F A R → (k, i) ∈ A → Z.of_nat n ≤ k →
  ∃ st' F', malloc_split n st k (baddr (buddy_base st) (k, i)) = Ok st' ∧
    inv st' F' ({[(k - Z.of_nat n, i * 2 ^ Z.of_nat n)]} ∪ A ∖ {[(k, i)]}) R ∧
    baddr (buddy_base st) (k - Z.of_nat n, i * 2 ^ Z.of_nat n) =
      baddr (buddy_base st) (k, i) ∧
    buddy_base st' = buddy_base st ∧ MAXSIZE st' = MAXSIZE st.
Proof.
  revert st F A k i. induction n as [|n IH]; intros st F A k i Hinv Hin Hn.
  { exists st, F. simpl. rewrite Z.sub_0_r, Z.mul_1_r.
    by rewrite <- union_difference_singleton_L. }
  cbn [malloc_split].
  destruct (split_step_ok st F A R Hinv k i ltac:(lia) Hin)
    as (st1 & st2 & st3 & -> & E2 & E3 & Hb1 & Hb2 & Hinv3 & Hb3 & Hm3).
  pose proof (baddr_left (buddy_base st) k i ltac:(lia)) as Hbl.
  rewrite bind_Ok. rewrite Hb1. rewrite <- Hbl in E2.
  rewrite E2. rewrite bind_Ok. rewrite baddr_right by lia.
  rewrite E3. rewrite bind_Ok.
  assert (Hnew : (k - 1, 2 * i) ∉ A).
  { assert ((k - 1, 2 * i) ∉ F ∪ A ∪ R); [|set_solver].
    apply (inv_not_nested st F A R Hinv (k, i)); [set_solver|intros [=]; lia|].
    right. apply inside_child_l. }
  rewrite Hbl, <- Hb3.
  destruct (IH st3 _ _ (k - 1) (2 * i) Hinv3) as (st' & F' & E & Hinv' & Ha & Hb & Hm);
    [set_solver +|lia|].
  exists st', F'. split; [done|].
  replace (k - Z.of_nat (S n)) with (k - 1 - Z.of_nat n) by lia.
  replace (i * 2 ^ Z.of_nat (S n)) with (2 * i * 2 ^ Z.of_nat n)
    by (rewrite Nat2Z.inj_succ, Z.pow_succ_r by lia; ring).
  split; [|split; [done|split; congruence]].
  replace (A ∖ {[(k, i)]}) with
    (({[(k - 1, 2 * i)]} ∪ A ∖ {[(k, i)]}) ∖ {[(k - 1, 2 * i)]} : gset block); [done|].
  apply set_eq. set_solver +Hnew.
Qed.
