(* ===== verification/BuddySpec.v ===== *)
(** * What the buddy allocator guarantees: [buddy_malloc] and [buddy_free]. *)

From S2P Require Import Prelude.
From S2P Require Import Bits.
From S2P Require Import LinkedList.
From S2P Require Import Buddy.
From S2P Require Import BuddyInv.
From S2P Require Import BuddyProof.

(** ** Allocation *)

(** The two ways [buddy_malloc] returns: nothing is free at the size class of
    the request or above, and nothing changes; or a block of exactly that
    class moves to the allocated set. *)
Lemma buddy_malloc_ok st F A R n :
  inv st F A R → n ≤ 2 ^ 63 →
  ∃ k, size_class n k ∧
    ((buddy_malloc st n = Ok (0, st) ∧ ∀ j i, k ≤ j → (j, i) ∉ F) ∨
     (∃ i st' F', buddy_malloc st n = Ok (baddr (buddy_base st) (k, i), st') ∧
        (k, i) ∉ A ∧ inv st' F' ({[(k, i)]} ∪ A) R ∧
        buddy_base st' = buddy_base st ∧ MAXSIZE st' = MAXSIZE st)).
Proof.
  intros Hinv Hn. destruct (firstk_ok n Hn) as (fk & Hfk & Hfk59 & Hsc).
  exists fk. split; [done|]. unfold buddy_malloc. rewrite Hfk, bind_Ok.
  pose proof Hsc as [Hfk0 _].
  destruct (decide (buddy_size_groups_count st < fk)) as [Hbig|Hbig].
  { left. replace (Z.to_nat _) with O by lia. cbn [malloc_find]. rewrite bind_Ok.
    zcase; [|lia]. split; [done|]. intros j i Hj Hji.
    destruct (inv_valid _ _ _ _ Hinv (j, i)) as [? _]; [set_solver +Hji|].
    unfold MAXSIZE in *. simpl in *. lia. }
  destruct (malloc_find_ok st F A R (Z.to_nat (buddy_size_groups_count st - fk)) fk)
    as (k & -> & Hk & Hno & Hyes); [done|lia|lia|]. rewrite bind_Ok. zcase.
  { left. split; [done|]. intros j i Hj Hji.
    destruct (inv_valid _ _ _ _ Hinv (j, i)) as [? _]; [set_solver +Hji|].
    apply (Hno j i); [|done]. unfold MAXSIZE in *. simpl in *. lia. }
  right. destruct (take_ok st F A R Hinv k) as (i & m & st1 & Hin & -> & E1 & Hinv1 & Hb1 & Hm1);
    [unfold MAXSIZE; lia|by apply Hyes|].
  rewrite bind_Ok. cbv beta iota.
  change (buddy_base (with_mem st m)) with (buddy_base st). rewrite E1, bind_Ok.
  destruct (malloc_split_ok (Z.to_nat (k - fk)) st1 _ _ _ k i Hinv1)
    as (st2 & F' & E2 & Hinv2 & Ha & Hb2 & Hm2); [set_solver +|lia|].
  rewrite Hb1 in *. rewrite E2, bind_Ok.
  rewrite Z2Nat.id in * by lia. replace (k - (k - fk)) with fk in * by lia.
  assert (HnA : (k, i) ∉ A) by (intros HA; by apply (i_FA _ _ _ _ Hinv (k, i))).
  assert (HA : ({[(k, i)]} ∪ A) ∖ {[(k, i)]} = A) by (apply set_eq; set_solver +HnA).
  rewrite HA in Hinv2.
  eexists _, st2, F'. rewrite Ha. split; [done|]. split_and!; [|done|congruence..].
  intros HinA.
  assert (Hins : inside (fk, i * 2 ^ (k - fk)) (k, i)).
  { split; simpl; [lia|]. apply Z.div_mul. pose proof (pow2_pos (k - fk)). lia. }
  destruct (decide ((fk, i * 2 ^ (k - fk)) = (k, i))) as [E|Hne]; [by rewrite E in HinA|].
  destruct (inv_apart _ _ _ _ Hinv (fk, i * 2 ^ (k - fk)) (k, i)) as [? _];
    [set_solver +HinA|set_solver +Hin|done|done].
Qed.

(** ** Release *)

Lemma alloc_not_max st F A R k i :
  inv st F A R → (k, i) ∈ A → k < MAXSIZE st.
Proof.
  intros Hinv Hin.
  destruct (inv_valid _ _ _ _ Hinv (k, i)) as [H1 H2]; [set_solver +Hin|]. simpl in *.
  destruct (decide (k = MAXSIZE st)) as [->|]; [exfalso|lia].
  rewrite Z.sub_diag in H2.
  destruct (i_heads _ _ _ _ Hinv 0) as (r & Hr & _); [destruct (i_wf _ _ _ _ Hinv); lia|].
  assert (Hne : r ≠ (MAXSIZE st, i)).
  { intros ->. by apply (i_AR _ _ _ _ Hinv (MAXSIZE st, i)). }
  destruct (inv_apart _ _ _ _ Hinv r (MAXSIZE st, i)) as [Hn _];
    [set_solver +Hr|set_solver +Hin|done|].
  destruct (inv_valid _ _ _ _ Hinv r) as [H3 H4]; [set_solver +Hr|].
  apply Hn. split; simpl; [lia|]. rewrite Z.div_small by lia. lia.
Qed.

Lemma baddr_down base k i j :
  0 ≤ j ≤ k → baddr base (k, i) = baddr base (j, i * 2 ^ (k - j)).
Proof.
  intros. unfold baddr, bsize; simpl. rewrite (pow2_split k j) by lia. ring.
Qed.

Lemma valid_down max k i j :
  0 ≤ j ≤ k → valid max (k, i) → valid max (j, i * 2 ^ (k - j)).
Proof.
  unfold valid; simpl. intros Hj [H1 H2]. split; [lia|].
  pose proof (pow2_pos (k - j) ltac:(lia)). split; [nia|].
  replace (max - j) with ((max - k) + (k - j)) by lia.
  rewrite Z.pow_add_r by lia. nia.
Qed.

(** [size] finds the size at which a block was handed out. *)
Lemma bd_size_loop_ok n st F A R k i j :
  inv st F A R → (k, i) ∈ A → 0 ≤ j ≤ k → k - j < Z.of_nat n →
  bd_size_loop n st j (baddr (buddy_base st) (k, i)) = Ok k.
Proof.
  intros Hinv Hin. revert j. induction n as [|n IH]; intros j Hj Hn; [lia|].
  pose proof (alloc_not_max _ _ _ _ _ _ Hinv Hin) as Hkm.
  pose proof (i_max _ _ _ _ Hinv) as Hmax. pose proof (i_wf _ _ _ _ Hinv) as Hwf.
  assert (HinU : (k, i) ∈ F ∪ A ∪ R) by set_solver +Hin.
  pose proof (inv_valid _ _ _ _ Hinv _ HinU) as Hv.
  cbn [bd_size_loop]. destruct (decide (j = k)) as [->|Hne].
  - rewrite (blk_index_up (MAXSIZE st)) by (done || lia).
    replace (k + 1 - k) with 1 by lia. rewrite Z.pow_1_r.
    destruct (valid_parent (MAXSIZE st) k i Hkm Hv) as [Hp1 Hp2]; simpl in Hp1, Hp2.
    rewrite split_is_set_ok by (done || lia). rewrite bind_Ok.
    replace (sbit st (k + 1) (i / 2)) with true; [done|]. symmetry.
    apply (i_split _ _ _ _ Hinv); [lia|done|]. exists (k, i). split; [done|].
    split; [simpl; lia|apply inside_parent].
  - rewrite (baddr_down _ k i (j + 1)) by lia.
    pose proof (valid_down (MAXSIZE st) k i (j + 1) ltac:(lia) Hv) as Hv'.
    pose proof Hv' as [Hd1 Hd2]; simpl in Hd1, Hd2.
    rewrite (blk_index_same (MAXSIZE st)) by done.
    rewrite split_is_set_ok by (done || lia). rewrite bind_Ok.
    replace (sbit st (j + 1) (i * 2 ^ (k - (j + 1)))) with false.
    { rewrite <- baddr_down by lia. apply IH; lia. }
    symmetry. apply not_true_is_false. intros Hs.
    apply (i_split _ _ _ _ Hinv) in Hs as (b & Hb & Hs1 & Hs2); [|lia|done].
    simpl in Hs1.
    assert (Hbk : inside b (k, i)).
    { eapply inside_trans; [done|]. split; simpl; [lia|].
      apply Z.div_mul. pose proof (pow2_pos (k - (j + 1))). lia. }
    destruct (inv_apart _ _ _ _ Hinv b (k, i)) as [Hn' _]; [done|done| |done].
    intros ->. simpl in Hs1. lia.
Qed.

Lemma bd_size_ok st F A R k i :
  inv st F A R → (k, i) ∈ A → bd_size st (baddr (buddy_base st) (k, i)) = Ok k.
Proof.
  intros Hinv Hin. pose proof (alloc_not_max _ _ _ _ _ _ Hinv Hin).
  destruct (inv_valid _ _ _ _ Hinv (k, i)) as [? _]; [set_solver +Hin|]. simpl in *.
  eapply bd_size_loop_ok; try done; unfold MAXSIZE in *; lia.
Qed.

Lemma merged_addr base k i :
  0 ≤ i → 0 ≤ k →
  (if Z.rem (buddy_of i) 2 =? 0 then baddr base (k, buddy_of i) else baddr base (k, i))
  = baddr base (k + 1, i / 2).
Proof.
  intros Hi Hk. rewrite buddy_of_even by done.
  rewrite (baddr_left base (k + 1)) by lia. replace (k + 1 - 1) with k by lia.
  pose proof (Z.div_mod i 2 ltac:(lia)).
  destruct (buddy_of_cases i Hi) as [[E ->]|[E ->]]; zcase; simpl; try lia; do 2 f_equal; lia.
Qed.

(** The loop of [buddy_free] and the final push. *)
Lemma free_loop_ok n st F A R k i :
  inv st F A R → (k, i) ∈ A → Z.of_nat n = MAXSIZE st - k →
  ∃ k' p' st1 st2 F',
    free_loop n st k (baddr (buddy_base st) (k, i)) = Ok (k', p', st1) ∧
    free_push st1 k' p' = Ok st2 ∧
    inv st2 F' (A ∖ {[(k, i)]}) R ∧
    buddy_base st2 = buddy_base st ∧ MAXSIZE st2 = MAXSIZE st.
Proof.
  revert st F A k i. induction n as [|n IH]; intros st F A k i Hinv Hin Hn.
  { assert (k = MAXSIZE st) as -> by lia.
    destruct (release_max_ok st F A R Hinv i Hin) as (st2 & E & Hinv2 & Hb & Hm).
    cbn [free_loop]. eauto 10. }
  pose proof (i_max _ _ _ _ Hinv) as Hmax.
  assert (HinU : (k, i) ∈ F ∪ A ∪ R) by set_solver +Hin.
  pose proof (inv_valid _ _ _ _ Hinv _ HinU) as Hv. pose proof Hv as [Hv1 Hv2].
  simpl in Hv1, Hv2. cbn [free_loop].
  rewrite (blk_index_same (MAXSIZE st)) by done. rewrite buddy_pair_index_eq by lia.
  destruct (decide ((k, buddy_of i) ∈ F)) as [Hbf|Hbf].
  - destruct (merge_ok st F A R Hinv k i) as
      (st1 & m & st2 & E1 & E2 & Erm & Esc & Hinv2 & Hb1 & Hb2 & Hm2); [lia|done|done|].
    rewrite E1, bind_Ok. rewrite E2, bind_Ok. cbv beta iota zeta. rewrite Hb1.
    rewrite (addr_baddr (MAXSIZE st)) by (done || (apply buddy_valid; lia || done)).
    rewrite Erm, bind_Ok. rewrite merged_addr by lia.
    change (buddy_base (with_mem st1 m)) with (buddy_base st1). rewrite Hb1.
    rewrite (blk_index_same (MAXSIZE st)) by (done || (apply valid_parent; done || lia)).
    rewrite Esc, bind_Ok. rewrite <- Hb2.
    destruct (IH st2 _ _ (k + 1) (i / 2) Hinv2) as
      (k' & p' & st3 & st4 & F' & E & Hp & Hinv4 & Hb4 & Hm4); [set_solver +|lia|].
    exists k', p', st3, st4, F'. split; [done|]. split; [done|].
    split; [|split; congruence].
    assert (HnA : (k + 1, i / 2) ∉ A).
    { assert ((k + 1, i / 2) ∉ F ∪ A ∪ R) as Hnot; [|set_solver +Hnot].
      apply (inv_not_nested _ _ _ _ Hinv (k, i)); [done|intros [=]; lia|].
      left. apply inside_parent. }
    assert (HA : ({[(k + 1, i / 2)]} ∪ A ∖ {[(k, i)]}) ∖ {[(k + 1, i / 2)]} =
                 A ∖ {[(k, i)]}) by (apply set_eq; set_solver +HnA).
    by rewrite HA in Hinv4.
  - destruct (release_ok st F A R Hinv k i) as
      (st1 & st2 & E1 & E2 & Ep & Hinv2 & Hb1 & Hb2 & Hm2); [lia|done|done|].
    rewrite E1, bind_Ok. rewrite E2, bind_Ok. eauto 10.
Qed.

Lemma buddy_free_ok st F A R k i :
  inv st F A R → (k, i) ∈ A →
  ∃ st' F', buddy_free st (baddr (buddy_base st) (k, i)) = Ok st' ∧
    inv st' F' (A ∖ {[(k, i)]}) R ∧
    buddy_base st' = buddy_base st ∧ MAXSIZE st' = MAXSIZE st.
Proof.
  intros Hinv Hin. unfold buddy_free.
  rewrite (bd_size_ok _ _ _ _ _ _ Hinv Hin), bind_Ok.
  pose proof (alloc_not_max _ _ _ _ _ _ Hinv Hin).
  destruct (free_loop_ok (Z.to_nat (MAXSIZE st - k)) st F A R k i Hinv Hin ltac:(lia))
    as (k' & p' & st1 & st2 & F' & -> & Ep & Hinv2 & Hb & Hm).
  rewrite bind_Ok. eauto 10.
Qed.
