(* ===== verification/BuddyInit.v ===== *)
(** * Initialisation of the buddy allocator: [buddy_init] establishes the
    invariant. *)

From S2P Require Import Prelude.
From S2P Require Import Bits.
From S2P Require Import LinkedList.
From S2P Require Import Buddy.
From S2P Require Import BuddyInv.
From S2P Require Import BuddyProof.

(** ** Layout of the metadata *)

Lemma ROUNDUP_bounds n sz :
  0 < sz → n ≤ ROUNDUP n sz < n + sz ∧ ROUNDUP n sz mod sz = 0.
Proof.
  intros Hsz. unfold ROUNDUP. split; [|by rewrite Z.mod_mul by lia].
  pose proof (Z.div_mod (n - 1) sz ltac:(lia)).
  pose proof (Z.mod_pos_bound (n - 1) sz Hsz). nia.
Qed.

Lemma ROUNDUP_aligned n sz : 0 < sz → n mod sz = 0 → ROUNDUP n sz = n.
Proof.
  intros Hsz Hn. pose proof (Z.div_mod n sz ltac:(lia)). unfold ROUNDUP.
  rewrite <- (Z.div_unique_pos (n - 1) sz (n / sz - 1) (sz - 1)); lia.
Qed.

Lemma NBLK_eq maxsize k : k ≤ maxsize → NBLK maxsize k = 2 ^ (maxsize - k).
Proof. intros. unfold NBLK. by rewrite Z.shiftl_1_l. Qed.

Lemma xor_bytes_bounds maxsize k :
  k ≤ maxsize →
  0 < xor_bytes maxsize k ∧
  2 ^ (maxsize - k) ≤ 16 * xor_bytes maxsize k ≤ 2 ^ (maxsize - k) + 16.
Proof.
  intros Hk. unfold xor_bytes. rewrite NBLK_eq by done.
  set (e := maxsize - k). assert (0 ≤ e) by lia.
  destruct (ROUNDUP_bounds (2 ^ e) 8) as [H1 H2]; [lia|].
  pose proof (Z.div_mod (ROUNDUP (2 ^ e) 8) 8 ltac:(lia)).
  set (sz := ROUNDUP (2 ^ e) 8 / 8) in *.
  pose proof (Z.div_mod sz 2 ltac:(lia)). pose proof (Z.mod_pos_bound sz 2 ltac:(lia)).
  destruct (decide (4 ≤ e)).
  - assert (2 ^ e = 16 * 2 ^ (e - 4)).
    { change 16 with (2 ^ 4). rewrite <- Z.pow_add_r by lia. f_equal. lia. }
    pose proof (pow2_pos (e - 4) ltac:(lia)). zcase; lia.
  - assert (2 ^ e ≤ 2 ^ 3) by (apply Z.pow_le_mono_r; lia).
    pose proof (pow2_pos e ltac:(lia)). change (2 ^ 3) with 8 in *. zcase; lia.
Qed.

Lemma split_bytes_bounds maxsize k :
  k ≤ maxsize →
  0 < split_bytes maxsize k ∧
  2 ^ (maxsize - k) ≤ 8 * split_bytes maxsize k ≤ 2 ^ (maxsize - k) + 8.
Proof.
  intros Hk. unfold split_bytes. rewrite NBLK_eq by done.
  destruct (ROUNDUP_bounds (2 ^ (maxsize - k)) 8) as [H1 H2]; [lia|].
  pose proof (pow2_pos (maxsize - k) ltac:(lia)).
  pose proof (Z.div_mod (ROUNDUP (2 ^ (maxsize - k)) 8) 8 ltac:(lia)). lia.
Qed.

(** The first layout loop: sizes of the arrays, and empty free lists. *)
Lemma init_xor_ok n base maxsize : ∀ k p m l p' m',
  0 ≤ k → k + Z.of_nat n ≤ maxsize + 1 →
  init_xor n base maxsize k p m = (l, p', m') →
  length l = n ∧
  (∀ j, (j < n)%nat →
     l !! j = Some (replicate (Z.to_nat (xor_bytes maxsize (k + Z.of_nat j))) 0) ∧
     dll m' (freelist base (k + Z.of_nat j)) []) ∧
  (∀ a, (∀ j, k ≤ j < k + Z.of_nat n → a ≠ freelist base j) → m' !! a = m !! a) ∧
  p ≤ p' ∧ 16 * (p' - p) ≤ 2 ^ (maxsize - k + 1) + 16 * Z.of_nat n.
Proof.
  induction n as [|n IH]; intros k p m l p' m' Hk Hn E; cbn [init_xor] in E.
  { injection E as <- <- <-. pose proof (pow2_pos (maxsize - k + 1)).
    split_and!; [done|intros; lia|done|lia|lia]. }
  destruct (init_xor n base maxsize (k + 1) (p + xor_bytes maxsize k)
    (lst_init m (freelist base k))) as [[l0 p0] m0] eqn:E0.
  injection E as <- <- <-.
  destruct (IH (k + 1) _ _ _ _ _ ltac:(lia) ltac:(lia) E0) as (Hlen & Hall & Hfr & Hp & Hb).
  destruct (xor_bytes_bounds maxsize k ltac:(lia)) as [Hx1 Hx2].
  split_and!.
  - simpl. by rewrite Hlen.
  - intros [|j] Hj.
    + rewrite Z.add_0_r. split; [done|]. eapply dll_frame; [|apply lst_init_ok].
      intros a Ha. apply Hfr. intros j Hj' ->.
      apply list_elem_of_singleton in Ha. apply freelist_inj in Ha. lia.
    + replace (k + Z.of_nat (S j)) with (k + 1 + Z.of_nat j) by lia.
      apply (Hall j). lia.
  - intros a Ha. rewrite Hfr by (intros; apply Ha; lia).
    apply lst_init_frame. apply Ha. lia.
  - lia.
  - replace (maxsize - (k + 1) + 1) with (maxsize - k) in Hb by lia.
    rewrite pow2_succ by lia. lia.
Qed.

Lemma init_split_ok n maxsize : ∀ k p l p',
  k + Z.of_nat n ≤ maxsize + 1 →
  init_split n maxsize k p = (l, p') →
  length l = n ∧
  (∀ j, (j < n)%nat →
     l !! j = Some (replicate (Z.to_nat (split_bytes maxsize (k + Z.of_nat j))) 0)) ∧
  p ≤ p' ∧ 8 * (p' - p) ≤ 2 ^ (maxsize - k + 1) + 8 * Z.of_nat n.
Proof.
  induction n as [|n IH]; intros k p l p' Hn E; cbn [init_split] in E.
  { injection E as <- <-. pose proof (pow2_pos (maxsize - k + 1)).
    split_and!; [done|intros; lia|lia|lia]. }
  destruct (init_split n maxsize (k + 1) (p + split_bytes maxsize k))
    as [l0 p0] eqn:E0.
  injection E as <- <-.
  destruct (IH (k + 1) _ _ _ ltac:(lia) E0) as (Hlen & Hall & Hp & Hb).
  destruct (split_bytes_bounds maxsize k ltac:(lia)) as [Hx1 Hx2].
  split_and!.
  - simpl. by rewrite Hlen.
  - intros [|j] Hj; [by rewrite Z.add_0_r|].
    replace (k + Z.of_nat (S j)) with (k + 1 + Z.of_nat j) by lia.
    apply (Hall j). lia.
  - lia.
  - replace (maxsize - (k + 1) + 1) with (maxsize - k) in Hb by lia.
    rewrite pow2_succ by lia. lia.
Qed.

Lemma log2_loop_ok fuel k n :
  0 ≤ n → Z.log2 n < Z.of_nat fuel → log2_loop fuel k n = Ok (k + Z.log2 n).
Proof.
  revert k n. induction fuel as [|fuel IH]; intros k n Hn Hf; simpl.
  { pose proof (Z.log2_nonneg n). lia. }
  zcase.
  - assert (Hs : Z.log2 (Z.shiftr n 1) = Z.log2 n - 1).
    { rewrite Z.log2_shiftr by lia.
      assert (1 ≤ Z.log2 n) by (change 1 with (Z.log2 2); apply Z.log2_le_mono; lia).
      lia. }
    rewrite IH by (rewrite ?Z.shiftr_nonneg; lia). rewrite Hs. f_equal. lia.
  - assert (n = 0 ∨ n = 1) as [-> | ->] by lia; simpl; f_equal; lia.
Qed.

Lemma log2_ok n : 0 ≤ n < 2 ^ 64 → log2 n = Ok (Z.log2 n).
Proof.
  intros [H1 H2]. unfold log2. rewrite log2_loop_ok; [done|done|].
  destruct (decide (n = 0)) as [->|]; [simpl; lia|].
  assert (Z.log2 n < 64) by (apply Z.log2_lt_pow2; lia). lia.
Qed.

(** ** Marking *)

Definition in_rng (lo hi i : Z) : bool := (lo <=? i) && (i <? hi).

Lemma in_rng_true lo hi i : in_rng lo hi i = true ↔ lo ≤ i < hi.
Proof. unfold in_rng. rewrite andb_true_iff, Z.leb_le, Z.ltb_lt. tauto. Qed.

Lemma in_rng_first lo hi i :
  lo < hi → in_rng lo hi i = xorb (lo =? i) (in_rng (lo + 1) hi i).
Proof. intros. unfold in_rng. repeat zcase; simpl; lia. Qed.

Lemma in_rng_empty lo i : in_rng lo lo i = false.
Proof. unfold in_rng. repeat zcase; simpl; lia. Qed.

Lemma half_eqb bi j :
  0 ≤ bi → (bi / 2 =? j) = xorb (bi =? 2 * j) (bi =? 2 * j + 1).
Proof.
  intros. pose proof (Z.div_mod bi 2 ltac:(lia)).
  pose proof (Z.mod_pos_bound bi 2 ltac:(lia)). repeat zcase; simpl; lia.
Qed.

Lemma rebits_refl st : wf_groups st → rebits st st (xbit st) (sbit st).
Proof. intros. by split. Qed.

Lemma rebits_trans st st1 st2 X1 S1 X2 S2 X3 S3 :
  rebits st st1 X1 S1 → rebits st1 st2 X2 S2 →
  (∀ k j, 0 ≤ k → 0 ≤ j → xbit st1 k j = X1 k j → X2 k j = X3 k j) →
  (∀ k i, 0 ≤ k → 0 ≤ i → sbit st1 k i = S1 k i → S2 k i = S3 k i) →
  rebits st st2 X3 S3.
Proof.
  intros [] [] HX HS. split; try congruence.
  - intros. rewrite <- HX; auto.
  - intros. rewrite <- HS; auto.
Qed.

(** The pair bits flip once for every marked block, and the marked blocks of a
    size above 0 are split. *)
Definition mark_x (st : buddy) (lo hi : Z → Z) (k j : Z) : bool :=
  xorb (xbit st k j)
    (xorb (in_rng (lo k) (hi k) (2 * j)) (in_rng (lo k) (hi k) (2 * j + 1))).

Definition mark_s (st : buddy) (lo hi : Z → Z) (k i : Z) : bool :=
  sbit st k i || ((0 <? k) && in_rng (lo k) (hi k) i).

Lemma bd_mark_blocks_ok n st k bi :
  wf_groups st → 0 ≤ k ≤ MAXSIZE st → 0 ≤ bi →
  bi + Z.of_nat n ≤ 2 ^ (MAXSIZE st - k) →
  ∃ st', bd_mark_blocks n st k bi = Ok st' ∧
    rebits st st'
      (λ k' j, if k =? k' then mark_x st (λ _, bi) (λ _, bi + Z.of_nat n) k' j
               else xbit st k' j)
      (λ k' i, if k =? k' then mark_s st (λ _, bi) (λ _, bi + Z.of_nat n) k' i
               else sbit st k' i).
Proof.
  revert st bi. induction n as [|n IH]; intros st bi Hwf Hk Hbi Hn; cbn [bd_mark_blocks].
  { exists st. split; [done|]. rewrite Z.add_0_r. split; try done.
    - intros. zcase; [|done]. unfold mark_x. rewrite !in_rng_empty. by rewrite xorb_false_r.
    - intros. zcase; [|done]. unfold mark_s. rewrite !in_rng_empty.
      by rewrite andb_false_r, orb_false_r. }
  assert (H1 : ∃ st1, (if 0 <? k then split_set st k bi else Ok st) = Ok st1 ∧
            rebits st st1 (xbit st)
              (λ k' i, sbit st k' i || ((k =? k') && (0 <? k) && (bi =? i)))).
  { zcase.
    - destruct (split_set_ok st k bi) as (st1 & E & Hrb); [done|lia|lia|].
      exists st1. split; [done|]. destruct Hrb as [? ? ? ? ? Hs]. split; try done.
      intros. rewrite Hs by done. unfold upd2. repeat zcase; simpl;
        by rewrite ?orb_true_r, ?orb_false_r.
    - exists st. split; [done|]. split; try done. intros.
      by rewrite andb_false_r, orb_false_r. }
  destruct H1 as (st1 & -> & Hrb1). rewrite bind_Ok.
  pose proof Hrb1 as [_ _ Hm1 Hw1 HX1 HS1].
  rewrite buddy_pair_index_eq by lia.
  destruct (pair_range (MAXSIZE st) k bi) as [Hp1 Hp2]; [lia|lia|].
  destruct (xor_switch_ok st1 k (bi / 2)) as (st2 & -> & Hrb2);
    [done|lia|done|by rewrite Hm1|]. rewrite bind_Ok.
  pose proof Hrb2 as [_ _ Hm2 Hw2 HX2 HS2].
  destruct (IH st2 (bi + 1)) as (st3 & -> & Hrb3);
    [done|rewrite Hm2, Hm1; lia|lia|rewrite Hm2, Hm1; lia|].
  exists st3. split; [done|].
  eapply rebits_trans; [exact Hrb1|eapply rebits_trans; [exact Hrb2|exact Hrb3|..]|..].
  - intros k' j ? ? E. exact eq_refl.
  - intros k' i ? ? E. exact eq_refl.
  - intros k' j ? ? _. unfold mark_x. rewrite HX2, HX1 by lia.
    replace (bi + 1 + Z.of_nat n) with (bi + Z.of_nat (S n)) by lia.
    rewrite (in_rng_first bi (bi + Z.of_nat (S n)) (2 * j)) by lia.
    rewrite (in_rng_first bi (bi + Z.of_nat (S n)) (2 * j + 1)) by lia.
    unfold upd2. destruct (Z.eqb_spec k k') as [<-|]; simpl; [|by rewrite ?HX1 by lia].
    rewrite half_eqb by lia.
    destruct (Z.eqb_spec bi (2 * j)), (Z.eqb_spec bi (2 * j + 1)); simpl; try lia.
    + replace (bi / 2) with j by (apply (Z.div_unique_pos _ _ _ 0); lia).
      rewrite ?HX1 by lia. by destruct (xbit st k j), (in_rng _ _ _), (in_rng _ _ _).
    + replace (bi / 2) with j by (apply (Z.div_unique_pos _ _ _ 1); lia).
      rewrite ?HX1 by lia. by destruct (xbit st k j), (in_rng _ _ _), (in_rng _ _ _).
    + by rewrite ?HX1 by lia.
  - intros k' i ? ? _. unfold mark_s. rewrite HS2, HS1 by lia.
    replace (bi + 1 + Z.of_nat n) with (bi + Z.of_nat (S n)) by lia.
    rewrite (in_rng_first bi (bi + Z.of_nat (S n)) i) by lia.
    destruct (Z.eqb_spec k k') as [<-|]; simpl; [|by rewrite ?HS1, ?orb_false_r by lia].
    unfold in_rng. repeat zcase; simpl; rewrite ?orb_false_r, ?orb_true_r; try done; lia.
Qed.

(** The index of the first block of size [k] at or after leaf [b]. *)
Definition cdiv (b k : Z) : Z := (b + 2 ^ k - 1) / 2 ^ k.

Lemma cdiv_lt b k i : 0 ≤ k → i < cdiv b k ↔ i * 2 ^ k < b.
Proof.
  intros Hk. pose proof (pow2_pos k Hk). unfold cdiv.
  pose proof (Z.div_mod (b + 2 ^ k - 1) (2 ^ k) ltac:(lia)).
  pose proof (Z.mod_pos_bound (b + 2 ^ k - 1) (2 ^ k) ltac:(lia)). nia.
Qed.

Lemma fdiv_le a k i : 0 ≤ k → a / 2 ^ k ≤ i ↔ a < (i + 1) * 2 ^ k.
Proof.
  intros Hk. pose proof (pow2_pos k Hk).
  pose proof (Z.div_mod a (2 ^ k) ltac:(lia)).
  pose proof (Z.mod_pos_bound a (2 ^ k) ltac:(lia)). nia.
Qed.

Lemma blk_index_leaf max base k a :
  0 ≤ k ≤ max → max ≤ 26 → 0 ≤ a ≤ 2 ^ max →
  blk_index base k (base + 16 * a) = a / 2 ^ k.
Proof.
  intros Hk Hm Ha. assert (2 ^ max ≤ 2 ^ 26) by (apply Z.pow_le_mono_r; lia).
  pose proof (pow2_pos k ltac:(lia)). unfold blk_index.
  rewrite i32_small by lia. rewrite BLK_SIZE_eq by lia. rewrite quot_nonneg by lia.
  replace (base + 16 * a - base) with (a * 16) by lia.
  by rewrite Z.div_mul_cancel_r by lia.
Qed.

Lemma blk_index_next_leaf max base k b :
  0 ≤ k ≤ max → max ≤ 26 → 0 ≤ b ≤ 2 ^ max →
  blk_index_next base k (base + 16 * b) = cdiv b k.
Proof.
  intros Hk Hm Hb. assert (2 ^ max ≤ 2 ^ 26) by (apply Z.pow_le_mono_r; lia).
  pose proof (pow2_pos k ltac:(lia)). unfold blk_index_next.
  rewrite BLK_SIZE_eq by lia.
  replace (base + 16 * b - base) with (b * 16) by lia.
  rewrite quot_nonneg, rem_nonneg by lia.
  rewrite Z.div_mul_cancel_r, Zmult_mod_distr_r by lia.
  pose proof (Z.div_mod b (2 ^ k) ltac:(lia)) as E.
  pose proof (Z.mod_pos_bound b (2 ^ k) ltac:(lia)).
  assert (0 ≤ b / 2 ^ k ≤ b) by nia.
  rewrite i32_small by lia. unfold cdiv.
  destruct (Z.eqb_spec (b mod 2 ^ k * 16) 0); simpl.
  - apply (Z.div_unique_pos _ _ _ (2 ^ k - 1)); lia.
  - apply (Z.div_unique_pos _ _ _ (b mod 2 ^ k - 1)); lia.
Qed.

Lemma bd_mark_sizes_ok n : ∀ st k a b,
  wf_groups st → MAXSIZE st ≤ 26 → 0 ≤ k → k + Z.of_nat n = MAXSIZE st + 1 →
  0 ≤ a ≤ b → b ≤ 2 ^ MAXSIZE st →
  let base := buddy_base st in
  let lo k' := a / 2 ^ k' in
  let hi k' := cdiv b k' in
  ∃ st', bd_mark_sizes n st k (base + 16 * a) (base + 16 * b) = Ok st' ∧
    rebits st st'
      (λ k' j, if in_rng k (MAXSIZE st + 1) k' then mark_x st lo hi k' j else xbit st k' j)
      (λ k' i, if in_rng k (MAXSIZE st + 1) k' then mark_s st lo hi k' i else sbit st k' i).
Proof.
  induction n as [|n IH]; intros st k a b Hwf Hmax Hk Hn Ha Hb; cbn zeta;
    cbn [bd_mark_sizes].
  { exists st. split; [done|]. replace (MAXSIZE st + 1) with k by lia.
    split; try done; intros; by rewrite in_rng_empty. }
  rewrite (blk_index_leaf (MAXSIZE st)), (blk_index_next_leaf (MAXSIZE st)) by lia.
  pose proof (pow2_pos k Hk).
  assert (a / 2 ^ k ≤ cdiv b k).
  { unfold cdiv. apply Z.div_le_mono; lia. }
  assert (cdiv b k ≤ 2 ^ (MAXSIZE st - k)).
  { apply Z.nlt_ge. rewrite cdiv_lt by done.
    rewrite <- pow2_split by lia. lia. }
  destruct (bd_mark_blocks_ok (Z.to_nat (cdiv b k - a / 2 ^ k)) st k (a / 2 ^ k))
    as (st1 & -> & Hrb1); [done|lia|apply Z.div_pos; lia|lia|]. rewrite bind_Ok.
  replace (a / 2 ^ k + Z.of_nat (Z.to_nat (cdiv b k - a / 2 ^ k)))
    with (cdiv b k) in Hrb1 by lia.
  pose proof Hrb1 as [Hb1 _ Hm1 Hw1 HX1 HS1].
  destruct (IH st1 (k + 1) a b) as (st2 & E & Hrb2);
    [done|rewrite Hm1; lia|lia|rewrite Hm1; lia|lia|by rewrite Hm1|].
  rewrite Hb1, Hm1 in *. exists st2. split; [exact E|].
  eapply rebits_trans; [exact Hrb1|exact Hrb2|..].
  - intros k' j ? ? E1. cbn beta. unfold mark_x at 1. rewrite E1.
    rewrite (in_rng_first k) by lia. unfold in_rng. zcase; simpl.
    + subst k'. by repeat zcase; try lia.
    + done.
  - intros k' i ? ? E1. cbn beta. unfold mark_s at 1. rewrite E1.
    rewrite (in_rng_first k) by lia. unfold in_rng. zcase; simpl.
    + subst k'. by repeat zcase; try lia.
    + done.
Qed.

(** [bd_mark(start, stop)] for leaf-aligned bounds inside the heap. *)
Lemma bd_mark_ok st a b :
  wf_groups st → MAXSIZE st ≤ 26 → buddy_base st mod 16 = 0 →
  0 ≤ a ≤ b → b ≤ 2 ^ MAXSIZE st →
  let base := buddy_base st in
  let lo k := a / 2 ^ k in
  let hi k := cdiv b k in
  ∃ st', bd_mark st (base + 16 * a) (base + 16 * b) = Ok st' ∧
    rebits st st'
      (λ k j, if in_rng 0 (MAXSIZE st + 1) k then mark_x st lo hi k j else xbit st k j)
      (λ k i, if in_rng 0 (MAXSIZE st + 1) k then mark_s st lo hi k i else sbit st k i).
Proof.
  intros Hwf Hm Hb Ha Hbm; cbn zeta. unfold bd_mark, LEAF_SIZE.
  replace (16 * a) with (a * 16) by lia. replace (16 * b) with (b * 16) by lia.
  rewrite !Z.mod_add, Hb by lia. simpl.
  replace (a * 16) with (16 * a) by lia. replace (b * 16) with (16 * b) by lia.
  pose proof Hwf as [? _].
  apply bd_mark_sizes_ok; try done; unfold MAXSIZE in *; try lia.
Qed.
