(* ===== verification/BuddyBoot.v ===== *)
(** * [buddy_init] establishes the invariant: the free blocks it threads on the
    lists are exactly the maximal blocks between the allocator's own data and
    the end of memory. *)

From S2P Require Import Prelude.
From S2P Require Import Bits.
From S2P Require Import LinkedList.
From S2P Require Import Buddy.
From S2P Require Import BuddyInv.
From S2P Require Import BuddyProof.
From S2P Require Import BuddyInit.

Lemma cdiv_succ b k : 0 ≤ k → cdiv b (k + 1) = (cdiv b k + 1) / 2.
Proof.
  intros Hk. pose proof (pow2_pos k Hk). unfold cdiv. rewrite pow2_succ by done.
  rewrite (Z.mul_comm 2), <- Z.div_div by lia. f_equal.
  replace (b + 2 ^ k * 2 - 1) with (b + 2 ^ k - 1 + 1 * 2 ^ k) by lia.
  by rewrite Z.div_add by lia.
Qed.

Lemma fdiv_succ a k : 0 ≤ k → a / 2 ^ (k + 1) = a / 2 ^ k / 2.
Proof.
  intros Hk. pose proof (pow2_pos k Hk). rewrite pow2_succ by done.
  by rewrite (Z.mul_comm 2), Z.div_div by lia.
Qed.

Lemma inside_span b c :
  0 ≤ b.1 → inside b c →
  c.2 * 2 ^ c.1 ≤ b.2 * 2 ^ b.1 ∧ (b.2 + 1) * 2 ^ b.1 ≤ (c.2 + 1) * 2 ^ c.1.
Proof.
  intros Hb [Hle <-]. pose proof (pow2_pos b.1 Hb).
  pose proof (pow2_pos (c.1 - b.1) ltac:(lia)).
  rewrite (pow2_split c.1 b.1) by lia.
  pose proof (Z.div_mod b.2 (2 ^ (c.1 - b.1)) ltac:(lia)).
  pose proof (Z.mod_pos_bound b.2 (2 ^ (c.1 - b.1)) ltac:(lia)). nia.
Qed.

(** ** The area between leaf [M] and leaf [E] *)

Section area.
Context (max M E : Z).
Hypothesis Hmax : 2 ≤ max ≤ 26.
Hypothesis HM : 0 < M ≤ 2 ^ (max - 2).
Hypothesis HE : 2 ^ (max - 1) < E < 2 ^ max.

Definition first_blk (k : Z) : Z := cdiv M k.
Definition end_blk (k : Z) : Z := E / 2 ^ k.

(** The blocks that lie in the area. *)
Definition unmarked (b : block) : Prop := first_blk b.1 ≤ b.2 < end_blk b.1.

Lemma unmarked_span b :
  0 ≤ b.1 → unmarked b ↔ M ≤ b.2 * 2 ^ b.1 ∧ (b.2 + 1) * 2 ^ b.1 ≤ E.
Proof.
  intros Hb. unfold unmarked, first_blk, end_blk.
  pose proof (cdiv_lt M b.1 b.2 Hb). pose proof (fdiv_le E b.1 b.2 Hb). lia.
Qed.

Lemma unmarked_inside b c : 0 ≤ b.1 → inside b c → unmarked c → unmarked b.
Proof.
  intros Hb Hin. pose proof (inside_span b c Hb Hin). destruct Hin as [? _].
  rewrite !unmarked_span by lia. lia.
Qed.

Lemma first_blk_succ k : 0 ≤ k → first_blk (k + 1) = (first_blk k + 1) / 2.
Proof. apply cdiv_succ. Qed.

Lemma end_blk_succ k : 0 ≤ k → end_blk (k + 1) = end_blk k / 2.
Proof. apply fdiv_succ. Qed.

Lemma first_blk_pos k : 0 ≤ k → 1 ≤ first_blk k.
Proof.
  intros Hk. enough (0 < first_blk k) by lia. unfold first_blk.
  rewrite cdiv_lt by done. lia.
Qed.

(** Below the two largest sizes the area is at least half of the heap. *)
Lemma area_wide k :
  0 ≤ k ≤ max - 2 → 2 * first_blk k ≤ end_blk k ∧ end_blk k < 2 ^ (max - k).
Proof.
  intros Hk. unfold first_blk, end_blk. pose proof (pow2_pos k ltac:(lia)).
  pose proof (cdiv_lt M k (2 ^ (max - 2 - k)) ltac:(lia)) as H1.
  rewrite <- (pow2_split (max - 2) k) in H1 by lia.
  pose proof (fdiv_le E k (2 * 2 ^ (max - 2 - k) - 1) ltac:(lia)) as H2.
  rewrite <- (pow2_succ (max - 2 - k)) in H2 by lia.
  replace (max - 2 - k + 1) with (max - 1 - k) in H2 by lia.
  rewrite Z.sub_add, <- (pow2_split (max - 1) k) in H2 by lia.
  pose proof (fdiv_le E k (2 ^ (max - k) - 1) ltac:(lia)) as H3.
  rewrite Z.sub_add, <- (pow2_split max k) in H3 by lia.
  pose proof (pow2_succ (max - 2 - k) ltac:(lia)) as H4.
  replace (max - 2 - k + 1) with (max - 1 - k) in H4 by lia. lia.
Qed.

Lemma area_top : first_blk (max - 1) = 1 ∧ end_blk (max - 1) = 1.
Proof.
  pose proof (first_blk_pos (max - 1) ltac:(lia)).
  pose proof (cdiv_lt M (max - 1) 1 ltac:(lia)) as H1.
  pose proof (fdiv_le E (max - 1) 1 ltac:(lia)) as H2.
  pose proof (fdiv_le E (max - 1) 0 ltac:(lia)) as H3.
  pose proof (pow2_succ (max - 1) ltac:(lia)) as H4. rewrite Z.sub_add in H4.
  pose proof (pow2_succ (max - 2) ltac:(lia)) as H5.
  replace (max - 2 + 1) with (max - 1) in H5 by lia.
  pose proof (pow2_pos (max - 2)). unfold first_blk, end_blk in *. lia.
Qed.

Lemma unmarked_size k i : 0 ≤ k ≤ max → unmarked (k, i) → k ≤ max - 2.
Proof.
  intros Hk Hu. destruct area_top as [Ht1 Ht2].
  assert (Hk' : k ≤ max - 2 ∨ k = max - 1 ∨ k = max) by lia.
  destruct Hk' as [|[->| ->]]; [done| |]; unfold unmarked in Hu; simpl in Hu; [lia|].
  replace max with (max - 1 + 1) in Hu by lia.
  rewrite first_blk_succ, end_blk_succ in Hu by lia. rewrite Ht1, Ht2 in Hu.
  change (1 / 2) with 0 in Hu. change ((1 + 1) / 2) with 1 in Hu. lia.
Qed.

(** The first and the last free block of size [k]. *)
Definition left_free (k : Z) : gset block :=
  if Z.odd (first_blk k) then {[(k, first_blk k)]} else ∅.
Definition right_free (k : Z) : gset block :=
  if Z.odd (end_blk k) then {[(k, end_blk k - 1)]} else ∅.

(** The free blocks of the [n] smallest sizes. *)
Fixpoint area_free (n : nat) : gset block :=
  match n with
  | O => ∅
  | S n' => right_free (Z.of_nat n') ∪ (left_free (Z.of_nat n') ∪ area_free n')
  end.

Lemma elem_of_left_free k b :
  b ∈ left_free k ↔ b = (k, first_blk k) ∧ Z.odd (first_blk k) = true.
Proof. unfold left_free. destruct (Z.odd _); set_solver. Qed.

Lemma elem_of_right_free k b :
  b ∈ right_free k ↔ b = (k, end_blk k - 1) ∧ Z.odd (end_blk k) = true.
Proof. unfold right_free. destruct (Z.odd _); set_solver. Qed.

Lemma elem_of_area_free n b :
  b ∈ area_free n ↔
  0 ≤ b.1 < Z.of_nat n ∧ (b ∈ left_free b.1 ∨ b ∈ right_free b.1).
Proof.
  induction n as [|n IH]; simpl.
  { split; [by intros ?%elem_of_empty|lia]. }
  rewrite !elem_of_union, IH. clear IH. split.
  - intros [H|[H|H]].
    + pose proof (proj1 (elem_of_right_free _ _) H) as [-> _]. simpl in *.
      split; [lia|by right].
    + pose proof (proj1 (elem_of_left_free _ _) H) as [-> _]. simpl in *.
      split; [lia|by left].
    + split; [lia|tauto].
  - intros [Hb H]. destruct (decide (b.1 = Z.of_nat n)) as [<-|]; [tauto|].
    right; right. split; [lia|done].
Qed.

(** Free are the blocks of the area whose parent is not in the area. *)
Lemma border_iff k i :
  0 ≤ k ≤ max - 2 →
  ((k, i) ∈ left_free k ∨ (k, i) ∈ right_free k) ↔
  unmarked (k, i) ∧ ¬ unmarked (k + 1, i / 2).
Proof.
  intros Hk. rewrite elem_of_left_free, elem_of_right_free.
  unfold unmarked; simpl. rewrite first_blk_succ, end_blk_succ by lia.
  pose proof (area_wide k Hk). pose proof (first_blk_pos k ltac:(lia)).
  rewrite !Zodd_mod, !Z.eqb_eq.
  set (L := first_blk k) in *. set (R := end_blk k) in *.
  split.
  - intros [[[=->] ?]|[[=->] ?]]; (split; [|]); Z.to_euclidean_division_equations; lia.
  - intros [H1 H2].
    assert (H3 : i / 2 < (L + 1) / 2 ∨ R / 2 ≤ i / 2) by lia.
    destruct H3; [left|right]; (split; [f_equal|]); Z.to_euclidean_division_equations; lia.
Qed.

Definition free_area : gset block := area_free (Z.to_nat (max - 1)).

Lemma elem_of_free_area k i :
  (k, i) ∈ free_area ↔ 0 ≤ k ≤ max - 2 ∧ unmarked (k, i) ∧ ¬ unmarked (k + 1, i / 2).
Proof.
  unfold free_area. rewrite elem_of_area_free. simpl. split.
  - intros [Hk H]. rewrite border_iff in H by lia. split; [lia|done].
  - intros [Hk H]. rewrite border_iff by lia. split; [lia|done].
Qed.

(** The reserved leaves: the allocator's data and what is past the end. *)
Definition reserved : gset block :=
  list_to_set ((λ i, (0, i)) <$> (seqZ 0 M ++ seqZ E (2 ^ max - E))).

Lemma elem_of_reserved b :
  b ∈ reserved ↔ b.1 = 0 ∧ (0 ≤ b.2 < M ∨ E ≤ b.2 < 2 ^ max).
Proof.
  unfold reserved. rewrite elem_of_list_to_set, list_elem_of_fmap.
  split.
  - intros (i & -> & Hi). rewrite elem_of_app, !elem_of_seqZ in Hi. simpl. lia.
  - intros [H1 H2]. exists b.2. split; [by destruct b; simpl in *; subst|].
    rewrite elem_of_app, !elem_of_seqZ. lia.
Qed.

Lemma reserved_marked b : b ∈ reserved → ¬ unmarked b.
Proof.
  intros [H1 H2]%elem_of_reserved H. rewrite unmarked_span in H by lia.
  rewrite H1 in H. lia.
Qed.

Lemma leaf_cases i :
  0 ≤ i < 2 ^ max → ((0, i) ∈ reserved ∨ unmarked (0, i)).
Proof.
  intros Hi. rewrite elem_of_reserved, unmarked_span by (simpl; lia). simpl. lia.
Qed.

Lemma unmarked_valid k i : 0 ≤ k ≤ max → unmarked (k, i) → valid max (k, i).
Proof.
  intros Hk H. pose proof (unmarked_size k i Hk H). split; simpl; [done|].
  pose proof (area_wide k ltac:(lia)). pose proof (first_blk_pos k ltac:(lia)).
  unfold unmarked in H; simpl in H. lia.
Qed.

(** Every block of the area lies in a free one. *)
Lemma unmarked_covered n k i :
  0 ≤ k → k + Z.of_nat n = max → unmarked (k, i) →
  ∃ b, b ∈ free_area ∧ inside (k, i) b.
Proof.
  revert k i. induction n as [|n IH]; intros k i Hk Hn Hu;
    pose proof (unmarked_size k i ltac:(lia) Hu); [lia|].
  assert (Hd : unmarked (k + 1, i / 2) ∨ ¬ unmarked (k + 1, i / 2)).
  { unfold unmarked. lia. }
  destruct Hd as [Hd|Hd].
  - destruct (IH (k + 1) (i / 2) ltac:(lia) ltac:(lia) Hd) as (b & Hb & Hin).
    exists b. split; [done|]. eapply inside_trans; [apply inside_parent|done].
  - exists (k, i). split; [|by apply inside_refl]. by apply elem_of_free_area.
Qed.

Lemma free_area_maximal b c :
  b ∈ free_area → strictly_inside b c → ¬ unmarked c.
Proof.
  destruct b as [k i]. intros (Hk & _ & Hp)%elem_of_free_area [Hlt Hin] Hc.
  apply Hp. eapply unmarked_inside; [simpl; lia| |done].
  destruct Hin as [H1 H2]. simpl in *. split; simpl; [lia|].
  rewrite <- H2. change 2 with (2 ^ 1) at 1. rewrite div_pow2_add by lia.
  do 2 f_equal. lia.
Qed.

Lemma area_apart b c :
  b ∈ free_area ∪ reserved → c ∈ free_area ∪ reserved → b ≠ c → ¬ inside b c.
Proof.
  intros Hb Hc Hne Hin.
  assert (Hs : strictly_inside b c).
  { split; [|done]. destruct Hin as [H1 H2].
    destruct (decide (b.1 = c.1)) as [E1|]; [|lia]. destruct Hne.
    rewrite E1, Z.sub_diag, Z.div_1_r in H2. destruct b, c; simpl in *; by subst. }
  apply elem_of_union in Hc as [Hc|Hc].
  - assert (Hu : unmarked c) by (destruct c; apply elem_of_free_area in Hc; tauto).
    apply elem_of_union in Hb as [Hb|Hb].
    + by apply (free_area_maximal b _ Hb ltac:(eassumption)).
    + eapply reserved_marked; [done|]. apply elem_of_reserved in Hb.
      eapply unmarked_inside; [lia|done|done].
  - destruct Hs as [Hlt _]. apply elem_of_reserved in Hc as [Hc _].
    apply elem_of_union in Hb as [Hb|Hb].
    + destruct b. apply elem_of_free_area in Hb. simpl in *. lia.
    + apply elem_of_reserved in Hb. lia.
Qed.

Lemma area_tiling : tiling max (free_area ∪ reserved).
Proof.
  split_and!.
  - intros [k i] [H|H]%elem_of_union.
    + apply elem_of_free_area in H. apply unmarked_valid; [lia|tauto].
    + apply elem_of_reserved in H as [H1 H2]. split; simpl in *; subst; [lia|].
      rewrite Z.sub_0_r. pose proof (pow2_succ (max - 2) ltac:(lia)).
      replace (max - 2 + 1) with (max - 1) in * by lia. lia.
  - intros b c Hb Hc Hne. split; by apply area_apart.
  - intros i Hi. destruct (leaf_cases i Hi) as [H|H].
    + exists (0, i). split; [set_solver|]. apply inside_refl. simpl. lia.
    + destruct (unmarked_covered (Z.to_nat max) 0 i) as (b & Hb & Hin);
        [lia|lia|done|]. exists b. split; [set_solver|done].
Qed.

Lemma area_disjoint : free_area ## reserved.
Proof.
  intros [k i] H1 H2. apply elem_of_free_area in H1 as (_ & H1 & _).
  by eapply reserved_marked.
Qed.

Lemma unmarked_pair k j :
  0 ≤ k → unmarked (k, 2 * j) → unmarked (k, 2 * j + 1) → unmarked (k + 1, j).
Proof.
  intros Hk. unfold unmarked; simpl. rewrite first_blk_succ, end_blk_succ by done.
  intros. Z.to_euclidean_division_equations. lia.
Qed.

Lemma half_even j : 2 * j / 2 = j.
Proof. rewrite Z.mul_comm, Z.div_mul; lia. Qed.

Lemma half_odd j : (2 * j + 1) / 2 = j.
Proof. symmetry. apply (Z.div_unique_pos _ _ _ 1); lia. Qed.

Lemma area_coalesced : coalesced max free_area.
Proof.
  intros k j Hk (? & H1 & H2)%elem_of_free_area (_ & H3 & _)%elem_of_free_area.
  rewrite half_even in H2. apply H2, unmarked_pair; [lia|done|done].
Qed.

(** What the two calls of [bd_mark] leave in the bit arrays. *)
Definition marked_bits (st : buddy) : Prop :=
  (∀ k j, 0 ≤ k < max → 0 ≤ j → 2 * j < 2 ^ (max - k) →
     xbit st k j = xorb (bool_decide (unmarked (k, 2 * j)))
                        (bool_decide (unmarked (k, 2 * j + 1)))) ∧
  (∀ k i, 1 ≤ k ≤ max → 0 ≤ i < 2 ^ (max - k) →
     sbit st k i = true ↔ ¬ unmarked (k, i)).

Lemma area_xor st : MAXSIZE st = max → marked_bits st → xor_bits st free_area.
Proof.
  intros Hst [Hx _] k j Hk Hj Hj2. rewrite Hst in *. rewrite Hx by done.
  destruct (decide (unmarked (k, 2 * j) ∧ unmarked (k, 2 * j + 1))) as [[H1 H2]|Hn].
  - pose proof (unmarked_pair k j ltac:(lia) H1 H2).
    rewrite !bool_decide_eq_true_2 by done.
    rewrite !bool_decide_eq_false_2; [done|..]; rewrite elem_of_free_area;
      rewrite ?half_even, ?half_odd; tauto.
  - assert (Hp : ¬ unmarked (k + 1, j)).
    { intros H. apply Hn. split; (eapply unmarked_inside; [simpl; lia| |exact H]).
      - pose proof (inside_child_l (k + 1) j) as Hc. by rewrite Z.add_simpl_r in Hc.
      - pose proof (inside_child_r (k + 1) j) as Hc. by rewrite Z.add_simpl_r in Hc. }
    f_equal; apply bool_decide_ext; rewrite elem_of_free_area, ?half_even, ?half_odd;
      (split; [intros H; pose proof (unmarked_size k _ ltac:(lia) H); split; [lia|done]|tauto]).
Qed.

Lemma area_split st :
  MAXSIZE st = max → marked_bits st → split_bits st (free_area ∪ reserved).
Proof.
  intros Hst [_ Hs] k i Hk Hi. rewrite Hst in *. rewrite Hs by done.
  pose proof (pow2_pos k ltac:(lia)) as Hp.
  assert (Hleaf : ∀ j, j / 2 ^ k = i → strictly_inside (0, j) (k, i)).
  { intros j Hj. split; [simpl; lia|]. split; simpl; [lia|]. by rewrite Z.sub_0_r. }
  split.
  - rewrite unmarked_span by (simpl; lia). simpl. intros H.
    destruct (decide (M ≤ i * 2 ^ k)).
    + exists (0, (i + 1) * 2 ^ k - 1). split.
      * apply elem_of_union_r, elem_of_reserved. simpl. split; [done|].
        rewrite (pow2_split max k) by lia. nia.
      * apply Hleaf. symmetry. apply (Z.div_unique_pos _ _ _ (2 ^ k - 1)); lia.
    + exists (0, i * 2 ^ k). split.
      * apply elem_of_union_r, elem_of_reserved. simpl. split; [done|]. nia.
      * apply Hleaf. by rewrite Z.div_mul by lia.
  - intros (b & [Hb|Hb]%elem_of_union & Hin) Hu.
    + by apply (free_area_maximal b _ Hb ltac:(eassumption)).
    + eapply reserved_marked; [done|]. destruct Hin as [_ Hin].
      apply elem_of_reserved in Hb. eapply unmarked_inside; [lia|done|done].
Qed.

(** ** Threading the free lists *)

Context (base : Z).
Hypothesis Hheads : 2 * (max + 1) ≤ M.

Lemma area_heads k :
  0 ≤ k ≤ max → ∃ r, r ∈ reserved ∧ in_region base r (freelist base k).
Proof.
  intros Hk. exists (0, 2 * k). split.
  - apply elem_of_reserved. simpl. lia.
  - unfold in_region, baddr, bsize, freelist, sizeof_group. simpl. lia.
Qed.

Lemma area_sep F : F ⊆ free_area → sep base max F.
Proof.
  intros HF. apply (tiling_sep base max (free_area ∪ reserved) reserved).
  - apply area_tiling.
  - set_solver +.
  - set_solver.
  - pose proof area_disjoint. set_solver.
  - apply area_heads.
Qed.

Lemma free_push_ok st k i F :
  buddy_base st = base → 0 ≤ k ≤ max → {[(k, i)]} ∪ F ⊆ free_area → (k, i) ∉ F →
  lists base max (mem st) F →
  ∃ m, free_push st k (baddr base (k, i)) = Ok (with_mem st m) ∧
    lists base max m ({[(k, i)]} ∪ F).
Proof.
  intros Hb Hk HF Hn Hl.
  destruct (lists_push base max (mem st) F k i) as (m & E' & Hl'); try done.
  { by apply area_sep. }
  exists m. split; [|done]. unfold free_push. by rewrite Hb, E'.
Qed.

Lemma left_pair_bit st k :
  0 ≤ k ≤ max - 2 → marked_bits st → xbit st k (first_blk k / 2) = Z.odd (first_blk k).
Proof.
  intros Hk [Hx _]. pose proof (area_wide k Hk). pose proof (first_blk_pos k ltac:(lia)).
  rewrite Hx; [|lia|apply Z.div_pos; lia|Z.to_euclidean_division_equations; lia].
  rewrite Zodd_mod. unfold unmarked; simpl. zcase.
  - rewrite bool_decide_eq_false_2, bool_decide_eq_true_2; [done|..];
      Z.to_euclidean_division_equations; lia.
  - rewrite !bool_decide_eq_true_2; [done|..]; Z.to_euclidean_division_equations; lia.
Qed.

Lemma right_pair_bit st k :
  0 ≤ k ≤ max - 2 → marked_bits st → xbit st k (end_blk k / 2) = Z.odd (end_blk k).
Proof.
  intros Hk [Hx _]. pose proof (area_wide k Hk). pose proof (first_blk_pos k ltac:(lia)).
  rewrite Hx; [|lia|apply Z.div_pos; lia|Z.to_euclidean_division_equations; lia].
  rewrite Zodd_mod. unfold unmarked; simpl. zcase.
  - rewrite bool_decide_eq_true_2, bool_decide_eq_false_2; [done|..];
      Z.to_euclidean_division_equations; lia.
  - rewrite !bool_decide_eq_false_2; [done|..]; Z.to_euclidean_division_equations; lia.
Qed.

Lemma BLK_SIZE_i32 k : 0 ≤ k ≤ max → i32 (BLK_SIZE k) = 16 * 2 ^ k.
Proof.
  intros Hk. rewrite BLK_SIZE_eq by lia. pose proof (pow2_pos k ltac:(lia)).
  assert (2 ^ k ≤ 2 ^ 26) by (apply Z.pow_le_mono_r; lia).
  rewrite i32_small; lia.
Qed.

(** A heap that is being threaded: [F] is on the lists so far. *)
Record threading (st : buddy) (F : gset block) : Prop := {
  th_base : buddy_base st = base;
  th_max : MAXSIZE st = max;
  th_wf : wf_groups st;
  th_bits : marked_bits st;
  th_lists : lists base max (mem st) F;
}.

Lemma threading_mem st m F G :
  threading st F → lists base max m G → threading (with_mem st m) G.
Proof. intros []. by split. Qed.

Lemma pair_left_ok st k F :
  threading st F → 0 ≤ k ≤ max - 2 → left_free k ∪ F ⊆ free_area → left_free k ## F →
  ∃ st', bd_initfree_pair_left st k (first_blk k) =
      Ok (if Z.odd (first_blk k) then 16 * 2 ^ k else 0, st') ∧
    threading st' (left_free k ∪ F).
Proof.
  intros Hth Hk HF Hd. pose proof Hth as [Hb Hm Hw Hbits Hl].
  pose proof (area_wide k Hk). pose proof (first_blk_pos k ltac:(lia)).
  unfold bd_initfree_pair_left. rewrite buddy_pair_index_eq by lia.
  rewrite xor_is_set_ok, left_pair_bit, bind_Ok; try done; rewrite ?Hm; try lia;
    [|apply Z.div_pos; lia|Z.to_euclidean_division_equations; lia].
  unfold left_free in *. destruct (Z.odd (first_blk k)).
  - rewrite Hb, (addr_baddr max) by (lia || (split; simpl; lia)).
    destruct (free_push_ok st k (first_blk k) F) as (m & -> & Hl'); [done|lia|done|set_solver|done|].
    simpl. rewrite BLK_SIZE_i32 by lia. eexists. split; [done|]. by eapply threading_mem.
  - exists st. split; [done|]. by rewrite union_empty_l_L.
Qed.

Lemma pair_right_ok st k F :
  threading st F → 0 ≤ k ≤ max - 2 → right_free k ∪ F ⊆ free_area → right_free k ## F →
  ∃ st', bd_initfree_pair_right st k (end_blk k) =
      Ok (if Z.odd (end_blk k) then 16 * 2 ^ k else 0, st') ∧
    threading st' (right_free k ∪ F).
Proof.
  intros Hth Hk HF Hd. pose proof Hth as [Hb Hm Hw Hbits Hl].
  pose proof (area_wide k Hk). pose proof (first_blk_pos k ltac:(lia)).
  unfold bd_initfree_pair_right. rewrite buddy_pair_index_eq by lia.
  rewrite xor_is_set_ok, right_pair_bit, bind_Ok; try done; rewrite ?Hm; try lia;
    [|apply Z.div_pos; lia|Z.to_euclidean_division_equations; lia].
  unfold right_free in *. destruct (Z.odd (end_blk k)) eqn:Eo.
  - rewrite Zodd_mod, Z.eqb_eq in Eo.
    replace (buddy_of (end_blk k)) with (end_blk k - 1).
    2: { destruct (buddy_of_cases (end_blk k)) as [[E1 E2]|[E1 E2]]; [lia| |lia].
         Z.to_euclidean_division_equations; lia. }
    rewrite Hb, (addr_baddr max) by (lia || (split; simpl; lia)).
    destruct (free_push_ok st k (end_blk k - 1) F) as (m & -> & Hl'); [done|lia|done|set_solver|done|].
    simpl. rewrite BLK_SIZE_i32 by lia. eexists. split; [done|]. by eapply threading_mem.
  - exists st. split; [done|]. by rewrite union_empty_l_L.
Qed.

(** The bytes freed when the sizes below [k] are done. *)
Definition freed (k : Z) : Z := 16 * (E - M - (end_blk k - first_blk k) * 2 ^ k).

Lemma freed_range k : 0 ≤ k ≤ max - 1 → 0 ≤ freed k ≤ 16 * 2 ^ max.
Proof.
  intros Hk. unfold freed. pose proof (pow2_pos k ltac:(lia)).
  pose proof (cdiv_lt M k (first_blk k) ltac:(lia)) as H1.
  pose proof (fdiv_le E k (end_blk k - 1) ltac:(lia)) as H2. rewrite Z.sub_add in H2.
  unfold first_blk, end_blk in *.
  assert (H3 : cdiv M k ≤ E / 2 ^ k).
  { destruct (decide (k = max - 1)) as [->|].
    - destruct area_top as [H3 H4]. unfold first_blk, end_blk in *. lia.
    - pose proof (area_wide k ltac:(lia)). unfold first_blk, end_blk in *.
      pose proof (first_blk_pos k ltac:(lia)). unfold first_blk in *. lia. }
  nia.
Qed.

Lemma freed_0 : freed 0 = 0.
Proof.
  unfold freed, first_blk, end_blk, cdiv. rewrite !Z.div_1_r. lia.
Qed.

Lemma freed_succ k :
  0 ≤ k →
  freed (k + 1) = freed k + (if Z.odd (first_blk k) then 16 * 2 ^ k else 0)
                          + (if Z.odd (end_blk k) then 16 * 2 ^ k else 0).
Proof.
  intros Hk. unfold freed. rewrite first_blk_succ, end_blk_succ, pow2_succ by done.
  pose proof (Zmod_odd (first_blk k)) as H1. pose proof (Zmod_odd (end_blk k)) as H2.
  pose proof (Z.div_mod (end_blk k) 2 ltac:(lia)) as H3.
  assert (H4 : 2 * ((first_blk k + 1) / 2) =
               first_blk k + (if Z.odd (first_blk k) then 1 else 0)).
  { destruct (Z.odd (first_blk k)); Z.to_euclidean_division_equations; lia. }
  rewrite H2 in H3. destruct (Z.odd (first_blk k)), (Z.odd (end_blk k)); nia.
Qed.

Lemma area_free_sub n : (n ≤ Z.to_nat (max - 1))%nat → area_free n ⊆ free_area.
Proof.
  intros Hn b. unfold free_area. rewrite !elem_of_area_free. intros [? ?].
  split; [lia|done].
Qed.

Lemma top_pair_left st F :
  threading st F → bd_initfree_pair_left st (max - 1) 1 = Ok (0, st).
Proof.
  intros [Hb Hm Hw [Hx _] _]. unfold bd_initfree_pair_left.
  change (buddy_pair_index 1) with 0.
  pose proof (pow2_pos (max - (max - 1)) ltac:(lia)).
  rewrite xor_is_set_ok; try done; rewrite ?Hm; try lia. rewrite bind_Ok, Hx by lia.
  destruct area_top as [H1 H2].
  rewrite !bool_decide_eq_false_2; [done|..]; unfold unmarked; simpl; lia.
Qed.

Lemma initfree_loop_ok n : ∀ st k,
  threading st (area_free (Z.to_nat k)) → 0 ≤ k ≤ max - 1 → k + Z.of_nat n = max →
  ∃ st', bd_initfree_loop n st k (base + 16 * M) (base + 16 * E) (freed k) =
      Ok (16 * (E - M), st') ∧ threading st' free_area.
Proof.
  assert (Hle : M ≤ 2 ^ max ∧ 2 ^ max ≤ 2 ^ 26).
  { split; [|apply Z.pow_le_mono_r; lia]. etrans; [apply HM|].
    apply Z.pow_le_mono_r; lia. }
  induction n as [|n IH]; intros st k Hth Hk Hn; [lia|]. cbn [bd_initfree_loop].
  pose proof (th_base _ _ Hth) as Hb. rewrite Hb.
  rewrite (blk_index_leaf max), (blk_index_next_leaf max) by lia.
  change (cdiv M k) with (first_blk k). change (E / 2 ^ k) with (end_blk k).
  pose proof (freed_range k Hk). destruct (decide (k = max - 1)) as [->|].
  - destruct area_top as [H1 H2]. rewrite H1, H2.
    rewrite (top_pair_left st _ Hth), bind_Ok. simpl.
    rewrite Z.add_0_r, i32_small by lia. assert (n = O) as -> by lia.
    exists st. split; [|done]. simpl. unfold freed. rewrite H1, H2.
    f_equal. f_equal. lia.
  - pose proof (area_wide k ltac:(lia)). pose proof (first_blk_pos k ltac:(lia)).
    pose proof (area_free_sub (S (Z.to_nat k)) ltac:(lia)) as Hsub.
    cbn [area_free] in Hsub. rewrite Z2Nat.id in Hsub by lia.
    assert (Hlow : ∀ b, b ∈ area_free (Z.to_nat k) → b.1 < k).
    { intros b [Hb' _]%elem_of_area_free. lia. }
    destruct (pair_left_ok st k (area_free (Z.to_nat k))) as (st1 & -> & Hth1);
      [done|lia|set_solver +Hsub| |].
    { intros b [-> _]%elem_of_left_free Hin. apply Hlow in Hin. simpl in Hin. lia. }
    rewrite bind_Ok. destruct (Z.leb_spec (end_blk k) (first_blk k)); [lia|].
    destruct (pair_right_ok st1 k (left_free k ∪ area_free (Z.to_nat k)))
      as (st2 & -> & Hth2); [done|lia|exact Hsub| |].
    { intros b [-> Ho]%elem_of_right_free [Hin|Hin]%elem_of_union.
      - apply elem_of_left_free in Hin as [[= Heq] Ho'].
        rewrite Zodd_mod, Z.eqb_eq in Ho, Ho'. Z.to_euclidean_division_equations; lia.
      - apply Hlow in Hin. simpl in Hin. lia. }
    rewrite bind_Ok. pose proof (freed_succ k ltac:(lia)) as Hf.
    pose proof (freed_range (k + 1) ltac:(lia)) as Hr. pose proof (pow2_pos k ltac:(lia)).
    rewrite (i32_small (freed k + _)) by
      (destruct (Z.odd (first_blk k)), (Z.odd (end_blk k)); lia).
    rewrite <- Hf, i32_small by lia. rewrite <- Hb.
    replace (buddy_base st) with base by done.
    apply IH; [|lia|lia]. replace (Z.to_nat (k + 1)) with (S (Z.to_nat k)) by lia.
    cbn [area_free]. by rewrite Z2Nat.id by lia.
Qed.

Lemma threading_inv st :
  0 < base → threading st free_area → inv st free_area ∅ reserved.
Proof.
  intros Hb0 [Hb Hm Hw Hbits Hl].
  assert (Hu : free_area ∪ ∅ ∪ reserved = free_area ∪ reserved) by set_solver +.
  split; rewrite ?Hu, ?Hm, ?Hb; try done; try lia.
  - apply area_tiling.
  - apply area_disjoint.
  - apply area_coalesced.
  - by apply area_xor.
  - by apply area_split.
  - apply area_heads.
Qed.

End area.

(** ** The state before marking *)

Lemma init_groups_ok xs ss (max : Z) :
  0 ≤ max → length xs = S (Z.to_nat max) → length ss = Z.to_nat max →
  (∀ j, (j < S (Z.to_nat max))%nat →
     xs !! j = Some (replicate (Z.to_nat (xor_bytes max (0 + Z.of_nat j))) 0)) →
  (∀ j, (j < Z.to_nat max)%nat →
     ss !! j = Some (replicate (Z.to_nat (split_bytes max (1 + Z.of_nat j))) 0)) →
  ∀ base m, let st := mk_buddy base (init_groups xs ss) m in
  MAXSIZE st = max ∧ wf_groups st ∧
  (∀ k j, xbit st k j = false) ∧ (∀ k i, sbit st k i = false).
Proof.
  intros Hm Hlx Hls Hx Hs base m st.
  assert (Hlen : length (init_groups xs ss) = S (Z.to_nat max)).
  { unfold init_groups. rewrite length_zip_with. simpl. lia. }
  assert (Hmax : MAXSIZE st = max).
  { unfold MAXSIZE, buddy_size_groups_count, zlen. simpl. lia. }
  assert (Hget : ∀ n g, init_groups xs ss !! n = Some g →
    (n < S (Z.to_nat max))%nat ∧
    pair_alloc_xor g = replicate (Z.to_nat (xor_bytes max (Z.of_nat n))) 0 ∧
    split g = match n with O => []
              | S _ => replicate (Z.to_nat (split_bytes max (Z.of_nat n))) 0 end).
  { intros n g Hg. pose proof (lookup_lt_Some _ _ _ Hg) as Hn. rewrite Hlen in Hn.
    split; [done|]. apply lookup_zip_with_Some in Hg as (x & s & -> & H1 & H2).
    rewrite Hx in H1 by done. injection H1 as <-. split; [done|].
    destruct n as [|n]; [by injection H2 as <-|].
    cbn [lookup list_lookup] in H2. simpl in H2.
    rewrite Hs in H2 by lia. injection H2 as <-. simpl. do 3 f_equal. lia. }
  split; [done|]. split; [|split].
  - split; [lia|]. rewrite Hmax. intros k Hk.
    destruct (lookup_lt_is_Some_2 (init_groups xs ss) (Z.to_nat k)) as [g Hg];
      [lia|]. exists g. split; [done|]. apply Hget in Hg as (_ & Hgx & Hgs).
    rewrite Z2Nat.id in Hgx by lia.
    destruct (xor_bytes_bounds max k ltac:(lia)).
    destruct (split_bytes_bounds max k ltac:(lia)).
    unfold nbits, zlen. rewrite Hgx, length_replicate. split; [lia|].
    intros Hk1. rewrite Hgs. destruct (Z.to_nat k) eqn:Ek; [lia|].
    rewrite <- Ek, Z2Nat.id, length_replicate by lia. lia.
  - intros k j. unfold xbit. simpl. destruct (init_groups xs ss !! _) as [g|] eqn:Hg;
      [|done]. apply Hget in Hg as (_ & -> & _). apply bit_zero.
  - intros k i. unfold sbit. simpl. destruct (init_groups xs ss !! _) as [g|] eqn:Hg;
      [|done]. apply Hget in Hg as (_ & _ & ->). destruct (Z.to_nat k); [|apply bit_zero].
    apply (bit_zero 0).
Qed.

(** Marking the allocator's data and the memory past the end. *)
Lemma marks_ok st max M E :
  2 ≤ max ≤ 26 → 0 < M ≤ 2 ^ (max - 2) → 2 ^ (max - 1) < E < 2 ^ max →
  MAXSIZE st = max → wf_groups st → buddy_base st mod 16 = 0 →
  (∀ k j, xbit st k j = false) → (∀ k i, sbit st k i = false) →
  let base := buddy_base st in
  ∃ st1 st2, bd_mark st base (base + 16 * M) = Ok st1 ∧
    bd_mark st1 (base + 16 * E) (base + 16 * 2 ^ max) = Ok st2 ∧
    buddy_base st1 = base ∧ MAXSIZE st1 = max ∧
    buddy_base st2 = base ∧ mem st2 = mem st ∧ MAXSIZE st2 = max ∧ wf_groups st2 ∧
    marked_bits max M E st2.
Proof.
  intros Hmax HM HE Hm Hw Hal Hx0 Hs0 base.
  assert (M ≤ 2 ^ max).
  { etrans; [apply HM|]. apply Z.pow_le_mono_r; lia. }
  destruct (bd_mark_ok st 0 M) as (st1 & E1 & [Hb1 Hme1 Hm1 Hw1 HX1 HS1]);
    try done; try lia; try (by rewrite Hm).
  rewrite Z.mul_0_r, Z.add_0_r in E1.
  destruct (bd_mark_ok st1 E (2 ^ max)) as (st2 & E2 & [Hb2 Hme2 Hm2 Hw2 HX2 HS2]);
    try done; try lia; try (by rewrite Hb1); try (by rewrite Hm1, Hm).
  rewrite Hb1 in E2. exists st1, st2. rewrite Hm2, Hm1, Hm, Hb2, Hb1.
  split_and!; try done; [congruence|].
  rewrite Hm1, Hm in HX2, HS2. rewrite Hm in HX1, HS1.
  assert (Htop : ∀ k, 0 ≤ k ≤ max → cdiv (2 ^ max) k = 2 ^ (max - k)).
  { intros k Hk. pose proof (pow2_pos k ltac:(lia)). unfold cdiv.
    rewrite (pow2_split max k) at 1 by lia. symmetry.
    apply (Z.div_unique_pos _ _ _ (2 ^ k - 1)); lia. }
  split.
  - intros k j Hk Hj Hj2. rewrite HX2 by lia.
    replace (in_rng 0 (max + 1) k) with true by (symmetry; apply in_rng_true; lia).
    unfold mark_x. rewrite HX1 by lia.
    replace (in_rng 0 (max + 1) k) with true by (symmetry; apply in_rng_true; lia).
    unfold mark_x. rewrite Hx0, Htop, Z.div_0_l by lia.
    assert (Hw' : cdiv M k ≤ E / 2 ^ k).
    { destruct (decide (k = max - 1)) as [->|].
      - destruct (area_top max M E ltac:(lia) HM HE) as [H3 H4].
        unfold first_blk, end_blk in *. lia.
      - destruct (area_wide max M E ltac:(lia) HM HE k ltac:(lia)).
        pose proof (first_blk_pos max M HM k ltac:(lia)).
        unfold first_blk, end_blk in *. lia. }
    rewrite (pow2_split max k) in HE by lia.
    pose proof (pow2_succ (max - k - 1) ltac:(lia)) as Hev.
    replace (max - k - 1 + 1) with (max - k) in Hev by lia.
    assert (Hneg : ∀ i, 0 ≤ i < 2 ^ (max - k) →
      bool_decide (unmarked M E (k, i)) =
      negb (xorb (in_rng 0 (cdiv M k) i) (in_rng (E / 2 ^ k) (2 ^ (max - k)) i))).
    { intros i Hi. unfold unmarked, first_blk, end_blk, in_rng. simpl.
      case_bool_decide; repeat zcase; simpl; try done; lia. }
    rewrite !Hneg by lia.
    by destruct (in_rng _ _ _), (in_rng _ _ _), (in_rng _ _ _), (in_rng _ _ _).
  - intros k i Hk Hi. rewrite HS2 by lia.
    replace (in_rng 0 (max + 1) k) with true by (symmetry; apply in_rng_true; lia).
    unfold mark_s. rewrite HS1 by lia.
    replace (in_rng 0 (max + 1) k) with true by (symmetry; apply in_rng_true; lia).
    unfold mark_s. rewrite Hs0, Htop, Z.div_0_l by lia.
    unfold unmarked, first_blk, end_blk. simpl.
    rewrite !orb_true_iff, !andb_true_iff, !in_rng_true, !Z.ltb_lt. simpl. lia.
Qed.

(** ** [buddy_init] *)

Lemma pow2_linear n : 7 ≤ n → 16 * n ≤ 2 ^ n.
Proof.
  intros Hn. replace n with (7 + Z.of_nat (Z.to_nat (n - 7))) by lia.
  induction (Z.to_nat (n - 7)) as [|m IH]; [done|].
  replace (7 + Z.of_nat (S m)) with (7 + Z.of_nat m + 1) by lia.
  rewrite pow2_succ by lia. lia.
Qed.

(** The metadata takes at most a quarter of the heap. *)
Lemma metadata_bound b max p1 p2 :
  7 ≤ max →
  16 * (p1 - (b + sizeof_group * (max + 1))) ≤ 2 ^ (max + 1) + 16 * (max + 1) →
  8 * (p2 - p1) ≤ 2 ^ max + 8 * max →
  b + sizeof_group * (max + 1) ≤ p1 ≤ p2 →
  b mod 16 = 0 →
  ∃ M, ROUNDUP p2 LEAF_SIZE = b + 16 * M ∧ 2 * (max + 1) ≤ M ≤ 2 ^ (max - 2).
Proof.
  intros Hmax H1 H2 H3 Hb. destruct (ROUNDUP_bounds p2 LEAF_SIZE) as [H4 H5];
    [unfold LEAF_SIZE; lia|]. unfold LEAF_SIZE, sizeof_group in *.
  pose proof (Z.div_mod (ROUNDUP p2 16) 16 ltac:(lia)).
  pose proof (Z.div_mod b 16 ltac:(lia)).
  exists (ROUNDUP p2 16 / 16 - b / 16). split; [lia|].
  pose proof (pow2_linear max Hmax). rewrite pow2_succ in H1 by lia.
  pose proof (pow2_split max 2 ltac:(lia)) as Hq. change (2 ^ 2) with 4 in Hq. lia.
Qed.

Lemma init_size E :
  64 < E < 2 ^ 26 → 2 ^ Z.log2 E < E →
  2 ^ Z.log2 E < E < 2 ^ (Z.log2 E + 1) ∧ 6 ≤ Z.log2 E ≤ 25.
Proof.
  intros HE Hne. pose proof (Z.log2_spec E ltac:(lia)) as [_ H].
  split; [done|]. split.
  - apply Z.log2_le_pow2; lia.
  - enough (Z.log2 E < 26) by lia. apply Z.log2_lt_pow2; lia.
Qed.

(** From the laid-out heap on: marking, threading and the final check. *)
Lemma init_finish st max M E end_ :
  2 ≤ max ≤ 26 → 2 * (max + 1) ≤ M ≤ 2 ^ (max - 2) → 2 ^ (max - 1) < E < 2 ^ max →
  MAXSIZE st = max → wf_groups st → 0 < buddy_base st → buddy_base st mod 16 = 0 →
  (∀ k j, xbit st k j = false) → (∀ k i, sbit st k i = false) →
  (∀ k, 0 ≤ k ≤ max → dll (mem st) (freelist (buddy_base st) k) []) →
  let b := buddy_base st in
  end_ = b + 16 * E →
  ∃ st',
    ('(meta, st) ← bd_mark_data_structures st (b + 16 * M);
     '(unavailable, st) ← bd_mark_unavailable st end_ (b + 16 * M);
     let bd_end := b + BLK_SIZE max - unavailable in
     '(free, st) ← bd_initfree st (b + 16 * M) bd_end;
     if negb (free =? BLK_SIZE max - meta - unavailable)
     then Panic "bd_init: free mem" else Ok st) = Ok st' ∧
    inv st' (free_area max M E) ∅ (reserved max M E) ∧
    buddy_base st' = b ∧ MAXSIZE st' = max.
Proof.
  intros Hmx HM HE' Hmax Hwf Hb0 Hal Hx0 Hs0 Hl0 b Hend.
  destruct (marks_ok st max M E)
    as (st1 & st2 & E1 & E2 & Hb1 & Hm1 & Hb2 & Hme2 & Hm2 & Hw2 & Hmk);
    [lia|lia|done|done|done|done|done|done|]. fold b in E1, E2, Hb1, Hb2.
  assert (H26 : 2 ^ max ≤ 2 ^ 26) by (apply Z.pow_le_mono_r; lia).
  assert (HM2 : 2 ^ (max - 2) ≤ 2 ^ max) by (apply Z.pow_le_mono_r; lia).
  unfold bd_mark_data_structures, bd_mark_unavailable. fold b.
  rewrite E1, !bind_Ok, Hb1, Hm1. rewrite BLK_SIZE_eq by lia.
  replace (2 ^ max * 16 - (end_ - b)) with (16 * (2 ^ max - E)) by lia.
  rewrite !i32_small by lia. cbn zeta.
  destruct (Z.ltb_spec 0 (16 * (2 ^ max - E))); [|lia]. unfold LEAF_SIZE.
  rewrite ROUNDUP_aligned; [|lia|rewrite (Z.mul_comm 16); by apply Z.mod_mul].
  rewrite i32_small by lia.
  replace (b + 2 ^ max * 16 - 16 * (2 ^ max - E)) with (b + 16 * E) by lia.
  replace (b + 2 ^ max * 16) with (b + 16 * 2 ^ max) by lia.
  rewrite E2, !bind_Ok. unfold bd_initfree. rewrite Hm2.
  replace (b + 16 * 2 ^ max - 16 * (2 ^ max - E)) with (b + 16 * E) by lia.
  assert (Hth : threading max M E b st2 (area_free M E (Z.to_nat 0))).
  { split; try done. rewrite Hme2. intros k Hk. exists [].
    split; [by apply Hl0|set_solver]. }
  destruct (initfree_loop_ok max M E ltac:(lia) ltac:(lia) HE' b ltac:(lia)
    (Z.to_nat max) st2 0 Hth ltac:(lia) ltac:(lia)) as (st3 & E3 & Hth3).
  rewrite (freed_0 max) in E3. rewrite E3, bind_Ok.
  destruct (Z.eqb_spec (16 * (E - M))
    (2 ^ max * 16 - (b + 16 * M - b) - 16 * (2 ^ max - E))); [|lia].
  exists st3. split; [done|]. split; [|by destruct Hth3].
  by apply (threading_inv max M E ltac:(lia) ltac:(lia) HE' b ltac:(lia)).
Qed.

(** The conditions under which [buddy_init] is called: a leaf-aligned end and,
    from the first leaf on, between 1 KiB and 1 GiB of memory whose number of
    leaves is not a power of two. *)
Definition init_pre (base end_ : Z) : Prop :=
  0 < base ∧ end_ mod LEAF_SIZE = 0 ∧
  let E := (end_ - ROUNDUP base LEAF_SIZE) / LEAF_SIZE in
  64 < E < 2 ^ 26 ∧ 2 ^ Z.log2 E < E.

Lemma buddy_init_ok base end_ :
  init_pre base end_ →
  ∃ st max M E,
    buddy_init base end_ = Ok st ∧
    inv st (free_area max M E) ∅ (reserved max M E) ∧
    buddy_base st = ROUNDUP base LEAF_SIZE ∧ MAXSIZE st = max ∧
    end_ = buddy_base st + 16 * E ∧ 2 * (max + 1) ≤ M ≤ 2 ^ (max - 2) ∧
    7 ≤ max ≤ 26 ∧ 2 ^ (max - 1) < E < 2 ^ max.
Proof.
  intros (Hbase & Hend & HE64 & Hne). unfold LEAF_SIZE in Hend, HE64, Hne.
  destruct (ROUNDUP_bounds base LEAF_SIZE) as [Hr Hral]; [unfold LEAF_SIZE; lia|].
  unfold LEAF_SIZE in Hr, Hral.
  set (b := ROUNDUP base 16) in *. set (E := (end_ - b) / 16) in *.
  assert (Hend' : end_ = b + 16 * E).
  { pose proof (Z.div_mod end_ 16 ltac:(lia)). pose proof (Z.div_mod b 16 ltac:(lia)).
    subst E. Z.to_euclidean_division_equations. lia. }
  destruct (init_size E HE64 Hne) as [HE Hlog]. set (max := Z.log2 E + 1) in *.
  unfold buddy_init, LEAF_SIZE. fold b.
  rewrite quot_nonneg by lia. fold E.
  rewrite u64_small by lia. rewrite log2_ok by lia. rewrite bind_Ok.
  rewrite BLK_SIZE_eq by lia. replace (Z.log2 E + 1 - 1) with (Z.log2 E) by lia.
  destruct (Z.ltb_spec (2 ^ Z.log2 E * 16) (end_ - b)); [|lia]. cbn zeta.
  replace (Z.log2 E + 1 + 1 - 1) with max by lia.
  replace (Z.log2 E + 1 + 1) with (max + 1) by lia.
  destruct (init_xor (Z.to_nat (max + 1)) b max 0 (b + sizeof_group * (max + 1)) ∅)
    as [[xs p1] m1] eqn:Ex.
  apply init_xor_ok in Ex as (Hlx & Hx & _ & Hp1 & Hbx); [|lia|lia].
  destruct (init_split (Z.to_nat max) max 1 p1) as [ss p2] eqn:Es.
  apply init_split_ok in Es as (Hls & Hs & Hp2 & Hbs); [|lia].
  replace (max - 0 + 1) with (max + 1) in Hbx by lia.
  replace (max - 1 + 1) with max in Hbs by lia.
  destruct (metadata_bound b max p1 p2) as (M & EM & HM); [lia|lia|lia|lia|done|].
  unfold LEAF_SIZE in EM. rewrite EM.
  destruct (init_groups_ok xs ss max) with (base := b) (m := m1)
    as (Hmax & Hwf & Hx0 & Hs0); [lia|lia|lia| |done|].
  { intros j Hj. apply Hx. lia. }
  assert (HE' : 2 ^ (max - 1) < E < 2 ^ max).
  { by replace (max - 1) with (Z.log2 E) by lia. }
  destruct (init_finish (mk_buddy b (init_groups xs ss) m1) max M E end_)
    as (st & Est & Hinv & Hbst & Hmst);
    [lia|lia|done|done|done|simpl; lia|done|done|done| |done|].
  { intros k Hk. destruct (Hx (Z.to_nat k) ltac:(lia)) as [_ Hd].
    by replace (0 + Z.of_nat (Z.to_nat k)) with k in Hd by lia. }
  simpl in Hbst. exists st, max, M, E.
  split_and!; try done; try lia; rewrite Hbst; done.
Qed.
