(* ===== verification/BuddyThm.v ===== *)
(** * What the buddy allocator guarantees.

    Consequences of the invariant for the callers of [kernel/alloc/buddy.c]:
    allocation fails only when every block of the requested size is in use,
    the free blocks are a function of the blocks in use, and no sequence of
    calls panics, faults or loops. *)

From S2P Require Import Prelude.
From S2P Require Import Bits.
From S2P Require Import LinkedList.
From S2P Require Import Buddy.
From S2P Require Import BuddyInv.
From S2P Require Import BuddyProof.
From S2P Require Import BuddySpec.
From S2P Require Import BuddyInit.
From S2P Require Import BuddyBoot.

(** ** Maximality of the free blocks *)

Lemma apart_children_l D c k j :
  0 ≤ k → D = (k + 1, j) → apart D c → apart (k, 2 * j) c ∧ apart (k, 2 * j + 1) c.
Proof.
  intros Hk -> Ha.
  pose proof (inside_child_l (k + 1) j) as H1. pose proof (inside_child_r (k + 1) j) as H2.
  rewrite Z.add_simpl_r in H1, H2.
  split; apply apart_sym; (eapply apart_inside; [|by apply apart_sym|done]); simpl; lia.
Qed.

(** Between a block and its child there is no third block. *)
Lemma between_child k j b c :
  c ≠ (k + 1, j) → inside b c → inside c (k + 1, j) → b.1 = k → c = b.
Proof.
  destruct c as [kc ic]. intros Hne [Hb1 Hb2] [Hc1 Hc2] Hbk. simpl in *. rewrite Hbk in *.
  destruct (decide (kc = k + 1)) as [->|].
  - destruct Hne. rewrite Z.sub_diag, Z.div_1_r in Hc2. by subst.
  - assert (kc = k) as -> by lia. rewrite Z.sub_diag, Z.div_1_r in Hb2.
    destruct b; simpl in *; by subst.
Qed.

(** A block clear of everything in use lies in a free block. *)
Lemma clear_inside_free st F A R :
  inv st F A R → ∀ n D, D.1 = Z.of_nat n → valid (MAXSIZE st) D →
  (∀ c, c ∈ A ∪ R → apart D c) → ∃ f, f ∈ F ∧ inside D f.
Proof.
  intros Hinv. pose proof (i_tiling _ _ _ _ Hinv) as (Hv & Hap & Hcov).
  induction n as [|n IH]; intros [k j] Hn Hval Hclear; simpl in Hn; subst k.
  - destruct Hval as [Hv1 Hv2]. simpl in Hv2. rewrite Z.sub_0_r in Hv2.
    destruct (Hcov j Hv2) as (b & Hb & Hin). exists b. split; [|done].
    destruct (decide (b ∈ A ∪ R)) as [Hu|]; [|set_solver].
    by destruct (Hclear b Hu).
  - replace (Z.of_nat (S n)) with (Z.of_nat n + 1) in * by lia.
    pose proof Hval as [Hv1 Hv2]. simpl in Hv1, Hv2.
    pose proof (inside_child_l (Z.of_nat n + 1) j) as H1.
    pose proof (inside_child_r (Z.of_nat n + 1) j) as H2.
    rewrite Z.add_simpl_r in H1, H2.
    assert (Hch : ∀ c, c ∈ A ∪ R →
      apart (Z.of_nat n, 2 * j) c ∧ apart (Z.of_nat n, 2 * j + 1) c).
    { intros c Hc. eapply apart_children_l; [lia|done|by apply Hclear]. }
    destruct (valid_children (MAXSIZE st) (Z.of_nat n + 1) j) as [Hvl Hvr]; [lia|done|].
    rewrite Z.add_simpl_r in Hvl, Hvr.
    destruct (IH (Z.of_nat n, 2 * j)) as (f & Hf & Hfin); [done|done|apply Hch|].
    destruct (IH (Z.of_nat n, 2 * j + 1)) as (g & Hg & Hgin); [done|done|apply Hch|].
    destruct (inside_linear _ _ _ Hfin H1) as [Hl|Hl]; [|by exists f].
    destruct (inside_linear _ _ _ Hgin H2) as [Hr|Hr]; [|by exists g].
    destruct (decide (f = (Z.of_nat n + 1, j))) as [->|Hfne];
      [exists (Z.of_nat n + 1, j); split; [done|]; apply inside_refl; simpl; lia|].
    destruct (decide (g = (Z.of_nat n + 1, j))) as [->|Hgne];
      [exists (Z.of_nat n + 1, j); split; [done|]; apply inside_refl; simpl; lia|].
    apply (between_child _ _ _ _ Hfne Hfin) in Hl; [|done].
    apply (between_child _ _ _ _ Hgne Hgin) in Hr; [|done].
    subst. exfalso. apply (i_coalesced _ _ _ _ Hinv (Z.of_nat n) j); [lia|done|done].
Qed.

Lemma free_clear st F A R f c :
  inv st F A R → f ∈ F → c ∈ A ∪ R → apart f c.
Proof.
  intros Hinv Hf Hc. apply (inv_apart _ _ _ _ Hinv); [set_solver|set_solver|].
  intros ->. pose proof (i_FA _ _ _ _ Hinv). pose proof (i_FR _ _ _ _ Hinv). set_solver.
Qed.

Lemma free_determined_sub st st' F F' A R :
  inv st F A R → inv st' F' A R → MAXSIZE st = MAXSIZE st' → F ⊆ F'.
Proof.
  intros Hinv Hinv' Hm f Hf.
  assert (Hvf : valid (MAXSIZE st) f) by (apply (inv_valid _ _ _ _ Hinv); set_solver +Hf).
  destruct (clear_inside_free _ _ _ _ Hinv' (Z.to_nat f.1) f) as (f' & Hf' & Hin);
    [destruct Hvf; lia|by rewrite <- Hm|intros; by eapply (free_clear st)|].
  assert (Hvf' : valid (MAXSIZE st') f') by (apply (inv_valid _ _ _ _ Hinv'); set_solver +Hf').
  destruct (clear_inside_free _ _ _ _ Hinv (Z.to_nat f'.1) f') as (f2 & Hf2 & Hin2);
    [destruct Hvf'; lia|by rewrite Hm|intros; by eapply (free_clear st')|].
  assert (f = f2) as <-.
  { destruct (decide (f = f2)) as [|Hne]; [done|]. exfalso.
    destruct (inv_apart _ _ _ _ Hinv f f2) as [Hn _]; [set_solver +Hf|set_solver +Hf2|done|].
    apply Hn. by eapply inside_trans. }
  by rewrite (inside_antisym _ _ Hin Hin2).
Qed.

Lemma free_determined st st' F F' A R :
  inv st F A R → inv st' F' A R → MAXSIZE st = MAXSIZE st' → F = F'.
Proof.
  intros H1 H2 Hm. apply set_eq. intros b. split.
  - by apply (free_determined_sub st st' _ _ A R).
  - by apply (free_determined_sub st' st _ _ A R).
Qed.

(** ** Allocation *)

(** Two blocks share no byte. *)
Definition no_overlap (base : Z) (b c : block) : Prop :=
  ∀ a, in_region base b a → in_region base c a → False.

Lemma inv_no_overlap st F A R b c :
  inv st F A R → b ∈ F ∪ A ∪ R → c ∈ F ∪ A ∪ R → b ≠ c → no_overlap (buddy_base st) b c.
Proof.
  intros Hinv Hb Hc Hne a.
  destruct (inv_valid _ _ _ _ Hinv b Hb) as [? _]. destruct (inv_valid _ _ _ _ Hinv c Hc) as [? _].
  apply apart_regions; [lia|lia|]. by apply (inv_apart _ _ _ _ Hinv).
Qed.

Lemma not_apart_overlap base b c :
  0 ≤ b.1 → 0 ≤ c.1 → ¬ apart b c → ¬ no_overlap base b c.
Proof.
  intros Hb Hc Hn Hno. destruct (decide (inside b c)) as [Hin|].
  - apply (Hno (baddr base b)); [by apply baddr_in_region|].
    apply (inside_region base b c); [done|done|by apply baddr_in_region].
  - destruct (decide (inside c b)) as [Hin|]; [|by destruct Hn].
    apply (Hno (baddr base c)); [|by apply baddr_in_region].
    apply (inside_region base c b); [done|done|by apply baddr_in_region].
Qed.

(** C1: asked for at most 2^63 bytes, [buddy_malloc] returns. Either it hands out a
    block that is large enough (and no larger than it must be), lies in the heap
    and overlaps no block handed out before or reserved, or it returns 0, leaves
    the state as it was, and every block of the heap that would be large enough
    overlaps one that is in use. (Asked for more than 2^63 bytes it never returns:
    [buddy_malloc_huge].) *)
Theorem buddy_malloc_correct (st : buddy) (F A R : gset block) (n : Z) :
  inv st F A R → n ≤ 2 ^ 63 →
  ∃ p st', buddy_malloc st n = Ok (p, st') ∧
    ((p = 0 ∧ st' = st ∧
      ∀ b, valid (MAXSIZE st) b → n ≤ bsize b →
        ∃ c, c ∈ A ∪ R ∧ ¬ no_overlap (buddy_base st) b c) ∨
     (∃ b F', p = baddr (buddy_base st) b ∧ p ≠ 0 ∧ valid (MAXSIZE st) b ∧
        n ≤ bsize b ∧ (LEAF_SIZE < bsize b → bsize b < 2 * n) ∧
        (∀ c, c ∈ A ∪ R → no_overlap (buddy_base st) b c) ∧
        inv st' F' ({[b]} ∪ A) R)).
Proof.
  intros Hinv Hn.
  destruct (buddy_malloc_ok st F A R n Hinv Hn) as (k & (Hk & Hlo & Hhi) & [[E Hfull]|H]).
  - exists 0, st. split; [done|]. left. split_and!; [done|done|]. intros b Hv Hsz.
    destruct (decide (set_Exists (λ c, ¬ apart b c) (A ∪ R))) as [(c & Hc & Hna)|Hno].
    { exists c. split; [done|]. destruct (inv_valid _ _ _ _ Hinv c) as [? _];
        [set_solver +Hc|]. apply not_apart_overlap; [destruct Hv; lia|lia|done]. }
    destruct (clear_inside_free st F A R Hinv (Z.to_nat b.1) b) as ([kf jf] & Hf & Hin);
      [destruct Hv; lia|done| |].
    + intros c Hc. apply dec_stable. intros Hna. apply Hno. by exists c.
    + exfalso. apply (Hfull kf jf); [|done]. destruct Hin as [Hin _]. simpl in Hin.
      destruct Hv as [Hv _]. unfold bsize in Hsz.
      destruct (decide (k ≤ b.1)) as [|Hlt]; [lia|]. specialize (Hhi ltac:(lia)).
      assert (2 ^ b.1 ≤ 2 ^ (k - 1)) by (apply Z.pow_le_mono_r; lia). lia.
  - destruct H as (i & st' & F' & E & Hni & Hinv' & Hb & Hm).
    exists (baddr (buddy_base st) (k, i)), st'. split; [done|]. right.
    assert (Hv : valid (MAXSIZE st') (k, i)) by (apply (inv_valid _ _ _ _ Hinv'); set_solver +).
    exists (k, i), F'. rewrite Hm in Hv. split_and!; try done.
    + pose proof (i_base _ _ _ _ Hinv). pose proof (valid_offset _ _ Hv).
      unfold baddr. lia.
    + unfold bsize, LEAF_SIZE; simpl. intros Hbig. destruct (decide (k = 0)) as [->|]; [lia|].
      rewrite (pow2_split k 1) in * by lia. rewrite Z.pow_1_r in *. lia.
    + intros c Hc. rewrite <- Hb. apply (inv_no_overlap _ _ _ _ _ _ Hinv');
        [set_solver +|set_solver +Hc|]. intros <-.
      pose proof (i_AR _ _ _ _ Hinv' (k, i)). set_solver.
Qed.

(** ** Release *)

Lemma apart_no_leaf b c l : apart b c → inside l b → inside l c → False.
Proof. intros [H1 H2] Hb Hc. by destruct (inside_linear _ _ _ Hb Hc). Qed.

Lemma leaf_owner st F A R i :
  inv st F A R → 0 ≤ i < 2 ^ MAXSIZE st →
  ∃ c, (c ∈ F ∨ c ∈ A ∪ R) ∧ inside (0, i) c.
Proof.
  intros Hinv Hi. destruct (i_tiling _ _ _ _ Hinv) as (_ & _ & Hcov).
  destruct (Hcov i Hi) as (c & Hc & Hic). exists c. split; [set_solver +Hc|done].
Qed.

(** A leaf is free exactly when no block in use has it. *)
Lemma free_leaf_iff st F A R i :
  inv st F A R → 0 ≤ i < 2 ^ MAXSIZE st →
  (∃ f, f ∈ F ∧ inside (0, i) f) ↔ ¬ ∃ c, c ∈ A ∪ R ∧ inside (0, i) c.
Proof.
  intros Hinv Hi. split.
  - intros (f & Hf & Hif) (c & Hc & Hic).
    by eapply apart_no_leaf; [eapply (free_clear st F A R)|exact Hif|exact Hic].
  - intros Hn. destruct (leaf_owner _ _ _ _ _ Hinv Hi) as (c & [Hc|Hc] & Hic); [eauto|].
    destruct Hn. eauto.
Qed.

(** C2: [buddy_free] of a block that was handed out finds the size it was
    handed out with and returns; exactly that block stops being in use, and the
    bytes of the free blocks afterwards are those that were free before and
    those of the block. *)
Theorem buddy_free_correct (st : buddy) (F A R : gset block) (b : block) :
  inv st F A R → b ∈ A →
  ∃ st' F', bd_size st (baddr (buddy_base st) b) = Ok b.1 ∧
    buddy_free st (baddr (buddy_base st) b) = Ok st' ∧
    inv st' F' (A ∖ {[b]}) R ∧
    ∀ i, 0 ≤ i < 2 ^ MAXSIZE st →
      (∃ f, f ∈ F' ∧ inside (0, i) f) ↔ inside (0, i) b ∨ ∃ f, f ∈ F ∧ inside (0, i) f.
Proof.
  destruct b as [k j]. intros Hinv Hb.
  destruct (buddy_free_ok _ _ _ _ _ _ Hinv Hb) as (st' & F' & E & Hinv' & Hbase & Hm).
  exists st', F'. split; [by apply (bd_size_ok st F A R)|]. split_and!; try done.
  intros i Hi. rewrite (free_leaf_iff st' F' _ R) by (rewrite ?Hm; done). split.
  - intros Hn. destruct (leaf_owner _ _ _ _ _ Hinv Hi) as (c & [Hc|Hc] & Hic); [by eauto|].
    destruct (decide (c = (k, j))) as [->|]; [by left|].
    destruct Hn. exists c. set_solver.
  - intros Hold (c & Hc & Hic). destruct Hold as [Hib|(f & Hf & Hif)].
    + eapply apart_no_leaf; [|exact Hic|exact Hib].
      pose proof (i_AR _ _ _ _ Hinv). apply (inv_apart _ _ _ _ Hinv); set_solver.
    + eapply apart_no_leaf; [|exact Hif|exact Hic].
      apply (free_clear st F A R); [done|done|set_solver].
Qed.

(** Allocating and releasing is the identity on the heap: the free blocks
    after [buddy_free(buddy_malloc(n))] are exactly those before, every split
    undone by a merge. *)
Theorem buddy_roundtrip (st : buddy) (F A R : gset block) (n p : Z) (st1 : buddy) :
  inv st F A R → n ≤ 2 ^ 63 → buddy_malloc st n = Ok (p, st1) → p ≠ 0 →
  ∃ st2, buddy_free st1 p = Ok st2 ∧ inv st2 F A R.
Proof.
  intros Hinv Hn E Hp.
  destruct (buddy_malloc_ok st F A R n Hinv Hn) as (k & _ & [[E' _]|H]); [congruence|].
  destruct H as (i & st' & F' & E' & Hni & Hinv' & Hb & Hm).
  rewrite E in E'. injection E' as -> <-.
  destruct (buddy_free_ok st1 F' _ R k i Hinv') as (st2 & F2 & E2 & Hinv2 & Hb2 & Hm2);
    [set_solver +|].
  rewrite Hb in E2. exists st2. split; [done|].
  replace (({[(k, i)]} ∪ A) ∖ {[(k, i)]}) with A in Hinv2 by set_solver +Hni.
  by rewrite (free_determined st st2 F F2 A R) by (done || congruence).
Qed.

(** ** Sequences of calls *)

(** A client of the allocator: [inl n] allocates [n] bytes and keeps the
    pointer when it is not null, [inr i] releases the [i]-th pointer it keeps. *)
Fixpoint client (ops : list (Z + nat)) (st : buddy) (held : list (Z * Z))
    : outcome (buddy * list (Z * Z)) :=
  match ops with
  | [] => Ok (st, held)
  | inl n :: ops' =>
      '(p, st) ← buddy_malloc st n;
      client ops' st (if p =? 0 then held else (p, n) :: held)
  | inr i :: ops' =>
      match held !! i with
      | Some (p, _) => st ← buddy_free st p; client ops' st (delete i held)
      | None => client ops' st held
      end
  end.

(** The pointers held are those of distinct blocks, and nothing else is in use. *)
Definition holds (st : buddy) (A : gset block) (held : list (Z * Z)) : Prop :=
  ∃ bs, Forall2 (λ pn b, pn.1 = baddr (buddy_base st) b ∧ pn.2 ≤ bsize b) held bs ∧
    NoDup bs ∧ ∀ b, b ∈ A ↔ b ∈ bs.

Lemma Forall2_delete {A B} (P : A → B → Prop) l k i :
  Forall2 P l k → Forall2 P (delete i l) (delete i k).
Proof.
  intros H. revert i. induction H as [|x y l k ? ? IH]; intros [|i]; simpl; try done.
  constructor; [done|]. apply IH.
Qed.

Lemma elem_of_delete_nodup {A} (l : list A) i x y :
  NoDup l → l !! i = Some x → y ∈ delete i l ↔ y ∈ l ∧ y ≠ x.
Proof.
  intros Hnd Hi. pose proof (delete_Permutation l i x Hi) as Hp.
  rewrite Hp in Hnd. apply NoDup_cons in Hnd as [Hx _].
  rewrite Hp at 2. rewrite elem_of_cons. split.
  - intros Hy. split; [by right|]. by intros ->.
  - intros [[->|] ?]; done.
Qed.

Lemma holds_free st A held i p n :
  holds st A held → held !! i = Some (p, n) →
  ∃ b, b ∈ A ∧ p = baddr (buddy_base st) b ∧ holds st (A ∖ {[b]}) (delete i held).
Proof.
  intros (bs & Hf & Hnd & HA) Hi.
  destruct (Forall2_lookup_l _ _ _ _ _ Hf Hi) as (b & Hb & Hp & _). simpl in Hp.
  exists b. split; [apply HA; by eapply list_elem_of_lookup_2|]. split; [done|].
  exists (delete i bs). split; [by apply Forall2_delete|]. split.
  - pose proof (delete_Permutation bs i b Hb) as Hperm. rewrite Hperm in Hnd.
    by apply NoDup_cons in Hnd as [_ ?].
  - intros c. rewrite elem_of_difference, elem_of_singleton, HA.
    symmetry. by apply elem_of_delete_nodup.
Qed.

Lemma client_ok ops : ∀ st F A R held,
  inv st F A R → holds st A held →
  Forall (λ o, match o with inl n => n ≤ 2 ^ 63 | inr _ => True end) ops →
  ∃ st' F' A' held', client ops st held = Ok (st', held') ∧ inv st' F' A' R ∧
    holds st' A' held' ∧ buddy_base st' = buddy_base st ∧ MAXSIZE st' = MAXSIZE st.
Proof.
  induction ops as [|[n|i] ops IH]; intros st F A R held Hinv Hh Hops; simpl.
  { eauto 10. }
  - inversion_clear Hops as [|?? Hn Hops'].
    destruct (buddy_malloc_ok st F A R n Hinv Hn) as (k & (Hk & Hsz & _) & [[-> _]|H]).
    { simpl. by apply (IH st F A R). }
    destruct H as (j & st1 & F1 & -> & Hni & Hinv1 & Hb & Hm). rewrite bind_Ok.
    assert (Hv : valid (MAXSIZE st1) (k, j)) by (apply (inv_valid _ _ _ _ Hinv1); set_solver +).
    pose proof (valid_offset _ _ Hv). pose proof (i_base _ _ _ _ Hinv).
    destruct (Z.eqb_spec (baddr (buddy_base st) (k, j)) 0) as [E0|_];
      [unfold baddr in E0; lia|].
    destruct (IH st1 F1 _ R ((baddr (buddy_base st) (k, j), n) :: held) Hinv1)
      as (st2 & F2 & A2 & h2 & ? & ? & ? & ? & ?); [|done|eexists _, _, _, _; split_and!; try done; congruence].
    destruct Hh as (bs & Hf & Hnd & HA). exists ((k, j) :: bs). rewrite Hb. split_and!.
    + by constructor.
    + constructor; [|done]. by rewrite <- HA.
    + intros b. rewrite elem_of_union, elem_of_singleton, elem_of_cons, HA. done.
  - inversion_clear Hops as [|?? Hn Hops'].
    destruct (held !! i) as [[p n]|] eqn:Hi; [|by apply (IH st F A R)].
    destruct (holds_free _ _ _ _ _ _ Hh Hi) as ([k j] & Hbin & -> & Hh').
    destruct (buddy_free_ok _ _ _ _ _ _ Hinv Hbin) as (st1 & F1 & -> & Hinv1 & Hb & Hm).
    rewrite bind_Ok.
    destruct (IH st1 F1 _ R (delete i held) Hinv1)
      as (st2 & F2 & A2 & h2 & ? & ? & ? & ? & ?); [|done|eexists _, _, _, _; split_and!; try done; congruence].
    unfold holds in *. by rewrite Hb.
Qed.

(** A block that shares nothing with the reserved leaves lies between them. *)
Lemma clear_of_reserved max M E base b :
  0 < M ≤ 2 ^ (max - 2) → 2 ≤ max → 2 ^ (max - 1) < E < 2 ^ max → valid max b →
  (∀ r, r ∈ reserved max M E → no_overlap base b r) →
  16 * M ≤ b.2 * bsize b ∧ b.2 * bsize b + bsize b ≤ 16 * E.
Proof.
  intros HM Hmax HE Hv Hcl. pose proof (valid_offset _ _ Hv) as Ho.
  pose proof (bsize_pos b ltac:(destruct Hv; lia)) as Hs.
  assert (HME : M ≤ E).
  { assert (2 ^ (max - 2) ≤ 2 ^ (max - 1)) by (apply Z.pow_le_mono_r; lia). lia. }
  unfold bsize in *. set (o := b.2 * 2 ^ b.1). assert (b.2 * (2 ^ b.1 * 16) = 16 * o) by lia.
  assert (Hleaf : ∀ i, o ≤ i < o + 2 ^ b.1 → 0 ≤ i < M ∨ E ≤ i < 2 ^ max → False).
  { intros i Hi Hr. apply (Hcl (0, i)) with (a := base + 16 * i).
    - apply elem_of_reserved. simpl. lia.
    - unfold in_region, baddr, bsize. lia.
    - unfold in_region, baddr, bsize. simpl. lia. }
  split.
  - destruct (decide (M ≤ o)) as [|Hlt]; [lia|]. destruct (Hleaf o); lia.
  - destruct (decide (o + 2 ^ b.1 ≤ E)) as [|Hlt]; [lia|].
    destruct (Hleaf (o + 2 ^ b.1 - 1)); lia.
Qed.

(** From an initialised heap, every sequence of allocations and releases
    runs to its end without a panic, a wild access or an endless loop. The
    memory the client holds then lies between the allocator's data and the end
    of memory, no two pieces overlap, and once everything has been released the
    heap is as it was after initialisation. *)
Theorem buddy_client_safe (base end_ : Z) (ops : list (Z + nat)) :
  init_pre base end_ →
  Forall (λ o, match o with inl n => n ≤ 2 ^ 63 | inr _ => True end) ops →
  ∃ st0 st held, buddy_init base end_ = Ok st0 ∧ client ops st0 [] = Ok (st, held) ∧
    (∀ i p n, held !! i = Some (p, n) → base < p ∧ p + n ≤ end_) ∧
    (∀ i j p n q m, held !! i = Some (p, n) → held !! j = Some (q, m) → i ≠ j →
       ∀ a, p ≤ a < p + n → q ≤ a < q + m → False) ∧
    (held = [] → ∃ F R, inv st0 F ∅ R ∧ inv st F ∅ R).
Proof.
  intros Hpre Hops.
  destruct (buddy_init_ok base end_ Hpre)
    as (st0 & max & M & E & E0 & Hinv0 & Hb0 & Hm0 & Hend & HM & Hmx & HE).
  destruct (client_ok ops st0 _ _ _ [] Hinv0) as (st & F & A & held & Ec & Hinv & Hh & Hb & Hm);
    [|done|].
  { exists []. split_and!; [constructor|constructor|]. set_solver. }
  exists st0, st, held. split; [done|]. split; [done|].
  destruct Hh as (bs & Hf & Hnd & HA). split_and!.
  - intros i p n Hi. destruct (Forall2_lookup_l _ _ _ _ _ Hf Hi) as (b & Hbi & Hp & Hn).
    simpl in Hp, Hn. apply list_elem_of_lookup_2, HA in Hbi.
    assert (Hrange : 16 * M ≤ b.2 * bsize b ∧ b.2 * bsize b + bsize b ≤ 16 * E).
    { assert (Hcl : ∀ r, r ∈ reserved max M E → no_overlap (buddy_base st) b r).
      { intros r Hr. apply (inv_no_overlap _ _ _ _ _ _ Hinv); [set_solver|set_solver|].
        intros ->. by apply (i_AR _ _ _ _ Hinv r). }
      assert (Hv : valid max b).
      { rewrite <- Hm0, <- Hm. apply (inv_valid _ _ _ _ Hinv). set_solver. }
      apply (clear_of_reserved max M E (buddy_base st)); try done; lia. }
    pose proof (ROUNDUP_bounds base LEAF_SIZE ltac:(unfold LEAF_SIZE; lia)) as [Hr _].
    rewrite Hp, Hend. unfold baddr. rewrite Hb, Hb0. lia.
  - intros i j p n q m Hi Hj Hne a Ha1 Ha2.
    destruct (Forall2_lookup_l _ _ _ _ _ Hf Hi) as (b & Hbi & Hp & Hn).
    destruct (Forall2_lookup_l _ _ _ _ _ Hf Hj) as (c & Hcj & Hq & Hn').
    simpl in *. subst p q.
    assert (b ≠ c) by (intros ->; by destruct Hne; eapply NoDup_lookup).
    apply list_elem_of_lookup_2, HA in Hbi. apply list_elem_of_lookup_2, HA in Hcj.
    apply (inv_no_overlap _ _ _ _ b c Hinv ltac:(set_solver) ltac:(set_solver) ltac:(done) a);
      unfold in_region; lia.
  - intros ->. apply Forall2_nil_inv_l in Hf as ->.
    assert (A = ∅) as -> by set_solver.
    eexists _, _. split; [exact Hinv0|].
    by rewrite (free_determined st0 st _ F ∅ _ Hinv0 Hinv).
Qed.

(** ** A heap of 4000 bytes *)

Lemma demo_pre : init_pre 4096 8096.
Proof. by unfold init_pre. Qed.

Definition demo_heap : buddy :=
  match buddy_init 4096 8096 with Ok st => st | _ => mk_buddy 0 [] ∅ end.

Lemma demo_init : buddy_init 4096 8096 = Ok demo_heap.
Proof. vm_compute. reflexivity. Qed.

Lemma demo_inv : ∃ F R, inv demo_heap F ∅ R.
Proof.
  destruct (buddy_init_ok 4096 8096 demo_pre) as (st & max & M & E & E0 & Hinv & _).
  rewrite demo_init in E0. apply Ok_inj in E0. subst st. exists (free_area max M E), (reserved max M E). exact Hinv.
Qed.

Definition demo_used : buddy :=
  match buddy_malloc demo_heap 100 with Ok (_, st) => st | _ => demo_heap end.

Lemma demo_malloc : buddy_malloc demo_heap 100 = Ok (7936, demo_used).
Proof. vm_compute. reflexivity. Qed.

Lemma demo_used_inv :
  ∃ F A R b, inv demo_used F A R ∧ b ∈ A ∧ baddr (buddy_base demo_used) b = 7936.
Proof.
  destruct demo_inv as (F & R & Hinv).
  destruct (buddy_malloc_ok demo_heap F ∅ R 100 Hinv ltac:(lia)) as (k & _ & [[E _]|H]);
    [rewrite demo_malloc in E; apply Ok_pair_inj in E as [E _]; discriminate|].
  destruct H as (i & st' & F' & E & _ & Hinv' & Hb & _).
  rewrite demo_malloc in E. apply Ok_pair_inj in E as [Ep Est]. subst st'.
  exists F', ({[(k, i)]} ∪ ∅), R, (k, i). split_and!; [exact Hinv'|set_solver +|by rewrite Hb].
Qed.

Lemma buddy_malloc_correct_witness :
  ∃ F R p st', inv demo_heap F ∅ R ∧ buddy_malloc demo_heap 100 = Ok (p, st').
Proof.
  destruct demo_inv as (F & R & Hinv).
  destruct (buddy_malloc_correct demo_heap F ∅ R 100 Hinv ltac:(lia)) as (p & st' & E & _).
  exists F, R, p, st'. split; assumption.
Defined.

Lemma buddy_free_correct_witness :
  ∃ F A R b st', inv demo_used F A R ∧ b ∈ A ∧
    buddy_free demo_used (baddr (buddy_base demo_used) b) = Ok st'.
Proof.
  destruct demo_used_inv as (F & A & R & b & Hinv & Hb & _).
  destruct (buddy_free_correct demo_used F A R b Hinv Hb) as (st' & F' & _ & E & _).
  exists F, A, R, b, st'. split; [assumption|]. split; assumption.
Defined.

Lemma buddy_roundtrip_witness :
  ∃ F R st2, inv demo_heap F ∅ R ∧ buddy_free demo_used 7936 = Ok st2 ∧ inv st2 F ∅ R.
Proof.
  destruct demo_inv as (F & R & Hinv).
  destruct (buddy_roundtrip demo_heap F ∅ R 100 7936 demo_used Hinv ltac:(lia)
    demo_malloc ltac:(lia)) as (st2 & E & Hinv2).
  exists F, R, st2. split; [assumption|]. split; assumption.
Defined.

Lemma buddy_client_safe_witness :
  ∃ st0 st held, buddy_init 4096 8096 = Ok st0 ∧
    client [inl 100; inl 1000; inr 0%nat; inl 16; inr 5%nat; inr 1%nat] st0 [] = Ok (st, held).
Proof.
  destruct (buddy_client_safe 4096 8096
    [inl 100; inl 1000; inr 0%nat; inl 16; inr 5%nat; inr 1%nat] demo_pre)
    as (st0 & st & held & E1 & E2 & _).
  - repeat constructor; lia.
  - exists st0, st, held. split; assumption.
Defined.

(** ** Two limits of the allocator *)

(** A request above [2^63] bytes never returns: [firstk] doubles a 64-bit
    size past the top, where it becomes 0 and stays below the request. *)
Theorem buddy_malloc_huge (st : buddy) (n : Z) :
  2 ^ 63 < n → buddy_malloc st n = Hang.
Proof. intros Hn. unfold buddy_malloc. by rewrite firstk_hang by done. Qed.

Lemma buddy_malloc_huge_witness : buddy_malloc demo_heap (2 ^ 63 + 1) = Hang.
Proof. apply (buddy_malloc_huge demo_heap (2 ^ 63 + 1)). lia. Defined.

(** A heap whose size is a power of two is not initialised: nothing is
    unavailable, the first block past the end is the one after the last, and its
    pair bit is read behind the end of the bit array. *)
Theorem buddy_init_power_of_two :
  buddy_init 4096 (4096 + 2 ^ 12) = Fault ∧ buddy_init 4096 (4096 + 2 ^ 13) = Fault.
Proof. split; vm_compute; reflexivity. Qed.
