(* ===== verification/Kalloc.v ===== *)
(** * The kernel's allocator interface: [kernel/alloc/kalloc.c].

    The class [Allocator] is what the rest of the kernel relies on; the buddy
    allocator is its instance. *)

From S2P Require Import Prelude.
From S2P Require Import Riscv.
From S2P Require Import Bits.
From S2P Require Import LinkedList.
From S2P Require Import Buddy.
From S2P Require Import BuddyInv.
From S2P Require Import BuddyProof.
From S2P Require Import BuddySpec.
From S2P Require Import BuddyInit.
From S2P Require Import BuddyBoot.
From S2P Require Import BuddyThm.

(** [al_live s H]: the memory handed out and not yet released in state [s] is
    given by [H], from the address to the size of each piece. *)
Class Allocator (heap : Type) := {
  al_malloc : heap → Z → outcome (Z * heap);
  al_free : heap → Z → outcome heap;
  al_live : heap → gmap Z Z → Prop;
  al_malloc_ok s H n :
    al_live s H → 0 < n ≤ 2 ^ 30 →
    ∃ p s', al_malloc s n = Ok (p, s') ∧
      ((p = 0 ∧ s' = s) ∨
       ∃ sz, H !! p = None ∧ n ≤ sz ∧ (n = PGSIZE → sz = PGSIZE) ∧
         al_live s' (<[p := sz]> H));
  al_free_ok s H p sz :
    al_live s H → H !! p = Some sz → ∃ s', al_free s p = Ok s' ∧ al_live s' (delete p H);
  al_disjoint s H p a q b :
    al_live s H → H !! p = Some a → H !! q = Some b → p ≠ q → p + a ≤ q ∨ q + b ≤ p;
  al_range s H p sz :
    al_live s H → H !! p = Some sz → KERNBASE ≤ p ∧ 0 < sz ∧ p + sz ≤ PHYSTOP;
  al_aligned s H p : al_live s H → H !! p = Some PGSIZE → p mod PGSIZE = 0;
}.

Definition kalloc {heap} `{Allocator heap} (s : heap) : outcome (Z * heap) := al_malloc s PGSIZE.
Definition kfree {heap} `{Allocator heap} (s : heap) (pa : Z) : outcome heap := al_free s pa.

(** [end_] is the linker's symbol [end], the first address after the kernel. *)
Definition kinit (end_ : Z) : outcome buddy := buddy_init (PGROUNDUP end_) PHYSTOP.

(** ** The buddy allocator as the kernel's allocator *)

Definition live_blocks (st : buddy) (A : gset block) (H : gmap Z Z) : Prop :=
  ∀ p sz, H !! p = Some sz ↔ ∃ b, b ∈ A ∧ p = baddr (buddy_base st) b ∧ sz = bsize b.

Definition kernel_heap (st : buddy) (H : gmap Z Z) : Prop :=
  ∃ F A R, inv st F A R ∧ buddy_base st mod PGSIZE = 0 ∧ KERNBASE ≤ buddy_base st ∧
    (∀ i, 0 ≤ i < 2 ^ MAXSIZE st → PHYSTOP < buddy_base st + 16 * i + 16 → (0, i) ∈ R) ∧
    live_blocks st A H.

Lemma baddr_inj st F A R b c :
  inv st F A R → b ∈ F ∪ A ∪ R → c ∈ F ∪ A ∪ R →
  baddr (buddy_base st) b = baddr (buddy_base st) c → b = c.
Proof.
  intros Hinv Hb Hc E. destruct (decide (b = c)) as [|Hne]; [done|exfalso].
  destruct (inv_valid _ _ _ _ Hinv b Hb) as [? _].
  destruct (inv_valid _ _ _ _ Hinv c Hc) as [? _].
  apply (inv_no_overlap _ _ _ _ b c Hinv Hb Hc Hne (baddr (buddy_base st) b)).
  - apply baddr_in_region. lia.
  - rewrite E. apply baddr_in_region. lia.
Qed.

Lemma size_class_page k : size_class PGSIZE k → k = 8.
Proof.
  unfold size_class, PGSIZE. intros (H0 & H1 & H2).
  destruct (decide (k < 8)).
  - assert (2 ^ k ≤ 2 ^ 7) by (apply Z.pow_le_mono_r; lia). change (2 ^ 7) with 128 in *. lia.
  - destruct (decide (k = 8)); [done|].
    assert (2 ^ 8 ≤ 2 ^ (k - 1)) by (apply Z.pow_le_mono_r; lia). change (2 ^ 8) with 256 in *. lia.
Qed.

Lemma kernel_malloc_ok st H n :
  kernel_heap st H → 0 < n ≤ 2 ^ 30 →
  ∃ p st', buddy_malloc st n = Ok (p, st') ∧
    ((p = 0 ∧ st' = st) ∨
     ∃ sz, H !! p = None ∧ n ≤ sz ∧ (n = PGSIZE → sz = PGSIZE) ∧
       kernel_heap st' (<[p := sz]> H)).
Proof.
  intros (F & A & R & Hinv & Hal & Hlow & Htop & Hlive) Hn.
  destruct (buddy_malloc_ok st F A R n Hinv ltac:(lia)) as (k & Hsc & [[E _]|Hex]).
  { exists 0, st. split; [done|by left]. }
  destruct Hex as (i & st' & F' & E & Hni & Hinv' & Hb & Hm).
  eexists _, st'. split; [done|]. right. exists (bsize (k, i)).
  assert (Hfresh : H !! baddr (buddy_base st) (k, i) = None).
  { apply eq_None_not_Some. intros [sz Hsz]. apply Hlive in Hsz as (b & HbA & Eb & _).
    rewrite <- Hb in Eb. apply (baddr_inj _ _ _ _ _ _ Hinv') in Eb; [|set_solver +|set_solver +HbA].
    by subst. }
  split; [done|]. split; [apply Hsc|].
  split; [intros ->; by apply size_class_page in Hsc as ->|].
  exists F', ({[(k, i)]} ∪ A), R. rewrite Hb, Hm. split_and!; try done.
  unfold live_blocks in *. intros p sz. rewrite Hb. rewrite lookup_insert_Some, Hlive. split.
  - intros [[<- <-]|[? (b & ? & ? & ?)]]; [exists (k, i); set_solver +|exists b; set_solver].
  - intros (b & [->%elem_of_singleton|HbA]%elem_of_union & -> & ->); [by left|right].
    split; [|by exists b]. intros E'. rewrite <- Hb in E'.
    apply (baddr_inj _ _ _ _ _ _ Hinv') in E'; [|set_solver +|set_solver +HbA]. by subst.
Qed.

Lemma kernel_free_ok st H p sz :
  kernel_heap st H → H !! p = Some sz →
  ∃ st', buddy_free st p = Ok st' ∧ kernel_heap st' (delete p H).
Proof.
  intros (F & A & R & Hinv & Hal & Hlow & Htop & Hlive) Hp.
  pose proof (proj1 (Hlive _ _) Hp) as ([k i] & HbA & -> & ->).
  destruct (buddy_free_ok st F A R k i Hinv HbA) as (st' & F' & E & Hinv' & Hb & Hm).
  exists st'. split; [done|]. exists F', (A ∖ {[(k, i)]}), R. rewrite Hb, Hm.
  split_and!; try done. unfold live_blocks in *. intros q s. rewrite Hb. rewrite lookup_delete_Some, Hlive. split.
  - intros [Hne (b & ? & -> & ->)]. exists b. split_and!; try done.
    apply elem_of_difference. split; [done|]. intros ->%elem_of_singleton. done.
  - intros (b & [HbA' Hne]%elem_of_difference & -> & ->). split; [|by exists b].
    intros E'. apply (baddr_inj _ _ _ _ _ _ Hinv) in E'; [|set_solver +HbA|set_solver +HbA'].
    subst. by apply Hne, elem_of_singleton.
Qed.

Lemma kernel_disjoint st H p a q b :
  kernel_heap st H → H !! p = Some a → H !! q = Some b → p ≠ q → p + a ≤ q ∨ q + b ≤ p.
Proof.
  intros (F & A & R & Hinv & _ & _ & _ & Hlive) Hp Hq Hne.
  apply Hlive in Hp as (bp & HbpA & -> & ->). apply Hlive in Hq as (bq & HbqA & -> & ->).
  destruct (inv_valid _ _ _ _ Hinv bp) as [? _]; [set_solver +HbpA|].
  destruct (inv_valid _ _ _ _ Hinv bq) as [? _]; [set_solver +HbqA|].
  assert (Hno : no_overlap (buddy_base st) bp bq).
  { apply (inv_no_overlap st F A R); [done|set_solver +HbpA|set_solver +HbqA|].
    intros ->. done. }
  pose proof (bsize_pos bp ltac:(lia)). pose proof (bsize_pos bq ltac:(lia)).
  unfold no_overlap, in_region in Hno. set (x := baddr (buddy_base st) bp) in *.
  set (y := baddr (buddy_base st) bq) in *.
  destruct (decide (x ≤ y)).
  - destruct (decide (x + bsize bp ≤ y)); [by left|]. destruct (Hno y); lia.
  - destruct (decide (y + bsize bq ≤ x)); [by right|]. destruct (Hno x); lia.
Qed.

Lemma kernel_range st H p sz :
  kernel_heap st H → H !! p = Some sz → KERNBASE ≤ p ∧ 0 < sz ∧ p + sz ≤ PHYSTOP.
Proof.
  intros (F & A & R & Hinv & _ & Hlow & Htop & Hlive) Hp.
  apply Hlive in Hp as (b & HbA & -> & ->).
  assert (Hv : valid (MAXSIZE st) b) by (apply (inv_valid _ _ _ _ Hinv); set_solver +HbA).
  pose proof (valid_offset _ _ Hv) as Ho. pose proof (bsize_pos b ltac:(destruct Hv; lia)).
  split; [unfold baddr; lia|]. split; [done|].
  destruct (decide (baddr (buddy_base st) b + bsize b ≤ PHYSTOP)) as [|Hgt]; [done|exfalso].
  set (i := b.2 * 2 ^ b.1 + 2 ^ b.1 - 1). unfold baddr, bsize in *.
  assert (Hr : (0, i) ∈ R) by (apply Htop; subst i; lia).
  apply (inv_no_overlap _ _ _ _ b (0, i) Hinv ltac:(set_solver +HbA) ltac:(set_solver +Hr)) with
    (a := buddy_base st + 16 * i).
  - intros Eb. apply (i_AR _ _ _ _ Hinv b HbA). by rewrite Eb.
  - unfold in_region, baddr, bsize. subst i. lia.
  - unfold in_region, baddr, bsize. simpl. lia.
Qed.

Lemma kernel_aligned st H p : kernel_heap st H → H !! p = Some PGSIZE → p mod PGSIZE = 0.
Proof.
  intros (F & A & R & Hinv & Hal & _ & _ & Hlive) Hp.
  apply Hlive in Hp as (b & _ & -> & Hsz). unfold baddr. rewrite <- Hsz.
  by rewrite Z.mod_add by (unfold PGSIZE; lia).
Qed.

Lemma kernel_above_base st H p sz : kernel_heap st H → H !! p = Some sz → buddy_base st ≤ p.
Proof.
  intros (F & A & R & Hinv & _ & _ & _ & Hlive) Hp. apply Hlive in Hp as (b & HbA & -> & ->).
  assert (Hv : valid (MAXSIZE st) b) by (apply (inv_valid _ _ _ _ Hinv); set_solver +HbA).
  pose proof (valid_offset _ _ Hv). unfold baddr. lia.
Qed.

Lemma buddy_malloc_base st H p st' :
  kernel_heap st H → buddy_malloc st PGSIZE = Ok (p, st') →
  buddy_base st' = buddy_base st ∧ MAXSIZE st' = MAXSIZE st.
Proof.
  intros (F & A & R & Hinv & _) E.
  destruct (buddy_malloc_ok st F A R PGSIZE Hinv) as (k & _ & [[E' _]|H']); [unfold PGSIZE; lia| |].
  - rewrite E in E'. by injection E' as _ ->.
  - destruct H' as (i & st2 & F' & E' & _ & _ & Hb & Hm). rewrite E in E'. by injection E' as _ ->.
Qed.

#[export] Instance buddy_allocator : Allocator buddy := {
  al_malloc := buddy_malloc;
  al_free := buddy_free;
  al_live := kernel_heap;
  al_malloc_ok := kernel_malloc_ok;
  al_free_ok := kernel_free_ok;
  al_disjoint := kernel_disjoint;
  al_range := kernel_range;
  al_aligned := kernel_aligned;
}.

(** ** Booting *)

Lemma kinit_pre end_ :
  KERNBASE < end_ ≤ KERNBASE + 0x3fff000 → init_pre (PGROUNDUP end_) PHYSTOP.
Proof.
  intros Hend. unfold KERNBASE in *.
  destruct (PGROUNDUP_bounds end_ ltac:(lia) ltac:(lia)) as [H1 H2]. unfold PGSIZE in *.
  assert (Hal : ROUNDUP (PGROUNDUP end_) LEAF_SIZE = PGROUNDUP end_).
  { apply ROUNDUP_aligned; [unfold LEAF_SIZE; lia|].
    unfold LEAF_SIZE. Z.to_euclidean_division_equations. lia. }
  unfold init_pre. rewrite Hal. unfold LEAF_SIZE. split; [lia|]. split; [done|].
  set (E := (PHYSTOP - PGROUNDUP end_) / 16).
  assert (HE : 2 ^ 22 < E < 2 ^ 23).
  { unfold E, PHYSTOP, KERNBASE. Z.to_euclidean_division_equations. lia. }
  split; [lia|]. rewrite (Z.log2_unique E 22) by lia. lia.
Qed.

Lemma kinit_ok (end_ : Z) :
  KERNBASE < end_ ≤ KERNBASE + 0x3fff000 →
  ∃ st, kinit end_ = Ok st ∧ buddy_base st = PGROUNDUP end_ ∧ kernel_heap st ∅.
Proof.
  intros Hend. pose proof (kinit_pre end_ Hend) as Hpre. unfold kinit.
  destruct (buddy_init_ok _ _ Hpre)
    as (st & max & M & E & E0 & Hinv & Hb & Hm & Hphys & HM & Hmx & HE).
  exists st. split; [done|]. unfold KERNBASE in Hend.
  destruct (PGROUNDUP_bounds end_ ltac:(lia) ltac:(lia)) as [H1 H2].
  rewrite ROUNDUP_aligned in Hb;
    [|unfold LEAF_SIZE; lia|unfold LEAF_SIZE, PGSIZE in *; Z.to_euclidean_division_equations; lia].
  split; [done|]. eexists _, ∅, _. split; [done|]. rewrite Hb. split_and!.
  - done.
  - unfold KERNBASE. lia.
  - rewrite Hm. intros i Hi Hgt. apply elem_of_reserved. simpl. split; [done|]. right.
    rewrite Hphys, Hb in Hgt. lia.
  - intros p sz. rewrite lookup_empty. split; [done|]. intros (b & ? & _). set_solver.
Qed.

(** For every kernel image that ends in the lower half of memory, [kinit]
    gives a heap with nothing handed out; every page [kalloc] takes from it is
    page-aligned and lies between the end of the kernel and the end of memory. *)
Theorem kinit_correct (end_ : Z) :
  KERNBASE < end_ ≤ KERNBASE + 0x3fff000 →
  ∃ st p st', kinit end_ = Ok st ∧ kernel_heap st ∅ ∧ kalloc st = Ok (p, st') ∧
    (p ≠ 0 → p mod PGSIZE = 0 ∧ end_ ≤ p ∧ p + PGSIZE ≤ PHYSTOP ∧
       kernel_heap st' {[p := PGSIZE]}).
Proof.
  intros Hend. destruct (kinit_ok end_ Hend) as (st & E & Hb & Hh).
  destruct (kernel_malloc_ok st ∅ PGSIZE Hh) as (p & st' & E' & Hc); [unfold PGSIZE; lia|].
  exists st, p, st'. split; [done|]. split; [done|]. split; [exact E'|]. intros Hp.
  destruct Hc as [[? _]|(sz & _ & _ & Hsz & Hh')]; [done|]. rewrite (Hsz eq_refl) in Hh'.
  rewrite insert_empty in Hh'.
  assert (Hl : ({[p := PGSIZE]} : gmap Z Z) !! p = Some PGSIZE) by apply lookup_singleton_eq.
  pose proof (kernel_aligned _ _ _ Hh' Hl). pose proof (kernel_range _ _ _ _ Hh' Hl) as (_ & _ & ?).
  pose proof (kernel_above_base _ _ _ _ Hh' Hl) as Hab.
  destruct (buddy_malloc_base _ _ _ _ Hh E') as [Hbb _].
  split_and!; try done. unfold KERNBASE in Hend.
  destruct (PGROUNDUP_bounds end_ ltac:(lia) ltac:(lia)). lia.
Qed.

Lemma kinit_correct_witness :
  ∃ st, kinit 0x80021d40 = Ok st ∧ kernel_heap st ∅.
Proof.
  destruct (kinit_correct 0x80021d40) as (st & p & st' & E & Hh & _).
  - split; done.
  - exists st. split; assumption.
Defined.
