(* ===== verification/Vm.v ===== *)
(** * Virtual memory: [kernel/memory/vm.c].

    The state is the allocator and the bytes of physical memory, which the
    kernel maps one to one. A page table is the address of its root page. The
    buffers of the kernel that [copyout], [copyin] and [copyinstr] copy from or
    to are byte lists. *)

From S2P Require Import Prelude.
From S2P Require Import Riscv.
From S2P Require Import Ram.
From S2P Require Import Kalloc.

Section vm.
Context {heap : Type} `{AL : Allocator heap}.

Record vm := mk_vm {
  vheap : heap;
  vram : ram;
}.

Definition with_ram (s : vm) (m : ram) : vm := mk_vm (vheap s) m.

Definition vm_alloc (s : vm) : outcome (Z * vm) :=
  '(p, h) ← kalloc (vheap s); Ok (p, mk_vm h (vram s)).

Definition vm_free (s : vm) (pa : Z) : outcome vm :=
  h ← kfree (vheap s) pa; Ok (mk_vm h (vram s)).

Definition has (pte flag : Z) : bool := negb (Z.land pte flag =? 0).

(** One turn of the loop of [walk]: the page table of the next level, or
    [None] when the function returns 0. *)
Definition walk_level (s : vm) (pagetable va alloc level : Z) : outcome (option Z * vm) :=
  let pte := pagetable + 8 * PX level va in
  if has (ld64 (vram s) pte) PTE_V
  then Ok (Some (PTE2PA (ld64 (vram s) pte)), s)
  else if alloc =? 0 then Ok (None, s)
  else
    '(pg, s) ← vm_alloc s;
    if pg =? 0 then Ok (None, s)
    else
      let m := memset (vram s) pg 0 PGSIZE in
      let m := st64 m pte (Z.lor (PA2PTE pg) PTE_V) in
      Ok (Some pg, with_ram s m).

Definition walk (s : vm) (pagetable va alloc : Z) : outcome (Z * vm) :=
  if MAXVA <=? va then Panic "walk"
  else
    '(r, s) ← walk_level s pagetable va alloc 2;
    match r with
    | None => Ok (0, s)
    | Some pagetable =>
        '(r, s) ← walk_level s pagetable va alloc 1;
        match r with
        | None => Ok (0, s)
        | Some pagetable => Ok (pagetable + 8 * PX 0 va, s)
        end
    end.

Definition walkaddr (s : vm) (pagetable va : Z) : outcome Z :=
  if MAXVA <=? va then Ok 0
  else
    '(pte, s) ← walk s pagetable va 0;
    if pte =? 0 then Ok 0
    else
      let e := ld64 (vram s) pte in
      if negb (has e PTE_V) then Ok 0
      else if negb (has e PTE_U) then Ok 0
      else Ok (PTE2PA e).

(** The loop of [mappages] ends at [last] or when [walk] panics at the end of
    the address space; [mappages_fuel] is enough turns for either. *)
Fixpoint mappages_loop (fuel : nat) (s : vm) (pagetable a last pa perm : Z)
    : outcome (Z * vm) :=
  match fuel with
  | O => Hang
  | S fuel' =>
      '(pte, s) ← walk s pagetable a 1;
      if pte =? 0 then Ok (-1, s)
      else if has (ld64 (vram s) pte) PTE_V then Panic "mappages: remap"
      else
        let s := with_ram s
          (st64 (vram s) pte (Z.lor (Z.lor (PA2PTE pa) perm) PTE_V)) in
        if a =? last then Ok (0, s)
        else mappages_loop fuel' s pagetable (u64 (a + PGSIZE)) last (u64 (pa + PGSIZE)) perm
  end.

Definition mappages_fuel (a last : Z) : nat :=
  if a <=? last then S (Z.to_nat ((last - a) / PGSIZE))
  else S (S (Z.to_nat ((MAXVA - a) / PGSIZE))).

Definition mappages (s : vm) (pagetable va size pa perm : Z) : outcome (Z * vm) :=
  if size =? 0 then Panic "mappages: size"
  else
    let a := PGROUNDDOWN va in
    let last := PGROUNDDOWN (u64 (va + size - 1)) in
    mappages_loop (mappages_fuel a last) s pagetable a last pa perm.

Definition kvmmap (s : vm) (kpgtbl va pa sz perm : Z) : outcome vm :=
  '(r, s) ← mappages s kpgtbl va sz pa perm;
  if negb (r =? 0) then Panic "kvmmap" else Ok s.

(** [n] pages from [a] on. *)
Fixpoint uvmunmap_loop (n : nat) (s : vm) (pagetable a do_free : Z) : outcome vm :=
  match n with
  | O => Ok s
  | S n' =>
      '(pte, s) ← walk s pagetable a 0;
      if pte =? 0 then Panic "uvmunmap: walk"
      else
        let e := ld64 (vram s) pte in
        if negb (has e PTE_V) then Panic "uvmunmap: not mapped"
        else if PTE_FLAGS e =? PTE_V then Panic "uvmunmap: not a leaf"
        else
          s ← (if do_free =? 0 then Ok s else vm_free s (PTE2PA e));
          uvmunmap_loop n' (with_ram s (st64 (vram s) pte 0)) pagetable (a + PGSIZE) do_free
  end.

Definition uvmunmap (s : vm) (pagetable va npages do_free : Z) : outcome vm :=
  if negb (va mod PGSIZE =? 0) then Panic "uvmunmap: not aligned"
  else
    let bound := u64 (va + u64 (npages * PGSIZE)) in
    uvmunmap_loop (Z.to_nat ((bound - va + PGSIZE - 1) / PGSIZE)) s pagetable va do_free.

Definition uvmcreate (s : vm) : outcome (Z * vm) :=
  '(pagetable, s) ← vm_alloc s;
  if pagetable =? 0 then Ok (0, s)
  else Ok (pagetable, with_ram s (memset (vram s) pagetable 0 PGSIZE)).

Definition uvmfirst (s : vm) (pagetable : Z) (src : list Z) : outcome vm :=
  if PGSIZE <=? zlen src then Panic "uvmfirst: more than a page"
  else
    '(pg, s) ← vm_alloc s;
    if pg =? 0 then Fault
    else
      let s := with_ram s (memset (vram s) pg 0 PGSIZE) in
      '(_, s) ← mappages s pagetable 0 PGSIZE pg
                  (Z.lor PTE_W (Z.lor PTE_R (Z.lor PTE_X PTE_U)));
      Ok (with_ram s (put (vram s) pg src)).

Definition uvmdealloc (s : vm) (pagetable oldsz newsz : Z) : outcome (Z * vm) :=
  if oldsz <=? newsz then Ok (oldsz, s)
  else
    s ← (if PGROUNDUP newsz <? PGROUNDUP oldsz
         then
           let npages := i32 ((PGROUNDUP oldsz - PGROUNDUP newsz) / PGSIZE) in
           uvmunmap s pagetable (PGROUNDUP newsz) (u64 npages) 1
         else Ok s);
    Ok (newsz, s).

(** [n] pages from [a] on, [oldsz] rounded up. *)
Fixpoint uvmalloc_loop (n : nat) (s : vm) (pagetable oldsz newsz a xperm : Z)
    : outcome (Z * vm) :=
  match n with
  | O => Ok (newsz, s)
  | S n' =>
      '(pg, s) ← vm_alloc s;
      if pg =? 0 then
        '(_, s) ← uvmdealloc s pagetable a oldsz; Ok (0, s)
      else
        let s := with_ram s (memset (vram s) pg 0 PGSIZE) in
        '(r, s) ← mappages s pagetable a PGSIZE pg (Z.lor (Z.lor PTE_R PTE_U) xperm);
        if negb (r =? 0) then
          s ← vm_free s pg;
          '(_, s) ← uvmdealloc s pagetable a oldsz; Ok (0, s)
        else uvmalloc_loop n' s pagetable oldsz newsz (a + PGSIZE) xperm
  end.

Definition uvmalloc (s : vm) (pagetable oldsz newsz xperm : Z) : outcome (Z * vm) :=
  if newsz <? oldsz then Ok (oldsz, s)
  else
    let oldsz := PGROUNDUP oldsz in
    uvmalloc_loop (Z.to_nat ((newsz - oldsz + PGSIZE - 1) / PGSIZE))
      s pagetable oldsz newsz oldsz xperm.

(** The entries [i ..] of a table page, [fw] freeing the tables below. *)
Fixpoint freewalk_loop (fw : vm → Z → outcome vm) (n : nat) (s : vm) (pagetable i : Z)
    : outcome vm :=
  match n with
  | O => Ok s
  | S n' =>
      let pte := ld64 (vram s) (pagetable + 8 * i) in
      if has pte PTE_V && negb (has pte (Z.lor PTE_R (Z.lor PTE_W PTE_X))) then
        s ← fw s (PTE2PA pte);
        freewalk_loop fw n' (with_ram s (st64 (vram s) (pagetable + 8 * i) 0)) pagetable (i + 1)
      else if has pte PTE_V then Panic "freewalk: leaf"
      else freewalk_loop fw n' s pagetable (i + 1)
  end.

(** [depth] bounds the recursion; a page table has three levels. *)
Fixpoint freewalk (depth : nat) (s : vm) (pagetable : Z) : outcome vm :=
  match depth with
  | O => Hang
  | S depth' =>
      s ← freewalk_loop (freewalk depth') 512 s pagetable 0;
      vm_free s pagetable
  end.

Definition uvmfree (s : vm) (pagetable sz : Z) : outcome vm :=
  s ← (if 0 <? sz then uvmunmap s pagetable 0 (PGROUNDUP sz / PGSIZE) 1 else Ok s);
  freewalk 3 s pagetable.

Fixpoint uvmcopy_loop (n : nat) (s : vm) (old new i : Z) : outcome (Z * vm) :=
  match n with
  | O => Ok (0, s)
  | S n' =>
      '(pte, s) ← walk s old i 0;
      if pte =? 0 then Panic "uvmcopy: pte should exist"
      else
        let e := ld64 (vram s) pte in
        if negb (has e PTE_V) then Panic "uvmcopy: page not present"
        else
          let pa := PTE2PA e in
          let flags := PTE_FLAGS e in
          '(pg, s) ← vm_alloc s;
          if pg =? 0 then
            s ← uvmunmap s new 0 (i / PGSIZE) 1; Ok (-1, s)
          else
            let s := with_ram s (memmove (vram s) pg pa PGSIZE) in
            '(r, s) ← mappages s new i PGSIZE pg flags;
            if negb (r =? 0) then
              s ← vm_free s pg;
              s ← uvmunmap s new 0 (i / PGSIZE) 1; Ok (-1, s)
            else uvmcopy_loop n' s old new (i + PGSIZE)
  end.

Definition uvmcopy (s : vm) (old new sz : Z) : outcome (Z * vm) :=
  uvmcopy_loop (Z.to_nat ((sz + PGSIZE - 1) / PGSIZE)) s old new 0.

Definition uvmclear (s : vm) (pagetable va : Z) : outcome vm :=
  '(pte, s) ← walk s pagetable va 0;
  if pte =? 0 then Panic "uvmclear"
  else Ok (with_ram s (st64 (vram s) pte (Z.land (ld64 (vram s) pte) (Z.lnot PTE_U)))).

(** The three copy loops go page by page; a turn copies at least one byte. *)
Fixpoint copyout_loop (fuel : nat) (s : vm) (pagetable dstva : Z) (src : list Z)
    : outcome (Z * vm) :=
  match src with
  | [] => Ok (0, s)
  | _ =>
      match fuel with
      | O => Hang
      | S fuel' =>
          let va0 := PGROUNDDOWN dstva in
          pa0 ← walkaddr s pagetable va0;
          if pa0 =? 0 then Ok (-1, s)
          else
            let n := Z.min (PGSIZE - (dstva - va0)) (zlen src) in
            let m := put (vram s) (pa0 + (dstva - va0)) (take (Z.to_nat n) src) in
            copyout_loop fuel' (with_ram s m) pagetable (u64 (va0 + PGSIZE))
              (drop (Z.to_nat n) src)
      end
  end.

Definition copyout (s : vm) (pagetable dstva : Z) (src : list Z) : outcome (Z * vm) :=
  copyout_loop (length src) s pagetable dstva src.

(** [n] bytes of memory from [a] on. *)
Fixpoint get (n : nat) (m : ram) (a : Z) : list Z :=
  match n with O => [] | S n' => ld8 m a :: get n' m (a + 1) end.

(** The result is the return value and what was stored at [dst]. *)
Fixpoint copyin_loop (fuel : nat) (s : vm) (pagetable srcva len : Z) : outcome (Z * list Z) :=
  if len <=? 0 then Ok (0, [])
  else
    match fuel with
    | O => Hang
    | S fuel' =>
        let va0 := PGROUNDDOWN srcva in
        pa0 ← walkaddr s pagetable va0;
        if pa0 =? 0 then Ok (-1, [])
        else
          let n := Z.min (PGSIZE - (srcva - va0)) len in
          '(r, l) ← copyin_loop fuel' s pagetable (u64 (va0 + PGSIZE)) (len - n);
          Ok (r, get (Z.to_nat n) (vram s) (pa0 + (srcva - va0)) ++ l)
    end.

Definition copyin (s : vm) (pagetable srcva len : Z) : outcome (Z * list Z) :=
  copyin_loop (Z.to_nat len) s pagetable srcva len.

(** The inner loop of [copyinstr]: up to [n] bytes from [p], whether the NUL
    was among them, and what was stored. *)
Fixpoint copyinstr_page (n : nat) (m : ram) (p : Z) : bool * list Z :=
  match n with
  | O => (false, [])
  | S n' =>
      if ld8 m p =? 0 then (true, [0])
      else let '(g, l) := copyinstr_page n' m (p + 1) in (g, ld8 m p :: l)
  end.

Fixpoint copyinstr_loop (fuel : nat) (s : vm) (pagetable srcva max : Z)
    : outcome (Z * list Z) :=
  if max <=? 0 then Ok (-1, [])
  else
    match fuel with
    | O => Hang
    | S fuel' =>
        let va0 := PGROUNDDOWN srcva in
        pa0 ← walkaddr s pagetable va0;
        if pa0 =? 0 then Ok (-1, [])
        else
          let n := Z.min (PGSIZE - (srcva - va0)) max in
          let '(got_null, l) :=
            copyinstr_page (Z.to_nat n) (vram s) (pa0 + (srcva - va0)) in
          if (got_null : bool) then Ok (0, l)
          else
            '(r, l') ← copyinstr_loop fuel' s pagetable (u64 (va0 + PGSIZE)) (max - n);
            Ok (r, l ++ l')
    end.

Definition copyinstr (s : vm) (pagetable srcva max : Z) : outcome (Z * list Z) :=
  copyinstr_loop (Z.to_nat max) s pagetable srcva max.

(** ** The kernel page table *)

(** [proc_mapstacks] of [kernel/process/proc.c]: the stacks of [n] processes
    from number [i] on. *)
Fixpoint proc_mapstacks_loop (n : nat) (s : vm) (kpgtbl i : Z) : outcome vm :=
  match n with
  | O => Ok s
  | S n' =>
      '(pa, s) ← vm_alloc s;
      if pa =? 0 then Panic "kalloc"
      else
        s ← kvmmap s kpgtbl (KSTACK i) pa PGSIZE (Z.lor PTE_R PTE_W);
        proc_mapstacks_loop n' s kpgtbl (i + 1)
  end.

Definition NPROC : Z := 64.

Definition proc_mapstacks (s : vm) (kpgtbl : Z) : outcome vm :=
  proc_mapstacks_loop (Z.to_nat NPROC) s kpgtbl 0.

(** [etext] and [trampoline] are symbols of the linker. A store through a null
    pointer is a fault. *)
Definition kvmmake (s : vm) (etext trampoline : Z) : outcome (Z * vm) :=
  '(kpgtbl, s) ← vm_alloc s;
  if kpgtbl =? 0 then Fault
  else
    let s := with_ram s (memset (vram s) kpgtbl 0 PGSIZE) in
    s ← kvmmap s kpgtbl UART0 UART0 PGSIZE (Z.lor PTE_R PTE_W);
    s ← kvmmap s kpgtbl VIRTIO0 VIRTIO0 PGSIZE (Z.lor PTE_R PTE_W);
    s ← kvmmap s kpgtbl PLIC PLIC 0x400000 (Z.lor PTE_R PTE_W);
    s ← kvmmap s kpgtbl KERNBASE KERNBASE (etext - KERNBASE) (Z.lor PTE_R PTE_X);
    s ← kvmmap s kpgtbl etext etext (PHYSTOP - etext) (Z.lor PTE_R PTE_W);
    s ← kvmmap s kpgtbl TRAMPOLINE trampoline PGSIZE (Z.lor PTE_R PTE_X);
    s ← proc_mapstacks s kpgtbl;
    Ok (kpgtbl, s).

End vm.
