(* ===== verification/VmProof.v ===== *)
(** * Page tables: what [walk] maintains.

    A page table is described by a map [T] from paths to table pages: the root
    is at [[]], the table below entry [i] of the root at [[i]], the one below
    entry [j] of that at [[i; j]]. *)

From S2P Require Import Prelude.
From S2P Require Import Riscv.
From S2P Require Import Ram.
From S2P Require Import Kalloc.
From S2P Require Import Vm.

Abbreviation tables := (gmap (list Z) Z).

(** The entry of a table page for the page of the next level. *)
Definition enc (o : option Z) : Z :=
  match o with Some p => Z.lor (PA2PTE p) PTE_V | None => 0 end.

(** A page the kernel may use for its tables and for user memory. *)
Definition page_addr (p : Z) : Prop := p mod PGSIZE = 0 ∧ 0 < p < 2 ^ 56.

Record pt_ok (m : ram) (T : tables) (root : Z) : Prop := {
  pt_root : T !! [] = Some root;
  pt_page : ∀ k p, T !! k = Some p → page_addr p;
  pt_inj : ∀ k k' p, T !! k = Some p → T !! k' = Some p → k = k';
  pt_closed : ∀ k i, is_Some (T !! (k ++ [i])) →
    is_Some (T !! k) ∧ 0 ≤ i < 512 ∧ (length k < 2)%nat;
  pt_low : ∀ i k, is_Some (T !! (i :: k)) → i < 256;
  pt_nodes : ∀ k p i, T !! k = Some p → (length k < 2)%nat → 0 ≤ i < 512 →
    ld64 m (p + 8 * i) = enc (T !! (k ++ [i]));
}.

(** The address of the leaf entry of page [v], and its value. *)
Definition vpath (v : Z) : list Z := [v / 2 ^ 18; v / 2 ^ 9 mod 512].

Definition slot (T : tables) (v : Z) : option Z :=
  p ← T !! vpath v; Some (p + 8 * (v mod 512)).

Definition entry (m : ram) (T : tables) (v : Z) : Z :=
  match slot T v with Some a => ld64 m a | None => 0 end.

(** Virtual page numbers. *)
Definition is_vpn (v : Z) : Prop := 0 ≤ v < 2 ^ 26.

(** Memory outside the pages [X] is as before. *)
Definition same_outside (m m' : ram) (X : gset Z) : Prop :=
  ∀ a, (∀ p, p ∈ X → a < p ∨ p + PGSIZE ≤ a) → ld8 m' a = ld8 m a.

Definition table_pages (T : tables) : gset Z := map_img T.

(** ** Arithmetic *)

Lemma page_addr_ne p q :
  page_addr p → page_addr q → p ≠ q → p + PGSIZE ≤ q ∨ q + PGSIZE ≤ p.
Proof.
  unfold page_addr, PGSIZE. intros [H1 _] [H2 _] Hne.
  Z.to_euclidean_division_equations. lia.
Qed.

Lemma PX_vpn va :
  0 ≤ va < MAXVA →
  PX 2 va = va / PGSIZE / 2 ^ 18 ∧ PX 1 va = va / PGSIZE / 2 ^ 9 mod 512 ∧
  PX 0 va = va / PGSIZE mod 512.
Proof.
  change MAXVA with (2 ^ 38). unfold PGSIZE. intros Hva. rewrite !PX_eq by lia.
  change (12 + 9 * 2) with (12 + 18). change (12 + 9 * 1) with (12 + 9).
  change (12 + 9 * 0) with 12. rewrite !Z.pow_add_r by lia. change (2 ^ 12) with 4096.
  rewrite <- !Z.div_div by lia. split_and!; try done.
  apply Z.mod_small. Z.to_euclidean_division_equations. lia.
Qed.

Lemma vpn_of va : 0 ≤ va < MAXVA → is_vpn (va / PGSIZE).
Proof.
  change MAXVA with (2 ^ 38). unfold is_vpn, PGSIZE. intros.
  Z.to_euclidean_division_equations. lia.
Qed.

(** A virtual page is determined by its path and its last index. *)
Lemma vpath_inj v w :
  is_vpn v → is_vpn w → vpath v = vpath w → v mod 512 = w mod 512 → v = w.
Proof.
  unfold is_vpn, vpath. intros Hv Hw [= H1 H2] H3.
  change (2 ^ 18) with (512 * 512) in H1. rewrite <- !Z.div_div in H1 by lia.
  change (2 ^ 9) with 512 in H2.
  rewrite (Z.div_mod v 512), (Z.div_mod w 512) by lia.
  rewrite (Z.div_mod (v / 512) 512), (Z.div_mod (w / 512) 512) by lia. congruence.
Qed.

Lemma has_V_enc o : (∀ p, o = Some p → page_addr p) → has (enc o) PTE_V = bool_decide (is_Some o).
Proof.
  intros Hp. destruct o as [p|]; [|done]. cbn [enc].
  rewrite bool_decide_eq_true_2 by eauto. unfold has. apply negb_true_iff, Z.eqb_neq.
  intros E. apply (f_equal (λ x, Z.testbit x 0)) in E.
  rewrite Z.land_spec, Z.lor_spec, Z.bits_0 in E. change (Z.testbit PTE_V 0) with true in E.
  by rewrite orb_true_r in E.
Qed.

Lemma enc_PTE2PA p : page_addr p → PTE2PA (enc (Some p)) = p.
Proof. intros [H1 H2]. apply PTE2PA_PA2PTE; [done|lia|done]. Qed.

Lemma PA2PTE_range p : 0 ≤ p < 2 ^ 56 → 0 ≤ PA2PTE p < 2 ^ 54.
Proof.
  intros. unfold PA2PTE. rewrite Z.shiftl_mul_pow2, Z.shiftr_div_pow2 by lia.
  rewrite u64_small by (Z.to_euclidean_division_equations; lia).
  Z.to_euclidean_division_equations; lia.
Qed.

Lemma lor_range a b n : 0 ≤ n → 0 ≤ a < 2 ^ n → 0 ≤ b < 2 ^ n → 0 ≤ Z.lor a b < 2 ^ n.
Proof.
  intros Hn Ha Hb. assert (E : Z.lor a b = Z.lor a b mod 2 ^ n).
  { rewrite <- Z.land_ones, Z.land_lor_distr_l, !Z.land_ones by done.
    by rewrite !Z.mod_small by done. }
  rewrite E. apply Z.mod_pos_bound. lia.
Qed.

Lemma enc_range o : (∀ p, o = Some p → page_addr p) → 0 ≤ enc o < 2 ^ 64.
Proof.
  intros Hp. destruct o as [p|]; simpl; [|lia]. destruct (Hp p eq_refl) as [_ Hr].
  pose proof (PA2PTE_range p ltac:(lia)).
  assert (0 ≤ Z.lor (PA2PTE p) PTE_V < 2 ^ 54) by (apply lor_range; unfold PTE_V; lia). lia.
Qed.

(** ** States with a page table *)

Section proof.
Context {heap : Type} `{AL : Allocator heap}.
Implicit Types (s : @vm heap) (T : tables) (H : gmap Z Z).

Record vm_ok s T (root : Z) H : Prop := {
  vo_live : al_live (vheap s) H;
  vo_bytes : bytes_ok (vram s);
  vo_pt : pt_ok (vram s) T root;
  vo_owned : ∀ k p, T !! k = Some p → H !! p = Some PGSIZE;
}.

(** [s'] is [s] with some table pages more: nothing but table pages is
    allocated or written. *)
Record extends s T H s' T' H' : Prop := {
  e_sub : T ⊆ T';
  e_live : ∀ q, q ∉ table_pages T' → H' !! q = H !! q;
  e_fresh : ∀ q, q ∈ table_pages T' → q ∉ table_pages T → H !! q = None;
  e_same : same_outside (vram s) (vram s') (table_pages T');
}.

(** ... and the same mappings. *)
Record grows s T H s' T' H' : Prop := {
  g_ext : extends s T H s' T' H';
  g_entry : ∀ v, is_vpn v → entry (vram s') T' v = entry (vram s) T v;
}.

Lemma elem_of_table_pages T p : p ∈ table_pages T ↔ ∃ k, T !! k = Some p.
Proof. unfold table_pages. apply elem_of_map_img. Qed.

Lemma table_pages_mono T T' : T ⊆ T' → table_pages T ⊆ table_pages T'.
Proof.
  intros Hs p. rewrite !elem_of_table_pages. intros [k Hk]. exists k.
  by eapply lookup_weaken.
Qed.

Lemma same_outside_mono m m' X Y : X ⊆ Y → same_outside m m' X → same_outside m m' Y.
Proof. intros Hs Hm a Ha. apply Hm. intros p Hp. apply Ha. set_solver. Qed.

Lemma same_outside_trans m m1 m2 X :
  same_outside m m1 X → same_outside m1 m2 X → same_outside m m2 X.
Proof. intros H1 H2 a Ha. rewrite H2, H1; done. Qed.

Lemma extends_refl s T H : extends s T H s T H.
Proof. by split. Qed.

Lemma extends_trans s T H s1 T1 H1 s2 T2 H2 :
  extends s T H s1 T1 H1 → extends s1 T1 H1 s2 T2 H2 → extends s T H s2 T2 H2.
Proof.
  intros [A1 A2 A3 A4] [B1 B2 B3 B4].
  pose proof (table_pages_mono _ _ A1). pose proof (table_pages_mono _ _ B1). split.
  - by etrans.
  - intros q Hq. rewrite B2, A2; [done|set_solver|done].
  - intros q Hq Hn. destruct (decide (q ∈ table_pages T1)); [by apply A3|].
    rewrite <- A2 by done. by apply B3.
  - eapply same_outside_trans; [|done]. by eapply same_outside_mono.
Qed.

Lemma grows_refl s T H : grows s T H s T H.
Proof. by split; [apply extends_refl|]. Qed.

Lemma grows_trans s T H s1 T1 H1 s2 T2 H2 :
  grows s T H s1 T1 H1 → grows s1 T1 H1 s2 T2 H2 → grows s T H s2 T2 H2.
Proof.
  intros [A1 A2] [B1 B2]. split; [by eapply extends_trans|].
  intros v Hv. by rewrite B2, A2.
Qed.

Lemma live_page h H p : al_live h H → H !! p = Some PGSIZE → page_addr p.
Proof.
  intros Hl Hp. pose proof (al_aligned _ _ _ Hl Hp). pose proof (al_range _ _ _ _ Hl Hp).
  unfold page_addr, KERNBASE, PHYSTOP, PGSIZE in *. unfold KERNBASE in *. split; [done|lia].
Qed.

Lemma vm_alloc_ok s H :
  al_live (vheap s) H →
  ∃ p s', vm_alloc s = Ok (p, s') ∧ vram s' = vram s ∧
    ((p = 0 ∧ s' = s) ∨
     (p ≠ 0 ∧ H !! p = None ∧ page_addr p ∧ al_live (vheap s') (<[p := PGSIZE]> H))).
Proof.
  intros Hl. unfold vm_alloc, kalloc.
  destruct (al_malloc_ok (vheap s) H PGSIZE Hl) as (p & h & E & Hc); [unfold PGSIZE; lia|].
  rewrite E. simpl. exists p, (mk_vm h (vram s)). split; [done|]. split; [done|].
  destruct Hc as [[-> ->]|(sz & Hn & _ & Hsz & Hl')]; [left; by destruct s|right].
  rewrite (Hsz eq_refl) in Hl'.
  pose proof (live_page _ _ p Hl' ltac:(by rewrite lookup_insert_eq)) as Hp.
  split_and!; try done. destruct Hp. lia.
Qed.

Lemma vm_free_ok s H p sz :
  al_live (vheap s) H → H !! p = Some sz →
  ∃ s', vm_free s p = Ok s' ∧ vram s' = vram s ∧ al_live (vheap s') (delete p H).
Proof.
  intros Hl Hp. unfold vm_free, kfree.
  destruct (al_free_ok (vheap s) H p sz Hl Hp) as (h & E & Hl').
  rewrite E. simpl. eauto.
Qed.

(** Storing into page [p] leaves the words of the other pages alone. *)
Lemma ld64_other_page m p q i v j :
  page_addr p → page_addr q → p ≠ q → 0 ≤ i < 512 → 0 ≤ j < 512 →
  ld64 (st64 m (p + 8 * i) v) (q + 8 * j) = ld64 m (q + 8 * j).
Proof.
  intros Hp Hq Hne Hi Hj. apply ld64_st64_ne.
  pose proof (page_addr_ne _ _ Hp Hq Hne). unfold PGSIZE in *. lia.
Qed.

Lemma ld64_same_page m p i v j :
  i ≠ j → ld64 (st64 m (p + 8 * i) v) (p + 8 * j) = ld64 m (p + 8 * j).
Proof. intros. apply ld64_st64_ne. lia. Qed.

Lemma same_outside_st64 m p i v (X : gset Z) :
  p ∈ X → 0 ≤ i < 512 → same_outside m (st64 m (p + 8 * i) v) X.
Proof.
  intros Hp Hi a Ha. apply ld8_st64_ne. specialize (Ha p Hp). unfold PGSIZE in *. lia.
Qed.

Lemma same_outside_memset m p (X : gset Z) c :
  p ∈ X → same_outside m (memset m p c PGSIZE) X.
Proof.
  intros Hp a Ha. rewrite ld8_memset by (unfold PGSIZE; lia).
  specialize (Ha p Hp). repeat zcase; simpl; done || lia.
Qed.

Lemma ld64_same_outside m m' X q j :
  same_outside m m' X → page_addr q → (∀ p, p ∈ X → page_addr p) → q ∉ X → 0 ≤ j < 512 →
  ld64 m' (q + 8 * j) = ld64 m (q + 8 * j).
Proof.
  intros Hs Hq HX Hn Hj. apply ld_le_ext. intros a Ha. apply Hs. intros p Hp.
  assert (p ≠ q) by (intros ->; done).
  pose proof (page_addr_ne p q (HX p Hp) Hq ltac:(done)). unfold PGSIZE in *. lia.
Qed.

Lemma vo_page s T root H k p : vm_ok s T root H → T !! k = Some p → page_addr p.
Proof. intros Hok. apply (pt_page _ _ _ (vo_pt _ _ _ _ Hok)). Qed.

Lemma snoc_inj {A} (k k' : list A) i i' : k ++ [i] = k' ++ [i'] → k = k' ∧ i = i'.
Proof. apply app_inj_tail. Qed.

Lemma memset_other_page m pg q j :
  page_addr pg → page_addr q → pg ≠ q → 0 ≤ j < 512 →
  ld64 (memset m pg 0 PGSIZE) (q + 8 * j) = ld64 m (q + 8 * j).
Proof.
  intros Hp Hq Hne Hj. apply ld64_memset_out; [unfold PGSIZE; lia|].
  pose proof (page_addr_ne _ _ Hp Hq Hne). unfold PGSIZE in *. lia.
Qed.

Lemma memset_same_page m pg j :
  0 ≤ j < 512 → ld64 (memset m pg 0 PGSIZE) (pg + 8 * j) = 0.
Proof. intros. apply ld64_memset_zero; unfold PGSIZE; lia. Qed.

(** A zeroed page [pg] becomes the table below entry [i] of the table at [k]. *)
Section install.
Context (s : @vm heap) (T : tables) (root : Z) (H : gmap Z Z).
Context (k : list Z) (p i pg : Z) (h : heap).
Hypothesis Hok : vm_ok s T root H.
Hypothesis Hk : T !! k = Some p.
Hypothesis Hlen : (length k < 2)%nat.
Hypothesis Hi : 0 ≤ i < 512.
Hypothesis Hlow : k = [] → i < 256.
Hypothesis Hnone : T !! (k ++ [i]) = None.
Hypothesis Hfresh : H !! pg = None.
Hypothesis Hpg : page_addr pg.
Hypothesis Hlive : al_live h (<[pg := PGSIZE]> H).

Local Abbreviation m' := (st64 (memset (vram s) pg 0 PGSIZE) (p + 8 * i) (enc (Some pg))).
Local Abbreviation T' := (<[k ++ [i] := pg]> T).

Lemma inst_page_ne k' p' : T !! k' = Some p' → pg ≠ p'.
Proof. intros Hp' ->. rewrite (vo_owned _ _ _ _ Hok _ _ Hp') in Hfresh. done. Qed.

Lemma inst_ld_new j : 0 ≤ j < 512 → ld64 m' (pg + 8 * j) = 0.
Proof.
  intros Hj. pose proof (inst_page_ne _ _ Hk) as Hne.
  rewrite ld64_other_page;
    [by apply memset_same_page|by eapply vo_page|done|congruence|done|done].
Qed.

Lemma inst_ld_entry : ld64 m' (p + 8 * i) = enc (Some pg).
Proof. apply ld64_st64, enc_range. intros ? [= <-]. done. Qed.

Lemma inst_ld_old k' p' j :
  T !! k' = Some p' → 0 ≤ j < 512 → (k', j) ≠ (k, i) →
  ld64 m' (p' + 8 * j) = ld64 (vram s) (p' + 8 * j).
Proof.
  intros Hp' Hj Hne. pose proof (inst_page_ne _ _ Hp').
  pose proof (vo_page _ _ _ _ _ _ Hok Hp'). pose proof (vo_page _ _ _ _ _ _ Hok Hk).
  destruct (decide (p = p')) as [<-|Hpp].
  - assert (k' = k) as -> by (by eapply (pt_inj _ _ _ (vo_pt _ _ _ _ Hok))).
    rewrite ld64_same_page by congruence. by apply memset_other_page.
  - rewrite ld64_other_page by done. by apply memset_other_page.
Qed.

Lemma inst_pt_ok : pt_ok m' T' root.
Proof.
  pose proof (vo_pt _ _ _ _ Hok) as [Hroot Hpage Hinj Hcl Hlo Hnodes]. split.
  - rewrite lookup_insert_ne; [done|]. by destruct k.
  - intros k' p' [[<- <-]|[_ Hp']]%lookup_insert_Some; [done|by eapply Hpage].
  - intros k1 k2 q [[<- <-]|[_ H1]]%lookup_insert_Some [[<- E]|[_ H2]]%lookup_insert_Some.
    + done.
    + by apply inst_page_ne in H2.
    + rewrite <- E in H1. by apply inst_page_ne in H1.
    + by eapply Hinj.
  - intros k' j Hs. apply lookup_insert_is_Some in Hs as [E|[_ Hs]].
    + apply snoc_inj in E as [-> ->]. rewrite lookup_insert_is_Some'. eauto.
    + apply Hcl in Hs as (? & ? & ?). rewrite lookup_insert_is_Some'. eauto.
  - intros j k' Hs. apply lookup_insert_is_Some in Hs as [E|[_ Hs]]; [|by eapply Hlo].
    destruct k as [|j' k0] eqn:Ek; simpl in E; injection E as -> E'; [auto|].
    apply (Hlo j k0). eauto.
  - intros k' p' j [[<- <-]|[Hne Hp']]%lookup_insert_Some Hl Hj.
    + rewrite inst_ld_new by done. rewrite lookup_insert_ne.
      * destruct (T !! ((k ++ [i]) ++ [j])) eqn:E; [|done].
        destruct (Hcl (k ++ [i]) j) as [[? ?] _]; [by rewrite E|congruence].
      * intros E. apply (f_equal length) in E. rewrite !length_app in E. simpl in E. lia.
    + destruct (decide ((k', j) = (k, i))) as [[= -> ->]|Hkj].
      * rewrite lookup_insert_eq. assert (p' = p) as -> by congruence. apply inst_ld_entry.
      * rewrite (inst_ld_old k') by done. rewrite lookup_insert_ne.
        -- by apply Hnodes.
        -- intros E. apply snoc_inj in E as [-> ->]. done.
Qed.

Lemma inst_vm_ok : vm_ok (mk_vm h m') T' root (<[pg := PGSIZE]> H).
Proof.
  split; simpl.
  - done.
  - apply bytes_ok_st64, bytes_ok_memset; [unfold PGSIZE; lia|by eapply vo_bytes].
  - apply inst_pt_ok.
  - intros k' p' [[_ <-]|[_ Hp']]%lookup_insert_Some; [by rewrite lookup_insert_eq|].
    rewrite lookup_insert_ne by (by eapply inst_page_ne). by eapply vo_owned.
Qed.

Lemma inst_entry v : is_vpn v → entry m' T' v = entry (vram s) T v.
Proof.
  intros Hv. unfold entry, slot. destruct (decide (k ++ [i] = vpath v)) as [E|Hne].
  - rewrite <- E, lookup_insert_eq, Hnone. simpl. apply inst_ld_new.
    apply Z.mod_pos_bound. lia.
  - rewrite lookup_insert_ne by done. destruct (T !! vpath v) as [q|] eqn:Eq; simpl; [|done].
    apply (inst_ld_old (vpath v)); [done|apply Z.mod_pos_bound; lia|].
    intros [= E _]. rewrite <- E in Hlen. simpl in Hlen. lia.
Qed.

Lemma inst_grows : grows s T H (mk_vm h m') T' (<[pg := PGSIZE]> H).
Proof.
  split; [split; simpl|apply inst_entry].
  - by apply insert_subseteq.
  - intros q Hq. rewrite lookup_insert_ne; [done|]. intros ->. apply Hq.
    apply elem_of_table_pages. exists (k ++ [i]). by rewrite lookup_insert_eq.
  - intros q [k' Hq]%elem_of_table_pages Hn.
    apply lookup_insert_Some in Hq as [[_ <-]|[_ Hq]]; [done|].
    destruct Hn. apply elem_of_table_pages. eauto.
  - eapply same_outside_trans; [apply same_outside_memset|apply same_outside_st64; [|done]].
    + apply elem_of_table_pages. exists (k ++ [i]). by rewrite lookup_insert_eq.
    + apply elem_of_table_pages. exists k. rewrite lookup_insert_ne; [done|].
      intros E. rewrite E, Hk in Hnone. done.
Qed.

End install.

(** ** [walk] *)

Lemma walk_level_ok s T root H k p va alloc level :
  vm_ok s T root H → T !! k = Some p → (length k < 2)%nat → (k = [] → PX level va < 256) →
  ∃ r s' T' H', walk_level s p va alloc level = Ok (r, s') ∧
    vm_ok s' T' root H' ∧ grows s T H s' T' H' ∧
    (alloc = 0 → s' = s ∧ T' = T ∧ H' = H) ∧
    match r with
    | Some q => T' !! (k ++ [PX level va]) = Some q
    | None => T !! (k ++ [PX level va]) = None
    end.
Proof.
  intros Hok Hk Hlen Hlow. pose proof (PX_range level va) as Hi. unfold walk_level.
  set (i := PX level va) in *.
  assert (Hpg : ∀ q, T !! (k ++ [i]) = Some q → page_addr q) by (intros; by eapply vo_page).
  rewrite (pt_nodes _ _ _ (vo_pt _ _ _ _ Hok) k p i Hk Hlen Hi).
  rewrite has_V_enc by done. destruct (T !! (k ++ [i])) as [q|] eqn:E.
  - rewrite bool_decide_eq_true_2 by eauto. rewrite enc_PTE2PA by auto.
    exists (Some q), s, T, H. split_and!; try done; apply grows_refl.
  - rewrite bool_decide_eq_false_2 by (intros [? ?]; done).
    destruct (Z.eqb_spec alloc 0).
    { exists None, s, T, H. split_and!; try done; apply grows_refl. }
    destruct (vm_alloc_ok s H (vo_live _ _ _ _ Hok)) as (pg & s1 & -> & Hram & Hc).
    rewrite bind_Ok. destruct Hc as [[-> ->]|(Hnz & Hfr & Hpga & Hl)].
    { simpl. exists None, s, T, H. split_and!; try done; apply grows_refl. }
    destruct (Z.eqb_spec pg 0); [done|]. unfold with_ram. rewrite Hram.
    eexists (Some pg), _, (<[k ++ [i] := pg]> T), (<[pg := PGSIZE]> H).
    split; [done|]. split; [by apply inst_vm_ok|]. split; [by apply (inst_grows s T root H)|].
    split; [done|]. by rewrite lookup_insert_eq.
Qed.

Lemma slot_None_closed m T root i j :
  pt_ok m T root → T !! [i] = None → T !! [i; j] = None.
Proof.
  intros Hpt Hn. destruct (T !! [i; j]) as [q|] eqn:E; [|done].
  destruct (pt_closed _ _ _ Hpt [i] j) as [[? ?] _]; [by exists q|congruence].
Qed.

Lemma walk_ok s T root H va alloc :
  vm_ok s T root H → 0 ≤ va < MAXVA →
  ∃ r s' T' H', walk s root va alloc = Ok (r, s') ∧
    vm_ok s' T' root H' ∧ grows s T H s' T' H' ∧
    (alloc = 0 → s' = s ∧ T' = T ∧ H' = H) ∧
    ((r = 0 ∧ slot T (va / PGSIZE) = None) ∨
     (r ≠ 0 ∧ slot T' (va / PGSIZE) = Some r)).
Proof.
  intros Hok Hva. unfold walk. destruct (Z.leb_spec MAXVA va); [lia|].
  destruct (PX_vpn va Hva) as (P2 & P1 & P0).
  assert (Hvp : vpath (va / PGSIZE) = [PX 2 va; PX 1 va]) by (unfold vpath; congruence).
  destruct (walk_level_ok s T root H [] root va alloc 2) as
    (r1 & s1 & T1 & H1 & -> & Hok1 & Hg1 & Hz1 & Hr1);
    [done|apply (pt_root _ _ _ (vo_pt _ _ _ _ Hok))|simpl; lia| |].
  { intros _. rewrite P2. change MAXVA with (2 ^ 38) in Hva. unfold PGSIZE.
    Z.to_euclidean_division_equations. lia. }
  rewrite bind_Ok. simpl app in Hr1. destruct r1 as [q|].
  2: { exists 0, s1, T1, H1. split_and!; try done. left. split; [done|].
       unfold slot. rewrite Hvp, (slot_None_closed _ _ _ _ _ (vo_pt _ _ _ _ Hok) Hr1). done. }
  destruct (walk_level_ok s1 T1 root H1 [PX 2 va] q va alloc 1) as
    (r2 & s2 & T2 & H2 & -> & Hok2 & Hg2 & Hz2 & Hr2); [done|done|simpl; lia|done|].
  rewrite bind_Ok. simpl app in Hr2. pose proof (grows_trans _ _ _ _ _ _ _ _ _ Hg1 Hg2) as Hg.
  assert (Hz : alloc = 0 → s2 = s ∧ T2 = T ∧ H2 = H).
  { intros E. destruct (Hz1 E) as (-> & -> & ->). by destruct (Hz2 E) as (-> & -> & ->). }
  destruct r2 as [q2|].
  - exists (q2 + 8 * PX 0 va), s2, T2, H2. split_and!; try done. right.
    pose proof (vo_page _ _ _ _ _ _ Hok2 Hr2) as [_ Hq2]. pose proof (PX_range 0 va).
    split; [lia|]. unfold slot. rewrite Hvp, Hr2. simpl. by rewrite <- P0.
  - exists 0, s2, T2, H2. split_and!; try done. left. split; [done|].
    unfold slot. rewrite Hvp. destruct (T !! [PX 2 va; PX 1 va]) eqn:E; [|done].
    by rewrite (lookup_weaken _ _ _ _ E (e_sub _ _ _ _ _ _ (g_ext _ _ _ _ _ _ Hg1))) in Hr2.
Qed.

(** Looking up without allocating: the entry's address, or 0. *)
Lemma walk_lookup s T root H va :
  vm_ok s T root H → 0 ≤ va < MAXVA →
  walk s root va 0 = Ok (default 0 (slot T (va / PGSIZE)), s).
Proof.
  intros Hok Hva. destruct (walk_ok s T root H va 0 Hok Hva)
    as (r & s' & T' & H' & -> & _ & _ & Hz & Hr).
  destruct (Hz eq_refl) as (-> & -> & ->). do 2 f_equal.
  destruct Hr as [[-> ->]|[_ ->]]; done.
Qed.

Lemma slot_nonzero s T root H v a : vm_ok s T root H → slot T v = Some a → a ≠ 0.
Proof.
  unfold slot. intros Hok Hs. destruct (T !! vpath v) as [p|] eqn:E; [|done].
  simpl in Hs. injection Hs as <-. destruct (vo_page _ _ _ _ _ _ Hok E) as [_ ?].
  pose proof (Z.mod_pos_bound v 512). lia.
Qed.

(** ** Leaf entries *)

Lemma slot_table T v a :
  slot T v = Some a → ∃ p, T !! vpath v = Some p ∧ a = p + 8 * (v mod 512).
Proof.
  unfold slot. destruct (T !! vpath v) as [p|]; [|done]. simpl. intros [= <-]. eauto.
Qed.

Lemma set_entry_ok s T root H v a e :
  vm_ok s T root H → is_vpn v → slot T v = Some a → 0 ≤ e < 2 ^ 64 →
  let s' := with_ram s (st64 (vram s) a e) in
  vm_ok s' T root H ∧ extends s T H s' T H ∧
  ∀ w, is_vpn w → entry (vram s') T w = if v =? w then e else entry (vram s) T w.
Proof.
  intros Hok Hv Hs He. pose proof (slot_table _ _ _ Hs) as (p & Hp & ->).
  pose proof (Z.mod_pos_bound v 512 ltac:(lia)) as Hj. simpl.
  pose proof (vo_pt _ _ _ _ Hok) as Hpt. split_and!.
  - destruct Hok as [Hl Hb [Hroot Hpage Hinj Hcl Hlo Hnodes] Ho]. split; simpl; auto with ram_db.
    split; try done. intros k q i Hk Hlen Hi. rewrite <- (Hnodes k q i) by done.
    apply ld64_other_page; eauto. intros ->. assert (vpath v = k) as <- by (by eapply Hinj).
    simpl in Hlen. lia.
  - split; try done. simpl. apply same_outside_st64; [|done].
    apply elem_of_table_pages. eauto.
  - intros w Hw. unfold entry. destruct (Z.eqb_spec v w) as [<-|Hne].
    { rewrite Hs. by apply ld64_st64. }
    destruct (slot T w) as [b|] eqn:Eb; [|done]. apply slot_table in Eb as (q & Hq & ->).
    pose proof (Z.mod_pos_bound w 512 ltac:(lia)).
    destruct (decide (p = q)) as [<-|Hpq].
    + apply ld64_same_page. intros E. apply Hne, vpath_inj; try done.
      by eapply (pt_inj _ _ _ Hpt).
    + apply ld64_other_page; try done; by eapply vo_page.
Qed.

(** ** [mappages] *)

Definition mkpte (pa perm : Z) : Z := Z.lor (Z.lor (PA2PTE pa) perm) PTE_V.

Lemma mkpte_range pa perm :
  0 ≤ pa < 2 ^ 56 → 0 ≤ perm < 2 ^ 10 → 0 ≤ mkpte pa perm < 2 ^ 64.
Proof.
  intros Hpa Hperm. pose proof (PA2PTE_range pa Hpa).
  assert (0 ≤ Z.lor (PA2PTE pa) perm < 2 ^ 54) by (apply lor_range; lia).
  assert (0 ≤ mkpte pa perm < 2 ^ 54) by (apply lor_range; unfold PTE_V; lia). lia.
Qed.

Lemma vpn_addr v : is_vpn v → 0 ≤ v * PGSIZE < MAXVA ∧ v * PGSIZE / PGSIZE = v.
Proof.
  unfold is_vpn. change MAXVA with (2 ^ 38). unfold PGSIZE. intros.
  split; [lia|]. by rewrite Z.div_mul by lia.
Qed.

(** The entries of [j] pages from [v] on refer to the pages from [pa] on. *)
Definition mapped (E : Z → Z) (v j pa perm w : Z) : Z :=
  if (v <=? w) && (w <? v + j) then mkpte (pa + (w - v) * PGSIZE) perm else E w.

Lemma mappages_loop_eq fuel s root a last pa perm :
  mappages_loop (S fuel) s root a last pa perm =
  ('(pte, s) ← walk s root a 1;
   if pte =? 0 then Ok (-1, s)
   else if has (ld64 (vram s) pte) PTE_V then Panic "mappages: remap"
   else
     let s := with_ram s (st64 (vram s) pte (mkpte pa perm)) in
     if a =? last then Ok (0, s)
     else mappages_loop fuel s root (u64 (a + PGSIZE)) last (u64 (pa + PGSIZE)) perm).
Proof. done. Qed.

(** One turn of the loop. *)
Lemma map_step s T root H v pa perm :
  vm_ok s T root H → is_vpn v → 0 ≤ pa < 2 ^ 56 → 0 ≤ perm < 2 ^ 10 →
  has (entry (vram s) T v) PTE_V = false →
  ∃ a s1 T1 H1, walk s root (v * PGSIZE) 1 = Ok (a, s1) ∧
    ((a = 0 ∧ vm_ok s1 T1 root H1 ∧ grows s T H s1 T1 H1) ∨
     (a ≠ 0 ∧ has (ld64 (vram s1) a) PTE_V = false ∧
      let s2 := with_ram s1 (st64 (vram s1) a (mkpte pa perm)) in
      vm_ok s2 T1 root H1 ∧ extends s T H s2 T1 H1 ∧
      ∀ w, is_vpn w →
        entry (vram s2) T1 w = if v =? w then mkpte pa perm else entry (vram s) T w)).
Proof.
  intros Hok Hvpn Hpa Hperm Hfree. destruct (vpn_addr v Hvpn) as [Hva Hdiv].
  destruct (walk_ok s T root H (v * PGSIZE) 1 Hok Hva)
    as (a & s1 & T1 & H1 & E & Hok1 & Hg1 & _ & Hr). rewrite Hdiv in Hr.
  exists a, s1, T1, H1. split; [done|].
  destruct Hr as [[-> _]|[Hnz Hslot]]; [by left|right]. split; [done|].
  destruct Hg1 as [Hx1 He1]. split.
  { rewrite <- Hfree, <- (He1 v Hvpn). unfold entry. by rewrite Hslot. }
  destruct (set_entry_ok s1 T1 root H1 v a (mkpte pa perm) Hok1 Hvpn Hslot) as (Hok2 & Hx2 & He2);
    [by apply mkpte_range|].
  split; [done|]. split; [by eapply extends_trans|].
  intros w Hw. rewrite He2 by done. zcase; [done|]. by apply He1.
Qed.

Lemma mapped_zero E v pa perm w : mapped E v 0 pa perm w = E w.
Proof. unfold mapped. repeat zcase; simpl; done || lia. Qed.

Lemma mapped_one E v pa perm w :
  mapped E v 1 pa perm w = if v =? w then mkpte pa perm else E w.
Proof.
  unfold mapped. repeat zcase; simpl; try lia; try done.
  subst. by rewrite Z.sub_diag, Z.mul_0_l, Z.add_0_r.
Qed.

Lemma mapped_succ E v j pa perm w :
  0 ≤ j →
  mapped (λ w, if v =? w then mkpte pa perm else E w) (v + 1) j (pa + PGSIZE) perm w =
  mapped E v (j + 1) pa perm w.
Proof.
  intros Hj. unfold mapped, PGSIZE.
  repeat zcase; simpl; subst; first [done|lia|f_equal; lia].
Qed.

Lemma mapped_ext E E' v j pa perm w :
  E w = E' w → mapped E v j pa perm w = mapped E' v j pa perm w.
Proof. unfold mapped. by intros ->. Qed.

Lemma mappages_loop_ok n root perm : ∀ s T H v pa,
  vm_ok s T root H → 0 ≤ v → v + Z.of_nat n < 2 ^ 26 →
  0 ≤ pa → pa + (Z.of_nat n + 1) * PGSIZE ≤ 2 ^ 56 → 0 ≤ perm < 2 ^ 10 →
  (∀ w, v ≤ w ≤ v + Z.of_nat n → has (entry (vram s) T w) PTE_V = false) →
  ∃ r s' T' H' j,
    mappages_loop (S n) s root (v * PGSIZE) ((v + Z.of_nat n) * PGSIZE) pa perm = Ok (r, s') ∧
    vm_ok s' T' root H' ∧ extends s T H s' T' H' ∧
    ((r = 0 ∧ j = Z.of_nat n + 1) ∨ (r = -1 ∧ 0 ≤ j ≤ Z.of_nat n)) ∧
    ∀ w, is_vpn w → entry (vram s') T' w = mapped (entry (vram s) T) v j pa perm w.
Proof.
  induction n as [|n IH]; intros s T H v pa Hok Hv Hn Hpa Hpan Hperm Hfree;
    assert (Hvpn : is_vpn v) by (unfold is_vpn; lia);
    destruct (map_step s T root H v pa perm Hok Hvpn) as (a & s1 & T1 & H1 & E1 & Hc);
    try (apply Hfree; lia); try (unfold PGSIZE in *; lia);
    rewrite (mappages_loop_eq _ s), E1, bind_Ok;
    (destruct Hc as [(-> & Hok1 & [Hx1 He1])|(Hnz & Hinv & Hok2 & Hx2 & He2)];
    [exists (-1), s1, T1, H1, 0; split_and!; try done; [right; lia|];
     intros w Hw; by rewrite mapped_zero, He1|]);
    (destruct (Z.eqb_spec a 0); [done|]); rewrite Hinv; fold (mkpte pa perm).
  - rewrite Z.add_0_r, Z.eqb_refl. eexists 0, _, T1, H1, 1. split; [done|].
    split; [exact Hok2|]. split; [done|]. split; [by left|].
    intros w Hw. by rewrite mapped_one, He2.
  - destruct (Z.eqb_spec (v * PGSIZE) ((v + Z.of_nat (S n)) * PGSIZE)) as [E|_];
      [unfold PGSIZE in E; lia|].
    rewrite (u64_small (v * PGSIZE + _)), (u64_small (pa + _)) by (unfold PGSIZE in *; lia).
    replace (v * PGSIZE + PGSIZE) with ((v + 1) * PGSIZE) by lia.
    replace (v + Z.of_nat (S n)) with (v + 1 + Z.of_nat n) by lia.
    destruct (IH _ T1 H1 (v + 1) (pa + PGSIZE) Hok2)
      as (r & s3 & T3 & H3 & j & E3 & Hok3 & Hx3 & Hr3 & He3);
      [lia|lia|unfold PGSIZE in *; lia|unfold PGSIZE in *; lia|done| |].
    { intros w Hw. rewrite He2 by (unfold is_vpn; lia). zcase; [lia|]. apply Hfree. lia. }
    exists r, s3, T3, H3, (j + 1). split; [exact E3|]. split; [done|].
    split; [by eapply extends_trans|]. split; [lia|].
    intros w Hw. rewrite He3, <- mapped_succ by (done || lia). apply mapped_ext. by apply He2.
Qed.

(** [mappages] of [n + 1] pages that are not mapped yet. *)
Lemma mappages_ok s T root H va size pa perm :
  vm_ok s T root H → 0 ≤ va → 0 < size → va + size ≤ MAXVA →
  0 ≤ pa → pa + size + 2 * PGSIZE ≤ 2 ^ 56 → 0 ≤ perm < 2 ^ 10 →
  let v := va / PGSIZE in
  let n := (va + size - 1) / PGSIZE - v + 1 in
  (∀ w, v ≤ w < v + n → has (entry (vram s) T w) PTE_V = false) →
  ∃ r s' T' H' j,
    mappages s root va size pa perm = Ok (r, s') ∧
    vm_ok s' T' root H' ∧ extends s T H s' T' H' ∧
    ((r = 0 ∧ j = n) ∨ (r = -1 ∧ 0 ≤ j < n)) ∧
    ∀ w, is_vpn w → entry (vram s') T' w = mapped (entry (vram s) T) v j pa perm w.
Proof.
  intros Hok Hva Hsz Hmax Hpa Hpab Hperm v n Hfree. change MAXVA with (2 ^ 38) in Hmax.
  unfold mappages. destruct (Z.eqb_spec size 0); [lia|].
  rewrite !PGROUNDDOWN_eq, u64_small by lia. change 4096 with PGSIZE.
  set (w := (va + size - 1) / PGSIZE) in *. fold v.
  assert (Hvw : 0 ≤ v ≤ w ∧ w < 2 ^ 26).
  { unfold v, w, PGSIZE. Z.to_euclidean_division_equations. lia. }
  assert (Hn : (w - v) * PGSIZE < size + PGSIZE).
  { unfold v, w, PGSIZE. Z.to_euclidean_division_equations. lia. }
  unfold mappages_fuel. destruct (Z.leb_spec (v * PGSIZE) (w * PGSIZE)); [|unfold PGSIZE in *; lia].
  replace ((w * PGSIZE - v * PGSIZE) / PGSIZE) with (w - v)
    by (rewrite <- Z.mul_sub_distr_r, Z.div_mul; unfold PGSIZE; lia).
  destruct (mappages_loop_ok (Z.to_nat (w - v)) root perm s T H v pa) as
    (r & s' & T' & H' & j & E & Hok' & Hx & Hr & He);
    [done|lia|lia|lia|unfold PGSIZE in *; lia|done|intros; apply Hfree; lia|].
  rewrite Z2Nat.id in E, Hr by lia. replace (v + (w - v)) with w in E by lia.
  exists r, s', T', H', j. split_and!; try done. lia.
Qed.

End proof.
