(* ===== verification/VmUser.v ===== *)
(** * User memory: the operations of [vm.c] on the pages of a process. *)

From S2P Require Import Prelude.
From S2P Require Import Riscv.
From S2P Require Import Ram.
From S2P Require Import Kalloc.
From S2P Require Import Vm.
From S2P Require Import VmProof.

(** The live memory [H] without the pieces at [X]. *)
Definition without (H : gmap Z Z) (X : gset Z) : gmap Z Z :=
  filter (λ x, x.1 ∉ X) H.

Lemma lookup_without H X q : without H X !! q = if decide (q ∈ X) then None else H !! q.
Proof.
  unfold without. rewrite map_lookup_filter. destruct (H !! q) as [z|]; simpl.
  - destruct (decide (q ∈ X)).
    + by rewrite option_guard_False by naive_solver.
    + by rewrite option_guard_True by done.
  - by destruct (decide _).
Qed.

Lemma without_empty H : without H ∅ = H.
Proof. apply map_eq. intros q. rewrite lookup_without. by rewrite decide_False by set_solver. Qed.

Lemma without_union H X Y : without (without H X) Y = without H (X ∪ Y).
Proof.
  apply map_eq. intros q. rewrite !lookup_without.
  destruct (decide (q ∈ X)), (decide (q ∈ Y)), (decide (q ∈ X ∪ Y)); set_solver.
Qed.

Lemma delete_without H p : delete p H = without H {[p]}.
Proof.
  apply map_eq. intros q. rewrite lookup_without. destruct (decide (q ∈ {[p]})) as [E|E].
  - apply elem_of_singleton in E as ->. by rewrite lookup_delete_eq.
  - rewrite lookup_delete_ne; [done|]. set_solver.
Qed.

Section user.
Context {heap : Type} `{AL : Allocator heap}.
Implicit Types (s : @vm heap) (T : tables) (H U : gmap Z Z).

(** The pages of [U], from virtual to physical page, are mapped by the table,
    are allocated, distinct, and not table pages. *)
Record user_ok s T (root : Z) H U : Prop := {
  uo_vm : vm_ok s T root H;
  uo_map : ∀ v p, U !! v = Some p →
    is_vpn v ∧ H !! p = Some PGSIZE ∧ p ∉ table_pages T ∧
    ∃ fl, entry (vram s) T v = mkpte p fl ∧ 0 ≤ fl < 2 ^ 10 ∧ Z.lor fl PTE_V ≠ PTE_V;
  uo_inj : ∀ v w p, U !! v = Some p → U !! w = Some p → v = w;
}.

Lemma mkpte_lor pa fl : mkpte pa fl = Z.lor (PA2PTE pa) (Z.lor fl PTE_V).
Proof. unfold mkpte. by rewrite Z.lor_assoc. Qed.

Lemma mkpte_flags p fl :
  page_addr p → 0 ≤ fl < 2 ^ 10 →
  PTE2PA (mkpte p fl) = p ∧ PTE_FLAGS (mkpte p fl) = Z.lor fl PTE_V ∧
  has (mkpte p fl) PTE_V = true.
Proof.
  intros [Hal Hr] Hfl.
  assert (0 ≤ Z.lor fl PTE_V < 2 ^ 10) by (apply lor_range; unfold PTE_V; lia).
  rewrite mkpte_lor. split_and!.
  - by apply PTE2PA_PA2PTE; [|lia|].
  - by apply PTE_FLAGS_PA2PTE; [lia|].
  - unfold has. apply negb_true_iff, Z.eqb_neq. intros E.
    apply (f_equal (λ x, Z.testbit x 0)) in E.
    rewrite Z.land_spec, !Z.lor_spec, Z.bits_0 in E.
    change (Z.testbit PTE_V 0) with true in E. by rewrite !orb_true_r in E.
Qed.

Lemma page_of_live s T root H p : vm_ok s T root H → H !! p = Some PGSIZE → page_addr p.
Proof. intros Hok. apply (live_page (vheap s)). by eapply vo_live. Qed.

Lemma entry_slot m T v : entry m T v ≠ 0 → is_Some (slot T v).
Proof. unfold entry. destruct (slot T v); [eauto|done]. Qed.

Lemma mkpte_nonzero p fl : mkpte p fl ≠ 0.
Proof.
  intros E. apply (f_equal (λ x, Z.testbit x 0)) in E. unfold mkpte in E.
  rewrite !Z.lor_spec, Z.bits_0 in E. change (Z.testbit PTE_V 0) with true in E.
  by rewrite orb_true_r in E.
Qed.

(** Freeing a page that is not a table page. *)
Lemma vm_ok_without s s' T root H X :
  vm_ok s T root H → vram s' = vram s → al_live (vheap s') (without H X) →
  (∀ p, p ∈ X → p ∉ table_pages T) → vm_ok s' T root (without H X).
Proof.
  intros [Hl Hb Hpt Ho] E Hl' HX. split; rewrite ?E; try done.
  intros k p Hk. rewrite lookup_without. rewrite decide_False; [by eapply Ho|].
  intros Hp. apply (HX p Hp). apply elem_of_table_pages. eauto.
Qed.

(** ** [uvmunmap] *)

(** The pages of [n] virtual pages from [v] on. *)
Definition range_pages (U : gmap Z Z) (v n : Z) : gset Z :=
  map_img (filter (λ x, v ≤ x.1 < v + n) U).

Definition unmapped (U : gmap Z Z) (v n : Z) : gmap Z Z :=
  filter (λ x, ¬ (v ≤ x.1 < v + n)) U.

Lemma lookup_unmapped U v n w :
  unmapped U v n !! w = if decide (v ≤ w < v + n) then None else U !! w.
Proof.
  unfold unmapped. rewrite map_lookup_filter. destruct (U !! w) as [z|]; simpl.
  - destruct (decide (v ≤ w < v + n)).
    + by rewrite option_guard_False by naive_solver.
    + by rewrite option_guard_True by done.
  - by destruct (decide _).
Qed.

Lemma elem_of_range_pages U v n p :
  p ∈ range_pages U v n ↔ ∃ w, U !! w = Some p ∧ v ≤ w < v + n.
Proof.
  unfold range_pages. rewrite elem_of_map_img. split.
  - intros [w Hw]. apply map_lookup_filter_Some in Hw as [Hw ?]. simpl in *. eauto.
  - intros (w & Hw & ?). exists w. by apply map_lookup_filter_Some.
Qed.

(** The entries of [n] pages from [v] on are cleared. *)
Definition cleared (E : Z → Z) (v n w : Z) : Z :=
  if (v <=? w) && (w <? v + n) then 0 else E w.

(** One turn of the loop on a mapped page. *)
Lemma unmap_step s T root H U v p :
  user_ok s T root H U → U !! v = Some p →
  ∃ a s1, walk s root (v * PGSIZE) 0 = Ok (a, s) ∧ a ≠ 0 ∧
    has (ld64 (vram s) a) PTE_V = true ∧ PTE_FLAGS (ld64 (vram s) a) ≠ PTE_V ∧
    PTE2PA (ld64 (vram s) a) = p ∧ vm_free s p = Ok s1 ∧
    let s2 := with_ram s1 (st64 (vram s1) a 0) in
    user_ok s2 T root (without H {[p]}) (delete v U) ∧
    same_outside (vram s) (vram s2) (table_pages T) ∧
    ∀ w, is_vpn w → entry (vram s2) T w = if v =? w then 0 else entry (vram s) T w.
Proof.
  intros [Hok Hmap Hinj] Hv. destruct (Hmap v p Hv) as (Hvpn & Hp & Hpt & fl & Ee & Hfl & Hnl).
  destruct (vpn_addr v Hvpn) as [Hva Hdiv].
  rewrite (walk_lookup s T root H) by done. rewrite Hdiv.
  destruct (entry_slot (vram s) T v) as [a Ha]; [rewrite Ee; apply mkpte_nonzero|].
  assert (El : ld64 (vram s) a = mkpte p fl) by (rewrite <- Ee; unfold entry; by rewrite Ha).
  destruct (mkpte_flags p fl (page_of_live _ _ _ _ _ Hok Hp) Hfl) as (M1 & M2 & M3).
  destruct (vm_free_ok s H p PGSIZE (vo_live _ _ _ _ Hok) Hp) as (s1 & E1 & Hram & Hl1).
  rewrite delete_without in Hl1. rewrite Ha. simpl.
  exists a, s1. rewrite El, M1, M2, M3. split_and!; try done; [by eapply slot_nonzero|..].
  all: assert (Hok1 : vm_ok s1 T root (without H {[p]})) by
    (eapply vm_ok_without; [exact Hok|done|done|set_solver]);
    destruct (set_entry_ok s1 T root (without H {[p]}) v a 0 Hok1 Hvpn Ha) as (Hok2 & Hx2 & He2);
    [lia|]; rewrite Hram in *.
  - split; [done| |].
    + intros w q Hw. apply lookup_delete_Some in Hw as [Hne Hw].
      destruct (Hmap w q Hw) as (Hwv & Hq & Hqt & fl' & Ee' & Hfl' & Hnl').
      split_and!; try done.
      * rewrite lookup_without, decide_False; [done|]. intros ->%elem_of_singleton.
        by destruct Hne; eapply Hinj.
      * exists fl'. split; [|done]. simpl in He2. rewrite He2 by done.
        destruct (Z.eqb_spec v w); done.
    + intros w w' q [_ Hw]%lookup_delete_Some [_ Hw']%lookup_delete_Some. by eapply Hinj.
  - pose proof (e_same _ _ _ _ _ _ Hx2) as Hs. by rewrite Hram in Hs.
  - exact He2.
Qed.

Lemma range_pages_succ U v p n :
  U !! v = Some p → 0 ≤ n →
  range_pages U v (n + 1) = {[p]} ∪ range_pages (delete v U) (v + 1) n.
Proof.
  intros Hv Hn. apply set_eq. intros q.
  rewrite elem_of_union, elem_of_singleton, !elem_of_range_pages. split.
  - intros (w & Hw & Hr). destruct (decide (w = v)) as [->|]; [left; congruence|right].
    exists w. rewrite lookup_delete_ne by done. split; [done|lia].
  - intros [->|(w & Hw & Hr)]; [exists v; split; [done|lia]|].
    apply lookup_delete_Some in Hw as [_ Hw]. exists w. split; [done|lia].
Qed.

Lemma unmapped_succ U v n : 0 ≤ n → unmapped (delete v U) (v + 1) n = unmapped U v (n + 1).
Proof.
  intros Hn. apply map_eq. intros w. rewrite !lookup_unmapped.
  destruct (decide (w = v)) as [->|].
  - rewrite lookup_delete_eq. rewrite (decide_True (P := v ≤ v < v + (n + 1))) by lia.
    by destruct (decide _).
  - rewrite lookup_delete_ne by done.
    destruct (decide (v + 1 ≤ w < v + 1 + n)), (decide (v ≤ w < v + (n + 1))); done || lia.
Qed.

Lemma range_pages_zero U v : range_pages U v 0 = ∅.
Proof.
  apply set_eq. intros q. rewrite elem_of_range_pages. split; [|set_solver].
  intros (w & _ & Hw). lia.
Qed.

Lemma unmapped_zero U v : unmapped U v 0 = U.
Proof. apply map_eq. intros w. rewrite lookup_unmapped. by rewrite decide_False by lia. Qed.

Lemma uvmunmap_loop_ok n : ∀ s T root H U v,
  user_ok s T root H U → (∀ w, v ≤ w < v + Z.of_nat n → is_Some (U !! w)) →
  ∃ s', uvmunmap_loop n s root (v * PGSIZE) 1 = Ok s' ∧
    user_ok s' T root (without H (range_pages U v (Z.of_nat n))) (unmapped U v (Z.of_nat n)) ∧
    same_outside (vram s) (vram s') (table_pages T) ∧
    ∀ w, is_vpn w → entry (vram s') T w = cleared (entry (vram s) T) v (Z.of_nat n) w.
Proof.
  induction n as [|n IH]; intros s T root H U v Hu Hall; cbn [uvmunmap_loop].
  { exists s. rewrite range_pages_zero, unmapped_zero, without_empty. split_and!; try done.
    intros w Hw. unfold cleared. repeat zcase; simpl; done || lia. }
  destruct (Hall v ltac:(lia)) as [p Hv].
  destruct (unmap_step s T root H U v p Hu Hv)
    as (a & s1 & -> & Hnz & Hval & Hleaf & Epa & Efree & Hu2 & Hs2 & He2).
  rewrite bind_Ok. destruct (Z.eqb_spec a 0); [done|]. rewrite Hval. simpl negb. cbn iota.
  destruct (Z.eqb_spec (PTE_FLAGS (ld64 (vram s) a)) PTE_V); [done|].
  rewrite Epa. simpl (1 =? 0). cbn iota. rewrite Efree, bind_Ok.
  replace (v * PGSIZE + PGSIZE) with ((v + 1) * PGSIZE) by lia.
  destruct (IH _ T root _ _ (v + 1) Hu2) as (s3 & E3 & Hu3 & Hs3 & He3).
  { intros w Hw. rewrite lookup_delete_ne by lia. apply Hall. lia. }
  exists s3. split; [exact E3|]. replace (Z.of_nat (S n)) with (Z.of_nat n + 1) by lia.
  rewrite (range_pages_succ _ _ _ _ Hv) by lia. rewrite <- unmapped_succ by lia.
  rewrite <- without_union. split; [done|]. split; [by eapply same_outside_trans|].
  intros w Hw. rewrite He3 by done. unfold cleared. rewrite He2 by done.
  repeat zcase; simpl; done || lia.
Qed.

Lemma uvmunmap_ok s T root H U v n :
  user_ok s T root H U → 0 ≤ v → 0 ≤ n → v + n ≤ 2 ^ 26 →
  (∀ w, v ≤ w < v + n → is_Some (U !! w)) →
  ∃ s', uvmunmap s root (v * PGSIZE) n 1 = Ok s' ∧
    user_ok s' T root (without H (range_pages U v n)) (unmapped U v n) ∧
    same_outside (vram s) (vram s') (table_pages T) ∧
    ∀ w, is_vpn w → entry (vram s') T w = cleared (entry (vram s) T) v n w.
Proof.
  intros Hu Hv Hn Hb Hall. unfold uvmunmap. rewrite Z.mod_mul by (unfold PGSIZE; lia).
  simpl negb. cbn iota.
  rewrite (u64_small (n * PGSIZE)), u64_small by (unfold PGSIZE; lia).
  replace ((v * PGSIZE + n * PGSIZE - v * PGSIZE + PGSIZE - 1) / PGSIZE) with n
    by (unfold PGSIZE; Z.to_euclidean_division_equations; lia).
  destruct (uvmunmap_loop_ok (Z.to_nat n) s T root H U v Hu) as (s' & E & Hr);
    [intros; apply Hall; lia|]. rewrite Z2Nat.id in Hr by done. eauto.
Qed.

(** ** [uvmdealloc] *)

Lemma pages_of sz : 0 ≤ sz → sz + 4095 < 2 ^ 64 → PGROUNDUP sz = (sz + 4095) / 4096 * PGSIZE.
Proof. apply PGROUNDUP_eq. Qed.

(** The number of pages of a process of [sz] bytes. *)
Definition npages (sz : Z) : Z := (sz + 4095) / 4096.

Lemma npages_mono a b : a ≤ b → npages a ≤ npages b.
Proof. intros. unfold npages. apply Z.div_le_mono; lia. Qed.

Lemma npages_range sz : 0 ≤ sz ≤ MAXVA → 0 ≤ npages sz ≤ 2 ^ 26.
Proof.
  change MAXVA with (2 ^ 38). unfold npages. intros. Z.to_euclidean_division_equations. lia.
Qed.

Lemma uvmdealloc_ok s T root H U oldsz newsz :
  user_ok s T root H U → 0 ≤ newsz → newsz < oldsz → oldsz ≤ MAXVA →
  let v := npages newsz in
  let n := npages oldsz - v in
  (∀ w, v ≤ w < v + n → is_Some (U !! w)) →
  ∃ s', uvmdealloc s root oldsz newsz = Ok (newsz, s') ∧
    user_ok s' T root (without H (range_pages U v n)) (unmapped U v n) ∧
    same_outside (vram s) (vram s') (table_pages T) ∧
    ∀ w, is_vpn w → entry (vram s') T w = cleared (entry (vram s) T) v n w.
Proof.
  intros Hu H0 Hlt Hmax v n Hall. unfold uvmdealloc.
  pose proof (npages_range oldsz ltac:(lia)). pose proof (npages_range newsz ltac:(lia)).
  pose proof (npages_mono newsz oldsz ltac:(lia)).
  change MAXVA with (2 ^ 38) in *. destruct (Z.leb_spec oldsz newsz); [lia|].
  rewrite !pages_of by lia. fold (npages newsz) (npages oldsz). fold v.
  destruct (Z.ltb_spec (v * PGSIZE) (npages oldsz * PGSIZE)) as [Hl|Hl].
  - rewrite <- Z.mul_sub_distr_r, Z.div_mul by (unfold PGSIZE; lia). fold n.
    rewrite i32_small, u64_small by lia.
    destruct (uvmunmap_ok s T root H U v n Hu) as (s' & -> & Hr); [lia|lia|lia|done|].
    simpl. eauto.
  - assert (n = 0) as -> by (unfold PGSIZE in *; lia). simpl. exists s.
    rewrite range_pages_zero, unmapped_zero, without_empty. split_and!; try done.
    intros w Hw. unfold cleared. repeat zcase; simpl; done || lia.
Qed.

(** ** Mapping one more page *)

Lemma vm_ok_data s T root H pg m' :
  vm_ok s T root H → page_addr pg → pg ∉ table_pages T →
  same_outside (vram s) m' {[pg]} → bytes_ok m' →
  vm_ok (with_ram s m') T root H ∧
  ∀ w, is_vpn w → entry m' T w = entry (vram s) T w.
Proof.
  intros Hok Hpg Hnt Hs Hb. pose proof Hok as [Hl _ [Hroot Hpage Hinj Hcl Hlo Hnodes] Ho].
  assert (Hld : ∀ k q i, T !! k = Some q → 0 ≤ i < 512 →
            ld64 m' (q + 8 * i) = ld64 (vram s) (q + 8 * i)).
  { intros k q i Hk Hi. eapply ld64_same_outside; [exact Hs|by eapply Hpage| | |done].
    - by intros ? ->%elem_of_singleton.
    - intros ->%elem_of_singleton. apply Hnt, elem_of_table_pages. eauto. }
  split.
  - split; simpl; try done. split; try done. intros k q i Hk Hlen Hi.
    rewrite (Hld k) by done. by apply Hnodes.
  - intros w Hw. unfold entry, slot. destruct (T !! vpath w) as [q|] eqn:Eq; [|done].
    simpl. apply (Hld (vpath w)); [done|]. apply Z.mod_pos_bound. lia.
Qed.

Lemma user_ok_data s T root H U pg m' :
  user_ok s T root H U → page_addr pg → pg ∉ table_pages T →
  same_outside (vram s) m' {[pg]} → bytes_ok m' →
  user_ok (with_ram s m') T root H U ∧
  ∀ w, is_vpn w → entry m' T w = entry (vram s) T w.
Proof.
  intros [Hok Hmap Hinj] Hpg Hnt Hs Hb.
  destruct (vm_ok_data s T root H pg m' Hok Hpg Hnt Hs Hb) as [Hok' He].
  split; [|done]. split; [done| |done]. intros v p Hv.
  destruct (Hmap v p Hv) as (? & ? & ? & fl & Ee & ?). split_and!; try done.
  exists fl. split; [|done]. simpl. by rewrite He.
Qed.

Lemma not_table_extends s T H s' T' H' p z :
  extends s T H s' T' H' → H !! p = Some z → p ∉ table_pages T → p ∉ table_pages T'.
Proof. intros Hx Hp Hn Hin. rewrite (e_fresh _ _ _ _ _ _ Hx p Hin Hn) in Hp. done. Qed.

Lemma user_ok_extends s T root H U s' T' H' :
  user_ok s T root H U → vm_ok s' T' root H' → extends s T H s' T' H' →
  (∀ v, is_Some (U !! v) → entry (vram s') T' v = entry (vram s) T v) →
  user_ok s' T' root H' U.
Proof.
  intros [Hok Hmap Hinj] Hok' Hx He. split; [done| |done]. intros v p Hv.
  destruct (Hmap v p Hv) as (? & Hp & Hnt & fl & Ee & ?).
  pose proof (not_table_extends _ _ _ _ _ _ _ _ Hx Hp Hnt) as Hnt'.
  split_and!; try done.
  - by rewrite (e_live _ _ _ _ _ _ Hx).
  - exists fl. split; [|done]. by rewrite He.
Qed.

(** A filled page [pg] is mapped at [v]: it joins the user pages, or the table
    could not be extended and nothing changes. *)
Lemma map_page_ok s T root H U v pg m' perm :
  user_ok s T root H U → is_vpn v → U !! v = None →
  has (entry (vram s) T v) PTE_V = false →
  H !! pg = Some PGSIZE → pg ∉ table_pages T → (∀ w, U !! w ≠ Some pg) →
  same_outside (vram s) m' {[pg]} → bytes_ok m' →
  0 ≤ perm < 2 ^ 10 → Z.lor perm PTE_V ≠ PTE_V →
  ∃ r s' T' H', mappages (with_ram s m') root (v * PGSIZE) PGSIZE pg perm = Ok (r, s') ∧
    extends (with_ram s m') T H s' T' H' ∧
    ((r = 0 ∧ user_ok s' T' root H' (<[v := pg]> U) ∧
      ∀ w, is_vpn w →
        entry (vram s') T' w = if v =? w then mkpte pg perm else entry (vram s) T w) ∨
     (r = -1 ∧ user_ok s' T' root H' U ∧
      ∀ w, is_vpn w → entry (vram s') T' w = entry (vram s) T w)).
Proof.
  intros Hu Hv HUv Hfree Hpg Hnt HU Hs Hb Hperm Hleaf.
  pose proof (page_of_live _ _ _ _ _ (uo_vm _ _ _ _ _ Hu) Hpg) as Hpa.
  destruct (user_ok_data s T root H U pg m' Hu Hpa Hnt Hs Hb) as [Hu1 He1].
  destruct (vpn_addr v Hv) as [Hva Hdiv].
  pose proof (al_range _ _ _ _ (vo_live _ _ _ _ (uo_vm _ _ _ _ _ Hu)) Hpg) as Hphys.
  assert (Hone : (v * PGSIZE + PGSIZE - 1) / PGSIZE - v + 1 = 1).
  { unfold PGSIZE. Z.to_euclidean_division_equations. lia. }
  destruct (mappages_ok (with_ram s m') T root H (v * PGSIZE) PGSIZE pg perm
              (uo_vm _ _ _ _ _ Hu1)) as (r & s' & T' & H' & j & E & Hok' & Hx & Hr & He).
  { lia. } { unfold PGSIZE; lia. }
  { unfold is_vpn in Hv. change MAXVA with (2 ^ 38). unfold PGSIZE. lia. }
  { destruct Hpa; lia. }
  { unfold PHYSTOP, KERNBASE, PGSIZE in *. lia. } { done. }
  { rewrite Hdiv, Hone. intros w Hw. assert (w = v) as -> by lia. simpl.
    by rewrite He1. }
  rewrite Hdiv, Hone in Hr. rewrite Hdiv in He.
  exists r, s', T', H'. split; [done|]. split; [done|]. destruct Hr as [[-> ->]|[-> Hj]].
  - left. split; [done|].
    assert (Hent : ∀ w, is_vpn w →
      entry (vram s') T' w = if v =? w then mkpte pg perm else entry (vram s) T w).
    { intros w Hw. rewrite He, mapped_one by done. simpl. by rewrite He1. }
    split; [|done].
    assert (Hu2 : user_ok s' T' root H' U).
    { eapply user_ok_extends; [exact Hu1|done|done|]. intros w Hw. simpl.
      assert (is_vpn w) by (destruct Hw as [? Hw]; by apply (uo_map _ _ _ _ _ Hu) in Hw as [? _]).
      rewrite Hent, He1 by done. destruct (Z.eqb_spec v w) as [<-|]; [|done].
      rewrite HUv in Hw. by destruct Hw. }
    pose proof (not_table_extends _ _ _ _ _ _ _ _ Hx Hpg Hnt) as Hnt'.
    split; [done| |].
    + intros w p [[<- <-]|[Hne Hw]]%lookup_insert_Some; [|by apply (uo_map _ _ _ _ _ Hu2)].
      split_and!; try done; [by rewrite (e_live _ _ _ _ _ _ Hx)|].
      exists perm. rewrite Hent, Z.eqb_refl by done. done.
    + intros w w' p [[<- <-]|[? Hw]]%lookup_insert_Some [[<- E']|[? Hw']]%lookup_insert_Some.
      * done. * by destruct (HU w'). * subst. by destruct (HU w).
      * by eapply (uo_inj _ _ _ _ _ Hu2).
  - right. split; [done|]. assert (j = 0) as -> by lia.
    assert (Hent : ∀ w, is_vpn w → entry (vram s') T' w = entry (vram s) T w).
    { intros w Hw. rewrite He, mapped_zero by done. simpl. by apply He1. }
    split; [|done]. eapply user_ok_extends; [exact Hu1|done|done|].
    intros w [p Hw]. apply (uo_map _ _ _ _ _ Hu) in Hw as [Hw _]. simpl.
    by rewrite Hent, He1.
Qed.

(** ** [uvmalloc] *)

(** Memory that is in use and not a table page is left alone. *)
Definition keeps s T H s' H' : Prop :=
  ∀ q z, H !! q = Some z → q ∉ table_pages T →
    H' !! q = Some z ∧ ∀ a, q ≤ a < q + z → ld8 (vram s') a = ld8 (vram s) a.

Lemma keeps_outside s T root H H0 q z a m' :
  vm_ok s T root H → H !! q = Some z → q ∉ table_pages T →
  same_outside H0 m' (table_pages T) → q ≤ a < q + z → ld8 m' a = ld8 H0 a.
Proof.
  intros Hok Hq Hnt Hs Ha. apply Hs. intros p [k Hk]%elem_of_table_pages.
  assert (p ≠ q) by (intros ->; apply Hnt, elem_of_table_pages; eauto).
  pose proof (al_disjoint _ _ _ _ _ _ (vo_live _ _ _ _ Hok) (vo_owned _ _ _ _ Hok _ _ Hk) Hq).
  lia.
Qed.

Lemma extends_keeps s T root H s' T' H' :
  vm_ok s' T' root H' → extends s T H s' T' H' → keeps s T H s' H'.
Proof.
  intros Hok' Hx q z Hq Hnt. pose proof (not_table_extends _ _ _ _ _ _ _ _ Hx Hq Hnt) as Hnt'.
  assert (Hq' : H' !! q = Some z) by (by rewrite (e_live _ _ _ _ _ _ Hx)).
  split; [done|]. intros a Ha. eapply keeps_outside; try done. apply (e_same _ _ _ _ _ _ Hx).
Qed.

Lemma keeps_trans s T H s1 T1 H1 s2 H2 :
  (∀ q z, H !! q = Some z → q ∉ table_pages T → q ∉ table_pages T1) →
  keeps s T H s1 H1 → keeps s1 T1 H1 s2 H2 → keeps s T H s2 H2.
Proof.
  intros Hn K1 K2 q z Hq Hnt. destruct (K1 q z Hq Hnt) as [Hq1 E1].
  destruct (K2 q z Hq1 (Hn q z Hq Hnt)) as [Hq2 E2]. split; [done|].
  intros a Ha. by rewrite E2, E1.
Qed.

(** Taking a page from the allocator and filling it with [m']. *)
Lemma user_ok_alloc s T root H U s1 pg m' :
  user_ok s T root H U → vram s1 = vram s → H !! pg = None →
  al_live (vheap s1) (<[pg := PGSIZE]> H) → page_addr pg →
  same_outside (vram s) m' {[pg]} → bytes_ok m' →
  user_ok s1 T root (<[pg := PGSIZE]> H) U ∧ pg ∉ table_pages T ∧ (∀ w, U !! w ≠ Some pg) ∧
  keeps s T H (with_ram s1 m') (<[pg := PGSIZE]> H).
Proof.
  intros Hu Hram Hfr Hl Hpa Hs Hb. pose proof Hu as [Hok Hmap Hinj].
  assert (Hnt : pg ∉ table_pages T).
  { intros [k Hk]%elem_of_table_pages. rewrite (vo_owned _ _ _ _ Hok _ _ Hk) in Hfr. done. }
  split_and!.
  - split; [|rewrite Hram|done].
    + destruct Hok as [_ Hb' Hpt Ho]. split; rewrite ?Hram; try done.
      intros k p Hk. rewrite lookup_insert_ne; [by eapply Ho|].
      intros ->. apply Hnt, elem_of_table_pages. eauto.
    + intros v p Hv. destruct (Hmap v p Hv) as (? & Hp & ?). split_and!; try done; [|naive_solver..].
      rewrite lookup_insert_ne; [done|]. intros ->. congruence.
  - done.
  - intros w Hw. destruct (Hmap w pg Hw) as (_ & Hp & _). congruence.
  - intros q z Hq Hqt. assert (pg ≠ q) by congruence.
    rewrite lookup_insert_ne by done. split; [done|]. intros a Ha. simpl. apply Hs.
    intros p ->%elem_of_singleton.
    pose proof (al_disjoint _ _ pg PGSIZE q z Hl ltac:(by rewrite lookup_insert_eq)
      ltac:(by rewrite lookup_insert_ne) ltac:(done)). lia.
Qed.

(** [s] is [s0] after pages were mapped at the [n] virtual pages from [v] on:
    page [w] has flags [f w] and holds the bytes [c w]. *)
Section grown.
Context (s0 : @vm heap) (T0 : tables) (H0 U0 : gmap Z Z) (root v : Z).
Context (f : Z → Z) (c : Z → Z → Z).

Record grown (n : Z) (s : @vm heap) (T : tables) (H U : gmap Z Z) : Prop := {
  gr_user : user_ok s T root H U;
  gr_tables : T0 ⊆ T;
  gr_nt : ∀ q z, H0 !! q = Some z → q ∉ table_pages T0 → q ∉ table_pages T;
  gr_old : ∀ w, ¬ (v ≤ w < v + n) → U !! w = U0 !! w;
  gr_new : ∀ w, v ≤ w < v + n → ∃ p, U !! w = Some p ∧ H0 !! p = None ∧
    entry (vram s) T w = mkpte p (f w) ∧
    ∀ o, 0 ≤ o < PGSIZE → ld8 (vram s) (p + o) = c w o;
  gr_entry : ∀ w, is_vpn w → ¬ (v ≤ w < v + n) → entry (vram s) T w = entry (vram s0) T0 w;
  gr_keep : keeps s0 T0 H0 s H;
  gr_live : ∀ q, q ∉ table_pages T → q ∉ range_pages U v n → H !! q = H0 !! q;
}.

Lemma grown_start : user_ok s0 T0 root H0 U0 → grown 0 s0 T0 H0 U0.
Proof. intros Hu. split; try done; intros; lia. Qed.

Lemma grown_page n s T H U w :
  grown n s T H U → v ≤ w < v + n →
  ∃ p, U !! w = Some p ∧ is_vpn w ∧ H !! p = Some PGSIZE ∧ p ∉ table_pages T.
Proof.
  intros Hg Hw. destruct (gr_new _ _ _ _ _ Hg w Hw) as (p & Hp & _). exists p.
  destruct (uo_map _ _ _ _ _ (gr_user _ _ _ _ _ Hg) w p Hp) as (? & ? & ? & _). done.
Qed.

Lemma grown_fresh n s T H U pg : grown n s T H U → H !! pg = None → H0 !! pg = None.
Proof.
  intros Hg Hpg. destruct (H0 !! pg) as [z|] eqn:E; [|done]. exfalso.
  destruct (decide (pg ∈ table_pages T0)) as [[k Hk]%elem_of_table_pages|Hn].
  - pose proof (lookup_weaken _ _ _ _ Hk (gr_tables _ _ _ _ _ Hg)) as Hk'.
    rewrite (vo_owned _ _ _ _ (uo_vm _ _ _ _ _ (gr_user _ _ _ _ _ Hg)) _ _ Hk') in Hpg. done.
  - destruct (gr_keep _ _ _ _ _ Hg pg z E Hn) as [Hs _]. congruence.
Qed.

(** Changes elsewhere. *)
Lemma grown_keep n s T H U s' T' H' :
  grown n s T H U → user_ok s' T' root H' U → T ⊆ T' →
  (∀ q z, H !! q = Some z → q ∉ table_pages T → q ∉ table_pages T') →
  (∀ w, is_vpn w → entry (vram s') T' w = entry (vram s) T w) →
  keeps s T H s' H' → (∀ q, q ∉ table_pages T' → H' !! q = H !! q) →
  grown n s' T' H' U.
Proof.
  intros Hg Hu' HT Hnt He Hk Hl. pose proof Hg as [Hu HT0 Hnt0 Ho Hn Hent Hk0 Hl0]. split.
  - done.
  - by etrans.
  - intros q z Hq Hqt. destruct (Hk0 q z Hq Hqt) as [Hq1 _]. eapply Hnt; [done|]. by eapply Hnt0.
  - done.
  - intros w Hw. destruct (grown_page _ _ _ _ _ w Hg Hw) as (p & Hp & Hwv & HHp & Hpt).
    destruct (Hn w Hw) as (p' & Hp' & Hfr & Ee & Hc).
    assert (p' = p) as -> by congruence. exists p. split_and!; try done.
    + by rewrite He.
    + intros o Ho'. destruct (Hk p PGSIZE HHp Hpt) as [_ Hkc]. rewrite Hkc by lia. by apply Hc.
  - intros w Hw Hr. rewrite He by done. by apply Hent.
  - by eapply keeps_trans.
  - intros q Hq Hr. rewrite Hl by done. apply Hl0; [|done].
    pose proof (table_pages_mono _ _ HT). set_solver.
Qed.

Lemma range_pages_mono U n pg :
  0 ≤ n → range_pages (<[v + n := pg]> U) v (n + 1) = {[pg]} ∪ range_pages U v n.
Proof.
  intros Hn. apply set_eq. intros q.
  rewrite elem_of_union, elem_of_singleton, !elem_of_range_pages. split.
  - intros (w & Hw & Hr). apply lookup_insert_Some in Hw as [[_ <-]|[Hne Hw]]; [by left|].
    right. exists w. split; [done|lia].
  - intros [->|(w & Hw & Hr)].
    + exists (v + n). rewrite lookup_insert_eq. split; [done|lia].
    + exists w. rewrite lookup_insert_ne by lia. split; [done|lia].
Qed.

(** The next page. *)
Lemma grown_add n s T H U s' T' H' pg :
  0 ≤ n → grown n s T H U → H !! pg = None →
  user_ok s' T' root H' (<[v + n := pg]> U) → T ⊆ T' →
  (∀ q z, H !! q = Some z → q ∉ table_pages T → q ∉ table_pages T') →
  (∀ w, is_vpn w →
     entry (vram s') T' w = if v + n =? w then mkpte pg (f (v + n)) else entry (vram s) T w) →
  (∀ o, 0 ≤ o < PGSIZE → ld8 (vram s') (pg + o) = c (v + n) o) →
  keeps s T H s' H' → (∀ q, q ∉ table_pages T' → q ≠ pg → H' !! q = H !! q) →
  grown (n + 1) s' T' H' (<[v + n := pg]> U).
Proof.
  intros Hn0 Hg Hfr Hu' HT Hnt He Hcon Hk Hl.
  pose proof (grown_fresh _ _ _ _ _ _ Hg Hfr) as Hfr0.
  pose proof Hg as [Hu HT0 Hnt0 Ho Hn Hent Hk0 Hl0]. split.
  - done.
  - by etrans.
  - intros q z Hq Hqt. destruct (Hk0 q z Hq Hqt) as [Hq1 _]. eapply Hnt; [done|]. by eapply Hnt0.
  - intros w Hw. rewrite lookup_insert_ne by lia. apply Ho. lia.
  - intros w Hw. destruct (decide (w = v + n)) as [->|Hne].
    + destruct (uo_map _ _ _ _ _ Hu' (v + n) pg) as [Hwv _]; [by rewrite lookup_insert_eq|].
      exists pg. rewrite lookup_insert_eq, He, Z.eqb_refl by done. done.
    + destruct (grown_page _ _ _ _ _ w Hg ltac:(lia)) as (p & Hp & Hwv & HHp & Hpt).
      destruct (Hn w ltac:(lia)) as (p' & Hp' & Hfr' & Ee & Hc).
      assert (p' = p) as -> by congruence. exists p. rewrite lookup_insert_ne by done.
      split_and!; try done.
      * rewrite He by done. by destruct (Z.eqb_spec (v + n) w).
      * intros o Ho'. destruct (Hk p PGSIZE HHp Hpt) as [_ Hkc]. rewrite Hkc by lia. by apply Hc.
  - intros w Hw Hr. rewrite He by done. destruct (Z.eqb_spec (v + n) w); [lia|].
    apply Hent; [done|lia].
  - by eapply keeps_trans.
  - intros q Hq Hr. rewrite range_pages_mono in Hr by done.
    rewrite Hl by (done || set_solver). apply Hl0; [|set_solver].
    pose proof (table_pages_mono _ _ HT). set_solver.
Qed.

End grown.

Lemma user_ok_free s T root H U s' p :
  user_ok s T root H U → vram s' = vram s → al_live (vheap s') (delete p H) →
  p ∉ table_pages T → (∀ w, U !! w ≠ Some p) →
  user_ok s' T root (delete p H) U.
Proof.
  intros [Hok Hmap Hinj] Hram Hl Hpt HU. split; rewrite ?Hram; try done.
  - rewrite delete_without in *. eapply vm_ok_without; try done. set_solver.
  - intros v q Hv. destruct (Hmap v q Hv) as (? & ? & ? & ?). split_and!; try done.
    rewrite lookup_delete_ne; [done|]. intros ->. by destruct (HU v).
Qed.

Lemma grow_step s0 T0 H0 U0 root v f c n s T H U s1 pg m' :
  grown s0 T0 H0 U0 root v f c n s T H U → 0 ≤ n → is_vpn (v + n) →
  U0 !! (v + n) = None → has (entry (vram s0) T0 (v + n)) PTE_V = false →
  vram s1 = vram s → H !! pg = None → page_addr pg →
  al_live (vheap s1) (<[pg := PGSIZE]> H) →
  same_outside (vram s) m' {[pg]} → bytes_ok m' →
  (∀ o, 0 ≤ o < PGSIZE → ld8 m' (pg + o) = c (v + n) o) →
  0 ≤ f (v + n) < 2 ^ 10 → Z.lor (f (v + n)) PTE_V ≠ PTE_V →
  ∃ r s2, mappages (with_ram s1 m') root ((v + n) * PGSIZE) PGSIZE pg (f (v + n)) = Ok (r, s2) ∧
    ((r = 0 ∧ ∃ T2 H2, grown s0 T0 H0 U0 root v f c (n + 1) s2 T2 H2 (<[v + n := pg]> U)) ∨
     (r = -1 ∧ ∃ s3 T3 H3, vm_free s2 pg = Ok s3 ∧ grown s0 T0 H0 U0 root v f c n s3 T3 H3 U)).
Proof.
  intros Hg Hn Hvpn HU0 Hfree Hram Hfr Hpa Hl Hs Hb Hc Hf1 Hf2.
  destruct (user_ok_alloc s T root H U s1 pg m' (gr_user _ _ _ _ _ _ _ _ _ _ _ _ _ Hg))
    as (Hu1 & Hnt & HU & Hk1); try done.
  assert (HUn : U !! (v + n) = None).
  { rewrite (gr_old _ _ _ _ _ _ _ _ _ _ _ _ _ Hg); [done|lia]. }
  assert (Hfree1 : has (entry (vram s1) T (v + n)) PTE_V = false).
  { rewrite Hram, (gr_entry _ _ _ _ _ _ _ _ _ _ _ _ _ Hg); [done|done|lia]. }
  destruct (map_page_ok s1 T root (<[pg := PGSIZE]> H) U (v + n) pg m' (f (v + n)) Hu1)
    as (r & s2 & T2 & H2 & E & Hx & Hcase); try done;
    [by rewrite lookup_insert_eq|by rewrite Hram|].
  exists r, s2. split; [done|].
  assert (Hnt2 : pg ∉ table_pages T2)
    by (eapply not_table_extends; [exact Hx|by rewrite lookup_insert_eq|done]).
  assert (Hnt' : ∀ q z, H !! q = Some z → q ∉ table_pages T → q ∉ table_pages T2).
  { intros q z Hq Hqt. eapply not_table_extends; [exact Hx| |done].
    rewrite lookup_insert_ne; [done|]. intros ->. congruence. }
  assert (Hlive2 : ∀ q, q ∉ table_pages T2 → q ≠ pg → H2 !! q = H !! q).
  { intros q Hq Hne. rewrite (e_live _ _ _ _ _ _ Hx) by done. by rewrite lookup_insert_ne. }
  assert (Hk2 : vm_ok s2 T2 root H2 → keeps s T H s2 H2).
  { intros Hok2. eapply keeps_trans; [|exact Hk1|by eapply extends_keeps]. done. }
  destruct Hcase as [(-> & Hu2 & He2)|(-> & Hu2 & He2)]; [left|right]; (split; [done|]);
    pose proof (uo_vm _ _ _ _ _ Hu2) as Hok2; specialize (Hk2 Hok2).
  - exists T2, H2. eapply (grown_add s0 T0 H0 U0 root v f c n s T H U s2 T2 H2 pg);
      try done; [apply (e_sub _ _ _ _ _ _ Hx)|by rewrite <- Hram|].
    intros o Ho. destruct (extends_keeps _ _ _ _ _ _ _ Hok2 Hx pg PGSIZE) as [_ Hkc];
      [by rewrite lookup_insert_eq|done|]. rewrite Hkc by lia. by apply Hc.
  - assert (Hp2 : H2 !! pg = Some PGSIZE).
    { by rewrite (e_live _ _ _ _ _ _ Hx), lookup_insert_eq. }
    destruct (vm_free_ok s2 H2 pg PGSIZE (vo_live _ _ _ _ Hok2) Hp2) as (s3 & E3 & Hram3 & Hl3).
    exists s3, T2, (delete pg H2). split; [done|].
    eapply grown_keep; [exact Hg| |apply (e_sub _ _ _ _ _ _ Hx)|done| | |].
    + eapply user_ok_free; done.
    + intros w Hw. by rewrite Hram3, He2, Hram.
    + intros q z Hq Hqt. destruct (Hk2 q z Hq Hqt) as [Hq2 Hkc]. rewrite Hram3.
      rewrite lookup_delete_ne by congruence. done.
    + intros q Hq. destruct (decide (q = pg)) as [->|]; [by rewrite lookup_delete_eq|].
      rewrite lookup_delete_ne by done. by apply Hlive2.
Qed.

(** [s] has the mappings and the user pages of [s0]; at most table pages were
    added. *)
Record restored s0 T0 H0 U0 (root : Z) s T H : Prop := {
  rs_user : user_ok s T root H U0;
  rs_tables : T0 ⊆ T;
  rs_entry : ∀ w, is_vpn w → entry (vram s) T w = entry (vram s0) T0 w;
  rs_keep : keeps s0 T0 H0 s H;
  rs_live : ∀ q, q ∉ table_pages T → H !! q = H0 !! q;
}.

Lemma grown_undo s0 T0 H0 U0 root v f c n s T H U s' :
  grown s0 T0 H0 U0 root v f c n s T H U →
  (∀ w, v ≤ w < v + n → U0 !! w = None ∧ entry (vram s0) T0 w = 0) →
  user_ok s' T root (without H (range_pages U v n)) (unmapped U v n) →
  same_outside (vram s) (vram s') (table_pages T) →
  (∀ w, is_vpn w → entry (vram s') T w = cleared (entry (vram s) T) v n w) →
  restored s0 T0 H0 U0 root s' T (without H (range_pages U v n)).
Proof.
  intros Hg H0none Hu' Hs' He'.
  pose proof Hg as [Hu HT0 Hnt0 Ho Hn Hent Hk0 Hl0].
  assert (HU : unmapped U v n = U0).
  { apply map_eq. intros w. rewrite lookup_unmapped. destruct (decide _) as [Hw|Hw].
    - by destruct (H0none w Hw) as [-> _].
    - by apply Ho. }
  rewrite HU in Hu'.
  assert (Hrange : ∀ q, q ∈ range_pages U v n → H0 !! q = None).
  { intros q (w & Hw & Hr)%elem_of_range_pages. destruct (Hn w Hr) as (p & Hp & Hfr & _).
    congruence. }
  split; try done.
  - intros w Hw. rewrite He' by done. unfold cleared.
    destruct (Z.leb_spec v w), (Z.ltb_spec w (v + n)); simpl.
    1: by destruct (H0none w ltac:(lia)) as [_ ->].
    all: apply Hent; [done|lia].
  - intros q z Hq Hqt. destruct (Hk0 q z Hq Hqt) as [Hq1 Hkc].
    assert (Hnr : q ∉ range_pages U v n) by (intros Hin; rewrite Hrange in Hq; done).
    rewrite lookup_without, decide_False by done. split; [done|]. intros a Ha.
    rewrite <- Hkc by done.
    eapply (keeps_outside s T root H); try done; [apply (uo_vm _ _ _ _ _ Hu)|by eapply Hnt0].
  - intros q Hq. rewrite lookup_without. destruct (decide _) as [Hin|Hin].
    + symmetry. by apply Hrange.
    + by apply Hl0.
Qed.

Lemma npages_mul n : npages (n * PGSIZE) = n.
Proof. unfold npages, PGSIZE. Z.to_euclidean_division_equations. lia. Qed.

Lemma grown_uvmdealloc s0 T0 H0 U0 root v f c n s T H U :
  grown s0 T0 H0 U0 root v f c n s T H U → 0 ≤ v → 0 ≤ n → v + n ≤ 2 ^ 26 →
  (∀ w, v ≤ w < v + n → U0 !! w = None ∧ entry (vram s0) T0 w = 0) →
  ∃ r s' H', uvmdealloc s root ((v + n) * PGSIZE) (v * PGSIZE) = Ok (r, s') ∧
    restored s0 T0 H0 U0 root s' T H'.
Proof.
  intros Hg Hv Hn Hb Hnone. destruct (decide (n = 0)) as [->|].
  - exists ((v + 0) * PGSIZE), s, H. split.
    + unfold uvmdealloc. rewrite Z.add_0_r. destruct (Z.leb_spec (v * PGSIZE) (v * PGSIZE)); [done|lia].
    + rewrite <- (without_empty H), <- (range_pages_zero U v).
      eapply grown_undo; try done; [rewrite range_pages_zero, without_empty, unmapped_zero; apply Hg|].
      intros w Hw. unfold cleared. repeat zcase; simpl; done || lia.
  - destruct (uvmdealloc_ok s T root H U ((v + n) * PGSIZE) (v * PGSIZE)) as (s' & E & Hu & Hs & He);
      [apply Hg|unfold PGSIZE; lia|unfold PGSIZE; lia|change MAXVA with (2 ^ 38); unfold PGSIZE; lia| |].
    { rewrite !npages_mul. intros w Hw. destruct (gr_new _ _ _ _ _ _ _ _ _ _ _ _ _ Hg w) as (p & Hp & _);
        [lia|]. eauto. }
    rewrite !npages_mul in Hu, He. replace (v + n - v) with n in Hu, He by lia.
    eexists _, s', _. split; [done|]. by eapply grown_undo.
Qed.

Lemma memset_page_ok m pg :
  bytes_ok m → let m' := memset m pg 0 PGSIZE in
  same_outside m m' {[pg]} ∧ bytes_ok m' ∧ ∀ o, 0 ≤ o < PGSIZE → ld8 m' (pg + o) = 0.
Proof.
  intros Hb m'. split_and!.
  - apply same_outside_memset. set_solver.
  - apply bytes_ok_memset; [unfold PGSIZE; lia|done].
  - intros o Ho. subst m'. rewrite ld8_memset by (unfold PGSIZE; lia).
    repeat zcase; simpl; done || lia.
Qed.

Lemma uvmalloc_loop_ok k s0 T0 H0 U0 root v perm newsz : ∀ n s T H U,
  grown s0 T0 H0 U0 root v (λ _, Z.lor (Z.lor PTE_R PTE_U) perm) (λ _ _, 0) n s T H U →
  0 ≤ v → 0 ≤ n → v + n + Z.of_nat k ≤ 2 ^ 26 → 0 ≤ perm < 2 ^ 10 →
  (∀ w, v ≤ w < v + n + Z.of_nat k → U0 !! w = None ∧ entry (vram s0) T0 w = 0) →
  ∃ r s', uvmalloc_loop k s root (v * PGSIZE) newsz ((v + n) * PGSIZE) perm = Ok (r, s') ∧
    ((r = newsz ∧ ∃ T' H' U', grown s0 T0 H0 U0 root v
        (λ _, Z.lor (Z.lor PTE_R PTE_U) perm) (λ _ _, 0) (n + Z.of_nat k) s' T' H' U') ∨
     (r = 0 ∧ ∃ T' H', restored s0 T0 H0 U0 root s' T' H')).
Proof.
  induction k as [|k IH]; intros n s T H U Hg Hv Hn Hb Hperm Hnone; cbn [uvmalloc_loop].
  { exists newsz, s. split; [done|]. left. rewrite Z.add_0_r. eauto. }
  pose proof (uo_vm _ _ _ _ _ (gr_user _ _ _ _ _ _ _ _ _ _ _ _ _ Hg)) as Hok.
  destruct (vm_alloc_ok s H (vo_live _ _ _ _ Hok)) as (pg & s1 & -> & Hram & Hc).
  rewrite bind_Ok. destruct Hc as [[-> ->]|(Hnz & Hfr & Hpa & Hl)].
  { simpl. destruct (grown_uvmdealloc _ _ _ _ _ _ _ _ _ _ _ _ _ Hg Hv Hn ltac:(lia))
      as (r & s' & H' & -> & Hr); [intros; apply Hnone; lia|].
    simpl. eauto 10. }
  destruct (Z.eqb_spec pg 0); [done|]. rewrite Hram.
  destruct (memset_page_ok (vram s) pg (vo_bytes _ _ _ _ Hok)) as (Hm1 & Hm2 & Hm3).
  destruct (Hnone (v + n) ltac:(lia)) as [HUn Hent].
  assert (Hpr : 0 ≤ Z.lor (Z.lor PTE_R PTE_U) perm < 2 ^ 10)
    by (apply lor_range; [lia|split; done|lia]).
  assert (Hleaf : Z.lor (Z.lor (Z.lor PTE_R PTE_U) perm) PTE_V ≠ PTE_V).
  { intros E. apply (f_equal (λ x, Z.testbit x 1)) in E. rewrite !Z.lor_spec in E. done. }
  destruct (grow_step _ _ _ _ _ _ _ _ _ _ _ _ _ s1 pg (memset (vram s) pg 0 PGSIZE) Hg)
    as (r & s2 & E2 & Hcase); try done; [unfold is_vpn; lia|by rewrite Hent|].
  rewrite E2, bind_Ok. destruct Hcase as [[-> (T2 & H2 & Hg2)]|[-> (s3 & T3 & H3 & E3 & Hg3)]].
  - simpl. replace ((v + n) * PGSIZE + PGSIZE) with ((v + (n + 1)) * PGSIZE) by lia.
    destruct (IH (n + 1) s2 T2 H2 _ Hg2) as (r & s' & E & Hr); try lia; [intros; apply Hnone; lia|].
    exists r, s'. split; [exact E|].
    replace (n + Z.of_nat (S k)) with (n + 1 + Z.of_nat k) by lia. exact Hr.
  - simpl. rewrite E3, bind_Ok.
    destruct (grown_uvmdealloc _ _ _ _ _ _ _ _ _ _ _ _ _ Hg3 Hv Hn ltac:(lia))
      as (r & s' & H' & -> & Hr); [intros; apply Hnone; lia|].
    simpl. eauto 10.
Qed.

(** ** [uvmcopy] *)

(** Another page table is not affected by changes that keep its pages. *)
Lemma keeps_vm_ok s0 T0 H0 s H To ro :
  vm_ok s0 To ro H0 → keeps s0 T0 H0 s H → table_pages To ## table_pages T0 →
  al_live (vheap s) H → bytes_ok (vram s) →
  vm_ok s To ro H ∧ ∀ w, entry (vram s) To w = entry (vram s0) To w.
Proof.
  intros [Hl0 Hb0 [Hroot Hpage Hinj Hcl Hlo Hnodes] Ho] Hk Hd Hl Hb.
  assert (Hkq : ∀ k q, To !! k = Some q → H !! q = Some PGSIZE ∧
            ∀ i, 0 ≤ i < 512 → ld64 (vram s) (q + 8 * i) = ld64 (vram s0) (q + 8 * i)).
  { intros k q Hq. destruct (Hk q PGSIZE) as [Hq1 Hc]; [by eapply Ho| |].
    - intros Hin. apply (Hd q); [|done]. apply elem_of_table_pages. eauto.
    - split; [done|]. intros i Hi. apply ld_le_ext. intros a Ha. apply Hc.
      unfold PGSIZE. lia. }
  split.
  - split; try done; [split; try done|].
    + intros k q i Hq Hlen Hi. destruct (Hkq k q Hq) as [_ Hc]. rewrite Hc by done. by apply Hnodes.
    + intros k q Hq. by destruct (Hkq k q Hq) as [? _].
  - intros w. unfold entry, slot. destruct (To !! vpath w) as [q|] eqn:Eq; [|done]. simpl.
    destruct (Hkq _ _ Eq) as [_ Hc]. apply Hc. apply Z.mod_pos_bound. lia.
Qed.

Lemma memmove_page_ok m pg pa :
  bytes_ok m → let m' := memmove m pg pa PGSIZE in
  same_outside m m' {[pg]} ∧ bytes_ok m' ∧
  ∀ o, 0 ≤ o < PGSIZE → ld8 m' (pg + o) = ld8 m (pa + o).
Proof.
  intros Hb m'. split_and!.
  - intros a Ha. subst m'. rewrite ld8_memmove by (done || unfold PGSIZE; lia).
    specialize (Ha pg ltac:(set_solver)). repeat zcase; simpl; done || lia.
  - apply bytes_ok_memmove; [done|unfold PGSIZE; lia].
  - intros o Ho. subst m'. rewrite ld8_memmove by (done || unfold PGSIZE; lia).
    replace (pa + (pg + o - pg)) with (pa + o) by lia. repeat zcase; simpl; done || lia.
Qed.

(** The flags and the contents of the pages of a table. *)
Definition pt_flags s T (w : Z) : Z := PTE_FLAGS (entry (vram s) T w).
Definition pt_bytes s T (w o : Z) : Z := ld8 (vram s) (PTE2PA (entry (vram s) T w) + o).

Lemma user_entry s T root H U v p :
  user_ok s T root H U → U !! v = Some p →
  PTE2PA (entry (vram s) T v) = p ∧ has (entry (vram s) T v) PTE_V = true ∧
  0 ≤ pt_flags s T v < 2 ^ 10 ∧ Z.lor (pt_flags s T v) PTE_V ≠ PTE_V ∧
  is_Some (slot T v).
Proof.
  intros [Hok Hmap _] Hv. destruct (Hmap v p Hv) as (Hw & Hp & _ & fl & E & Hfl & Hne).
  destruct (mkpte_flags p fl (page_of_live _ _ _ _ _ Hok Hp) Hfl) as (M1 & M2 & M3).
  assert (0 ≤ Z.lor fl PTE_V < 2 ^ 10) by (apply lor_range; unfold PTE_V; lia).
  unfold pt_flags. rewrite E, M1, M2, M3. split; [done|]. split; [done|]. split; [done|]. split.
  - by rewrite <- Z.lor_assoc, Z.lor_diag.
  - apply (entry_slot (vram s)). rewrite E. apply mkpte_nonzero.
Qed.

Section copy.
Context (s0 : @vm heap) (T0 To : tables) (H0 U0 Uo : gmap Z Z) (root ro : Z).
Hypothesis Hold : user_ok s0 To ro H0 Uo.
Hypothesis Hdisj : table_pages To ## table_pages T0.
Hypothesis Hdata : ∀ w p, Uo !! w = Some p → p ∉ table_pages T0.

Local Abbreviation copied := (grown s0 T0 H0 U0 root 0 (pt_flags s0 To) (pt_bytes s0 To)).

(** What the loop finds in the old table at any time. *)
Lemma copied_old n s T H U w p :
  copied n s T H U → Uo !! w = Some p →
  vm_ok s To ro H ∧ entry (vram s) To w = entry (vram s0) To w ∧
  ∀ o, 0 ≤ o < PGSIZE → ld8 (vram s) (p + o) = pt_bytes s0 To w o.
Proof.
  intros Hg Hw. pose proof (uo_vm _ _ _ _ _ (gr_user _ _ _ _ _ _ _ _ _ _ _ _ _ Hg)) as Hok.
  destruct (keeps_vm_ok s0 T0 H0 s H To ro (uo_vm _ _ _ _ _ Hold)
    (gr_keep _ _ _ _ _ _ _ _ _ _ _ _ _ Hg) Hdisj (vo_live _ _ _ _ Hok) (vo_bytes _ _ _ _ Hok))
    as [Hok' He].
  split; [done|]. split; [done|]. intros o Ho.
  destruct (uo_map _ _ _ _ _ Hold w p Hw) as (_ & Hp & _).
  destruct (user_entry _ _ _ _ _ _ _ Hold Hw) as [Epa _]. unfold pt_bytes. rewrite Epa.
  destruct (gr_keep _ _ _ _ _ _ _ _ _ _ _ _ _ Hg p PGSIZE Hp) as [_ Hc]; [by eapply Hdata|].
  apply Hc. lia.
Qed.

Lemma copied_unmap n s T H U :
  copied n s T H U → 0 ≤ n ≤ 2 ^ 26 →
  (∀ w, 0 ≤ w < n → U0 !! w = None ∧ entry (vram s0) T0 w = 0) →
  ∃ s' H', uvmunmap s root 0 n 1 = Ok s' ∧ restored s0 T0 H0 U0 root s' T H'.
Proof.
  intros Hg Hn Hnone. change 0 with (0 * PGSIZE) at 1.
  destruct (uvmunmap_ok s T root H U 0 n) as (s' & E & Hu & Hs & He);
    [apply Hg|lia|lia|lia| |].
  { intros w Hw. destruct (gr_new _ _ _ _ _ _ _ _ _ _ _ _ _ Hg w) as (p & Hp & _); [lia|]. eauto. }
  exists s', (without H (range_pages U 0 n)). split; [done|]. by eapply grown_undo.
Qed.

Lemma uvmcopy_loop_ok k : ∀ n s T H U,
  copied n s T H U → 0 ≤ n → n + Z.of_nat k ≤ 2 ^ 26 →
  (∀ w, 0 ≤ w < n + Z.of_nat k →
     is_Some (Uo !! w) ∧ U0 !! w = None ∧ entry (vram s0) T0 w = 0) →
  ∃ r s', uvmcopy_loop k s ro root (n * PGSIZE) = Ok (r, s') ∧
    ((r = 0 ∧ ∃ T' H' U', copied (n + Z.of_nat k) s' T' H' U') ∨
     (r = -1 ∧ ∃ T' H', restored s0 T0 H0 U0 root s' T' H')).
Proof.
  induction k as [|k IH]; intros n s T H U Hg Hn Hb Hall; cbn [uvmcopy_loop].
  { exists 0, s. split; [done|]. left. rewrite Z.add_0_r. eauto. }
  pose proof (uo_vm _ _ _ _ _ (gr_user _ _ _ _ _ _ _ _ _ _ _ _ _ Hg)) as Hok.
  assert (Hvpn : is_vpn n) by (unfold is_vpn; lia).
  destruct (Hall n ltac:(lia)) as ([p Hp] & HUn & Hent).
  destruct (copied_old _ _ _ _ _ _ _ Hg Hp) as (Hoko & Eo & Hbytes).
  destruct (user_entry _ _ _ _ _ _ _ Hold Hp) as (Epa & Ev & Hfl & Hleaf & [a Ha]).
  destruct (vpn_addr n Hvpn) as [Hva Hdiv].
  rewrite (walk_lookup s To ro H) by done. rewrite Hdiv, Ha. simpl default. rewrite bind_Ok.
  destruct (Z.eqb_spec a 0) as [->|_]; [by destruct (slot_nonzero _ _ _ _ _ _ Hoko Ha)|].
  assert (El : ld64 (vram s) a = entry (vram s0) To n).
  { rewrite <- Eo. unfold entry. by rewrite Ha. }
  rewrite El, Ev, Epa. simpl negb. cbn iota. fold (pt_flags s0 To n).
  destruct (vm_alloc_ok s H (vo_live _ _ _ _ Hok)) as (pg & s1 & -> & Hram & Hc).
  rewrite bind_Ok.
  assert (Hundo : ∀ s T H, copied n s T H U → ∃ r s', (s ← uvmunmap s root 0 n 1; Ok (-1, s)) = Ok (r, s') ∧
    ((r = 0 ∧ ∃ T' H' U', copied (n + Z.of_nat (S k)) s' T' H' U') ∨
     (r = -1 ∧ ∃ T' H', restored s0 T0 H0 U0 root s' T' H'))).
  { intros s2 T2 H2 Hg2. destruct (copied_unmap n s2 T2 H2 U Hg2 ltac:(lia)) as (s' & H' & -> & Hr);
      [intros; apply Hall; lia|]. rewrite bind_Ok. eauto 10. }
  destruct Hc as [[-> ->]|(Hnz & Hfr & Hpa & Hl)]; [simpl; eauto|].
  destruct (Z.eqb_spec pg 0); [done|]. rewrite Hram.
  destruct (memmove_page_ok (vram s) pg p (vo_bytes _ _ _ _ Hok)) as (Hm1 & Hm2 & Hm3).
  destruct (grow_step _ _ _ _ _ _ _ _ _ _ _ _ _ s1 pg (memmove (vram s) pg p PGSIZE) Hg)
    as (r & s2 & E2 & Hcase); try done; [by rewrite Z.add_0_l, Hent| |].
  { intros o Ho. rewrite Hm3 by done. by apply Hbytes. }
  rewrite Z.add_0_l in E2. rewrite E2, bind_Ok.
  destruct Hcase as [[-> (T2 & H2 & Hg2)]|[-> (s3 & T3 & H3 & E3 & Hg3)]]; simpl.
  - replace (n * PGSIZE + PGSIZE) with ((n + 1) * PGSIZE) by lia.
    destruct (IH (n + 1) s2 T2 H2 _ Hg2) as (r & s' & E & Hr); try lia; [intros; apply Hall; lia|].
    exists r, s'. split; [exact E|].
    replace (n + Z.of_nat (S k)) with (n + 1 + Z.of_nat k) by lia. exact Hr.
  - rewrite E3, bind_Ok. eauto.
Qed.

End copy.

End user.
