(* ===== verification/VmFree.v ===== *)
(** * Giving up an address space: [freewalk] and [uvmfree] of [vm.c]. *)

From S2P Require Import Prelude.
From S2P Require Import Riscv.
From S2P Require Import Ram.
From S2P Require Import Kalloc.
From S2P Require Import Vm.
From S2P Require Import VmProof.
From S2P Require Import VmUser.

(** The table pages at and below [k]. *)
Definition subpages (T : tables) (k : list Z) : gset Z :=
  map_img (filter (λ x, k `prefix_of` x.1) T).

Lemma elem_of_subpages T k q : q ∈ subpages T k ↔ ∃ k', T !! (k ++ k') = Some q.
Proof.
  unfold subpages. rewrite elem_of_map_img. split.
  - intros [k1 Hk]. apply map_lookup_filter_Some in Hk as [Hk [k' E]]. simpl in E.
    exists k'. by rewrite <- E.
  - intros [k' Hk]. exists (k ++ k'). apply map_lookup_filter_Some. split; [done|].
    simpl. by exists k'.
Qed.

Lemma enc_not_leaf q : page_addr q → has (enc (Some q)) (Z.lor PTE_R (Z.lor PTE_W PTE_X)) = false.
Proof.
  intros [Hal Hr]. unfold has, enc. apply negb_false_iff, Z.eqb_eq.
  rewrite Z.land_lor_distr_l. change (Z.land PTE_V _) with 0. rewrite Z.lor_0_r.
  unfold PA2PTE. rewrite Z.shiftl_mul_pow2, Z.shiftr_div_pow2 by lia.
  rewrite u64_small by (Z.to_euclidean_division_equations; lia).
  by apply land_shifted_low; [lia|split].
Qed.

Section free.
Context {heap : Type} `{AL : Allocator heap}.
Implicit Types (s : @vm heap) (H : gmap Z Z).
Context (T : tables).

(** The shape of [T], whatever the memory. *)
Record shape : Prop := {
  sh_page : ∀ k p, T !! k = Some p → page_addr p;
  sh_inj : ∀ k k' p, T !! k = Some p → T !! k' = Some p → k = k';
  sh_closed : ∀ k i, is_Some (T !! (k ++ [i])) →
    is_Some (T !! k) ∧ 0 ≤ i < 512 ∧ (length k < 2)%nat;
}.

(** The memory of the tables at and below [k], with no leaf left. *)
Definition sub_ok (m : ram) (k : list Z) : Prop :=
  ∀ k' q i, T !! (k ++ k') = Some q → 0 ≤ i < 512 →
    ((length (k ++ k') < 2)%nat → ld64 m (q + 8 * i) = enc (T !! ((k ++ k') ++ [i]))) ∧
    (length (k ++ k') = 2%nat → has (ld64 m (q + 8 * i)) PTE_V = false).

Hypothesis Hsh : shape.

Lemma sub_disjoint k i j q :
  q ∈ subpages T (k ++ [i]) → q ∈ subpages T (k ++ [j]) → i = j.
Proof.
  intros [k1 H1]%elem_of_subpages [k2 H2]%elem_of_subpages.
  pose proof (sh_inj Hsh _ _ _ H1 H2) as E. rewrite <- !app_assoc in E.
  apply app_inv_head in E. by injection E.
Qed.

Lemma sub_not_self k i p : T !! k = Some p → p ∉ subpages T (k ++ [i]).
Proof.
  intros Hp [k' Hk]%elem_of_subpages. pose proof (sh_inj Hsh _ _ _ Hp Hk) as E.
  apply (f_equal length) in E. rewrite !length_app in E. simpl in E. lia.
Qed.

Lemma sub_page k q : q ∈ subpages T k → page_addr q.
Proof. intros [k' Hk]%elem_of_subpages. by eapply sh_page. Qed.

Lemma sub_ok_mono m k i : sub_ok m k → sub_ok m (k ++ [i]).
Proof.
  intros Hs k' q j. rewrite <- app_assoc. apply Hs.
Qed.

Lemma sub_ok_same m m' k X :
  sub_ok m k → same_outside m m' X → (∀ p, p ∈ X → page_addr p) →
  (∀ q, q ∈ subpages T k → q ∉ X) → sub_ok m' k.
Proof.
  intros Hs Hm HX Hd k' q i Hq Hi. destruct (Hs k' q i Hq Hi) as [H1 H2].
  rewrite (ld64_same_outside m m' X); [done|done|by eapply sh_page|done| |done].
  apply Hd, elem_of_subpages. eauto.
Qed.

(** The tables below the entries [i .. i + n) of [k]. *)
Fixpoint below (k : list Z) (n : nat) (i : Z) : gset Z :=
  match n with O => ∅ | S n' => subpages T (k ++ [i]) ∪ below k n' (i + 1) end.

Lemma elem_of_below k n i q :
  q ∈ below k n i ↔ ∃ j, i ≤ j < i + Z.of_nat n ∧ q ∈ subpages T (k ++ [j]).
Proof.
  revert i. induction n as [|n IH]; intros i; cbn [below].
  { split; [by intros ?%elem_of_empty|]. intros (j & ? & _). lia. }
  rewrite elem_of_union, IH. split.
  - intros [Hq|(j & Hj & Hq)]; [exists i|exists j]; (split; [lia|done]).
  - intros (j & Hj & Hq). destruct (decide (j = i)) as [->|]; [by left|right].
    exists j. split; [lia|done].
Qed.

Lemma subpages_below k p :
  T !! k = Some p → subpages T k = {[p]} ∪ below k 512 0.
Proof.
  intros Hp. apply set_eq. intros q. rewrite elem_of_union, elem_of_singleton.
  rewrite elem_of_below, elem_of_subpages. split.
  - intros [[|j k'] Hk]; [rewrite app_nil_r in Hk; left; congruence|right].
    exists j. rewrite elem_of_subpages. split; [|exists k'; by rewrite <- app_assoc].
    assert (Hpre : ∀ l, is_Some (T !! ((k ++ [j]) ++ l)) → is_Some (T !! (k ++ [j]))).
    { induction l as [|x l IHl] using rev_ind; [by rewrite app_nil_r|].
      intros Hx. rewrite app_assoc in Hx. apply IHl.
      by destruct (sh_closed Hsh _ _ Hx) as [? _]. }
    destruct (sh_closed Hsh k j) as (_ & ? & _); [|lia].
    apply (Hpre k'). rewrite <- app_assoc. simpl. eauto.
  - intros [->|(j & _ & Hq)]; [exists []; by rewrite app_nil_r|].
    apply elem_of_subpages in Hq as [k' Hk]. exists ([j] ++ k'). by rewrite app_assoc.
Qed.

(** What freeing the tables from [k] on must do. *)
Definition frees (fw : @vm heap → Z → outcome (@vm heap)) (k : list Z) : Prop :=
  ∀ s H p, T !! k = Some p → al_live (vheap s) H → bytes_ok (vram s) → sub_ok (vram s) k →
    (∀ q, q ∈ subpages T k → H !! q = Some PGSIZE) →
    ∃ s', fw s p = Ok s' ∧ al_live (vheap s') (without H (subpages T k)) ∧
      bytes_ok (vram s') ∧ same_outside (vram s) (vram s') (subpages T k).

Lemma freewalk_loop_ok fw k p n :
  T !! k = Some p → (length k < 2)%nat → (∀ j, frees fw (k ++ [j])) →
  ∀ i s H, 0 ≤ i → i + Z.of_nat n = 512 →
  al_live (vheap s) H → bytes_ok (vram s) →
  (∀ j, i ≤ j < 512 → ld64 (vram s) (p + 8 * j) = enc (T !! (k ++ [j])) ∧
     sub_ok (vram s) (k ++ [j]) ∧ ∀ q, q ∈ subpages T (k ++ [j]) → H !! q = Some PGSIZE) →
  ∃ s', freewalk_loop fw n s p i = Ok s' ∧ al_live (vheap s') (without H (below k n i)) ∧
    bytes_ok (vram s') ∧ same_outside (vram s) (vram s') ({[p]} ∪ below k n i).
Proof.
  intros Hp Hlen Hfw. pose proof (sh_page Hsh _ _ Hp) as Hpp.
  induction n as [|n IH]; intros i s H Hi Hn Hl Hb Hall; cbn [freewalk_loop below].
  { exists s. rewrite without_empty. split_and!; try done. }
  destruct (Hall i ltac:(lia)) as (Hent & Hsub & Hown). rewrite Hent.
  assert (Hpg : ∀ q, T !! (k ++ [i]) = Some q → page_addr q) by (intros; by eapply sh_page).
  rewrite has_V_enc by done. destruct (T !! (k ++ [i])) as [q|] eqn:Eq.
  - rewrite bool_decide_eq_true_2 by eauto. rewrite enc_not_leaf by auto. simpl.
    fold (enc (Some q)). rewrite enc_PTE2PA by auto.
    destruct (Hfw i s H q Eq Hl Hb Hsub Hown) as (s1 & -> & Hl1 & Hb1 & Hs1). rewrite bind_Ok.
    set (s2 := with_ram s1 (st64 (vram s1) (p + 8 * i) 0)).
    assert (Hs2 : same_outside (vram s) (vram s2) ({[p]} ∪ subpages T (k ++ [i]))).
    { eapply same_outside_trans; [eapply same_outside_mono; [|exact Hs1]; set_solver|].
      apply same_outside_st64; [set_solver|lia]. }
    assert (HX : ∀ x, x ∈ {[p]} ∪ subpages T (k ++ [i]) → page_addr x).
    { intros x [->%elem_of_singleton|Hx]%elem_of_union; [done|by eapply sub_page]. }
    destruct (IH (i + 1) s2 (without H (subpages T (k ++ [i])))) as (s' & E & Hl' & Hb' & Hs');
      [lia|lia|done|by apply bytes_ok_st64| |].
    { intros j Hj. destruct (Hall j ltac:(lia)) as (Hej & Hsj & Hoj). split_and!.
      - rewrite <- Hej. simpl. rewrite ld64_same_page by lia.
        eapply ld64_same_outside; [exact Hs1|done|by intros; eapply sub_page|by apply sub_not_self|lia].
      - eapply sub_ok_same; [exact Hsj|exact Hs2|done|].
        intros x Hx [->%elem_of_singleton|Hx']%elem_of_union.
        + by apply (sub_not_self k j p Hp).
        + assert (i = j) by (by eapply sub_disjoint). lia.
      - intros x Hx. rewrite lookup_without, decide_False; [by apply Hoj|].
        intros Hx'. assert (i = j) by (by eapply sub_disjoint). lia. }
    exists s'. split; [exact E|]. rewrite without_union in Hl'. split_and!; try done.
    eapply same_outside_trans; [eapply same_outside_mono; [|exact Hs2]; set_solver|].
    eapply same_outside_mono; [|exact Hs']. set_solver.
  - rewrite bool_decide_eq_false_2 by (intros [? ?]; done). simpl.
    destruct (IH (i + 1) s H) as (s' & E & Hl' & Hb' & Hs'); [lia|lia|done|done|intros; apply Hall; lia|].
    assert (Hempty : subpages T (k ++ [i]) = ∅).
    { apply set_eq. intros x. rewrite elem_of_subpages. split; [|set_solver].
      intros [k' Hk]. exfalso. clear -Hsh Eq Hk.
      induction k' as [|y l IHl] using rev_ind in x, Hk |- *; [rewrite app_nil_r in Hk; congruence|].
      rewrite app_assoc in Hk. destruct (sh_closed Hsh ((k ++ [i]) ++ l) y) as [[z Hz] _]; [eauto|].
      by eapply IHl. }
    rewrite Hempty, union_empty_l_L. eauto.
Qed.

(** A table page without valid entries is skipped entry by entry. *)
Lemma freewalk_loop_skip fw p n : ∀ i s,
  0 ≤ i → i + Z.of_nat n = 512 →
  (∀ j, 0 ≤ j < 512 → has (ld64 (vram s) (p + 8 * j)) PTE_V = false) →
  freewalk_loop fw n s p i = Ok s.
Proof.
  induction n as [|n IH]; intros i s Hi Hn Hall; cbn [freewalk_loop]; [done|].
  rewrite Hall by lia. simpl. apply IH; [lia|lia|done].
Qed.

Lemma free_self s H p X :
  al_live (vheap s) (without H X) → H !! p = Some PGSIZE → p ∉ X →
  ∃ s', vm_free s p = Ok s' ∧ vram s' = vram s ∧ al_live (vheap s') (without H ({[p]} ∪ X)).
Proof.
  intros Hl Hp Hn. destruct (vm_free_ok s (without H X) p PGSIZE Hl) as (s' & E & Hr & Hl').
  { rewrite lookup_without, decide_False; done. }
  exists s'. rewrite delete_without, without_union, (union_comm_L X) in Hl'. done.
Qed.

Lemma freewalk_frees d : ∀ k, (length k + d)%nat = 3%nat → frees (freewalk d) k.
Proof.
  induction d as [|d IH]; intros k Hk s H p Hp Hl Hb Hsub Hown.
  { exfalso. assert (Hlen : length k = 3%nat) by lia.
    destruct k as [|x k _] using rev_ind; [done|]. rewrite length_app in Hlen. simpl in Hlen.
    destruct (sh_closed Hsh k x) as (_ & _ & ?); [eauto|]. lia. }
  assert (Hself : p ∈ subpages T k) by (apply elem_of_subpages; exists []; by rewrite app_nil_r).
  assert (Hp' : T !! (k ++ []) = Some p) by (by rewrite app_nil_r).
  cbn [freewalk]. destruct (decide (length k = 2%nat)) as [H2|Hn2].
  - rewrite freewalk_loop_skip; [|lia|done|].
    2: { intros j Hj. destruct (Hsub [] p j Hp' Hj) as [_ Hv]. apply Hv. by rewrite app_nil_r. }
    rewrite bind_Ok. assert (Hone : subpages T k = {[p]} ∪ ∅).
    { rewrite (subpages_below k p Hp). f_equal. apply set_eq. intros q.
      rewrite elem_of_below. split; [|set_solver]. intros (j & _ & Hq). exfalso.
      apply elem_of_subpages in Hq as [k' Hq].
      destruct k' as [|y k' _] using rev_ind.
      - rewrite app_nil_r in Hq. destruct (sh_closed Hsh k j) as (_ & _ & ?); [eauto|]. lia.
      - rewrite app_assoc in Hq. destruct (sh_closed Hsh ((k ++ [j]) ++ k') y) as (_ & _ & Hc); [eauto|].
        rewrite !length_app in Hc. simpl in Hc. lia. }
    destruct (free_self s H p ∅) as (s' & E & Hr & Hl'); [by rewrite without_empty|by apply Hown|set_solver|].
    exists s'. rewrite Hone, Hr. split_and!; try done.
  - destruct (freewalk_loop_ok (freewalk d) k p 512 Hp ltac:(lia)) with (i := 0) (s := s) (H := H)
      as (s1 & E & Hl1 & Hb1 & Hs1); [|lia|done|done|done| |].
    { intros j. apply IH. rewrite length_app. simpl. lia. }
    { intros j Hj. destruct (Hsub [] p j Hp' Hj) as [He _]. rewrite app_nil_r in He.
      split_and!; [apply He; lia|by apply sub_ok_mono|].
      intros q [k' Hq]%elem_of_subpages. apply Hown, elem_of_subpages.
      exists ([j] ++ k'). by rewrite app_assoc. }
    rewrite E, bind_Ok. rewrite (subpages_below k p Hp).
    destruct (free_self s1 H p (below k 512 0) Hl1) as (s' & E' & Hr & Hl'); [by apply Hown| |].
    { rewrite elem_of_below. intros (j & _ & Hin). by apply (sub_not_self k j p Hp). }
    exists s'. rewrite Hr. split_and!; done.
Qed.

End free.

Section uvmfree.
Context {heap : Type} `{AL : Allocator heap}.
Implicit Types (s : @vm heap) (T : tables) (H U : gmap Z Z).

Lemma pt_ok_shape m T root : pt_ok m T root → shape T.
Proof. intros []. by split. Qed.

Lemma subpages_root T : subpages T [] = table_pages T.
Proof.
  apply set_eq. intros q. rewrite elem_of_subpages, elem_of_table_pages. done.
Qed.

(** Every entry of a last-level table is the entry of some virtual page. *)
Lemma leaf_vpn m T root k q j :
  pt_ok m T root → T !! k = Some q → length k = 2%nat → 0 ≤ j < 512 →
  ∃ v, is_vpn v ∧ slot T v = Some (q + 8 * j).
Proof.
  intros [_ _ _ Hcl Hlo _] Hk Hlen Hj. destruct k as [|a [|b [|]]]; try done.
  destruct (Hcl [a] b) as ([z Hz] & Hb & _); [simpl; eauto|].
  destruct (Hcl [] a) as (_ & Ha & _); [simpl; eauto|].
  pose proof (Hlo a [b] ltac:(eauto)) as Ha2.
  exists (a * 2 ^ 18 + b * 2 ^ 9 + j). split; [unfold is_vpn; lia|].
  assert (E2 : (a * 2 ^ 18 + b * 2 ^ 9 + j) / 2 ^ 18 = a)
    by (symmetry; apply (Z.div_unique_pos _ _ _ (b * 2 ^ 9 + j)); lia).
  assert (E1 : (a * 2 ^ 18 + b * 2 ^ 9 + j) / 2 ^ 9 = a * 512 + b)
    by (symmetry; apply (Z.div_unique_pos _ _ _ j); lia).
  assert (E0 : (a * 2 ^ 18 + b * 2 ^ 9 + j) mod 512 = j)
    by (symmetry; apply (Z.mod_unique_pos _ _ (a * 512 + b)); lia).
  unfold slot, vpath. rewrite E2, E1, E0, Z.add_comm, Z.mod_add, Z.mod_small by lia.
  rewrite Hk. done.
Qed.

Lemma freewalk_ok s T root H :
  vm_ok s T root H → (∀ v, is_vpn v → has (entry (vram s) T v) PTE_V = false) →
  ∃ s', freewalk 3 s root = Ok s' ∧ al_live (vheap s') (without H (table_pages T)) ∧
    same_outside (vram s) (vram s') (table_pages T).
Proof.
  intros Hok Hinv. pose proof (vo_pt _ _ _ _ Hok) as Hpt. pose proof Hpt as [Hroot _ _ _ _ Hnodes].
  destruct (freewalk_frees T (pt_ok_shape _ _ _ Hpt) 3 [] eq_refl s H root) as (s' & E & Hl & _ & Hs);
    [done|by eapply vo_live|by eapply vo_bytes| | |].
  - intros k q i Hq Hi. simpl in *. split; [by intros; apply Hnodes|].
    intros Hlen. destruct (leaf_vpn _ _ _ k q i Hpt Hq Hlen Hi) as (v & Hv & Hsl).
    rewrite <- (Hinv v Hv). unfold entry. by rewrite Hsl.
  - intros q Hq. rewrite subpages_root in Hq. apply elem_of_table_pages in Hq as [k Hk].
    by eapply vo_owned.
  - rewrite subpages_root in *. eauto.
Qed.

End uvmfree.
