(* ===== verification/VmCopy.v ===== *)
(** * Copying between the kernel and user memory: [copyout], [copyin] and
    [copyinstr] of [vm.c]. *)

From S2P Require Import Prelude.
From S2P Require Import Riscv.
From S2P Require Import Ram.
From S2P Require Import Kalloc.
From S2P Require Import Vm.
From S2P Require Import VmProof.
From S2P Require Import VmUser.

Lemma ld8_put m a l b :
  ld8 (put m a l) b =
  if (a <=? b) && (b <? a + zlen l) then u8 (default 0 (l !! Z.to_nat (b - a))) else ld8 m b.
Proof.
  revert m a. induction l as [|x l IH]; intros m a; cbn [put]; unfold zlen in *; simpl length.
  { repeat zcase; simpl; done || lia. }
  rewrite IH, ld8_st8. destruct (decide (a = b)) as [<-|].
  - rewrite Z.sub_diag. repeat zcase; simpl; done || lia.
  - repeat zcase; simpl; try done; try lia.
    replace (Z.to_nat (b - a)) with (S (Z.to_nat (b - (a + 1)))) by lia. done.
Qed.

Lemma length_get n m a : length (get n m a) = n.
Proof. revert a. induction n as [|n IH]; intros a; simpl; by rewrite ?IH. Qed.

Lemma lookup_get n m a i : (i < n)%nat → get n m a !! i = Some (ld8 m (a + Z.of_nat i)).
Proof.
  revert a i. induction n as [|n IH]; intros a i Hi; [lia|]. destruct i as [|i]; simpl.
  - by rewrite Z.add_0_r.
  - rewrite IH by lia. do 2 f_equal. lia.
Qed.

Section copy.
Context {heap : Type} `{AL : Allocator heap}.
Implicit Types (s : @vm heap) (T : tables) (H U : gmap Z Z).

(** The physical page of virtual page [w] for user code. *)
Definition upage s T (w : Z) : option Z :=
  let e := entry (vram s) T w in
  if (0 <=? w) && (w <? 2 ^ 26) && has e PTE_V && has e PTE_U then Some (PTE2PA e) else None.

(** The byte a process sees at virtual address [va]. *)
Definition umem s T (va : Z) : option Z :=
  p ← upage s T (va / PGSIZE); Some (ld8 (vram s) (p + va mod PGSIZE)).

(** All that user code can reach are the pages of [U]. *)
Definition reach s T U : Prop := ∀ w p, upage s T w = Some p → U !! w = Some p.

Lemma walkaddr_ok s T root H U w :
  user_ok s T root H U → 0 ≤ w →
  walkaddr s root (w * PGSIZE) = Ok (default 0 (upage s T w)).
Proof.
  intros Hu Hw. unfold walkaddr, upage. change MAXVA with (2 ^ 38).
  destruct (Z.leb_spec (2 ^ 38) (w * PGSIZE)) as [Hge|Hlt]; unfold PGSIZE in *.
  { destruct (Z.leb_spec 0 w), (Z.ltb_spec w (2 ^ 26)); simpl; done || lia. }
  assert (Hvpn : is_vpn w) by (unfold is_vpn; lia).
  pose proof (vpn_addr w Hvpn) as [Hva Hdiv]. unfold PGSIZE in Hva, Hdiv.
  rewrite (walk_lookup s T root H) by (done || apply Hu). unfold PGSIZE. rewrite Hdiv, bind_Ok.
  destruct (Z.leb_spec 0 w), (Z.ltb_spec w (2 ^ 26)); try lia. simpl. unfold entry.
  destruct (slot T w) as [a|] eqn:Ha; simpl; [|done].
  destruct (Z.eqb_spec a 0) as [->|_]; [by destruct (slot_nonzero _ _ _ _ _ _ (uo_vm _ _ _ _ _ Hu) Ha)|].
  by destruct (has (ld64 (vram s) a) PTE_V), (has (ld64 (vram s) a) PTE_U).
Qed.

Lemma upage_page s T root H U w p :
  user_ok s T root H U → reach s T U → upage s T w = Some p →
  is_vpn w ∧ page_addr p ∧ p ∉ table_pages T.
Proof.
  intros Hu Hr Hp. destruct (uo_map _ _ _ _ _ Hu w p (Hr w p Hp)) as (? & Hl & ? & _).
  split_and!; try done. by eapply page_of_live; [apply Hu|].
Qed.

(** Writing bytes into a user page. *)
Lemma put_user s T root H U w p off l :
  user_ok s T root H U → reach s T U → upage s T w = Some p →
  0 ≤ off → off + zlen l ≤ PGSIZE → Forall (λ x, 0 ≤ x < 256) l →
  let s' := with_ram s (put (vram s) (p + off) l) in
  user_ok s' T root H U ∧ reach s' T U ∧ (∀ x, upage s' T x = upage s T x) ∧
  ∀ va, umem s' T va =
    if (w * PGSIZE + off <=? va) && (va <? w * PGSIZE + off + zlen l)
    then l !! Z.to_nat (va - (w * PGSIZE + off)) else umem s T va.
Proof.
  intros Hu Hr Hp Ho Hlen Hl s'.
  destruct (upage_page _ _ _ _ _ _ _ Hu Hr Hp) as (Hw & Hpa & Hnt).
  assert (Hso : same_outside (vram s) (put (vram s) (p + off) l) {[p]}).
  { intros a Ha. specialize (Ha p ltac:(set_solver)). rewrite ld8_put.
    repeat zcase; simpl; done || lia. }
  destruct (user_ok_data s T root H U p _ Hu Hpa Hnt Hso) as [Hu' He'];
    [apply bytes_ok_put, (vo_bytes _ _ _ _ (uo_vm _ _ _ _ _ Hu))|].
  assert (Hup : ∀ x, upage s' T x = upage s T x).
  { intros x. unfold upage, s'. simpl.
    destruct (Z.leb_spec 0 x), (Z.ltb_spec x (2 ^ 26)); simpl; try done.
    rewrite He' by (unfold is_vpn; lia). done. }
  split_and!; [done|intros x q; rewrite Hup; apply Hr|done|].
  intros va. unfold umem. rewrite Hup.
  pose proof (Z.div_mod va PGSIZE ltac:(unfold PGSIZE; lia)) as Hdm.
  pose proof (Z.mod_pos_bound va PGSIZE ltac:(unfold PGSIZE; lia)) as Hmb.
  destruct (decide (va / PGSIZE = w)) as [Ew|Hne].
  - rewrite Ew, Hp. simpl. rewrite ld8_put.
    replace (p + va mod PGSIZE - (p + off)) with (va - (w * PGSIZE + off)) by lia.
    destruct (decide (w * PGSIZE + off ≤ va < w * PGSIZE + off + zlen l)) as [Hin|Hout].
    + destruct (Z.leb_spec (p + off) (p + va mod PGSIZE)); [|lia].
      destruct (Z.ltb_spec (p + va mod PGSIZE) (p + off + zlen l)); [|lia]. simpl.
      destruct (Z.leb_spec (w * PGSIZE + off) va); [|lia].
      destruct (Z.ltb_spec va (w * PGSIZE + off + zlen l)); [|lia]. simpl.
      destruct (lookup_lt_is_Some_2 l (Z.to_nat (va - (w * PGSIZE + off)))) as [x Hx];
        [unfold zlen in *; lia|]. rewrite Hx. simpl. f_equal. apply u8_small.
      by eapply (Forall_lookup_1 _ _ _ _ Hl).
    + destruct (Z.leb_spec (p + off) (p + va mod PGSIZE)),
        (Z.ltb_spec (p + va mod PGSIZE) (p + off + zlen l)),
        (Z.leb_spec (w * PGSIZE + off) va), (Z.ltb_spec va (w * PGSIZE + off + zlen l));
        simpl; done || lia.
  - destruct (Z.leb_spec (w * PGSIZE + off) va), (Z.ltb_spec va (w * PGSIZE + off + zlen l));
      simpl; unfold PGSIZE in *; try lia.
    all: destruct (upage s T (va / 4096)) as [q|] eqn:Eq; [|done]; simpl; f_equal; apply Hso;
      intros x ->%elem_of_singleton;
      destruct (upage_page _ _ _ _ _ _ _ Hu Hr Eq) as (_ & Hqa & _);
      assert (q ≠ p) by (intros ->; apply Hne; by eapply (uo_inj _ _ _ _ _ Hu); apply Hr);
      pose proof (page_addr_ne q p Hqa Hpa ltac:(done)); unfold PGSIZE in *; lia.
Qed.

(** The part of a transfer that falls in the page of [va]. *)
Lemma page_chunk va len :
  0 ≤ va → 0 < len →
  let va0 := PGROUNDDOWN va in
  let n := Z.min (PGSIZE - (va - va0)) len in
  va0 = va / PGSIZE * PGSIZE ∧ va - va0 = va mod PGSIZE ∧ 0 ≤ va mod PGSIZE ∧
  0 < n ≤ len ∧ va mod PGSIZE + n ≤ PGSIZE ∧
  (∀ i, 0 ≤ i < n → (va + i) / PGSIZE = va / PGSIZE) ∧
  (n < len → va + n = (va / PGSIZE + 1) * PGSIZE).
Proof.
  intros Hva Hlen. cbn zeta. rewrite PGROUNDDOWN_eq. change 4096 with PGSIZE.
  pose proof (Z.div_mod va PGSIZE ltac:(unfold PGSIZE; lia)).
  pose proof (Z.mod_pos_bound va PGSIZE ltac:(unfold PGSIZE; lia)).
  assert (0 < PGSIZE) by done.
  split; [done|]. split; [lia|]. split; [lia|]. split; [lia|]. split; [lia|]. split; [|lia].
  intros i Hi. symmetry. apply (Z.div_unique_pos _ _ _ (va mod PGSIZE + i)); lia.
Qed.

Lemma upage_range s T w p : upage s T w = Some p → 0 ≤ w < 2 ^ 26.
Proof.
  unfold upage. destruct (Z.leb_spec 0 w), (Z.ltb_spec w (2 ^ 26)); simpl; done || lia.
Qed.

Lemma upage_nonzero s T root H U w p :
  user_ok s T root H U → reach s T U → upage s T w = Some p → p ≠ 0.
Proof. intros Hu Hr Hp. destruct (upage_page _ _ _ _ _ _ _ Hu Hr Hp) as (_ & [_ ?] & _). lia. Qed.

Lemma copyout_loop_ok fuel T root H U : ∀ s dstva src,
  user_ok s T root H U → reach s T U → 0 ≤ dstva →
  Forall (λ x, 0 ≤ x < 256) src → (length src ≤ fuel)%nat →
  ∃ r s', copyout_loop fuel s root dstva src = Ok (r, s') ∧
    user_ok s' T root H U ∧ reach s' T U ∧ (∀ x, upage s' T x = upage s T x) ∧
    ((r = 0 ∧ ∀ i x, src !! i = Some x → umem s' T (dstva + Z.of_nat i) = Some x) ∨
     (r = -1 ∧ ∃ i, 0 ≤ i < zlen src ∧ upage s T ((dstva + i) / PGSIZE) = None)) ∧
    ∀ va, va < dstva ∨ dstva + zlen src ≤ va → umem s' T va = umem s T va.
Proof.
  induction fuel as [|fuel IH]; intros s dstva src Hu Hr Hd Hb Hf.
  { destruct src; simpl in Hf; [|lia]. exists 0, s. split_and!; try done. left. split; done. }
  destruct src as [|x0 src0] eqn:Esrc.
  { exists 0, s. split_and!; try done. left. split; done. }
  rewrite <- Esrc in *. assert (Hpos : 0 < zlen src) by (rewrite Esrc; unfold zlen; simpl; lia).
  replace (copyout_loop (S fuel) s root dstva src) with
    (let va0 := PGROUNDDOWN dstva in
     pa0 ← walkaddr s root va0;
     if pa0 =? 0 then Ok (-1, s)
     else
       let n := Z.min (PGSIZE - (dstva - va0)) (zlen src) in
       let m := put (vram s) (pa0 + (dstva - va0)) (take (Z.to_nat n) src) in
       copyout_loop fuel (with_ram s m) root (u64 (va0 + PGSIZE)) (drop (Z.to_nat n) src))
    by (by rewrite Esrc).
  clear x0 src0 Esrc. destruct (page_chunk dstva (zlen src) Hd Hpos)
    as (E0 & Eo & Ho & Hn & Hfit & Hsame & Hnext). cbn zeta.
  set (n := Z.min (PGSIZE - (dstva - PGROUNDDOWN dstva)) (zlen src)) in *.
  assert (Ewa : walkaddr s root (PGROUNDDOWN dstva) = Ok (default 0 (upage s T (dstva / PGSIZE)))).
  { rewrite E0. apply (walkaddr_ok s T root H U); [done|]. apply Z.div_pos; unfold PGSIZE; lia. }
  rewrite Ewa, bind_Ok, Eo. destruct (upage s T (dstva / PGSIZE)) as [p|] eqn:Ep; simpl default.
  2: { exists (-1), s. split_and!; try done. right. split; [done|]. exists 0.
       rewrite Z.add_0_r. split; [lia|done]. }
  destruct (Z.eqb_spec p 0) as [->|_]; [by destruct (upage_nonzero _ _ _ _ _ _ _ Hu Hr Ep)|].
  assert (Hlt : zlen (take (Z.to_nat n) src) = n).
  { unfold zlen in *. rewrite length_take. lia. }
  destruct (put_user s T root H U _ p (dstva mod PGSIZE) (take (Z.to_nat n) src) Hu Hr Ep)
    as (Hu1 & Hr1 & Hup1 & Hm1); [done|rewrite Hlt; lia|by apply Forall_take|].
  rewrite Hlt in Hm1. replace (dstva / PGSIZE * PGSIZE + dstva mod PGSIZE) with dstva in Hm1 by lia.
  pose proof (upage_range _ _ _ _ Ep) as Hwr.
  assert (Hsafe : 0 ≤ PGROUNDDOWN dstva + PGSIZE < 2 ^ 64) by (rewrite E0; unfold PGSIZE in *; lia).
  rewrite u64_small by done.
  destruct (IH _ (PGROUNDDOWN dstva + PGSIZE) (drop (Z.to_nat n) src) Hu1 Hr1)
    as (r & s2 & E2 & Hu2 & Hr2 & Hup2 & Hres & Hout);
    [lia|by apply Forall_drop|rewrite length_drop; lia|].
  assert (Hdl : zlen (drop (Z.to_nat n) src) = zlen src - n).
  { unfold zlen in *. rewrite length_drop. lia. }
  assert (Hnx : n < zlen src → PGROUNDDOWN dstva + PGSIZE = dstva + n).
  { intros Hl. rewrite Hnext by done. rewrite E0. lia. }
  exists r, s2. split; [exact E2|]. split; [done|]. split; [done|].
  split; [intros x; by rewrite Hup2, Hup1|]. split.
  - destruct Hres as [[-> Hw]|[-> (i & Hi & Hnone)]]; [left|right]; (split; [done|]).
    + intros i x Hx. pose proof (lookup_lt_Some _ _ _ Hx) as Hil.
      destruct (decide (Z.of_nat i < n)) as [Hin|Hin].
      * rewrite Hout by (destruct (decide (n < zlen src)); [rewrite Hnx by done; lia|];
          unfold zlen in *; lia).
        rewrite Hm1. destruct (Z.leb_spec dstva (dstva + Z.of_nat i)); [|lia].
        destruct (Z.ltb_spec (dstva + Z.of_nat i) (dstva + n)); [|lia]. simpl.
        replace (Z.to_nat (dstva + Z.of_nat i - dstva)) with i by lia.
        by rewrite lookup_take_lt by lia.
      * rewrite Hnx in Hw by (unfold zlen in *; lia).
        specialize (Hw (i - Z.to_nat n)%nat x). rewrite lookup_drop in Hw.
        replace (Z.to_nat n + (i - Z.to_nat n))%nat with i in Hw by lia.
        specialize (Hw Hx). by replace (dstva + n + Z.of_nat (i - Z.to_nat n)) with
          (dstva + Z.of_nat i) in Hw by lia.
    + rewrite Hdl in Hi. rewrite Hnx in Hnone by lia. exists (n + i). split; [lia|].
      rewrite Hup1 in Hnone. by replace (dstva + (n + i)) with (dstva + n + i) by lia.
  - intros va Hva. rewrite Hout, Hm1.
    + destruct (Z.leb_spec dstva va), (Z.ltb_spec va (dstva + n)); simpl; done || lia.
    + rewrite Hdl. destruct (decide (n < zlen src)); [rewrite Hnx by done; lia|].
      replace (zlen src - n) with 0 by lia. lia.
Qed.

Lemma copyin_loop_ok fuel s T root H U : ∀ srcva len,
  user_ok s T root H U → reach s T U → 0 ≤ srcva → 0 ≤ len ≤ Z.of_nat fuel →
  ∃ r l, copyin_loop fuel s root srcva len = Ok (r, l) ∧
    ((r = 0 ∧ zlen l = len ∧ ∀ i x, l !! i = Some x → umem s T (srcva + Z.of_nat i) = Some x) ∨
     (r = -1 ∧ ∃ i, 0 ≤ i < len ∧ upage s T ((srcva + i) / PGSIZE) = None)).
Proof.
  induction fuel as [|fuel IH]; intros srcva len Hu Hr Hs Hlen; cbn [copyin_loop];
    destruct (Z.leb_spec len 0) as [Hz|Hpos]; try lia;
    try (exists 0, []; split; [done|]; left; split_and!; [done|unfold zlen; simpl; lia|done]).
  destruct (page_chunk srcva len Hs Hpos) as (E0 & Eo & Ho & Hn & Hfit & Hsame & Hnext).
  set (n := Z.min (PGSIZE - (srcva - PGROUNDDOWN srcva)) len) in *.
  assert (Ewa : walkaddr s root (PGROUNDDOWN srcva) = Ok (default 0 (upage s T (srcva / PGSIZE)))).
  { rewrite E0. apply (walkaddr_ok s T root H U); [done|]. apply Z.div_pos; unfold PGSIZE; lia. }
  rewrite Ewa, bind_Ok, Eo. destruct (upage s T (srcva / PGSIZE)) as [p|] eqn:Ep; simpl default.
  2: { exists (-1), []. split; [done|]. right. split; [done|]. exists 0.
       rewrite Z.add_0_r. split; [lia|done]. }
  destruct (Z.eqb_spec p 0) as [->|_]; [by destruct (upage_nonzero _ _ _ _ _ _ _ Hu Hr Ep)|].
  pose proof (upage_range _ _ _ _ Ep) as Hwr.
  rewrite u64_small by (rewrite E0; unfold PGSIZE in *; lia).
  destruct (IH (PGROUNDDOWN srcva + PGSIZE) (len - n) Hu Hr) as (r & l & E & Hres);
    [rewrite E0; unfold PGSIZE in *; lia|lia|]. rewrite E, bind_Ok.
  assert (Hnx : n < len → PGROUNDDOWN srcva + PGSIZE = srcva + n).
  { intros Hl. rewrite Hnext by done. rewrite E0. lia. }
  eexists r, _. split; [done|].
  destruct Hres as [(-> & Hl & Hm)|(-> & i & Hi & Hnone)]; [left|right]; (split; [done|]).
  - split; [unfold zlen in *; rewrite length_app, length_get; lia|].
    intros i x Hx. apply lookup_app_Some in Hx as [Hx|[Hge Hx]].
    + pose proof (lookup_lt_Some _ _ _ Hx) as Hil. rewrite length_get in Hil.
      rewrite lookup_get in Hx by done. injection Hx as <-. unfold umem.
      rewrite Hsame, Ep by lia. simpl. do 2 f_equal.
      pose proof (Z.div_mod (srcva + Z.of_nat i) PGSIZE ltac:(unfold PGSIZE; lia)) as Hd1.
      pose proof (Z.div_mod srcva PGSIZE ltac:(unfold PGSIZE; lia)) as Hd2.
      rewrite Hsame in Hd1 by lia. lia.
    + rewrite length_get in Hge, Hx. pose proof (lookup_lt_Some _ _ _ Hx) as Hil.
      rewrite Hnx in Hm by (unfold zlen in *; lia). rewrite <- (Hm _ _ Hx). f_equal. lia.
  - rewrite Hnx in Hnone by lia. exists (n + i). split; [lia|].
    by replace (srcva + (n + i)) with (srcva + n + i) by lia.
Qed.

Lemma copyinstr_page_ok n m p g l :
  copyinstr_page n m p = (g, l) →
  (∀ i x, l !! i = Some x → x = ld8 m (p + Z.of_nat i)) ∧
  (if (g : bool) then
     ∃ k, zlen l = Z.of_nat k + 1 ∧ (k < n)%nat ∧ l !! k = Some 0 ∧
       ∀ i x, l !! i = Some x → (i < k)%nat → x ≠ 0
   else zlen l = Z.of_nat n ∧ ∀ i x, l !! i = Some x → x ≠ 0).
Proof.
  revert p g l. induction n as [|n IH]; intros p g l E; cbn [copyinstr_page] in E.
  { injection E as <- <-. done. }
  destruct (Z.eqb_spec (ld8 m p) 0) as [Ez|Ez].
  - injection E as <- <-. split.
    + intros [|i] x Hx; [|done]. injection Hx as <-. by rewrite Z.add_0_r.
    + exists O. split_and!; [done|lia|done|intros; lia].
  - destruct (copyinstr_page n m (p + 1)) as [g0 l0] eqn:E0. injection E as <- <-.
    destruct (IH _ _ _ E0) as [H1 H2]. split.
    + intros [|i] x Hx; simpl in Hx; [injection Hx as <-; by rewrite Z.add_0_r|].
      rewrite (H1 i x Hx). f_equal. lia.
    + destruct g0.
      * destruct H2 as (k & Hk & Hkn & Hz & Hnz). exists (S k).
        split_and!; [unfold zlen in *; simpl; lia|lia|done|].
        intros [|i] x Hx Hi; simpl in Hx; [by injection Hx as <-|]. eapply Hnz; [done|lia].
      * destruct H2 as [Hl Hnz]. split; [unfold zlen in *; simpl; lia|].
        intros [|i] x Hx; simpl in Hx; [by injection Hx as <-|by eapply Hnz].
Qed.

(** The NUL-terminated string at [srcva], as user code sees it. *)
Definition ustring s T (srcva : Z) (l : list Z) : Prop :=
  (∀ i x, l !! i = Some x → umem s T (srcva + Z.of_nat i) = Some x) ∧
  ∃ k, length l = S k ∧ l !! k = Some 0 ∧ ∀ i x, l !! i = Some x → (i < k)%nat → x ≠ 0.

(** No string of at most [max] bytes, NUL included, can be read at [srcva]. *)
Definition no_ustring s T (srcva max : Z) : Prop :=
  ∀ k, 0 ≤ k < max →
    (∃ i, 0 ≤ i ≤ k ∧ upage s T ((srcva + i) / PGSIZE) = None) ∨
    umem s T (srcva + k) ≠ Some 0.

Lemma umem_chunk s T va p i :
  upage s T (va / PGSIZE) = Some p → (va + i) / PGSIZE = va / PGSIZE →
  umem s T (va + i) = Some (ld8 (vram s) (p + va mod PGSIZE + i)).
Proof.
  intros Hp Hs. unfold umem. rewrite Hs, Hp. simpl. do 2 f_equal.
  pose proof (Z.div_mod (va + i) PGSIZE ltac:(unfold PGSIZE; lia)) as H1.
  pose proof (Z.div_mod va PGSIZE ltac:(unfold PGSIZE; lia)). rewrite Hs in H1. lia.
Qed.

Lemma copyinstr_loop_ok fuel s T root H U : ∀ srcva max,
  user_ok s T root H U → reach s T U → 0 ≤ srcva → max ≤ Z.of_nat fuel →
  ∃ r l, copyinstr_loop fuel s root srcva max = Ok (r, l) ∧
    ((r = 0 ∧ zlen l ≤ max ∧ ustring s T srcva l) ∨ (r = -1 ∧ no_ustring s T srcva max)).
Proof.
  induction fuel as [|fuel IH]; intros srcva max Hu Hr Hs Hmax; cbn [copyinstr_loop];
    destruct (Z.leb_spec max 0) as [Hz|Hpos]; try lia;
    try (exists (-1), []; split; [done|]; right; split; [done|]; intros k Hk; lia).
  destruct (page_chunk srcva max Hs Hpos) as (E0 & Eo & Ho & Hn & Hfit & Hsame & Hnext).
  set (n := Z.min (PGSIZE - (srcva - PGROUNDDOWN srcva)) max) in *.
  assert (Ewa : walkaddr s root (PGROUNDDOWN srcva) = Ok (default 0 (upage s T (srcva / PGSIZE)))).
  { rewrite E0. apply (walkaddr_ok s T root H U); [done|]. apply Z.div_pos; unfold PGSIZE; lia. }
  rewrite Ewa, bind_Ok, Eo. destruct (upage s T (srcva / PGSIZE)) as [p|] eqn:Ep; simpl default.
  2: { exists (-1), []. split; [done|]. right. split; [done|]. intros k Hk. left. exists 0.
       rewrite Z.add_0_r. split; [lia|done]. }
  destruct (Z.eqb_spec p 0) as [->|_]; [by destruct (upage_nonzero _ _ _ _ _ _ _ Hu Hr Ep)|].
  destruct (copyinstr_page (Z.to_nat n) (vram s) (p + srcva mod PGSIZE)) as [g l] eqn:Ec.
  destruct (copyinstr_page_ok _ _ _ _ _ Ec) as [Hl Hg].
  assert (Hum : ∀ i, 0 ≤ i < n → umem s T (srcva + i) = Some (ld8 (vram s) (p + srcva mod PGSIZE + i))).
  { intros i Hi. apply umem_chunk; [done|by apply Hsame]. }
  destruct g.
  { destruct Hg as (k & Hk & Hkn & Hkz & Hnz). exists 0, l. split; [done|]. left.
    split; [done|]. split; [lia|]. split.
    - intros i x Hx. pose proof (lookup_lt_Some _ _ _ Hx). rewrite Hum by (unfold zlen in *; lia).
      by rewrite (Hl i x Hx).
    - exists k. split_and!; [unfold zlen in *; lia|done|done]. }
  destruct Hg as [Hll Hnz]. rewrite Z2Nat.id in Hll by lia.
  pose proof (upage_range _ _ _ _ Ep) as Hwr.
  rewrite u64_small by (rewrite E0; unfold PGSIZE in *; lia).
  destruct (IH (PGROUNDDOWN srcva + PGSIZE) (max - n) Hu Hr) as (r & l' & E & Hres);
    [rewrite E0; unfold PGSIZE in *; lia|lia|]. rewrite E, bind_Ok.
  assert (Hnx : n < max → PGROUNDDOWN srcva + PGSIZE = srcva + n).
  { intros Hlt. rewrite Hnext by done. rewrite E0. lia. }
  assert (Hfirst : ∀ i, 0 ≤ i < n → umem s T (srcva + i) ≠ Some 0).
  { intros i Hi. rewrite Hum by done. intros [= Ez].
    destruct (lookup_lt_is_Some_2 l (Z.to_nat i)) as [x Hx]; [unfold zlen in *; lia|].
    apply (Hnz _ _ Hx). rewrite (Hl _ _ Hx), Z2Nat.id by lia. done. }
  exists r, (l ++ l'). split; [done|].
  destruct Hres as [(-> & Hlen & Hstr & k & Hk & Hkz & Hkn)|[-> Hno]]; [left|right]; (split; [done|]).
  - assert (Hlt : n < max) by (unfold zlen in *; lia). rewrite Hnx in Hstr by done.
    split; [unfold zlen in *; rewrite length_app; lia|]. split.
    + intros i x Hx. apply lookup_app_Some in Hx as [Hx|[Hge Hx]].
      * pose proof (lookup_lt_Some _ _ _ Hx). rewrite Hum by (unfold zlen in *; lia).
        by rewrite (Hl i x Hx).
      * rewrite <- (Hstr _ _ Hx). f_equal. unfold zlen in *. lia.
    + exists (length l + k)%nat. split_and!.
      * rewrite length_app. lia.
      * rewrite lookup_app_r by lia. by replace (length l + k - length l)%nat with k by lia.
      * intros i x Hx Hi. apply lookup_app_Some in Hx as [Hx|[Hge Hx]]; [by eapply Hnz|].
        eapply Hkn; [done|lia].
  - intros k Hk. destruct (decide (k < n)) as [Hkn|Hkn]; [right; apply Hfirst; lia|].
    rewrite Hnx in Hno by lia. destruct (Hno (k - n) ltac:(lia)) as [(i & Hi & Hi0)|Hne].
    + left. exists (n + i). split; [lia|]. by replace (srcva + (n + i)) with (srcva + n + i) by lia.
    + right. by replace (srcva + n + (k - n)) with (srcva + k) in Hne by lia.
Qed.

End copy.
