(* ===== verification/VmThm.v ===== *)
(** * What the virtual-memory operations guarantee, and a small machine on which
    they run. *)

From S2P Require Import Prelude.
From S2P Require Import Riscv.
From S2P Require Import Ram.
From S2P Require Import Buddy.
From S2P Require Import BuddyInv.
From S2P Require Import BuddyBoot.
From S2P Require Import Kalloc.
From S2P Require Import Vm.
From S2P Require Import VmProof.
From S2P Require Import VmUser.
From S2P Require Import VmFree.
From S2P Require Import VmCopy.

Section theorems.
Context {heap : Type} `{AL : Allocator heap}.
Implicit Types (s : @vm heap) (T : tables) (H U : gmap Z Z).

(** ** Growing *)

Lemma uvmalloc_ok s T (root : Z) H U (oldsz newsz xperm : Z) :
  user_ok s T root H U → 0 ≤ oldsz ≤ newsz → newsz ≤ MAXVA → 0 ≤ xperm < 2 ^ 10 →
  (∀ w, npages oldsz ≤ w < npages newsz → U !! w = None ∧ entry (vram s) T w = 0) →
  ∃ r s', uvmalloc s root oldsz newsz xperm = Ok (r, s') ∧
    ((r = newsz ∧ ∃ T' H' U',
        grown s T H U root (npages oldsz) (λ _, Z.lor (Z.lor PTE_R PTE_U) xperm) (λ _ _, 0)
          (npages newsz - npages oldsz) s' T' H' U') ∨
     (r = 0 ∧ ∃ T' H', restored s T H U root s' T' H')).
Proof.
  intros Hu Hsz Hmax Hperm Hnone. unfold uvmalloc.
  destruct (Z.ltb_spec newsz oldsz); [lia|].
  pose proof (npages_range newsz ltac:(lia)). pose proof (npages_range oldsz ltac:(lia)).
  pose proof (npages_mono oldsz newsz ltac:(lia)). change MAXVA with (2 ^ 38) in Hmax.
  rewrite pages_of by lia. fold (npages oldsz).
  replace ((newsz - npages oldsz * PGSIZE + PGSIZE - 1) / PGSIZE)
    with (npages newsz - npages oldsz)
    by (unfold npages, PGSIZE; Z.to_euclidean_division_equations; lia).
  destruct (uvmalloc_loop_ok (Z.to_nat (npages newsz - npages oldsz)) s T H U root
    (npages oldsz) xperm newsz 0 s T H U) as (r & s' & E & Hr);
    [by apply grown_start|lia|lia|lia|done|intros; apply Hnone; lia|].
  rewrite Z.add_0_r in E. rewrite Z.add_0_l, Z2Nat.id in Hr by lia. eauto.
Qed.


(** ** Copying an address space *)

(** C11: [uvmcopy] gives the child, at every page of the parent, a page of its
    own with the same flags and the same contents and returns 0; when memory
    runs out it returns -1 with the child's mappings as they were. The parent's
    memory is never changed. *)
Theorem uvmcopy_correct s To (ro : Z) Uo T (root : Z) U H (sz : Z) :
  user_ok s To ro H Uo → user_ok s T root H U → table_pages To ## table_pages T →
  (∀ w p, Uo !! w = Some p → p ∉ table_pages T) → 0 ≤ sz ≤ MAXVA →
  (∀ w, 0 ≤ w < npages sz → is_Some (Uo !! w) ∧ U !! w = None ∧ entry (vram s) T w = 0) →
  ∃ r s', uvmcopy s ro root sz = Ok (r, s') ∧
    ((r = 0 ∧ ∃ T' H' U',
        grown s T H U root 0 (pt_flags s To) (pt_bytes s To) (npages sz) s' T' H' U') ∨
     (r = -1 ∧ ∃ T' H', restored s T H U root s' T' H')).
Proof.
  intros Hold Hnew Hd Hdata Hsz Hall. pose proof (npages_range sz Hsz). unfold uvmcopy.
  change ((sz + PGSIZE - 1) / PGSIZE) with ((sz + 4096 - 1) / 4096).
  replace ((sz + 4096 - 1) / 4096) with (npages sz) by (unfold npages; f_equal; lia).
  destruct (uvmcopy_loop_ok s T To H U Uo root ro Hold Hd Hdata (Z.to_nat (npages sz)) 0 s T H U)
    as (r & s' & E & Hr); [by apply grown_start|lia|lia|intros; apply Hall; lia|].
  rewrite Z.add_0_l, Z2Nat.id in Hr by lia. rewrite Z.mul_0_l in E. eauto.
Qed.

(** ** Freeing an address space *)

(** [uvmfree] of a process whose only mappings are its first pages returns
    exactly the table pages and the user pages to the allocator: nothing leaks
    and nothing else is freed. *)
Theorem uvmfree_correct s T (root : Z) H U (sz : Z) :
  user_ok s T root H U → 0 ≤ sz ≤ MAXVA →
  (∀ w, is_Some (U !! w) ↔ 0 ≤ w < npages sz) →
  (∀ w, is_vpn w → U !! w = None → has (entry (vram s) T w) PTE_V = false) →
  ∃ s', uvmfree s root sz = Ok s' ∧
    al_live (vheap s') (without H (map_img U ∪ table_pages T)).
Proof.
  intros Hu Hsz Hdom Hinv. pose proof (npages_range sz Hsz) as Hnp. unfold uvmfree.
  assert (Hrange : range_pages U 0 (npages sz) = map_img U).
  { apply set_eq. intros p. rewrite elem_of_range_pages, elem_of_map_img. split; [naive_solver|].
    intros [w Hw]. exists w. split; [done|]. rewrite Z.add_0_l. apply Hdom. eauto. }
  assert (Hun : ∃ s1,
    (if 0 <? sz then uvmunmap s root 0 (PGROUNDUP sz / PGSIZE) 1 else Ok s) = Ok s1 ∧
    user_ok s1 T root (without H (map_img U)) (unmapped U 0 (npages sz)) ∧
    ∀ w, is_vpn w → entry (vram s1) T w = cleared (entry (vram s) T) 0 (npages sz) w).
  { rewrite <- Hrange. change MAXVA with (2 ^ 38) in Hsz. destruct (Z.ltb_spec 0 sz).
    - rewrite pages_of, Z.div_mul by (unfold PGSIZE; lia). fold (npages sz).
      destruct (uvmunmap_ok s T root H U 0 (npages sz) Hu) as (s1 & E & Hu1 & _ & He1);
        [lia|lia|lia|intros w Hw; by apply Hdom|]. eauto.
    - assert (npages sz = 0) as -> by (unfold npages; replace sz with 0 by lia; done).
      exists s. rewrite range_pages_zero, unmapped_zero, without_empty. split_and!; try done.
      intros w Hw. unfold cleared. repeat zcase; simpl; done || lia. }
  destruct Hun as (s1 & -> & Hu1 & He1). rewrite bind_Ok.
  destruct (freewalk_ok s1 T root _ (uo_vm _ _ _ _ _ Hu1)) as (s2 & E & Hl & _).
  - intros w Hw. rewrite He1 by done. unfold cleared.
    destruct (Z.leb_spec 0 w), (Z.ltb_spec w (0 + npages sz)); simpl; [done|..];
      (apply Hinv; [done|]; apply eq_None_not_Some; rewrite Hdom; lia).
  - rewrite without_union in Hl. eauto.
Qed.

(** ** Copying to and from user memory *)

(** C23: [copyout] returns 0 exactly when the process can reach every byte of
    the destination; then the process sees the bytes there. In no case does the
    process see any other byte change. *)
Theorem copyout_correct s T (root : Z) H U (dstva : Z) (src : list Z) :
  user_ok s T root H U → reach s T U → 0 ≤ dstva → Forall (λ x, 0 ≤ x < 256) src →
  ∃ r s', copyout s root dstva src = Ok (r, s') ∧ user_ok s' T root H U ∧
    (r = 0 ↔ ∀ i, 0 ≤ i < zlen src → is_Some (upage s T ((dstva + i) / PGSIZE))) ∧
    (r = 0 → ∀ i x, src !! i = Some x → umem s' T (dstva + Z.of_nat i) = Some x) ∧
    (∀ va, va < dstva ∨ dstva + zlen src ≤ va → umem s' T va = umem s T va).
Proof.
  intros Hu Hr Hd Hb.
  destruct (copyout_loop_ok (length src) T root H U s dstva src Hu Hr Hd Hb ltac:(lia))
    as (r & s' & E & Hu' & Hr' & Hup & Hres & Hout).
  exists r, s'. split; [done|]. split; [done|].
  destruct Hres as [[-> Hw]|[-> (i & Hi & Hnone)]]; split_and!; try done.
  - split; [|done]. intros _ i Hi. rewrite <- Hup.
    destruct (lookup_lt_is_Some_2 src (Z.to_nat i)) as [x Hx]; [unfold zlen in *; lia|].
    specialize (Hw _ _ Hx). rewrite Z2Nat.id in Hw by lia. unfold umem in Hw.
    destruct (upage s' T _); [eauto|done].
  - split; [done|]. intros Hall. destruct (Hall i Hi) as [p Hp]. congruence.
Qed.

(** What was copied out is what is copied back in. *)
Theorem copyout_copyin s T (root : Z) H U (va : Z) (src : list Z) s' :
  user_ok s T root H U → reach s T U → 0 ≤ va → Forall (λ x, 0 ≤ x < 256) src →
  copyout s root va src = Ok (0, s') → copyin s' root va (zlen src) = Ok (0, src).
Proof.
  intros Hu Hr Hva Hb E.
  destruct (copyout_loop_ok (length src) T root H U s va src Hu Hr Hva Hb ltac:(lia))
    as (r & s1 & E1 & Hu1 & Hr1 & Hup & Hres & _).
  unfold copyout in E. rewrite E1 in E. injection E as -> ->.
  destruct Hres as [[_ Hw]|[? _]]; [|done].
  destruct (copyin_loop_ok (Z.to_nat (zlen src)) s' T root H U va (zlen src) Hu1 Hr1 Hva)
    as (r & l & E2 & Hres); [unfold zlen; lia|]. unfold copyin. rewrite E2.
  destruct Hres as [(-> & Hl & Hm)|(-> & i & Hi & Hnone)].
  - do 2 f_equal. apply list_eq_same_length with (length src); [done|unfold zlen in *; lia|].
    intros i x y Hi Hx Hy. apply Hm in Hx. apply Hw in Hy. congruence.
  - destruct (lookup_lt_is_Some_2 src (Z.to_nat i)) as [x Hx]; [unfold zlen in *; lia|].
    specialize (Hw _ _ Hx). rewrite Z2Nat.id in Hw by lia. unfold umem in Hw. by rewrite Hnone in Hw.
Qed.

(** [copyinstr] returns 0 with the NUL-terminated string at the user
    address when one of at most [max] bytes can be read there, and -1 when
    there is none. *)
Theorem copyinstr_correct s T (root : Z) H U (srcva max : Z) :
  user_ok s T root H U → reach s T U → 0 ≤ srcva →
  ∃ r l, copyinstr s root srcva max = Ok (r, l) ∧
    ((r = 0 ∧ zlen l ≤ max ∧ ustring s T srcva l) ∨ (r = -1 ∧ no_ustring s T srcva max)).
Proof.
  intros Hu Hr Hs. apply (copyinstr_loop_ok (Z.to_nat max) s T root H U); try done. lia.
Qed.

(** ** A new page table *)

Lemma uvmcreate_ok s H :
  al_live (vheap s) H → bytes_ok (vram s) →
  ∃ r s', uvmcreate s = Ok (r, s') ∧
    ((r = 0 ∧ s' = s) ∨
     (H !! r = None ∧ user_ok s' {[ [] := r ]} r (<[r := PGSIZE]> H) ∅ ∧
      ∀ w, entry (vram s') {[ [] := r ]} w = 0)).
Proof.
  intros Hl Hb. unfold uvmcreate.
  destruct (vm_alloc_ok s H Hl) as (pg & s1 & -> & Hram & Hc). rewrite bind_Ok.
  destruct Hc as [[-> ->]|(Hnz & Hfr & Hpa & Hl1)]; [exists 0, s; split; [done|by left]|].
  destruct (Z.eqb_spec pg 0); [done|]. eexists pg, _. split; [done|]. right. split; [done|].
  assert (Hsing : ∀ (k : list Z) p, ({[ [] := pg ]} : tables) !! k = Some p → k = [] ∧ p = pg).
  { intros k p [<- <-]%lookup_singleton_Some. done. }
  assert (Hnone : ∀ i k, ({[ [] := pg ]} : tables) !! (i :: k) = None).
  { intros. by apply lookup_singleton_ne. }
  split; [|by intros w; unfold entry, slot, vpath; rewrite Hnone].
  split; [|done|done]. split; simpl; [done| | |].
  - apply bytes_ok_memset; [unfold PGSIZE; lia|by rewrite Hram].
  - split; [by apply lookup_singleton_eq|..].
    + intros k p [-> ->]%Hsing. done.
    + intros k k' p [-> _]%Hsing [-> _]%Hsing. done.
    + intros k i [p Hp]. apply Hsing in Hp as [E _]. by destruct k.
    + intros i k [p Hp]. by rewrite Hnone in Hp.
    + intros k p i [-> ->]%Hsing _ Hi. rewrite memset_same_page by done.
      simpl. by rewrite Hnone.
  - intros k p [-> ->]%Hsing. by rewrite lookup_insert_eq.
Qed.

(** Creating a table leaves the other address spaces alone. *)
Lemma uvmcreate_other s T root H U r s' :
  user_ok s T root H U → uvmcreate s = Ok (r, s') → r ≠ 0 → H !! r = None →
  al_live (vheap s') (<[r := PGSIZE]> H) →
  user_ok s' T root (<[r := PGSIZE]> H) U ∧
  ∀ w, is_vpn w → entry (vram s') T w = entry (vram s) T w.
Proof.
  intros Hu E Hr Hfr Hl. pose proof (uo_vm _ _ _ _ _ Hu) as Hok. unfold uvmcreate in E.
  destruct (vm_alloc_ok s H (vo_live _ _ _ _ Hok)) as (pg & s1 & E1 & Hram & Hc).
  rewrite E1, bind_Ok in E. destruct Hc as [[-> ->]|(Hnz & Hfr' & Hpa & Hl1)].
  { simpl in E. by injection E as <- <-. }
  destruct (Z.eqb_spec pg 0); [done|]. injection E as <- <-.
  destruct (memset_page_ok (vram s) pg (vo_bytes _ _ _ _ Hok)) as (Hm1 & Hm2 & _).
  destruct (user_ok_alloc s T root H U s1 pg _ Hu Hram Hfr' Hl1 Hpa Hm1 Hm2) as (Hu1 & Hnt & _ & _).
  rewrite <- Hram in Hm1, Hm2. destruct (user_ok_data s1 T root _ U pg _ Hu1 Hpa Hnt Hm1 Hm2) as [Hu2 He].
  split; [done|]. intros w Hw. simpl. by rewrite He, Hram.
Qed.

Lemma reach_only s T root H U :
  user_ok s T root H U →
  (∀ w, is_vpn w → U !! w = None → has (entry (vram s) T w) PTE_V = false) → reach s T U.
Proof.
  intros Hu Hno w p Hp. pose proof (upage_range _ _ _ _ Hp) as Hw.
  unfold upage in Hp. destruct (U !! w) as [q|] eqn:Eq.
  - destruct (user_entry _ _ _ _ _ _ _ Hu Eq) as (E & _). rewrite E in Hp.
    destruct (_ && _); congruence.
  - rewrite Hno in Hp by (done || unfold is_vpn; lia). by rewrite andb_false_r in Hp.
Qed.

End theorems.

(** ** A machine with 112 KiB of memory *)

Definition the_heap (o : outcome buddy) : buddy :=
  match o with Ok st => st | _ => mk_buddy 0 [] ∅ end.

Definition demo_kheap : buddy := the_heap (buddy_init KERNBASE (KERNBASE + 0x1c000)).

Lemma demo_kheap_init : buddy_init KERNBASE (KERNBASE + 0x1c000) = Ok demo_kheap.
Proof. vm_compute. reflexivity. Qed.

Lemma demo_kheap_ok : kernel_heap demo_kheap ∅.
Proof.
  assert (Hpre : init_pre KERNBASE (KERNBASE + 0x1c000)) by (by unfold init_pre).
  destruct (buddy_init_ok _ _ Hpre) as (st & max & M & E & E0 & Hinv & Hb & Hm & Hend & HM & Hmx & HE).
  rewrite demo_kheap_init in E0. apply Ok_inj in E0. subst st.
  change (ROUNDUP KERNBASE LEAF_SIZE) with KERNBASE in Hb.
  exists (free_area max M E), ∅, (reserved max M E). rewrite Hb in Hend |- *. split; [exact Hinv|].
  split; [reflexivity|]. split; [reflexivity|]. split.
  - intros i Hi Hgt. assert (E = 0x1c00) by (unfold KERNBASE in *; lia). subst E.
    assert (H13 : max = 13).
    { destruct (decide (max ≤ 12)).
      - assert (2 ^ max ≤ 2 ^ 12) by (apply Z.pow_le_mono_r; lia). lia.
      - destruct (decide (14 ≤ max)); [|lia].
        assert (2 ^ 13 ≤ 2 ^ (max - 1)) by (apply Z.pow_le_mono_r; lia). lia. }
    rewrite Hm, H13 in Hi. unfold PHYSTOP, KERNBASE in *. lia.
  - intros p sz. rewrite lookup_empty. split; [done|]. intros (b & Hb' & _).
    destruct (not_elem_of_empty (C := gset block) b Hb').
Qed.

Lemma demo_live : al_live demo_kheap ∅.
Proof. unfold al_live. cbn [buddy_allocator]. exact demo_kheap_ok. Qed.

Definition demo_vm0 : @vm buddy := mk_vm demo_kheap ∅.

Lemma demo_vm0_live : al_live (vheap demo_vm0) ∅.
Proof. unfold demo_vm0. cbn [vheap]. exact demo_live. Qed.

Definition demo_run (o : outcome (Z * @vm buddy)) : Z * @vm buddy :=
  match o with Ok x => x | _ => (0, demo_vm0) end.

(** An empty address space, one with two pages, and an empty one beside it. *)
Definition demo_root : Z := 0x80001000.
Definition demo_vm1 : @vm buddy := (demo_run (uvmcreate demo_vm0)).2.
Definition demo_vm2 : @vm buddy := (demo_run (uvmalloc demo_vm1 demo_root 0 8192 PTE_W)).2.
Definition demo_root3 : Z := 0x8001a000.
Definition demo_vm3 : @vm buddy := (demo_run (uvmcreate demo_vm2)).2.

Abbreviation demo_T1 := ({[ [] := demo_root ]} : tables).

Lemma demo_run_eq o r s :
  o = Ok (r, s) → o = Ok ((demo_run o).1, (demo_run o).2).
Proof. by intros ->. Qed.

Lemma demo_root1_eq : (demo_run (uvmcreate demo_vm0)).1 = demo_root.
Proof. vm_compute. reflexivity. Qed.

Lemma demo_size2_eq : (demo_run (uvmalloc demo_vm1 demo_root 0 8192 PTE_W)).1 = 8192.
Proof. vm_compute. reflexivity. Qed.

Lemma demo_vm2_def : demo_vm2 = (demo_run (uvmalloc demo_vm1 demo_root 0 8192 PTE_W)).2.
Proof. unfold demo_vm2. reflexivity. Qed.

Lemma demo_root3_eq : (demo_run (uvmcreate demo_vm2)).1 = demo_root3.
Proof. vm_compute. reflexivity. Qed.

Lemma demo_vm1_ok :
  user_ok demo_vm1 demo_T1 demo_root (<[demo_root := PGSIZE]> ∅) ∅ ∧
  ∀ w, entry (vram demo_vm1) demo_T1 w = 0.
Proof.
  destruct (uvmcreate_ok demo_vm0 ∅ demo_vm0_live bytes_ok_empty) as (r & s' & E & Hc).
  assert (E1 : uvmcreate demo_vm0 = Ok (demo_root, demo_vm1)).
  { unfold demo_vm1. rewrite <- demo_root1_eq at 1. exact (demo_run_eq _ _ _ E). }
  rewrite E1 in E. apply Ok_pair_inj in E as [<- <-].
  destruct Hc as [[E _]|(_ & Hu & He)]; [discriminate E|]. split; assumption.
Qed.

Lemma demo_vm2_ok :
  ∃ T H U, user_ok demo_vm2 T demo_root H U ∧
    (∀ w, is_Some (U !! w) ↔ 0 ≤ w < 2) ∧
    (∀ w, is_vpn w → U !! w = None → has (entry (vram demo_vm2) T w) PTE_V = false).
Proof.
  destruct demo_vm1_ok as [Hu He].
  destruct (uvmalloc_ok demo_vm1 _ _ _ _ 0 8192 PTE_W Hu) as (r & s' & E & Hc);
    [lia|done|split; done|intros; split; [done|apply He]|].
  assert (E1 : uvmalloc demo_vm1 demo_root 0 8192 PTE_W = Ok (8192, demo_vm2)).
  { etrans; [exact (demo_run_eq _ _ _ E)|]. rewrite demo_size2_eq, <- demo_vm2_def. reflexivity. }
  rewrite E1 in E. apply Ok_pair_inj in E as [<- <-].
  destruct Hc as [(_ & T & H & U & Hg)|[E _]]; [|discriminate E].
  change (npages 0) with 0 in Hg. change (npages 8192 - 0) with 2 in Hg.
  exists T, H, U. destruct Hg as [Hu2 _ _ Ho Hn Hent _ _]. split; [exact Hu2|].
  assert (Hdom : ∀ w, is_Some (U !! w) ↔ 0 ≤ w < 2).
  { intros w. split.
    - intros [p Hp]. destruct (decide (0 ≤ w < 2)) as [|Hw]; [assumption|].
      rewrite (Ho w Hw), lookup_empty in Hp. discriminate Hp.
    - intros Hw. destruct (Hn w Hw) as (p & Hp & _). exists p. exact Hp. }
  split; [exact Hdom|]. intros w Hw Hnone.
  assert (Hout : ¬ (0 ≤ w < 0 + 2)).
  { intros Hin. destruct (proj2 (Hdom w) Hin) as [p Hp]. congruence. }
  rewrite (Hent w Hw Hout), He. reflexivity.
Qed.


Lemma uvmfree_correct_witness : ∃ s', uvmfree demo_vm2 demo_root 8192 = Ok s'.
Proof.
  destruct demo_vm2_ok as (T & H & U & Hu & Hdom & Hno).
  destruct (uvmfree_correct demo_vm2 T demo_root H U 8192 Hu) as (s' & E & _).
  - split; done.
  - exact Hdom.
  - exact Hno.
  - exists s'. exact E.
Defined.

Lemma copyout_correct_witness :
  ∃ r s', copyout demo_vm2 demo_root 4090 [1; 2; 3; 4; 5; 6; 7; 8] = Ok (r, s').
Proof.
  destruct demo_vm2_ok as (T & H & U & Hu & Hdom & Hno).
  destruct (copyout_correct demo_vm2 T demo_root H U 4090 [1; 2; 3; 4; 5; 6; 7; 8] Hu)
    as (r & s' & E & _).
  - eapply reach_only; [exact Hu|exact Hno].
  - lia.
  - repeat constructor; lia.
  - exists r, s'. exact E.
Defined.

Definition demo_vm4 : @vm buddy :=
  (demo_run (copyout demo_vm2 demo_root 4090 [1; 2; 3; 4; 5; 6; 7; 8])).2.

Lemma demo_ret4_eq :
  (demo_run (copyout demo_vm2 demo_root 4090 [1; 2; 3; 4; 5; 6; 7; 8])).1 = 0.
Proof. vm_compute. reflexivity. Qed.

Lemma copyout_copyin_witness :
  copyin demo_vm4 demo_root 4090 8 = Ok (0, [1; 2; 3; 4; 5; 6; 7; 8]).
Proof.
  destruct demo_vm2_ok as (T & H & U & Hu & Hdom & Hno).
  apply (copyout_copyin demo_vm2 T demo_root H U 4090 [1; 2; 3; 4; 5; 6; 7; 8] demo_vm4 Hu).
  - eapply reach_only; [exact Hu|exact Hno].
  - lia.
  - repeat constructor; lia.
  - destruct (copyout_loop_ok 8 T demo_root H U demo_vm2 4090 [1; 2; 3; 4; 5; 6; 7; 8] Hu)
      as (r & s' & E & _).
    + eapply reach_only; [exact Hu|exact Hno].
    + lia.
    + repeat constructor; lia.
    + reflexivity.
    + pose proof (demo_run_eq _ _ _ E) as E1.
      rewrite <- demo_ret4_eq. exact E1.
Defined.

Lemma copyinstr_correct_witness :
  ∃ r l, copyinstr demo_vm2 demo_root 4095 10 = Ok (r, l).
Proof.
  destruct demo_vm2_ok as (T & H & U & Hu & Hdom & Hno).
  destruct (copyinstr_correct demo_vm2 T demo_root H U 4095 10 Hu) as (r & l & E & _).
  - eapply reach_only; [exact Hu|exact Hno].
  - lia.
  - exists r, l. exact E.
Defined.

Lemma uvmcopy_correct_witness :
  ∃ r s', uvmcopy demo_vm3 demo_root demo_root3 8192 = Ok (r, s').
Proof.
  destruct demo_vm2_ok as (T & H & U & Hu & Hdom & Hno).
  pose proof (uo_vm _ _ _ _ _ Hu) as Hok.
  destruct (uvmcreate_ok demo_vm2 H (vo_live _ _ _ _ Hok) (vo_bytes _ _ _ _ Hok))
    as (r & s' & E & Hc).
  assert (E3 : uvmcreate demo_vm2 = Ok (demo_root3, demo_vm3)).
  { unfold demo_vm3. rewrite <- demo_root3_eq at 1. exact (demo_run_eq _ _ _ E). }
  rewrite E3 in E. apply Ok_pair_inj in E as [<- <-].
  destruct Hc as [[E _]|(Hfr & Hu3 & He3)]; [discriminate E|].
  destruct (uvmcreate_other demo_vm2 T demo_root H U demo_root3 demo_vm3 Hu E3) as [Hup Hep].
  { discriminate. } { exact Hfr. } { apply (vo_live _ _ _ _ (uo_vm _ _ _ _ _ Hu3)). }
  assert (Htp : table_pages ({[ [] := demo_root3 ]} : tables) = {[demo_root3]})
    by (unfold table_pages; apply map_img_singleton_L).
  destruct (uvmcopy_correct demo_vm3 T demo_root U _ demo_root3 ∅ _ 8192 Hup Hu3)
    as (r & s' & E & _).
  - rewrite Htp. intros q [k Hk]%elem_of_table_pages ->%elem_of_singleton.
    rewrite (vo_owned _ _ _ _ Hok _ _ Hk) in Hfr. discriminate Hfr.
  - rewrite Htp. intros w p Hp ->%elem_of_singleton.
    destruct (uo_map _ _ _ _ _ Hu w _ Hp) as (_ & Hl & _). rewrite Hl in Hfr. discriminate Hfr.
  - split; done.
  - intros w Hw. split; [apply Hdom; exact Hw|]. split; [apply lookup_empty|apply He3].
  - exists r, s'. exact E.
Defined.
