(* ===== verification/Bio.v ===== *)
(** * The buffer cache: [kernel/file/bio.c].

    The cache is the array of [NBUF] buffers and the circular list that orders
    them by last use; a [struct buf*] is an index into the array and the list
    head is the index [NBUF]. The disk is the store of block contents behind
    the virtio driver: a completed [virtio_disk_rw] copies one block between
    the buffer and the disk. Every block write is also recorded in [writes],
    in order, so that a crash can be placed between any two of them.

    The model runs one kernel thread. A buffer's sleep lock is its [locked]
    flag: acquiring a lock that is held would wait for a release that cannot
    come, so it is [Hang]. *)

From S2P Require Import Prelude LinkedList Block.

Definition NBUF : Z := 30.
Definition BSIZE : Z := 1024.

Record buf := mk_buf {
  valid : bool;
  bdev : Z;
  blockno : Z;
  locked : bool;
  refcnt : Z;
  bdata : list Z;
}.

Abbreviation disk_t := (gmap Z (list Z)).

Record bio := mk_bio {
  bufs : list buf;
  lru : nodes;
  disk : disk_t;
  writes : list (Z * list Z);
}.

(** The index that stands for [&bcache.head]. *)
Definition bhead : Z := NBUF.

Definition zeroblock : list Z := replicate (Z.to_nat BSIZE) 0.

(** A sector that was never written reads as zeros. *)
Definition disk_read (d : disk_t) (b : Z) : list Z := default zeroblock (d !! b).

Definition with_bufs (st : bio) (bs : list buf) : bio := mk_bio bs (lru st) (disk st) (writes st).
Definition with_lru (st : bio) (m : nodes) : bio := mk_bio (bufs st) m (disk st) (writes st).

Definition set_valid (x : buf) (v : bool) : buf :=
  mk_buf v (bdev x) (blockno x) (locked x) (refcnt x) (bdata x).
Definition set_locked (x : buf) (v : bool) : buf :=
  mk_buf (valid x) (bdev x) (blockno x) v (refcnt x) (bdata x).
Definition set_refcnt (x : buf) (v : Z) : buf :=
  mk_buf (valid x) (bdev x) (blockno x) (locked x) v (bdata x).
Definition set_bdata (x : buf) (l : list Z) : buf :=
  mk_buf (valid x) (bdev x) (blockno x) (locked x) (refcnt x) l.

(** Replace buffer [b]. *)
Definition put_buf (st : bio) (b : Z) (x : buf) : outcome bio :=
  bs ← arr_set (bufs st) b x; Ok (with_bufs st bs).
Definition get_buf (st : bio) (b : Z) : outcome buf := arr_get (bufs st) b.

(** ** The code *)

(** One iteration of the loop of [binit]. *)
Definition binit_link (m : nodes) (b : Z) : outcome nodes :=
  h ← node_at m bhead;
  let m1 := set_next m b (next h) in
  let m2 := set_prev m1 b bhead in
  h2 ← node_at m2 bhead;
  let m3 := set_prev m2 (next h2) b in
  Ok (set_next m3 bhead b).

Fixpoint binit_loop (n : nat) (m : nodes) (b : Z) : outcome nodes :=
  match n with
  | O => Ok m
  | S n' => m' ← binit_link m b; binit_loop n' m' (b + 1)
  end.

(** A buffer of the zero-initialised array. *)
Definition blank : buf := mk_buf false 0 0 false 0 zeroblock.

Definition binit (d : disk_t) : outcome bio :=
  let m := set_next (set_prev ∅ bhead bhead) bhead bhead in
  m' ← binit_loop (Z.to_nat NBUF) m 0;
  Ok (mk_bio (replicate (Z.to_nat NBUF) blank) m' d []).

(** The first loop of [bget], from buffer [b] on. *)
Fixpoint bget_cached (fuel : nat) (st : bio) (b dev bno : Z) : outcome (option Z) :=
  match fuel with
  | O => Hang
  | S fuel' =>
      if b =? bhead then Ok None
      else
        x ← get_buf st b;
        if (bdev x =? dev) && (blockno x =? bno) then Ok (Some b)
        else n ← node_at (lru st) b; bget_cached fuel' st (next n) dev bno
  end.

(** The second loop: the least recently used unreferenced buffer. *)
Fixpoint bget_unused (fuel : nat) (st : bio) (b : Z) : outcome (option Z) :=
  match fuel with
  | O => Hang
  | S fuel' =>
      if b =? bhead then Ok None
      else
        x ← get_buf st b;
        if refcnt x =? 0 then Ok (Some b)
        else n ← node_at (lru st) b; bget_unused fuel' st (prev n)
  end.

Definition list_fuel : nat := Z.to_nat (NBUF + 1).

Definition acquiresleep_buf (st : bio) (b : Z) : outcome bio :=
  x ← get_buf st b;
  if locked x then Hang else put_buf st b (set_locked x true).

Definition bget (st : bio) (dev bno : Z) : outcome (Z * bio) :=
  h ← node_at (lru st) bhead;
  hit ← bget_cached list_fuel st (next h) dev bno;
  match hit with
  | Some b =>
      x ← get_buf st b;
      st1 ← put_buf st b (set_refcnt x (u32 (refcnt x + 1)));
      st2 ← acquiresleep_buf st1 b;
      Ok (b, st2)
  | None =>
      free ← bget_unused list_fuel st (prev h);
      match free with
      | Some b =>
          x ← get_buf st b;
          st1 ← put_buf st b (mk_buf false dev bno (locked x) 1 (bdata x));
          st2 ← acquiresleep_buf st1 b;
          Ok (b, st2)
      | None => Panic "bget: no buffers"
      end
  end.

(** A request of the driver, to its completion: [write = 0] fills the buffer,
    otherwise the buffer goes to the disk. *)
Definition virtio_disk_rw (st : bio) (b write : Z) : outcome bio :=
  x ← get_buf st b;
  if write =? 0 then put_buf st b (set_bdata x (disk_read (disk st) (blockno x)))
  else Ok (mk_bio (bufs st) (lru st) (<[blockno x := bdata x]> (disk st))
                  (writes st ++ [(blockno x, bdata x)])).

Definition bread (st : bio) (dev bno : Z) : outcome (Z * bio) :=
  '(b, st1) ← bget st dev bno;
  x ← get_buf st1 b;
  if valid x then Ok (b, st1)
  else
    st2 ← virtio_disk_rw st1 b 0;
    y ← get_buf st2 b;
    st3 ← put_buf st2 b (set_valid y true);
    Ok (b, st3).

Definition bwrite (st : bio) (b : Z) : outcome bio :=
  x ← get_buf st b;
  if negb (locked x) then Panic "bwrite" else virtio_disk_rw st b 1.

(** The relinking of [brelse]: out of the list, then in behind the head. *)
Definition brelse_unlink (m : nodes) (b : Z) : outcome nodes :=
  n ← node_at m b;
  let m1 := set_prev m (next n) (prev n) in
  n1 ← node_at m1 b;
  Ok (set_next m1 (prev n1) (next n1)).

Definition brelse (st : bio) (b : Z) : outcome bio :=
  x ← get_buf st b;
  if negb (locked x) then Panic "brelse"
  else
    let x1 := set_refcnt (set_locked x false) (u32 (refcnt x - 1)) in
    st1 ← put_buf st b x1;
    if refcnt x1 =? 0 then
      m1 ← brelse_unlink (lru st1) b;
      m2 ← binit_link m1 b;
      Ok (with_lru st1 m2)
    else Ok st1.

Definition bpin (st : bio) (b : Z) : outcome bio :=
  x ← get_buf st b; put_buf st b (set_refcnt x (u32 (refcnt x + 1))).

Definition bunpin (st : bio) (b : Z) : outcome bio :=
  x ← get_buf st b; put_buf st b (set_refcnt x (u32 (refcnt x - 1))).

(** The bytes of a buffer, and the caller's assignments to [b->data]. *)
Definition data_of (st : bio) (b : Z) : outcome (list Z) := x ← get_buf st b; Ok (bdata x).
Definition set_data (st : bio) (b : Z) (l : list Z) : outcome bio :=
  x ← get_buf st b; put_buf st b (set_bdata x l).
