(* ===== verification/BioProof.v ===== *)
(** * The buffer cache is a transparent window on the disk.

    For the device [d] the cache defines a [view] of the disk: the cached
    contents of a block where there are any, the disk's otherwise. [bio_ok st H
    P] is the invariant: [H] are the blocks the running thread holds locked and
    [P] the blocks pinned by the log; every other cached block agrees with the
    disk. *)

From Stdlib Require Import ZifyBool.
From S2P Require Import Prelude LinkedList Block Bio.

Section bio.
Context (d : Z).

(** Buffer [x] is assigned to block [bno] of the device. *)
Definition caches (bno : Z) (x : buf) : Prop := bdev x = d ∧ blockno x = bno.

#[global] Instance caches_dec bno x : Decision (caches bno x).
Proof. unfold caches. apply _. Defined.

(** The contents of block [bno] as the kernel sees them. *)
Definition view (st : bio) (bno : Z) : list Z :=
  match list_find (caches bno) (bufs st) with
  | Some (_, x) => bdata x
  | None => disk_read (disk st) bno
  end.

Definition in_set (b : Z) (X : gset Z) : Z := if decide (b ∈ X) then 1 else 0.

Lemma in_set_ext b (X Y : gset Z) : (b ∈ X ↔ b ∈ Y) → in_set b X = in_set b Y.
Proof. intros E. unfold in_set. by rewrite (decide_ext _ _ _ _ E). Qed.

(** What is known of a buffer that caches a block of the device. *)
Record mine_ok (st : bio) (H P : gset Z) (x : buf) : Prop := {
  mo_valid : valid x = true;
  mo_len : zlen (bdata x) = BSIZE;
  mo_locked : locked x = bool_decide (blockno x ∈ H);
  mo_refcnt : refcnt x = in_set (blockno x) H + in_set (blockno x) P;
  mo_clean : blockno x ∉ H → blockno x ∉ P → bdata x = disk_read (disk st) (blockno x);
}.

Definition order_ok (m : nodes) (order : list Z) : Prop :=
  dll m bhead order ∧ order ≡ₚ (Z.of_nat <$> seq 0 (Z.to_nat NBUF)).

Record bio_ok (st : bio) (H P : gset Z) : Prop := {
  bo_len : zlen (bufs st) = NBUF;
  bo_lru : ∃ order, order_ok (lru st) order;
  bo_uniq : ∀ i j x y bno, bufs st !! i = Some x → bufs st !! j = Some y →
    caches bno x → caches bno y → i = j;
  bo_mine : ∀ i x, bufs st !! i = Some x → bdev x = d → mine_ok st H P x;
  bo_other : ∀ i x, bufs st !! i = Some x → bdev x ≠ d → locked x = false ∧ refcnt x = 0;
  bo_in : ∀ bno, bno ∈ H ∪ P → ∃ i x, bufs st !! i = Some x ∧ caches bno x;
  bo_disk : ∀ k, zlen (disk_read (disk st) k) = BSIZE;
}.

(** ** The view *)

Lemma view_cached st H P i x bno :
  bio_ok st H P → bufs st !! i = Some x → caches bno x → view st bno = bdata x.
Proof.
  intros Hok Hi Hc. unfold view.
  destruct (list_find (caches bno) (bufs st)) as [[j y]|] eqn:E.
  - apply list_find_Some in E as (Hj & Hy & _).
    assert (i = j) as -> by exact (bo_uniq _ _ _ Hok _ _ _ _ _ Hi Hj Hc Hy). congruence.
  - apply list_find_None in E. rewrite Forall_lookup in E. by destruct (E i x Hi).
Qed.

Lemma view_uncached st bno :
  (∀ i x, bufs st !! i = Some x → ¬ caches bno x) → view st bno = disk_read (disk st) bno.
Proof.
  intros Hn. unfold view.
  destruct (list_find (caches bno) (bufs st)) as [[j y]|] eqn:E; [|done].
  apply list_find_Some in E as (Hj & Hy & _). by destruct (Hn j y).
Qed.

(** A block that is neither held nor pinned is the disk's. *)
Lemma view_clean st H P bno :
  bio_ok st H P → bno ∉ H → bno ∉ P → view st bno = disk_read (disk st) bno.
Proof.
  intros Hok HH HP.
  destruct (list_find (caches bno) (bufs st)) as [[i x]|] eqn:E.
  - apply list_find_Some in E as (Hi & [Hd Hb] & _).
    rewrite (view_cached st H P i x) by done. rewrite <- Hb.
    apply (mo_clean _ _ _ _ (bo_mine _ _ _ Hok i x Hi Hd)); by rewrite Hb.
  - unfold view. by rewrite E.
Qed.

Lemma view_len st H P bno : bio_ok st H P → zlen (view st bno) = BSIZE.
Proof.
  intros Hok. unfold view.
  destruct (list_find (caches bno) (bufs st)) as [[i x]|] eqn:E.
  - apply list_find_Some in E as (Hi & [Hd Hb] & _).
    apply (mo_len _ _ _ _ (bo_mine _ _ _ Hok i x Hi Hd)).
  - apply (bo_disk _ _ _ Hok).
Qed.

(** ** The array *)

Lemma order_elem m order b : order_ok m order → b ∈ order ↔ 0 ≤ b < NBUF.
Proof.
  intros [_ Hp]. rewrite Hp, list_elem_of_fmap. split.
  - intros (i & -> & Hi). apply elem_of_seq in Hi. unfold NBUF in *. lia.
  - intros Hb. exists (Z.to_nat b). split; [lia|]. apply elem_of_seq. unfold NBUF in *. lia.
Qed.

Lemma get_buf_lookup st b x : 0 ≤ b → bufs st !! Z.to_nat b = Some x → get_buf st b = Ok x.
Proof. intros. by apply arr_get_lookup. Qed.

Lemma get_buf_in st b :
  zlen (bufs st) = NBUF → 0 ≤ b < NBUF →
  ∃ x, bufs st !! Z.to_nat b = Some x ∧ get_buf st b = Ok x.
Proof. intros Hl Hb. apply arr_get_in_range. lia. Qed.

Lemma put_buf_in st b x :
  zlen (bufs st) = NBUF → 0 ≤ b < NBUF →
  put_buf st b x = Ok (with_bufs st (<[Z.to_nat b := x]> (bufs st))).
Proof. intros Hl Hb. unfold put_buf. rewrite arr_set_in_range by lia. done. Qed.

Lemma insert_get st b x :
  zlen (bufs st) = NBUF → 0 ≤ b < NBUF →
  get_buf (with_bufs st (<[Z.to_nat b := x]> (bufs st))) b = Ok x.
Proof.
  intros Hl Hb. apply get_buf_lookup; [lia|]. simpl.
  apply list_lookup_insert_eq. unfold zlen in Hl. lia.
Qed.

Lemma insert_put st b x y :
  zlen (bufs st) = NBUF → 0 ≤ b < NBUF →
  put_buf (with_bufs st (<[Z.to_nat b := x]> (bufs st))) b y =
    Ok (with_bufs st (<[Z.to_nat b := y]> (bufs st))).
Proof.
  intros Hl Hb. rewrite put_buf_in; [|by simpl; rewrite zlen_insert|done].
  simpl. by rewrite list_insert_insert_eq.
Qed.

(** ** The two loops of [bget] *)

(** [list_find]-style outcome of the first loop: a buffer of [xs] that caches
    the block, or none of them does. *)
Definition hit_ok (st : bio) (xs : list Z) (bno : Z) (r : option Z) : Prop :=
  match r with
  | Some b => b ∈ xs ∧ ∃ x, get_buf st b = Ok x ∧ caches bno x
  | None => ∀ b x, b ∈ xs → get_buf st b = Ok x → ¬ caches bno x
  end.

Lemma bget_cached_ok st bno xs fuel a b :
  dseg (lru st) a xs bhead → bhead ∉ xs → nxt (lru st) a b → (length xs < fuel)%nat →
  (∀ c, c ∈ xs → ∃ x, get_buf st c = Ok x) →
  ∃ r, bget_cached fuel st b d bno = Ok r ∧ hit_ok st xs bno r.
Proof.
  revert fuel a b. induction xs as [|c xs IH]; intros [|fuel] a b Hs Hh Hb Hf Hg;
    simpl in Hf; try lia; simpl.
  - destruct Hs as [Hs _]. unfold nxt in *. rewrite Hs in Hb. injection Hb as <-.
    rewrite Z.eqb_refl. exists None. split; [done|]. set_solver.
  - destruct Hs as (H1 & _ & H3). unfold nxt in H1, Hb. rewrite H1 in Hb. injection Hb as <-.
    destruct (Z.eqb_spec c bhead) as [->|]; [set_solver|].
    destruct (Hg c) as [x Hx]; [set_solver|]. rewrite Hx. simpl.
    destruct ((bdev x =? d) && (blockno x =? bno)) eqn:E.
    + exists (Some c). split; [done|]. split; [set_solver|]. exists x. split; [done|]. unfold caches. lia.
    + destruct (dseg_first_links _ _ _ _ H3) as [Hn _].
      destruct (nxt_node_at _ _ _ Hn) as (nd & -> & Hnd). simpl.
      destruct (IH fuel c (next nd)) as (r & -> & Hr);
        [done|set_solver|by rewrite Hnd|lia|set_solver|].
      exists r. split; [done|]. destruct r as [b'|]; simpl in *.
      * destruct Hr as [? ?]. split; [set_solver|done].
      * intros b' x' [->|Hb']%elem_of_cons Hx'; [|by apply (Hr b')].
        rewrite Hx in Hx'. injection Hx' as <-. unfold caches. lia.
Qed.

(** The second loop walks the order backwards: it finds the last buffer that
    nobody references. *)
Definition unused_ok (st : bio) (xs : list Z) (r : option Z) : Prop :=
  match r with
  | Some b => ∃ xs1 xs2 x, xs = xs1 ++ b :: xs2 ∧ get_buf st b = Ok x ∧ refcnt x = 0 ∧
      ∀ c y, c ∈ xs2 → get_buf st c = Ok y → refcnt y ≠ 0
  | None => ∀ c y, c ∈ xs → get_buf st c = Ok y → refcnt y ≠ 0
  end.

Lemma bget_unused_ok st xs fuel b e :
  dseg (lru st) bhead xs e → bhead ∉ xs → prv (lru st) e b → (length xs < fuel)%nat →
  (∀ c, c ∈ xs → ∃ x, get_buf st c = Ok x) →
  ∃ r, bget_unused fuel st b = Ok r ∧ unused_ok st xs r.
Proof.
  revert fuel b e. induction xs as [|c xs IH] using rev_ind; intros [|fuel] b e Hs Hh Hb Hf Hg;
    try lia; simpl.
  - destruct Hs as [_ Hs]. unfold prv in *. rewrite Hs in Hb. injection Hb as <-.
    rewrite Z.eqb_refl. exists None. split; [done|]. set_solver.
  - rewrite length_app in Hf. simpl in Hf.
    apply dseg_app in Hs as [Hs1 [_ Hs2]]. unfold prv in Hs2, Hb. rewrite Hs2 in Hb.
    injection Hb as <-.
    destruct (Z.eqb_spec c bhead) as [->|]; [set_solver|].
    destruct (Hg c) as [x Hx]; [set_solver|]. rewrite Hx. simpl.
    destruct (Z.eqb_spec (refcnt x) 0) as [E|E].
    + exists (Some c). split; [done|]. exists xs, [], x. set_solver.
    + destruct (dseg_last_links _ _ _ _ Hs1) as [_ Hp]. pose proof Hp as Hp'. unfold prv in Hp.
      unfold node_at. destruct (lru st !! c) as [nd|]; [|done].
      injection Hp as Hp. simpl.
      destruct (IH fuel (prev nd) c) as (r & -> & Hr);
        [done|set_solver|by rewrite Hp|lia|set_solver|].
      exists r. split; [done|]. destruct r as [b'|]; simpl in *.
      * destruct Hr as (xs1 & xs2 & y & -> & Hy & H0 & Hr).
        exists xs1, (xs2 ++ [c]), y. rewrite <- app_assoc. split_and!; try done.
        intros c' y' [?|Hc%list_elem_of_singleton]%elem_of_app Hy'; [by eapply Hr|congruence].
      * intros c' y' [?|Hc%list_elem_of_singleton]%elem_of_app Hy'; [by eapply Hr|congruence].
Qed.

(** ** Replacing one buffer *)

Lemma lookup_insert_cases {A} (l : list A) i j (v y : A) :
  <[i := v]> l !! j = Some y → (j = i ∧ y = v) ∨ (j ≠ i ∧ l !! j = Some y).
Proof.
  intros Hj. destruct (decide (j = i)) as [->|Hne].
  - left. split; [done|]. apply list_lookup_insert_Some in Hj. naive_solver.
  - right. split; [done|]. by rewrite list_lookup_insert_ne in Hj.
Qed.

(** Every operation of the cache replaces one buffer, which from then on
    caches [bno], and changes the state of no other block. *)
Section set.
Context (st : bio) (H P H' P' : gset Z) (i : nat) (x x' : buf) (bno : Z).
Context (lru' : nodes) (disk' : disk_t) (ws' : list (Z * list Z)).
Context (Hok : bio_ok st H P).
Context (Hi : bufs st !! i = Some x).
Context (Hord : ∃ order, order_ok lru' order).
Context (Hc' : caches bno x').
Context (Huniq : ∀ j y, bufs st !! j = Some y → caches bno y → j = i).
Context (Hold : ∀ o, caches o x → o ≠ bno → o ∉ H ∪ P).
Context (HH : ∀ k, k ≠ bno → k ∈ H' ↔ k ∈ H).
Context (HP : ∀ k, k ≠ bno → k ∈ P' ↔ k ∈ P).
Context (Hdisk : ∀ k, k ≠ bno → disk_read disk' k = disk_read (disk st) k).
Context (Hdlen : zlen (disk_read disk' bno) = BSIZE).

Let st' := mk_bio (<[i := x']> (bufs st)) lru' disk' ws'.

Context (Hx' : mine_ok st' H' P' x').

Lemma set_lookup : bufs st' !! i = Some x'.
Proof. simpl. apply list_lookup_insert_eq. by eapply lookup_lt_Some. Qed.

Lemma set_mine j y : j ≠ i → bufs st !! j = Some y → bdev y = d → mine_ok st' H' P' y.
Proof using All.
  intros Hj Hy Hd. assert (Hne : blockno y ≠ bno).
  { intros E. apply Hj. by apply (Huniq j y). }
  destruct (bo_mine _ _ _ Hok j y Hy Hd) as [H1 H2 H3 H4 H5].
  constructor; [done|done| | |].
  - rewrite H3. apply bool_decide_ext. by rewrite HH.
  - rewrite H4. f_equal; symmetry; apply in_set_ext; auto.
  - simpl. rewrite HH, HP, Hdisk by done. done.
Qed.

Lemma bio_ok_set : bio_ok st' H' P'.
Proof using All.
  constructor.
  - simpl. rewrite zlen_insert. apply (bo_len _ _ _ Hok).
  - done.
  - intros j1 j2 y1 y2 k H1 H2 C1 C2.
    apply lookup_insert_cases in H1 as [[-> ->]|[Hj1 H1]];
      apply lookup_insert_cases in H2 as [[-> ->]|[Hj2 H2]]; try done.
    + destruct Hj2. apply (Huniq j2 y2); [done|]. unfold caches in *. naive_solver.
    + destruct Hj1. apply (Huniq j1 y1); [done|]. unfold caches in *. naive_solver.
    + by eapply (bo_uniq _ _ _ Hok).
  - intros j y Hj Hd. apply lookup_insert_cases in Hj as [[-> ->]|[Hj Hy]]; [done|].
    by apply (set_mine j).
  - intros j y Hj Hd. apply lookup_insert_cases in Hj as [[-> ->]|[Hj Hy]].
    + by destruct Hc'.
    + by apply (bo_other _ _ _ Hok j y).
  - intros k Hk. destruct (decide (k = bno)) as [->|Hne].
    + exists i, x'. split; [apply set_lookup|done].
    + destruct (bo_in _ _ _ Hok k) as (j & y & Hy & Hcy).
      { apply elem_of_union. apply elem_of_union in Hk.
        destruct Hk; [left; by apply HH|right; by apply HP]. }
      exists j, y. split; [|done]. simpl. rewrite list_lookup_insert_ne; [done|].
      intros <-. rewrite Hi in Hy. injection Hy as ->. apply (Hold k Hcy Hne).
      apply elem_of_union. apply elem_of_union in Hk.
      destruct Hk; [left; by apply HH|right; by apply HP].
  - intros k. simpl. destruct (decide (k = bno)) as [->|Hne]; [done|].
    rewrite Hdisk by done. apply (bo_disk _ _ _ Hok).
Qed.

Lemma view_set_eq : view st' bno = bdata x'.
Proof using All. apply (view_cached st' H' P' i x'); [apply bio_ok_set|apply set_lookup|done]. Qed.

Lemma view_set_ne k : k ≠ bno → view st' k = view st k.
Proof using All.
  intros Hne.
  destruct (list_find (caches k) (bufs st)) as [[j y]|] eqn:E.
  - apply list_find_Some in E as (Hj & Hy & _). destruct (decide (j = i)) as [->|Hji].
    + rewrite Hi in Hj. injection Hj as <-.
      pose proof (Hold k Hy Hne) as [Hk1 Hk2]%not_elem_of_union.
      rewrite (view_clean st H P k) by done.
      rewrite (view_clean st' H' P' k); [by apply Hdisk|apply bio_ok_set|by rewrite HH|by rewrite HP].
    + rewrite (view_cached st H P j y) by done.
      apply (view_cached st' H' P' j y); [apply bio_ok_set| |done].
      simpl. by rewrite list_lookup_insert_ne.
  - apply list_find_None in E. rewrite Forall_lookup in E.
    rewrite (view_uncached st) by (intros; by eapply E).
    rewrite (view_uncached st'); [by apply Hdisk|].
    intros j y Hj. apply lookup_insert_cases in Hj as [[-> ->]|[Hj Hy]]; [|by eapply E].
    unfold caches in *. naive_solver.
Qed.
End set.

(** ** Reading a block *)

(** [b] points to the buffer of block [bno]. *)
Definition points (st : bio) (b bno : Z) : Prop :=
  0 ≤ b < NBUF ∧ ∃ x, bufs st !! Z.to_nat b = Some x ∧ caches bno x.

(** Nothing but the state of block [bno] changed. *)
Record same_but (st st' : bio) (H : gset Z) (bno : Z) : Prop := {
  sb_view : ∀ k, k ≠ bno → view st' k = view st k;
  sb_points : ∀ b k, k ∈ H → k ≠ bno → points st b k → points st' b k;
}.

Lemma points_set st b bno i x x' bno' lru' disk' ws' :
  bufs st !! i = Some x → ¬ caches bno x → points st b bno → caches bno' x' →
  points (mk_bio (<[i := x']> (bufs st)) lru' disk' ws') b bno.
Proof.
  intros Hi Hn (Hb & y & Hy & Hc) Hc'. split; [done|]. exists y. split; [|done]. simpl.
  rewrite list_lookup_insert_ne; [done|]. intros ->. rewrite Hi in Hy. by injection Hy as <-.
Qed.

Lemma lru_head st H P :
  bio_ok st H P → ∃ order h, order_ok (lru st) order ∧ node_at (lru st) bhead = Ok h ∧
    nxt (lru st) bhead (next h) ∧ prv (lru st) bhead (prev h).
Proof.
  intros Hok. destruct (bo_lru _ _ _ Hok) as [order Ho]. pose proof Ho as [[Hs _] _].
  destruct (dseg_first_links _ _ _ _ Hs) as [Hn _].
  destruct (dseg_last_links _ _ _ _ Hs) as [_ Hp].
  exists order. pose proof (nxt_prv_node_at _ _ _ _ Hn Hp) as E.
  exists (mk_node (default bhead (hd_error order)) (default bhead (last order))).
  destruct order; simpl in *; done.
Qed.

Lemma order_length m order : order_ok m order → length order = Z.to_nat NBUF.
Proof. intros [_ E]. rewrite E, length_fmap, length_seq. done. Qed.

Lemma order_head m order : order_ok m order → bhead ∉ order.
Proof. intros [[_ Hd] _]. by apply NoDup_cons in Hd as [? _]. Qed.

Lemma order_bufs st H P order c :
  bio_ok st H P → order_ok (lru st) order → c ∈ order → ∃ x, get_buf st c = Ok x.
Proof.
  intros Hok Ho Hc. apply (order_elem _ _ _ Ho) in Hc.
  destruct (get_buf_in st c (bo_len _ _ _ Hok) Hc) as (x & _ & Hx). eauto.
Qed.

(** With fewer than [NBUF] blocks in use, some buffer is unreferenced. *)
Lemma some_unused st H P :
  bio_ok st H P → Z.of_nat (size (H ∪ P)) < NBUF →
  ¬ (∀ i x, bufs st !! i = Some x → refcnt x ≠ 0).
Proof.
  intros Hok Hsz Hall.
  assert (Hm : ∀ i x, bufs st !! i = Some x → bdev x = d ∧ blockno x ∈ H ∪ P).
  { intros i x Hi. destruct (decide (bdev x = d)) as [E|E].
    - split; [done|]. pose proof (mo_refcnt _ _ _ _ (bo_mine _ _ _ Hok i x Hi E)) as Hr.
      apply elem_of_union. pose proof (Hall i x Hi). unfold in_set in Hr.
      case_decide; [by left|]. case_decide; [by right|]. lia.
    - destruct (bo_other _ _ _ Hok i x Hi E). by destruct (Hall i x Hi). }
  assert (Hnd : NoDup (blockno <$> bufs st)).
  { apply NoDup_alt. intros i j k Hi Hj.
    apply list_lookup_fmap_Some in Hi as (x & Ex & Hi).
    apply list_lookup_fmap_Some in Hj as (y & Ey & Hj).
    destruct (Hm i x Hi), (Hm j y Hj).
    eapply (bo_uniq _ _ _ Hok i j x y k); unfold caches; auto. }
  assert (Hsub : list_to_set (blockno <$> bufs st) ⊆ H ∪ P).
  { intros k Hk. apply elem_of_list_to_set, list_elem_of_fmap in Hk as (x & -> & Hx).
    apply list_elem_of_lookup in Hx as [i Hi]. by apply (Hm i x). }
  apply subseteq_size in Hsub. rewrite size_list_to_set, length_fmap in Hsub by done.
  pose proof (bo_len _ _ _ Hok) as Hl. unfold zlen in Hl. lia.
Qed.

(** The outcome of [bread] on a buffer [b] of the array: it now caches [bno],
    locked, and nothing else changed. *)
Definition reads (st st' : bio) (H P : gset Z) (b bno : Z) : Prop :=
  bio_ok st' ({[bno]} ∪ H) P ∧ points st' b bno ∧ view st' bno = view st bno ∧
  same_but st st' H bno ∧ disk st' = disk st ∧ writes st' = writes st ∧ lru st' = lru st.

Lemma reads_set st H P b x x' bno :
  bio_ok st H P → bno ∉ H → 0 ≤ b < NBUF → bufs st !! Z.to_nat b = Some x →
  (∀ j y, bufs st !! j = Some y → caches bno y → j = Z.to_nat b) →
  (∀ o, caches o x → o ≠ bno → o ∉ H ∪ P) →
  x' = mk_buf true d bno true (1 + in_set bno P) (view st bno) →
  reads st (with_bufs st (<[Z.to_nat b := x']> (bufs st))) H P b bno.
Proof.
  intros Hok Hn Hb Hx Hu Hold ->. unfold with_bufs, reads. cbn [disk writes lru].
  assert (Hlt : (Z.to_nat b < length (bufs st))%nat) by by eapply lookup_lt_Some.
  assert (Hx' : mine_ok (mk_bio (<[Z.to_nat b := mk_buf true d bno true (1 + in_set bno P)
      (view st bno)]> (bufs st)) (lru st) (disk st) (writes st)) ({[bno]} ∪ H) P
      (mk_buf true d bno true (1 + in_set bno P) (view st bno))).
  { constructor; simpl; [done|by eapply view_len|..].
    - symmetry. apply bool_decide_eq_true. set_solver.
    - unfold in_set at 2. rewrite decide_True by set_solver. done.
    - set_solver. }
  assert (HH : ∀ k, k ≠ bno → k ∈ {[bno]} ∪ H ↔ k ∈ H) by set_solver.
  split_and!; try done.
  - eapply bio_ok_set; try done; [apply (bo_lru _ _ _ Hok)|apply (bo_disk _ _ _ Hok)].
  - split; [done|]. eexists. split; [by apply list_lookup_insert_eq|done].
  - erewrite view_set_eq; try done; [apply (bo_lru _ _ _ Hok)|apply (bo_disk _ _ _ Hok)].
  - constructor.
    + intros k Hk. eapply view_set_ne; try done; [apply (bo_lru _ _ _ Hok)|apply (bo_disk _ _ _ Hok)].
    + intros c k Hk Hne Hp. eapply points_set; try done. intros Hc.
      apply (Hold k Hc Hne). set_solver.
Qed.

Lemma acquiresleep_insert st b x :
  zlen (bufs st) = NBUF → 0 ≤ b < NBUF → locked x = false →
  acquiresleep_buf (with_bufs st (<[Z.to_nat b := x]> (bufs st))) b =
    Ok (with_bufs st (<[Z.to_nat b := set_locked x true]> (bufs st))).
Proof.
  intros Hl Hb Hx. unfold acquiresleep_buf. rewrite insert_get by done. simpl.
  rewrite Hx. by apply insert_put.
Qed.

Lemma bread_hit st H P b x bno h :
  bio_ok st H P → bno ∉ H → node_at (lru st) bhead = Ok h →
  bget_cached list_fuel st (next h) d bno = Ok (Some b) →
  0 ≤ b < NBUF → bufs st !! Z.to_nat b = Some x → caches bno x →
  ∃ st', bread st d bno = Ok (b, st') ∧ reads st st' H P b bno.
Proof.
  intros Hok Hn Hh Hr Hb Hx Hc. pose proof (bo_len _ _ _ Hok) as Hl.
  pose proof Hc as [Hd Hbn].
  destruct (bo_mine _ _ _ Hok _ _ Hx Hd) as [H1 H2 H3 H4 _].
  rewrite Hbn in *. rewrite bool_decide_eq_false_2 in H3 by done.
  unfold in_set at 1 in H4. rewrite decide_False in H4 by done.
  unfold bread, bget. rewrite Hh. cbn [mbind outcome_bind]. rewrite Hr. cbn [mbind outcome_bind].
  rewrite (get_buf_lookup st b x) by (done || lia). cbn [mbind outcome_bind].
  rewrite put_buf_in by done. cbn [mbind outcome_bind].
  rewrite acquiresleep_insert by done. cbn [mbind outcome_bind].
  rewrite insert_get by done. cbn. rewrite H1.
  eexists. split; [done|]. apply (reads_set st H P b x); try done.
  - intros j y Hj Hy. eapply (bo_uniq _ _ _ Hok j _ y x); done.
  - intros o [_ Ho] Hne. congruence.
  - rewrite (view_cached st H P _ x bno) by done. unfold set_locked, set_refcnt.
    cbn [valid bdev blockno refcnt bdata]. rewrite H1, H4, Hd, Hbn. f_equal.
    rewrite u32_small; unfold in_set; case_decide; lia.
Qed.

Lemma bread_miss st H P b x bno h :
  bio_ok st H P → bno ∉ H → node_at (lru st) bhead = Ok h →
  bget_cached list_fuel st (next h) d bno = Ok None →
  bget_unused list_fuel st (prev h) = Ok (Some b) →
  (∀ j y, bufs st !! j = Some y → ¬ caches bno y) →
  0 ≤ b < NBUF → bufs st !! Z.to_nat b = Some x → refcnt x = 0 →
  ∃ st', bread st d bno = Ok (b, st') ∧ reads st st' H P b bno.
Proof.
  intros Hok Hn Hh Hr Hu Hnone Hb Hx H0. pose proof (bo_len _ _ _ Hok) as Hl.
  assert (Hfree : locked x = false ∧ ∀ o, caches o x → o ∉ H ∪ P).
  { destruct (decide (bdev x = d)) as [Hd|Hd].
    - destruct (bo_mine _ _ _ Hok _ _ Hx Hd) as [_ _ H3 H4 _]. unfold in_set in H4.
      case_decide; [case_decide; lia|]. case_decide; [lia|].
      rewrite bool_decide_eq_false_2 in H3 by done. split; [done|].
      intros o [_ <-]. by apply not_elem_of_union.
    - split; [by apply (bo_other _ _ _ Hok (Z.to_nat b) x)|]. intros o [? _]. done. }
  destruct Hfree as [Hlk Hold].
  assert (HnP : bno ∉ P).
  { intros Hin. destruct (bo_in _ _ _ Hok bno) as (j & y & Hj & Hy);
      [apply elem_of_union; by right|].
    by apply (Hnone j y). }
  unfold bread, bget. rewrite Hh. cbn [mbind outcome_bind]. rewrite Hr. cbn [mbind outcome_bind].
  rewrite Hu. cbn [mbind outcome_bind].
  rewrite (get_buf_lookup st b x) by (done || lia). cbn [mbind outcome_bind].
  rewrite put_buf_in by done. cbn [mbind outcome_bind].
  rewrite acquiresleep_insert by done. cbn [mbind outcome_bind].
  rewrite insert_get by done. cbn [mbind outcome_bind valid set_locked].
  unfold virtio_disk_rw. rewrite insert_get by done. cbn [mbind outcome_bind].
  change (0 =? 0) with true. cbv iota. rewrite insert_put by done. cbn [mbind outcome_bind].
  rewrite insert_get by done. cbn [mbind outcome_bind].
  rewrite insert_put by done. cbn [mbind outcome_bind].
  eexists. split; [done|]. apply (reads_set st H P b x); try done.
  - intros j y Hj Hy. by destruct (Hnone j y).
  - intros o Ho _. by apply Hold.
  - rewrite (view_uncached st bno) by done. unfold in_set. rewrite decide_False by done.
    reflexivity.
Qed.

(** The buffer is recycled in least-recently-used order. *)
Definition lru_victim (st : bio) (b : Z) : Prop :=
  ∃ order, order_ok (lru st) order ∧ unused_ok st order (Some b).

Lemma bread_ok st H P bno :
  bio_ok st H P → bno ∉ H → bno ∈ P ∨ Z.of_nat (size (H ∪ P)) < NBUF →
  ∃ b st', bread st d bno = Ok (b, st') ∧ reads st st' H P b bno ∧
    (points st b bno ∨ lru_victim st b).
Proof.
  intros Hok Hn Hsz. destruct (lru_head st H P Hok) as (order & h & Ho & Hh & Hnx & Hpv).
  pose proof (order_length _ _ Ho) as Hlen. pose proof (order_head _ _ Ho) as Hhd.
  pose proof Ho as [[Hs _] _].
  destruct (bget_cached_ok st bno order list_fuel bhead (next h)) as (r & Hr & Hrok); try done.
  { rewrite Hlen. unfold list_fuel, NBUF. lia. }
  { intros. by eapply order_bufs. }
  destruct r as [b|]; simpl in Hrok.
  - destruct Hrok as (Hin & x & Hx & Hc). apply (order_elem _ _ _ Ho) in Hin.
    apply arr_get_Ok in Hx as [_ Hx].
    destruct (bread_hit st H P b x bno h) as (st' & Hst & Hrd); try done.
    exists b, st'. split_and!; try done. left. split; [done|]. eauto.
  - destruct (bget_unused_ok st order list_fuel (prev h) bhead) as (r & Hu & Huok); try done.
    { rewrite Hlen. unfold list_fuel, NBUF. lia. }
    { intros. by eapply order_bufs. }
    assert (Hz : ∀ j y, bufs st !! j = Some y → Z.of_nat j ∈ order ∧ get_buf st (Z.of_nat j) = Ok y).
    { intros j y Hj. pose proof (lookup_lt_Some _ _ _ Hj). split.
      - apply (order_elem _ _ _ Ho). pose proof (bo_len _ _ _ Hok) as Hl. unfold zlen in Hl. lia.
      - apply get_buf_lookup; [lia|]. by rewrite Nat2Z.id. }
    destruct r as [b|].
    + pose proof Huok as (xs1 & xs2 & x & E & Hx & H0 & _).
      assert (Hb : b ∈ order) by (rewrite E; apply elem_of_app; right; left).
      apply (order_elem _ _ _ Ho) in Hb. apply arr_get_Ok in Hx as [_ Hx].
      destruct (bread_miss st H P b x bno h) as (st' & Hst & Hrd); try done.
      { intros j y Hj Hy. destruct (Hz j y Hj). by eapply Hrok. }
      exists b, st'. split_and!; try done. right. by exists order.
    + exfalso. destruct Hsz as [HbP|Hsz].
      { destruct (bo_in _ _ _ Hok bno) as (j & y & Hj & Hy); [apply elem_of_union; by right|].
        destruct (Hz j y Hj). by eapply Hrok. }
      apply (some_unused st H P Hok Hsz). intros j y Hj.
      destruct (Hz j y Hj). by eapply Huok.
Qed.

(** ** The operations on a held buffer *)

(** An operation on the buffer of [bno] leaves contents [l] in it. *)
Definition touches (st st' : bio) (H H' P' : gset Z) (b bno : Z) (l : list Z) : Prop :=
  bio_ok st' H' P' ∧ points st' b bno ∧ view st' bno = l ∧ same_but st st' H bno.

Lemma points_get st b bno :
  points st b bno → ∃ x, bufs st !! Z.to_nat b = Some x ∧ get_buf st b = Ok x ∧ caches bno x.
Proof.
  intros (Hb & x & Hx & Hc). exists x. split_and!; try done. apply get_buf_lookup; [lia|done].
Qed.

Lemma touches_set st H P H' P' b x x' bno lru' disk' ws' :
  bio_ok st H P → 0 ≤ b < NBUF → bufs st !! Z.to_nat b = Some x → caches bno x →
  (∃ order, order_ok lru' order) → caches bno x' →
  (∀ k, k ≠ bno → k ∈ H' ↔ k ∈ H) → (∀ k, k ≠ bno → k ∈ P' ↔ k ∈ P) →
  (∀ k, k ≠ bno → disk_read disk' k = disk_read (disk st) k) →
  zlen (disk_read disk' bno) = BSIZE →
  mine_ok (mk_bio (<[Z.to_nat b := x']> (bufs st)) lru' disk' ws') H' P' x' →
  touches st (mk_bio (<[Z.to_nat b := x']> (bufs st)) lru' disk' ws') H H' P' b bno (bdata x').
Proof.
  intros Hok Hb Hx Hc Hord Hc' HH HP Hd Hdl Hm.
  assert (Hu : ∀ j y, bufs st !! j = Some y → caches bno y → j = Z.to_nat b).
  { intros j y Hj Hy. eapply (bo_uniq _ _ _ Hok j _ y x); done. }
  assert (Hold : ∀ o, caches o x → o ≠ bno → o ∉ H ∪ P).
  { intros o [_ Ho] Hne. destruct Hc. congruence. }
  split_and!.
  - by eapply bio_ok_set.
  - split; [done|]. exists x'. split; [|done]. apply list_lookup_insert_eq. by eapply lookup_lt_Some.
  - by eapply view_set_eq.
  - constructor.
    + intros k Hk. by eapply view_set_ne.
    + intros c k _ Hne Hp. eapply points_set; try done. intros [_ E]. destruct Hc. congruence.
Qed.

Lemma held_mine st H P b bno x :
  bio_ok st H P → bno ∈ H → bufs st !! Z.to_nat b = Some x → caches bno x →
  valid x = true ∧ zlen (bdata x) = BSIZE ∧ locked x = true ∧ refcnt x = 1 + in_set bno P ∧
  view st bno = bdata x.
Proof.
  intros Hok Hin Hx [Hd Hb]. destruct (bo_mine _ _ _ Hok _ _ Hx Hd) as [H1 H2 H3 H4 _].
  rewrite Hb in *. rewrite bool_decide_eq_true_2 in H3 by done.
  unfold in_set at 1 in H4. rewrite decide_True in H4 by done.
  split_and!; try done. by eapply view_cached.
Qed.

Lemma in_set_bounds b X : 0 ≤ in_set b X ≤ 1.
Proof. unfold in_set. case_decide; lia. Qed.

Lemma data_of_ok st H P b bno :
  bio_ok st H P → points st b bno → data_of st b = Ok (view st bno).
Proof.
  intros Hok Hp. destruct (points_get _ _ _ Hp) as (x & Hx & Hg & Hc).
  unfold data_of. rewrite Hg. simpl. f_equal. symmetry. by eapply view_cached.
Qed.

Lemma set_data_ok st H P b bno l :
  bio_ok st H P → bno ∈ H → points st b bno → zlen l = BSIZE →
  ∃ st', set_data st b l = Ok st' ∧ touches st st' H H P b bno l ∧
    disk st' = disk st ∧ writes st' = writes st.
Proof.
  intros Hok Hin Hp Hl. pose proof Hp as [Hb _].
  destruct (points_get _ _ _ Hp) as (x & Hx & Hg & Hc).
  destruct (held_mine _ _ _ _ _ _ Hok Hin Hx Hc) as (H1 & H2 & H3 & H4 & _).
  unfold set_data. rewrite Hg. simpl. rewrite put_buf_in by (done || apply (bo_len _ _ _ Hok)).
  eexists. split; [done|]. split; [|done].
  apply (touches_set st H P H P b x (set_bdata x l) bno); try done;
    [apply (bo_lru _ _ _ Hok)|apply (bo_disk _ _ _ Hok)|].
  destruct Hc as [Hd Hbn]. constructor; simpl; try done.
  - rewrite Hbn. by rewrite bool_decide_eq_true_2.
  - rewrite Hbn, H4. unfold in_set at 2. by rewrite decide_True.
  - by rewrite Hbn.
Qed.

Lemma bwrite_ok st H P b bno :
  bio_ok st H P → bno ∈ H → points st b bno →
  ∃ st', bwrite st b = Ok st' ∧ touches st st' H H P b bno (view st bno) ∧
    disk st' = <[bno := view st bno]> (disk st) ∧
    writes st' = writes st ++ [(bno, view st bno)].
Proof.
  intros Hok Hin Hp. pose proof Hp as [Hb _].
  destruct (points_get _ _ _ Hp) as (x & Hx & Hg & Hc).
  destruct (held_mine _ _ _ _ _ _ Hok Hin Hx Hc) as (H1 & H2 & H3 & H4 & Hv).
  unfold bwrite. rewrite Hg. cbn [mbind outcome_bind]. rewrite H3. cbn [negb].
  unfold virtio_disk_rw. rewrite Hg. cbn [mbind outcome_bind].
  change (1 =? 0) with false. cbv iota.
  pose proof Hc as [Hd Hbn]. rewrite Hbn, <- Hv.
  eexists. split; [done|]. split; [|done].
  rewrite <- (list_insert_id (bufs st) (Z.to_nat b) x Hx) at 1. rewrite Hv.
  apply (touches_set st H P H P b x x bno); try done; [apply (bo_lru _ _ _ Hok)|..].
  - intros k Hk. unfold disk_read. by rewrite lookup_insert_ne.
  - unfold disk_read. by rewrite lookup_insert_eq.
  - constructor; simpl; rewrite ?Hbn; try done.
    + by rewrite bool_decide_eq_true_2.
    + rewrite H4. unfold in_set at 2. by rewrite decide_True.
Qed.

Lemma bpin_ok st H P b bno :
  bio_ok st H P → bno ∈ H → bno ∉ P → points st b bno →
  ∃ st', bpin st b = Ok st' ∧ touches st st' H H ({[bno]} ∪ P) b bno (view st bno) ∧
    disk st' = disk st ∧ writes st' = writes st.
Proof.
  intros Hok Hin HnP Hp. pose proof Hp as [Hb _].
  destruct (points_get _ _ _ Hp) as (x & Hx & Hg & Hc).
  destruct (held_mine _ _ _ _ _ _ Hok Hin Hx Hc) as (H1 & H2 & H3 & H4 & Hv).
  unfold bpin. rewrite Hg. cbn [mbind outcome_bind].
  rewrite put_buf_in by (done || apply (bo_len _ _ _ Hok)).
  eexists. split; [done|]. split; [|done]. rewrite Hv. change (bdata x) with
    (bdata (set_refcnt x (u32 (refcnt x + 1)))).
  apply (touches_set st H P H ({[bno]} ∪ P) b x _ bno); try done;
    [apply (bo_lru _ _ _ Hok)|set_solver|apply (bo_disk _ _ _ Hok)|].
  destruct Hc as [Hd Hbn]. constructor; simpl; rewrite ?Hbn; try done.
  - by rewrite bool_decide_eq_true_2.
  - rewrite H4. unfold in_set. rewrite decide_False, !decide_True by set_solver. done.
Qed.

Lemma bunpin_ok st H P b bno :
  bio_ok st H P → bno ∈ H → bno ∈ P → points st b bno →
  ∃ st', bunpin st b = Ok st' ∧ touches st st' H H (P ∖ {[bno]}) b bno (view st bno) ∧
    disk st' = disk st ∧ writes st' = writes st.
Proof.
  intros Hok Hin HP Hp. pose proof Hp as [Hb _].
  destruct (points_get _ _ _ Hp) as (x & Hx & Hg & Hc).
  destruct (held_mine _ _ _ _ _ _ Hok Hin Hx Hc) as (H1 & H2 & H3 & H4 & Hv).
  unfold bunpin. rewrite Hg. cbn [mbind outcome_bind].
  rewrite put_buf_in by (done || apply (bo_len _ _ _ Hok)).
  eexists. split; [done|]. split; [|done]. rewrite Hv. change (bdata x) with
    (bdata (set_refcnt x (u32 (refcnt x - 1)))).
  apply (touches_set st H P H (P ∖ {[bno]}) b x _ bno); try done;
    [apply (bo_lru _ _ _ Hok)|set_solver|apply (bo_disk _ _ _ Hok)|].
  destruct Hc as [Hd Hbn]. constructor; simpl; rewrite ?Hbn; try done.
  - by rewrite bool_decide_eq_true_2.
  - rewrite H4. unfold in_set. rewrite !(decide_True (P := _ ∈ _)) by done.
    rewrite decide_False by set_solver. done.
Qed.

(** ** Releasing a buffer *)

Lemma set_next_prev_comm m p s v w :
  set_next (set_prev m s v) p w = set_prev (set_next m p w) s v.
Proof.
  apply map_eq. intros a. unfold set_next, set_prev.
  destruct (decide (p = s)) as [->|Hne].
  - rewrite !lookup_insert_eq. destruct (decide (a = s)) as [->|].
    + by rewrite !lookup_insert_eq.
    + by rewrite !lookup_insert_ne.
  - rewrite (lookup_insert_ne _ s p), (lookup_insert_ne _ p s) by done.
    by rewrite insert_insert_ne.
Qed.

(** The two assignments of [brelse] unlink a node just as [lst_remove] does. *)
Lemma brelse_unlink_ok m xs b ys :
  dll m bhead (xs ++ b :: ys) → brelse_unlink m b = lst_remove m b.
Proof.
  intros [Hs Hnd]. pose proof Hs as [H1 H2]%dseg_app.
  pose proof (dseg_last_links _ _ _ _ H1) as [_ Hp].
  pose proof (dseg_first_links _ _ _ _ H2) as [Hn _].
  pose proof (default_last_elem bhead xs) as Hpin.
  assert (Hsin : default bhead (hd_error ys) ∈ ys ++ [bhead])
    by (destruct ys; simpl; set_solver).
  replace (default bhead (head ys)) with (default bhead (hd_error ys)) in Hn by by destruct ys.
  apply NoDup_cons in Hnd as [Hh Hnd]. apply NoDup_app in Hnd as (_ & Hx & [Hb _]%NoDup_cons).
  set (p := default bhead (last xs)) in *. set (s := default bhead (hd_error ys)) in *.
  assert (Hpb : p ≠ b) by (intros E; rewrite E in Hpin; set_solver).
  assert (Hsb : s ≠ b) by (intros E; rewrite E in Hsin; set_solver).
  unfold brelse_unlink, lst_remove. rewrite (nxt_prv_node_at _ _ _ _ Hn Hp).
  cbn [mbind outcome_bind next prev]. unfold node_at.
  rewrite set_prev_frame, set_next_frame by done.
  fold (node_at m b). rewrite (nxt_prv_node_at _ _ _ _ Hn Hp).
  cbn [mbind outcome_bind next prev]. by rewrite set_next_prev_comm.
Qed.

(** After the relinking the buffer is the most recently used one. *)
Lemma relink_ok m xs b ys :
  order_ok m (xs ++ b :: ys) →
  ∃ m1 m2, brelse_unlink m b = Ok m1 ∧ binit_link m1 b = Ok m2 ∧ order_ok m2 (b :: xs ++ ys).
Proof.
  intros [Hd Hp]. rewrite (brelse_unlink_ok m xs b ys) by done.
  destruct (lst_remove_ok m bhead xs b ys Hd) as (m1 & -> & Hd1 & _).
  destruct (lst_push_ok m1 bhead b (xs ++ ys)) as (m2 & Hm2 & Hd2 & _); [done| |].
  { destruct Hd as [_ [Hh Hnd]%NoDup_cons]. apply NoDup_app in Hnd as (_ & Hx & [Hb _]%NoDup_cons).
    intros [->|[Hin|Hin]%elem_of_app]%elem_of_cons; [set_solver| |done].
    apply (Hx b Hin). left. }
  exists m1, m2. split_and!; [done..|]. split; [done|].
  etrans; [apply Permutation_middle|exact Hp].
Qed.

Lemma brelse_ok st H P b bno :
  bio_ok st H P → bno ∈ H → points st b bno →
  bno ∈ P ∨ view st bno = disk_read (disk st) bno →
  ∃ st', brelse st b = Ok st' ∧
    touches st st' H (H ∖ {[bno]}) P b bno (view st bno) ∧
    disk st' = disk st ∧ writes st' = writes st.
Proof.
  intros Hok Hin Hp Hcl. pose proof Hp as [Hb _].
  destruct (points_get _ _ _ Hp) as (x & Hx & Hg & Hc).
  destruct (held_mine _ _ _ _ _ _ Hok Hin Hx Hc) as (H1 & H2 & H3 & H4 & Hv).
  pose proof (in_set_bounds bno P) as Hb01.
  unfold brelse. rewrite Hg. cbn [mbind outcome_bind]. rewrite H3. cbn [negb].
  rewrite put_buf_in by (done || apply (bo_len _ _ _ Hok)). cbn [mbind outcome_bind].
  set (x1 := set_refcnt (set_locked x false) (u32 (refcnt x - 1))).
  assert (Hr1 : refcnt x1 = in_set bno P)
    by (simpl; rewrite H4, u32_small; lia).
  assert (Hlru : ∃ m, (if refcnt x1 =? 0 then
              m1 ← brelse_unlink (lru (with_bufs st (<[Z.to_nat b:=x1]> (bufs st)))) b;
              m2 ← binit_link m1 b;
              Ok (with_lru (with_bufs st (<[Z.to_nat b:=x1]> (bufs st))) m2)
            else Ok (with_bufs st (<[Z.to_nat b:=x1]> (bufs st)))) =
            Ok (mk_bio (<[Z.to_nat b:=x1]> (bufs st)) m (disk st) (writes st)) ∧
            ∃ order, order_ok m order).
  { destruct (bo_lru _ _ _ Hok) as [order Ho]. destruct (refcnt x1 =? 0).
    - assert (Hbo : b ∈ order) by by apply (order_elem _ _ _ Ho).
      apply list_elem_of_split in Hbo as (xs & ys & ->).
      destruct (relink_ok _ _ _ _ Ho) as (m1 & m2 & E1 & E2 & Ho').
      exists m2. simpl. rewrite E1. simpl. rewrite E2. simpl. eauto.
    - exists (lru st). split; [done|eauto]. }
  destruct Hlru as (m & -> & Hord).
  eexists. split; [done|]. split; [|done]. rewrite Hv. change (bdata x) with (bdata x1).
  apply (touches_set st H P (H ∖ {[bno]}) P b x x1 bno); try done;
    [set_solver|apply (bo_disk _ _ _ Hok)|].
  destruct Hc as [Hd Hbn]. constructor; try done; simpl; rewrite ?Hbn.
  - symmetry. apply bool_decide_eq_false. set_solver.
  - fold (refcnt x1). simpl in Hr1. rewrite Hr1.
    unfold in_set at 2. rewrite decide_False by set_solver. done.
  - intros _ HnP. rewrite <- Hv. by destruct Hcl.
Qed.

(** ** Start-up *)

Lemma binit_loop_ok n m b xs :
  dll m bhead xs → (∀ c, c ∈ xs → 0 ≤ c < b) → 0 ≤ b → b + Z.of_nat n ≤ NBUF →
  xs ≡ₚ (Z.of_nat <$> seq 0 (Z.to_nat b)) →
  ∃ m' order, binit_loop n m b = Ok m' ∧ dll m' bhead order ∧
    order ≡ₚ (Z.of_nat <$> seq 0 (Z.to_nat (b + Z.of_nat n))).
Proof.
  revert m b xs. induction n as [|n IH]; intros m b xs Hd Hlt Hb Hn Hp.
  { exists m, xs. rewrite Z.add_0_r. done. }
  destruct (lst_push_ok m bhead b xs Hd) as (m1 & Hm1 & Hd1 & _).
  { intros [->|Hin]%elem_of_cons; [unfold bhead, NBUF in *; lia|].
    specialize (Hlt _ Hin). lia. }
  cbn [binit_loop]. unfold binit_link. unfold lst_push in Hm1. rewrite Hm1. cbn [mbind outcome_bind].
  destruct (IH m1 (b + 1) (b :: xs)) as (m' & order & E & Hd' & Hp'); [done|..|lia|lia| |].
  - intros c [->|Hc]%elem_of_cons; [lia|]. specialize (Hlt _ Hc). lia.
  - replace (Z.to_nat (b + 1)) with (Z.to_nat b + 1)%nat by lia.
    rewrite seq_app, fmap_app. simpl. rewrite Z2Nat.id by lia.
    rewrite <- Permutation_cons_append. by constructor.
  - exists m', order. split_and!; try done. rewrite Hp'.
    replace (b + 1 + Z.of_nat n) with (b + Z.of_nat (S n)) by lia. done.
Qed.

Lemma binit_ok dk :
  d ≠ 0 → (∀ k, zlen (disk_read dk k) = BSIZE) →
  ∃ st, binit dk = Ok st ∧ bio_ok st ∅ ∅ ∧ disk st = dk ∧ writes st = [] ∧
    (∀ k, view st k = disk_read dk k).
Proof.
  intros Hd0 Hdk. unfold binit.
  destruct (binit_loop_ok (Z.to_nat NBUF) (set_next (set_prev ∅ bhead bhead) bhead bhead) 0 [])
    as (m & order & -> & Hd & Hp); [|set_solver|lia|unfold NBUF; lia|done|].
  { split; [|apply NoDup_singleton]. simpl. split.
    - apply nxt_set_next. by rewrite decide_True.
    - apply prv_set_next, prv_set_prev. by rewrite decide_True. }
  cbn [mbind outcome_bind]. eexists. split; [done|].
  assert (Hbl : ∀ i x, replicate (Z.to_nat NBUF) blank !! i = Some x → x = blank).
  { intros i x Hi. by apply lookup_replicate in Hi as [-> _]. }
  assert (Hok : bio_ok (mk_bio (replicate (Z.to_nat NBUF) blank) m dk []) ∅ ∅).
  { constructor; simpl; try done.
    - exists order. split; [done|]. rewrite Hp. by rewrite Z.add_0_l, Z2Nat.id.
    - intros i j x y bno Hi Hj [Hx _]. apply Hbl in Hi. subst x. simpl in Hx. congruence.
    - intros i x Hi Hx. apply Hbl in Hi. subst x. simpl in Hx. congruence.
    - intros i x Hi _. apply Hbl in Hi. by subst x. }
  split_and!; try done. intros k. rewrite (view_clean _ ∅ ∅ k Hok) by set_solver. done.
Qed.
End bio.
