(* ===== verification/Virtio.v ===== *)
(** * The disk driver: [kernel/hardware/virtio_disk.c] on the structures of
    [kernel/hardware/virtio.h].

    The driver and the device share the descriptor table, the two rings, the
    request headers, the status bytes and the buffers. A pointer that the driver
    hands to the device is named by the object it points to.

    [virtio_disk_rw] and [virtio_disk_intr] run under [vdisk_lock] between any two
    sleeps. The model cuts them at the points where another thread or the device
    can see the difference: where the lock is taken or given up, where a request
    is published to the device, where the device is notified of it, before and
    after the handler reads and acknowledges the interrupt status, and at every
    turn of the handler's loop. *)

From S2P Require Import Prelude Riscv Bio Kalloc.

Definition NUM : Z := 8.
Definition VRING_DESC_F_NEXT : Z := 1.
Definition VRING_DESC_F_WRITE : Z := 2.
Definition VIRTIO_BLK_T_IN : Z := 0.
Definition VIRTIO_BLK_T_OUT : Z := 1.

(** ** Data *)

Inductive dma := ANull | AOp (i : Z) | AData (b : Z) | AStatus (i : Z).

Record virtq_desc := mk_desc { d_addr : dma; d_len : Z; d_flags : Z; d_next : Z }.

Record virtq_used_elem := mk_elem { u_id : Z; u_len : Z }.

Record virtio_blk_req := mk_req { r_type : Z; r_reserved : Z; r_sector : Z }.

(** In-flight operations, by the first descriptor of the chain. *)
Record dinfo := mk_info { i_b : option Z; i_status : Z }.

(** [struct disk], with the two rings it points to. *)
Record vdisk := mk_vdisk {
  desc : list virtq_desc;
  avail_idx : Z;
  avail_ring : list Z;
  used_cnt : Z;
  used_ring : list virtq_used_elem;
  free : list Z;
  used_idx : Z;
  info : list dinfo;
  ops : list virtio_blk_req;
}.

(** The fields of [struct buf] that the driver uses. *)
Record vbuf := mk_vbuf { b_disk : Z; b_blockno : Z; b_data : list Z }.

(** The three descriptors of a request. *)
Record chain := mk_chain { c_0 : Z; c_1 : Z; c_2 : Z }.

(** Where a caller of [virtio_disk_rw] is. *)
Inductive point :=
| Start                   (* before [acquire] *)
| Alloc                   (* at the first loop, with the lock *)
| SleepFree               (* asleep on [&disk.free[0]] *)
| WakeFree                (* woken from it, before taking the lock again *)
| Publish (c : chain)     (* before [avail->idx += 1], with the lock *)
| Notify (c : chain)      (* before the store to [QUEUE_NOTIFY], with the lock *)
| Poll (c : chain)        (* at the second loop, with the lock *)
| SleepBuf (c : chain)    (* asleep on [b] *)
| WakeBuf (c : chain).    (* woken from it *)

Record request := mk_request { q_buf : Z; q_write : Z; q_at : point }.

(** Where the interrupt handler is, once it has the lock. *)
Inductive phase :=
| IrqStatus        (* before it reads [INTERRUPT_STATUS] *)
| IrqAck (v : Z)   (* before it writes [v] to [INTERRUPT_ACK] *)
| IrqLoop.         (* at the loop *)

Inductive holder := Thread (p : Z) | Handler (ph : phase).

(** The device's registers that the driver uses once the queue is set up: whether
    [QUEUE_NOTIFY] was written since the device last found the available ring
    empty, and [INTERRUPT_STATUS]. *)
Record vregs := mk_vregs { notified : bool; isr : Z }.

(** The driver: its data, the buffers, the callers by process, the lock, and the
    registers it shares with the device. *)
Record driver := mk_driver {
  vd : vdisk;
  vbufs : gmap Z vbuf;
  vreqs : gmap Z request;
  vlock : option holder;
  vmmio : vregs;
}.

Definition with_vd (s : driver) (d : vdisk) : driver := mk_driver d (vbufs s) (vreqs s) (vlock s) (vmmio s).
Definition with_vbufs (s : driver) (bs : gmap Z vbuf) : driver := mk_driver (vd s) bs (vreqs s) (vlock s) (vmmio s).
Definition with_vreqs (s : driver) (q : gmap Z request) : driver := mk_driver (vd s) (vbufs s) q (vlock s) (vmmio s).
Definition with_vlock (s : driver) (l : option holder) : driver := mk_driver (vd s) (vbufs s) (vreqs s) l (vmmio s).
Definition with_vmmio (s : driver) (g : vregs) : driver := mk_driver (vd s) (vbufs s) (vreqs s) (vlock s) g.

Definition with_desc (d : vdisk) (x : list virtq_desc) : vdisk :=
  mk_vdisk x (avail_idx d) (avail_ring d) (used_cnt d) (used_ring d) (free d) (used_idx d) (info d) (ops d).
Definition with_avail (d : vdisk) (i : Z) (r : list Z) : vdisk :=
  mk_vdisk (desc d) i r (used_cnt d) (used_ring d) (free d) (used_idx d) (info d) (ops d).
Definition with_used (d : vdisk) (i : Z) (r : list virtq_used_elem) : vdisk :=
  mk_vdisk (desc d) (avail_idx d) (avail_ring d) i r (free d) (used_idx d) (info d) (ops d).
Definition with_free (d : vdisk) (x : list Z) : vdisk :=
  mk_vdisk (desc d) (avail_idx d) (avail_ring d) (used_cnt d) (used_ring d) x (used_idx d) (info d) (ops d).
Definition with_used_idx (d : vdisk) (x : Z) : vdisk :=
  mk_vdisk (desc d) (avail_idx d) (avail_ring d) (used_cnt d) (used_ring d) (free d) x (info d) (ops d).
Definition with_info (d : vdisk) (x : list dinfo) : vdisk :=
  mk_vdisk (desc d) (avail_idx d) (avail_ring d) (used_cnt d) (used_ring d) (free d) (used_idx d) x (ops d).
Definition with_ops (d : vdisk) (x : list virtio_blk_req) : vdisk :=
  mk_vdisk (desc d) (avail_idx d) (avail_ring d) (used_cnt d) (used_ring d) (free d) (used_idx d) (info d) x.

Definition set_b_disk (x : vbuf) (v : Z) : vbuf := mk_vbuf v (b_blockno x) (b_data x).
Definition set_b_data (x : vbuf) (v : list Z) : vbuf := mk_vbuf (b_disk x) (b_blockno x) v.

Definition get_vbuf (s : driver) (b : Z) : outcome vbuf :=
  match vbufs s !! b with Some x => Ok x | None => Fault end.
Definition put_vbuf (s : driver) (b : Z) (x : vbuf) : driver := with_vbufs s (<[b := x]> (vbufs s)).

(** ** Sleeping and waking *)

Inductive vchan := ChFree | ChBuf (b : Z).

(** [wakeup]: everyone asleep on the channel becomes runnable. *)
Definition wake (ch : vchan) (r : request) : request :=
  match q_at r, ch with
  | SleepFree, ChFree => mk_request (q_buf r) (q_write r) WakeFree
  | SleepBuf c, ChBuf b => if q_buf r =? b then mk_request (q_buf r) (q_write r) (WakeBuf c) else r
  | _, _ => r
  end.

Definition vwakeup (s : driver) (ch : vchan) : driver := with_vreqs s (wake ch <$> vreqs s).

(** ** Descriptors *)

Fixpoint alloc_desc_loop (n : nat) (fr : list Z) (i : Z) : outcome (Z * list Z) :=
  match n with
  | O => Ok (-1, fr)
  | S n' =>
      f ← arr_get fr i;
      if negb (f =? 0) then fr' ← arr_set fr i 0; Ok (i, fr')
      else alloc_desc_loop n' fr (i + 1)
  end.

Definition alloc_desc (s : driver) : outcome (Z * driver) :=
  '(i, fr) ← alloc_desc_loop (Z.to_nat NUM) (free (vd s)) 0;
  Ok (i, with_vd s (with_free (vd s) fr)).

Definition free_desc (s : driver) (i : Z) : outcome driver :=
  if NUM <=? i then Panic "free_desc 1"
  else
    f ← arr_get (free (vd s)) i;
    if negb (f =? 0) then Panic "free_desc 2"
    else
      ds ← arr_set (desc (vd s)) i (mk_desc ANull 0 0 0);
      fr ← arr_set (free (vd s)) i 1;
      Ok (vwakeup (with_vd s (with_free (with_desc (vd s) ds) fr)) ChFree).

(** A chain that does not end within the table would never end. *)
Fixpoint free_chain (fuel : nat) (s : driver) (i : Z) : outcome driver :=
  match fuel with
  | O => Hang
  | S fuel' =>
      x ← arr_get (desc (vd s)) i;
      s1 ← free_desc s i;
      if negb (Z.land (d_flags x) VRING_DESC_F_NEXT =? 0) then free_chain fuel' s1 (d_next x) else Ok s1
  end.

Fixpoint free_descs (s : driver) (idx : list Z) : outcome driver :=
  match idx with
  | [] => Ok s
  | i :: idx' => s1 ← free_desc s i; free_descs s1 idx'
  end.

(** [idx] holds the descriptors found so far, [n] more are wanted. *)
Fixpoint alloc3_loop (n : nat) (s : driver) (idx : list Z) : outcome (option (list Z) * driver) :=
  match n with
  | O => Ok (Some idx, s)
  | S n' =>
      '(i, s1) ← alloc_desc s;
      if i <? 0 then s2 ← free_descs s1 idx; Ok (None, s2)
      else alloc3_loop n' s1 (idx ++ [i])
  end.

Definition alloc3_desc (s : driver) : outcome (option chain * driver) :=
  '(r, s1) ← alloc3_loop 3 s [];
  match r with
  | Some [i; j; k] => Ok (Some (mk_chain i j k), s1)
  | _ => Ok (None, s1)
  end.

(** ** [virtio_disk_rw] *)

(** Formatting the three descriptors, up to the store into the available ring. *)
Definition rw_format (s : driver) (b write : Z) (c : chain) : outcome driver :=
  let '(mk_chain i j k) := c in
  x ← get_vbuf s b;
  let sector := u32 (b_blockno x * (BSIZE / 512)) in
  let type := if negb (write =? 0) then VIRTIO_BLK_T_OUT else VIRTIO_BLK_T_IN in
  os ← arr_set (ops (vd s)) i (mk_req type 0 sector);
  ds ← arr_set (desc (vd s)) i (mk_desc (AOp i) 16 VRING_DESC_F_NEXT j);
  let flags := Z.lor (if negb (write =? 0) then 0 else VRING_DESC_F_WRITE) VRING_DESC_F_NEXT in
  ds ← arr_set ds j (mk_desc (AData b) BSIZE flags k);
  ds ← arr_set ds k (mk_desc (AStatus i) 1 VRING_DESC_F_WRITE 0);
  inf ← arr_set (info (vd s)) i (mk_info (Some b) 255);
  ring ← arr_set (avail_ring (vd s)) (avail_idx (vd s) mod NUM) i;
  let d := with_avail (with_info (with_desc (with_ops (vd s) os) ds) inf) (avail_idx (vd s)) ring in
  Ok (put_vbuf (with_vd s d) b (set_b_disk x 1)).

Definition rw_publish (s : driver) : driver :=
  with_vd s (with_avail (vd s) (u16 (avail_idx (vd s) + 1)) (avail_ring (vd s))).

(** [*R(VIRTIO_MMIO_QUEUE_NOTIFY) = 0] *)
Definition rw_notify (s : driver) : driver := with_vmmio s (mk_vregs true (isr (vmmio s))).

Definition rw_finish (s : driver) (c : chain) : outcome driver :=
  x ← arr_get (info (vd s)) (c_0 c);
  inf ← arr_set (info (vd s)) (c_0 c) (mk_info None (i_status x));
  free_chain (Z.to_nat NUM) (with_vd s (with_info (vd s) inf)) (c_0 c).

(** Caller [p] moves to another point, or gives up the lock there. *)
Definition goto (s : driver) (p : Z) (r : request) (a : point) : driver :=
  with_vreqs s (<[p := mk_request (q_buf r) (q_write r) a]> (vreqs s)).
Definition unlock (s : driver) : driver := with_vlock s None.

(** What caller [p], which holds the lock, does up to the next cut; the Boolean
    tells that [virtio_disk_rw] has returned. *)
Definition rw_run (s : driver) (p : Z) (r : request) : outcome (bool * driver) :=
  match q_at r with
  | Alloc =>
      '(o, s1) ← alloc3_desc s;
      match o with
      | Some c => s2 ← rw_format s1 (q_buf r) (q_write r) c; Ok (false, goto s2 p r (Publish c))
      | None => Ok (false, unlock (goto s1 p r SleepFree))
      end
  | Publish c => Ok (false, goto (rw_publish s) p r (Notify c))
  | Notify c => Ok (false, goto (rw_notify s) p r (Poll c))
  | Poll c =>
      x ← get_vbuf s (q_buf r);
      if b_disk x =? 1 then Ok (false, unlock (goto s p r (SleepBuf c)))
      else s1 ← rw_finish s c; Ok (true, unlock (with_vreqs s1 (delete p (vreqs s1))))
  | _ => Fault
  end.

(** ** [virtio_disk_intr] *)

(** One turn of the loop. *)
Definition intr_one (s : driver) : outcome driver :=
  e ← arr_get (used_ring (vd s)) (used_idx (vd s) mod NUM);
  x ← arr_get (info (vd s)) (i32 (u_id e));
  if negb (i_status x =? 0) then Panic "virtio_disk_intr status"
  else
    match i_b x with
    | None => Fault
    | Some b =>
        y ← get_vbuf s b;
        let s1 := vwakeup (put_vbuf s b (set_b_disk y 0)) (ChBuf b) in
        Ok (with_vd s1 (with_used_idx (vd s1) (u16 (used_idx (vd s1) + 1))))
    end.

(** Writing a bit to [INTERRUPT_ACK] clears it in [INTERRUPT_STATUS]. *)
Definition intr_ack (s : driver) (v : Z) : driver :=
  with_vmmio s (mk_vregs (notified (vmmio s)) (Z.land (isr (vmmio s)) (Z.lnot v))).

(** The handler, holding the lock, up to the next cut. *)
Definition intr_run (s : driver) (ph : phase) : outcome driver :=
  match ph with
  | IrqStatus => Ok (with_vlock s (Some (Handler (IrqAck (Z.land (isr (vmmio s)) 0x3)))))
  | IrqAck v => Ok (with_vlock (intr_ack s v) (Some (Handler IrqLoop)))
  | IrqLoop => if negb (used_idx (vd s) =? used_cnt (vd s)) then intr_one s else Ok (unlock s)
  end.

(** The whole handler, when nothing else runs in between; [fuel] bounds the cuts. *)
Fixpoint intr_all (fuel : nat) (s : driver) : outcome driver :=
  match fuel with
  | O => Hang
  | S fuel' =>
      match vlock s with
      | Some (Handler ph) => s1 ← intr_run s ph; intr_all fuel' s1
      | _ => Ok s
      end
  end.

(** [acquire] spins while a caller has the lock. *)
Definition virtio_disk_intr (fuel : nat) (s : driver) : outcome driver :=
  match vlock s with
  | None => intr_all fuel (with_vlock s (Some (Handler IrqStatus)))
  | Some _ => Hang
  end.

(** ** [virtio_disk_init] *)

Definition VIRTIO_MMIO_MAGIC_VALUE : Z := 0x000.
Definition VIRTIO_MMIO_VERSION : Z := 0x004.
Definition VIRTIO_MMIO_DEVICE_ID : Z := 0x008.
Definition VIRTIO_MMIO_VENDOR_ID : Z := 0x00c.
Definition VIRTIO_MMIO_DEVICE_FEATURES : Z := 0x010.
Definition VIRTIO_MMIO_DRIVER_FEATURES : Z := 0x020.
Definition VIRTIO_MMIO_QUEUE_SEL : Z := 0x030.
Definition VIRTIO_MMIO_QUEUE_NUM_MAX : Z := 0x034.
Definition VIRTIO_MMIO_QUEUE_NUM : Z := 0x038.
Definition VIRTIO_MMIO_QUEUE_READY : Z := 0x044.
Definition VIRTIO_MMIO_STATUS : Z := 0x070.
Definition VIRTIO_MMIO_QUEUE_DESC_LOW : Z := 0x080.
Definition VIRTIO_MMIO_QUEUE_DESC_HIGH : Z := 0x084.
Definition VIRTIO_MMIO_DRIVER_DESC_LOW : Z := 0x090.
Definition VIRTIO_MMIO_DRIVER_DESC_HIGH : Z := 0x094.
Definition VIRTIO_MMIO_DEVICE_DESC_LOW : Z := 0x0a0.
Definition VIRTIO_MMIO_DEVICE_DESC_HIGH : Z := 0x0a4.

Definition VIRTIO_CONFIG_S_ACKNOWLEDGE : Z := 1.
Definition VIRTIO_CONFIG_S_DRIVER : Z := 2.
Definition VIRTIO_CONFIG_S_DRIVER_OK : Z := 4.
Definition VIRTIO_CONFIG_S_FEATURES_OK : Z := 8.

Definition VIRTIO_BLK_F_RO : Z := 5.
Definition VIRTIO_BLK_F_SCSI : Z := 7.
Definition VIRTIO_BLK_F_CONFIG_WCE : Z := 11.
Definition VIRTIO_BLK_F_MQ : Z := 12.
Definition VIRTIO_F_ANY_LAYOUT : Z := 27.
Definition VIRTIO_RING_F_INDIRECT_DESC : Z := 28.
Definition VIRTIO_RING_F_EVENT_IDX : Z := 29.

(** [features &= ~(1 << n)] *)
Definition drop_feature (features n : Z) : Z := Z.land features (Z.lnot (Z.shiftl 1 n)).

Definition negotiate (features : Z) : Z :=
  fold_left drop_feature
    [VIRTIO_BLK_F_RO; VIRTIO_BLK_F_SCSI; VIRTIO_BLK_F_CONFIG_WCE; VIRTIO_BLK_F_MQ; VIRTIO_F_ANY_LAYOUT;
     VIRTIO_RING_F_EVENT_IDX; VIRTIO_RING_F_INDIRECT_DESC] features.

(** The zeroed queue memory and the static data. *)
Definition vdisk0 : vdisk :=
  mk_vdisk (replicate (Z.to_nat NUM) (mk_desc ANull 0 0 0)) 0 (replicate (Z.to_nat NUM) 0)
    0 (replicate (Z.to_nat NUM) (mk_elem 0 0)) (replicate (Z.to_nat NUM) 0) 0
    (replicate (Z.to_nat NUM) (mk_info None 0)) (replicate (Z.to_nat NUM) (mk_req 0 0 0)).

Fixpoint free_all (n : nat) (fr : list Z) (i : Z) : outcome (list Z) :=
  match n with
  | O => Ok fr
  | S n' => fr' ← arr_set fr i 1; free_all n' fr' (i + 1)
  end.

(** [rd] is what the device answers when a register is read; no register is read
    twice. The result is the stores to registers, in order, with the driver's
    data. *)
Definition virtio_disk_init {heap} `{Allocator heap} (rd : Z → Z) (hp : heap)
    : outcome (list (Z * Z) * vdisk * heap) :=
  if negb (rd VIRTIO_MMIO_MAGIC_VALUE =? 0x74726976) || negb (rd VIRTIO_MMIO_VERSION =? 2) ||
     negb (rd VIRTIO_MMIO_DEVICE_ID =? 2) || negb (rd VIRTIO_MMIO_VENDOR_ID =? 0x554d4551)
  then Panic "could not find virtio disk"
  else
    let st1 := Z.lor 0 VIRTIO_CONFIG_S_ACKNOWLEDGE in
    let st2 := Z.lor st1 VIRTIO_CONFIG_S_DRIVER in
    let features := negotiate (rd VIRTIO_MMIO_DEVICE_FEATURES) in
    let st3 := Z.lor st2 VIRTIO_CONFIG_S_FEATURES_OK in
    let status := rd VIRTIO_MMIO_STATUS in
    if Z.land status VIRTIO_CONFIG_S_FEATURES_OK =? 0 then Panic "virtio disk FEATURES_OK unset"
    else if negb (rd VIRTIO_MMIO_QUEUE_READY =? 0) then Panic "virtio disk should not be ready"
    else
      let max := rd VIRTIO_MMIO_QUEUE_NUM_MAX in
      if max =? 0 then Panic "virtio disk has no queue 0"
      else if max <? NUM then Panic "virtio disk max queue too short"
      else
        '(pd, hp) ← kalloc hp;
        '(pa, hp) ← kalloc hp;
        '(pu, hp) ← kalloc hp;
        if (pd =? 0) || (pa =? 0) || (pu =? 0) then Panic "virtio disk kalloc"
        else
          fr ← free_all (Z.to_nat NUM) (free vdisk0) 0;
          Ok ([(VIRTIO_MMIO_STATUS, 0); (VIRTIO_MMIO_STATUS, st1); (VIRTIO_MMIO_STATUS, st2);
               (VIRTIO_MMIO_DRIVER_FEATURES, u32 features); (VIRTIO_MMIO_STATUS, st3);
               (VIRTIO_MMIO_QUEUE_SEL, 0); (VIRTIO_MMIO_QUEUE_NUM, NUM);
               (VIRTIO_MMIO_QUEUE_DESC_LOW, u32 pd); (VIRTIO_MMIO_QUEUE_DESC_HIGH, u32 (Z.shiftr pd 32));
               (VIRTIO_MMIO_DRIVER_DESC_LOW, u32 pa); (VIRTIO_MMIO_DRIVER_DESC_HIGH, u32 (Z.shiftr pa 32));
               (VIRTIO_MMIO_DEVICE_DESC_LOW, u32 pu); (VIRTIO_MMIO_DEVICE_DESC_HIGH, u32 (Z.shiftr pu 32));
               (VIRTIO_MMIO_QUEUE_READY, 1);
               (VIRTIO_MMIO_STATUS, Z.lor status VIRTIO_CONFIG_S_DRIVER_OK)],
              with_free vdisk0 fr, hp).
