(* ===== verification/VirtioSpec.v ===== *)
(** * The disk driver with its device, and what the two promise together.

    The device is the other side of the rings: [virtio_step] says what a virtio
    block device may do, and the class [VirtioDevice] that a given device keeps to
    it and goes on as long as it has something to do: it need not look at the
    available ring unless it was notified, and it may stop looking when it finds
    the ring empty. It interrupts through [INTERRUPT_STATUS]. Callers, the
    interrupt handler and the device run in any order.

    The abstract machine has no queues: a request is pending until, at one point
    between the call and the return, the whole block is transferred. *)

From Stdlib Require Import ZifyBool.
From S2P Require Import Prelude Ring Bio Virtio.

(** ** The device *)

(** How far it has read the available ring, the chains it works on, the disk. *)
Record device := mk_device { last_avail : Z; pending : gset Z; sectors : gmap Z (list Z) }.

Record machine := mk_machine { drv : driver; dev : device }.

Definition sector_at (st : gmap Z (list Z)) (k : Z) : list Z := default (replicate 512 0) (st !! k).

Fixpoint read_sectors (st : gmap Z (list Z)) (k : Z) (n : nat) : list Z :=
  match n with
  | O => []
  | S n' => sector_at st k ++ read_sectors st (k + 1) n'
  end.

Fixpoint write_sectors (st : gmap Z (list Z)) (k : Z) (n : nat) (data : list Z) : gmap Z (list Z) :=
  match n with
  | O => st
  | S n' => write_sectors (<[k := take 512 data]> st) (k + 1) n' (drop 512 data)
  end.

(** Block [n] of the file system on such a disk. *)
Definition block_at (st : gmap Z (list Z)) (n : Z) : list Z := read_sectors st (2 * n) 2.

(** The chain that starts at descriptor [i]. *)
Fixpoint desc_chain (fuel : nat) (ds : list virtq_desc) (i : Z) : option (list virtq_desc) :=
  match fuel with
  | O => None
  | S fuel' =>
      x ← ds !! Z.to_nat i;
      if Z.testbit (d_flags x) 0 then l ← desc_chain fuel' ds (d_next x); Some (x :: l) else Some [x]
  end.

(** A block request as the device reads it from memory: the direction, the first
    sector, how many, the buffer, and where the status goes. *)
Record io := mk_io { io_write : bool; io_sector : Z; io_count : nat; io_buf : Z; io_status : Z }.

Definition decode (d : vdisk) (h : Z) : option io :=
  l ← desc_chain (Z.to_nat NUM) (desc d) h;
  match l with
  | [x0; x1; x2] =>
      match d_addr x0, d_addr x1, d_addr x2 with
      | AOp i, AData b, AStatus j =>
          req ← ops d !! Z.to_nat i;
          let n := Z.to_nat (d_len x1 / 512) in
          let writable := Z.testbit (d_flags x1) 1 in
          if negb (Z.testbit (d_flags x2) 1) then None
          else if (r_type req =? VIRTIO_BLK_T_IN) && writable then Some (mk_io false (r_sector req) n b j)
          else if (r_type req =? VIRTIO_BLK_T_OUT) && negb writable then Some (mk_io true (r_sector req) n b j)
          else None
      | _, _, _ => None
      end
  | _ => None
  end.

(** The status byte and the used ring at the end of a request. *)
Definition report (d : vdisk) (h j st len : Z) : vdisk :=
  let d1 := with_info d (alter (λ x, mk_info (i_b x) st) (Z.to_nat j) (info d)) in
  with_used d1 (u16 (used_cnt d + 1)) (<[Z.to_nat (used_cnt d mod NUM) := mk_elem h len]> (used_ring d)).

(** The request is over, and the device interrupts. *)
Definition finish (m : machine) (h : Z) (q : io) (x : vbuf) (secs : gmap Z (list Z)) (st len : Z) : machine :=
  let s := put_vbuf (drv m) (io_buf q) x in
  let g := mk_vregs (notified (vmmio s)) (Z.lor (isr (vmmio s)) 1) in
  mk_machine (with_vmmio (with_vd s (report (vd s) h (io_status q) st len)) g)
    (mk_device (last_avail (dev m)) (pending (dev m) ∖ {[h]}) secs).

(** A device may look at the ring at any time. *)
Inductive virtio_step (m : machine) : machine → Prop :=
| vs_fetch h :
    last_avail (dev m) ≠ avail_idx (vd (drv m)) →
    avail_ring (vd (drv m)) !! Z.to_nat (last_avail (dev m) mod NUM) = Some h →
    virtio_step m (mk_machine (drv m)
      (mk_device (u16 (last_avail (dev m) + 1)) ({[h]} ∪ pending (dev m)) (sectors (dev m))))
| vs_read h q x len :
    h ∈ pending (dev m) → decode (vd (drv m)) h = Some q → io_write q = false →
    vbufs (drv m) !! io_buf q = Some x →
    virtio_step m (finish m h q (set_b_data x (read_sectors (sectors (dev m)) (io_sector q) (io_count q)))
                     (sectors (dev m)) 0 len)
| vs_write h q x len :
    h ∈ pending (dev m) → decode (vd (drv m)) h = Some q → io_write q = true →
    vbufs (drv m) !! io_buf q = Some x →
    virtio_step m (finish m h q x (write_sectors (sectors (dev m)) (io_sector q) (io_count q) (b_data x)) 0 len)
| vs_fail h q x data secs st len :
    h ∈ pending (dev m) → decode (vd (drv m)) h = Some q →
    vbufs (drv m) !! io_buf q = Some x → 1 ≤ st ≤ 2 →
    (* what the transfer left behind *)
    length data = length (b_data x) → (io_write q = true → data = b_data x) →
    (∀ k v, secs !! k = Some v → length v = 512%nat) →
    (∀ k, k < io_sector q ∨ io_sector q + Z.of_nat (io_count q) ≤ k → secs !! k = sectors (dev m) !! k) →
    virtio_step m (finish m h q (set_b_data x data) secs st len)
| vs_idle :
    last_avail (dev m) = avail_idx (vd (drv m)) → notified (vmmio (drv m)) = true →
    virtio_step m (mk_machine (with_vmmio (drv m) (mk_vregs false (isr (vmmio (drv m))))) (dev m)).

(** What a device may not ignore: entries in the available ring that it was notified
    of, and the requests it has taken. *)
Definition busy (m : machine) : Prop :=
  (notified (vmmio (drv m)) = true ∧ last_avail (dev m) ≠ avail_idx (vd (drv m)) ∧
   is_Some (avail_ring (vd (drv m)) !! Z.to_nat (last_avail (dev m) mod NUM))) ∨
  (∃ h q, h ∈ pending (dev m) ∧ decode (vd (drv m)) h = Some q ∧ is_Some (vbufs (drv m) !! io_buf q)).

Class VirtioDevice (device_step : machine → machine → Prop) : Prop := {
  vdev_spec : ∀ m m', device_step m m' → virtio_step m m';
  vdev_live : ∀ m, busy m → ∃ m', device_step m m';
}.

(** ** The whole machine *)

(** The calls and returns of [virtio_disk_rw]; at the return, the block number and
    the contents of the buffer. *)
Inductive event := Call (p b write : Z) | Return (p b write n : Z) (data : list Z).

(** Where a caller goes on when it gets the lock. *)
Definition resume (a : point) : option point :=
  match a with
  | Start | WakeFree => Some Alloc
  | WakeBuf c => Some (Poll c)
  | _ => None
  end.

(** What the driver does on its own: the callers, and the handler, which starts when
    the device interrupts. *)
Inductive work (m : machine) : option event → machine → Prop :=
| w_acquire p r a :
    vlock (drv m) = None → vreqs (drv m) !! p = Some r → resume (q_at r) = Some a →
    work m None (mk_machine (with_vlock (goto (drv m) p r a) (Some (Thread p))) (dev m))
| w_run p r s' :
    vlock (drv m) = Some (Thread p) → vreqs (drv m) !! p = Some r → rw_run (drv m) p r = Ok (false, s') →
    work m None (mk_machine s' (dev m))
| w_return p r x s' :
    vlock (drv m) = Some (Thread p) → vreqs (drv m) !! p = Some r → rw_run (drv m) p r = Ok (true, s') →
    vbufs s' !! q_buf r = Some x →
    work m (Some (Return p (q_buf r) (q_write r) (b_blockno x) (b_data x))) (mk_machine s' (dev m))
| w_intr :
    vlock (drv m) = None → isr (vmmio (drv m)) ≠ 0 →
    work m None (mk_machine (with_vlock (drv m) (Some (Handler IrqStatus))) (dev m))
| w_intr_run ph s' :
    vlock (drv m) = Some (Handler ph) → intr_run (drv m) ph = Ok s' → work m None (mk_machine s' (dev m)).

(** A buffer that is the subject of no request. *)
Definition unused (s : driver) (b : Z) : Prop := ∀ p r, vreqs s !! p = Some r → q_buf r ≠ b.

(** What comes from outside: calls, for buffers whose sleep lock the caller holds,
    changes of buffers by their owners between requests, and interrupts with
    nothing to do. *)
Inductive outside (m : machine) : option event → machine → Prop :=
| o_call p b w x :
    vreqs (drv m) !! p = None → unused (drv m) b → vbufs (drv m) !! b = Some x → 0 ≤ b_blockno x < 2 ^ 31 →
    outside m (Some (Call p b w)) (mk_machine (with_vreqs (drv m) (<[p := mk_request b w Start]> (vreqs (drv m)))) (dev m))
| o_touch b x n data :
    unused (drv m) b → vbufs (drv m) !! b = Some x → zlen data = BSIZE →
    outside m None (mk_machine (put_vbuf (drv m) b (mk_vbuf (b_disk x) n data)) (dev m))
| o_spurious :
    vlock (drv m) = None → outside m None (mk_machine (with_vlock (drv m) (Some (Handler IrqStatus))) (dev m)).

Section machine.
Context (device_step : machine → machine → Prop).

Inductive step (m : machine) (e : option event) (m' : machine) : Prop :=
| st_work : work m e m' → step m e m'
| st_device : e = None → device_step m m' → step m e m'
| st_outside : outside m e m' → step m e m'.

Inductive exec (m : machine) : list event → machine → Prop :=
| ex_nil : exec m [] m
| ex_snoc tr m' e m'' : exec m tr m' → step m' e m'' → exec m (tr ++ option_list e) m''.
End machine.

(** After [virtio_disk_init]: every descriptor is free; [bufs] and [secs] are the
    buffers and the disk as they are then. *)
Definition machine0 (bufs : gmap Z vbuf) (secs : gmap Z (list Z)) : machine :=
  mk_machine (mk_driver (with_free vdisk0 (replicate (Z.to_nat NUM) 1)) bufs ∅ None (mk_vregs false 0)) (mk_device 0 ∅ secs).

Definition good_start (bufs : gmap Z vbuf) (secs : gmap Z (list Z)) : Prop :=
  (∀ b x, bufs !! b = Some x → zlen (b_data x) = BSIZE) ∧ (∀ k v, secs !! k = Some v → length v = 512%nat).

(** ** The abstract disk *)

Inductive areq := APending (b write : Z) | ADone (b write : Z) | AFailed (b write : Z).

(** The requests under way by process, block number and contents of the buffers,
    and the blocks of the disk. *)
Record astate := mk_astate { a_reqs : gmap Z areq; a_bufs : gmap Z (Z * list Z); a_disk : Z → list Z }.

Definition a_buf (r : areq) : Z := match r with APending b _ | ADone b _ | AFailed b _ => b end.

Inductive a_step (a : astate) : option event → astate → Prop :=
| a_call p b w :
    a_reqs a !! p = None → (∀ q r, a_reqs a !! q = Some r → a_buf r ≠ b) →
    a_step a (Some (Call p b w)) (mk_astate (<[p := APending b w]> (a_reqs a)) (a_bufs a) (a_disk a))
| a_read p b n data :
    a_reqs a !! p = Some (APending b 0) → a_bufs a !! b = Some (n, data) →
    a_step a None (mk_astate (<[p := ADone b 0]> (a_reqs a)) (<[b := (n, a_disk a n)]> (a_bufs a)) (a_disk a))
| a_write p b w n data dsk :
    a_reqs a !! p = Some (APending b w) → w ≠ 0 → a_bufs a !! b = Some (n, data) →
    (∀ k, dsk k = if k =? n then data else a_disk a k) →
    a_step a None (mk_astate (<[p := ADone b w]> (a_reqs a)) (a_bufs a) dsk)
| a_fail p b w n data data' dsk :
    a_reqs a !! p = Some (APending b w) → a_bufs a !! b = Some (n, data) →
    (∀ k, k ≠ n → dsk k = a_disk a k) →
    a_step a None (mk_astate (<[p := AFailed b w]> (a_reqs a)) (<[b := (n, data')]> (a_bufs a)) dsk)
| a_return p b w n data :
    a_reqs a !! p = Some (ADone b w) → a_bufs a !! b = Some (n, data) →
    a_step a (Some (Return p b w n data)) (mk_astate (delete p (a_reqs a)) (a_bufs a) (a_disk a))
| a_touch b n data :
    (∀ q r, a_reqs a !! q = Some r → a_buf r ≠ b) →
    a_step a None (mk_astate (a_reqs a) (<[b := (n, data)]> (a_bufs a)) (a_disk a)).

Inductive a_exec (a : astate) : list event → astate → Prop :=
| ae_nil : a_exec a [] a
| ae_snoc tr a' e a'' : a_exec a tr a' → a_step a' e a'' → a_exec a (tr ++ option_list e) a''.

(** ** The abstraction *)

Definition point_chain (a : point) : option chain :=
  match a with
  | Publish c | Notify c | Poll c | SleepBuf c | WakeBuf c => Some c
  | _ => None
  end.

(** The status byte of the request whose chain starts at [h]. *)
Definition status (d : vdisk) (h : Z) : Z := default 0 (i_status <$> info d !! Z.to_nat h).

Definition abs_req (d : vdisk) (r : request) : areq :=
  match point_chain (q_at r) with
  | None => APending (q_buf r) (q_write r)
  | Some c =>
      if status d (c_0 c) =? 255 then APending (q_buf r) (q_write r)
      else if status d (c_0 c) =? 0 then ADone (q_buf r) (q_write r)
      else AFailed (q_buf r) (q_write r)
  end.

Definition abs (m : machine) : astate :=
  mk_astate (abs_req (vd (drv m)) <$> vreqs (drv m))
    ((λ x, (b_blockno x, b_data x)) <$> vbufs (drv m)) (block_at (sectors (dev m))).

(** ** The invariant of the disk driver.

    Every descriptor is free or belongs to exactly one request; every published
    request is in exactly one place: in the available ring, with the device, in
    the used ring, or done. *)

#[global] Instance vring_size : RingSize NUM (2 ^ 16).
Proof. by constructor. Qed.

Local Notation vring := (ring NUM (2 ^ 16)).

(** ** What the data structures know of a request *)

(** Sleeping, waking and waiting for the lock are not seen in the queues. *)
Record view := mk_view { v_b : Z; v_w : Z; v_chain : option chain; v_pub : bool }.

Definition published (a : point) : bool :=
  match a with Notify _ | Poll _ | SleepBuf _ | WakeBuf _ => true | _ => false end.

Definition view_of (r : request) : view := mk_view (q_buf r) (q_write r) (point_chain (q_at r)) (published (q_at r)).

Definition views (s : driver) : gmap Z view := view_of <$> vreqs s.

Definition in_chain (i : Z) (c : chain) : Prop := i = c_0 c ∨ i = c_1 c ∨ i = c_2 c.

#[global] Instance in_chain_dec i c : Decision (in_chain i c).
Proof. unfold in_chain. solve_decision. Defined.

(** The chain as [rw_format] wrote it, for block [n] of buffer [b]. *)
Record chain_ok (d : vdisk) (b w n : Z) (c : chain) : Prop := {
  ch_range : ∀ i, in_chain i c → 0 ≤ i < NUM;
  ch_diff : c_0 c ≠ c_1 c ∧ c_0 c ≠ c_2 c ∧ c_1 c ≠ c_2 c;
  ch_op : ops d !! Z.to_nat (c_0 c) = Some (mk_req (if w =? 0 then VIRTIO_BLK_T_IN else VIRTIO_BLK_T_OUT) 0 (2 * n));
  ch_d0 : desc d !! Z.to_nat (c_0 c) = Some (mk_desc (AOp (c_0 c)) 16 1 (c_1 c));
  ch_d1 : desc d !! Z.to_nat (c_1 c) = Some (mk_desc (AData b) BSIZE (if w =? 0 then 3 else 1) (c_2 c));
  ch_d2 : desc d !! Z.to_nat (c_2 c) = Some (mk_desc (AStatus (c_0 c)) 1 2 0);
  ch_info : ∃ st, info d !! Z.to_nat (c_0 c) = Some (mk_info (Some b) st);
}.

(** Where the request of a view is, and what the device and the driver know. *)
Definition stage (d : vdisk) (dv : device) (Q U : list Z) (x : vbuf) (pub : bool) (h : Z) : Prop :=
  if pub then
    (b_disk x = 1 ∧ (h ∈ Q ∨ h ∈ pending dv) ∧ status d h = 255) ∨
    (b_disk x = 1 ∧ h ∈ U ∧ status d h ≠ 255) ∨
    (b_disk x = 0 ∧ h ∉ Q ++ U ∧ h ∉ pending dv ∧ status d h = 0)
  else b_disk x = 1 ∧ h ∉ Q ++ U ∧ h ∉ pending dv ∧ status d h = 255.

(** [Q] are the heads in the available ring, [U] those in the used ring. *)
Record core (d : vdisk) (bufs : gmap Z vbuf) (dv : device) (V : gmap Z view) (Q U : list Z) : Prop := {
  co_desc : zlen (desc d) = NUM;
  co_flen : zlen (free d) = NUM;
  co_info : zlen (info d) = NUM;
  co_ops : zlen (ops d) = NUM;
  co_blen : ∀ b x, bufs !! b = Some x → zlen (b_data x) = BSIZE;
  co_slen : ∀ k v, sectors dv !! k = Some v → length v = 512%nat;
  co_pub : ∀ p v, V !! p = Some v → v_pub v = true → is_Some (v_chain v);
  co_buf : ∀ p v, V !! p = Some v → ∃ x, bufs !! v_b v = Some x ∧ 0 ≤ b_blockno x < 2 ^ 31;
  co_excl : ∀ p q v v', V !! p = Some v → V !! q = Some v' → v_b v = v_b v' → p = q;
  co_free : ∀ i, 0 ≤ i < NUM → free d !! Z.to_nat i = Some 1 ∨
    (free d !! Z.to_nat i = Some 0 ∧ ∃ p v c, V !! p = Some v ∧ v_chain v = Some c ∧ in_chain i c);
  co_own : ∀ p v c i, V !! p = Some v → v_chain v = Some c → in_chain i c → free d !! Z.to_nat i = Some 0;
  co_disj : ∀ p q v v' c c' i, V !! p = Some v → V !! q = Some v' → v_chain v = Some c → v_chain v' = Some c' →
    in_chain i c → in_chain i c' → p = q;
  co_chain : ∀ p v c x, V !! p = Some v → v_chain v = Some c → bufs !! v_b v = Some x →
    chain_ok d (v_b v) (v_w v) (b_blockno x) c;
  co_avail : vring (avail_ring d) (last_avail dv) (avail_idx d) Q;
  co_used : vring (u_id <$> used_ring d) (used_idx d) (used_cnt d) U;
  co_nodup : NoDup (Q ++ U);
  co_sep : ∀ h, h ∈ pending dv → h ∉ Q ++ U;
  co_heads : ∀ h, h ∈ Q ++ U ∨ h ∈ pending dv →
    ∃ p v c x, V !! p = Some v ∧ v_chain v = Some c ∧ v_pub v = true ∧ c_0 c = h ∧ bufs !! v_b v = Some x ∧ b_disk x = 1;
  co_stage : ∀ p v c x, V !! p = Some v → v_chain v = Some c → bufs !! v_b v = Some x →
    stage d dv Q U x (v_pub v) (c_0 c);
}.

(** ** Who runs, who sleeps *)

Definition needs_lock (a : point) : bool :=
  match a with Alloc | Publish _ | Notify _ | Poll _ => true | _ => false end.

Definition nfree (d : vdisk) : nat := length (filter (λ x, x ≠ 0) (free d)).

Record sched (s : driver) : Prop := {
  sc_lock : ∀ p r, vreqs s !! p = Some r → needs_lock (q_at r) = true → vlock s = Some (Thread p);
  sc_hold : ∀ p, vlock s = Some (Thread p) → ∃ r, vreqs s !! p = Some r ∧ needs_lock (q_at r) = true;
  sc_cell : ∀ p r c, vreqs s !! p = Some r → q_at r = Publish c → cell NUM (avail_ring (vd s)) (avail_idx (vd s)) = c_0 c;
  sc_buf : ∀ p r c x, vreqs s !! p = Some r → q_at r = SleepBuf c → vbufs s !! q_buf r = Some x → b_disk x = 1;
  sc_free : ∀ p r, vreqs s !! p = Some r → q_at r = SleepFree → (nfree (vd s) < 3)%nat;
}.

Definition vinv (m : machine) : Prop :=
  (∃ Q U, core (vd (drv m)) (vbufs (drv m)) (dev m) (views (drv m)) Q U) ∧ sched (drv m).

(** ** Waking *)

Lemma view_wake ch r : view_of (wake ch r) = view_of r.
Proof. unfold wake, view_of. destruct r as [b w []], ch as [|b']; cbn; try done. by destruct (b =? b'). Qed.

Lemma views_wakeup s ch : views (vwakeup s ch) = views s.
Proof.
  unfold views, vwakeup. cbn. rewrite <- map_fmap_compose. apply map_fmap_ext. intros p r _. apply view_wake.
Qed.

Lemma needs_lock_wake ch r : needs_lock (q_at (wake ch r)) = needs_lock (q_at r).
Proof. unfold wake. destruct r as [b w []], ch as [|b']; cbn; try done. by destruct (b =? b'). Qed.

(** A request that still sleeps was asleep before; one that is not yet published
    was so before. *)
Lemma wake_inv ch r : q_buf (wake ch r) = q_buf r ∧
  ((∃ c, q_at (wake ch r) = WakeBuf c) ∨ q_at (wake ch r) = WakeFree ∨ wake ch r = r).
Proof. unfold wake. destruct r as [b w []], ch as [|b']; cbn; eauto. destruct (b =? b'); cbn; eauto. Qed.

Lemma sched_wakeup s ch : sched s → sched (vwakeup s ch).
Proof.
  intros [S1 S2 S3 S4 S5].
  assert (Hl : ∀ p r, vreqs (vwakeup s ch) !! p = Some r → ∃ r0, r = wake ch r0 ∧ vreqs s !! p = Some r0).
  { intros p r Hr. cbn in Hr. rewrite lookup_fmap in Hr. destruct (vreqs s !! p) as [r0|]; [|done]. exists r0. by injection Hr as <-. }
  constructor.
  - intros p r (r0 & -> & Hr0)%Hl. rewrite needs_lock_wake. by apply S1.
  - intros p (r & Hr & Hn)%S2. exists (wake ch r). cbn. by rewrite lookup_fmap, Hr, needs_lock_wake.
  - intros p r c (r0 & -> & Hr0)%Hl Ha. destruct (wake_inv ch r0) as (_ & [[c' E]|[E|E]]); rewrite E in Ha; try done. by eapply S3.
  - intros p r c x (r0 & -> & Hr0)%Hl Ha. destruct (wake_inv ch r0) as (Eb & [[c' E]|[E|E]]); rewrite E in Ha; try done.
    rewrite Eb. by eapply S4.
  - intros p r (r0 & -> & Hr0)%Hl Ha. destruct (wake_inv ch r0) as (_ & [[c' E]|[E|E]]); rewrite E in Ha; try done. by eapply S5.
Qed.

(** Nobody is asleep on a channel that was just signalled. *)
Lemma wake_free_awake s p r : vreqs (vwakeup s ChFree) !! p = Some r → q_at r ≠ SleepFree.
Proof.
  cbn. rewrite lookup_fmap. destruct (vreqs s !! p) as [r0|]; [|done]. intros [= <-]. unfold wake. by destruct r0 as [b w []].
Qed.

Lemma wake_buf_awake s b p r c : vreqs (vwakeup s (ChBuf b)) !! p = Some r → q_buf r = b → q_at r ≠ SleepBuf c.
Proof.
  cbn. rewrite lookup_fmap. destruct (vreqs s !! p) as [r0|]; [|done]. intros [= <-]. unfold wake.
  destruct r0 as [b0 w []]; cbn; try done. destruct (Z.eqb_spec b0 b); cbn; [done|]. intros; congruence.
Qed.

Lemma vwakeup_idem s ch : vwakeup (vwakeup s ch) ch = vwakeup s ch.
Proof.
  unfold vwakeup, with_vreqs. cbn. f_equal. rewrite <- map_fmap_compose. apply map_fmap_ext. intros p r _. cbn.
  unfold wake. destruct r as [b w []], ch as [|b']; cbn; try done. destruct (b =? b') eqn:E; cbn; by rewrite ?E.
Qed.

Lemma abs_wake d ch r : abs_req d (wake ch r) = abs_req d r.
Proof. unfold abs_req, wake. destruct r as [b w []], ch as [|b']; cbn; try done. by destruct (b =? b'). Qed.
