(* ===== verification/VirtioProof.v ===== *)
(** * Every step of the disk driver and its device keeps the invariant. *)

From Stdlib Require Import ZifyBool.
From S2P Require Import Prelude Ring Bio Virtio VirtioSpec.

Local Notation vring := (ring NUM (2 ^ 16)).

(** ** Frames *)

(** [d] and [d'] agree on descriptor [i]. *)
Definition agree (d d' : vdisk) (i : Z) : Prop :=
  desc d' !! Z.to_nat i = desc d !! Z.to_nat i ∧ ops d' !! Z.to_nat i = ops d !! Z.to_nat i ∧
  info d' !! Z.to_nat i = info d !! Z.to_nat i.

Lemma chain_ok_frame d d' b w n c :
  chain_ok d b w n c → (∀ i, in_chain i c → agree d d' i) → chain_ok d' b w n c.
Proof.
  intros [H1 H2 H3 H4 H5 H6 H7] Ha. destruct (Ha (c_0 c)) as (A1 & A2 & A3); [by left|].
  destruct (Ha (c_1 c)) as (B1 & _); [by right; left|]. destruct (Ha (c_2 c)) as (C1 & _); [by right; right|].
  constructor; rewrite ?A1, ?A2, ?A3, ?B1, ?C1; done.
Qed.

Lemma status_frame d d' h : agree d d' h → status d' h = status d h.
Proof. intros (_ & _ & E). unfold status. by rewrite E. Qed.

Lemma stage_frame d d' dv dv' Q Q' U U' x x' pub h :
  stage d dv Q U x pub h → status d' h = status d h → b_disk x' = b_disk x →
  (h ∈ Q' ↔ h ∈ Q) → (h ∈ U' ↔ h ∈ U) → (h ∈ pending dv' ↔ h ∈ pending dv) →
  stage d' dv' Q' U' x' pub h.
Proof. unfold stage. intros Hs -> -> HQ HU HP. destruct pub; rewrite ?elem_of_app in *; tauto. Qed.

Lemma in_chain_0 c : in_chain (c_0 c) c. Proof. by left. Qed.
Lemma in_chain_1 c : in_chain (c_1 c) c. Proof. by right; left. Qed.
Lemma in_chain_2 c : in_chain (c_2 c) c. Proof. by right; right. Qed.
#[local] Hint Resolve in_chain_0 in_chain_1 in_chain_2 : core.

(** The flags after all three descriptors of a chain were marked. *)
Lemma three_lookup fr c (f : Z) i :
  zlen fr = NUM → (∀ i, in_chain i c → 0 ≤ i < NUM) → 0 ≤ i < NUM →
  <[Z.to_nat (c_2 c) := f]> (<[Z.to_nat (c_1 c) := f]> (<[Z.to_nat (c_0 c) := f]> fr)) !! Z.to_nat i =
  if decide (in_chain i c) then Some f else fr !! Z.to_nat i.
Proof.
  intros Lf Hr Hi. pose proof (Hr _ (in_chain_0 c)). pose proof (Hr _ (in_chain_1 c)). pose proof (Hr _ (in_chain_2 c)).
  unfold in_chain, zlen, NUM in *.
  destruct (decide (i = c_2 c)) as [->|N2]; [rewrite list_lookup_insert_eq by (rewrite !length_insert; lia); by rewrite decide_True by auto|].
  rewrite list_lookup_insert_ne by lia.
  destruct (decide (i = c_1 c)) as [->|N1]; [rewrite list_lookup_insert_eq by (rewrite !length_insert; lia); by rewrite decide_True by auto|].
  rewrite list_lookup_insert_ne by lia.
  destruct (decide (i = c_0 c)) as [->|N0]; [rewrite list_lookup_insert_eq by lia; by rewrite decide_True by auto|].
  rewrite list_lookup_insert_ne by lia. rewrite decide_False; [done|]. lia.
Qed.

Section core.
Context (d : vdisk) (bufs : gmap Z vbuf) (dv : device) (V : gmap Z view) (Q U : list Z).
Hypothesis HC : core d bufs dv V Q U.

(** Two requests have different first descriptors. *)
Lemma head_inj p q v v' c c' :
  V !! p = Some v → V !! q = Some v' → v_chain v = Some c → v_chain v' = Some c' → c_0 c = c_0 c' → p = q.
Proof using HC. intros Hp Hq Hc Hc' E. eapply (co_disj _ _ _ _ _ _ HC p q v v' c c' (c_0 c)); try done; rewrite ?E; auto. Qed.

Lemma chain_range p v c i : V !! p = Some v → v_chain v = Some c → in_chain i c → 0 ≤ i < NUM.
Proof using HC.
  intros Hp Hc Hi. destruct (co_buf _ _ _ _ _ _ HC p v Hp) as (x & Hx & _).
  by apply (ch_range _ _ _ _ _ (co_chain _ _ _ _ _ _ HC p v c x Hp Hc Hx)).
Qed.

(** The rings never fill up: the heads in one are different descriptors. *)
Lemma heads_bound (l : list Z) h : NoDup l → (∀ k, k ∈ l → k ∈ Q ++ U) → h ∉ l → 0 ≤ h < NUM → zlen l < NUM.
Proof using HC.
  intros Hnd Hl Hh Hr. assert (Hs : h :: l ⊆+ seqZ 0 NUM).
  { apply NoDup_submseteq; [by constructor|]. intros k [->|Hk]%elem_of_cons; apply elem_of_seqZ; [lia|].
    destruct (co_heads _ _ _ _ _ _ HC k) as (p & v & c & x & Hp & Hc & _ & <- & _); [left; auto|].
    pose proof (chain_range p v c (c_0 c) Hp Hc ltac:(auto)). lia. }
  apply submseteq_length in Hs. rewrite length_seqZ in Hs. simpl in Hs. unfold zlen, NUM in *. lia.
Qed.

(** ** A new request *)
Lemma core_add p b w x :
  V !! p = None → (∀ q v, V !! q = Some v → v_b v ≠ b) → bufs !! b = Some x → 0 ≤ b_blockno x < 2 ^ 31 →
  core d bufs dv (<[p := mk_view b w None false]> V) Q U.
Proof using HC.
  intros Hp Hb Hx Hn. pose proof HC as [? ? ? ? ? ? C1 C2 C3 C4 C5 C6 C7 ? ? ? ? C8 C9].
  assert (Hl : ∀ q v, <[p := mk_view b w None false]> V !! q = Some v →
            (q = p ∧ v = mk_view b w None false) ∨ (q ≠ p ∧ V !! q = Some v)).
  { intros q v. rewrite lookup_insert_Some. naive_solver. }
  assert (Hk : ∀ q v, V !! q = Some v → <[p := mk_view b w None false]> V !! q = Some v).
  { intros q v Hq. rewrite lookup_insert_ne; [done|]. intros ->. congruence. }
  constructor; try done.
  - intros q v [[-> ->]|[_ Hq]]%Hl; [done|by eapply C1].
  - intros q v [[-> ->]|[_ Hq]]%Hl; [by exists x|by eapply C2].
  - intros q q' v v' [[-> ->]|[_ Hq]]%Hl [[-> ->]|[_ Hq']]%Hl E; cbn in E; [done|exfalso; by eapply Hb|exfalso; by eapply Hb|by eapply C3].
  - intros i Hi. destruct (C4 i Hi) as [E|(E & q & v & c & Hq & Hr)]; [by left|right]. split; [done|]. exists q, v, c. auto.
  - intros q v c i [[-> ->]|[_ Hq]]%Hl Hc; [done|by eapply C5].
  - intros q q' v v' c c' i [[-> ->]|[_ Hq]]%Hl [[-> ->]|[_ Hq']]%Hl; try done. by apply C6.
  - intros q v c y [[-> ->]|[_ Hq]]%Hl; [done|by eapply C7].
  - intros h Hh. destruct (C8 h Hh) as (q & v & c & y & Hq & Hr). exists q, v, c, y. auto.
  - intros q v c y [[-> ->]|[_ Hq]]%Hl; [done|by eapply C9].
Qed.

(** ** A request with its chain *)

Lemma core_format p b w x c d' :
  V !! p = Some (mk_view b w None false) → bufs !! b = Some x →
  (∀ i, in_chain i c → free d !! Z.to_nat i = Some 1) →
  free d' = <[Z.to_nat (c_2 c) := 0]> (<[Z.to_nat (c_1 c) := 0]> (<[Z.to_nat (c_0 c) := 0]> (free d))) →
  zlen (desc d') = NUM → zlen (info d') = NUM → zlen (ops d') = NUM →
  (∀ i, 0 ≤ i → ¬ in_chain i c → agree d d' i) → chain_ok d' b w (b_blockno x) c → status d' (c_0 c) = 255 →
  vring (avail_ring d') (last_avail dv) (avail_idx d') Q →
  used_ring d' = used_ring d → used_idx d' = used_idx d → used_cnt d' = used_cnt d →
  core d' (<[b := set_b_disk x 1]> bufs) dv (<[p := mk_view b w (Some c) false]> V) Q U.
Proof using HC.
  intros Hp Hx Hfr Ef L1 L2 L3 Hag Hch Hst Hav Eu1 Eu2 Eu3.
  pose proof HC as [? Lf ? ? Cb Cs C1 C2 C3 C4 C5 C6 C7 ? C0 ? ? C8 C9]. set (nv := mk_view b w (Some c) false) in *.
  assert (Hl : ∀ q v, <[p := nv]> V !! q = Some v → (q = p ∧ v = nv) ∨ (q ≠ p ∧ V !! q = Some v)).
  { intros q v. rewrite lookup_insert_Some. naive_solver. }
  assert (Hne : ∀ q v, V !! q = Some v → q ≠ p → v_b v ≠ b).
  { intros q v Hq Hqp E. apply Hqp. by eapply (C3 q p v _ Hq Hp). }
  assert (Hnc : ∀ q v c', V !! q = Some v → v_chain v = Some c' → ∀ i, in_chain i c' → ¬ in_chain i c).
  { intros q v c' Hq Hc' i Hi Hic. pose proof (C5 q v c' i Hq Hc' Hi). rewrite Hfr in *; done. }
  assert (Hback : ∀ q v y, V !! q = Some v → <[b := set_b_disk x 1]> bufs !! v_b v = Some y → q ≠ p → bufs !! v_b v = Some y).
  { intros q v y Hq Hy Hqp. rewrite lookup_insert_ne in Hy; [done|]. intros E. by apply (Hne q v Hq Hqp). }
  assert (Hfree : ∀ i, 0 ≤ i < NUM → free d' !! Z.to_nat i = if decide (in_chain i c) then Some 0 else free d !! Z.to_nat i).
  { intros i Hi. rewrite Ef. apply three_lookup; [done|apply Hch|done]. }
  constructor; try done.
  - rewrite Ef. by rewrite !zlen_insert.
  - intros b' y. rewrite lookup_insert_Some. intros [[<- <-]|[_ Hy]]; [cbn; by eapply Cb|by eapply Cb].
  - intros q v [[-> ->]|[_ Hq]]%Hl; [done|by eapply C1].
  - intros q v [[-> ->]|[Hqp Hq]]%Hl.
    + exists (set_b_disk x 1). cbn. rewrite lookup_insert_eq. split; [done|].
      destruct (C2 p _ Hp) as (x' & Hx' & Hn). cbn in Hx'. congruence.
    + destruct (C2 q v Hq) as (y & Hy & Hn). exists y. rewrite lookup_insert_ne; [done|]. intros E. by apply (Hne q v Hq Hqp).
  - intros q q' v v' [[-> ->]|[Hqp Hq]]%Hl [[-> ->]|[Hqp' Hq']]%Hl E; cbn in E; [done| | |by eapply C3]; exfalso;
      [by apply (Hne q' v' Hq' Hqp')|by apply (Hne q v Hq Hqp)].
  - intros i Hi. rewrite Hfree by done. destruct (decide (in_chain i c)) as [Hic|Hic].
    + right. split; [done|]. exists p, nv, c. by rewrite lookup_insert_eq.
    + destruct (C4 i Hi) as [E|(E & q & v & c' & Hq & Hc' & Hic')]; [by left|right]. split; [done|]. exists q, v, c'.
      split; [|done]. rewrite lookup_insert_ne; [done|]. intros <-. rewrite Hp in Hq. by injection Hq as <-.
  - intros q v c' i [[-> ->]|[Hqp Hq]]%Hl Hc' Hi.
    + cbn in Hc'. injection Hc' as <-. rewrite Hfree by (by eapply ch_range). by rewrite decide_True.
    + rewrite Hfree by (by eapply chain_range). rewrite decide_False by (by eapply Hnc). by eapply C5.
  - intros q q' v v' c1 c2 i [[-> ->]|[Hqp Hq]]%Hl [[-> ->]|[Hqp' Hq']]%Hl E1 E2 I1 I2; [done| | |by eapply (C6 q q' v v')]; exfalso.
    + cbn in E1. injection E1 as <-. by apply (Hnc q' v' c2 Hq' E2 i).
    + cbn in E2. injection E2 as <-. by apply (Hnc q v c1 Hq E1 i).
  - intros q v c' y [[-> ->]|[Hqp Hq]]%Hl Hc' Hy.
    + cbn in Hc', Hy. injection Hc' as <-. rewrite lookup_insert_eq in Hy. by injection Hy as <-.
    + eapply chain_ok_frame; [by eapply C7, (Hback q v)|]. intros i Hi. apply Hag; [|by eapply Hnc].
      pose proof (chain_range q v c' i Hq Hc' Hi). lia.
  - by rewrite Eu1, Eu2, Eu3.
  - intros h Hh. destruct (C8 h Hh) as (q & v & c' & y & Hq & Hc' & Hpub & Hh' & Hy & Hd). exists q, v, c', y.
    assert (q ≠ p) by (intros ->; rewrite Hp in Hq; by injection Hq as <-).
    rewrite !lookup_insert_ne; [done| |done]. intros E. by apply (Hne q v).
  - intros q v c' y [[-> ->]|[Hqp Hq]]%Hl Hc' Hy.
    + cbn in Hc', Hy. injection Hc' as <-. rewrite lookup_insert_eq in Hy. injection Hy as <-. cbn.
      assert (Hno : ∀ h, h ∈ Q ++ U ∨ h ∈ pending dv → h ≠ c_0 c).
      { intros h Hh ->. destruct (C8 _ Hh) as (q & v & c' & y & Hq & Hc' & _ & Hh' & _).
        apply (Hnc q v c' Hq Hc' (c_0 c)); [rewrite <- Hh'|]; auto. }
      split; [done|]. split; [intros Hin; eapply Hno; eauto|]. split; [intros Hin; eapply Hno; eauto|done].
    + eapply stage_frame; [by eapply C9, (Hback q v)| | |done..].
      * apply status_frame. apply Hag; [|eapply Hnc; eauto]. pose proof (chain_range q v c' (c_0 c') Hq Hc' ltac:(auto)). lia.
      * done.
Qed.

(** ** Publishing: the head enters the available ring *)
Lemma core_publish p b w c d' :
  V !! p = Some (mk_view b w (Some c) false) →
  cell NUM (avail_ring d) (avail_idx d) = c_0 c → d' = with_avail d (u16 (avail_idx d + 1)) (avail_ring d) →
  core d' bufs dv (<[p := mk_view b w (Some c) true]> V) (Q ++ [c_0 c]) U.
Proof using HC.
  intros Hp Hcell ->. pose proof HC as [? ? ? ? Cb Cs C1 C2 C3 C4 C5 C6 C7 Ca ? Cn Cp C8 C9].
  set (nv := mk_view b w (Some c) true) in *.
  destruct (C2 p _ Hp) as (x & Hx & _). cbn in Hx.
  destruct (C9 p _ c x Hp eq_refl Hx) as (Hd & Hno & Hnp & Hst).
  assert (Hl : ∀ q v, <[p := nv]> V !! q = Some v → ∃ v0, V !! q = Some v0 ∧ v_b v0 = v_b v ∧ v_w v0 = v_w v ∧
             v_chain v0 = v_chain v ∧ ((q = p ∧ v = nv) ∨ (q ≠ p ∧ v = v0))).
  { intros q v. rewrite lookup_insert_Some. intros [[<- <-]|[Hqp Hq]]; [eexists; split; [exact Hp|]|exists v]; split_and!; auto. }
  assert (Hk : ∀ q v, V !! q = Some v → ∃ v1, <[p := nv]> V !! q = Some v1 ∧ v_b v1 = v_b v ∧ v_chain v1 = v_chain v ∧
             (v_pub v = true → v_pub v1 = true)).
  { intros q v Hq. destruct (decide (q = p)) as [->|Hqp].
    - exists nv. rewrite lookup_insert_eq. rewrite Hp in Hq. injection Hq as <-. done.
    - exists v. by rewrite lookup_insert_ne. }
  rewrite elem_of_app in Hno.
  constructor; try done.
  - intros q v (v0 & Hq & _ & _ & Ec & [[-> ->]|[_ ->]])%Hl; [done|by eapply C1].
  - intros q v (v0 & Hq & <- & _)%Hl. by eapply C2.
  - intros q q' v v' (v0 & Hq & <- & _)%Hl (v0' & Hq' & <- & _)%Hl. by apply C3.
  - intros i Hi. destruct (C4 i Hi) as [E|(E & q & v & c' & Hq & Hc' & Hr)]; [by left|right]. split; [done|].
    destruct (Hk q v Hq) as (v1 & Hq1 & _ & Ec & _). exists q, v1, c'. by rewrite Ec.
  - intros q v c' i (v0 & Hq & _ & _ & <- & _)%Hl. by apply (C5 q v0).
  - intros q q' v v' c1 c2 i (v0 & Hq & _ & _ & <- & _)%Hl (v0' & Hq' & _ & _ & <- & _)%Hl. by apply (C6 q q' v0 v0').
  - intros q v c' y (v0 & Hq & <- & <- & <- & _)%Hl Hc' Hy. eapply chain_ok_frame; [by apply (C7 q v0 c' y)|done].
  - assert (zlen Q < NUM).
    { apply (heads_bound Q (c_0 c)); [by apply (proj1 (NoDup_app _ _) Cn)|intros k; rewrite elem_of_app; auto|tauto|]. eapply chain_range; [exact Hp|done|auto]. }
    pose proof (ring_push NUM (2 ^ 16) _ _ _ _ (c_0 c) Ca ltac:(done)) as Hr.
    rewrite list_insert_id in Hr; [done|]. unfold cell in Hcell.
    pose proof (rg_len _ _ _ _ _ _ Ca) as Hlen. unfold zlen in Hlen.
    destruct (lookup_lt_is_Some_2 (avail_ring d) (Z.to_nat (avail_idx d mod NUM))) as [y Hy].
    { pose proof (Z.mod_pos_bound (avail_idx d) NUM ltac:(done)). lia. }
    rewrite Hy in Hcell |- *. cbn in Hcell. by subst.
  - rewrite <- app_assoc. apply NoDup_app in Cn as (N1 & N2 & N3). apply NoDup_app. split; [done|]. split.
    + intros k Hk1 [->|Hk2]%elem_of_cons; [tauto|by eapply N2].
    + constructor; [tauto|done].
  - intros h Hh. rewrite !elem_of_app, list_elem_of_singleton. specialize (Cp h Hh). rewrite elem_of_app in Cp.
    intros [[?| ->]|?]; [tauto|done|tauto].
  - intros h Hh. assert ((h ∈ Q ++ U ∨ h ∈ pending dv) ∨ h = c_0 c) as [Hh'| ->].
    { rewrite !elem_of_app, list_elem_of_singleton in Hh. rewrite elem_of_app. tauto. }
    + destruct (C8 h Hh') as (q & v & c' & y & Hq & Hc' & Hpub & Ehd & Hy & Hdy).
      destruct (Hk q v Hq) as (v1 & Hq1 & Eb & Ec & Hp1). exists q, v1, c', y. rewrite Eb, Ec. auto 10.
    + exists p, nv, c, x. by rewrite lookup_insert_eq.
  - intros q v c' y (v0 & Hq & <- & _ & <- & [[-> ->]|[Hqp ->]])%Hl Hc' Hy.
    + rewrite Hp in Hq. injection Hq as <-. cbn in Hc', Hy. injection Hc' as <-. assert (y = x) as -> by congruence.
      cbn. left. rewrite elem_of_app, list_elem_of_singleton. auto.
    + eapply stage_frame; [by eapply C9|done..| |done|done].
      rewrite elem_of_app, list_elem_of_singleton. split; [|auto]. intros [?|E]; [done|]. exfalso. apply Hqp.
      by eapply (head_inj q p v0 _ c' c Hq Hp).
Qed.

(** ** The device takes a head from the available ring *)
Lemma core_fetch h Q' :
  Q = h :: Q' →
  core d bufs (mk_device (u16 (last_avail dv + 1)) ({[h]} ∪ pending dv) (sectors dv)) V Q' U.
Proof using HC.
  intros E. pose proof HC as [? ? ? ? Cb Cs C1 C2 C3 C4 C5 C6 C7 Ca ? Cn Cp C8 C9]. rewrite E in Ca, Cn, Cp, C8, C9. clear E HC.
  cbn [app] in *. apply NoDup_cons in Cn as [Hh Cn]. constructor; try done; cbn [pending].
  - by apply ring_pop in Ca as [_ Ca]; [|exact _].
  - intros k [->%elem_of_singleton|Hk]%elem_of_union; [done|]. intros Hin. apply (Cp k Hk). by right.
  - intros k Hk. apply C8. rewrite elem_of_cons. rewrite elem_of_union, elem_of_singleton in Hk. tauto.
  - intros p v c x Hp Hc Hx. specialize (C9 p v c x Hp Hc Hx). unfold stage in *. cbn [pending].
    assert (Hin : c_0 c ∈ {[h]} ∪ pending dv ↔ c_0 c = h ∨ c_0 c ∈ pending dv) by (rewrite elem_of_union, elem_of_singleton; done).
    assert (HinQ : c_0 c ∈ h :: Q' ↔ c_0 c = h ∨ c_0 c ∈ Q') by apply elem_of_cons.
    assert (HinQU : c_0 c ∈ h :: Q' ++ U ↔ c_0 c = h ∨ c_0 c ∈ Q' ++ U) by apply elem_of_cons.
    destruct (v_pub v); tauto.
Qed.

(** ** The device reports a request *)
Lemma core_report h p v c x x' secs st len :
  h ∈ pending dv → V !! p = Some v → v_chain v = Some c → c_0 c = h → bufs !! v_b v = Some x →
  b_disk x' = b_disk x → b_blockno x' = b_blockno x → zlen (b_data x') = BSIZE →
  (∀ k y, secs !! k = Some y → length y = 512%nat) → st ≠ 255 →
  core (report d h h st len) (<[v_b v := x']> bufs)
    (mk_device (last_avail dv) (pending dv ∖ {[h]}) secs) V Q (U ++ [h]).
Proof using HC.
  intros Hh Hp Hc Ehd Hx Ed En El Hs Hst.
  pose proof HC as [? ? Li ? Cb Cs C1 C2 C3 C4 C5 C6 C7 Ca Cu Cn Cp C8 C9].
  pose proof (chain_range p v c (c_0 c) Hp Hc ltac:(auto)) as Hr. rewrite Ehd in Hr.
  assert (Hne : ∀ q v', V !! q = Some v' → q ≠ p → v_b v' ≠ v_b v).
  { intros q v' Hq Hqp E. apply Hqp. by eapply (C3 q p v' v). }
  assert (Hbuf : ∀ q v' y, V !! q = Some v' → <[v_b v := x']> bufs !! v_b v' = Some y →
            ∃ y0, bufs !! v_b v' = Some y0 ∧ b_disk y = b_disk y0 ∧ b_blockno y = b_blockno y0).
  { intros q v' y Hq. rewrite lookup_insert_Some. intros [[<- <-]|[_ Hy]]; [by exists x|by exists y]. }
  assert (Hbuf' : ∀ b y0, bufs !! b = Some y0 → ∃ y, <[v_b v := x']> bufs !! b = Some y ∧ b_disk y = b_disk y0 ∧ b_blockno y = b_blockno y0).
  { intros b y0 Hy. destruct (decide (b = v_b v)) as [->|]; [exists x'; rewrite lookup_insert_eq; split_and!; congruence|].
    exists y0. by rewrite lookup_insert_ne. }
  specialize (Cp h Hh) as Hnot. rewrite elem_of_app in Hnot.
  assert (Hag : ∀ i, i ≠ h → 0 ≤ i → agree d (report d h h st len) i).
  { intros i Hi Hi0. unfold agree, report. cbn. rewrite list_lookup_alter_ne by lia. done. }
  assert (Hstat : status (report d h h st len) h = st).
  { unfold status, report. cbn. rewrite list_lookup_alter_eq. destruct (lookup_lt_is_Some_2 (info d) (Z.to_nat h)) as [y ->]; [unfold zlen, NUM in *; lia|done]. }
  assert (Hother : ∀ q v' c', V !! q = Some v' → v_chain v' = Some c' → q ≠ p → ∀ i, in_chain i c' → i ≠ h).
  { intros q v' c' Hq Hc' Hqp i Hi ->. apply Hqp. eapply (C6 q p v' v c' c h); try done. rewrite <- Ehd. auto. }
  constructor; try done.
  - cbn. unfold zlen in *. by rewrite length_alter.
  - intros b y. rewrite lookup_insert_Some. intros [[<- <-]|[_ Hy]]; [done|by eapply Cb].
  - intros q v' Hq. destruct (C2 q v' Hq) as (y0 & Hy0 & Hn). destruct (Hbuf' _ _ Hy0) as (y & Hy & _ & E). exists y. by rewrite E.
  - intros q v' c' y Hq Hc' (y0 & Hy0 & _ & ->)%(Hbuf q). 2: done. specialize (C7 q v' c' y0 Hq Hc' Hy0).
    destruct (decide (q = p)) as [->|Hqp].
    + assert (v' = v) as -> by congruence. assert (c' = c) as -> by congruence. destruct C7 as [A1 A2 A3 A4 A5 A6 [st0 A7]].
      constructor; try done. exists st. cbn. rewrite Ehd in *. by rewrite list_lookup_alter_eq, A7.
    + eapply chain_ok_frame; [done|]. intros i Hi. apply Hag; [by eapply Hother|].
      pose proof (chain_range q v' c' i Hq Hc' Hi). lia.
  - assert (zlen U < NUM).
    { apply (heads_bound U h); [by apply (proj1 (NoDup_app _ _) Cn)|intros k; rewrite elem_of_app; auto|tauto|done]. }
    cbn. rewrite list_fmap_insert. cbn. by apply ring_push.
  - cbn. apply NoDup_app in Cn as (N1 & N2 & N3). rewrite app_assoc. apply NoDup_app. split; [by apply NoDup_app|].
    split; [|apply NoDup_singleton]. intros k Hk ->%list_elem_of_singleton. rewrite elem_of_app in Hk. tauto.
  - cbn. intros k [Hk Hkh]%elem_of_difference. specialize (Cp k Hk). rewrite !elem_of_app, list_elem_of_singleton. rewrite elem_of_app in Cp.
    rewrite elem_of_singleton in Hkh. tauto.
  - cbn. intros k Hk. destruct (C8 k) as (q & v' & c' & y0 & Hq & Hc' & Hpub & Ek & Hy0 & Hd).
    { rewrite !elem_of_app, list_elem_of_singleton, elem_of_difference in Hk. rewrite elem_of_app. destruct Hk as [[?|[?| ->]]|[? _]]; tauto. }
    destruct (Hbuf' _ _ Hy0) as (y & Hy & Edy & _). exists q, v', c', y. split_and!; congruence || done.
  - intros q v' c' y Hq Hc' Hy. destruct (Hbuf q v' y Hq Hy) as (y0 & Hy0 & Edy & _). specialize (C9 q v' c' y0 Hq Hc' Hy0).
    destruct (decide (q = p)) as [->|Hqp].
    + assert (v' = v) as -> by congruence. assert (c' = c) as -> by congruence. rewrite Ehd in *. unfold stage in *.
      destruct (v_pub v); [|by destruct C9 as (_ & _ & ? & _)]. right. left. rewrite Edy, Hstat, elem_of_app, list_elem_of_singleton.
      split; [|auto]. destruct C9 as [[? _]|[[? _]|(_ & _ & ? & _)]]; done.
    + assert (c_0 c' ≠ h) by (eapply Hother; eauto). pose proof (chain_range q v' c' (c_0 c') Hq Hc' ltac:(auto)).
      eapply stage_frame; [exact C9|apply status_frame, Hag; [done|lia]|done|done| |].
      * rewrite elem_of_app, list_elem_of_singleton. tauto.
      * cbn. rewrite elem_of_difference, elem_of_singleton. tauto.
Qed.

(** ** The handler sees the end of a request *)
Lemma core_seen h U' p v c x :
  U = h :: U' → V !! p = Some v → v_chain v = Some c → c_0 c = h → bufs !! v_b v = Some x → v_pub v = true →
  status d h = 0 →
  core (with_used_idx d (u16 (used_idx d + 1))) (<[v_b v := set_b_disk x 0]> bufs) dv V Q U'.
Proof using HC.
  intros EU Hp Hc Ehd Hx Hpub Hst.
  pose proof HC as [? ? ? ? Cb Cs C1 C2 C3 C4 C5 C6 C7 Ca Cu Cn Cp C8 C9]. rewrite EU in Cu, Cn, Cp, C8, C9.
  apply NoDup_app in Cn as (N1 & N2 & [N3 N4]%NoDup_cons).
  assert (Hne : ∀ q v', V !! q = Some v' → q ≠ p → v_b v' ≠ v_b v).
  { intros q v' Hq Hqp E. apply Hqp. by eapply (C3 q p v' v). }
  assert (HhQ : h ∉ Q) by (intros Hin; apply (N2 h Hin), elem_of_cons; by left).
  assert (Hhp : h ∉ pending dv) by (intros Hin; apply (Cp h Hin), elem_of_app; right; apply elem_of_cons; by left).
  constructor; try done.
  - intros b y. rewrite lookup_insert_Some. intros [[<- <-]|[_ Hy]]; [cbn; by eapply Cb|by eapply Cb].
  - intros q v' Hq. destruct (C2 q v' Hq) as (y & Hy & Hn). destruct (decide (v_b v' = v_b v)) as [E|E].
    + exists (set_b_disk x 0). rewrite E, lookup_insert_eq. split; [done|]. rewrite E in Hy. cbn. congruence.
    + exists y. by rewrite lookup_insert_ne.
  - intros q v' c' y Hq Hc' Hy. rewrite lookup_insert_Some in Hy. destruct Hy as [[E <-]|[_ Hy]].
    + eapply chain_ok_frame; [apply (C7 q v' c' x Hq Hc'); congruence|done].
    + eapply chain_ok_frame; [by apply (C7 q v' c' y)|done].
  - cbn. by apply ring_pop in Cu as [_ Cu]; [|exact _].
  - apply NoDup_app. split; [done|]. split; [|done]. intros k Hk Hk'. apply (N2 k Hk), elem_of_cons. by right.
  - intros k Hk. specialize (Cp k Hk). rewrite !elem_of_app, elem_of_cons in *. tauto.
  - intros k Hk. destruct (C8 k) as (q & v' & c' & y & Hq & Hc' & Hpub' & Ek & Hy & Hd).
    { rewrite !elem_of_app, elem_of_cons in *. tauto. }
    assert (k ≠ h) by (intros ->; rewrite elem_of_app in Hk; tauto).
    exists q, v', c', y. rewrite lookup_insert_ne; [done|]. intros E. apply (Hne q v' Hq); [|done]. intros ->. congruence.
  - intros q v' c' y Hq Hc' Hy. destruct (decide (q = p)) as [->|Hqp].
    + assert (v' = v) as -> by congruence. assert (c' = c) as -> by congruence. rewrite lookup_insert_eq in Hy. injection Hy as <-.
      unfold stage. rewrite Hpub, Ehd. right. right. cbn. rewrite elem_of_app. tauto.
    + rewrite lookup_insert_ne in Hy by (intros E; by apply (Hne q v' Hq Hqp)).
      eapply stage_frame; [by eapply (C9 q v' c' y)|done..| |done]. rewrite elem_of_cons.
      assert (c_0 c' ≠ h); [|tauto]. intros E. apply Hqp. eapply (head_inj q p v' v c' c); congruence.
Qed.

(** ** The caller gives its chain back *)
Lemma core_release p v c x d' :
  V !! p = Some v → v_chain v = Some c → v_pub v = true → bufs !! v_b v = Some x → b_disk x ≠ 1 →
  (∀ i, 0 ≤ i < NUM → free d' !! Z.to_nat i = if decide (in_chain i c) then Some 1 else free d !! Z.to_nat i) →
  zlen (free d') = NUM → zlen (desc d') = NUM → zlen (info d') = NUM → zlen (ops d') = NUM →
  (∀ i, 0 ≤ i → ¬ in_chain i c → agree d d' i) →
  avail_ring d' = avail_ring d → avail_idx d' = avail_idx d →
  used_ring d' = used_ring d → used_idx d' = used_idx d → used_cnt d' = used_cnt d →
  core d' bufs dv (delete p V) Q U.
Proof using HC.
  intros Hp Hc Hpub Hx Hdx Hfree L0 L1 L2 L3 Hag E1 E2 E3 E4 E5.
  pose proof HC as [? ? ? ? Cb Cs C1 C2 C3 C4 C5 C6 C7 Ca Cu Cn Cp C8 C9].
  assert (Hl : ∀ q v', delete p V !! q = Some v' → q ≠ p ∧ V !! q = Some v').
  { intros q v'. rewrite lookup_delete_Some. naive_solver. }
  assert (Hnc : ∀ q v' c', V !! q = Some v' → v_chain v' = Some c' → q ≠ p → ∀ i, in_chain i c' → ¬ in_chain i c).
  { intros q v' c' Hq Hc' Hqp i Hi Hic. apply Hqp. by eapply (C6 q p v' v c' c i). }
  assert (Hag' : ∀ q v' c' i, V !! q = Some v' → v_chain v' = Some c' → q ≠ p → in_chain i c' → agree d d' i).
  { intros q v' c' i Hq Hc' Hqp Hi. pose proof (chain_range q v' c' i Hq Hc' Hi). apply Hag; [lia|by eapply Hnc]. }
  constructor; try done.
  - intros q v' [_ Hq]%Hl. by apply (C1 q).
  - intros q v' [_ Hq]%Hl. by apply (C2 q).
  - intros q q' v1 v2 [_ Hq]%Hl [_ Hq']%Hl. by apply C3.
  - intros i Hi. rewrite Hfree by done. destruct (decide (in_chain i c)) as [Hic|Hic]; [by left|].
    destruct (C4 i Hi) as [E|(E & q & v' & c' & Hq & Hc' & Hr)]; [by left|right]. split; [done|]. exists q, v', c'.
    split; [|done]. rewrite lookup_delete_ne; [done|]. intros <-. congruence.
  - intros q v' c' i [Hqp Hq]%Hl Hc' Hi. rewrite Hfree by (by eapply chain_range). rewrite decide_False by (by eapply Hnc). by eapply C5.
  - intros q q' v1 v2 c1 c2 i [_ Hq]%Hl [_ Hq']%Hl. by apply (C6 q q' v1 v2).
  - intros q v' c' y [Hqp Hq]%Hl Hc' Hy. eapply chain_ok_frame; [by eapply (C7 q v')|]. intros i Hi. by eapply Hag'.
  - by rewrite E1, E2.
  - by rewrite E3, E4, E5.
  - intros h Hh. destruct (C8 h Hh) as (q & v' & c' & y & Hq & Hc' & Hpub' & Ek & Hy & Hd).
    exists q, v', c', y. rewrite lookup_delete_ne; [done|]. intros <-. congruence.
  - intros q v' c' y [Hqp Hq]%Hl Hc' Hy. eapply stage_frame; [by eapply (C9 q v' c' y)| |done..].
    apply status_frame. by eapply Hag'.
Qed.

(** ** Changes that no request sees *)
Lemma core_touch b y :
  (∀ q v, V !! q = Some v → v_b v ≠ b) → zlen (b_data y) = BSIZE → core d (<[b := y]> bufs) dv V Q U.
Proof using HC.
  intros Hb Hl. pose proof HC as [? ? ? ? Cb Cs C1 C2 C3 C4 C5 C6 C7 Ca Cu Cn Cp C8 C9].
  assert (Hlk : ∀ q v, V !! q = Some v → <[b := y]> bufs !! v_b v = bufs !! v_b v).
  { intros q v Hq. rewrite lookup_insert_ne; [done|]. intros E. by apply (Hb q v). }
  constructor; try done.
  - intros b' x. rewrite lookup_insert_Some. intros [[<- <-]|[_ Hx]]; [done|by eapply Cb].
  - intros q v Hq. rewrite (Hlk q v Hq). by eapply C2.
  - intros q v c x Hq Hc. rewrite (Hlk q v Hq). by apply (C7 q).
  - intros h Hh. destruct (C8 h Hh) as (q & v & c & x & Hq & Hr). exists q, v, c, x. by rewrite (Hlk q v Hq).
  - intros q v c x Hq Hc. rewrite (Hlk q v Hq). by apply (C9 q).
Qed.

Lemma core_desc ds :
  zlen ds = NUM → (∀ i, 0 ≤ i → free d !! Z.to_nat i = Some 0 → ds !! Z.to_nat i = desc d !! Z.to_nat i) →
  core (with_desc d ds) bufs dv V Q U.
Proof using HC.
  intros Hl Hds. pose proof HC as [? ? ? ? Cb Cs C1 C2 C3 C4 C5 C6 C7 Ca Cu Cn Cp C8 C9].
  constructor; try done. intros q v c x Hq Hc Hx. eapply chain_ok_frame; [by apply (C7 q v c x)|].
  intros i Hi. split; [|done]. pose proof (chain_range q v c i Hq Hc Hi). apply Hds; [lia|]. by eapply C5.
Qed.
End core.

(** ** The code of the disk driver on good states: it runs without panic or fault,
    and keeps the invariant. *)


(** ** The free flags *)

Definition flags_ok (fr : list Z) : Prop := zlen fr = NUM ∧ Forall (λ x, x = 0 ∨ x = 1) fr.

Definition ones (fr : list Z) : nat := length (filter (λ x, x ≠ 0) fr).

Lemma ones_insert fr k : fr !! k = Some 1 → ones fr = S (ones (<[k := 0]> fr)).
Proof.
  unfold ones. revert k. induction fr as [|x fr IH]; intros [|k] Hk; [done..| |].
  - injection Hk as ->. done.
  - change (<[S k := 0]> (x :: fr)) with (x :: <[k := 0]> fr). rewrite !filter_cons. specialize (IH k Hk).
    destruct (decide (x ≠ 0)); cbn [length]; congruence.
Qed.

Lemma ones_zero fr : (∀ j, (j < length fr)%nat → fr !! j = Some 0) → ones fr = O.
Proof.
  unfold ones. induction fr as [|x fr IH]; intros H; [done|].
  assert (x = 0) as -> by (specialize (H O ltac:(simpl; lia)); by injection H). rewrite filter_cons_False by auto.
  apply IH. intros j Hj. apply (H (S j)). simpl. lia.
Qed.

Lemma flags_take fr k : flags_ok fr → flags_ok (<[k := 0]> fr).
Proof. intros [H1 H2]. split; [by rewrite zlen_insert|]. apply Forall_insert; auto. Qed.

Lemma alloc_desc_loop_ok n fr i :
  flags_ok fr → 0 ≤ i → i + Z.of_nat n = NUM →
  (alloc_desc_loop n fr i = Ok (-1, fr) ∧ ∀ j, i ≤ j < NUM → fr !! Z.to_nat j = Some 0) ∨
  (∃ k, i ≤ k < NUM ∧ fr !! Z.to_nat k = Some 1 ∧ alloc_desc_loop n fr i = Ok (k, <[Z.to_nat k := 0]> fr)).
Proof.
  intros [Hl Hf]. revert i. induction n as [|n IH]; intros i Hi Hn; cbn [alloc_desc_loop].
  { left. split; [done|]. lia. }
  destruct (arr_get_in_range fr i ltac:(lia)) as (f & Ef & ->). rewrite bind_Ok.
  destruct (Forall_lookup_1 _ _ _ _ Hf Ef) as [-> | ->].
  - destruct (IH (i + 1) ltac:(lia) ltac:(lia)) as [[E Hz]|(k & Hk & Ek & E)]; [left|right]; cbn.
    + split; [done|]. intros j Hj. destruct (decide (j = i)) as [->|]; [done|]. apply Hz. lia.
    + exists k. split; [lia|done].
  - right. exists i. cbn. rewrite arr_set_in_range by lia. split; [lia|done].
Qed.

Lemma alloc_desc_ok s :
  flags_ok (free (vd s)) →
  (alloc_desc s = Ok (-1, s) ∧ ones (free (vd s)) = O) ∨
  (∃ k, 0 ≤ k < NUM ∧ free (vd s) !! Z.to_nat k = Some 1 ∧
     alloc_desc s = Ok (k, with_vd s (with_free (vd s) (<[Z.to_nat k := 0]> (free (vd s)))))).
Proof.
  intros Hf. unfold alloc_desc.
  destruct (alloc_desc_loop_ok (Z.to_nat NUM) (free (vd s)) 0 Hf ltac:(lia) ltac:(done)) as [[-> Hz]|(k & Hk & Ek & ->)];
    rewrite bind_Ok; [left|right; by exists k].
  split; [by destruct s as [[]]|]. apply ones_zero. intros j Hj. destruct Hf as [Hl _]. unfold zlen in Hl.
  specialize (Hz (Z.of_nat j) ltac:(lia)). by rewrite Nat2Z.id in Hz.
Qed.

(** ** Giving descriptors back *)

Lemma free_desc_ok s i :
  zlen (desc (vd s)) = NUM → zlen (free (vd s)) = NUM → 0 ≤ i < NUM → free (vd s) !! Z.to_nat i = Some 0 →
  free_desc s i = Ok (vwakeup (with_vd s (with_free (with_desc (vd s) (<[Z.to_nat i := mk_desc ANull 0 0 0]> (desc (vd s))))
                                            (<[Z.to_nat i := 1]> (free (vd s))))) ChFree).
Proof.
  intros L1 L2 Hi Hf. unfold free_desc. rewrite (proj2 (Z.leb_gt NUM i)) by lia.
  rewrite (arr_get_lookup _ _ _ (proj1 Hi) Hf), bind_Ok. cbn. by rewrite !arr_set_in_range by lia.
Qed.

(** What a run of [free_desc] does. *)
Record given_back (s : driver) (idx : list Z) (ds : list virtq_desc) (fr : list Z) (rq : gmap Z request) : Prop := {
  gb_dlen : zlen ds = NUM;
  gb_flen : zlen fr = NUM;
  gb_reqs : rq = if decide (idx = []) then vreqs s else wake ChFree <$> vreqs s;
  gb_free : ∀ i, 0 ≤ i < NUM → fr !! Z.to_nat i = if decide (i ∈ idx) then Some 1 else free (vd s) !! Z.to_nat i;
  gb_desc : ∀ i, 0 ≤ i → i ∉ idx → ds !! Z.to_nat i = desc (vd s) !! Z.to_nat i;
}.

Lemma free_descs_ok idx s :
  zlen (desc (vd s)) = NUM → zlen (free (vd s)) = NUM → NoDup idx →
  (∀ i, i ∈ idx → 0 ≤ i < NUM ∧ free (vd s) !! Z.to_nat i = Some 0) →
  ∃ ds fr rq, free_descs s idx = Ok (mk_driver (with_free (with_desc (vd s) ds) fr) (vbufs s) rq (vlock s) (vmmio s)) ∧
    given_back s idx ds fr rq.
Proof.
  revert s. induction idx as [|k idx IH]; intros s L1 L2 Hnd Hidx; cbn [free_descs].
  - exists (desc (vd s)), (free (vd s)), (vreqs s). split; [by destruct s as [[]]|]. by constructor.
  - apply NoDup_cons in Hnd as [Hk Hnd]. destruct (Hidx k) as [Rk Fk]; [apply elem_of_cons; by left|].
    rewrite free_desc_ok by done. rewrite bind_Ok. set (s1 := vwakeup _ _).
    destruct (IH s1) as (ds & fr & rq & E & [G1 G2 G3 G4 G5]); [by cbn; rewrite zlen_insert..|done| |].
    { intros i Hi. destruct (Hidx i) as [Ri Fi]; [apply elem_of_cons; by right|]. split; [done|]. cbn.
      rewrite list_lookup_insert_ne; [done|]. assert (i ≠ k) by (by intros ->). lia. }
    exists ds, fr, rq. split; [exact E|]. constructor; try done.
    + rewrite G3. cbn. rewrite (decide_False (P := k :: idx = [])) by done. destruct (decide (idx = [])); [done|].
      rewrite <- map_fmap_compose. apply map_fmap_ext. intros p r _. cbn. unfold wake. by destruct r as [b w []].
    + intros i Hi. rewrite G4 by done. cbn. destruct (decide (i = k)) as [->|Hik].
      * rewrite decide_False by done. rewrite list_lookup_insert_eq by (unfold zlen, NUM in *; lia).
        rewrite decide_True; [done|]. apply elem_of_cons. by left.
      * rewrite list_lookup_insert_ne by lia. apply decide_ext. rewrite elem_of_cons. tauto.
    + intros i Hi Hn. rewrite elem_of_cons in Hn. rewrite G5 by tauto. cbn. rewrite list_lookup_insert_ne; [done|].
      assert (i ≠ k) by tauto. lia.
Qed.

(** Freeing a formatted chain frees its three descriptors. *)
Lemma free_chain_ok s d b w n c :
  zlen (desc (vd s)) = NUM → zlen (free (vd s)) = NUM → chain_ok d b w n c → desc (vd s) = desc d →
  (∀ i, in_chain i c → free (vd s) !! Z.to_nat i = Some 0) →
  free_chain (Z.to_nat NUM) s (c_0 c) = free_descs s [c_0 c; c_1 c; c_2 c].
Proof.
  intros L1 L2 [Hr (D1 & D2 & D3) _ H0 H1 H2 _] Ed Hf. rewrite <- Ed in H0, H1, H2.
  assert (R0 := Hr _ (in_chain_0 c)). assert (R1 := Hr _ (in_chain_1 c)). assert (R2 := Hr _ (in_chain_2 c)).
  change (Z.to_nat NUM) with 8%nat. cbn [free_chain free_descs].
  rewrite (arr_get_lookup _ _ _ (proj1 R0) H0), bind_Ok. rewrite free_desc_ok; [|done..|by apply Hf, in_chain_0].
  rewrite !bind_Ok. cbn [d_flags d_next]. change (negb (Z.land 1 VRING_DESC_F_NEXT =? 0)) with true. cbv iota.
  set (s1 := vwakeup _ _).
  assert (H1' : desc (vd s1) !! Z.to_nat (c_1 c) = desc (vd s) !! Z.to_nat (c_1 c)) by (cbn; rewrite list_lookup_insert_ne by lia; done).
  assert (F1 : free (vd s1) !! Z.to_nat (c_1 c) = Some 0) by (cbn; rewrite list_lookup_insert_ne by lia; by apply Hf, in_chain_1).
  rewrite (arr_get_lookup _ _ _ (proj1 R1) (eq_trans H1' H1)), bind_Ok.
  rewrite (free_desc_ok s1) by (try done; cbn; by rewrite zlen_insert). rewrite !bind_Ok. cbn [d_flags d_next].
  replace (negb (Z.land (if w =? 0 then 3 else 1) VRING_DESC_F_NEXT =? 0)) with true by (by destruct (w =? 0)). cbv iota.
  set (s2 := vwakeup _ _).
  assert (H2' : desc (vd s2) !! Z.to_nat (c_2 c) = desc (vd s) !! Z.to_nat (c_2 c)) by (cbn; rewrite !list_lookup_insert_ne by lia; done).
  rewrite (arr_get_lookup _ _ _ (proj1 R2) (eq_trans H2' H2)), bind_Ok. cbn [d_flags d_next].
  change (negb (Z.land 2 VRING_DESC_F_NEXT =? 0)) with false. by destruct (free_desc s2 (c_2 c)).
Qed.

(** ** Taking three descriptors *)

Lemma alloc3_fail s fr idx :
  flags_ok fr → zlen (desc (vd s)) = NUM → NoDup idx → zlen (free (vd s)) = NUM →
  (∀ i, i ∈ idx → 0 ≤ i < NUM ∧ fr !! Z.to_nat i = Some 1 ∧ free (vd s) !! Z.to_nat i = Some 0) →
  (∀ i, 0 ≤ i < NUM → i ∉ idx → free (vd s) !! Z.to_nat i = fr !! Z.to_nat i) →
  ∃ ds rq, free_descs s idx = Ok (mk_driver (with_free (with_desc (vd s) ds) fr) (vbufs s) rq (vlock s) (vmmio s)) ∧
    (rq = vreqs s ∨ rq = wake ChFree <$> vreqs s) ∧ zlen ds = NUM ∧
    (∀ i, 0 ≤ i → fr !! Z.to_nat i = Some 0 → ds !! Z.to_nat i = desc (vd s) !! Z.to_nat i).
Proof.
  intros [Lf _] L1 Hnd L2 Hidx Hout.
  destruct (free_descs_ok idx s) as (ds & fr' & rq & E & [G1 G2 G3 G4 G5]); try done; [naive_solver|].
  assert (fr' = fr) as ->.
  { apply list_eq. intros j. unfold zlen, NUM in *. destruct (decide (j < 8)%nat) as [Hj|Hj]; [|rewrite !lookup_ge_None_2 by lia; done].
    specialize (G4 (Z.of_nat j) ltac:(lia)). rewrite Nat2Z.id in G4. rewrite G4.
    destruct (decide (Z.of_nat j ∈ idx)) as [Hin|Hin].
    - destruct (Hidx _ Hin) as (_ & E1 & _). by rewrite Nat2Z.id in E1.
    - specialize (Hout (Z.of_nat j) ltac:(lia) Hin). by rewrite Nat2Z.id in Hout. }
  exists ds, rq. split; [done|]. split; [rewrite G3; by destruct (decide (idx = [])); auto|]. split; [done|].
  intros i Hi Hz. apply G5; [done|]. intros Hin. destruct (Hidx i Hin) as (_ & E1 & _). congruence.
Qed.

Lemma alloc3_ok s :
  flags_ok (free (vd s)) → zlen (desc (vd s)) = NUM →
  (∃ c, alloc3_desc s = Ok (Some c, with_vd s (with_free (vd s)
            (<[Z.to_nat (c_2 c) := 0]> (<[Z.to_nat (c_1 c) := 0]> (<[Z.to_nat (c_0 c) := 0]> (free (vd s))))))) ∧
     (c_0 c ≠ c_1 c ∧ c_0 c ≠ c_2 c ∧ c_1 c ≠ c_2 c) ∧
     ∀ i, in_chain i c → 0 ≤ i < NUM ∧ free (vd s) !! Z.to_nat i = Some 1) ∨
  (∃ ds rq, alloc3_desc s = Ok (None, mk_driver (with_desc (vd s) ds) (vbufs s) rq (vlock s) (vmmio s)) ∧
     (rq = vreqs s ∨ rq = wake ChFree <$> vreqs s) ∧ zlen ds = NUM ∧
     (∀ i, 0 ≤ i → free (vd s) !! Z.to_nat i = Some 0 → ds !! Z.to_nat i = desc (vd s) !! Z.to_nat i) ∧
     (nfree (vd s) < 3)%nat).
Proof.
  intros Hf Hd. pose proof (proj1 Hf) as Lf. set (fr := free (vd s)) in *.
  assert (Eta : ∀ ds, with_desc (vd s) ds = with_free (with_desc (vd s) ds) fr) by (by intros; destruct s as [[]]).
  assert (Hlk : ∀ l k i, 0 ≤ i < NUM → 0 ≤ k < NUM → zlen l = NUM →
            <[Z.to_nat k := 0]> l !! Z.to_nat i = if decide (i = k) then Some 0 else (l : list Z) !! Z.to_nat i).
  { intros l k i Hi Hk Hl. unfold zlen, NUM in *. destruct (decide (i = k)) as [->|]; [by rewrite list_lookup_insert_eq by lia|].
    by rewrite list_lookup_insert_ne by lia. }
  unfold alloc3_desc. cbn [alloc3_loop].
  destruct (alloc_desc_ok s Hf) as [[-> Hz]|(k0 & R0 & F0 & ->)]; rewrite bind_Ok; cbv beta iota.
  { right. cbn. exists (desc (vd s)), (vreqs s). split; [by destruct s as [[]]|]. change (nfree (vd s)) with (ones (free (vd s))). rewrite Hz. auto with lia. }
  rewrite (proj2 (Z.ltb_ge k0 0)) by lia. fold fr in F0 |- *. set (s1 := with_vd s _).
  destruct (alloc_desc_ok s1 (flags_take _ _ Hf)) as [[-> Hz]|(k1 & R1 & F1 & ->)]; rewrite bind_Ok; cbv beta iota.
  { right. change ((-1) <? 0) with true. cbv iota.
    destruct (alloc3_fail s1 fr [k0]) as (ds & rq & E & Hrq & Hl & Hds); try done; [apply NoDup_singleton|by cbn; rewrite zlen_insert| | |].
    - intros i ->%list_elem_of_singleton. cbn. rewrite Hlk, decide_True by done. done.
    - intros i Hi Hn. rewrite list_elem_of_singleton in Hn. cbn. by rewrite Hlk, decide_False by done.
    - cbn [app]. rewrite E, !bind_Ok. exists ds, rq. rewrite Eta. split; [done|]. do 3 (split; [done|]).
      change (nfree (vd s)) with (ones fr). cbn in Hz. rewrite (ones_insert _ _ F0). unfold ones. rewrite Hz. lia. }
  rewrite (proj2 (Z.ltb_ge k1 0)) by lia. cbn in F1. rewrite Hlk in F1 by done. destruct (decide (k1 = k0)) as [|N10]; [done|].
  set (s2 := with_vd s1 _).
  destruct (alloc_desc_ok s2 (flags_take _ _ (flags_take _ _ Hf))) as [[-> Hz]|(k2 & R2 & F2 & ->)]; rewrite bind_Ok; cbv beta iota.
  { right. change ((-1) <? 0) with true. cbv iota.
    destruct (alloc3_fail s2 fr [k0; k1]) as (ds & rq & E & Hrq & Hl & Hds); try done; [|by cbn; rewrite !zlen_insert| | |].
    - apply NoDup_cons. split; [|apply NoDup_singleton]. rewrite list_elem_of_singleton. done.
    - intros i Hi. cbn. rewrite !elem_of_cons in Hi. destruct Hi as [->|[->|[]%elem_of_nil]]; rewrite !Hlk by (by rewrite ?zlen_insert).
      + destruct (decide (k0 = k1)); [done|]. by rewrite decide_True.
      + by rewrite decide_True.
    - intros i Hi Hn. rewrite !elem_of_cons in Hn. cbn. rewrite !Hlk by (by rewrite ?zlen_insert). rewrite !decide_False by tauto. done.
    - cbn [app]. rewrite E, !bind_Ok. exists ds, rq. rewrite Eta. split; [done|]. do 3 (split; [done|]).
      change (nfree (vd s)) with (ones fr). cbn in Hz. rewrite (ones_insert _ _ F0), (ones_insert (<[Z.to_nat k0:=0]> fr) (Z.to_nat k1)); [unfold ones; rewrite Hz; lia|].
      rewrite Hlk, decide_False by done. done. }
  rewrite (proj2 (Z.ltb_ge k2 0)) by lia. cbn in F2. rewrite !Hlk in F2 by (by rewrite ?zlen_insert).
  destruct (decide (k2 = k1)) as [|N21]; [done|]. destruct (decide (k2 = k0)) as [|N20]; [done|].
  left. exists (mk_chain k0 k1 k2). cbn. split; [done|]. split; [auto|].
  intros i [->|[->| ->]]; cbn; done.
Qed.
