(* ===== verification/VirtioStep.v ===== *)
(** * Each step of the disk machine keeps the invariant and is a step, or no step,
    of the abstract disk. *)

From Stdlib Require Import ZifyBool.
From S2P Require Import Prelude Ring Bio Virtio VirtioSpec VirtioProof.

Local Notation vring := (ring NUM (2 ^ 16)).

(** ** The abstraction through the views *)

Definition abs_view (d : vdisk) (v : view) : areq :=
  match v_chain v with
  | None => APending (v_b v) (v_w v)
  | Some c =>
      if status d (c_0 c) =? 255 then APending (v_b v) (v_w v)
      else if status d (c_0 c) =? 0 then ADone (v_b v) (v_w v)
      else AFailed (v_b v) (v_w v)
  end.

Definition abs_buf (x : vbuf) : Z * list Z := (b_blockno x, b_data x).

Lemma abs_views m :
  abs m = mk_astate (abs_view (vd (drv m)) <$> views (drv m)) (abs_buf <$> vbufs (drv m)) (block_at (sectors (dev m))).
Proof. unfold abs, views. f_equal. rewrite <- map_fmap_compose. by apply map_fmap_ext. Qed.

(** Requests whose status bytes are unchanged are seen as before. *)
Lemma abs_view_same d d' (V : gmap Z view) :
  (∀ p v c, V !! p = Some v → v_chain v = Some c → status d' (c_0 c) = status d (c_0 c)) →
  abs_view d' <$> V = abs_view d <$> V.
Proof.
  intros H. apply map_fmap_ext. intros p v Hv. unfold abs_view. destruct (v_chain v) as [c|] eqn:E; [|done].
  by rewrite (H p v c Hv E).
Qed.

Lemma abs_buf_same (bufs : gmap Z vbuf) b x y :
  bufs !! b = Some x → abs_buf y = abs_buf x → abs_buf <$> <[b := y]> bufs = abs_buf <$> bufs.
Proof. intros Hx E. rewrite fmap_insert, E. apply insert_id. by rewrite lookup_fmap, Hx. Qed.

Lemma views_goto s p r a :
  views (goto s p r a) = <[p := mk_view (q_buf r) (q_write r) (point_chain a) (published a)]> (views s).
Proof. unfold views, goto. cbn. by rewrite fmap_insert. Qed.

Lemma views_lookup s p r : vreqs s !! p = Some r → views s !! p = Some (view_of r).
Proof. intros H. unfold views. by rewrite lookup_fmap, H. Qed.

Lemma views_inv s p v : views s !! p = Some v → ∃ r, vreqs s !! p = Some r ∧ v = view_of r.
Proof. unfold views. rewrite lookup_fmap. destruct (vreqs s !! p) as [r|]; [|done]. intros [= <-]. eauto. Qed.

(** A move that the queues do not see. *)
Lemma views_goto_same s p r a :
  vreqs s !! p = Some r → point_chain a = point_chain (q_at r) → published a = published (q_at r) →
  views (goto s p r a) = views s.
Proof. intros Hr E1 E2. rewrite views_goto, E1, E2. apply insert_id. by apply views_lookup. Qed.

(** ** The lock and the sleepers *)

Lemma ones_insert_le fr (k : nat) : (ones (<[k := 0%Z]> fr) ≤ ones fr)%nat.
Proof.
  unfold ones. revert k. induction fr as [|x fr IH]; intros [|k]; [done..| |].
  - change (<[O := 0]> (x :: fr)) with (0 :: fr). rewrite filter_cons_False by auto. rewrite filter_cons.
    destruct (decide (x ≠ 0)); cbn [length]; lia.
  - change (<[S k := 0]> (x :: fr)) with (x :: <[k := 0]> fr). rewrite !filter_cons. specialize (IH k).
    destruct (decide (x ≠ 0)); cbn [length]; lia.
Qed.

(** The holder of the lock moves to [a], keeping the lock or giving it up. *)
Lemma sched_move s p r a l d' bufs' g :
  sched s → vlock s = Some (Thread p) → vreqs s !! p = Some r →
  l = (if needs_lock a then Some (Thread p) else None) →
  (∀ c, a = Publish c → cell NUM (avail_ring d') (avail_idx d') = c_0 c) →
  (a = SleepFree → (nfree d' < 3)%nat) → (nfree d' ≤ nfree (vd s))%nat →
  (∀ c x, a = SleepBuf c → bufs' !! q_buf r = Some x → b_disk x = 1) →
  (∀ b x, bufs' !! b = Some x → b = q_buf r ∨ vbufs s !! b = Some x) →
  (∀ q r', vreqs s !! q = Some r' → q_buf r' = q_buf r → q = p) →
  sched (mk_driver d' bufs' (<[p := mk_request (q_buf r) (q_write r) a]> (vreqs s)) l g).
Proof.
  intros [S1 S2 S3 S4 S5] Hl Hr -> Hcell Hfree Hn Hbuf Hbufs Hex.
  assert (Hlk : ∀ q r', <[p := mk_request (q_buf r) (q_write r) a]> (vreqs s) !! q = Some r' →
            (q = p ∧ r' = mk_request (q_buf r) (q_write r) a) ∨ (q ≠ p ∧ vreqs s !! q = Some r')).
  { intros q r'. rewrite lookup_insert_Some. naive_solver. }
  assert (Hother : ∀ q r', q ≠ p → vreqs s !! q = Some r' → needs_lock (q_at r') = false).
  { intros q r' Hq Hr'. destruct (needs_lock (q_at r')) eqn:E; [|done]. specialize (S1 q r' Hr' E). congruence. }
  constructor; cbn.
  - intros q r' [[-> ->]|[Hq Hr']]%Hlk; cbn; [by intros ->|]. by rewrite (Hother q r').
  - intros q. destruct (needs_lock a) eqn:E; [|done]. intros [= <-]. eexists. by rewrite lookup_insert_eq.
  - intros q r' c [[-> ->]|[Hq Hr']]%Hlk Ha; [by apply Hcell|]. pose proof (Hother q r' Hq Hr') as Ho. by rewrite Ha in Ho.
  - intros q r' c x [[-> ->]|[Hq Hr']]%Hlk Ha Hx; [by eapply Hbuf|].
    destruct (Hbufs _ _ Hx) as [E|Hx']; [by destruct Hq; eapply Hex|by eapply S4].
  - intros q r' [[-> ->]|[Hq Hr']]%Hlk Ha; [by apply Hfree|]. specialize (S5 q r' Hr' Ha). lia.
Qed.

Lemma sched_change s d' bufs' g :
  sched s → avail_ring d' = avail_ring (vd s) → avail_idx d' = avail_idx (vd s) → nfree d' = nfree (vd s) →
  (∀ b x', bufs' !! b = Some x' → (∃ x, vbufs s !! b = Some x ∧ b_disk x' = b_disk x) ∨
     ∀ p r c, vreqs s !! p = Some r → q_buf r = b → q_at r ≠ SleepBuf c) →
  sched (mk_driver d' bufs' (vreqs s) (vlock s) g).
Proof.
  intros [S1 S2 S3 S4 S5] E1 E2 E3 Hb. constructor; cbn; try done.
  - by rewrite E1, E2.
  - intros p r c x' Hr Ha Hx'. destruct (Hb _ _ Hx') as [(x & Hx & ->)|Hno]; [by eapply S4|by destruct (Hno p r c Hr)].
  - by rewrite E3.
Qed.

(** ** Blocks and sectors *)

Lemma sector_len st k : (∀ k v, st !! k = Some v → length v = 512%nat) → length (sector_at st k) = 512%nat.
Proof. intros H. unfold sector_at. destruct (st !! k) as [v|] eqn:E; cbn [default]; [by eapply H|apply length_replicate]. Qed.

Lemma block_len st n : (∀ k v, st !! k = Some v → length v = 512%nat) → zlen (block_at st n) = BSIZE.
Proof. intros H. unfold block_at, zlen. cbn [read_sectors]. by rewrite !length_app, !sector_len. Qed.

Lemma block_write st n k data :
  zlen data = BSIZE → block_at (write_sectors st (2 * n) 2 data) k = if k =? n then data else block_at st k.
Proof.
  intros Hl. unfold block_at. cbn [read_sectors write_sectors]. unfold sector_at.
  destruct (Z.eqb_spec k n) as [->|Hne].
  - rewrite lookup_insert_ne by lia. rewrite !lookup_insert_eq. cbn [default]. rewrite app_nil_r.
    rewrite (take_ge (drop 512 data)) by (rewrite length_drop; unfold zlen, BSIZE in Hl; lia). apply take_drop.
  - by rewrite !lookup_insert_ne by lia.
Qed.

Lemma write_sectors_len st k n data :
  (∀ k v, st !! k = Some v → length v = 512%nat) → (512 * n ≤ length data)%nat →
  ∀ j v, write_sectors st k n data !! j = Some v → length v = 512%nat.
Proof.
  revert st k data. induction n as [|n IH]; intros st k data Hs Hl; cbn [write_sectors]; [done|].
  apply IH; [|rewrite length_drop; lia]. intros j v. rewrite lookup_insert_Some. intros [[_ <-]|[_ Hj]]; [rewrite length_take; lia|by eapply Hs].
Qed.

Lemma block_outside st st' n :
  (∀ k, k < 2 * n ∨ 2 * n + 2 ≤ k → st' !! k = st !! k) → ∀ k, k ≠ n → block_at st' k = block_at st k.
Proof. intros H k Hk. unfold block_at, sector_at. cbn [read_sectors]. unfold sector_at. by rewrite !H by lia. Qed.

(** ** What the device reads *)

Lemma decode_ok d b w n c :
  chain_ok d b w n c → decode d (c_0 c) = Some (mk_io (negb (w =? 0)) (2 * n) 2 b (c_0 c)).
Proof.
  intros [_ _ Ho H0 H1 H2 _]. unfold decode. change (Z.to_nat NUM) with 8%nat. cbn [desc_chain].
  destruct (w =? 0); rewrite H0; cbn; rewrite H1; cbn; rewrite H2; cbn; by rewrite Ho.
Qed.

(** ** Formatting a request *)

Definition formatted (d : vdisk) (b w n : Z) (c : chain) : vdisk :=
  mk_vdisk
    (<[Z.to_nat (c_2 c) := mk_desc (AStatus (c_0 c)) 1 2 0]>
      (<[Z.to_nat (c_1 c) := mk_desc (AData b) BSIZE (if w =? 0 then 3 else 1) (c_2 c)]>
        (<[Z.to_nat (c_0 c) := mk_desc (AOp (c_0 c)) 16 1 (c_1 c)]> (desc d))))
    (avail_idx d) (<[Z.to_nat (avail_idx d mod NUM) := c_0 c]> (avail_ring d))
    (used_cnt d) (used_ring d) (free d) (used_idx d)
    (<[Z.to_nat (c_0 c) := mk_info (Some b) 255]> (info d))
    (<[Z.to_nat (c_0 c) := mk_req (if w =? 0 then VIRTIO_BLK_T_IN else VIRTIO_BLK_T_OUT) 0 (2 * n)]> (ops d)).

(** The sizes of the tables. *)
Record sized (d : vdisk) : Prop := {
  sz_desc : zlen (desc d) = NUM;
  sz_avail : zlen (avail_ring d) = NUM;
  sz_info : zlen (info d) = NUM;
  sz_ops : zlen (ops d) = NUM;
}.

Lemma core_sized d bufs dv V Q U : core d bufs dv V Q U → sized d.
Proof. intros H. constructor; [apply H|apply (rg_len _ _ _ _ _ _ (co_avail _ _ _ _ _ _ H))|apply H|apply H]. Qed.

Lemma rw_format_ok s b w x c :
  sized (vd s) → (∀ i, in_chain i c → 0 ≤ i < NUM) → vbufs s !! b = Some x → 0 ≤ b_blockno x < 2 ^ 31 →
  rw_format s b w c = Ok (put_vbuf (with_vd s (formatted (vd s) b w (b_blockno x) c)) b (set_b_disk x 1)).
Proof.
  intros [L1 L2 L3 L4] Hr Hx Hn. pose proof (Hr _ (in_chain_0 c)). pose proof (Hr _ (in_chain_1 c)). pose proof (Hr _ (in_chain_2 c)).
  pose proof (Z.mod_pos_bound (avail_idx (vd s)) NUM ltac:(done)).
  unfold rw_format, get_vbuf, formatted. destruct c as [i j k]. cbn [c_0 c_1 c_2] in *. rewrite Hx, bind_Ok.
  change (BSIZE / 512) with 2. rewrite u32_small by lia. rewrite (Z.mul_comm _ 2).
  rewrite !arr_set_in_range by (rewrite ?zlen_insert; lia). cbn [mbind outcome_bind].
  rewrite !arr_set_in_range by (rewrite ?zlen_insert; lia). cbn [mbind outcome_bind].
  rewrite !arr_set_in_range by (rewrite ?zlen_insert; lia). by destruct (w =? 0).
Qed.

Lemma formatted_chain d b w n c :
  sized d → (∀ i, in_chain i c → 0 ≤ i < NUM) → c_0 c ≠ c_1 c ∧ c_0 c ≠ c_2 c ∧ c_1 c ≠ c_2 c →
  chain_ok (formatted d b w n c) b w n c ∧ status (formatted d b w n c) (c_0 c) = 255.
Proof.
  intros [L1 L2 L3 L4] Hr Hd. pose proof (Hr _ (in_chain_0 c)). pose proof (Hr _ (in_chain_1 c)). pose proof (Hr _ (in_chain_2 c)).
  unfold zlen, NUM in *. split.
  - constructor; try done; cbn [formatted desc ops info].
    + by rewrite list_lookup_insert_eq by lia.
    + rewrite !list_lookup_insert_ne by lia. by rewrite list_lookup_insert_eq by lia.
    + rewrite list_lookup_insert_ne by lia. by rewrite list_lookup_insert_eq by (rewrite length_insert; lia).
    + by rewrite list_lookup_insert_eq by (rewrite !length_insert; lia).
    + exists 255. by rewrite list_lookup_insert_eq by lia.
  - unfold status. cbn [formatted info]. by rewrite list_lookup_insert_eq by lia.
Qed.

Lemma formatted_agree d b w n c i :
  0 ≤ i → ¬ in_chain i c → (∀ i, in_chain i c → 0 ≤ i < NUM) → agree d (formatted d b w n c) i.
Proof.
  intros Hi Hn Hr. pose proof (Hr _ (in_chain_0 c)). pose proof (Hr _ (in_chain_1 c)). pose proof (Hr _ (in_chain_2 c)).
  unfold in_chain in Hn. unfold agree. cbn [formatted desc ops info]. by rewrite !list_lookup_insert_ne by lia.
Qed.

(** ** Steps *)

Definition simulates (m : machine) (e : option event) (m' : machine) : Prop :=
  vinv m' ∧ ((e = None ∧ abs m' = abs m) ∨ a_step (abs m) e (abs m')).

Lemma core_flags d bufs dv V Q U : core d bufs dv V Q U → flags_ok (free d).
Proof.
  intros H. split; [apply H|]. apply Forall_lookup. intros i x Hx. pose proof (lookup_lt_Some _ _ _ Hx) as Hlt.
  pose proof (co_flen _ _ _ _ _ _ H) as Hl. unfold zlen in Hl.
  destruct (co_free _ _ _ _ _ _ H (Z.of_nat i) ltac:(lia)) as [E|[E _]]; rewrite Nat2Z.id in E; naive_solver.
Qed.

(** One request per buffer. *)
Lemma core_one_request s dv Q U p q r r' :
  core (vd s) (vbufs s) dv (views s) Q U → vreqs s !! p = Some r → vreqs s !! q = Some r' → q_buf r' = q_buf r → q = p.
Proof.
  intros H Hp Hq E. by apply (co_excl _ _ _ _ _ _ H q p (view_of r') (view_of r)); [apply views_lookup..|].
Qed.

Lemma acquire_sim m p r a :
  vinv m → vlock (drv m) = None → vreqs (drv m) !! p = Some r → resume (q_at r) = Some a →
  simulates m None (mk_machine (with_vlock (goto (drv m) p r a) (Some (Thread p))) (dev m)).
Proof.
  intros [(Q & U & HC) HS] Hl Hr Ha.
  assert (E : views (with_vlock (goto (drv m) p r a) (Some (Thread p))) = views (drv m)).
  { change (views (goto (drv m) p r a) = views (drv m)). apply views_goto_same; [done|..]; destruct (q_at r); cbn in Ha; by simplify_eq. }
  split; [split; [exists Q, U; cbn [drv dev]; by rewrite E|]|left; split; [done|]].
  - destruct HS as [S1 S2 S3 S4 S5].
    assert (Hlk : ∀ q r', vreqs (goto (drv m) p r a) !! q = Some r' →
              (q = p ∧ r' = mk_request (q_buf r) (q_write r) a) ∨ (q ≠ p ∧ vreqs (drv m) !! q = Some r')).
    { intros q r'. cbn. rewrite lookup_insert_Some. naive_solver. }
    assert (Hna : needs_lock a = true ∧ (∀ c, a ≠ Publish c)) by (destruct (q_at r); cbn in Ha; by simplify_eq).
    destruct Hna as [Hna Hnp]. constructor; cbn.
    + intros q r' [[-> ->]|[Hq Hr']]%Hlk Hn; [done|]. specialize (S1 q r' Hr' Hn). congruence.
    + intros q [= <-]. eexists. by rewrite lookup_insert_eq.
    + intros q r' c [[-> ->]|[Hq Hr']]%Hlk Hat; [by destruct (Hnp c)|by eapply S3].
    + intros q r' c x [[-> ->]|[Hq Hr']]%Hlk Hat; [cbn in Hat; by subst|by eapply S4].
    + intros q r' [[-> ->]|[Hq Hr']]%Hlk Hat; [cbn in Hat; by subst|by eapply S5].
  - rewrite !abs_views. cbn [drv dev]. by rewrite E.
Qed.

(** The views and the status bytes stay the same. *)
Lemma simulates_same m s' Q U :
  views s' = views (drv m) → core (vd s') (vbufs s') (dev m) (views (drv m)) Q U → sched s' →
  (∀ h, status (vd s') h = status (vd (drv m)) h) → abs_buf <$> vbufs s' = abs_buf <$> vbufs (drv m) →
  simulates m None (mk_machine s' (dev m)).
Proof.
  intros Ev HC HS Hst Eb. split; [split; [exists Q, U; cbn [drv dev]; by rewrite Ev|done]|left; split; [done|]].
  rewrite !abs_views. cbn [drv dev]. rewrite Ev, Eb. f_equal. apply abs_view_same. auto.
Qed.

(** Three descriptors were found: the request is formatted. *)
Lemma format_core s dv Q U p r x c :
  core (vd s) (vbufs s) dv (views s) Q U → views s !! p = Some (mk_view (q_buf r) (q_write r) None false) →
  vbufs s !! q_buf r = Some x → c_0 c ≠ c_1 c ∧ c_0 c ≠ c_2 c ∧ c_1 c ≠ c_2 c →
  (∀ i, in_chain i c → 0 ≤ i < NUM ∧ free (vd s) !! Z.to_nat i = Some 1) →
  let d1 := with_free (vd s) (<[Z.to_nat (c_2 c) := 0]> (<[Z.to_nat (c_1 c) := 0]> (<[Z.to_nat (c_0 c) := 0]> (free (vd s))))) in
  let d2 := formatted d1 (q_buf r) (q_write r) (b_blockno x) c in
  core d2 (<[q_buf r := set_b_disk x 1]> (vbufs s)) dv (<[p := mk_view (q_buf r) (q_write r) (Some c) false]> (views s)) Q U ∧
  abs_view d2 <$> <[p := mk_view (q_buf r) (q_write r) (Some c) false]> (views s) = abs_view (vd s) <$> views s.
Proof.
  intros HC Hv Hx Hd Hc d1 d2. assert (Hrg : ∀ i, in_chain i c → 0 ≤ i < NUM) by (intros i Hi; by apply Hc).
  pose proof (core_sized _ _ _ _ _ _ HC) as Hsz. assert (Hsz1 : sized d1) by (by destruct Hsz).
  destruct (formatted_chain d1 (q_buf r) (q_write r) (b_blockno x) c Hsz1 Hrg Hd) as [Hch Hst].
  assert (Hag : ∀ i, 0 ≤ i → ¬ in_chain i c → agree (vd s) d2 i) by (intros i Hi Hni; apply (formatted_agree d1); done).
  assert (Hfree : ∀ q v c', views s !! q = Some v → v_chain v = Some c' → ¬ in_chain (c_0 c') c).
  { intros q v c' Hq Hc' Hin. destruct (Hc _ Hin) as [_ E1]. by rewrite (co_own _ _ _ _ _ _ HC q v c' _ Hq Hc' (in_chain_0 c')) in E1. }
  split.
  - apply (core_format _ _ _ _ _ _ HC p _ _ x c d2); try done; [intros i Hi; by apply Hc|cbn; rewrite ?zlen_insert; apply Hsz1..|].
    destruct (co_avail _ _ _ _ _ _ HC) as [R1 R2 R3 R4 R5 R6]. constructor; try done; [cbn; by rewrite zlen_insert|].
    rewrite <- R6 at 2. cbn. apply (content_insert NUM (2 ^ 16)); [done| |].
    + rewrite (ring_w NUM (2 ^ 16) _ _ _ _ (co_avail _ _ _ _ _ _ HC)). apply (mod_mod NUM (2 ^ 16)).
    + apply (heads_bound _ _ _ _ _ _ HC Q (c_0 c)); [by apply (proj1 (NoDup_app _ _) (co_nodup _ _ _ _ _ _ HC))| | |apply Hrg, in_chain_0].
      * intros k Hk. apply elem_of_app. by left.
      * intros Hin. destruct (co_heads _ _ _ _ _ _ HC (c_0 c)) as (q & v & c' & y & Hq & Hc' & _ & E & _); [left; apply elem_of_app; by left|].
        apply (Hfree q v c' Hq Hc'). rewrite E. apply in_chain_0.
  - rewrite fmap_insert. rewrite <- (insert_id (abs_view (vd s) <$> views s) p (APending (q_buf r) (q_write r))) by (by rewrite lookup_fmap, Hv).
    replace (abs_view d2 <$> views s) with (abs_view (vd s) <$> views s);
      [f_equal; unfold abs_view; cbn [v_chain v_b v_w]; by rewrite (Hst : status d2 (c_0 c) = 255)|].
    symmetry. apply abs_view_same. intros q v c' Hq Hc'. apply status_frame, Hag; [|by eapply Hfree].
    pose proof (chain_range _ _ _ _ _ _ HC q v c' _ Hq Hc' (in_chain_0 c')). lia.
Qed.

Lemma alloc_take m p r c :
  vinv m → vlock (drv m) = Some (Thread p) → vreqs (drv m) !! p = Some r → q_at r = Alloc →
  c_0 c ≠ c_1 c ∧ c_0 c ≠ c_2 c ∧ c_1 c ≠ c_2 c →
  (∀ i, in_chain i c → 0 ≤ i < NUM ∧ free (vd (drv m)) !! Z.to_nat i = Some 1) →
  let d1 := with_free (vd (drv m))
              (<[Z.to_nat (c_2 c) := 0]> (<[Z.to_nat (c_1 c) := 0]> (<[Z.to_nat (c_0 c) := 0]> (free (vd (drv m)))))) in
  ∃ s', rw_format (with_vd (drv m) d1) (q_buf r) (q_write r) c = Ok s' ∧
    simulates m None (mk_machine (goto s' p r (Publish c)) (dev m)).
Proof.
  destruct m as [s dv]. intros [(Q & U & HC) HS] Hl Hr Ha Hd Hc d1. cbn [drv dev] in *.
  pose proof (views_lookup s p r Hr) as Hv. unfold view_of in Hv. rewrite Ha in Hv. cbn in Hv.
  destruct (co_buf _ _ _ _ _ _ HC p _ Hv) as (x & Hx & Hbn). cbn in Hx.
  pose proof (core_sized _ _ _ _ _ _ HC) as Hsz. assert (Hsz1 : sized d1) by (by destruct Hsz).
  assert (Hrg : ∀ i, in_chain i c → 0 ≤ i < NUM) by (intros i Hi; by apply Hc).
  rewrite (rw_format_ok (with_vd s d1) _ _ x c Hsz1 Hrg Hx Hbn). eexists. split; [done|].
  destruct (format_core s dv Q U p r x c HC Hv Hx Hd Hc) as [Hcore Habs].
  set (d2 := formatted (vd (with_vd s d1)) _ _ _ _). split; [split|left; split; [done|]].
  - exists Q, U. cbn [drv dev]. rewrite views_goto. exact Hcore.
  - cbn [drv]. eapply (sched_move s p r (Publish c) _ d2 _ _ HS Hl Hr); cbn [needs_lock]; try done.
    + intros c' [= <-]. cbn. apply (cell_insert NUM (2 ^ 16)). apply Hsz.
    + change (nfree d2) with (ones (<[Z.to_nat (c_2 c) := 0]> (<[Z.to_nat (c_1 c) := 0]> (<[Z.to_nat (c_0 c) := 0]> (free (vd s)))))).
      change (nfree (vd s)) with (ones (free (vd s))). do 3 (etrans; [apply ones_insert_le|]). done.
    + intros b y. cbn. rewrite lookup_insert_Some. naive_solver.
    + intros q r' Hq. by eapply core_one_request.
  - rewrite !abs_views. cbn [drv dev]. rewrite views_goto. f_equal; [exact Habs|]. cbn. by apply abs_buf_same with x.
Qed.

(** Too few were found: the caller goes to sleep. *)
Lemma alloc_wait m p r ds rq :
  vinv m → vlock (drv m) = Some (Thread p) → vreqs (drv m) !! p = Some r → q_at r = Alloc →
  (rq = vreqs (drv m) ∨ rq = wake ChFree <$> vreqs (drv m)) → zlen ds = NUM →
  (∀ i, 0 ≤ i → free (vd (drv m)) !! Z.to_nat i = Some 0 → ds !! Z.to_nat i = desc (vd (drv m)) !! Z.to_nat i) →
  (nfree (vd (drv m)) < 3)%nat →
  let s1 := mk_driver (with_desc (vd (drv m)) ds) (vbufs (drv m)) rq (vlock (drv m)) (vmmio (drv m)) in
  simulates m None (mk_machine (unlock (goto s1 p r SleepFree)) (dev m)).
Proof.
  destruct m as [s dv]. intros [(Q & U & HC) HS] Hl Hr Ha Hrq Hlen Hds Hn s1. cbn [drv dev] in *.
  pose proof (views_lookup s p r Hr) as Hv. unfold view_of in Hv. rewrite Ha in Hv. cbn in Hv.
  assert (Ev : views s1 = views s) by (destruct Hrq as [-> | ->]; [done|apply (views_wakeup s ChFree)]).
  assert (Hr1 : ∃ r1, vreqs s1 !! p = Some r1 ∧ q_buf r1 = q_buf r ∧ q_write r1 = q_write r).
  { cbn. destruct Hrq as [-> | ->]; [by exists r|]. exists (wake ChFree r). rewrite lookup_fmap, Hr. split; [done|]. unfold wake. by rewrite Ha. }
  destruct Hr1 as (r1 & Hr1 & Eb & Ew).
  assert (HS1 : sched s1).
  { destruct Hrq as [-> | ->]; [by apply (sched_change s); eauto|]. apply (sched_change (vwakeup s ChFree)); try done; [by apply sched_wakeup|eauto]. }
  assert (HC1 : core (vd s1) (vbufs s1) dv (views s) Q U) by (by apply (core_desc _ _ _ _ _ _ HC)).
  apply (simulates_same (mk_machine s dv) _ Q U); cbn [drv dev]; try done.
  - change (views (unlock (goto s1 p r SleepFree))) with (views (goto s1 p r SleepFree)). rewrite <- Ev.
    rewrite views_goto. apply insert_id. rewrite Ev. exact Hv.
  - assert (Hsm := sched_move s1 p r1 SleepFree None (vd s1) (vbufs s1) (vmmio s1) HS1 Hl Hr1 eq_refl). rewrite Eb, Ew in Hsm.
    apply Hsm; try done; [intros b y; by right|].
    intros q r' Hq E. eapply (core_one_request s1); [rewrite Ev; exact HC1|exact Hr1|exact Hq|congruence].
Qed.

Lemma alloc_sim m p r :
  vinv m → vlock (drv m) = Some (Thread p) → vreqs (drv m) !! p = Some r → q_at r = Alloc →
  ∃ s', rw_run (drv m) p r = Ok (false, s') ∧ simulates m None (mk_machine s' (dev m)).
Proof.
  intros Hinv Hl Hr Ha. pose proof Hinv as [(Q & U & HC) _]. unfold rw_run. rewrite Ha.
  destruct (alloc3_ok (drv m) (core_flags _ _ _ _ _ _ HC) (co_desc _ _ _ _ _ _ HC))
    as [(c & -> & Hd & Hc)|(ds & rq & -> & Hrq & Hlen & Hds & Hn)]; rewrite bind_Ok; cbv beta iota.
  - destruct (alloc_take m p r c Hinv Hl Hr Ha Hd Hc) as (s' & -> & Hs). rewrite bind_Ok. eauto.
  - eexists. split; [done|]. by apply alloc_wait.
Qed.
