(* ===== verification/VirtioRun.v ===== *)
(** * The rest of [virtio_disk_rw], the interrupt handler, the device and the
    callers: each step keeps the invariant and follows the abstract disk. *)

From Stdlib Require Import ZifyBool.
From S2P Require Import Prelude Ring Bio Virtio VirtioSpec VirtioProof VirtioStep.

Local Notation vring := (ring NUM (2 ^ 16)).

(** ** [virtio_disk_rw] after the request is formatted *)

Lemma publish_sim m p r c :
  vinv m → vlock (drv m) = Some (Thread p) → vreqs (drv m) !! p = Some r → q_at r = Publish c →
  ∃ s', rw_run (drv m) p r = Ok (false, s') ∧ simulates m None (mk_machine s' (dev m)).
Proof.
  destruct m as [s dv]. intros [(Q & U & HC) HS] Hl Hr Ha. cbn [drv dev] in *. unfold rw_run. rewrite Ha.
  pose proof (views_lookup s p r Hr) as Hv. unfold view_of in Hv. rewrite Ha in Hv. cbn in Hv.
  eexists. split; [done|]. set (d' := with_avail (vd s) (u16 (avail_idx (vd s) + 1)) (avail_ring (vd s))).
  assert (Hcell : cell NUM (avail_ring (vd s)) (avail_idx (vd s)) = c_0 c) by (by eapply (sc_cell _ HS)).
  split; [split|left; split; [done|]].
  - exists (Q ++ [c_0 c]), U. cbn [drv dev]. rewrite views_goto. by apply (core_publish _ _ _ _ _ _ HC p _ _ c d').
  - eapply (sched_move s p r (Notify c) _ d' _ _ HS Hl Hr); try done; [intros b y; by right|].
    intros q r' Hq. by eapply core_one_request.
  - rewrite !abs_views. cbn [drv dev]. rewrite views_goto. f_equal. change (views (rw_publish s)) with (views s).
    change (vd (goto _ _ _ _)) with d'. rewrite fmap_insert.
    replace (abs_view d' <$> views s) with (abs_view (vd s) <$> views s) by (symmetry; by apply abs_view_same).
    apply insert_id. by rewrite lookup_fmap, Hv.
Qed.

Lemma notify_sim m p r c :
  vinv m → vlock (drv m) = Some (Thread p) → vreqs (drv m) !! p = Some r → q_at r = Notify c →
  ∃ s', rw_run (drv m) p r = Ok (false, s') ∧ simulates m None (mk_machine s' (dev m)).
Proof.
  destruct m as [s dv]. intros [(Q & U & HC) HS] Hl Hr Ha. cbn [drv dev] in *. unfold rw_run. rewrite Ha.
  eexists. split; [done|]. apply (simulates_same (mk_machine s dv) _ Q U); cbn [drv dev]; try done.
  - change (views (goto s p r (Poll c)) = views s). by apply views_goto_same; rewrite ?Ha.
  - eapply (sched_move s p r (Poll c) _ (vd s) _ _ HS Hl Hr); try done; [intros b y; by right|].
    intros q r' Hq. by eapply core_one_request.
Qed.

Lemma wait_sim m p r c x :
  vinv m → vlock (drv m) = Some (Thread p) → vreqs (drv m) !! p = Some r → q_at r = Poll c →
  vbufs (drv m) !! q_buf r = Some x → b_disk x = 1 →
  ∃ s', rw_run (drv m) p r = Ok (false, s') ∧ simulates m None (mk_machine s' (dev m)).
Proof.
  destruct m as [s dv]. intros [(Q & U & HC) HS] Hl Hr Ha Hx Hd. cbn [drv dev] in *. unfold rw_run, get_vbuf. rewrite Ha, Hx, bind_Ok, Hd.
  eexists. split; [done|]. apply (simulates_same (mk_machine s dv) _ Q U); cbn [drv dev]; try done.
  - change (views (goto s p r (SleepBuf c)) = views s). by apply views_goto_same; rewrite ?Ha.
  - eapply (sched_move s p r (SleepBuf c) None (vd s) _ _ HS Hl Hr); try done; [intros c' y _ Hy; cbn in *; congruence|intros b y; by right|].
    intros q r' Hq. by eapply core_one_request.
Qed.

Lemma sched_return s p d' g :
  sched s → vlock s = Some (Thread p) →
  sched (mk_driver d' (vbufs s) (delete p (wake ChFree <$> vreqs s)) None g).
Proof.
  intros [S1 S2 S3 S4 S5] Hl.
  assert (Hlk : ∀ q r, delete p (wake ChFree <$> vreqs s) !! q = Some r → q ≠ p ∧ vreqs (vwakeup s ChFree) !! q = Some r).
  { intros q r. cbn. rewrite lookup_delete_Some. naive_solver. }
  pose proof (sched_wakeup s ChFree ltac:(by constructor)) as [W1 W2 W3 W4 W5].
  assert (Hother : ∀ q r, q ≠ p → vreqs (vwakeup s ChFree) !! q = Some r → needs_lock (q_at r) = false).
  { intros q r Hq Hr. destruct (needs_lock (q_at r)) eqn:E; [|done]. specialize (W1 q r Hr E). cbn in W1. congruence. }
  constructor; cbn.
  - intros q r [Hq Hr]%Hlk Hn. rewrite (Hother q r Hq Hr) in Hn. done.
  - done.
  - intros q r c [Hq Hr]%Hlk Ha. pose proof (Hother q r Hq Hr) as Hn. by rewrite Ha in Hn.
  - intros q r c x [Hq Hr]%Hlk Ha. by eapply W4.
  - intros q r [Hq Hr]%Hlk Ha. by destruct (wake_free_awake _ _ _ Hr).
Qed.

Lemma return_sim m p r c x :
  vinv m → vlock (drv m) = Some (Thread p) → vreqs (drv m) !! p = Some r → q_at r = Poll c →
  vbufs (drv m) !! q_buf r = Some x → b_disk x ≠ 1 →
  ∃ s', rw_run (drv m) p r = Ok (true, s') ∧ vbufs s' = vbufs (drv m) ∧
    simulates m (Some (Return p (q_buf r) (q_write r) (b_blockno x) (b_data x))) (mk_machine s' (dev m)).
Proof.
  destruct m as [s dv]. intros [(Q & U & HC) HS] Hl Hr Ha Hx Hd. cbn [drv dev] in *. unfold rw_run, get_vbuf. rewrite Ha, Hx, bind_Ok.
  rewrite (proj2 (Z.eqb_neq (b_disk x) 1)) by done.
  pose proof (views_lookup s p r Hr) as Hv. unfold view_of in Hv. rewrite Ha in Hv. cbn in Hv. set (v := mk_view _ _ _ _) in Hv.
  pose proof (co_chain _ _ _ _ _ _ HC p v c x Hv eq_refl Hx) as Hch. cbn in Hch.
  pose proof (core_sized _ _ _ _ _ _ HC) as Hsz. destruct (ch_info _ _ _ _ _ Hch) as [st Hi].
  pose proof (ch_range _ _ _ _ _ Hch _ (in_chain_0 c)) as R0.
  unfold rw_finish. rewrite (arr_get_lookup _ _ _ (proj1 R0) Hi), bind_Ok.
  rewrite arr_set_in_range by (rewrite (sz_info _ Hsz); lia). rewrite bind_Ok. cbn [i_status]. set (s1 := with_vd s _).
  assert (Hown : ∀ i, in_chain i c → free (vd s) !! Z.to_nat i = Some 0) by (intros i Hic; by eapply (co_own _ _ _ _ _ _ HC p v c)).
  rewrite (free_chain_ok s1 (vd s) _ _ _ c (co_desc _ _ _ _ _ _ HC) (co_flen _ _ _ _ _ _ HC) Hch eq_refl Hown).
  destruct (free_descs_ok [c_0 c; c_1 c; c_2 c] s1) as (ds & fr & rq & -> & [G1 G2 G3 G4 G5]); [apply HC..| | |].
  { destruct (ch_diff _ _ _ _ _ Hch) as (D1 & D2 & D3). repeat (apply NoDup_cons; split; [rewrite ?elem_of_cons, ?elem_of_nil; naive_solver|]). constructor. }
  { intros i Hin. assert (Hic : in_chain i c) by (rewrite !elem_of_cons, elem_of_nil in Hin; unfold in_chain; tauto).
    split; [by eapply ch_range|by apply Hown]. }
  rewrite bind_Ok. eexists. split; [done|]. split; [done|].
  assert (Hin : ∀ i, i ∈ [c_0 c; c_1 c; c_2 c] ↔ in_chain i c) by (intros i; rewrite !elem_of_cons, elem_of_nil; unfold in_chain; tauto).
  rewrite decide_False in G3 by done. subst rq. set (d' := with_free _ _).
  assert (Hag : ∀ i, 0 ≤ i → ¬ in_chain i c → agree (vd s) d' i).
  { intros i Hi0 Hni. split; [|split; [done|]]; cbn; [apply G5; [done|by rewrite Hin]|].
    rewrite list_lookup_insert_ne; [done|]. unfold in_chain in Hni. lia. }
  assert (Hst : status (vd s) (c_0 c) = 0).
  { pose proof (co_stage _ _ _ _ _ _ HC p v c x Hv eq_refl Hx) as Hsg. cbn in Hsg. naive_solver. }
  set (s2 := unlock _).
  assert (Ev : views s2 = delete p (views s)) by (unfold views; cbn; rewrite fmap_delete; f_equal; apply (views_wakeup s ChFree)).
  split; [split|right].
  - exists Q, U. cbn [drv dev]. rewrite Ev. apply (core_release _ _ _ _ _ _ HC p v c x d'); try done; try apply Hsz.
    + intros i Hi'. cbn. rewrite G4 by done. apply decide_ext. apply Hin.
    + cbn. rewrite zlen_insert. apply Hsz.
  - apply (sched_return s p d' _ HS Hl).
  - rewrite !abs_views. cbn [drv dev]. rewrite Ev.
    replace (abs_view (vd s2) <$> delete p (views s)) with (delete p (abs_view (vd s) <$> views s)).
    + apply (a_return (mk_astate _ _ _)); cbn [a_reqs a_bufs].
      * rewrite lookup_fmap, Hv. cbn. unfold abs_view. cbn. by rewrite Hst.
      * cbn. by rewrite lookup_fmap, Hx.
    + rewrite <- fmap_delete. symmetry. apply abs_view_same. intros q v' c' [Hqp Hq]%lookup_delete_Some Hc'.
      apply status_frame. apply Hag; [pose proof (chain_range _ _ _ _ _ _ HC q v' c' _ Hq Hc' (in_chain_0 c')); lia|].
      intros Hic. apply Hqp. symmetry. by eapply (co_disj _ _ _ _ _ _ HC q p v' v c' c _ Hq Hv Hc' eq_refl (in_chain_0 c')).
Qed.

(** ** The interrupt handler *)

(** No caller has the lock, and none gets it. *)
Lemma lock_sim m l g :
  vinv m → (∀ p, vlock (drv m) ≠ Some (Thread p)) → (∀ p, l ≠ Some (Thread p)) →
  simulates m None (mk_machine (with_vlock (with_vmmio (drv m) g) l) (dev m)).
Proof.
  intros [(Q & U & HC) [S1 S2 S3 S4 S5]] Hl Hl'. apply (simulates_same m _ Q U); try done.
  constructor; cbn; try done.
  - intros p r Hr Hn. specialize (S1 p r Hr Hn). by destruct (Hl p).
  - intros p Hp. by destruct (Hl' p).
Qed.

Lemma handler_sim m :
  vinv m → vlock (drv m) = None → simulates m None (mk_machine (with_vlock (drv m) (Some (Handler IrqStatus))) (dev m)).
Proof. intros Hinv Hl. apply (lock_sim m _ (vmmio (drv m)) Hinv); [by rewrite Hl|done]. Qed.

(** The request at the front of the used ring. *)
Lemma used_front d bufs dv V h Q U :
  core d bufs dv V Q (h :: U) →
  ∃ e p v c x st, used_ring d !! Z.to_nat (used_idx d mod NUM) = Some e ∧ u_id e = h ∧ 0 ≤ h < NUM ∧
    V !! p = Some v ∧ v_chain v = Some c ∧ c_0 c = h ∧ v_pub v = true ∧ bufs !! v_b v = Some x ∧ b_disk x = 1 ∧
    info d !! Z.to_nat h = Some (mk_info (Some (v_b v)) st) ∧ st ≠ 255.
Proof.
  intros HC. pose proof (co_used _ _ _ _ _ _ HC) as Hu. pose proof (ring_pop NUM (2 ^ 16) _ _ _ _ _ Hu) as [Hcell _].
  pose proof (rg_len _ _ _ _ _ _ Hu) as Hlen. unfold zlen in Hlen. rewrite length_fmap in Hlen.
  pose proof (Z.mod_pos_bound (used_idx d) NUM ltac:(done)) as Hm.
  destruct (lookup_lt_is_Some_2 (used_ring d) (Z.to_nat (used_idx d mod NUM))) as [e He]; [lia|].
  unfold cell in Hcell. rewrite list_lookup_fmap, He in Hcell. cbn in Hcell.
  destruct (co_heads _ _ _ _ _ _ HC h) as (p & v & c & x & Hp & Hc & Hpub & Eh & Hx & Hd); [left; apply elem_of_app; right; apply elem_of_cons; by left|].
  pose proof (co_chain _ _ _ _ _ _ HC p v c x Hp Hc Hx) as Hch. destruct (ch_info _ _ _ _ _ Hch) as [st Hi].
  pose proof (ch_range _ _ _ _ _ Hch _ (in_chain_0 c)) as Hr. rewrite Eh in *.
  exists e, p, v, c, x, st. split_and!; try done; try lia.
  pose proof (co_stage _ _ _ _ _ _ HC p v c x Hp Hc Hx) as Hs. rewrite Hpub, Eh in Hs. unfold stage, status in Hs. rewrite Hi in Hs. cbn in Hs.
  assert (HU : h ∈ h :: U) by (apply elem_of_cons; by left).
  assert (HQ : h ∉ Q) by (intros Hin; by apply (proj1 (proj2 (proj1 (NoDup_app _ _) (co_nodup _ _ _ _ _ _ HC))) h Hin)).
  assert (HP : h ∉ pending dv) by (intros Hin; apply (co_sep _ _ _ _ _ _ HC h Hin), elem_of_app; auto).
  destruct Hs as [(_ & [?|?] & _)|[(_ & _ & ?)|(E & _)]]; try done. congruence.
Qed.

Lemma intr_sim m ph :
  vinv m → vlock (drv m) = Some (Handler ph) →
  (∃ s', intr_run (drv m) ph = Ok s' ∧ simulates m None (mk_machine s' (dev m))) ∨
  (intr_run (drv m) ph = Panic "virtio_disk_intr status" ∧ ∃ p b w, a_reqs (abs m) !! p = Some (AFailed b w)).
Proof.
  intros Hinv Hl. destruct ph as [|v|]; cbn [intr_run].
  { left. eexists. split; [done|]. apply (lock_sim m _ (vmmio (drv m)) Hinv); [by rewrite Hl|done]. }
  { left. eexists. split; [done|]. apply (lock_sim m _ _ Hinv); [by rewrite Hl|done]. }
  destruct (Z.eqb_spec (used_idx (vd (drv m))) (used_cnt (vd (drv m)))) as [E|Hne]; cbn [negb].
  { left. eexists. split; [done|]. apply (lock_sim m None (vmmio (drv m)) Hinv); [by rewrite Hl|done]. }
  destruct m as [s dv]. destruct Hinv as [(Q & U & HC) HS]. cbn [drv dev] in *. destruct U as [|h U].
  { destruct Hne. symmetry. by apply (ring_empty NUM (2 ^ 16) _ _ _ _ (co_used _ _ _ _ _ _ HC)). }
  destruct (used_front _ _ _ _ _ _ _ HC) as (e & p & v & c & x & st & He & Eid & Rh & Hp & Hc & Eh & Hpub & Hx & Hd & Hi & Hst).
  unfold intr_one.
  rewrite (arr_get_lookup _ _ _ (proj1 (Z.mod_pos_bound (used_idx (vd s)) NUM ltac:(done))) He), bind_Ok, Eid.
  rewrite i32_small by (unfold NUM in Rh; lia). rewrite (arr_get_lookup _ _ _ (proj1 Rh) Hi), bind_Ok. cbn [i_status i_b].
  assert (Hstat : status (vd s) h = st) by (unfold status; by rewrite Hi).
  destruct (Z.eqb_spec st 0) as [->|Hnz]; cbn [negb].
  - left. unfold get_vbuf. rewrite Hx, bind_Ok. eexists. split; [done|].
    set (d' := with_used_idx (vd s) (u16 (used_idx (vd s) + 1))). set (bufs' := <[v_b v := set_b_disk x 0]> (vbufs s)).
    apply (simulates_same (mk_machine s dv) _ Q U); cbn [drv dev].
    + apply (views_wakeup s (ChBuf (v_b v))).
    + by apply (core_seen _ _ _ _ _ _ HC h U p v c x).
    + apply (sched_change (vwakeup s (ChBuf (v_b v))) d' bufs' (vmmio s)); try done; [by apply sched_wakeup|].
      intros b y. unfold bufs'. rewrite lookup_insert_Some. intros [[<- <-]|[_ Hy]]; [right|left; by exists y].
      intros q r c' Hr Eb. by eapply wake_buf_awake.
    + done.
    + by apply abs_buf_same with x.
  - right. split; [done|]. exists p, (v_b v), (v_w v). rewrite abs_views. cbn [a_reqs drv]. rewrite lookup_fmap, Hp. cbn. f_equal.
    unfold abs_view. rewrite Hc, Eh, Hstat. by rewrite (proj2 (Z.eqb_neq st 255)), (proj2 (Z.eqb_neq st 0)) by done.
Qed.

(** ** The device *)

(** A request the device works on. *)
Lemma pending_request m Q U h :
  core (vd (drv m)) (vbufs (drv m)) (dev m) (views (drv m)) Q U → h ∈ pending (dev m) →
  ∃ p v c x, views (drv m) !! p = Some v ∧ v_chain v = Some c ∧ c_0 c = h ∧ vbufs (drv m) !! v_b v = Some x ∧
    decode (vd (drv m)) h = Some (mk_io (negb (v_w v =? 0)) (2 * b_blockno x) 2 (v_b v) h) ∧
    abs_view (vd (drv m)) v = APending (v_b v) (v_w v).
Proof.
  intros HC Hh. destruct (co_heads _ _ _ _ _ _ HC h) as (p & v & c & x & Hp & Hc & Hpub & Eh & Hx & Hd); [by right|].
  exists p, v, c, x. do 4 (split; [done|]). pose proof (co_chain _ _ _ _ _ _ HC p v c x Hp Hc Hx) as Hch.
  split; [rewrite <- Eh; by eapply decode_ok|]. unfold abs_view. rewrite Hc, Eh.
  pose proof (co_stage _ _ _ _ _ _ HC p v c x Hp Hc Hx) as Hs. rewrite Hpub, Eh in Hs. unfold stage in Hs.
  pose proof (co_sep _ _ _ _ _ _ HC h Hh) as Hn. rewrite elem_of_app in Hn.
  assert (status (vd (drv m)) h = 255) as ->; [|done]. rewrite elem_of_app in Hs. tauto.
Qed.

Lemma status_report d h st len : zlen (info d) = NUM → 0 ≤ h < NUM → status (report d h h st len) h = st.
Proof.
  intros Hl Hr. unfold status, report. cbn. rewrite list_lookup_alter_eq.
  destruct (lookup_lt_is_Some_2 (info d) (Z.to_nat h)) as [y ->]; [unfold zlen, NUM in *; lia|done].
Qed.

Lemma abs_report d bufs dv V Q U h p v c st len :
  core d bufs dv V Q U → V !! p = Some v → v_chain v = Some c → c_0 c = h →
  abs_view (report d h h st len) <$> V = <[p := abs_view (report d h h st len) v]> (abs_view d <$> V).
Proof.
  intros HC Hp Hc Eh. apply map_eq. intros q. rewrite lookup_fmap. destruct (decide (q = p)) as [->|Hqp].
  - by rewrite lookup_insert_eq, Hp.
  - rewrite lookup_insert_ne, lookup_fmap by done. destruct (V !! q) as [v'|] eqn:Hq; [|done]. cbn. f_equal.
    unfold abs_view. destruct (v_chain v') as [c'|] eqn:Hc'; [|done].
    assert (E : status (report d h h st len) (c_0 c') = status d (c_0 c')); [|by rewrite E].
    unfold status, report. cbn. rewrite list_lookup_alter_ne; [done|].
    pose proof (chain_range _ _ _ _ _ _ HC q v' c' _ Hq Hc' (in_chain_0 c')). pose proof (chain_range _ _ _ _ _ _ HC p v c _ Hp Hc (in_chain_0 c)).
    assert (c_0 c' ≠ h); [|lia]. intros E. apply Hqp. eapply (head_inj _ _ _ _ _ _ HC q p v' v c' c); congruence.
Qed.

(** The end of a request, whatever its outcome. *)
Lemma finish_ok m Q U h p v c x x' secs st len :
  core (vd (drv m)) (vbufs (drv m)) (dev m) (views (drv m)) Q U → sched (drv m) → h ∈ pending (dev m) →
  views (drv m) !! p = Some v → v_chain v = Some c → c_0 c = h → vbufs (drv m) !! v_b v = Some x →
  b_disk x' = b_disk x → b_blockno x' = b_blockno x → zlen (b_data x') = BSIZE →
  (∀ k y, secs !! k = Some y → length y = 512%nat) → st ≠ 255 →
  let m' := finish m h (mk_io (negb (v_w v =? 0)) (2 * b_blockno x) 2 (v_b v) h) x' secs st len in
  vinv m' ∧
  abs m' = mk_astate (<[p := if st =? 0 then ADone (v_b v) (v_w v) else AFailed (v_b v) (v_w v)]> (a_reqs (abs m)))
             (<[v_b v := (b_blockno x, b_data x')]> (a_bufs (abs m))) (block_at secs).
Proof.
  intros HC HS Hh Hp Hc Eh Hx Ed En El Hs Hst m'.
  pose proof (chain_range _ _ _ _ _ _ HC p v c _ Hp Hc (in_chain_0 c)) as Hr. rewrite Eh in Hr.
  split; [split|].
  - exists Q, (U ++ [h]). by apply (core_report _ _ _ _ _ _ HC h p v c x).
  - apply (sched_change (drv m)); try done. cbn. intros b y. rewrite lookup_insert_Some. intros [[<- <-]|[_ Hy]]; [|by left; exists y].
    left. by exists x.
  - rewrite !abs_views. unfold m'. cbn [drv dev finish a_reqs a_bufs sectors]. f_equal.
    + change (views (with_vmmio _ _)) with (views (drv m)). cbn [vd with_vmmio with_vd put_vbuf with_vbufs io_status].
      rewrite (abs_report _ _ _ _ _ _ _ p v c _ _ HC Hp Hc Eh). f_equal. unfold abs_view. rewrite Hc, Eh.
      rewrite status_report by (done || apply HC). by rewrite (proj2 (Z.eqb_neq st 255)).
    + cbn. rewrite fmap_insert. unfold abs_buf. by rewrite En.
Qed.

Lemma device_sim m m' : vinv m → virtio_step m m' → simulates m None m'.
Proof.
  intros [(Q & U & HC) HS] Hstep. destruct Hstep as [h Hne Hlk|h q x len Hh Hq Hw Hx|h q x len Hh Hq Hw Hx|h q x data secs st len Hh Hq Hx Hst Hlen Hsame Hs Hout|_ _].
  - pose proof (co_avail _ _ _ _ _ _ HC) as Ha. destruct Q as [|h' Q].
    { destruct Hne. symmetry. by apply (ring_empty NUM (2 ^ 16) _ _ _ _ Ha). }
    pose proof (ring_pop NUM (2 ^ 16) _ _ _ _ _ Ha) as [Hcell _]. unfold cell in Hcell. rewrite Hlk in Hcell. cbn in Hcell. unfold id in Hcell. subst h'.
    split; [|by left]. split; [|done]. exists Q, U. by apply (core_fetch _ _ _ _ _ _ HC).
  - destruct (pending_request m Q U h HC Hh) as (p & v & c & x0 & Hp & Hc & Eh & Hx0 & Hdec & Habs).
    rewrite Hdec in Hq. injection Hq as <-. cbn in Hx, Hw. rewrite Hx0 in Hx. injection Hx as ->.
    cbn [io_sector io_count]. change (read_sectors (sectors (dev m)) (2 * b_blockno x) 2) with (block_at (sectors (dev m)) (b_blockno x)).
    edestruct (finish_ok m Q U h p v c x (set_b_data x (block_at (sectors (dev m)) (b_blockno x))) (sectors (dev m)) 0 len HC HS) as [Hi Ea];
      try done; [apply block_len, HC|apply HC|].
    split; [exact Hi|right]. rewrite Ea. cbn [Z.eqb].
    assert (v_w v = 0) as Ew by (by apply Z.eqb_eq, negb_false_iff). rewrite Ew in *.
    apply (a_read (abs m) p (v_b v) (b_blockno x) (b_data x)); rewrite abs_views; cbn [a_reqs a_bufs]; rewrite lookup_fmap; [rewrite Hp|by rewrite Hx0].
    cbn. by rewrite Habs, ?Ew.
  - destruct (pending_request m Q U h HC Hh) as (p & v & c & x0 & Hp & Hc & Eh & Hx0 & Hdec & Habs).
    rewrite Hdec in Hq. injection Hq as <-. cbn in Hx, Hw. rewrite Hx0 in Hx. injection Hx as ->. cbn [io_sector io_count].
    pose proof (co_blen _ _ _ _ _ _ HC _ _ Hx0) as Hbl.
    edestruct (finish_ok m Q U h p v c x x (write_sectors (sectors (dev m)) (2 * b_blockno x) 2 (b_data x)) 0 len HC HS) as [Hi Ea]; try done.
    { apply write_sectors_len; [apply HC|]. unfold zlen, BSIZE in Hbl. lia. }
    split; [exact Hi|right]. rewrite Ea. cbn [Z.eqb].
    assert (Eb : a_bufs (abs m) !! v_b v = Some (b_blockno x, b_data x)) by (rewrite abs_views; cbn [a_bufs]; by rewrite lookup_fmap, Hx0).
    rewrite (insert_id (a_bufs (abs m))) by done.
    apply (a_write (abs m) p (v_b v) (v_w v) (b_blockno x) (b_data x)); [|by apply Z.eqb_neq, negb_true_iff|done|intros k; by apply block_write].
    rewrite abs_views; cbn [a_reqs]. by rewrite lookup_fmap, Hp, <- Habs.
  - destruct (pending_request m Q U h HC Hh) as (p & v & c & x0 & Hp & Hc & Eh & Hx0 & Hdec & Habs).
    rewrite Hdec in Hq. injection Hq as <-. cbn in Hx, Hout. rewrite Hx0 in Hx. injection Hx as ->.
    pose proof (co_blen _ _ _ _ _ _ HC _ _ Hx0) as Hbl.
    edestruct (finish_ok m Q U h p v c x (set_b_data x data) secs st len HC HS) as [Hi Ea]; try done; [cbn; unfold zlen in *; lia|lia|].
    split; [exact Hi|right]. rewrite Ea, (proj2 (Z.eqb_neq st 0)) by lia.
    apply (a_fail (abs m) p (v_b v) (v_w v) (b_blockno x) (b_data x)); [rewrite abs_views; cbn [a_reqs]; by rewrite lookup_fmap, Hp, <- Habs| |by apply block_outside].
    rewrite abs_views; cbn [a_bufs]. by rewrite lookup_fmap, Hx0.
  - split; [split; [by exists Q, U|]|by left]. by apply (sched_change (drv m)); eauto.
Qed.

(** ** Calls and owners of buffers *)

Lemma unused_views s b : unused s b → ∀ q v, views s !! q = Some v → v_b v ≠ b.
Proof. intros Hu q v (r & Hr & ->)%views_inv. by apply (Hu q). Qed.

Lemma unused_abs m b : unused (drv m) b → ∀ q r, a_reqs (abs m) !! q = Some r → a_buf r ≠ b.
Proof.
  intros Hu q r. cbn. rewrite lookup_fmap. destruct (vreqs (drv m) !! q) as [r0|] eqn:E; [|done]. intros [= <-].
  specialize (Hu q r0 E). unfold abs_req. repeat case_match; done.
Qed.

Lemma outside_sim m e m' : vinv m → outside m e m' → simulates m e m'.
Proof.
  intros Hinv Hstep. pose proof Hinv as [(Q & U & HC) HS]. destruct Hstep as [p b w x Hp Hu Hx Hn|b x n data Hu Hx Hl|Hl].
  - split; [split|right].
    + exists Q, U. cbn [drv dev]. unfold views. cbn. rewrite fmap_insert.
      apply (core_add _ _ _ _ _ _ HC p b w x); try done; [unfold views; by rewrite lookup_fmap, Hp|by apply unused_views].
    + destruct HS as [S1 S2 S3 S4 S5].
      assert (Hlk : ∀ q r, <[p := mk_request b w Start]> (vreqs (drv m)) !! q = Some r →
                (q = p ∧ r = mk_request b w Start) ∨ (q ≠ p ∧ vreqs (drv m) !! q = Some r)).
      { intros q r. rewrite lookup_insert_Some. naive_solver. }
      constructor; cbn; intros q; [intros r [[-> ->]|[Hq Hr]]%Hlk|intros Hq|intros r c [[-> ->]|[Hq Hr]]%Hlk|
        intros r c y [[-> ->]|[Hq Hr]]%Hlk|intros r [[-> ->]|[Hq Hr]]%Hlk]; eauto; try done.
      destruct (S2 q Hq) as (r & Hr & Hnl). exists r. rewrite lookup_insert_ne; [done|]. intros <-. congruence.
    + unfold abs. cbn. rewrite fmap_insert. apply (a_call (abs m)); [cbn; by rewrite lookup_fmap, Hp|by apply unused_abs].
  - split; [split|right].
    + exists Q, U. apply (core_touch _ _ _ _ _ _ HC); [by apply unused_views|done].
    + apply (sched_change (drv m)); try done. cbn. intros b' y. rewrite lookup_insert_Some.
      intros [[<- <-]|[_ Hy]]; left; [by exists x|by exists y].
    + unfold abs. cbn. rewrite fmap_insert. apply (a_touch (abs m)). by apply unused_abs.
  - by apply handler_sim.
Qed.
