(* ===== verification/VirtioThm.v ===== *)
(** * What the disk driver guarantees. *)

From Stdlib Require Import ZifyBool.
From S2P Require Import Prelude Riscv Ring Bio Kalloc Virtio VirtioSpec VirtioProof VirtioStep VirtioRun.

(** ** All steps *)

Lemma rw_run_sim m p r :
  vinv m → vlock (drv m) = Some (Thread p) → vreqs (drv m) !! p = Some r →
  (∃ s', rw_run (drv m) p r = Ok (false, s') ∧ simulates m None (mk_machine s' (dev m))) ∨
  (∃ s' x, rw_run (drv m) p r = Ok (true, s') ∧ vbufs s' !! q_buf r = Some x ∧
     simulates m (Some (Return p (q_buf r) (q_write r) (b_blockno x) (b_data x))) (mk_machine s' (dev m))).
Proof.
  intros Hinv Hl Hr. pose proof Hinv as [(Q & U & HC) HS]. destruct (sc_hold _ HS p Hl) as (r' & Hr' & Hn).
  assert (r' = r) as -> by congruence. destruct (q_at r) as [| | | |c|c|c|c|c] eqn:Ha; try done.
  - left. by apply alloc_sim.
  - left. by apply (publish_sim m p r c).
  - left. by apply (notify_sim m p r c).
  - destruct (co_buf _ _ _ _ _ _ HC p _ (views_lookup _ _ _ Hr)) as (x & Hx & _). cbn in Hx.
    destruct (decide (b_disk x = 1)) as [Hd|Hd]; [left; by apply (wait_sim m p r c x)|right].
    destruct (return_sim m p r c x Hinv Hl Hr Ha Hx Hd) as (s' & E & Eb & Hs). exists s', x. by rewrite Eb.
Qed.

Lemma start_inv bufs secs : good_start bufs secs → vinv (machine0 bufs secs).
Proof.
  intros [Hb Hs]. split; [exists [], []|constructor; cbn; done].
  assert (Hring : ∀ l, zlen l = NUM → ring NUM (2 ^ 16) l 0 0 []) by (intros l Hl; by apply (ring_nil NUM (2 ^ 16))).
  constructor; cbn; try done; try (by apply Hring); try apply NoDup_nil_2.
  - intros i Hi. left. rewrite lookup_replicate_2; [done|]. unfold NUM in *. lia.
  - intros h [H|H]; [by apply elem_of_nil in H|set_solver].
Qed.

(** Someone holds a chain while fewer than three descriptors are free. *)
Lemma chain_held m Q U : core (vd (drv m)) (vbufs (drv m)) (dev m) (views (drv m)) Q U → (nfree (vd (drv m)) < 3)%nat →
  ∃ q r c, vreqs (drv m) !! q = Some r ∧ point_chain (q_at r) = Some c.
Proof.
  intros HC Hn. destruct (decide (Forall (λ x, x = 1) (free (vd (drv m))))) as [Hall|Hex].
  - exfalso. assert (E : free (vd (drv m)) = replicate 8 1).
    { symmetry. apply replicate_as_elem_of. pose proof (co_flen _ _ _ _ _ _ HC) as Hl. unfold zlen, NUM in Hl. split; [lia|].
      by apply Forall_forall. }
    unfold nfree in Hn. rewrite E in Hn. vm_compute in Hn. lia.
  - apply not_Forall_Exists in Hex; [|intros; apply _]. apply Exists_exists in Hex as (f & Hf & Hne).
    apply list_elem_of_lookup_1 in Hf as [i Hi]. pose proof (lookup_lt_Some _ _ _ Hi) as Hlt.
    pose proof (co_flen _ _ _ _ _ _ HC) as Hl. unfold zlen in Hl.
    destruct (co_free _ _ _ _ _ _ HC (Z.of_nat i) ltac:(lia)) as [E|(_ & q & v & c & Hq & Hc & _)].
    { rewrite Nat2Z.id in E. cbn in Hne. congruence. }
    apply views_inv in Hq as (r & Hr & ->). by exists q, r, c.
Qed.

(** ** Signals between driver and device *)

(** The device is notified of what it has not fetched, or the caller that published
    it is about to; it interrupts for what the handler has not seen, or the handler is
    in its loop and will see it. *)
Record signals (m : machine) : Prop := {
  sg_notified : avail_idx (vd (drv m)) ≠ last_avail (dev m) → notified (vmmio (drv m)) = true ∨
    ∃ p r c, vlock (drv m) = Some (Thread p) ∧ vreqs (drv m) !! p = Some r ∧ q_at r = Notify c;
  sg_isr : used_idx (vd (drv m)) ≠ used_cnt (vd (drv m)) → Z.testbit (isr (vmmio (drv m))) 0 = true ∨
    vlock (drv m) = Some (Handler IrqLoop);
}.

(** ** How much is left to do *)

Definition weight (a : point) : nat :=
  match a with
  | Start | SleepFree | WakeFree => 100
  | Alloc => 101
  | Publish _ => 60
  | Notify _ => 45
  | WakeBuf _ => 21
  | Poll _ => 20
  | SleepBuf _ => 19
  end.

Definition weights (q : gmap Z request) : gmap Z nat := (λ r, weight (q_at r)) <$> q.

Definition total (w : gmap Z nat) : nat := map_fold (λ _ n t, n + t)%nat O w.

Lemma total_delete w p n : w !! p = Some n → total w = (n + total (delete p w))%nat.
Proof. intros H. unfold total. rewrite (map_fold_delete_L _ _ p n w); [done|intros; lia|done]. Qed.

Lemma total_insert w p n n' : w !! p = Some n → (total (<[p := n']> w) + n = total w + n')%nat.
Proof.
  intros H. rewrite (total_delete w p n H), (total_delete (<[p := n']> w) p n') by apply lookup_insert_eq.
  rewrite delete_insert_eq. lia.
Qed.

(** The handler, by whether the used ring holds entries it has not seen. *)
Definition handler_left (l : option holder) (u : bool) : nat :=
  match l with
  | Some (Handler IrqStatus) => if u then 4 else 3
  | Some (Handler (IrqAck _)) => if u then 3 else 2
  | Some (Handler IrqLoop) => if u then 2 else 1
  | _ => if u then 5 else 0
  end.

Definition navail (d : vdisk) (dv : device) : nat := Z.to_nat ((avail_idx d - last_avail dv) mod 2 ^ 16).
Definition nused (d : vdisk) : nat := Z.to_nat ((used_cnt d - used_idx d) mod 2 ^ 16).

Definition left_to_do (m : machine) : nat :=
  total (weights (vreqs (drv m))) + 14 * navail (vd (drv m)) (dev m) + 13 * size (pending (dev m)) + 6 * nused (vd (drv m)) +
  handler_left (vlock (drv m)) (negb (used_idx (vd (drv m)) =? used_cnt (vd (drv m)))) + (if notified (vmmio (drv m)) then 1 else 0).

(** The code that does not touch the rings, the registers or the lock, and wakes no
    one but callers that look for descriptors. *)
Record quiet (s s' : driver) : Prop := {
  qu_avail : avail_idx (vd s') = avail_idx (vd s);
  qu_used : used_idx (vd s') = used_idx (vd s);
  qu_cnt : used_cnt (vd s') = used_cnt (vd s);
  qu_lock : vlock s' = vlock s;
  qu_mmio : vmmio s' = vmmio s;
  qu_weights : weights (vreqs s') = weights (vreqs s);
}.

#[local] Instance quiet_refl : Reflexive quiet.
Proof. by constructor. Qed.
#[local] Instance quiet_trans : Transitive quiet.
Proof. intros s1 s2 s3 [] []. constructor; congruence. Qed.

Lemma wake_free_weights q : weights (wake ChFree <$> q) = weights q.
Proof.
  unfold weights. rewrite <- map_fmap_compose. apply map_fmap_ext. intros p r _. unfold wake, compose. by destruct r as [b w []].
Qed.

Lemma free_desc_quiet s i s' : free_desc s i = Ok s' → quiet s s'.
Proof.
  unfold free_desc. destruct (NUM <=? i); [done|]. intros (f & _ & E)%bind_Ok_inv. destruct (negb _); [done|].
  apply bind_Ok_inv in E as (ds & _ & E). apply bind_Ok_inv in E as (fr & _ & E). injection E as <-.
  constructor; try done. apply wake_free_weights.
Qed.

Lemma free_descs_quiet idx : ∀ s s', free_descs s idx = Ok s' → quiet s s'.
Proof.
  induction idx as [|i idx IH]; intros s s'; cbn [free_descs]; [by intros [= <-]|].
  intros (s1 & E1%free_desc_quiet & E)%bind_Ok_inv. etrans; [done|by apply IH].
Qed.

Lemma free_chain_quiet fuel : ∀ s i s', free_chain fuel s i = Ok s' → quiet s s'.
Proof.
  induction fuel as [|fuel IH]; intros s i s'; cbn [free_chain]; [done|].
  intros (x & _ & E)%bind_Ok_inv. apply bind_Ok_inv in E as (s1 & E1%free_desc_quiet & E).
  destruct (negb _); [|by injection E as <-]. etrans; [done|by eapply IH].
Qed.

Lemma alloc3_loop_quiet n : ∀ s idx o s', alloc3_loop n s idx = Ok (o, s') → quiet s s'.
Proof.
  induction n as [|n IH]; intros s idx o s'; cbn [alloc3_loop]; [by intros [= _ <-]|].
  intros ([i s1] & E1 & E)%bind_Ok_inv. unfold alloc_desc in E1. apply bind_Ok_inv in E1 as ([i' fr] & _ & E1). injection E1 as <- <-.
  destruct (i' <? 0); [|etrans; [|by eapply IH]; done].
  apply bind_Ok_inv in E as (s2 & E2%free_descs_quiet & E). injection E as _ <-. etrans; [|done]. done.
Qed.

Lemma alloc3_quiet s o s' : alloc3_desc s = Ok (o, s') → quiet s s'.
Proof.
  unfold alloc3_desc. intros ([r s1] & E1%alloc3_loop_quiet & E)%bind_Ok_inv.
  destruct r as [[|i [|j [|k []]]]|]; by injection E as _ <-.
Qed.

Lemma rw_format_quiet s b w c s' : rw_format s b w c = Ok s' → quiet s s'.
Proof. unfold rw_format. destruct c as [i j k]. intros E. repeat apply bind_Ok_inv in E as (? & _ & E). by injection E as <-. Qed.

Lemma rw_finish_quiet s c s' : rw_finish s c = Ok s' → quiet s s'.
Proof.
  unfold rw_finish. intros (x & _ & E)%bind_Ok_inv. apply bind_Ok_inv in E as (inf & _ & E%free_chain_quiet). etrans; [|done]. done.
Qed.

(** Caller [p] runs: the points it goes through. *)
Inductive moved (s : driver) (p : Z) (r : request) (s' : driver) : bool → Prop :=
| mv_take s1 c : quiet s s1 → q_at r = Alloc → s' = goto s1 p r (Publish c) → moved s p r s' false
| mv_lack s1 : quiet s s1 → q_at r = Alloc → s' = unlock (goto s1 p r SleepFree) → moved s p r s' false
| mv_publish c : q_at r = Publish c → s' = goto (rw_publish s) p r (Notify c) → moved s p r s' false
| mv_notify c : q_at r = Notify c → s' = goto (rw_notify s) p r (Poll c) → moved s p r s' false
| mv_wait c : q_at r = Poll c → s' = unlock (goto s p r (SleepBuf c)) → moved s p r s' false
| mv_return s1 c : quiet s s1 → q_at r = Poll c → s' = unlock (with_vreqs s1 (delete p (vreqs s1))) → moved s p r s' true.

Lemma rw_run_moved s p r d s' : rw_run s p r = Ok (d, s') → moved s p r s' d.
Proof.
  unfold rw_run. destruct (q_at r) as [| | | |c|c|c|c|c] eqn:Ha; try done.
  - intros ([o s1] & E1%alloc3_quiet & E)%bind_Ok_inv. destruct o as [c|].
    + apply bind_Ok_inv in E as (s2 & E2%rw_format_quiet & E). injection E as <- <-. eapply mv_take; [etrans; done|done..].
    + injection E as <- <-. by eapply mv_lack.
  - intros [= <- <-]. by eapply mv_publish.
  - intros [= <- <-]. by eapply mv_notify.
  - intros (x & _ & E)%bind_Ok_inv. destruct (b_disk x =? 1); [injection E as <- <-; by eapply mv_wait|].
    apply bind_Ok_inv in E as (s1 & E1%rw_finish_quiet & E). injection E as <- <-. by eapply mv_return.
Qed.

Lemma moved_signals m p r s' d :
  signals m → vlock (drv m) = Some (Thread p) → vreqs (drv m) !! p = Some r → moved (drv m) p r s' d → signals (mk_machine s' (dev m)).
Proof.
  intros [G1 G2] Hl Hr Hm.
  assert (N1 : (∀ c, q_at r ≠ Notify c) → avail_idx (vd (drv m)) ≠ last_avail (dev m) → notified (vmmio (drv m)) = true).
  { intros Hno Hne. destruct (G1 Hne) as [?|(q & r' & c & Hq & Hr' & Ha)]; [done|]. assert (q = p) as -> by congruence.
    assert (r' = r) as -> by congruence. by destruct (Hno c). }
  assert (N2 : used_idx (vd (drv m)) ≠ used_cnt (vd (drv m)) → Z.testbit (isr (vmmio (drv m))) 0 = true).
  { intros Hne. destruct (G2 Hne); [done|congruence]. }
  destruct Hm as [s1 c [Q1 Q2 Q3 Q4 Q5 _] Ha ->|s1 [Q1 Q2 Q3 Q4 Q5 _] Ha ->|c Ha ->|c Ha ->|c Ha ->|s1 c [Q1 Q2 Q3 Q4 Q5 _] Ha ->];
    (constructor; cbn; rewrite ?Q1, ?Q2, ?Q3, ?Q5; [|by auto]).
  1,2,5,6: intros Hne; left; apply N1; [congruence|done].
  - intros _. right. eexists p, _, c. rewrite lookup_insert_eq. split; [exact Hl|by split].
  - by left.
Qed.

Lemma weights_goto s p r a : weights (vreqs (goto s p r a)) = <[p := weight a]> (weights (vreqs s)).
Proof. unfold weights, goto. cbn. by rewrite fmap_insert. Qed.

Lemma navail_publish d dv : (navail (with_avail d (u16 (avail_idx d + 1)) (avail_ring d)) dv ≤ navail d dv + 1)%nat.
Proof. unfold navail, u16. cbn. Z.to_euclidean_division_equations. lia. Qed.

(** A step of a caller leaves less to do, much less when it has found descriptors. *)
Lemma moved_less m p r s' d :
  vlock (drv m) = Some (Thread p) → vreqs (drv m) !! p = Some r → moved (drv m) p r s' d →
  (left_to_do (mk_machine s' (dev m)) + (match q_at r, vlock s' with Alloc, Some _ => 41 | _, _ => 1 end) ≤ left_to_do m)%nat.
Proof.
  intros Hl Hr Hm. assert (Hw : weights (vreqs (drv m)) !! p = Some (weight (q_at r))) by (unfold weights; by rewrite lookup_fmap, Hr).
  pose proof (λ n', total_insert _ p _ n' Hw) as Hi. pose proof (total_delete _ p _ Hw) as Hd.
  unfold left_to_do. cbn [drv dev]. rewrite Hl.
  destruct Hm as [s1 c [Q1 Q2 Q3 Q4 Q5 Q6] Ha ->|s1 [Q1 Q2 Q3 Q4 Q5 Q6] Ha ->|c Ha ->|c Ha ->|c Ha ->|s1 c [Q1 Q2 Q3 Q4 Q5 Q6] Ha ->];
    rewrite Ha in *.
  - rewrite weights_goto, Q6. specialize (Hi (weight (Publish c))). cbn [weight] in *. unfold navail, nused. cbn -[Nat.mul total weights]. rewrite Q1, Q2, Q3, Q4, Q5, Hl. cbn [handler_left]. lia.
  - change (vreqs (unlock ?x)) with (vreqs x). rewrite weights_goto, Q6. specialize (Hi (weight SleepFree)). cbn [weight] in *. unfold navail, nused. cbn -[Nat.mul total weights]. rewrite Q1, Q2, Q3, Q5. lia.
  - rewrite weights_goto. specialize (Hi (weight (Notify c))). cbn [weight] in *. pose proof (navail_publish (vd (drv m)) (dev m)).
    change (vreqs (rw_publish (drv m))) with (vreqs (drv m)). change (vd (goto _ _ _ _)) with (vd (rw_publish (drv m))).
    change (nused (vd (rw_publish (drv m)))) with (nused (vd (drv m))). unfold rw_publish. cbn [vd with_vd used_idx used_cnt with_avail vlock goto with_vreqs vmmio]. rewrite Hl. cbn [handler_left]. lia.
  - rewrite weights_goto. specialize (Hi (weight (Poll c))). cbn [weight] in *. cbn -[Nat.mul total weights]. rewrite Hl. cbn [handler_left]. change (vreqs (rw_notify ?x)) with (vreqs x). destruct (notified _); lia.
  - change (vreqs (unlock ?x)) with (vreqs x). rewrite weights_goto. specialize (Hi (weight (SleepBuf c))). cbn [weight] in *. cbn -[Nat.mul total weights]. lia.
  - cbn [vreqs unlock with_vlock with_vreqs]. assert (E : weights (delete p (vreqs s1)) = delete p (weights (vreqs (drv m)))).
    { unfold weights. rewrite fmap_delete. f_equal. exact Q6. }
    rewrite E. cbn [weight] in *. unfold navail, nused. cbn -[Nat.mul total weights]. rewrite Q1, Q2, Q3, Q5. lia.
Qed.

Lemma wake_buf_weights q b :
  (∀ p p' r r', q !! p = Some r → q !! p' = Some r' → q_buf r = b → q_buf r' = b → p = p') →
  (total (weights (wake (ChBuf b) <$> q)) ≤ total (weights q) + 2)%nat.
Proof.
  intros Hone. destruct (decide (map_Exists (λ _ r, q_buf r = b) q)) as [(p & r & Hp & Hb)|Hno].
  - assert (E : weights (wake (ChBuf b) <$> q) = <[p := weight (q_at (wake (ChBuf b) r))]> (weights q)).
    { apply map_eq. intros p'. unfold weights. rewrite !lookup_fmap. destruct (decide (p' = p)) as [->|Hne].
      - by rewrite lookup_insert_eq, Hp.
      - rewrite lookup_insert_ne, lookup_fmap by done. destruct (q !! p') as [r'|] eqn:Hp'; [|done]. cbn. f_equal.
        unfold wake. destruct r' as [b' w' []]; try done. cbn. destruct (Z.eqb_spec b' b) as [->|]; [|done].
        destruct Hne. by apply (Hone p' p _ _ Hp' Hp). }
    rewrite E. assert (Hw : weights q !! p = Some (weight (q_at r))) by (unfold weights; by rewrite lookup_fmap, Hp).
    pose proof (total_insert _ p _ (weight (q_at (wake (ChBuf b) r))) Hw).
    assert (weight (q_at (wake (ChBuf b) r)) ≤ weight (q_at r) + 2)%nat; [|lia].
    unfold wake. destruct r as [b' w' []]; cbn; try lia. destruct (b' =? b); cbn; lia.
  - assert (weights (wake (ChBuf b) <$> q) = weights q) as ->; [|lia]. unfold weights. rewrite <- map_fmap_compose.
    apply map_fmap_ext. intros p r Hp. unfold compose, wake. destruct r as [b' w' []]; try done. cbn.
    destruct (Z.eqb_spec b' b) as [->|]; [|done]. destruct Hno. by exists p, (mk_request b w' (SleepBuf c)).
Qed.

Lemma nused_pop d : 0 ≤ used_idx d < 2 ^ 16 → 0 ≤ used_cnt d < 2 ^ 16 → used_idx d ≠ used_cnt d →
  nused d = S (nused (with_used_idx d (u16 (used_idx d + 1)))).
Proof. intros H1 H2 Hne. unfold nused, u16. cbn. Z.to_euclidean_division_equations. lia. Qed.

Lemma intr_one_inv s s' : intr_one s = Ok s' →
  ∃ b y, s' = with_vd (vwakeup (put_vbuf s b y) (ChBuf b)) (with_used_idx (vd s) (u16 (used_idx (vd s) + 1))).
Proof.
  unfold intr_one. intros (e & _ & E)%bind_Ok_inv. apply bind_Ok_inv in E as (x & _ & E). destruct (negb _); [done|].
  destruct (i_b x) as [b|]; [|done]. apply bind_Ok_inv in E as (y & _ & E). injection E as <-. by eexists b, _.
Qed.

(** A step of the handler leaves less to do. *)
Lemma intr_less m ph s' :
  vinv m → vlock (drv m) = Some (Handler ph) → intr_run (drv m) ph = Ok s' →
  (left_to_do (mk_machine s' (dev m)) < left_to_do m)%nat ∧ dom (vreqs s') = dom (vreqs (drv m)).
Proof.
  intros [(Q & U & HC) _] Hl E. unfold left_to_do. cbn [drv dev]. rewrite Hl. destruct ph as [|v|]; cbn [intr_run] in E.
  - injection E as <-. cbn -[Nat.mul total weights]. split; [|done]. destruct (negb _); lia.
  - injection E as <-. cbn -[Nat.mul total weights]. split; [|done]. destruct (negb _); lia.
  - destruct (Z.eqb_spec (used_idx (vd (drv m))) (used_cnt (vd (drv m)))) as [Eu|Hne]; cbn [negb] in *.
    { injection E as <-. cbn -[Nat.mul total weights]. rewrite Eu, Z.eqb_refl. cbn [negb]. split; [lia|done]. }
    apply intr_one_inv in E as (b & y & ->). split; [|cbn; by rewrite dom_fmap_L].
    pose proof (co_used _ _ _ _ _ _ HC) as Hu. pose proof (nused_pop _ (rg_r _ _ _ _ _ _ Hu) (rg_w _ _ _ _ _ _ Hu) Hne) as Hn.
    assert (Ht : (total (weights (wake (ChBuf b) <$> vreqs (drv m))) ≤ total (weights (vreqs (drv m))) + 2)%nat).
    { apply wake_buf_weights. intros p p' r r' Hp Hp' Eb Eb'. apply (core_one_request _ _ _ _ p' p r' r HC Hp' Hp). congruence. }
    cbn -[Nat.mul total weights u16 nused with_used_idx fmap]. rewrite Hl. cbn [handler_left].
    change (navail (with_used_idx ?d _)) with (navail d). destruct (negb _); lia.
Qed.

Lemma handler_left_grows l u u' : (handler_left l u' ≤ handler_left l u + 5)%nat.
Proof. destruct l as [[|[]]|], u, u'; cbn; lia. Qed.

Lemma finish_less m h q x secs st len :
  h ∈ pending (dev m) → (left_to_do (finish m h q x secs st len) < left_to_do m)%nat.
Proof.
  intros Hh. unfold left_to_do, finish. cbn -[Nat.mul total weights nused handler_left].
  assert (Hs : size (pending (dev m)) = S (size (pending (dev m) ∖ {[h]}))).
  { rewrite (union_difference_L {[h]} (pending (dev m))) at 1 by set_solver. rewrite size_union, size_singleton by set_solver. lia. }
  assert (Hn : (nused (report (vd (drv m)) h (io_status q) st len) ≤ nused (vd (drv m)) + 1)%nat).
  { unfold nused, u16. cbn. unfold u16. Z.to_euclidean_division_equations. lia. }
  pose proof (handler_left_grows (vlock (drv m)) (negb (used_idx (vd (drv m)) =? used_cnt (vd (drv m))))
    (negb (used_idx (vd (drv m)) =? u16 (used_cnt (vd (drv m)) + 1)))). unfold navail. change (avail_idx (report ?d _ _ _ _)) with (avail_idx d). cbn [last_avail]. lia.
Qed.

(** So does a step of the device. *)
Lemma device_less m m' : vinv m → virtio_step m m' → (left_to_do m' < left_to_do m)%nat ∧ vreqs (drv m') = vreqs (drv m).
Proof.
  intros [(Q & U & HC) _]. destruct 1 as [h Hne Hlk|h q x len Hh _ _ _|h q x len Hh _ _ _|h q x data secs st len Hh _ _ _ _ _ _ _|E Hn];
    (split; [|reflexivity]); [|by apply finish_less..|].
  - pose proof (co_avail _ _ _ _ _ _ HC) as Ha. pose proof (rg_r _ _ _ _ _ _ Ha). pose proof (rg_w _ _ _ _ _ _ Ha).
    assert (Hs : (size ({[h]} ∪ pending (dev m)) ≤ size (pending (dev m)) + 1)%nat).
    { rewrite size_union_alt, size_singleton. pose proof (subseteq_size (pending (dev m) ∖ {[h]}) (pending (dev m)) ltac:(set_solver)). lia. }
    assert (Hq : navail (vd (drv m)) (dev m) = S (navail (vd (drv m)) (mk_device (u16 (last_avail (dev m) + 1)) ({[h]} ∪ pending (dev m)) (sectors (dev m))))).
    { unfold navail, u16. cbn. Z.to_euclidean_division_equations. lia. }
    unfold left_to_do. cbn -[Nat.mul total weights nused handler_left navail union] in *. lia.
  - unfold left_to_do. cbn -[Nat.mul total weights nused handler_left navail] in *. rewrite Hn. lia.
Qed.

(** The cuts ahead of the handler. *)
Definition intr_fuel (ph : phase) (d : vdisk) : nat :=
  nused d + match ph with IrqStatus => 4 | IrqAck _ => 3 | IrqLoop => 2 end.

Lemma intr_all_ok fuel : ∀ m ph,
  vinv m → vlock (drv m) = Some (Handler ph) → (intr_fuel ph (vd (drv m)) ≤ fuel)%nat →
  (∃ s', intr_all fuel (drv m) = Ok s' ∧ rtc (λ x y, work x None y) m (mk_machine s' (dev m)) ∧
     vlock s' = None ∧ used_cnt (vd s') = used_cnt (vd (drv m)) ∧ used_idx (vd s') = used_cnt (vd (drv m))) ∨
  intr_all fuel (drv m) = Panic "virtio_disk_intr status".
Proof.
  induction fuel as [|fuel IH]; intros m ph Hinv Hl Hf; [unfold intr_fuel in Hf; destruct ph; lia|]. cbn [intr_all]. rewrite Hl.
  destruct (intr_sim m ph Hinv Hl) as [(s1 & E & Hs)|[-> _]]; [|by right]. rewrite E, bind_Ok.
  assert (Hw := w_intr_run m ph s1 Hl E). destruct Hs as [Hinv1 _].
  assert (Hnext : ∀ ph1, vlock s1 = Some (Handler ph1) → used_cnt (vd s1) = used_cnt (vd (drv m)) → (intr_fuel ph1 (vd s1) ≤ fuel)%nat →
    (∃ s', intr_all fuel s1 = Ok s' ∧ rtc (λ x y, work x None y) m (mk_machine s' (dev m)) ∧
       vlock s' = None ∧ used_cnt (vd s') = used_cnt (vd (drv m)) ∧ used_idx (vd s') = used_cnt (vd (drv m))) ∨
    intr_all fuel s1 = Panic "virtio_disk_intr status").
  { intros ph1 Hl1 Ec Hf1. destruct (IH (mk_machine s1 (dev m)) ph1 Hinv1 Hl1 Hf1) as [(s' & E' & Hr & H1 & H2 & H3)|?]; [left|by right].
    cbn [drv] in *. exists s'. rewrite <- Ec. split; [done|]. split; [by econstructor|done]. }
  destruct ph as [|v|]; cbn [intr_run] in E; unfold intr_fuel in *.
  - injection E as <-. apply (Hnext _ eq_refl eq_refl). cbn. lia.
  - injection E as <-. apply (Hnext _ eq_refl eq_refl). cbn. lia.
  - destruct (Z.eqb_spec (used_idx (vd (drv m))) (used_cnt (vd (drv m)))) as [Eu|Hne]; cbn [negb] in E.
    + injection E as <-. left. destruct fuel as [|fuel]; [lia|]. eexists. split; [done|]. split; [by eapply rtc_once|done].
    + apply intr_one_inv in E as (b & y & ->). apply (Hnext IrqLoop); [exact Hl|done|]. destruct Hinv as [(Q & U & HC) _].
      pose proof (co_used _ _ _ _ _ _ HC) as Hu. pose proof (nused_pop _ (rg_r _ _ _ _ _ _ Hu) (rg_w _ _ _ _ _ _ Hu) Hne).
      cbn -[nused with_used_idx]. lia.
Qed.

(** [virtio_disk_intr] as a whole, called when the device interrupts and the lock is
    free, is a run of the handler of the machine above: it returns with the lock
    free and every request seen that the device had reported, or panics over one
    that failed. *)
Lemma virtio_disk_intr_ok fuel m :
  vinv m → vlock (drv m) = None → isr (vmmio (drv m)) ≠ 0 → (nused (vd (drv m)) + 4 ≤ fuel)%nat →
  (∃ s', virtio_disk_intr fuel (drv m) = Ok s' ∧ rtc (λ x y, work x None y) m (mk_machine s' (dev m)) ∧
     vlock s' = None ∧ used_idx (vd s') = used_cnt (vd s')) ∨
  virtio_disk_intr fuel (drv m) = Panic "virtio_disk_intr status".
Proof.
  intros Hinv Hl Hi Hf. unfold virtio_disk_intr. rewrite Hl. pose proof (handler_sim m Hinv Hl) as [Hinv1 _].
  destruct (intr_all_ok fuel _ IrqStatus Hinv1 eq_refl Hf) as [(s' & E & Hr & H1 & H2 & H3)|?]; [left|by right].
  exists s'. split; [done|]. split; [|by rewrite H3]. eapply rtc_l; [by apply w_intr|done].
Qed.

Section device.
Context (device_step : machine → machine → Prop) `{VD : VirtioDevice device_step}.

Lemma step_sim m e m' : vinv m → step device_step m e m' → simulates m e m'.
Proof using VD.
  intros Hinv [Hw| -> Hd|Ho]; [|apply device_sim; [done|by apply vdev_spec]|by apply outside_sim].
  destruct Hw as [p r a Hl Hr Ha|p r s' Hl Hr E|p r x s' Hl Hr E Hx|Hl _|ph s' Hl E].
  - by apply acquire_sim.
  - destruct (rw_run_sim m p r Hinv Hl Hr) as [(s1 & E1 & Hs)|(s1 & x & E1 & _)]; congruence.
  - destruct (rw_run_sim m p r Hinv Hl Hr) as [(s1 & E1 & Hs)|(s1 & y & E1 & Hy & Hs)]; [congruence|].
    assert (s1 = s') as -> by congruence. assert (y = x) as -> by congruence. done.
  - by apply handler_sim.
  - destruct (intr_sim m ph Hinv Hl) as [(s1 & E1 & Hs)|[E1 _]]; congruence.
Qed.

Lemma exec_inv m tr m' : vinv m → exec device_step m tr m' → vinv m'.
Proof using VD. intros Hinv. induction 1; [done|]. by eapply step_sim. Qed.

(** C3: the driver and the device together are an atomic disk. Whatever the
    callers, the interrupt handler and the device do, and in whatever order they
    do it, the calls and returns that are observed are those of a machine that
    has no queues: between the call and the return of a request its whole block
    is transferred at one point, exactly once, from the disk to the buffer or
    from the buffer to the disk; a request that the device could not carry out
    never returns. *)
Theorem virtio_refines bufs secs tr m :
  good_start bufs secs → exec device_step (machine0 bufs secs) tr m →
  a_exec (abs (machine0 bufs secs)) tr (abs m).
Proof using VD.
  intros Hs. induction 1 as [|tr m' e m'' Hex IH Hstep]; [constructor|].
  destruct (step_sim m' e m'' (exec_inv _ _ _ (start_inv _ _ Hs) Hex) Hstep) as [_ [[-> E]|Ha]].
  - cbn. rewrite app_nil_r, E. done.
  - by eapply ae_snoc.
Qed.

(** C38: in every state that can be reached, the code of the lock's holder returns:
    [free_desc] finds its descriptor in use, indices stay inside the tables and
    no null buffer is followed. The only panic is the handler's, and that only
    after the device failed a request. No descriptor belongs to two requests. *)
Theorem virtio_safe bufs secs tr m :
  good_start bufs secs → exec device_step (machine0 bufs secs) tr m →
  (∀ p, vlock (drv m) = Some (Thread p) → ∃ r res, vreqs (drv m) !! p = Some r ∧ rw_run (drv m) p r = Ok res) ∧
  (∀ ph, vlock (drv m) = Some (Handler ph) →
     (∃ s', intr_run (drv m) ph = Ok s') ∨
     (intr_run (drv m) ph = Panic "virtio_disk_intr status" ∧ ∃ p b w, a_reqs (abs m) !! p = Some (AFailed b w))) ∧
  (∀ p q r r' c c' i, vreqs (drv m) !! p = Some r → vreqs (drv m) !! q = Some r' →
     point_chain (q_at r) = Some c → point_chain (q_at r') = Some c' → in_chain i c → in_chain i c' → p = q).
Proof using VD.
  intros Hs Hex. pose proof (exec_inv _ _ _ (start_inv _ _ Hs) Hex) as Hinv. pose proof Hinv as [(Q & U & HC) HS].
  split; [|split].
  - intros p Hl. destruct (sc_hold _ HS p Hl) as (r & Hr & _). exists r.
    destruct (rw_run_sim m p r Hinv Hl Hr) as [(s1 & E1 & _)|(s1 & x & E1 & _)]; eauto.
  - intros ph Hl. destruct (intr_sim m ph Hinv Hl) as [(s1 & E1 & _)|Hp]; eauto.
  - intros p q r r' c c' i Hp Hq Hc Hc'.
    by apply (co_disj _ _ _ _ _ _ HC p q (view_of r) (view_of r') c c' i (views_lookup _ _ _ Hp) (views_lookup _ _ _ Hq)).
Qed.

Lemma step_signals m e m' : vinv m → signals m → step device_step m e m' → signals m'.
Proof using VD.
  intros [_ HS] Hg [Hw| -> Hd|Ho].
  - destruct Hw as [p r a Hl Hr Ha|p r s' Hl Hr E%rw_run_moved|p r x s' Hl Hr E%rw_run_moved Hx|Hl _|ph s' Hl E].
    + destruct Hg as [G1 G2]. constructor; cbn; intros Hne; left.
      * destruct (G1 Hne) as [?|(q & r' & c & Hq & _)]; [done|congruence].
      * destruct (G2 Hne); [done|congruence].
    + by eapply moved_signals.
    + by eapply moved_signals.
    + destruct Hg as [G1 G2]. constructor; cbn; intros Hne; left.
      * destruct (G1 Hne) as [?|(q & r' & c & Hq & _)]; [done|congruence].
      * destruct (G2 Hne); [done|congruence].
    + destruct Hg as [G1 G2].
      assert (N1 : avail_idx (vd (drv m)) ≠ last_avail (dev m) → notified (vmmio (drv m)) = true).
      { intros Hne. destruct (G1 Hne) as [?|(q & r' & c & Hq & _)]; [done|congruence]. }
      destruct ph as [|v|]; cbn [intr_run] in E.
      * injection E as <-. constructor; cbn; [by left; auto|]. intros Hne. left. destruct (G2 Hne); [done|congruence].
      * injection E as <-. constructor; cbn; [by left; auto|]. by right.
      * destruct (Z.eqb_spec (used_idx (vd (drv m))) (used_cnt (vd (drv m)))) as [Eu|Hne]; cbn [negb] in E.
        { injection E as <-. constructor; cbn; [by left; auto|done]. }
        apply intr_one_inv in E as (b & y & ->).
        constructor; cbn; [by left; auto|by right].
  - destruct Hg as [G1 G2]. apply vdev_spec in Hd.
    destruct Hd as [h Hne Hlk|h q x len Hh _ _ _|h q x len Hh _ _ _|h q x data secs st len Hh _ _ _ _ _ _ _|E Hn]; constructor; cbn -[Z.lor Z.testbit]; try done.
    1: intros _; by apply G1.
    all: intros _; left; rewrite Z.lor_spec; apply orb_true_r.
  - destruct Ho as [p b w x Hp Hu Hx Hn|b x n data Hu Hx Hlen|Hl]; destruct Hg as [G1 G2]; constructor; cbn; try done.
    + intros Hne. destruct (G1 Hne) as [?|(q & r & c & Hq & Hr & Ha)]; [by left|right]. exists q, r, c. rewrite lookup_insert_ne; [done|congruence].
    + intros Hne. destruct (G1 Hne) as [?|(q & r & c & Hq & _)]; [by left|congruence].
    + intros Hne. destruct (G2 Hne) as [?|?]; [by left|congruence].
Qed.

Lemma exec_signals bufs secs tr m : good_start bufs secs → exec device_step (machine0 bufs secs) tr m → signals m.
Proof using VD.
  intros Hs. induction 1 as [|tr m' e m'' Hex IH Hstep]; [by constructor|].
  eapply step_signals; [|exact IH|done]. by eapply exec_inv; [apply start_inv|].
Qed.

(** The call of [p] comes to an end when it is its turn: callers and the handler run
    as we choose, the device does what it likes when it must do something. *)
Inductive completes (p : Z) (m : machine) : Prop :=
| cm_return b w n data m' : work m (Some (Return p b w n data)) m' → completes p m
| cm_panic : vlock (drv m) = Some (Handler IrqLoop) → intr_run (drv m) IrqLoop = Panic "virtio_disk_intr status" → completes p m
| cm_work e m' : work m e m' → completes p m' → completes p m
| cm_device : busy m → (∀ m', device_step m m' → completes p m') → completes p m.

(** A request with a chain, when nobody has the lock: its caller can go on, or the
    handler is called for, or the device has something to do. *)
Lemma chain_moves m q r c :
  vinv m → signals m → vlock (drv m) = None → vreqs (drv m) !! q = Some r → point_chain (q_at r) = Some c →
  q_at r = WakeBuf c ∨ (isr (vmmio (drv m)) ≠ 0 ∧ used_idx (vd (drv m)) ≠ used_cnt (vd (drv m))) ∨ busy m.
Proof using.
  intros [(Q & U & HC) HS] [G1 G2] Hl Hq Hc. pose proof (sc_lock _ HS q r Hq) as Hlk.
  destruct (q_at r) as [| | | |c'|c'|c'|c'|c'] eqn:Ha; try done; cbn in Hc; simplify_eq.
  1,2,3: specialize (Hlk eq_refl); congruence.
  2: by left.
  pose proof (views_lookup _ _ _ Hq) as Hv. destruct (co_buf _ _ _ _ _ _ HC q _ Hv) as (x & Hx & _). cbn in Hx.
  pose proof (sc_buf _ HS q r c x Hq Ha Hx) as Hd.
  pose proof (co_stage _ _ _ _ _ _ HC q _ c x Hv ltac:(cbn; by rewrite Ha) Hx) as Hst. cbn in Hst. rewrite Ha in Hst.
  destruct Hst as [(_ & [Hin|Hin] & _)|[(_ & Hin & _)|(E & _)]]; [| | |congruence].
  - right; right; left. pose proof (co_avail _ _ _ _ _ _ HC) as Hav. pose proof (rg_len _ _ _ _ _ _ Hav) as Hlen. unfold zlen in Hlen.
    assert (Hne : avail_idx (vd (drv m)) ≠ last_avail (dev m)).
    { intros E. apply (ring_empty NUM (2 ^ 16) _ _ _ _ Hav) in E. subst. by apply elem_of_nil in Hin. }
    split; [destruct (G1 Hne) as [?|(? & ? & ? & ? & _)]; [done|congruence]|]. split; [done|].
    apply lookup_lt_is_Some_2. pose proof (Z.mod_pos_bound (last_avail (dev m)) NUM ltac:(done)). lia.
  - right; right; right. destruct (pending_request m Q U _ HC Hin) as (p & v & c' & x' & _ & _ & _ & Hx' & Hdec & _).
    eexists _, _. split; [done|]. split; [done|]. by eexists.
  - right; left. assert (Hne : used_idx (vd (drv m)) ≠ used_cnt (vd (drv m))).
    { intros E. symmetry in E. apply (ring_empty NUM (2 ^ 16) _ _ _ _ (co_used _ _ _ _ _ _ HC)) in E. subst. by apply elem_of_nil in Hin. }
    split; [|done]. destruct (G2 Hne) as [Hb|?]; [|congruence]. intros E. rewrite E in Hb. by rewrite Z.bits_0 in Hb.
Qed.

(** Taking the lock: what is left afterwards. *)
Lemma acquire_left m p r a :
  vlock (drv m) = None → vreqs (drv m) !! p = Some r →
  (left_to_do (mk_machine (with_vlock (goto (drv m) p r a) (Some (Thread p))) (dev m)) + weight (q_at r) = left_to_do m + weight a)%nat.
Proof using.
  intros Hl Hr. assert (Hw : weights (vreqs (drv m)) !! p = Some (weight (q_at r))) by (unfold weights; by rewrite lookup_fmap, Hr).
  pose proof (total_insert _ p _ (weight a) Hw) as Hi. unfold left_to_do. cbn [drv dev]. change (vreqs (with_vlock ?x _)) with (vreqs x).
  rewrite weights_goto. cbn -[Nat.mul total weights nused handler_left navail weight]. rewrite Hl. cbn [handler_left]. lia.
Qed.

(** The other callers keep their places when one moves. *)
Lemma moved_keeps s q r s' d p : moved s q r s' d → vreqs s !! q = Some r → is_Some (vreqs s !! p) → is_Some (vreqs s' !! p) ∨ (p = q ∧ d = true).
Proof using.
  assert (Hqu : ∀ s1, quiet s s1 → is_Some (vreqs s !! p) → is_Some (vreqs s1 !! p)).
  { intros s1 [_ _ _ _ _ Hw] Hp. rewrite <- (fmap_is_Some (λ r, weight (q_at r))), <- lookup_fmap.
    change (is_Some (weights (vreqs s1) !! p)). rewrite Hw. unfold weights. by rewrite lookup_fmap, fmap_is_Some. }
  intros Hm Hq Hp. destruct Hm as [s1 c Q Ha ->|s1 Q Ha ->|c Ha ->|c Ha ->|c Ha ->|s1 c Q Ha ->]; cbn.
  all: destruct (decide (p = q)) as [->|Hne]; [|try (left; rewrite lookup_insert_ne by done; by auto)].
  all: try by (left; rewrite lookup_insert_eq; eauto).
  - by right.
  - left. rewrite lookup_delete_ne by done. auto.
Qed.
(** With three descriptors free a caller gets its chain. *)
Lemma alloc_gets m p r d s' :
  vinv m → vlock (drv m) = Some (Thread p) → q_at r = Alloc → ¬ (nfree (vd (drv m)) < 3)%nat →
  rw_run (drv m) p r = Ok (d, s') → vlock s' = Some (Thread p).
Proof using.
  intros [(Q & U & HC) _] Hl Ha Hn. unfold rw_run. rewrite Ha.
  destruct (alloc3_ok (drv m) (core_flags _ _ _ _ _ _ HC) (co_desc _ _ _ _ _ _ HC)) as [(c & -> & _)|(ds & rq & _ & _ & _ & _ & H)]; [|done].
  rewrite bind_Ok. cbv beta iota. intros (s2 & E2%rw_format_quiet & E)%bind_Ok_inv. injection E as _ <-. cbn. rewrite (qu_lock _ _ E2). exact Hl.
Qed.

(** What can be assumed of the states with less to do. *)
Definition later (p : Z) (m : machine) : Prop := ∀ m',
  (left_to_do m' < left_to_do m)%nat → vinv m' → signals m' → is_Some (vreqs (drv m') !! p) → completes p m'.

Lemma later_step p m e m' :
  later p m → vinv m → signals m → step device_step m e m' → (left_to_do m' < left_to_do m)%nat → is_Some (vreqs (drv m') !! p) →
  completes p m'.
Proof using VD. intros Hgo Hinv Hg Hs Hlt Hp. apply Hgo; [done| |by eapply step_signals|done]. by eapply step_sim. Qed.

Lemma thread_completes p m q :
  later p m → vinv m → signals m → is_Some (vreqs (drv m) !! p) → vlock (drv m) = Some (Thread q) → completes p m.
Proof using VD.
  intros Hgo Hinv Hg Hp Hl. destruct (sc_hold _ (proj2 Hinv) q Hl) as (r & Hr & _).
  destruct (rw_run_sim m q r Hinv Hl Hr) as [(s' & E & _)|(s' & x & E & Hx & _)]; pose proof (rw_run_moved _ _ _ _ _ E) as Hm;
    pose proof (moved_less m q r s' _ Hl Hr Hm) as Hlt.
  - assert (Hw := w_run m q r s' Hl Hr E). apply (cm_work p m _ _ Hw).
    apply (later_step p m _ _ Hgo Hinv Hg (st_work _ _ _ _ Hw)); [by destruct (q_at r), (vlock s'); lia|].
    by destruct (moved_keeps _ _ _ _ _ p Hm Hr Hp) as [?|[_ ?]].
  - assert (Hw := w_return m q r x s' Hl Hr E Hx). destruct (decide (p = q)) as [->|Hne]; [by eapply cm_return|].
    apply (cm_work p m _ _ Hw). apply (later_step p m _ _ Hgo Hinv Hg (st_work _ _ _ _ Hw)); [by destruct (q_at r), (vlock s'); lia|].
    by destruct (moved_keeps _ _ _ _ _ p Hm Hr Hp) as [?|[? _]].
Qed.

Lemma handler_completes p m ph :
  later p m → vinv m → signals m → is_Some (vreqs (drv m) !! p) → vlock (drv m) = Some (Handler ph) → completes p m.
Proof using VD.
  intros Hgo Hinv Hg Hp Hl. destruct (intr_sim m ph Hinv Hl) as [(s' & E & _)|[E _]]; [|destruct ph; [done..|by apply cm_panic]].
  assert (Hw := w_intr_run m ph s' Hl E). apply (cm_work p m _ _ Hw). destruct (intr_less m ph s' Hinv Hl E) as [Hlt Hd].
  apply (later_step p m _ _ Hgo Hinv Hg (st_work _ _ _ _ Hw)); [done|]. cbn [drv]. rewrite <- elem_of_dom, Hd. by apply elem_of_dom.
Qed.

Lemma chain_completes p m q r c :
  later p m → vinv m → signals m → is_Some (vreqs (drv m) !! p) → vlock (drv m) = None →
  vreqs (drv m) !! q = Some r → point_chain (q_at r) = Some c → completes p m.
Proof using VD.
  intros Hgo Hinv Hg Hp Hl Hq Hc. destruct (chain_moves m q r c Hinv Hg Hl Hq Hc) as [Ha|[[Hi Hu]|Hb]].
  - assert (Hw := w_acquire m q r (Poll c) Hl Hq ltac:(by rewrite Ha)). apply (cm_work p m _ _ Hw).
    pose proof (acquire_left m q r (Poll c) Hl Hq) as Hlt. rewrite Ha in Hlt. cbn [weight] in Hlt.
    apply (later_step p m _ _ Hgo Hinv Hg (st_work _ _ _ _ Hw)); [lia|]. cbn. by apply lookup_insert_is_Some'; right.
  - assert (Hw := w_intr m Hl Hi). apply (cm_work p m _ _ Hw). apply (later_step p m _ _ Hgo Hinv Hg (st_work _ _ _ _ Hw)); [|done].
    unfold left_to_do. cbn -[Nat.mul total weights nused navail]. rewrite Hl. cbn [handler_left].
    destruct (Z.eqb_spec (used_idx (vd (drv m))) (used_cnt (vd (drv m)))); [done|]. cbn [negb]. lia.
  - apply (cm_device p m Hb). intros m' Hd. destruct (device_less m m' Hinv (vdev_spec _ _ Hd)) as [Hlt Hv].
    apply (later_step p m None m' Hgo Hinv Hg); [by apply st_device|done|by rewrite Hv].
Qed.

(** The caller takes the lock and then the descriptors. *)
Lemma fresh_completes p m r :
  later p m → vinv m → signals m → vlock (drv m) = None → vreqs (drv m) !! p = Some r → resume (q_at r) = Some Alloc →
  weight (q_at r) = 100%nat → ¬ (nfree (vd (drv m)) < 3)%nat → completes p m.
Proof using VD.
  intros Hgo Hinv Hg Hl Hr Ha Hwt Hmany. assert (Hw := w_acquire m p r Alloc Hl Hr Ha). apply (cm_work p m _ _ Hw).
  pose proof (acquire_left m p r Alloc Hl Hr) as Hlt. rewrite Hwt in Hlt. cbn [weight] in Hlt.
  pose proof (step_sim _ _ _ Hinv (st_work _ _ _ _ Hw)) as [Hinv1 _]. pose proof (step_signals _ _ _ Hinv Hg (st_work _ _ _ _ Hw)) as Hg1.
  set (m1 := mk_machine _ _) in *. set (r1 := mk_request (q_buf r) (q_write r) Alloc).
  assert (Hr1 : vreqs (drv m1) !! p = Some r1) by apply lookup_insert_eq.
  destruct (rw_run_sim m1 p r1 Hinv1 eq_refl Hr1) as [(s' & E & _)|(s' & x & E & Hx & _)]; [|by eapply (cm_return p m1), w_return].
  pose proof (rw_run_moved _ _ _ _ _ E) as Hm. pose proof (moved_less m1 p r1 s' _ eq_refl Hr1 Hm) as Hlt1.
  rewrite (alloc_gets m1 p r1 _ s' Hinv1 eq_refl eq_refl Hmany E) in Hlt1. cbn [q_at r1] in Hlt1.
  assert (Hw1 := w_run m1 p r1 s' eq_refl Hr1 E). apply (cm_work p m1 _ _ Hw1).
  apply Hgo; [lia|by eapply step_sim; [|by apply st_work]|by eapply step_signals; [| |by apply st_work]|].
  destruct (moved_keeps _ _ _ _ _ p Hm Hr1) as [?|[_ ?]]; [by eexists|done|done].
Qed.

Lemma completes_within n : ∀ m p,
  (left_to_do m < n)%nat → vinv m → signals m → is_Some (vreqs (drv m) !! p) → completes p m.
Proof using VD.
  induction n as [|n IH]; [lia|]. intros m p Hn Hinv Hg Hp.
  assert (Hgo : later p m) by (intros m' Hlt; apply IH; lia).
  destruct (vlock (drv m)) as [[q|ph]|] eqn:Hl; [by eapply thread_completes|by eapply handler_completes|].
  pose proof Hinv as [(Q & U & HC) HS]. pose proof Hp as [r Hr].
  destruct (point_chain (q_at r)) as [c|] eqn:Hc; [by eapply chain_completes|].
  destruct (decide (nfree (vd (drv m)) < 3)%nat) as [Hfew|Hmany].
  { destruct (chain_held m Q U HC Hfew) as (q & r' & c & Hq & Hc'). by eapply chain_completes. }
  destruct (q_at r) eqn:Ha; try done; try by (eapply fresh_completes; rewrite ?Ha).
  - pose proof (sc_lock _ HS p r Hr) as Hlk. rewrite Ha in Hlk. specialize (Hlk eq_refl). congruence.
  - destruct Hmany. by apply (sc_free _ HS p r Hr Ha).
Qed.

(** C21: every call can be brought to its end. In every state that can be reached, for
    every caller of [virtio_disk_rw], there is a way to schedule the callers and the
    interrupt handler such that, whatever the device does, the call returns, unless
    the handler panics over a request the device failed. The device need not look
    at the available ring unless it was notified, and the handler runs only when the
    device interrupts: no notification, no interrupt and no wakeup is lost. *)
Theorem virtio_progress bufs secs tr m p r :
  good_start bufs secs → exec device_step (machine0 bufs secs) tr m → vreqs (drv m) !! p = Some r → completes p m.
Proof using VD.
  intros Hs Hex Hr. eapply completes_within; [apply Nat.lt_succ_diag_r| |by eapply exec_signals|by eexists].
  by eapply exec_inv; [apply start_inv|].
Qed.
End device.

(** ** Example: one write, from the call to the return *)

#[global] Instance any_virtio_device : VirtioDevice virtio_step.
Proof.
  constructor; [done|]. intros m [(_ & Hne & h & Hh)|(h & q & Hh & Hq & x & Hx)]; [eexists; by eapply vs_fetch|].
  destruct (io_write q) eqn:E; eexists; [by eapply (vs_write m h q x 0)|by eapply (vs_read m h q x 0)].
Qed.

Definition demo_data : list Z := replicate 1024 7.
Definition demo_start : machine := machine0 {[0 := mk_vbuf 0 5 demo_data]} ∅.

(** The next silent step of process 1 or, when it sleeps, of the handler. *)
Definition demo_next (m : machine) : option machine :=
  match vlock (drv m) with
  | Some (Thread p) =>
      r ← vreqs (drv m) !! p;
      match rw_run (drv m) p r with Ok (false, s) => Some (mk_machine s (dev m)) | _ => None end
  | Some (Handler ph) => match intr_run (drv m) ph with Ok s => Some (mk_machine s (dev m)) | _ => None end
  | None =>
      r ← vreqs (drv m) !! 1;
      match resume (q_at r) with
      | Some a => Some (mk_machine (with_vlock (goto (drv m) 1 r a) (Some (Thread 1))) (dev m))
      | None =>
          if isr (vmmio (drv m)) =? 0 then None
          else Some (mk_machine (with_vlock (drv m) (Some (Handler IrqStatus))) (dev m))
      end
  end.

Fixpoint demo_run (n : nat) (m : machine) : option machine :=
  match n with O => Some m | S n' => m' ← demo_next m; demo_run n' m' end.

Lemma demo_run_exec n m0 tr m m' :
  exec virtio_step m0 tr m → demo_run n m = Some m' → exec virtio_step m0 tr m'.
Proof.
  revert m. induction n as [|n IH]; intros m Hex; cbn [demo_run]; [by intros [= <-]|].
  destruct (demo_next m) as [m1|] eqn:E; [|done]. cbn. apply IH. rewrite <- (app_nil_r tr).
  eapply (ex_snoc _ _ _ m None); [done|]. apply st_work. revert E. unfold demo_next.
  destruct (vlock (drv m)) as [[p|ph]|] eqn:Hl.
  - destruct (vreqs (drv m) !! p) as [r|] eqn:Hr; [|done]. cbn.
    destruct (rw_run (drv m) p r) as [[[] s]| | |] eqn:Er; try done. intros [= <-]. by eapply w_run.
  - destruct (intr_run (drv m) ph) as [s| | |] eqn:Ei; try done. intros [= <-]. by eapply w_intr_run.
  - destruct (vreqs (drv m) !! 1) as [r|] eqn:Hr; [|done]. cbn. destruct (resume (q_at r)) as [a|] eqn:Ha.
    + intros [= <-]. by eapply w_acquire.
    + destruct (Z.eqb_spec (isr (vmmio (drv m))) 0); [done|]. intros [= <-]. by apply w_intr.
Qed.

Definition demo_called : machine :=
  mk_machine (with_vreqs (drv demo_start) (<[1 := mk_request 0 1 Start]> (vreqs (drv demo_start)))) (dev demo_start).
(** Asleep after the request was published, at the fifth step. *)
Definition demo_sleeps : machine := default demo_start (demo_run 5 demo_called).
Definition demo_fetched : machine :=
  mk_machine (drv demo_sleeps)
    (mk_device (u16 (last_avail (dev demo_sleeps) + 1)) ({[0]} ∪ pending (dev demo_sleeps)) (sectors (dev demo_sleeps))).
Definition demo_written : machine :=
  finish demo_fetched 0 (mk_io true 10 2 0 0) (mk_vbuf 1 5 demo_data)
    (write_sectors (sectors (dev demo_fetched)) 10 2 demo_data) 0 1025.
(** The handler has woken process 1, which holds the lock again. *)
Definition demo_woken : machine := default demo_start (demo_run 6 demo_written).
Definition demo_after : driver :=
  match rw_run (drv demo_woken) 1 (mk_request 0 1 (Poll (mk_chain 0 1 2))) with
  | Ok (_, s) => s
  | _ => drv demo_start
  end.
Definition demo_returned : machine := mk_machine demo_after (dev demo_woken).

Lemma demo_good : good_start {[0 := mk_vbuf 0 5 demo_data]} ∅.
Proof. split; [intros b x [_ <-]%lookup_singleton_Some; done|intros k v; by rewrite lookup_empty]. Qed.

(** A machine that [demo_run] finds. *)
Lemma demo_run_found n m : (if demo_run n m then true else false) = true → demo_run n m = Some (default demo_start (demo_run n m)).
Proof. by destruct (demo_run n m). Qed.

Lemma demo_sleeps_exec : exec virtio_step demo_start [Call 1 0 1] demo_sleeps.
Proof.
  eapply (demo_run_exec 5 _ _ demo_called); [|apply demo_run_found; vm_compute; reflexivity].
  eapply (ex_snoc _ _ [] demo_start (Some (Call 1 0 1))); [constructor|]. apply st_outside.
  eapply (o_call demo_start 1 0 1 (mk_vbuf 0 5 demo_data)); [done|intros p r; by cbn; rewrite lookup_empty|done|done].
Qed.

Lemma demo_woken_exec : exec virtio_step demo_start [Call 1 0 1] demo_woken.
Proof.
  eapply (demo_run_exec 6 _ _ demo_written); [|apply demo_run_found; vm_compute; reflexivity].
  eapply (ex_snoc _ _ [Call 1 0 1] demo_fetched None); [eapply (ex_snoc _ _ [Call 1 0 1] demo_sleeps None); [apply demo_sleeps_exec|]|].
  - apply st_device; [done|]. apply vs_fetch; vm_compute; [discriminate|reflexivity].
  - apply st_device; [done|]. apply (vs_write demo_fetched 0 (mk_io true 10 2 0 0) (mk_vbuf 1 5 demo_data)).
    + apply elem_of_union. left. by apply elem_of_singleton.
    + vm_compute. reflexivity.
    + done.
    + vm_compute. reflexivity.
Qed.

Lemma demo_returned_exec : exec virtio_step demo_start [Call 1 0 1; Return 1 0 1 5 demo_data] demo_returned.
Proof.
  apply (ex_snoc _ _ [Call 1 0 1] demo_woken (Some (Return 1 0 1 5 demo_data))); [apply demo_woken_exec|].
  apply st_work.
  apply (w_return demo_woken 1 (mk_request 0 1 (Poll (mk_chain 0 1 2))) (mk_vbuf 0 5 demo_data) demo_after);
    vm_compute; reflexivity.
Qed.

Lemma virtio_refines_witness :
  a_exec (abs demo_start) [Call 1 0 1; Return 1 0 1 5 demo_data] (abs demo_returned).
Proof. exact (virtio_refines virtio_step _ _ _ _ demo_good demo_returned_exec). Defined.

Lemma virtio_safe_witness :
  ∃ r res, vreqs (drv demo_woken) !! 1 = Some r ∧ rw_run (drv demo_woken) 1 r = Ok res.
Proof.
  apply (proj1 (virtio_safe virtio_step _ _ _ _ demo_good demo_woken_exec)). vm_compute. reflexivity.
Defined.

Lemma virtio_progress_witness : completes virtio_step 1 demo_sleeps.
Proof.
  apply (virtio_progress virtio_step _ _ _ _ 1 (mk_request 0 1 (SleepBuf (mk_chain 0 1 2))) demo_good demo_sleeps_exec).
  vm_compute. reflexivity.
Defined.

(** ** Initialisation *)

Lemma drop_feature_testbit f k n : 0 ≤ k → 0 ≤ n → Z.testbit (drop_feature f k) n = Z.testbit f n && negb (n =? k).
Proof.
  intros Hk Hn. unfold drop_feature. rewrite Z.land_spec, Z.lnot_spec, Z.shiftl_spec by lia. f_equal. f_equal.
  destruct (Z.eqb_spec n k) as [->|Hne]; [by rewrite Z.sub_diag|].
  destruct (Z.lt_ge_cases n k); [by rewrite Z.testbit_neg_r by lia|].
  change 1 with (2 ^ 0). apply Z.pow2_bits_false. lia.
Qed.

(** The features offered, without the seven the driver cannot use. *)
Lemma negotiate_testbit f n :
  0 ≤ n → Z.testbit (negotiate f) n = Z.testbit f n && negb (bool_decide (n ∈ [5; 7; 11; 12; 27; 29; 28])).
Proof.
  intros Hn. unfold negotiate. cbn [fold_left]. rewrite !drop_feature_testbit by (done || lia).
  rewrite <- !andb_assoc. f_equal.
  change VIRTIO_BLK_F_RO with 5. change VIRTIO_BLK_F_SCSI with 7. change VIRTIO_BLK_F_CONFIG_WCE with 11.
  change VIRTIO_BLK_F_MQ with 12. change VIRTIO_F_ANY_LAYOUT with 27. change VIRTIO_RING_F_EVENT_IDX with 29.
  change VIRTIO_RING_F_INDIRECT_DESC with 28.
  destruct (bool_decide_reflect (n ∈ [5; 7; 11; 12; 27; 29; 28])) as [Hin|Hin]; rewrite !elem_of_cons, elem_of_nil in Hin; lia.
Qed.

Lemma kalloc_page {heap} `{Allocator heap} (hp : heap) L :
  al_live hp L → ∃ p hp', kalloc hp = Ok (p, hp') ∧
    ((p = 0 ∧ hp' = hp) ∨ (p ≠ 0 ∧ L !! p = None ∧ al_live hp' (<[p := PGSIZE]> L))).
Proof.
  intros Hl. destruct (al_malloc_ok hp L PGSIZE Hl ltac:(unfold PGSIZE; lia)) as (p & hp' & E & Hc). exists p, hp'. split; [exact E|].
  destruct Hc as [Hc|(sz & Hn & _ & Hsz & Hl')]; [by left|right]. rewrite Hsz in Hl' by done. split; [|done].
  destruct (al_range _ _ p PGSIZE Hl') as [Hr _]; [apply lookup_insert_eq|]. unfold KERNBASE in Hr. lia.
Qed.

(** What the driver expects of the registers it reads. *)
Definition disk_present (rd : Z → Z) : Prop :=
  rd VIRTIO_MMIO_MAGIC_VALUE = 0x74726976 ∧ rd VIRTIO_MMIO_VERSION = 2 ∧ rd VIRTIO_MMIO_DEVICE_ID = 2 ∧
  rd VIRTIO_MMIO_VENDOR_ID = 0x554d4551 ∧ Z.testbit (rd VIRTIO_MMIO_STATUS) 3 = true ∧
  rd VIRTIO_MMIO_QUEUE_READY = 0 ∧ NUM ≤ rd VIRTIO_MMIO_QUEUE_NUM_MAX.

(** With such a device and three pages of memory, [virtio_disk_init] leaves the
    driver as the machine above starts, having announced queue memory that nobody
    else has; without the memory it panics. *)
Lemma virtio_disk_init_ok {heap} `{Allocator heap} rd (hp : heap) L :
  al_live hp L → disk_present rd →
  (∃ ws hp' pd pa pu, virtio_disk_init rd hp = Ok (ws, vd (drv (machine0 ∅ ∅)), hp') ∧
     al_live hp' (<[pu := PGSIZE]> (<[pa := PGSIZE]> (<[pd := PGSIZE]> L))) ∧
     L !! pd = None ∧ <[pd := PGSIZE]> L !! pa = None ∧ <[pa := PGSIZE]> (<[pd := PGSIZE]> L) !! pu = None ∧
     (VIRTIO_MMIO_QUEUE_DESC_LOW, u32 pd) ∈ ws ∧ (VIRTIO_MMIO_DRIVER_DESC_LOW, u32 pa) ∈ ws ∧
     (VIRTIO_MMIO_DEVICE_DESC_LOW, u32 pu) ∈ ws ∧
     (VIRTIO_MMIO_DRIVER_FEATURES, u32 (negotiate (rd VIRTIO_MMIO_DEVICE_FEATURES))) ∈ ws) ∨
  virtio_disk_init rd hp = Panic "virtio disk kalloc".
Proof.
  intros Hl (R1 & R2 & R3 & R4 & R5 & R6 & R7). unfold virtio_disk_init. rewrite R1, R2, R3, R4, R6. cbn [negb orb Z.eqb Pos.eqb].
  assert (Hst : Z.land (rd VIRTIO_MMIO_STATUS) VIRTIO_CONFIG_S_FEATURES_OK =? 0 = false).
  { apply Z.eqb_neq. intros E. apply (f_equal (λ z, Z.testbit z 3)) in E. rewrite Z.land_spec, R5 in E. done. }
  rewrite Hst. rewrite (proj2 (Z.eqb_neq _ 0)) by (unfold NUM in R7; lia). rewrite (proj2 (Z.ltb_ge _ NUM)) by lia.
  destruct (kalloc_page hp L Hl) as (pd & h1 & -> & C1); rewrite bind_Ok; cbv beta iota.
  destruct C1 as [[-> ->]|(N1 & F1 & L1)].
  { right. destruct (kalloc_page hp L Hl) as (pa & h2 & -> & [[-> ->]|(_ & _ & L2)]); rewrite bind_Ok; cbv beta iota;
      [destruct (kalloc_page hp L Hl) as (pu & h3 & -> & _)|destruct (kalloc_page h2 _ L2) as (pu & h3 & -> & _)]; done. }
  destruct (kalloc_page h1 _ L1) as (pa & h2 & -> & C2); rewrite bind_Ok; cbv beta iota.
  destruct C2 as [[-> ->]|(N2 & F2 & L2)].
  { right. destruct (kalloc_page h1 _ L1) as (pu & h3 & -> & _); rewrite bind_Ok; cbv beta iota. by rewrite orb_true_r. }
  destruct (kalloc_page h2 _ L2) as (pu & h3 & -> & C3); rewrite bind_Ok; cbv beta iota.
  destruct C3 as [[-> ->]|(N3 & F3 & L3)]; [right; by rewrite orb_true_r|left].
  rewrite !(proj2 (Z.eqb_neq _ 0)) by done. cbn [orb].
  change (free_all (Z.to_nat NUM) (free vdisk0) 0) with (Ok (replicate (Z.to_nat NUM) 1)). rewrite bind_Ok.
  eexists _, h3, pd, pa, pu. split; [done|]. do 4 (split; [done|]). rewrite !elem_of_cons. auto 20.
Qed.
