(* ===== verification/Log.v ===== *)
(** * The write-ahead log: [kernel/log.c].

    The in-memory log ([struct log]) next to the buffer cache it works on. The
    header block is [int n; int block[LOGSIZE]], little endian, at the start of
    block [log.start]; the logged copies follow it.

    [begin_op] waits while a commit runs or while the log could overflow; run
    by a single thread that wait never ends, so it is [Hang] there. *)

From S2P Require Import Prelude LinkedList Block Bio.

Definition MAXOPBLOCKS : Z := 10.
Definition LOGSIZE : Z := MAXOPBLOCKS * 3.

Record log := mk_log {
  lstart : Z;
  lsize : Z;
  outstanding : Z;
  committing : Z;
  ldev : Z;
  lh_n : Z;
  lh_block : list Z;
}.

(** The file system's persistent state: the cache and the log. *)
Record fslog := mk_fslog { cache : bio; lg : log }.

Definition with_cache (s : fslog) (b : bio) : fslog := mk_fslog b (lg s).
Definition with_lh (g : log) (n : Z) (bl : list Z) : log :=
  mk_log (lstart g) (lsize g) (outstanding g) (committing g) (ldev g) n bl.
Definition with_ops (g : log) (o c : Z) : log :=
  mk_log (lstart g) (lsize g) o c (ldev g) (lh_n g) (lh_block g).

(** ** The code *)

(** One iteration of [install_trans]. *)
Definition install_one (g : log) (recovering : Z) (st : bio) (tail : Z) : outcome bio :=
  '(lbuf, st1) ← bread st (ldev g) (u32 (lstart g + tail + 1));
  bno ← arr_get (lh_block g) tail;
  '(dbuf, st2) ← bread st1 (ldev g) (u32 bno);
  l ← data_of st2 lbuf;
  st3 ← set_data st2 dbuf l;
  st4 ← bwrite st3 dbuf;
  st5 ← (if recovering =? 0 then bunpin st4 dbuf else Ok st4);
  st6 ← brelse st5 lbuf;
  brelse st6 dbuf.

Fixpoint install_loop (n : nat) (g : log) (recovering : Z) (st : bio) (tail : Z) : outcome bio :=
  match n with
  | O => Ok st
  | S n' => st' ← install_one g recovering st tail; install_loop n' g recovering st' (tail + 1)
  end.

Definition install_trans (s : fslog) (recovering : Z) : outcome fslog :=
  st ← install_loop (Z.to_nat (lh_n (lg s))) (lg s) recovering (cache s) 0;
  Ok (with_cache s st).

(** [log.lh.block[i] = lh->block[i]] for [i] from [i] on, [n] times. *)
Fixpoint read_blocks (n : nat) (hdr : list Z) (bl : list Z) (i : Z) : outcome (list Z) :=
  match n with
  | O => Ok bl
  | S n' => bl' ← arr_set bl i (i32 (rd 4 hdr (4 + 4 * i))); read_blocks n' hdr bl' (i + 1)
  end.

Definition read_head (s : fslog) : outcome fslog :=
  '(b, st1) ← bread (cache s) (ldev (lg s)) (u32 (lstart (lg s)));
  hdr ← data_of st1 b;
  let n := i32 (rd 4 hdr 0) in
  bl ← read_blocks (Z.to_nat n) hdr (lh_block (lg s)) 0;
  st2 ← brelse st1 b;
  Ok (mk_fslog st2 (with_lh (lg s) n bl)).

(** [hb->block[i] = log.lh.block[i]]. *)
Fixpoint write_blocks (n : nat) (bl : list Z) (hdr : list Z) (i : Z) : outcome (list Z) :=
  match n with
  | O => Ok hdr
  | S n' => v ← arr_get bl i; write_blocks n' bl (wr 4 hdr (4 + 4 * i) v) (i + 1)
  end.

Definition write_head (s : fslog) : outcome fslog :=
  '(b, st1) ← bread (cache s) (ldev (lg s)) (u32 (lstart (lg s)));
  hdr ← data_of st1 b;
  hdr' ← write_blocks (Z.to_nat (lh_n (lg s))) (lh_block (lg s)) (wr 4 hdr 0 (lh_n (lg s))) 0;
  st2 ← set_data st1 b hdr';
  st3 ← bwrite st2 b;
  st4 ← brelse st3 b;
  Ok (with_cache s st4).

Definition clear_lh (s : fslog) : fslog := mk_fslog (cache s) (with_lh (lg s) 0 (lh_block (lg s))).

Definition recover_from_log (s : fslog) : outcome fslog :=
  s1 ← read_head s;
  s2 ← install_trans s1 1;
  write_head (clear_lh s2).

(** [initlog(dev, sb)], on the zero-initialised [struct log]; the header fits
    a block, so the size check of the source never fires. *)
Definition initlog (st : bio) (dev logstart nlog : Z) : outcome fslog :=
  if BSIZE <=? 4 * (LOGSIZE + 1) then Panic "initlog: too big logheader"
  else recover_from_log
         (mk_fslog st (mk_log (i32 logstart) (i32 nlog) 0 0 dev 0 (replicate (Z.to_nat LOGSIZE) 0))).

(** The two conditions under which [begin_op] sleeps. *)
Definition begin_op_waits (g : log) : bool :=
  negb (committing g =? 0) || (LOGSIZE <? lh_n g + (outstanding g + 1) * MAXOPBLOCKS).

Definition begin_op (s : fslog) : outcome fslog :=
  if begin_op_waits (lg s) then Hang
  else Ok (mk_fslog (cache s) (with_ops (lg s) (outstanding (lg s) + 1) (committing (lg s)))).

(** One iteration of [write_log]. *)
Definition write_log_one (g : log) (st : bio) (tail : Z) : outcome bio :=
  '(to, st1) ← bread st (ldev g) (u32 (lstart g + tail + 1));
  bno ← arr_get (lh_block g) tail;
  '(from, st2) ← bread st1 (ldev g) (u32 bno);
  l ← data_of st2 from;
  st3 ← set_data st2 to l;
  st4 ← bwrite st3 to;
  st5 ← brelse st4 from;
  brelse st5 to.

Fixpoint write_log_loop (n : nat) (g : log) (st : bio) (tail : Z) : outcome bio :=
  match n with
  | O => Ok st
  | S n' => st' ← write_log_one g st tail; write_log_loop n' g st' (tail + 1)
  end.

Definition write_log (s : fslog) : outcome fslog :=
  st ← write_log_loop (Z.to_nat (lh_n (lg s))) (lg s) (cache s) 0;
  Ok (with_cache s st).

Definition commit (s : fslog) : outcome fslog :=
  if 0 <? lh_n (lg s) then
    s1 ← write_log s;
    s2 ← write_head s1;
    s3 ← install_trans s2 0;
    write_head (clear_lh s3)
  else Ok s.

(** [end_op] up to its first release of the lock: [do_commit], and the log. *)
Definition end_op_first (s : fslog) : outcome (bool * fslog) :=
  let g := with_ops (lg s) (outstanding (lg s) - 1) (committing (lg s)) in
  if negb (committing g =? 0) then Panic "log.committing"
  else if outstanding g =? 0 then Ok (true, mk_fslog (cache s) (with_ops g (outstanding g) 1))
  else Ok (false, mk_fslog (cache s) g).

(** [end_op] after [commit]. *)
Definition end_op_last (s : fslog) : fslog := mk_fslog (cache s) (with_ops (lg s) (outstanding (lg s)) 0).

(** [end_op], when nothing else runs in between. *)
Definition end_op (s : fslog) : outcome fslog :=
  '(do_commit, s) ← end_op_first s;
  if (do_commit : bool) then s ← commit s; Ok (end_op_last s) else Ok s.

(** The search loop of [log_write]: the first [i < n] whose entry is [bno],
    or [n]. *)
Fixpoint log_find (n : nat) (bl : list Z) (bno i : Z) : outcome Z :=
  match n with
  | O => Ok i
  | S n' => v ← arr_get bl i; if u32 v =? bno then Ok i else log_find n' bl bno (i + 1)
  end.

Definition log_write (s : fslog) (b : Z) : outcome fslog :=
  let g := lg s in
  if (LOGSIZE <=? lh_n g) || (lsize g - 1 <=? lh_n g) then Panic "too big a transaction"
  else if outstanding g <? 1 then Panic "log_write outside of trans"
  else
    x ← get_buf (cache s) b;
    i ← log_find (Z.to_nat (lh_n g)) (lh_block g) (blockno x) 0;
    bl ← arr_set (lh_block g) i (i32 (blockno x));
    if i =? lh_n g then
      st ← bpin (cache s) b;
      Ok (mk_fslog st (with_lh g (lh_n g + 1) bl))
    else Ok (mk_fslog (cache s) (with_lh g (lh_n g) bl)).
