(* ===== verification/LogProof.v ===== *)
(** * The log at the level of disk writes.

    What [write_log], [write_head], [install_trans] and [recover_from_log] do
    to the disk and to the cache, as exact lists of block writes. *)

From Stdlib Require Import ZifyBool.
From S2P Require Import Prelude LinkedList Block Bio BioProof Log.

(** The disk after a list of block writes. *)
Definition apply_writes (dk : disk_t) (ws : list (Z * list Z)) : disk_t :=
  foldl (λ m w, <[w.1 := w.2]> m) dk ws.

Lemma apply_writes_app dk ws1 ws2 :
  apply_writes dk (ws1 ++ ws2) = apply_writes (apply_writes dk ws1) ws2.
Proof. apply foldl_app. Qed.

(** The state changed only by the writes [ws] and on the blocks of [ws]. *)
Record wrote (d : Z) (st st' : bio) (ws : list (Z * list Z)) : Prop := {
  wr_disk : disk st' = apply_writes (disk st) ws;
  wr_writes : writes st' = writes st ++ ws;
}.

Lemma wrote_nil d st st' : disk st' = disk st → writes st' = writes st → wrote d st st' [].
Proof. intros. constructor; [done|]. by rewrite app_nil_r. Qed.

Lemma wrote_trans d st1 st2 st3 ws1 ws2 :
  wrote d st1 st2 ws1 → wrote d st2 st3 ws2 → wrote d st1 st3 (ws1 ++ ws2).
Proof.
  intros [H1 H2] [H3 H4]. constructor.
  - by rewrite H3, H1, apply_writes_app.
  - by rewrite H4, H2, app_assoc.
Qed.

(** The device and the number of blocks of its log area. *)
Section log.
Context (d N : Z).

(** [st'] differs from [st] in block [bno] only, which was written out with
    contents [l]. *)
Definition updated (st st' : bio) (P' : gset Z) (bno : Z) (l : list Z) : Prop :=
  bio_ok d st' ∅ P' ∧ wrote d st st' [(bno, l)] ∧ view d st' bno = l ∧
  ∀ k, k ≠ bno → view d st' k = view d st k.

(** Room for one more buffer, or the block is pinned and needs none. *)
Definition room (bno : Z) (P : gset Z) : Prop := bno ∈ P ∨ Z.of_nat (size P) + 1 < NBUF.

Lemma room_read lb bno P :
  lb ∉ P → room bno P → bno ∈ P ∨ Z.of_nat (size ({[lb]} ∪ ∅ ∪ P)) < NBUF.
Proof.
  intros Hl [?|Hr]; [by left|right]. rewrite union_empty_r_L.
  rewrite size_union by set_solver. rewrite size_singleton. lia.
Qed.

Lemma release_one (a : Z) : (({[a]} ∪ ∅) ∖ {[a]} : gset Z) = ∅.
Proof. set_solver. Qed.

(** Two distinct blocks read into the cache, neither held before. *)
Lemma bread_two st P a b :
  bio_ok d st ∅ P → a ≠ b → a ∉ P → Z.of_nat (size P) < NBUF → room b P →
  ∃ pa pb st1 st2, bread st d a = Ok (pa, st1) ∧ bread st1 d b = Ok (pb, st2) ∧
    bio_ok d st2 ({[b]} ∪ ({[a]} ∪ ∅)) P ∧ points d st2 pa a ∧ points d st2 pb b ∧
    (∀ k, view d st2 k = view d st k) ∧ wrote d st st2 [].
Proof.
  intros Hok Hab Ha Hsz Hroom.
  destruct (bread_ok d st ∅ P a Hok) as (pa & st1 & E1 & (Hok1 & Hp1 & Hv1 & Hs1 & Hd1 & Hw1 & _) & _);
    [set_solver|right; by rewrite union_empty_l_L|].
  destruct (bread_ok d st1 _ P b Hok1) as (pb & st2 & E2 & (Hok2 & Hp2 & Hv2 & Hs2 & Hd2 & Hw2 & _) & _);
    [set_solver|by apply room_read|].
  exists pa, pb, st1, st2. split_and!; try done.
  - by apply (sb_points _ _ _ _ _ Hs2); [set_solver..|].
  - intros k. destruct (decide (k = b)) as [->|Hb].
    + rewrite Hv2. by apply (sb_view _ _ _ _ _ Hs1).
    + rewrite (sb_view _ _ _ _ _ Hs2) by done. destruct (decide (k = a)) as [->|]; [done|].
      by apply (sb_view _ _ _ _ _ Hs1).
  - apply wrote_nil; congruence.
Qed.

(** Filling the held buffer [b] and writing it out. *)
Lemma set_bwrite st H P pb b l :
  bio_ok d st H P → b ∈ H → points d st pb b → zlen l = BSIZE →
  ∃ st1 st2, set_data st pb l = Ok st1 ∧ bwrite st1 pb = Ok st2 ∧
    touches d st st2 H H P pb b l ∧ wrote d st st2 [(b, l)] ∧ disk_read (disk st2) b = l.
Proof.
  intros Hok Hb Hp Hl.
  destruct (set_data_ok d st H P pb b l) as (st1 & E1 & (Hok1 & Hp1 & Hv1 & Hs1) & Hd1 & Hw1); try done.
  destruct (bwrite_ok d st1 H P pb b) as (st2 & E2 & (Hok2 & Hp2 & Hv2 & Hs2) & Hd2 & Hw2); try done.
  rewrite Hv1 in Hv2, Hd2, Hw2.
  exists st1, st2. split_and!; try done.
  - unfold touches. split_and!; try done. constructor.
    + intros k Hk. rewrite (sb_view _ _ _ _ _ Hs2) by done. by apply (sb_view _ _ _ _ _ Hs1).
    + intros c k Hk Hne Hc. apply (sb_points _ _ _ _ _ Hs2); try done.
      by apply (sb_points _ _ _ _ _ Hs1).
  - constructor; [by rewrite Hd2, Hd1|by rewrite Hw2, Hw1].
  - rewrite Hd2. unfold disk_read. by rewrite lookup_insert_eq.
Qed.

(** Releasing both buffers. *)
Lemma brelse_two st P pa a pb b :
  bio_ok d st ({[a]} ∪ {[b]}) P → a ≠ b → points d st pa a → points d st pb b →
  a ∈ P ∨ view d st a = disk_read (disk st) a →
  b ∈ P ∨ view d st b = disk_read (disk st) b →
  ∃ st1 st2, brelse st pa = Ok st1 ∧ brelse st1 pb = Ok st2 ∧ bio_ok d st2 ∅ P ∧
    (∀ k, view d st2 k = view d st k) ∧ wrote d st st2 [].
Proof.
  intros Hok Hab Hpa Hpb Ha Hb.
  destruct (brelse_ok d st _ P pa a Hok) as (st1 & E1 & (Hok1 & Hp1 & Hv1 & Hs1) & Hd1 & Hw1);
    [set_solver|done|done|].
  destruct (brelse_ok d st1 _ P pb b Hok1) as (st2 & E2 & (Hok2 & Hp2 & Hv2 & Hs2) & Hd2 & Hw2);
    [set_solver|apply (sb_points _ _ _ _ _ Hs1); [set_solver..|done]|
     rewrite Hd1, (sb_view _ _ _ _ _ Hs1) by done; done|].
  exists st1, st2. split_and!; try done.
  - replace ∅ with (({[a]} ∪ {[b]}) ∖ {[a]} ∖ {[b]} : gset Z) by set_solver. done.
  - intros k. destruct (decide (k = b)) as [->|Hkb].
    + rewrite Hv2. by apply (sb_view _ _ _ _ _ Hs1).
    + rewrite (sb_view _ _ _ _ _ Hs2) by done. destruct (decide (k = a)) as [->|]; [done|].
      by apply (sb_view _ _ _ _ _ Hs1).
  - apply wrote_nil; congruence.
Qed.

(** ** One block at a time *)

Lemma install_one_ok g r st P tail b0 a b :
  ldev g = d → u32 (lstart g + tail + 1) = a → arr_get (lh_block g) tail = Ok b0 → u32 b0 = b →
  bio_ok d st ∅ P → a ≠ b → a ∉ P → Z.of_nat (size P) < NBUF → room b P →
  (r = 0 → b ∈ P) →
  ∃ st', install_one g r st tail = Ok st' ∧
    updated st st' (if r =? 0 then P ∖ {[b]} else P) b (view d st a).
Proof.
  intros Hg Ha Hb0 Hb Hok Hab HaP Hsz Hroom Hr.
  destruct (bread_two st P a b) as (pa & pb & st1 & st2 & E1 & E2 & Hok2 & Hpa & Hpb & Hv2 & Hw2); try done.
  unfold install_one. rewrite Hg, Ha, E1. cbn [mbind outcome_bind]. rewrite Hb0. cbn [mbind outcome_bind].
  rewrite Hb, E2. cbn [mbind outcome_bind].
  rewrite (data_of_ok d st2 _ P pa a) by done. cbn [mbind outcome_bind]. rewrite Hv2.
  destruct (set_bwrite st2 _ P pb b (view d st a) Hok2) as
    (st3 & st4 & E3 & E4 & (Hok4 & Hp4 & Hv4 & Hs4) & Hw4 & Hdk4); try done; [set_solver| |].
  { by eapply view_len. }
  rewrite E3. cbn [mbind outcome_bind]. rewrite E4. cbn [mbind outcome_bind].
  assert (Hpa4 : points d st4 pa a) by (apply (sb_points _ _ _ _ _ Hs4); [set_solver|done|done]).
  assert (Hva4 : view d st4 a = disk_read (disk st4) a).
  { rewrite (sb_view _ _ _ _ _ Hs4) by done. rewrite Hv2, (view_clean d st ∅ P a) by set_solver.
    rewrite (wr_disk _ _ _ _ Hw4), (wr_disk _ _ _ _ Hw2). unfold disk_read. simpl.
    by rewrite lookup_insert_ne. }
  assert (Hun : ∃ st5, (if r =? 0 then bunpin st4 pb else Ok st4) = Ok st5 ∧
      touches d st4 st5 ({[b]} ∪ ({[a]} ∪ ∅)) ({[b]} ∪ ({[a]} ∪ ∅))
        (if r =? 0 then P ∖ {[b]} else P) pb b (view d st a) ∧ wrote d st4 st5 []).
  { destruct (Z.eqb_spec r 0) as [Hr0|Hr0].
    - destruct (bunpin_ok d st4 ({[b]} ∪ ({[a]} ∪ ∅)) P pb b) as (st5 & E5 & Ht & ? & ?); try done;
        [set_solver|auto|]. rewrite Hv4 in Ht. exists st5. split_and!; try done. by apply wrote_nil.
    - exists st4. split; [done|]. split; [|by apply wrote_nil].
      split; [done|]. split; [done|]. split; [done|]. by constructor. }
  destruct Hun as (st5 & -> & (Hok5 & Hp5 & Hv5 & Hs5) & Hw5). cbn [mbind outcome_bind].
  destruct (brelse_two st5 (if r =? 0 then P ∖ {[b]} else P) pa a pb b) as
    (st6 & st7 & E6 & E7 & Hok7 & Hv7 & Hw7); try done.
  - replace ({[a]} ∪ {[b]} : gset Z) with ({[b]} ∪ ({[a]} ∪ ∅) : gset Z) by set_solver. done.
  - apply (sb_points _ _ _ _ _ Hs5); [set_solver|done|done].
  - right. rewrite (sb_view _ _ _ _ _ Hs5) by done. rewrite Hva4.
    by rewrite (wr_disk _ _ _ _ Hw5).
  - right. rewrite Hv5, <- Hdk4. by rewrite (wr_disk _ _ _ _ Hw5).
  - rewrite E6. cbn [mbind outcome_bind]. rewrite E7. exists st7. split; [done|]. split_and!; [done|..].
    + exact (wrote_trans d _ _ _ _ _ Hw2 (wrote_trans d _ _ _ _ _ Hw4
               (wrote_trans d _ _ _ _ _ Hw5 Hw7))).
    + by rewrite Hv7, Hv5.
    + intros k Hk. rewrite Hv7, (sb_view _ _ _ _ _ Hs5), (sb_view _ _ _ _ _ Hs4) by done. apply Hv2.
Qed.

Lemma write_log_one_ok g st P tail b0 a b :
  ldev g = d → u32 (lstart g + tail + 1) = a → arr_get (lh_block g) tail = Ok b0 → u32 b0 = b →
  bio_ok d st ∅ P → a ≠ b → a ∉ P → Z.of_nat (size P) < NBUF → b ∈ P →
  ∃ st', write_log_one g st tail = Ok st' ∧ updated st st' P a (view d st b).
Proof.
  intros Hg Ha Hb0 Hb Hok Hab HaP Hsz HbP.
  destruct (bread_two st P a b) as (pa & pb & st1 & st2 & E1 & E2 & Hok2 & Hpa & Hpb & Hv2 & Hw2);
    try done; [by left|].
  unfold write_log_one. rewrite Hg, Ha, E1. cbn [mbind outcome_bind]. rewrite Hb0. cbn [mbind outcome_bind].
  rewrite Hb, E2. cbn [mbind outcome_bind].
  rewrite (data_of_ok d st2 _ P pb b) by done. cbn [mbind outcome_bind]. rewrite Hv2.
  destruct (set_bwrite st2 _ P pa a (view d st b) Hok2) as
    (st3 & st4 & E3 & E4 & (Hok4 & Hp4 & Hv4 & Hs4) & Hw4 & Hdk4); try done; [set_solver| |].
  { by eapply view_len. }
  rewrite E3. cbn [mbind outcome_bind]. rewrite E4. cbn [mbind outcome_bind].
  destruct (brelse_two st4 P pb b pa a) as (st6 & st7 & E6 & E7 & Hok7 & Hv7 & Hw7);
    [|done| |done|by left| |].
  - replace ({[b]} ∪ {[a]} : gset Z) with ({[b]} ∪ ({[a]} ∪ ∅) : gset Z) by set_solver. done.
  - apply (sb_points _ _ _ _ _ Hs4); [set_solver|done|done].
  - right. by rewrite Hv4, Hdk4.
  - rewrite E6. cbn [mbind outcome_bind]. rewrite E7. exists st7. split; [done|]. split_and!; [done|..].
    + exact (wrote_trans d _ _ _ _ _ Hw2 (wrote_trans d _ _ _ _ _ Hw4 Hw7)).
    + by rewrite Hv7, Hv4.
    + intros k Hk. rewrite Hv7, (sb_view _ _ _ _ _ Hs4) by done. apply Hv2.
Qed.

(** ** A transaction and its place on disk

    The log occupies the [N] blocks from [S] on: the header and the copies. A
    transaction logs the distinct blocks [L], all outside the log. *)
Record log_geom (S : Z) (L : list Z) : Prop := {
  lg_start : 0 ≤ S;
  lg_end : S + N < 2 ^ 31;
  lg_len : zlen L ≤ LOGSIZE;
  lg_fit : zlen L < N;
  lg_nodup : NoDup L;
  lg_home : ∀ b, b ∈ L → 0 ≤ b < 2 ^ 31 ∧ (b < S ∨ S + N ≤ b);
}.

(** Block [k] belongs to the log. *)
Definition in_log (S k : Z) : Prop := S ≤ k < S + N.

#[global] Instance in_log_dec S k : Decision (in_log S k).
Proof. unfold in_log. apply _. Defined.

(** The writes of [write_log]: the contents of the blocks of [l], to
    consecutive log blocks behind [S]. *)
Fixpoint log_ws (S : Z) (l : list Z) (V : Z → list Z) : list (Z * list Z) :=
  match l with
  | [] => []
  | b :: l' => (S + 1, V b) :: log_ws (S + 1) l' V
  end.

(** The writes of [install_trans]: the log blocks behind [S], to [l]. *)
Fixpoint home_ws (S : Z) (l : list Z) (V : Z → list Z) : list (Z * list Z) :=
  match l with
  | [] => []
  | b :: l' => (b, V (S + 1)) :: home_ws (S + 1) l' V
  end.

Lemma log_ws_ext S l V W : (∀ b, b ∈ l → V b = W b) → log_ws S l V = log_ws S l W.
Proof.
  revert S. induction l as [|b l IH]; intros S E; simpl; [done|].
  rewrite (E b) by set_solver. f_equal. apply IH. set_solver.
Qed.

Lemma home_ws_ext S l V W :
  (∀ k, S < k ≤ S + zlen l → V k = W k) → home_ws S l V = home_ws S l W.
Proof.
  unfold zlen. revert S. induction l as [|b l IH]; intros S E; simpl in *; [done|].
  rewrite (E (S + 1)) by lia. f_equal. apply IH. intros. apply E. lia.
Qed.

Section transaction.
Context (S : Z) (L : list Z) (g : log).
Context (Hgeom : log_geom S L).
Context (Hdev : ldev g = d) (Hstart : lstart g = S).

(** The entries of [lh.block] from [t] on are [l]. *)
Definition entries (t : Z) (l : list Z) : Prop :=
  0 ≤ t ∧ ∃ pre, L = pre ++ l ∧ zlen pre = t ∧
  ∀ i b, L !! i = Some b → lh_block g !! i = Some b.

Lemma entries_cons t b l :
  entries t (b :: l) → arr_get (lh_block g) t = Ok b ∧ entries (t + 1) l ∧ b ∈ L ∧ b ∉ l ∧
    t + 1 < N.
Proof.
  unfold zlen. intros (Ht & pre & E & Hp & Hl). unfold zlen in Hp. split_and!.
  - apply arr_get_lookup; [done|]. apply Hl. rewrite E, <- Hp, Nat2Z.id.
    by apply list_lookup_middle.
  - split; [lia|]. exists (pre ++ [b]). unfold zlen.
    rewrite <- app_assoc, length_app. simpl. split_and!; [done|lia|done].
  - rewrite E. set_solver.
  - pose proof (lg_nodup _ _ Hgeom) as Hnd. rewrite E in Hnd.
    apply NoDup_app in Hnd as (_ & _ & [Hb _]%NoDup_cons). done.
  - pose proof (lg_fit _ _ Hgeom) as Hn. rewrite E in Hn. unfold zlen in Hn.
    rewrite length_app in Hn. simpl in Hn. lia.
Qed.

Lemma log_block_num t : 0 ≤ t → t + 1 < N → u32 (lstart g + t + 1) = S + t + 1.
Proof using All.
  intros Ht HtN. pose proof (lg_start _ _ Hgeom). pose proof (lg_end _ _ Hgeom).
  rewrite Hstart. apply u32_small. lia.
Qed.

Lemma home_num b : b ∈ L → u32 b = b.
Proof using Hgeom. intros Hb. apply u32_small. destruct (lg_home _ _ Hgeom b Hb). lia. Qed.

Lemma log_ne_home t b : b ∈ L → 0 ≤ t → t + 1 < N → S + t + 1 ≠ b.
Proof using Hgeom. intros Hb Ht HtN. destruct (lg_home _ _ Hgeom b Hb). lia. Qed.

Lemma install_loop_ok r l t st P :
  entries t l → bio_ok d st ∅ P → (∀ k, in_log S k → k ∉ P) →
  (r = 0 → ∀ b, b ∈ l → b ∈ P) → Z.of_nat (size P) < NBUF →
  (r ≠ 0 → Z.of_nat (size P) + 1 < NBUF) →
  ∃ st', install_loop (length l) g r st t = Ok st' ∧
    bio_ok d st' ∅ (if r =? 0 then P ∖ list_to_set l else P) ∧
    wrote d st st' (home_ws (S + t) l (view d st)) ∧
    (∀ k, k ∉ l → view d st' k = view d st k) ∧
    (∀ i b, l !! i = Some b → view d st' b = view d st (S + t + 1 + Z.of_nat i)).
Proof using All.
  revert t st P. induction l as [|b l IH]; intros t st P He Hok HPlog HlP Hsz Hsz1.
  { exists st. split_and!; try done; [|by apply wrote_nil].
    simpl. rewrite difference_empty_L. by destruct (r =? 0). }
  destruct (entries_cons t b l He) as (Hget & He' & Hb & Hbl & Ht). destruct He as [Ht0 _].
  destruct (install_one_ok g r st P t b (S + t + 1) b) as (st1 & E1 & Hok1 & Hw1 & Hv1 & Hf1);
    try done; [apply log_block_num; lia|by apply home_num|by apply log_ne_home
      |apply HPlog; unfold in_log; lia| |intros; apply HlP; set_solver|].
  { destruct (decide (r = 0)) as [Hr|Hr]; [left; apply HlP; set_solver|right; auto]. }
  cbn [install_loop length]. rewrite E1. cbn [mbind outcome_bind].
  set (P1 := if r =? 0 then P ∖ {[b]} else P) in *.
  assert (HP1 : P1 ⊆ P) by (unfold P1; destruct (r =? 0); set_solver).
  assert (HP1sz : (size P1 ≤ size P)%nat) by by apply subseteq_size.
  destruct (IH (t + 1) st1 P1) as (st2 & E2 & Hok2 & Hw2 & Hf2 & Hv2); try done;
    [set_solver| |lia|intros Hr; specialize (Hsz1 Hr); lia|].
  { intros Hr c Hc. unfold P1. rewrite (proj2 (Z.eqb_eq r 0) Hr).
    apply elem_of_difference. split; [apply HlP; set_solver|set_solver]. }
  assert (Hlog : ∀ k, S + t + 1 ≤ k < S + N → view d st1 k = view d st k).
  { intros k Hk. apply Hf1. destruct (lg_home _ _ Hgeom b Hb). lia. }
  assert (Hlen : t + 1 + zlen l < N).
  { destruct He' as (_ & pre & E & Hp & _). pose proof (lg_fit _ _ Hgeom) as Hn.
    rewrite E in Hn. unfold zlen in *. rewrite length_app in Hn. lia. }
  exists st2. split_and!; try done.
  - replace (if r =? 0 then P ∖ list_to_set (b :: l) else P)
      with (if r =? 0 then P1 ∖ list_to_set l else P1); [done|].
    unfold P1. destruct (r =? 0); [set_solver|done].
  - cbn [home_ws]. rewrite (home_ws_ext _ l _ (view d st)) in Hw2
      by (intros; apply Hlog; lia).
    rewrite <- Z.add_assoc in *. apply (wrote_trans d st st1 st2 [_]); done.
  - intros k Hk. rewrite Hf2 by set_solver. apply Hf1. set_solver.
  - intros [|i] c Hc; simpl in Hc.
    + injection Hc as <-. rewrite Z.add_0_r. by rewrite Hf2.
    + replace (S + t + 1 + Z.of_nat (Datatypes.S i)) with (S + (t + 1) + 1 + Z.of_nat i) by lia.
      rewrite (Hv2 i c Hc). apply Hlog. apply lookup_lt_Some in Hc. unfold zlen in Hlen. lia.
Qed.

Context (P : gset Z).
Context (HPlog : ∀ k, in_log S k → k ∉ P).
Context (HPsz : Z.of_nat (size P) < NBUF).

Lemma write_log_loop_ok l t st :
  entries t l → bio_ok d st ∅ P → (∀ b, b ∈ L → b ∈ P) →
  ∃ st', write_log_loop (length l) g st t = Ok st' ∧ bio_ok d st' ∅ P ∧
    wrote d st st' (log_ws (S + t) l (view d st)) ∧
    (∀ k, ¬ (S + t < k ≤ S + t + zlen l) → view d st' k = view d st k) ∧
    (∀ i b, l !! i = Some b → view d st' (S + t + 1 + Z.of_nat i) = view d st b).
Proof using All.
  revert t st. induction l as [|b l IH]; intros t st He Hok HLP.
  { exists st. split_and!; try done. by apply wrote_nil. }
  destruct (entries_cons t b l He) as (Hget & He' & Hb & _ & Ht). destruct He as [Ht0 _].
  destruct (write_log_one_ok g st P t b (S + t + 1) b) as (st1 & E1 & Hok1 & Hw1 & Hv1 & Hf1);
    try done; [apply log_block_num; lia|by apply home_num|by apply log_ne_home
      |apply HPlog; unfold in_log; lia|by apply HLP|].
  cbn [write_log_loop length]. rewrite E1. cbn [mbind outcome_bind].
  destruct (IH (t + 1) st1) as (st2 & E2 & Hok2 & Hw2 & Hf2 & Hv2); try done.
  assert (Hx : log_ws (S + (t + 1)) l (view d st1) = log_ws (S + (t + 1)) l (view d st)).
  { apply log_ws_ext. intros c Hc. apply Hf1. apply not_eq_sym, log_ne_home; [|lia..].
    destruct He' as (_ & pre & E & _). rewrite E. set_solver. }
  exists st2. split_and!; try done.
  - cbn [log_ws]. rewrite Hx in Hw2. rewrite <- Z.add_assoc in *.
    apply (wrote_trans d st st1 st2 [_]); done.
  - unfold zlen in *. simpl. intros k Hk. rewrite Hf2 by lia. apply Hf1. lia.
  - intros [|i] c Hc; simpl in Hc.
    + injection Hc as ->. rewrite Z.add_0_r. rewrite Hf2 by lia. done.
    + replace (S + t + 1 + Z.of_nat (Datatypes.S i)) with (S + (t + 1) + 1 + Z.of_nat i) by lia.
      rewrite (Hv2 i c Hc). apply Hf1. apply not_eq_sym, log_ne_home; [|lia..].
      destruct He' as (_ & pre & E & _). rewrite E. apply list_elem_of_lookup_2 in Hc. set_solver.
Qed.
End transaction.

(** ** The header block *)

(** [hdr] is a header block that lists the blocks [l]. *)
Record head_is (hdr : list Z) (l : list Z) : Prop := {
  hi_len : zlen hdr = BSIZE;
  hi_n : rd 4 hdr 0 = zlen l;
  hi_block : ∀ i b, l !! i = Some b → rd 4 hdr (4 + 4 * Z.of_nat i) = b;
}.

(** What [write_head] makes of the old header. *)
Fixpoint put_blocks (hdr : list Z) (l : list Z) (i : Z) : list Z :=
  match l with
  | [] => hdr
  | b :: l' => put_blocks (wr 4 hdr (4 + 4 * i) b) l' (i + 1)
  end.

Definition head_block (old : list Z) (l : list Z) : list Z := put_blocks (wr 4 old 0 (zlen l)) l 0.

Lemma put_blocks_ok l hdr i :
  zlen hdr = BSIZE → 0 ≤ i → i + zlen l ≤ LOGSIZE → (∀ b, b ∈ l → 0 ≤ b < 2 ^ 31) →
  zlen (put_blocks hdr l i) = BSIZE ∧
  (∀ o, 0 ≤ o → o + 4 ≤ 4 + 4 * i → rd 4 (put_blocks hdr l i) o = rd 4 hdr o) ∧
  (∀ j b, l !! j = Some b → rd 4 (put_blocks hdr l i) (4 + 4 * (i + Z.of_nat j)) = b).
Proof.
  unfold LOGSIZE, MAXOPBLOCKS.
  revert hdr i. induction l as [|b l IH]; intros hdr i Hl Hi Hn Hb; [done|].
  unfold zlen in Hn. simpl in Hn. cbn [put_blocks].
  assert (Hw : zlen (wr 4 hdr (4 + 4 * i) b) = BSIZE)
    by (rewrite zlen_wr; unfold BSIZE in *; lia).
  destruct (IH (wr 4 hdr (4 + 4 * i) b) (i + 1)) as (H1 & H2 & H3);
    [done|lia|unfold zlen; lia|set_solver|].
  split_and!; [done| |].
  - intros o Ho1 Ho2. rewrite H2 by lia. apply rd_wr_ne; unfold BSIZE in *; lia.
  - intros [|j] c Hc; simpl in Hc.
    + injection Hc as <-. rewrite Z.add_0_r, H2 by lia.
      rewrite rd_wr by (unfold BSIZE in *; lia). apply Z.mod_small.
      specialize (Hb b ltac:(set_solver)). lia.
    + replace (i + Z.of_nat (Datatypes.S j)) with (i + 1 + Z.of_nat j) by lia. by apply H3.
Qed.

Lemma head_block_is old l :
  zlen old = BSIZE → zlen l ≤ LOGSIZE → (∀ b, b ∈ l → 0 ≤ b < 2 ^ 31) →
  head_is (head_block old l) l.
Proof.
  intros Ho Hl Hb. unfold head_block.
  assert (Hw : zlen (wr 4 old 0 (zlen l)) = BSIZE) by (rewrite zlen_wr; unfold BSIZE in *; lia).
  destruct (put_blocks_ok l (wr 4 old 0 (zlen l)) 0) as (H1 & H2 & H3); try done.
  constructor; [done| |].
  - rewrite H2 by lia. rewrite rd_wr by (unfold BSIZE in *; lia). apply Z.mod_small.
    unfold LOGSIZE, MAXOPBLOCKS, zlen in *. lia.
  - intros i b Hi. rewrite <- (H3 i b Hi). done.
Qed.

Lemma write_blocks_ok bl l hdr i pre :
  zlen pre = i → (∀ j b, (pre ++ l) !! j = Some b → bl !! j = Some b) →
  write_blocks (length l) bl hdr i = Ok (put_blocks hdr l i).
Proof.
  unfold zlen. revert hdr i pre. induction l as [|b l IH]; intros hdr i pre Hp Hbl; [done|].
  cbn [write_blocks length put_blocks].
  rewrite (arr_get_lookup bl i b); [|lia|apply Hbl; rewrite <- Hp, Nat2Z.id; by apply list_lookup_middle].
  cbn [mbind outcome_bind]. apply (IH _ _ (pre ++ [b])).
  - rewrite length_app. simpl. lia.
  - by rewrite <- app_assoc.
Qed.

(** [write_head] on a log whose header lists [l]. *)
Lemma write_head_ok s P S l :
  bio_ok d (cache s) ∅ P → ldev (lg s) = d → lstart (lg s) = S → 0 ≤ S < 2 ^ 31 →
  Z.of_nat (size P) < NBUF → lh_n (lg s) = zlen l → zlen l ≤ LOGSIZE →
  (∀ b, b ∈ l → 0 ≤ b < 2 ^ 31) →
  (∀ j b, l !! j = Some b → lh_block (lg s) !! j = Some b) →
  ∃ st', write_head s = Ok (with_cache s st') ∧
    updated (cache s) st' P S (head_block (view d (cache s) S) l).
Proof.
  intros Hok Hd HS HSr Hsz Hn Hll Hb Hbl. unfold write_head.
  rewrite Hd, HS, u32_small by lia.
  destruct (bread_ok d (cache s) ∅ P S Hok) as (b & st1 & E1 & (Hok1 & Hp1 & Hv1 & Hs1 & Hd1 & Hw1 & _) & _);
    [set_solver|right; by rewrite union_empty_l_L|].
  rewrite E1. cbn [mbind outcome_bind].
  rewrite (data_of_ok d st1 _ P b S) by done. cbn [mbind outcome_bind]. rewrite Hv1, Hn.
  rewrite (to_nat_zlen l).
  rewrite (write_blocks_ok _ l _ 0 []) by done. cbn [mbind outcome_bind].
  fold (head_block (view d (cache s) S) l).
  pose proof (head_block_is (view d (cache s) S) l (view_len _ _ _ _ _ Hok) Hll Hb) as [Hlen _ _].
  destruct (set_bwrite st1 _ P b S (head_block (view d (cache s) S) l) Hok1)
    as (st2 & st3 & E2 & E3 & (Hok3 & Hp3 & Hv3 & Hs3) & Hw3 & Hdk3); [set_solver|done|done|].
  rewrite E2. cbn [mbind outcome_bind]. rewrite E3. cbn [mbind outcome_bind].
  destruct (brelse_ok d st3 _ P b S Hok3) as (st4 & E4 & (Hok4 & Hp4 & Hv4 & Hs4) & Hd4 & Hw4);
    [set_solver|done|right; by rewrite Hv3, Hdk3|].
  rewrite E4. cbn [mbind outcome_bind]. exists st4. split; [done|]. split_and!.
  - replace ∅ with (({[S]} ∪ ∅) ∖ {[S]} : gset Z) by set_solver. done.
  - change [(S, head_block (view d (cache s) S) l)] with
      ([] ++ [(S, head_block (view d (cache s) S) l)] ++ []).
    eapply wrote_trans; [by apply wrote_nil|].
    eapply wrote_trans; [done|by apply wrote_nil].
  - by rewrite Hv4.
  - intros k Hk. rewrite (sb_view _ _ _ _ _ Hs4), (sb_view _ _ _ _ _ Hs3) by done.
    by apply (sb_view _ _ _ _ _ Hs1).
Qed.

Lemma read_blocks_ok hdr l bl i pre :
  zlen pre = i → (∀ b, b ∈ l → 0 ≤ b < 2 ^ 31) →
  (∀ j b, l !! j = Some b → rd 4 hdr (4 + 4 * (i + Z.of_nat j)) = b) →
  (length l ≤ length bl)%nat →
  read_blocks (length l) hdr (pre ++ bl) i = Ok (pre ++ l ++ drop (length l) bl).
Proof.
  unfold zlen. revert bl i pre. induction l as [|b l IH]; intros bl i pre Hp Hb Hl Hn; simpl in *.
  { by rewrite drop_0. }
  destruct bl as [|c bl]; simpl in Hn; [lia|].
  assert (E : i32 (rd 4 hdr (4 + 4 * i)) = b).
  { replace (4 + 4 * i) with (4 + 4 * (i + Z.of_nat 0)) by lia. rewrite (Hl 0%nat b) by done.
    apply i32_small. specialize (Hb b ltac:(set_solver)). lia. }
  rewrite E, arr_set_in_range by (unfold zlen; rewrite length_app; simpl; lia).
  cbn [mbind outcome_bind]. rewrite <- Hp at 1. rewrite Nat2Z.id.
  rewrite insert_app_r_alt, Nat.sub_diag by lia. simpl.
  replace (pre ++ b :: bl) with ((pre ++ [b]) ++ bl) by by rewrite <- app_assoc.
  rewrite (IH bl (i + 1) (pre ++ [b])).
  - by rewrite <- app_assoc.
  - rewrite length_app. simpl. lia.
  - set_solver.
  - intros j c' Hj. rewrite <- (Hl (Datatypes.S j) c' Hj). f_equal. lia.
  - lia.
Qed.

(** ** The log invariant *)

(** The log lists the blocks [L] of the current transaction, which are exactly
    the pinned ones; the header on disk lists none. *)
Record log_ok (s : fslog) (H : gset Z) (S : Z) (L : list Z) : Prop := {
  lo_bio : bio_ok d (cache s) H (list_to_set L);
  lo_dev : ldev (lg s) = d;
  lo_start : lstart (lg s) = S;
  lo_size : lsize (lg s) = N;
  lo_geom : log_geom S L;
  lo_room : zlen L < NBUF;
  lo_n : lh_n (lg s) = zlen L;
  lo_cap : zlen (lh_block (lg s)) = LOGSIZE;
  lo_block : ∀ j b, L !! j = Some b → lh_block (lg s) !! j = Some b;
  lo_head : head_is (disk_read (disk (cache s)) S) [];
}.

Lemma geom_nil S L : log_geom S L → log_geom S [].
Proof.
  intros []. constructor; try done; [unfold zlen in *; simpl; lia|constructor|set_solver].
Qed.

Lemma geom_start S L : log_geom S L → 0 ≤ S < 2 ^ 31 ∧ 0 < N.
Proof. intros [H1 H2 _ H3]. unfold zlen in *. lia. Qed.

Lemma geom_pins S L : log_geom S L → ∀ k, in_log S k → k ∉ (list_to_set L : gset Z).
Proof.
  intros Hg k Hk Hin. apply elem_of_list_to_set in Hin.
  destruct (lg_home _ _ Hg k Hin). unfold in_log in Hk. lia.
Qed.

Lemma geom_size S L : log_geom S L → size (list_to_set L : gset Z) = length L.
Proof. intros Hg. apply size_list_to_set, (lg_nodup _ _ Hg). Qed.

Lemma entries_all L g : (∀ j b, L !! j = Some b → lh_block g !! j = Some b) → entries L g 0 L.
Proof. intros Hl. split; [done|]. exists []. done. Qed.

Lemma read_head_ok s S l :
  bio_ok d (cache s) ∅ ∅ → ldev (lg s) = d → lstart (lg s) = S → log_geom S l →
  head_is (view d (cache s) S) l → zlen (lh_block (lg s)) = LOGSIZE →
  ∃ st' rest, read_head s = Ok (mk_fslog st' (with_lh (lg s) (zlen l) (l ++ rest))) ∧
    bio_ok d st' ∅ ∅ ∧ wrote d (cache s) st' [] ∧ (∀ k, view d st' k = view d (cache s) k) ∧
    zlen (l ++ rest) = LOGSIZE.
Proof.
  intros Hok Hd HS Hg [Hl Hn Hb] Hcap. unfold read_head.
  pose proof (geom_start _ _ Hg) as [? ?]. pose proof (lg_len _ _ Hg) as Hlen.
  unfold LOGSIZE, MAXOPBLOCKS in *.
  rewrite Hd, HS, u32_small by lia.
  destruct (bread_ok d (cache s) ∅ ∅ S Hok) as (b & st1 & E1 & (Hok1 & Hp1 & Hv1 & Hs1 & Hd1 & Hw1 & _) & _);
    [set_solver|by right|].
  rewrite E1. cbn [mbind outcome_bind].
  rewrite (data_of_ok d st1 _ ∅ b S) by done. cbn [mbind outcome_bind]. rewrite Hv1, Hn.
  rewrite i32_small by (unfold zlen in *; lia). cbv zeta.
  rewrite (to_nat_zlen l).
  pose proof (read_blocks_ok (view d (cache s) S) l (lh_block (lg s)) 0 []) as Hr.
  simpl in Hr. rewrite Hr; [|done|intros c Hc; by apply (lg_home _ _ Hg c)|done|unfold zlen in *; lia].
  cbn [mbind outcome_bind].
  destruct (brelse_ok d st1 _ ∅ b S Hok1) as (st2 & E2 & (Hok2 & Hp2 & Hv2 & Hs2) & Hd2 & Hw2);
    [set_solver|done| |].
  { right. rewrite Hv1, Hd1. by apply (view_clean d _ ∅ ∅). }
  rewrite E2. cbn [mbind outcome_bind]. exists st2, (drop (length l) (lh_block (lg s))).
  split_and!; try done.
  - by rewrite release_one in Hok2.
  - apply wrote_nil; congruence.
  - intros k. destruct (decide (k = S)) as [->|Hk]; [congruence|].
    rewrite (sb_view _ _ _ _ _ Hs2) by done. by apply (sb_view _ _ _ _ _ Hs1).
  - unfold zlen in *. rewrite length_app, length_drop. lia.
Qed.

Lemma lookup_app_pre {A} (l k : list A) j b : l !! j = Some b → (l ++ k) !! j = Some b.
Proof. intros Hj. by apply lookup_app_l_Some. Qed.

(** Recovery installs the committed blocks and clears the header. *)
Lemma recover_ok s S l :
  bio_ok d (cache s) ∅ ∅ → ldev (lg s) = d → lstart (lg s) = S → lsize (lg s) = N →
  log_geom S l → head_is (view d (cache s) S) l → zlen (lh_block (lg s)) = LOGSIZE →
  ∃ s', recover_from_log s = Ok s' ∧ log_ok s' ∅ S [] ∧
    wrote d (cache s) (cache s') (home_ws S l (view d (cache s)) ++
      [(S, head_block (view d (cache s) S) [])]).
Proof.
  intros Hok Hd HS HN0 Hg Hh Hcap. unfold recover_from_log.
  destruct (read_head_ok s S l) as (st1 & rest & -> & Hok1 & Hw1 & Hv1 & Hcap1); try done.
  cbn [mbind outcome_bind]. unfold install_trans. cbn [lg cache lh_n with_lh].
  rewrite (to_nat_zlen l).
  set (g1 := with_lh (lg s) (zlen l) (l ++ rest)).
  assert (Hbl : ∀ j b, l !! j = Some b → lh_block g1 !! j = Some b)
    by (intros; by apply lookup_app_pre).
  destruct (install_loop_ok S l g1 Hg Hd HS 1 l 0 st1 ∅) as (st2 & E2 & Hok2 & Hw2 & Hf2 & Hv2);
    try done; [by apply entries_all|].
  rewrite E2. cbn [mbind outcome_bind]. change (1 =? 0) with false in Hok2. cbv iota in Hok2.
  rewrite Z.add_0_r in Hw2.
  pose proof (geom_start _ _ Hg) as [HS31 HN].
  assert (HSl : S ∉ l) by (intros Hin; destruct (lg_home _ _ Hg S Hin); unfold LOGSIZE, MAXOPBLOCKS in *; lia).
  destruct (write_head_ok (clear_lh (with_cache (mk_fslog st1 g1) st2)) ∅ S [])
    as (st3 & -> & Hok3 & Hw3 & Hv3 & Hf3); try done; [by intros ? ?%elem_of_nil|].
  simpl in Hw3, Hv3, Hf3. rewrite Hf2 in Hw3, Hv3 by done. rewrite Hv1 in Hw3, Hv3.
  eexists. split; [done|]. split.
  - constructor; simpl; try done; [by eapply geom_nil|].
    rewrite <- (view_clean d st3 ∅ ∅ S Hok3), Hv3 by done.
    apply head_block_is; [by eapply view_len|done|set_solver].
  - cbn [cache with_cache]. rewrite (home_ws_ext _ l _ (view d (cache s))) in Hw2 by auto.
    change (home_ws S l (view d (cache s))) with ([] ++ home_ws S l (view d (cache s))).
    rewrite <- app_assoc. eapply wrote_trans; [done|]. by eapply wrote_trans.
Qed.

(** The writes of a commit, in order. *)
Definition commit_ws (S : Z) (L : list Z) (V : Z → list Z) : list (Z * list Z) :=
  log_ws S L V ++ (S, head_block (V S) L) :: ((λ b, (b, V b)) <$> L) ++
  [(S, head_block (head_block (V S) L) [])].

Lemma home_ws_fmap S l V W :
  (∀ i b, l !! i = Some b → W (S + 1 + Z.of_nat i) = V b) → home_ws S l W = (λ b, (b, V b)) <$> l.
Proof.
  revert S. induction l as [|b l IH]; intros S E; simpl; [done|]. f_equal.
  - rewrite <- (E 0%nat b) by done. by rewrite Z.add_0_r.
  - apply IH. intros i c Hc. rewrite <- (E (Datatypes.S i) c) by done. f_equal. lia.
Qed.

Lemma commit_ok s S L :
  log_ok s ∅ S L → L ≠ [] →
  ∃ s', commit s = Ok s' ∧ log_ok s' ∅ S [] ∧
    outstanding (lg s') = outstanding (lg s) ∧ committing (lg s') = committing (lg s) ∧
    lsize (lg s') = lsize (lg s) ∧
    wrote d (cache s) (cache s') (commit_ws S L (view d (cache s))) ∧
    (∀ k, ¬ in_log S k → view d (cache s') k = view d (cache s) k).
Proof.
  intros [Hok Hd HS HN0 Hg Hroom Hn Hcap Hbl Hhd] Hne. set (V := view d (cache s)).
  pose proof (geom_pins _ _ Hg) as HP. pose proof (geom_size _ _ Hg) as Hsz.
  pose proof (geom_start _ _ Hg) as [? ?]. pose proof (lg_len _ _ Hg) as Hlen.
  unfold in_log, LOGSIZE, MAXOPBLOCKS in *.
  assert (Hb31 : ∀ b, b ∈ L → 0 ≤ b < 2 ^ 31) by (intros b Hb; by apply (lg_home _ _ Hg b)).
  assert (HSL : ∀ b, b ∈ L → ¬ (S ≤ b < S + N)).
  { intros b Hb. destruct (lg_home _ _ Hg b Hb). unfold LOGSIZE, MAXOPBLOCKS in *. lia. }
  unfold commit. destruct (Z.ltb_spec 0 (lh_n (lg s))) as [_|Hle];
    [|destruct L; [done|unfold zlen in *; simpl in *; lia]].
  unfold write_log. rewrite Hn, (to_nat_zlen L).
  destruct (write_log_loop_ok S L (lg s) Hg Hd HS (list_to_set L) HP ltac:(unfold zlen in *; lia)
    L 0 (cache s)) as (st1 & E1 & Hok1 & Hw1 & Hf1 & Hv1); [by apply entries_all|done|set_solver|].
  rewrite E1. cbn [mbind outcome_bind]. rewrite Z.add_0_r in *.
  destruct (write_head_ok (with_cache s st1) (list_to_set L) S L) as (st2 & E2 & Hok2 & Hw2 & Hv2 & Hf2);
    try done; [unfold zlen in *; lia|]. cbn [with_cache cache lg] in *.
  rewrite E2. cbn [mbind outcome_bind]. rewrite Hf1 in Hw2, Hv2 by lia. fold V in Hw1, Hw2, Hv2, Hv1, Hf1.
  unfold install_trans. cbn [with_cache cache lg]. rewrite Hn, (to_nat_zlen L).
  destruct (install_loop_ok S L (lg s) Hg Hd HS 0 L 0 st2 (list_to_set L))
    as (st3 & E3 & Hok3 & Hw3 & Hf3 & Hv3); try done; [by apply entries_all|set_solver
      |unfold zlen in *; lia|].
  rewrite E3. cbn [mbind outcome_bind]. change (0 =? 0) with true in Hok3. cbv iota in Hok3.
  rewrite difference_diag_L in Hok3. rewrite Z.add_0_r in *.
  assert (HSnL : S ∉ L) by (intros Hin; apply (HSL S Hin); lia).
  destruct (write_head_ok (clear_lh (with_cache s st3)) ∅ S []) as (st4 & E4 & Hok4 & Hw4 & Hv4 & Hf4);
    try done; [by intros ? ?%elem_of_nil|].
  cbn [with_cache clear_lh cache lg] in *. rewrite Hf3, Hv2 in Hw4, Hv4 by done.
  exists (with_cache (clear_lh (with_cache s st3)) st4). split; [done|]. split_and!; try done.
  - constructor; try done; [by eapply geom_nil|]. cbn [with_cache cache].
    rewrite <- (view_clean d st4 ∅ ∅ S Hok4), Hv4 by done.
    apply head_block_is; [|done|by intros ? ?%elem_of_nil].
    apply head_block_is; [by eapply view_len|done|done].
  - unfold commit_ws. cbn [with_cache cache]. fold V.
    rewrite (home_ws_fmap _ L V) in Hw3.
    + eapply wrote_trans; [done|]. eapply (wrote_trans d _ _ _ [_]); [done|]. by eapply wrote_trans.
    + intros i b Hi. rewrite Hf2, (Hv1 i b Hi) by lia. done.
  - cbn [with_cache cache]. intros k Hk. rewrite Hf4 by lia.
    destruct (decide (k ∈ L)) as [[i Hi]%list_elem_of_lookup|Hn'].
    + rewrite (Hv3 i k Hi), Hf2 by lia. by rewrite (Hv1 i k Hi).
    + rewrite Hf3, Hf2 by (done || lia). apply Hf1. pose proof (lg_fit _ _ Hg). unfold zlen in *. lia.
Qed.
End log.
