(* ===== verification/LogThm.v ===== *)
(** * Crash safety of the log.

    A crash leaves on disk a prefix of the block writes issued so far; the
    machine then restarts with an empty cache and runs [initlog]. *)

From Stdlib Require Import ZifyBool.
From S2P Require Import Prelude LinkedList Block Bio BioProof Log LogProof.

Section crash.
Context (d N : Z).
Context (Hd0 : d ≠ 0).

(** Recovery from disk [dk], whose header lists [l], yields the contents [V]
    outside the log. *)
Record recovers_to (S : Z) (dk : disk_t) (V : Z → list Z) (l : list Z) : Prop := {
  rt_geom : log_geom N S l;
  rt_head : head_is (disk_read dk S) l;
  rt_len : ∀ k, zlen (disk_read dk k) = BSIZE;
  rt_log : ∀ i b, l !! i = Some b → disk_read dk (S + 1 + Z.of_nat i) = V b;
  rt_home : ∀ k, ¬ in_log N S k → k ∉ l → disk_read dk k = V k;
}.

Lemma disk_read_insert_eq dk b c : disk_read (<[b := c]> dk) b = c.
Proof. unfold disk_read. by rewrite lookup_insert_eq. Qed.

Lemma disk_read_insert_ne dk b c k : b ≠ k → disk_read (<[b := c]> dk) k = disk_read dk k.
Proof. intros. unfold disk_read. by rewrite lookup_insert_ne. Qed.

Lemma log_index S l i b :
  log_geom N S l → l !! i = Some b → in_log N S (S + 1 + Z.of_nat i) ∧ S + 1 + Z.of_nat i ≠ S.
Proof.
  intros Hg Hi. pose proof (lg_fit _ _ _ Hg). apply lookup_lt_Some in Hi.
  unfold in_log, zlen in *. lia.
Qed.

Lemma home_not_log S l b : log_geom N S l → b ∈ l → ¬ in_log N S b.
Proof. intros Hg Hb. destruct (lg_home _ _ _ Hg b Hb). unfold in_log. lia. Qed.

Lemma start_in_log S l : log_geom N S l → in_log N S S.
Proof. intros Hg. pose proof (geom_start _ _ _ Hg). unfold in_log. lia. Qed.

(** Installing a logged block early does not matter. *)
Lemma recovers_install S dk V l b :
  recovers_to S dk V l → b ∈ l → zlen (V b) = BSIZE → recovers_to S (<[b := V b]> dk) V l.
Proof.
  intros [Hg Hh Hl Hlog Hhome] Hb HV. pose proof (home_not_log _ _ _ Hg Hb) as Hnl.
  pose proof (start_in_log _ _ Hg) as HS.
  constructor; [done| | | |].
  - rewrite disk_read_insert_ne; [done|]. by intros ->.
  - intros k. destruct (decide (b = k)) as [->|Hk]; [by rewrite disk_read_insert_eq|].
    by rewrite disk_read_insert_ne.
  - intros i c Hi. rewrite disk_read_insert_ne; [by apply Hlog|].
    destruct (log_index _ _ _ _ Hg Hi) as [Hin _]. by intros ->.
  - intros k Hk1 Hk2. rewrite disk_read_insert_ne by (by intros ->). by apply Hhome.
Qed.

Definition homes (V : Z → list Z) (l : list Z) : list (Z * list Z) := (λ b, (b, V b)) <$> l.

Lemma recovers_homes S dk V l l1 :
  recovers_to S dk V l → (∀ b, b ∈ l1 → b ∈ l) → (∀ b, b ∈ l → zlen (V b) = BSIZE) →
  recovers_to S (apply_writes dk (homes V l1)) V l.
Proof.
  revert dk. induction l1 as [|b l1 IH]; intros dk Hr Hsub HV; [done|].
  simpl. apply IH; [|set_solver|done]. apply recovers_install; [done|set_solver|].
  apply HV. set_solver.
Qed.

Lemma homes_read dk V l k :
  disk_read (apply_writes dk (homes V l)) k = if decide (k ∈ l) then V k else disk_read dk k.
Proof.
  revert dk. induction l as [|b l IH]; intros dk.
  { case_decide as Hk; [by apply elem_of_nil in Hk|done]. }
  change (apply_writes dk (homes V (b :: l))) with (apply_writes (<[b := V b]> dk) (homes V l)).
  rewrite IH. destruct (decide (k ∈ l)) as [Hk|Hk].
  - rewrite decide_True by set_solver. done.
  - destruct (decide (k = b)) as [->|Hne].
    + rewrite decide_True by set_solver. apply disk_read_insert_eq.
    + rewrite decide_False by set_solver. by apply disk_read_insert_ne.
Qed.

(** Clearing the header once everything is installed. *)
Lemma recovers_clear S dk V l old :
  recovers_to S dk V l → (∀ b, b ∈ l → zlen (V b) = BSIZE) → zlen old = BSIZE →
  recovers_to S (<[S := head_block old []]> (apply_writes dk (homes V l))) V [].
Proof.
  intros Hr HV Hold. pose proof Hr as [Hg _ Hl _ Hhome]. pose proof (start_in_log _ _ Hg) as HS.
  assert (Hhd : head_is (head_block old []) []).
  { apply head_block_is; [done|done|]. by intros ? ?%elem_of_nil. }
  constructor.
  - by eapply geom_nil.
  - by rewrite disk_read_insert_eq.
  - intros k. destruct (decide (S = k)) as [->|Hk].
    + rewrite disk_read_insert_eq. apply Hhd.
    + rewrite disk_read_insert_ne, homes_read by done. case_decide; auto.
  - done.
  - intros k Hk _. rewrite disk_read_insert_ne, homes_read by (by intros ->).
    case_decide; [done|]. by apply Hhome.
Qed.

(** The writes of a recovery that runs to its end. *)
Definition recovery_ws (S : Z) (dk : disk_t) (V : Z → list Z) (l : list Z) : list (Z * list Z) :=
  homes V l ++ [(S, head_block (disk_read dk S) [])].

Lemma take_snoc {A} n (l : list A) x :
  take n (l ++ [x]) = take n l ∨ take n (l ++ [x]) = l ++ [x].
Proof.
  destruct (decide (n ≤ length l)%nat) as [Hn|Hn].
  - left. by apply take_app_le.
  - right. apply take_ge. rewrite length_app. simpl. lia.
Qed.

Lemma homes_take n V l : take n (homes V l) = homes V (take n l).
Proof. unfold homes. by rewrite fmap_take. Qed.

(** A crash in the middle of recovery changes nothing. *)
Lemma recovers_prefix S dk V l n :
  recovers_to S dk V l → (∀ b, b ∈ l → zlen (V b) = BSIZE) →
  ∃ l', recovers_to S (apply_writes dk (take n (recovery_ws S dk V l))) V l'.
Proof.
  intros Hr HV. unfold recovery_ws.
  destruct (take_snoc n (homes V l) (S, head_block (disk_read dk S) [])) as [->| ->].
  - exists l. rewrite homes_take. apply recovers_homes; [done| |done].
    intros b Hb. by apply elem_of_take in Hb as (? & ? & _); eapply list_elem_of_lookup_2.
  - exists []. rewrite apply_writes_app. simpl. apply recovers_clear; try done.
    apply (rt_len _ _ _ _ Hr).
Qed.

(** Restarting on such a disk, from a cache that holds nothing else. *)
Lemma recovers_initlog_from S dk V l st :
  recovers_to S dk V l → (∀ b, b ∈ l → zlen (V b) = BSIZE) →
  bio_ok d st ∅ ∅ → disk st = dk → writes st = [] → (∀ k, view d st k = disk_read dk k) →
  ∃ s, initlog st d S N = Ok s ∧ log_ok d N s ∅ S [] ∧
    writes (cache s) = recovery_ws S dk V l ∧
    disk (cache s) = apply_writes dk (recovery_ws S dk V l) ∧
    ∀ k, ¬ in_log N S k → view d (cache s) k = V k.
Proof.
  intros Hr HV Hok Hdk Hws Hv. pose proof Hr as [Hg Hh Hl Hlog Hhome].
  pose proof (geom_start _ _ _ Hg) as [HS HN].
  unfold initlog. change (BSIZE <=? 4 * (LOGSIZE + 1)) with false. cbv iota.
  pose proof (lg_end _ _ _ Hg). rewrite (i32_small S), (i32_small N) by lia.
  destruct (recover_ok d N (mk_fslog st (mk_log S N 0 0 d 0
    (replicate (Z.to_nat LOGSIZE) 0))) S l) as (s & Hs & Hok' & Hw);
    [exact Hok|exact eq_refl|exact eq_refl|exact eq_refl|exact Hg|cbn [cache]; rewrite Hv; exact Hh|exact eq_refl|].
  simpl in Hw. rewrite Hv in Hw.
  rewrite (home_ws_fmap S l V) in Hw by (intros i b Hi; rewrite Hv; by apply Hlog).
  change (_ ++ _) with (recovery_ws S dk V l) in Hw.
  destruct Hw as [Hwd Hww]. rewrite Hdk in Hwd. rewrite Hws in Hww. simpl in Hww.
  exists s. split; [exact Hs|]. split; [exact Hok'|].
  split; [exact Hww|]. split; [exact Hwd|]. intros k Hk.
  rewrite (view_clean d (cache s) ∅ ∅ k (lo_bio _ _ _ _ _ _ Hok')) by apply not_elem_of_empty.
  rewrite Hwd.
  unfold recovery_ws. rewrite apply_writes_app. simpl.
  apply (rt_home _ _ _ _ (recovers_clear S dk V l (disk_read dk S) Hr HV (Hl S))); [done|].
  apply not_elem_of_nil.
Qed.

Lemma recovers_initlog S dk V l :
  recovers_to S dk V l → (∀ b, b ∈ l → zlen (V b) = BSIZE) →
  ∃ st s, binit dk = Ok st ∧ initlog st d S N = Ok s ∧ log_ok d N s ∅ S [] ∧
    writes (cache s) = recovery_ws S dk V l ∧
    disk (cache s) = apply_writes dk (recovery_ws S dk V l) ∧
    ∀ k, ¬ in_log N S k → view d (cache s) k = V k.
Proof.
  intros Hr HV. destruct (binit_ok d dk Hd0 (rt_len _ _ _ _ Hr)) as (st & Hst & Hok & Hdk & Hws & Hv).
  destruct (recovers_initlog_from S dk V l st Hr HV Hok Hdk Hws Hv) as (s & Hs). exists st, s. exact (conj Hst Hs).
Qed.

(** ** Crashes in the middle of a commit *)

Lemma log_ws_take n S l (V : Z → list Z) : take n (log_ws S l V) = log_ws S (take n l) V.
Proof. revert n S. induction l as [|b l IH]; intros [|n] S; simpl; [done..|]. by rewrite IH. Qed.

Lemma log_ws_read S l V dk k :
  disk_read (apply_writes dk (log_ws S l V)) k =
    if decide (S < k ≤ S + zlen l) then default (disk_read dk k) (V <$> l !! Z.to_nat (k - S - 1))
    else disk_read dk k.
Proof.
  unfold zlen. revert S dk. induction l as [|b l IH]; intros S dk.
  { case_decide as Hk; [simpl in Hk; lia|done]. }
  change (apply_writes dk (log_ws S (b :: l) V)) with
    (apply_writes (<[S + 1 := V b]> dk) (log_ws (S + 1) l V)). rewrite IH.
  destruct (decide (k = S + 1)) as [->|Hne].
  - rewrite decide_False by lia. rewrite decide_True by (simpl; lia).
    rewrite disk_read_insert_eq. by replace (Z.to_nat (S + 1 - S - 1)) with 0%nat by lia.
  - rewrite disk_read_insert_ne by done.
    destruct (decide (S + 1 < k ≤ S + 1 + Z.of_nat (length l))) as [Hk|Hk].
    + rewrite decide_True by (simpl; lia).
      by replace (Z.to_nat (k - S - 1)) with (Datatypes.S (Z.to_nat (k - (S + 1) - 1))) by lia.
    + rewrite decide_False by (simpl; lia). done.
Qed.

Lemma recovers_log_writes S dk V W l l' :
  recovers_to S dk V [] → log_geom N S l → (∀ b, zlen (W b) = BSIZE) →
  (∀ b, b ∈ l' → b ∈ l) → zlen l' ≤ zlen l →
  recovers_to S (apply_writes dk (log_ws S l' W)) V [].
Proof.
  intros [Hg Hh Hl _ Hhome] Hgl HW Hsub Hlen. pose proof (lg_fit _ _ _ Hgl) as Hfit.
  constructor; [done| | |done|].
  - rewrite log_ws_read, decide_False by lia. done.
  - intros k. rewrite log_ws_read. case_decide; [|done].
    destruct (l' !! _); simpl; auto.
  - intros k Hk Hn. rewrite log_ws_read, decide_False; [by apply Hhome|].
    unfold in_log in Hk. lia.
Qed.

(** Writing the header is the commit point. *)
Lemma recovers_commit_point S dk old V l h :
  recovers_to S dk old [] → log_geom N S l → (∀ b, zlen (V b) = BSIZE) → zlen h = BSIZE →
  (∀ k, ¬ in_log N S k → k ∉ l → old k = V k) →
  recovers_to S (<[S := head_block h l]> (apply_writes dk (log_ws S l V))) V l.
Proof.
  intros [Hg _ Hl _ Hhome] Hgl HV Hh Hclean. pose proof (lg_fit _ _ _ Hgl) as Hfit.
  pose proof (start_in_log _ _ Hgl) as HS.
  assert (Hhd : head_is (head_block h l) l).
  { apply head_block_is; [done|apply (lg_len _ _ _ Hgl)|]. intros b Hb. by apply (lg_home _ _ _ Hgl b). }
  constructor; [done| | | |].
  - by rewrite disk_read_insert_eq.
  - intros k. destruct (decide (S = k)) as [->|Hk]; [rewrite disk_read_insert_eq; apply Hhd|].
    rewrite disk_read_insert_ne, log_ws_read by done. case_decide; [|done].
    destruct (l !! _); simpl; auto.
  - intros i b Hi. pose proof (lookup_lt_Some _ _ _ Hi) as Hlt.
    rewrite disk_read_insert_ne by lia. rewrite log_ws_read, decide_True by (unfold zlen; lia).
    replace (Z.to_nat (S + 1 + Z.of_nat i - S - 1)) with i by lia. by rewrite Hi.
  - intros k Hk Hn. rewrite disk_read_insert_ne by (by intros ->).
    rewrite log_ws_read, decide_False; [|unfold in_log in Hk; lia].
    rewrite Hhome by (done || apply not_elem_of_nil). by apply Hclean.
Qed.

Lemma take_app_cons {A} n (l1 l2 : list A) x :
  take n (l1 ++ x :: l2) = take n l1 ∨
  ∃ m, take n (l1 ++ x :: l2) = l1 ++ x :: take m l2 ∧ n = (length l1 + 1 + m)%nat.
Proof.
  destruct (decide (n ≤ length l1)%nat) as [Hn|Hn].
  - left. by apply take_app_le.
  - right. destruct (n - length l1)%nat as [|m] eqn:E; [lia|]. exists m. split; [|lia].
    rewrite take_app_ge by lia. by rewrite E.
Qed.

(** However many of the writes of a commit reach the disk, recovery yields the
    old contents or the new ones, and the new ones after the last write. *)
Lemma commit_prefix s S L n :
  log_ok d N s ∅ S L →
  ∃ V l, recovers_to S (apply_writes (disk (cache s)) (take n (commit_ws S L (view d (cache s))))) V l ∧
    (V = disk_read (disk (cache s)) ∨ V = view d (cache s)) ∧
    ((length (commit_ws S L (view d (cache s))) ≤ n)%nat → V = view d (cache s)) ∧
    (∀ b, zlen (V b) = BSIZE).
Proof.
  intros [Hok _ _ _ Hg _ _ _ _ Hhd]. set (V := view d (cache s)).
  set (old := disk_read (disk (cache s))).
  assert (HV : ∀ b, zlen (V b) = BSIZE) by (intros; by eapply view_len).
  assert (Hold : ∀ b, zlen (old b) = BSIZE) by apply (bo_disk _ _ _ _ Hok).
  assert (H0 : recovers_to S (disk (cache s)) old []).
  { constructor; [by eapply geom_nil|exact Hhd|exact Hold|intros i b; rewrite lookup_nil; discriminate|].
    intros k _ _. exact eq_refl. }
  assert (Hclean : ∀ k, ¬ in_log N S k → k ∉ L → old k = V k).
  { intros k _ Hk. symmetry. apply (view_clean d (cache s) ∅ (list_to_set L) k Hok).
    - apply not_elem_of_empty.
    - by rewrite elem_of_list_to_set. }
  unfold commit_ws.
  destruct (take_app_cons n (log_ws S L V) (((λ b, (b, V b)) <$> L) ++
    [(S, head_block (head_block (V S) L) [])]) (S, head_block (V S) L)) as [E|(m & E & Hn)]; rewrite E.
  - exists old, []. rewrite log_ws_take. split; [|split; [by left|split; [|done]]].
    + eapply recovers_log_writes; [exact H0|exact Hg|exact HV| |].
      * intros b Hb. by apply elem_of_take in Hb as (? & ? & _); eapply list_elem_of_lookup_2.
      * unfold zlen. rewrite length_take. lia.
    + intros Hlen. exfalso. apply (f_equal length) in E. rewrite length_take in E.
      rewrite length_app in *. simpl in *. rewrite length_take in E. lia.
  - exists V. rewrite apply_writes_app. cbn [apply_writes foldl fst snd].
    pose proof (recovers_commit_point S (disk (cache s)) old V L (V S) H0 Hg HV (HV S) Hclean) as H1.
    fold (homes V L). fold (apply_writes (<[S := head_block (V S) L]>
      (apply_writes (disk (cache s)) (log_ws S L V)))
      (take m (homes V L ++ [(S, head_block (head_block (V S) L) [])]))).
    destruct (recovers_prefix S _ V L m H1) as [l' Hl']; [auto|].
    exists l'. unfold recovery_ws in Hl'. rewrite disk_read_insert_eq in Hl'.
    split; [exact Hl'|]. split; [by right|]. split; [done|exact HV].
Qed.

(** ** The operations of a transaction *)

Lemma log_find_ok bl l bno i pre :
  zlen pre = i → (∀ j b, (pre ++ l) !! j = Some b → bl !! j = Some b) →
  (∀ b, b ∈ l → u32 b = b) →
  ∃ r, log_find (length l) bl bno i = Ok r ∧
    ((bno ∉ l ∧ r = i + zlen l) ∨ (r < i + zlen l ∧ (pre ++ l) !! Z.to_nat r = Some bno ∧ i ≤ r)).
Proof.
  unfold zlen. revert i pre. induction l as [|b l IH]; intros i pre Hp Hbl Hu.
  { exists i. split; [done|]. left. split; [apply not_elem_of_nil|]. simpl. lia. }
  cbn [log_find length].
  assert (Hm : (pre ++ b :: l) !! Z.to_nat i = Some b).
  { rewrite <- Hp, Nat2Z.id. by apply list_lookup_middle. }
  rewrite (arr_get_lookup bl i b) by (lia || by apply Hbl). cbn [mbind outcome_bind].
  rewrite (Hu b) by set_solver. destruct (Z.eqb_spec b bno) as [->|Hne].
  - exists i. split; [done|]. right. split_and!; [lia|done|lia].
  - destruct (IH (i + 1) (pre ++ [b])) as (r & Hr & Hc).
    + rewrite length_app. simpl. lia.
    + by rewrite <- app_assoc.
    + set_solver.
    + exists r. split; [done|]. rewrite <- app_assoc in Hc. simpl in *.
      destruct Hc as [[Hn ->]|(H1 & H2 & H3)].
      * left. split; [set_solver|lia].
      * right. split_and!; [lia|done|lia].
Qed.

(** [log_write] records the block once; a block already in the transaction is
    absorbed. *)
Lemma log_write_ok s H S L b bno :
  log_ok d N s H S L → 1 ≤ outstanding (lg s) → zlen L < N - 1 → N ≤ NBUF →
  bno ∈ H → points d (cache s) b bno → 0 ≤ bno < 2 ^ 31 → ¬ in_log N S bno →
  ∃ s', log_write s b = Ok s' ∧
    log_ok d N s' H S (if decide (bno ∈ L) then L else L ++ [bno]) ∧
    outstanding (lg s') = outstanding (lg s) ∧ committing (lg s') = committing (lg s) ∧
    wrote d (cache s) (cache s') [] ∧ (∀ k, view d (cache s') k = view d (cache s) k) ∧
    (∀ c k, k ∈ H → points d (cache s) c k → points d (cache s') c k).
Proof.
  intros [Hok Hd HS HN0 Hg Hroom Hn Hcap Hbl Hhd] Hout Hfit HNB Hin Hp Hb Hnl.
  unfold log_write, LOGSIZE, MAXOPBLOCKS, NBUF in *. rewrite Hn, HN0.
  destruct (Z.leb_spec (10 * 3) (zlen L)); [lia|].
  destruct (Z.leb_spec (N - 1) (zlen L)); [lia|]. cbn [orb].
  destruct (Z.ltb_spec (outstanding (lg s)) 1); [lia|].
  destruct (points_get _ _ _ _ Hp) as (x & Hx & Hget & Hc).
  rewrite Hget. cbn [mbind outcome_bind]. rewrite (to_nat_zlen L). destruct Hc as [Hxd <-].
  destruct (log_find_ok (lh_block (lg s)) L (blockno x) 0 []) as (r & Hr & Hcase); [done|done| |].
  { intros c Hc. apply u32_small. destruct (lg_home _ _ _ Hg c Hc). lia. }
  rewrite Hr. cbn [mbind outcome_bind]. rewrite (i32_small (blockno x)) by lia.
  destruct Hcase as [[HnL ->]|(Hr1 & Hr2 & Hr3)].
  - rewrite Z.add_0_l, arr_set_in_range by (rewrite Hcap; unfold zlen in *; lia).
    cbn [mbind outcome_bind]. rewrite Z.eqb_refl. rewrite decide_False by done.
    destruct (bpin_ok d (cache s) H (list_to_set L) b (blockno x))
      as (st & E & (Hok1 & Hp1 & Hv1 & Hs1) & Hd1 & Hw1); try done.
    { by rewrite elem_of_list_to_set. }
    rewrite E. cbn [mbind outcome_bind]. eexists. split; [done|].
    assert (HV : ∀ k, view d st k = view d (cache s) k).
    { intros k. destruct (decide (k = blockno x)) as [->|Hk]; [done|].
      by apply (sb_view _ _ _ _ _ Hs1). }
    split_and!; try done; [|by apply wrote_nil|].
    + constructor; simpl; try done.
      * rewrite list_to_set_app_L. simpl. rewrite union_empty_r_L.
        by rewrite (union_comm_L (list_to_set L)).
      * destruct Hg as [G1 G2 G3 G4 G5 G6]. constructor; try done.
        -- unfold zlen in *. rewrite length_app. simpl. unfold LOGSIZE, MAXOPBLOCKS. lia.
        -- unfold zlen in *. rewrite length_app. simpl. lia.
        -- apply NoDup_app. split_and!; [done| |apply NoDup_singleton].
           intros c Hc Hc'%list_elem_of_singleton. congruence.
        -- intros c [Hc|Hc%list_elem_of_singleton]%elem_of_app; [by apply G6|].
           subst c. unfold in_log in Hnl. split; [done|lia].
      * unfold zlen in *. rewrite length_app. simpl. unfold NBUF. lia.
      * unfold zlen in *. rewrite length_app. simpl. lia.
      * rewrite zlen_insert. unfold LOGSIZE, MAXOPBLOCKS. done.
      * intros j c Hj. rewrite (to_nat_zlen L).
        apply lookup_app_Some in Hj as [Hj|[Hj1 Hj2]].
        -- rewrite list_lookup_insert_ne; [by apply Hbl|]. apply lookup_lt_Some in Hj. lia.
        -- apply list_lookup_singleton_Some in Hj2 as [Hj2 <-].
           replace j with (length L) by lia. apply list_lookup_insert_eq. unfold zlen in *. lia.
      * by rewrite Hd1.
    + intros c k Hk Hpk. destruct (decide (k = blockno x)) as [->|Hkx].
      * destruct Hpk as [Hcr (y & Hy & Hcy)].
        assert (Z.to_nat c = Z.to_nat b).
        { eapply (bo_uniq _ _ _ _ Hok _ _ y x); try done. }
        destruct Hp. by replace c with b by lia.
      * by apply (sb_points _ _ _ _ _ Hs1).
  - simpl in Hr2. rewrite arr_set_in_range by (rewrite Hcap; unfold zlen in *; lia).
    cbn [mbind outcome_bind]. destruct (Z.eqb_spec r (zlen L)); [lia|].
    assert (HinL : blockno x ∈ L) by by eapply list_elem_of_lookup_2.
    rewrite decide_True by done. eexists. split; [done|].
    split_and!; try done; [|by apply wrote_nil].
    constructor; simpl; try done; [by rewrite zlen_insert|].
    rewrite list_insert_id; [done|]. by apply Hbl.
Qed.

(** A disk left by crashes: at once, or in the middle of any number of
    recoveries started from it. *)
Inductive crashes (S : Z) : disk_t → disk_t → Prop :=
| crash_now dk : crashes S dk dk
| crash_again dk st s n dk' :
    binit dk = Ok st → initlog st d S N = Ok s →
    crashes S (apply_writes dk (take n (writes (cache s)))) dk' →
    crashes S dk dk'.

(** [dk], and every disk further crashes make of it, restarts with contents
    [V] outside the log and an empty log. *)
Definition restarts_with (S : Z) (dk : disk_t) (V : Z → list Z) : Prop :=
  ∀ dk', crashes S dk dk' →
  ∃ st s, binit dk' = Ok st ∧ initlog st d S N = Ok s ∧ log_ok d N s ∅ S [] ∧
    ∀ k, ¬ in_log N S k → view d (cache s) k = V k.

Lemma recovers_restarts S dk V l :
  recovers_to S dk V l → (∀ b, zlen (V b) = BSIZE) → restarts_with S dk V.
Proof using Hd0.
  intros Hr HV dk' Hc. revert l Hr. induction Hc as [dk|dk st s n dk' Hst Hs _ IH]; intros l Hr.
  - destruct (recovers_initlog S dk V l Hr) as (st & s & H1 & H2 & H3 & _ & _ & H4);
      [intros; apply HV|].
    exists st, s. split; [exact H1|]. split; [exact H2|]. split; [exact H3|exact H4].
  - destruct (recovers_initlog S dk V l Hr) as (st0 & s0 & Hst0 & Hs0 & _ & Hw & _);
      [intros; apply HV|].
    rewrite Hst in Hst0. apply Ok_inj in Hst0. subst st0.
    rewrite Hs in Hs0. apply Ok_inj in Hs0. subst s0. rewrite Hw in IH.
    destruct (recovers_prefix S dk V l n Hr) as [l' Hl']; [intros; apply HV|].
    exact (IH l' Hl').
Qed.

(** The last [end_op] of a transaction. *)
Lemma end_op_commits s S L :
  log_ok d N s ∅ S L → outstanding (lg s) = 1 → committing (lg s) = 0 →
  ∃ s' ws, end_op s = Ok s' ∧ log_ok d N s' ∅ S [] ∧ outstanding (lg s') = 0 ∧
    committing (lg s') = 0 ∧ wrote d (cache s) (cache s') ws ∧
    (ws = commit_ws S L (view d (cache s)) ∨ L = [] ∧ ws = []) ∧
    ∀ k, ¬ in_log N S k → view d (cache s') k = view d (cache s) k.
Proof using Hd0.
  intros Hok Ho Hc. unfold end_op, end_op_first, end_op_last. cbn [with_ops committing outstanding]. rewrite Ho, Hc.
  change (negb (0 =? 0)) with false. change (1 - 1 =? 0) with true. cbv iota. rewrite bind_Ok. cbv beta iota.
  set (s1 := mk_fslog (cache s) _).
  assert (Hok1 : log_ok d N s1 ∅ S L) by (destruct Hok; by constructor).
  destruct L as [|b0 L'] eqn:EL.
  - unfold commit. rewrite (lo_n _ _ _ _ _ _ Hok1). change (0 <? zlen []) with false. cbv iota.
    cbn [mbind outcome_bind]. eexists _, []. split; [done|]. split_and!; try done.
    + destruct Hok1. by constructor.
    + by apply wrote_nil.
    + right. done.
  - destruct (commit_ok d N s1 S L) as (s2 & -> & Hok2 & Ho2 & Hc2 & Hs2 & Hw2 & Hv2);
      [by rewrite EL|by rewrite EL|]. rewrite EL in *. cbn [mbind outcome_bind].
    eexists _, _. split; [done|]. split_and!; [| | |exact Hw2|by left|exact Hv2].
    + destruct Hok2. by constructor.
    + done.
    + done.
Qed.
End crash.
