(* ===== verification/LogOps.v ===== *)
(** * Transactions on disk blocks: what the log promises to the file system.

    The file system works on blocks only through [bread], assignments to
    [b->data], [log_write] and [brelse]. [txn s H S L V] is what it may assume:
    block [k] has contents [V k], the blocks of [H] are locked by the running
    thread and the blocks of [L] belong to the current transaction. The two
    access patterns of [fs.c], reading a block and updating one, are lemmas of
    this interface, and nothing else of the cache or the log is visible. *)

From Stdlib Require Import ZifyBool.
From stdpp Require Export functions.
From S2P Require Import Prelude LinkedList Block Bio BioProof Log LogProof LogThm.
#[global] Open Scope Z_scope.

(** The cache operations inside the log's state. *)
Definition lbread (s : fslog) (dev bno : Z) : outcome (Z * fslog) :=
  '(b, st) ← bread (cache s) dev bno; Ok (b, with_cache s st).
Definition ldata (s : fslog) (b : Z) : outcome (list Z) := data_of (cache s) b.
Definition lset_data (s : fslog) (b : Z) (l : list Z) : outcome fslog :=
  st ← set_data (cache s) b l; Ok (with_cache s st).
Definition lbrelse (s : fslog) (b : Z) : outcome fslog :=
  st ← brelse (cache s) b; Ok (with_cache s st).

Section txn.
Context (d N S : Z).

(** Geometry of the device: the log area fits the cache and the block numbers
    the file system may write are those outside it. *)
Class LogArea : Prop := {
  la_dev : d ≠ 0;
  la_size : 1 < N ≤ NBUF;
  la_range : 0 ≤ S ∧ S + N < 2 ^ 31;
}.

Context `{LA : LogArea}.

(** A block number the file system may write. *)
Definition writable (bno : Z) : Prop := 0 ≤ bno < 2 ^ 31 ∧ ¬ in_log N S bno.

Record txn (s : fslog) (H : gset Z) (L : list Z) (V : Z → list Z) : Prop := {
  tx_ok : log_ok d N s H S L;
  tx_view : ∀ k, view d (cache s) k = V k;
  tx_clean : ∀ k, k ∈ H → k ∉ L → V k = disk_read (disk (cache s)) k;
}.

(** Blocks logged so far and blocks held leave a free buffer. *)
Definition fits (H : gset Z) (L : list Z) : Prop := Z.of_nat (size H) + zlen L < NBUF.

Lemma fits_size H L :
  fits H L → Z.of_nat (size (H ∪ list_to_set L : gset Z)) < NBUF.
Proof.
  intros Hf. unfold fits, zlen in Hf.
  pose proof (size_union_alt H (list_to_set L : gset Z)) as E. rewrite E.
  assert (size (list_to_set L ∖ H : gset Z) ≤ length L)%nat; [|lia].
  etrans; [apply (subseteq_size (list_to_set L ∖ H : gset Z) (list_to_set L)); set_solver|].
  clear. induction L as [|a L IH]; [by rewrite list_to_set_nil, size_empty|].
  rewrite list_to_set_cons, size_union_alt, size_singleton. cbn [length].
  pose proof (subseteq_size (list_to_set L ∖ {[a]} : gset Z) (list_to_set L) ltac:(set_solver)). lia.
Qed.

Lemma log_ok_cache s st H H' L :
  log_ok d N s H S L → bio_ok d st H' (list_to_set L) → disk st = disk (cache s) →
  log_ok d N (with_cache s st) H' S L.
Proof. intros [] Hok Hd. constructor; simpl; try done. by rewrite Hd. Qed.

Lemma lbread_ok s H L V bno :
  txn s H L V → bno ∉ H → fits H L →
  ∃ b s', lbread s d bno = Ok (b, s') ∧ txn s' ({[bno]} ∪ H) L V ∧
    points d (cache s') b bno ∧ ldata s' b = Ok (V bno) ∧
    (∀ c k, k ∈ H → points d (cache s) c k → points d (cache s') c k) ∧ lg s' = lg s.
Proof.
  intros [Hok Hv Hcl] Hn Hf. pose proof (lo_bio _ _ _ _ _ _ Hok) as Hb.
  destruct (bread_ok d (cache s) H (list_to_set L) bno Hb Hn) as
    (b & st & E & (Hok1 & Hp1 & Hv1 & Hs1 & Hd1 & Hw1 & _) & _); [right; by apply fits_size|].
  unfold lbread. rewrite E. cbn [mbind outcome_bind].
  assert (HV : ∀ k, view d st k = V k).
  { intros k. rewrite <- Hv. destruct (decide (k = bno)) as [->|Hk]; [done|].
    by apply (sb_view _ _ _ _ _ Hs1). }
  exists b, (with_cache s st). split; [done|]. split_and!.
  - constructor; [by eapply log_ok_cache|done|]. simpl. rewrite Hd1.
    intros k [->%elem_of_singleton|Hk]%elem_of_union HkL; [|by apply Hcl].
    rewrite <- Hv. apply (view_clean d _ H (list_to_set L)); [done|done|].
    by rewrite elem_of_list_to_set.
  - done.
  - unfold ldata. cbn [cache with_cache]. rewrite (data_of_ok d st _ _ b bno Hok1 Hp1). by rewrite HV.
  - intros c k Hk Hp. apply (sb_points _ _ _ _ _ Hs1); [done| |done]. by intros ->.
  - done.
Qed.

Lemma lbrelse_ok s H L V b bno :
  txn s H L V → bno ∈ H → points d (cache s) b bno →
  ∃ s', lbrelse s b = Ok s' ∧ txn s' (H ∖ {[bno]}) L V ∧
    (∀ c k, k ∈ H → k ≠ bno → points d (cache s) c k → points d (cache s') c k) ∧ lg s' = lg s.
Proof.
  intros [Hok Hv Hcl] Hin Hp. pose proof (lo_bio _ _ _ _ _ _ Hok) as Hb.
  destruct (brelse_ok d (cache s) H (list_to_set L) b bno Hb Hin Hp) as
    (st & E & (Hok1 & Hp1 & Hv1 & Hs1) & Hd1 & Hw1).
  { destruct (decide (bno ∈ L)) as [HL|HL]; [left; by apply elem_of_list_to_set|right].
    rewrite Hv. by apply Hcl. }
  unfold lbrelse. rewrite E. cbn [mbind outcome_bind].
  exists (with_cache s st). split; [done|]. split_and!.
  - constructor; [by eapply log_ok_cache| |].
    + intros k. rewrite <- Hv. simpl. destruct (decide (k = bno)) as [->|Hk]; [done|].
      by apply (sb_view _ _ _ _ _ Hs1).
    + simpl. rewrite Hd1. intros k [Hk _]%elem_of_difference. by apply Hcl.
  - intros c k Hk Hne Hc. by apply (sb_points _ _ _ _ _ Hs1).
  - done.
Qed.

(** Assigning [b->data] and calling [log_write], as one step: in between the
    block is dirty and not yet logged. *)
Lemma update_ok s H L V b bno l :
  txn s H L V → 1 ≤ outstanding (lg s) → bno ∈ H → points d (cache s) b bno → writable bno →
  zlen L < N - 1 →
  zlen l = BSIZE →
  ∃ s1 s2, lset_data s b l = Ok s1 ∧ log_write s1 b = Ok s2 ∧
    txn s2 H (if decide (bno ∈ L) then L else L ++ [bno]) (<[bno := l]> V) ∧
    (∀ c k, k ∈ H → points d (cache s) c k → points d (cache s2) c k) ∧
    outstanding (lg s2) = outstanding (lg s) ∧ committing (lg s2) = committing (lg s).
Proof using LA.
  intros [Hok Hv Hcl] Hop Hin Hp [Hb31 Hnl] Hroom Hl. pose proof (lo_bio _ _ _ _ _ _ Hok) as Hb.
  destruct (set_data_ok d (cache s) H (list_to_set L) b bno l Hb Hin Hp Hl) as
    (st & E & (Hok1 & Hp1 & Hv1 & Hs1) & Hd1 & Hw1).
  unfold lset_data. rewrite E. cbn [mbind outcome_bind].
  assert (Hok1' : log_ok d N (with_cache s st) H S L) by by eapply log_ok_cache.
  destruct (log_write_ok d N la_dev (with_cache s st) H S L b bno Hok1') as
    (s2 & E2 & Hok2 & Ho2 & Hc2 & Hw2 & Hv2 & Hp2); try done; [apply la_size|].
  exists (with_cache s st), s2. split; [done|]. split; [done|].
  assert (HV : ∀ k, view d (cache s2) k = (<[bno := l]> V) k).
  { intros k. rewrite Hv2. simpl. destruct (decide (bno = k)) as [<-|Hk].
    - by rewrite fn_lookup_insert.
    - rewrite fn_lookup_insert_ne by done. rewrite <- Hv. apply (sb_view _ _ _ _ _ Hs1). congruence. }
  split_and!.
  - constructor; [done|done|].
    intros k Hk HkL. rewrite (wr_disk _ _ _ _ Hw2). simpl. rewrite Hd1.
    assert (k ≠ bno ∧ k ∉ L) as [Hne HnL] by (case_decide; set_solver).
    rewrite fn_lookup_insert_ne by done. by apply Hcl.
  - intros c k Hk Hc. apply Hp2; [done|]. simpl. destruct (decide (k = bno)) as [->|Hne].
    + destruct Hc as [Hcr (y & Hy & Hcy)]. destruct (points_get _ _ _ _ Hp) as (x & Hx & _ & Hcx).
      assert (Z.to_nat c = Z.to_nat b) by (eapply (bo_uniq _ _ _ _ Hb _ _ y x); done).
      destruct Hp. by replace c with b by lia.
    + by apply (sb_points _ _ _ _ _ Hs1).
  - done.
  - done.
Qed.
End txn.
