(* ===== verification/LogSafe.v ===== *)
(** * Properties of the buffer cache and the log. *)

From Stdlib Require Import ZifyBool.
From S2P Require Import Prelude LinkedList Block Bio BioProof Log LogProof LogThm LogOps.

(** ** A small disk for the examples: log at block 2, 30 blocks, as [mkfs] lays
    it out; every block zero. *)

#[global] Instance demo_area : LogArea 1 30 2.
Proof. constructor; unfold NBUF; lia. Qed.

Lemma zeroblock_len : zlen zeroblock = BSIZE.
Proof. vm_compute. reflexivity. Qed.

Lemma empty_read k : disk_read ∅ k = zeroblock.
Proof. unfold disk_read. by rewrite lookup_empty. Qed.

Lemma empty_len k : zlen (disk_read ∅ k) = BSIZE.
Proof. rewrite empty_read. exact zeroblock_len. Qed.

Lemma empty_recovers : recovers_to 30 2 ∅ (disk_read ∅) [].
Proof.
  constructor.
  - constructor; [lia|lia|vm_compute; discriminate|vm_compute; reflexivity|constructor|].
    by intros b ?%elem_of_nil.
  - constructor; [exact zeroblock_len|vm_compute; reflexivity|].
    intros i b. by rewrite lookup_nil.
  - exact empty_len.
  - intros i b. by rewrite lookup_nil.
  - intros k _ _. exact eq_refl.
Qed.

(** A transaction that has zeroed block 50. *)
Lemma demo_txn : ∃ s, log_ok 1 30 s ∅ 2 [50] ∧ outstanding (lg s) = 1 ∧ committing (lg s) = 0.
Proof.
  destruct (recovers_initlog 1 30 ltac:(lia) 2 ∅ (disk_read ∅) [] empty_recovers)
    as (st & s0 & _ & _ & Hok & _); [by intros b ?%elem_of_nil|].
  set (s1 := mk_fslog (cache s0) (with_ops (lg s0) 1 0)).
  assert (Htx : txn 1 30 2 s1 ∅ [] (view 1 (cache s1))).
  { constructor; [destruct Hok; by constructor|done|].
    by intros k Hk%elem_of_empty. }
  destruct (lbread_ok 1 30 2 s1 ∅ [] _ 50 Htx) as (b & s2 & _ & Htx2 & Hp2 & _ & _ & Hlg2);
    [apply not_elem_of_empty|vm_compute; reflexivity|].
  rewrite union_empty_r_L in Htx2.
  destruct (update_ok 1 30 2 s2 {[50]} [] _ b 50 zeroblock Htx2) as (s3 & s4 & _ & _ & Htx4 & Hp4 & Ho4 & _);
    [rewrite Hlg2; simpl; lia|set_solver|done|unfold writable, in_log; lia|vm_compute; reflexivity|exact zeroblock_len|].
  destruct (lbrelse_ok 1 30 2 s4 _ _ _ b 50 Htx4) as (s5 & _ & Htx5 & _ & Hlg5);
    [set_solver|apply Hp4; [set_solver|done]|].
  rewrite difference_diag_L in Htx5. simpl in Htx5.
  exists (mk_fslog (cache s5) (with_ops (lg s5) 1 0)). split; [|done].
  destruct (tx_ok _ _ _ _ _ _ _ Htx5). by constructor.
Qed.

(** ** Properties *)

(** Reading a block through the buffer cache. If the block is not already
    locked by the caller and either is pinned or fewer than [NBUF] blocks are in
    use, [bread] returns a locked buffer with the current contents of the block
    (cached or from disk), the contents of every block stay the same, nothing is
    written, the cache invariant holds with the block held, and a block that was
    not cached takes the least recently used unreferenced buffer. *)
Theorem bread_correct d st H P bno :
  bio_ok d st H P → bno ∉ H → bno ∈ P ∨ Z.of_nat (size (H ∪ P)) < NBUF →
  ∃ b st', bread st d bno = Ok (b, st') ∧ bio_ok d st' ({[bno]} ∪ H) P ∧
    data_of st' b = Ok (view d st bno) ∧ (∀ k, view d st' k = view d st k) ∧
    disk st' = disk st ∧ writes st' = writes st ∧
    (points d st b bno ∨ lru_victim st b).
Proof.
  intros Hok Hn Hsz.
  destruct (bread_ok d st H P bno Hok Hn Hsz) as (b & st' & E & (Hok' & Hp & Hv & Hs & Hd & Hw & _) & Hc).
  exists b, st'. split_and!; try done.
  - rewrite (data_of_ok d st' _ P b bno) by done. by rewrite Hv.
  - intros k. destruct (decide (k = bno)) as [->|Hk]; [done|]. by apply (sb_view _ _ _ _ _ Hs).
Qed.

Lemma bread_correct_witness :
  ∃ st b st', bio_ok 1 st ∅ ∅ ∧ bread st 1 7 = Ok (b, st') ∧ data_of st' b = Ok zeroblock.
Proof.
  destruct (binit_ok 1 ∅ ltac:(lia) empty_len) as (st & _ & Hok & _ & _ & Hv).
  destruct (bread_correct 1 st ∅ ∅ 7 Hok (not_elem_of_empty 7)) as (b & st' & E & _ & Hd & _).
  { right. vm_compute. reflexivity. }
  exists st, b, st'. split; [exact Hok|]. split; [exact E|]. rewrite Hd, Hv, empty_read. exact eq_refl.
Defined.

(** C4: The last [end_op] of a transaction is atomic with respect to crashes.
    It commits without panicking, after which the disk holds the
    transaction's contents of every block outside the log; and if the machine
    stops after any number [n] of the block writes it issues, and then again any
    number of times during recovery, the restarted system sees outside the log
    either exactly the contents before the transaction or exactly those after
    it. *)
Theorem end_op_atomic d N s S L :
  d ≠ 0 → log_ok d N s ∅ S L → outstanding (lg s) = 1 → committing (lg s) = 0 →
  ∃ s' ws, end_op s = Ok s' ∧ log_ok d N s' ∅ S [] ∧
    writes (cache s') = writes (cache s) ++ ws ∧
    (∀ k, ¬ in_log N S k → disk_read (disk (cache s')) k = view d (cache s) k) ∧
    ∀ n, restarts_with d N S (apply_writes (disk (cache s)) (take n ws)) (disk_read (disk (cache s))) ∨
         restarts_with d N S (apply_writes (disk (cache s)) (take n ws)) (view d (cache s)).
Proof.
  intros Hd Hok Ho Hc.
  destruct (end_op_commits d N Hd s S L Hok Ho Hc) as (s' & ws & E & Hok' & _ & _ & Hw & Hws & Hv).
  exists s', ws. split; [exact E|]. split; [exact Hok'|]. split; [apply Hw|]. split.
  - intros k Hk. rewrite <- (Hv k Hk). symmetry.
    apply (view_clean d _ ∅ ∅ k (lo_bio _ _ _ _ _ _ Hok')); apply not_elem_of_empty.
  - intros n. destruct (commit_prefix d N Hd s S L n Hok) as (V & l & Hr & HV & _ & Hlen).
    destruct Hws as [->|[-> ->]].
    + pose proof (recovers_restarts d N Hd S _ V l Hr Hlen) as Hx.
      destruct HV as [HV|HV]; rewrite HV in Hx; [by left|by right].
    + rewrite take_nil. destruct (commit_prefix d N Hd s S [] 0 Hok) as (W & l' & Hr' & HW & _ & Hl').
      pose proof (recovers_restarts d N Hd S _ W l' Hr' Hl') as Hx.
      destruct HW as [HW|HW]; rewrite HW in Hx; [by left|by right].
Qed.

Lemma end_op_atomic_witness :
  ∃ s s', log_ok 1 30 s ∅ 2 [50] ∧ end_op s = Ok s' ∧ log_ok 1 30 s' ∅ 2 [].
Proof.
  destruct demo_txn as (s & Hok & Ho & Hc).
  destruct (end_op_atomic 1 30 s 2 [50] ltac:(lia) Hok Ho Hc) as (s' & ws & E & Hok' & _).
  exists s, s'. split; [exact Hok|]. split; [exact E|exact Hok'].
Defined.

(** ** Reservation of log space

    Several file-system calls run at once, each logging at most [B] blocks. Their
    critical sections are the steps; a call that is the last one commits between
    two of them, and the others see [committing] meanwhile. *)

(** [calls] holds what is left to each of the calls in progress; [commits] tells
    that one of them is in the middle of [end_op]. *)
Record busy_log := mk_busy { bl_log : fslog; calls : list Z; commits : bool }.

Inductive op_step (B : Z) : busy_log → busy_log → Prop :=
| op_begin s s' ops c :
    begin_op s = Ok s' → op_step B (mk_busy s ops c) (mk_busy s' (B :: ops) c)
| op_write s s' b r ops1 ops2 c :
    0 < r → log_write s b = Ok s' →
    op_step B (mk_busy s (ops1 ++ r :: ops2) c) (mk_busy s' (ops1 ++ (r - 1) :: ops2) c)
| op_cache s st ops c : op_step B (mk_busy s ops c) (mk_busy (with_cache s st) ops c)
| op_end s s' r ops1 ops2 c do_commit :
    end_op_first s = Ok (do_commit, s') →
    op_step B (mk_busy s (ops1 ++ r :: ops2) c) (mk_busy s' (ops1 ++ ops2) (do_commit || c))
| op_commit s s' ops :
    commit s = Ok s' → op_step B (mk_busy s ops true) (mk_busy (end_op_last s') ops false).

Definition sum_ops (ops : list Z) : Z := foldr Z.add 0 ops.

(** The most blocks that calls which may log [B] each can log together. *)
Definition room_for (B : Z) : Z := if B <? MAXOPBLOCKS then LOGSIZE - 1 else LOGSIZE.

Record reserved_ok (B : Z) (w : busy_log) : Prop := {
  ro_out : outstanding (lg (bl_log w)) = zlen (calls w);
  ro_left : Forall (λ r, 0 ≤ r ≤ B) (calls w);
  ro_n : 0 ≤ lh_n (lg (bl_log w));
  ro_len : zlen (lh_block (lg (bl_log w))) = LOGSIZE;
  ro_room : calls w ≠ [] → lh_n (lg (bl_log w)) + sum_ops (calls w) ≤ room_for B;
  ro_commit : committing (lg (bl_log w)) = if commits w then 1 else 0;
  ro_alone : commits w = true → calls w = [];
}.

Lemma sum_ops_app l1 l2 : sum_ops (l1 ++ l2) = sum_ops l1 + sum_ops l2.
Proof. induction l1; simpl; [done|]. rewrite IHl1. lia. Qed.

Lemma sum_ops_bounds B ops : 0 ≤ B → Forall (λ r, 0 ≤ r ≤ B) ops → 0 ≤ sum_ops ops ≤ zlen ops * B.
Proof. intros HB. unfold zlen. induction 1; simpl; nia. Qed.

Lemma arr_set_zlen {A} (a b : list A) i v : arr_set a i v = Ok b → zlen b = zlen a.
Proof. unfold arr_set. case_match; [done|]. intros [= <-]. unfold zlen. by rewrite length_insert. Qed.

Lemma log_write_inv s b s' :
  log_write s b = Ok s' →
  outstanding (lg s') = outstanding (lg s) ∧ committing (lg s') = committing (lg s) ∧ lsize (lg s') = lsize (lg s) ∧
  zlen (lh_block (lg s')) = zlen (lh_block (lg s)) ∧ lh_n (lg s) ≤ lh_n (lg s') ≤ lh_n (lg s) + 1.
Proof.
  unfold log_write. intros Hw. do 2 (case_match; [done|]). unbind.
  match goal with H : arr_set _ _ _ = Ok _ |- _ => apply arr_set_zlen in H end.
  zcase; unbind; subst; simpl; lia.
Qed.

Lemma commit_inv s s' :
  commit s = Ok s' → 0 ≤ lh_n (lg s) →
  lh_n (lg s') = 0 ∧ outstanding (lg s') = outstanding (lg s) ∧ lsize (lg s') = lsize (lg s) ∧ lh_block (lg s') = lh_block (lg s).
Proof.
  unfold commit. intros Hc Hn. zcase; [|injection Hc as <-; split; [lia|done]]. unbind.
  unfold write_head, write_log, install_trans in *. unbind.
  repeat match goal with p : Z * bio |- _ => destruct p end. unbind. subst. done.
Qed.

Lemma begin_op_step B w w' s' :
  0 ≤ B ≤ MAXOPBLOCKS → reserved_ok B w → begin_op (bl_log w) = Ok s' → w' = mk_busy s' (B :: calls w) (commits w) → reserved_ok B w'.
Proof.
  intros HB [H1 H2 H3 H4 H5 H6 H7] Hb ->. unfold begin_op, begin_op_waits in Hb. case_match eqn:E; [done|]. injection Hb as <-.
  apply orb_false_iff in E as [Ec E]. apply Z.ltb_ge in E. pose proof (sum_ops_bounds B _ ltac:(lia) H2).
  assert (Hnc : commits w = false) by (destruct (commits w); [rewrite H6 in Ec; done|done]).
  constructor; simpl; try done.
  - rewrite H1. unfold zlen. simpl. lia.
  - constructor; [lia|done].
  - intros _. rewrite H1 in E. unfold room_for. destruct (Z.ltb_spec B MAXOPBLOCKS); unfold MAXOPBLOCKS, zlen in *; nia.
  - by rewrite Hnc.
Qed.

Lemma op_step_ok B w w' :
  0 ≤ B ≤ MAXOPBLOCKS → op_step B w w' → reserved_ok B w → reserved_ok B w' ∧ lsize (lg (bl_log w')) = lsize (lg (bl_log w)).
Proof.
  intros HB Hst Hok. destruct Hst as [s s' ops c Hb|s s' b r ops1 ops2 c Hr Hw|s st ops c|s s' r ops1 ops2 c dc He|s s' ops He].
  - split; [by eapply begin_op_step|]. cbn. unfold begin_op in Hb. case_match; [done|]. by injection Hb as <-.
  - destruct Hok as [H1 H2 H3 H4 H5 H6 H7]; simpl in *. apply log_write_inv in Hw as (W1 & W2 & W3 & W4 & W5). split; [|done].
    apply Forall_app in H2 as [F1 F2]. apply Forall_cons_1 in F2 as [F2 F3].
    specialize (H5 ltac:(by destruct ops1)). rewrite sum_ops_app in H5. simpl in H5.
    constructor; simpl; rewrite ?W2, ?W4; try done.
    + rewrite W1, H1. unfold zlen. rewrite !length_app. simpl. lia.
    + apply Forall_app. split; [done|]. constructor; [lia|done].
    + lia.
    + intros _. rewrite sum_ops_app. simpl. lia.
    + intros Hc%H7. by destruct ops1.
  - destruct Hok. split; [by constructor|done].
  - destruct Hok as [H1 H2 H3 H4 H5 H6 H7]; simpl in *.
    assert (c = false) as -> by (destruct c; [specialize (H7 eq_refl); by destruct ops1|done]).
    unfold end_op_first in He. cbn [committing outstanding with_ops] in He. rewrite H6 in He. cbn [negb Z.eqb] in He.
    apply Forall_app in H2 as [F1 F2]. apply Forall_cons_1 in F2 as [F2 F3].
    assert (Hout : outstanding (lg s) - 1 = zlen (ops1 ++ ops2)) by (rewrite H1; unfold zlen; rewrite !length_app; simpl; lia).
    specialize (H5 ltac:(by destruct ops1)). rewrite sum_ops_app in H5. simpl in H5.
    destruct (Z.eqb_spec (outstanding (lg s) - 1) 0) as [E0|E0]; injection He as <- <-; (split; [|done]); constructor; simpl; try done.
    all: try by apply Forall_app.
    all: try (intros _; rewrite sum_ops_app; lia).
    intros _. rewrite E0 in Hout. unfold zlen in Hout. apply nil_length_inv. lia.
  - destruct Hok as [H1 H2 H3 H4 H5 H6 H7]; simpl in *. apply commit_inv in He as (E1 & E2 & E3 & E4); [|done]. split; [|done].
    rewrite (H7 eq_refl) in *. constructor; simpl; rewrite ?E4; try done; lia.
Qed.

Lemma op_steps_ok B w w' :
  0 ≤ B ≤ MAXOPBLOCKS → rtc (op_step B) w w' → reserved_ok B w → reserved_ok B w' ∧ lsize (lg (bl_log w')) = lsize (lg (bl_log w)).
Proof.
  intros HB. induction 1 as [w|w w1 w' Hs _ IH]; intros Hp; [done|].
  destruct (op_step_ok B _ _ HB Hs Hp) as [Hp1 E]. destruct (IH Hp1). split; [done|congruence].
Qed.

Lemma log_find_in_range n bl bno : ∀ i, 0 ≤ i → i + Z.of_nat n ≤ zlen bl → ∃ j, log_find n bl bno i = Ok j ∧ i ≤ j ≤ i + Z.of_nat n.
Proof.
  induction n as [|n IH]; intros i H0 Hi; cbn [log_find]; [exists i; split; [done|lia]|].
  destruct (arr_get_in_range bl i) as (v & _ & ->); [lia|]. rewrite bind_Ok. destruct (u32 v =? bno); [exists i; split; [done|lia]|].
  destruct (IH (i + 1)) as (j & -> & ?); [lia..|]. exists j. split; [done|lia].
Qed.

(** [log_write] of a cached block, with room in the log and a call in progress. *)
Lemma log_write_returns s b x :
  0 ≤ lh_n (lg s) → lh_n (lg s) < LOGSIZE → lh_n (lg s) < lsize (lg s) - 1 → zlen (lh_block (lg s)) = LOGSIZE →
  1 ≤ outstanding (lg s) → get_buf (cache s) b = Ok x → ∃ s', log_write s b = Ok s'.
Proof.
  intros H0 H1 H2 H3 H4 Hx. unfold log_write. destruct (Z.leb_spec LOGSIZE (lh_n (lg s))); [lia|].
  destruct (Z.leb_spec (lsize (lg s) - 1) (lh_n (lg s))); [lia|]. cbn [orb]. destruct (Z.ltb_spec (outstanding (lg s)) 1); [lia|].
  rewrite Hx, bind_Ok. destruct (log_find_in_range (Z.to_nat (lh_n (lg s))) (lh_block (lg s)) (blockno x) 0) as (j & -> & Hj); [lia..|].
  rewrite bind_Ok, arr_set_in_range by lia. rewrite bind_Ok. destruct (j =? lh_n (lg s)); [|eauto].
  unfold bpin, put_buf. rewrite Hx, bind_Ok. unfold get_buf in Hx. apply arr_get_Ok in Hx as [Hb Hl]. pose proof (lookup_lt_Some _ _ _ Hl).
  rewrite arr_set_in_range by (unfold zlen; lia). rewrite !bind_Ok. eauto.
Qed.

(** C24: the reservation of [begin_op] is sound. Calls run concurrently, each between
    [begin_op] and [end_op], and log at most [B] blocks each, where [B] is
    [MAXOPBLOCKS] if the log has more than [LOGSIZE] blocks and less than that for
    the log of [LOGSIZE] blocks that [mkfs] makes. However their [begin_op]s,
    [log_write]s, [end_op]s and the commits interleave: a call that has not used up
    its [B] blocks can log another one, [log_write] of a cached block returning; and
    no [end_op] finds a commit under way. *)
Theorem log_write_reserved B s0 w :
  0 ≤ B ≤ MAXOPBLOCKS → LOGSIZE ≤ lsize (lg s0) → B < MAXOPBLOCKS ∨ LOGSIZE < lsize (lg s0) →
  outstanding (lg s0) = 0 → committing (lg s0) = 0 → 0 ≤ lh_n (lg s0) → zlen (lh_block (lg s0)) = LOGSIZE →
  rtc (op_step B) (mk_busy s0 [] false) w →
  (∀ r b x, r ∈ calls w → 0 < r → get_buf (cache (bl_log w)) b = Ok x → ∃ s', log_write (bl_log w) b = Ok s') ∧
  (∀ r, r ∈ calls w → ∃ c s', end_op_first (bl_log w) = Ok (c, s')).
Proof.
  intros HB Hsz HBsz Ho Hc Hn Hlen Hreach.
  destruct (op_steps_ok B _ _ HB Hreach) as [[I1 I2 I3 I4 I5 I6 I7] Esz]; [by constructor|]. cbn [bl_log] in Esz.
  assert (Hcalls : ∀ r, r ∈ calls w → calls w ≠ [] ∧ commits w = false).
  { intros r Hin. assert (calls w ≠ []) by (intros E; rewrite E in Hin; by apply elem_of_nil in Hin).
    split; [done|]. destruct (commits w); [|done]. by specialize (I7 eq_refl). }
  split.
  - intros r b x Hin Hr Hx. destruct (Hcalls r Hin) as [Hne _]. specialize (I5 Hne).
    assert (Hsum : r ≤ sum_ops (calls w) ∧ 1 ≤ zlen (calls w)).
    { apply list_elem_of_split in Hin as (l1 & l2 & E). rewrite E in *. apply Forall_app in I2 as [F1 F2]. apply Forall_cons_1 in F2 as [F2 F3].
      pose proof (sum_ops_bounds B _ ltac:(lia) F1). pose proof (sum_ops_bounds B _ ltac:(lia) F3). rewrite sum_ops_app. simpl.
      unfold zlen. rewrite length_app. simpl. lia. }
    assert (lh_n (lg (bl_log w)) < LOGSIZE ∧ lh_n (lg (bl_log w)) < lsize (lg (bl_log w)) - 1).
    { rewrite Esz. unfold room_for in I5. destruct (Z.ltb_spec B MAXOPBLOCKS); lia. }
    eapply log_write_returns; try done; lia.
  - intros r [_ Hnc]%Hcalls. unfold end_op_first. cbn [committing outstanding with_ops]. rewrite I6, Hnc. cbn [negb Z.eqb].
    destruct (outstanding _ - 1 =? 0); eauto.
Qed.

(** ** The shipped geometry

    [mkfs] makes a log of [LOGSIZE] blocks in all, one short of the bound. *)

(** One call logging block [bno]: read it, modify it, log it, release it. *)
Definition touch (s : fslog) (bno : Z) : outcome fslog :=
  '(b, s1) ← lbread s 1 bno;
  s2 ← lset_data s1 b zeroblock;
  s3 ← log_write s2 b;
  lbrelse s3 b.

Fixpoint touch_all (n : nat) (s : fslog) (bno : Z) : outcome fslog :=
  match n with
  | O => Ok s
  | S n' => s' ← touch s bno; touch_all n' s' (bno + 1)
  end.

(** Three calls in progress, which have logged [n] distinct blocks in all. *)
Definition three_calls (nlog : Z) (n : nat) : outcome Z :=
  st ← binit ∅;
  s0 ← initlog st 1 2 nlog;
  s1 ← begin_op s0;
  s2 ← begin_op s1;
  s3 ← begin_op s2;
  s4 ← touch_all n s3 100;
  Ok (lh_n (lg s4)).

(** One call, which has read block 100. *)
Definition one_call : outcome (fslog * fslog) :=
  st ← binit ∅;
  s0 ← initlog st 1 2 LOGSIZE;
  s1 ← begin_op s0;
  '(_, s2) ← lbread s1 1 100;
  Ok (s0, with_cache s1 (cache s2)).

Lemma one_call_ok :
  match one_call with
  | Ok (s0, s) =>
      (lsize (lg s0), outstanding (lg s0), committing (lg s0), lh_n (lg s0), length (lh_block (lg s0)), length (bufs (cache s))) =
      (LOGSIZE, 0, 0, 0, 30%nat, 30%nat)
  | _ => False
  end.
Proof. vm_compute. reflexivity. Qed.

Lemma log_write_reserved_witness :
  ∃ s0 s s', one_call = Ok (s0, s) ∧ lsize (lg s0) = LOGSIZE ∧ log_write s 29 = Ok s'.
Proof.
  pose proof one_call_ok as Hc. destruct one_call as [[s0 s]| | |] eqn:E; [|contradiction Hc..].
  injection Hc as C1 C2 C3 C4 C5 C6. destruct (lookup_lt_is_Some_2 (bufs (cache s)) 29) as [x Hx]; [lia|].
  destruct (log_write_reserved 9 s0 (mk_busy s [9] false)) as [Hw _].
  - unfold MAXOPBLOCKS. lia.
  - lia.
  - left. unfold MAXOPBLOCKS. lia.
  - exact C2.
  - exact C3.
  - lia.
  - unfold zlen. rewrite C5. reflexivity.
  - unfold one_call in E. apply bind_Ok_inv in E as (st & _ & E). apply bind_Ok_inv in E as (s0' & _ & E).
    apply bind_Ok_inv in E as (s1 & E1 & E). apply bind_Ok_inv in E as ([b s2] & _ & E). injection E as -> <-.
    eapply rtc_l; [exact (op_begin 9 _ _ _ _ E1)|]. eapply rtc_l; [apply op_cache|apply rtc_refl].
  - destruct (Hw 9 29 x) as [s' Es']; [left|lia|exact (arr_get_lookup _ 29 _ ltac:(lia) Hx)|].
    exists s0, s, s'. split; [reflexivity|]. split; [exact C1|exact Es'].
Defined.

(** With the log of [LOGSIZE] blocks that [mkfs] creates, the reservation
    is one block too generous: three calls are admitted together, but when they
    log the ten blocks each that they are entitled to, the thirtieth
    [log_write] panics. With one block more in the log it succeeds. *)
Theorem log_reservation_overflow :
  three_calls LOGSIZE 29 = Ok 29 ∧ three_calls LOGSIZE 30 = Panic "too big a transaction" ∧
  three_calls (LOGSIZE + 1) 30 = Ok 30.
Proof. vm_compute. auto. Qed.
