(* ===== verification/Fs.v ===== *)
(** * The file system: [kernel/file/fs.c] on the disk format of [fs.h].

    The state is the transactional block store of the log, the superblock and
    the table of in-memory inodes; a [struct inode*] is an index into the
    table. A null pointer result is [None]. On-disk structures are read and
    written at their field offsets inside the block ([struct dinode]: type,
    major, minor, nlink as 16-bit words, size, then thirteen block numbers;
    [struct dirent]: a 16-bit inode number, then the name).

    An inode's sleep lock is its [ilocked] flag, as for buffers: one kernel
    thread runs, so waiting for a held lock is [Hang]. *)

From S2P Require Import Prelude Ram Vm Block Bio Log LogOps.

(** ** Disk format *)

Definition ROOTINO : Z := 1.
Definition ROOTDEV : Z := 1.
Definition NINODE : Z := 50.
Definition FSMAGIC : Z := 0x10203040.
Definition NDIRECT : Z := 12.
Definition NINDIRECT : Z := BSIZE / 4.
Definition MAXFILE : Z := NDIRECT + NINDIRECT.
Definition IPB : Z := BSIZE / 64.
Definition BPB : Z := BSIZE * 8.
Definition DIRSIZ : Z := 14.
Definition DIRENT : Z := 16.
Definition T_DIR : Z := 1.
Definition T_FILE : Z := 2.
Definition T_DEVICE : Z := 3.

Record superblock := mk_sb {
  sb_magic : Z;
  sb_size : Z;
  sb_nblocks : Z;
  sb_ninodes : Z;
  sb_nlog : Z;
  sb_logstart : Z;
  sb_inodestart : Z;
  sb_bmapstart : Z;
}.

Definition IBLOCK (i : Z) (sb : superblock) : Z := u32 (i / IPB + sb_inodestart sb).
Definition BBLOCK (b : Z) (sb : superblock) : Z := u32 (b / BPB + sb_bmapstart sb).

Record inode := mk_inode {
  idev : Z;
  inum : Z;
  iref : Z;
  ilocked : bool;
  ivalid : bool;
  itype : Z;
  imajor : Z;
  iminor : Z;
  inlink : Z;
  isize : Z;
  iaddrs : list Z;
}.

Record fs := mk_fs { fl : fslog; sb : superblock; itable : list inode }.

Definition with_fl (s : fs) (l : fslog) : fs := mk_fs l (sb s) (itable s).
Definition with_itable (s : fs) (t : list inode) : fs := mk_fs (fl s) (sb s) t.

Definition get_inode (s : fs) (ip : Z) : outcome inode := arr_get (itable s) ip.
Definition put_inode (s : fs) (ip : Z) (x : inode) : outcome fs :=
  t ← arr_set (itable s) ip x; Ok (with_itable s t).

Definition set_iref (x : inode) (r : Z) : inode :=
  mk_inode (idev x) (inum x) r (ilocked x) (ivalid x) (itype x) (imajor x) (iminor x)
    (inlink x) (isize x) (iaddrs x).
Definition set_ilocked (x : inode) (b : bool) : inode :=
  mk_inode (idev x) (inum x) (iref x) b (ivalid x) (itype x) (imajor x) (iminor x)
    (inlink x) (isize x) (iaddrs x).
Definition set_ivalid (x : inode) (b : bool) : inode :=
  mk_inode (idev x) (inum x) (iref x) (ilocked x) b (itype x) (imajor x) (iminor x)
    (inlink x) (isize x) (iaddrs x).
Definition set_itype (x : inode) (t : Z) : inode :=
  mk_inode (idev x) (inum x) (iref x) (ilocked x) (ivalid x) t (imajor x) (iminor x)
    (inlink x) (isize x) (iaddrs x).
Definition set_isize (x : inode) (n : Z) : inode :=
  mk_inode (idev x) (inum x) (iref x) (ilocked x) (ivalid x) (itype x) (imajor x) (iminor x)
    (inlink x) n (iaddrs x).
Definition set_iaddrs (x : inode) (a : list Z) : inode :=
  mk_inode (idev x) (inum x) (iref x) (ilocked x) (ivalid x) (itype x) (imajor x) (iminor x)
    (inlink x) (isize x) a.
Definition set_inlink (x : inode) (n : Z) : inode :=
  mk_inode (idev x) (inum x) (iref x) (ilocked x) (ivalid x) (itype x) (imajor x) (iminor x)
    n (isize x) (iaddrs x).
Definition set_idev_major (x : inode) (mj mn : Z) : inode :=
  mk_inode (idev x) (inum x) (iref x) (ilocked x) (ivalid x) (itype x) mj mn
    (inlink x) (isize x) (iaddrs x).

(** The block operations in the file system's state. *)
Definition fbread (s : fs) (dev bno : Z) : outcome (Z * fs) :=
  '(b, l) ← lbread (fl s) dev bno; Ok (b, with_fl s l).
Definition fdata (s : fs) (b : Z) : outcome (list Z) := ldata (fl s) b.
Definition fset_data (s : fs) (b : Z) (d : list Z) : outcome fs :=
  l ← lset_data (fl s) b d; Ok (with_fl s l).
Definition flog_write (s : fs) (b : Z) : outcome fs := l ← log_write (fl s) b; Ok (with_fl s l).
Definition fbrelse (s : fs) (b : Z) : outcome fs := l ← lbrelse (fl s) b; Ok (with_fl s l).
Definition fbegin_op (s : fs) : outcome fs := l ← begin_op (fl s); Ok (with_fl s l).
Definition fend_op (s : fs) : outcome fs := l ← end_op (fl s); Ok (with_fl s l).

(** ** Start-up *)

(** The eight fields of the superblock, from its block. *)
Definition parse_sb (d : list Z) : superblock :=
  mk_sb (rd 4 d 0) (rd 4 d 4) (rd 4 d 8) (rd 4 d 12) (rd 4 d 16) (rd 4 d 20) (rd 4 d 24) (rd 4 d 28).

Definition readsb (st : bio) (dev : Z) : outcome (superblock * bio) :=
  '(bp, st1) ← bread st dev 1;
  d ← data_of st1 bp;
  st2 ← brelse st1 bp;
  Ok (parse_sb d, st2).

Definition blank_inode : inode := mk_inode 0 0 0 false false 0 0 0 0 0 (replicate 13 0).

Definition iinit : list inode := replicate (Z.to_nat NINODE) blank_inode.

(** The inode table [t] was set up by [iinit] at boot. *)
Definition fsinit (st : bio) (t : list inode) (dev : Z) : outcome fs :=
  '(sb, st1) ← readsb st dev;
  if negb (sb_magic sb =? FSMAGIC) then Panic "invalid file system"
  else l ← initlog st1 dev (sb_logstart sb) (sb_nlog sb); Ok (mk_fs l sb t).

(** ** Blocks *)

Definition bzero (s : fs) (dev bno : Z) : outcome fs :=
  '(bp, s1) ← fbread s dev (u32 bno);
  s2 ← fset_data s1 bp zeroblock;
  s3 ← flog_write s2 bp;
  fbrelse s3 bp.

(** [m = 1 << (bi % 8)]. *)
Definition bmask (bi : Z) : Z := Z.shiftl 1 (bi mod 8).

(** The inner loop of [balloc]: the first clear bit from [bi] on, among [n]. *)
Fixpoint balloc_scan (n : nat) (d : list Z) (b bi size : Z) : outcome (option Z) :=
  match n with
  | O => Ok None
  | S n' =>
      if (bi <? BPB) && (b + bi <? size) then
        v ← arr_get d (bi / 8);
        if Z.land v (bmask bi) =? 0 then Ok (Some bi) else balloc_scan n' d b (bi + 1) size
      else Ok None
  end.

Fixpoint balloc_loop (n : nat) (s : fs) (dev b : Z) : outcome (Z * fs) :=
  match n with
  | O => Ok (0, s)
  | S n' =>
      if b <? sb_size (sb s) then
        '(bp, s1) ← fbread s dev (BBLOCK b (sb s));
        d ← fdata s1 bp;
        found ← balloc_scan (Z.to_nat BPB) d b 0 (sb_size (sb s));
        match found with
        | Some bi =>
            v ← arr_get d (bi / 8);
            d' ← arr_set d (bi / 8) (Z.lor v (bmask bi));
            s2 ← fset_data s1 bp d';
            s3 ← flog_write s2 bp;
            s4 ← fbrelse s3 bp;
            s5 ← bzero s4 dev (b + bi);
            Ok (b + bi, s5)
        | None =>
            s2 ← fbrelse s1 bp;
            balloc_loop n' s2 dev (b + BPB)
        end
      else Ok (0, s)
  end.

(** The number of bitmap blocks bounds the outer loop. *)
Definition balloc (s : fs) (dev : Z) : outcome (Z * fs) :=
  balloc_loop (Z.to_nat (sb_size (sb s) / BPB + 1)) s dev 0.

Definition bfree (s : fs) (dev b : Z) : outcome fs :=
  '(bp, s1) ← fbread s dev (BBLOCK b (sb s));
  d ← fdata s1 bp;
  let bi := b mod BPB in
  v ← arr_get d (bi / 8);
  if Z.land v (bmask bi) =? 0 then Panic "freeing free block"
  else
    d' ← arr_set d (bi / 8) (Z.land v (Z.lnot (bmask bi)));
    s2 ← fset_data s1 bp d';
    s3 ← flog_write s2 bp;
    fbrelse s3 bp.

(** ** Inodes *)

(** Byte offset of inode [i] inside its block, and the on-disk fields. *)
Definition dioff (i : Z) : Z := i mod IPB * 64.

Definition di_addrs (d : list Z) (o : Z) : list Z :=
  (λ i, rd 4 d (o + 12 + 4 * Z.of_nat i)) <$> seq 0 13.

Fixpoint put_addrs (d : list Z) (o : Z) (a : list Z) : list Z :=
  match a with
  | [] => d
  | v :: a' => put_addrs (wr 4 d o v) (o + 4) a'
  end.

(** [iget]: the entry for [(dev, i)], else the first free entry. *)
Fixpoint iget_scan (t : list inode) (dev i k : Z) (empty : option Z) : (option Z) * (option Z) :=
  match t with
  | [] => (None, empty)
  | x :: t' =>
      if (0 <? iref x) && (idev x =? dev) && (inum x =? i) then (Some k, empty)
      else
        let empty' := match empty with
                      | Some e => Some e
                      | None => if iref x =? 0 then Some k else None
                      end in
        iget_scan t' dev i (k + 1) empty'
  end.

Definition iget (s : fs) (dev i : Z) : outcome (Z * fs) :=
  match iget_scan (itable s) dev i 0 None with
  | (Some ip, _) =>
      x ← get_inode s ip;
      s1 ← put_inode s ip (set_iref x (i32 (iref x + 1)));
      Ok (ip, s1)
  | (None, None) => Panic "iget: no inodes"
  | (None, Some ip) =>
      x ← get_inode s ip;
      s1 ← put_inode s ip (mk_inode dev i 1 (ilocked x) false (itype x) (imajor x) (iminor x)
                             (inlink x) (isize x) (iaddrs x));
      Ok (ip, s1)
  end.

Fixpoint ialloc_loop (n : nat) (s : fs) (dev type i : Z) : outcome (option Z * fs) :=
  match n with
  | O => Ok (None, s)
  | S n' =>
      if i <? sb_ninodes (sb s) then
        '(bp, s1) ← fbread s dev (IBLOCK i (sb s));
        d ← fdata s1 bp;
        if i16 (rd 2 d (dioff i)) =? 0 then
          let d' := wr 2 (splice (dioff i) (replicate 64 0) d) (dioff i) type in
          s2 ← fset_data s1 bp d';
          s3 ← flog_write s2 bp;
          s4 ← fbrelse s3 bp;
          '(ip, s5) ← iget s4 dev i;
          Ok (Some ip, s5)
        else
          s2 ← fbrelse s1 bp;
          ialloc_loop n' s2 dev type (i + 1)
      else Ok (None, s)
  end.

Definition ialloc (s : fs) (dev type : Z) : outcome (option Z * fs) :=
  ialloc_loop (Z.to_nat (sb_ninodes (sb s))) s dev type 1.

(** The block contents after [iupdate] of inode [x]. *)
Definition put_dinode (d : list Z) (x : inode) : list Z :=
  let o := dioff (inum x) in
  let d1 := wr 2 d o (itype x) in
  let d2 := wr 2 d1 (o + 2) (imajor x) in
  let d3 := wr 2 d2 (o + 4) (iminor x) in
  let d4 := wr 2 d3 (o + 6) (inlink x) in
  let d5 := wr 4 d4 (o + 8) (isize x) in
  put_addrs d5 (o + 12) (iaddrs x).

Definition iupdate (s : fs) (ip : Z) : outcome fs :=
  x ← get_inode s ip;
  '(bp, s1) ← fbread s (idev x) (IBLOCK (inum x) (sb s));
  d ← fdata s1 bp;
  s2 ← fset_data s1 bp (put_dinode d x);
  s3 ← flog_write s2 bp;
  fbrelse s3 bp.

Definition idup (s : fs) (ip : Z) : outcome fs :=
  x ← get_inode s ip; put_inode s ip (set_iref x (i32 (iref x + 1))).

(** The in-memory copy of inode [x] read from block contents [d]. *)
Definition load_dinode (d : list Z) (x : inode) : inode :=
  let o := dioff (inum x) in
  mk_inode (idev x) (inum x) (iref x) (ilocked x) true
    (i16 (rd 2 d o)) (i16 (rd 2 d (o + 2))) (i16 (rd 2 d (o + 4))) (i16 (rd 2 d (o + 6)))
    (rd 4 d (o + 8)) (di_addrs d o).

(** A null or out-of-table pointer is not a value of the model, so the null
    checks of [ilock] and [iunlock] are the callers' [option]s. *)
Definition ilock (s : fs) (ip : Z) : outcome fs :=
  x ← get_inode s ip;
  if iref x <? 1 then Panic "ilock"
  else if ilocked x then Hang
  else
    s1 ← put_inode s ip (set_ilocked x true);
    if ivalid x then Ok s1
    else
      '(bp, s2) ← fbread s1 (idev x) (IBLOCK (inum x) (sb s));
      d ← fdata s2 bp;
      s3 ← fbrelse s2 bp;
      let y := load_dinode d (set_ilocked x true) in
      s4 ← put_inode s3 ip y;
      if itype y =? 0 then Panic "ilock: no type" else Ok s4.

Definition iunlock (s : fs) (ip : Z) : outcome fs :=
  x ← get_inode s ip;
  if negb (ilocked x) || (iref x <? 1) then Panic "iunlock"
  else put_inode s ip (set_ilocked x false).

(** ** Inode contents *)

Definition bmap (s : fs) (ip bn : Z) : outcome (Z * fs) :=
  x ← get_inode s ip;
  if bn <? NDIRECT then
    a ← arr_get (iaddrs x) bn;
    if a =? 0 then
      '(a', s1) ← balloc s (idev x);
      if a' =? 0 then Ok (0, s1)
      else
        addrs' ← arr_set (iaddrs x) bn a';
        s2 ← put_inode s1 ip (set_iaddrs x addrs');
        Ok (a', s2)
    else Ok (a, s)
  else
    let bn := bn - NDIRECT in
    if bn <? NINDIRECT then
      a ← arr_get (iaddrs x) NDIRECT;
      '(a, s) ←
        (if a =? 0 then
           '(a', s1) ← balloc s (idev x);
           if a' =? 0 then Ok (0, s1)
           else
             addrs' ← arr_set (iaddrs x) NDIRECT a';
             s2 ← put_inode s1 ip (set_iaddrs x addrs');
             Ok (a', s2)
         else Ok (a, s));
      if a =? 0 then Ok (0, s)
      else
        '(bp, s3) ← fbread s (idev x) a;
        d ← fdata s3 bp;
        let v := rd 4 d (4 * bn) in
        '(v', s4) ←
          (if v =? 0 then
             '(v', s5) ← balloc s3 (idev x);
             if v' =? 0 then Ok (0, s5)
             else
               d' ← fdata s5 bp;
               s6 ← fset_data s5 bp (wr 4 d' (4 * bn) v');
               s7 ← flog_write s6 bp;
               Ok (v', s7)
           else Ok (v, s3));
        s8 ← fbrelse s4 bp;
        Ok (v', s8)
    else Panic "bmap: out of range".

(** [itrunc]'s first loop: free the direct blocks [i ..] of inode [ip]. *)
Fixpoint itrunc_direct (n : nat) (s : fs) (ip i : Z) : outcome fs :=
  match n with
  | O => Ok s
  | S n' =>
      x ← get_inode s ip;
      a ← arr_get (iaddrs x) i;
      s' ←
        (if a =? 0 then Ok s
         else
           s1 ← bfree s (idev x) a;
           addrs' ← arr_set (iaddrs x) i 0;
           put_inode s1 ip (set_iaddrs x addrs'));
      itrunc_direct n' s' ip (i + 1)
  end.

(** Its second loop: free the blocks listed in the indirect block [d]. *)
Fixpoint itrunc_indirect (n : nat) (s : fs) (dev : Z) (d : list Z) (j : Z) : outcome fs :=
  match n with
  | O => Ok s
  | S n' =>
      let a := rd 4 d (4 * j) in
      s' ← (if a =? 0 then Ok s else bfree s dev a);
      itrunc_indirect n' s' dev d (j + 1)
  end.

Definition itrunc (s : fs) (ip : Z) : outcome fs :=
  s1 ← itrunc_direct (Z.to_nat NDIRECT) s ip 0;
  x ← get_inode s1 ip;
  a ← arr_get (iaddrs x) NDIRECT;
  s2 ←
    (if a =? 0 then Ok s1
     else
       '(bp, s2) ← fbread s1 (idev x) a;
       d ← fdata s2 bp;
       s3 ← itrunc_indirect (Z.to_nat NINDIRECT) s2 (idev x) d 0;
       s4 ← fbrelse s3 bp;
       s5 ← bfree s4 (idev x) a;
       addrs' ← arr_set (iaddrs x) NDIRECT 0;
       put_inode s5 ip (set_iaddrs x addrs'));
  y ← get_inode s2 ip;
  s3 ← put_inode s2 ip (set_isize y 0);
  iupdate s3 ip.

Definition iput (s : fs) (ip : Z) : outcome fs :=
  x ← get_inode s ip;
  s1 ←
    (if (iref x =? 1) && ivalid x && (inlink x =? 0) then
       if ilocked x then Hang
       else
         s1 ← put_inode s ip (set_ilocked x true);
         s2 ← itrunc s1 ip;
         y ← get_inode s2 ip;
         s3 ← put_inode s2 ip (set_itype y 0);
         s4 ← iupdate s3 ip;
         z ← get_inode s4 ip;
         put_inode s4 ip (set_ilocked (set_ivalid z false) false)
     else Ok s);
  y ← get_inode s1 ip;
  put_inode s1 ip (set_iref y (i32 (iref y - 1))).

Definition iunlockput (s : fs) (ip : Z) : outcome fs := s1 ← iunlock s ip; iput s1 ip.

(** [struct stat]. *)
Record stat := mk_stat { st_dev : Z; st_ino : Z; st_type : Z; st_nlink : Z; st_size : Z }.

Definition stati (x : inode) : stat :=
  mk_stat (i32 (idev x)) (inum x) (itype x) (inlink x) (isize x).

(** The destination of a read ([either_copyout]) and the source of a write
    ([either_copyin]) are user memory, kernel memory or a local structure: the
    code below is the same for all of them, so they are parameters. [put m dst
    bs] stores [bs] at [dst]; [get m src n] reads [n] bytes at [src] and gives
    the bytes that were copied, fewer than [n] when it fails with [-1]. *)
Section content.
Context {M : Type}.
Context (put : M → Z → list Z → outcome (Z * M)).
Context (get : M → Z → Z → outcome (Z * list Z)).

Fixpoint readi_loop (fuel : nat) (s : fs) (m : M) (ip dst off tot n : Z) : outcome (Z * fs * M) :=
  match fuel with
  | O => Hang
  | S fuel' =>
      if tot <? n then
        '(addr, s1) ← bmap s ip (off / BSIZE);
        if addr =? 0 then Ok (tot, s1, m)
        else
          x ← get_inode s1 ip;
          '(bp, s2) ← fbread s1 (idev x) addr;
          d ← fdata s2 bp;
          let k := Z.min (u32 (n - tot)) (BSIZE - off mod BSIZE) in
          '(r, m1) ← put m dst (slice (off mod BSIZE) k d);
          s3 ← fbrelse s2 bp;
          if r =? -1 then Ok (u32 (-1), s3, m1)
          else readi_loop fuel' s3 m1 ip (u64 (dst + k)) (u32 (off + k)) (u32 (tot + k)) n
      else Ok (tot, s, m)
  end.

(** Every turn of the loops but the first covers a whole block. *)
Definition block_fuel (n : Z) : nat := Z.to_nat (n / BSIZE + 3).

Definition readi (s : fs) (m : M) (ip dst off n : Z) : outcome (Z * fs * M) :=
  x ← get_inode s ip;
  if (isize x <? off) || (u32 (off + n) <? off) then Ok (0, s, m)
  else
    let n := if isize x <? u32 (off + n) then u32 (isize x - off) else n in
    '(tot, s1, m1) ← readi_loop (block_fuel n) s m ip dst off 0 n;
    Ok (i32 tot, s1, m1).

Fixpoint writei_loop (fuel : nat) (s : fs) (m : M) (ip src off tot n : Z) : outcome (Z * Z * fs) :=
  match fuel with
  | O => Hang
  | S fuel' =>
      if tot <? n then
        '(addr, s1) ← bmap s ip (off / BSIZE);
        if addr =? 0 then Ok (tot, off, s1)
        else
          x ← get_inode s1 ip;
          '(bp, s2) ← fbread s1 (idev x) addr;
          d ← fdata s2 bp;
          let k := Z.min (u32 (n - tot)) (BSIZE - off mod BSIZE) in
          '(r, bs) ← get m src k;
          s3 ← fset_data s2 bp (splice (off mod BSIZE) bs d);
          if r =? -1 then s4 ← fbrelse s3 bp; Ok (tot, off, s4)
          else
            s4 ← flog_write s3 bp;
            s5 ← fbrelse s4 bp;
            writei_loop fuel' s5 m ip (u64 (src + k)) (u32 (off + k)) (u32 (tot + k)) n
      else Ok (tot, off, s)
  end.

Definition writei (s : fs) (m : M) (ip src off n : Z) : outcome (Z * fs) :=
  x ← get_inode s ip;
  if (isize x <? off) || (u32 (off + n) <? off) then Ok (-1, s)
  else if MAXFILE * BSIZE <? u32 (off + n) then Ok (-1, s)
  else
    '(tot, off', s1) ← writei_loop (block_fuel n) s m ip src off 0 n;
    y ← get_inode s1 ip;
    s2 ← (if isize y <? off' then put_inode s1 ip (set_isize y off') else Ok s1);
    s3 ← iupdate s2 ip;
    Ok (i32 tot, s3).
End content.

(** ** Directories *)

(** A structure on the kernel stack as a source or destination. *)
Definition local_put (m : list Z) (dst : Z) (bs : list Z) : outcome (Z * list Z) :=
  Ok (0, splice dst bs m).
Definition local_get (m : list Z) (src n : Z) : outcome (Z * list Z) := Ok (0, slice src n m).

(** [namecmp]: [strncmp] of two character arrays, at separate addresses. *)
Definition namecmp (s t : list Z) : Z := strncmp (put (put ∅ 0 s) 256 t) 0 256 DIRSIZ.

(** The contents of [de.name] after [strncpy(de.name, name, DIRSIZ)]. *)
Definition copy_name (old name : list Z) : list Z :=
  Vm.get (Z.to_nat DIRSIZ) (strncpy (put (put ∅ 0 old) 256 name) 0 256 DIRSIZ) 0.

Definition de_inum (de : list Z) : Z := rd 2 de 0.
Definition de_name (de : list Z) : list Z := slice 2 DIRSIZ de.

Definition blank_de : list Z := replicate (Z.to_nat DIRENT) 0.

(** The result of [dirlookup]: the inode and the offset of its entry. *)
Fixpoint dirlookup_loop (fuel : nat) (s : fs) (dp : Z) (name de : list Z) (off : Z)
    : outcome (option (Z * Z) * fs) :=
  match fuel with
  | O => Hang
  | S fuel' =>
      x ← get_inode s dp;
      if off <? isize x then
        '(r, s1, de') ← readi local_put s de dp 0 off DIRENT;
        if negb (r =? DIRENT) then Panic "dirlookup read"
        else if de_inum de' =? 0 then dirlookup_loop fuel' s1 dp name de' (u32 (off + DIRENT))
        else if namecmp name (de_name de') =? 0 then
          '(ip, s2) ← iget s1 (idev x) (de_inum de');
          Ok (Some (ip, off), s2)
        else dirlookup_loop fuel' s1 dp name de' (u32 (off + DIRENT))
      else Ok (None, s)
  end.

Definition dir_fuel (x : inode) : nat := Z.to_nat (isize x / DIRENT + 2).

Definition dirlookup (s : fs) (dp : Z) (name : list Z) : outcome (option (Z * Z) * fs) :=
  x ← get_inode s dp;
  if negb (itype x =? T_DIR) then Panic "dirlookup not DIR"
  else dirlookup_loop (dir_fuel x) s dp name blank_de 0.

(** The search for an empty entry in [dirlink]: its offset, or the size. *)
Fixpoint dirlink_scan (fuel : nat) (s : fs) (dp : Z) (de : list Z) (off : Z)
    : outcome (Z * list Z * fs) :=
  match fuel with
  | O => Hang
  | S fuel' =>
      x ← get_inode s dp;
      if off <? isize x then
        '(r, s1, de') ← readi local_put s de dp 0 off DIRENT;
        if negb (r =? DIRENT) then Panic "dirlink read"
        else if de_inum de' =? 0 then Ok (off, de', s1)
        else dirlink_scan fuel' s1 dp de' (i32 (off + DIRENT))
      else Ok (off, de, s)
  end.

Definition dirlink (s : fs) (dp : Z) (name : list Z) (i : Z) : outcome (Z * fs) :=
  '(found, s1) ← dirlookup s dp name;
  match found with
  | Some (ip, _) => s2 ← iput s1 ip; Ok (-1, s2)
  | None =>
      x ← get_inode s1 dp;
      '(off, de, s2) ← dirlink_scan (dir_fuel x) s1 dp blank_de 0;
      let de' := to_le 2 i ++ copy_name (de_name de) name in
      '(r, s3) ← writei local_get s2 de' dp 0 (u32 off) DIRENT;
      Ok (if r =? DIRENT then 0 else -1, s3)
  end.

(** ** Paths

    A path is the list of its bytes before the terminating NUL. *)

Definition SLASH : Z := 47.

Fixpoint skip_slashes (path : list Z) : list Z :=
  match path with
  | c :: path' => if c =? SLASH then skip_slashes path' else path
  | [] => []
  end.

(** The path element at the front of [path], and what follows it. *)
Fixpoint span_elem (path : list Z) : list Z * list Z :=
  match path with
  | c :: path' =>
      if c =? SLASH then ([], path)
      else let '(e, rest) := span_elem path' in (c :: e, rest)
  | [] => ([], [])
  end.

(** [name] is the caller's buffer of [DIRSIZ] bytes. *)
Definition skipelem (path name : list Z) : option (list Z * list Z) :=
  let path := skip_slashes path in
  match path with
  | [] => None
  | _ =>
      let '(e, rest) := span_elem path in
      let name' :=
        if DIRSIZ <=? zlen e then splice 0 (take (Z.to_nat DIRSIZ) e) name
        else splice 0 (e ++ [0]) name in
      Some (skip_slashes rest, name')
  end.

Fixpoint namex_loop (fuel : nat) (s : fs) (ip : Z) (path name : list Z) (nameiparent : bool)
    : outcome (option Z * list Z * fs) :=
  match fuel with
  | O => Hang
  | S fuel' =>
      match skipelem path name with
      | None =>
          if nameiparent then s1 ← iput s ip; Ok (None, name, s1) else Ok (Some ip, name, s)
      | Some (path', name') =>
          s1 ← ilock s ip;
          x ← get_inode s1 ip;
          if negb (itype x =? T_DIR) then s2 ← iunlockput s1 ip; Ok (None, name', s2)
          else if nameiparent && match path' with [] => true | _ => false end then
            s2 ← iunlock s1 ip; Ok (Some ip, name', s2)
          else
            '(found, s2) ← dirlookup s1 ip name';
            match found with
            | None => s3 ← iunlockput s2 ip; Ok (None, name', s3)
            | Some (next, _) => s3 ← iunlockput s2 ip; namex_loop fuel' s3 next path' name' nameiparent
            end
      end
  end.

(** [cwd] is [myproc()->cwd]. *)
Definition namex (s : fs) (cwd : Z) (path name : list Z) (nameiparent : bool)
    : outcome (option Z * list Z * fs) :=
  '(ip, s1) ←
    match path with
    | c :: _ => if c =? SLASH then iget s ROOTDEV ROOTINO else s1 ← idup s cwd; Ok (cwd, s1)
    | [] => s1 ← idup s cwd; Ok (cwd, s1)
    end;
  namex_loop (length path + 1) s1 ip path name nameiparent.

Definition blank_name : list Z := replicate (Z.to_nat DIRSIZ) 0.

Definition namei (s : fs) (cwd : Z) (path : list Z) : outcome (option Z * fs) :=
  '(r, _, s1) ← namex s cwd path blank_name false; Ok (r, s1).

Definition nameiparent (s : fs) (cwd : Z) (path name : list Z) : outcome (option Z * list Z * fs) :=
  namex s cwd path name true.
