(* ===== verification/FsBlock.v ===== *)
(** * Disk blocks of the file system: whole-block accesses and the free bitmap.

    Inside a transaction the file system sees the blocks of the disk as a
    function [V]. The access patterns of [fs.c] (read a block; read, change, log
    and release it) become one lemma each, and [bzero], [balloc] and [bfree] are
    specified by their effect on [V] and on the set of blocks in use. *)

From Stdlib Require Import ZifyBool.
From S2P Require Import Prelude Bits Block Bio BioProof Log LogProof LogOps Fs.

Lemma zeroblock_zlen : zlen zeroblock = BSIZE.
Proof. unfold zlen, zeroblock. by rewrite length_replicate. Qed.

(** One more call of a sequence whose result [E] is known. *)
Ltac call E := rewrite E, bind_Ok; cbv beta iota.

(** ** Bits of a block *)

Lemma bmask_pow bi : bmask bi = 2 ^ (bi mod 8).
Proof. unfold bmask. apply Z.shiftl_1_l. Qed.

Lemma land_bmask v bi : (Z.land v (bmask bi) =? 0) = negb (Z.testbit v (bi mod 8)).
Proof.
  rewrite bmask_pow. set (j := bi mod 8). assert (Hj : 0 ≤ j) by by apply Z.mod_pos_bound.
  pose proof (pow2_pos j Hj). pose proof (land_pow2_eqb v j Hj) as Hl.
  destruct (Z.testbit v j) eqn:E; cbn [negb]; [lia|].
  apply Z.eqb_eq, Z.bits_inj'. intros n Hn. rewrite Z.land_spec, Z.pow2_bits_eqb, Z.bits_0 by lia.
  destruct (Z.eqb_spec j n) as [->|]; [by rewrite E|apply andb_false_r].
Qed.

Lemma bit_store b i c v :
  0 ≤ i < nbits b →
  (∀ j, 0 ≤ j < 8 → Z.testbit c j =
     if i mod 8 =? j then v else Z.testbit (default 0 (b !! Z.to_nat (i / 8))) j) →
  bits_upd b (<[Z.to_nat (i / 8) := c]> b) i v.
Proof.
  intros Hi Hc. split; [apply zlen_insert|]. intros j Hj. rewrite bit_update by done.
  pose proof (Z.mod_pos_bound j 8 ltac:(lia)) as Hm. zcase.
  - rewrite same_cell_pos, Hc by (done || lia). unfold bit. by rewrite e.
  - zcase; [congruence|done].
Qed.

Lemma set_bit_ok b i :
  0 ≤ i < nbits b →
  ∃ v b', arr_get b (i / 8) = Ok v ∧ arr_set b (i / 8) (Z.lor v (bmask i)) = Ok b' ∧ bits_upd b b' i true.
Proof.
  intros Hi. exists (default 0 (b !! Z.to_nat (i / 8))). eexists. split; [by apply bits_get_cell|].
  split; [by apply arr_set_in_range, bits_div_range|]. apply bit_store; [done|].
  intros j Hj. rewrite bmask_pow, Z.lor_spec, Z.pow2_bits_eqb by (apply Z.mod_pos_bound; lia).
  zcase; [apply orb_true_r|apply orb_false_r].
Qed.

Lemma clear_bit_ok b i :
  0 ≤ i < nbits b →
  ∃ v b', arr_get b (i / 8) = Ok v ∧ (Z.land v (bmask i) =? 0) = negb (bit b i) ∧
    arr_set b (i / 8) (Z.land v (Z.lnot (bmask i))) = Ok b' ∧ bits_upd b b' i false.
Proof.
  intros Hi. exists (default 0 (b !! Z.to_nat (i / 8))). eexists. split; [by apply bits_get_cell|].
  split; [apply land_bmask|]. split; [by apply arr_set_in_range, bits_div_range|]. apply bit_store; [done|].
  intros j Hj. rewrite bmask_pow, Z.land_spec, Z.lnot_spec, Z.pow2_bits_eqb
    by (try apply Z.mod_pos_bound; lia).
  zcase; [apply andb_false_r|apply andb_true_r].
Qed.

(** The scan of one bitmap block finds the first clear bit. *)
Lemma balloc_scan_ok n d b bi size :
  zlen d = BSIZE → 0 ≤ bi → BPB - bi ≤ Z.of_nat n →
  ∃ r, balloc_scan n d b bi size = Ok r ∧
    match r with
    | Some j => bi ≤ j < BPB ∧ b + j < size ∧ bit d j = false ∧ ∀ i, bi ≤ i < j → bit d i = true
    | None => ∀ i, bi ≤ i < BPB → b + i < size → bit d i = true
    end.
Proof.
  revert bi. induction n as [|n IH]; intros bi Hd H0 Hn; cbn [balloc_scan].
  { exists None. split; [done|]. lia. }
  destruct ((bi <? BPB) && (b + bi <? size)) eqn:E; [|exists None; split; [done|lia]].
  rewrite bits_get_cell by (unfold nbits; rewrite Hd; unfold BPB in *; lia).
  cbn [mbind outcome_bind]. rewrite land_bmask. fold (bit d bi).
  destruct (bit d bi) eqn:Eb; cbn [negb].
  - destruct (IH (bi + 1)) as (r & -> & Hr); [done|lia|lia|]. exists r. split; [done|].
    destruct r as [j|].
    + destruct Hr as (H1 & H2 & H3 & H4). split; [lia|]. split; [done|]. split; [done|].
      intros i Hi. destruct (decide (i = bi)) as [->|]; [done|]. apply H4. lia.
    + intros i Hi Hs. destruct (decide (i = bi)) as [->|]; [done|]. apply Hr; lia.
  - exists (Some bi). split; [done|]. split; [lia|]. split; [lia|]. split; [done|]. lia.
Qed.

(** ** Blocks in a transaction *)

(** Logging block [b]: absorbed when it is in the transaction already. *)
Definition addl (b : Z) (L : list Z) : list Z := if decide (b ∈ L) then L else L ++ [b].

Lemma zlen_addl b L : zlen L ≤ zlen (addl b L) ≤ zlen L + 1.
Proof. unfold addl, zlen. case_decide; [lia|]. rewrite length_app. simpl. lia. Qed.

Lemma elem_of_addl b k L : k ∈ addl b L ↔ k = b ∨ k ∈ L.
Proof. unfold addl. case_decide; set_solver. Qed.

Lemma addl_in b L : b ∈ L → addl b L = L.
Proof. intros. unfold addl. by rewrite decide_True. Qed.

Section fs_block.
Context (dev N S : Z) `{LA : LogArea dev N S} (sbk : superblock).
Implicit Types (s : fs) (H : gset Z) (L : list Z) (V : Z → list Z).

(** The disk is laid out as [mkfs] does it: log, inodes, bitmap, data. *)
Definition datastart : Z := sb_bmapstart sbk + sb_size sbk / BPB + 1.

Class Layout : Prop := {
  ly_size : 0 < sb_size sbk < 2 ^ 31;
  ly_log : S + N ≤ sb_inodestart sbk;
  ly_ninodes : 0 ≤ sb_ninodes sbk;
  ly_inodes : sb_inodestart sbk + sb_ninodes sbk / IPB < sb_bmapstart sbk;
  ly_data : datastart ≤ sb_size sbk;
}.
Definition is_data (b : Z) : Prop := datastart ≤ b < sb_size sbk.
Definition is_bitmap (b : Z) : Prop := sb_bmapstart sbk ≤ b < datastart.

(** The bit of block [b] in the bitmap. *)
Definition used V (b : Z) : bool := bit (V (BBLOCK b sbk)) (b mod BPB).

Record fstx s H L V : Prop := {
  ft_txn : txn dev N S (fl s) H L V;
  ft_sb : sb s = sbk;
}.

Definition holds s (b k : Z) : Prop := points dev (cache (fl s)) b k.

(** What the operations on blocks leave alone: buffers held, inodes, open
    transactions. *)
Record stays s s' H : Prop := {
  sy_holds : ∀ c k, k ∈ H → holds s c k → holds s' c k;
  sy_itable : itable s' = itable s;
  sy_out : outstanding (lg (fl s')) = outstanding (lg (fl s));
  sy_com : committing (lg (fl s')) = committing (lg (fl s));
}.

Lemma stays_refl s H : stays s s H.
Proof. by constructor. Qed.

Lemma stays_trans s1 s2 s3 H : stays s1 s2 H → stays s2 s3 H → stays s1 s3 H.
Proof. intros [A1 A2 A3 A4] [B1 B2 B3 B4]. constructor; [eauto|congruence..]. Qed.

Lemma stays_weaken s s' H H' : H ⊆ H' → stays s s' H' → stays s s' H.
Proof. intros Hs [A1 A2 A3 A4]. constructor; [|done..]. intros c k Hk. apply A1. by apply Hs. Qed.

(** Room for [n] more blocks in the log, and buffers to work with. *)
Definition room H L (n : Z) : Prop :=
  Z.of_nat (size H) + zlen L + n < NBUF ∧ zlen L + n ≤ N - 1.

Lemma room_le H L n m : room H L n → m ≤ n → room H L m.
Proof. unfold room. lia. Qed.

Lemma room_addl H L b n : room H L (n + 1) → room H (addl b L) n.
Proof. unfold room. pose proof (zlen_addl b L). lia. Qed.

Lemma fbread_ok s H L V bno :
  fstx s H L V → bno ∉ H → room H L 0 →
  ∃ b s', fbread s dev bno = Ok (b, s') ∧ fstx s' ({[bno]} ∪ H) L V ∧ holds s' b bno ∧
    fdata s' b = Ok (V bno) ∧ stays s s' H.
Proof.
  intros [Ht Hs] Hn [Hr _]. unfold fbread.
  destruct (lbread_ok dev N S (fl s) H L V bno Ht Hn) as (b & l & -> & Ht' & Hp & Hd & Hk & Hlg); [unfold fits; lia|].
  exists b, (with_fl s l). split; [done|]. split; [by constructor|]. split; [done|]. split; [done|].
  constructor; [by intros c k; apply Hk|done|by cbn; rewrite Hlg..].
Qed.

Lemma fbrelse_ok s H L V b bno :
  fstx s H L V → bno ∈ H → holds s b bno →
  ∃ s', fbrelse s b = Ok s' ∧ fstx s' (H ∖ {[bno]}) L V ∧ stays s s' (H ∖ {[bno]}).
Proof.
  intros [Ht Hs] Hin Hp. unfold fbrelse.
  destruct (lbrelse_ok dev N S (fl s) H L V b bno Ht Hin Hp) as (l & -> & Ht' & Hk & Hlg).
  exists (with_fl s l). split; [done|]. split; [by constructor|].
  constructor; [|done|by cbn; rewrite Hlg..]. intros c k [Hk1 Hk2]%elem_of_difference. apply Hk; set_solver.
Qed.

Lemma fupdate_ok s H L V b bno l :
  fstx s H L V → 1 ≤ outstanding (lg (fl s)) → bno ∈ H → holds s b bno → writable N S bno →
  zlen L < N - 1 → zlen l = BSIZE →
  ∃ s1 s2, fset_data s b l = Ok s1 ∧ flog_write s1 b = Ok s2 ∧
    fstx s2 H (addl bno L) (<[bno := l]> V) ∧ stays s s2 H.
Proof.
  intros [Ht Hs] Ho Hin Hp Hw Hr Hl. unfold fset_data, flog_write.
  destruct (update_ok dev N S (fl s) H L V b bno l Ht Ho Hin Hp Hw Hr Hl) as (l1 & l2 & -> & E2 & Ht' & Hk & Hout & Hcom).
  exists (with_fl s l1), (with_fl s l2). split; [done|]. cbn [with_fl fl]. rewrite E2. split; [done|].
  split; [by constructor|]. by constructor.
Qed.

(** Read a block and release it. *)
Lemma read_block s H L V bno :
  fstx s H L V → bno ∉ H → room H L 0 →
  ∃ b s1 s2, fbread s dev bno = Ok (b, s1) ∧ fdata s1 b = Ok (V bno) ∧ fbrelse s1 b = Ok s2 ∧
    fstx s2 H L V ∧ stays s s2 H ∧ itable s1 = itable s.
Proof.
  intros Ht Hn Hr. destruct (fbread_ok s H L V bno Ht Hn Hr) as (b & s1 & E1 & Ht1 & Hp & Hd & Hs1).
  destruct (fbrelse_ok s1 _ L V b bno Ht1 ltac:(set_solver) Hp) as (s2 & E2 & Ht2 & Hs2).
  replace (({[bno]} ∪ H) ∖ {[bno]}) with H in Ht2, Hs2 by set_solver.
  exists b, s1, s2. do 3 (split; [done|]). split; [done|]. split; [by eapply stays_trans|apply Hs1].
Qed.

(** Change a block that is held, log and release it. *)
Lemma update_release s H L V b bno l :
  fstx s H L V → 1 ≤ outstanding (lg (fl s)) → bno ∈ H → holds s b bno → writable N S bno →
  zlen L < N - 1 → zlen l = BSIZE →
  ∃ s1 s2 s3, fset_data s b l = Ok s1 ∧ flog_write s1 b = Ok s2 ∧ fbrelse s2 b = Ok s3 ∧
    fstx s3 (H ∖ {[bno]}) (addl bno L) (<[bno := l]> V) ∧ stays s s3 (H ∖ {[bno]}).
Proof.
  intros Ht Ho Hin Hp Hw Hr Hl.
  destruct (fupdate_ok s H L V b bno l Ht Ho Hin Hp Hw Hr Hl) as (s1 & s2 & E1 & E2 & Ht2 & Hs2).
  destruct (fbrelse_ok s2 H _ _ b bno Ht2 Hin) as (s3 & E3 & Ht3 & Hs3); [by apply Hs2|].
  exists s1, s2, s3. do 4 (split; [done|]). eapply stays_trans; [|done]. eapply stays_weaken; [|done]. set_solver.
Qed.

(** Read a block, replace its contents, log and release it. *)
Lemma write_block s H L V bno l :
  fstx s H L V → 1 ≤ outstanding (lg (fl s)) → bno ∉ H → room H L 1 → writable N S bno →
  zlen l = BSIZE →
  ∃ b s1 s2 s3 s4, fbread s dev bno = Ok (b, s1) ∧ fdata s1 b = Ok (V bno) ∧
    fset_data s1 b l = Ok s2 ∧ flog_write s2 b = Ok s3 ∧ fbrelse s3 b = Ok s4 ∧
    fstx s4 H (addl bno L) (<[bno := l]> V) ∧ stays s s4 H ∧ itable s1 = itable s.
Proof.
  intros Ht Ho Hn Hr Hw Hl.
  destruct (fbread_ok s H L V bno Ht Hn ltac:(by eapply room_le)) as (b & s1 & E1 & Ht1 & Hp & Hd & Hs1).
  destruct (update_release s1 _ L V b bno l Ht1) as (s2 & s3 & s4 & E2 & E3 & E4 & Ht4 & Hs4); try done.
  { by rewrite (sy_out _ _ _ Hs1). } { set_solver. } { destruct Hr. lia. }
  replace (({[bno]} ∪ H) ∖ {[bno]}) with H in Ht4, Hs4 by set_solver.
  exists b, s1, s2, s3, s4. do 5 (split; [done|]). split; [done|]. split; [by eapply stays_trans|apply Hs1].
Qed.

Lemma fstx_len s H L V k : fstx s H L V → zlen (V k) = BSIZE.
Proof. intros [[Hok Hv _] _]. rewrite <- Hv. eapply view_len. apply (lo_bio _ _ _ _ _ _ Hok). Qed.

Lemma fdata_ok s H L V b k : fstx s H L V → holds s b k → fdata s b = Ok (V k).
Proof.
  intros [[Hok Hv _] _] Hp. unfold fdata, ldata.
  rewrite (data_of_ok dev _ _ _ b k (lo_bio _ _ _ _ _ _ Hok) Hp). by rewrite Hv.
Qed.

(** ** The bitmap *)

Context {LY : Layout}.

Lemma datastart_low : 0 < sb_inodestart sbk ∧ sb_inodestart sbk ≤ sb_bmapstart sbk < datastart.
Proof using LA LY.
  destruct LA as [_ La1 La2], LY as [[L1 _] L3 L4 L5 L6]. unfold datastart in *.
  pose proof (Z.div_pos (sb_size sbk) BPB ltac:(lia) ltac:(done)).
  pose proof (Z.div_pos (sb_ninodes sbk) IPB ltac:(lia) ltac:(done)). lia.
Qed.

Lemma meta_writable k : sb_inodestart sbk ≤ k < sb_size sbk → writable N S k.
Proof using LA LY.
  intros Hk. pose proof datastart_low. destruct LY as [[_ L2] L3 L4 L5 L6].
  unfold writable, in_log. lia.
Qed.

Lemma bblock_eq b : 0 ≤ b < sb_size sbk → BBLOCK b sbk = b / BPB + sb_bmapstart sbk.
Proof using LA LY.
  intros Hb. unfold BBLOCK. pose proof datastart_low. destruct LY as [[L1 L2] L3 L4 L5 L6].
  pose proof (Z.div_le_mono b (sb_size sbk) BPB ltac:(done) ltac:(lia)).
  pose proof (Z.div_pos b BPB ltac:(lia) ltac:(done)). unfold datastart in *.
  apply u32_small. lia.
Qed.

Lemma bblock_bitmap b : 0 ≤ b < sb_size sbk → is_bitmap (BBLOCK b sbk).
Proof using LA LY.
  intros Hb. rewrite bblock_eq by done. unfold is_bitmap, datastart.
  pose proof (Z.div_le_mono b (sb_size sbk) BPB ltac:(done) ltac:(lia)).
  pose proof (Z.div_pos b BPB ltac:(lia) ltac:(done)). lia.
Qed.

Lemma bitmap_not_data k : is_bitmap k → ¬ is_data k.
Proof. unfold is_bitmap, is_data. lia. Qed.

Lemma bitmap_writable k : is_bitmap k → writable N S k.
Proof using LA LY.
  intros Hk. pose proof datastart_low. apply meta_writable. destruct LY as [_ _ _ _ L6].
  unfold is_bitmap in Hk. lia.
Qed.

Lemma data_writable k : is_data k → writable N S k.
Proof using LA LY. intros Hk. pose proof datastart_low. apply meta_writable. unfold is_data in Hk. lia. Qed.

(** One bit of the bitmap changes, and no block outside it. *)
Lemma used_update V b d v :
  0 ≤ b < sb_size sbk → bits_upd (V (BBLOCK b sbk)) d (b mod BPB) v →
  ∀ c, 0 ≤ c < sb_size sbk →
    used (<[BBLOCK b sbk := d]> V) c = if b =? c then v else used V c.
Proof using LA LY.
  intros Hb [_ Hu] c Hc. unfold used.
  pose proof (Z.mod_pos_bound c BPB ltac:(done)) as Hm.
  destruct (decide (BBLOCK b sbk = BBLOCK c sbk)) as [E|Hne].
  - rewrite <- E, fn_lookup_insert, Hu by lia. rewrite !bblock_eq in E by done.
    pose proof (Z.div_mod b BPB ltac:(done)). pose proof (Z.div_mod c BPB ltac:(done)).
    destruct (Z.eqb_spec (b mod BPB) (c mod BPB)), (Z.eqb_spec b c); try done; subst; try done.
    exfalso. nia.
  - rewrite fn_lookup_insert_ne by done. destruct (Z.eqb_spec b c); [by subst|done].
Qed.

Lemma used_ext V V' : (∀ k, is_bitmap k → V' k = V k) → ∀ b, 0 ≤ b < sb_size sbk → used V' b = used V b.
Proof using LA LY. intros E b Hb. unfold used. rewrite E; [done|]. by apply bblock_bitmap. Qed.

(** The blocks before the data area are marked in use. *)
Definition reserved V : Prop := ∀ b, 0 ≤ b < datastart → used V b = true.

(** The buffers the running thread holds during an allocation are of data
    blocks in use. *)
Definition held V H : Prop := ∀ k, k ∈ H → is_data k ∧ used V k = true.

(** The effect of allocating block [r]. *)
Record allocated V V' (r : Z) : Prop := {
  al_data : is_data r;
  al_free : used V r = false;
  al_first : ∀ b, 0 ≤ b < r → used V b = true;
  al_used : ∀ b, 0 ≤ b < sb_size sbk → used V' b = if r =? b then true else used V b;
  al_zero : V' r = zeroblock;
  al_same : ∀ k, k ≠ r → ¬ is_bitmap k → V' k = V k;
}.

(** The effect of freeing block [b]. *)
Record freed V V' (b : Z) : Prop := {
  fr_data : is_data b;
  fr_was : used V b = true;
  fr_used : ∀ c, 0 ≤ c < sb_size sbk → used V' c = if b =? c then false else used V c;
  fr_same : ∀ k, ¬ is_bitmap k → V' k = V k;
}.

Lemma nbits_block s H L V k : fstx s H L V → nbits (V k) = BPB.
Proof. intros Ht. unfold nbits. rewrite (fstx_len s H L V k Ht). done. Qed.

Lemma bzero_ok s H L V b :
  fstx s H L V → 1 ≤ outstanding (lg (fl s)) → b ∉ H → room H L 1 → is_data b →
  ∃ s', bzero s dev b = Ok s' ∧ fstx s' H (addl b L) (<[b := zeroblock]> V) ∧ stays s s' H.
Proof using LA LY.
  intros Ht Ho Hn Hr Hb. unfold bzero. pose proof datastart_low. unfold is_data in Hb.
  destruct LY as [[_ L2] _ _ _ _]. rewrite u32_small by lia.
  destruct (write_block s H L V b zeroblock Ht Ho Hn Hr) as (bp & s1 & s2 & s3 & s4 & -> & _ & E2 & E3 & E4 & Ht4 & Hs4 & _).
  { by apply data_writable. } { apply zeroblock_zlen. }
  exists s4. cbn [mbind outcome_bind]. rewrite E2. cbn [mbind outcome_bind]. rewrite E3. by cbn [mbind outcome_bind].
Qed.

(** Marking block [r] and zeroing it allocates it. *)
Lemma allocated_intro V r d :
  0 ≤ r < sb_size sbk → reserved V → used V r = false → (∀ b, 0 ≤ b < r → used V b = true) →
  bits_upd (V (BBLOCK r sbk)) d (r mod BPB) true →
  is_data r ∧ allocated V (<[r := zeroblock]> (<[BBLOCK r sbk := d]> V)) r.
Proof using LA LY.
  intros Hr Hres Hf Hfirst Hu.
  assert (Hd : is_data r).
  { split; [|lia]. destruct (Z.le_gt_cases datastart r) as [|Hlt]; [done|].
    rewrite Hres in Hf by lia. done. }
  split; [done|]. pose proof (bblock_bitmap r Hr) as Hbm. pose proof (bitmap_not_data _ Hbm) as Hnd.
  constructor; try done.
  - intros b Hb. rewrite (used_ext (<[BBLOCK r sbk := d]> V)); [by apply used_update| |done].
    intros k Hk. rewrite fn_lookup_insert_ne; [done|]. intros ->. by apply (bitmap_not_data _ Hk).
  - by rewrite fn_lookup_insert.
  - intros k Hk Hnb. rewrite !fn_lookup_insert_ne; [done| |done]. intros <-. by apply Hnb.
Qed.

(** What [balloc] gives: 0 when every block is in use and nothing changed, or
    the first free block, now in use and zero. *)
Definition balloc_post s H L V (r : Z) s' : Prop :=
  stays s s' H ∧
  ((r = 0 ∧ fstx s' H L V ∧ ∀ b, 0 ≤ b < sb_size sbk → used V b = true) ∨
   (∃ V', allocated V V' r ∧ r ∉ H ∧ fstx s' H (addl r (addl (BBLOCK r sbk) L)) V')).

Lemma block_bit b i :
  b mod BPB = 0 → 0 ≤ i < BPB → (b + i) / BPB = b / BPB ∧ (b + i) mod BPB = i.
Proof.
  intros Hb Hi. pose proof (Z.div_mod b BPB ltac:(done)) as E. rewrite Hb, Z.add_0_r in E.
  replace (b + i) with (i + b / BPB * BPB) by lia.
  rewrite Z.div_add, Z_mod_plus_full, Z.div_small, Z.mod_small by done. lia.
Qed.

Lemma balloc_found s H L V r :
  fstx s H L V → 1 ≤ outstanding (lg (fl s)) → room H L 2 → reserved V → held V H →
  0 ≤ r < sb_size sbk → used V r = false → (∀ b, 0 ≤ b < r → used V b = true) →
  ∃ v d bp s1 s2 s3 s4 s5, arr_get (V (BBLOCK r sbk)) (r mod BPB / 8) = Ok v ∧
    arr_set (V (BBLOCK r sbk)) (r mod BPB / 8) (Z.lor v (bmask (r mod BPB))) = Ok d ∧
    fbread s dev (BBLOCK r sbk) = Ok (bp, s1) ∧ fdata s1 bp = Ok (V (BBLOCK r sbk)) ∧
    fset_data s1 bp d = Ok s2 ∧ flog_write s2 bp = Ok s3 ∧ fbrelse s3 bp = Ok s4 ∧
    bzero s4 dev r = Ok s5 ∧ balloc_post s H L V r s5.
Proof using LA LY.
  intros Ht Ho Hr Hres Hheld Hrange Hfree Hfirst.
  pose proof (bblock_bitmap r Hrange) as Hbm.
  pose proof (Z.mod_pos_bound r BPB ltac:(done)) as Hm.
  destruct (set_bit_ok (V (BBLOCK r sbk)) (r mod BPB)) as (v & d & Ev & Ed & Hu).
  { by rewrite (nbits_block s H L V _ Ht). }
  destruct (allocated_intro V r d) as [Hd Hal]; [done..|].
  destruct (write_block s H L V (BBLOCK r sbk) d Ht Ho) as (bp & s1 & s2 & s3 & s4 & E1 & E1d & E2 & E3 & E4 & Ht4 & Hs4 & _).
  { intros [Hdd _]%Hheld. by apply (bitmap_not_data _ Hbm). } { eapply room_le; [done|lia]. }
  { by apply bitmap_writable. } { destruct Hu as [-> _]. by eapply fstx_len. }
  assert (Hrh : r ∉ H). { intros [_ Hc]%Hheld. congruence. }
  destruct (bzero_ok s4 H _ _ r Ht4) as (s5 & E5 & Ht5 & Hs5); try done.
  { by rewrite (sy_out _ _ _ Hs4). } { by apply room_addl. }
  exists v, d, bp, s1, s2, s3, s4, s5. do 8 (split; [done|]). split; [by eapply stays_trans|].
  right. eauto.
Qed.

Lemma balloc_loop_ok n s H L V b :
  fstx s H L V → 1 ≤ outstanding (lg (fl s)) → room H L 2 → reserved V → held V H →
  0 ≤ b → b mod BPB = 0 → sb_size sbk ≤ b + Z.of_nat n * BPB →
  (∀ c, 0 ≤ c < b → c < sb_size sbk → used V c = true) →
  ∃ r s', balloc_loop n s dev b = Ok (r, s') ∧ balloc_post s H L V r s'.
Proof using LA LY.
  revert s b. induction n as [|n IH]; intros s b Ht Ho Hr Hres Hheld H0 Hb Hn Hprev; cbn [balloc_loop].
  { exists 0, s. split; [done|]. split; [apply stays_refl|]. left. split_and!; try done. intros c Hc. apply Hprev; lia. }
  rewrite (ft_sb _ _ _ _ Ht).
  destruct (Z.ltb_spec b (sb_size sbk)) as [Hlt|Hge].
  2:{ exists 0, s. split; [done|]. split; [apply stays_refl|]. left. split_and!; try done. intros c Hc. apply Hprev; lia. }
  assert (Hblk : ∀ i, 0 ≤ i < BPB → b + i < sb_size sbk → BBLOCK (b + i) sbk = BBLOCK b sbk).
  { intros i Hi Hs. rewrite !bblock_eq by lia. by destruct (block_bit b i Hb Hi) as [-> _]. }
  assert (Hbit : ∀ i, 0 ≤ i < BPB → b + i < sb_size sbk → bit (V (BBLOCK b sbk)) i = used V (b + i)).
  { intros i Hi Hs. unfold used. rewrite Hblk by done. by destruct (block_bit b i Hb Hi) as [_ ->]. }
  assert (Hnext : ∀ j, 0 ≤ j ≤ BPB → (∀ i, 0 ≤ i < j → b + i < sb_size sbk → bit (V (BBLOCK b sbk)) i = true) →
    ∀ c, 0 ≤ c < b + j → c < sb_size sbk → used V c = true).
  { intros j Hj Hall c Hc Hs. destruct (Z.lt_ge_cases c b); [apply Hprev; lia|].
    replace c with (b + (c - b)) by lia. rewrite <- Hbit by lia. apply Hall; lia. }
  destruct (balloc_scan_ok (Z.to_nat BPB) (V (BBLOCK b sbk)) b 0 (sb_size sbk)) as (r & Escan & Hscan);
    [by eapply fstx_len|lia|lia|].
  destruct r as [j|].
  - destruct Hscan as (Hj & Hjs & Hjf & Hall).
    destruct (balloc_found s H L V (b + j)) as (v & d & bp & s1 & s2 & s3 & s4 & s5 & Ev & Ed & E1 & E1d & E2 & E3 & E4 & E5 & Hpost);
      try done; [lia|by rewrite <- Hbit|intros c Hc; apply (Hnext j); [lia| |lia..]; intros; apply Hall; lia|].
    rewrite Hblk in * by done. destruct (block_bit b j Hb Hj) as [_ Em]. rewrite Em in *.
    exists (b + j), s5. call E1. call E1d.
    call Escan. call Ev.
    call Ed. call E2. call E3.
    call E4. by call E5.
  - destruct (read_block s H L V (BBLOCK b sbk) Ht) as (bp & s1 & s2 & E1 & E1d & E2 & Ht2 & Hs2 & _).
    { intros [Hd _]%Hheld. by apply (bitmap_not_data _ (bblock_bitmap b ltac:(lia))). }
    { eapply room_le; [done|lia]. }
    call E1. call E1d.
    call Escan. call E2.
    destruct (IH s2 (b + BPB)) as (r & s' & -> & Hs' & Hpost); try done.
    { by rewrite (sy_out _ _ _ Hs2). } { unfold BPB, BSIZE in *; lia. }
    { rewrite <- Zplus_mod_idemp_r, Z.mod_same, Z.add_0_r by done. done. } { lia. }
    { apply (Hnext BPB); [unfold BPB, BSIZE; lia|done]. }
    exists r, s'. split; [done|]. split; [by eapply stays_trans|done].
Qed.

Lemma balloc_ok s H L V :
  fstx s H L V → 1 ≤ outstanding (lg (fl s)) → room H L 2 → reserved V → held V H →
  ∃ r s', balloc s dev = Ok (r, s') ∧ balloc_post s H L V r s'.
Proof using LA LY.
  intros Ht Ho Hr Hres Hheld. unfold balloc. rewrite (ft_sb _ _ _ _ Ht).
  destruct LY as [[L1 L2] _ _ _ _]. pose proof (Z.div_pos (sb_size sbk) BPB ltac:(lia) ltac:(done)).
  pose proof (Z.mul_div_le (sb_size sbk) BPB ltac:(done)). pose proof (Z.div_mod (sb_size sbk) BPB ltac:(done)).
  pose proof (Z.mod_pos_bound (sb_size sbk) BPB ltac:(done)).
  apply balloc_loop_ok; try done; [rewrite Z2Nat.id by lia; lia|lia].
Qed.

(** Block 0 is never handed out. *)
Lemma allocated_pos V V' r : allocated V V' r → 0 < r < sb_size sbk.
Proof using LA LY. intros [Hd _ _ _ _ _]. pose proof datastart_low. unfold is_data in Hd. lia. Qed.

Lemma allocated_reserved V V' r : allocated V V' r → reserved V → reserved V'.
Proof using LA LY.
  intros Hal Hres b Hb. pose proof (ly_data (Layout := LY)).
  rewrite (al_used _ _ _ Hal) by lia. zcase; [done|]. by apply Hres.
Qed.

Lemma bfree_ok s H L V b :
  fstx s H L V → 1 ≤ outstanding (lg (fl s)) → room H L 1 → held V H → is_data b →
  if used V b then
    ∃ s' V', bfree s dev b = Ok s' ∧ freed V V' b ∧ fstx s' H (addl (BBLOCK b sbk) L) V' ∧ stays s s' H
  else bfree s dev b = Panic "freeing free block".
Proof using LA LY.
  intros Ht Ho Hr Hheld Hb. pose proof datastart_low as Hlow.
  assert (Hrange : 0 ≤ b < sb_size sbk) by (unfold is_data in Hb; lia).
  pose proof (bblock_bitmap b Hrange) as Hbm. pose proof (Z.mod_pos_bound b BPB ltac:(done)) as Hm.
  assert (Hnh : BBLOCK b sbk ∉ H).
  { intros [Hd _]%Hheld. by apply (bitmap_not_data _ Hbm). }
  destruct (clear_bit_ok (V (BBLOCK b sbk)) (b mod BPB)) as (v & d & Ev & Et & Ed & Hu).
  { by rewrite (nbits_block s H L V _ Ht). }
  destruct (write_block s H L V (BBLOCK b sbk) d Ht Ho Hnh Hr) as (bp & s1 & s2 & s3 & s4 & E1 & E1d & E2 & E3 & E4 & Ht4 & Hs4 & _).
  { by apply bitmap_writable. } { destruct Hu as [-> _]. by eapply fstx_len. }
  unfold bfree. rewrite (ft_sb _ _ _ _ Ht). call E1. call E1d. call Ev. rewrite Et. fold (used V b).
  destruct (used V b) eqn:Eu; cbn [negb]; [|done].
  call Ed. call E2. call E3. rewrite E4. exists s4, (<[BBLOCK b sbk := d]> V).
  split; [done|]. split; [|done]. constructor; try done.
  - by apply used_update.
  - intros k Hk. rewrite fn_lookup_insert_ne; [done|]. by intros <-.
Qed.

End fs_block.
