(* ===== verification/FsInode.v ===== *)
(** * The blocks of a file: [bmap] of [kernel/file/fs.c].

    [blk V x i] is the number of the [i]-th data block of inode [x] when the disk
    blocks are [V], 0 when it has none; index [MAXFILE] stands for the indirect
    block. [file_ok] is the invariant of one file and [grown] what adding blocks
    to it may change. *)

From Stdlib Require Import ZifyBool.
From S2P Require Import Prelude Bits Block Bio BioProof Log LogProof LogOps Fs FsBlock.

Section fs_inode.
Context (dev N S : Z) {LA : LogArea dev N S} (sbk : superblock) {LY : Layout N S sbk}.
Implicit Types (s : fs) (H : gset Z) (L : list Z) (V : Z → list Z) (x y : inode).

Local Notation used := (used sbk).
Local Notation is_data := (is_data sbk).
Local Notation is_bitmap := (is_bitmap sbk).
Local Notation reserved := (reserved sbk).
Local Notation allocated := (allocated sbk).
Local Notation held := (held sbk).
Local Notation fstx := (fstx dev N S sbk).
Local Notation stays := (stays dev).
Local Notation room := (room N).

(** ** Block numbers *)

Definition iaddr x (i : Z) : Z := default 0 (iaddrs x !! Z.to_nat i).

Definition blk V x (i : Z) : Z :=
  if i <? NDIRECT then iaddr x i
  else if i <? MAXFILE then
    if iaddr x NDIRECT =? 0 then 0 else rd 4 (V (iaddr x NDIRECT)) (4 * (i - NDIRECT))
  else iaddr x NDIRECT.

(** The index of the indirect block. *)
Definition IND : Z := MAXFILE.

Lemma IND_val : IND = 268 ∧ NDIRECT = 12 ∧ MAXFILE = 268 ∧ BSIZE = 1024.
Proof. done. Qed.

Lemma blk_ind V x : blk V x IND = iaddr x NDIRECT.
Proof. done. Qed.

Lemma blk_direct V x i : i < NDIRECT → blk V x i = iaddr x i.
Proof. intros. unfold blk. by destruct (Z.ltb_spec i NDIRECT); [|lia]. Qed.

Lemma blk_indirect V x i :
  NDIRECT ≤ i < MAXFILE →
  blk V x i = if iaddr x NDIRECT =? 0 then 0 else rd 4 (V (iaddr x NDIRECT)) (4 * (i - NDIRECT)).
Proof. intros. unfold blk. by destruct (Z.ltb_spec i NDIRECT), (Z.ltb_spec i MAXFILE); try lia. Qed.

Record file_ok V x : Prop := {
  fo_dev : idev x = dev;
  fo_len : zlen (iaddrs x) = NDIRECT + 1;
  fo_size : 0 ≤ isize x ≤ MAXFILE * BSIZE;
  fo_data : ∀ i, 0 ≤ i ≤ IND → blk V x i ≠ 0 → is_data (blk V x i) ∧ used V (blk V x i) = true;
  fo_inj : ∀ i j, 0 ≤ i ≤ IND → 0 ≤ j ≤ IND → blk V x i ≠ 0 → blk V x i = blk V x j → i = j;
  fo_full : ∀ i, 0 ≤ i → i * BSIZE < isize x → blk V x i ≠ 0;
}.

(** Adding blocks to a file: the blocks it had keep their place and contents,
    new ones are zero and were free, and nothing else on the disk changes but
    the bitmap and the indirect block. *)
Record grown V x V' x' : Prop := {
  gr_file : file_ok V' x';
  gr_res : reserved V';
  gr_meta : x' = set_iaddrs x (iaddrs x');
  gr_old : ∀ i, 0 ≤ i ≤ IND → blk V x i ≠ 0 →
    blk V' x' i = blk V x i ∧ (i < IND → V' (blk V x i) = V (blk V x i));
  gr_zero : ∀ i, 0 ≤ i < IND → blk V x i = 0 → blk V' x' i ≠ 0 → V' (blk V' x' i) = zeroblock;
  gr_new : ∀ i, 0 ≤ i ≤ IND → blk V x i = 0 → blk V' x' i ≠ 0 → used V (blk V' x' i) = false;
  gr_used : ∀ b, 0 ≤ b < sb_size sbk → used V b = true → used V' b = true;
  gr_frame : ∀ k, ¬ is_bitmap k → (is_data k → used V k = true ∧ k ≠ blk V x IND) → V' k = V k;
}.

Lemma set_iaddrs_same x : set_iaddrs x (iaddrs x) = x.
Proof. by destruct x. Qed.

Lemma grown_refl V x : file_ok V x → reserved V → grown V x V x.
Proof. intros. constructor; try done. by rewrite set_iaddrs_same. Qed.

Lemma data_range k : is_data k → 0 < k < sb_size sbk.
Proof using LA LY. pose proof (datastart_low dev N S sbk). unfold FsBlock.is_data. lia. Qed.

Lemma grown_trans V x V' x' V'' x'' :
  grown V x V' x' → grown V' x' V'' x'' → grown V x V'' x''.
Proof using LA LY.
  intros [A1 A2 A3 A4 A5 A6 A7 A8] [B1 B2 B3 B4 B5 B6 B7 B8].
  assert (Hback : ∀ i, 0 ≤ i ≤ IND → blk V'' x'' i ≠ 0 → used V' (blk V'' x'' i) = false →
    used V (blk V'' x'' i) = false).
  { intros i Hi Hn Hf. destruct (used V (blk V'' x'' i)) eqn:E; [|done].
    destruct (fo_data _ _ B1 i Hi Hn) as [Hd _]. apply A7 in E; [congruence|]. apply data_range in Hd. lia. }
  constructor; try done.
  - rewrite B3, A3. done.
  - intros i Hi Hn. destruct (A4 i Hi Hn) as [E1 E2]. destruct (B4 i Hi) as [E3 E4]; [by rewrite E1|].
    rewrite E1 in *. split; [done|]. intros. rewrite E4, E2; done.
  - intros i Hi Hz Hn. destruct (decide (blk V' x' i = 0)) as [E|E]; [by apply B5|].
    destruct (B4 i ltac:(lia) E) as [E1 E2]. rewrite E1, E2 by lia. by apply A5.
  - intros i Hi Hz Hn. destruct (decide (blk V' x' i = 0)) as [E|E].
    + apply Hback; [done..|]. by apply B6.
    + destruct (B4 i Hi E) as [-> _]. by apply A6.
  - intros b Hb Hu. auto.
  - intros k Hk Hd. rewrite B8, A8; [done|done|done|done|].
    intros Hdk. destruct (Hd Hdk) as [Hu Hne]. split; [apply A7; [apply data_range in Hdk; lia|done]|].
    intros ->. destruct (decide (blk V x IND = 0)) as [E|E].
    + destruct (decide (blk V' x' IND = 0)) as [E'|E'].
      * rewrite E' in Hdk. apply data_range in Hdk. lia.
      * rewrite A6 in Hu; [done|pose proof IND_val; lia|done|done].
    + by destruct (A4 IND) as [E' _].
Qed.

(** One block [a] is allocated and becomes block [j] of the file. *)
Lemma grown_intro V x V1 V' x' a j :
  file_ok V x → reserved V → allocated V V1 a → 0 ≤ j ≤ IND → blk V x j = 0 →
  x' = set_iaddrs x (iaddrs x') → zlen (iaddrs x') = NDIRECT + 1 →
  (∀ i, 0 ≤ i ≤ IND → blk V' x' i = if i =? j then a else blk V x i) →
  (∀ k, k ≠ blk V x IND → V' k = V1 k) → (blk V x IND = 0 → V' 0 = V1 0) →
  grown V x V' x'.
Proof using LA LY.
  intros Hf Hres Hal Hj Hz Hx' Hlen Hblk HV HV0.
  pose proof (allocated_pos dev N S sbk V V1 a Hal) as Ha.
  pose proof (datastart_low dev N S sbk) as Hlow.
  assert (Hda : ∀ i, 0 ≤ i ≤ IND → blk V x i ≠ 0 → blk V x i ≠ a).
  { intros i Hi Hn E. destruct (fo_data _ _ Hf i Hi Hn) as [_ Hu]. rewrite E in Hu.
    rewrite (al_free _ _ _ _ Hal) in Hu. done. }
  assert (HIND : 0 ≤ IND) by (pose proof IND_val; lia).
  assert (Hbm : ∀ k, is_bitmap k → V' k = V1 k).
  { intros k Hk. apply HV. intros ->. destruct (decide (blk V x IND = 0)) as [E|E].
    - rewrite E in Hk. unfold FsBlock.is_bitmap in Hk. lia.
    - destruct (fo_data _ _ Hf IND ltac:(lia) E) as [Hd _]. by apply (bitmap_not_data sbk _ Hk). }
  assert (Hused : ∀ b, 0 ≤ b < sb_size sbk → used V' b = if a =? b then true else used V b).
  { intros b Hb. rewrite (used_ext dev N S sbk V1 V' Hbm b Hb). by apply Hal. }
  constructor.
  - constructor.
    + rewrite Hx'. apply Hf.
    + done.
    + rewrite Hx'. apply Hf.
    + intros i Hi. rewrite Hblk by done. destruct (Z.eqb_spec i j) as [->|].
      * intros _. split; [apply Hal|]. rewrite Hused by lia. by rewrite Z.eqb_refl.
      * intros Hn. destruct (fo_data _ _ Hf i Hi Hn) as [Hd Hu]. split; [done|].
        rewrite Hused by (apply data_range in Hd; lia). by zcase.
    + intros i k Hi Hk. rewrite !Hblk by done. destruct (Z.eqb_spec i j), (Z.eqb_spec k j); intros Hn E; subst; try done.
      * destruct (Hda k Hk); [congruence|done].
      * by destruct (Hda i Hi).
      * by apply (fo_inj _ _ Hf).
    + intros i Hi Hs. rewrite Hx' in Hs. cbn in Hs.
      assert (i < IND). { pose proof (fo_size _ _ Hf) as Hsz. destruct IND_val as (-> & _ & E3 & E4). rewrite E3, E4 in *. lia. }
      rewrite Hblk by lia. zcase; [lia|]. by apply (fo_full _ _ Hf).
  - intros b Hb. pose proof (ly_data N S sbk). rewrite Hused by lia. zcase; [done|]. by apply Hres.
  - done.
  - intros i Hi Hn. rewrite Hblk by done. zcase; [subst; done|]. split; [done|]. intros Hlt.
    destruct (fo_data _ _ Hf i Hi Hn) as [Hd Hu].
    rewrite HV; [|intros E; pose proof (fo_inj _ _ Hf i IND Hi ltac:(lia) Hn E); lia].
    apply Hal; [by apply Hda|]. intros Hb. by apply (bitmap_not_data sbk _ Hb).
  - intros i Hi Hz' Hn. rewrite Hblk in * by lia. zcase; [|done]. rewrite HV; [apply Hal|].
    intros E. destruct (Hda IND ltac:(lia)); [lia|done].
  - intros i Hi Hz' Hn. rewrite Hblk in * by lia. zcase; [|done]. apply Hal.
  - intros b Hb Hu. rewrite Hused by done. by zcase.
  - intros k Hk Hd. destruct (decide (k = blk V x IND)) as [->|Hne].
    + destruct (decide (blk V x IND = 0)) as [E|E].
      * rewrite E in *. rewrite HV0 by done. apply Hal; [lia|done].
      * destruct (fo_data _ _ Hf IND ltac:(lia) E) as [Hdd _]. by destruct (Hd Hdd).
    + rewrite HV by done. apply Hal; [|done]. intros ->. destruct (Hd (al_data _ _ _ _ Hal)) as [Hu _].
      rewrite (al_free _ _ _ _ Hal) in Hu. done.
Qed.

(** ** Allocating a block of the file *)

(** What the indirect block may still cost in the log. *)
Definition ipot x L : Z := if decide (iaddr x NDIRECT ≠ 0 ∧ iaddr x NDIRECT ∈ L) then 0 else 2.

Definition full V : Prop := ∀ b, 0 ≤ b < sb_size sbk → used V b = true.

(** State [s'] has inode [x'] in slot [ip] and the blocks [V']; at most [n]
    blocks, and what the indirect block costs, were added to the log. *)
Record grows s ip L V x (n : Z) s' L' V' x' : Prop := {
  gw_tx : fstx s' ∅ L' V';
  gw_grown : grown V x V' x';
  gw_itable : itable s' = <[Z.to_nat ip := x']> (itable s);
  gw_out : outstanding (lg (fl s')) = outstanding (lg (fl s));
  gw_com : committing (lg (fl s')) = committing (lg (fl s));
  gw_log : L ⊆ L';
  gw_cost : zlen L' + ipot x' L' ≤ zlen L + ipot x L + n;
}.

Lemma get_inode_ok s ip x : get_inode s ip = Ok x ↔ 0 ≤ ip ∧ itable s !! Z.to_nat ip = Some x.
Proof. apply arr_get_Ok. Qed.

Lemma put_inode_ok s ip x y :
  get_inode s ip = Ok x → put_inode s ip y = Ok (with_itable s (<[Z.to_nat ip := y]> (itable s))).
Proof.
  intros [H0 Hx]%get_inode_ok. unfold put_inode. rewrite arr_set_in_range; [done|].
  apply lookup_lt_Some in Hx. unfold zlen. lia.
Qed.

Lemma get_inode_insert s ip x t :
  get_inode s ip = Ok x → itable s = t → ∀ s' y, itable s' = <[Z.to_nat ip := y]> t → get_inode s' ip = Ok y.
Proof.
  intros [H0 Hx]%get_inode_ok <- s' y E. apply get_inode_ok. split; [done|]. rewrite E.
  apply list_lookup_insert_eq. by eapply lookup_lt_Some.
Qed.

Lemma file_grows_refl s ip L V x :
  fstx s ∅ L V → get_inode s ip = Ok x → file_ok V x → reserved V → ∀ s', fstx s' ∅ L V → stays s s' ∅ →
  grows s ip L V x 0 s' L V x.
Proof.
  intros Ht [H0 Hx]%get_inode_ok Hf Hres s' Ht' [_ Hit Ho Hc]. constructor; try done; [by apply grown_refl| |lia].
  rewrite Hit. by rewrite list_insert_id.
Qed.

Lemma file_grows_trans s1 s2 s3 ip L1 L2 L3 V1 V2 V3 x1 x2 x3 n m :
  grows s1 ip L1 V1 x1 n s2 L2 V2 x2 → grows s2 ip L2 V2 x2 m s3 L3 V3 x3 →
  grows s1 ip L1 V1 x1 (n + m) s3 L3 V3 x3.
Proof using LA LY.
  intros [A1 A2 A3 A4 A4' A5 A6] [B1 B2 B3 B4 B4' B5 B6]. constructor; try done.
  - by eapply grown_trans.
  - rewrite B3, A3. apply list_insert_insert_eq.
  - congruence.
  - congruence.
  - by etrans.
  - lia.
Qed.

Lemma iaddr_insert x i j a :
  0 ≤ i → 0 ≤ j < zlen (iaddrs x) →
  iaddr (set_iaddrs x (<[Z.to_nat j := a]> (iaddrs x))) i = if i =? j then a else iaddr x i.
Proof.
  intros Hi Hj. unfold iaddr, zlen in *. cbn [iaddrs set_iaddrs]. destruct (Z.eqb_spec i j) as [->|].
  - rewrite list_lookup_insert_eq by lia. done.
  - by rewrite list_lookup_insert_ne by lia.
Qed.

(** The block index an entry of [addrs] stands for. *)
Definition slot (i : Z) : Z := if i =? NDIRECT then IND else i.

Lemma rd_zeroblock o : rd 4 zeroblock o = 0.
Proof.
  unfold rd, slice, zeroblock. rewrite drop_replicate, take_replicate.
  generalize (Z.to_nat (Z.of_nat 4) `min` (Z.to_nat BSIZE - Z.to_nat o))%nat. intros n.
  induction n; simpl; lia.
Qed.

(** Block numbers after a fresh zero block is entered in [addrs]. *)
Lemma blk_slot V V1 x a i :
  file_ok V x → allocated V V1 a → 0 ≤ i ≤ NDIRECT → blk V x (slot i) = 0 →
  ∀ k, 0 ≤ k ≤ IND →
    blk V1 (set_iaddrs x (<[Z.to_nat i := a]> (iaddrs x))) k = if k =? slot i then a else blk V x k.
Proof using LA LY.
  intros Hf Hal Hi Hz k Hk. set (x' := set_iaddrs x _). pose proof IND_val as (EI & EN & EM & _).
  pose proof (allocated_pos dev N S sbk V V1 a Hal) as Ha.
  assert (Hx' : ∀ j, 0 ≤ j → iaddr x' j = if j =? i then a else iaddr x j).
  { intros j Hj. apply iaddr_insert; [done|]. rewrite (fo_len _ _ Hf). lia. }
  unfold slot in *. destruct (Z.lt_ge_cases k NDIRECT) as [Hd|Hd].
  { rewrite !blk_direct, Hx' by lia. destruct (Z.eqb_spec i NDIRECT); repeat zcase; lia. }
  destruct (Z.lt_ge_cases k IND) as [Hlt|].
  2:{ assert (k = IND) as -> by lia. rewrite !blk_ind, Hx' by lia. destruct (Z.eqb_spec i NDIRECT); repeat zcase; lia. }
  rewrite !blk_indirect, Hx' by lia. destruct (Z.eqb_spec i NDIRECT) as [->|].
  - rewrite Z.eqb_refl, blk_ind in *. rewrite Hz, (al_zero _ _ _ _ Hal), rd_zeroblock, Z.eqb_refl.
    repeat zcase; lia.
  - destruct (Z.eqb_spec NDIRECT i); [lia|]. destruct (Z.eqb_spec k i); [lia|].
    destruct (Z.eqb_spec (iaddr x NDIRECT) 0) as [|Hn]; [done|]. f_equal.
    rewrite <- (blk_ind V) in *. destruct (fo_data _ _ Hf IND ltac:(lia) Hn) as [Hdd Hu].
    apply Hal; [|intros Hb; by apply (bitmap_not_data sbk _ Hb)].
    intros E. rewrite E, (al_free _ _ _ _ Hal) in Hu. done.
Qed.

Lemma ipot_range x L : 0 ≤ ipot x L ≤ 2.
Proof. unfold ipot. case_decide; lia. Qed.

Lemma ipot_mono x x' L L' : iaddr x' NDIRECT = iaddr x NDIRECT → L ⊆ L' → ipot x' L' ≤ ipot x L.
Proof using Type.
  intros E Hs. unfold ipot. rewrite E. destruct (decide (iaddr x NDIRECT ≠ 0 ∧ iaddr x NDIRECT ∈ L)) as [[H1 H2]|]; [|case_decide; lia].
  rewrite decide_True by auto. done.
Qed.

Lemma addl2_sub a b L : L ⊆ addl a (addl b L).
Proof. intros k Hk. rewrite !elem_of_addl. auto. Qed.

Lemma held_empty V : held V ∅.
Proof. by intros k ?%elem_of_empty. Qed.

Lemma alloc_slot_ok s ip L V x i :
  fstx s ∅ L V → 1 ≤ outstanding (lg (fl s)) → room ∅ L 2 → reserved V → get_inode s ip = Ok x →
  file_ok V x → 0 ≤ i ≤ NDIRECT → blk V x (slot i) = 0 →
  ∃ a s',
    ('(a', s1) ← balloc s (idev x);
     if a' =? 0 then Ok (0, s1)
     else
       addrs' ← arr_set (iaddrs x) i a';
       s2 ← put_inode s1 ip (set_iaddrs x addrs');
       Ok (a', s2)) = Ok (a, s') ∧
    ∃ L' V' x', grows s ip L V x (if i =? NDIRECT then 0 else 2) s' L' V' x' ∧
      a = blk V' x' (slot i) ∧ (a = 0 → full V') ∧ (a ≠ 0 → a ∈ L') ∧
      ∀ k, 0 ≤ k ≤ IND → k ≠ slot i → blk V' x' k = blk V x k.
Proof using LA LY.
  intros Ht Ho Hr Hres Hx Hf Hi Hz. pose proof IND_val as (EI & EN & EM & _). rewrite (fo_dev _ _ Hf).
  assert (Hslot : 0 ≤ slot i ≤ IND) by (unfold slot; destruct (Z.eqb_spec i NDIRECT); lia).
  destruct (balloc_ok dev N S sbk s ∅ L V Ht Ho Hr Hres (held_empty V)) as (r & s1 & Eb & Hs & Hpost). call Eb.
  destruct Hpost as [(-> & Ht1 & Hfull)|(V' & Hal & _ & Ht1)].
  - exists 0, s1. split; [done|]. exists L, V, x. split; [|done].
    destruct (file_grows_refl s ip L V x Ht Hx Hf Hres s1 Ht1 Hs). constructor; try done. zcase; lia.
  - pose proof (allocated_pos dev N S sbk V V' r Hal) as Hpos. destruct (Z.eqb_spec r 0); [lia|].
    pose proof (blk_slot V V' x r i Hf Hal Hi Hz) as Hblk. set (x' := set_iaddrs x _) in Hblk.
    rewrite arr_set_in_range by (rewrite (fo_len _ _ Hf); lia). rewrite bind_Ok. fold x'.
    assert (Hx1 : get_inode s1 ip = Ok x) by (unfold get_inode; rewrite (sy_itable _ _ _ _ Hs); done).
    call (put_inode_ok s1 ip x x' Hx1). eexists r, _. split; [done|].
    exists (addl r (addl (BBLOCK r sbk) L)), V', x'. split; [constructor|split; [|split; [|split]]].
    + destruct Ht1 as [T1 T2]. constructor; done.
    + apply (grown_intro V x V' V' x' r (slot i)); try done.
      unfold x'. cbn. by rewrite zlen_insert, (fo_len _ _ Hf).
    + cbn. by rewrite (sy_itable _ _ _ _ Hs).
    + cbn. by rewrite (sy_out _ _ _ _ Hs).
    + cbn. by rewrite (sy_com _ _ _ _ Hs).
    + apply addl2_sub.
    + pose proof (zlen_addl r (addl (BBLOCK r sbk) L)). pose proof (zlen_addl (BBLOCK r sbk) L).
      destruct (Z.eqb_spec i NDIRECT) as [->|Hne].
      * assert (Ei : iaddr x' NDIRECT = r) by (rewrite <- (blk_ind V'), Hblk by lia; by rewrite Z.eqb_refl).
        unfold ipot. rewrite Ei. rewrite decide_True by (rewrite elem_of_addl; auto).
        rewrite blk_ind in Hz. rewrite decide_False by (rewrite Hz; tauto). lia.
      * pose proof (ipot_mono x x' L (addl r (addl (BBLOCK r sbk) L))). rewrite <- (blk_ind V'), Hblk in H1 by lia.
        unfold slot in H1. destruct (Z.eqb_spec i NDIRECT); [done|]. destruct (Z.eqb_spec IND i); [lia|].
        specialize (H1 eq_refl (addl2_sub _ _ _)). lia.
    + rewrite Hblk by done. by rewrite Z.eqb_refl.
    + lia.
    + intros _. rewrite elem_of_addl. auto.
    + intros k Hk Hne. rewrite Hblk by done. by zcase.
Qed.

(** Block numbers after block [bn] is entered in the indirect block. *)
Lemma blk_wr V V1 x a bn :
  file_ok V x → allocated V V1 a → NDIRECT ≤ bn < IND → blk V x IND ≠ 0 → zlen (V (blk V x IND)) = BSIZE →
  ∀ k, 0 ≤ k ≤ IND →
    blk (<[blk V x IND := wr 4 (V (blk V x IND)) (4 * (bn - NDIRECT)) a]> V1) x k =
    if k =? bn then a else blk V x k.
Proof using LA LY.
  intros Hf Hal Hbn Hind Hlen k Hk. pose proof IND_val as (EI & EN & EM & EB).
  pose proof (allocated_pos dev N S sbk V V1 a Hal) as Ha. pose proof (ly_size N S sbk).
  destruct (Z.lt_ge_cases k NDIRECT) as [Hd|Hd].
  { rewrite !blk_direct by lia. zcase; [lia|done]. }
  destruct (Z.lt_ge_cases k IND) as [Hlt|].
  2:{ assert (k = IND) as -> by lia. rewrite !blk_ind. zcase; [lia|done]. }
  rewrite blk_ind in *. rewrite !blk_indirect by lia. destruct (Z.eqb_spec (iaddr x NDIRECT) 0); [done|].
  rewrite fn_lookup_insert. zcase.
  - subst. rewrite rd_wr by lia. apply Z.mod_small. lia.
  - apply rd_wr_ne; lia.
Qed.

(** Entering the new block [r] in the indirect block, which is held. *)
Lemma indirect_store s V V1 x L bp r bn :
  fstx s {[blk V x IND]} (addl r (addl (BBLOCK r sbk) L)) V1 → 1 ≤ outstanding (lg (fl s)) →
  zlen (addl r (addl (BBLOCK r sbk) L)) < N - 1 → holds dev s bp (blk V x IND) →
  file_ok V x → reserved V → allocated V V1 r → NDIRECT ≤ bn < IND → blk V x IND ≠ 0 → blk V x bn = 0 →
  zlen (V (blk V x IND)) = BSIZE →
  let k := blk V x IND in
  let d := wr 4 (V k) (4 * (bn - NDIRECT)) r in
  ∃ s1 s2 s3, fdata s bp = Ok (V k) ∧ fset_data s bp d = Ok s1 ∧ flog_write s1 bp = Ok s2 ∧
    fbrelse s2 bp = Ok s3 ∧ fstx s3 ∅ (addl k (addl r (addl (BBLOCK r sbk) L))) (<[k := d]> V1) ∧
    stays s s3 ∅ ∧ grown V x (<[k := d]> V1) x.
Proof using LA LY.
  intros Ht Ho Hroom Hp Hf Hres Hal Hbn Hind Hz Hlen k d. pose proof IND_val as (EI & EN & EM & EB).
  destruct (fo_data _ _ Hf IND ltac:(lia) Hind) as [Hdi Hui].
  assert (Hk1 : V1 k = V k).
  { apply Hal; [|intros Hb; by apply (bitmap_not_data sbk _ Hb)]. fold k in Hui. intros E.
    rewrite E, (al_free _ _ _ _ Hal) in Hui. done. }
  destruct (update_release dev N S sbk s {[k]} _ V1 bp k d Ht Ho) as (s1 & s2 & s3 & E1 & E2 & E3 & Ht3 & Hs3);
    [set_solver|done|by eapply data_writable|done|unfold d; rewrite zlen_wr; unfold k; lia|].
  rewrite difference_diag_L in *. exists s1, s2, s3.
  split; [rewrite <- Hk1; by eapply fdata_ok|]. do 5 (split; [done|]).
  apply (grown_intro V x V1 _ x r bn); try done; [lia|by rewrite set_iaddrs_same|apply Hf| |].
  - by apply blk_wr.
  - intros j Hj. by rewrite fn_lookup_insert_ne.
Qed.

Lemma indirect_new_ok s ip L V x bn :
  fstx s ∅ L V → 1 ≤ outstanding (lg (fl s)) → room ∅ L (ipot x L + 3) → reserved V →
  get_inode s ip = Ok x → file_ok V x → NDIRECT ≤ bn < IND → blk V x IND ≠ 0 → blk V x bn = 0 →
  ∃ v s',
    ('(bp, s3) ← fbread s (idev x) (blk V x IND);
     d ← fdata s3 bp;
     '(v', s4) ←
       (if rd 4 d (4 * (bn - NDIRECT)) =? 0 then
          '(v', s5) ← balloc s3 (idev x);
          if v' =? 0 then Ok (0, s5)
          else
            d' ← fdata s5 bp;
            s6 ← fset_data s5 bp (wr 4 d' (4 * (bn - NDIRECT)) v');
            s7 ← flog_write s6 bp;
            Ok (v', s7)
        else Ok (rd 4 d (4 * (bn - NDIRECT)), s3));
     s8 ← fbrelse s4 bp;
     Ok (v', s8)) = Ok (v, s') ∧
    ∃ L' V', grows s ip L V x 2 s' L' V' x ∧ v = blk V' x bn ∧ (v = 0 → full V') ∧ (v ≠ 0 → v ∈ L').
Proof using LA LY.
  intros Ht Ho Hr Hres Hx Hf Hbn Hind Hz. pose proof IND_val as (EI & EN & EM & EB).
  destruct (fo_data _ _ Hf IND ltac:(lia) Hind) as [Hdi Hui]. set (k := blk V x IND) in *.
  pose proof (ipot_range x L) as Hpot. rewrite (fo_dev _ _ Hf).
  destruct (fbread_ok dev N S sbk s ∅ L V k Ht) as (bp & s3 & E3 & Ht3 & Hp3 & Hd3 & Hs3).
  { set_solver. } { eapply room_le; [done|lia]. }
  call E3. call Hd3. rewrite union_empty_r_L in Ht3.
  assert (Erd : rd 4 (V k) (4 * (bn - NDIRECT)) = 0).
  { rewrite blk_indirect in Hz by lia. unfold k in *. rewrite blk_ind in *. by zcase. }
  rewrite Erd, Z.eqb_refl.
  destruct (balloc_ok dev N S sbk s3 {[k]} L V Ht3) as (r & s5 & E5 & Hs5 & Hpost).
  { by rewrite (sy_out _ _ _ _ Hs3). }
  { destruct Hr as [Hr1 Hr2]. unfold FsBlock.room. rewrite size_singleton. rewrite size_empty in Hr1. lia. }
  { done. } { by intros j ->%elem_of_singleton. }
  assert (Hst : stays s s5 ∅). { eapply stays_trans; [done|]. eapply stays_weaken; [|done]. set_solver. }
  assert (Hp5 : holds dev s5 bp k) by (apply Hs5; [set_solver|done]). call E5.
  destruct Hpost as [(-> & Ht5 & Hfull)|(V1 & Hal & _ & Ht5)].
  - destruct (fbrelse_ok dev N S sbk s5 {[k]} L V bp k Ht5) as (s8 & E8 & Ht8 & Hs8); [set_solver|done|].
    cbn [Z.eqb]. rewrite bind_Ok. call E8. rewrite difference_diag_L in *. exists 0, s8. split; [done|].
    exists L, V. split; [|done].
    destruct (file_grows_refl s ip L V x Ht Hx Hf Hres s8 Ht8) as []; [by eapply stays_trans|]. constructor; try done. lia.
  - pose proof (allocated_pos dev N S sbk V V1 r Hal) as Hpos. destruct (Z.eqb_spec r 0); [lia|].
    destruct (indirect_store s5 V V1 x L bp r bn Ht5) as (s6 & s7 & s8 & E5d & E6 & E7 & E8 & Ht8 & Hs8 & Hgr); try done.
    { by rewrite (sy_out _ _ _ _ Hst). }
    { pose proof (zlen_addl r (addl (BBLOCK r sbk) L)). pose proof (zlen_addl (BBLOCK r sbk) L). destruct Hr. lia. }
    { by eapply fstx_len. }
    call E5d. call E6. call E7. rewrite bind_Ok. call E8. exists r, s8. split; [done|].
    exists (addl k (addl r (addl (BBLOCK r sbk) L))), (<[k := wr 4 (V k) (4 * (bn - NDIRECT)) r]> V1).
    split; [|split; [|split; [lia|intros _; rewrite !elem_of_addl; auto]]].
    + apply get_inode_ok in Hx as [Hx0 Hx]. constructor; [done|exact Hgr| | | | |].
      * rewrite (sy_itable _ _ _ _ Hs8), (sy_itable _ _ _ _ Hst). by rewrite list_insert_id.
      * rewrite (sy_out _ _ _ _ Hs8). apply (sy_out _ _ _ _ Hst).
      * rewrite (sy_com _ _ _ _ Hs8). apply (sy_com _ _ _ _ Hst).
      * intros j Hj. rewrite !elem_of_addl. auto.
      * fold k. pose proof (zlen_addl r (addl (BBLOCK r sbk) L)). pose proof (zlen_addl (BBLOCK r sbk) L).
        pose proof (zlen_addl k (addl r (addl (BBLOCK r sbk) L))).
        unfold ipot. change (iaddr x NDIRECT) with k.
        rewrite decide_True by (rewrite elem_of_addl; auto). case_decide; [|lia].
        rewrite (addl_in k) by (rewrite !elem_of_addl; naive_solver). lia.
    + unfold k in *. rewrite (blk_wr V V1 x r bn) by (done || lia || by eapply fstx_len). by rewrite Z.eqb_refl.
Qed.

(** ** [bmap] *)

Lemma arr_get_iaddr V x i : file_ok V x → 0 ≤ i ≤ NDIRECT → arr_get (iaddrs x) i = Ok (iaddr x i).
Proof.
  intros Hf Hi. destruct (arr_get_in_range (iaddrs x) i) as (v & Hv & ->); [rewrite (fo_len _ _ Hf); lia|].
  unfold iaddr. by rewrite Hv.
Qed.

(** A block the file has is found without changing anything. *)
Lemma bmap_hit s ip L V x bn :
  fstx s ∅ L V → room ∅ L 0 → get_inode s ip = Ok x → file_ok V x → 0 ≤ bn < MAXFILE → blk V x bn ≠ 0 →
  ∃ s', bmap s ip bn = Ok (blk V x bn, s') ∧ fstx s' ∅ L V ∧ stays s s' ∅.
Proof using LA LY.
  intros Ht Hr Hx Hf Hbn Hn. pose proof IND_val as (EI & EN & EM & EB). unfold bmap. call Hx.
  destruct (Z.ltb_spec bn NDIRECT) as [Hd|Hd].
  - call (arr_get_iaddr V x bn Hf ltac:(lia)). rewrite blk_direct in * by lia.
    destruct (Z.eqb_spec (iaddr x bn) 0); [done|]. exists s. split; [done|]. split; [done|apply stays_refl].
  - destruct (Z.ltb_spec (bn - NDIRECT) NINDIRECT) as [_|]; [|unfold MAXFILE in *; lia].
    call (arr_get_iaddr V x NDIRECT Hf ltac:(lia)). rewrite blk_indirect in * by lia.
    destruct (Z.eqb_spec (iaddr x NDIRECT) 0) as [|Hni]; [done|]. rewrite bind_Ok. cbv beta iota.
    destruct (Z.eqb_spec (iaddr x NDIRECT) 0) as [|_]; [done|]. rewrite (fo_dev _ _ Hf).
    destruct (read_block dev N S sbk s ∅ L V (iaddr x NDIRECT) Ht) as (bp & s1 & s2 & E1 & Ed & E2 & Ht2 & Hs2 & _);
      [set_solver|done|].
    call E1. call Ed. destruct (Z.eqb_spec (rd 4 (V (iaddr x NDIRECT)) (4 * (bn - NDIRECT))) 0); [done|].
    rewrite bind_Ok. call E2. exists s2. done.
Qed.

(** The first half of the indirect case: there is an indirect block. *)
Lemma indirect_ok s ip L V x bn :
  fstx s ∅ L V → 1 ≤ outstanding (lg (fl s)) → room ∅ L 2 → reserved V → get_inode s ip = Ok x →
  file_ok V x → NDIRECT ≤ bn < MAXFILE → blk V x bn = 0 →
  ∃ a s',
    (if iaddr x NDIRECT =? 0 then
       '(a', s1) ← balloc s (idev x);
       if a' =? 0 then Ok (0, s1)
       else
         addrs' ← arr_set (iaddrs x) NDIRECT a';
         s2 ← put_inode s1 ip (set_iaddrs x addrs');
         Ok (a', s2)
     else Ok (iaddr x NDIRECT, s)) = Ok (a, s') ∧
    ∃ L' V' x', grows s ip L V x 0 s' L' V' x' ∧ a = blk V' x' IND ∧ blk V' x' bn = 0 ∧ (a = 0 → full V').
Proof using LA LY.
  intros Ht Ho Hr Hres Hx Hf Hbn Hz. pose proof IND_val as (EI & EN & EM & EB).
  destruct (Z.eqb_spec (iaddr x NDIRECT) 0) as [E|E].
  - destruct (alloc_slot_ok s ip L V x NDIRECT) as (a & s' & Ea & L' & V' & x' & Hg & Ha & Hfull & Hin & Hk); try done.
    exists a, s'. split; [done|]. exists L', V', x'. split; [done|]. split; [done|]. split; [|done].
    rewrite Hk; [done|lia|]. unfold slot. rewrite Z.eqb_refl. lia.
  - exists (iaddr x NDIRECT), s. split; [done|]. exists L, V, x.
    split; [apply file_grows_refl; try done; apply stays_refl|done].
Qed.

(** A block the file lacks is added, or the disk is full. *)
Lemma bmap_miss s ip L V x bn :
  fstx s ∅ L V → 1 ≤ outstanding (lg (fl s)) → room ∅ L (ipot x L + 3) → reserved V →
  get_inode s ip = Ok x → file_ok V x → 0 ≤ bn < MAXFILE → blk V x bn = 0 →
  ∃ a s' L' V' x', bmap s ip bn = Ok (a, s') ∧ grows s ip L V x 2 s' L' V' x' ∧
    a = blk V' x' bn ∧ (a = 0 → full V') ∧ (a ≠ 0 → a ∈ L').
Proof using LA LY.
  intros Ht Ho Hr Hres Hx Hf Hbn Hz. pose proof IND_val as (EI & EN & EM & EB). unfold bmap. call Hx.
  pose proof (ipot_range x L) as Hp0.
  destruct (Z.ltb_spec bn NDIRECT) as [Hd|Hd].
  - call (arr_get_iaddr V x bn Hf ltac:(lia)). rewrite <- (blk_direct V), Hz, Z.eqb_refl by done.
    destruct (alloc_slot_ok s ip L V x bn) as (a & s' & -> & L' & V' & x' & Hg & Ha & Hfull & Hin & _); try done;
      [eapply room_le; [done|lia]|lia| |]; [by unfold slot; destruct (Z.eqb_spec bn NDIRECT); [lia|]|].
    exists a, s', L', V', x'. unfold slot in Ha. destruct (Z.eqb_spec bn NDIRECT); [lia|]. done.
  - destruct (Z.ltb_spec (bn - NDIRECT) NINDIRECT) as [_|]; [|unfold MAXFILE in *; lia].
    call (arr_get_iaddr V x NDIRECT Hf ltac:(lia)).
    destruct (indirect_ok s ip L V x bn) as (a1 & s1 & -> & L1 & V1 & x1 & Hg1 & Ha1 & Hz1 & Hfull1); try done;
      [eapply room_le; [done|lia]|lia|].
    rewrite bind_Ok. cbv beta iota. destruct (Z.eqb_spec a1 0) as [E|E].
    { exists 0, s1, L1, V1, x1. split; [done|]. split; [|by split; [|split; [auto|]]].
      destruct Hg1. constructor; try done. lia. }
    pose proof (get_inode_insert s ip x _ Hx eq_refl s1 x1 (gw_itable _ _ _ _ _ _ _ _ _ _ Hg1)) as Hx1.
    pose proof (gw_grown _ _ _ _ _ _ _ _ _ _ Hg1) as Hgr. pose proof (gr_meta _ _ _ _ Hgr) as Hm.
    replace (idev x) with (idev x1) by (rewrite Hm; done). rewrite Ha1 in *.
    destruct (indirect_new_ok s1 ip L1 V1 x1 bn) as (v & s' & -> & L' & V' & Hg2 & Hv & Hfull & Hin); try done.
    { apply Hg1. } { by rewrite (gw_out _ _ _ _ _ _ _ _ _ _ Hg1). }
    { pose proof (gw_cost _ _ _ _ _ _ _ _ _ _ Hg1). unfold FsBlock.room in *. lia. }
    { apply Hgr. } { apply Hgr. } { lia. }
    exists v, s', L', V', x1. split; [done|]. split; [|done]. by apply (file_grows_trans s s1 s' ip L L1 L' V V1 V' x x1 x1 0 2).
Qed.

(** Both cases of [bmap]. *)
Lemma bmap_ok s ip L V x bn :
  fstx s ∅ L V → 1 ≤ outstanding (lg (fl s)) → room ∅ L (ipot x L + (if blk V x bn =? 0 then 3 else 0)) →
  reserved V → get_inode s ip = Ok x → file_ok V x → 0 ≤ bn < MAXFILE →
  ∃ a s' L' V' x', bmap s ip bn = Ok (a, s') ∧
    grows s ip L V x (if blk V x bn =? 0 then 2 else 0) s' L' V' x' ∧
    a = blk V' x' bn ∧ (a = 0 → full V') ∧ (blk V x bn = 0 → a ≠ 0 → a ∈ L').
Proof using LA LY.
  intros Ht Ho Hr Hres Hx Hf Hbn. destruct (Z.eqb_spec (blk V x bn) 0) as [E|E].
  - destruct (bmap_miss s ip L V x bn) as (a & s' & L' & V' & x' & H1 & H2 & H3 & H4 & H5); try done.
    exists a, s', L', V', x'. auto.
  - destruct (bmap_hit s ip L V x bn) as (s' & E1 & Ht1 & Hs1); try done.
    { eapply room_le; [done|]. unfold ipot. case_decide; lia. }
    exists (blk V x bn), s', L, V, x. split; [done|]. split; [by apply file_grows_refl|done].
Qed.
End fs_inode.
