(* ===== verification/FsDinode.v ===== *)
(** * Inodes on disk: [iupdate], [ilock] and the coding of [struct dinode].

    The 64 bytes of an inode in its block decode to the inode that was stored
    there, and storing one inode leaves the others of the block alone. *)

From Stdlib Require Import ZifyBool.
From S2P Require Import Prelude Bits Block Bio BioProof Log LogProof LogOps Fs FsBlock FsInode.

(** ** Fields *)

(** Lengths of blocks with fields written into them. *)
Ltac wlen := repeat rewrite zlen_wr by (wlen; lia).

Lemma i16_mod v : i16 (v mod 2 ^ 16) = i16 v.
Proof. unfold i16. by rewrite Zplus_mod_idemp_l. Qed.

Lemma i16_small v : - 2 ^ 15 ≤ v < 2 ^ 15 → i16 v = v.
Proof. intros. unfold i16. rewrite Z.mod_small; lia. Qed.

Lemma zlen_put_addrs a : ∀ d o, 0 ≤ o → o + 4 * zlen a ≤ zlen d → zlen (put_addrs d o a) = zlen d.
Proof.
  induction a as [|v a IH]; intros d o Ho Hd; cbn [put_addrs]; [done|].
  assert (zlen (v :: a) = zlen a + 1) by (unfold zlen; simpl; lia). assert (0 ≤ zlen a) by (unfold zlen; lia).
  rewrite IH; rewrite ?zlen_wr; lia.
Qed.

(** A field outside the block numbers. *)
Lemma rd_put_addrs_ne n a : ∀ d o p,
  0 ≤ o → o + 4 * zlen a ≤ zlen d → 0 ≤ p → p + Z.of_nat n ≤ o ∨ o + 4 * zlen a ≤ p →
  rd n (put_addrs d o a) p = rd n d p.
Proof.
  induction a as [|v a IH]; intros d o p Ho Hd Hp Hne; cbn [put_addrs]; [done|].
  assert (zlen (v :: a) = zlen a + 1) by (unfold zlen; simpl; lia). assert (0 ≤ zlen a) by (unfold zlen; lia).
  rewrite IH; rewrite ?zlen_wr; try lia. apply rd_wr_ne; lia.
Qed.

Lemma rd_put_addrs a : ∀ d o i v,
  0 ≤ o → o + 4 * zlen a ≤ zlen d → a !! i = Some v →
  rd 4 (put_addrs d o a) (o + 4 * Z.of_nat i) = v mod 2 ^ 32.
Proof.
  induction a as [|u a IH]; intros d o i v Ho Hd Hi; cbn [put_addrs]; [done|].
  assert (zlen (u :: a) = zlen a + 1) by (unfold zlen; simpl; lia). assert (0 ≤ zlen a) by (unfold zlen; lia).
  destruct i as [|i]; simpl in Hi.
  - simplify_eq. rewrite rd_put_addrs_ne; rewrite ?zlen_wr; try lia.
    rewrite Z.mul_0_r, Z.add_0_r. apply rd_wr; lia.
  - replace (o + 4 * Z.of_nat (Datatypes.S i)) with (o + 4 + 4 * Z.of_nat i) by lia.
    apply IH; rewrite ?zlen_wr; try lia; done.
Qed.

Lemma dioff_range i : 0 ≤ dioff i ∧ dioff i + 64 ≤ BSIZE.
Proof. unfold dioff. pose proof (Z.mod_pos_bound i IPB ltac:(done)). change IPB with 16 in *. change BSIZE with 1024. lia. Qed.

Lemma zlen_put_dinode d x : zlen d = BSIZE → zlen (iaddrs x) = NDIRECT + 1 → zlen (put_dinode d x) = BSIZE.
Proof.
  intros Hd Hl. pose proof (dioff_range (inum x)). change (NDIRECT + 1) with 13 in Hl. unfold put_dinode.
  rewrite zlen_put_addrs by (wlen; lia). wlen. done.
Qed.

(** ** Coding *)

(** The fields of an inode fit their width on disk. *)
Record inode_fits (x : inode) : Prop := {
  if_type : - 2 ^ 15 ≤ itype x < 2 ^ 15;
  if_major : - 2 ^ 15 ≤ imajor x < 2 ^ 15;
  if_minor : - 2 ^ 15 ≤ iminor x < 2 ^ 15;
  if_nlink : - 2 ^ 15 ≤ inlink x < 2 ^ 15;
  if_size : 0 ≤ isize x < 2 ^ 32;
  if_addrs : Forall (λ a, 0 ≤ a < 2 ^ 32) (iaddrs x);
  if_len : zlen (iaddrs x) = NDIRECT + 1;
}.

Ltac field := rewrite ?rd_put_addrs_ne, ?rd_wr_ne by (wlen; lia).

Lemma load_put_dinode d x :
  zlen d = BSIZE → inode_fits x → load_dinode (put_dinode d x) x = set_ivalid x true.
Proof.
  intros Hd [F1 F2 F3 F4 F5 F6 F7]. pose proof (dioff_range (inum x)) as Ho. change (NDIRECT + 1) with 13 in F7.
  unfold load_dinode, put_dinode, di_addrs, set_ivalid. set (o := dioff (inum x)) in *. f_equal.
  - do 5 field. rewrite rd_wr, i16_mod by (wlen; lia). by apply i16_small.
  - do 4 field. rewrite rd_wr, i16_mod by (wlen; lia). by apply i16_small.
  - do 3 field. rewrite rd_wr, i16_mod by (wlen; lia). by apply i16_small.
  - do 2 field. rewrite rd_wr, i16_mod by (wlen; lia). by apply i16_small.
  - field. rewrite rd_wr by (wlen; lia). by apply Z.mod_small.
  - apply list_eq. intros i. rewrite list_lookup_fmap. unfold zlen in F7.
    destruct (decide (i < 13)%nat) as [Hi|Hi].
    + rewrite lookup_seq_lt by done. simpl.
      destruct (lookup_lt_is_Some_2 (iaddrs x) i) as [v Hv]; [lia|]. rewrite Hv.
      rewrite (rd_put_addrs (iaddrs x) _ (o + 12) i v) by (wlen; unfold zlen in *; lia || done).
      rewrite Forall_lookup in F6. f_equal. apply Z.mod_small. by eapply F6.
    + rewrite !lookup_ge_None_2; [done|lia|rewrite length_seq; lia].
Qed.

(** Fields outside the 64 bytes of the inode. *)
Lemma rd_put_dinode_ne n d x p :
  zlen d = BSIZE → zlen (iaddrs x) = NDIRECT + 1 → 0 ≤ p →
  p + Z.of_nat n ≤ dioff (inum x) ∨ dioff (inum x) + 64 ≤ p → rd n (put_dinode d x) p = rd n d p.
Proof.
  intros Hd Hl Hp Hne. pose proof (dioff_range (inum x)). change (NDIRECT + 1) with 13 in Hl. unfold put_dinode.
  do 6 field. done.
Qed.

Lemma load_put_other d x y :
  zlen d = BSIZE → zlen (iaddrs x) = NDIRECT + 1 → 0 ≤ inum x → 0 ≤ inum y →
  inum x / IPB = inum y / IPB → inum x ≠ inum y → load_dinode (put_dinode d x) y = load_dinode d y.
Proof.
  intros Hd Hl Hx Hy E Hne. pose proof (dioff_range (inum y)) as Ho.
  assert (Hoff : dioff (inum y) + 64 ≤ dioff (inum x) ∨ dioff (inum x) + 64 ≤ dioff (inum y)).
  { unfold dioff. pose proof (Z.div_mod (inum x) IPB ltac:(done)). pose proof (Z.div_mod (inum y) IPB ltac:(done)). lia. }
  unfold load_dinode, di_addrs. f_equal; try (f_equal; apply rd_put_dinode_ne; done || lia);
    try (apply rd_put_dinode_ne; done || lia).
  apply list_fmap_ext. intros i j [-> Hj]%lookup_seq. apply rd_put_dinode_ne; done || lia.
Qed.

Section fs_dinode.
Context (dev N S : Z) {LA : LogArea dev N S} (sbk : superblock) {LY : Layout N S sbk}.
Implicit Types (s : fs) (L : list Z) (V : Z → list Z) (x y : inode).

Local Notation fstx := (fstx dev N S sbk).
Local Notation stays := (stays dev).
Local Notation room := (room N).

(** The blocks that hold inodes. *)
Definition is_iblock (k : Z) : Prop := sb_inodestart sbk ≤ k < sb_bmapstart sbk.

Lemma iblock_eq i : 0 ≤ i < sb_ninodes sbk → IBLOCK i sbk = i / IPB + sb_inodestart sbk.
Proof using LA LY.
  intros Hi. unfold IBLOCK. pose proof (datastart_low dev N S sbk). destruct LY as [[L1 L2] L3 L4 L5 L6].
  pose proof (Z.div_le_mono i (sb_ninodes sbk) IPB ltac:(done) ltac:(lia)).
  pose proof (Z.div_pos i IPB ltac:(lia) ltac:(done)). apply u32_small. lia.
Qed.

Lemma iblock_range i : 0 ≤ i < sb_ninodes sbk → is_iblock (IBLOCK i sbk).
Proof using LA LY.
  intros Hi. rewrite iblock_eq by done. pose proof (ly_inodes N S sbk).
  pose proof (Z.div_le_mono i (sb_ninodes sbk) IPB ltac:(done) ltac:(lia)).
  pose proof (Z.div_pos i IPB ltac:(lia) ltac:(done)). unfold is_iblock. lia.
Qed.

Lemma iblock_meta k : is_iblock k → writable N S k ∧ ¬ is_bitmap sbk k ∧ ¬ is_data sbk k.
Proof using LA LY.
  intros Hk. pose proof (datastart_low dev N S sbk). pose proof (ly_data N S sbk).
  unfold is_iblock, FsBlock.is_bitmap, FsBlock.is_data in *. split; [apply (meta_writable dev N S sbk); lia|lia].
Qed.

Lemma iupdate_ok s ip L V x :
  fstx s ∅ L V → 1 ≤ outstanding (lg (fl s)) → room ∅ L 1 → get_inode s ip = Ok x → idev x = dev →
  0 ≤ inum x < sb_ninodes sbk → zlen (iaddrs x) = NDIRECT + 1 →
  let k := IBLOCK (inum x) sbk in
  ∃ s', iupdate s ip = Ok s' ∧ fstx s' ∅ (addl k L) (<[k := put_dinode (V k) x]> V) ∧ stays s s' ∅.
Proof using LA LY.
  intros Ht Ho Hr Hx Hd Hi Hl k. destruct (iblock_meta k (iblock_range _ Hi)) as [Hw _].
  destruct (write_block dev N S sbk s ∅ L V k (put_dinode (V k) x) Ht Ho) as (bp & s1 & s2 & s3 & s4 & E1 & E1d & E2 & E3 & E4 & Ht4 & Hs4 & _);
    [set_solver|done|done|apply zlen_put_dinode; [by eapply fstx_len|done]|].
  exists s4. unfold iupdate. call Hx. rewrite Hd, (ft_sb _ _ _ _ _ _ _ _ Ht). fold k.
  call E1. call E1d. call E2. call E3. done.
Qed.
End fs_dinode.
