(* ===== verification/FsFile.v ===== *)
(** * The contents of a file: [readi], [writei] and [iupdate] of
    [kernel/file/fs.c].

    A file is the sequence of its bytes: [fbyte V x o] is the byte at offset [o]
    of inode [x] on the blocks [V]. Where the bytes read go to, and where the
    bytes written come from, is any memory that satisfies the classes [Sink] and
    [Source]: user memory, kernel memory or a structure on the stack. *)

From Stdlib Require Import ZifyBool.
From S2P Require Import Prelude Bits Block Bio BioProof Log LogProof LogOps Fs FsBlock FsInode FsDinode.

(** ** Destinations and sources *)

(** [takes m dst n]: [n] bytes satisfying [P] can be stored at [dst]; [stored m
    dst bs m']: [m'] is [m] with [bs] stored there. *)
Class Sink {M : Type} (put : M → Z → list Z → outcome (Z * M)) (P : Z → Prop)
    (takes : M → Z → Z → Prop) (stored : M → Z → list Z → M → Prop) : Prop := {
  sk_put : ∀ m dst bs, takes m dst (zlen bs) → Forall P bs →
    ∃ r m', put m dst bs = Ok (r, m') ∧ r ≠ -1 ∧ stored m dst bs m';
  sk_nil : ∀ m dst, takes m dst 0 → stored m dst [] m;
  sk_app : ∀ m dst a m1 b m2, stored m dst a m1 → stored m1 (u64 (dst + zlen a)) b m2 →
    stored m dst (a ++ b) m2;
  sk_less : ∀ m dst i j, 0 ≤ i → 0 ≤ j → takes m dst (i + j) → takes m dst i;
  sk_next : ∀ m dst a m1 j, 0 ≤ j → takes m dst (zlen a + j) → stored m dst a m1 →
    takes m1 (u64 (dst + zlen a)) j;
}.

(** [gives m src bs]: the bytes at [src] are [bs]. *)
Class Source {M : Type} (get : M → Z → Z → outcome (Z * list Z)) (gives : M → Z → list Z → Prop) : Prop := {
  sr_get : ∀ m src a b, gives m src (a ++ b) → ∃ r, get m src (zlen a) = Ok (r, a) ∧ r ≠ -1;
  sr_next : ∀ m src a b, gives m src (a ++ b) → gives m (u64 (src + zlen a)) b;
}.

(** *** A structure on the kernel stack *)

Definition local_takes (m : list Z) (dst n : Z) : Prop := 0 ≤ dst ∧ dst + n ≤ zlen m < 2 ^ 64.
Definition local_stored (m : list Z) (dst : Z) (bs m' : list Z) : Prop :=
  0 ≤ dst ∧ dst + zlen bs ≤ zlen m < 2 ^ 64 ∧ m' = splice dst bs m.
Definition local_gives (m : list Z) (src : Z) (bs : list Z) : Prop :=
  0 ≤ src ∧ src + zlen bs ≤ zlen m < 2 ^ 64 ∧ slice src (zlen bs) m = bs.

Lemma zlen_nonneg {A} (l : list A) : 0 ≤ zlen l.
Proof. unfold zlen. lia. Qed.

Lemma zlen_app {A} (a b : list A) : zlen (a ++ b) = zlen a + zlen b.
Proof. unfold zlen. rewrite length_app. lia. Qed.

Lemma splice_splice o a b l :
  0 ≤ o → o + zlen a + zlen b ≤ zlen l → splice (o + zlen a) b (splice o a l) = splice o (a ++ b) l.
Proof.
  intros Ho Hl. unfold splice, zlen in *. rewrite length_app, <- app_assoc.
  assert (Et : length (take (Z.to_nat o) l) = Z.to_nat o) by (rewrite length_take; lia).
  rewrite (app_assoc (take (Z.to_nat o) l) a), take_app_length' by (rewrite length_app; lia).
  rewrite <- app_assoc. do 3 f_equal.
  rewrite drop_app_ge by (rewrite length_app; lia). rewrite drop_drop. f_equal. rewrite length_app. lia.
Qed.

#[global] Instance local_sink : Sink local_put (λ _, True) local_takes local_stored.
Proof.
  constructor; unfold local_takes, local_stored, local_put.
  - intros m dst bs [H0 Hl] _. exists 0, (splice dst bs m). done.
  - intros m dst [H0 Hl]. change (zlen (@nil Z)) with 0. split; [done|]. split; [lia|].
    unfold splice. simpl. rewrite Nat.add_0_r. by rewrite take_drop.
  - intros m dst a m1 b m2 (H0 & Hl & ->) (H0' & Hl' & ->). pose proof (zlen_nonneg a). pose proof (zlen_nonneg b).
    rewrite u64_small in * by lia. rewrite zlen_splice in Hl' by lia. rewrite zlen_app. split; [done|]. split; [lia|].
    apply splice_splice; lia.
  - intros m dst i j Hi Hj [H0 Hl]. lia.
  - intros m dst a m1 j Hj [H0 Hl] (_ & _ & ->). pose proof (zlen_nonneg a).
    rewrite u64_small by lia. rewrite zlen_splice by lia. lia.
Qed.

#[global] Instance local_source : Source local_get local_gives.
Proof.
  constructor; unfold local_gives, local_get; intros m src a b (H0 & Hl & E);
    pose proof (zlen_nonneg a); pose proof (zlen_nonneg b); rewrite zlen_app in *.
  - exists 0. split; [|done]. do 2 f_equal. apply (f_equal (take (length a))) in E.
    rewrite take_app_length in E. etrans; [|exact E]. unfold slice, zlen in *. rewrite take_take. f_equal. lia.
  - rewrite u64_small by lia. split; [lia|]. split; [lia|]. apply (f_equal (drop (length a))) in E.
    rewrite drop_app_length in E. etrans; [|exact E]. unfold slice, zlen in *.
    rewrite skipn_firstn_comm, drop_drop. f_equal; [lia|]. f_equal. lia.
Qed.

(** ** Bytes of a file *)

Definition fbyte (V : Z → list Z) (x : inode) (o : Z) : Z :=
  default 0 (V (blk V x (o / BSIZE)) !! Z.to_nat (o mod BSIZE)).

Definition fbytes (V : Z → list Z) (x : inode) (off n : Z) : list Z :=
  (λ j, fbyte V x (off + Z.of_nat j)) <$> seq 0 (Z.to_nat n).

Lemma zlen_fbytes V x off n : 0 ≤ n → zlen (fbytes V x off n) = n.
Proof. intros. unfold zlen, fbytes. rewrite length_fmap, length_seq. lia. Qed.

Lemma fbytes_app V x off a b :
  0 ≤ a → 0 ≤ b → fbytes V x off (a + b) = fbytes V x off a ++ fbytes V x (off + a) b.
Proof.
  intros. unfold fbytes. rewrite Z2Nat.inj_add, seq_app, fmap_app by lia. f_equal.
  rewrite Nat.add_0_l, <- (Nat.add_0_r (Z.to_nat a)), <- fmap_add_seq, <- list_fmap_compose.
  apply list_fmap_ext. intros i j _. simpl. f_equal. lia.
Qed.

Lemma offset_add off i :
  0 ≤ off → 0 ≤ i < BSIZE - off mod BSIZE →
  (off + i) / BSIZE = off / BSIZE ∧ (off + i) mod BSIZE = off mod BSIZE + i.
Proof.
  intros H0 Hi. pose proof (Z.mod_pos_bound off BSIZE ltac:(done)). pose proof (Z.div_mod off BSIZE ltac:(done)) as E.
  replace (off + i) with (off mod BSIZE + i + off / BSIZE * BSIZE) by lia.
  rewrite Z.div_add, Z_mod_plus_full, Z.div_small, Z.mod_small by lia. lia.
Qed.

(** The part of a block a loop turn works on is a run of bytes of the file. *)
Lemma slice_fbytes V x off k :
  0 ≤ off → 0 ≤ k ≤ BSIZE - off mod BSIZE → zlen (V (blk V x (off / BSIZE))) = BSIZE →
  slice (off mod BSIZE) k (V (blk V x (off / BSIZE))) = fbytes V x off k.
Proof.
  intros H0 Hk Hlen. pose proof (Z.mod_pos_bound off BSIZE ltac:(done)) as Hm. apply list_eq. intros i.
  unfold slice, fbytes. destruct (decide (i < Z.to_nat k)%nat) as [Hi|Hi].
  - rewrite lookup_take_lt, lookup_drop by done.
    rewrite list_lookup_fmap, lookup_seq_lt by done. simpl.
    destruct (offset_add off (Z.of_nat i) H0) as [Ed Em]; [lia|]. unfold fbyte. rewrite Ed, Em.
    replace (Z.to_nat (off mod BSIZE + Z.of_nat i)) with (Z.to_nat (off mod BSIZE) + i)%nat by lia.
    destruct (lookup_lt_is_Some_2 (V (blk V x (off / BSIZE))) (Z.to_nat (off mod BSIZE) + i)%nat) as [v ->];
      [unfold zlen in Hlen; lia|done].
  - rewrite !lookup_ge_None_2; [done|..]; rewrite ?length_fmap, ?length_seq, ?length_take; lia.
Qed.

Section fs_file.
Context (dev N S : Z) {LA : LogArea dev N S} (sbk : superblock) {LY : Layout N S sbk}.
Implicit Types (s : fs) (L : list Z) (V : Z → list Z) (x y : inode).

Local Notation used := (used sbk).
Local Notation is_data := (is_data sbk).
Local Notation is_bitmap := (is_bitmap sbk).
Local Notation reserved := (reserved sbk).
Local Notation fstx := (fstx dev N S sbk).
Local Notation stays := (stays dev).
Local Notation room := (room N).
Local Notation file_ok := (file_ok dev sbk).
Local Notation grown := (grown dev sbk).
Local Notation grows := (grows dev N S sbk).
Local Notation full := (full sbk).

(** ** Reading *)

Section read.
Context {M : Type} (put : M → Z → list Z → outcome (Z * M)) (P : Z → Prop) (takes : M → Z → Z → Prop)
  (stored : M → Z → list Z → M → Prop) {SK : Sink put P takes stored}.

(** Turns needed for [rem] more bytes at [off]. *)
Definition turns (off rem : Z) : Z := if rem =? 0 then 1 else (off mod BSIZE + rem) / BSIZE + 2.

Lemma turns_next off rem k :
  0 ≤ off → 0 < rem → k = Z.min rem (BSIZE - off mod BSIZE) →
  0 < k ≤ rem ∧ turns (off + k) (rem - k) + 1 ≤ turns off rem.
Proof.
  intros H0 Hr Hk. pose proof (Z.mod_pos_bound off BSIZE ltac:(done)) as Hm. split; [lia|].
  unfold turns. destruct (Z.eqb_spec rem 0); [lia|]. destruct (Z.eqb_spec (rem - k) 0) as [|Hn].
  - pose proof (Z.div_pos (off mod BSIZE + rem) BSIZE ltac:(lia) ltac:(done)). lia.
  - assert (k = BSIZE - off mod BSIZE) as E by lia. pose proof (Z.div_mod off BSIZE ltac:(done)) as Ed.
    assert (Emod : (off + k) mod BSIZE = 0).
    { replace (off + k) with ((off / BSIZE + 1) * BSIZE) by lia. by apply Z.mod_mul. }
    rewrite Emod. replace (off mod BSIZE + rem) with ((0 + (rem - k)) + 1 * BSIZE) by lia.
    rewrite Z.div_add by done. lia.
Qed.

Lemma turns_fuel off n : 0 ≤ off → 0 ≤ n → turns off (n - 0) ≤ Z.of_nat (block_fuel n).
Proof.
  intros Hoff Hn. unfold turns, block_fuel. pose proof (Z.mod_pos_bound off BSIZE ltac:(done)). rewrite Z.sub_0_r.
  pose proof (Z.div_pos n BSIZE ltac:(lia) ltac:(done)). destruct (Z.eqb_spec n 0); [lia|].
  pose proof (Z.div_le_mono (off mod BSIZE + n) (n + 1 * BSIZE) BSIZE ltac:(done) ltac:(lia)) as Hd.
  rewrite Z.div_add in Hd by done. lia.
Qed.

Lemma readi_loop_ok fuel s m ip L V x dst off tot n :
  fstx s ∅ L V → room ∅ L 0 → get_inode s ip = Ok x → file_ok V x →
  0 ≤ off → 0 ≤ tot ≤ n → n < 2 ^ 32 → off + (n - tot) ≤ isize x → takes m dst (n - tot) →
  Forall P (fbytes V x off (n - tot)) → turns off (n - tot) ≤ Z.of_nat fuel →
  ∃ s' m', readi_loop put fuel s m ip dst off tot n = Ok (n, s', m') ∧ fstx s' ∅ L V ∧ stays s s' ∅ ∧
    stored m dst (fbytes V x off (n - tot)) m'.
Proof using LA LY SK.
  revert s m dst off tot.
  induction fuel as [|fuel IH]; intros s m dst off tot Ht Hr Hx Hf Hoff Htot Hn32 Hsz Htk HP Hfuel.
  { unfold turns in Hfuel. pose proof (Z.mod_pos_bound off BSIZE ltac:(done)).
    destruct (Z.eqb_spec (n - tot) 0); [lia|]. pose proof (Z.div_pos (off mod BSIZE + (n - tot)) BSIZE ltac:(lia) ltac:(done)). lia. }
  pose proof IND_val as (EI & EN & EM & EB). cbn [readi_loop].
  pose proof (fo_size _ _ _ _ Hf) as Hfs. rewrite EM, EB in Hfs. destruct (Z.ltb_spec tot n) as [Hlt|Hge].
  2:{ assert (tot = n) as -> by lia. exists s, m. rewrite Z.sub_diag in *. split; [done|]. split; [done|].
      split; [apply stays_refl|]. by apply sk_nil. }
  pose proof (Z.div_mod off BSIZE ltac:(done)) as Ediv. pose proof (Z.mod_pos_bound off BSIZE ltac:(done)) as Hm.
  assert (Hbn : 0 ≤ off / BSIZE < MAXFILE).
  { split; [by apply Z.div_pos|]. apply Z.div_lt_upper_bound; [done|]. rewrite EM, EB. lia. }
  assert (Hblk : blk V x (off / BSIZE) ≠ 0) by (apply (fo_full _ _ _ _ Hf); lia).
  destruct (bmap_hit dev N S sbk s ip L V x (off / BSIZE)) as (s1 & E1 & Ht1 & Hs1); try done.
  call E1. destruct (Z.eqb_spec (blk V x (off / BSIZE)) 0); [done|].
  assert (Hx1 : get_inode s1 ip = Ok x) by (unfold get_inode; rewrite (sy_itable _ _ _ _ Hs1); done). call Hx1.
  rewrite (fo_dev _ _ _ _ Hf).
  destruct (read_block dev N S sbk s1 ∅ L V (blk V x (off / BSIZE)) Ht1) as (bp & s2 & s3 & E2 & Ed & E3 & Ht3 & Hs3 & _);
    [set_solver|done|].
  call E2. call Ed. rewrite (u32_small (n - tot)) by lia.
  set (k := Z.min (n - tot) (BSIZE - off mod BSIZE)).
  destruct (turns_next off (n - tot) k Hoff ltac:(lia) eq_refl) as [Hk Htn].
  rewrite (slice_fbytes V x off k) by (try (by eapply fstx_len); lia).
  assert (Hlen : zlen (fbytes V x off k) = k) by (apply zlen_fbytes; lia).
  replace (n - tot) with (k + (n - (tot + k))) in HP, Htk |- * by lia. rewrite fbytes_app in * by lia.
  apply Forall_app in HP as [HP1 HP2].
  destruct (sk_put m dst (fbytes V x off k)) as (r & m1 & Ep & Hr1 & Hst); [|done|].
  { rewrite Hlen. by apply (sk_less m dst k (n - (tot + k))); [lia..|]. }
  call Ep. call E3. destruct (Z.eqb_spec r (-1)); [done|].
  rewrite (u32_small (off + k)), (u32_small (tot + k)) by lia.
  assert (Htk1 : takes m1 (u64 (dst + k)) (n - (tot + k))).
  { rewrite <- Hlen at 1. apply (sk_next m dst (fbytes V x off k)); [lia|by rewrite Hlen|done]. }
  destruct (IH s3 m1 (u64 (dst + k)) (off + k) (tot + k)) as (s' & m' & E' & Ht' & Hs' & Hst'); try done; try lia.
  { unfold get_inode. by rewrite (sy_itable _ _ _ _ Hs3). }
  { replace (n - (tot + k)) with (n - tot - k) by lia. lia. }
  exists s', m'. split; [done|]. split; [done|]. split; [by eapply stays_trans; [eapply stays_trans|]|].
  eapply sk_app; [done|]. by rewrite Hlen.
Qed.

(** The number of bytes a read of [n] bytes at [off] gives. *)
Definition read_len x (off n : Z) : Z :=
  if (isize x <? off) || (2 ^ 32 <=? off + n) then 0 else Z.min n (isize x - off).

Lemma read_len_range V x off n :
  file_ok V x → 0 ≤ off < 2 ^ 32 → 0 ≤ n → 0 ≤ read_len x off n ≤ n ∧ off + read_len x off n < 2 ^ 32.
Proof.
  intros Hf Hoff Hn. pose proof (fo_size _ _ _ _ Hf) as Hs. destruct IND_val as (_ & _ & EM & EB). rewrite EM, EB in Hs.
  unfold read_len. destruct ((isize x <? off) || (2 ^ 32 <=? off + n)) eqn:E; lia.
Qed.

Lemma readi_ok s m ip L V x dst off n :
  fstx s ∅ L V → room ∅ L 0 → get_inode s ip = Ok x → file_ok V x →
  0 ≤ off < 2 ^ 32 → 0 ≤ n < 2 ^ 32 → takes m dst (read_len x off n) →
  Forall P (fbytes V x off (read_len x off n)) →
  ∃ s' m', readi put s m ip dst off n = Ok (read_len x off n, s', m') ∧ fstx s' ∅ L V ∧ stays s s' ∅ ∧
    stored m dst (fbytes V x off (read_len x off n)) m'.
Proof using LA LY SK.
  intros Ht Hr Hx Hf Hoff Hn Htk HP. pose proof IND_val as (EI & EN & EM & EB).
  pose proof (fo_size _ _ _ _ Hf) as Hfs. rewrite EM, EB in Hfs. unfold readi, read_len in *. call Hx.
  assert (Eov : (u32 (off + n) <? off) = (2 ^ 32 <=? off + n)).
  { unfold u32. destruct (Z.leb_spec (2 ^ 32) (off + n)).
    - rewrite <- (Z_mod_plus_full _ (-1)), Z.mod_small by lia. lia.
    - rewrite Z.mod_small by lia. lia. }
  rewrite Eov. destruct ((isize x <? off) || (2 ^ 32 <=? off + n)) eqn:E.
  { exists s, m. split; [done|]. split; [done|]. split; [apply stays_refl|]. by apply sk_nil. }
  rewrite (u32_small (off + n)), (u32_small (isize x - off)) by lia.
  replace (if isize x <? off + n then isize x - off else n) with (Z.min n (isize x - off))
    by (destruct (Z.ltb_spec (isize x) (off + n)); lia).
  set (r := Z.min n (isize x - off)) in *. replace r with (r - 0) in Htk, HP by lia.
  destruct (readi_loop_ok (block_fuel r) s m ip L V x dst off 0 r) as (s' & m' & E' & Ht' & Hs' & Hst'); try done; try lia.
  { apply turns_fuel; lia. }
  call E'. exists s', m'. rewrite i32_small by lia. rewrite Z.sub_0_r in Hst'. done.
Qed.
End read.

(** ** What a write may change *)

(** The bytes [bs] were written at [off]: the file has them there, keeps its
    other bytes, and may have gained blocks that were free; no block of another
    file, and no inode, changed. *)
Record wrote V x (off : Z) (bs : list Z) V' x' : Prop := {
  wo_range : 0 ≤ off ∧ off + zlen bs ≤ MAXFILE * BSIZE;
  wo_file : file_ok V' x';
  wo_res : reserved V';
  wo_meta : x' = set_iaddrs x (iaddrs x');
  wo_bytes : ∀ o, 0 ≤ o < MAXFILE * BSIZE → blk V x (o / BSIZE) ≠ 0 ∨ off ≤ o < off + zlen bs →
    fbyte V' x' o = if decide (off ≤ o < off + zlen bs) then default 0 (bs !! Z.to_nat (o - off)) else fbyte V x o;
  wo_cover : ∀ o, off ≤ o < off + zlen bs → blk V' x' (o / BSIZE) ≠ 0;
  wo_old : ∀ i, 0 ≤ i ≤ IND → blk V x i ≠ 0 → blk V' x' i = blk V x i;
  wo_new : ∀ i, 0 ≤ i ≤ IND → blk V x i = 0 → blk V' x' i ≠ 0 → used V (blk V' x' i) = false;
  wo_used : ∀ b, 0 ≤ b < sb_size sbk → used V b = true → used V' b = true;
  wo_frame : ∀ k, ¬ is_bitmap k → (is_data k → used V k = true ∧ ∀ i, 0 ≤ i ≤ IND → blk V x i ≠ k) → V' k = V k;
}.

Lemma offset_block o : 0 ≤ o < MAXFILE * BSIZE → 0 ≤ o / BSIZE < IND.
Proof.
  intros Ho. split; [apply Z.div_pos; [lia|done]|]. apply Z.div_lt_upper_bound; [done|].
  pose proof IND_val as (-> & _ & EM & EB). rewrite EM, EB in Ho. rewrite EB. lia.
Qed.

Lemma wrote_grown V x off V' x' :
  0 ≤ off ≤ MAXFILE * BSIZE → grown V x V' x' → wrote V x off [] V' x'.
Proof.
  intros Hoff [G1 G2 G3 G4 G5 G6 G7 G8]. pose proof IND_val as (EI & EN & EM & EB).
  constructor; change (zlen (@nil Z)) with 0; try done; [lia| |lia| |].
  - intros o Ho [Hn|]; [|lia]. rewrite decide_False by lia. pose proof (offset_block o Ho).
    destruct (G4 (o / BSIZE) ltac:(lia) Hn) as [Eb Ev]. unfold fbyte. rewrite Eb, Ev by lia. done.
  - intros i' Hi Hn. by apply G4.
  - intros k Hk Hd. apply G8; [done|]. intros Hdk. destruct (Hd Hdk) as [Hu Hi]. split; [done|].
    intros ->. apply (Hi IND); [lia|done].
Qed.

Lemma file_wrote_trans V x off a V1 x1 b V2 x2 :
  wrote V x off a V1 x1 → wrote V1 x1 (off + zlen a) b V2 x2 → wrote V x off (a ++ b) V2 x2.
Proof using LA LY.
  intros [[A0 A0'] A1 A2 A3 A4 A5 A6 A7 A8 A9] [[B0 B0'] B1 B2 B3 B4 B5 B6 B7 B8 B9].
  assert (El : zlen (a ++ b) = zlen a + zlen b) by (unfold zlen; rewrite length_app; lia).
  assert (Hpos : 0 ≤ zlen a ∧ 0 ≤ zlen b) by (unfold zlen; lia).
  constructor; try done.
  - rewrite El. lia.
  - rewrite B3, A3. done.
  - intros o Ho Hor. rewrite El in *. pose proof (offset_block o Ho) as Hi.
    assert (Hlk : off + zlen a ≤ o → (a ++ b) !! Z.to_nat (o - off) = b !! Z.to_nat (o - (off + zlen a))).
    { intros. rewrite lookup_app_r by (unfold zlen in *; lia). f_equal. unfold zlen in *. lia. }
    assert (Hlk' : off ≤ o < off + zlen a → (a ++ b) !! Z.to_nat (o - off) = a !! Z.to_nat (o - off)).
    { intros. apply lookup_app_l. unfold zlen in *. lia. }
    destruct (decide (off + zlen a ≤ o < off + zlen a + zlen b)) as [Hb|Hb].
    + rewrite B4 by auto. rewrite decide_True, decide_True by lia. rewrite Hlk by lia. done.
    + assert (Hn1 : blk V1 x1 (o / BSIZE) ≠ 0).
      { destruct Hor as [Hn|]; [rewrite A6; [done|lia|done]|apply A5; lia]. }
      rewrite B4 by auto. rewrite decide_False by lia.
      destruct (decide (off ≤ o < off + zlen a)) as [Ha|Ha].
      * rewrite A4 by auto. rewrite decide_True, decide_True by lia. rewrite Hlk' by done. done.
      * destruct Hor as [Hn|]; [|lia]. rewrite A4 by auto. rewrite decide_False, decide_False by lia. done.
  - intros o Ho. rewrite El in Ho. destruct (Z.lt_ge_cases o (off + zlen a)) as [Hlt|Hge]; [|apply B5; lia].
    assert (Hn := A5 o ltac:(lia)). pose proof (offset_block o ltac:(lia)). rewrite B6; [done|lia|done].
  - intros i Hi Hn. rewrite B6, A6; [done|done|done|done|]. by rewrite A6.
  - intros i Hi Hz Hn. destruct (decide (blk V1 x1 i = 0)) as [E|E].
    + destruct (used V (blk V2 x2 i)) eqn:Eu; [|done].
      destruct (fo_data _ _ _ _ B1 i Hi Hn) as [Hd _]. apply (data_range dev N S sbk) in Hd.
      apply A8 in Eu; [|lia]. rewrite B7 in Eu; done.
    + rewrite B6 in * by done. by apply A7.
  - auto.
  - intros k Hk Hd. rewrite B9, A9; [done|done|done|done|]. intros Hdk. destruct (Hd Hdk) as [Hu Hi].
    split; [apply A8; [apply (data_range dev N S sbk) in Hdk; lia|done]|]. intros i Hir E.
    destruct (decide (blk V x i = 0)) as [Ez|Ez]; [|apply (Hi i Hir); by rewrite <- A6].
    rewrite <- E in Hu. rewrite A7 in Hu; [done|done|done|].
    rewrite E. apply (data_range dev N S sbk) in Hdk. lia.
Qed.

Lemma lookup_splice o bs l p :
  0 ≤ o → o + zlen bs ≤ zlen l → 0 ≤ p →
  splice o bs l !! Z.to_nat p = if decide (o ≤ p < o + zlen bs) then bs !! Z.to_nat (p - o) else l !! Z.to_nat p.
Proof.
  unfold splice, zlen. intros Ho Hl Hp.
  assert (Et : length (take (Z.to_nat o) l) = Z.to_nat o) by (rewrite length_take; lia).
  destruct (Z.lt_ge_cases p o) as [Hlt|Hge].
  { rewrite decide_False by lia. rewrite lookup_app_l by lia. apply lookup_take_lt. lia. }
  rewrite lookup_app_r by lia. rewrite Et. case_decide.
  - rewrite lookup_app_l by lia. f_equal. lia.
  - rewrite lookup_app_r by lia. rewrite lookup_drop. f_equal. lia.
Qed.

(** A file whose block numbers and bits stay the same stays well formed. *)
Lemma file_ok_ext V V' x :
  (∀ i, 0 ≤ i ≤ IND → blk V' x i = blk V x i) →
  (∀ b, 0 ≤ b < sb_size sbk → used V' b = used V b) → file_ok V x → file_ok V' x.
Proof using LA LY.
  intros Hb Hu [F1 F2 F3 F4 F5 F6]. pose proof IND_val as (EI & EN & EM & EB). constructor; try done.
  - intros i Hi. rewrite Hb by done. intros Hn. destruct (F4 i Hi Hn) as [Hd Hx]. split; [done|].
    rewrite Hu; [done|]. apply (data_range dev N S sbk) in Hd. lia.
  - intros i j Hi Hj. rewrite !Hb by done. auto.
  - intros i Hi Hs. rewrite Hb; [auto|]. rewrite EM, EB in F3. rewrite EB in Hs. lia.
Qed.

(** Storing part of one block of the file. *)
Lemma wrote_store V x off bs :
  file_ok V x → reserved V → (∀ k, zlen (V k) = BSIZE) → 0 ≤ off → off + zlen bs ≤ MAXFILE * BSIZE →
  0 < zlen bs ≤ BSIZE - off mod BSIZE → blk V x (off / BSIZE) ≠ 0 →
  let b := blk V x (off / BSIZE) in
  wrote V x off bs (<[b := splice (off mod BSIZE) bs (V b)]> V) x.
Proof using LA LY.
  intros Hf Hres Hlen H0 Hmax Hbs Hn b. pose proof IND_val as (EI & EN & EM & EB).
  pose proof (Z.mod_pos_bound off BSIZE ltac:(done)) as Hm. pose proof (offset_block off ltac:(lia)) as Hi.
  destruct (fo_data _ _ _ _ Hf (off / BSIZE) ltac:(lia) Hn) as [Hd Hu]. fold b in Hd, Hu.
  set (V' := <[b := _]> V).
  assert (Hother : ∀ k, k ≠ b → V' k = V k) by (intros; by apply fn_lookup_insert_ne).
  assert (Hblk : ∀ i, 0 ≤ i → blk V' x i = blk V x i).
  { intros i Hi0. unfold blk. rewrite (Hother (iaddr x NDIRECT)); [done|]. rewrite <- (blk_ind V). intros E.
    assert (IND = off / BSIZE); [|lia]. apply (fo_inj _ _ _ _ Hf); try lia; by rewrite E. }
  assert (Hbits : ∀ c, 0 ≤ c < sb_size sbk → used V' c = used V c).
  { intros c Hc. apply (used_ext dev N S sbk); [|done]. intros k Hk. apply Hother. intros ->.
    by apply (bitmap_not_data sbk _ Hk). }
  pose proof (ly_data N S sbk) as Hly.
  constructor; try done.
  - eapply file_ok_ext; [|done|done]. intros i Hi0. apply Hblk. lia.
  - intros c Hc. rewrite Hbits by lia. by apply Hres.
  - by rewrite set_iaddrs_same.
  - intros o Ho Hor. unfold fbyte. pose proof (offset_block o Ho) as Hio. rewrite Hblk by lia.
    pose proof (Z.div_mod o BSIZE ltac:(done)) as Eo. pose proof (Z.div_mod off BSIZE ltac:(done)) as Eoff.
    pose proof (Z.mod_pos_bound o BSIZE ltac:(done)) as Hmo.
    destruct (decide (o / BSIZE = off / BSIZE)) as [E|E].
    + rewrite E. fold b. unfold V'. rewrite fn_lookup_insert, lookup_splice by (rewrite ?Hlen; lia).
      rewrite E in Eo. case_decide.
      * rewrite decide_True by lia. do 2 f_equal. lia.
      * rewrite decide_False by lia. done.
    + rewrite decide_False.
      2:{ intros Hr. apply E. replace o with (off + (o - off)) by lia. apply offset_add; lia. }
      destruct Hor as [Hno|Hr].
      * rewrite Hother; [done|]. intros Eb. apply E. apply (fo_inj _ _ _ _ Hf); try lia; done.
      * exfalso. apply E. replace o with (off + (o - off)) by lia. apply offset_add; lia.
  - intros o Ho. replace o with (off + (o - off)) by lia. destruct (offset_add off (o - off)) as [-> _]; [lia..|].
    rewrite Hblk by lia. done.
  - intros i Hi0 _. apply Hblk. lia.
  - intros i Hi0 Hz. rewrite Hblk by lia. done.
  - intros c Hc. by rewrite Hbits.
  - intros k Hk Hkd. apply Hother. intros ->. destruct (Hkd Hd) as [_ Hne]. apply (Hne (off / BSIZE)); [lia|done].
Qed.

(** ** Writing *)

(** The state after writing [bs]: as [wrote], and at most [n] blocks were added
    to the log besides what the indirect block costs. *)
Record writes s ip L V x off bs (n : Z) s' L' V' x' : Prop := {
  ws_tx : fstx s' ∅ L' V';
  ws_wrote : wrote V x off bs V' x';
  ws_itable : itable s' = <[Z.to_nat ip := x']> (itable s);
  ws_out : outstanding (lg (fl s')) = outstanding (lg (fl s));
  ws_com : committing (lg (fl s')) = committing (lg (fl s));
  ws_cost : zlen L' + ipot x' L' ≤ zlen L + ipot x L + n;
}.

Lemma writes_trans s1 s2 s3 ip L1 L2 L3 V1 V2 V3 x1 x2 x3 off a b n m :
  writes s1 ip L1 V1 x1 off a n s2 L2 V2 x2 → writes s2 ip L2 V2 x2 (off + zlen a) b m s3 L3 V3 x3 →
  writes s1 ip L1 V1 x1 off (a ++ b) (n + m) s3 L3 V3 x3.
Proof using LA LY.
  intros [A1 A2 A3 A4 A4' A5] [B1 B2 B3 B4 B4' B5]. constructor; [done| | | | |lia].
  - by eapply file_wrote_trans.
  - rewrite B3, A3. apply list_insert_insert_eq.
  - congruence.
  - congruence.
Qed.

Lemma writes_le s ip L V x off bs n m s' L' V' x' :
  writes s ip L V x off bs n s' L' V' x' → n ≤ m → writes s ip L V x off bs m s' L' V' x'.
Proof. intros [] Hnm. constructor; try done. lia. Qed.

Lemma writes_grows s ip L V x off n s' L' V' x' :
  0 ≤ off ≤ MAXFILE * BSIZE → grows s ip L V x n s' L' V' x' → writes s ip L V x off [] n s' L' V' x'.
Proof. intros Hoff []. constructor; try done. by apply wrote_grown. Qed.

(** Log blocks for [rem] bytes at [off] of a file that reaches [off]: two for
    each block touched, and one less when the first one exists. *)
Definition wcost (off rem : Z) : Z :=
  if rem =? 0 then 0
  else 2 * ((off mod BSIZE + rem + (BSIZE - 1)) / BSIZE) - (if off mod BSIZE =? 0 then 0 else 1).

Lemma wcost_next off rem k :
  0 ≤ off → 0 < rem → k = Z.min rem (BSIZE - off mod BSIZE) →
  (if off mod BSIZE =? 0 then 2 else 1) + wcost (off + k) (rem - k) ≤ wcost off rem.
Proof.
  intros H0 Hr Hk. pose proof (Z.mod_pos_bound off BSIZE ltac:(done)) as Hm.
  unfold wcost. destruct (Z.eqb_spec rem 0); [lia|]. destruct (Z.eqb_spec (rem - k) 0) as [|Hn].
  - pose proof (Z.div_le_mono BSIZE (off mod BSIZE + rem + (BSIZE - 1)) BSIZE ltac:(done) ltac:(lia)) as Hd.
    rewrite Z.div_same in Hd by done. destruct (off mod BSIZE =? 0); lia.
  - assert (k = BSIZE - off mod BSIZE) as E by lia. pose proof (Z.div_mod off BSIZE ltac:(done)) as Ed.
    assert (Emod : (off + k) mod BSIZE = 0).
    { replace (off + k) with ((off / BSIZE + 1) * BSIZE) by lia. by apply Z.mod_mul. }
    rewrite Emod. replace (off mod BSIZE + rem + (BSIZE - 1)) with ((0 + (rem - k) + (BSIZE - 1)) + 1 * BSIZE) by lia.
    rewrite Z.div_add by done. destruct (off mod BSIZE =? 0); cbn [Z.eqb]; lia.
Qed.

Lemma wcost_pos off rem : 0 ≤ rem → 0 ≤ wcost off rem.
Proof.
  intros Hr. pose proof (Z.mod_pos_bound off BSIZE ltac:(done)) as Hm. unfold wcost.
  destruct (Z.eqb_spec rem 0); [lia|].
  pose proof (Z.div_le_mono BSIZE (off mod BSIZE + rem + (BSIZE - 1)) BSIZE ltac:(done) ltac:(lia)) as Hd.
  rewrite Z.div_same in Hd by done. destruct (off mod BSIZE =? 0); lia.
Qed.

(** A call of [filewrite] writes at most three blocks at a time: that is at most
    seven blocks in the log, with the inode and the indirect block ten. *)
Lemma wcost_bound off rem : 0 ≤ rem ≤ 3 * BSIZE → 0 ≤ wcost off rem ≤ 7.
Proof.
  intros Hr. pose proof (Z.mod_pos_bound off BSIZE ltac:(done)) as Hm. unfold wcost.
  destruct (Z.eqb_spec rem 0); [lia|]. destruct (Z.eqb_spec (off mod BSIZE) 0) as [E|E].
  - rewrite E. pose proof (Z.div_lt_upper_bound (0 + rem + (BSIZE - 1)) BSIZE 4 ltac:(done) ltac:(lia)).
    pose proof (Z.div_pos (0 + rem + (BSIZE - 1)) BSIZE ltac:(lia) ltac:(done)). lia.
  - pose proof (Z.div_lt_upper_bound (off mod BSIZE + rem + (BSIZE - 1)) BSIZE 5 ltac:(done) ltac:(lia)).
    pose proof (Z.div_le_mono BSIZE (off mod BSIZE + rem + (BSIZE - 1)) BSIZE ltac:(done) ltac:(lia)) as Hd.
    rewrite Z.div_same in Hd by done. lia.
Qed.

(** The blocks of one turn: [bmap], then the store into the block it gave. *)
Lemma write_turn s ip L V x off a :
  fstx s ∅ L V → 1 ≤ outstanding (lg (fl s)) → reserved V → get_inode s ip = Ok x → file_ok V x →
  0 ≤ off → off + zlen a ≤ MAXFILE * BSIZE → 0 < zlen a ≤ BSIZE - off mod BSIZE →
  (off mod BSIZE ≠ 0 → blk V x (off / BSIZE) ≠ 0) →
  let c := if off mod BSIZE =? 0 then 2 else 1 in
  room ∅ L (c + ipot x L + 1) →
  ∃ b s1 L1 V1 x1, bmap s ip (off / BSIZE) = Ok (b, s1) ∧ get_inode s1 ip = Ok x1 ∧ idev x1 = dev ∧
    writes s ip L V x off [] c s1 L1 V1 x1 ∧
    if b =? 0 then full V1
    else ∃ bp s2 d s3 s4 s5, fbread s1 dev b = Ok (bp, s2) ∧ fdata s2 bp = Ok d ∧
      fset_data s2 bp (splice (off mod BSIZE) a d) = Ok s3 ∧ flog_write s3 bp = Ok s4 ∧ fbrelse s4 bp = Ok s5 ∧
      ∃ L5 V5 x5, writes s ip L V x off a c s5 L5 V5 x5.
Proof using LA LY.
  intros Ht Ho Hres Hx Hf Hoff Hmax Ha Hex c Hr. pose proof IND_val as (EI & EN & EM & EB).
  pose proof (Z.mod_pos_bound off BSIZE ltac:(done)) as Hm. pose proof (offset_block off ltac:(lia)) as Hi.
  assert (Hc : (if blk V x (off / BSIZE) =? 0 then 2 else 1) ≤ c ≤ 2).
  { unfold c. destruct (Z.eqb_spec (blk V x (off / BSIZE)) 0), (Z.eqb_spec (off mod BSIZE) 0); lia. }
  destruct (bmap_ok dev N S sbk s ip L V x (off / BSIZE)) as (b & s1 & L1 & V1 & x1 & E1 & Hg & Hb & Hfull & Hin); try done.
  { eapply room_le; [done|]. destruct (blk V x (off / BSIZE) =? 0); lia. }
  pose proof (gw_grown _ _ _ _ _ _ _ _ _ _ _ _ _ _ Hg) as Hgr.
  pose proof (get_inode_insert s ip x _ Hx eq_refl s1 x1 (gw_itable _ _ _ _ _ _ _ _ _ _ _ _ _ _ Hg)) as Hx1.
  exists b, s1, L1, V1, x1. split; [done|]. split; [done|].
  split; [rewrite (gr_meta _ _ _ _ _ _ Hgr); apply Hf|].
  assert (Hw1 : writes s ip L V x off [] (if blk V x (off / BSIZE) =? 0 then 2 else 0) s1 L1 V1 x1)
    by (apply writes_grows; [lia|done]).
  split; [eapply writes_le; [done|]; destruct (blk V x (off / BSIZE) =? 0); lia|].
  destruct (Z.eqb_spec b 0) as [Ez|Hnz]; [by apply Hfull|].
  assert (Hn1 : blk V1 x1 (off / BSIZE) ≠ 0) by (by rewrite <- Hb).
  destruct (fo_data _ _ _ _ (gr_file _ _ _ _ _ _ Hgr) (off / BSIZE) ltac:(lia) Hn1) as [Hd1 _]. rewrite <- Hb in Hd1.
  pose proof (ws_cost _ _ _ _ _ _ _ _ _ _ _ _ Hw1) as Hcost. pose proof (ipot_range x1 L1) as Hp1.
  assert (Hlen : ∀ k, zlen (V1 k) = BSIZE) by (intros k; eapply fstx_len; apply Hw1).
  destruct (write_block dev N S sbk s1 ∅ L1 V1 b (splice (off mod BSIZE) a (V1 b)))
    as (bp & s2 & s3 & s4 & s5 & E2 & E2d & E3 & E4 & E5 & Ht5 & Hs5 & _).
  { apply Hw1. } { by rewrite (ws_out _ _ _ _ _ _ _ _ _ _ _ _ Hw1). } { set_solver. }
  { unfold FsBlock.room in *. destruct (blk V x (off / BSIZE) =? 0); lia. } { by eapply data_writable. }
  { rewrite zlen_splice; rewrite ?Hlen; lia. }
  exists bp, s2, (V1 b), s3, s4, s5. do 5 (split; [done|]).
  exists (addl b L1), (<[b := splice (off mod BSIZE) a (V1 b)]> V1), x1. constructor; [done| | | | |].
  - apply (file_wrote_trans V x off [] V1 x1 a); [exact (ws_wrote _ _ _ _ _ _ _ _ _ _ _ _ Hw1)|]. change (zlen (@nil Z)) with 0. rewrite Z.add_0_r.
    rewrite Hb. apply wrote_store; try done; apply Hgr.
  - rewrite (sy_itable _ _ _ _ Hs5). apply Hw1.
  - rewrite (sy_out _ _ _ _ Hs5). exact (ws_out _ _ _ _ _ _ _ _ _ _ _ _ Hw1).
  - rewrite (sy_com _ _ _ _ Hs5). exact (ws_com _ _ _ _ _ _ _ _ _ _ _ _ Hw1).
  - pose proof (ipot_mono x1 x1 L1 (addl b L1) eq_refl) as Hmono.
    assert (L1 ⊆ addl b L1) as Hsub by (intros k; rewrite elem_of_addl; auto).
    specialize (Hmono Hsub). pose proof (zlen_addl b L1).
    destruct (Z.eqb_spec (blk V x (off / BSIZE)) 0) as [Ez|]; [|lia].
    rewrite (addl_in b L1) in * by auto. lia.
Qed.

(** ** The whole of [writei] *)

(** [writei] stored [bs] at [off] of file [x] and the new inode [x'] on disk. *)
Record written V x (off : Z) (bs : list Z) V' x' : Prop := {
  wn_file : file_ok V' x';
  wn_res : reserved V';
  wn_size : isize x' = Z.max (isize x) (off + zlen bs);
  wn_meta : x' = set_isize (set_iaddrs x (iaddrs x')) (isize x');
  wn_bytes : ∀ o, 0 ≤ o < isize x' →
    fbyte V' x' o = if decide (off ≤ o < off + zlen bs) then default 0 (bs !! Z.to_nat (o - off)) else fbyte V x o;
  wn_disk : V' (IBLOCK (inum x) sbk) = put_dinode (V (IBLOCK (inum x) sbk)) x';
  wn_old : ∀ i, 0 ≤ i ≤ IND → blk V x i ≠ 0 → blk V' x' i = blk V x i;
  wn_new : ∀ i, 0 ≤ i ≤ IND → blk V x i = 0 → blk V' x' i ≠ 0 → used V (blk V' x' i) = false;
  wn_used : ∀ b, 0 ≤ b < sb_size sbk → used V b = true → used V' b = true;
  wn_frame : ∀ k, ¬ is_bitmap k → k ≠ IBLOCK (inum x) sbk →
    (is_data k → used V k = true ∧ ∀ i, 0 ≤ i ≤ IND → blk V x i ≠ k) → V' k = V k;
}.

Lemma blk_ext V V' x i : (iaddr x NDIRECT ≠ 0 → V' (iaddr x NDIRECT) = V (iaddr x NDIRECT)) → blk V' x i = blk V x i.
Proof. intros E. unfold blk. destruct (Z.eqb_spec (iaddr x NDIRECT) 0); [done|]. by rewrite E. Qed.

(** The size a write leaves, given what the loop wrote. *)
Lemma file_ok_size V x off bs V' x' :
  wrote V x off bs V' x' → 0 ≤ off ≤ isize x → file_ok V x →
  file_ok V' (set_isize x' (Z.max (isize x) (off + zlen bs))).
Proof.
  intros [W0 W1 W2 W3 W4 W5 W6 W7 W8 W9] Hoff Hf. destruct W1 as [F1 F2 F3 F4 F5 F6].
  pose proof IND_val as (EI & EN & EM & EB).
  constructor; try done; cbn [isize set_isize].
  - pose proof (fo_size _ _ _ _ Hf). lia.
  - intros i Hi Hs. destruct (Z.lt_ge_cases (i * BSIZE) (isize x)) as [Hlt|Hge].
    + apply F6; [done|]. rewrite W3. done.
    + change (blk V' x' i ≠ 0). rewrite <- (Z.div_mul i BSIZE) by done. apply W5. lia.
Qed.

(** Storing the inode after the loop completes the write. *)
Lemma written_intro V x off bs V1 x1 :
  wrote V x off bs V1 x1 → 0 ≤ off ≤ isize x → file_ok V x → 0 ≤ inum x < sb_ninodes sbk →
  let x' := set_isize x1 (Z.max (isize x) (off + zlen bs)) in
  let k := IBLOCK (inum x) sbk in
  written V x off bs (<[k := put_dinode (V1 k) x']> V1) x'.
Proof using LA LY.
  intros Hw Hoff Hf Hi x' k. pose proof (file_ok_size V x off bs V1 x1 Hw Hoff Hf) as Hf'. fold x' in Hf'.
  destruct (iblock_meta dev N S sbk k (iblock_range dev N S sbk _ Hi)) as (_ & Hnb & Hnd).
  destruct Hw as [W0 W1 W2 W3 W4 W5 W6 W7 W8 W9]. set (V' := <[k := _]> V1).
  pose proof IND_val as (EI & EN & EM & EB).
  assert (Hother : ∀ j, j ≠ k → V' j = V1 j) by (intros; by apply fn_lookup_insert_ne).
  assert (Hdata : ∀ i, 0 ≤ i ≤ IND → blk V1 x1 i ≠ 0 → V' (blk V1 x1 i) = V1 (blk V1 x1 i)).
  { intros i Hi' Hn. apply Hother. intros E. apply Hnd. rewrite <- E. by apply (fo_data _ _ _ _ W1). }
  assert (Hblk : ∀ i, blk V' x' i = blk V1 x1 i).
  { intros i. change (blk V' x' i = blk V1 x' i). apply blk_ext. intros Hn. apply (Hdata IND); [lia|done]. }
  assert (Hused : ∀ b, 0 ≤ b < sb_size sbk → used V' b = used V1 b).
  { apply (used_ext dev N S sbk). intros j Hj. apply Hother. by intros ->. }
  pose proof (ly_data N S sbk). constructor; try done.
  - eapply file_ok_ext; [|done|done]. intros; apply Hblk.
  - intros b Hb. rewrite Hused by lia. by apply W2.
  - unfold x'. rewrite W3. done.
  - intros o Ho. assert (Hmax : 0 ≤ o < MAXFILE * BSIZE) by (pose proof (fo_size _ _ _ _ Hf'); lia).
    pose proof (offset_block o Hmax) as Hob. pose proof (Z.mul_div_le o BSIZE ltac:(done)).
    assert (Hn : blk V1 x1 (o / BSIZE) ≠ 0) by (apply (fo_full _ _ _ _ Hf'); lia).
    unfold fbyte. rewrite Hblk, Hdata by (lia || done). apply W4; [done|].
    destruct (Z.lt_ge_cases o (isize x)); [left; apply (fo_full _ _ _ _ Hf); lia|right].
    unfold x' in Ho. cbn in Ho. lia.
  - unfold V'. rewrite fn_lookup_insert. f_equal. apply W9; [done|]. by intros ?%Hnd.
  - intros i Hi' Hn. rewrite Hblk. by apply W6.
  - intros i Hi' Hn. rewrite Hblk. by apply W7.
  - intros b Hb Hu. rewrite Hused by done. by apply W8.
  - intros j Hj Hjk Hjd. rewrite Hother by done. by apply W9.
Qed.

Section write.
Context {M : Type} (get : M → Z → Z → outcome (Z * list Z)) (gives : M → Z → list Z → Prop)
  {SR : Source get gives}.

Lemma writei_loop_ok fuel s m ip L V x src off tot n bs :
  fstx s ∅ L V → 1 ≤ outstanding (lg (fl s)) → reserved V → get_inode s ip = Ok x → file_ok V x →
  0 ≤ off → 0 ≤ tot ≤ n → n < 2 ^ 32 → zlen bs = n - tot → off + zlen bs ≤ MAXFILE * BSIZE → gives m src bs →
  (tot < n → off mod BSIZE ≠ 0 → blk V x (off / BSIZE) ≠ 0) →
  room ∅ L (wcost off (n - tot) + ipot x L + 1) → turns off (n - tot) ≤ Z.of_nat fuel →
  ∃ w s' L' V' x', writei_loop get fuel s m ip src off tot n = Ok (tot + w, off + w, s') ∧ 0 ≤ w ≤ n - tot ∧
    (w < n - tot → full V') ∧
    writes s ip L V x off (take (Z.to_nat w) bs) (wcost off (n - tot)) s' L' V' x'.
Proof using LA LY SR.
  revert s L V x src off tot bs.
  induction fuel as [|fuel IH]; intros s L V x src off tot bs Ht Ho Hres Hx Hf Hoff Htot Hn32 Hbs Hmax Hg Hex Hr Hfuel.
  { exfalso. clear -Hfuel Htot Hoff. unfold turns in Hfuel. pose proof (Z.mod_pos_bound off BSIZE ltac:(done)).
    destruct (Z.eqb_spec (n - tot) 0); [lia|]. pose proof (Z.div_pos (off mod BSIZE + (n - tot)) BSIZE ltac:(lia) ltac:(done)). lia. }
  pose proof IND_val as (EI & EN & EM & EB). cbn [writei_loop]. destruct (Z.ltb_spec tot n) as [Hlt|Hge].
  2:{ exists 0, s, L, V, x. rewrite !Z.add_0_r. split; [done|]. split; [lia|]. split; [lia|].
      assert (tot = n) as -> by lia. rewrite Z.sub_diag. apply writes_grows; [lia|].
      apply file_grows_refl; try done. }
  pose proof (Z.mod_pos_bound off BSIZE ltac:(done)) as Hm.
  rewrite (u32_small (n - tot)) by lia. set (k := Z.min (n - tot) (BSIZE - off mod BSIZE)).
  destruct (turns_next off (n - tot) k Hoff ltac:(lia) eq_refl) as [Hk Htn].
  pose proof (wcost_next off (n - tot) k Hoff ltac:(lia) eq_refl) as Hcn.
  pose proof (wcost_pos (off + k) (n - tot - k)) as Hcp.
  set (a := take (Z.to_nat k) bs). set (rest := drop (Z.to_nat k) bs).
  assert (Eab : bs = a ++ rest) by (symmetry; apply take_drop).
  assert (Hla : zlen a = k) by (unfold zlen, a in *; rewrite length_take; lia).
  assert (Hlr : zlen rest = n - tot - k) by (unfold zlen, rest in *; rewrite length_drop; lia).
  destruct (write_turn s ip L V x off a) as (b & s1 & L1 & V1 & x1 & E1 & Hx1 & Hd1 & Hw1 & Hb); try done; try lia.
  { eapply room_le; [done|]. lia. }
  call E1. destruct (Z.eqb_spec b 0) as [->|Hnz].
  { exists 0, s1, L1, V1, x1. rewrite !Z.add_0_r. split; [done|]. split; [lia|]. split; [done|].
    eapply writes_le; [done|]. lia. }
  destruct Hb as (bp & s2 & d & s3 & s4 & s5 & E2 & E2d & E3 & E4 & E5 & L5 & V5 & x5 & Hw5).
  call Hx1. rewrite Hd1. call E2. call E2d. rewrite Eab in Hg.
  destruct (sr_get m src a rest Hg) as (r & Eg & Hr1). rewrite Hla in Eg. call Eg. call E3.
  destruct (Z.eqb_spec r (-1)); [done|]. call E4. call E5.
  rewrite (u32_small (off + k)), (u32_small (tot + k)) by (rewrite EM, EB in Hmax; lia).
  pose proof (sr_next m src a rest Hg) as Hg'. rewrite Hla in Hg'.
  pose proof (ws_wrote _ _ _ _ _ _ _ _ _ _ _ _ Hw5) as Hwo.
  destruct (IH s5 L5 V5 x5 (u64 (src + k)) (off + k) (tot + k) rest) as (w & s' & L' & V' & x' & E' & Hw' & Hfull & Hws);
    try done; try lia; try (apply Hwo); try (apply Hw5).
  { rewrite (ws_out _ _ _ _ _ _ _ _ _ _ _ _ Hw5). done. }
  { eapply get_inode_insert; [exact Hx|done|]. apply Hw5. }
  { intros Hlt' Hnm. exfalso. apply Hnm. assert (k = BSIZE - off mod BSIZE) by lia.
    pose proof (Z.div_mod off BSIZE ltac:(done)). replace (off + k) with ((off / BSIZE + 1) * BSIZE) by lia.
    by apply Z.mod_mul. }
  { pose proof (ws_cost _ _ _ _ _ _ _ _ _ _ _ _ Hw5). replace (n - (tot + k)) with (n - tot - k) by lia.
    unfold FsBlock.room in *. lia. }
  { replace (n - (tot + k)) with (n - tot - k) by lia. lia. }
  exists (k + w), s', L', V', x'. rewrite !Z.add_assoc. split; [done|]. split; [lia|]. split; [intros; apply Hfull; lia|].
  rewrite Eab, Z2Nat.inj_add by lia. rewrite take_app_add' by (unfold zlen in Hla; lia).
  eapply writes_le; [eapply writes_trans; [done|rewrite Hla; done]|].
  replace (n - (tot + k)) with (n - tot - k) by lia. lia.
Qed.

Lemma set_isize_same x : set_isize x (isize x) = x.
Proof. by destruct x. Qed.

(** The update of the size after the loop. *)
Lemma grow_size s s1 ip x x1 n :
  get_inode s ip = Ok x → itable s1 = <[Z.to_nat ip := x1]> (itable s) → isize x1 = isize x →
  ∃ s2, (if isize x1 <? n then put_inode s1 ip (set_isize x1 n) else Ok s1) = Ok s2 ∧ fl s2 = fl s1 ∧ sb s2 = sb s1 ∧
    itable s2 = <[Z.to_nat ip := set_isize x1 (Z.max (isize x) n)]> (itable s).
Proof.
  intros Hx Hit Hsz. pose proof (get_inode_insert s ip x _ Hx eq_refl s1 x1 Hit) as Hx1.
  rewrite Hsz. destruct (Z.ltb_spec (isize x) n).
  - rewrite (put_inode_ok s1 ip x1 _ Hx1). eexists. split; [done|]. split; [done|]. split; [done|].
    cbn. rewrite Hit, list_insert_insert_eq. by rewrite Z.max_r by lia.
  - exists s1. split; [done|]. split; [done|]. split; [done|]. rewrite Z.max_l by lia. by rewrite <- Hsz, set_isize_same.
Qed.

(** Storing an inode does not touch the bitmap. *)
Lemma used_iblock V i d b :
  0 ≤ i < sb_ninodes sbk → 0 ≤ b < sb_size sbk → used (<[IBLOCK i sbk := d]> V) b = used V b.
Proof using LA LY.
  intros Hi Hb. apply (used_ext dev N S sbk); [|done]. intros k Hk. apply fn_lookup_insert_ne.
  intros <-. by destruct (iblock_meta dev N S sbk _ (iblock_range dev N S sbk i Hi)) as (_ & [] & _).
Qed.

Lemma writei_ok s m ip L V x src off bs :
  fstx s ∅ L V → 1 ≤ outstanding (lg (fl s)) → reserved V → get_inode s ip = Ok x → file_ok V x →
  0 ≤ inum x < sb_ninodes sbk → 0 ≤ off ≤ isize x → off + zlen bs ≤ MAXFILE * BSIZE → gives m src bs →
  room ∅ L (wcost off (zlen bs) + ipot x L + 1) →
  ∃ w s' L' V' x', writei get s m ip src off (zlen bs) = Ok (w, s') ∧ 0 ≤ w ≤ zlen bs ∧
    (w < zlen bs → full V') ∧ written V x off (take (Z.to_nat w) bs) V' x' ∧ fstx s' ∅ L' V' ∧
    itable s' = <[Z.to_nat ip := x']> (itable s) ∧ outstanding (lg (fl s')) = outstanding (lg (fl s)) ∧
    committing (lg (fl s')) = committing (lg (fl s)) ∧ zlen L' ≤ zlen L + wcost off (zlen bs) + ipot x L + 1.
Proof using LA LY SR.
  intros Ht Ho Hres Hx Hf Hi Hoff Hmax Hg Hr. pose proof IND_val as (EI & EN & EM & EB).
  pose proof (fo_size _ _ _ _ Hf) as Hsz. rewrite EM, EB in Hsz.
  assert (0 ≤ zlen bs) by (unfold zlen; lia). assert (Hm' := Hmax). rewrite EM, EB in Hm'.
  unfold writei. call Hx. rewrite (u32_small (off + zlen bs)) by lia.
  destruct (Z.ltb_spec (isize x) off); [lia|]. destruct (Z.ltb_spec (off + zlen bs) off); [lia|].
  destruct (Z.ltb_spec (MAXFILE * BSIZE) (off + zlen bs)); [lia|]. cbn [orb].
  destruct (writei_loop_ok (block_fuel (zlen bs)) s m ip L V x src off 0 (zlen bs) bs)
    as (w & s1 & L1 & V1 & x1 & E1 & Hw & Hfull & Hws); try done; try lia.
  { intros _ Hne. apply (fo_full _ _ _ _ Hf); [apply Z.div_pos; [lia|done]|].
    pose proof (Z.div_mod off BSIZE ltac:(done)). pose proof (Z.mod_pos_bound off BSIZE ltac:(done)). lia. }
  { by rewrite Z.sub_0_r. }
  { apply turns_fuel; lia. }
  rewrite Z.sub_0_r in *. rewrite Z.add_0_l in E1. call E1. pose proof (ws_wrote _ _ _ _ _ _ _ _ _ _ _ _ Hws) as Hwo.
  assert (Hlw : zlen (take (Z.to_nat w) bs) = w) by (unfold zlen in *; rewrite length_take; lia).
  pose proof (get_inode_insert s ip x _ Hx eq_refl s1 x1 (ws_itable _ _ _ _ _ _ _ _ _ _ _ _ Hws)) as Hx1. call Hx1.
  destruct (grow_size s s1 ip x x1 (off + w)) as (s2 & -> & Hfl & Hsb & Hit); [done|apply Hws| |].
  { rewrite (wo_meta _ _ _ _ _ _ Hwo). done. }
  rewrite bind_Ok. set (x2 := set_isize x1 (Z.max (isize x) (off + w))) in *.
  assert (Ht2 : fstx s2 ∅ L1 V1).
  { destruct (ws_tx _ _ _ _ _ _ _ _ _ _ _ _ Hws) as [T1 T2]. constructor; [by rewrite Hfl|by rewrite Hsb]. }
  pose proof (written_intro V x off _ V1 x1 Hwo Hoff Hf Hi) as Hwn. rewrite Hlw in Hwn. fold x2 in Hwn.
  assert (Ex2 : inum x2 = inum x) by (unfold x2; rewrite (wo_meta _ _ _ _ _ _ Hwo); done).
  pose proof (ws_cost _ _ _ _ _ _ _ _ _ _ _ _ Hws) as Hcost. pose proof (ipot_range x1 L1).
  destruct (iupdate_ok dev N S sbk s2 ip L1 V1 x2 Ht2) as (s3 & E3 & Ht3 & Hs3).
  { rewrite Hfl, (ws_out _ _ _ _ _ _ _ _ _ _ _ _ Hws). done. } { unfold FsBlock.room in *. lia. }
  { eapply get_inode_insert; [exact Hx|done|done]. } { apply (wn_file _ _ _ _ _ _ Hwn). }
  { by rewrite Ex2. } { apply (wn_file _ _ _ _ _ _ Hwn). }
  call E3. rewrite Ex2 in Ht3. rewrite i32_small by lia. eexists w, s3, _, _, x2.
  split; [done|]. split; [lia|]. split; [|split; [exact Hwn|split; [exact Ht3|split; [|split; [|split]]]]].
  - intros Hlt b Hb. rewrite used_iblock by done. by apply Hfull.
  - rewrite (sy_itable _ _ _ _ Hs3). done.
  - rewrite (sy_out _ _ _ _ Hs3), Hfl. exact (ws_out _ _ _ _ _ _ _ _ _ _ _ _ Hws).
  - rewrite (sy_com _ _ _ _ Hs3), Hfl. exact (ws_com _ _ _ _ _ _ _ _ _ _ _ _ Hws).
  - pose proof (zlen_addl (IBLOCK (inum x) sbk) L1). lia.
Qed.
End write.
End fs_file.
