(* ===== verification/FsThm.v ===== *)
(** * What the file system guarantees for blocks and files. *)

From Stdlib Require Import ZifyBool.
From S2P Require Import Prelude Bits Block Bio BioProof Log LogProof LogThm LogOps LogSafe Fs FsBlock FsInode FsDinode FsFile.

Section fs_thm.
Context (dev N S : Z) {LA : LogArea dev N S} (sbk : superblock) {LY : Layout N S sbk}.
Implicit Types (s : fs) (H : gset Z) (L : list Z) (V : Z → list Z) (x y : inode).

Local Notation used := (used sbk).
Local Notation fstx := (fstx dev N S sbk).
Local Notation file_ok := (file_ok dev sbk).
Local Notation room := (room N).

(** ** Blocks *)

(** [balloc] inside a transaction with room for two more blocks. If it
    returns 0, every block of the device is in use and nothing changed; otherwise
    it returns the first free block, which lies in the data area, is now marked
    in use and filled with zeros, while no other bit of the bitmap and no block
    outside the bitmap changed. *)
Theorem balloc_correct s H L V :
  fstx s H L V → 1 ≤ outstanding (lg (fl s)) → room H L 2 → reserved sbk V → held sbk V H →
  ∃ r s', balloc s dev = Ok (r, s') ∧ itable s' = itable s ∧
    ((r = 0 ∧ fstx s' H L V ∧ ∀ b, 0 ≤ b < sb_size sbk → used V b = true) ∨
     (∃ V' L', allocated sbk V V' r ∧ fstx s' H L' V' ∧ zlen L' ≤ zlen L + 2)).
Proof using LA LY.
  intros Ht Ho Hr Hres Hh. destruct (balloc_ok dev N S sbk s H L V Ht Ho Hr Hres Hh) as (r & s' & E & Hs & Hp).
  exists r, s'. split; [done|]. split; [apply Hs|]. destruct Hp as [Hp|(V' & Hal & _ & Ht')]; [by left|right].
  eexists V', _. split; [done|]. split; [done|].
  pose proof (zlen_addl r (addl (BBLOCK r sbk) L)). pose proof (zlen_addl (BBLOCK r sbk) L). lia.
Qed.

(** [bfree] of a data block in use clears its bit in the bitmap and changes
    nothing else; [bfree] of a free block panics. *)
Theorem bfree_correct s H L V b :
  fstx s H L V → 1 ≤ outstanding (lg (fl s)) → room H L 1 → held sbk V H → is_data sbk b →
  if used V b then
    ∃ s' V', bfree s dev b = Ok s' ∧ freed sbk V V' b ∧ fstx s' H (addl (BBLOCK b sbk) L) V' ∧ itable s' = itable s
  else bfree s dev b = Panic "freeing free block".
Proof using LA LY.
  intros Ht Ho Hr Hh Hb. pose proof (bfree_ok dev N S sbk s H L V b Ht Ho Hr Hh Hb) as Hf.
  destruct (used V b); [|done]. destruct Hf as (s' & V' & E & Hfr & Ht' & Hs). exists s', V'. by destruct Hs.
Qed.

(** ** Files *)

(** Slot [ip] of the inode table holds the file [x], on blocks [V], in a
    transaction with the blocks [L] in the log. *)
Record has_file s ip L V x : Prop := {
  hf_tx : fstx s ∅ L V;
  hf_res : reserved sbk V;
  hf_inode : get_inode s ip = Ok x;
  hf_ok : file_ok V x;
  hf_num : 0 ≤ inum x < sb_ninodes sbk;
}.

(** [readi] from any sink: it returns the number of bytes of the file in the
    requested range, 0 past the end or when the range overflows 32 bits, stores
    exactly those bytes at the destination, and changes no block and no inode. *)
Theorem readi_correct {M : Type} (put : M → Z → list Z → outcome (Z * M)) P takes stored
    `{SK : Sink M put P takes stored} s m ip L V x dst off n :
  has_file s ip L V x → room ∅ L 0 → 0 ≤ off < 2 ^ 32 → 0 ≤ n < 2 ^ 32 →
  takes m dst (read_len x off n) → Forall P (fbytes V x off (read_len x off n)) →
  ∃ s' m', readi put s m ip dst off n = Ok (read_len x off n, s', m') ∧ has_file s' ip L V x ∧
    itable s' = itable s ∧ stored m dst (fbytes V x off (read_len x off n)) m'.
Proof using LA LY.
  intros [Ht Hres Hx Hf Hi] Hr Hoff Hn Htk HP.
  destruct (readi_ok dev N S sbk put P takes stored s m ip L V x dst off n) as (s' & m' & E & Ht' & Hs & Hst); try done.
  exists s', m'. split; [done|]. split; [|split; [apply Hs|done]].
  constructor; try done. unfold get_inode. by rewrite (sy_itable _ _ _ _ Hs).
Qed.

(** C14: [writei] at an offset not past the end, within the largest file size and
    with room in the log: it writes a prefix of the bytes, all of them unless the
    disk is full; the file then has that prefix at [off], its other bytes are as
    before, its size is the larger of the old size and the end of the write, the
    new inode is in its place on disk, and it stays well formed. *)
Theorem writei_correct {M : Type} (get : M → Z → Z → outcome (Z * list Z)) gives
    `{SR : Source M get gives} s m ip L V x src off bs :
  has_file s ip L V x → 1 ≤ outstanding (lg (fl s)) → 0 ≤ off ≤ isize x →
  off + zlen bs ≤ MAXFILE * BSIZE → gives m src bs → room ∅ L (wcost off (zlen bs) + ipot x L + 1) →
  ∃ w s' L' V' x', writei get s m ip src off (zlen bs) = Ok (w, s') ∧ 0 ≤ w ≤ zlen bs ∧
    (w < zlen bs → ∀ b, 0 ≤ b < sb_size sbk → used V' b = true) ∧
    written dev sbk V x off (take (Z.to_nat w) bs) V' x' ∧ has_file s' ip L' V' x' ∧
    itable s' = <[Z.to_nat ip := x']> (itable s) ∧ outstanding (lg (fl s')) = outstanding (lg (fl s)).
Proof using LA LY.
  intros [Ht Hres Hx Hf Hi] Ho Hoff Hmax Hg Hr.
  destruct (writei_ok dev N S sbk get gives s m ip L V x src off bs) as
    (w & s' & L' & V' & x' & E & Hw & Hfull & Hwn & Ht' & Hit & Hout & _ & _); try done.
  exists w, s', L', V', x'. do 4 (split; [done|]). split; [|done].
  constructor; [done|apply Hwn| |apply Hwn|].
  - by eapply get_inode_insert.
  - rewrite (wn_meta _ _ _ _ _ _ _ _ Hwn). done.
Qed.

(** Two files share no block. *)
Definition disjoint_files V x y : Prop :=
  ∀ i j, 0 ≤ i ≤ IND → 0 ≤ j ≤ IND → blk V x i ≠ 0 → blk V x i ≠ blk V y j.

Lemma written_other V x off bs V' x' y :
  file_ok V x → written dev sbk V x off bs V' x' → file_ok V y → disjoint_files V x y → 0 ≤ inum x < sb_ninodes sbk →
  (∀ i, 0 ≤ i ≤ IND → blk V' y i = blk V y i ∧ (blk V y i ≠ 0 → V' (blk V y i) = V (blk V y i))).
Proof using LA LY.
  intros Hfx Hw Hfy Hd Hi. pose proof IND_val as (EI & EN & EM & EB).
  destruct (iblock_meta dev N S sbk _ (iblock_range dev N S sbk _ Hi)) as (_ & _ & Hnd).
  assert (Hsame : ∀ i, 0 ≤ i ≤ IND → blk V y i ≠ 0 → V' (blk V y i) = V (blk V y i)).
  { intros i Hi' Hn. destruct (fo_data _ _ _ _ Hfy i Hi' Hn) as [Hdy Huy].
    apply (wn_frame _ _ _ _ _ _ _ _ Hw).
    - intros Hb. by apply (bitmap_not_data sbk _ Hb).
    - intros E. apply Hnd. by rewrite <- E.
    - intros _. split; [done|]. intros j Hj E. apply (Hd j i); [done|done|by rewrite E|done]. }
  intros i Hi'. split; [|by apply Hsame]. apply blk_ext. intros Hn. rewrite <- (blk_ind V y) in *. apply Hsame; [lia|done].
Qed.

(** A file that shares no block with the one written stays as it is. *)
Lemma written_isolated V x off bs V' x' y :
  file_ok V x → written dev sbk V x off bs V' x' → file_ok V y → disjoint_files V x y → 0 ≤ inum x < sb_ninodes sbk →
  file_ok V' y ∧ disjoint_files V' x' y ∧ ∀ o, 0 ≤ o < isize y → fbyte V' y o = fbyte V y o.
Proof using LA LY.
  intros Hf Hwn Hfy Hd Hi. pose proof IND_val as (EI & EN & EM & EB).
  pose proof (written_other V x off _ V' x' y Hf Hwn Hfy Hd Hi) as Hsame. split; [|split].
  - destruct Hfy as [F1 F2 F3 F4 F5 F6]. constructor; try done.
    + intros i Hi'. destruct (Hsame i Hi') as [-> _]. intros Hn. destruct (F4 i Hi' Hn) as [D1 D2]. split; [done|].
      apply (wn_used _ _ _ _ _ _ _ _ Hwn); [|done]. apply (data_range dev N S sbk) in D1. lia.
    + intros i j Hi' Hj. destruct (Hsame i Hi') as [-> _], (Hsame j Hj) as [-> _]. auto.
    + intros i Hi' Hs. rewrite EM, EB in F3. assert (i ≤ IND) by (rewrite EB in Hs; lia).
      destruct (Hsame i ltac:(lia)) as [-> _]. auto.
  - intros i j Hi' Hj Hn. destruct (Hsame j Hj) as [-> _]. destruct (decide (blk V x i = 0)) as [Ez|Ez].
    + intros Eij. pose proof (wn_new _ _ _ _ _ _ _ _ Hwn i Hi' Ez Hn) as Hu. rewrite Eij in Hu, Hn.
      destruct (fo_data _ _ _ _ Hfy j Hj Hn) as [_ Hu']. congruence.
    + rewrite (wn_old _ _ _ _ _ _ _ _ Hwn) by done. by apply Hd.
  - intros o Hob. pose proof (fo_size _ _ _ _ Hfy) as Hsz. pose proof (offset_block o ltac:(lia)) as Hblk.
    pose proof (Z.mul_div_le o BSIZE ltac:(done)).
    assert (Hn : blk V y (o / BSIZE) ≠ 0) by (apply (fo_full _ _ _ _ Hfy); lia).
    unfold fbyte. destruct (Hsame (o / BSIZE) ltac:(lia)) as [-> ->]; done.
Qed.

(** The other inodes on disk stay as they are. *)
Lemma written_inodes V x off bs V' x' y :
  written dev sbk V x off bs V' x' → (∀ k, zlen (V k) = BSIZE) → 0 ≤ inum x < sb_ninodes sbk →
  0 ≤ inum y < sb_ninodes sbk → inum y ≠ inum x →
  load_dinode (V' (IBLOCK (inum y) sbk)) y = load_dinode (V (IBLOCK (inum y) sbk)) y.
Proof using LA LY.
  intros Hwn Hl Hi Hiy Hne. destruct (iblock_meta dev N S sbk _ (iblock_range dev N S sbk _ Hiy)) as (_ & Hnb & Hnd).
  destruct (decide (IBLOCK (inum y) sbk = IBLOCK (inum x) sbk)) as [Eb|Hb].
  - rewrite Eb, (wn_disk _ _ _ _ _ _ _ _ Hwn).
    assert (inum x' = inum x) as Ex by (rewrite (wn_meta _ _ _ _ _ _ _ _ Hwn); done).
    apply load_put_other; [done|apply Hwn|lia|lia| |congruence].
    rewrite Ex. rewrite !(iblock_eq dev N S sbk) in Eb by done. lia.
  - f_equal. apply (wn_frame _ _ _ _ _ _ _ _ Hwn); [done|done|]. by intros ?%Hnd.
Qed.

(** C34: writing one file leaves every other file alone. When [writei] writes to [x] at an
    offset not past its end, within the largest file size and with room in the log,
    a well-formed file [y]
    that shares no block with [x] stays well formed, keeps all its bytes and
    still shares no block with [x], and the inodes on disk other than [x]'s are
    as they were. *)
Theorem writei_isolated {M : Type} (get : M → Z → Z → outcome (Z * list Z)) gives
    `{SR : Source M get gives} s m ip L V x src off bs y :
  has_file s ip L V x → 1 ≤ outstanding (lg (fl s)) → 0 ≤ off ≤ isize x →
  off + zlen bs ≤ MAXFILE * BSIZE → gives m src bs → room ∅ L (wcost off (zlen bs) + ipot x L + 1) →
  file_ok V y → disjoint_files V x y → 0 ≤ inum y < sb_ninodes sbk → inum y ≠ inum x →
  ∃ w s' L' V' x', writei get s m ip src off (zlen bs) = Ok (w, s') ∧ has_file s' ip L' V' x' ∧
    file_ok V' y ∧ disjoint_files V' x' y ∧
    (∀ o, 0 ≤ o < isize y → fbyte V' y o = fbyte V y o) ∧
    load_dinode (V' (IBLOCK (inum y) sbk)) y = load_dinode (V (IBLOCK (inum y) sbk)) y.
Proof using LA LY.
  intros [Ht Hres Hx Hf Hi] Ho Hoff Hmax Hg Hr Hfy Hd Hiy Hne. pose proof IND_val as (EI & EN & EM & EB).
  destruct (writei_ok dev N S sbk get gives s m ip L V x src off bs) as
    (w & s' & L' & V' & x' & E & _ & _ & Hwn & Ht' & Hit & _ & _ & _); try done.
  destruct (written_isolated V x off _ V' x' y Hf Hwn Hfy Hd Hi) as (R1 & R2 & R3).
  exists w, s', L', V', x'. split; [done|]. split; [|split; [done|split; [done|split; [done|]]]].
  - constructor; [done|apply Hwn|by eapply get_inode_insert|apply Hwn|]. rewrite (wn_meta _ _ _ _ _ _ _ _ Hwn). done.
  - eapply written_inodes; try done. intros k. by eapply fstx_len.
Qed.

Lemma written_fbytes V x off bs V' x' :
  0 ≤ off → written dev sbk V x off bs V' x' → fbytes V' x' off (zlen bs) = bs.
Proof.
  intros Hoff Hwn. apply list_eq. intros i. unfold fbytes. rewrite list_lookup_fmap.
  destruct (decide (i < length bs)%nat) as [Hlt|Hge].
  - rewrite lookup_seq_lt by (unfold zlen; lia). simpl. rewrite (wn_bytes _ _ _ _ _ _ _ _ Hwn).
    2:{ rewrite (wn_size _ _ _ _ _ _ _ _ Hwn). unfold zlen in *. lia. }
    rewrite decide_True by (unfold zlen; lia). replace (Z.to_nat (off + Z.of_nat i - off)) with i by lia.
    by destruct (lookup_lt_is_Some_2 bs i Hlt) as [v ->].
  - rewrite !lookup_ge_None_2; [done|lia|rewrite length_seq; unfold zlen; lia].
Qed.

Lemma splice_all bs l : zlen l = zlen bs → splice 0 bs l = bs.
Proof. intros E. unfold splice, zlen in *. simpl. rewrite drop_ge by lia. apply app_nil_r. Qed.

(** What was written is what is read back: after a [writei] that wrote all
    of [bs] at [off], a [readi] of as many bytes at [off] fills the buffer with
    [bs]. *)
Theorem writei_readi_roundtrip s m buf ip L V x src off bs :
  has_file s ip L V x → 1 ≤ outstanding (lg (fl s)) → 0 ≤ off ≤ isize x →
  off + zlen bs ≤ MAXFILE * BSIZE → local_gives m src bs → room ∅ L (wcost off (zlen bs) + ipot x L + 1) →
  zlen buf = zlen bs →
  ∃ w s', writei local_get s m ip src off (zlen bs) = Ok (w, s') ∧
    (w = zlen bs → ∃ s'', readi local_put s' buf ip 0 off (zlen bs) = Ok (zlen bs, s'', bs)).
Proof using LA LY.
  intros [Ht Hres Hx Hf Hi] Ho Hoff Hmax Hg Hr Hbuf. pose proof IND_val as (EI & EN & EM & EB).
  destruct (writei_ok dev N S sbk local_get local_gives s m ip L V x src off bs) as
    (w & s' & L' & V' & x' & E & _ & _ & Hwn & Ht' & Hit & _ & _ & Hl); try done.
  exists w, s'. split; [done|]. intros ->. rewrite to_nat_zlen, firstn_all in Hwn.
  pose proof (zlen_nonneg bs). assert (Hm' := Hmax). rewrite EM, EB in Hm'.
  assert (Hrd : read_len x' off (zlen bs) = zlen bs).
  { unfold read_len. rewrite (wn_size _ _ _ _ _ _ _ _ Hwn). 
    destruct (Z.ltb_spec (Z.max (isize x) (off + zlen bs)) off); [lia|].
    destruct (Z.leb_spec (2 ^ 32) (off + zlen bs)); [lia|]. cbn. lia. }
  destruct (readi_ok dev N S sbk local_put (λ _, True) local_takes local_stored s' buf ip L' V' x' 0 off (zlen bs))
    as (s'' & m' & E' & _ & _ & (_ & _ & Em)).
  { done. } { unfold FsBlock.room in *. lia. } { by eapply get_inode_insert. } { apply Hwn. } { lia. } { lia. }
  { rewrite Hrd. unfold local_takes. lia. } { by apply Forall_true. }
  exists s''. rewrite Hrd, (written_fbytes V x off bs V' x') in * by (done || lia). rewrite E'. do 2 f_equal.
  rewrite Em. by apply splice_all.
Qed.
End fs_thm.

(** ** A small file system for the examples

    Log at block 2, inodes at 32, the bitmap at 36, data from 37 on; the file in
    slot 0 is inode 1, nine bytes in block 37. Inode 2 is an empty file. *)

Definition demo_sb : superblock := mk_sb FSMAGIC 200 163 32 30 2 32 36.

Definition demo_bitmap : list Z := replicate 4 255 ++ [63] ++ replicate 1019 0.
Definition demo_data : list Z := chars "xv6 riscv" ++ replicate 1015 0.
Definition demo_disk (data : list Z) : disk_t := <[36 := demo_bitmap]> (<[37 := data]> ∅).
Definition demo_ino : inode := mk_inode 1 1 1 true true T_FILE 0 0 1 9 (37 :: replicate 12 0).
Definition demo_ino2 : inode := mk_inode 1 2 1 true true T_FILE 0 0 1 0 (replicate 13 0).

#[global] Instance demo_layout : Layout 30 2 demo_sb.
Proof. constructor; vm_compute; done. Qed.

Lemma demo_disk_len data k : zlen data = BSIZE → zlen (disk_read (demo_disk data) k) = BSIZE.
Proof.
  intros Hd. unfold demo_disk. destruct (decide (36 = k)) as [<-|]; [by rewrite disk_read_insert_eq|].
  rewrite disk_read_insert_ne by done. destruct (decide (37 = k)) as [<-|]; [by rewrite disk_read_insert_eq|].
  rewrite disk_read_insert_ne by done. apply empty_len.
Qed.

Lemma demo_recovers data : zlen data = BSIZE → recovers_to 30 2 (demo_disk data) (disk_read (demo_disk data)) [].
Proof.
  intros Hd. assert (Hh : disk_read (demo_disk data) 2 = zeroblock).
  { unfold demo_disk. rewrite !disk_read_insert_ne by done. apply empty_read. }
  constructor.
  - constructor; [lia|lia|vm_compute; discriminate|vm_compute; reflexivity|constructor|].
    by intros b ?%elem_of_nil.
  - rewrite Hh. constructor; [exact zeroblock_len|vm_compute; reflexivity|]. intros i b. by rewrite lookup_nil.
  - intros k. by apply demo_disk_len.
  - intros i b. by rewrite lookup_nil.
  - done.
Qed.

(** The disk with [data] in block 37, in a transaction, and any inode table. *)
Lemma demo_state data t :
  zlen data = BSIZE →
  ∃ s V, fstx 1 30 2 demo_sb s ∅ [] V ∧ 1 ≤ outstanding (lg (fl s)) ∧ itable s = t ∧
    V 36 = demo_bitmap ∧ V 37 = data.
Proof.
  intros Hd. destruct (recovers_initlog 1 30 ltac:(lia) 2 _ _ [] (demo_recovers data Hd))
    as (st & s0 & _ & _ & Hok & _ & _ & Hv); [by intros b ?%elem_of_nil|].
  exists (mk_fs (mk_fslog (cache s0) (with_ops (lg s0) 1 0)) demo_sb t), (view 1 (cache s0)).
  split; [|split; [cbn; lia|split; [done|]]].
  - constructor; [|done]. constructor; [destruct Hok; by constructor|done|]. by intros k Hk%elem_of_empty.
  - rewrite !Hv by (unfold in_log; lia). unfold demo_disk. by rewrite disk_read_insert_eq.
Qed.

Lemma demo_fs_state :
  ∃ s V, fstx 1 30 2 demo_sb s ∅ [] V ∧ 1 ≤ outstanding (lg (fl s)) ∧ itable s = [demo_ino; demo_ino2] ∧
    V 36 = demo_bitmap ∧ V 37 = demo_data.
Proof. by apply demo_state. Qed.

Lemma demo_used V b : V 36 = demo_bitmap → 0 ≤ b < 200 → used demo_sb V b = bit demo_bitmap b.
Proof.
  intros E Hb. unfold used. rewrite (bblock_eq 1 30 2 demo_sb) by done.
  change (sb_bmapstart demo_sb) with 36. rewrite Z.div_small, Z.mod_small by (unfold BPB, BSIZE; lia).
  by rewrite Z.add_0_l, E.
Qed.

Lemma demo_bit b : 0 ≤ b < 38 → bit demo_bitmap b = true.
Proof.
  intros Hb. assert (Hall : forallb (λ i, bit demo_bitmap (Z.of_nat i)) (seq 0 38) = true) by (vm_compute; reflexivity).
  rewrite forallb_forall in Hall. rewrite <- (Z2Nat.id b) by lia. apply Hall. apply in_seq. lia.
Qed.

Lemma demo_reserved V : V 36 = demo_bitmap → reserved demo_sb V.
Proof.
  intros E b Hb. change (datastart demo_sb) with 37 in Hb. rewrite demo_used by (done || lia). apply demo_bit. lia.
Qed.

Lemma demo_blk V i : 0 ≤ i → blk V demo_ino i = if i =? 0 then 37 else 0.
Proof.
  intros Hi. unfold blk. change (iaddr demo_ino NDIRECT) with 0. cbn [Z.eqb]. unfold iaddr.
  destruct (Z.eqb_spec i 0) as [->|Hn]; [done|]. replace (Z.to_nat i) with (S (Z.to_nat (i - 1))) by lia.
  change (iaddrs demo_ino) with (37 :: replicate 12 0). rewrite lookup_cons.
  destruct (i <? NDIRECT); [|by destruct (i <? MAXFILE)].
  destruct (decide (Z.to_nat (i - 1) < 12)%nat) as [Hlt|Hge].
  - by rewrite lookup_replicate_2.
  - by rewrite lookup_ge_None_2 by (rewrite length_replicate; lia).
Qed.

Lemma demo_blk2 V i : 0 ≤ i → blk V demo_ino2 i = 0.
Proof.
  intros Hi. unfold blk. change (iaddr demo_ino2 NDIRECT) with 0. cbn [Z.eqb]. unfold iaddr.
  destruct (i <? NDIRECT); [|by destruct (i <? MAXFILE)]. change (iaddrs demo_ino2) with (replicate 13 0).
  destruct (decide (Z.to_nat i < 13)%nat) as [Hlt|Hge].
  - by rewrite lookup_replicate_2.
  - by rewrite lookup_ge_None_2 by (rewrite length_replicate; lia).
Qed.

Lemma demo_file V : V 36 = demo_bitmap → file_ok 1 demo_sb V demo_ino.
Proof.
  intros E. constructor; [done|done|vm_compute; split; discriminate|..].
  - intros i Hi. rewrite demo_blk by lia. destruct (i =? 0); [|done]. intros _. split; [vm_compute; done|].
    rewrite demo_used by (done || lia). apply demo_bit. lia.
  - intros i j Hi Hj. rewrite !demo_blk by lia. destruct (Z.eqb_spec i 0), (Z.eqb_spec j 0); (done || lia).
  - intros i Hi Hs. change (isize demo_ino) with 9 in Hs. change BSIZE with 1024 in Hs.
    rewrite demo_blk by lia. by destruct (Z.eqb_spec i 0); [|lia].
Qed.

Lemma demo_file2 V : file_ok 1 demo_sb V demo_ino2.
Proof.
  constructor; [done|done|vm_compute; split; discriminate|..].
  - intros i Hi. by rewrite demo_blk2 by lia.
  - intros i j Hi Hj. by rewrite !demo_blk2 by lia.
  - intros i Hi Hs. change (isize demo_ino2) with 0 in Hs. change BSIZE with 1024 in Hs. lia.
Qed.

(** The example file system as a closed statement: the hypotheses the theorems
    share. *)
Lemma demo_has_file :
  ∃ s V, has_file 1 30 2 demo_sb s 0 [] V demo_ino ∧ 1 ≤ outstanding (lg (fl s)) ∧ V 36 = demo_bitmap ∧ V 37 = demo_data.
Proof.
  destruct demo_fs_state as (s & V & Ht & Ho & Hit & E36 & E37). exists s, V. split; [|done].
  constructor; [done|by apply demo_reserved| |by apply demo_file|vm_compute; split; done].
  unfold get_inode. by rewrite Hit.
Qed.

Lemma demo_room n : 0 ≤ n < 30 → room 30 ∅ [] n.
Proof. intros Hn. unfold room. rewrite size_empty. change (zlen (@nil Z)) with 0. unfold NBUF. lia. Qed.

Lemma demo_room5 : room 30 ∅ [] (wcost 9 (zlen (chars "hello")) + ipot demo_ino [] + 1).
Proof. apply demo_room. vm_compute. split; [discriminate|done]. Qed.

Lemma demo_gives bs : zlen bs < 2 ^ 64 → local_gives bs 0 bs.
Proof.
  intros Hb. split; [done|]. split; [lia|]. unfold slice. rewrite to_nat_zlen. simpl. apply firstn_all.
Qed.

(** ** The theorems on the example *)

Lemma balloc_correct_witness : ∃ s s', balloc s 1 = Ok (38, s').
Proof.
  destruct demo_fs_state as (s & V & Ht & Ho & _ & E36 & _).
  destruct (balloc_correct 1 30 2 demo_sb s ∅ [] V Ht Ho (demo_room 2 ltac:(lia)) (demo_reserved V E36) (held_empty demo_sb V))
    as (r & s' & E & _ & [(-> & _ & Hfull)|(V' & L' & [Hd Hf Hall _ _ _] & _)]).
  - specialize (Hfull 38 ltac:(vm_compute; done)). rewrite demo_used in Hfull by (done || lia). discriminate Hfull.
  - exists s, s'. rewrite E. do 2 f_equal. destruct (Z.lt_trichotomy r 38) as [Hlt|[->|Hgt]]; [|done|].
    + change (37 ≤ r < 200) in Hd. rewrite demo_used, demo_bit in Hf by (done || lia). done.
    + specialize (Hall 38 ltac:(lia)). rewrite demo_used in Hall by (done || lia). discriminate Hall.
Defined.

Lemma bfree_correct_witness : ∃ s s', bfree s 1 37 = Ok s' ∧ bfree s 1 50 = Panic "freeing free block".
Proof.
  destruct demo_fs_state as (s & V & Ht & Ho & _ & E36 & _).
  pose proof (bfree_correct 1 30 2 demo_sb s ∅ [] V 37 Ht Ho (demo_room 1 ltac:(lia)) (held_empty demo_sb V) ltac:(vm_compute; done)) as H1.
  pose proof (bfree_correct 1 30 2 demo_sb s ∅ [] V 50 Ht Ho (demo_room 1 ltac:(lia)) (held_empty demo_sb V) ltac:(vm_compute; done)) as H2.
  rewrite demo_used in H1, H2 by (done || lia). destruct H1 as (s' & V' & E & _). by exists s, s'.
Defined.

Lemma readi_correct_witness : ∃ s s', readi local_put s (replicate 9 0) 0 0 0 100 = Ok (9, s', chars "xv6 riscv").
Proof.
  destruct demo_has_file as (s & V & Hf & _ & _ & E37).
  destruct (readi_correct 1 30 2 demo_sb local_put (λ _, True) local_takes local_stored s (replicate 9 0) 0 [] V demo_ino 0 0 100 Hf
    (demo_room 0 ltac:(lia)) ltac:(lia) ltac:(lia)) as (s' & m' & E & _ & _ & (_ & _ & Em)).
  { vm_compute. done. } { by apply Forall_true. }
  exists s, s'. rewrite E, Em. change (read_len demo_ino 0 100) with 9. do 2 f_equal.
  assert (Eb : fbytes V demo_ino 0 9 = chars "xv6 riscv").
  { rewrite <- (slice_fbytes V demo_ino 0 9) by (try change (0 / BSIZE) with 0; try change (0 mod BSIZE) with 0;
      rewrite ?demo_blk by lia; cbn [Z.eqb]; rewrite ?E37; try done; unfold BSIZE; lia).
    change (0 / BSIZE) with 0. change (0 mod BSIZE) with 0. rewrite demo_blk by lia. cbn [Z.eqb]. rewrite E37.
    vm_compute. reflexivity. }
  by rewrite Eb.
Defined.

Lemma writei_correct_witness : ∃ s w s', writei local_get s (chars "hello") 0 0 9 5 = Ok (w, s') ∧ 0 ≤ w ≤ 5.
Proof.
  destruct demo_has_file as (s & V & Hf & Ho & _ & _).
  destruct (writei_correct 1 30 2 demo_sb local_get local_gives s (chars "hello") 0 [] V demo_ino 0 9 (chars "hello") Hf Ho
    ltac:(vm_compute; split; discriminate) ltac:(vm_compute; discriminate) (demo_gives (chars "hello") ltac:(vm_compute; done))
    demo_room5) as (w & s' & L' & V' & x' & E & Hw & _).
  exists s, w, s'. done.
Defined.

Lemma writei_isolated_witness :
  ∃ s w s' V', writei local_get s (chars "hello") 0 0 9 5 = Ok (w, s') ∧ file_ok 1 demo_sb V' demo_ino2.
Proof.
  destruct demo_has_file as (s & V & Hf & Ho & _ & _).
  destruct (writei_isolated 1 30 2 demo_sb local_get local_gives s (chars "hello") 0 [] V demo_ino 0 9 (chars "hello") demo_ino2 Hf Ho
    ltac:(vm_compute; split; discriminate) ltac:(vm_compute; discriminate) (demo_gives (chars "hello") ltac:(vm_compute; done))
    demo_room5 (demo_file2 V)) as (w & s' & L' & V' & x' & E & _ & Hy & _).
  { intros i j Hi Hj Hn. by rewrite (demo_blk2 V j) by lia. } { vm_compute. split; done. } { done. }
  exists s, w, s', V'. done.
Defined.

Lemma writei_readi_roundtrip_witness :
  ∃ s w s', writei local_get s (chars "hello") 0 0 9 5 = Ok (w, s') ∧
    (w = 5 → ∃ s'', readi local_put s' (replicate 5 0) 0 0 9 5 = Ok (5, s'', chars "hello")).
Proof.
  destruct demo_has_file as (s & V & Hf & Ho & _ & _).
  destruct (writei_readi_roundtrip 1 30 2 demo_sb s (chars "hello") (replicate 5 0) 0 [] V demo_ino 0 9 (chars "hello") Hf Ho
    ltac:(vm_compute; split; discriminate) ltac:(vm_compute; discriminate) (demo_gives (chars "hello") ltac:(vm_compute; done))
    demo_room5 ltac:(done)) as (w & s' & E & Hrd).
  exists s, w, s'. done.
Defined.
