(* ===== verification/FsDir.v ===== *)
(** * Directories: [dirlookup], [dirlink] and [iget] of [kernel/file/fs.c].

    A directory is a file of 16-byte entries, an inode number and a name of at
    most 14 characters that ends at its first NUL. Entries with inode number 0
    are free. *)

From Stdlib Require Import ZifyBool.
From S2P Require Import Prelude Ram Vm VmCopy KString Bits Block Bio BioProof Log LogProof LogThm LogOps LogSafe.
From S2P Require Import Fs FsBlock FsInode FsDinode FsFile FsThm.

(** ** Names *)

(** The characters of a name field: up to the first NUL, at most [n]. *)
Fixpoint cut (n : nat) (l : list Z) : list Z :=
  match n, l with
  | S n', c :: l' => if c =? 0 then [] else c :: cut n' l'
  | _, _ => []
  end.

Definition dname (l : list Z) : list Z := cut (Z.to_nat DIRSIZ) l.

(** [m] holds the bytes [l] at [p], and NULs after them. *)
Definition bytes_at (m : ram) (p : Z) (n : nat) (l : list Z) : Prop :=
  ∀ i, (i < n)%nat → ld8 m (p + Z.of_nat i) = default 0 (l !! i).

Lemma bytes_at_tail m p n l : bytes_at m p (S n) l → bytes_at m (p + 1) n (tail l).
Proof.
  intros Hb i Hi. replace (p + 1 + Z.of_nat i) with (p + Z.of_nat (S i)) by lia. rewrite Hb by lia. by destruct l.
Qed.

Lemma strncmp_cut n : ∀ m p q s t,
  bytes_at m p n s → bytes_at m q n t → strncmp_loop n m p q = 0 ↔ cut n s = cut n t.
Proof.
  induction n as [|n IH]; intros m p q s t Hs Ht; [done|]. cbn [strncmp_loop].
  assert (Hp := Hs 0%nat ltac:(lia)). assert (Hq := Ht 0%nat ltac:(lia)). rewrite Z.add_0_r in Hp, Hq. rewrite Hp, Hq.
  pose proof (bytes_at_tail _ _ _ _ Hs) as Hs'. pose proof (bytes_at_tail _ _ _ _ Ht) as Ht'.
  destruct s as [|a s], t as [|b t]; cbn [lookup list_lookup default cut tail] in *; unfold id in *.
  - done.
  - destruct (Z.eqb_spec b 0) as [->|]; [done|]. split; intros Hz; [exfalso; simpl in Hz; lia|done].
  - destruct (Z.eqb_spec a 0) as [->|]; [done|]. split; intros Hz; [exfalso; simpl in Hz; lia|done].
  - destruct (Z.eqb_spec a 0) as [->|Ha]; cbn [negb andb].
    + destruct (Z.eqb_spec b 0) as [->|]; [done|]. split; intros; [exfalso; lia|done].
    + destruct (Z.eqb_spec a b) as [->|Hab].
      * rewrite (proj2 (Z.eqb_neq b 0)) by done. rewrite (IH m (p + 1) (q + 1) s t Hs' Ht'). split; congruence.
      * destruct (b =? 0); split; intros; (exfalso; lia) || congruence.
Qed.

Definition bytes (l : list Z) : Prop := Forall (λ c, 0 ≤ c < 256) l.

Lemma bytes_u8 l i : bytes l → u8 (default 0 (l !! i)) = default 0 (l !! i).
Proof.
  unfold bytes. intros Hl. destruct (l !! i) as [c|] eqn:E; [|done]. rewrite Forall_lookup in Hl. apply u8_small. by eapply Hl.
Qed.

(** The two names of [namecmp] and [strncpy] in memory. *)
Lemma two_names s t n :
  bytes s → bytes t → zlen s ≤ 256 → zlen t ≤ 256 → (n ≤ 256)%nat →
  bytes_at (put (put ∅ 0 s) 256 t) 0 n s ∧ bytes_at (put (put ∅ 0 s) 256 t) 256 n t.
Proof.
  intros Hs Ht Ls Lt Hn. split; intros i Hi; rewrite ld8_put; unfold zlen in *.
  - destruct (Z.leb_spec 256 (0 + Z.of_nat i)); [lia|]. cbn [andb]. rewrite ld8_put. unfold zlen.
    destruct (Z.leb_spec 0 (0 + Z.of_nat i)); [|lia]. cbn [andb]. rewrite Z.add_0_l, Z.sub_0_r, Nat2Z.id.
    destruct (Z.ltb_spec (Z.of_nat i) (0 + Z.of_nat (length s))); [by apply bytes_u8|].
    by rewrite lookup_ge_None_2 by lia.
  - destruct (Z.leb_spec 256 (256 + Z.of_nat i)); [|lia]. cbn [andb].
    replace (256 + Z.of_nat i - 256) with (Z.of_nat i) by lia. rewrite Nat2Z.id.
    destruct (Z.ltb_spec (256 + Z.of_nat i) (256 + Z.of_nat (length t))); [by apply bytes_u8|].
    rewrite lookup_ge_None_2 by lia. rewrite ld8_put. unfold zlen.
    destruct (Z.ltb_spec (256 + Z.of_nat i) (0 + Z.of_nat (length s))); [lia|]. by rewrite andb_false_r.
Qed.

Lemma namecmp_zero s t :
  bytes s → bytes t → zlen s ≤ 256 → zlen t ≤ 256 → namecmp s t = 0 ↔ dname s = dname t.
Proof.
  intros Hs Ht Ls Lt. destruct (two_names s t (Z.to_nat DIRSIZ) Hs Ht Ls Lt ltac:(vm_compute; lia)) as [H1 H2].
  by apply strncmp_cut.
Qed.

Lemma strncpy_loop_ok n : ∀ m s t l,
  bytes l → bytes_at m t n l → s + Z.of_nat n ≤ t →
  (∀ i, (i < n)%nat → ld8 (strncpy_loop n m s t) (s + Z.of_nat i) = default 0 (cut n l !! i)) ∧
  (∀ a, a < s ∨ s + Z.of_nat n ≤ a → ld8 (strncpy_loop n m s t) a = ld8 m a).
Proof.
  induction n as [|n IH]; intros m s t l Hl Ht Hst; [split; [lia|done]|]. cbn [strncpy_loop].
  assert (Hc : ld8 m t = default 0 (l !! 0%nat)) by (rewrite <- (Z.add_0_r t) at 1; apply (Ht 0%nat); lia).
  assert (Hb : 0 ≤ ld8 m t < 256).
  { rewrite Hc. destruct l; [done|]. by inversion Hl. }
  destruct (Z.eqb_spec (ld8 m t) 0) as [E|E].
  - assert (Ec : cut (S n) l = []).
    { destruct l as [|c l]; [done|]. cbn [lookup list_lookup default cut] in *. unfold id in *. by rewrite <- Hc, E. }
    split.
    + intros i Hi. rewrite ld8_memset_loop, ld8_st8, Ec, lookup_nil, E. repeat zcase; simpl; done || lia.
    + intros a Ha. rewrite ld8_memset_loop, ld8_st8. repeat zcase; simpl; done || lia.
  - destruct l as [|c l]; [done|]. cbn [lookup list_lookup default cut] in *. unfold id in *.
    apply Forall_cons_1 in Hl as [Hc0 Hl]. rewrite Hc in *. rewrite (proj2 (Z.eqb_neq c 0)) by done.
    destruct (IH (st8 m s c) (s + 1) (t + 1) l Hl) as [H1 H2]; [|lia|].
    { intros i Hi. rewrite ld8_st8. zcase; [lia|]. exact (bytes_at_tail _ _ _ _ Ht i Hi). }
    split.
    + intros [|i] Hi.
      * rewrite H2 by lia. rewrite ld8_st8. cbn. zcase; [by apply u8_small|lia].
      * replace (s + Z.of_nat (S i)) with (s + 1 + Z.of_nat i) by lia. rewrite H1 by lia. done.
    + intros a Ha. rewrite H2 by lia. rewrite ld8_st8. zcase; [lia|done].
Qed.

Lemma cut_ext n : ∀ l l', (∀ i, (i < n)%nat → default 0 (l !! i) = default 0 (l' !! i)) → cut n l = cut n l'.
Proof.
  induction n as [|n IH]; intros l l' He; [done|]. pose proof (He 0%nat ltac:(lia)) as H0.
  assert (Ht : cut n (tail l) = cut n (tail l')).
  { apply IH. intros i Hi. specialize (He (S i) ltac:(lia)). by destruct l, l'. }
  destruct l as [|a l], l' as [|b l']; cbn [cut lookup list_lookup default tail] in *; unfold id in *; subst; done || (by rewrite Ht).
Qed.

Lemma cut_cut n : ∀ l, cut n (cut n l) = cut n l.
Proof.
  induction n as [|n IH]; intros [|c l]; cbn [cut]; try done. destruct (Z.eqb_spec c 0) as [->|]; [done|].
  cbn [cut]. rewrite (proj2 (Z.eqb_neq c 0)) by done. by rewrite IH.
Qed.

Lemma copy_name_ok old name :
  bytes old → bytes name → zlen old ≤ 256 → zlen name ≤ 256 →
  zlen (copy_name old name) = DIRSIZ ∧ bytes (copy_name old name) ∧ dname (copy_name old name) = dname name.
Proof.
  intros Ho Hn Lo Ln. destruct (two_names old name (Z.to_nat DIRSIZ) Ho Hn Lo Ln ltac:(vm_compute; lia)) as [_ H2].
  destruct (strncpy_loop_ok (Z.to_nat DIRSIZ) (put (put ∅ 0 old) 256 name) 0 256 name Hn H2 ltac:(vm_compute; discriminate)) as [H3 _].
  assert (Hlk : ∀ i, (i < Z.to_nat DIRSIZ)%nat → copy_name old name !! i = Some (default 0 (dname name !! i))).
  { intros i Hi. unfold copy_name. rewrite lookup_get by done. unfold strncpy. by rewrite H3. }
  assert (Hlen : length (copy_name old name) = Z.to_nat DIRSIZ) by apply length_get.
  split; [unfold zlen; rewrite Hlen; done|]. split.
  - apply Forall_lookup. intros i c Hc. assert (i < Z.to_nat DIRSIZ)%nat as Hi by (rewrite <- Hlen; by eapply lookup_lt_Some).
    rewrite Hlk in Hc by done. injection Hc as <-. clear -Hn. unfold dname. revert i. generalize (Z.to_nat DIRSIZ) as n.
    induction Hn as [|c l Hc _ IH]; intros [|n] i; cbn [cut]; try (rewrite lookup_nil; simpl; lia).
    destruct (c =? 0); [rewrite lookup_nil; simpl; lia|]. destruct i as [|i]; [done|apply IH].
  - unfold dname at 1. rewrite (cut_ext _ _ (dname name)); [apply cut_cut|]. intros i Hi. by rewrite Hlk.
Qed.

(** ** Entries *)

Definition nent (x : inode) : Z := isize x / DIRENT.
Definition dent (V : Z → list Z) (x : inode) (j : Z) : list Z := fbytes V x (DIRENT * j) DIRENT.

(** A directory: a file of whole entries. *)
Record dir_ok (V : Z → list Z) (x : inode) : Prop := {
  dk_type : itype x = T_DIR;
  dk_size : isize x = DIRENT * nent x;
  dk_bytes : ∀ j, 0 ≤ j < nent x → bytes (dent V x j);
}.

(** Entry [j] is in use and has this name. *)
Definition named (V : Z → list Z) (x : inode) (name : list Z) (j : Z) : Prop :=
  de_inum (dent V x j) ≠ 0 ∧ dname (de_name (dent V x j)) = dname name.

(** ** The inode table *)

(** No inode is in the table twice, and reference counts do not overflow. *)
Record table_ok (t : list inode) : Prop := {
  to_uniq : ∀ a b x y, t !! a = Some x → t !! b = Some y → 0 < iref x → 0 < iref y →
    idev x = idev y → inum x = inum y → a = b;
  to_ref : ∀ a x, t !! a = Some x → 0 ≤ iref x < 2 ^ 31 - 1;
}.

(** Slot [k] holds inode [i] of device [dev]. *)
Definition cached (t : list inode) (dev i k : Z) : Prop :=
  0 ≤ k ∧ ∃ x, t !! Z.to_nat k = Some x ∧ 0 < iref x ∧ idev x = dev ∧ inum x = i.

Lemma iget_scan_ok t dev i : ∀ k empty, 0 ≤ k →
  match iget_scan t dev i k empty with
  | (Some ip, _) => k ≤ ip ∧ ∃ x, t !! Z.to_nat (ip - k) = Some x ∧ 0 < iref x ∧ idev x = dev ∧ inum x = i
  | (None, r) =>
      (∀ j x, t !! j = Some x → ¬ (0 < iref x ∧ idev x = dev ∧ inum x = i)) ∧
      match empty, r with
      | Some e, _ => r = Some e
      | None, Some e => k ≤ e ∧ ∃ x, t !! Z.to_nat (e - k) = Some x ∧ iref x = 0
      | None, None => ∀ j x, t !! j = Some x → iref x ≠ 0
      end
  end.
Proof.
  induction t as [|x t IH]; intros k empty Hk; cbn [iget_scan].
  { split; [by intros j y|]. by destruct empty. }
  destruct ((0 <? iref x) && (idev x =? dev) && (inum x =? i)) eqn:E.
  { split; [done|]. exists x. rewrite Z.sub_diag. simpl. split; [done|]. lia. }
  set (empty' := match empty with Some e => Some e | None => if iref x =? 0 then Some k else None end).
  specialize (IH (k + 1) empty' ltac:(lia)). destruct (iget_scan t dev i (k + 1) empty') as [[ip|] r].
  - destruct IH as (Hip & y & Hy & Hrest). split; [lia|]. exists y. split; [|done].
    replace (Z.to_nat (ip - k)) with (S (Z.to_nat (ip - (k + 1)))) by lia. done.
  - destruct IH as [Hno He]. split; [intros [|j] y; [intros [= <-]; lia|apply Hno]|].
    unfold empty' in He. destruct empty as [e|]; [done|]. destruct (Z.eqb_spec (iref x) 0) as [Ez|Hnz].
    + subst r. split; [lia|]. exists x. by rewrite Z.sub_diag.
    + destruct r as [e|].
      * destruct He as (Hle & y & Hy & Hz). split; [lia|]. exists y. split; [|done].
        replace (Z.to_nat (e - k)) with (S (Z.to_nat (e - (k + 1)))) by lia. done.
      * intros [|j] y; [by intros [= <-]|apply He].
Qed.

(** Changing one slot to inode [i] of [dev], which is nowhere else. *)
Lemma table_ok_insert t k y :
  table_ok t → (k < length t)%nat → 0 ≤ iref y < 2 ^ 31 - 1 →
  (∀ j x, t !! j = Some x → j ≠ k → ¬ (0 < iref x ∧ idev x = idev y ∧ inum x = inum y)) →
  table_ok (<[k := y]> t).
Proof.
  intros [T1 T2] Hk Hy Hno.
  assert (Hlk : ∀ j x, <[k := y]> t !! j = Some x → (j = k ∧ x = y) ∨ (j ≠ k ∧ t !! j = Some x)).
  { intros j x. destruct (decide (j = k)) as [->|Hne]; [rewrite list_lookup_insert_eq by done; naive_solver|].
    rewrite list_lookup_insert_ne by done. auto. }
  constructor.
  - intros a b x x' [[-> ->]|[Ha Hx]]%Hlk [[-> ->]|[Hb Hx']]%Hlk R1 R2 E1 E2; [done| | |by eapply T1].
    + exfalso. by apply (Hno b x' Hx' Hb).
    + exfalso. by apply (Hno a x Hx Ha).
  - intros a x [[-> ->]|[Ha Hx]]%Hlk; [done|by eapply T2].
Qed.

(** A free slot [x] taken for inode [i] of [dev]. *)
Definition new_entry (dev i : Z) (x : inode) : inode :=
  mk_inode dev i 1 (ilocked x) false (itype x) (imajor x) (iminor x) (inlink x) (isize x) (iaddrs x).

Lemma iget_ok (s : fs) dev i :
  table_ok (itable s) → (∀ k x, itable s !! k = Some x → iref x < 2 ^ 31 - 2) →
  (∃ k x s', iget s dev i = Ok (k, s') ∧ get_inode s k = Ok x ∧ table_ok (itable s') ∧ (fl s' = fl s ∧ sb s' = sb s) ∧
     ((0 < iref x ∧ idev x = dev ∧ inum x = i ∧ itable s' = <[Z.to_nat k := set_iref x (iref x + 1)]> (itable s)) ∨
      (iref x = 0 ∧ (∀ j, ¬ cached (itable s) dev i j) ∧
       itable s' = <[Z.to_nat k := new_entry dev i x]> (itable s)))) ∨
  (iget s dev i = Panic "iget: no inodes" ∧ (∀ j, ¬ cached (itable s) dev i j) ∧
   ∀ k x, itable s !! k = Some x → iref x ≠ 0).
Proof.
  intros Ht Hmax. unfold iget. pose proof (iget_scan_ok (itable s) dev i 0 None ltac:(lia)) as Hscan.
  destruct (iget_scan (itable s) dev i 0 None) as [[ip|] [e|]].
  1,2: left; destruct Hscan as (H0 & x & Hx & Hr & Hd & Hi); rewrite Z.sub_0_r in Hx;
    assert (Hgx : get_inode s ip = Ok x) by (by apply get_inode_ok);
    call Hgx; rewrite (i32_small (iref x + 1)) by (specialize (Hmax _ _ Hx); lia);
    call (put_inode_ok s ip x (set_iref x (iref x + 1)) Hgx); eexists ip, x, _; split; [done|];
    split; [done|]; split; [|split; [done|by left]]; cbn; apply table_ok_insert; try done;
    [by eapply lookup_lt_Some|cbn; specialize (Hmax _ _ Hx); lia|];
    intros j y Hy Hne (R & E1 & E2); apply Hne; eapply (to_uniq _ Ht); done || congruence.
  - destruct Hscan as (Hno & H0 & x & Hx & Hz). rewrite Z.sub_0_r in Hx.
    assert (Hgx : get_inode s e = Ok x) by (by apply get_inode_ok). left. call Hgx.
    rewrite (put_inode_ok s e x _ Hgx), bind_Ok. eexists e, x, _. split; [done|]. split; [done|].
    split; [|split; [done|right; split; [done|split; [|done]]]].
    + cbn. apply table_ok_insert; try done; [by eapply lookup_lt_Some|]. intros j y Hy _ Hc. by apply (Hno j y Hy).
    + intros j (Hj & y & Hy & Hc). by apply (Hno _ _ Hy).
  - destruct Hscan as [Hno Hfull]. right. split; [done|]. split; [|done]. intros j (Hj & y & Hy & Hc). by apply (Hno _ _ Hy).
Qed.

(** A reference taken by [iget] and dropped at once: no inode is freed, and the
    slots in use are as they were. *)
Lemma iget_iput (s : fs) dev i k s1 :
  table_ok (itable s) → (∀ j x, itable s !! j = Some x → iref x < 2 ^ 31 - 2) → iget s dev i = Ok (k, s1) →
  ∃ s', iput s1 k = Ok s' ∧ fl s' = fl s ∧ sb s' = sb s ∧
    ∀ j y, itable s !! j = Some y → 0 < iref y → itable s' !! j = Some y.
Proof.
  intros Ht Hmax E. destruct (iget_ok s dev i Ht Hmax) as [(k' & x & s1' & E' & Hx & _ & [Hfl Hsb] & Hcase)|(E' & _)]; [|congruence].
  rewrite E' in E. injection E as -> ->. clear E'. pose proof Hx as [Hk0 Hlk]%get_inode_ok.
  pose proof (to_ref _ Ht _ _ Hlk). specialize (Hmax _ _ Hlk).
  assert (Hy : ∃ y, itable s1 = <[Z.to_nat k := y]> (itable s) ∧ iref y = iref x + 1 ∧
                 (iref y =? 1) && ivalid y && (inlink y =? 0) = false ∧ (0 < iref x → set_iref y (iref x) = x)).
  { destruct Hcase as [(R & _ & _ & Hit)|(R & _ & Hit)]; eexists; (split; [exact Hit|]).
    - split; [done|]. split; [|by destruct x]. cbn [set_iref iref]. by rewrite (proj2 (Z.eqb_neq (iref x + 1) 1)) by lia.
    - split; [cbn; lia|]. split; [by rewrite andb_false_r|lia]. }
  destruct Hy as (y & Hit & Hr & Hno & Hback).
  assert (Hgy : get_inode s1 k = Ok y) by (eapply get_inode_insert; [exact Hx|done|exact Hit]).
  unfold iput. call Hgy. rewrite Hno, bind_Ok. call Hgy. rewrite (put_inode_ok s1 k y _ Hgy), i32_small by lia.
  eexists. split; [done|]. split; [done|]. split; [done|]. cbn. rewrite Hit, list_insert_insert_eq. intros j z Hz Hrz.
  destruct (decide (j = Z.to_nat k)) as [->|]; [|by rewrite list_lookup_insert_ne].
  rewrite list_lookup_insert_eq by (by eapply lookup_lt_Some). assert (z = x) as -> by congruence.
  rewrite Hr. replace (iref x + 1 - 1) with (iref x) by lia. by rewrite Hback.
Qed.

(** [iget] keeps the inode table free of duplicates. If the inode is in the
    table its slot is returned with one more reference and nothing else changed;
    otherwise a free slot is taken for it, not yet valid, with one reference; it
    panics exactly when the inode is not there and no slot is free. *)
Theorem iget_correct (s : fs) dev i :
  table_ok (itable s) → (∀ k x, itable s !! k = Some x → iref x < 2 ^ 31 - 2) →
  (∃ k x s', iget s dev i = Ok (k, s') ∧ get_inode s k = Ok x ∧ table_ok (itable s') ∧ (fl s' = fl s ∧ sb s' = sb s) ∧
     ((0 < iref x ∧ idev x = dev ∧ inum x = i ∧ itable s' = <[Z.to_nat k := set_iref x (iref x + 1)]> (itable s)) ∨
      (iref x = 0 ∧ (∀ j, ¬ cached (itable s) dev i j) ∧
       itable s' = <[Z.to_nat k := new_entry dev i x]> (itable s)))) ∨
  (iget s dev i = Panic "iget: no inodes" ∧ (∀ j, ¬ cached (itable s) dev i j) ∧
   ∀ k x, itable s !! k = Some x → iref x ≠ 0).
Proof. apply iget_ok. Qed.

Section fs_dir.
Context (dev N S : Z) {LA : LogArea dev N S} (sbk : superblock) {LY : Layout N S sbk}.
Implicit Types (s : fs) (L : list Z) (V : Z → list Z) (x y : inode) (name de : list Z).

Local Notation has_file := (has_file dev N S sbk).
Local Notation stays := (stays dev).
Local Notation room := (room N).

Lemma has_file_stays s s' ip L V x :
  has_file s ip L V x → fstx dev N S sbk s' ∅ L V → stays s s' ∅ → has_file s' ip L V x.
Proof. intros [F1 F2 F3 F4 F5] Ht Hs. constructor; try done. unfold get_inode. by rewrite (sy_itable _ _ _ _ Hs). Qed.

Lemma dent_range V x : file_ok dev sbk V x → dir_ok V x → 0 ≤ nent x ∧ DIRENT * nent x ≤ 268 * 1024.
Proof.
  intros Hf Hd. pose proof (fo_size _ _ _ _ Hf) as Hs. destruct IND_val as (_ & _ & EM & EB). rewrite EM, EB in Hs.
  rewrite <- (dk_size _ _ Hd). unfold nent. split; [|lia]. apply Z.div_pos; [lia|done].
Qed.

Lemma zlen_dent V x j : zlen (dent V x j) = DIRENT.
Proof. by apply zlen_fbytes. Qed.

(** Reading one entry into a [struct dirent]. *)
Lemma read_entry s dp L V x de j :
  has_file s dp L V x → dir_ok V x → room ∅ L 0 → zlen de = DIRENT → 0 ≤ j < nent x →
  ∃ s', readi local_put s de dp 0 (DIRENT * j) DIRENT = Ok (DIRENT, s', dent V x j) ∧
    has_file s' dp L V x ∧ stays s s' ∅.
Proof using LA LY.
  intros Hf Hd Hr Hde Hj. pose proof Hf as [Ht _ Hx Hok _]. pose proof (dent_range V x Hok Hd) as Hn.
  pose proof (dk_size _ _ Hd) as Hs. change DIRENT with 16 in *.
  assert (Hlen : read_len x (16 * j) 16 = 16).
  { unfold read_len. destruct (Z.ltb_spec (isize x) (16 * j)); [lia|]. destruct (Z.leb_spec (2 ^ 32) (16 * j + 16)); [lia|]. cbn. lia. }
  destruct (readi_ok dev N S sbk local_put (λ _, True) local_takes local_stored s de dp L V x 0 (16 * j) 16)
    as (s' & m' & E & Ht' & Hst & (_ & _ & Em)); try done; try lia.
  { rewrite Hlen. unfold local_takes. lia. } { by apply Forall_true. }
  rewrite Hlen in *. exists s'. split; [|split; [by eapply has_file_stays|done]].
  rewrite E, Em. do 2 f_equal. apply splice_all. rewrite Hde. symmetry. apply zlen_dent.
Qed.

Lemma de_name_ok V x j : dir_ok V x → 0 ≤ j < nent x → bytes (de_name (dent V x j)) ∧ zlen (de_name (dent V x j)) = DIRSIZ.
Proof.
  intros Hd Hj. split; [|unfold de_name; apply zlen_slice; rewrite ?zlen_dent; done].
  unfold de_name, slice. apply Forall_take, Forall_drop. by apply (dk_bytes _ _ Hd).
Qed.

(** What a lookup from entry [j] on gives: the inode of the first entry with the
    name, or nothing. *)
Definition finds s dp L V x name (j : Z) (m : outcome (option (Z * Z) * fs)) : Prop :=
  (∃ i s', j ≤ i < nent x ∧ named V x name i ∧ (∀ l, j ≤ l < i → ¬ named V x name l) ∧
     has_file s' dp L V x ∧ stays s s' ∅ ∧
     m = ('(ip, s2) ← iget s' dev (de_inum (dent V x i)); Ok (Some (ip, DIRENT * i), s2))) ∨
  (∃ s', (∀ l, j ≤ l < nent x → ¬ named V x name l) ∧ has_file s' dp L V x ∧ stays s s' ∅ ∧ m = Ok (None, s')).

Lemma finds_next s s1 dp L V x name j m :
  stays s s1 ∅ → ¬ named V x name j → finds s1 dp L V x name (j + 1) m → finds s dp L V x name j m.
Proof.
  intros Hs Hno [(i & s' & Hi & Hm & Hb & Hf & Hs' & E)|(s' & Hall & Hf & Hs' & E)].
  - left. exists i, s'. split; [lia|]. split; [done|]. split; [|split; [done|split; [by eapply stays_trans|done]]].
    intros l Hl. destruct (decide (l = j)) as [->|]; [done|]. apply Hb. lia.
  - right. exists s'. split; [|split; [done|split; [by eapply stays_trans|done]]].
    intros l Hl. destruct (decide (l = j)) as [->|]; [done|]. apply Hall. lia.
Qed.

Lemma dirlookup_loop_ok fuel s dp L V x name de j :
  has_file s dp L V x → dir_ok V x → room ∅ L 0 → zlen de = DIRENT → bytes name → zlen name ≤ 256 →
  0 ≤ j ≤ nent x → nent x - j < Z.of_nat fuel →
  finds s dp L V x name j (dirlookup_loop fuel s dp name de (DIRENT * j)).
Proof using LA LY.
  revert s de j. induction fuel as [|fuel IH]; intros s de j Hf Hd Hr Hde Hn Hln Hj Hfuel; [lia|].
  pose proof Hf as [_ _ Hx Hok _]. pose proof (dent_range V x Hok Hd) as Hrange. pose proof (dk_size _ _ Hd) as Hs.
  cbn [dirlookup_loop]. call Hx. change DIRENT with 16 in *. destruct (Z.ltb_spec (16 * j) (isize x)) as [Hlt|Hge].
  2:{ right. exists s. split; [lia|]. split; [done|]. split; [apply stays_refl|done]. }
  destruct (read_entry s dp L V x de j Hf Hd Hr Hde ltac:(lia)) as (s1 & E & Hf1 & Hs1). change DIRENT with 16 in *.
  call E. rewrite Z.eqb_refl. cbn [negb]. destruct (de_name_ok V x j Hd ltac:(lia)) as [Hnb Hnl].
  assert (Hnext : u32 (16 * j + 16) = 16 * (j + 1)) by (rewrite u32_small; lia). rewrite Hnext.
  assert (IH' := IH s1 (dent V x j) (j + 1) Hf1 Hd Hr (zlen_dent V x j) Hn Hln ltac:(lia) ltac:(lia)).
  destruct (Z.eqb_spec (de_inum (dent V x j)) 0) as [Ez|Hnz]; [eapply finds_next; [done| |done]; by intros [? _]|].
  destruct (Z.eqb_spec (namecmp name (de_name (dent V x j))) 0) as [Ec|Hc].
  - left. exists j, s1. split; [lia|]. apply namecmp_zero in Ec; [|done|done|done|rewrite Hnl; done].
    split; [by split|]. split; [lia|]. split; [done|]. split; [done|]. by rewrite (fo_dev _ _ _ _ Hok).
  - eapply finds_next; [done| |done]. intros [_ Em]. apply Hc. apply namecmp_zero; [done|done|done|rewrite Hnl; done|done].
Qed.

Lemma dir_fuel_ok V x : file_ok dev sbk V x → nent x - 0 < Z.of_nat (dir_fuel x).
Proof.
  intros Hf. unfold dir_fuel, nent. pose proof (fo_size _ _ _ _ Hf).
  pose proof (Z.div_pos (isize x) DIRENT ltac:(lia) ltac:(done)). lia.
Qed.

Lemma dirlookup_ok s dp L V x name :
  has_file s dp L V x → dir_ok V x → room ∅ L 0 → bytes name → zlen name ≤ 256 →
  finds s dp L V x name 0 (dirlookup s dp name).
Proof using LA LY.
  intros Hf Hd Hr Hn Hln. pose proof Hf as [_ _ Hx Hok _]. unfold dirlookup. call Hx. rewrite (dk_type _ _ Hd).
  change (negb (T_DIR =? T_DIR)) with false. cbv iota. change 0 with (DIRENT * 0) at 2.
  pose proof (dent_range V x Hok Hd). apply dirlookup_loop_ok; try done; [lia|by eapply dir_fuel_ok].
Qed.

(** [dirlookup] in a directory. If no entry in use has the name it returns
    null and changes nothing. Otherwise it returns the offset of the first such
    entry and a reference to the inode with the entry's number, or panics, and
    that only when every slot of the inode table is in use. *)
Theorem dirlookup_correct s dp L V x name :
  has_file s dp L V x → dir_ok V x → room ∅ L 0 → bytes name → zlen name ≤ 256 →
  table_ok (itable s) → (∀ k y, itable s !! k = Some y → iref y < 2 ^ 31 - 2) →
  ((∀ j, 0 ≤ j < nent x → ¬ named V x name j) ∧
     ∃ s', dirlookup s dp name = Ok (None, s') ∧ has_file s' dp L V x ∧ itable s' = itable s) ∨
  (∃ j, 0 ≤ j < nent x ∧ named V x name j ∧ (∀ l, 0 ≤ l < j → ¬ named V x name l) ∧
     ((∃ ip s' y, dirlookup s dp name = Ok (Some (ip, DIRENT * j), s') ∧ get_inode s' ip = Ok y ∧
         idev y = dev ∧ inum y = de_inum (dent V x j) ∧ 0 < iref y ∧ table_ok (itable s')) ∨
      (dirlookup s dp name = Panic "iget: no inodes" ∧ ∀ k y, itable s !! k = Some y → iref y ≠ 0))).
Proof using LA LY.
  intros Hf Hd Hr Hn Hln Ht Hmax.
  destruct (dirlookup_ok s dp L V x name Hf Hd Hr Hn Hln) as [(j & s1 & Hj & Hm & Hb & Hf1 & Hs1 & ->)|(s1 & Hall & Hf1 & Hs1 & ->)].
  - right. exists j. split; [done|]. split; [done|]. split; [done|]. rewrite <- (sy_itable _ _ _ _ Hs1) in Ht, Hmax.
    destruct (iget_ok s1 dev (de_inum (dent V x j)) Ht Hmax) as [(ip & y & s2 & -> & Hy & Ht2 & _ & Hcase)|(-> & _ & Hfull)];
      [left|right; split; [done|]; by rewrite <- (sy_itable _ _ _ _ Hs1)].
    rewrite bind_Ok. destruct Hcase as [(R & E1 & E2 & Hit)|(R & _ & Hit)]; eexists ip, s2, _; (split; [done|]);
      (split; [eapply get_inode_insert; [exact Hy|done|exact Hit]|]); cbn; try done. split; [done|]. split; [done|]. split; [lia|done].
  - left. split; [done|]. exists s1. split; [done|]. split; [done|]. apply Hs1.
Qed.

(** The search for a free entry. *)
Lemma dirlink_scan_ok fuel s dp L V x de j :
  has_file s dp L V x → dir_ok V x → room ∅ L 0 → zlen de = DIRENT → bytes de →
  0 ≤ j ≤ nent x → nent x - j < Z.of_nat fuel →
  ∃ e de' s', dirlink_scan fuel s dp de (DIRENT * j) = Ok (DIRENT * e, de', s') ∧ j ≤ e ≤ nent x ∧
    (e < nent x → de_inum (dent V x e) = 0) ∧ zlen de' = DIRENT ∧ bytes de' ∧ has_file s' dp L V x ∧ stays s s' ∅.
Proof using LA LY.
  revert s de j. induction fuel as [|fuel IH]; intros s de j Hf Hd Hr Hde Hb Hj Hfuel; [lia|].
  pose proof Hf as [_ _ Hx Hok _]. pose proof (dent_range V x Hok Hd) as Hrange. pose proof (dk_size _ _ Hd) as Hs.
  cbn [dirlink_scan]. call Hx. change DIRENT with 16 in *. destruct (Z.ltb_spec (16 * j) (isize x)) as [Hlt|Hge].
  2:{ exists j, de, s. split; [done|]. split; [lia|]. split; [lia|]. do 3 (split; [done|]). apply stays_refl. }
  destruct (read_entry s dp L V x de j Hf Hd Hr Hde ltac:(lia)) as (s1 & E & Hf1 & Hs1). change DIRENT with 16 in *.
  call E. rewrite Z.eqb_refl. cbn [negb]. pose proof (dk_bytes _ _ Hd j ltac:(lia)) as Hbj.
  destruct (Z.eqb_spec (de_inum (dent V x j)) 0) as [Ez|Hnz].
  { exists j, (dent V x j), s1. split; [done|]. split; [lia|]. split; [done|]. split; [apply zlen_dent|]. done. }
  replace (i32 (16 * j + 16)) with (16 * (j + 1)) by (rewrite i32_small; lia).
  destruct (IH s1 (dent V x j) (j + 1)) as (e & de' & s' & E' & He & Hz & Hl' & Hb' & Hf' & Hs'); try done; try lia.
  exists e, de', s'. split; [done|]. split; [lia|]. do 4 (split; [done|]). by eapply stays_trans.
Qed.

(** ** Adding an entry *)

(** The entries after [de] was written over entry [e] or behind the last one. *)
Lemma written_dent V x e de V' x' :
  file_ok dev sbk V x → dir_ok V x → 0 ≤ e ≤ nent x → zlen de = DIRENT → bytes de →
  written dev sbk V x (DIRENT * e) de V' x' →
  dir_ok V' x' ∧ nent x' = Z.max (nent x) (e + 1) ∧ dent V' x' e = de ∧
  ∀ j, 0 ≤ j < nent x → j ≠ e → dent V' x' j = dent V x j.
Proof.
  intros Hf Hd He Hde Hb Hw. pose proof (dk_size _ _ Hd) as Hs. pose proof (wn_size _ _ _ _ _ _ _ _ Hw) as Hs'.
  pose proof (dent_range V x Hf Hd) as Hr. rewrite Hde in Hs'.
  assert (Hn : nent x' = Z.max (nent x) (e + 1)).
  { unfold nent at 1. rewrite Hs'. change DIRENT with 16 in *.
    replace (Z.max (isize x) (16 * e + 16)) with (Z.max (nent x) (e + 1) * 16) by lia. by apply Z.div_mul. }
  assert (Heq : dent V' x' e = de).
  { unfold dent. rewrite <- Hde at 2. eapply written_fbytes; [|done]. change DIRENT with 16. lia. }
  assert (Hne : ∀ j, 0 ≤ j < nent x → j ≠ e → dent V' x' j = dent V x j).
  { intros j Hj Hje. unfold dent, fbytes. apply list_fmap_ext. intros l i [-> Hl]%lookup_seq. change DIRENT with 16 in *.
    rewrite (wn_bytes _ _ _ _ _ _ _ _ Hw) by lia. apply decide_False. lia. }
  split; [|done]. constructor.
  - rewrite (wn_meta _ _ _ _ _ _ _ _ Hw). apply Hd.
  - rewrite Hn, Hs'. change DIRENT with 16 in *. lia.
  - intros j Hj. destruct (decide (j = e)) as [->|]; [by rewrite Heq|]. rewrite Hne by lia. apply (dk_bytes _ _ Hd). lia.
Qed.

(** The entry [dirlink] builds. *)
Lemma new_dent_ok de name i :
  zlen de = DIRENT → bytes de → bytes name → zlen name ≤ 256 → 0 ≤ i < 2 ^ 16 →
  let de' := to_le 2 i ++ copy_name (de_name de) name in
  zlen de' = DIRENT ∧ bytes de' ∧ de_inum de' = i ∧ dname (de_name de') = dname name.
Proof using Type.
  intros Hlde Hbde Hn Hln Hi de'.
  assert (Hold : bytes (de_name de) ∧ zlen (de_name de) ≤ 256).
  { split; [unfold de_name, slice; by apply Forall_take, Forall_drop|]. unfold de_name. rewrite zlen_slice; rewrite ?Hlde; done. }
  destruct (copy_name_ok (de_name de) name) as (Lc & Bc & Nc); [tauto|done|tauto|done|].
  assert (Hn' : de_name de' = copy_name (de_name de) name).
  { unfold de'. clear -Lc. revert Lc. generalize (copy_name (de_name de) name). intros c Lc.
    unfold de_name, slice. rewrite drop_app_length' by done. apply take_ge. unfold zlen in Lc. lia. }
  split; [unfold de'; rewrite zlen_app, Lc; done|]. split; [apply Forall_app; split; [apply to_le_bytes|done]|].
  split; [|by rewrite Hn'].
  unfold de_inum, rd, de', slice. rewrite drop_0, take_app_length' by by rewrite length_to_le.
  apply of_to_le_small. done.
Qed.

Lemma wcost_dent e : wcost (DIRENT * e) DIRENT ≤ 2.
Proof using Type.
  unfold wcost. change (DIRENT =? 0) with false. cbv iota. change DIRENT with 16. change BSIZE with 1024.
  assert ((16 * e) mod 1024 ≤ 1008).
  { replace (16 * e) with (e * 16) by lia. change 1024 with (64 * 16). rewrite Z.mul_mod_distr_r by lia.
    pose proof (Z.mod_pos_bound e 64 ltac:(lia)). lia. }
  pose proof (Z.div_lt_upper_bound ((16 * e) mod 1024 + 16 + (1024 - 1)) 1024 2 ltac:(lia) ltac:(lia)).
  destruct ((16 * e) mod 1024 =? 0); lia.
Qed.

(** [dirlink] of a name that is not there. *)
Lemma dirlink_new s dp L V x name i :
  has_file s dp L V x → dir_ok V x → 1 ≤ outstanding (lg (fl s)) → bytes name → zlen name ≤ 256 → 0 < i < 2 ^ 16 →
  (∀ j, 0 ≤ j < nent x → ¬ named V x name j) → DIRENT * (nent x + 1) ≤ MAXFILE * BSIZE → room ∅ L 5 →
  ∃ r s' L' V' x', dirlink s dp name i = Ok (r, s') ∧ has_file s' dp L' V' x' ∧
    ((r = -1 ∧ full sbk V') ∨
     (r = 0 ∧ dir_ok V' x' ∧ ∃ e, 0 ≤ e ≤ nent x ∧ (e < nent x → de_inum (dent V x e) = 0) ∧
        nent x' = Z.max (nent x) (e + 1) ∧ de_inum (dent V' x' e) = i ∧
        (∀ j, 0 ≤ j < nent x' → named V' x' name j ↔ j = e) ∧
        (∀ j, 0 ≤ j < nent x → j ≠ e → dent V' x' j = dent V x j))).
Proof using LA LY.
  intros Hf Hd Ho Hn Hln Hi Hno Hmax Hr. unfold dirlink.
  destruct (dirlookup_ok s dp L V x name Hf Hd ltac:(eapply room_le; [done|lia]) Hn Hln)
    as [(j & s' & Hj & Hm & _)|(s1 & _ & Hf1 & Hs1 & ->)]; [by destruct (Hno j Hj)|].
  rewrite bind_Ok. cbv beta iota. pose proof Hf1 as [_ _ Hx1 Hok _]. call Hx1.
  pose proof (dent_range V x Hok Hd) as Hrange.
  destruct (dirlink_scan_ok (dir_fuel x) s1 dp L V x blank_de 0) as (e & de & s2 & E2 & He & Hz & Hlde & Hbde & Hf2 & Hs2);
    try done; [eapply room_le; [done|lia]|apply Forall_replicate; lia|lia|by eapply dir_fuel_ok|].
  change (DIRENT * 0) with 0 in E2. call E2.
  destruct (new_dent_ok de name i Hlde Hbde Hn Hln ltac:(lia)) as (Hl' & Hb' & Hi' & Hn').
  set (de' := to_le 2 i ++ copy_name (de_name de) name) in *. pose proof Hf2 as [Ht2 Hres2 Hx2 _ Hnum].
  assert (Hoff : DIRENT * e ≤ isize x) by (rewrite (dk_size _ _ Hd); change DIRENT with 16; lia).
  rewrite u32_small by (change DIRENT with 16 in *; lia).
  pose proof (wcost_dent e). pose proof (ipot_range x L).
  destruct (writei_ok dev N S sbk local_get local_gives s2 de' dp L V x 0 (DIRENT * e) de') as
    (w & s3 & L3 & V3 & x3 & E3 & Hw & Hfull & Hwn & Ht3 & Hit3 & Ho3 & _); try done.
  { rewrite (sy_out _ _ _ _ Hs2), (sy_out _ _ _ _ Hs1). done. } { change DIRENT with 16 in *. lia. }
  { rewrite Hl'. change DIRENT with 16 in *. lia. }
  { eapply room_le; [done|]. rewrite Hl'. lia. }
  rewrite Hl' in *. call E3. exists (if w =? DIRENT then 0 else -1), s3, L3, V3, x3. split; [done|].
  split; [constructor; [done|apply Hwn|by eapply get_inode_insert|apply Hwn|rewrite (wn_meta _ _ _ _ _ _ _ _ Hwn); done]|].
  destruct (Z.eqb_spec w DIRENT) as [->|]; [right|left; split; [done|apply Hfull; lia]].
  rewrite take_ge in Hwn by (unfold zlen in Hl'; lia).
  destruct (written_dent V x e de' V3 x3 Hok Hd He Hl' Hb' Hwn) as (Hd3 & Hn3 & He3 & Hne3).
  split; [done|]. split; [done|]. exists e. do 2 (split; [done|]). split; [done|]. rewrite He3. split; [done|]. split; [|done].
  intros j Hj. split; [|intros ->; split; rewrite He3; [lia|done]].
  intros Hm. destruct (decide (j = e)) as [|Hne]; [done|]. destruct (Hno j); [lia|].
  unfold named in *. by rewrite Hne3 in Hm by lia.
Qed.

(** C27: [dirlink] in a directory that can still grow by an entry. When an entry in use has the name already it
    returns -1, no block and no inode in use changed; or it panics, and that only
    with every slot of the inode table in use. When there is none, it returns 0
    having stored the inode number under the name in an entry that was free, or in
    a new one at the end: that entry is then the only one with the name, and all
    others are as they were. It returns -1 there only when the disk is full. *)
Theorem dirlink_correct s dp L V x name i :
  has_file s dp L V x → dir_ok V x → 1 ≤ outstanding (lg (fl s)) → bytes name → zlen name ≤ 256 → 0 < i < 2 ^ 16 →
  DIRENT * (nent x + 1) ≤ MAXFILE * BSIZE → room ∅ L 5 →
  table_ok (itable s) → (∀ k y, itable s !! k = Some y → iref y < 2 ^ 31 - 2) →
  ((∃ j, 0 ≤ j < nent x ∧ named V x name j) ∧
     ((∃ s', dirlink s dp name i = Ok (-1, s') ∧ fstx dev N S sbk s' ∅ L V ∧
         ∀ k y, itable s !! k = Some y → 0 < iref y → itable s' !! k = Some y) ∨
      (dirlink s dp name i = Panic "iget: no inodes" ∧ ∀ k y, itable s !! k = Some y → iref y ≠ 0))) ∨
  ((∀ j, 0 ≤ j < nent x → ¬ named V x name j) ∧
   ∃ r s' L' V' x', dirlink s dp name i = Ok (r, s') ∧ has_file s' dp L' V' x' ∧
    ((r = -1 ∧ full sbk V') ∨
     (r = 0 ∧ dir_ok V' x' ∧ ∃ e, 0 ≤ e ≤ nent x ∧ (e < nent x → de_inum (dent V x e) = 0) ∧
        nent x' = Z.max (nent x) (e + 1) ∧ de_inum (dent V' x' e) = i ∧
        (∀ j, 0 ≤ j < nent x' → named V' x' name j ↔ j = e) ∧
        (∀ j, 0 ≤ j < nent x → j ≠ e → dent V' x' j = dent V x j)))).
Proof using LA LY.
  intros Hf Hd Ho Hn Hln Hi Hmax Hr Ht Href.
  destruct (dirlookup_ok s dp L V x name Hf Hd ltac:(eapply room_le; [done|lia]) Hn Hln)
    as [(j & s1 & Hj & Hm & _ & Hf1 & Hs1 & E)|(s1 & Hno & _)]; [left|right; split; [done|by apply (dirlink_new s dp L V x)]].
  split; [by exists j|]. unfold dirlink. rewrite E. rewrite <- (sy_itable _ _ _ _ Hs1) in Ht, Href |- *.
  destruct (iget_ok s1 dev (de_inum (dent V x j)) Ht Href) as [(ip & y & s2 & Eg & _)|(Eg & _ & Hall)];
    rewrite Eg; [left|by right].
  destruct (iget_iput s1 dev _ ip s2 Ht Href Eg) as (s3 & Ep & Hfl & Hsb & Hlive).
  rewrite !bind_Ok, Ep. exists s3. split; [done|]. split; [|done].
  destruct (hf_tx _ _ _ _ _ _ _ _ _ Hf1) as [Htx Hsb1]. constructor; [by rewrite Hfl|by rewrite Hsb].
Qed.
End fs_dir.

(** ** Example: a directory with the entries [.] and [hello] *)

Definition demo_dir_data : list Z :=
  (to_le 2 1 ++ chars "." ++ replicate 13 0) ++ (to_le 2 3 ++ chars "hello" ++ replicate 9 0) ++ replicate 992 0.
Definition demo_dir : inode := mk_inode 1 1 1 true true T_DIR 0 0 1 32 (37 :: replicate 12 0).
Definition demo_table : list inode := demo_dir :: replicate 3 blank_inode.

Lemma demo_table_ok : table_ok demo_table.
Proof.
  constructor.
  - intros [|[|[|[|a]]]] [|[|[|[|b]]]] x y Hx Hy; simpl in Hx, Hy; try done;
      injection Hx as <-; injection Hy as <-; cbn; intros; done || lia.
  - intros [|[|[|[|a]]]] x Hx; simpl in Hx; try done; injection Hx as <-; cbn; lia.
Qed.

Lemma demo_dir_blk V i : 0 ≤ i → blk V demo_dir i = if i =? 0 then 37 else 0.
Proof. apply (demo_blk V i). Qed.

Lemma demo_dent V j : V 37 = demo_dir_data → 0 ≤ j < 2 → dent V demo_dir j = slice (16 * j) 16 demo_dir_data.
Proof.
  intros E Hj. unfold dent. change DIRENT with 16.
  assert (Ed : 16 * j / BSIZE = 0) by (apply Z.div_small; change BSIZE with 1024; lia).
  assert (Em : (16 * j) mod BSIZE = 16 * j) by (apply Z.mod_small; change BSIZE with 1024; lia).
  rewrite <- slice_fbytes; rewrite ?Ed, ?Em, ?demo_dir_blk by lia; cbn [Z.eqb]; rewrite ?E; try done; change BSIZE with 1024; lia.
Qed.

Lemma demo_dir_state :
  ∃ s V, has_file 1 30 2 demo_sb s 0 [] V demo_dir ∧ dir_ok V demo_dir ∧ 1 ≤ outstanding (lg (fl s)) ∧
    itable s = demo_table ∧ V 37 = demo_dir_data.
Proof.
  destruct (demo_state demo_dir_data demo_table ltac:(done)) as (s & V & Ht & Ho & Hit & E36 & E37).
  exists s, V. split; [|split; [|done]].
  - constructor; [done|by apply demo_reserved| | |vm_compute; split; done].
    + unfold get_inode. by rewrite Hit.
    + destruct (demo_file V E36) as [F1 F2 F3 F4 F5 F6]. constructor; try done.
      intros i Hi Hs. rewrite demo_dir_blk by done. change (isize demo_dir) with 32 in Hs. change BSIZE with 1024 in Hs.
      by destruct (Z.eqb_spec i 0); [|lia].
  - constructor; [done|done|]. change (nent demo_dir) with 2. intros j Hj. rewrite demo_dent by done.
    apply Forall_take, Forall_drop. vm_compute. repeat constructor; discriminate || done.
Qed.

Lemma iget_correct_witness : ∃ s s', iget s 1 3 = Ok (1, s') ∧ table_ok (itable s').
Proof.
  destruct demo_dir_state as (s & V & _ & _ & _ & Hit & _).
  destruct (iget_correct s 1 3) as [(k & x & s' & E & Hx & Ht & _)|(E & _)].
  - rewrite Hit. exact demo_table_ok.
  - rewrite Hit. intros [|[|[|[|a]]]] y Hy; simpl in Hy; try done; injection Hy as <-; cbn; lia.
  - exists s, s'. split; [|done]. rewrite E. do 2 f_equal. unfold iget in E. rewrite Hit in E. simpl in E.
    unfold get_inode, put_inode in E. rewrite Hit in E. vm_compute in E. congruence.
  - unfold iget in E. rewrite Hit in E. simpl in E. unfold get_inode, put_inode in E. rewrite Hit in E. vm_compute in E. done.
Defined.

Lemma demo_named V name j :
  V 37 = demo_dir_data → 0 ≤ j < 2 →
  named V demo_dir name j ↔ de_inum (slice (16 * j) 16 demo_dir_data) ≠ 0 ∧ dname (de_name (slice (16 * j) 16 demo_dir_data)) = dname name.
Proof. intros E Hj. unfold named. by rewrite demo_dent. Qed.

Lemma dirlookup_correct_witness : ∃ s ip s', dirlookup s 0 (chars "hello") = Ok (Some (ip, 16), s').
Proof.
  destruct demo_dir_state as (s & V & Hf & Hd & _ & Hit & E37).
  assert (H1 : named V demo_dir (chars "hello") 1) by (apply demo_named; [done|done|vm_compute; split; [discriminate|done]]).
  assert (H0 : ¬ named V demo_dir (chars "hello") 0) by (rewrite demo_named by done; vm_compute; intros [_ Hc]; discriminate Hc).
  destruct (dirlookup_correct 1 30 2 demo_sb s 0 [] V demo_dir (chars "hello") Hf Hd (demo_room 0 ltac:(lia)))
    as [[Hall _]|(j & Hj & Hm & Hb & [(ip & s' & y & E & _)|[_ Hfull]])].
  - repeat constructor; vm_compute; discriminate || done.
  - vm_compute. discriminate.
  - rewrite Hit. exact demo_table_ok.
  - rewrite Hit. intros [|[|[|[|a]]]] y Hy; simpl in Hy; try done; injection Hy as <-; cbn; lia.
  - exfalso. by apply (Hall 1 ltac:(vm_compute; split; [discriminate|done])).
  - exists s, ip, s'. rewrite E. change (nent demo_dir) with 2 in Hj. assert (j = 0 ∨ j = 1) as [-> | ->] by lia; done.
  - exfalso. specialize (Hfull 1%nat blank_inode). rewrite Hit in Hfull. by apply Hfull.
Defined.

Lemma dirlink_correct_witness :
  ∃ s, (∃ r s', dirlink s 0 (chars "new") 5 = Ok (r, s') ∧ (r = 0 ∨ r = -1)) ∧ ∃ s', dirlink s 0 (chars "hello") 5 = Ok (-1, s').
Proof.
  destruct demo_dir_state as (s & V & Hf & Hd & Ho & Hit & E37). exists s.
  assert (Ht : table_ok (itable s)) by (rewrite Hit; exact demo_table_ok).
  assert (Href : ∀ k y, itable s !! k = Some y → iref y < 2 ^ 31 - 2).
  { rewrite Hit. intros [|[|[|[|a]]]] y Hy; simpl in Hy; try done; injection Hy as <-; cbn; lia. }
  assert (H1 : named V demo_dir (chars "hello") 1) by (apply demo_named; [done|done|vm_compute; split; [discriminate|done]]).
  assert (Hb : ∀ n, (n = chars "new" ∨ n = chars "hello") → bytes n ∧ zlen n ≤ 256).
  { intros n [-> | ->]; (split; [repeat constructor; vm_compute; discriminate || done|vm_compute; discriminate]). }
  split.
  - destruct (Hb _ (or_introl eq_refl)) as [B1 B2].
    destruct (dirlink_correct 1 30 2 demo_sb s 0 [] V demo_dir (chars "new") 5 Hf Hd Ho B1 B2 ltac:(lia)
                ltac:(vm_compute; discriminate) (demo_room 5 ltac:(lia)) Ht Href)
      as [[(j & Hj & Hm) _]|(_ & r & s' & L' & V' & x' & E & _ & Hr)].
    + exfalso. change (nent demo_dir) with 2 in Hj. rewrite demo_named in Hm by done. revert Hm.
      assert (j = 0 ∨ j = 1) as [-> | ->] by lia; vm_compute; intros [_ Hc]; discriminate Hc.
    + exists r, s'. split; [exact E|]. destruct Hr as [[-> _]|[-> _]]; auto.
  - destruct (Hb _ (or_intror eq_refl)) as [B1 B2].
    destruct (dirlink_correct 1 30 2 demo_sb s 0 [] V demo_dir (chars "hello") 5 Hf Hd Ho B1 B2 ltac:(lia)
                ltac:(vm_compute; discriminate) (demo_room 5 ltac:(lia)) Ht Href)
      as [[_ [(s' & E & _)|[_ Hfull]]]|[Hall _]].
    + by exists s'.
    + exfalso. specialize (Hfull 1%nat blank_inode). rewrite Hit in Hfull. by apply Hfull.
    + exfalso. by apply (Hall 1 ltac:(vm_compute; split; [discriminate|done])).
Defined.
