(* ===== verification/FsPath.v ===== *)
(** * Path names: [skipelem] of [kernel/file/fs.c].

    Walking a path with [skipelem] is splitting it at the slashes and dropping the
    empty pieces. *)

From Stdlib Require Import ZifyBool.
From S2P Require Import Prelude Block Bio Fs FsFile FsThm FsDir.

(** ** The reference: all the pieces between slashes *)

Fixpoint fields (path : list Z) : list (list Z) :=
  match path with
  | [] => [[]]
  | c :: path' =>
      if c =? SLASH then [] :: fields path'
      else match fields path' with
           | f :: fs => (c :: f) :: fs
           | [] => [[c]]
           end
  end.

Definition path_elems (path : list Z) : list (list Z) := filter (λ f, f ≠ []) (fields path).

(** The code: as long as [skipelem] finds an element. *)
Fixpoint walk_elems (fuel : nat) (path name : list Z) : outcome (list (list Z)) :=
  match fuel with
  | O => Hang
  | S fuel' =>
      match skipelem path name with
      | None => Ok []
      | Some (path', name') => l ← walk_elems fuel' path' name'; Ok (dname name' :: l)
      end
  end.

(** ** Pieces *)

Lemma fields_slash path : fields (SLASH :: path) = [] :: fields path.
Proof. done. Qed.

Lemma path_elems_skip path : path_elems (skip_slashes path) = path_elems path.
Proof.
  induction path as [|c path IH]; [done|]. cbn [skip_slashes]. destruct (Z.eqb_spec c SLASH) as [->|]; [|done].
  rewrite IH. unfold path_elems. rewrite fields_slash. by rewrite filter_cons_False by auto.
Qed.

Lemma fields_span path :
  let '(e, rest) := span_elem path in
  path = e ++ rest ∧ Forall (λ c, c ≠ SLASH) e ∧ (rest = [] ∨ ∃ r, rest = SLASH :: r) ∧
  fields path = match rest with [] => [e] | _ :: r => e :: fields r end.
Proof.
  induction path as [|c path IH]; cbn [span_elem fields].
  { split; [done|]. split; [constructor|]. auto. }
  destruct (Z.eqb_spec c SLASH) as [->|Hc]; [split; [done|]; split; [constructor|]; eauto|].
  destruct (span_elem path) as [e rest]. destruct IH as (-> & He & Hr & ->).
  split; [done|]. split; [by constructor|]. split; [done|].
  destruct Hr as [->|[r ->]]; done.
Qed.

Lemma skip_slashes_head path : skip_slashes path = [] ∨ ∃ c p, skip_slashes path = c :: p ∧ c ≠ SLASH.
Proof.
  induction path as [|c path IH]; [by left|]. cbn [skip_slashes]. destruct (Z.eqb_spec c SLASH); [done|]. right. eauto.
Qed.

(** A path without leading slashes is empty or starts with an element. *)
Lemma path_elems_nil path : path_elems (skip_slashes path) = [] ↔ skip_slashes path = [].
Proof.
  destruct (skip_slashes_head path) as [->|(c & p & -> & Hc)]; [done|]. split; [|done].
  unfold path_elems. cbn [fields]. rewrite (proj2 (Z.eqb_neq c SLASH)) by done.
  destruct (fields p); rewrite filter_cons_True by done; done.
Qed.

Lemma cut_take n l : Forall (λ c, c ≠ 0) l → cut n l = take n l.
Proof.
  intros Hl. revert n. induction Hl as [|c l Hc _ IH]; intros [|n]; try done. cbn [cut take].
  rewrite (proj2 (Z.eqb_neq c 0)) by done. by rewrite IH.
Qed.

Lemma cut_app_nul n l l' : Forall (λ c, c ≠ 0) l → (length l < n)%nat → cut n (l ++ 0 :: l') = l.
Proof.
  intros Hl. revert n. induction Hl as [|c l Hc _ IH]; intros [|n] Hn; simpl in Hn; try lia; cbn [app cut].
  - done.
  - rewrite (proj2 (Z.eqb_neq c 0)) by done. by rewrite IH by lia.
Qed.

(** What [skipelem] leaves in the caller's buffer. *)
Lemma elem_buffer e name :
  zlen name = DIRSIZ → Forall (λ c, c ≠ 0) e →
  let name' := if DIRSIZ <=? zlen e then splice 0 (take (Z.to_nat DIRSIZ) e) name else splice 0 (e ++ [0]) name in
  zlen name' = DIRSIZ ∧ dname name' = take (Z.to_nat DIRSIZ) e.
Proof.
  intros Hn He. destruct (Z.leb_spec DIRSIZ (zlen e)) as [Hle|Hlt].
  - assert (Hl : zlen (take (Z.to_nat DIRSIZ) e) = DIRSIZ) by (unfold zlen in *; rewrite length_take; lia).
    split; [rewrite zlen_splice; lia|]. rewrite splice_all by lia.
    unfold dname. rewrite cut_take by (by apply Forall_take). by rewrite take_take.
  - split; [rewrite zlen_splice; rewrite ?zlen_app; change (zlen [0]) with 1; lia|].
    unfold splice, dname. rewrite take_0, app_nil_l, <- app_assoc. cbn [app].
    rewrite cut_app_nul by (done || unfold zlen in *; lia). rewrite take_ge by (unfold zlen in *; lia). done.
Qed.

(** Skipping slashes drops a prefix. *)
Lemma skip_slashes_suffix path : ∃ p, path = p ++ skip_slashes path.
Proof.
  induction path as [|c path [p IH]]; [by exists []|]. cbn [skip_slashes].
  destruct (c =? SLASH); [exists (c :: p); cbn [app]; by rewrite <- IH|by exists []].
Qed.

(** The elements of a path that starts with one. *)
Lemma path_elems_span c p e rest :
  c ≠ SLASH → span_elem (c :: p) = (e, rest) →
  c :: p = e ++ rest ∧ e ≠ [] ∧ path_elems (c :: p) = e :: path_elems (skip_slashes rest).
Proof.
  intros Hc E. pose proof (fields_span (c :: p)) as H. rewrite E in H. destruct H as (Hp & _ & Hr & Hf).
  assert (He : e ≠ []).
  { cbn [span_elem] in E. rewrite (proj2 (Z.eqb_neq c SLASH)) in E by done. destruct (span_elem p). by injection E as <- _. }
  split; [done|]. split; [done|]. rewrite path_elems_skip. unfold path_elems at 1. rewrite Hf.
  destruct Hr as [->|[r ->]]; rewrite filter_cons_True by done; [done|].
  unfold path_elems. rewrite fields_slash. by rewrite (filter_cons_False _ []) by auto.
Qed.

(** One step: the first element goes to the buffer, the rest of the path has the
    remaining elements, and it is empty exactly when there are none. *)
Lemma skipelem_ok path name :
  Forall (λ c, c ≠ 0) path → zlen name = DIRSIZ →
  match skipelem path name with
  | None => path_elems path = []
  | Some (rest, name') =>
      zlen name' = DIRSIZ ∧ Forall (λ c, c ≠ 0) rest ∧ (length rest < length path)%nat ∧
      ∃ e, path_elems path = e :: path_elems rest ∧ dname name' = take (Z.to_nat DIRSIZ) e ∧
        (rest = [] ↔ path_elems rest = [])
  end.
Proof.
  intros Hp Hn. rewrite <- (path_elems_skip path). unfold skipelem.
  destruct (skip_slashes_suffix path) as [pre Epre].
  destruct (skip_slashes_head path) as [E|(c & p & E & Hc)]; rewrite E in *; [done|].
  destruct (span_elem (c :: p)) as [e rest] eqn:Esp.
  destruct (path_elems_span _ _ _ _ Hc Esp) as (Ecp & He & Eel).
  destruct (skip_slashes_suffix rest) as [pre' Erest].
  rewrite Epre, Ecp, Erest, !Forall_app in Hp. destruct Hp as (_ & Hpe & _ & Hpr).
  destruct (elem_buffer e name Hn Hpe) as [Hl Hd].
  split; [done|]. split; [done|]. split.
  { rewrite Epre, Ecp. rewrite Erest at 2. rewrite !length_app. destruct e; [done|]. simpl. lia. }
  exists e. split; [done|]. split; [done|]. by rewrite path_elems_nil.
Qed.

(** Walking a path with [skipelem] gives the pieces between its slashes, the
    empty ones dropped and each cut to [DIRSIZ] bytes; the walk ends after at most
    as many steps as the path has bytes. *)
Theorem skipelem_splits path name :
  Forall (λ c, c ≠ 0) path → zlen name = DIRSIZ →
  walk_elems (S (length path)) path name = Ok (map (take (Z.to_nat DIRSIZ)) (path_elems path)).
Proof.
  intros Hp Hn. assert (Hf : (length path < S (length path))%nat) by lia. revert Hf.
  generalize (S (length path)) as fuel. intros fuel. revert path name Hp Hn.
  induction fuel as [|fuel IH]; intros path name Hp Hn Hf; [lia|]. cbn [walk_elems].
  pose proof (skipelem_ok path name Hp Hn) as H. destruct (skipelem path name) as [[rest name']|]; [|by rewrite H].
  destruct H as (Hn' & Hp' & Hl & e & -> & Hd & _). rewrite IH by (done || lia). by rewrite bind_Ok, Hd.
Qed.

(** "///a//bb/" *)
Definition slashed : list Z := [47; 47; 47; 97; 47; 47; 98; 98; 47].

Lemma skipelem_splits_witness :
  walk_elems 10 slashed (repeat 0 14) = Ok [[97]; [98; 98]].
Proof.
  apply (skipelem_splits slashed (repeat 0 14)); [|reflexivity].
  unfold slashed. repeat constructor; discriminate.
Defined.
