(* ===== verification/Pipe.v ===== *)
(** * Pipes: [kernel/file/pipe.c].

    The pipe's lock is held from entry to return except while sleeping, so an
    operation is a sequence of atomic turns that ends by returning or by
    sleeping; a sleeping writer keeps its loop counter [i] and starts its next
    turn with it. The byte queue is verified against a bounded FIFO: a turn of
    [pipewrite] appends bytes of the writer's memory, a turn of [piperead]
    moves bytes from the front of the queue into the reader's memory. *)

From Stdlib Require Import ZifyBool.
From S2P Require Import Prelude Riscv Ram Kalloc Vm VmProof VmUser VmCopy VmThm Ring.

Definition PIPESIZE : Z := 512.

Record pipe := mk_pipe {
  pdata : list Z;
  nread : Z;
  nwrite : Z;
  readopen : Z;
  writeopen : Z;
}.

(** How a turn ends: the call returned, or it sleeps. *)
Inductive turn :=
| Return (r : Z)
| SleepAt (i : Z).

Section pipe.
Context {heap : Type} `{AL : Allocator heap}.
Implicit Types (s : @vm heap).

(** ** The code *)

(** The loop of [pipewrite] with [n] bytes left, from iteration [i] on;
    [killed i] is what [killed(pr)] answers there. *)
Fixpoint pipewrite_loop (n : nat) (s : @vm heap) (pagetable addr : Z) (killed : Z → bool)
    (pi : pipe) (i : Z) : outcome (turn * pipe) :=
  match n with
  | O => Ok (Return i, pi)
  | S n' =>
      if (readopen pi =? 0) || killed i then Ok (Return (-1), pi)
      else if nwrite pi =? u32 (nread pi + PIPESIZE) then Ok (SleepAt i, pi)
      else
        '(r, l) ← copyin s pagetable (u64 (addr + i)) 1;
        if r =? -1 then Ok (Return i, pi)
        else
          ch ← arr_get l 0;
          d ← arr_set (pdata pi) (nwrite pi mod PIPESIZE) ch;
          pipewrite_loop n' s pagetable addr killed
            (mk_pipe d (nread pi) (u32 (nwrite pi + 1)) (readopen pi) (writeopen pi)) (i + 1)
  end.

(** A turn of [pipewrite(pi, addr, n)] that resumes at iteration [i]. *)
Definition pipewrite (s : @vm heap) (pagetable : Z) (pi : pipe) (addr n : Z) (killed : Z → bool) (i : Z)
    : outcome (turn * pipe) :=
  pipewrite_loop (Z.to_nat (n - i)) s pagetable addr killed pi i.

(** The copy loop of [piperead]. *)
Fixpoint piperead_loop (n : nat) (s : @vm heap) (pagetable addr : Z) (pi : pipe) (i : Z)
    : outcome (Z * pipe * @vm heap) :=
  match n with
  | O => Ok (i, pi, s)
  | S n' =>
      if nread pi =? nwrite pi then Ok (i, pi, s)
      else
        ch ← arr_get (pdata pi) (nread pi mod PIPESIZE);
        let pi' := mk_pipe (pdata pi) (u32 (nread pi + 1)) (nwrite pi) (readopen pi) (writeopen pi) in
        '(r, s') ← copyout s pagetable (u64 (addr + i)) [ch];
        if r =? -1 then Ok (i, pi', s') else piperead_loop n' s' pagetable addr pi' (i + 1)
  end.

(** A turn of [piperead(pi, addr, n)]. *)
Definition piperead (s : @vm heap) (pagetable : Z) (pi : pipe) (addr n : Z) (killed : bool)
    : outcome (turn * pipe * @vm heap) :=
  if (nread pi =? nwrite pi) && negb (writeopen pi =? 0) then
    if killed then Ok (Return (-1), pi, s) else Ok (SleepAt 0, pi, s)
  else
    '(i, pi', s') ← piperead_loop (Z.to_nat n) s pagetable addr pi 0;
    Ok (Return i, pi', s').

(** ** The queue *)

#[local] Instance pipe_ring : RingSize PIPESIZE (2 ^ 32).
Proof. constructor; [done..|]. reflexivity. Qed.

(** The bytes in the pipe, oldest first. *)
Definition holds (pi : pipe) (q : list Z) : Prop :=
  ring PIPESIZE (2 ^ 32) (pdata pi) (nread pi) (nwrite pi) q ∧ Forall (λ x, 0 ≤ x < 256) q.

(** Both ends as they were. *)
Definition same_ends (pi pi' : pipe) : Prop :=
  readopen pi' = readopen pi ∧ writeopen pi' = writeopen pi.

Lemma copyin_one s T root H U a :
  user_ok s T root H U → reach s T U → 0 ≤ a →
  (∃ x, copyin s root a 1 = Ok (0, [x]) ∧ umem s T a = Some x ∧ 0 ≤ x < 256) ∨
  (∃ l, copyin s root a 1 = Ok (-1, l) ∧ upage s T (a / PGSIZE) = None).
Proof.
  intros Hu Hr Ha.
  destruct (copyin_loop_ok 1 s T root H U a 1 Hu Hr Ha ltac:(lia)) as (r & l & E & Hc).
  unfold copyin. change (Z.to_nat 1) with 1%nat. rewrite E.
  destruct Hc as [(-> & Hl & Hm)|(-> & i & Hi & Hn)].
  - left. destruct l as [|x [|y l]]; unfold zlen in Hl; simpl in Hl; try lia.
    specialize (Hm 0%nat x eq_refl). rewrite Z.add_0_r in Hm. exists x. split_and!; try done.
    + unfold umem in Hm. destruct (upage s T _); [|done]. injection Hm as <-.
      apply (vo_bytes _ _ _ _ (uo_vm _ _ _ _ _ Hu)).
    + unfold umem in Hm. destruct (upage s T _); [|done]. injection Hm as <-.
      apply (vo_bytes _ _ _ _ (uo_vm _ _ _ _ _ Hu)).
  - right. exists l. split; [done|]. by replace (a + i) with a in Hn by lia.
Qed.

Lemma copyout_one s T root H U a x :
  user_ok s T root H U → reach s T U → 0 ≤ a → 0 ≤ x < 256 →
  ∃ r s', copyout s root a [x] = Ok (r, s') ∧ user_ok s' T root H U ∧ reach s' T U ∧
    (∀ w, upage s' T w = upage s T w) ∧ (∀ va, va ≠ a → umem s' T va = umem s T va) ∧
    ((r = 0 ∧ umem s' T a = Some x) ∨ (r = -1 ∧ upage s T (a / PGSIZE) = None)).
Proof.
  intros Hu Hr Ha Hx.
  destruct (copyout_loop_ok 1 T root H U s a [x] Hu Hr Ha) as (r & s' & E & Hu' & Hr' & Hup & Hc & Hf);
    [by apply Forall_singleton|done|].
  exists r, s'. split_and!; try done.
  - intros va Hva. apply Hf. unfold zlen. simpl. lia.
  - destruct Hc as [[-> Hm]|(-> & i & Hi & Hn)].
    + left. split; [done|]. specialize (Hm 0%nat x eq_refl). by rewrite Z.add_0_r in Hm.
    + right. split; [done|]. unfold zlen in Hi. simpl in Hi. by replace (a + i) with a in Hn by lia.
Qed.

(** ** A turn of the writer *)

Lemma pipewrite_loop_ok s T root H U addr killed n pi q i :
  user_ok s T root H U → reach s T U → 0 ≤ addr → 0 ≤ i → addr + i + Z.of_nat n ≤ 2 ^ 64 →
  holds pi q →
  ∃ r pi' bs, pipewrite_loop n s root addr killed pi i = Ok (r, pi') ∧ holds pi' (q ++ bs) ∧
    same_ends pi pi' ∧ zlen bs ≤ Z.of_nat n ∧
    (∀ j x, bs !! j = Some x → umem s T (addr + i + Z.of_nat j) = Some x) ∧
    match r with
    | SleepAt k => k = i + zlen bs ∧ zlen bs < Z.of_nat n ∧ zlen (q ++ bs) = PIPESIZE
    | Return k =>
        (k = -1 ∧ (readopen pi = 0 ∨ killed (i + zlen bs) = true)) ∨
        (k = i + zlen bs ∧ (zlen bs = Z.of_nat n ∨ upage s T ((addr + k) / PGSIZE) = None))
    end.
Proof.
  intros Hu Hr Ha. revert pi q i. induction n as [|n IH]; intros pi q i Hi Hn Hq.
  { exists (Return i), pi, []. rewrite app_nil_r. cbn [pipewrite_loop]. split_and!; try done.
    right. unfold zlen. simpl. split; [lia|]. by left. }
  cbn [pipewrite_loop].
  destruct ((readopen pi =? 0) || killed i) eqn:Eg.
  { exists (Return (-1)), pi, []. rewrite app_nil_r. split_and!; try done. left. split; [done|].
    rewrite Z.add_0_r. lia. }
  pose proof Hq as [Hring Hbytes].
  destruct (Z.eqb_spec (nwrite pi) (u32 (nread pi + PIPESIZE))) as [Ef|Ef].
  { exists (SleepAt i), pi, []. rewrite app_nil_r. split_and!; try done; try (unfold zlen; simpl; lia).
    by apply (ring_full _ _ _ _ _ _ Hring). }
  rewrite u64_small by lia.
  destruct (copyin_one s T root H U (addr + i) Hu Hr ltac:(lia)) as [(x & -> & Hx & Hxb)|(l & -> & Hnone)].
  2: { cbn [mbind outcome_bind]. exists (Return i), pi, []. rewrite app_nil_r.
       split_and!; try done. right. unfold zlen. simpl. split; [lia|by right]. }
  cbn [mbind outcome_bind]. change (0 =? -1) with false. cbv iota.
  change (arr_get [x] 0) with (Ok x). cbn [mbind outcome_bind].
  pose proof (Z.mod_pos_bound (nwrite pi) PIPESIZE ltac:(done)) as Hmod.
  rewrite arr_set_in_range by (rewrite (rg_len _ _ _ _ _ _ Hring); done). cbn [mbind outcome_bind].
  assert (Hcap : zlen q < PIPESIZE).
  { pose proof (rg_cap _ _ _ _ _ _ Hring). assert (zlen q ≠ PIPESIZE); [|lia].
    intros E. apply Ef. by apply (ring_full _ _ _ _ _ _ Hring). }
  pose proof (ring_push _ _ _ _ _ _ x Hring Hcap) as Hring'.
  destruct (IH (mk_pipe (<[Z.to_nat (nwrite pi mod PIPESIZE):=x]> (pdata pi)) (nread pi)
    (u32 (nwrite pi + 1)) (readopen pi) (writeopen pi)) (q ++ [x]) (i + 1)) as
    (r & pi' & bs & E & Hq' & Hs & Hlen & Hm & Hc); [lia|lia| |].
  { split; [exact Hring'|]. apply Forall_app. split; [done|]. by apply Forall_singleton. }
  assert (Ez : zlen (x :: bs) = zlen bs + 1) by (unfold zlen; simpl; lia).
  exists r, pi', (x :: bs). rewrite <- app_assoc in Hq'. split_and!; try done; [lia|..].
  - intros [|j] y Hj; simpl in Hj.
    + injection Hj as <-. by rewrite Z.add_0_r.
    + rewrite <- (Hm j y Hj). f_equal. lia.
  - rewrite Ez. replace (i + (zlen bs + 1)) with (i + 1 + zlen bs) by lia.
    destruct r as [k|k]; simpl in Hc.
    + destruct Hc as [Hc|[Hc1 Hc2]]; [by left|right]. split; [done|]. destruct Hc2; [left; lia|by right].
    + rewrite <- app_assoc in Hc. destruct Hc as (Hc1 & Hc2 & Hc3). split_and!; [done|lia|done].
Qed.

(** ** A turn of the reader *)

Lemma piperead_loop_ok T root H U addr n s pi q i :
  user_ok s T root H U → reach s T U → 0 ≤ addr → 0 ≤ i → addr + i + Z.of_nat n ≤ 2 ^ 64 →
  holds pi q →
  ∃ k pi' s' m, piperead_loop n s root addr pi i = Ok (k, pi', s') ∧
    user_ok s' T root H U ∧ reach s' T U ∧ same_ends pi pi' ∧ holds pi' (drop m q) ∧
    i ≤ k ∧
    (∀ j x, q !! j = Some x → i + Z.of_nat j < k → umem s' T (addr + i + Z.of_nat j) = Some x) ∧
    (∀ va, va < addr + i ∨ addr + k ≤ va → umem s' T va = umem s T va) ∧
    (∀ w, upage s' T w = upage s T w) ∧
    ((m = min n (length q) ∧ k = i + Z.of_nat m) ∨
     (m = S (Z.to_nat (k - i)) ∧ (m ≤ min n (length q))%nat ∧ upage s T ((addr + k) / PGSIZE) = None)).
Proof.
  intros Hu Hr Ha. revert s pi q i Hu Hr. induction n as [|n IH]; intros s pi q i Hu Hr Hi Hn Hq.
  { exists i, pi, s, 0%nat. cbn [piperead_loop]. rewrite drop_0. split_and!; try done; [intros; lia|left; lia]. }
  cbn [piperead_loop]. pose proof Hq as [Hring Hbytes].
  destruct (Z.eqb_spec (nread pi) (nwrite pi)) as [Ee|Ee].
  { assert (q = []) as -> by (apply (ring_empty _ _ _ _ _ _ Hring); done).
    exists i, pi, s, 0%nat. rewrite drop_nil. split_and!; try done. left. cbn [length]. lia. }
  destruct q as [|x q].
  { destruct Ee. symmetry. by apply (ring_empty _ _ _ _ _ _ Hring). }
  destruct (ring_pop _ _ _ _ _ _ _ Hring) as [Hcell Hring'].
  apply Forall_cons_1 in Hbytes as [Hx Hbytes].
  pose proof (Z.mod_pos_bound (nread pi) PIPESIZE ltac:(done)) as Hmod.
  destruct (arr_get_in_range (pdata pi) (nread pi mod PIPESIZE)) as (c & Hc & ->);
    [rewrite (rg_len _ _ _ _ _ _ Hring); done|].
  assert (c = x) as -> by (unfold cell in Hcell; rewrite Hc in Hcell; done).
  cbn [mbind outcome_bind]. rewrite u64_small by lia.
  destruct (copyout_one s T root H U (addr + i) x Hu Hr ltac:(lia) Hx) as
    (r & s1 & -> & Hu1 & Hr1 & Hup1 & Hf1 & Hres). cbn [mbind outcome_bind].
  set (pi1 := mk_pipe (pdata pi) (u32 (nread pi + 1)) (nwrite pi) (readopen pi) (writeopen pi)).
  assert (Hq1 : holds pi1 q) by (split; [exact Hring'|done]).
  destruct Hres as [[-> Hm]|[-> Hnone]].
  2: { change (-1 =? -1) with true. cbv iota. exists i, pi1, s1, 1%nat. simpl drop.
       assert (Hsame : umem s1 T (addr + i) = umem s T (addr + i)).
       { unfold umem. by rewrite Hup1, Hnone. }
       split_and!; try done; [intros; lia| |].
       - intros va _. destruct (decide (va = addr + i)) as [->|Hne]; [done|by apply Hf1].
       - right. simpl. split_and!; [lia|lia|done]. }
  change (0 =? -1) with false. cbv iota.
  destruct (IH s1 pi1 q (i + 1)) as (k & pi' & s' & m & E & Hu' & Hr' & Hs' & Hq' & Hik & Hd & Hf & Hup & Hc');
    try done; [lia|lia|].
  exists k, pi', s', (S m). split_and!; try done; [lia|..].
  - intros [|j] y Hj Hlt; simpl in Hj.
    + injection Hj as <-. rewrite Z.add_0_r. rewrite Hf by lia. done.
    + rewrite <- (Hd j y Hj) by lia. f_equal. lia.
  - intros va Hva. rewrite Hf by lia. apply Hf1. lia.
  - intros w. by rewrite Hup.
  - simpl. rewrite Hup1 in Hc'. destruct Hc' as [[-> ->]|(-> & Hle & Hn')].
    + left. lia.
    + right. split_and!; [lia|lia|done].
Qed.

(** A turn of [pipewrite] on a pipe whose queue is [q], resumed after [i]
    bytes, appends to the queue the next bytes of the writer's memory, as many
    as it moves, and nothing else. It sleeps exactly when the queue is full with
    bytes left to write; it returns [-1] only when the read end is closed or the
    writer was killed; otherwise it returns the count of bytes written since the
    call began, which is the whole request unless the next byte of the buffer is
    not mapped. The counters may wrap around. *)
Theorem pipewrite_correct s T root H U addr n killed pi q i :
  user_ok s T root H U → reach s T U → 0 ≤ addr → 0 ≤ i ≤ n → addr + n ≤ 2 ^ 64 → holds pi q →
  ∃ r pi' bs, pipewrite s root pi addr n killed i = Ok (r, pi') ∧ holds pi' (q ++ bs) ∧
    same_ends pi pi' ∧
    (∀ j x, bs !! j = Some x → umem s T (addr + i + Z.of_nat j) = Some x) ∧
    match r with
    | SleepAt k => k = i + zlen bs ∧ k < n ∧ zlen (q ++ bs) = PIPESIZE
    | Return k =>
        (k = -1 ∧ (readopen pi = 0 ∨ killed (i + zlen bs) = true)) ∨
        (k = i + zlen bs ∧ (k = n ∨ upage s T ((addr + k) / PGSIZE) = None))
    end.
Proof.
  intros Hu Hr Ha Hi Hn Hq.
  destruct (pipewrite_loop_ok s T root H U addr killed (Z.to_nat (n - i)) pi q i)
    as (r & pi' & bs & E & Hq' & Hs & Hlen & Hm & Hc); try done; [lia|lia|].
  exists r, pi', bs. split_and!; try done. destruct r as [k|k].
  - destruct Hc as [Hc|[-> Hc]]; [by left|right]. split; [done|]. destruct Hc; [left; lia|by right].
  - destruct Hc as (-> & Hc & ?). split_and!; [done|lia|done].
Qed.

(** A turn of [piperead] on a pipe whose queue is [q]. With the queue empty
    and the write end open it leaves everything alone, returning [-1] when the
    reader was killed and sleeping otherwise. In every other case it returns the
    number [k] of bytes delivered: the first [k] bytes of the queue appear in
    order at the start of the reader's buffer, no other byte the reader sees
    changes, and [k] is the smaller of the request and the queue length with
    exactly those bytes removed, unless the buffer is not mapped at byte [k], in
    which case one further byte is removed from the queue and lost. *)
Theorem piperead_correct s T root H U addr n killed pi q :
  user_ok s T root H U → reach s T U → 0 ≤ addr → 0 ≤ n → addr + n ≤ 2 ^ 64 → holds pi q →
  ∃ r pi' s', piperead s root pi addr n killed = Ok (r, pi', s') ∧
    if decide (q = [] ∧ writeopen pi ≠ 0) then
      pi' = pi ∧ s' = s ∧ r = if killed then Return (-1) else SleepAt 0
    else
      ∃ k m, r = Return (Z.of_nat k) ∧ holds pi' (drop m q) ∧ same_ends pi pi' ∧
        user_ok s' T root H U ∧
        (∀ j x, q !! j = Some x → (j < k)%nat → umem s' T (addr + Z.of_nat j) = Some x) ∧
        (∀ va, va < addr ∨ addr + Z.of_nat k ≤ va → umem s' T va = umem s T va) ∧
        ((k = min (Z.to_nat n) (length q) ∧ m = k) ∨
         (upage s T ((addr + Z.of_nat k) / PGSIZE) = None ∧ m = S k ∧
          (m ≤ min (Z.to_nat n) (length q))%nat)).
Proof.
  intros Hu Hr Ha Hn Hmax Hq. pose proof Hq as [Hring _]. unfold piperead.
  destruct (decide (q = [] ∧ writeopen pi ≠ 0)) as [[-> Hw]|Hd].
  - assert (nwrite pi = nread pi) as -> by (apply (ring_empty _ _ _ _ _ _ Hring); done).
    rewrite Z.eqb_refl. apply Z.eqb_neq in Hw. rewrite Hw. simpl.
    destruct killed; eauto 10.
  - assert (Hg : (nread pi =? nwrite pi) && negb (writeopen pi =? 0) = false).
    { apply not_true_iff_false. intros [E1 E2]%andb_true_iff. apply Hd. split; [|lia].
      apply (ring_empty _ _ _ _ _ _ Hring). lia. }
    rewrite Hg.
    destruct (piperead_loop_ok T root H U addr (Z.to_nat n) s pi q 0) as
      (k & pi' & s' & m & E & Hu' & _ & Hs' & Hq' & Hk & Hm & Hf & _ & Hc); try done; [lia|].
    rewrite E. cbn [mbind outcome_bind]. exists (Return k), pi', s'. split; [done|].
    rewrite Z.add_0_r in Hm, Hf.
    exists (Z.to_nat k), m. rewrite Z2Nat.id by lia. split_and!; try done.
    + intros j x Hj Hlt. apply Hm; [done|lia].
    + destruct Hc as [[-> ->]|(-> & Hle & Hnone)]; [left|right]; split_and!; try done; lia.
Qed.
End pipe.

(** ** Example *)

(** A pipe whose counters are about to wrap, holding two bytes. *)
Definition demo_pipe : pipe :=
  mk_pipe (replicate 510 0 ++ [65; 66]) (2 ^ 32 - 2) 0 1 1.

Lemma demo_pipe_holds : holds demo_pipe [65; 66].
Proof.
  split; [|repeat constructor; lia]. constructor; try done.
Qed.

Lemma pipewrite_correct_witness :
  ∃ r pi', pipewrite demo_vm2 demo_root demo_pipe 4090 8 (λ _, false) 0 = Ok (r, pi').
Proof.
  destruct demo_vm2_ok as (T & H & U & Hu & Hdom & Hno).
  destruct (pipewrite_correct demo_vm2 T demo_root H U 4090 8 (λ _, false) demo_pipe [65; 66] 0 Hu)
    as (r & pi' & bs & E & _).
  - eapply reach_only; [exact Hu|exact Hno].
  - lia.
  - lia.
  - lia.
  - exact demo_pipe_holds.
  - exists r, pi'. exact E.
Defined.

Lemma piperead_correct_witness :
  ∃ r pi' s', piperead demo_vm2 demo_root demo_pipe 4095 2 false = Ok (r, pi', s').
Proof.
  destruct demo_vm2_ok as (T & H & U & Hu & Hdom & Hno).
  destruct (piperead_correct demo_vm2 T demo_root H U 4095 2 false demo_pipe [65; 66] Hu)
    as (r & pi' & s' & E & _).
  - eapply reach_only; [exact Hu|exact Hno].
  - lia.
  - lia.
  - lia.
  - exact demo_pipe_holds.
  - exists r, pi', s'. exact E.
Defined.
