(* ===== verification/Console.v ===== *)
(** * The console: [kernel/console.c], with [either_copyin] and
    [either_copyout] of [kernel/process/proc.c].

    The three indices of [cons] split the input ring into the lines ready for
    readers and the line being edited. The interrupt handler is verified against
    an abstract line editor, and a turn of [consoleread] against the queue of
    ready bytes. *)

From Stdlib Require Import ZifyBool.
From S2P Require Import Prelude Riscv Ram Kalloc Vm VmProof VmUser VmCopy VmThm Ring Uart Pipe.

Definition BACKSPACE : Z := 0x100.
Definition INPUT_BUF_SIZE : Z := 128.

(** [C('D')] and so on; the codes of backspace, delete, newline and return. *)
Definition C (x : Z) : Z := x - 64.
Definition CTRL_P : Z := C 80.
Definition CTRL_U : Z := C 85.
Definition CTRL_H : Z := C 72.
Definition CTRL_D : Z := C 68.
Definition DEL : Z := 0x7f.
Definition NEWLINE : Z := 10.
Definition RETURN : Z := 13.

Record cons := mk_cons {
  cbuf : list Z;
  cr : Z;
  cw : Z;
  ce : Z;
}.

(** The bytes [consputc] hands to [uartputc_sync]. *)
Definition consputc (c : Z) : list Z := if c =? BACKSPACE then [8; 32; 8] else [u8 c].

(** The loop of control-U; the bytes echoed come with the new state. *)
Fixpoint kill_line (fuel : nat) (st : cons) : outcome (cons * list Z) :=
  match fuel with
  | O => Hang
  | S fuel' =>
      if ce st =? cw st then Ok (st, [])
      else
        c ← arr_get (cbuf st) (u32 (ce st - 1) mod INPUT_BUF_SIZE);
        if c =? NEWLINE then Ok (st, [])
        else
          '(st', l) ← kill_line fuel' (mk_cons (cbuf st) (cr st) (cw st) (u32 (ce st - 1)));
          Ok (st', consputc BACKSPACE ++ l)
  end.

(** [consoleintr]: the new state, the bytes echoed, and whether readers were
    woken; [procdump] is what control-P prints. *)
Definition consoleintr (procdump : list Z) (st : cons) (c : Z) : outcome (cons * list Z * bool) :=
  if c =? CTRL_P then Ok (st, procdump, false)
  else if c =? CTRL_U then
    '(st', l) ← kill_line (S (Z.to_nat (u32 (ce st - cw st)))) st;
    Ok (st', l, false)
  else if (c =? CTRL_H) || (c =? DEL) then
    if negb (ce st =? cw st) then
      Ok (mk_cons (cbuf st) (cr st) (cw st) (u32 (ce st - 1)), consputc BACKSPACE, false)
    else Ok (st, [], false)
  else if negb (c =? 0) && (u32 (ce st - cr st) <? INPUT_BUF_SIZE) then
    let c := if c =? RETURN then NEWLINE else c in
    let echo := consputc c in
    b ← arr_set (cbuf st) (ce st mod INPUT_BUF_SIZE) (u8 c);
    let e := u32 (ce st + 1) in
    if (c =? NEWLINE) || (c =? CTRL_D) || (u32 (e - cr st) =? INPUT_BUF_SIZE) then
      Ok (mk_cons b (cr st) e e, echo, true)
    else Ok (mk_cons b (cr st) (cw st) e, echo, false)
  else Ok (st, [], false).

Section console.
Context {heap : Type} `{AL : Allocator heap}.
Implicit Types (s : @vm heap).

Definition either_copyout (s : @vm heap) (pagetable user_dst dst : Z) (src : list Z) : outcome (Z * @vm heap) :=
  if negb (user_dst =? 0) then copyout s pagetable dst src
  else Ok (0, with_ram s (put (vram s) dst src)).

Definition either_copyin (s : @vm heap) (pagetable user_src src len : Z) : outcome (Z * list Z) :=
  if negb (user_src =? 0) then copyin s pagetable src len
  else Ok (0, get (Z.to_nat len) (vram s) src).

(** A turn of [consolewrite] from byte [i] on, with [n] bytes left: it sleeps in
    [uartputc] when the transmit buffer is full. [woke] accumulates the wakeups. *)
Fixpoint consolewrite_loop (lsr : nat → Z) (n : nat) (s : @vm heap) (pagetable user_src src : Z) (u : uart) (i : Z) (woke : bool)
    : outcome (turn * bool * uart) :=
  match n with
  | O => Ok (Return i, woke, u)
  | S n' =>
      '(r, l) ← either_copyin s pagetable user_src (u64 (src + i)) 1;
      if r =? -1 then Ok (Return i, woke, u)
      else
        c ← arr_get l 0;
        p ← uartputc lsr u c;
        match p with
        | None => Ok (SleepAt i, woke, u)
        | Some (w, u') => consolewrite_loop lsr n' s pagetable user_src src u' (i + 1) (woke || w)
        end
  end.

Definition consolewrite (lsr : nat → Z) (s : @vm heap) (pagetable user_src src n : Z) (u : uart) (i : Z)
    : outcome (turn * bool * uart) :=
  consolewrite_loop lsr (Z.to_nat (n - i)) s pagetable user_src src u i false.

(** A turn of [consoleread] with [n] bytes of the [target] left to read. *)
Fixpoint consoleread_loop (n : nat) (target : Z) (s : @vm heap) (pagetable user_dst dst : Z) (killed : bool) (st : cons)
    : outcome (turn * cons * @vm heap) :=
  match n with
  | O => Ok (Return target, st, s)
  | S n' =>
      let left := Z.of_nat n in
      if cr st =? cw st then
        if killed then Ok (Return (-1), st, s) else Ok (SleepAt (target - left), st, s)
      else
        c ← arr_get (cbuf st) (cr st mod INPUT_BUF_SIZE);
        let st1 := mk_cons (cbuf st) (u32 (cr st + 1)) (cw st) (ce st) in
        if c =? CTRL_D then
          if left <? target then
            Ok (Return (target - left), mk_cons (cbuf st1) (u32 (cr st1 - 1)) (cw st1) (ce st1), s)
          else Ok (Return (target - left), st1, s)
        else
          '(r, s') ← either_copyout s pagetable user_dst dst [c];
          if r =? -1 then Ok (Return (target - left), st1, s')
          else if c =? NEWLINE then Ok (Return (target - (left - 1)), st1, s')
          else consoleread_loop n' target s' pagetable user_dst (u64 (dst + 1)) killed st1
  end.

(** [consoleread(user_dst, dst, n)] resumed after [i] bytes; with a negative [n]
    the loop is not entered and [target - n] is 0. *)
Definition consoleread (s : @vm heap) (pagetable user_dst dst n : Z) (killed : bool) (st : cons) (i : Z)
    : outcome (turn * cons * @vm heap) :=
  consoleread_loop (Z.to_nat (n - i)) (Z.max n 0) s pagetable user_dst (u64 (dst + i)) killed st.
End console.

(** ** The line editor *)

#[local] Instance cons_ring : RingSize INPUT_BUF_SIZE (2 ^ 32).
Proof. constructor; done. Qed.

Definition ends_line (c : Z) : bool := (c =? NEWLINE) || (c =? CTRL_D).

(** [st] holds the bytes [ready] for readers and the unfinished line [edit]. *)
Record editing (st : cons) (ready edit : list Z) : Prop := {
  ed_ring : ring INPUT_BUF_SIZE (2 ^ 32) (cbuf st) (cr st) (ce st) (ready ++ edit);
  ed_ready : ring INPUT_BUF_SIZE (2 ^ 32) (cbuf st) (cr st) (cw st) ready;
  ed_open : Forall (λ c, ends_line c = false) edit;
  ed_room : edit ≠ [] → zlen (ready ++ edit) < INPUT_BUF_SIZE;
  ed_bytes : Forall (λ c, 0 ≤ c < 256) (ready ++ edit);
}.

(** What the handler promises for each key. *)
Definition key (procdump : list Z) (c : Z) (ready edit : list Z) : list Z * list Z * list Z * bool :=
  if c =? CTRL_P then (ready, edit, procdump, false)
  else if c =? CTRL_U then (ready, [], concat (replicate (length edit) [8; 32; 8]), false)
  else if (c =? CTRL_H) || (c =? DEL) then
    (ready, take (length edit - 1) edit, if bool_decide (edit = []) then [] else [8; 32; 8], false)
  else if (c =? 0) || (INPUT_BUF_SIZE <=? zlen (ready ++ edit)) then (ready, edit, [], false)
  else
    let c := if c =? RETURN then NEWLINE else c in
    if ends_line c || (zlen (ready ++ edit) + 1 =? INPUT_BUF_SIZE)
    then (ready ++ edit ++ [c], [], [c], true)
    else (ready, edit ++ [c], [c], false).

Lemma editing_idx st ready edit :
  editing st ready edit → (ce st = cw st ↔ edit = []) ∧ u32 (ce st - cw st) = zlen edit.
Proof.
  intros [Hr Hw _ _ _]. pose proof (ring_w _ _ _ _ _ _ Hr) as Ee. pose proof (ring_w _ _ _ _ _ _ Hw) as Ew.
  pose proof (rg_cap _ _ _ _ _ _ Hr) as Hcap. rewrite Ee, Ew. unfold zlen in *. rewrite length_app in *.
  assert (Ed : u32 ((cr st + Z.of_nat (length ready + length edit)) mod 2 ^ 32 - (cr st + Z.of_nat (length ready)) mod 2 ^ 32)
    = Z.of_nat (length edit)).
  { unfold u32. rewrite <- Zminus_mod. unfold INPUT_BUF_SIZE in Hcap. rewrite Z.mod_small; lia. }
  split; [|exact Ed]. split.
  - intros E. rewrite E, Z.sub_diag in Ed. change (u32 0) with 0 in Ed. destruct edit; [done|simpl in Ed; lia].
  - intros ->. by rewrite Nat.add_0_r.
Qed.

(** Taking back the last byte typed. *)
Lemma editing_erase st ready edit c :
  editing st ready (edit ++ [c]) →
  editing (mk_cons (cbuf st) (cr st) (cw st) (u32 (ce st - 1))) ready edit ∧
  arr_get (cbuf st) (u32 (ce st - 1) mod INPUT_BUF_SIZE) = Ok c ∧ c ≠ NEWLINE.
Proof.
  intros [Hr Hw Ho Hroom Hb]. rewrite app_assoc in Hr, Hroom, Hb.
  destruct (ring_unpush _ _ _ _ _ _ _ Hr) as [Hc Hr'].
  apply Forall_app in Hb as [Hb _]. apply Forall_app in Ho as [Ho Hoc]. apply Forall_cons_1 in Hoc as [Hoc _].
  split_and!.
  - constructor; try done. intros _. assert (Hne : edit ++ [c] ≠ []) by (by destruct edit).
    specialize (Hroom Hne). unfold zlen in *. rewrite length_app in Hroom. simpl in Hroom. lia.
  - pose proof (Z.mod_pos_bound (u32 (ce st - 1)) INPUT_BUF_SIZE ltac:(done)) as Hmod.
    destruct (arr_get_in_range (cbuf st) (u32 (ce st - 1) mod INPUT_BUF_SIZE)) as (c' & Hl & ->);
      [rewrite (rg_len _ _ _ _ _ _ Hr); done|].
    unfold u32 in Hl. rewrite (mod_mod INPUT_BUF_SIZE (2 ^ 32)) in Hl. unfold cell in Hc. by rewrite Hl in Hc; subst.
  - by intros ->.
Qed.

Lemma kill_line_ok fuel st ready edit :
  editing st ready edit → (length edit < fuel)%nat →
  ∃ st', kill_line fuel st = Ok (st', concat (replicate (length edit) [8; 32; 8])) ∧ editing st' ready [].
Proof.
  revert st edit. induction fuel as [|f IH]; intros st edit He Hf; [lia|]. cbn [kill_line].
  destruct (editing_idx _ _ _ He) as [Hi _].
  destruct edit as [|c edit _] using rev_ind.
  - rewrite (proj2 (Z.eqb_eq _ _)) by (by apply Hi). exists st. done.
  - rewrite (proj2 (Z.eqb_neq _ _)) by (rewrite Hi; by destruct edit).
    destruct (editing_erase _ _ _ _ He) as (He' & -> & Hc). cbn [mbind outcome_bind].
    apply Z.eqb_neq in Hc. rewrite Hc. rewrite length_app in *. simpl in Hf.
    destruct (IH _ edit He' ltac:(lia)) as (st' & -> & Hst'). cbn [mbind outcome_bind].
    exists st'. split; [|done]. do 2 f_equal. rewrite Nat.add_comm. done.
Qed.

(** Adding a byte while there is room: to the line being edited, or, when it ends
    the line or fills the buffer, making the whole line ready. *)
Lemma editing_add st ready edit c :
  editing st ready edit → 0 ≤ c < 256 → zlen (ready ++ edit) < INPUT_BUF_SIZE →
  let b := <[Z.to_nat (ce st mod INPUT_BUF_SIZE) := c]> (cbuf st) in
  let e := u32 (ce st + 1) in
  arr_set (cbuf st) (ce st mod INPUT_BUF_SIZE) c = Ok b ∧
  u32 (e - cr st) = zlen (ready ++ edit) + 1 ∧
  editing (mk_cons b (cr st) e e) (ready ++ edit ++ [c]) [] ∧
  (ends_line c = false → zlen (ready ++ edit) + 1 ≠ INPUT_BUF_SIZE →
    editing (mk_cons b (cr st) (cw st) e) ready (edit ++ [c])).
Proof.
  intros [Hr Hw Ho Hroom Hb] Hc Hn b e.
  pose proof (Z.mod_pos_bound (ce st) INPUT_BUF_SIZE ltac:(done)) as Hmod.
  pose proof (ring_push _ _ _ _ _ _ c Hr Hn) as Hr'.
  assert (Ez : zlen ((ready ++ edit) ++ [c]) = zlen (ready ++ edit) + 1)
    by (unfold zlen; rewrite (length_app (ready ++ edit)); simpl; lia).
  assert (Hb' : Forall (λ c, 0 ≤ c < 256) (ready ++ edit ++ [c])).
  { rewrite app_assoc. apply Forall_app. split; [done|]. by apply Forall_singleton. }
  split; [by apply arr_set_in_range; rewrite (rg_len _ _ _ _ _ _ Hr)|].
  split; [rewrite <- Ez; exact (rg_count _ _ _ _ _ _ Hr')|]. rewrite <- app_assoc in Hr'. split.
  - constructor; simpl; try done; rewrite ?app_nil_r; done.
  - intros Hend Hfull. constructor; simpl; try done.
    + destruct Hw as [W1 W2 W3 W4 W5 W6]. constructor; try done; [unfold b; by rewrite zlen_insert|].
      rewrite <- W6 at 2.
      assert (Hcw : ce st mod INPUT_BUF_SIZE = (cr st + Z.of_nat (length (ready ++ edit))) mod INPUT_BUF_SIZE).
      { rewrite (ring_w _ _ _ _ _ _ Hr). apply mod_mod. apply cons_ring. }
      pose proof (content_insert INPUT_BUF_SIZE (2 ^ 32) (cbuf st) (cr st) (length (ready ++ edit)) (ce st) c W1 Hcw ltac:(exact Hn)) as Hci.
      apply (f_equal (take (length ready))) in Hci. unfold content in *.
      rewrite <- !fmap_take, !take_seq, length_app, Nat.min_l in Hci by lia. exact Hci.
    + apply Forall_app. split; [done|]. by apply Forall_singleton.
    + intros _. rewrite app_assoc, Ez. lia.
Qed.

(** C36: The console interrupt handler implements the line editor on every key:
    control-P prints the process list and changes nothing else; control-U erases the whole line being edited, backspace and delete its last
    byte, both echoing one rub-out per byte and never touching a finished line;
    any other byte but NUL is echoed and added while the buffer has room (return
    becomes newline), and ends the line, making it available and waking the
    readers, when it is a newline or control-D or fills the buffer. The handler
    always returns, and a full buffer drops input rather than overwriting it. *)
Theorem consoleintr_correct procdump st ready edit c :
  editing st ready edit → 0 ≤ c < 256 →
  let '(ready', edit', echo, woke) := key procdump c ready edit in
  ∃ st', consoleintr procdump st c = Ok (st', echo, woke) ∧ editing st' ready' edit'.
Proof.
  intros He Hc. destruct (editing_idx _ _ _ He) as [Hi Hlen]. unfold key, consoleintr.
  destruct (c =? CTRL_P); [by exists st|].
  destruct (c =? CTRL_U).
  { rewrite Hlen. destruct (kill_line_ok (S (Z.to_nat (zlen edit))) st ready edit He) as (st' & -> & He').
    { rewrite to_nat_zlen. lia. }
    cbn [mbind outcome_bind]. by exists st'. }
  destruct ((c =? CTRL_H) || (c =? DEL)).
  { destruct edit as [|x edit _] using rev_ind.
    - rewrite (proj2 (Z.eqb_eq _ _)) by (by apply Hi). by exists st.
    - rewrite (proj2 (Z.eqb_neq _ _)) by (rewrite Hi; by destruct edit).
      destruct (editing_erase _ _ _ _ He) as (He' & _ & _). rewrite bool_decide_false by (by destruct edit).
      rewrite length_app. simpl length. rewrite Nat.add_sub, take_app_length. eexists. split; [done|exact He']. }
  rewrite <- (rg_count _ _ _ _ _ _ (ed_ring _ _ _ He)).
  change ((ce st - cr st) mod 2 ^ 32) with (u32 (ce st - cr st)).
  pose proof (rg_count _ _ _ _ _ _ (ed_ring _ _ _ He)) as Hcount.
  change ((ce st - cr st) mod 2 ^ 32) with (u32 (ce st - cr st)) in Hcount.
  destruct (Z.eqb_spec c 0) as [->|Hc0]; [by exists st|].
  destruct (Z.leb_spec INPUT_BUF_SIZE (u32 (ce st - cr st))) as [Hfull|Hspace]; simpl.
  { rewrite (proj2 (Z.ltb_ge _ _)) by lia. by exists st. }
  rewrite (proj2 (Z.ltb_lt _ _)) by lia.
  set (c' := if c =? RETURN then NEWLINE else c).
  assert (Hc' : 0 ≤ c' < 256) by (unfold c', NEWLINE; destruct (c =? RETURN); lia).
  assert (Eecho : consputc c' = [c']).
  { unfold consputc. rewrite (proj2 (Z.eqb_neq _ _)) by (unfold BACKSPACE; lia). by rewrite u8_small. }
  rewrite u8_small by done.
  destruct (editing_add st ready edit c' He Hc' ltac:(lia)) as (Eset & Ecount & Hdone & Hmore).
  rewrite Eset. cbn [mbind outcome_bind]. rewrite Ecount, <- Hcount, Eecho.
  fold (ends_line c'). destruct (ends_line c' || _) eqn:Eend; [by eexists|].
  eexists. split; [done|]. apply Hmore; lia.
Qed.

(** ** Reading a line *)

(** Consuming a ready byte. *)
Lemma editing_pop st c ready edit :
  editing st (c :: ready) edit →
  editing (mk_cons (cbuf st) (u32 (cr st + 1)) (cw st) (ce st)) ready edit ∧
  arr_get (cbuf st) (cr st mod INPUT_BUF_SIZE) = Ok c ∧ 0 ≤ c < 256 ∧ cr st ≠ cw st ∧
  u32 (u32 (cr st + 1) - 1) = cr st.
Proof.
  intros [Hr Hw Ho Hroom Hb]. cbn [app] in Hr, Hb.
  destruct (ring_pop _ _ _ _ _ _ _ Hr) as [Hc Hr']. destruct (ring_pop _ _ _ _ _ _ _ Hw) as [_ Hw'].
  apply Forall_cons_1 in Hb as [Hcb Hb].
  split; [|split; [|split; [done|split]]].
  - constructor; try done. intros Hne. specialize (Hroom Hne). unfold zlen in *. simpl in Hroom. lia.
  - pose proof (Z.mod_pos_bound (cr st) INPUT_BUF_SIZE ltac:(done)) as Hmod.
    destruct (arr_get_in_range (cbuf st) (cr st mod INPUT_BUF_SIZE)) as (c' & Hl & ->);
      [rewrite (rg_len _ _ _ _ _ _ Hr); done|].
    unfold cell in Hc. by rewrite Hl in Hc; subst.
  - intros E. by apply (eq_sym), (ring_empty _ _ _ _ _ _ Hw) in E.
  - unfold u32. rewrite Zminus_mod_idemp_l. replace (cr st + 1 - 1) with (cr st) by lia.
    apply Z.mod_small, (rg_r _ _ _ _ _ _ Hr).
Qed.

Definition plain (l : list Z) : Prop := Forall (λ c, ends_line c = false) l.

(** What a turn of [consoleread] may do with the [ready] bytes when [left] bytes
    are asked for and [i] were already read: it delivers [d], leaves [rest] and
    ends with [r]. *)
Inductive read_turn (killed : bool) (i left : Z) : list Z → list Z → list Z → turn → Prop :=
| turn_full d rest : plain d → zlen d = left → read_turn killed i left (d ++ rest) d rest (Return (i + left))
| turn_line d rest : plain d → zlen d < left →
    read_turn killed i left (d ++ NEWLINE :: rest) (d ++ [NEWLINE]) rest (Return (i + zlen d + 1))
| turn_eof d rest : plain d → zlen d < left →
    read_turn killed i left (d ++ CTRL_D :: rest) d
      (if i + zlen d =? 0 then rest else CTRL_D :: rest) (Return (i + zlen d))
| turn_wait d : plain d → zlen d < left →
    read_turn killed i left d d [] (if killed then Return (-1) else SleepAt (i + zlen d)).

Lemma read_turn_cons killed i left c ready d rest r :
  ends_line c = false → 0 ≤ i → read_turn killed (i + 1) (left - 1) ready d rest r →
  read_turn killed i left (c :: ready) (c :: d) rest r.
Proof.
  intros Hc Hi H. assert (Ez : ∀ l, zlen (c :: l) = zlen l + 1) by (intros; unfold zlen; simpl; lia).
  assert (Hp : ∀ l, plain l → plain (c :: l)) by (by constructor).
  destruct H as [d rest Hd Hl|d rest Hd Hl|d rest Hd Hl|d Hd Hl].
  - replace (i + 1 + (left - 1)) with (i + left) by lia. apply (turn_full _ _ _ (c :: d) rest); [auto|rewrite Ez; lia].
  - replace (i + 1 + zlen d + 1) with (i + zlen (c :: d) + 1) by (rewrite Ez; lia).
    apply (turn_line _ _ _ (c :: d) rest); [auto|rewrite Ez; lia].
  - replace (i + 1 + zlen d) with (i + zlen (c :: d)) by (rewrite Ez; lia).
    apply (turn_eof _ _ _ (c :: d) rest); [auto|rewrite Ez; lia].
  - replace (i + 1 + zlen d) with (i + zlen (c :: d)) by (rewrite Ez; lia).
    apply (turn_wait _ _ _ (c :: d)); [auto|rewrite Ez; lia].
Qed.

Section reading.
Context {heap : Type} `{AL : Allocator heap}.
Implicit Types (s : @vm heap).

(** [s'] differs from [s] in the memory of the process by [d] at [a]. *)
Definition stored (s s' : @vm heap) (T : tables) (a : Z) (d : list Z) : Prop :=
  (∀ j x, d !! j = Some x → umem s' T (a + Z.of_nat j) = Some x) ∧
  (∀ va, va < a ∨ a + zlen d ≤ va → umem s' T va = umem s T va).

Lemma stored_nil s T a : stored s s T a [].
Proof. by split. Qed.

Lemma stored_cons s s1 s2 T a c d :
  umem s1 T a = Some c → (∀ va, va ≠ a → umem s1 T va = umem s T va) → stored s1 s2 T (a + 1) d →
  stored s s2 T a (c :: d).
Proof.
  intros H0 Hf [Hd Hf']. split.
  - intros [|j] x Hj; simpl in Hj.
    + injection Hj as <-. rewrite Z.add_0_r, Hf' by lia. done.
    + rewrite <- (Hd j x Hj). f_equal. lia.
  - intros va Hva. unfold zlen in *. simpl in Hva. rewrite Hf' by lia. apply Hf. lia.
Qed.

Lemma consoleread_loop_ok T root H U killed edit n target s dst st ready i :
  user_ok s T root H U → reach s T U → 0 ≤ dst → 0 ≤ i → target = i + Z.of_nat n →
  dst + Z.of_nat n ≤ 2 ^ 64 - 1 →
  (∀ j, 0 ≤ j < Z.of_nat n → is_Some (upage s T ((dst + j) / PGSIZE))) →
  editing st ready edit →
  ∃ r st' s' d rest, consoleread_loop n target s root 1 dst killed st = Ok (r, st', s') ∧
    read_turn killed i (Z.of_nat n) ready d rest r ∧ editing st' rest edit ∧
    user_ok s' T root H U ∧ stored s s' T dst d.
Proof.
  revert s dst st ready i. induction n as [|n IH]; intros s dst st ready i Hu Hre Hdst Hi Ht Hmax Hmap He.
  { exists (Return target), st, s, [], ready. split; [done|].
    split; [|split; [done|split; [done|apply stored_nil]]].
    replace target with (i + Z.of_nat 0) by lia. apply (turn_full _ _ _ []); [constructor|done]. }
  cbn [consoleread_loop]. destruct ready as [|c ready].
  { destruct He as [Hr Hw Ho Hroom Hb]. pose proof (proj2 (ring_empty _ _ _ _ _ _ Hw) eq_refl) as E.
    rewrite (proj2 (Z.eqb_eq _ _)) by done. exists (if killed then Return (-1) else SleepAt (i + zlen (@nil Z))), st, s, [], [].
    split_and!; [destruct killed; [done|]|apply turn_wait; [constructor|unfold zlen; simpl; lia]|by constructor|done|apply stored_nil].
    do 4 f_equal. unfold zlen. simpl. lia. }
  destruct (editing_pop _ _ _ _ He) as (He' & Hget & Hc & Hne & Hback).
  rewrite (proj2 (Z.eqb_neq _ _)) by done. rewrite Hget. cbn [mbind outcome_bind].
  destruct (Z.eqb_spec c CTRL_D) as [->|HnD].
  { exists (Return (i + zlen (@nil Z))), (if i + zlen (@nil Z) =? 0 then mk_cons (cbuf st) (u32 (cr st + 1)) (cw st) (ce st) else st),
      s, [], (if i + zlen (@nil Z) =? 0 then ready else CTRL_D :: ready).
    change (zlen (@nil Z)) with 0. replace (target - Z.of_nat (S n)) with (i + 0) by lia.
    assert (Hrt : read_turn killed i (Z.of_nat (S n)) ([] ++ CTRL_D :: ready) []
      (if i + zlen (@nil Z) =? 0 then ready else CTRL_D :: ready) (Return (i + zlen (@nil Z)))).
    { apply turn_eof; [constructor|unfold zlen; simpl; lia]. }
    change (zlen (@nil Z)) with 0 in Hrt.
    destruct (Z.eqb_spec (i + 0) 0) as [E0|E0].
    - rewrite (proj2 (Z.ltb_ge _ _)) by lia. split; [done|]. split; [done|]. split; [done|]. split; [done|apply stored_nil].
    - rewrite (proj2 (Z.ltb_lt _ _)) by lia. cbn [cbuf cr cw ce]. rewrite Hback. split; [by destruct st|].
      split; [done|]. split; [done|]. split; [done|apply stored_nil]. }
  change (either_copyout s root 1 dst [c]) with (copyout s root dst [c]).
  destruct (copyout_one s T root H U dst c Hu Hre Hdst Hc) as (r & s1 & -> & Hu1 & Hr1 & Hup1 & Hf1 & Hres).
  cbn [mbind outcome_bind]. destruct Hres as [[-> Hm]|[-> Hnone]].
  2: { destruct (Hmap 0) as [x Hx]; [lia|]. rewrite Z.add_0_r in Hx. by rewrite Hx in Hnone. }
  change (0 =? -1) with false. cbv iota.
  destruct (Z.eqb_spec c NEWLINE) as [->|HnN].
  { eexists (Return (i + zlen (@nil Z) + 1)), _, s1, ([] ++ [NEWLINE]), ready.
    split_and!; [|apply (turn_line _ _ _ [] ready); [constructor|unfold zlen; simpl; lia]|exact He'|done|].
    - do 4 f_equal. unfold zlen. simpl. lia.
    - eapply stored_cons; [exact Hm|exact Hf1|apply stored_nil]. }
  assert (Hplain : ends_line c = false) by (unfold ends_line; lia).
  rewrite u64_small by lia.
  destruct (IH s1 (dst + 1) (mk_cons (cbuf st) (u32 (cr st + 1)) (cw st) (ce st)) ready (i + 1) Hu1 Hr1) as (r & st' & s' & d & rest & E & Hrt & He2 & Hu2 & Hst2); try done; try lia.
  { intros j Hj. rewrite Hup1. replace (dst + 1 + j) with (dst + (j + 1)) by lia. apply Hmap. lia. }
  exists r, st', s', (c :: d), rest. rewrite E. split_and!; try done.
  - apply read_turn_cons; [done|done|]. by replace (Z.of_nat (S n) - 1) with (Z.of_nat n) by lia.
  - by eapply stored_cons.
Qed.

(** A turn of [consoleread] into a mapped buffer delivers bytes from the
    front of the ready queue, in order, until the first of: the count is reached;
    a newline was delivered; control-D is next, which is never delivered and is
    consumed only when the read would return 0 (so that a reader gets the bytes
    before it first and the end of file on the next call); the queue is empty, in
    which case the call sleeps, or returns -1 when the reader was killed. The line
    being edited and all memory outside the delivered bytes are unchanged. *)
Theorem consoleread_correct T root H U killed edit s dst n i st ready :
  user_ok s T root H U → reach s T U → 0 ≤ dst → 0 ≤ i ≤ n → dst + n < 2 ^ 64 →
  (∀ j, i ≤ j < n → is_Some (upage s T ((dst + j) / PGSIZE))) →
  editing st ready edit →
  ∃ r st' s' d rest, consoleread s root 1 dst n killed st i = Ok (r, st', s') ∧
    read_turn killed i (n - i) ready d rest r ∧ editing st' rest edit ∧
    user_ok s' T root H U ∧ stored s s' T (dst + i) d.
Proof.
  intros Hu Hr Hdst Hi Hmax Hmap He. unfold consoleread. rewrite u64_small, Z.max_l by lia.
  destruct (consoleread_loop_ok T root H U killed edit (Z.to_nat (n - i)) n s (dst + i) st ready i)
    as (r & st' & s' & d & rest & E & Hrt & He' & Hu' & Hst); try done; try lia.
  { intros j Hj. replace (dst + i + j) with (dst + (i + j)) by lia. apply Hmap. lia. }
  rewrite Z2Nat.id in Hrt by lia. exists r, st', s', d, rest. done.
Qed.
End reading.

(** ** Example *)

(** Both pages of the example address space are mapped for user code. *)
Lemma demo_mapped T H U w :
  user_ok demo_vm2 T demo_root H U → 0 ≤ w < 2 → is_Some (upage demo_vm2 T w).
Proof.
  intros Hu Hw. pose proof (walkaddr_ok demo_vm2 T demo_root H U w Hu ltac:(lia)) as E.
  destruct (upage demo_vm2 T w); [done|]. exfalso.
  assert (w = 0 ∨ w = 1) as [-> | ->] by lia.
  - assert (Hc : match walkaddr demo_vm2 demo_root (0 * PGSIZE) with Ok p => negb (p =? 0) | _ => false end = true)
      by (vm_compute; reflexivity). by rewrite E in Hc.
  - assert (Hc : match walkaddr demo_vm2 demo_root (1 * PGSIZE) with Ok p => negb (p =? 0) | _ => false end = true)
      by (vm_compute; reflexivity). by rewrite E in Hc.
Qed.

Definition demo_cons : cons := mk_cons (replicate 126 0 ++ [104; 10]) (2 ^ 32 - 2) 0 0.

Lemma demo_cons_ok : editing demo_cons [104; 10] [].
Proof. constructor; try by constructor. repeat constructor; lia. Qed.

Lemma consoleintr_correct_witness :
  ∃ st', consoleintr [] demo_cons 120 = Ok (st', [120], false).
Proof.
  destruct (consoleintr_correct [] demo_cons [104; 10] [] 120 demo_cons_ok ltac:(lia)) as (st' & E & _).
  exists st'. exact E.
Defined.

Lemma consoleread_correct_witness :
  ∃ r st' s', consoleread demo_vm2 demo_root 1 4095 8 false demo_cons 0 = Ok (r, st', s').
Proof.
  destruct demo_vm2_ok as (T & H & U & Hu & Hdom & Hno).
  destruct (consoleread_correct T demo_root H U false [] demo_vm2 4095 8 0 demo_cons [104; 10] Hu)
    as (r & st' & s' & d & rest & E & _).
  - eapply reach_only; [exact Hu|exact Hno].
  - lia.
  - lia.
  - lia.
  - intros j Hj. apply (demo_mapped T H U _ Hu). unfold PGSIZE. Z.to_euclidean_division_equations. lia.
  - exact demo_cons_ok.
  - exists r, st', s'. exact E.
Defined.
