(* ===== verification/Kern.v ===== *)
(** * The state of the kernel: [kernel/process/proc.h], [kernel/file/file.h].

    One record holds what the components above the file system share: memory
    and its allocator, the file system, the open files and pipes by address, the
    process table, the clock, the console and what was printed on it. Locks are
    not part of it: an operation of this model runs from entry to return on one
    CPU, and one that has to sleep does not return ([Hang]). The process that
    calls an operation, [myproc()], is the argument [cur], an index into the
    table. A null pointer is [None] (or address 0). *)

From S2P Require Import Prelude Riscv Ram Kalloc Vm Fs Uart Pipe Console.

Definition NOFILE : Z := 16.
Definition NDEV : Z := 10.
Definition CONSOLE : Z := 1.

Inductive procstate := UNUSED | USED | SLEEPING | RUNNABLE | RUNNING | ZOMBIE.

#[global] Instance procstate_eq_dec : EqDecision procstate.
Proof. solve_decision. Defined.

(** The addresses processes sleep on. *)
Inductive channel :=
| ChProc (p : Z)       (* a [struct proc], in [wait] *)
| ChTicks              (* [&ticks] *)
| ChNread (pi : Z)     (* [&pi->nread] *)
| ChNwrite (pi : Z)    (* [&pi->nwrite] *)
| ChCons               (* [&cons.r] *)
| ChUart               (* [&uart_tx_r] *)
| ChLock (lk : Z).     (* a sleep lock *)

#[global] Instance channel_eq_dec : EqDecision channel.
Proof. solve_decision. Defined.

Record proc := mk_proc {
  pstate : procstate;
  pchan : option channel;
  pkilled : Z;
  xstate : Z;
  pid : Z;
  parent : option Z;
  kstack : Z;
  psz : Z;
  pagetable : Z;
  trapframe : Z;
  context_ra : Z;
  context_sp : Z;
  ofile : list (option Z);
  cwd : option Z;
  pname : list Z;
}.

Inductive fd_type := FD_NONE | FD_PIPE | FD_INODE | FD_DEVICE.

#[global] Instance fd_type_eq_dec : EqDecision fd_type.
Proof. solve_decision. Defined.

Record file := mk_file {
  ftype : fd_type;
  fref : Z;
  readable : Z;
  writable : Z;
  fpipe : Z;
  fip : option Z;
  foff : Z;
  fmajor : Z;
}.

Definition set_fref (f : file) (r : Z) : file :=
  mk_file (ftype f) r (readable f) (writable f) (fpipe f) (fip f) (foff f) (fmajor f).
Definition set_foff (f : file) (o : Z) : file :=
  mk_file (ftype f) (fref f) (readable f) (writable f) (fpipe f) (fip f) o (fmajor f).

Definition set_pstate (p : proc) (x : procstate) : proc :=
  mk_proc x (pchan p) (pkilled p) (xstate p) (pid p) (parent p) (kstack p) (psz p) (pagetable p) (trapframe p)
    (context_ra p) (context_sp p) (ofile p) (cwd p) (pname p).
Definition set_pchan (p : proc) (x : option channel) : proc :=
  mk_proc (pstate p) x (pkilled p) (xstate p) (pid p) (parent p) (kstack p) (psz p) (pagetable p) (trapframe p)
    (context_ra p) (context_sp p) (ofile p) (cwd p) (pname p).
Definition set_pkilled (p : proc) (x : Z) : proc :=
  mk_proc (pstate p) (pchan p) x (xstate p) (pid p) (parent p) (kstack p) (psz p) (pagetable p) (trapframe p)
    (context_ra p) (context_sp p) (ofile p) (cwd p) (pname p).
Definition set_xstate (p : proc) (x : Z) : proc :=
  mk_proc (pstate p) (pchan p) (pkilled p) x (pid p) (parent p) (kstack p) (psz p) (pagetable p) (trapframe p)
    (context_ra p) (context_sp p) (ofile p) (cwd p) (pname p).
Definition set_pid (p : proc) (x : Z) : proc :=
  mk_proc (pstate p) (pchan p) (pkilled p) (xstate p) x (parent p) (kstack p) (psz p) (pagetable p) (trapframe p)
    (context_ra p) (context_sp p) (ofile p) (cwd p) (pname p).
Definition set_parent (p : proc) (x : option Z) : proc :=
  mk_proc (pstate p) (pchan p) (pkilled p) (xstate p) (pid p) x (kstack p) (psz p) (pagetable p) (trapframe p)
    (context_ra p) (context_sp p) (ofile p) (cwd p) (pname p).
Definition set_psz (p : proc) (x : Z) : proc :=
  mk_proc (pstate p) (pchan p) (pkilled p) (xstate p) (pid p) (parent p) (kstack p) x (pagetable p) (trapframe p)
    (context_ra p) (context_sp p) (ofile p) (cwd p) (pname p).
Definition set_pagetable (p : proc) (x : Z) : proc :=
  mk_proc (pstate p) (pchan p) (pkilled p) (xstate p) (pid p) (parent p) (kstack p) (psz p) x (trapframe p)
    (context_ra p) (context_sp p) (ofile p) (cwd p) (pname p).
Definition set_trapframe (p : proc) (x : Z) : proc :=
  mk_proc (pstate p) (pchan p) (pkilled p) (xstate p) (pid p) (parent p) (kstack p) (psz p) (pagetable p) x
    (context_ra p) (context_sp p) (ofile p) (cwd p) (pname p).
Definition set_context (p : proc) (ra sp : Z) : proc :=
  mk_proc (pstate p) (pchan p) (pkilled p) (xstate p) (pid p) (parent p) (kstack p) (psz p) (pagetable p) (trapframe p)
    ra sp (ofile p) (cwd p) (pname p).
Definition set_ofile (p : proc) (x : list (option Z)) : proc :=
  mk_proc (pstate p) (pchan p) (pkilled p) (xstate p) (pid p) (parent p) (kstack p) (psz p) (pagetable p) (trapframe p)
    (context_ra p) (context_sp p) x (cwd p) (pname p).
Definition set_cwd (p : proc) (x : option Z) : proc :=
  mk_proc (pstate p) (pchan p) (pkilled p) (xstate p) (pid p) (parent p) (kstack p) (psz p) (pagetable p) (trapframe p)
    (context_ra p) (context_sp p) (ofile p) x (pname p).
Definition set_pname (p : proc) (x : list Z) : proc :=
  mk_proc (pstate p) (pchan p) (pkilled p) (xstate p) (pid p) (parent p) (kstack p) (psz p) (pagetable p) (trapframe p)
    (context_ra p) (context_sp p) (ofile p) (cwd p) x.

(** [proc[i].state == SLEEPING && proc[i].chan == chan] makes process [i]
    runnable, unless it is the caller. *)
Definition wake_one (cur : option Z) (chan : channel) (i : nat) (p : proc) : proc :=
  if bool_decide (cur ≠ Some (Z.of_nat i) ∧ pstate p = SLEEPING ∧ pchan p = Some chan)
  then set_pstate p RUNNABLE else p.

(** The loop of [wakeup] over the process table. *)
Definition wake_all (cur : option Z) (chan : channel) (ps : list proc) : list proc :=
  imap (wake_one cur chan) ps.

Section kern.
Context {heap : Type} `{AL : Allocator heap}.

Record kern := mk_kern {
  kvm : @vm heap;
  kfs : fs;
  kfiles : gmap Z file;
  kpipes : gmap Z pipe;
  procs : list proc;
  nextpid : Z;
  initproc : option Z;
  kticks : Z;
  kcons : cons;
  kuart : uart;
  kout : list Z;   (* the bytes handed to [consputc] *)
}.

Definition with_vm (k : kern) (x : @vm heap) : kern :=
  mk_kern x (kfs k) (kfiles k) (kpipes k) (procs k) (nextpid k) (initproc k) (kticks k) (kcons k) (kuart k) (kout k).
Definition with_fs (k : kern) (x : fs) : kern :=
  mk_kern (kvm k) x (kfiles k) (kpipes k) (procs k) (nextpid k) (initproc k) (kticks k) (kcons k) (kuart k) (kout k).
Definition with_files (k : kern) (x : gmap Z file) : kern :=
  mk_kern (kvm k) (kfs k) x (kpipes k) (procs k) (nextpid k) (initproc k) (kticks k) (kcons k) (kuart k) (kout k).
Definition with_pipes (k : kern) (x : gmap Z pipe) : kern :=
  mk_kern (kvm k) (kfs k) (kfiles k) x (procs k) (nextpid k) (initproc k) (kticks k) (kcons k) (kuart k) (kout k).
Definition with_procs (k : kern) (x : list proc) : kern :=
  mk_kern (kvm k) (kfs k) (kfiles k) (kpipes k) x (nextpid k) (initproc k) (kticks k) (kcons k) (kuart k) (kout k).
Definition with_nextpid (k : kern) (x : Z) : kern :=
  mk_kern (kvm k) (kfs k) (kfiles k) (kpipes k) (procs k) x (initproc k) (kticks k) (kcons k) (kuart k) (kout k).
Definition with_initproc (k : kern) (x : option Z) : kern :=
  mk_kern (kvm k) (kfs k) (kfiles k) (kpipes k) (procs k) (nextpid k) x (kticks k) (kcons k) (kuart k) (kout k).
Definition with_ticks (k : kern) (x : Z) : kern :=
  mk_kern (kvm k) (kfs k) (kfiles k) (kpipes k) (procs k) (nextpid k) (initproc k) x (kcons k) (kuart k) (kout k).
Definition with_cons (k : kern) (x : cons) : kern :=
  mk_kern (kvm k) (kfs k) (kfiles k) (kpipes k) (procs k) (nextpid k) (initproc k) (kticks k) x (kuart k) (kout k).
Definition with_uart (k : kern) (x : uart) : kern :=
  mk_kern (kvm k) (kfs k) (kfiles k) (kpipes k) (procs k) (nextpid k) (initproc k) (kticks k) (kcons k) x (kout k).
Definition with_out (k : kern) (x : list Z) : kern :=
  mk_kern (kvm k) (kfs k) (kfiles k) (kpipes k) (procs k) (nextpid k) (initproc k) (kticks k) (kcons k) (kuart k) x.

(** Dereferencing pointers to the structures. *)
Definition get_file (k : kern) (f : Z) : outcome file :=
  match kfiles k !! f with Some x => Ok x | None => Fault end.
Definition put_file (k : kern) (f : Z) (x : file) : kern := with_files k (<[f := x]> (kfiles k)).
Definition get_pipe (k : kern) (pi : Z) : outcome pipe :=
  match kpipes k !! pi with Some x => Ok x | None => Fault end.
Definition put_pipe (k : kern) (pi : Z) (x : pipe) : kern := with_pipes k (<[pi := x]> (kpipes k)).
Definition get_proc (k : kern) (i : Z) : outcome proc := arr_get (procs k) i.
Definition put_proc (k : kern) (i : Z) (x : proc) : outcome kern :=
  ps ← arr_set (procs k) i x; Ok (with_procs k ps).
Definition get_ip (ip : option Z) : outcome Z :=
  match ip with Some x => Ok x | None => Fault end.

Definition wakeup (k : kern) (cur : option Z) (chan : channel) : kern :=
  with_procs k (wake_all cur chan (procs k)).
End kern.
