(* ===== verification/File.v ===== *)
(** * Open files: [kernel/file/file.c], with [pipealloc] and [pipeclose] of
    [kernel/file/pipe.c].

    An open file lives at the address [buddy_malloc] gave for it. The constants
    [true] and [false] are those of [kernel/core/type.h]. *)

From Stdlib Require Import ZifyBool.
From S2P Require Import Prelude Riscv Ram Kalloc Vm Block Bio Log Fs Uart Pipe Console Kern.

Definition TRUE : Z := 1.
Definition FALSE : Z := 2.

(** [sizeof(struct file)]. *)
Definition FILE_SIZE : Z := 64.

(** The bytes of a [struct stat]; [pad] is what the four bytes of padding
    before [size] hold, which [stati] does not set. *)
Definition stat_bytes (st : stat) (pad : list Z) : list Z :=
  to_le 4 (st_dev st) ++ to_le 4 (st_ino st) ++ to_le 2 (st_type st) ++ to_le 2 (st_nlink st)
  ++ pad ++ to_le 8 (st_size st).

Section file.
Context {heap : Type} `{AL : Allocator heap}.
Implicit Types (k : @kern heap).

Definition buddy_malloc_k (k : @kern heap) (n : Z) : outcome (Z * @kern heap) :=
  '(p, h) ← al_malloc (vheap (kvm k)) n; Ok (p, with_vm k (mk_vm h (vram (kvm k)))).
Definition buddy_free_k (k : @kern heap) (p : Z) : outcome (@kern heap) :=
  h ← al_free (vheap (kvm k)) p; Ok (with_vm k (mk_vm h (vram (kvm k)))).

Definition filealloc (k : @kern heap) : outcome (Z * @kern heap) :=
  '(f, k) ← buddy_malloc_k k FILE_SIZE;
  if f =? 0 then Fault
  else Ok (f, put_file k f (mk_file FD_NONE 1 FALSE FALSE 0 None 0 0)).

Definition filedup (k : @kern heap) (f : Z) : outcome (@kern heap) :=
  x ← get_file k f;
  if fref x <? 1 then Panic "filedup on a free file"
  else Ok (put_file k f (set_fref x (i32 (fref x + 1)))).

Definition pipeclose (k : @kern heap) (cur : option Z) (pi writable : Z) : outcome (@kern heap) :=
  x ← get_pipe k pi;
  let '(x, k) :=
    if negb (writable =? 0) then
      let x := mk_pipe (pdata x) (nread x) (nwrite x) (readopen x) 0 in
      (x, wakeup (put_pipe k pi x) cur (ChNread pi))
    else
      let x := mk_pipe (pdata x) (nread x) (nwrite x) 0 (writeopen x) in
      (x, wakeup (put_pipe k pi x) cur (ChNwrite pi)) in
  if (readopen x =? 0) && (writeopen x =? 0) then
    vm ← vm_free (kvm k) pi;
    Ok (with_pipes (with_vm k vm) (delete pi (kpipes k)))
  else Ok k.

Definition fileclose (k : @kern heap) (cur : option Z) (f : Z) : outcome (@kern heap) :=
  x ← get_file k f;
  if fref x <? 1 then Panic "fileclose on a free file"
  else
    let k := put_file k f (set_fref x (fref x - 1)) in
    if 0 <? fref x - 1 then Ok k
    else
      k ← (if bool_decide (ftype x = FD_PIPE) then pipeclose k cur (fpipe x) (writable x)
           else if bool_decide (ftype x = FD_INODE ∨ ftype x = FD_DEVICE) then
             s ← fbegin_op (kfs k);
             ip ← get_ip (fip x);
             s ← iput s ip;
             s ← fend_op s;
             Ok (with_fs k s)
           else Ok k);
      k ← buddy_free_k k f;
      Ok (with_files k (delete f (kfiles k))).

(** [pagetable] is [myproc()->pagetable]. *)
Definition filestat (k : @kern heap) (pagetable f addr : Z) (pad : list Z) : outcome (Z * @kern heap) :=
  x ← get_file k f;
  if bool_decide (ftype x = FD_INODE ∨ ftype x = FD_DEVICE) then
    ip ← get_ip (fip x);
    s ← ilock (kfs k) ip;
    y ← get_inode s ip;
    let st := stati y in
    s ← iunlock s ip;
    '(status, vm) ← copyout (kvm k) pagetable addr (stat_bytes st pad);
    Ok (if status <? 0 then -1 else 0, with_vm (with_fs k s) vm)
  else Ok (-1, k).

(** Running a call that may sleep to its end. *)
Definition must_return (t : turn) : outcome Z :=
  match t with Return r => Ok r | SleepAt _ => Hang end.

(** [myproc()] is process [cur], with page table [pagetable]; [isk] is what
    [killed(myproc())] answers. *)
Definition fileread (k : @kern heap) (cur : Z) (pagetable : Z) (isk : bool) (f addr n : Z)
    : outcome (Z * @kern heap) :=
  x ← get_file k f;
  if readable x =? 0 then Ok (-1, k)
  else if bool_decide (ftype x = FD_PIPE) then
    pi ← get_pipe k (fpipe x);
    '(t, pi', vm) ← piperead (kvm k) pagetable pi addr n isk;
    r ← must_return t;
    let k := put_pipe (with_vm k vm) (fpipe x) pi' in
    Ok (r, if r =? -1 then k else wakeup k (Some cur) (ChNwrite (fpipe x)))
  else if bool_decide (ftype x = FD_DEVICE) then
    if (fmajor x <? 0) || (NDEV <=? fmajor x) then Ok (-1, k)
    else if negb (fmajor x =? CONSOLE) then Ok (-1, k)
    else
      '(t, c, vm) ← consoleread (kvm k) pagetable 1 addr n isk (kcons k) 0;
      r ← must_return t;
      Ok (r, with_cons (with_vm k vm) c)
  else if bool_decide (ftype x = FD_INODE) then
    ip ← get_ip (fip x);
    s ← ilock (kfs k) ip;
    '(count, s, vm) ← readi (λ m dst bs, either_copyout m pagetable 1 dst bs) s (kvm k) ip addr (foff x) (u32 n);
    let x' := if 0 <? count then set_foff x (u32 (foff x + count)) else x in
    s ← iunlock s ip;
    Ok (count, put_file (with_vm (with_fs k s) vm) f x')
  else Panic "fileread failed".

Definition max_write : Z := (MAXOPBLOCKS - 1 - 1 - 2) / 2 * BSIZE.

(** The loop of [filewrite] on an inode: the final [index]. *)
Fixpoint filewrite_loop (fuel : nat) (k : @kern heap) (pagetable f addr n index : Z) : outcome (Z * @kern heap) :=
  match fuel with
  | O => Hang
  | S fuel' =>
      if index <? n then
        let remaining := Z.min (n - index) max_write in
        x ← get_file k f;
        s ← fbegin_op (kfs k);
        ip ← get_ip (fip x);
        s ← ilock s ip;
        '(count, s) ← writei (λ m src len, either_copyin m pagetable 1 src len) s (kvm k) ip
                        (u64 (addr + index)) (foff x) remaining;
        let x' := if 0 <? count then set_foff x (u32 (foff x + count)) else x in
        s ← iunlock s ip;
        s ← fend_op s;
        let k := put_file (with_fs k s) f x' in
        if negb (count =? remaining) then Ok (index, k)
        else filewrite_loop fuel' k pagetable f addr n (index + count)
      else Ok (index, k)
  end.

Definition filewrite (lsr : nat → Z) (k : @kern heap) (cur : Z) (pagetable : Z) (isk : bool) (f addr n : Z)
    : outcome (Z * @kern heap) :=
  x ← get_file k f;
  if writable x =? 0 then Ok (-1, k)
  else if bool_decide (ftype x = FD_PIPE) then
    pi ← get_pipe k (fpipe x);
    '(t, pi') ← pipewrite (kvm k) pagetable pi addr n (λ _, isk) 0;
    r ← must_return t;
    let k := put_pipe k (fpipe x) pi' in
    Ok (r, if r =? -1 then k else wakeup k (Some cur) (ChNread (fpipe x)))
  else if bool_decide (ftype x = FD_DEVICE) then
    if (fmajor x <? 0) || (NDEV <=? fmajor x) then Ok (-1, k)
    else if negb (fmajor x =? CONSOLE) then Ok (-1, k)
    else
      '(t, woke, u) ← consolewrite lsr (kvm k) pagetable 1 addr n (kuart k) 0;
      r ← must_return t;
      let k := with_uart k u in
      Ok (r, if (woke : bool) then wakeup k (Some cur) ChUart else k)
  else if bool_decide (ftype x = FD_INODE) then
    '(index, k) ← filewrite_loop (Z.to_nat (n / max_write + 2)) k pagetable f addr n 0;
    Ok (if index =? n then n else -1, k)
  else Panic "filewrite".

(** A pipe in a fresh page; its buffer holds what the page held. *)
Definition new_pipe (k : @kern heap) (pa : Z) : pipe :=
  mk_pipe (Vm.get 512 (vram (kvm k)) (pa + 24)) 0 0 1 1.

(** The two ends, or [None] when it fails. *)
Definition pipealloc (k0 : @kern heap) (cur : option Z) : outcome (option (Z * Z) * @kern heap) :=
  '(rfd, k) ← filealloc k0;
  '(wfd, k) ← filealloc k;
  '(pa, vm) ← vm_alloc (kvm k);
  let k := with_vm k vm in
  if pa =? 0 then
    k ← fileclose k cur rfd;
    k ← fileclose k cur wfd;
    Ok (None, k)
  else
    let k := put_pipe k pa (new_pipe k pa) in
    let k := put_file k rfd (mk_file FD_PIPE 1 TRUE FALSE pa None 0 0) in
    let k := put_file k wfd (mk_file FD_PIPE 1 FALSE TRUE pa None 0 0) in
    Ok (Some (rfd, wfd), k).
End file.
