(* ===== verification/FileIO.v ===== *)
(** * Reading and writing open files: [fileread] and [filewrite] of
    [kernel/file/file.c] on inodes, down to user memory and the disk.

    User memory is a sink and a source of the file system's [readi] and [writei];
    a call of [filewrite] is a sequence of transactions, each committed before the
    next begins. *)

From Stdlib Require Import ZifyBool.
From S2P Require Import Prelude Riscv Ram Kalloc Vm VmProof VmUser VmCopy VmThm Block Bio BioProof Log LogProof LogThm LogOps.
From S2P Require Import Fs FsBlock FsInode FsDinode FsFile FsThm Uart Pipe Console Kern File.

(** ** User memory *)

Section user_memory.
Context {heap : Type} {AL : Allocator heap}.
Context (T : tables) (root : Z) (H U : gmap Z Z).
Implicit Types (s : @vm heap).

Definition byte (c : Z) : Prop := 0 ≤ c < 256.

Definition mapped s (va n : Z) : Prop :=
  user_ok s T root H U ∧ reach s T U ∧ 0 ≤ va ∧ va + n < 2 ^ 64 ∧
  ∀ i, 0 ≤ i < n → is_Some (upage s T ((va + i) / PGSIZE)).

(** [s'] is [s] with [bs] at user address [va]. *)
Record user_stored s (va : Z) (bs : list Z) s' : Prop := {
  us_ok : user_ok s' T root H U;
  us_reach : reach s' T U;
  us_range : 0 ≤ va ∧ va + zlen bs < 2 ^ 64;
  us_pages : ∀ w, upage s' T w = upage s T w;
  us_bytes : ∀ i c, bs !! i = Some c → umem s' T (va + Z.of_nat i) = Some c;
  us_other : ∀ a, a < va ∨ va + zlen bs ≤ a → umem s' T a = umem s T a;
}.

(** The process sees [bs] at [va]. *)
Record user_gives s (va : Z) (bs : list Z) : Prop := {
  ug_ok : user_ok s T root H U;
  ug_reach : reach s T U;
  ug_range : 0 ≤ va ∧ va + zlen bs < 2 ^ 64;
  ug_bytes : ∀ i c, bs !! i = Some c → umem s T (va + Z.of_nat i) = Some c;
}.

#[global] Instance user_sink : Sink (λ m dst bs, either_copyout m root 1 dst bs) byte mapped user_stored.
Proof.
  constructor.
  - intros s va bs (Hu & Hr & H0 & Hl & Hm) Hb.
    destruct (copyout_loop_ok (length bs) T root H U s va bs Hu Hr H0 Hb ltac:(lia)) as (r & s' & E & Hu' & Hr' & Hup & Hres & Hout).
    exists r, s'. split; [exact E|].
    destruct Hres as [[-> Hw]|[-> (i & Hi & Hn)]]; [|destruct (Hm i Hi) as [p Hp]; congruence].
    split; [done|]. by constructor.
  - intros s va (Hu & Hr & H0 & Hl & Hm). constructor; try done.
  - intros s va a s1 b s2 [A1 A2 A3 A4 A5 A6] [B1 B2 B3 B4 B5 B6].
    pose proof (zlen_nonneg a). pose proof (zlen_nonneg b).
    rewrite u64_small in B3, B5, B6 by lia. constructor; try done; rewrite ?zlen_app; [lia|congruence| |].
    + intros i c [Hi|[Hi Hc]]%lookup_app_Some.
      * rewrite B6 by (apply lookup_lt_Some in Hi; unfold zlen; lia). by apply A5.
      * apply B5 in Hc. rewrite <- Hc. f_equal. unfold zlen. lia.
    + intros x Hx. rewrite B6, A6; [done|lia|lia].
  - intros s va i j Hi Hj (Hu & Hr & H0 & Hl & Hm). split; [done|]. split; [done|]. split; [done|]. split; [lia|].
    intros l Hl'. apply Hm. lia.
  - intros s va a s1 j Hj (Hu & Hr & H0 & Hl & Hm) [A1 A2 A3 A4 A5 A6].
    pose proof (zlen_nonneg a). rewrite u64_small by lia.
    split; [done|]. split; [done|]. split; [lia|]. split; [lia|].
    intros i Hi. rewrite A4. replace (va + zlen a + i) with (va + (zlen a + i)) by lia. apply Hm. lia.
Qed.

#[global] Instance user_source : Source (λ m src len, either_copyin m root 1 src len) user_gives.
Proof.
  constructor; intros s va a b [G1 G2 G3 G4]; pose proof (zlen_nonneg a); pose proof (zlen_nonneg b); rewrite zlen_app in G3.
  - destruct (copyin_loop_ok (Z.to_nat (zlen a)) s T root H U va (zlen a) G1 G2 ltac:(lia) ltac:(lia)) as (r & l & E & Hres).
    exists r. change (either_copyin s root 1 va (zlen a)) with (copyin_loop (Z.to_nat (zlen a)) s root va (zlen a)). rewrite E.
    destruct Hres as [(-> & Hl & Hm)|(-> & i & Hi & Hn)].
    + split; [|done]. do 2 f_equal. apply list_eq_same_length with (length a); [done|unfold zlen in *; lia|].
      intros i c c' Hi Hc Hc'. apply Hm in Hc. assert ((a ++ b) !! i = Some c') as Hab by by apply lookup_app_l_Some.
      apply G4 in Hab. congruence.
    + exfalso. destruct (lookup_lt_is_Some_2 a (Z.to_nat i)) as [c Hc]; [unfold zlen in *; lia|].
      assert ((a ++ b) !! Z.to_nat i = Some c) as Hab by by apply lookup_app_l_Some.
      apply G4 in Hab. rewrite Z2Nat.id in Hab by lia. unfold umem in Hab. by rewrite Hn in Hab.
  - rewrite u64_small by lia. constructor; try done; [lia|]. intros i c Hc.
    rewrite <- (G4 (length a + i)%nat c); [f_equal; unfold zlen; lia|]. rewrite lookup_app_r by lia. rewrite <- Hc. f_equal. lia.
Qed.
Lemma user_gives_prefix s va a b : user_gives s va (a ++ b) → user_gives s va a.
Proof.
  intros [G1 G2 G3 G4]. pose proof (zlen_nonneg b). rewrite zlen_app in G3. constructor; try done; [lia|].
  intros i c Hc. apply G4. by apply lookup_app_l_Some.
Qed.
End user_memory.

Section file_io.
Context {heap : Type} {AL : Allocator heap}.
Context (T : tables) (root : Z) (H U : gmap Z Z).
Context (dev N S : Z) {LA : LogArea dev N S} (sbk : superblock) {LY : Layout N S sbk}.
Implicit Types (k : @kern heap) (L : list Z) (V : Z → list Z) (x : file) (y : inode).

Local Notation has_file := (has_file dev N S sbk).
Local Notation room := (room N).

(** An inode that is in memory and not locked. *)
Record unlocked y : Prop := {
  un_ref : 1 ≤ iref y;
  un_valid : ivalid y = true;
  un_free : ilocked y = false;
}.

(** An open file on an inode: [x] is the file at address [f], its inode is [y]. *)
Record on_inode k f x (ip : Z) L V y : Prop := {
  oi_file : kfiles k !! f = Some x;
  oi_type : ftype x = FD_INODE;
  oi_ip : fip x = Some ip;
  oi_off : 0 ≤ foff x < 2 ^ 32;
  oi_inode : has_file (kfs k) ip L V y;
  oi_unlocked : unlocked y;
}.

Lemma file_ok_locked V y b : file_ok dev sbk V y → file_ok dev sbk V (set_ilocked y b).
Proof. intros []. constructor; done. Qed.

Lemma set_ilocked_twice y b : set_ilocked (set_ilocked y b) (ilocked y) = y.
Proof. by destruct y. Qed.

Lemma fstx_itable s h L V t : fstx dev N S sbk s h L V → fstx dev N S sbk (with_itable s t) h L V.
Proof. intros []. by constructor. Qed.

Lemma ilock_ok s ip L V y :
  has_file s ip L V y → unlocked y →
  ∃ s', ilock s ip = Ok s' ∧ has_file s' ip L V (set_ilocked y true) ∧
    s' = with_itable s (<[Z.to_nat ip := set_ilocked y true]> (itable s)).
Proof.
  intros [Ht Hres Hx Hf Hi] [U1 U2 U3]. unfold ilock. call Hx.
  destruct (Z.ltb_spec (iref y) 1); [lia|]. rewrite U3, U2. call (put_inode_ok s ip y (set_ilocked y true) Hx).
  eexists. split; [done|]. split; [|done]. constructor; try done; [by apply fstx_itable| |by apply file_ok_locked].
  by eapply get_inode_insert.
Qed.

Lemma iunlock_ok s ip L V y :
  has_file s ip L V (set_ilocked y true) → 1 ≤ iref y →
  ∃ s', iunlock s ip = Ok s' ∧ has_file s' ip L V (set_ilocked y false) ∧
    s' = with_itable s (<[Z.to_nat ip := set_ilocked y false]> (itable s)).
Proof.
  intros [Ht Hres Hx Hf Hi] Hr. unfold iunlock. call Hx. cbn [ilocked set_ilocked iref negb orb].
  destruct (Z.ltb_spec (iref y) 1); [lia|]. rewrite (put_inode_ok s ip _ _ Hx).
  eexists. split; [done|]. split; [|done].
  constructor; try done; [by apply fstx_itable| |by apply (file_ok_locked V (set_ilocked y true))].
  by eapply get_inode_insert.
Qed.

Lemma get_file_ok k f x : kfiles k !! f = Some x → get_file k f = Ok x.
Proof. intros E. unfold get_file. by rewrite E. Qed.

(** C26: [read] on a file into a buffer that is mapped as far as it is used: [fileread]
    returns the number of bytes of the file
    between the offset and the end, at most [n]; the process finds exactly these
    bytes at its buffer and no other byte of its memory changed, the offset has
    moved past them, and the file system is as before. *)
Theorem fileread_correct k cur isk f x ip L V y addr n :
  on_inode k f x ip L V y → Kern.readable x ≠ 0 → 0 ≤ n < 2 ^ 31 → room ∅ L 0 →
  let c := read_len y (foff x) n in
  mapped T root H U (kvm k) addr c → Forall byte (fbytes V y (foff x) c) →
  ∃ k', fileread k cur root isk f addr n = Ok (c, k') ∧
    user_stored T root H U (kvm k) addr (fbytes V y (foff x) c) (kvm k') ∧
    on_inode k' f (set_foff x (foff x + c)) ip L V y ∧
    kfiles k' = <[f := set_foff x (foff x + c)]> (kfiles k) ∧ procs k' = procs k ∧ kpipes k' = kpipes k.
Proof.
  intros [Ef Et Eip Hoff Hf Hun] Hrd Hn Hr c Hm Hb. unfold fileread. call (get_file_ok k f x Ef).
  destruct (Z.eqb_spec (Kern.readable x) 0); [done|]. rewrite Et.
  change (bool_decide (FD_INODE = FD_PIPE)) with false. change (bool_decide (FD_INODE = FD_DEVICE)) with false.
  change (bool_decide (FD_INODE = FD_INODE)) with true. cbv iota. rewrite Eip. cbn [get_ip]. rewrite bind_Ok. cbv beta.
  destruct (ilock_ok _ ip L V y Hf Hun) as (s1 & -> & Hf1 & Es1). rewrite bind_Ok. cbv beta.
  rewrite (u32_small n) by lia.
  destruct Hf1 as [Ht1 Hres1 Hx1 Hok1 Hnum1].
  destruct (readi_ok dev N S sbk (λ m dst bs, either_copyout m root 1 dst bs) byte (mapped T root H U) (user_stored T root H U)
    s1 (kvm k) ip L V (set_ilocked y true) addr (foff x) n Ht1 Hr Hx1 Hok1 Hoff ltac:(lia) Hm Hb) as (s2 & m' & E2 & Ht2 & Hs2 & Hst).
  call E2. change (read_len (set_ilocked y true) (foff x) n) with c in *.
  destruct (iunlock_ok s2 ip L V y) as (s3 & -> & Hf3 & Es3); [|apply Hun|].
  { constructor; try done. unfold get_inode. by rewrite (sy_itable _ _ _ _ Hs2). }
  rewrite bind_Ok. replace (set_ilocked y false) with y in Hf3 by (rewrite <- (un_free _ Hun); by destruct y).
  pose proof (read_len_range dev sbk V y (foff x) n (hf_ok _ _ _ _ _ _ _ _ _ Hf) Hoff ltac:(lia)) as Hc. fold c in Hc.
  replace (if 0 <? c then set_foff x (u32 (foff x + c)) else x) with (set_foff x (foff x + c)).
  2:{ destruct (Z.ltb_spec 0 c); [by rewrite u32_small by lia|]. replace c with 0 by lia. rewrite Z.add_0_r. by destruct x. }
  eexists. split; [done|]. split; [done|]. split; [|done].
  constructor; cbn; try done; [by rewrite lookup_insert_eq|]. lia.
Qed.

(** ** Transactions *)

(** No operation is under way. *)
Record idle (s : fs) V : Prop := {
  id_tx : fstx dev N S sbk s ∅ [] V;
  id_out : outstanding (lg (fl s)) = 0;
  id_com : committing (lg (fl s)) = 0;
}.

Lemma fbegin_op_ok (s : fs) V :
  idle s V →
  ∃ s', fbegin_op s = Ok s' ∧ fstx dev N S sbk s' ∅ [] V ∧ outstanding (lg (fl s')) = 1 ∧
    committing (lg (fl s')) = 0 ∧ itable s' = itable s.
Proof.
  intros [[Htx Hsb] Ho Hc]. unfold fbegin_op, begin_op, begin_op_waits.
  rewrite Ho, Hc, (lo_n _ _ _ _ _ _ (tx_ok _ _ _ _ _ _ _ Htx)). cbn. eexists. split; [done|].
  split; [|done]. constructor; [|done]. destruct Htx as [Hok Hv Hcl]. constructor; try done. destruct Hok. by constructor.
Qed.

(** Blocks outside the log. *)
Definition same_home V V' : Prop := ∀ b, ¬ in_log N S b → V' b = V b.

Lemma fend_op_ok (s : fs) L V :
  fstx dev N S sbk s ∅ L V → outstanding (lg (fl s)) = 1 → committing (lg (fl s)) = 0 →
  ∃ s' V', fend_op s = Ok s' ∧ idle s' V' ∧ same_home V V' ∧ (∀ b, disk_read (disk (cache (fl s'))) b = V' b) ∧
    itable s' = itable s.
Proof using LA LY.
  intros [[Hok Hv _] Hsb] Ho Hc. unfold fend_op.
  destruct (end_op_commits dev N (la_dev dev N S) (fl s) S L Hok Ho Hc) as (l' & ws & -> & Hok' & Ho' & Hc' & _ & _ & Hv').
  exists (with_fl s l'), (view dev (cache l')). split; [done|]. split; [|split; [|split; [|done]]].
  - constructor; [|done|done]. constructor; [|done]. constructor; [done|done|]. by intros b ?%elem_of_empty.
  - intros b Hb. by rewrite Hv', Hv.
  - intros b. symmetry. eapply view_clean; [apply (lo_bio _ _ _ _ _ _ Hok')|set_solver|set_solver].
Qed.

(** Everything about files is outside the log. *)
Lemma home_blocks b : sb_inodestart sbk ≤ b → ¬ in_log N S b.
Proof using LY. intros Hb. pose proof (ly_log N S sbk). unfold in_log. lia. Qed.

Lemma same_home_file V V' y :
  same_home V V' → file_ok dev sbk V y → reserved sbk V →
  file_ok dev sbk V' y ∧ reserved sbk V' ∧ (∀ i, 0 ≤ i ≤ IND → blk V' y i = blk V y i) ∧
  ∀ o, 0 ≤ o < isize y → fbyte V' y o = fbyte V y o.
Proof using LA LY.
  intros Hh Hf Hres. pose proof (datastart_low dev N S sbk) as Hlow. pose proof (ly_data N S sbk).
  pose proof IND_val as (EI & EN & EM & EB).
  assert (Hdata : ∀ i, 0 ≤ i ≤ IND → blk V y i ≠ 0 → V' (blk V y i) = V (blk V y i)).
  { intros i Hi Hn. apply Hh, home_blocks. destruct (fo_data _ _ _ _ Hf i Hi Hn) as [Hd _]. unfold is_data in Hd. lia. }
  assert (Hblk : ∀ i, blk V' y i = blk V y i).
  { intros i. apply blk_ext. intros Hn. apply (Hdata IND); [lia|done]. }
  assert (Hused : ∀ b, 0 ≤ b < sb_size sbk → used sbk V' b = used sbk V b).
  { apply (used_ext dev N S sbk). intros b Hb. apply Hh, home_blocks. unfold is_bitmap in Hb. lia. }
  split; [apply (file_ok_ext dev N S sbk V); [intros; apply Hblk|done|done]|].
  split; [intros b Hb; rewrite Hused by lia; by apply Hres|]. split; [intros; apply Hblk|].
  intros o Ho. pose proof (fo_size _ _ _ _ Hf). pose proof (offset_block o ltac:(lia)). pose proof (Z.mul_div_le o BSIZE ltac:(done)).
  unfold fbyte. rewrite Hblk, Hdata; [done|lia|]. apply (fo_full _ _ _ _ Hf); lia.
Qed.

(** ** Writing *)

(** File [y] became [y'] by writing [bs] at [off]. *)
Record rewritten V y (off : Z) (bs : list Z) V' y' : Prop := {
  rw_file : file_ok dev sbk V' y';
  rw_res : reserved sbk V';
  rw_size : isize y' = Z.max (isize y) (off + zlen bs);
  rw_meta : y' = set_isize (set_iaddrs y (iaddrs y')) (isize y');
  rw_bytes : ∀ o, 0 ≤ o < isize y' →
    fbyte V' y' o = if decide (off ≤ o < off + zlen bs) then default 0 (bs !! Z.to_nat (o - off)) else fbyte V y o;
}.

Lemma rewritten_nil V y off : file_ok dev sbk V y → reserved sbk V → 0 ≤ off ≤ isize y → rewritten V y off [] V y.
Proof.
  intros Hf Hres Hoff. constructor; try done; change (zlen (@nil Z)) with 0; [lia|by destruct y|].
  intros o Ho. by rewrite decide_False by lia.
Qed.

Lemma rewritten_app V y off a V1 y1 b V2 y2 :
  0 ≤ off ≤ isize y → rewritten V y off a V1 y1 → rewritten V1 y1 (off + zlen a) b V2 y2 → rewritten V y off (a ++ b) V2 y2.
Proof.
  intros Hoff [A1 A2 A3 A4 A5] [B1 B2 B3 B4 B5]. pose proof (zlen_nonneg a). pose proof (zlen_nonneg b).
  constructor; try done; rewrite ?zlen_app; [lia|rewrite B4, A4; done|].
  intros o Ho. rewrite B5 by done. destruct (decide (off + zlen a ≤ o < off + zlen a + zlen b)) as [Hb|Hb].
  - rewrite decide_True by lia. rewrite lookup_app_r by (unfold zlen in *; lia). do 2 f_equal. unfold zlen in *. lia.
  - rewrite A5 by lia. destruct (decide (off ≤ o < off + zlen a)) as [Ha|Ha].
    + rewrite decide_True by lia. rewrite lookup_app_l by (unfold zlen in *; lia). done.
    + by rewrite decide_False by lia.
Qed.

(** The same after a commit, which only touches the log's own blocks. *)
Lemma rewritten_home V y off bs V1 V2 y' : rewritten V y off bs V1 y' → same_home V1 V2 → rewritten V y off bs V2 y'.
Proof using LA LY.
  intros [A1 A2 A3 A4 A5] Hh. destruct (same_home_file V1 V2 y' Hh A1 A2) as (F1 & F2 & _ & F4).
  constructor; try done. intros o Ho. rewrite F4 by done. by apply A5.
Qed.
Lemma idle_durable (s : fs) V b : idle s V → disk_read (disk (cache (fl s))) b = V b.
Proof.
  intros [[[Hok Hv _] _] _ _]. rewrite <- Hv. symmetry.
  eapply view_clean; [apply (lo_bio _ _ _ _ _ _ Hok)|apply not_elem_of_empty|apply not_elem_of_empty].
Qed.

Lemma rewritten_written V y b off bs V' y' :
  file_ok dev sbk V y → written dev sbk V (set_ilocked y b) off bs V' (set_ilocked y' b) →
  ilocked y' = ilocked y → rewritten V y off bs V' y'.
Proof.
  intros Hf [W1 W2 W3 W4 W5 _ _ _ _ _] El. constructor; try done.
  - destruct W1. by constructor.
  - destruct y, y'. unfold set_isize, set_iaddrs, set_ilocked in *. simpl in *. injection W4. intros. by subst.
Qed.

(** One chunk: a transaction that writes [a] at the offset of the file. *)
Lemma chunk_ok k f x ip V y src a :
  on_inode k f x ip [] V y → idle (kfs k) V → foff x ≤ isize y → foff x + zlen a ≤ MAXFILE * BSIZE →
  zlen a ≤ 3 * BSIZE → MAXOPBLOCKS < N → user_gives T root H U (kvm k) src a →
  ∃ s1 s2 w s3 s4 s5 V' y', fbegin_op (kfs k) = Ok s1 ∧ ilock s1 ip = Ok s2 ∧
    writei (λ m src len, either_copyin m root 1 src len) s2 (kvm k) ip src (foff x) (zlen a) = Ok (w, s3) ∧
    iunlock s3 ip = Ok s4 ∧ fend_op s4 = Ok s5 ∧ 0 ≤ w ≤ zlen a ∧ (w < zlen a → full sbk V') ∧
    rewritten V y (foff x) (take (Z.to_nat w) a) V' y' ∧ idle s5 V' ∧ has_file s5 ip [] V' y' ∧ unlocked y'.
Proof using LA LY.
  intros [Ef Et Eip Hoff Hf Hun] Hid Hend Hmax Ha HN Hg. pose proof (hf_ok _ _ _ _ _ _ _ _ _ Hf) as Hok.
  destruct (fbegin_op_ok (kfs k) V Hid) as (s1 & E1 & Ht1 & Ho1 & Hc1 & Hi1).
  assert (Hf1 : has_file s1 ip [] V y).
  { destruct Hf as [_ F2 F3 F4 F5]. constructor; try done. unfold get_inode. by rewrite Hi1. }
  destruct (ilock_ok s1 ip [] V y Hf1 Hun) as (s2 & E2 & [Ht2 Hres2 Hx2 Hok2 Hn2] & Es2).
  pose proof (wcost_bound (foff x) (zlen a) ltac:(unfold zlen in *; lia)). pose proof (ipot_range (set_ilocked y true) []).
  destruct (writei_ok dev N S sbk _ (user_gives T root H U) s2 (kvm k) ip [] V (set_ilocked y true) src (foff x) a)
    as (w & s3 & L3 & V3 & x3 & E3 & Hw & Hfull & Hwn & Ht3 & Hi3 & Ho3 & Hc3 & _); try done; try lia.
  { rewrite Es2. cbn. lia. }
  { cbn. lia. }
  { unfold FsBlock.room. rewrite size_empty. change (zlen (@nil Z)) with 0. unfold MAXOPBLOCKS, NBUF in *. lia. }
  set (y' := set_ilocked x3 false).
  assert (Ex3 : x3 = set_ilocked y' true).
  { unfold y'. rewrite (wn_meta _ _ _ _ _ _ _ _ Hwn). by destruct y. }
  assert (Hmeta := wn_meta _ _ _ _ _ _ _ _ Hwn).
  assert (Hf3 : has_file s3 ip L3 V3 (set_ilocked y' true)).
  { rewrite <- Ex3. constructor; [done|apply Hwn|by eapply get_inode_insert|apply Hwn|]. rewrite Hmeta. done. }
  destruct (iunlock_ok s3 ip L3 V3 y' Hf3) as (s4 & E4 & [Ht4 Hres4 Hx4 Hok4 Hn4] & Es4); [unfold y'; rewrite Hmeta; apply Hun|].
  destruct (fend_op_ok s4 L3 V3 Ht4) as (s5 & V5 & E5 & Hid5 & Hh5 & _ & Hi5).
  { rewrite Es4. cbn. rewrite Ho3, Es2. done. } { rewrite Es4. cbn. rewrite Hc3, Es2. done. }
  exists s1, s2, w, s3, s4, s5, V5, y'. do 5 (split; [done|]). split; [done|].
  rewrite Ex3 in Hwn. apply rewritten_written in Hwn; [|done|unfold y'; cbn; symmetry; apply Hun].
  destruct (same_home_file V3 V5 y' Hh5 (rw_file _ _ _ _ _ _ Hwn) (rw_res _ _ _ _ _ _ Hwn)) as (F1 & F2 & _ & _).
  split; [|split; [by eapply rewritten_home|split; [done|split]]].
  - intros Hlt b Hb. rewrite (used_ext dev N S sbk V3 V5); [by apply Hfull| |done].
    intros j Hj. apply Hh5, home_blocks. pose proof (datastart_low dev N S sbk). unfold is_bitmap in Hj. lia.
  - constructor; try done; [apply Hid5|]. unfold get_inode. rewrite Hi5. exact Hx4.
  - unfold y'. constructor; cbn; [rewrite Hmeta; apply Hun|rewrite Hmeta; apply Hun|done].
Qed.
(** What [filewrite] leaves after writing the first [w] of the bytes. *)
Record file_wrote k f x ip V y (bs : list Z) (w : Z) k' V' y' : Prop := {
  fw_range : 0 ≤ w ≤ zlen bs;
  fw_short : w < zlen bs → full sbk V';
  fw_content : rewritten V y (foff x) (take (Z.to_nat w) bs) V' y';
  fw_inode : on_inode k' f (set_foff x (foff x + w)) ip [] V' y';
  fw_idle : idle (kfs k') V';
  fw_files : kfiles k' = <[f := set_foff x (foff x + w)]> (kfiles k);
  fw_other : kvm k' = kvm k ∧ kpipes k' = kpipes k ∧ procs k' = procs k;
}.

Lemma set_foff_twice x a b : set_foff (set_foff x a) b = set_foff x b.
Proof. done. Qed.

Lemma max_write_val : max_write = 3072 ∧ 3 * BSIZE = 3072.
Proof. done. Qed.

Lemma set_foff_same x : set_foff x (foff x + 0) = x.
Proof. rewrite Z.add_0_r. by destruct x. Qed.

Lemma file_wrote_nil k f x ip V y bs :
  on_inode k f x ip [] V y → idle (kfs k) V → foff x ≤ isize y → zlen bs = 0 → file_wrote k f x ip V y bs 0 k V y.
Proof.
  intros Hoi Hid Hend Hbs. pose proof Hoi as [Ef _ _ Hoff [_ Hres _ Hok _] _].
  constructor; rewrite ?set_foff_same; try done; [lia|lia| |by rewrite insert_id].
  apply rewritten_nil; try done. lia.
Qed.

Lemma file_wrote_app k f x ip V y a b w w' k1 V1 y1 k2 V2 y2 :
  file_wrote k f x ip V y a w k1 V1 y1 → w = zlen a → 0 ≤ foff x ≤ isize y →
  file_wrote k1 f (set_foff x (foff x + w)) ip V1 y1 b w' k2 V2 y2 →
  file_wrote k f x ip V y (a ++ b) (w + w') k2 V2 y2.
Proof.
  intros [A1 A2 A3 A4 A5 A6 A7] Ew Hoff [B1 B2 B3 B4 B5 B6 B7]. cbn [foff set_foff] in *.
  constructor; rewrite ?Z.add_assoc, ?zlen_app; try done; [lia|intros; apply B2; lia| | |].
  - rewrite Z2Nat.inj_add, take_app_add' by (unfold zlen in *; lia).
    rewrite take_ge in A3 by (unfold zlen in *; lia). eapply rewritten_app; [done|exact A3|]. by rewrite <- Ew.
  - rewrite B6, A6. by rewrite insert_insert_eq.
  - destruct A7 as (? & ? & ?), B7 as (? & ? & ?). split_and!; congruence.
Qed.

(** Iterations of the loop for [n] bytes. *)
Definition chunks (n : Z) : Z := (n + (max_write - 1)) / max_write.

Lemma chunks_next n c : 0 < n → c = Z.min n max_write → 0 ≤ chunks (n - c) ∧ chunks (n - c) + 1 ≤ chunks n.
Proof.
  destruct max_write_val as [EW _]. intros Hn Hc. unfold chunks. rewrite EW in *.
  split; [apply Z.div_pos; lia|]. destruct (Z.le_gt_cases n 3072).
  - replace (n - c) with 0 by lia. change ((0 + (3072 - 1)) / 3072) with 0.
    pose proof (Z.div_le_mono 3072 (n + (3072 - 1)) 3072 ltac:(lia) ltac:(lia)) as Hd. rewrite Z.div_same in Hd by lia. lia.
  - replace (n + (3072 - 1)) with (n - c + (3072 - 1) + 1 * 3072) by lia. rewrite Z.div_add by lia. lia.
Qed.

Lemma filewrite_loop_ok fuel k f x ip V y addr n index bs :
  on_inode k f x ip [] V y → idle (kfs k) V → foff x ≤ isize y → foff x + zlen bs ≤ MAXFILE * BSIZE →
  MAXOPBLOCKS < N → 0 ≤ addr → 0 ≤ index ≤ n → n < 2 ^ 31 → zlen bs = n - index →
  user_gives T root H U (kvm k) (addr + index) bs → chunks (n - index) < Z.of_nat fuel →
  ∃ w r k' V' y', filewrite_loop fuel k root f addr n index = Ok (r, k') ∧ (r = n ↔ w = n - index) ∧
    file_wrote k f x ip V y bs w k' V' y'.
Proof using LA LY.
  revert k x V y index bs. induction fuel as [|fuel IH]; intros k x V y index bs Hoi Hid Hend Hmax HN Haddr Hidx Hn Hbs Hg Hfuel;
    destruct (decide (index = n)) as [->|Hlt].
  { unfold chunks in Hfuel. rewrite Z.sub_diag in Hfuel. done. }
  { destruct (chunks_next (n - index) _ ltac:(lia) eq_refl). lia. }
  { cbn [filewrite_loop]. rewrite Z.ltb_irrefl. exists 0, n, k, V, y. split; [done|]. split; [lia|].
    apply file_wrote_nil; try done. lia. }
  pose proof Hoi as [Ef Et Eip Hoff Hf Hun]. cbn [filewrite_loop]. rewrite (proj2 (Z.ltb_lt index n)) by lia.
  destruct max_write_val as [EW EB3]. set (c := Z.min (n - index) max_write).
  destruct (chunks_next (n - index) c ltac:(lia) eq_refl) as [Hch0 Hch].
  set (a := take (Z.to_nat c) bs). set (rest := drop (Z.to_nat c) bs).
  assert (Eab : bs = a ++ rest) by (symmetry; apply take_drop).
  assert (Hla : zlen a = c) by (unfold zlen, a in *; rewrite length_take; lia).
  assert (Hlr : zlen rest = n - index - c) by (unfold zlen, rest in *; rewrite length_drop; lia).
  pose proof (ug_range _ _ _ _ _ _ _ Hg) as Hrange. rewrite Eab in Hg.
  destruct (chunk_ok k f x ip V y (addr + index) a) as (s1 & s2 & w & s3 & s4 & s5 & V' & y' & E1 & E2 & E3 & E4 & E5 & Hw & Hfull & Hrw & Hid5 & Hf5 & Hun5);
    try done; try lia; [by eapply user_gives_prefix|].
  rewrite Hla in *. call (get_file_ok k f x Ef). call E1. rewrite Eip. cbn [get_ip]. rewrite bind_Ok. cbv beta. call E2.
  rewrite (u64_small (addr + index)) by lia. call E3. call E4. call E5.
  pose proof IND_val as (_ & _ & EM & EB). assert (Hmax' := Hmax). rewrite EM, EB in Hmax'.
  replace (if 0 <? w then set_foff x (u32 (foff x + w)) else x) with (set_foff x (foff x + w)).
  2:{ destruct (Z.ltb_spec 0 w); [by rewrite u32_small by lia|]. replace w with 0 by lia. by rewrite set_foff_same. }
  set (k1 := put_file (with_fs k s5) f (set_foff x (foff x + w))).
  assert (Hfw1 : file_wrote k f x ip V y a w k1 V' y').
  { constructor; try done; [lia|intros; apply Hfull; lia|]. constructor; try done; [cbn; by rewrite lookup_insert_eq|cbn; lia]. }
  destruct (Z.eqb_spec w c) as [->|Hne]; cbn [negb].
  - destruct (IH k1 (set_foff x (foff x + c)) V' y' (index + c) rest) as (w' & r & k' & V2 & y2 & E' & Hr' & Hfw);
      try done; try (cbn; lia); try apply Hfw1.
    { rewrite (rw_size _ _ _ _ _ _ Hrw). rewrite take_ge by (unfold zlen in Hla; lia). cbn. lia. }
    { replace (addr + (index + c)) with (u64 (addr + index + zlen a)) by (rewrite u64_small; lia).
      by apply (sr_next (kvm k) (addr + index) a rest). }
    { replace (n - (index + c)) with (n - index - c) by lia. lia. }
    exists (c + w'), r, k', V2, y2. split; [done|]. split; [lia|]. rewrite Eab. eapply file_wrote_app; [exact Hfw1|done|lia|done].
  - exists w, index, k1, V', y'. split; [done|]. split; [lia|].
    destruct Hfw1 as [W1 W2 W3 W4 W5 W6 W7]. constructor; try done; [lia|intros; apply W2; lia|].
    rewrite Eab, take_app_le by (unfold zlen in Hla; lia). done.
Qed.

(** C9: [write] on a file, end to end, with no transaction under way, the offset not
    past the end of the file, the end of the write within the largest file size,
    and the whole buffer mapped. [filewrite] of the [n] bytes at the caller's
    buffer returns [n] when all of them were written, or -1 when the disk
    filled up after the first [w] of them. Either way the file has those bytes at
    the old offset and its other bytes unchanged, the offset has moved past them,
    every transaction is committed, and the contents of the disk itself, not only
    of the cache, are those of the new file. *)
Theorem filewrite_durable lsr k cur isk f x ip V y addr bs :
  on_inode k f x ip [] V y → Kern.writable x ≠ 0 → idle (kfs k) V → foff x ≤ isize y →
  foff x + zlen bs ≤ MAXFILE * BSIZE → MAXOPBLOCKS < N → user_gives T root H U (kvm k) addr bs →
  ∃ w r k' V' y', filewrite lsr k cur root isk f addr (zlen bs) = Ok (r, k') ∧
    file_wrote k f x ip V y bs w k' V' y' ∧ (w = zlen bs → r = zlen bs) ∧ (w < zlen bs → r = -1) ∧
    ∀ b, disk_read (disk (cache (fl (kfs k')))) b = V' b.
Proof using LA LY.
  intros Hoi Hwr Hid Hend Hmax HN Hg. pose proof Hoi as [Ef Et Eip Hoff Hf Hun].
  pose proof IND_val as (_ & _ & EM & EB). assert (Hmax' := Hmax). rewrite EM, EB in Hmax'. pose proof (zlen_nonneg bs).
  destruct (filewrite_loop_ok (Z.to_nat (zlen bs / max_write + 2)) k f x ip V y addr (zlen bs) 0 bs) as (w & r & k' & V' & y' & E & Hr & Hfw);
    try done; try lia; [apply Hg|by rewrite Z.add_0_r| |].
  { destruct max_write_val as [EW _]. unfold chunks. rewrite EW. pose proof (Z.div_pos (zlen bs) 3072 ltac:(lia) ltac:(lia)).
    rewrite Z.sub_0_r. pose proof (Z.div_le_mono (zlen bs + (3072 - 1)) (zlen bs + 1 * 3072) 3072 ltac:(lia) ltac:(lia)) as Hd.
    rewrite Z.div_add in Hd by lia. lia. }
  unfold filewrite. call (get_file_ok k f x Ef). destruct (Z.eqb_spec (Kern.writable x) 0); [done|]. rewrite Et.
  change (bool_decide (FD_INODE = FD_PIPE)) with false. change (bool_decide (FD_INODE = FD_DEVICE)) with false.
  change (bool_decide (FD_INODE = FD_INODE)) with true. cbv iota. call E. rewrite Z.sub_0_r in Hr.
  exists w, (if r =? zlen bs then zlen bs else -1), k', V', y'. split; [done|]. split; [done|].
  split; [|split]; [intros Ew; by rewrite (proj2 Hr Ew), Z.eqb_refl| |].
  - intros Hlt. destruct (Z.eqb_spec r (zlen bs)) as [Er|]; [|done]. apply Hr in Er. lia.
  - intros b. apply idle_durable, Hfw.
Qed.

(** C37: a chunk of [filewrite] fits the reservation of one operation: writing at
    most [max_write] bytes into a file, from an offset within it, in a transaction
    with room for [MAXOPBLOCKS] more blocks, adds at most [MAXOPBLOCKS] blocks to
    the log, however the chunk lies across the blocks and however many of them
    have to be allocated. *)
Theorem writei_reservation {M : Type} (get : M → Z → Z → outcome (Z * list Z)) gives
    `{SR : Source M get gives} s m ip L V (x : inode) src off bs :
  has_file s ip L V x → 1 ≤ outstanding (lg (fl s)) → 0 ≤ off ≤ isize x →
  off + zlen bs ≤ MAXFILE * BSIZE → gives m src bs → zlen bs ≤ max_write → room ∅ L MAXOPBLOCKS →
  ∃ w s' L' V', writei get s m ip src off (zlen bs) = Ok (w, s') ∧ fstx dev N S sbk s' ∅ L' V' ∧ zlen L' ≤ zlen L + MAXOPBLOCKS.
Proof using LA LY.
  intros [Ht Hres Hx Hf Hi] Ho Hoff Hmax Hg Hbs Hr. destruct max_write_val as [EW EB3].
  pose proof (wcost_bound off (zlen bs) ltac:(unfold zlen in *; lia)). pose proof (ipot_range x L).
  change MAXOPBLOCKS with 10 in *.
  destruct (writei_ok dev N S sbk get gives s m ip L V x src off bs) as
    (w & s' & L' & V' & x' & E & _ & _ & _ & Ht' & _ & _ & _ & Hl); try done; [eapply room_le; [done|lia]|].
  exists w, s', L', V'. split; [done|]. split; [done|]. lia.
Qed.

End file_io.

(** ** Example: the file system of [FsThm], not in a transaction, and a process
    with two pages of memory *)

Definition demo_ino_free : inode := set_ilocked demo_ino false.
Definition demo_open : file := mk_file FD_INODE 1 1 1 0 (Some 0) 4 0.

Definition demo_io (s : fs) : @kern Buddy.buddy :=
  mk_kern demo_vm2 s {[ 0x80001000 := demo_open ]} ∅ [] 1 None 0 demo_cons demo_uart [].

Lemma demo_on_inode :
  ∃ s V, on_inode 1 30 2 demo_sb (demo_io s) 0x80001000 demo_open 0 [] V demo_ino_free ∧ idle 1 30 2 demo_sb s V ∧ V 37 = demo_data.
Proof.
  destruct demo_fs_state as (s & V & [[Hok Hv Hcl] Hsb] & Ho & Hit & E36 & E37).
  set (g := with_ops (lg (fl s)) 0 0).
  set (s' := mk_fs (mk_fslog (cache (fl s)) g) demo_sb [demo_ino_free]).
  assert (Ht : fstx 1 30 2 demo_sb s' ∅ [] V).
  { constructor; [|done]. constructor; try done. destruct Hok. by constructor. }
  exists s', V. split; [|split; [by constructor|done]].
  constructor; try done. constructor; try done; [by apply demo_reserved|].
  apply (file_ok_locked 1 demo_sb V demo_ino). by apply demo_file.
Qed.

Lemma demo_user : ∃ T H U, user_ok demo_vm2 T demo_root H U ∧ reach demo_vm2 T U ∧ ∀ a n, 0 ≤ a → a + n ≤ 8192 → mapped T demo_root H U demo_vm2 a n.
Proof.
  destruct demo_vm2_ok as (T & H & U & Hu & Hdom & Hno). exists T, H, U.
  assert (Hr : reach demo_vm2 T U) by (eapply reach_only; [exact Hu|exact Hno]).
  split; [done|]. split; [done|]. intros a n Ha Hn. split; [done|]. split; [done|]. split; [done|]. split; [lia|].
  intros i Hi. apply (demo_mapped T H U _ Hu). unfold PGSIZE. Z.to_euclidean_division_equations. lia.
Qed.

Lemma demo_bytes V : V 37 = demo_data → fbytes V demo_ino_free 4 5 = chars "riscv".
Proof.
  intros E. change (fbytes V demo_ino_free 4 5) with (fbytes V demo_ino 4 5).
  rewrite <- (slice_fbytes V demo_ino 4 5); change (4 / BSIZE) with 0; change (4 mod BSIZE) with 4;
    rewrite ?demo_blk by lia; cbn [Z.eqb]; rewrite ?E; [vm_compute; reflexivity|lia|unfold BSIZE; lia|done].
Qed.

Lemma writei_reservation_witness :
  ∃ s w s', writei local_get s (replicate 3072 7) 0 0 9 3072 = Ok (w, s').
Proof.
  destruct demo_has_file as (s & V & Hf & Ho & _ & _).
  destruct (writei_reservation 1 30 2 demo_sb local_get local_gives s (replicate 3072 7) 0 [] V demo_ino 0 9 (replicate 3072 7) Hf Ho
    ltac:(vm_compute; split; discriminate) ltac:(vm_compute; discriminate) (demo_gives (replicate 3072 7) ltac:(vm_compute; done))
    ltac:(vm_compute; discriminate) (demo_room MAXOPBLOCKS ltac:(vm_compute; split; [discriminate|done]))) as (w & s' & L' & V' & E & _).
  exists s, w, s'. done.
Defined.

Lemma fileread_correct_witness :
  ∃ k k', fileread k 0 demo_root false 0x80001000 4090 100 = Ok (5, k').
Proof.
  destruct demo_on_inode as (s & V & Hoi & _ & E37). destruct demo_user as (T & H & U & Hu & Hr & Hm).
  destruct (fileread_correct T demo_root H U 1 30 2 demo_sb (demo_io s) 0 false 0x80001000 demo_open 0 [] V demo_ino_free 4090 100 Hoi)
    as (k' & E & _).
  - done.
  - lia.
  - apply demo_room. lia.
  - apply Hm; vm_compute; discriminate.
  - change (read_len demo_ino_free (foff demo_open) 100) with 5. change (foff demo_open) with 4. rewrite (demo_bytes V E37).
    repeat constructor; vm_compute; done.
  - exists (demo_io s), k'. exact E.
Defined.

Lemma filewrite_durable_witness :
  ∃ k r k' (bs : list Z), zlen bs = 1 ∧ filewrite (λ _, 0) k 0 demo_root false 0x80001000 4090 (zlen bs) = Ok (r, k').
Proof.
  destruct demo_on_inode as (s & V & Hoi & Hid & _). destruct demo_user as (T & H & U & Hu & Hr & Hm).
  destruct (Hm 4090 1 ltac:(lia) ltac:(lia)) as (_ & _ & _ & _ & Hmp). destruct (Hmp 0 ltac:(lia)) as [p Hp].
  assert (∃ c, umem demo_vm2 T 4090 = Some c) as [c0 Hc0].
  { unfold umem. rewrite Z.add_0_r in Hp. rewrite Hp. by eexists. }
  set (bs := [c0]).
  destruct (filewrite_durable T demo_root H U 1 30 2 demo_sb (λ _, 0) (demo_io s) 0 false 0x80001000 demo_open 0 V demo_ino_free 4090 bs Hoi)
    as (w & r & k' & V' & y' & E & _).
  - done.
  - exact Hid.
  - vm_compute. discriminate.
  - vm_compute. discriminate.
  - vm_compute. done.
  - constructor; [done|done|vm_compute; split; [discriminate|done]|]. intros [|i] c Hc; [|done]. injection Hc as <-. exact Hc0.
  - exists (demo_io s), r, k', bs. split; [done|exact E].
Defined.
