(* ===== verification/Proc.v ===== *)
(** * Processes: [kernel/process/proc.c].

    Every function of the file that does not switch contexts (those are in
    [Sched]), on the shared kernel state. A [struct proc*] is an index into the
    table; the saved user registers are the 64-bit words of the trapframe page at
    the offsets of [struct trapframe]. The addresses of [trampoline] and
    [forkret] are given by the linker and are parameters. *)

From Stdlib Require Import ZifyBool.
From S2P Require Import Prelude Riscv Ram KString Kalloc Vm Block Log Fs Printf Uart Pipe Console Kern File.

(** Offsets in [struct trapframe]. *)
Definition TF_KERNEL_SATP : Z := 0.
Definition TF_KERNEL_SP : Z := 8.
Definition TF_KERNEL_TRAP : Z := 16.
Definition TF_EPC : Z := 24.
Definition TF_KERNEL_HARTID : Z := 32.
Definition TF_SP : Z := 48.
Definition TF_S0 : Z := 96.
Definition TF_S1 : Z := 104.
Definition TF_A0 : Z := 112.
Definition TF_A1 : Z := 120.
Definition TF_A2 : Z := 128.
Definition TF_A3 : Z := 136.
Definition TF_A4 : Z := 144.
Definition TF_A5 : Z := 152.
Definition TF_A7 : Z := 168.
Definition TF_S2 : Z := 176.
Definition TF_SIZE : Z := 288.

Definition initcode : list Z :=
  [0x17; 0x05; 0x00; 0x00; 0x13; 0x05; 0x45; 0x02; 0x97; 0x05; 0x00;
   0x00; 0x93; 0x85; 0x35; 0x02; 0x93; 0x08; 0x70; 0x00; 0x73; 0x00;
   0x00; 0x00; 0x93; 0x08; 0x20; 0x00; 0x73; 0x00; 0x00; 0x00; 0xef;
   0xf0; 0x9f; 0xff; 0x2f; 0x69; 0x6e; 0x69; 0x74; 0x00; 0x00; 0x24;
   0x00; 0x00; 0x00; 0x00; 0x00; 0x00; 0x00; 0x00].

(** [name] after [safestrcpy(name, t, 16)]: the bytes of [t], a terminating NUL,
    and what was there. *)
Definition copy_pname (name t : list Z) : list Z :=
  Vm.get 16 (safestrcpy (put (put ∅ 0 name) 256 (t ++ [0])) 0 256 16) 0.

(** The bytes of a name that [printf] prints for percent-s. *)
Fixpoint until_nul (l : list Z) : list Z :=
  match l with
  | [] => []
  | c :: l' => if c =? 0 then [] else c :: until_nul l'
  end.

(** The process table before [procinit]: static storage, all zero. *)
Definition zero_proc : proc :=
  mk_proc UNUSED None 0 0 0 None 0 0 0 0 0 0 (replicate (Z.to_nat NOFILE) None) None (replicate 16 0).

Definition set_kstack (p : proc) (x : Z) : proc :=
  mk_proc (pstate p) (pchan p) (pkilled p) (xstate p) (pid p) (parent p) x (psz p) (pagetable p) (trapframe p)
    (context_ra p) (context_sp p) (ofile p) (cwd p) (pname p).

Definition procinit (ps : list proc) : list proc :=
  imap (λ i p, set_kstack (set_pstate p UNUSED) (KSTACK (Z.of_nat i))) ps.

(** The first entry of the table that satisfies [f], from index [i] on. *)
Fixpoint scan_procs (f : proc → bool) (ps : list proc) (i : Z) : option Z :=
  match ps with
  | [] => None
  | p :: ps' => if f p then Some i else scan_procs f ps' (i + 1)
  end.

Definition is_unused (p : proc) : bool := bool_decide (pstate p = UNUSED).

Section proc.
Context {heap : Type} `{AL : Allocator heap}.
Implicit Types (k : @kern heap).
Context (trampoline forkret : Z).

Definition tf_get (k : @kern heap) (p : proc) (off : Z) : Z := ld64 (vram (kvm k)) (trapframe p + off).
Definition tf_set (k : @kern heap) (p : proc) (off v : Z) : @kern heap :=
  with_vm k (with_ram (kvm k) (st64 (vram (kvm k)) (trapframe p + off) v)).

Definition allocpid (k : @kern heap) : Z * @kern heap :=
  (nextpid k, with_nextpid k (i32 (nextpid k + 1))).

(** [proc_pagetable], on memory: the page table, or 0. *)
Definition proc_pagetable (s : @vm heap) (trapframe : Z) : outcome (Z * @vm heap) :=
  '(pagetable, s) ← uvmcreate s;
  if pagetable =? 0 then Ok (0, s)
  else
    '(r, s) ← mappages s pagetable TRAMPOLINE PGSIZE trampoline (Z.lor PTE_R PTE_X);
    if r <? 0 then
      s ← uvmfree s pagetable 0;
      Ok (0, s)
    else
      '(r, s) ← mappages s pagetable TRAPFRAME PGSIZE trapframe (Z.lor PTE_R PTE_W);
      if r <? 0 then
        s ← uvmunmap s pagetable TRAMPOLINE 1 0;
        s ← uvmfree s pagetable 0;
        Ok (0, s)
      else Ok (pagetable, s).

Definition proc_freepagetable (s : @vm heap) (pagetable sz : Z) : outcome (@vm heap) :=
  s ← uvmunmap s pagetable TRAMPOLINE 1 0;
  s ← uvmunmap s pagetable TRAPFRAME 1 0;
  uvmfree s pagetable sz.

Definition freeproc (k : @kern heap) (i : Z) : outcome (@kern heap) :=
  p ← get_proc k i;
  s ← (if negb (trapframe p =? 0) then vm_free (kvm k) (trapframe p) else Ok (kvm k));
  s ← (if negb (pagetable p =? 0) then proc_freepagetable s (pagetable p) (psz p) else Ok s);
  name ← arr_set (pname p) 0 0;
  put_proc (with_vm k s) i
    (mk_proc UNUSED None 0 0 0 None (kstack p) 0 0 0 (context_ra p) (context_sp p) (ofile p) (cwd p) name).

Definition allocproc (k : @kern heap) : outcome (option Z * @kern heap) :=
  match scan_procs is_unused (procs k) 0 with
  | None => Ok (None, k)
  | Some i =>
      p ← get_proc k i;
      let '(pid, k) := allocpid k in
      '(tf, s) ← vm_alloc (kvm k);
      let p := set_trapframe (set_pstate (set_pid p pid) USED) tf in
      k ← put_proc (with_vm k s) i p;
      if tf =? 0 then
        k ← freeproc k i;
        Ok (None, k)
      else
        '(pt, s) ← proc_pagetable (kvm k) tf;
        let p := set_pagetable p pt in
        k ← put_proc (with_vm k s) i p;
        if pt =? 0 then
          k ← freeproc k i;
          Ok (None, k)
        else
          k ← put_proc k i (set_context p forkret (kstack p + PGSIZE));
          Ok (Some i, k)
  end.

Definition userinit (k : @kern heap) : outcome (@kern heap) :=
  '(i, k) ← allocproc k;
  let k := with_initproc k i in
  i ← get_ip i;
  p ← get_proc k i;
  s ← uvmfirst (kvm k) (pagetable p) initcode;
  let p := set_psz p PGSIZE in
  let k := tf_set (with_vm k s) p TF_EPC 0 in
  let k := tf_set k p TF_SP PGSIZE in
  let p := set_pname p (copy_pname (pname p) (chars "initcode")) in
  '(ip, f) ← namei (kfs k) 0 (chars "/");
  put_proc (with_fs k f) i (set_pstate (set_cwd p ip) RUNNABLE).

Definition growproc (k : @kern heap) (cur n : Z) : outcome (Z * @kern heap) :=
  p ← get_proc k cur;
  let sz := psz p in
  if 0 <? n then
    '(sz', s) ← uvmalloc (kvm k) (pagetable p) sz (u64 (sz + n)) PTE_W;
    if sz' =? 0 then Ok (-1, with_vm k s)
    else k ← put_proc (with_vm k s) cur (set_psz p sz'); Ok (0, k)
  else if n <? 0 then
    '(sz', s) ← uvmdealloc (kvm k) (pagetable p) sz (u64 (sz + n));
    k ← put_proc (with_vm k s) cur (set_psz p sz'); Ok (0, k)
  else k ← put_proc k cur (set_psz p sz); Ok (0, k).

(** The loop of [fork] that shares the open files: [fs] are the parent's
    descriptors from [i] on, [ofs] the child's array. *)
Fixpoint fork_files (k : @kern heap) (fs : list (option Z)) (i : Z) (ofs : list (option Z))
    : outcome (list (option Z) * @kern heap) :=
  match fs with
  | [] => Ok (ofs, k)
  | None :: fs' => fork_files k fs' (i + 1) ofs
  | Some f :: fs' =>
      k ← filedup k f;
      ofs ← arr_set ofs i (Some f);
      fork_files k fs' (i + 1) ofs
  end.

Definition fork (k : @kern heap) (cur : Z) : outcome (Z * @kern heap) :=
  '(np, k) ← allocproc k;
  match np with
  | None => Ok (-1, k)
  | Some i =>
      p ← get_proc k cur;
      c ← get_proc k i;
      '(r, s) ← uvmcopy (kvm k) (pagetable p) (pagetable c) (psz p);
      if r <? 0 then
        k ← freeproc (with_vm k s) i;
        Ok (-1, k)
      else
        let c := set_psz c (psz p) in
        let k := with_vm k (with_ram s (put (vram s) (trapframe c) (Vm.get (Z.to_nat TF_SIZE) (vram s) (trapframe p)))) in
        let k := tf_set k c TF_A0 0 in
        '(ofs, k) ← fork_files k (ofile p) 0 (ofile c);
        cwd ← get_ip (cwd p);
        f ← idup (kfs k) cwd;
        let c := set_pname (set_cwd (set_ofile c ofs) (Some cwd)) (copy_pname (pname c) (until_nul (pname p))) in
        k ← put_proc (with_fs k f) i (set_pstate (set_parent c (Some cur)) RUNNABLE);
        Ok (pid c, k)
  end.

(** The loop of [reparent] over the whole table, from index [i] on. *)
Fixpoint reparent_loop (n : nat) (k : @kern heap) (cur p i : Z) : outcome (@kern heap) :=
  match n with
  | O => Ok k
  | S n' =>
      pp ← get_proc k i;
      k ← (if bool_decide (parent pp = Some p) then
             k ← put_proc k i (set_parent pp (initproc k));
             Ok match initproc k with
                | Some ip => wakeup k (Some cur) (ChProc ip)
                | None => k
                end
           else Ok k);
      reparent_loop n' k cur p (i + 1)
  end.

Definition reparent (k : @kern heap) (cur p : Z) : outcome (@kern heap) :=
  reparent_loop (length (procs k)) k cur p 0.

(** Closing the descriptors [fd ..] of the exiting process. *)
Fixpoint exit_files (n : nat) (k : @kern heap) (cur fd : Z) : outcome (@kern heap) :=
  match n with
  | O => Ok k
  | S n' =>
      p ← get_proc k cur;
      f ← arr_get (ofile p) fd;
      k ← match f with
          | None => Ok k
          | Some f =>
              k ← fileclose k (Some cur) f;
              p ← get_proc k cur;
              ofs ← arr_set (ofile p) fd None;
              put_proc k cur (set_ofile p ofs)
          end;
      exit_files n' k cur (fd + 1)
  end.

(** [exit] up to the switch to the scheduler. *)
Definition exit (k : @kern heap) (cur status : Z) : outcome (@kern heap) :=
  if bool_decide (initproc k = Some cur) then Panic "init exiting"
  else
    k ← exit_files (Z.to_nat NOFILE) k cur 0;
    p ← get_proc k cur;
    f ← fbegin_op (kfs k);
    cwd ← get_ip (cwd p);
    f ← iput f cwd;
    f ← fend_op f;
    k ← put_proc (with_fs k f) cur (set_cwd p None);
    k ← reparent k cur cur;
    p ← get_proc k cur;
    let k := match parent p with
             | Some pp => wakeup k (Some cur) (ChProc pp)
             | None => k
             end in
    p ← get_proc k cur;
    put_proc k cur (set_pstate (set_xstate p status) ZOMBIE).

(** The scan of [wait] for an exited child: its index if there is one, and
    whether the caller has children at all. *)
Fixpoint wait_scan (ps : list proc) (cur i : Z) (havekids : bool) : option Z * bool :=
  match ps with
  | [] => (None, havekids)
  | pp :: ps' =>
      if bool_decide (parent pp = Some cur) then
        if bool_decide (pstate pp = ZOMBIE) then (Some i, true)
        else wait_scan ps' cur (i + 1) true
      else wait_scan ps' cur (i + 1) havekids
  end.

(** A turn of [wait]: it ends by returning or by sleeping on the caller. *)
Definition wait (k : @kern heap) (cur addr : Z) : outcome (turn * @kern heap) :=
  p ← get_proc k cur;
  match wait_scan (procs k) cur 0 false with
  | (Some i, _) =>
      pp ← get_proc k i;
      let pid := pid pp in
      '(r, s) ←
        (if negb (addr =? 0) then copyout (kvm k) (pagetable p) addr (to_le 4 (xstate pp))
         else Ok (0, kvm k));
      let k := with_vm k s in
      if r <? 0 then Ok (Return (-1), k)
      else
        k ← freeproc k i;
        Ok (Return pid, k)
  | (None, havekids) =>
      if negb havekids || negb (pkilled p =? 0) then Ok (Return (-1), k)
      else Ok (SleepAt 0, k)
  end.

(** [kill]: the first entry with that pid. *)
Definition kill (k : @kern heap) (pid_ : Z) : outcome (Z * @kern heap) :=
  match scan_procs (λ p, pid p =? pid_) (procs k) 0 with
  | None => Ok (-1, k)
  | Some i =>
      p ← get_proc k i;
      let p := set_pkilled p 1 in
      let p := if bool_decide (pstate p = SLEEPING) then set_pstate p RUNNABLE else p in
      k ← put_proc k i p;
      Ok (0, k)
  end.

Definition setkilled (k : @kern heap) (i : Z) : outcome (@kern heap) :=
  p ← get_proc k i; put_proc k i (set_pkilled p 1).

Definition killed (k : @kern heap) (i : Z) : outcome Z := p ← get_proc k i; Ok (pkilled p).

(** [procdump]: one line for each entry in use. *)
Definition state_name (s : procstate) : list Z :=
  match s with
  | UNUSED => chars "unused"
  | USED => chars "used"
  | SLEEPING => chars "sleep "
  | RUNNABLE => chars "runble"
  | RUNNING => chars "run   "
  | ZOMBIE => chars "zombie"
  end.

Fixpoint procdump_loop (ps : list proc) : outcome (list Z) :=
  match ps with
  | [] => Ok []
  | p :: ps' =>
      if is_unused p then procdump_loop ps'
      else
        l1 ← Kernel.printf (chars "%d %s %s")
               [VInt (pid p); VStr (Some (state_name (pstate p))); VStr (Some (until_nul (pname p)))];
        l2 ← Kernel.printf [10] [];
        l3 ← procdump_loop ps';
        Ok (l1 ++ l2 ++ l3)
  end.

Definition procdump (k : @kern heap) : outcome (@kern heap) :=
  l1 ← Kernel.printf [10] [];
  l2 ← procdump_loop (procs k);
  Ok (with_out k (kout k ++ l1 ++ l2)).

(** ** [dump] and [dump2] *)

Definition proc_register_s_value_at (k : @kern heap) (this : proc) (n : Z) : outcome Z :=
  if n =? 0 then Ok (tf_get k this TF_S0)
  else if n =? 1 then Ok (tf_get k this TF_S1)
  else if (2 <=? n) && (n <=? 11) then Ok (tf_get k this (TF_S2 + 8 * (n - 2)))
  else Panic "registers s are numbered in range 0-11".

(** The line printed for register [i] with value [value]. *)
Definition dump_line (i value : Z) : outcome (list Z) :=
  let display := i32 (Z.land value 0x00000000FFFFFFFF) in
  Kernel.printf (chars "s%d" ++ [9] ++ chars "= %d (%x)" ++ [10]) [VInt i; VInt display; VInt display].

Fixpoint dump_loop (n : nat) (k : @kern heap) (p : proc) (i : Z) : outcome (@kern heap) :=
  match n with
  | O => Ok k
  | S n' =>
      value ← proc_register_s_value_at k p i;
      l ← dump_line i value;
      dump_loop n' (with_out k (kout k ++ l)) p (i + 1)
  end.

Definition dump (k : @kern heap) (cur : Z) : outcome (Z * @kern heap) :=
  p ← get_proc k cur;
  k ← dump_loop 10 k p 2;
  Ok (0, k).

Definition proc_acquire_by_id (k : @kern heap) (pid_ : Z) : option Z :=
  scan_procs (λ p, (pid p =? pid_) && (pkilled p =? 0)) (procs k) 0.

(** The walk of [proc_is_child] from [this] up the parents; [fuel] bounds it. *)
Fixpoint proc_is_child_loop (fuel : nat) (k : @kern heap) (process : option Z) (parent_pid : Z) : outcome bool :=
  match process with
  | None => Ok false
  | Some i =>
      match fuel with
      | O => Hang
      | S fuel' =>
          p ← get_proc k i;
          if pid p =? parent_pid then Ok true
          else proc_is_child_loop fuel' k (parent p) parent_pid
      end
  end.

Definition proc_is_child (k : @kern heap) (this parent : Z) : outcome bool :=
  pp ← get_proc k parent;
  proc_is_child_loop (length (procs k)) k (Some this) (pid pp).

Definition dump2 (k : @kern heap) (cur pid_ reg_num ret_addr : Z) : outcome (Z * @kern heap) :=
  match proc_acquire_by_id k pid_ with
  | None => Ok (-2, k)
  | Some target =>
      c ← proc_is_child k target cur;
      if negb c then Ok (-1, k)
      else if negb ((2 <=? reg_num) && (reg_num <=? 11)) then Ok (-3, k)
      else
        t ← get_proc k target;
        value ← proc_register_s_value_at k t reg_num;
        p ← get_proc k cur;
        '(r, s) ← either_copyout (kvm k) (pagetable p) 1 ret_addr (to_le 8 value);
        Ok (if r <? 0 then -4 else 0, with_vm k s)
  end.
End proc.
