(* ===== verification/ProcTree.v ===== *)
(** * The process tree: what [fork], [exit], [wait] and [kill] keep true of the
    process table.

    The shape of the tree is the pid, the parent and the life stage of each
    entry; everything else in the kernel state can change without touching it.
    The invariant makes the walk of [proc_is_child] up the parents finite, and
    says what its answer means. *)

From Stdlib Require Import ZifyBool.
From S2P Require Import Prelude Riscv Ram Kalloc Vm VmProof VmUser VmCopy VmThm Block Log Fs Uart Pipe Console Kern File Proc.

Inductive stage := Free | Live | Zombie.

#[global] Instance stage_eq_dec : EqDecision stage.
Proof. solve_decision. Defined.

Definition stage_of (s : procstate) : stage :=
  match s with UNUSED => Free | ZOMBIE => Zombie | _ => Live end.

Record node := mk_node { npid : Z; nparent : option Z; nstage : stage }.

Definition node_of (p : proc) : node := mk_node (pid p) (parent p) (stage_of (pstate p)).

(** The invariant, on the nodes of the table, with [next] the next pid and
    [init] the entry of the first process. *)
Record tree_ok (t : list node) (next : Z) (init : option Z) : Prop := {
  to_next : 0 < next;
  to_pid : ∀ i x, t !! i = Some x → nstage x ≠ Free → 0 < npid x < next;
  to_uniq : ∀ i j x y, t !! i = Some x → t !! j = Some y →
    nstage x ≠ Free → nstage y ≠ Free → npid x = npid y → i = j;
  to_parent : ∀ i x j, t !! i = Some x → nparent x = Some j →
    0 ≤ j ∧ ∃ y, t !! Z.to_nat j = Some y ∧ nstage y = Live ∧ npid y < npid x;
  to_free : ∀ i x, t !! i = Some x → nstage x = Free → npid x = 0 ∧ nparent x = None;
  to_init : ∀ j, init = Some j → 0 ≤ j ∧ ∃ y, t !! Z.to_nat j = Some y ∧ nstage y = Live ∧
    ∀ i x, t !! i = Some x → nstage x ≠ Free → i ≠ Z.to_nat j → npid y < npid x;
}.

(** ** Walking up *)

(** [a] is [i] or one of its ancestors. *)
Inductive ancestor (t : list node) : Z → Z → Prop :=
| anc_self i : ancestor t i i
| anc_up i j a x : t !! Z.to_nat i = Some x → nparent x = Some j → ancestor t j a → ancestor t i a.

(** The entries with a pid up to [m], a bound on the length of a walk. *)
Definition below (t : list node) (m : Z) : nat := length (filter (λ x, npid x ≤ m) t).

Lemma below_length t m : (below t m ≤ length t)%nat.
Proof. apply length_filter. Qed.

Lemma below_lt t i x y : t !! i = Some x → npid y < npid x → (below t (npid y) < below t (npid x))%nat.
Proof.
  intros Hx Hlt. unfold below. revert i Hx. induction t as [|z t IH]; intros i Hx; [done|].
  assert (Hle : (length (filter (λ x, npid x ≤ npid y)%Z t) ≤ length (filter (λ z, npid z ≤ npid x)%Z t))%nat).
  { clear IH Hx. induction t as [|w t IH]; [done|]. rewrite !filter_cons.
    repeat case_decide; simpl; lia. }
  destruct i as [|i]; simpl in Hx.
  - injection Hx as ->. rewrite !filter_cons, decide_False, decide_True by lia. simpl. lia.
  - specialize (IH i Hx). rewrite !filter_cons. repeat case_decide; simpl; lia.
Qed.

Section tree.
Context {heap : Type} `{AL : Allocator heap}.
Implicit Types (k : @kern heap).

Definition nodes (k : @kern heap) : list node := node_of <$> procs k.

Definition tree (k : @kern heap) : Prop := tree_ok (nodes k) (nextpid k) (initproc k).

Lemma get_proc_ok k i p : get_proc k i = Ok p ↔ 0 ≤ i ∧ procs k !! Z.to_nat i = Some p.
Proof. apply arr_get_Ok. Qed.

Lemma nodes_lookup k i x :
  nodes k !! i = Some x ↔ ∃ p, procs k !! i = Some p ∧ x = node_of p.
Proof. unfold nodes. rewrite list_lookup_fmap, fmap_Some. done. Qed.

(** The walk of [proc_is_child] ends, and says whether some process on the way
    up has the pid. *)
Lemma proc_is_child_loop_ok k fuel i p q :
  tree k → 0 ≤ i → procs k !! Z.to_nat i = Some p → (below (nodes k) (pid p) ≤ fuel)%nat →
  ∃ b, proc_is_child_loop fuel k (Some i) q = Ok b ∧
    (b = true ↔ ∃ a y, ancestor (nodes k) i a ∧ nodes k !! Z.to_nat a = Some y ∧ npid y = q).
Proof.
  intros Ht. revert i p. induction fuel as [|f IH]; intros i p Hi Hp Hf.
  { exfalso. assert (nodes k !! Z.to_nat i = Some (node_of p)) as Hx by (apply nodes_lookup; eauto).
    pose proof (below_lt (nodes k) _ _ (mk_node (pid p - 1) None Free) Hx ltac:(simpl; lia)) as Hb. simpl in Hb. lia. }
  assert (nodes k !! Z.to_nat i = Some (node_of p)) as Hx by (apply nodes_lookup; eauto).
  cbn [proc_is_child_loop]. rewrite (proj2 (get_proc_ok k i p)) by done. cbn [mbind outcome_bind].
  destruct (Z.eqb_spec (pid p) q) as [E|E].
  { exists true. split; [done|]. split; [|done]. intros _. exists i, (node_of p). split; [apply anc_self|done]. }
  destruct (parent p) as [j|] eqn:Ej.
  - destruct (to_parent _ _ _ Ht _ _ j Hx Ej) as (Hj & y & Hy & Hlive & Hlt).
    apply nodes_lookup in Hy as Hy'. destruct Hy' as (p' & Hp' & ->).
    pose proof (below_lt _ _ _ _ Hx Hlt) as Hb.
    destruct (IH j p' Hj Hp') as (b & Eb & Hb'); [simpl in Hb; lia|].
    exists b. split; [done|]. rewrite Hb'. split; intros (a & z & Ha & Hz & Hq); exists a, z; (split; [|done]).
    + by eapply anc_up.
    + destruct Ha as [i|i j' a x Hx' Hj' Ha].
      * rewrite Hx in Hz. injection Hz as <-. simpl in Hq. done.
      * rewrite Hx in Hx'. injection Hx' as <-. simpl in Hj'. rewrite Ej in Hj'. by injection Hj' as <-.
  - exists false. split; [by destruct f|]. split; [done|]. intros (a & z & Ha & Hz & Hq). exfalso.
    destruct Ha as [i|i j' a x Hx' Hj' Ha].
    + rewrite Hx in Hz. injection Hz as <-. simpl in Hq. done.
    + rewrite Hx in Hx'. injection Hx' as <-. simpl in Hj'. by rewrite Ej in Hj'.
Qed.

Lemma ancestor_nonneg t next init i a : tree_ok t next init → ancestor t i a → 0 ≤ i → 0 ≤ a.
Proof.
  intros Ht. induction 1 as [i|i j a x Hx Hj Ha IH]; intros Hi; [done|].
  apply IH. by destruct (to_parent _ _ _ Ht _ _ _ Hx Hj).
Qed.

(** For a live caller: is it the target or one of its ancestors? *)
Lemma proc_is_child_ok k this cur p c :
  tree k → get_proc k this = Ok p → get_proc k cur = Ok c → pstate c ≠ UNUSED →
  ∃ b, proc_is_child k this cur = Ok b ∧ (b = true ↔ ancestor (nodes k) this cur).
Proof.
  intros Ht Hp Hc Hsc. unfold proc_is_child. rewrite Hc. cbn [mbind outcome_bind].
  apply get_proc_ok in Hp as [Hi Hp]. apply get_proc_ok in Hc as [Hj Hc].
  destruct (proc_is_child_loop_ok k (length (procs k)) this p (pid c) Ht Hi Hp) as (b & E & Hb).
  { rewrite below_length. unfold nodes. by rewrite length_fmap. }
  exists b. split; [done|]. rewrite Hb. clear E Hb b.
  assert (Hcl : nstage (node_of c) ≠ Free) by (simpl; by destruct (pstate c)).
  assert (Hcn : nodes k !! Z.to_nat cur = Some (node_of c)) by (apply nodes_lookup; eauto).
  pose proof (to_pid _ _ _ Ht _ _ Hcn Hcl) as Hpos.
  split.
  - intros (a & y & Ha & Hy & Eq).
    assert (nstage y ≠ Free) as Hyl.
    { intros Ef. destruct (to_free _ _ _ Ht _ _ Hy Ef) as [E0 _]. simpl in Hpos. lia. }
    assert (Z.to_nat a = Z.to_nat cur) as E.
    { eapply (to_uniq _ _ _ Ht); [exact Hy|exact Hcn|done|done|done]. }
    assert (0 ≤ a) by (by eapply ancestor_nonneg). assert (a = cur) as <- by lia. done.
  - intros Ha. exists cur, (node_of c). done.
Qed.

(** ** [dump2] *)

Lemma scan_procs_Some f ps i j :
  scan_procs f ps i = Some j → i ≤ j ∧ ∃ p, ps !! Z.to_nat (j - i) = Some p ∧ f p = true.
Proof.
  revert i. induction ps as [|p ps IH]; intros i; simpl; [done|]. destruct (f p) eqn:Ef.
  - intros [= <-]. rewrite Z.sub_diag. split; [lia|]. by exists p.
  - intros (Hle & q & Hq & Hf)%IH. split; [lia|]. exists q.
    replace (Z.to_nat (j - i)) with (S (Z.to_nat (j - (i + 1)))) by lia. done.
Qed.

Lemma scan_procs_None f ps i : scan_procs f ps i = None → Forall (λ p, f p = false) ps.
Proof.
  revert i. induction ps as [|p ps IH]; intros i; simpl; [done|]. destruct (f p) eqn:Ef; [done|].
  intros H. constructor; [done|by eapply IH].
Qed.

Lemma scan_proc_ok k f i :
  scan_procs f (procs k) 0 = Some i → ∃ p, get_proc k i = Ok p ∧ f p = true.
Proof.
  intros (Hi & p & Hp & Hf)%scan_procs_Some. rewrite Z.sub_0_r in Hp. exists p. split; [|done].
  by apply get_proc_ok.
Qed.

(** Saved register [s<reg>] of a process, for [reg] from 2 to 11. *)
Definition saved_s (k : @kern heap) (p : proc) (reg : Z) : Z :=
  ld64 (vram (kvm k)) (trapframe p + 176 + 8 * (reg - 2)).

End tree.

(** ** Example: a parent and its child *)

Definition demo_procs : list proc :=
  [set_pagetable (set_pid (set_pstate zero_proc RUNNING) 1) demo_root;
   set_parent (set_pid (set_pstate zero_proc RUNNABLE) 2) (Some 0)].

Definition demo_kern2 : @kern Buddy.buddy :=
  mk_kern demo_vm2 (mk_fs (mk_fslog (Bio.mk_bio [] ∅ ∅ []) (mk_log 0 0 0 0 0 0 [])) (parse_sb []) iinit)
    ∅ ∅ demo_procs 3 (Some 0) 0 demo_cons demo_uart [].

Lemma demo_tree : tree demo_kern2.
Proof.
  assert (Hall : ∀ i x, nodes demo_kern2 !! i = Some x →
    (i = 0%nat ∧ x = mk_node 1 None Live) ∨ (i = 1%nat ∧ x = mk_node 2 (Some 0) Live)).
  { intros [|[|i]] x; simpl; [intros [= <-]; auto..|done]. }
  constructor; simpl.
  - lia.
  - intros i x [[-> ->]|[-> ->]]%Hall _; simpl; lia.
  - intros i j x y [[-> ->]|[-> ->]]%Hall [[-> ->]|[-> ->]]%Hall _ _; simpl; lia || done.
  - intros i x j [[-> ->]|[-> ->]]%Hall; simpl; [done|]. intros [= <-]. split; [lia|].
    exists (mk_node 1 None Live). split; [done|]. split; [done|]. simpl. lia.
  - intros i x [[-> ->]|[-> ->]]%Hall; done.
  - intros j [= <-]. split; [lia|]. exists (mk_node 1 None Live). split_and!; [done..|].
    intros i x [[-> ->]|[-> ->]]%Hall _ ?; simpl in *; [done|lia].
Qed.

