(* ===== verification/ProcInv.v ===== *)
(** * The process-tree invariant holds from boot on.

    [fork], [exit], [wait], [kill] and everything that leaves the tree alone are
    the steps of a transition system over the kernel state that starts after
    [userinit]; the invariant of [ProcTree] is preserved by each of them. *)

From Stdlib Require Import ZifyBool.
From S2P Require Import Prelude Riscv Ram Buddy Kalloc Vm VmThm Block Log Fs Uart Pipe Console Kern File Proc ProcTree.

(** ** Operations on the tree *)

Definition free_node : node := mk_node 0 None Free.

Lemma tree_next t next init : tree_ok t next init → tree_ok t (next + 1) init.
Proof. intros [H1 H2 H3 H4 H5 H6]. constructor; try done; [lia|]. intros i x Hi Hx. specialize (H2 i x Hi Hx). lia. Qed.

(** A new process in a free entry, child of a live one. *)
Lemma tree_fork t next init i j y :
  tree_ok t next init → (i < length t)%nat → t !! i = Some free_node →
  0 ≤ j → t !! Z.to_nat j = Some y → nstage y = Live →
  tree_ok (<[i := mk_node next (Some j) Live]> t) (next + 1) init.
Proof.
  intros Ht Hi Hfree Hj Hy Hlive.
  assert (Hnew : ∀ j0 x, t !! j0 = Some x → nstage x = Live → j0 ≠ i ∧ npid x < next).
  { intros j0 x Hx Hl. split; [intros ->; rewrite Hfree in Hx; by injection Hx as <-|].
    apply (to_pid _ _ _ Ht _ _ Hx). by rewrite Hl. }
  constructor.
  - pose proof (to_next _ _ _ Ht). lia.
  - intros a x [(<- & <- & _)|[Hne Ha]]%list_lookup_insert_Some Hx; simpl.
    + pose proof (to_next _ _ _ Ht). lia.
    + pose proof (to_pid _ _ _ Ht a x Ha Hx). lia.
  - intros a b x z [(<- & <- & _)|[Hne Ha]]%list_lookup_insert_Some [(<- & <- & _)|[Hne' Hb]]%list_lookup_insert_Some Hx Hz E;
      simpl in E; try done.
    + pose proof (to_pid _ _ _ Ht b z Hb Hz). lia.
    + pose proof (to_pid _ _ _ Ht a x Ha Hx). lia.
    + by eapply (to_uniq _ _ _ Ht).
  - intros a x j' [(<- & <- & _)|[Hne Ha]]%list_lookup_insert_Some Hp; simpl in Hp.
    + injection Hp as <-. split; [done|]. exists y. destruct (Hnew _ _ Hy Hlive).
      by rewrite list_lookup_insert_ne by done.
    + destruct (to_parent _ _ _ Ht a x j' Ha Hp) as (? & z & Hz & Hl & Hlt). split; [done|].
      exists z. destruct (Hnew _ _ Hz Hl). by rewrite list_lookup_insert_ne by done.
  - intros a x [(<- & <- & _)|[Hne Ha]]%list_lookup_insert_Some Hx; [done|]. by eapply (to_free _ _ _ Ht).
  - intros j' ->. destruct (to_init _ _ _ Ht j' eq_refl) as (? & z & Hz & Hl & Hmin). split; [done|].
    exists z. destruct (Hnew _ _ Hz Hl) as [? ?]. rewrite list_lookup_insert_ne by done. split_and!; [done..|].
    intros a x [(<- & <- & _)|[Hne Ha]]%list_lookup_insert_Some Hx Hd; [done|by eapply Hmin].
Qed.

(** [exit]: the children of [c] become children of [j], and [c] a zombie. *)
Definition adopt (c : Z) (j : option Z) (x : node) : node :=
  if bool_decide (nparent x = Some c) then mk_node (npid x) j (nstage x) else x.

Lemma tree_exit t next c j y :
  tree_ok t next (Some j) → 0 ≤ c → c ≠ j → t !! Z.to_nat c = Some y → nstage y = Live →
  tree_ok (<[Z.to_nat c := mk_node (npid y) (nparent y) Zombie]> (adopt c (Some j) <$> t)) next (Some j).
Proof.
  intros Ht Hc Hcj Hy Hlive. destruct (to_init _ _ _ Ht j eq_refl) as (Hj & z & Hz & Hzl & Hmin).
  assert (Hpid : ∀ x, npid (adopt c (Some j) x) = npid x ∧ nstage (adopt c (Some j) x) = nstage x).
  { intros x. unfold adopt. by case_bool_decide. }
  set (t' := <[Z.to_nat c := _]> _).
  assert (Hlook : ∀ a x', t' !! a = Some x' → ∃ x, t !! a = Some x ∧ npid x' = npid x ∧
    (nstage x' ≠ Free ↔ nstage x ≠ Free) ∧
    (∀ p, nparent x' = Some p → p ≠ c ∧ (nparent x = Some p ∨ (p = j ∧ nparent x = Some c)))).
  { intros a x' [(<- & <- & _)|[Hne Ha]]%list_lookup_insert_Some.
    - exists y. simpl. split_and!; try done; [by rewrite Hlive|]. intros p Hp. split; [|by left]. intros ->.
      destruct (to_parent _ _ _ Ht _ _ _ Hy Hp) as (_ & y' & Hy' & _ & Hlt). rewrite Hy in Hy'. injection Hy' as <-. lia.
    - apply list_lookup_fmap_Some in Ha as (x & -> & Hx). exists x. destruct (Hpid x) as [-> ->]. split_and!; try done.
      unfold adopt. case_bool_decide as E; simpl; intros p Hp; [injection Hp as <-; auto|].
      split; [congruence|by left]. }
  assert (Hkeep : ∀ a x, t !! a = Some x → nstage x = Live → a ≠ Z.to_nat c → t' !! a = Some (adopt c (Some j) x)).
  { intros a x Ha Hl Hne. unfold t'. rewrite list_lookup_insert_ne by done. by rewrite list_lookup_fmap, Ha. }
  constructor.
  - exact (to_next _ _ _ Ht).
  - intros a x' (x & Hx & -> & Hs & _)%Hlook Hn. by apply (to_pid _ _ _ Ht a), Hs.
  - intros a b x' z' (x & Hx & Ex & Hsx & _)%Hlook (w & Hw & Ew & Hsw & _)%Hlook Hn1 Hn2 E.
    eapply (to_uniq _ _ _ Ht a b x w); try done; [by apply Hsx|by apply Hsw|congruence].
  - intros a x' p (x & Hx & Ex & Hs & Hpar)%Hlook Hp. destruct (Hpar p Hp) as [Hne [Hp'|[-> Hp']]].
    + destruct (to_parent _ _ _ Ht _ _ _ Hx Hp') as (Hp0 & w & Hw & Hl & Hlt). split; [done|].
      exists (adopt c (Some j) w). destruct (Hpid w) as [-> ->]. split_and!; [apply Hkeep; [done..|lia]|done|lia].
    + split; [done|]. exists (adopt c (Some j) z). destruct (Hpid z) as [-> ->].
      split_and!; [apply Hkeep; [done..|lia]|done|]. rewrite Ex.
      assert (nstage x ≠ Free) as Hxf by (intros Ef; destruct (to_free _ _ _ Ht _ _ Hx Ef) as [_ ?]; congruence).
      apply (Hmin a x Hx Hxf). intros ->. rewrite Hz in Hx. injection Hx as <-.
      destruct (to_parent _ _ _ Ht _ _ _ Hz Hp') as (_ & w & Hw & _ & Hlt). rewrite Hy in Hw. injection Hw as <-.
      assert (npid z < npid y); [|lia]. apply (Hmin (Z.to_nat c) y Hy); [by rewrite Hlive|lia].
  - intros a x' Ha Hf. pose proof (Hlook a x' Ha) as (x & Hx & -> & Hs & Hpar).
    assert (nstage x = Free) as Hxf by (destruct (decide (nstage x = Free)); [done|]; by apply Hs in Hf).
    destruct (to_free _ _ _ Ht _ _ Hx Hxf) as [? Hnp]. split; [done|].
    destruct (nparent x') as [p|] eqn:Ep; [|done]. destruct (Hpar p eq_refl) as [_ [?|[_ ?]]]; congruence.
  - intros j' [= <-]. split; [done|]. exists (adopt c (Some j) z). destruct (Hpid z) as [-> ->].
    split; [apply Hkeep; [done..|lia]|]. split; [done|].
    intros a x' (x & Hx & -> & Hs & _)%Hlook Hn Hne. apply (Hmin a); [done| |done]. by apply Hs.
Qed.

(** [wait] frees a zombie, which has no children. *)
Lemma tree_free t next init i x :
  tree_ok t next init → t !! i = Some x → nstage x = Zombie → tree_ok (<[i := free_node]> t) next init.
Proof.
  intros Ht Hx Hz.
  assert (Hlive : ∀ a y, t !! a = Some y → nstage y = Live → <[i := free_node]> t !! a = Some y).
  { intros a y Hy Hl. rewrite list_lookup_insert_ne; [done|]. intros ->. rewrite Hx in Hy. congruence. }
  constructor.
  - exact (to_next _ _ _ Ht).
  - intros a y [(<- & <- & _)|[Hne Ha]]%list_lookup_insert_Some Hn; [done|]. by eapply (to_pid _ _ _ Ht).
  - intros a b y w [(<- & <- & _)|[Hne Ha]]%list_lookup_insert_Some [(<- & <- & _)|[Hne' Hb]]%list_lookup_insert_Some;
      try done. by eapply (to_uniq _ _ _ Ht).
  - intros a y j [(<- & <- & _)|[Hne Ha]]%list_lookup_insert_Some Hp; [done|].
    destruct (to_parent _ _ _ Ht a y j Ha Hp) as (? & w & Hw & Hl & Hlt). split; [done|]. exists w. split; [by apply Hlive|done].
  - intros a y [(<- & <- & _)|[Hne Ha]]%list_lookup_insert_Some Hn; [done|]. by eapply (to_free _ _ _ Ht).
  - intros j ->. destruct (to_init _ _ _ Ht j eq_refl) as (? & w & Hw & Hl & Hmin). split; [done|].
    exists w. split; [by apply Hlive|]. split; [done|].
    intros a y [(<- & <- & _)|[Hne Ha]]%list_lookup_insert_Some Hn; [done|]. by eapply Hmin.
Qed.

(** ** What the operations do to the tree *)

Section inv.
Context {heap : Type} `{AL : Allocator heap}.
Implicit Types (k : @kern heap).
Context (trampoline forkret : Z).

(** [k'] has the same tree. *)
Definition keeps (k k' : @kern heap) : Prop :=
  nodes k' = nodes k ∧ nextpid k' = nextpid k ∧ initproc k' = initproc k.

#[global] Instance keeps_po : PreOrder keeps.
Proof.
  split; [by intros k|]. intros k1 k2 k3 (E1 & E2 & E3) (F1 & F2 & F3). unfold keeps. by rewrite F1, F2, F3.
Qed.

Lemma keeps_tree k k' : keeps k k' → tree k → tree k'.
Proof. intros (E1 & E2 & E3). unfold tree. by rewrite E1, E2, E3. Qed.

Lemma keeps_procs k k' : procs k' = procs k → nextpid k' = nextpid k → initproc k' = initproc k → keeps k k'.
Proof. intros E ? ?. unfold keeps, nodes. by rewrite E. Qed.

Lemma keeps_after k k1 k' :
  keeps k k1 → procs k' = procs k1 → nextpid k' = nextpid k1 → initproc k' = initproc k1 → keeps k k'.
Proof. intros H ? ? ?. transitivity k1; [done|by apply keeps_procs]. Qed.

Lemma keeps_wakeup k cur chan : keeps k (wakeup k cur chan).
Proof.
  split_and!; try done. unfold nodes, wakeup, wake_all. simpl. apply list_eq. intros i.
  rewrite !list_lookup_fmap, list_lookup_imap. destruct (procs k !! i) as [p|]; [|done]. simpl.
  unfold wake_one. case_bool_decide as E; [|done]. destruct E as (_ & E & _).
  unfold node_of. simpl. by rewrite E.
Qed.

(** Replacing an entry of the table. *)
Lemma put_proc_nodes k i p k' :
  put_proc k i p = Ok k' →
  nodes k' = <[Z.to_nat i := node_of p]> (nodes k) ∧ (Z.to_nat i < length (nodes k))%nat ∧
  nextpid k' = nextpid k ∧ initproc k' = initproc k ∧ procs k' = <[Z.to_nat i := p]> (procs k).
Proof.
  unfold put_proc. intros E. unbind. unfold arr_set in *. case_match eqn:Eg; [done|].
  injection H as <-. subst k'. unfold nodes. simpl. rewrite list_fmap_insert, length_fmap. split_and!; try done. lia.
Qed.

Lemma put_proc_keeps k i p q k' :
  get_proc k i = Ok p → node_of q = node_of p → put_proc k i q = Ok k' → keeps k k'.
Proof.
  intros [Hi Hp]%get_proc_ok E (En & _ & ? & ? & _)%put_proc_nodes. split_and!; try done.
  rewrite En. apply list_insert_id. unfold nodes. by rewrite list_lookup_fmap, Hp, E.
Qed.

Lemma filedup_keeps k f k' : filedup k f = Ok k' → keeps k k'.
Proof. unfold filedup. intros E. unbind. case_match; [done|]. injection E as <-. by apply keeps_procs. Qed.

Lemma pipeclose_keeps k cur pi w k' : pipeclose k cur pi w = Ok k' → keeps k k'.
Proof.
  unfold pipeclose. intros E. unbind.
  assert (Hput : ∀ x y c, keeps k (wakeup (put_pipe k x y) cur c)).
  { intros x' y c. transitivity (put_pipe k x' y); [by apply keeps_procs|apply keeps_wakeup]. }
  destruct (negb (w =? 0)); case_match; unbind; subst; apply Hput.
Qed.

Lemma fileclose_keeps k cur f k' : fileclose k cur f = Ok k' → keeps k k'.
Proof.
  unfold fileclose. intros E. unbind. case_match; [done|]. case_match.
  { injection E as <-. by apply keeps_procs. }
  apply bind_Ok_inv in E as (k1 & Ek & E). unfold buddy_free_k in E. unbind. subst.
  apply (keeps_after _ k1); [|done..].
  transitivity (put_file k f (set_fref x (fref x - 1))); [by apply keeps_procs|].
  case_bool_decide; [by eapply pipeclose_keeps|]. case_bool_decide; unbind; subst; by apply keeps_procs.
Qed.

Lemma fork_files_keeps k fs i ofs r k' : fork_files k fs i ofs = Ok (r, k') → keeps k k'.
Proof.
  revert k i ofs. induction fs as [|[f|] fs IH]; intros k i ofs E; simpl in E.
  - injection E as _ <-. done.
  - unbind. etransitivity; [by eapply filedup_keeps|by eapply IH].
  - by eapply IH.
Qed.

Lemma exit_files_keeps n k cur fd k' : exit_files n k cur fd = Ok k' → keeps k k'.
Proof.
  revert k fd. induction n as [|n IH]; intros k fd E; simpl in E; [injection E as <-; done|].
  unbind. destruct x0 as [f|].
  - unbind. etransitivity; [by eapply fileclose_keeps|]. etransitivity; [|by eapply IH].
    eapply put_proc_keeps; [eassumption| |eassumption]. done.
  - injection H1 as <-. by eapply IH.
Qed.

Lemma freeproc_nodes k i k' :
  freeproc k i = Ok k' →
  nodes k' = <[Z.to_nat i := free_node]> (nodes k) ∧ nextpid k' = nextpid k ∧ initproc k' = initproc k.
Proof. unfold freeproc. intros E. unbind. by apply put_proc_nodes in E as (En & _ & ? & ? & _). Qed.

(** [allocproc] fills a free entry with a live process without a parent; when it
    fails, the pid it drew is lost. *)
Lemma allocproc_nodes k r k' :
  tree k → allocproc trampoline forkret k = Ok (r, k') →
  initproc k' = initproc k ∧
  match r with
  | None => nodes k' = nodes k ∧ (nextpid k' = nextpid k ∨ nextpid k' = i32 (nextpid k + 1))
  | Some i => 0 ≤ i ∧ nodes k !! Z.to_nat i = Some free_node ∧
      nodes k' = <[Z.to_nat i := mk_node (nextpid k) None Live]> (nodes k) ∧ nextpid k' = i32 (nextpid k + 1)
  end.
Proof.
  intros Ht. unfold allocproc, allocpid. destruct (scan_procs is_unused (procs k) 0) as [i|] eqn:Es.
  2: { intros E. injection E as <- <-. auto. }
  destruct (scan_proc_ok _ _ _ Es) as (p & Hp & Hu). rewrite Hp. cbn [mbind outcome_bind].
  apply get_proc_ok in Hp as [Hi Hp].
  assert (pstate p = UNUSED) as Hun by (unfold is_unused in Hu; by case_bool_decide).
  assert (Hn : nodes k !! Z.to_nat i = Some (node_of p)) by (apply nodes_lookup; eauto).
  assert (Hfree : node_of p = free_node).
  { destruct (to_free _ _ _ Ht _ _ Hn) as [? ?]; [unfold node_of; simpl; by rewrite Hun|].
    unfold free_node, node_of in *. simpl in *. by rewrite Hun; f_equal. }
  assert (Hpar : parent p = None) by (unfold node_of, free_node in Hfree; congruence).
  intros E. apply bind_Ok_inv in E as ([tf s] & Etf & E). apply bind_Ok_inv in E as (k1 & E1 & E).
  apply put_proc_nodes in E1 as (En1 & _ & Hnx1 & Hin1 & _).
  change (nodes (with_vm _ s)) with (nodes k) in En1. simpl in Hnx1, Hin1.
  assert (Hrestore : <[Z.to_nat i := free_node]> (nodes k) = nodes k).
  { apply list_insert_id. by rewrite Hn, Hfree. }
  destruct (tf =? 0).
  { apply bind_Ok_inv in E as (k2 & E2 & E). apply freeproc_nodes in E2 as (En2 & Hnx2 & Hin2).
    apply Ok_pair_inj in E as [<- <-].
    rewrite Hin2, Hin1, Hnx2, Hnx1, En2, En1, list_insert_insert_eq. auto. }
  apply bind_Ok_inv in E as ([pt s2] & Ept & E). apply bind_Ok_inv in E as (k2 & E2 & E).
  apply put_proc_nodes in E2 as (En2 & _ & Hnx2 & Hin2 & _).
  change (nodes (with_vm _ s2)) with (nodes k1) in En2. simpl in Hnx2, Hin2.
  destruct (pt =? 0).
  { apply bind_Ok_inv in E as (k3 & E3 & E). apply freeproc_nodes in E3 as (En3 & Hnx3 & Hin3).
    apply Ok_pair_inj in E as [<- <-].
    rewrite Hin3, Hin2, Hin1, Hnx3, Hnx2, Hnx1, En3, En2, En1, !list_insert_insert_eq. auto. }
  apply bind_Ok_inv in E as (k3 & E3 & E). apply put_proc_nodes in E3 as (En3 & _ & Hnx3 & Hin3 & _).
  apply Ok_pair_inj in E as [<- <-].
  rewrite Hin3, Hin2, Hin1, Hnx3, Hnx2, Hnx1, En3, En2, En1, !list_insert_insert_eq. unfold node_of at 1. simpl.
  rewrite Hpar, <- Hfree. done.
Qed.

Lemma tree_parts k k' :
  nodes k' = nodes k → nextpid k' = nextpid k ∨ nextpid k' = i32 (nextpid k + 1) →
  initproc k' = initproc k → nextpid k < 2 ^ 31 - 1 → tree k → tree k'.
Proof.
  intros En Hx Ei Hlim Ht. unfold tree. rewrite En, Ei. pose proof (to_next _ _ _ Ht) as Hpos.
  destruct Hx as [-> | ->]; [done|]. rewrite i32_small by lia. by apply tree_next.
Qed.

Lemma fork_tree k cur p r k' :
  tree k → get_proc k cur = Ok p → stage_of (pstate p) = Live → nextpid k < 2 ^ 31 - 1 →
  fork trampoline forkret k cur = Ok (r, k') → tree k' ∧ initproc k' = initproc k.
Proof.
  intros Ht Hp Hlive Hlim E. unfold fork in E. apply bind_Ok_inv in E as ([np k1] & E1 & E).
  pose proof (to_next _ _ _ Ht) as Hpos.
  destruct (allocproc_nodes _ _ _ Ht E1) as [Ei Hc]. destruct np as [i|].
  2: { apply Ok_pair_inj in E as [_ <-]. destruct Hc as [En Hx]. split; [by eapply tree_parts|done]. }
  destruct Hc as (Hi & Hfree & En & Hx).
  apply bind_Ok_inv in E as (p1 & Ep1 & E). apply bind_Ok_inv in E as (c & Ec & E).
  apply bind_Ok_inv in E as ([r1 s] & Es & E).
  assert (Hrestore : <[Z.to_nat i := free_node]> (nodes k) = nodes k) by (by apply list_insert_id).
  destruct (r1 <? 0).
  { apply bind_Ok_inv in E as (k2 & E2 & E). apply Ok_pair_inj in E as [_ <-].
    apply freeproc_nodes in E2 as (En2 & Hnx2 & Hin2). change (nodes (with_vm k1 s)) with (nodes k1) in En2.
    assert (Hi2 : initproc k2 = initproc k) by (by rewrite Hin2). split; [|exact Hi2].
    eapply (tree_parts k); try done; [by rewrite En2, En, list_insert_insert_eq|right; by rewrite Hnx2]. }
  cbv zeta in E. apply bind_Ok_inv in E as ([ofs k2] & E2 & E).
  apply fork_files_keeps in E2 as (En2 & Hnx2 & Hin2).
  change (nodes (tf_set _ _ _ _)) with (nodes k1) in En2.
  change (nextpid (tf_set _ _ _ _)) with (nextpid k1) in Hnx2. change (initproc (tf_set _ _ _ _)) with (initproc k1) in Hin2.
  apply bind_Ok_inv in E as (d & Ed & E). apply bind_Ok_inv in E as (f & Ef & E).
  apply bind_Ok_inv in E as (k3 & E3 & E). apply Ok_pair_inj in E as [_ <-].
  apply put_proc_nodes in E3 as (En3 & _ & Hnx3 & Hin3 & _).
  change (nodes (with_fs k2 f)) with (nodes k2) in En3. simpl in Hnx3, Hin3.
  apply get_proc_ok in Hp as [Hcur Hp]. apply get_proc_ok in Ec as [_ Hc].
  assert (Hcn : nodes k1 !! Z.to_nat i = Some (node_of c)) by (apply nodes_lookup; eauto).
  rewrite En, list_lookup_insert_eq in Hcn by (by eapply lookup_lt_Some). injection Hcn as Epid _ _.
  split; [|by rewrite Hin3, Hin2]. unfold tree. rewrite Hnx3, Hnx2, Hx, Hin3, Hin2, Ei, i32_small by lia.
  assert (En4 : nodes k3 = <[Z.to_nat i := mk_node (nextpid k) (Some cur) Live]> (nodes k)).
  { rewrite En3, En2, En, list_insert_insert_eq. unfold node_of. simpl. by rewrite Epid. }
  rewrite En4. eapply (tree_fork _ _ _ _ cur (node_of p)); try done; [by eapply lookup_lt_Some|].
  apply nodes_lookup. eauto.
Qed.

Lemma reparent_loop_nodes n k cur p i k' :
  0 ≤ i → reparent_loop n k cur p i = Ok k' →
  nextpid k' = nextpid k ∧ initproc k' = initproc k ∧ length (nodes k') = length (nodes k) ∧
  ∀ a, nodes k' !! a =
    (λ x, if decide (Z.to_nat i ≤ a < Z.to_nat i + n)%nat then adopt p (initproc k) x else x) <$> nodes k !! a.
Proof.
  revert k i. induction n as [|n IH]; intros k i Hi E.
  { simpl in E. injection E as <-. split_and!; try done. intros a.
    destruct (nodes k !! a); [|done]. simpl. by rewrite decide_False by lia. }
  cbn [reparent_loop] in E. apply bind_Ok_inv in E as (pp & Epp & E). apply bind_Ok_inv in E as (k1 & E1 & E).
  assert (H1 : nextpid k1 = nextpid k ∧ initproc k1 = initproc k ∧
    nodes k1 = <[Z.to_nat i := adopt p (initproc k) (node_of pp)]> (nodes k)).
  { apply get_proc_ok in Epp as [_ Hpp]. unfold adopt. simpl.
    case_bool_decide.
    - apply bind_Ok_inv in E1 as (k2 & E2 & E1). apply Ok_inj in E1.
      apply put_proc_nodes in E2 as (En2 & _ & Hnx2 & Hin2 & _).
      assert (keeps k2 k1) as (En & -> & ->).
      { subst k1. destruct (initproc k2); [apply keeps_wakeup|done]. }
      by rewrite En, En2.
    - apply Ok_inj in E1 as <-. split_and!; try done. symmetry. apply list_insert_id. apply nodes_lookup. eauto. }
  destruct H1 as (Hnx & Hin & En). destruct (IH k1 (i + 1) ltac:(lia) E) as (-> & -> & Hlen & Hl).
  rewrite Hlen, En, length_insert. split_and!; try done. intros a. rewrite Hl, En, Hin.
  apply get_proc_ok in Epp as [_ Hpp].
  assert (Hpn : nodes k !! Z.to_nat i = Some (node_of pp)) by (apply nodes_lookup; eauto).
  destruct (decide (a = Z.to_nat i)) as [->|Hne].
  - rewrite list_lookup_insert_eq by (by eapply lookup_lt_Some). rewrite Hpn. simpl.
    rewrite decide_False, decide_True by lia. done.
  - rewrite list_lookup_insert_ne by done. destruct (nodes k !! a) as [x|]; [|done]. simpl. f_equal.
    destruct (decide (Z.to_nat (i + 1) ≤ a < Z.to_nat (i + 1) + n)%nat) as [?|?],
      (decide (Z.to_nat i ≤ a < Z.to_nat i + S n)%nat) as [?|?]; try done; lia.
Qed.

Lemma reparent_nodes k cur p k' :
  reparent k cur p = Ok k' →
  nodes k' = adopt p (initproc k) <$> nodes k ∧ nextpid k' = nextpid k ∧ initproc k' = initproc k.
Proof.
  intros E. destruct (reparent_loop_nodes _ _ _ _ 0 _ ltac:(lia) E) as (? & ? & Hlen & Hl). split_and!; try done.
  apply list_eq. intros a. rewrite Hl, list_lookup_fmap. destruct (nodes k !! a) as [x|] eqn:Ex; [|done]. simpl.
  rewrite decide_True; [done|]. apply lookup_lt_Some in Ex. unfold nodes in Ex. rewrite length_fmap in Ex. lia.
Qed.

Lemma exit_tree k cur p status k' :
  tree k → initproc k ≠ None → get_proc k cur = Ok p → stage_of (pstate p) = Live →
  exit k cur status = Ok k' → tree k' ∧ initproc k' = initproc k.
Proof.
  intros Ht Hinit Hp Hlive E. unfold exit in E. case_bool_decide as Hni; [done|].
  destruct (initproc k) as [j|] eqn:Ei; [|done].
  apply bind_Ok_inv in E as (k1 & E1 & E). apply exit_files_keeps in E1 as (En1 & Hnx1 & Hin1).
  apply bind_Ok_inv in E as (p1 & Ep1 & E). apply bind_Ok_inv in E as (f1 & _ & E).
  apply bind_Ok_inv in E as (cw & _ & E). apply bind_Ok_inv in E as (f2 & _ & E).
  apply bind_Ok_inv in E as (f3 & _ & E). apply bind_Ok_inv in E as (k2 & E2 & E).
  assert (keeps k1 k2) as (En2 & Hnx2 & Hin2) by (by apply (put_proc_keeps (with_fs k1 f3) cur p1) in E2).
  apply bind_Ok_inv in E as (k3 & E3 & E). apply reparent_nodes in E3 as (En3 & Hnx3 & Hin3).
  apply bind_Ok_inv in E as (p3 & Ep3 & E). cbv zeta in E.
  set (k4 := match parent p3 with Some _ => _ | None => _ end) in E.
  assert (keeps k3 k4) as (En4 & Hnx4 & Hin4) by (unfold k4; destruct (parent p3); [apply keeps_wakeup|done]).
  apply bind_Ok_inv in E as (p4 & Ep4 & E). apply put_proc_nodes in E as (En5 & _ & Hnx5 & Hin5 & _).
  apply get_proc_ok in Hp as [Hcur Hp]. apply get_proc_ok in Ep4 as [_ Hp4].
  assert (Hpn : nodes k !! Z.to_nat cur = Some (node_of p)) by (apply nodes_lookup; eauto).
  assert (En : nodes k4 = adopt cur (Some j) <$> nodes k) by (by rewrite En4, En3, Hin2, Hin1, En2, En1, Ei).
  assert (Hp4n : nodes k4 !! Z.to_nat cur = Some (node_of p4)) by (apply nodes_lookup; eauto).
  assert (Hself : adopt cur (Some j) (node_of p) = node_of p).
  { unfold adopt. case_bool_decide as Ec; [|done]. simpl in Ec.
    destruct (to_parent _ _ _ Ht _ _ _ Hpn Ec) as (_ & y & Hy & _ & Hlt). rewrite Hpn in Hy. injection Hy as <-. lia. }
  rewrite En, list_lookup_fmap, Hpn in Hp4n. simpl in Hp4n. rewrite Hself in Hp4n. injection Hp4n as Epid Epar _.
  split; [|by rewrite Hin5, Hin4, Hin3, Hin2, Hin1]. unfold tree. rewrite Hnx5, Hnx4, Hnx3, Hnx2, Hnx1, Hin5, Hin4, Hin3, Hin2, Hin1, En5, En, Ei.
  assert (Enode : node_of (set_pstate (set_xstate p4 status) ZOMBIE) = mk_node (npid (node_of p)) (nparent (node_of p)) Zombie).
  { unfold node_of. simpl. by rewrite Epid, Epar. }
  rewrite Enode. eapply tree_exit; try done; [|congruence]. unfold tree in Ht. by rewrite <- Ei.
Qed.

Lemma wait_scan_zombie ps cur i hk j b :
  wait_scan ps cur i hk = (Some j, b) →
  i ≤ j ∧ ∃ p, ps !! Z.to_nat (j - i) = Some p ∧ parent p = Some cur ∧ pstate p = ZOMBIE.
Proof.
  revert i hk. induction ps as [|p ps IH]; intros i hk E; simpl in E; [done|].
  assert (Hnext : (i + 1 ≤ j ∧ ∃ q, ps !! Z.to_nat (j - (i + 1)) = Some q ∧ parent q = Some cur ∧ pstate q = ZOMBIE) →
    i ≤ j ∧ ∃ q, (p :: ps) !! Z.to_nat (j - i) = Some q ∧ parent q = Some cur ∧ pstate q = ZOMBIE).
  { intros (Hle & q & Hq & ?). split; [lia|]. exists q.
    by replace (Z.to_nat (j - i)) with (S (Z.to_nat (j - (i + 1)))) by lia. }
  case_bool_decide as Epar; [case_bool_decide as Ez|].
  - injection E as <- _. rewrite Z.sub_diag. split; [lia|]. by exists p.
  - by apply Hnext, (IH (i + 1) true).
  - by apply Hnext, (IH (i + 1) hk).
Qed.

Lemma wait_tree k cur addr t k' :
  tree k → wait k cur addr = Ok (t, k') → tree k' ∧ initproc k' = initproc k.
Proof.
  intros Ht E. unfold wait in E. apply bind_Ok_inv in E as (p & Ep & E).
  destruct (wait_scan (procs k) cur 0 false) as [[i|] hk] eqn:Es.
  2: { destruct (_ || _); apply Ok_pair_inj in E as [_ <-]; done. }
  apply bind_Ok_inv in E as (pp & Epp & E). apply bind_Ok_inv in E as ([r s] & _ & E).
  assert (Hvm : tree (with_vm k s)) by done.
  destruct (r <? 0); [by apply Ok_pair_inj in E as [_ <-]|].
  apply bind_Ok_inv in E as (k1 & E1 & E). apply Ok_pair_inj in E as [_ <-].
  apply freeproc_nodes in E1 as (En & Hnx & Hin). split; [|done]. unfold tree. rewrite En, Hnx, Hin.
  apply wait_scan_zombie in Es as (Hi & q & Hq & _ & Hz). rewrite Z.sub_0_r in Hq.
  eapply (tree_free _ _ _ _ (node_of q)); [exact Hvm|apply nodes_lookup; eauto|]. simpl. by rewrite Hz.
Qed.

Lemma kill_keeps k pid_ r k' : kill k pid_ = Ok (r, k') → keeps k k'.
Proof.
  unfold kill. destruct (scan_procs _ _ _) as [i|]; intros E; [|by apply Ok_pair_inj in E as [_ <-]].
  apply bind_Ok_inv in E as (p & Ep & E). apply bind_Ok_inv in E as (k1 & E1 & E). apply Ok_pair_inj in E as [_ <-].
  eapply put_proc_keeps; [exact Ep| |exact E1]. case_bool_decide as Es; [|done]. simpl in Es.
  unfold node_of. simpl. by rewrite Es.
Qed.

(** ** From boot on *)

(** The process table as [procinit] leaves it. *)
Definition fresh (k : @kern heap) : Prop :=
  procs k = procinit (replicate (Z.to_nat NPROC) zero_proc) ∧ nextpid k = 1 ∧ initproc k = None.

Lemma fresh_nodes k i x : fresh k → nodes k !! i = Some x → x = free_node.
Proof.
  intros (Ep & _) (p & Hp & ->)%nodes_lookup. rewrite Ep in Hp. unfold procinit in Hp.
  rewrite list_lookup_imap in Hp. apply fmap_Some in Hp as (q & Hq & ->).
  apply lookup_replicate_1 in Hq as [-> _]. done.
Qed.

Lemma fresh_tree k : fresh k → tree k.
Proof.
  intros Hf. pose proof Hf as (_ & En & Ei). unfold tree. rewrite En, Ei.
  constructor; try done; intros i x.
  - by intros ->%(fresh_nodes _ _ _ Hf).
  - by intros y z ->%(fresh_nodes _ _ _ Hf).
  - by intros j ->%(fresh_nodes _ _ _ Hf).
  - by intros ->%(fresh_nodes _ _ _ Hf).
Qed.

Lemma userinit_tree k k' :
  fresh k → userinit trampoline forkret k = Ok k' → tree k' ∧ initproc k' ≠ None.
Proof.
  intros Hf E. pose proof (fresh_tree _ Hf) as Ht. pose proof Hf as (_ & Enx & Ein). unfold userinit in E.
  apply bind_Ok_inv in E as ([r k1] & E1 & E). destruct (allocproc_nodes _ _ _ Ht E1) as [Ei Hc].
  apply bind_Ok_inv in E as (i & Er & E). destruct r as [i'|]; [|done]. injection Er as ->.
  destruct Hc as (Hi & Hfree & En & Hx).
  apply bind_Ok_inv in E as (p & Ep & E). apply bind_Ok_inv in E as (s & _ & E). cbv zeta in E.
  apply bind_Ok_inv in E as ([ip f] & _ & E). apply put_proc_nodes in E as (En2 & Hlen & Hnx2 & Hin2 & _).
  apply get_proc_ok in Ep as [_ Hp]. change (procs (with_initproc k1 (Some i))) with (procs k1) in Hp.
  assert (Hpn : nodes k1 !! Z.to_nat i = Some (node_of p)) by (apply nodes_lookup; eauto).
  rewrite En, list_lookup_insert_eq in Hpn by (by eapply lookup_lt_Some). injection Hpn as Epid Epar _.
  change (nodes (with_fs _ f)) with (nodes k1) in En2. simpl in Hnx2, Hin2.
  assert (En3 : nodes k' = <[Z.to_nat i := mk_node 1 None Live]> (nodes k)).
  { rewrite En2, En, list_insert_insert_eq. unfold node_of. simpl. by rewrite <- Epid, <- Epar, Enx. }
  split; [|by rewrite Hin2]. unfold tree. rewrite Hnx2, Hx, Enx, Hin2, En3. change (i32 (1 + 1)) with 2.
  assert (Hall : ∀ a x, <[Z.to_nat i := mk_node 1 None Live]> (nodes k) !! a = Some x →
    (a = Z.to_nat i ∧ x = mk_node 1 None Live) ∨ x = free_node).
  { intros a x [(<- & <- & _)|[_ Ha]]%list_lookup_insert_Some; [by left|right; by eapply fresh_nodes]. }
  constructor.
  - lia.
  - intros a x [[-> ->]| ->]%Hall Hn; simpl; [lia|done].
  - intros a b x y [[-> ->]| ->]%Hall [[-> ->]| ->]%Hall; done.
  - intros a x j [[-> ->]| ->]%Hall; done.
  - intros a x [[-> ->]| ->]%Hall; done.
  - intros j [= <-]. split; [done|]. eexists. split; [apply list_lookup_insert_eq; by eapply lookup_lt_Some|].
    split; [done|]. intros a x [[-> ->]| ->]%Hall; done.
Qed.

(** The steps: a live process forks, exits or waits, somebody kills a process,
    or anything happens that changes no pid, parent or life stage (files,
    memory, the scheduler's moves between sleeping, runnable and running). *)
Inductive proc_step : @kern heap → @kern heap → Prop :=
| step_fork k cur p r k' : get_proc k cur = Ok p → pstate p = RUNNING → nextpid k < 2 ^ 31 - 1 →
    fork trampoline forkret k cur = Ok (r, k') → proc_step k k'
| step_exit k cur p status k' : get_proc k cur = Ok p → pstate p = RUNNING →
    exit k cur status = Ok k' → proc_step k k'
| step_wait k cur addr t k' : wait k cur addr = Ok (t, k') → proc_step k k'
| step_kill k pid_ r k' : kill k pid_ = Ok (r, k') → proc_step k k'
| step_other k k' : keeps k k' → proc_step k k'.

Lemma proc_step_tree k k' :
  proc_step k k' → tree k ∧ initproc k ≠ None → tree k' ∧ initproc k' ≠ None.
Proof.
  intros Hs [Ht Hi]. destruct Hs as [k cur p r k' Hp Hr Hlim E|k cur p st k' Hp Hr E|k cur a t k' E|k q r k' E|k k' Hk].
  - edestruct fork_tree as [? ->]; try done. by rewrite Hr.
  - edestruct exit_tree as [? ->]; try done. by rewrite Hr.
  - by edestruct wait_tree as [? ->].
  - apply kill_keeps in E as Hk. split; [by eapply keeps_tree|]. by destruct Hk as (_ & _ & ->).
  - split; [by eapply keeps_tree|]. by destruct Hk as (_ & _ & ->).
Qed.

(** C10: From boot on, whatever sequence of forks, exits, waits, kills and other
    kernel activity happens (before pids wrap around), the process table is a
    tree: live pids are positive, distinct and below the next pid; every parent
    pointer goes to a live process with a smaller pid, so following parents always
    ends; no process has a zombie or a free entry as its parent; and the first
    process is never an orphan's missing parent, being live with the least pid. *)
Theorem process_tree_invariant k0 k1 k :
  fresh k0 → userinit trampoline forkret k0 = Ok k1 → rtc proc_step k1 k → tree k.
Proof.
  intros Hf E Hr. apply userinit_tree in E; [|done]. clear Hf.
  induction Hr as [k|k1 k2 k3 Hs Hr IH]; [by destruct E|]. by apply IH, (proc_step_tree k1).
Qed.
End inv.

(** ** Example: the machine boots *)

Definition demo_fs : fs :=
  mk_fs (mk_fslog (Bio.mk_bio [] ∅ ∅ []) (mk_log 0 0 0 0 0 0 [])) (mk_sb FSMAGIC 1000 900 200 30 2 32 45) iinit.

Definition demo_kern0 : @kern buddy :=
  mk_kern demo_vm0 demo_fs ∅ ∅ (procinit (replicate (Z.to_nat NPROC) zero_proc)) 1 None 0 demo_cons demo_uart [].

Definition is_Ok {A} (m : outcome A) : bool := match m with Ok _ => true | _ => false end.

Lemma demo_boots : is_Ok (userinit 0x80007000 0x80002000 demo_kern0) = true.
Proof. vm_compute. reflexivity. Qed.

Lemma process_tree_invariant_witness :
  ∃ k1, userinit 0x80007000 0x80002000 demo_kern0 = Ok k1 ∧ tree k1.
Proof.
  pose proof demo_boots as Hb.
  destruct (userinit 0x80007000 0x80002000 demo_kern0) as [k1| | |] eqn:E; try discriminate Hb.
  exists k1. split; [reflexivity|].
  apply (process_tree_invariant 0x80007000 0x80002000 demo_kern0 k1 k1); [split_and!; reflexivity|exact E|apply rtc_refl].
Defined.
