(* ===== verification/FileThm.v ===== *)
(** * The life of a pipe: [pipealloc] and the closing of its two ends. *)

From Stdlib Require Import ZifyBool.
From S2P Require Import Prelude Riscv Ram Buddy Kalloc Vm VmThm Fs Log Uart Pipe Console Kern File Proc ProcTree ProcInv.

Section file_thm.
Context {heap : Type} `{AL : Allocator heap}.
Implicit Types (k : @kern heap) (H : gmap Z Z).

(** The memory handed out in state [k]. *)
Abbreviation live k H := (al_live (vheap (kvm k)) H).

Lemma filealloc_ok k H f k' :
  live k H → filealloc k = Ok (f, k') →
  H !! f = None ∧ (∃ sz, live k' (<[f := sz]> H)) ∧
  k' = with_files (with_vm k (kvm k')) (<[f := mk_file FD_NONE 1 FALSE FALSE 0 None 0 0]> (kfiles k)).
Proof.
  intros Hl. unfold filealloc, buddy_malloc_k.
  destruct (al_malloc_ok (vheap (kvm k)) H FILE_SIZE Hl ltac:(unfold FILE_SIZE; lia)) as (p & s' & -> & Hc).
  cbn [mbind outcome_bind]. destruct (Z.eqb_spec p 0) as [|Hp]; [done|]. intros [<- <-]%Ok_pair_inj.
  destruct Hc as [[-> _]|(sz & Hnone & _ & _ & Hl')]; [done|]. split; [done|]. split; [by exists sz|done].
Qed.

(** The last reference to a pipe end. *)
Lemma fileclose_pipe_ok k H cur f r w pi x sz :
  live k H → H !! f = Some sz → kfiles k !! f = Some (mk_file FD_PIPE 1 r w pi None 0 0) →
  kpipes k !! pi = Some x → w ≠ 0 → readopen x ≠ 0 →
  ∃ k', fileclose k cur f = Ok k' ∧ live k' (delete f H) ∧ kfiles k' = delete f (kfiles k) ∧
    kpipes k' = <[pi := mk_pipe (pdata x) (nread x) (nwrite x) (readopen x) 0]> (kpipes k).
Proof.
  intros Hl Hf Hfile Hp Hw Hr. unfold fileclose, get_file. rewrite Hfile.
  cbn [mbind outcome_bind fref]. change (1 <? 1) with false. change (0 <? 1 - 1) with false. cbv iota.
  rewrite bool_decide_true by done. unfold pipeclose, get_pipe. cbn [fpipe writable].
  change (kpipes (put_file k f _)) with (kpipes k). rewrite Hp. apply Z.eqb_neq in Hw. apply Z.eqb_neq in Hr. rewrite Hw. cbn [mbind outcome_bind negb readopen writeopen].
  rewrite Hr. cbn [andb mbind outcome_bind]. unfold buddy_free_k.
  destruct (al_free_ok (vheap (kvm k)) H f sz Hl Hf) as (s' & E & Hl').
  cbn [kvm wakeup with_procs put_pipe with_pipes put_file with_files]. rewrite E. cbn [mbind outcome_bind].
  eexists. split; [done|]. split; [exact Hl'|]. split; [|done]. simpl. apply delete_insert_eq.
Qed.

(** Both ends, one after the other. *)
Lemma close_both k H cur f g r w r' w' pi x szf szg :
  live k H → f ≠ g → H !! f = Some szf → H !! g = Some szg →
  kfiles k !! f = Some (mk_file FD_PIPE 1 r w pi None 0 0) →
  kfiles k !! g = Some (mk_file FD_PIPE 1 r' w' pi None 0 0) →
  kpipes k !! pi = Some x → w ≠ 0 → w' ≠ 0 → readopen x = 1 →
  ∃ k2 k3 x2 x3, fileclose k cur f = Ok k2 ∧ kpipes k2 !! pi = Some x2 ∧ readopen x2 = 1 ∧ writeopen x2 = 0 ∧
    fileclose k2 cur g = Ok k3 ∧ kfiles k3 !! f = None ∧ kfiles k3 !! g = None ∧
    kpipes k3 !! pi = Some x3 ∧ readopen x3 = 1 ∧ live k3 (delete g (delete f H)).
Proof.
  intros Hl Hfg HHf HHg Hf Hg Hp Hw Hw' Hr.
  destruct (fileclose_pipe_ok k H cur f r w pi x szf) as (k2 & E2 & Hl2 & Ef2 & Ep2); try done; [lia|].
  assert (Hp2 : kpipes k2 !! pi = Some (mk_pipe (pdata x) (nread x) (nwrite x) (readopen x) 0)).
  { rewrite Ep2. apply lookup_insert_eq. }
  edestruct (fileclose_pipe_ok k2 (delete f H) cur g r' w' pi) as (k3 & E3 & Hl3 & Ef3 & Ep3); try done.
  - by rewrite lookup_delete_ne by done.
  - by rewrite Ef2, lookup_delete_ne by done.
  - simpl. lia.
  - eexists k2, k3, _, _. split; [done|]. split; [done|]. split; [done|]. split; [done|]. split; [done|].
    rewrite Ef3, Ef2, Ep3. split_and!; [|apply lookup_delete_eq|apply lookup_insert_eq|done|done].
    rewrite lookup_delete_ne by done. apply lookup_delete_eq.
Qed.

(** C40: The two ends of a pipe are not told apart. [false] is the constant 2, so
    the read end of a new pipe counts as writable: closing it closes the write
    side of the pipe, not the read side. Closing both ends, in whatever order,
    releases both [struct file]s but leaves the pipe open for reading with its
    page still allocated: the page of every pipe is leaked. *)
Theorem pipe_close_leaks k H cur rfd wfd k1 :
  live k H → pipealloc k cur = Ok (Some (rfd, wfd), k1) →
  ∃ pa x, H !! pa = None ∧ kpipes k1 !! pa = Some x ∧ readopen x = 1 ∧ writeopen x = 1 ∧
    (∃ k2 x2, fileclose k1 cur rfd = Ok k2 ∧ kpipes k2 !! pa = Some x2 ∧ readopen x2 = 1 ∧ writeopen x2 = 0) ∧
    ∀ f g, (f, g) = (rfd, wfd) ∨ (f, g) = (wfd, rfd) →
      ∃ k2 k3 x3, fileclose k1 cur f = Ok k2 ∧ fileclose k2 cur g = Ok k3 ∧
        kfiles k3 !! f = None ∧ kfiles k3 !! g = None ∧
        kpipes k3 !! pa = Some x3 ∧ readopen x3 = 1 ∧ live k3 (<[pa := PGSIZE]> H).
Proof.
  intros Hl E. unfold pipealloc in E.
  apply bind_Ok_inv in E as ([f1 ka] & E1 & E). destruct (filealloc_ok _ _ _ _ Hl E1) as (Hn1 & [sz1 Hl1] & Ea).
  apply bind_Ok_inv in E as ([f2 kb] & E2 & E). destruct (filealloc_ok _ _ _ _ Hl1 E2) as (Hn2 & [sz2 Hl2] & Eb).
  apply bind_Ok_inv in E as ([pa m] & E3 & E). unfold vm_alloc, kalloc in E3.
  destruct (al_malloc_ok (vheap (kvm kb)) _ PGSIZE Hl2 ltac:(unfold PGSIZE; lia)) as (p & s' & Ep & Hc).
  rewrite Ep in E3. cbn [mbind outcome_bind] in E3. apply Ok_pair_inj in E3 as [-> <-].
  destruct (Z.eqb_spec pa 0) as [|Hpa]; [by apply bind_Ok_inv in E as (? & _ & E); apply bind_Ok_inv in E as (? & _ & E)|].
  destruct Hc as [[-> _]|(sz & Hn3 & _ & Hsz & Hl3)]; [done|]. rewrite (Hsz eq_refl) in Hl3.
  apply Ok_pair_inj in E as [Ends E]. injection Ends as <- <-.
  apply lookup_insert_None in Hn2 as [Hn2 Hne12]. apply lookup_insert_None in Hn3 as [Hn3 Hne2].
  apply lookup_insert_None in Hn3 as [Hn3 Hne1].
  set (x := new_pipe (with_vm kb (mk_vm s' (vram (kvm kb)))) pa) in *.
  assert (Hk1 : live k1 (<[pa:=PGSIZE]> (<[f2:=sz2]> (<[f1:=sz1]> H))) ∧ kpipes k1 !! pa = Some x ∧
    kfiles k1 !! f1 = Some (mk_file FD_PIPE 1 TRUE FALSE pa None 0 0) ∧
    kfiles k1 !! f2 = Some (mk_file FD_PIPE 1 FALSE TRUE pa None 0 0)).
  { subst k1. simpl. split; [done|]. rewrite !lookup_insert_eq. split; [done|]. split; [|done].
    by rewrite lookup_insert_ne, lookup_insert_eq by done. }
  clear E Ea Eb E1 E2 Ep. destruct Hk1 as (Hlive & Hp & Hf1 & Hf2).
  exists pa, x. split_and!; try done.
  - destruct (close_both k1 _ cur f1 f2 TRUE FALSE FALSE TRUE pa x sz1 sz2 Hlive) as (k2 & k3 & x2 & x3 & ? & ? & ? & ? & _);
      try done; try by simplify_map_eq.
    by exists k2, x2.
  - intros f g [[= -> ->]|[= -> ->]].
    + destruct (close_both k1 _ cur f1 f2 TRUE FALSE FALSE TRUE pa x sz1 sz2 Hlive) as
        (k2 & k3 & x2 & x3 & ? & _ & _ & _ & ? & ? & ? & ? & ? & Hl'); try done; try by simplify_map_eq.
      exists k2, k3, x3. split_and!; try done. eapply eq_ind; [exact Hl'|]. f_equal.
      rewrite (delete_insert_ne _ f1), (delete_insert_ne _ f1), delete_insert_id by done.
      by rewrite (delete_insert_ne _ f2), delete_insert_id by done.
    + destruct (close_both k1 _ cur f2 f1 FALSE TRUE TRUE FALSE pa x sz2 sz1 Hlive) as
        (k2 & k3 & x2 & x3 & ? & _ & _ & _ & ? & ? & ? & ? & ? & Hl'); try done; try by simplify_map_eq.
      exists k2, k3, x3. split_and!; try done. eapply eq_ind; [exact Hl'|]. f_equal.
      rewrite (delete_insert_ne _ f2), delete_insert_id by (done || by simplify_map_eq).
      by rewrite (delete_insert_ne _ f1), delete_insert_id by done.
Qed.
End file_thm.

(** ** Example *)

Lemma demo_pipealloc :
  match pipealloc demo_kern0 None with Ok (Some _, _) => true | _ => false end = true.
Proof. vm_compute. reflexivity. Qed.

Lemma pipe_close_leaks_witness :
  ∃ rfd wfd k1 pa x, pipealloc demo_kern0 None = Ok (Some (rfd, wfd), k1) ∧ kpipes k1 !! pa = Some x.
Proof.
  pose proof demo_pipealloc as Hb.
  destruct (pipealloc demo_kern0 None) as [[[[rfd wfd]|] k1]| | |] eqn:E; try discriminate Hb.
  destruct (pipe_close_leaks demo_kern0 ∅ None rfd wfd k1 demo_vm0_live E) as (pa & x & _ & Hx & _).
  exists rfd, wfd, k1, pa, x. split; [reflexivity|exact Hx].
Defined.
