(* ===== verification/Sched.v ===== *)
(** * Sleeping and waking: [sleep], [wakeup], [sched], [yield] and [scheduler]
    of [kernel/process/proc.c], and sleep locks, [kernel/sync/sleeplock.c].

    The model is a machine in which any number of processes use one sleep lock.
    Between any two accesses to shared data under a spin lock the other processes
    and the schedulers may run: a step is one lock operation or the accesses made
    under it. The spin locks involved, [lk->lk] and every [p->lock], are held by
    a process or free, as [Spinlock] proves of them; [p->lock] passes through the
    context switch, so the scheduler's release and acquire of it are steps of the
    process it stops or resumes. *)

From Stdlib Require Import ZifyBool.
From S2P Require Import Prelude Spinlock Kern Proc.

(** ** The state changes *)

(** [sleep], before it switches to the scheduler, and after it comes back. *)
Definition sleep_enter (p : proc) (chan : channel) : proc := set_pstate (set_pchan p (Some chan)) SLEEPING.
Definition sleep_exit (p : proc) : proc := set_pchan p None.

(** The scheduler chooses a runnable process. *)
Definition scheduler_pick (p : proc) : option proc :=
  if bool_decide (pstate p = RUNNABLE) then Some (set_pstate p RUNNING) else None.

(** The checks of [sched] by process [p] on CPU [c], whose lock is [lk]. *)
Definition sched_checks (lk : spinlock) (c : nat) (x : cpu) (p : proc) : outcome unit :=
  if negb (holding lk c) then Panic "sched p->lock"
  else if negb (noff x =? 1) then Panic "sched locks"
  else if bool_decide (pstate p = RUNNING) then Panic "sched running"
  else if intr x then Panic "sched interruptible"
  else Ok ().

Definition yield_enter (p : proc) : proc := set_pstate p RUNNABLE.

(** ** Sleep locks *)

Record sleeplock := mk_sleeplock { slocked : Z; spid : Z }.

Definition initsleeplock : sleeplock := mk_sleeplock 0 0.

(** What [acquiresleep], [releasesleep] and [holdingsleep] do under [lk->lk],
    for a process with the given pid; [acquiresleep] sleeps on [None]. *)
Definition acquiresleep_try (lk : sleeplock) (pid : Z) : option sleeplock :=
  if negb (slocked lk =? 0) then None else Some (mk_sleeplock 1 pid).
Definition releasesleep_set : sleeplock := mk_sleeplock 0 0.
Definition holdingsleep (lk : sleeplock) (pid : Z) : bool := negb (slocked lk =? 0) && (spid lk =? pid).

(** Where a process is. *)
Inductive place :=
| Idle
| AcqWant            (* [acquiresleep]: acquiring [lk->lk] *)
| AcqCheck           (* has [lk->lk], tests [lk->locked] *)
| SleepLocked        (* [sleep]: has [lk->lk] and its own lock *)
| SleepReleased      (* released [lk->lk] *)
| Switching          (* set its channel and state, in [sched] *)
| Asleep             (* the scheduler released its lock *)
| Resumed            (* the scheduler took its lock and switched to it *)
| Reacquire          (* back in [sleep], released its lock *)
| Owner              (* [acquiresleep] returned *)
| RelWant            (* [releasesleep]: acquiring [lk->lk] *)
| RelSet             (* has [lk->lk] *)
| WakeAt (i : nat)   (* [wakeup]: about to look at process [i] *)
| WakeLocked (i : nat).  (* has the lock of process [i] *)

Record world := mk_world {
  wproc : nat → proc;
  wlock : sleeplock;
  lk : option nat;            (* who holds [lk->lk] *)
  plock : nat → option nat;   (* who holds each [p->lock] *)
  place_of : nat → place;
}.

Definition upd {A} (f : nat → A) (a : nat) (x : A) : nat → A := λ b, if decide (b = a) then x else f b.

Section machine.
Context (chan : channel) (n : nat).

(** The moves of process [a]. *)
Inductive move (a : nat) : world → world → Prop :=
| mv_call w : place_of w a = Idle →
    move a w (mk_world (wproc w) (wlock w) (lk w) (plock w) (upd (place_of w) a AcqWant))
| mv_acquire w : place_of w a = AcqWant → lk w = None →
    move a w (mk_world (wproc w) (wlock w) (Some a) (plock w) (upd (place_of w) a AcqCheck))
| mv_got w l : place_of w a = AcqCheck → acquiresleep_try (wlock w) (pid (wproc w a)) = Some l →
    move a w (mk_world (wproc w) l None (plock w) (upd (place_of w) a Owner))
| mv_sleep_lock w : place_of w a = AcqCheck → acquiresleep_try (wlock w) (pid (wproc w a)) = None → plock w a = None →
    move a w (mk_world (wproc w) (wlock w) (lk w) (upd (plock w) a (Some a)) (upd (place_of w) a SleepLocked))
| mv_sleep_release w : place_of w a = SleepLocked →
    move a w (mk_world (wproc w) (wlock w) None (plock w) (upd (place_of w) a SleepReleased))
| mv_sleep_set w : place_of w a = SleepReleased →
    move a w (mk_world (upd (wproc w) a (sleep_enter (wproc w a) chan)) (wlock w) (lk w) (plock w) (upd (place_of w) a Switching))
| mv_off_cpu w : place_of w a = Switching →
    move a w (mk_world (wproc w) (wlock w) (lk w) (upd (plock w) a None) (upd (place_of w) a Asleep))
| mv_scheduled w p : place_of w a = Asleep → plock w a = None → scheduler_pick (wproc w a) = Some p →
    move a w (mk_world (upd (wproc w) a p) (wlock w) (lk w) (upd (plock w) a (Some a)) (upd (place_of w) a Resumed))
| mv_sleep_exit w : place_of w a = Resumed →
    move a w (mk_world (upd (wproc w) a (sleep_exit (wproc w a))) (wlock w) (lk w) (upd (plock w) a None) (upd (place_of w) a Reacquire))
| mv_reacquire w : place_of w a = Reacquire → lk w = None →
    move a w (mk_world (wproc w) (wlock w) (Some a) (plock w) (upd (place_of w) a AcqCheck))
| mv_release w : place_of w a = Owner →
    move a w (mk_world (wproc w) (wlock w) (lk w) (plock w) (upd (place_of w) a RelWant))
| mv_rel_acquire w : place_of w a = RelWant → lk w = None →
    move a w (mk_world (wproc w) (wlock w) (Some a) (plock w) (upd (place_of w) a RelSet))
| mv_rel_set w : place_of w a = RelSet →
    move a w (mk_world (wproc w) releasesleep_set (lk w) (plock w) (upd (place_of w) a (WakeAt 0)))
| mv_wake_self w i : place_of w a = WakeAt i → (i < n)%nat → i = a →
    move a w (mk_world (wproc w) (wlock w) (lk w) (plock w) (upd (place_of w) a (WakeAt (S i))))
| mv_wake_lock w i : place_of w a = WakeAt i → (i < n)%nat → i ≠ a → plock w i = None →
    move a w (mk_world (wproc w) (wlock w) (lk w) (upd (plock w) i (Some a)) (upd (place_of w) a (WakeLocked i)))
| mv_wake w i : place_of w a = WakeLocked i →
    move a w (mk_world (upd (wproc w) i (wake_one (Some (Z.of_nat a)) chan i (wproc w i))) (wlock w) (lk w)
      (upd (plock w) i None) (upd (place_of w) a (WakeAt (S i))))
| mv_wake_end w i : place_of w a = WakeAt i → (n ≤ i)%nat →
    move a w (mk_world (wproc w) (wlock w) None (plock w) (upd (place_of w) a Idle)).

Definition moves (w w' : world) : Prop := ∃ a, (a < n)%nat ∧ move a w w'.

(** At the start every process is running outside the lock. *)
Definition start_world (w : world) : Prop :=
  (∀ a, pstate (wproc w a) = RUNNING ∧ place_of w a = Idle ∧ plock w a = None) ∧
  wlock w = initsleeplock ∧ lk w = None.

(** ** The invariant *)

Definition has_lk (p : place) : Prop :=
  match p with AcqCheck | SleepLocked | RelSet | WakeAt _ | WakeLocked _ => True | _ => False end.

Definition has_plock (a : nat) (p : place) (q : nat) : Prop :=
  match p with
  | SleepLocked | SleepReleased | Switching | Resumed => q = a
  | WakeLocked i => q = i
  | _ => False
  end.

Definition owns_lock (p : place) : Prop := match p with Owner | RelWant | RelSet => True | _ => False end.

(** Committed to sleep and not yet made runnable. *)
Definition waits (w : world) (a : nat) : Prop :=
  match place_of w a with
  | SleepReleased | Switching => True
  | Asleep => pstate (wproc w a) = SLEEPING
  | _ => False
  end.

Definition waking (p : place) (a : nat) : Prop :=
  match p with WakeAt i | WakeLocked i => (i ≤ a)%nat | _ => False end.

Definition state_ok (p : proc) (x : place) : Prop :=
  match x with
  | Switching => pstate p = SLEEPING ∧ pchan p = Some chan
  | Asleep => (pstate p = SLEEPING ∨ pstate p = RUNNABLE) ∧ pchan p = Some chan
  | _ => pstate p = RUNNING
  end.

Record world_ok (w : world) : Prop := {
  wo_range : ∀ a, (n ≤ a)%nat → place_of w a = Idle;
  wo_lk : ∀ a, has_lk (place_of w a) → lk w = Some a;
  wo_plock : ∀ a q, has_plock a (place_of w a) q → plock w q = Some a;
  wo_state : ∀ a, state_ok (wproc w a) (place_of w a);
  wo_owner : ∀ a, owns_lock (place_of w a) → slocked (wlock w) ≠ 0 ∧ spid (wlock w) = pid (wproc w a);
  wo_one : ∀ a b, owns_lock (place_of w a) → owns_lock (place_of w b) → a = b;
  wo_taken : slocked (wlock w) ≠ 0 → ∃ a, owns_lock (place_of w a);
  wo_check : ∀ a, place_of w a = SleepLocked → slocked (wlock w) ≠ 0;
  wo_wakes : ∀ a, waits w a → slocked (wlock w) ≠ 0 ∨ ∃ b, waking (place_of w b) a;
}.

Lemma start_world_ok w : start_world w → world_ok w.
Proof.
  intros (Hp & Hl & Hk). assert (Hi : ∀ a, place_of w a = Idle) by (intros a; apply Hp).
  constructor; intros a; unfold waits; rewrite ?Hi; simpl; try done.
  - apply Hp.
  - rewrite Hl in a. done.
Qed.

Lemma upd_eq {A} (f : nat → A) a x : upd f a x a = x.
Proof. unfold upd. by rewrite decide_True. Qed.

Lemma upd_ne {A} (f : nat → A) a b x : b ≠ a → upd f a x b = f b.
Proof. intros. unfold upd. by rewrite decide_False. Qed.

(** What a move of [a] to place [p'] must establish, separately for [a] and for
    the other processes. *)
Lemma world_step w w' a p' :
  world_ok w → (a < n)%nat → place_of w' = upd (place_of w) a p' →
  (has_lk p' → lk w' = Some a) →
  (∀ b, b ≠ a → has_lk (place_of w b) → lk w' = Some b) →
  (∀ q, has_plock a p' q → plock w' q = Some a) →
  (∀ b q, b ≠ a → has_plock b (place_of w b) q → plock w' q = Some b) →
  state_ok (wproc w' a) p' →
  (∀ b, b ≠ a → state_ok (wproc w' b) (place_of w b)) →
  (∀ b, pid (wproc w' b) = pid (wproc w b)) →
  (wlock w' = wlock w ∧ (owns_lock p' ↔ owns_lock (place_of w a)) ∨
   slocked (wlock w) = 0 ∧ wlock w' = mk_sleeplock 1 (pid (wproc w a)) ∧ owns_lock p' ∨
   slocked (wlock w') = 0 ∧ owns_lock (place_of w a) ∧ ¬ owns_lock p') →
  (p' = SleepLocked → slocked (wlock w') ≠ 0) →
  (∀ b, b ≠ a → place_of w b = SleepLocked → slocked (wlock w') ≠ 0) →
  (∀ b, waits w' b → slocked (wlock w') ≠ 0 ∨ ∃ c, waking (place_of w' c) b) →
  world_ok w'.
Proof.
  intros [H0 H1 H2 H3 H4 H5 H6 H7 H8] Han Ep A1 A2 A3 A4 A5 A6 A7 A8 A9 A10 A11.
  assert (Hcase : ∀ (P : nat → place → Prop), P a p' → (∀ b, b ≠ a → P b (place_of w b)) → ∀ b, P b (place_of w' b)).
  { intros P Ha Hb b. rewrite Ep. unfold upd. case_decide; [by subst|by apply Hb]. }
  constructor.
  - intros b Hb. rewrite Ep, upd_ne by lia. by apply H0.
  - apply (Hcase (λ b p, has_lk p → lk w' = Some b)); auto.
  - apply (Hcase (λ b p, ∀ q, has_plock b p q → plock w' q = Some b)); auto.
  - apply (Hcase (λ b p, state_ok (wproc w' b) p)); auto.
  - apply (Hcase (λ b p, owns_lock p → slocked (wlock w') ≠ 0 ∧ spid (wlock w') = pid (wproc w' b))).
    + rewrite A7. destruct A8 as [[-> Ho]|[(_ & -> & _)|(_ & _ & ?)]]; [|simpl; auto|done]. intros Hp. by apply H4, Ho.
    + intros b Hb Ho. rewrite A7. destruct A8 as [[-> _]|[(E & _)|(_ & Ha & _)]]; [by apply H4| |].
      * by destruct (H4 b Ho) as [? _].
      * by destruct Hb; apply H5.
  - apply (Hcase (λ b p, ∀ c, owns_lock p → owns_lock (place_of w' c) → b = c)).
    + intros c Hp. revert c. apply (Hcase (λ c p, owns_lock p → a = c)); [done|]. intros c Hc Ho.
      destruct A8 as [[_ Hi]|[(E & _)|(_ & _ & ?)]]; [by apply H5; [apply Hi|]| |done]. by destruct (H4 c Ho).
    + intros b Hb c Ho. revert c. apply (Hcase (λ c p, owns_lock p → b = c)); [|intros c _; by apply H5]. intros Hp.
      destruct A8 as [[_ Hi]|[(E & _)|(_ & _ & ?)]]; [by apply H5; [|apply Hi]| |done]. by destruct (H4 b Ho).
  - intros Hs. destruct A8 as [[El Hi]|[(_ & _ & Ho)|(? & _)]]; [| |done].
    + rewrite El in Hs. destruct (H6 Hs) as [b Hb]. exists b. rewrite Ep. unfold upd.
      case_decide; [subst; by apply Hi|done].
    + exists a. by rewrite Ep, upd_eq.
  - apply (Hcase (λ b p, p = SleepLocked → slocked (wlock w') ≠ 0)); auto.
  - exact A11.
Qed.

(** A move that neither frees the lock nor passes over a sleeper. *)
Lemma wakes_step w w' a p' :
  world_ok w → place_of w' = upd (place_of w) a p' →
  (slocked (wlock w) ≠ 0 → slocked (wlock w') ≠ 0) →
  (∀ b, waking (place_of w a) b → waking p' b ∨ ¬ waits w' b) →
  (∀ b, waits w' b → waits w b ∨ slocked (wlock w') ≠ 0) →
  ∀ b, waits w' b → slocked (wlock w') ≠ 0 ∨ ∃ c, waking (place_of w' c) b.
Proof.
  intros Hw Ep Hl Hwk Hwt b Hb. destruct (Hwt b Hb) as [Hb'|]; [|by left].
  destruct (wo_wakes _ Hw b Hb') as [?|[c Hc]]; [left; auto|right].
  destruct (decide (c = a)) as [->|Hne].
  - exists a. rewrite Ep, upd_eq. by destruct (Hwk b Hc).
  - exists c. by rewrite Ep, upd_ne.
Qed.

(** Other processes keep waiting as before. *)
Lemma waits_other w w' a b p' :
  place_of w' = upd (place_of w) a p' → (∀ b, b ≠ a → wproc w' b = wproc w b) → b ≠ a →
  waits w' b → waits w b.
Proof. intros Ep Hp Hne. unfold waits. by rewrite Ep, upd_ne, Hp. Qed.

Lemma scheduler_pick_Some p q : scheduler_pick p = Some q → pstate p = RUNNABLE ∧ q = set_pstate p RUNNING.
Proof. unfold scheduler_pick. case_bool_decide; [|done]. by intros [= <-]. Qed.

Lemma acquiresleep_Some l pid l' : acquiresleep_try l pid = Some l' → slocked l = 0 ∧ l' = mk_sleeplock 1 pid.
Proof. unfold acquiresleep_try. destruct (Z.eqb_spec (slocked l) 0); simpl; [|done]. by intros [= <-]. Qed.

Lemma acquiresleep_None l pid : acquiresleep_try l pid = None → slocked l ≠ 0.
Proof. unfold acquiresleep_try. by destruct (Z.eqb_spec (slocked l) 0). Qed.

(** The holder of a spin lock is the only one. *)
Lemma only_lk w a : world_ok w → has_lk (place_of w a) → ∀ b, b ≠ a → has_lk (place_of w b) → False.
Proof. intros Hw Ha b Hne Hb. apply (wo_lk _ Hw) in Ha, Hb. congruence. Qed.

Lemma no_lk w : world_ok w → lk w = None → ∀ b, has_lk (place_of w b) → False.
Proof. intros Hw Hn b Hb. apply (wo_lk _ Hw) in Hb. congruence. Qed.

Lemma only_plock w a q : world_ok w → has_plock a (place_of w a) q →
  ∀ b q', b ≠ a → has_plock b (place_of w b) q' → q' ≠ q.
Proof. intros Hw Ha b q' Hne Hb ->. apply (wo_plock _ Hw) in Ha, Hb. congruence. Qed.

Lemma no_plock w q : world_ok w → plock w q = None → ∀ b q', has_plock b (place_of w b) q' → q' ≠ q.
Proof. intros Hw Hn b q' Hb ->. apply (wo_plock _ Hw) in Hb. congruence. Qed.

(** The obligations of [world_step] that a move leaves as they were. *)
Ltac unchanged Hw E :=
  first
    [ done
    | intros ? ->; apply upd_eq
    | intros _; apply (wo_lk _ Hw); rewrite E; exact I
    | intros ? ->; apply (wo_plock _ Hw); rewrite E; reflexivity
    | let b := fresh in let Hb := fresh in let H := fresh in
      intros b Hb H; first
        [ exact (wo_lk _ Hw b H) | by apply (wo_check _ Hw b)
        | exfalso; exact (no_lk _ Hw ltac:(assumption) b H)
        | exfalso; refine (only_lk _ _ Hw _ b Hb H); rewrite E; exact I ]
    | let b := fresh in let q := fresh in let Hb := fresh in let H := fresh in
      intros b q Hb H; first
        [ exact (wo_plock _ Hw b q H)
        | rewrite upd_ne; [exact (wo_plock _ Hw b q H)|];
          first [ eapply (no_plock _ _ Hw); eassumption
                | eapply (only_plock _ _ _ Hw); [rewrite E; reflexivity|eassumption|eassumption] ] ]
    | let b := fresh in let Hb := fresh in
      intros b Hb; rewrite ?upd_ne by done; exact (wo_state _ Hw b)
    | left; split; [done|]; rewrite E; simpl; tauto ].

(** No new sleeper, and the mover was not waking anybody. *)
Ltac same_wakes Hw E :=
  eapply (wakes_step _ _ _ _ Hw); [reflexivity|done|rewrite E; simpl; done|];
  let b := fresh "b" in let Hb := fresh "Hb" in
  intros b Hb; left; revert Hb; unfold waits; simpl; unfold upd; case_decide; subst;
  [simpl; try done|done].

(** A process is looked at by [wakeup] and its lock given back. *)
Lemma wake_move_ok a w i :
  world_ok w → (a < n)%nat → place_of w a = WakeLocked i →
  world_ok (mk_world (upd (wproc w) i (wake_one (Some (Z.of_nat a)) chan i (wproc w i))) (wlock w) (lk w)
      (upd (plock w) i None) (upd (place_of w) a (WakeAt (S i)))).
Proof.
  intros Hw Han E. pose proof (wo_state _ Hw a) as Hst. rewrite E in Hst; simpl in Hst.
  pose proof (wo_plock _ Hw a i) as Hpa. rewrite E in Hpa.
  specialize (Hpa eq_refl).
  assert (Hwake : ∀ b, upd (wproc w) i (wake_one (Some (Z.of_nat a)) chan i (wproc w i)) b = wproc w b ∨
    (b = i ∧ pstate (wproc w i) = SLEEPING ∧ upd (wproc w) i (wake_one (Some (Z.of_nat a)) chan i (wproc w i)) b = set_pstate (wproc w i) RUNNABLE)).
  { intros b. unfold upd, wake_one. case_decide; [|by left]. subst b. case_bool_decide as Hc; [|by left].
    destruct Hc as (_ & ? & _). by right. }
  eapply (world_step w _ a (WakeAt (S i)) Hw); [simpl; try unchanged Hw E..|].
  - destruct (Hwake a) as [-> |(-> & Hsl & _)]; [done|congruence].
  - intros b Hb. pose proof (wo_state _ Hw b) as Hsb. destruct (Hwake b) as [-> |(-> & Hsl & ->)]; [done|].
    destruct (place_of w i) eqn:Ei; simpl in *; try congruence.
    + exfalso. pose proof (wo_plock _ Hw i i) as Hpi. rewrite Ei in Hpi. specialize (Hpi eq_refl). congruence.
    + destruct Hsb. auto.
  - intros b. destruct (Hwake b) as [-> |(-> & _ & ->)]; done.
  - eapply (wakes_step _ _ _ _ Hw); [reflexivity|done| |].
    + intros b. rewrite E. simpl. intros Hle. destruct (decide (b = i)) as [->|Hne]; [right|left; lia].
      unfold waits. simpl. destruct (decide (i = a)) as [->|Hia]; [rewrite upd_eq; by intros []|]. rewrite upd_ne by done.
      pose proof (wo_state _ Hw i) as Hsb. pose proof (wo_plock _ Hw i i) as Hpi.
      destruct (place_of w i) eqn:Ei; simpl in *; try (by intros []); try (specialize (Hpi eq_refl); congruence).
      rewrite upd_eq. unfold wake_one. case_bool_decide as Hc; [done|]. intros Hsl. apply Hc. destruct Hsb.
      split_and!; try done. intros [= Hz]. lia.
    + intros b Hb. left. destruct (decide (b = a)) as [->|Hne]; [unfold waits in Hb; simpl in Hb; by rewrite upd_eq in Hb|].
      unfold waits in *. simpl in *. rewrite upd_ne in Hb by done. destruct (place_of w b); try done.
      destruct (Hwake b) as [Eq|(-> & _ & Eq)]; rewrite Eq in Hb; done.
Qed.

Lemma move_ok a w w' : world_ok w → (a < n)%nat → move a w w' → world_ok w'.
Proof.
  intros Hw Han Hm. pose proof (wo_state _ Hw a) as Hst.
  destruct Hm as [w E|w E Hn|w l E Hl|w E Hl Hp|w E|w E|w E|w p E Hp Hs|w E|w E Hn|w E|w E Hn|w E|w i E Hi Hia|w i E Hi Hia Hp|w i E|w i E Hi];
    rewrite E in Hst; simpl in Hst.
  - eapply (world_step w _ a AcqWant Hw Han); [simpl; unchanged Hw E..|same_wakes Hw E].
  - eapply (world_step w _ a AcqCheck Hw Han); [simpl; unchanged Hw E..|same_wakes Hw E].
  - apply acquiresleep_Some in Hl as [H0 ->].
    eapply (world_step w _ a Owner Hw Han); [simpl; first [unchanged Hw E|by auto]..|same_wakes Hw E].
  - apply acquiresleep_None in Hl.
    eapply (world_step w _ a SleepLocked Hw Han); [simpl; unchanged Hw E..|same_wakes Hw E].
  - pose proof (wo_check _ Hw a E) as Hl.
    eapply (world_step w _ a SleepReleased Hw Han); [simpl; unchanged Hw E..|auto].
  - eapply (world_step w _ a Switching Hw Han); [simpl; try unchanged Hw E..|].
    + by rewrite upd_eq.
    + intros b. unfold upd. by case_decide; subst.
    + eapply (wakes_step _ _ _ _ Hw); [reflexivity|done|rewrite E; simpl; done|]. intros b Hb. left.
      destruct (decide (b = a)) as [->|Hne]; [unfold waits; by rewrite E|].
      eapply waits_other in Hb; [exact Hb|reflexivity|intros; by apply upd_ne|done].
  - eapply (world_step w _ a Asleep Hw Han); [simpl; try unchanged Hw E..|].
    + destruct Hst. auto.
    + eapply (wakes_step _ _ _ _ Hw); [reflexivity|done|rewrite E; simpl; done|]. intros b Hb. left.
      destruct (decide (b = a)) as [->|Hne]; [unfold waits; by rewrite E|].
      eapply waits_other in Hb; [exact Hb|reflexivity|done|done].
  - apply scheduler_pick_Some in Hs as [Hr ->].
    eapply (world_step w _ a Resumed Hw Han); [simpl; try unchanged Hw E..|].
    + by rewrite upd_eq.
    + intros b. unfold upd. by case_decide; subst.
    + same_wakes Hw E.
  - eapply (world_step w _ a Reacquire Hw Han); [simpl; try unchanged Hw E..|].
    + by rewrite upd_eq.
    + intros b. unfold upd. by case_decide; subst.
    + same_wakes Hw E.
  - eapply (world_step w _ a AcqCheck Hw Han); [simpl; unchanged Hw E..|same_wakes Hw E].
  - eapply (world_step w _ a RelWant Hw Han); [simpl; unchanged Hw E..|same_wakes Hw E].
  - eapply (world_step w _ a RelSet Hw Han); [simpl; unchanged Hw E..|same_wakes Hw E].
  - eapply (world_step w _ a (WakeAt 0) Hw Han); [simpl; try unchanged Hw E..|].
    + right; right. rewrite E. simpl. tauto.
    + intros b Hb Hs. exfalso. eapply (only_lk w a Hw); [by rewrite E|exact Hb|by rewrite Hs].
    + intros b _. right. exists a. simpl. rewrite upd_eq. simpl. lia.
  - eapply (world_step w _ a (WakeAt (S i)) Hw); [simpl; try unchanged Hw E..|].
    + eapply (wakes_step _ _ _ _ Hw); [reflexivity|done| |].
      * intros b. rewrite E. simpl. intros Hle. destruct (decide (b = a)) as [->|Hne]; [right|left; lia].
        unfold waits. simpl. rewrite upd_eq. by intros [].
      * intros b Hb. left. destruct (decide (b = a)) as [->|Hne]; [unfold waits in Hb; simpl in Hb; by rewrite upd_eq in Hb|].
        eapply waits_other in Hb; [exact Hb|reflexivity|done|done].
  - eapply (world_step w _ a (WakeLocked i) Hw Han); [simpl; try unchanged Hw E..|].
    + eapply (wakes_step _ _ _ _ Hw); [reflexivity|done| |].
      * intros b. rewrite E. simpl. auto.
      * intros b Hb. left. destruct (decide (b = a)) as [->|Hne]; [unfold waits in Hb; simpl in Hb; by rewrite upd_eq in Hb|].
        eapply waits_other in Hb; [exact Hb|reflexivity|done|done].
  - by apply wake_move_ok.
  - eapply (world_step w _ a Idle Hw Han); [simpl; try unchanged Hw E..|].
    eapply (wakes_step _ _ _ _ Hw); [reflexivity|done| |].
    + intros b. rewrite E. simpl. intros Hle. right. unfold waits. simpl. rewrite upd_ne by lia.
      rewrite (wo_range _ Hw) by lia. by intros [].
    + intros b Hb. left. destruct (decide (b = a)) as [->|Hne]; [unfold waits in Hb; simpl in Hb; by rewrite upd_eq in Hb|].
      eapply waits_other in Hb; [exact Hb|reflexivity|done|done].
Qed.

Lemma reachable_ok w0 w : start_world w0 → rtc moves w0 w → world_ok w.
Proof.
  intros H0 Hr. apply start_world_ok in H0. induction Hr as [w|w1 w2 w3 (a & Han & Hm) Hr IH]; [done|].
  by apply IH, (move_ok a w1).
Qed.

(** C12: Sleep locks exclude, and no wakeup is lost. In every state that any
    interleaving of the processes' and schedulers' steps can reach: at most one
    process is between the return of [acquiresleep] and the release, and the lock
    records its pid; and whenever the lock is free and nobody is inside
    [lk->lk], no process is asleep on it: every waiter has been made runnable, and
    none is on its way to sleep having missed the wakeup. *)
Theorem sleeplock_safe w0 w :
  start_world w0 → rtc moves w0 w →
  (∀ a b, place_of w a = Owner → place_of w b = Owner → a = b) ∧
  (∀ a, place_of w a = Owner → holdingsleep (wlock w) (pid (wproc w a)) = true) ∧
  (slocked (wlock w) = 0 → lk w = None →
    ∀ a, pstate (wproc w a) ≠ SLEEPING ∧ place_of w a ≠ SleepReleased).
Proof.
  intros H0 Hr. pose proof (reachable_ok _ _ H0 Hr) as Hw. split_and!.
  - intros a b Ha Hb. apply (wo_one _ Hw); [by rewrite Ha|by rewrite Hb].
  - intros a Ha. destruct (wo_owner _ Hw a) as [Hl Hp]; [by rewrite Ha|]. unfold holdingsleep. rewrite Hp. lia.
  - intros Hf Hn a.
    assert (Hno : ¬ waits w a).
    { intros Hwa. destruct (wo_wakes _ Hw a Hwa) as [?|[b Hb]]; [done|].
      eapply (no_lk _ Hw Hn b). by destruct (place_of w b). }
    pose proof (wo_state _ Hw a) as Hs. unfold waits in Hno.
    destruct (place_of w a); simpl in *; (split; [intros ?|done]) || (split; [congruence|done]); try congruence; tauto.
Qed.
End machine.

(** ** Example: two processes, the first takes the lock *)

Definition demo_world : world :=
  mk_world (λ _, set_pstate zero_proc RUNNING) initsleeplock None (λ _, None) (λ _, Idle).

Lemma sleeplock_safe_witness :
  ∃ w, rtc (moves (ChLock 0) 2) demo_world w ∧ place_of w 0%nat = Owner ∧
    holdingsleep (wlock w) (pid (wproc w 0%nat)) = true.
Proof.
  assert (Hr : ∃ w, rtc (moves (ChLock 0) 2) demo_world w ∧ place_of w 0%nat = Owner).
  { eexists. split.
    - eapply rtc_l; [exists 0%nat; split; [lia|]; apply mv_call; reflexivity|].
      eapply rtc_l; [exists 0%nat; split; [lia|]; apply mv_acquire; reflexivity|].
      eapply rtc_l; [exists 0%nat; split; [lia|]; eapply mv_got; reflexivity|].
      apply rtc_refl.
    - reflexivity. }
  destruct Hr as (w & Hr & Ho). exists w. split; [exact Hr|]. split; [exact Ho|].
  assert (H0 : start_world demo_world) by (split_and!; [intros a; split_and!; reflexivity|reflexivity|reflexivity]).
  destruct (sleeplock_safe (ChLock 0) 2 demo_world w H0 Hr) as (_ & Hh & _).
  exact (Hh 0%nat Ho).
Defined.
