(* ===== verification/Exec.v ===== *)
(** * Program loading: [kernel/process/exec.c] on the format of
    [kernel/process/elf.h].

    The headers are read into byte arrays on the kernel stack and their fields
    are taken at their offsets. The label [bad] is the local function of that
    name: it frees the new page table, releases the inode if it is still held,
    and returns -1. *)

From S2P Require Import Prelude Riscv Ram Kalloc Vm Block Log Fs Console Kern File Proc.

Definition ELF_MAGIC : Z := 0x464C457F.
Definition ELF_PROG_LOAD : Z := 1.
Definition MAXARG : Z := 32.

(** [struct elfhdr]: the fields the loader uses. *)
Definition ELFHDR : Z := 64.
Definition elf_magic (h : list Z) : Z := rd 4 h 0.
Definition elf_entry (h : list Z) : Z := rd 8 h 24.
Definition elf_phoff (h : list Z) : Z := rd 8 h 32.
Definition elf_phnum (h : list Z) : Z := rd 2 h 56.

(** [struct proghdr]. *)
Definition PROGHDR : Z := 56.
Definition ph_type (h : list Z) : Z := rd 4 h 0.
Definition ph_flags (h : list Z) : Z := rd 4 h 4.
Definition ph_off (h : list Z) : Z := rd 8 h 8.
Definition ph_vaddr (h : list Z) : Z := rd 8 h 16.
Definition ph_filesz (h : list Z) : Z := rd 8 h 32.
Definition ph_memsz (h : list Z) : Z := rd 8 h 40.

Definition flags2perm (flags : Z) : Z :=
  let perm := if negb (Z.land flags 0x1 =? 0) then PTE_X else 0 in
  if negb (Z.land flags 0x2 =? 0) then Z.lor perm PTE_W else perm.

(** The program name: what follows the last slash of the path. *)
Fixpoint last_elem (path last : list Z) : list Z :=
  match path with
  | [] => last
  | c :: path' => last_elem path' (if c =? SLASH then path' else last)
  end.

Section exec.
Context {heap : Type} `{AL : Allocator heap}.
Context (trampoline : Z).

(** Memory and file system, which the loader changes. *)
Abbreviation mem := (@vm heap * fs)%type.

(** Reading into kernel memory at a physical address. *)
Definition kput (m : @vm heap) (dst : Z) (bs : list Z) : outcome (Z * @vm heap) :=
  either_copyout m 0 0 dst bs.

(** The loop of [loadseg] from offset [i] on. *)
Fixpoint loadseg_loop (fuel : nat) (m : mem) (pagetable va ip offset sz i : Z) : outcome (Z * mem) :=
  match fuel with
  | O => Hang
  | S fuel' =>
      if i <? sz then
        pa ← walkaddr m.1 pagetable (u64 (va + i));
        if pa =? 0 then Panic "loadseg: address should exist"
        else
          let n := if u32 (sz - i) <? PGSIZE then u32 (sz - i) else PGSIZE in
          '(r, s, v) ← readi kput m.2 m.1 ip pa (u32 (offset + i)) n;
          if negb (u32 r =? n) then Ok (-1, (v, s))
          else loadseg_loop fuel' (v, s) pagetable va ip offset sz (u32 (i + PGSIZE))
      else Ok (0, m)
  end.

Definition loadseg (m : mem) (pagetable va ip offset sz : Z) : outcome (Z * mem) :=
  loadseg_loop (Z.to_nat (sz / PGSIZE + 2)) m pagetable va ip offset sz 0.

(** The program header loop: [n] headers left, the next at [off]. The result is
    the size reached and whether all went well. *)
Fixpoint load_segments (n : nat) (m : mem) (pagetable ip off sz : Z) : outcome (bool * Z * mem) :=
  match n with
  | O => Ok (true, sz, m)
  | S n' =>
      '(r, s, ph) ← readi local_put m.2 (replicate (Z.to_nat PROGHDR) 0) ip 0 (u32 off) PROGHDR;
      let m := (m.1, s) in
      if negb (r =? PROGHDR) then Ok (false, sz, m)
      else if negb (ph_type ph =? ELF_PROG_LOAD) then load_segments n' m pagetable ip (i32 (off + PROGHDR)) sz
      else if ph_memsz ph <? ph_filesz ph then Ok (false, sz, m)
      else if u64 (ph_vaddr ph + ph_memsz ph) <? ph_vaddr ph then Ok (false, sz, m)
      else if negb (ph_vaddr ph mod PGSIZE =? 0) then Ok (false, sz, m)
      else
        '(sz1, v) ← uvmalloc m.1 pagetable sz (u64 (ph_vaddr ph + ph_memsz ph)) (flags2perm (ph_flags ph));
        let m := (v, m.2) in
        if sz1 =? 0 then Ok (false, sz, m)
        else
          '(r, m) ← loadseg m pagetable (ph_vaddr ph) ip (u32 (ph_off ph)) (u32 (ph_filesz ph));
          if r <? 0 then Ok (false, sz1, m)
          else load_segments n' m pagetable ip (i32 (off + PROGHDR)) sz1
  end.

(** Pushing the argument strings: the new stack pointer and the entries of
    [ustack] so far, or [None] on failure. *)
Fixpoint push_args (v : @vm heap) (pagetable stackbase sp : Z) (argv : list (list Z)) (ustack : list Z)
    : outcome (option (Z * list Z) * @vm heap) :=
  match argv with
  | [] => Ok (Some (sp, ustack), v)
  | arg :: argv' =>
      if MAXARG <=? zlen ustack then Ok (None, v)
      else
        let sp := u64 (sp - (zlen arg + 1)) in
        let sp := sp - sp mod 16 in
        if sp <? stackbase then Ok (None, v)
        else
          '(r, v) ← copyout v pagetable sp (arg ++ [0]);
          if r <? 0 then Ok (None, v)
          else push_args v pagetable stackbase sp argv' (ustack ++ [sp])
  end.

(** The bytes of an array of 64-bit words. *)
Definition words (l : list Z) : list Z := concat (to_le 8 <$> l).

(** The second half of [exec], after the inode is released: the stack, the
    arguments, and the switch to the new image. [elf] is the file header. *)
Definition exec_commit (k : @kern heap) (cur pagetable_ sz : Z) (path : list Z) (argv : list (list Z)) (elf : list Z)
    : outcome (Z * @kern heap) :=
  p ← get_proc k cur;
  let oldsz := psz p in
  let bad (v : @vm heap) (sz : Z) : outcome (Z * @kern heap) :=
    v ← proc_freepagetable v pagetable_ sz; Ok (-1, with_vm k v) in
  let sz := PGROUNDUP sz in
  '(sz1, v) ← uvmalloc (kvm k) pagetable_ sz (u64 (sz + 2 * PGSIZE)) PTE_W;
  if sz1 =? 0 then bad v sz
  else
    let sz := sz1 in
    v ← uvmclear v pagetable_ (u64 (sz - 2 * PGSIZE));
    let stackbase := u64 (sz - PGSIZE) in
    '(r, v) ← push_args v pagetable_ stackbase sz argv [];
    match r with
    | None => bad v sz
    | Some (sp, ustack) =>
        let argc := zlen ustack in
        if MAXARG <=? argc then Fault
        else
          let sp := u64 (sp - (argc + 1) * 8) in
          let sp := sp - sp mod 16 in
          if sp <? stackbase then bad v sz
          else
            '(r, v) ← copyout v pagetable_ sp (words (ustack ++ [0]));
            if r <? 0 then bad v sz
            else
              let k := tf_set (with_vm k v) p TF_A1 sp in
              let p := set_pname p (copy_pname (pname p) (last_elem path path)) in
              let oldpagetable := pagetable p in
              let p := set_psz (set_pagetable p pagetable_) sz in
              let k := tf_set k p TF_EPC (elf_entry elf) in
              let k := tf_set k p TF_SP sp in
              k ← put_proc k cur p;
              v ← proc_freepagetable (kvm k) oldpagetable oldsz;
              Ok (argc, with_vm k v)
    end.

Definition exec (k : @kern heap) (cur : Z) (path : list Z) (argv : list (list Z)) : outcome (Z * @kern heap) :=
  p ← get_proc k cur;
  s ← fbegin_op (kfs k);
  cwd ← get_ip (cwd p);
  '(ip, s) ← namei s cwd path;
  match ip with
  | None => s ← fend_op s; Ok (-1, with_fs k s)
  | Some ip =>
      s ← ilock s ip;
      let bad (pt sz : Z) (m : mem) : outcome (Z * @kern heap) :=
        v ← (if pt =? 0 then Ok m.1 else proc_freepagetable m.1 pt sz);
        s ← iunlockput m.2 ip;
        s ← fend_op s;
        Ok (-1, with_fs (with_vm k v) s) in
      '(r, s, elf) ← readi local_put s (replicate (Z.to_nat ELFHDR) 0) ip 0 0 ELFHDR;
      if negb (r =? ELFHDR) then bad 0 0 (kvm k, s)
      else if negb (elf_magic elf =? ELF_MAGIC) then bad 0 0 (kvm k, s)
      else
        '(pt, v) ← proc_pagetable trampoline (kvm k) (trapframe p);
        if pt =? 0 then bad 0 0 (v, s)
        else
          '(ok, sz, m) ← load_segments (Z.to_nat (elf_phnum elf)) (v, s) pt ip (i32 (elf_phoff elf)) 0;
          if negb ok then bad pt sz m
          else
            s ← iunlockput m.2 ip;
            s ← fend_op s;
            exec_commit (with_fs (with_vm k m.1) s) cur pt sz path argv elf
  end.
End exec.
