(* ===== verification/Sysfile.v ===== *)
(** * File system calls: [kernel/syscall/sysfile.c].

    Each handler takes the kernel state and the calling process and gives its
    return value (before conversion to [uint64]) and the new state. *)

From S2P Require Import Prelude Riscv Ram Block Uart Kalloc Vm Log Fs Pipe Console Kern File Proc Exec Fcntl.

(** ** System call arguments: [fetchaddr] to [argstr] of
    [kernel/syscall/syscall.c].

    Arguments are the registers saved in the caller's trapframe; strings and
    words behind user pointers are copied in through its page table. *)

Section args.
Context {heap : Type} `{AL : Allocator heap}.
Implicit Types (k : @kern heap).

(** The word at [addr], or [None] for -1. *)
Definition fetchaddr (k : @kern heap) (cur addr : Z) : outcome (option Z) :=
  p ← get_proc k cur;
  if (psz p <=? addr) || (psz p <? u64 (addr + 8)) then Ok None
  else
    '(r, l) ← copyin (kvm k) (pagetable p) addr 8;
    if negb (r =? 0) then Ok None else Ok (Some (of_le l)).

(** The string at [addr] without its NUL, or [None] for -1. *)
Definition fetchstr (k : @kern heap) (cur addr max : Z) : outcome (option (list Z)) :=
  p ← get_proc k cur;
  '(r, l) ← copyinstr (kvm k) (pagetable p) addr max;
  if r <? 0 then Ok None else Ok (Some (until_nul l)).

Definition argraw (k : @kern heap) (cur n : Z) : outcome Z :=
  p ← get_proc k cur;
  if n =? 0 then Ok (tf_get k p TF_A0)
  else if n =? 1 then Ok (tf_get k p TF_A1)
  else if n =? 2 then Ok (tf_get k p TF_A2)
  else if n =? 3 then Ok (tf_get k p TF_A3)
  else if n =? 4 then Ok (tf_get k p TF_A4)
  else if n =? 5 then Ok (tf_get k p TF_A5)
  else Panic "argraw".

Definition argint (k : @kern heap) (cur n : Z) : outcome Z := v ← argraw k cur n; Ok (i32 v).

Definition argaddr (k : @kern heap) (cur n : Z) : outcome Z := argraw k cur n.

Definition argstr (k : @kern heap) (cur n max : Z) : outcome (option (list Z)) :=
  addr ← argaddr k cur n;
  fetchstr k cur addr max.
End args.

Definition MAXPATH : Z := 128.

(** C truth of an expression. *)
Definition c_bool (b : bool) : Z := if b then 1 else 0.
Definition flag (omode f : Z) : bool := negb (Z.land omode f =? 0).

(** The first free descriptor from [fd] on. *)
Fixpoint free_fd {A} (ofs : list (option A)) (fd : Z) : option Z :=
  match ofs with
  | [] => None
  | None :: _ => Some fd
  | Some _ :: ofs' => free_fd ofs' (fd + 1)
  end.

Section sysfile.
Context {heap : Type} `{AL : Allocator heap}.
Implicit Types (k : @kern heap).

(** The descriptor and its file, or [None] for -1. *)
Definition argfd (k : @kern heap) (cur n : Z) : outcome (option (Z * Z)) :=
  fd ← argint k cur n;
  p ← get_proc k cur;
  if (fd <? 0) || (NOFILE <=? fd) then Ok None
  else
    f ← arr_get (ofile p) fd;
    match f with None => Ok None | Some f => Ok (Some (fd, f)) end.

(** [p->ofile[fd] = f]. *)
Definition set_fd (k : @kern heap) (cur fd : Z) (f : option Z) : outcome (@kern heap) :=
  p ← get_proc k cur;
  ofs ← arr_set (ofile p) fd f;
  put_proc k cur (set_ofile p ofs).

Definition fdalloc (k : @kern heap) (cur f : Z) : outcome (Z * @kern heap) :=
  p ← get_proc k cur;
  match free_fd (ofile p) 0 with
  | None => Ok (-1, k)
  | Some fd => k ← set_fd k cur fd (Some f); Ok (fd, k)
  end.

Definition sys_dup (k : @kern heap) (cur : Z) : outcome (Z * @kern heap) :=
  a ← argfd k cur 0;
  match a with
  | None => Ok (-1, k)
  | Some (_, f) =>
      '(fd, k) ← fdalloc k cur f;
      if fd <? 0 then Ok (-1, k)
      else k ← filedup k f; Ok (fd, k)
  end.

Definition is_killed (p : proc) : bool := negb (pkilled p =? 0).

Definition sys_read (k : @kern heap) (cur : Z) : outcome (Z * @kern heap) :=
  addr ← argaddr k cur 1;
  n ← argint k cur 2;
  a ← argfd k cur 0;
  match a with
  | None => Ok (-1, k)
  | Some (_, f) => p ← get_proc k cur; fileread k cur (pagetable p) (is_killed p) f addr n
  end.

Definition sys_write (lsr : nat → Z) (k : @kern heap) (cur : Z) : outcome (Z * @kern heap) :=
  addr ← argaddr k cur 1;
  n ← argint k cur 2;
  a ← argfd k cur 0;
  match a with
  | None => Ok (-1, k)
  | Some (_, f) => p ← get_proc k cur; filewrite lsr k cur (pagetable p) (is_killed p) f addr n
  end.

Definition sys_close (k : @kern heap) (cur : Z) : outcome (Z * @kern heap) :=
  a ← argfd k cur 0;
  match a with
  | None => Ok (-1, k)
  | Some (fd, f) =>
      k ← set_fd k cur fd None;
      k ← fileclose k (Some cur) f;
      Ok (0, k)
  end.

Definition sys_fstat (k : @kern heap) (cur : Z) (pad : list Z) : outcome (Z * @kern heap) :=
  st ← argaddr k cur 1;
  a ← argfd k cur 0;
  match a with
  | None => Ok (-1, k)
  | Some (_, f) => p ← get_proc k cur; filestat k (pagetable p) f st pad
  end.

(** Changing [ip->nlink] by [d]. *)
Definition add_nlink (s : fs) (ip d : Z) : outcome fs :=
  x ← get_inode s ip; put_inode s ip (set_inlink x (i16 (inlink x + d))).

(** The label [bad] of [sys_link]. *)
Definition link_bad (k : @kern heap) (s : fs) (ip : Z) : outcome (Z * @kern heap) :=
  s ← ilock s ip;
  s ← add_nlink s ip (-1);
  s ← iupdate s ip;
  s ← iunlockput s ip;
  s ← fend_op s;
  Ok (-1, with_fs k s).

Definition sys_link (k : @kern heap) (cur : Z) : outcome (Z * @kern heap) :=
  old ← argstr k cur 0 MAXPATH;
  match old with None => Ok (-1, k) | Some old =>
  new ← argstr k cur 1 MAXPATH;
  match new with None => Ok (-1, k) | Some new =>
  p ← get_proc k cur;
  cwd ← get_ip (cwd p);
  s ← fbegin_op (kfs k);
  '(ip, s) ← namei s cwd old;
  match ip with
  | None => s ← fend_op s; Ok (-1, with_fs k s)
  | Some ip =>
      s ← ilock s ip;
      x ← get_inode s ip;
      if itype x =? T_DIR then
        s ← iunlockput s ip;
        s ← fend_op s;
        Ok (-1, with_fs k s)
      else
        s ← add_nlink s ip 1;
        s ← iupdate s ip;
        s ← iunlock s ip;
        '(dp, name, s) ← nameiparent s cwd new blank_name;
        match dp with
        | None => link_bad k s ip
        | Some dp =>
            s ← ilock s dp;
            d ← get_inode s dp;
            x ← get_inode s ip;
            '(failed, s) ←
              (if negb (idev d =? idev x) then Ok (true, s)
               else '(r, s) ← dirlink s dp name (inum x); Ok (r <? 0, s));
            if (failed : bool) then
              s ← iunlockput s dp;
              link_bad k s ip
            else
              s ← iunlockput s dp;
              s ← iput s ip;
              s ← fend_op s;
              Ok (0, with_fs k s)
        end
  end end end.

(** [isdirempty] from entry offset [off] on. *)
Fixpoint isdirempty_loop (fuel : nat) (s : fs) (dp : Z) (de : list Z) (off : Z) : outcome (bool * fs) :=
  match fuel with
  | O => Hang
  | S fuel' =>
      x ← get_inode s dp;
      if off <? isize x then
        '(r, s, de) ← readi local_put s de dp 0 off DIRENT;
        if negb (r =? DIRENT) then Panic "isdirempty: readi"
        else if negb (de_inum de =? 0) then Ok (false, s)
        else isdirempty_loop fuel' s dp de (i32 (off + DIRENT))
      else Ok (true, s)
  end.

Definition isdirempty (s : fs) (dp : Z) : outcome (bool * fs) :=
  x ← get_inode s dp;
  isdirempty_loop (dir_fuel x) s dp blank_de (2 * DIRENT).

(** The label [bad] of [sys_unlink]. *)
Definition unlink_bad (k : @kern heap) (s : fs) (dp : Z) : outcome (Z * @kern heap) :=
  s ← iunlockput s dp;
  s ← fend_op s;
  Ok (-1, with_fs k s).

Definition sys_unlink (k : @kern heap) (cur : Z) : outcome (Z * @kern heap) :=
  path ← argstr k cur 0 MAXPATH;
  match path with None => Ok (-1, k) | Some path =>
  p ← get_proc k cur;
  cwd ← get_ip (cwd p);
  s ← fbegin_op (kfs k);
  '(dp, name, s) ← nameiparent s cwd path blank_name;
  match dp with
  | None => s ← fend_op s; Ok (-1, with_fs k s)
  | Some dp =>
      s ← ilock s dp;
      if (namecmp name (chars ".") =? 0) || (namecmp name (chars "..") =? 0) then unlink_bad k s dp
      else
        '(found, s) ← dirlookup s dp name;
        match found with
        | None => unlink_bad k s dp
        | Some (ip, off) =>
            s ← ilock s ip;
            x ← get_inode s ip;
            if inlink x <? 1 then Panic "unlink: nlink < 1"
            else
              '(blocked, s) ←
                (if itype x =? T_DIR then '(e, s) ← isdirempty s ip; Ok (negb e, s) else Ok (false, s));
              if (blocked : bool) then
                s ← iunlockput s ip;
                unlink_bad k s dp
              else
                '(r, s) ← writei local_get s blank_de dp 0 off DIRENT;
                if negb (r =? DIRENT) then Panic "unlink: writei"
                else
                  s ← (if itype x =? T_DIR then s ← add_nlink s dp (-1); iupdate s dp else Ok s);
                  s ← iunlockput s dp;
                  s ← add_nlink s ip (-1);
                  s ← iupdate s ip;
                  s ← iunlockput s ip;
                  s ← fend_op s;
                  Ok (0, with_fs k s)
        end
  end end.

(** The label [fail] of [create]. *)
Definition create_fail (s : fs) (ip dp : Z) : outcome (option Z * fs) :=
  x ← get_inode s ip;
  s ← put_inode s ip (set_inlink x 0);
  s ← iupdate s ip;
  s ← iunlockput s ip;
  s ← iunlockput s dp;
  Ok (None, s).

(** [create], in a process whose directory is [cwd]: the inode, locked. *)
Definition create (s : fs) (cwd : Z) (path : list Z) (type major minor : Z) : outcome (option Z * fs) :=
  '(dp, name, s) ← nameiparent s cwd path blank_name;
  match dp with
  | None => Ok (None, s)
  | Some dp =>
      s ← ilock s dp;
      '(found, s) ← dirlookup s dp name;
      match found with
      | Some (ip, _) =>
          s ← iunlockput s dp;
          s ← ilock s ip;
          x ← get_inode s ip;
          if (type =? T_FILE) && ((itype x =? T_FILE) || (itype x =? T_DEVICE)) then Ok (Some ip, s)
          else s ← iunlockput s ip; Ok (None, s)
      | None =>
          d ← get_inode s dp;
          '(ip, s) ← ialloc s (idev d) type;
          match ip with
          | None => s ← iunlockput s dp; Ok (None, s)
          | Some ip =>
              s ← ilock s ip;
              x ← get_inode s ip;
              s ← put_inode s ip (set_inlink (set_idev_major x major minor) 1);
              s ← iupdate s ip;
              '(failed, s) ←
                (if type =? T_DIR then
                   '(r, s) ← dirlink s ip (chars ".") (inum x);
                   if r <? 0 then Ok (true, s)
                   else '(r, s) ← dirlink s ip (chars "..") (inum d); Ok (r <? 0, s)
                 else Ok (false, s));
              if (failed : bool) then create_fail s ip dp
              else
                '(r, s) ← dirlink s dp name (inum x);
                if r <? 0 then create_fail s ip dp
                else
                  s ← (if type =? T_DIR then s ← add_nlink s dp 1; iupdate s dp else Ok s);
                  s ← iunlockput s dp;
                  Ok (Some ip, s)
          end
      end
  end.

(** The exits of [sys_open] that give up with the inode [ip] locked. *)
Definition open_bad (k : @kern heap) (s : fs) (ip : Z) : outcome (Z * @kern heap) :=
  s ← iunlockput s ip;
  s ← fend_op s;
  Ok (-1, with_fs k s).

Definition sys_open (k : @kern heap) (cur : Z) : outcome (Z * @kern heap) :=
  omode ← argint k cur 1;
  path ← argstr k cur 0 MAXPATH;
  match path with None => Ok (-1, k) | Some path =>
  p ← get_proc k cur;
  cwd ← get_ip (cwd p);
  s ← fbegin_op (kfs k);
  '(ip, s) ←
    (if flag omode O_CREATE then create s cwd path T_FILE 0 0
     else
       '(ip, s) ← namei s cwd path;
       match ip with
       | None => Ok (None, s)
       | Some ip =>
           s ← ilock s ip;
           x ← get_inode s ip;
           if (itype x =? T_DIR) && negb (omode =? O_RDONLY) then s ← iunlockput s ip; Ok (None, s)
           else Ok (Some ip, s)
       end);
  match ip with
  | None => s ← fend_op s; Ok (-1, with_fs k s)
  | Some ip =>
      x ← get_inode s ip;
      if (itype x =? T_DEVICE) && ((imajor x <? 0) || (NDEV <=? imajor x)) then open_bad k s ip
      else
        '(f, k) ← filealloc (with_fs k s);
        '(fd, k) ← fdalloc k cur f;
        if fd <? 0 then
          k ← fileclose k (Some cur) f;
          open_bad k (kfs k) ip
        else
          let readable := c_bool (negb (flag omode O_WRONLY)) in
          let writable := c_bool (flag omode O_WRONLY || flag omode O_RDWR) in
          let x' := if itype x =? T_DEVICE
                    then mk_file FD_DEVICE 1 readable writable 0 (Some ip) 0 (imajor x)
                    else mk_file FD_INODE 1 readable writable 0 (Some ip) 0 0 in
          let k := put_file k f x' in
          s ← (if flag omode O_TRUNC && (itype x =? T_FILE) then itrunc (kfs k) ip else Ok (kfs k));
          s ← iunlock s ip;
          s ← fend_op s;
          Ok (fd, with_fs k s)
  end end.

(** [sys_mkdir] and [sys_mknod] after their arguments are fetched. *)
Definition make (k : @kern heap) (cur type major minor : Z) : outcome (Z * @kern heap) :=
  p ← get_proc k cur;
  cwd ← get_ip (cwd p);
  s ← fbegin_op (kfs k);
  path ← argstr k cur 0 MAXPATH;
  '(ip, s) ← match path with
             | None => Ok (None, s)
             | Some path => create s cwd path type major minor
             end;
  match ip with
  | None => s ← fend_op s; Ok (-1, with_fs k s)
  | Some ip =>
      s ← iunlockput s ip;
      s ← fend_op s;
      Ok (0, with_fs k s)
  end.

Definition sys_mkdir (k : @kern heap) (cur : Z) : outcome (Z * @kern heap) := make k cur T_DIR 0 0.

Definition sys_mknod (k : @kern heap) (cur : Z) : outcome (Z * @kern heap) :=
  major ← argint k cur 1;
  minor ← argint k cur 2;
  make k cur T_DEVICE (i16 major) (i16 minor).

Definition sys_chdir (k : @kern heap) (cur : Z) : outcome (Z * @kern heap) :=
  p ← get_proc k cur;
  cwd_ ← get_ip (cwd p);
  s ← fbegin_op (kfs k);
  path ← argstr k cur 0 MAXPATH;
  '(ip, s) ← match path with
             | None => Ok (None, s)
             | Some path => namei s cwd_ path
             end;
  match ip with
  | None => s ← fend_op s; Ok (-1, with_fs k s)
  | Some ip =>
      s ← ilock s ip;
      x ← get_inode s ip;
      if negb (itype x =? T_DIR) then
        s ← iunlockput s ip;
        s ← fend_op s;
        Ok (-1, with_fs k s)
      else
        s ← iunlock s ip;
        s ← iput s cwd_;
        s ← fend_op s;
        k ← put_proc (with_fs k s) cur (set_cwd p (Some ip));
        Ok (0, k)
  end.

(** The argument vector of [sys_exec]: the pages allocated so far with the
    strings in them; the Boolean is false on [goto bad]. *)
Fixpoint exec_args (n : nat) (k : @kern heap) (cur uargv i : Z) (argv : list (Z * list Z))
    : outcome (bool * list (Z * list Z) * @kern heap) :=
  match n with
  | O => Ok (false, argv, k)
  | S n' =>
      uarg ← fetchaddr k cur (u64 (uargv + 8 * i));
      match uarg with
      | None => Ok (false, argv, k)
      | Some uarg =>
          if uarg =? 0 then Ok (true, argv, k)
          else
            '(pa, v) ← vm_alloc (kvm k);
            let k := with_vm k v in
            if pa =? 0 then Ok (false, argv, k)
            else
              arg ← fetchstr k cur uarg PGSIZE;
              match arg with
              | None => Ok (false, argv ++ [(pa, [])], k)
              | Some arg =>
                  let k := with_vm k (with_ram (kvm k) (put (vram (kvm k)) pa (arg ++ [0]))) in
                  exec_args n' k cur uargv (i + 1) (argv ++ [(pa, arg)])
              end
      end
  end.

Fixpoint free_args (k : @kern heap) (argv : list (Z * list Z)) : outcome (@kern heap) :=
  match argv with
  | [] => Ok k
  | (pa, _) :: argv' => v ← vm_free (kvm k) pa; free_args (with_vm k v) argv'
  end.

Definition sys_exec (trampoline : Z) (k : @kern heap) (cur : Z) : outcome (Z * @kern heap) :=
  uargv ← argaddr k cur 1;
  path ← argstr k cur 0 MAXPATH;
  match path with
  | None => Ok (-1, k)
  | Some path =>
      '(ok, argv, k) ← exec_args (Z.to_nat MAXARG) k cur uargv 0 [];
      if (ok : bool) then
        '(ret, k) ← exec trampoline k cur path (map snd argv);
        k ← free_args k argv;
        Ok (ret, k)
      else k ← free_args k argv; Ok (-1, k)
  end.

Definition sys_pipe (k : @kern heap) (cur : Z) : outcome (Z * @kern heap) :=
  fdarray ← argaddr k cur 0;
  '(ends, k) ← pipealloc k (Some cur);
  match ends with
  | None => Ok (-1, k)
  | Some (rf, wf) =>
      let abandon (k : @kern heap) : outcome (Z * @kern heap) :=
        k ← fileclose k (Some cur) rf;
        k ← fileclose k (Some cur) wf;
        Ok (-1, k) in
      '(fd0, k) ← fdalloc k cur rf;
      if fd0 <? 0 then abandon k
      else
        '(fd1, k) ← fdalloc k cur wf;
        if fd1 <? 0 then
          k ← set_fd k cur fd0 None;
          abandon k
        else
          p ← get_proc k cur;
          '(r, v) ← copyout (kvm k) (pagetable p) fdarray (to_le 4 fd0);
          '(r, v) ←
            (if r <? 0 then Ok (r, v)
             else copyout v (pagetable p) (u64 (fdarray + 4)) (to_le 4 fd1));
          let k := with_vm k v in
          if r <? 0 then
            k ← set_fd k cur fd0 None;
            k ← set_fd k cur fd1 None;
            abandon k
          else Ok (0, k)
  end.
End sysfile.
