(* ===== verification/Syscall.v ===== *)
(** * The system call table: [kernel/syscall/sysproc.c] and [syscall] of
    [kernel/syscall/syscall.c]. *)

From S2P Require Import Prelude Riscv Ram Kalloc Vm Block Log Fs Printf Uart Pipe Console Kern File Proc Exec Sysfile.

Definition SYS_fork : Z := 1.
Definition SYS_exit : Z := 2.
Definition SYS_wait : Z := 3.
Definition SYS_pipe : Z := 4.
Definition SYS_read : Z := 5.
Definition SYS_kill : Z := 6.
Definition SYS_exec : Z := 7.
Definition SYS_fstat : Z := 8.
Definition SYS_chdir : Z := 9.
Definition SYS_dup : Z := 10.
Definition SYS_getpid : Z := 11.
Definition SYS_sbrk : Z := 12.
Definition SYS_sleep : Z := 13.
Definition SYS_uptime : Z := 14.
Definition SYS_open : Z := 15.
Definition SYS_write : Z := 16.
Definition SYS_mknod : Z := 17.
Definition SYS_unlink : Z := 18.
Definition SYS_link : Z := 19.
Definition SYS_mkdir : Z := 20.
Definition SYS_close : Z := 21.
Definition SYS_dump : Z := 22.
Definition SYS_dump2 : Z := 23.

(** A turn of the loop of [sys_sleep] entered when the clock showed [ticks0]. *)
Definition sleep_turn (ticks ticks0 n : Z) (killed : bool) : turn :=
  if u32 (ticks - ticks0) <? u32 n then
    if killed then Return (-1) else SleepAt ticks0
  else Return 0.

Section syscall.
Context {heap : Type} `{AL : Allocator heap}.
Implicit Types (k : @kern heap).
Context (trampoline forkret : Z) (lsr : nat → Z) (pad : list Z).

(** What a handler comes back with: its value and the state, or, for [exit], the
    state the scheduler takes over. *)
Inductive result :=
| Returned (v : Z) (k : @kern heap)
| Exited (k : @kern heap).

Definition returned (m : outcome (Z * @kern heap)) : outcome result :=
  '(v, k) ← m; Ok (Returned v k).

Definition sys_exit (k : @kern heap) (cur : Z) : outcome result :=
  n ← argint k cur 0;
  k ← exit k cur n;
  Ok (Exited k).

Definition sys_getpid (k : @kern heap) (cur : Z) : outcome (Z * @kern heap) :=
  p ← get_proc k cur; Ok (pid p, k).

Definition sys_fork (k : @kern heap) (cur : Z) : outcome (Z * @kern heap) := fork trampoline forkret k cur.

Definition sys_wait (k : @kern heap) (cur : Z) : outcome (Z * @kern heap) :=
  addr ← argaddr k cur 0;
  '(t, k) ← wait k cur addr;
  r ← must_return t;
  Ok (r, k).

Definition sys_sbrk (k : @kern heap) (cur : Z) : outcome (Z * @kern heap) :=
  n ← argint k cur 0;
  p ← get_proc k cur;
  let addr := psz p in
  '(r, k) ← growproc k cur n;
  Ok (if r <? 0 then -1 else addr, k).

Definition sys_sleep (k : @kern heap) (cur : Z) : outcome (Z * @kern heap) :=
  n ← argint k cur 0;
  kl ← killed k cur;
  r ← must_return (sleep_turn (kticks k) (kticks k) n (negb (kl =? 0)));
  Ok (r, k).

Definition sys_kill (k : @kern heap) (cur : Z) : outcome (Z * @kern heap) :=
  pid ← argint k cur 0; kill k pid.

Definition sys_uptime (k : @kern heap) (cur : Z) : outcome (Z * @kern heap) := Ok (kticks k, k).

Definition sys_dump (k : @kern heap) (cur : Z) : outcome (Z * @kern heap) := dump k cur.

Definition sys_dump2 (k : @kern heap) (cur : Z) : outcome (Z * @kern heap) :=
  pid ← argint k cur 0;
  register_num ← argint k cur 1;
  return_value ← argaddr k cur 2;
  dump2 k cur pid register_num return_value.

(** The table [syscalls]: [None] where it has no entry. *)
Definition syscalls (num : Z) (k : @kern heap) (cur : Z) : option (outcome result) :=
  if num =? SYS_fork then Some (returned (sys_fork k cur))
  else if num =? SYS_exit then Some (sys_exit k cur)
  else if num =? SYS_wait then Some (returned (sys_wait k cur))
  else if num =? SYS_pipe then Some (returned (sys_pipe k cur))
  else if num =? SYS_read then Some (returned (sys_read k cur))
  else if num =? SYS_kill then Some (returned (sys_kill k cur))
  else if num =? SYS_exec then Some (returned (sys_exec trampoline k cur))
  else if num =? SYS_fstat then Some (returned (sys_fstat k cur pad))
  else if num =? SYS_chdir then Some (returned (sys_chdir k cur))
  else if num =? SYS_dup then Some (returned (sys_dup k cur))
  else if num =? SYS_getpid then Some (returned (sys_getpid k cur))
  else if num =? SYS_sbrk then Some (returned (sys_sbrk k cur))
  else if num =? SYS_sleep then Some (returned (sys_sleep k cur))
  else if num =? SYS_uptime then Some (returned (sys_uptime k cur))
  else if num =? SYS_open then Some (returned (sys_open k cur))
  else if num =? SYS_write then Some (returned (sys_write lsr k cur))
  else if num =? SYS_mknod then Some (returned (sys_mknod k cur))
  else if num =? SYS_unlink then Some (returned (sys_unlink k cur))
  else if num =? SYS_link then Some (returned (sys_link k cur))
  else if num =? SYS_mkdir then Some (returned (sys_mkdir k cur))
  else if num =? SYS_close then Some (returned (sys_close k cur))
  else if num =? SYS_dump then Some (returned (sys_dump k cur))
  else if num =? SYS_dump2 then Some (returned (sys_dump2 k cur))
  else None.

(** [p->trapframe->a0 = v]; the trapframe pointer is read again after the call. *)
Definition set_a0 (k : @kern heap) (cur v : Z) : outcome (@kern heap) :=
  p ← get_proc k cur; Ok (tf_set k p TF_A0 (u64 v)).

(** The Boolean says that the process exited. *)
Definition syscall (k : @kern heap) (cur : Z) : outcome (bool * @kern heap) :=
  p ← get_proc k cur;
  let num := i32 (tf_get k p TF_A7) in
  match syscalls num k cur with
  | Some m =>
      r ← m;
      match r with
      | Returned v k => k ← set_a0 k cur v; Ok (false, k)
      | Exited k => Ok (true, k)
      end
  | None =>
      l ← Kernel.printf (chars "%d %s: unknown sys call %d" ++ [10])
            [VInt (pid p); VStr (Some (until_nul (pname p))); VInt num];
      k ← set_a0 (with_out k (kout k ++ l)) cur (-1);
      Ok (false, k)
  end.
End syscall.
