(* ===== verification/Trap.v ===== *)
(** * Traps: [kernel/trap.c] and the interrupt controller,
    [kernel/hardware/plic.c].

    The control registers of the running hart are a record. What the devices
    answer is a parameter: [irq] is the interrupt the PLIC hands out, [lsr] and
    [rhr] are the UART. The state is that of the kernel and that of the disk
    driver. The addresses of the code in assembly files are parameters.

    The clock makes [usertrap] and [kerneltrap] call [yield]: the process becomes
    runnable and the hart switches to its scheduler. The model is cut there. The
    process goes on when some hart's scheduler resumes it, in whatever state the
    kernel and that hart are then. *)

From Stdlib Require Import ZifyBool.
From S2P Require Import Prelude Riscv Bio Virtio Spinlock Ram Kalloc Vm Fs Printf Uart Pipe Console Kern File Proc Sched ProcTree Exec Sysfile Syscall.

Definition SSTATUS_SPP : Z := Z.shiftl 1 8.
Definition SSTATUS_SPIE : Z := Z.shiftl 1 5.
Definition SSTATUS_SIE : Z := Z.shiftl 1 1.
Definition SATP_SV39 : Z := Z.shiftl 8 60.
Definition MAKE_SATP (pagetable : Z) : Z := Z.lor SATP_SV39 (Z.shiftr pagetable 12).
Definition UART0_IRQ : Z := 10.
Definition VIRTIO0_IRQ : Z := 1.
Definition PLIC_SENABLE (hart : Z) : Z := PLIC + 0x2080 + hart * 0x100.
Definition PLIC_SPRIORITY (hart : Z) : Z := PLIC + 0x201000 + hart * 0x2000.
Definition PLIC_SCLAIM (hart : Z) : Z := PLIC + 0x201004 + hart * 0x2000.

Record hart := mk_hart {
  tp : Z;
  sstatus : Z;
  sepc : Z;
  scause : Z;
  stval : Z;
  stvec : Z;
  satp : Z;
  sip : Z;
  mmio : list (Z * Z);   (* writes to device registers *)
}.

Definition w_sstatus (h : hart) (x : Z) : hart :=
  mk_hart (tp h) x (sepc h) (scause h) (stval h) (stvec h) (satp h) (sip h) (mmio h).
Definition w_sepc (h : hart) (x : Z) : hart :=
  mk_hart (tp h) (sstatus h) x (scause h) (stval h) (stvec h) (satp h) (sip h) (mmio h).
Definition w_stvec (h : hart) (x : Z) : hart :=
  mk_hart (tp h) (sstatus h) (sepc h) (scause h) (stval h) x (satp h) (sip h) (mmio h).
Definition w_sip (h : hart) (x : Z) : hart :=
  mk_hart (tp h) (sstatus h) (sepc h) (scause h) (stval h) (stvec h) (satp h) x (mmio h).
Definition w_mmio (h : hart) (a v : Z) : hart :=
  mk_hart (tp h) (sstatus h) (sepc h) (scause h) (stval h) (stvec h) (satp h) (sip h) (mmio h ++ [(a, u32 v)]).

Definition intr_on (h : hart) : hart := w_sstatus h (Z.lor (sstatus h) SSTATUS_SIE).
Definition intr_off (h : hart) : hart := w_sstatus h (Z.land (sstatus h) (Z.lnot SSTATUS_SIE)).
Definition intr_get (h : hart) : bool := negb (Z.land (sstatus h) SSTATUS_SIE =? 0).

Definition plicinit (h : hart) : hart :=
  w_mmio (w_mmio h (PLIC + UART0_IRQ * 4) 1) (PLIC + VIRTIO0_IRQ * 4) 1.

Definition plicinithart (h : hart) : hart :=
  let h := w_mmio h (PLIC_SENABLE (tp h)) (Z.lor (Z.shiftl 1 UART0_IRQ) (Z.shiftl 1 VIRTIO0_IRQ)) in
  w_mmio h (PLIC_SPRIORITY (tp h)) 0.

Definition plic_complete (h : hart) (irq : Z) : hart := w_mmio h (PLIC_SCLAIM (tp h)) irq.

Section trap.
Context {heap : Type} `{AL : Allocator heap}.
Implicit Types (k : @kern heap).
Context (trampoline forkret : Z) (lsr rhr : nat → Z) (pad : list Z).
Context (kernelvec uservec usertrap_addr : Z) (irq : Z).

Definition clockintr (k : @kern heap) (cur : option Z) : @kern heap :=
  wakeup (with_ticks k (u32 (kticks k + 1))) cur ChTicks.

(** [consoleintr] in the kernel: control-P prints the process list, the echo
    goes out, and a finished line wakes the readers. *)
Definition kconsoleintr (cur : option Z) (k : @kern heap) (u : uart) (c : Z) : outcome (@kern heap * uart) :=
  l1 ← Kernel.printf [10] [];
  l2 ← procdump_loop (procs k);
  '(c', echo, woke) ← consoleintr (l1 ++ l2) (kcons k) c;
  let k := with_out (with_cons k c') (kout k ++ echo) in
  Ok (if (woke : bool) then wakeup k cur ChCons else k, u).

(** [fuel] bounds the number of input bytes the device offers. *)
Definition kuartintr (fuel : nat) (k : @kern heap) (cur : option Z) : outcome (@kern heap) :=
  '(k, woke, u) ← uartintr lsr rhr fuel (kconsoleintr cur) k (kuart k);
  let k := with_uart k u in
  Ok (if (woke : bool) then wakeup k cur ChUart else k).

Definition external (h : hart) : bool :=
  negb (Z.land (scause h) 0x8000000000000000 =? 0) && (Z.land (scause h) 0xff =? 9).

(** The timer, as the machine-mode handler passes it on: a software interrupt. *)
Definition SOFTWARE_INTR : Z := 0x8000000000000001.

Definition devintr (fuel : nat) (k : @kern heap) (dk : driver) (cur : option Z) (h : hart)
    : outcome (Z * @kern heap * driver * hart) :=
  if external h then
    '(k, dk) ← (if irq =? UART0_IRQ then k ← kuartintr fuel k cur; Ok (k, dk)
         else if irq =? VIRTIO0_IRQ then dk ← virtio_disk_intr fuel dk; Ok (k, dk)
         else if negb (irq =? 0) then
           l ← Kernel.printf (chars "unexpected interrupt irq=%d" ++ [10]) [VInt irq];
           Ok (with_out k (kout k ++ l), dk)
         else Ok (k, dk));
    Ok (1, k, dk, if negb (irq =? 0) then plic_complete h irq else h)
  else if scause h =? SOFTWARE_INTR then
    let k := if tp h =? 0 then clockintr k cur else k in
    Ok (2, k, dk, w_sip h (Z.land (sip h) (Z.lnot 2)))
  else Ok (0, k, dk, h).

(** [usertrapret]: the state, the hart as [userret] finds it, and the value of
    [satp] passed to it. *)
Definition usertrapret (k : @kern heap) (cur : Z) (h : hart) : outcome (@kern heap * hart * Z) :=
  p ← get_proc k cur;
  let h := intr_off h in
  let h := w_stvec h (TRAMPOLINE + (uservec - trampoline)) in
  let k := tf_set k p TF_KERNEL_SATP (satp h) in
  let k := tf_set k p TF_KERNEL_SP (kstack p + PGSIZE) in
  let k := tf_set k p TF_KERNEL_TRAP usertrap_addr in
  let k := tf_set k p TF_KERNEL_HARTID (tp h) in
  let x := Z.land (sstatus h) (Z.lnot SSTATUS_SPP) in
  let x := Z.lor x SSTATUS_SPIE in
  let h := w_sstatus h x in
  let h := w_sepc h (tf_get k p TF_EPC) in
  Ok (k, h, MAKE_SATP (pagetable p)).

(** [yield], up to the switch to the scheduler. *)
Definition yield (k : @kern heap) (cur : Z) : outcome (@kern heap) :=
  p ← get_proc k cur; put_proc k cur (yield_enter p).

(** How far a trap from user mode gets: back to user mode; to the scheduler, to go
    on with [usertrapret] when the process is resumed; or the process is gone. *)
Inductive trap_end :=
| ToUser (k : @kern heap) (dk : driver) (h : hart) (satp : Z)
| Yielded (k : @kern heap) (dk : driver) (h : hart)
| Gone (k : @kern heap) (dk : driver).

(** [usertrap] from the second test of [killed] on. *)
Definition usertrap_finish (which_dev : Z) (k : @kern heap) (dk : driver) (cur : Z) (h : hart) : outcome trap_end :=
  kl ← killed k cur;
  if negb (kl =? 0) then
    k ← exit k cur (-1);
    Ok (Gone k dk)
  else if which_dev =? 2 then
    k ← yield k cur;
    Ok (Yielded k dk h)
  else
    '(k, h, satp) ← usertrapret k cur h;
    Ok (ToUser k dk h satp).

Definition usertrap (fuel : nat) (k : @kern heap) (dk : driver) (cur : Z) (h : hart) : outcome trap_end :=
  if negb (Z.land (sstatus h) SSTATUS_SPP =? 0) then Panic "usertrap: not from user mode"
  else
    let h := w_stvec h kernelvec in
    p ← get_proc k cur;
    let k := tf_set k p TF_EPC (sepc h) in
    '(which_dev, exited, k, dk, h) ←
      (if scause h =? 8 then
         if negb (pkilled p =? 0) then
           k ← exit k cur (-1);
           Ok (0, true, k, dk, h)
         else
           let k := tf_set k p TF_EPC (u64 (tf_get k p TF_EPC + 4)) in
           let h := intr_on h in
           '(gone, k) ← syscall trampoline forkret lsr pad k cur;
           Ok (0, gone, k, dk, h)
       else
         '(which_dev, k, dk, h) ← devintr fuel k dk (Some cur) h;
         if negb (which_dev =? 0) then Ok (which_dev, false, k, dk, h)
         else
           l1 ← Kernel.printf (chars "usertrap(): unexpected scause %p pid=%d" ++ [10]) [VU64 (scause h); VInt (pid p)];
           l2 ← Kernel.printf (chars "            sepc=%p stval=%p" ++ [10]) [VU64 (sepc h); VU64 (stval h)];
           k ← setkilled (with_out k (kout k ++ l1 ++ l2)) cur;
           Ok (0, false, k, dk, h));
    if (exited : bool) then Ok (Gone k dk) else usertrap_finish which_dev k dk cur h.

(** The end of [kerneltrap], on the hart that the code it interrupted goes on with. *)
Definition kerneltrap_end (h : hart) (sepc0 sstatus0 : Z) : hart := w_sstatus (w_sepc h sepc0) sstatus0.

(** [kerneltrap] returns, or gives up the CPU and keeps the two registers for
    [kerneltrap_end]. [cur] is null when the hart runs no process. *)
Inductive ktrap_end :=
| KReturn (k : @kern heap) (dk : driver) (h : hart)
| KYielded (k : @kern heap) (dk : driver) (h : hart) (sepc0 sstatus0 : Z).

Definition kerneltrap (fuel : nat) (k : @kern heap) (dk : driver) (cur : option Z) (h : hart) : outcome ktrap_end :=
  let sepc0 := sepc h in
  let sstatus0 := sstatus h in
  if Z.land sstatus0 SSTATUS_SPP =? 0 then Panic "kerneltrap: not from supervisor mode"
  else if intr_get h then Panic "kerneltrap: interrupts enabled"
  else
    '(which_dev, k, dk, h) ← devintr fuel k dk cur h;
    if which_dev =? 0 then Panic "kerneltrap"
    else
      match cur with
      | Some c =>
          p ← get_proc k c;
          if (which_dev =? 2) && bool_decide (pstate p = RUNNING) then
            k ← yield k c;
            Ok (KYielded k dk h sepc0 sstatus0)
          else Ok (KReturn k dk (kerneltrap_end h sepc0 sstatus0))
      | None => Ok (KReturn k dk (kerneltrap_end h sepc0 sstatus0))
      end.

(** ** Returning to user mode *)

Lemma spp_clear x : Z.land (Z.lor (Z.land x (Z.lnot SSTATUS_SPP)) SSTATUS_SPIE) SSTATUS_SPP = 0.
Proof.
  apply Z.bits_inj'. intros n Hn. unfold SSTATUS_SPP, SSTATUS_SPIE. rewrite Z.bits_0, Z.land_spec, Z.lor_spec, Z.land_spec.
  rewrite Z.lnot_spec, !Z.shiftl_spec by lia. destruct (Z.eq_dec n 8) as [->|Hne].
  - simpl. by rewrite !andb_false_r.
  - change 1 with (2 ^ 0). rewrite (Z.pow2_bits_eqb 0 (n - 8)) by lia. destruct (Z.eqb_spec 0 (n - 8)); [lia|].
    by rewrite andb_false_r.
Qed.

Lemma spie_set x : negb (Z.land (Z.lor (Z.land x (Z.lnot SSTATUS_SPP)) SSTATUS_SPIE) SSTATUS_SPIE =? 0) = true.
Proof.
  assert (Ht : Z.testbit (Z.land (Z.lor (Z.land x (Z.lnot SSTATUS_SPP)) SSTATUS_SPIE) SSTATUS_SPIE) 5 = true).
  { rewrite Z.land_spec, Z.lor_spec. change (Z.testbit SSTATUS_SPIE 5) with true. by rewrite orb_true_r. }
  destruct (Z.eqb_spec (Z.land (Z.lor (Z.land x (Z.lnot SSTATUS_SPP)) SSTATUS_SPIE) SSTATUS_SPIE) 0) as [E|E]; [|done].
  rewrite E in Ht. by rewrite Z.bits_0 in Ht.
Qed.

(** ** What the handlers leave of the running process *)

Lemma get_proc_wakeup k cur chan p : get_proc k cur = Ok p → get_proc (wakeup k (Some cur) chan) cur = Ok p.
Proof.
  unfold get_proc, wakeup. cbn [procs with_procs]. unfold arr_get. destruct (Z.ltb_spec cur 0); [done|]. unfold wake_all.
  rewrite list_lookup_imap. destruct (procs k !! Z.to_nat cur) as [q|]; [|done]. intros [= ->]. cbn. unfold wake_one.
  rewrite bool_decide_eq_false_2; [done|]. rewrite Z2Nat.id by lia. intros [H1 _]. done.
Qed.

Lemma kconsoleintr_proc cur k u c k' u' p :
  get_proc k cur = Ok p → kconsoleintr (Some cur) k u c = Ok (k', u') → get_proc k' cur = Ok p.
Proof.
  intros Hp (l1 & _ & E)%bind_Ok_inv. apply bind_Ok_inv in E as (l2 & _ & E). apply bind_Ok_inv in E as ([[c' echo] woke] & _ & E).
  injection E as <- _. destruct woke; [by apply get_proc_wakeup|done].
Qed.

Lemma uart_input_proc fuel cur p : ∀ k u k' u',
  get_proc k cur = Ok p → uartintr_input lsr rhr fuel (kconsoleintr (Some cur)) k u = Ok (k', u') → get_proc k' cur = Ok p.
Proof.
  induction fuel as [|fuel IH]; intros k u k' u' Hp; cbn [uartintr_input]; [done|].
  destruct (uartgetc lsr rhr u) as [c u1]. destruct (c =? -1); [by intros [= <- _]|].
  intros ([k1 u2] & E1 & E)%bind_Ok_inv. eapply IH; [|exact E]. by eapply kconsoleintr_proc.
Qed.

Lemma devintr_proc fuel k dk cur h w k' dk' h' p :
  get_proc k cur = Ok p → devintr fuel k dk (Some cur) h = Ok (w, k', dk', h') →
  get_proc k' cur = Ok p ∧ (w = 0 → external h = false ∧ scause h ≠ SOFTWARE_INTR) ∧ (w = 2 ↔ external h = false ∧ scause h = SOFTWARE_INTR).
Proof.
  intros Hp. unfold devintr. destruct (external h).
  - intros ([k1 dk1] & E1 & E)%bind_Ok_inv. injection E as <- <- <- <-. split; [|by split; [|split; [|intros [? _]]]].
    destruct (irq =? UART0_IRQ).
    + apply bind_Ok_inv in E1 as (k2 & E2 & E1). injection E1 as <- <-. unfold kuartintr, uartintr in E2.
      apply bind_Ok_inv in E2 as ([[k3 woke] u3] & E3 & E2). apply bind_Ok_inv in E3 as ([k4 u4] & E4 & E3).
      apply (uart_input_proc _ _ p) in E4; [|exact Hp].
      apply bind_Ok_inv in E3 as ([wk u5] & _ & E3). injection E3 as -> -> ->. injection E2 as <-.
      destruct woke; [by apply get_proc_wakeup|done].
    + destruct (irq =? VIRTIO0_IRQ); [apply bind_Ok_inv in E1 as (? & _ & E1); by injection E1 as <- <-|].
      destruct (negb (irq =? 0)); [apply bind_Ok_inv in E1 as (? & _ & E1); by injection E1 as <- <-|by injection E1 as <- <-].
  - destruct (Z.eqb_spec (scause h) SOFTWARE_INTR); intros [= <- <- <- <-]; [|split; [done|split; [done|split; [done|intros [_ ?]; congruence]]]].
    split; [|by split].
    destruct (tp h =? 0); [|done]. by apply get_proc_wakeup.
Qed.

Lemma put_get_proc k i p k' : put_proc k i p = Ok k' → get_proc k' i = Ok p.
Proof.
  unfold put_proc, get_proc. intros (ps & E & E')%bind_Ok_inv. injection E' as <-. cbn [procs with_procs].
  unfold arr_set in E. destruct ((i <? 0) || (Z.of_nat (length (procs k)) <=? i)) eqn:Eb; [done|]. injection E as <-.
  apply arr_get_Ok. split; [lia|]. apply list_lookup_insert_eq. lia.
Qed.

Lemma exit_zombie k cur st k' : exit k cur st = Ok k' → ∃ q, get_proc k' cur = Ok q ∧ pstate q = ZOMBIE ∧ xstate q = st.
Proof.
  unfold exit. case_bool_decide; [done|]. intros E. do 10 apply bind_Ok_inv in E as (? & _ & E).
  apply put_get_proc in E. eexists. by split.
Qed.

Lemma syscall_gone k cur k' : syscall trampoline forkret lsr pad k cur = Ok (true, k') → ∃ q, get_proc k' cur = Ok q ∧ pstate q = ZOMBIE.
Proof.
  assert (Hret : ∀ m k1, returned m ≠ Ok (Exited (heap := heap) k1)).
  { intros m k1 ([v k2] & _ & E)%bind_Ok_inv. done. }
  unfold syscall. intros (p & _ & E)%bind_Ok_inv. destruct (syscalls _ _ _ _ _ _ _) as [m|] eqn:Em.
  - apply bind_Ok_inv in E as (r & Er & E). destruct r as [v k1|k1]; [by apply bind_Ok_inv in E as (? & _ & ?)|]. injection E as <-.
    unfold syscalls in Em. repeat match type of Em with (if ?b then _ else _) = _ => destruct b; [injection Em as <-; try discriminate Er; try by apply Hret in Er|] end.
    2: discriminate Em.
    unfold sys_exit in Er. apply bind_Ok_inv in Er as (n & _ & Er). apply bind_Ok_inv in Er as (k2 & (q & Hq & Hz & _)%exit_zombie & Er).
    injection Er as <-. eauto.
  - apply bind_Ok_inv in E as (? & _ & E). by apply bind_Ok_inv in E as (? & _ & ?).
Qed.

(** [usertrap_finish], by the process it finds. *)
Lemma usertrap_finish_ok w k dk cur h p e :
  get_proc k cur = Ok p → usertrap_finish w k dk cur h = Ok e →
  match e with
  | ToUser k' _ h' sa =>
      pkilled p = 0 ∧ w ≠ 2 ∧ get_proc k' cur = Ok p ∧
        Z.land (sstatus h') SSTATUS_SPP = 0 ∧ negb (Z.land (sstatus h') SSTATUS_SPIE =? 0) = true ∧
        stvec h' = TRAMPOLINE + (uservec - trampoline) ∧ sepc h' = tf_get k' p TF_EPC ∧ sa = MAKE_SATP (pagetable p)
  | Yielded k' _ _ => pkilled p = 0 ∧ w = 2 ∧ get_proc k' cur = Ok (yield_enter p)
  | Gone k' _ => ∃ q, get_proc k' cur = Ok q ∧ pstate q = ZOMBIE ∧ xstate q = -1
  end.
Proof.
  intros Hp. unfold usertrap_finish, killed. rewrite Hp, !bind_Ok. destruct (Z.eqb_spec (pkilled p) 0) as [Ek|Ek]; cbn [negb].
  - destruct (Z.eqb_spec w 2) as [->|Hw].
    + unfold yield. rewrite Hp, bind_Ok. intros (k1 & E1%put_get_proc & E)%bind_Ok_inv. by injection E as <-.
    + unfold usertrapret. rewrite Hp, !bind_Ok. cbv beta iota. intros E. injection E as <-. split_and!; try done.
      * apply spp_clear.
      * apply spie_set.
  - intros (k1 & E1%exit_zombie & E)%bind_Ok_inv. by injection E as <-.
Qed.

End trap.

(** ** Example: the system call [getpid], then the timer *)

Definition demo_kern3 : @kern Buddy.buddy := tf_set demo_kern2 zero_proc TF_A7 SYS_getpid.

Definition demo_hart (cause : Z) : hart := mk_hart 0 0 0x1000 cause 0 0 0 0 [].

(** A disk that nobody uses. *)
Definition demo_disk : driver := mk_driver vdisk0 ∅ ∅ None (mk_vregs false 0).

Abbreviation demo_usertrap cause :=
  (usertrap 0x80007000 0x80002000 (λ _, 32) (λ _, 0) [0; 0; 0; 0] 0x80003000 0x80007000 0x80004000 0
    10%nat demo_kern3 demo_disk 0 (demo_hart cause)).

Definition trap_kind {heap} (m : outcome (@trap_end heap)) : option bool :=
  match m with Ok (ToUser _ _ _ _) => Some true | Ok (Yielded _ _ _) => Some false | _ => None end.

