(* ===== verification/Ulib.v ===== *)
(** * The user library: [user/ulib.c].

    Memory is the process's bytes; a loop that looks for a NUL gets fuel, and is
    shown to end on strings. *)

From Stdlib Require Import ZifyBool.
From S2P Require Import Prelude Ram Printf.

(** [strchr] on the bytes of a string: the place of the first [c]; the NUL at the
    end is never found. *)
Fixpoint strchr (s : list Z) (c : Z) : option nat :=
  match s with
  | [] => None
  | x :: s' => if x =? 0 then None else if x =? c then Some O else S <$> strchr s' c
  end.

Module Lib.

Fixpoint strcpy_loop (fuel : nat) (m : ram) (s t : Z) : outcome ram :=
  match fuel with
  | O => Hang
  | S fuel' =>
      let c := ld8 m t in
      let m := st8 m s c in
      if negb (c =? 0) then strcpy_loop fuel' m (s + 1) (t + 1) else Ok m
  end.

Definition strcpy (fuel : nat) (m : ram) (s t : Z) : outcome ram := strcpy_loop fuel m s t.

Fixpoint strcmp (fuel : nat) (m : ram) (p q : Z) : outcome Z :=
  match fuel with
  | O => Hang
  | S fuel' =>
      if negb (ld8 m p =? 0) && (ld8 m p =? ld8 m q) then strcmp fuel' m (p + 1) (q + 1)
      else Ok (ld8 m p - ld8 m q)
  end.

Fixpoint strlen_loop (fuel : nat) (m : ram) (s n : Z) : outcome Z :=
  match fuel with
  | O => Hang
  | S fuel' => if negb (ld8 m (s + n) =? 0) then strlen_loop fuel' m s (n + 1) else Ok n
  end.

Definition strlen (fuel : nat) (m : ram) (s : Z) : outcome Z := strlen_loop fuel m s 0.

Definition memset (m : ram) (dst c n : Z) : ram := memset_loop (Z.to_nat n) m dst c.

(** The address of the first [c], or 0. *)
Fixpoint strchr (fuel : nat) (m : ram) (s c : Z) : outcome Z :=
  match fuel with
  | O => Hang
  | S fuel' =>
      if negb (ld8 m s =? 0) then
        if ld8 m s =? c then Ok s else strchr fuel' m (s + 1) c
      else Ok 0
  end.

(** [gets] reads one byte at a time; [input] is what the descriptor delivers, and
    an error or its end is the empty list. The result is what [buf] holds up to
    its NUL, and the rest of the input. *)
Fixpoint gets_loop (fuel : nat) (input : list Z) (i max : Z) : list Z * list Z :=
  match fuel with
  | O => ([], input)
  | S fuel' =>
      if i + 1 <? max then
        match input with
        | [] => ([], [])
        | c :: input' =>
            if (c =? 10) || (c =? 13) then ([c], input')
            else let '(l, r) := gets_loop fuel' input' (i + 1) max in (c :: l, r)
        end
      else ([], input)
  end.

Definition gets (input : list Z) (max : Z) : list Z * list Z := gets_loop (Z.to_nat max) input 0 max.

(** [stat] through the calls [open], [fstat] and [close], which act on a state. *)
Definition stat {S : Type} (sys_open : S → list Z → Z → Z * S) (sys_fstat : S → Z → Z * S)
    (sys_close : S → Z → S) (s : S) (n : list Z) : Z * S :=
  let '(fd, s1) := sys_open s n 0 in
  if fd <? 0 then (-1, s1)
  else let '(r, s2) := sys_fstat s1 fd in (r, sys_close s2 fd).

Fixpoint atoi_loop (s : list Z) (n : Z) : Z :=
  match s with
  | c :: s' => if (48 <=? c) && (c <=? 57) then atoi_loop s' (i32 (n * 10 + c - 48)) else n
  | [] => n
  end.

Definition atoi (s : list Z) : Z := atoi_loop s 0.

Definition memmove (m : ram) (vdst vsrc n : Z) : ram :=
  if vdst <? vsrc then memmove_forw (Z.to_nat n) m vdst vsrc
  else memmove_back (Z.to_nat n) m (vdst + n) (vsrc + n).

Definition memcmp (m : ram) (s1 s2 n : Z) : Z := memcmp_loop (Z.to_nat n) m s1 s2.

Definition memcpy (m : ram) (dst src n : Z) : ram := memmove m dst src n.

End Lib.

(** ** Moving memory *)

Lemma back_same n m d a : bytes_ok m → ld8 (memmove_back n m d d) a = ld8 m a.
Proof.
  revert m d. induction n as [|n IH]; intros m d Hm; cbn [memmove_back]; [done|].
  rewrite IH by auto with ram_db. rewrite ld8_st8. destruct (Z.eqb_spec (d - 1) a) as [<-|]; [by apply u8_small|done].
Qed.

(** The [memmove] of the user library and the one of the kernel, which choose
    the direction of the copy differently, do the same to every byte. *)
Theorem memmove_equiv m dst src n a :
  bytes_ok m → 0 ≤ n → ld8 (Lib.memmove m dst src n) a = ld8 (Ram.memmove m dst src n) a.
Proof.
  intros Hm Hn. rewrite ld8_memmove by done. unfold Lib.memmove. destruct (Z.ltb_spec dst src).
  - rewrite ld8_memmove_forw, Z2Nat.id by (done || lia). done.
  - destruct (decide (dst = src)) as [->|Hne].
    + rewrite back_same by done. replace (src + (a - src)) with a by lia. by destruct (_ && _).
    + rewrite ld8_memmove_back, Z2Nat.id by (done || lia). replace (dst + n - n) with dst by lia.
      by replace (src + n + (a - (dst + n))) with (src + (a - dst)) by lia.
Qed.

Lemma memmove_equiv_witness :
  ld8 (Lib.memmove (put ∅ 100 [1; 2; 3; 4]) 101 100 3) 103 = ld8 (Ram.memmove (put ∅ 100 [1; 2; 3; 4]) 101 100 3) 103.
Proof. apply memmove_equiv; [auto with ram_db|lia]. Defined.

(** ** Strings *)

(** The C string [l] is at [a]. *)
Fixpoint str_at (m : ram) (a : Z) (l : list Z) : Prop :=
  match l with
  | [] => ld8 m a = 0
  | c :: l' => ld8 m a = c ∧ c ≠ 0 ∧ str_at m (a + 1) l'
  end.

Lemma str_at_ext m m' a l : (∀ b, a ≤ b ≤ a + zlen l → ld8 m' b = ld8 m b) → str_at m a l → str_at m' a l.
Proof.
  revert a. induction l as [|c l IH]; intros a H; cbn [str_at].
  - intros <-. apply H. unfold zlen. simpl. lia.
  - assert (El : zlen (c :: l) = zlen l + 1) by (unfold zlen; simpl; lia). assert (0 ≤ zlen l) by (unfold zlen; lia). intros (E & Hc & Hl).
    split; [rewrite H by lia; done|]. split; [done|]. apply IH; [|done]. intros b Hb. apply H. lia.
Qed.

Lemma strlen_str fuel m s l n :
  str_at m (s + n) l → (length l < fuel)%nat → Lib.strlen_loop fuel m s n = Ok (n + zlen l).
Proof.
  revert n fuel. induction l as [|c l IH]; intros n [|fuel] Hs Hf; simpl in Hf; try lia; cbn [str_at] in Hs; cbn [Lib.strlen_loop].
  - rewrite Hs. unfold zlen. simpl. f_equal. lia.
  - destruct Hs as (-> & Hc & Hs). rewrite (proj2 (Z.eqb_neq c 0)) by done. cbn [negb]. rewrite IH by (rewrite ?Z.add_assoc; done || lia).
    f_equal. unfold zlen. simpl. lia.
Qed.

(** [strcpy] to memory that does not overlap the string. *)
Lemma strcpy_str fuel m s t l :
  bytes_ok m → str_at m t l → (length l < fuel)%nat → s + zlen l < t ∨ t + zlen l < s →
  ∃ m', Lib.strcpy fuel m s t = Ok m' ∧ bytes_ok m' ∧ str_at m' s l ∧ ∀ a, a < s ∨ s + zlen l < a → ld8 m' a = ld8 m a.
Proof.
  unfold Lib.strcpy. revert m s t fuel. induction l as [|c l IH]; intros m s t [|fuel] Hm Hs Hf Hd; simpl in Hf; try lia;
    cbn [str_at] in Hs; cbn [Lib.strcpy_loop].
  - rewrite Hs. cbn. eexists. split; [done|]. split; [auto with ram_db|]. change (zlen (@nil Z)) with 0.
    split; [rewrite ld8_st8, Z.eqb_refl; done|]. intros a Ha. rewrite ld8_st8. zcase; [lia|done].
  - destruct Hs as (E & Hc & Hs). assert (El : zlen (c :: l) = zlen l + 1) by (unfold zlen; simpl; lia). rewrite El in *.
    assert (Hz : 0 ≤ zlen l) by (unfold zlen; lia). rewrite E, (proj2 (Z.eqb_neq c 0)) by done. cbn [negb].
    destruct (IH (st8 m s c) (s + 1) (t + 1) fuel) as (m' & -> & Hm' & Hl & Ho); [auto with ram_db| |lia|lia|].
    { eapply str_at_ext; [|exact Hs]. intros b Hb. rewrite ld8_st8. zcase; [lia|done]. }
    exists m'. split; [done|]. split; [done|]. split.
    + cbn [str_at]. rewrite Ho by lia. rewrite ld8_st8, Z.eqb_refl. split; [|done]. apply u8_small. rewrite <- E. apply Hm.
    + intros a Ha. rewrite Ho by lia. rewrite ld8_st8. zcase; [lia|done].
Qed.

(** [strcmp] is zero on equal strings only. *)
Lemma strcmp_str fuel m p q l l' :
  bytes_ok m → str_at m p l → str_at m q l' → (length l < fuel)%nat →
  ∃ r, Lib.strcmp fuel m p q = Ok r ∧ (r = 0 ↔ l = l').
Proof.
  intros Hm. revert p q l' fuel. induction l as [|c l IH]; intros p q l' [|fuel] Hp Hq Hf; simpl in Hf; try lia;
    cbn [str_at] in Hp; cbn [Lib.strcmp].
  - rewrite Hp. cbn. eexists. split; [done|]. destruct l' as [|c' l']; cbn [str_at] in Hq; [rewrite Hq; done|].
    destruct Hq as (-> & Hc & _). split; [lia|done].
  - destruct Hp as (-> & Hc & Hp). rewrite (proj2 (Z.eqb_neq c 0)) by done. cbn [negb andb].
    destruct l' as [|c' l']; cbn [str_at] in Hq.
    + rewrite Hq, (proj2 (Z.eqb_neq c 0)) by done. eexists. split; [done|]. split; [lia|done].
    + destruct Hq as (-> & Hc' & Hq). destruct (Z.eqb_spec c c') as [->|Hne].
      * destruct (IH (p + 1) (q + 1) l' fuel Hp Hq ltac:(lia)) as (r & -> & Hr). exists r. split; [done|]. rewrite Hr. naive_solver.
      * eexists. split; [done|]. split; [lia|]. intros [= -> _]. done.
Qed.

(** [strchr] in memory finds what it finds in the list. *)
Lemma strchr_str fuel m s c l :
  str_at m s l → (length l < fuel)%nat →
  Lib.strchr fuel m s c = Ok (match strchr l c with Some i => s + Z.of_nat i | None => 0 end).
Proof.
  revert s fuel. induction l as [|x l IH]; intros s [|fuel] Hs Hf; simpl in Hf; try lia; cbn [str_at] in Hs; cbn [Lib.strchr strchr].
  - by rewrite Hs.
  - destruct Hs as (-> & Hx & Hs). rewrite (proj2 (Z.eqb_neq x 0)) by done. cbn [negb]. destruct (x =? c); [f_equal; lia|].
    rewrite IH by (done || lia). destruct (strchr l c) as [i|]; [|done]. cbn [fmap option_fmap option_map]. f_equal. lia.
Qed.

(** ** Lines and numbers *)

(** [gets] takes the next line with its end, or as much of it as fits. *)
Lemma gets_loop_ok fuel input i max :
  0 ≤ i → max - i ≤ Z.of_nat fuel →
  let '(l, rest) := Lib.gets_loop fuel input i max in
  input = l ++ rest ∧ zlen l ≤ Z.max 0 (max - 1 - i) ∧ (∀ l1 c l2, l = l1 ++ c :: l2 → c = 10 ∨ c = 13 → l2 = []) ∧
  (zlen l < max - 1 - i → rest = [] ∨ ∃ l1 c, l = l1 ++ [c] ∧ (c = 10 ∨ c = 13)).
Proof.
  revert input i. induction fuel as [|fuel IH]; intros input i Hi Hf; cbn [Lib.gets_loop].
  { split; [done|]. change (zlen (@nil Z)) with 0. split; [lia|]. split; [by intros [] ?|lia]. }
  destruct (Z.ltb_spec (i + 1) max) as [Hlt|Hge].
  2:{ split; [done|]. change (zlen (@nil Z)) with 0. split; [lia|]. split; [by intros [] ?|lia]. }
  destruct input as [|c input].
  { split; [done|]. change (zlen (@nil Z)) with 0. split; [lia|]. split; [by intros [] ?|by left]. }
  destruct ((c =? 10) || (c =? 13)) eqn:Ec.
  { split; [done|]. change (zlen [c]) with 1. split; [lia|]. split; [intros [|? []] ? ?; naive_solver|].
    intros _. right. exists [], c. split; [done|lia]. }
  specialize (IH input (i + 1) ltac:(lia) ltac:(lia)). destruct (Lib.gets_loop fuel input (i + 1) max) as [l rest].
  destruct IH as (-> & H1 & H2 & H3). assert (El : zlen (c :: l) = zlen l + 1) by (unfold zlen; simpl; lia). rewrite El.
  split; [done|]. split; [lia|]. split.
  - intros [|c' l1] x l2 E Hx; cbn in E; injection E as <- E; [lia|by eapply H2].
  - intros Hl. destruct H3 as [->|(l1 & x & -> & Hx)]; [lia|by left|right]. by exists (c :: l1), x.
Qed.

Lemma digit_value c : (∃ d, digit_index User.digits c = Some d ∧ d < 10) ↔ 48 ≤ c ≤ 57.
Proof.
  split.
  - intros (d & E & Hd). cbn in E. repeat (match goal with H : context [Z.eqb ?a ?b] |- _ => destruct (Z.eqb_spec a b) end; [lia|]).
    exfalso. repeat (match goal with H : context [Z.eqb ?a ?b] |- _ => destruct (Z.eqb_spec a b) end; [cbn in E; injection E as <-; lia|]). done.
  - intros Hc. assert (c = 48 ∨ c = 49 ∨ c = 50 ∨ c = 51 ∨ c = 52 ∨ c = 53 ∨ c = 54 ∨ c = 55 ∨ c = 56 ∨ c = 57) as Hcs by lia.
    repeat destruct Hcs as [->|Hcs]; [..|subst c]; eexists; (split; [reflexivity|lia]).
Qed.

Lemma digit_index_decimal c d : digit_index User.digits c = Some d → d < 10 → c = 48 + d.
Proof.
  intros E Hd. assert (Hc : 48 ≤ c ≤ 57) by (apply digit_value; eauto).
  assert (c = 48 ∨ c = 49 ∨ c = 50 ∨ c = 51 ∨ c = 52 ∨ c = 53 ∨ c = 54 ∨ c = 55 ∨ c = 56 ∨ c = 57) as Hcs by lia.
  repeat destruct Hcs as [->|Hcs]; [..|subst c]; cbn in E; by injection E as <-.
Qed.

(** Reading digits only ever makes the number larger. *)
Lemma read_digits_mono l acc x : 0 ≤ acc → read_digits User.digits 10 acc l = Some x → acc ≤ x.
Proof.
  revert acc. induction l as [|c l IH]; intros acc Ha; cbn [read_digits]; [intros [= ->]; lia|].
  destruct (digit_index User.digits c) as [d|] eqn:E; [|done]. cbn [mbind option_bind]. destruct (Z.ltb_spec d 10) as [Hd|]; [|done].
  assert (0 ≤ d) by (assert (Hc : 48 ≤ c ≤ 57) by (apply digit_value; eauto); apply digit_index_decimal in E; lia).
  intros Hr%IH; lia.
Qed.

Lemma atoi_read l acc x :
  0 ≤ acc → x < 2 ^ 31 → read_digits User.digits 10 acc l = Some x → Lib.atoi_loop l acc = x.
Proof.
  revert acc. induction l as [|c l IH]; intros acc Ha Hx; cbn [read_digits Lib.atoi_loop]; [by intros [= ->]|].
  destruct (digit_index User.digits c) as [d|] eqn:E; [|done]. cbn [mbind option_bind]. destruct (Z.ltb_spec d 10) as [Hd|]; [|done].
  assert (Hc : 48 ≤ c ≤ 57) by (apply digit_value; eauto). pose proof (digit_index_decimal c d E Hd) as ->.
  intros H. rewrite (proj2 (Z.leb_le 48 _)), (proj2 (Z.leb_le _ 57)) by lia. cbn [andb].
  replace (acc * 10 + (48 + d) - 48) with (acc * 10 + d) by lia.
  pose proof (read_digits_mono l (acc * 10 + d) x ltac:(lia) H). rewrite i32_small by lia. by apply IH; [lia|..].
Qed.

(** [atoi] reads back what the [printf] of the same library prints for an
    [int] that is not negative. *)
Theorem atoi_printint x :
  0 ≤ x < 2 ^ 31 → ∃ l, User.printint x 10 true = Ok l ∧ Lib.atoi l = x.
Proof.
  intros Hx. destruct (signed_print User.digits 10 x (or_intror eq_refl) ltac:(lia) ltac:(lia)) as (l & E & Hr).
  exists l. split; [exact E|]. unfold Lib.atoi.
  destruct l as [|c l]; [done|]. unfold read_int in Hr. destruct (Z.eqb_spec c MINUS) as [->|_].
  - exfalso. destruct l as [|c l]; [done|]. cbn [fmap option_fmap option_map] in Hr.
    destruct ((c =? 48) && _); [done|]. destruct (read_digits User.digits 10 0 (c :: l)) as [y|] eqn:Ey; [|done].
    injection Hr as Hr. pose proof (read_digits_mono _ _ _ (Z.le_refl 0) Ey).
    assert (y = 0 ∧ x = 0) as [-> ->] by lia. cbn in E. discriminate E.
  - destruct ((c =? 48) && _); [done|]. by apply atoi_read; [lia|lia|].
Qed.

Lemma atoi_printint_witness : ∃ l, User.printint 2147483647 10 true = Ok l ∧ Lib.atoi l = 2147483647.
Proof. apply atoi_printint. lia. Defined.
