(* ===== verification/Grep.v ===== *)
(** * The pattern matcher and the line filter of [user/grep.c].

    Patterns and lines are C strings, lists of bytes without the final NUL. A
    reference semantics of patterns says which texts they match; the matcher
    decides it. *)

From Stdlib Require Import ZifyBool.
From S2P Require Import Prelude Ulib.

Definition CARET : Z := 94.
Definition DOLLAR : Z := 36.
Definition DOT : Z := 46.
Definition STAR : Z := 42.
Definition NEWLINE : Z := 10.

(** ** The matcher *)

(** [matchstar], with [here] for [matchhere] of the pattern behind the star. *)
Fixpoint matchstar (here : list Z → bool) (c : Z) (text : list Z) : bool :=
  if here text then true
  else match text with
       | t :: text' => if (t =? c) || (c =? DOT) then matchstar here c text' else false
       | [] => false
       end.

Fixpoint matchhere (re text : list Z) : bool :=
  match re with
  | [] => true
  | c :: re1 =>
      match re1 with
      | s :: re2 =>
          if s =? STAR then matchstar (matchhere re2) c text
          else match text with
               | t :: text' => if (c =? DOT) || (c =? t) then matchhere re1 text' else false
               | [] => false
               end
      | [] =>
          if c =? DOLLAR then match text with [] => true | _ => false end
          else match text with
               | t :: text' => if (c =? DOT) || (c =? t) then matchhere re1 text' else false
               | [] => false
               end
      end
  end.

(** The loop of [match]: the suffixes of the text, the empty one included. *)
Fixpoint match_loop (re text : list Z) : bool :=
  if matchhere re text then true
  else match text with t :: text' => match_loop re text' | [] => false end.

Definition re_match (re text : list Z) : bool :=
  match re with
  | c :: re1 => if c =? CARET then matchhere re1 text else match_loop re text
  | [] => match_loop re text
  end.

(** ** What a pattern means *)

(** A class of characters, one of it, any number of it, the end of the text. *)
Inductive cls := Lit (c : Z) | Any.
Inductive item := One (k : cls) | Many (k : cls) | End.

Definition in_cls (k : cls) (t : Z) : Prop := match k with Lit c => t = c | Any => True end.

Definition cls_of (c : Z) : cls := if c =? DOT then Any else Lit c.

(** The items of a pattern: a star belongs to the character before it, a dollar
    is special in the last place only. *)
Fixpoint items (re : list Z) : list item :=
  match re with
  | [] => []
  | c :: re1 =>
      match re1 with
      | s :: re2 => if s =? STAR then Many (cls_of c) :: items re2 else One (cls_of c) :: items re1
      | [] => if c =? DOLLAR then [End] else [One (cls_of c)]
      end
  end.

(** The text begins with something the items match. *)
Inductive begins : list item → list Z → Prop :=
| b_nil text : begins [] text
| b_one k l t text : in_cls k t → begins l text → begins (One k :: l) (t :: text)
| b_many k l pre text : Forall (in_cls k) pre → begins l text → begins (Many k :: l) (pre ++ text)
| b_end l : begins l [] → begins (End :: l) [].

(** A pattern matches at the start of the text if it begins with a caret, and
    anywhere in the text otherwise. *)
Definition matches (re text : list Z) : Prop :=
  match re with
  | c :: re1 => if c =? CARET then begins (items re1) text
                else ∃ pre post, text = pre ++ post ∧ begins (items re) post
  | [] => True
  end.

(** ** The matcher decides it *)

Lemma in_cls_of c t : in_cls (cls_of c) t ↔ (t =? c) || (c =? DOT) = true.
Proof. unfold cls_of. destruct (Z.eqb_spec c DOT); cbn; lia. Qed.

Lemma matchstar_ok here c l text :
  (∀ t, here t = true ↔ begins l t) →
  matchstar here c text = true ↔ begins (Many (cls_of c) :: l) text.
Proof.
  intros Hh. induction text as [|t text IH]; cbn [matchstar].
  - destruct (here []) eqn:E.
    + split; [intros _|done]. apply (b_many _ _ []); [constructor|by apply Hh].
    + split; [done|]. inversion 1 as [| |k i pre post Hp Hb Ep Et|]; subst. apply app_eq_nil in Et as [-> ->].
      apply Hh in Hb. congruence.
  - destruct (here (t :: text)) eqn:E.
    { split; [intros _|done]. apply (b_many _ _ []); [constructor|by apply Hh]. }
    destruct ((t =? c) || (c =? DOT)) eqn:Ec.
    + rewrite IH. split.
      * inversion 1 as [| |k i pre post Hp Hb Ep Et|]; subst. apply (b_many _ _ (t :: pre)); [|done].
        constructor; [by apply in_cls_of|done].
      * inversion 1 as [| |k i pre post Hp Hb Ep Et|]; subst. destruct pre as [|t' pre].
        -- cbn in Et. subst. apply Hh in Hb. congruence.
        -- injection Et as -> <-. apply b_many; [by inversion Hp|done].
    + split; [done|]. inversion 1 as [| |k i pre post Hp Hb Ep Et|]; subst. destruct pre as [|t' pre].
      * cbn in Et. subst. apply Hh in Hb. congruence.
      * injection Et as -> <-. apply Forall_cons in Hp as [Hp _]. apply in_cls_of in Hp. congruence.
Qed.

(** One character that is not followed by a star. *)
Lemma matchone_ok here c l text :
  (∀ t, here t = true ↔ begins l t) →
  match text with t :: text' => if (c =? DOT) || (c =? t) then here text' else false | [] => false end = true ↔
  begins (One (cls_of c) :: l) text.
Proof.
  intros Hh. destruct text as [|t text]; [split; [done|by inversion 1]|].
  replace ((c =? DOT) || (c =? t)) with ((t =? c) || (c =? DOT)) by lia. split.
  - destruct ((t =? c) || (c =? DOT)) eqn:E; [|done]. intros H. constructor; [by apply in_cls_of|by apply Hh].
  - inversion 1 as [|k i t' text' Hc Hb| |]; subst. apply in_cls_of in Hc. rewrite Hc. by apply Hh.
Qed.

Lemma matchhere_ok re text : matchhere re text = true ↔ begins (items re) text.
Proof.
  revert text. induction re as [re IH] using (induction_ltof1 _ length). unfold ltof in IH. intros text.
  destruct re as [|c [|s re2]].
  - split; [constructor|done].
  - cbn [matchhere items]. destruct (Z.eqb_spec c DOLLAR) as [_|_].
    + destruct text; [split; [repeat constructor|done]|split; [done|by inversion 1]].
    + apply (matchone_ok (λ _, true)). intros t. split; [constructor|done].
  - cbn [items]. destruct (Z.eqb_spec s STAR) as [->|Hs].
    + cbn [matchhere]. change (STAR =? STAR) with true. cbv iota. apply matchstar_ok. intros t. apply IH. simpl. lia.
    + replace (matchhere (c :: s :: re2) text) with
        (match text with t :: text' => if (c =? DOT) || (c =? t) then matchhere (s :: re2) text' else false | [] => false end).
      * apply matchone_ok. intros t. apply IH. simpl. lia.
      * cbn [matchhere]. by rewrite (proj2 (Z.eqb_neq s STAR)).
Qed.

Lemma match_loop_ok re text :
  match_loop re text = true ↔ ∃ pre post, text = pre ++ post ∧ begins (items re) post.
Proof.
  induction text as [|t text IH]; cbn [match_loop].
  - destruct (matchhere re []) eqn:E.
    + split; [intros _|done]. exists [], []. split; [done|]. by apply matchhere_ok.
    + split; [done|]. intros (pre & post & Et & Hb). symmetry in Et. apply app_eq_nil in Et as [_ ->].
      apply matchhere_ok in Hb. congruence.
  - destruct (matchhere re (t :: text)) eqn:E.
    + split; [intros _|done]. exists [], (t :: text). split; [done|]. by apply matchhere_ok.
    + rewrite IH. split.
      * intros (pre & post & -> & Hb). exists (t :: pre), post. done.
      * intros ([|t' pre] & post & Et & Hb); cbn in Et.
        -- subst. apply matchhere_ok in Hb. congruence.
        -- injection Et as _ ->. by exists pre, post.
Qed.

Lemma re_match_ok re text : re_match re text = true ↔ matches re text.
Proof.
  unfold re_match, matches. destruct re as [|c re1].
  - split; [done|]. intros _. apply match_loop_ok. exists [], text. split; [done|constructor].
  - destruct (c =? CARET); [apply matchhere_ok|apply match_loop_ok].
Qed.

(** ** Reading lines

    [read] is the system call on the open file: how many bytes of the rest of the
    file come in when [n] are asked for, and none at its end. *)

Class Reads (read : list Z → Z → Z) : Prop := {
  read_some rest n : 0 < n → rest ≠ [] → 0 < read rest n ≤ Z.min n (zlen rest);
  read_none rest n : n ≤ 0 ∨ rest = [] → read rest n = 0;
}.

Definition BUFSZ : Z := 1024.

(** The inner loop of [grep] on the bytes of the buffer from [p] on: what it
    prints, and the bytes that stay. *)
Fixpoint grep_lines (fuel : nat) (pattern p : list Z) : outcome (list Z * list Z) :=
  match fuel with
  | O => Hang
  | S fuel' =>
      match strchr p NEWLINE with
      | None => Ok ([], p)
      | Some q =>
          let line := take q p in
          '(out, p') ← grep_lines fuel' pattern (drop (S q) p);
          Ok ((if re_match pattern line then line ++ [NEWLINE] else []) ++ out, p')
      end
  end.

Section grep.
Context (read : list Z → Z → Z) {RD : Reads read}.

(** [buf] are the [m] bytes kept from before, [rest] is what is left to read. *)
Fixpoint grep (fuel : nat) (pattern buf rest : list Z) : outcome (list Z) :=
  match fuel with
  | O => Hang
  | S fuel' =>
      let n := read rest (BUFSZ - zlen buf - 1) in
      if 0 <? n then
        let buf1 := buf ++ take (Z.to_nat n) rest in
        '(out, buf2) ← grep_lines (S (length buf1)) pattern buf1;
        out' ← grep fuel' pattern buf2 (drop (Z.to_nat n) rest);
        Ok (out ++ out')
      else Ok []
  end.

(** ** What [grep] prints *)

(** The lines of a text; bytes behind the last newline are no line. *)
Fixpoint lines_from (line text : list Z) : list (list Z) :=
  match text with
  | [] => []
  | c :: text' => if c =? NEWLINE then line :: lines_from [] text' else lines_from (line ++ [c]) text'
  end.

Definition lines (text : list Z) : list (list Z) := lines_from [] text.

(** A line that does not fit the buffer ends the search. *)
Fixpoint until_long (ls : list (list Z)) : list (list Z) :=
  match ls with
  | l :: ls' => if zlen l + 1 <? BUFSZ then l :: until_long ls' else []
  | [] => []
  end.

Definition filtered (pattern : list Z) (ls : list (list Z)) : list Z :=
  concat ((λ l, if re_match pattern l then l ++ [NEWLINE] else []) <$> ls).

Definition greps (pattern text : list Z) : list Z := filtered pattern (until_long (lines text)).

Lemma lines_from_app line l text :
  NEWLINE ∉ l → lines_from line (l ++ text) = lines_from (line ++ l) text.
Proof using Type.
  revert line. induction l as [|c l IH]; intros line Hl; [by rewrite app_nil_r|]. rewrite elem_of_cons in Hl.
  cbn [app lines_from]. rewrite (proj2 (Z.eqb_neq c NEWLINE)) by (intros ->; tauto).
  rewrite IH by tauto. by rewrite <- app_assoc.
Qed.

Lemma lines_cons l text : NEWLINE ∉ l → lines (l ++ NEWLINE :: text) = l :: lines text.
Proof using Type. intros Hl. unfold lines. by rewrite lines_from_app. Qed.

Lemma lines_none l : NEWLINE ∉ l → lines l = [].
Proof using Type. intros Hl. unfold lines. rewrite <- (app_nil_r l) at 1. by rewrite lines_from_app. Qed.

(** The first line of a text that starts with [l] is no shorter than [l]. *)
Lemma lines_from_head line text l ls : lines_from line text = l :: ls → zlen line ≤ zlen l.
Proof using Type.
  revert line. induction text as [|c text IH]; intros line; cbn [lines_from]; [done|].
  destruct (c =? NEWLINE); [intros [= -> _]; lia|]. intros H%IH. unfold zlen in *. rewrite length_app in H. lia.
Qed.

Lemma greps_long pattern l text : NEWLINE ∉ l → BUFSZ ≤ zlen l + 1 → greps pattern (l ++ text) = [].
Proof using Type.
  intros Hl Hlen. unfold greps, lines. rewrite lines_from_app by done. cbn [app].
  destruct (lines_from l text) as [|l' ls] eqn:E; [done|]. apply lines_from_head in E. cbn [until_long].
  by rewrite (proj2 (Z.ltb_ge _ _)) by lia.
Qed.

Lemma strchr_Some s c q :
  strchr s c = Some q → ∃ post, s = take q s ++ c :: post ∧ drop (S q) s = post ∧ c ∉ take q s.
Proof using Type.
  revert q. induction s as [|x s IH]; intros q; cbn [strchr]; [done|]. destruct (x =? 0); [done|].
  destruct (Z.eqb_spec x c) as [->|Hx].
  - intros [= <-]. exists s. split; [done|]. split; [done|]. apply not_elem_of_nil.
  - destruct (strchr s c) as [k|]; [|done]. intros [= <-]. destruct (IH k eq_refl) as (post & E & Ed & Hn).
    exists post. cbn. split; [by rewrite <- E|]. split; [done|]. rewrite elem_of_cons. naive_solver.
Qed.

Lemma strchr_None s c : (0 ∉ s) → strchr s c = None → c ∉ s.
Proof using Type.
  induction s as [|x s IH]; intros Hz; cbn [strchr]; [intros _; apply not_elem_of_nil|]. rewrite elem_of_cons in Hz.
  rewrite (proj2 (Z.eqb_neq x 0)) by (intros ->; tauto). destruct (Z.eqb_spec x c) as [->|Hx]; [done|].
  destruct (strchr s c); [done|]. intros _. rewrite elem_of_cons. intros [E|Hin]; [congruence|]. apply IH; tauto.
Qed.

(** The inner loop prints the lines that end in the buffer. *)
Lemma grep_lines_ok fuel pattern p rest :
  0 ∉ p → zlen p < BUFSZ → (length p < fuel)%nat →
  ∃ out p', grep_lines fuel pattern p = Ok (out, p') ∧ NEWLINE ∉ p' ∧ 0 ∉ p' ∧ zlen p' ≤ zlen p ∧
    greps pattern (p ++ rest) = out ++ greps pattern (p' ++ rest).
Proof using Type.
  revert p. induction fuel as [|fuel IH]; intros p Hz Hl Hf; [lia|]. cbn [grep_lines].
  destruct (strchr p NEWLINE) as [q|] eqn:E.
  2:{ exists [], p. split; [done|]. split; [by apply strchr_None|]. split; [done|]. split; [lia|done]. }
  destruct (strchr_Some _ _ _ E) as (post & Ep & -> & Hn). set (line := take q p) in *.
  assert (Hlen : zlen p = zlen line + 1 + zlen post) by (rewrite Ep; unfold zlen; rewrite length_app; simpl; lia).
  destruct (IH post) as (out & p' & -> & H1 & H2 & H3 & H4).
  { intros Hin. apply Hz. rewrite Ep, elem_of_app, elem_of_cons. auto. } { unfold zlen in *. lia. } { unfold zlen in *. lia. }
  rewrite bind_Ok. eexists _, p'. split; [done|]. split; [done|]. split; [done|]. split; [unfold zlen in *; lia|].
  rewrite Ep at 1. rewrite <- app_assoc. cbn [app]. unfold greps at 1. rewrite lines_cons by done. cbn [until_long].
  rewrite (proj2 (Z.ltb_lt _ _)) by (unfold zlen in *; lia). unfold filtered. cbn [fmap list_fmap concat].
  rewrite <- app_assoc. f_equal. exact H4.
Qed.

Lemma grep_loop_ok fuel pattern buf rest :
  0 ∉ buf ++ rest → NEWLINE ∉ buf → zlen buf < BUFSZ → (length rest < fuel)%nat →
  grep fuel pattern buf rest = Ok (greps pattern (buf ++ rest)).
Proof using RD.
  revert buf rest. induction fuel as [|fuel IH]; intros buf rest Hz Hnl Hl Hf; [lia|]. cbn [grep].
  destruct (decide (BUFSZ - zlen buf - 1 ≤ 0 ∨ rest = [])) as [Hno|Hyes].
  - rewrite read_none by done. cbn. destruct Hno as [Hfull| ->]; [by rewrite greps_long by (done || lia)|].
    unfold greps. rewrite app_nil_r, lines_none by done. done.
  - apply Decidable.not_or in Hyes as [Hn Hne]. pose proof (read_some rest (BUFSZ - zlen buf - 1) ltac:(lia) Hne) as Hr.
    set (n := read rest (BUFSZ - zlen buf - 1)) in *. rewrite (proj2 (Z.ltb_lt 0 n)) by lia.
    set (rest' := drop (Z.to_nat n) rest). assert (Er : rest = take (Z.to_nat n) rest ++ rest') by (unfold rest'; by rewrite take_drop).
    assert (Hlt : length (take (Z.to_nat n) rest) = Z.to_nat n) by (rewrite length_take; unfold zlen in Hr; lia).
    destruct (grep_lines_ok (S (length (buf ++ take (Z.to_nat n) rest))) pattern (buf ++ take (Z.to_nat n) rest) rest')
      as (out & p' & -> & H1 & H2 & H3 & H4).
    + intros [Hin|Hin]%elem_of_app; apply Hz, elem_of_app; [by left|right]. rewrite Er. apply elem_of_app. by left.
    + unfold zlen in *. rewrite length_app, Hlt. lia.
    + lia.
    + rewrite bind_Ok. rewrite IH.
      * rewrite bind_Ok. f_equal. rewrite <- H4. by rewrite <- app_assoc, <- Er.
      * intros [Hin|Hin]%elem_of_app; [done|]. apply Hz, elem_of_app. right. rewrite Er. apply elem_of_app. by right.
      * done.
      * unfold zlen in *. rewrite length_app, Hlt in H3. lia.
      * unfold rest'. rewrite length_drop. unfold zlen in *. lia.
Qed.

(** C18: [grep] on a text without NULs. However the reads cut the text into pieces,
    it ends and prints exactly the lines that match the pattern, in order and each
    with its newline, up to the first line that does not fit the buffer; a line
    matches if the pattern, read as characters, dots, stars and anchors, matches
    at its start (after a caret) or somewhere in it. *)
Theorem grep_correct pattern text :
  0 ∉ text →
  (∀ line, re_match pattern line = true ↔ matches pattern line) ∧
  grep (S (length text)) pattern [] text = Ok (filtered pattern (until_long (lines text))).
Proof using RD.
  intros Hz. split; [intros line; apply re_match_ok|]. apply grep_loop_ok; try done; [apply not_elem_of_nil|lia].
Qed.
End grep.

(** Reads of at most three bytes. *)
Definition read3 (rest : list Z) (n : Z) : Z := Z.min 3 (Z.min (Z.max n 0) (zlen rest)).

#[global] Instance read3_reads : Reads read3.
Proof.
  constructor; intros rest n; unfold read3, zlen.
  - intros Hn Hr. destruct rest; [done|]. simpl. lia.
  - intros [Hn| ->]; simpl; lia.
Qed.

(** The pattern "^ab*.$" on four lines, the last without a newline. *)
Lemma grep_correct_witness :
  grep read3 17 (chars "^ab*.$") [] (chars "abbc" ++ [10] ++ chars "xabc" ++ [10] ++ chars "ac" ++ [10] ++ chars "abc") =
  Ok (chars "abbc" ++ [10] ++ chars "ac" ++ [10]).
Proof.
  refine (eq_trans (proj2 (grep_correct read3 (chars "^ab*.$")
    (chars "abbc" ++ [10] ++ chars "xabc" ++ [10] ++ chars "ac" ++ [10] ++ chars "abc") _)) _).
  - apply (bool_decide_eq_true_1 _). vm_compute. reflexivity.
  - vm_compute. reflexivity.
Defined.
