(* ===== verification/Wc.v ===== *)
(** * Counting and copying: [user/wc.c] and [user/cat.c].

    Both read their input through a fixed buffer; the results do not depend on how
    the reads cut it into pieces. *)

From Stdlib Require Import ZifyBool.
From S2P Require Import Prelude Ulib Grep.

(** ** [wc] *)

Definition WCBUF : Z := 512.

Record counts := mk_counts { c_l : Z; c_w : Z; c_c : Z; c_inword : bool }.

(** [strchr(" \r\t\n\v", c)] *)
Definition wc_space (c : Z) : bool := bool_decide (is_Some (strchr [32; 13; 9; 10; 11] c)).

(** One turn of the inner loop; the counters are [int]s. *)
Definition wc_byte (k : counts) (b : Z) : counts :=
  let l := if b =? 10 then i32 (c_l k + 1) else c_l k in
  let c := i32 (c_c k + 1) in
  if wc_space b then mk_counts l (c_w k) c false
  else if negb (c_inword k) then mk_counts l (i32 (c_w k + 1)) c true
  else mk_counts l (c_w k) c (c_inword k).

(** What a read gives: an error or some bytes of the rest. *)
Fixpoint wc_loop (fuel : nat) (read : list Z → Z → Z) (k : counts) (rest : list Z) : outcome (option counts) :=
  match fuel with
  | O => Hang
  | S fuel' =>
      let n := read rest WCBUF in
      if 0 <? n then wc_loop fuel' read (fold_left wc_byte (take (Z.to_nat n) rest) k) (drop (Z.to_nat n) rest)
      else if n <? 0 then Ok None else Ok (Some k)
  end.

Definition wc (fuel : nat) (read : list Z → Z → Z) (text : list Z) : outcome (option counts) :=
  wc_loop fuel read (mk_counts 0 0 0 false) text.

(** ** [cat] *)

(** [write] says how many bytes of a piece get out. *)
Fixpoint cat (fuel : nat) (read : list Z → Z → Z) (write : list Z → Z) (rest : list Z) : outcome (Z * list Z) :=
  match fuel with
  | O => Hang
  | S fuel' =>
      let n := read rest WCBUF in
      if 0 <? n then
        let piece := take (Z.to_nat n) rest in
        let out := take (Z.to_nat (write piece)) piece in
        if negb (write piece =? n) then Ok (1, out)
        else '(r, out') ← cat fuel' read write (drop (Z.to_nat n) rest); Ok (r, out ++ out')
      else if n <? 0 then Ok (1, []) else Ok (0, [])
  end.

(** ** The loops see the whole text *)

Section loops.
Context (read : list Z → Z → Z) {RD : Reads read}.

Lemma wc_loop_ok fuel k rest :
  (length rest < fuel)%nat → wc_loop fuel read k rest = Ok (Some (fold_left wc_byte rest k)).
Proof using RD.
  revert k rest. induction fuel as [|fuel IH]; intros k rest Hf; [lia|]. cbn [wc_loop].
  destruct (decide (rest = [])) as [->|Hne]; [by rewrite read_none by auto|].
  pose proof (read_some rest WCBUF ltac:(done) Hne) as Hr. rewrite (proj2 (Z.ltb_lt 0 _)) by lia.
  rewrite IH by (rewrite length_drop; unfold zlen in Hr; lia). by rewrite <- fold_left_app, take_drop.
Qed.

(** [cat] copies its input to its output unchanged and succeeds, as long as
    reads and writes do. *)
Theorem cat_correct write text :
  (∀ piece, write piece = zlen piece) → cat (S (length text)) read write text = Ok (0, text).
Proof using RD.
  intros Hw. assert (Hf : (length text < S (length text))%nat) by lia. revert Hf. generalize (S (length text)) as fuel.
  intros fuel. revert text. induction fuel as [|fuel IH]; intros rest Hf; [lia|]. cbn [cat].
  destruct (decide (rest = [])) as [->|Hne]; [by rewrite read_none by auto|].
  pose proof (read_some rest WCBUF ltac:(done) Hne) as Hr. set (n := read rest WCBUF) in *. rewrite (proj2 (Z.ltb_lt 0 _)) by lia.
  rewrite Hw. assert (El : zlen (take (Z.to_nat n) rest) = n) by (unfold zlen in *; rewrite length_take; lia).
  rewrite El, Z.eqb_refl. cbn [negb]. rewrite IH by (rewrite length_drop; unfold zlen in Hr; lia). rewrite bind_Ok.
  rewrite take_take, Nat.min_id. by rewrite take_drop.
Qed.
End loops.

(** ** What [wc] counts *)

(** The pieces of a text between white space; the words are those with something
    in them. *)
Fixpoint wc_pieces (text : list Z) : list (list Z) :=
  match text with
  | [] => [[]]
  | c :: text' =>
      if wc_space c then [] :: wc_pieces text'
      else match wc_pieces text' with
           | p :: ps => (c :: p) :: ps
           | [] => [[c]]
           end
  end.

Definition words (text : list Z) : list (list Z) := filter (λ p, p ≠ []) (wc_pieces text).

Definition newlines (text : list Z) : list Z := filter (λ c, c = 10) text.

(** The words that start in [text] when the text before it ends inside a word, or
    does not. *)
Definition fresh_words (inword : bool) (text : list Z) : Z :=
  match wc_pieces text with
  | p :: ps => zlen (filter (λ p, p ≠ []) ps) + (if inword then 0 else if decide (p = []) then 0 else 1)
  | [] => 0
  end.

Lemma fresh_words_false text : fresh_words false text = zlen (words text).
Proof.
  unfold fresh_words, words. destruct (wc_pieces text) as [|p ps]; [done|]. rewrite filter_cons. unfold zlen.
  destruct (decide (p = [])), (decide (p ≠ [])); try done; simpl; lia.
Qed.

Lemma fresh_words_cons inword c text :
  fresh_words inword (c :: text) =
  if wc_space c then fresh_words false text else (if inword then 0 else 1) + fresh_words true text.
Proof.
  unfold fresh_words. cbn [wc_pieces]. destruct (wc_space c).
  - assert (E : wc_pieces text ≠ []) by (destruct text; cbn [wc_pieces]; [done|repeat case_match; done]).
    destruct (wc_pieces text) as [|p ps]; [done|]. rewrite filter_cons. unfold zlen.
    destruct inword, (decide (p = [])), (decide (p ≠ [])); try done; simpl; lia.
  - destruct (wc_pieces text) as [|p ps]; [by destruct inword|]. rewrite decide_False by done. destruct inword; cbv iota; lia.
Qed.

Lemma wc_fold text : ∀ l w c inword,
  0 ≤ l → 0 ≤ w → 0 ≤ c → l + zlen text < 2 ^ 31 → w + zlen text < 2 ^ 31 → c + zlen text < 2 ^ 31 →
  let k := fold_left wc_byte text (mk_counts l w c inword) in
  c_l k = l + zlen (newlines text) ∧ c_w k = w + fresh_words inword text ∧ c_c k = c + zlen text.
Proof.
  induction text as [|b text IH]; intros l w c inword Hl Hw Hc H1 H2 H3; cbn [fold_left].
  { replace (fresh_words inword []) with 0 by (by destruct inword). change (zlen (newlines [])) with 0.
    change (zlen (@nil Z)) with 0. cbn [c_l c_w c_c]. lia. }
  assert (El : zlen (b :: text) = zlen text + 1) by (unfold zlen; simpl; lia). rewrite El in *.
  assert (Hz : 0 ≤ zlen text) by (unfold zlen; lia).
  assert (En : zlen (newlines (b :: text)) = (if b =? 10 then 1 else 0) + zlen (newlines text)).
  { unfold newlines, zlen. rewrite filter_cons. destruct (decide (b = 10)), (Z.eqb_spec b 10); try done; simpl; lia. }
  set (l' := if b =? 10 then l + 1 else l). assert (0 ≤ l' ≤ l + 1) by (unfold l'; zcase; lia).
  set (w' := if wc_space b then w else if inword then w else w + 1).
  assert (0 ≤ w' ≤ w + 1) by (unfold w'; destruct (wc_space b), inword; lia).
  assert (Ek : wc_byte (mk_counts l w c inword) b = mk_counts l' w' (c + 1) (negb (wc_space b))).
  { unfold wc_byte, l', w'. cbn [c_l c_w c_c c_inword]. rewrite !i32_small by lia. by destruct (wc_space b), inword. }
  cbv zeta. rewrite Ek, En, fresh_words_cons. destruct (IH l' w' (c + 1) (negb (wc_space b))) as (E1 & E2 & E3); try lia.
  rewrite E1, E2, E3. unfold l', w'. split; [zcase; lia|]. split; [|lia]. destruct (wc_space b), inword; cbn [negb]; lia.
Qed.

(** [wc] counts the newlines, the words (the non-empty pieces between white
    space) and the bytes of its input, of less than 2 GB, however the reads cut
    it. *)
Theorem wc_correct read text :
  Reads read → zlen text < 2 ^ 31 →
  ∃ k, wc (S (length text)) read text = Ok (Some k) ∧
    c_l k = zlen (newlines text) ∧ c_w k = zlen (words text) ∧ c_c k = zlen text.
Proof.
  intros RD Hl. unfold wc. rewrite (wc_loop_ok read) by lia. eexists. split; [done|].
  destruct (wc_fold text 0 0 0 false) as (-> & -> & ->); try lia. by rewrite fresh_words_false.
Qed.

Lemma cat_correct_witness : cat 6 read3 zlen (chars "hello") = Ok (0, chars "hello").
Proof. apply (cat_correct read3 zlen (chars "hello")). done. Defined.

Lemma wc_correct_witness :
  ∃ k, wc 15 read3 (chars "two  words" ++ [10] ++ chars "ab" ++ [10]) = Ok (Some k) ∧ c_l k = 2 ∧ c_w k = 3 ∧ c_c k = 14.
Proof.
  destruct (wc_correct read3 (chars "two  words" ++ [10] ++ chars "ab" ++ [10])) as (k & E & El & Ew & Ec).
  - exact read3_reads.
  - done.
  - exists k. split; [exact E|]. rewrite El, Ew, Ec. vm_compute. done.
Defined.
