(* ===== verification/Sh.v ===== *)
(** * The shell: [user/sh.c].

    The command line is a buffer of bytes without the final NUL; a [char*] into it
    is an index, and reading at the end gives the NUL. The parser builds commands
    whose strings are still pairs of a start and an end in the line;
    [nulterminate] cuts them out in place. [malloc] is taken to succeed, as the
    code does. [runcmd] and [main] are in ShRun. *)

From Stdlib Require Import ZifyBool.
From S2P Require Import Prelude Fcntl Ulib.

(** ** Data *)

Definition MAXARGS : Z := 10.

(** [struct cmd] and its five kinds; strings are of type [A]. *)
Inductive cmd (A : Type) :=
| EXEC (argv : list A)
| REDIR (c : cmd A) (file : A) (mode fd : Z)
| PIPE (left right : cmd A)
| LIST (left right : cmd A)
| BACK (c : cmd A).
Arguments EXEC {A} argv.
Arguments REDIR {A} c file mode fd.
Arguments PIPE {A} left right.
Arguments LIST {A} left right.
Arguments BACK {A} c.

(** The start and the end of a string in the line. *)
Definition span : Type := Z * Z.

Definition whitespace : list Z := [32; 9; 13; 10; 11].
Definition symbols : list Z := chars "<|>&;()".

Definition is_space (c : Z) : bool := if strchr whitespace c then true else false.
Definition is_symbol (c : Z) : bool := if strchr symbols c then true else false.

(** [*s] *)
Definition chr (buf : list Z) (s : Z) : Z := default 0 (buf !! Z.to_nat s).

(** ** Tokens *)

(** [while (s < es && strchr(whitespace, *s)) s++], with [n] bytes to go. *)
Fixpoint skip_space (n : nat) (buf : list Z) (s es : Z) : Z :=
  match n with
  | O => s
  | S n' => if (s <? es) && is_space (chr buf s) then skip_space n' buf (s + 1) es else s
  end.

Fixpoint skip_word (n : nat) (buf : list Z) (s es : Z) : Z :=
  match n with
  | O => s
  | S n' =>
      if (s <? es) && negb (is_space (chr buf s)) && negb (is_symbol (chr buf s)) then skip_word n' buf (s + 1) es
      else s
  end.

Definition spaces (buf : list Z) (s es : Z) : Z := skip_space (Z.to_nat (es - s)) buf s es.

(** The token, its start and end, and the new [*ps]. *)
Definition gettoken (buf : list Z) (es ps : Z) : Z * span * Z :=
  let q := spaces buf ps es in
  let c := chr buf q in
  let '(ret, s) :=
    if c =? 0 then (c, q)
    else if (c =? 124) || (c =? 40) || (c =? 41) || (c =? 59) || (c =? 38) || (c =? 60) then (c, q + 1)
    else if c =? 62 then if chr buf (q + 1) =? 62 then (43, q + 2) else (c, q + 1)
    else (97, skip_word (Z.to_nat (es - q)) buf q es) in
  (ret, (q, s), spaces buf s es).

(** Whether the next byte is one of [toks], and the new [*ps]. *)
Definition peek (buf : list Z) (es ps : Z) (toks : list Z) : bool * Z :=
  let s := spaces buf ps es in
  (negb (chr buf s =? 0) && (if strchr toks (chr buf s) then true else false), s).

(** ** The parser *)

(** The commands that [parseredirs] wraps around its argument, innermost first. In
    [parseexec] the argument is still growing when they are made. *)
Record redir := mk_redir { rd_file : span; rd_mode : Z; rd_fd : Z }.

Definition wrap {A} (f : redir → A) (c : cmd A) (rs : list redir) : cmd A :=
  fold_left (λ c r, REDIR c (f r) (rd_mode r) (rd_fd r)) rs c.

Fixpoint parseredirs (fuel : nat) (buf : list Z) (es ps : Z) : outcome (list redir * Z) :=
  match fuel with
  | O => Hang
  | S fuel' =>
      let '(more, ps) := peek buf es ps (chars "<>") in
      if more then
        let '(tok, _, ps) := gettoken buf es ps in
        let '(t, q, ps) := gettoken buf es ps in
        if negb (t =? 97) then Panic "missing file for redirection"
        else
          let r := if tok =? 60 then [mk_redir q O_RDONLY 0]
                   else if tok =? 62 then [mk_redir q (Z.lor (Z.lor O_WRONLY O_CREATE) O_TRUNC) 1]
                   else if tok =? 43 then [mk_redir q (Z.lor O_WRONLY O_CREATE) 1]
                   else [] in
          '(rs, ps) ← parseredirs fuel' buf es ps;
          Ok (r ++ rs, ps)
      else Ok ([], ps)
  end.

(** The loop of [parseexec]: [argv] and [rs] are what was found so far. *)
Fixpoint parseargs (fuel : nat) (buf : list Z) (es ps : Z) (argv : list span) (rs : list redir)
    : outcome (cmd span * Z) :=
  match fuel with
  | O => Hang
  | S fuel' =>
      let '(stop, ps) := peek buf es ps (chars "|)&;") in
      if stop then Ok (wrap rd_file (EXEC argv) rs, ps)
      else
        let '(tok, q, ps) := gettoken buf es ps in
        if tok =? 0 then Ok (wrap rd_file (EXEC argv) rs, ps)
        else if negb (tok =? 97) then Panic "syntax"
        else
          let argv := argv ++ [q] in
          if MAXARGS <=? zlen argv then Panic "too many args"
          else
            '(rs', ps) ← parseredirs fuel' buf es ps;
            parseargs fuel' buf es ps argv (rs ++ rs')
  end.

(** [while (peek(ps, es, "&"))] of [parseline]. *)
Fixpoint parseback (fuel : nat) (buf : list Z) (es ps : Z) (c : cmd span) : outcome (cmd span * Z) :=
  match fuel with
  | O => Hang
  | S fuel' =>
      let '(more, ps) := peek buf es ps (chars "&") in
      if more then
        let '(_, _, ps) := gettoken buf es ps in
        parseback fuel' buf es ps (BACK c)
      else Ok (c, ps)
  end.

Fixpoint parseline (fuel : nat) (buf : list Z) (es ps : Z) : outcome (cmd span * Z) :=
  match fuel with
  | O => Hang
  | S fuel' =>
      '(c, ps) ← parsepipe fuel' buf es ps;
      '(c, ps) ← parseback fuel' buf es ps c;
      let '(more, ps) := peek buf es ps (chars ";") in
      if more then
        let '(_, _, ps) := gettoken buf es ps in
        '(r, ps) ← parseline fuel' buf es ps;
        Ok (LIST c r, ps)
      else Ok (c, ps)
  end
with parsepipe (fuel : nat) (buf : list Z) (es ps : Z) : outcome (cmd span * Z) :=
  match fuel with
  | O => Hang
  | S fuel' =>
      '(c, ps) ← parseexec fuel' buf es ps;
      let '(more, ps) := peek buf es ps (chars "|") in
      if more then
        let '(_, _, ps) := gettoken buf es ps in
        '(r, ps) ← parsepipe fuel' buf es ps;
        Ok (PIPE c r, ps)
      else Ok (c, ps)
  end
with parseexec (fuel : nat) (buf : list Z) (es ps : Z) : outcome (cmd span * Z) :=
  match fuel with
  | O => Hang
  | S fuel' =>
      let '(block, ps) := peek buf es ps (chars "(") in
      if block then parseblock fuel' buf es ps
      else
        '(rs, ps) ← parseredirs fuel' buf es ps;
        parseargs fuel' buf es ps [] rs
  end
with parseblock (fuel : nat) (buf : list Z) (es ps : Z) : outcome (cmd span * Z) :=
  match fuel with
  | O => Hang
  | S fuel' =>
      let '(open, ps) := peek buf es ps (chars "(") in
      if negb open then Panic "parseblock"
      else
        let '(_, _, ps) := gettoken buf es ps in
        '(c, ps) ← parseline fuel' buf es ps;
        let '(close, ps) := peek buf es ps (chars ")") in
        if negb close then Panic "syntax - missing )"
        else
          let '(_, _, ps) := gettoken buf es ps in
          '(rs, ps) ← parseredirs fuel' buf es ps;
          Ok (wrap rd_file c rs, ps)
  end.

(** A NUL at the end of every string. *)
Definition put_nul (buf : list Z) (e : Z) : list Z := <[Z.to_nat e := 0]> buf.

Fixpoint nulterminate (buf : list Z) (c : cmd span) : list Z :=
  match c with
  | EXEC argv => fold_left (λ b q, put_nul b q.2) argv buf
  | REDIR c' file _ _ => put_nul (nulterminate buf c') file.2
  | PIPE l r | LIST l r => nulterminate (nulterminate buf l) r
  | BACK c' => nulterminate buf c'
  end.

(** Every function call consumes fuel and at most five are made per byte. *)
Definition parse_fuel (buf : list Z) : nat := 5 * length buf + 10.

Definition parsecmd (buf : list Z) : outcome (cmd span * list Z) :=
  let es := zlen buf in
  '(c, ps) ← parseline (parse_fuel buf) buf es 0;
  let '(_, ps) := peek buf es ps [] in
  if negb (ps =? es) then Panic "syntax"
  else Ok (c, nulterminate buf c).

(** The string at [q] in the buffer. *)
Fixpoint upto_nul (l : list Z) : list Z :=
  match l with c :: l' => if c =? 0 then [] else c :: upto_nul l' | [] => [] end.

Definition cstr (buf : list Z) (q : Z) : list Z := upto_nul (drop (Z.to_nat q) buf).

Fixpoint map_cmd {A B} (f : A → B) (c : cmd A) : cmd B :=
  match c with
  | EXEC argv => EXEC (f <$> argv)
  | REDIR c' file mode fd => REDIR (map_cmd f c') (f file) mode fd
  | PIPE l r => PIPE (map_cmd f l) (map_cmd f r)
  | LIST l r => LIST (map_cmd f l) (map_cmd f r)
  | BACK c' => BACK (map_cmd f c')
  end.

(** The command as [runcmd] sees it: with the strings its pointers lead to. *)
Definition strings (buf : list Z) (c : cmd span) : cmd (list Z) := map_cmd (λ q, cstr buf q.1) c.
