(* ===== verification/ShParse.v ===== *)
(** * The parser of the shell ends on every line, and the strings of the commands
    it builds are words of the line. *)

From Stdlib Require Import ZifyBool.
From S2P Require Import Prelude Fcntl Ulib Sh.

Definition wordc (c : Z) : bool := negb (is_space c) && negb (is_symbol c).

(** The strings of a command, in the order of [nulterminate]. *)
Fixpoint spans (c : cmd span) : list span :=
  match c with
  | EXEC argv => argv
  | REDIR c' file _ _ => spans c' ++ [file]
  | PIPE l r | LIST l r => spans l ++ spans r
  | BACK c' => spans c'
  end.

(** The bytes of a string in the line. *)
Definition slice_of (buf : list Z) (q : span) : list Z := take (Z.to_nat (q.2 - q.1)) (drop (Z.to_nat q.1) buf).

(** A maximal run of word characters. *)
Record word_at (buf : list Z) (q : span) : Prop := {
  wa_range : 0 ≤ q.1 < q.2 ∧ q.2 ≤ zlen buf;
  wa_word : ∀ i, q.1 ≤ i < q.2 → wordc (chr buf i) = true;
  wa_end : q.2 = zlen buf ∨ wordc (chr buf q.2) = false;
}.

(** ** Tokens *)

Section line.
Context (buf : list Z) (Hnul : 0 ∉ buf).
Let es := zlen buf.

Lemma chr_end s : es ≤ s → chr buf s = 0.
Proof using Type. intros H. unfold chr. rewrite lookup_ge_None_2; [done|]. unfold es, zlen in H. lia. Qed.

Lemma chr_inside s : 0 ≤ s < es → chr buf s ≠ 0.
Proof using Hnul.
  intros H. unfold chr, es, zlen in *. destruct (lookup_lt_is_Some_2 buf (Z.to_nat s)) as [c Hc]; [lia|]. rewrite Hc.
  intros E. apply Hnul. cbn in E. subst. by eapply list_elem_of_lookup_2.
Qed.

Lemma skip_space_ok n s :
  s ≤ es → es - s ≤ Z.of_nat n →
  let r := skip_space n buf s es in
  s ≤ r ≤ es ∧ (r = es ∨ is_space (chr buf r) = false).
Proof using Type.
  revert s. induction n as [|n IH]; intros s Hs Hn; cbn [skip_space].
  { split; [lia|]. left. lia. }
  destruct (Z.ltb_spec s es) as [Hlt|]; cbn [andb]; [|split; [lia|]; left; lia].
  destruct (is_space (chr buf s)) eqn:E; [|split; [lia|by right]].
  destruct (IH (s + 1) ltac:(lia) ltac:(lia)) as [Hr Hend]. split; [lia|done].
Qed.

Lemma spaces_ok s : s ≤ es → s ≤ spaces buf s es ≤ es ∧ (spaces buf s es = es ∨ is_space (chr buf (spaces buf s es)) = false).
Proof using Type. intros Hs. apply skip_space_ok; [done|lia]. Qed.

Lemma skip_word_ok n s :
  s ≤ es → es - s ≤ Z.of_nat n →
  let r := skip_word n buf s es in
  s ≤ r ≤ es ∧ (∀ i, s ≤ i < r → wordc (chr buf i) = true) ∧ (r = es ∨ wordc (chr buf r) = false).
Proof using Type.
  revert s. induction n as [|n IH]; intros s Hs Hn; cbn [skip_word].
  { split; [lia|]. split; [lia|]. left. lia. }
  destruct (Z.ltb_spec s es) as [Hlt|]; cbn [andb]; [|split; [lia|]; split; [lia|]; left; lia].
  fold (wordc (chr buf s)). destruct (wordc (chr buf s)) eqn:E; [|split; [lia|]; split; [lia|by right]].
  destruct (IH (s + 1) ltac:(lia) ltac:(lia)) as (Hr & Hw & Hend). split; [lia|]. split; [|done].
  intros i Hi. destruct (decide (i = s)) as [->|]; [done|]. apply Hw. lia.
Qed.

(** The bytes that [gettoken] treats one by one are the symbols. *)
Lemma symbol_cases c :
  is_symbol c = (c =? 124) || (c =? 40) || (c =? 41) || (c =? 59) || (c =? 38) || (c =? 60) || (c =? 62).
Proof using Type.
  unfold is_symbol. change symbols with [60; 124; 62; 38; 59; 40; 41]. cbn [strchr]. 
  destruct (decide (c ∈ [60; 124; 62; 38; 59; 40; 41])) as [Hin|Hin].
  { by repeat (apply elem_of_cons in Hin as [->|Hin]; [reflexivity|]); apply elem_of_nil in Hin. }
  rewrite !not_elem_of_cons in Hin. destruct Hin as (? & ? & ? & ? & ? & ? & ? & _).
  by rewrite !(proj2 (Z.eqb_neq _ c)), !(proj2 (Z.eqb_neq c _)) by done.
Qed.

Lemma gettoken_ok ps :
  0 ≤ ps ≤ es →
  let '(ret, q, ps') := gettoken buf es ps in
  ps ≤ q.1 ≤ q.2 ∧ q.2 ≤ ps' ≤ es ∧ (ret = 97 → word_at buf q) ∧ (ret ≠ 0 → q.1 < q.2).
Proof using Hnul.
  intros Hps. unfold gettoken. destruct (spaces_ok ps ltac:(lia)) as [Hq Hqe]. set (q := spaces buf ps es) in *.
  set (c := chr buf q). destruct (Z.eqb_spec c 0) as [Ez|Hnz].
  { cbn [fst snd]. destruct (spaces_ok q ltac:(lia)) as [H1 _]. split; [lia|]. split; [lia|]. rewrite Ez. split; lia. }
  assert (Hlt : q < es). { destruct (decide (q = es)) as [E|]; [|lia]. destruct Hnz. unfold c. rewrite E. by apply chr_end; lia. }
  destruct ((c =? 124) || (c =? 40) || (c =? 41) || (c =? 59) || (c =? 38) || (c =? 60)) eqn:Es.
  { cbn [fst snd]. destruct (spaces_ok (q + 1) ltac:(lia)) as [H1 _]. split; [lia|]. split; [lia|]. split; [|lia]. intros E. rewrite E in Es. done. }
  destruct (Z.eqb_spec c 62) as [E62|H62].
  { destruct (Z.eqb_spec (chr buf (q + 1)) 62) as [E2|E2]; cbn [fst snd].
    - assert (q + 1 < es). { destruct (decide (q + 1 < es)); [done|]. rewrite chr_end in E2 by lia. done. }
      destruct (spaces_ok (q + 2) ltac:(lia)) as [H1 _]. split; [lia|]. split; [lia|]. split; [done|lia].
    - destruct (spaces_ok (q + 1) ltac:(lia)) as [H1 _]. split; [lia|]. split; [lia|]. split; [lia|lia]. }
  destruct (skip_word_ok (Z.to_nat (es - q)) q ltac:(lia) ltac:(lia)) as (Hr & Hw & Hend). set (s := skip_word _ _ _ _) in *.
  cbn [fst snd]. assert (Hs : q < s).
  { destruct (decide (q < s)) as [|Hn]; [done|]. assert (E : s = q) by lia. rewrite E in Hend. destruct Hend as [|Hend]; [lia|].
    destruct Hqe as [|Hsp]; [lia|]. unfold wordc in Hend. rewrite Hsp, symbol_cases in Hend. fold c in Hend. rewrite Es in Hend.
    rewrite (proj2 (Z.eqb_neq c 62)) in Hend by done. done. }
  destruct (spaces_ok s ltac:(lia)) as [H1 _]. split; [lia|]. split; [lia|]. split; [|lia]. intros _.
  constructor; cbn [fst snd]; [fold es; lia|done|done].
Qed.

(** [peek] moves over spaces; what it sees is there. *)
Lemma peek_ok ps toks :
  0 ≤ ps ≤ es →
  let '(b, s) := peek buf es ps toks in
  ps ≤ s ≤ es ∧ (b = true → s < es ∧ chr buf s ≠ 0).
Proof using Type.
  intros Hps. unfold peek. destruct (spaces_ok ps ltac:(lia)) as [Hq _]. split; [lia|]. intros H.
  destruct (Z.eqb_spec (chr buf (spaces buf ps es)) 0) as [|Hne]; [done|]. split; [|done].
  destruct (decide (spaces buf ps es < es)); [done|]. rewrite chr_end in Hne by lia. done.
Qed.

(** Where there is a byte, [gettoken] takes something. *)
Lemma gettoken_moves ps :
  0 ≤ ps < es → chr buf ps ≠ 0 → is_space (chr buf ps) = false →
  let '(ret, q, ps') := gettoken buf es ps in ps < ps' ≤ es.
Proof using Hnul.
  intros Hps Hc Hsp. pose proof (gettoken_ok ps ltac:(lia)) as H.
  assert (Eq : spaces buf ps es = ps).
  { unfold spaces. destruct (Z.to_nat (es - ps)); [done|]. cbn [skip_space]. by rewrite Hsp, andb_false_r. }
  unfold gettoken in *. rewrite Eq in *. destruct (Z.eqb_spec (chr buf ps) 0) as [|_]; [done|].
  repeat case_match; cbn [fst snd] in *; destruct H as (M1 & M2 & M3 & M4); simplify_eq; specialize (M4 ltac:(done || lia)); lia.
Qed.

(** What follows a [peek] that saw something. *)
Lemma peek_gettoken ps toks :
  0 ≤ ps ≤ es → (peek buf es ps toks).1 = true →
  let '(ret, q, ps') := gettoken buf es (peek buf es ps toks).2 in ps < ps' ≤ es ∧ 0 ≤ ps'.
Proof using Hnul.
  intros Hps Hb. pose proof (peek_ok ps toks Hps) as H. destruct (peek buf es ps toks) as [b s] eqn:E. cbn [fst snd] in *. subst b.
  destruct H as [H1 H2]. destruct (H2 eq_refl) as [Hlt Hc].
  assert (Hsp : is_space (chr buf s) = false).
  { unfold peek in E. injection E as _ <-. destruct (spaces_ok ps ltac:(lia)) as [_ [E|E]]; [lia|done]. }
  pose proof (gettoken_moves s ltac:(lia) Hc Hsp) as Hm. destruct (gettoken buf es s) as [[ret q] ps']. lia.
Qed.

(** ** The parser *)

(** The parser came back, with words only, at a place not before [s]; or it
    complained. *)
Definition parsed {A} (sp : A → list span) (s : Z) (m : outcome (A * Z)) : Prop :=
  match m with
  | Ok (c, s') => s ≤ s' ≤ es ∧ Forall (word_at buf) (sp c)
  | Panic _ => True
  | _ => False
  end.

Definition redir_spans (rs : list redir) : list span := rd_file <$> rs.

Lemma spans_wrap c rs : spans (wrap rd_file c rs) = spans c ++ redir_spans rs.
Proof using Type.
  unfold wrap, redir_spans. revert c. induction rs as [|r rs IH]; intros c; cbn [fold_left fmap list_fmap]; [by rewrite app_nil_r|].
  rewrite IH. cbn [spans]. by rewrite <- app_assoc.
Qed.

Lemma parsed_weaken {A} (sp : A → list span) s s' m : s ≤ s' → parsed sp s' m → parsed sp s m.
Proof using Type. destruct m as [[c t]| | |]; cbn; try done. intros H [H1 H2]. split; [lia|done]. Qed.

Lemma parseredirs_ok fuel ps :
  0 ≤ ps ≤ es → es - ps < Z.of_nat fuel → parsed redir_spans ps (parseredirs fuel buf es ps).
Proof using Hnul.
  revert ps. induction fuel as [|fuel IH]; intros ps Hps Hf; [lia|]. cbn [parseredirs].
  pose proof (peek_ok ps (chars "<>") Hps) as Hp. pose proof (peek_gettoken ps (chars "<>") Hps) as Hg.
  destruct (peek buf es ps (chars "<>")) as [more p1]. cbn [fst snd] in Hg. destruct more; [|cbn; split; [lia|constructor]].
  specialize (Hg eq_refl). destruct (gettoken buf es p1) as [[tok q1] p2].
  pose proof (gettoken_ok p2 ltac:(lia)) as Hg2. destruct (gettoken buf es p2) as [[t q2] p3].
  destruct Hg2 as (G1 & G2 & G3 & _). destruct (Z.eqb_spec t 97) as [Et|]; cbn [negb]; [|done]. specialize (G3 Et).
  specialize (IH p3 ltac:(lia) ltac:(lia)). destruct (parseredirs fuel buf es p3) as [[rs p4]| | |]; try done. cbn in IH |- *.
  destruct IH as [H1 H2]. split; [lia|]. unfold redir_spans in *. rewrite fmap_app. apply Forall_app. split; [|done].
  repeat case_match; cbn; try (apply Forall_cons_2; [done|]); apply Forall_nil_2.
Qed.

Lemma parseargs_ok fuel ps argv rs :
  0 ≤ ps ≤ es → es - ps < Z.of_nat fuel → Forall (word_at buf) argv → Forall (word_at buf) (redir_spans rs) →
  parsed spans ps (parseargs fuel buf es ps argv rs).
Proof using Hnul.
  revert ps argv rs. induction fuel as [|fuel IH]; intros ps argv rs Hps Hf Ha Hr; [lia|]. cbn [parseargs].
  pose proof (peek_ok ps (chars "|)&;") Hps) as Hp. destruct (peek buf es ps (chars "|)&;")) as [stop p1]. destruct Hp as [Hp1 _].
  destruct stop; [cbn; split; [lia|]; rewrite spans_wrap; by apply Forall_app|].
  pose proof (gettoken_ok p1 ltac:(lia)) as Hg. destruct (gettoken buf es p1) as [[tok q] p2]. destruct Hg as (G1 & G2 & G3 & G4).
  destruct (Z.eqb_spec tok 0) as [|Hnz]; [cbn; split; [lia|]; rewrite spans_wrap; by apply Forall_app|].
  destruct (Z.eqb_spec tok 97) as [Et|]; cbn [negb]; [|done]. specialize (G3 Et). specialize (G4 Hnz).
  destruct (MAXARGS <=? zlen (argv ++ [q])); [done|].
  pose proof (parseredirs_ok fuel p2 ltac:(lia) ltac:(lia)) as Hrs. destruct (parseredirs fuel buf es p2) as [[rs' p3]| | |]; try done.
  cbn in Hrs. destruct Hrs as [R1 R2]. rewrite bind_Ok. eapply parsed_weaken; [|apply IH]; [lia..| |].
  - apply Forall_app. auto.
  - unfold redir_spans in *. rewrite fmap_app. by apply Forall_app.
Qed.

Lemma parseback_ok fuel ps c :
  0 ≤ ps ≤ es → es - ps < Z.of_nat fuel → Forall (word_at buf) (spans c) → parsed spans ps (parseback fuel buf es ps c).
Proof using Hnul.
  revert ps c. induction fuel as [|fuel IH]; intros ps c Hps Hf Hc; [lia|]. cbn [parseback].
  pose proof (peek_ok ps (chars "&") Hps) as Hp. pose proof (peek_gettoken ps (chars "&") Hps) as Hg.
  destruct (peek buf es ps (chars "&")) as [more p1]. cbn [fst snd] in Hg. destruct more; [|cbn; split; [lia|done]].
  specialize (Hg eq_refl). destruct (gettoken buf es p1) as [[tok q1] p2]. eapply parsed_weaken; [|apply IH]; done || lia.
Qed.

(** The four functions that call each other, by the fuel they share. *)
Lemma parse_all fuel :
  (∀ ps, 0 ≤ ps ≤ es → 4 * (es - ps) + 4 ≤ Z.of_nat fuel → parsed spans ps (parseline fuel buf es ps)) ∧
  (∀ ps, 0 ≤ ps ≤ es → 4 * (es - ps) + 3 ≤ Z.of_nat fuel → parsed spans ps (parsepipe fuel buf es ps)) ∧
  (∀ ps, 0 ≤ ps ≤ es → 4 * (es - ps) + 2 ≤ Z.of_nat fuel → parsed spans ps (parseexec fuel buf es ps)) ∧
  (∀ ps, 0 ≤ ps ≤ es → 4 * (es - ps) + 1 ≤ Z.of_nat fuel → parsed spans ps (parseblock fuel buf es ps)).
Proof using Hnul.
  induction fuel as [|fuel (IHl & IHp & IHe & IHb)]; [split_and!; intros; lia|]. split_and!; intros ps Hps Hf.
  - cbn [parseline]. pose proof (IHp ps Hps ltac:(lia)) as H1. destruct (parsepipe fuel buf es ps) as [[c p1]| | |]; try done.
    destruct H1 as [H1 Hc1]. rewrite bind_Ok. pose proof (parseback_ok fuel p1 c ltac:(lia) ltac:(lia) Hc1) as H2.
    destruct (parseback fuel buf es p1 c) as [[c' p2]| | |]; try done. destruct H2 as [H2 Hc2]. rewrite bind_Ok.
    pose proof (peek_ok p2 (chars ";") ltac:(lia)) as Hp. pose proof (peek_gettoken p2 (chars ";") ltac:(lia)) as Hg.
    destruct (peek buf es p2 (chars ";")) as [more p3]. cbn [fst snd] in Hg. destruct more; [|cbn; split; [lia|done]].
    specialize (Hg eq_refl). destruct (gettoken buf es p3) as [[tok q] p4]. pose proof (IHl p4 ltac:(lia) ltac:(lia)) as H5.
    destruct (parseline fuel buf es p4) as [[r p5]| | |]; try done. destruct H5 as [H5 Hc5]. cbn. split; [lia|]. by apply Forall_app.
  - cbn [parsepipe]. pose proof (IHe ps Hps ltac:(lia)) as H1. destruct (parseexec fuel buf es ps) as [[c p1]| | |]; try done.
    destruct H1 as [H1 Hc1]. rewrite bind_Ok.
    pose proof (peek_ok p1 (chars "|") ltac:(lia)) as Hp. pose proof (peek_gettoken p1 (chars "|") ltac:(lia)) as Hg.
    destruct (peek buf es p1 (chars "|")) as [more p3]. cbn [fst snd] in Hg. destruct more; [|cbn; split; [lia|done]].
    specialize (Hg eq_refl). destruct (gettoken buf es p3) as [[tok q] p4]. pose proof (IHp p4 ltac:(lia) ltac:(lia)) as H5.
    destruct (parsepipe fuel buf es p4) as [[r p5]| | |]; try done. destruct H5 as [H5 Hc5]. cbn. split; [lia|]. by apply Forall_app.
  - cbn [parseexec]. pose proof (peek_ok ps (chars "(") Hps) as Hp. destruct (peek buf es ps (chars "(")) as [block p1]. destruct Hp as [Hp1 _].
    destruct block; [eapply parsed_weaken; [|apply IHb]; lia|].
    pose proof (parseredirs_ok fuel p1 ltac:(lia) ltac:(lia)) as H2. destruct (parseredirs fuel buf es p1) as [[rs p2]| | |]; try done.
    destruct H2 as [H2 Hc2]. rewrite bind_Ok. eapply parsed_weaken; [|apply parseargs_ok]; done || lia.
  - cbn [parseblock]. pose proof (peek_gettoken ps (chars "(") Hps) as Hg. destruct (peek buf es ps (chars "(")) as [open p1]. cbn [fst snd] in Hg.
    destruct open; [cbn [negb]|done]. specialize (Hg eq_refl). destruct (gettoken buf es p1) as [[tok q] p2].
    pose proof (IHl p2 ltac:(lia) ltac:(lia)) as H3. destruct (parseline fuel buf es p2) as [[c p3]| | |]; try done. destruct H3 as [H3 Hc3]. rewrite bind_Ok.
    pose proof (peek_gettoken p3 (chars ")") ltac:(lia)) as Hg3. destruct (peek buf es p3 (chars ")")) as [close p4]. cbn [fst snd] in Hg3.
    destruct close; [cbn [negb]|done]. specialize (Hg3 eq_refl). destruct (gettoken buf es p4) as [[tok' q'] p5].
    pose proof (parseredirs_ok fuel p5 ltac:(lia) ltac:(lia)) as H6. destruct (parseredirs fuel buf es p5) as [[rs p6]| | |]; try done.
    destruct H6 as [H6 Hc6]. cbn. split; [lia|]. rewrite spans_wrap. by apply Forall_app.
Qed.
End line.

(** ** Cutting the strings out *)

Definition put_nuls (buf : list Z) (qs : list span) : list Z := fold_left (λ b q, put_nul b q.2) qs buf.

Lemma nulterminate_puts c : ∀ buf, nulterminate buf c = put_nuls buf (spans c).
Proof.
  unfold put_nuls. induction c as [argv|c IH f m d|l IHl r IHr|l IHl r IHr|c IH]; intros buf; cbn [nulterminate spans];
    rewrite ?fold_left_app, ?IH, ?IHl, ?IHr; done.
Qed.

Lemma put_nuls_length qs : ∀ buf, length (put_nuls buf qs) = length buf.
Proof. unfold put_nuls. induction qs as [|q qs IH]; intros buf; cbn [fold_left]; [done|]. rewrite IH. apply length_insert. Qed.

(** A byte no string ends at stays; one a string ends at becomes NUL. *)
Lemma put_nuls_other qs : ∀ buf i, (∀ q, q ∈ qs → Z.to_nat q.2 ≠ i) → put_nuls buf qs !! i = buf !! i.
Proof.
  unfold put_nuls. induction qs as [|q qs IH]; intros buf i Hi; cbn [fold_left]; [done|].
  rewrite IH by (intros q' Hq'; apply Hi; by right). unfold put_nul. apply list_lookup_insert_ne. apply Hi. by left.
Qed.

Lemma put_nuls_end qs : ∀ buf q, q ∈ qs → (Z.to_nat q.2 < length buf)%nat → put_nuls buf qs !! Z.to_nat q.2 = Some 0.
Proof.
  induction qs as [|q' qs IH]; intros buf q Hq Hlt; [by apply elem_of_nil in Hq|].
  destruct (decide (q ∈ qs)) as [Hin|Hout]; [apply (IH (put_nul buf q'.2)); [done|]; by unfold put_nul; rewrite length_insert|].
  apply elem_of_cons in Hq as [->|]; [|done].
  destruct (decide (Exists (λ x, Z.to_nat x.2 = Z.to_nat q'.2) qs)) as [Hex|Hno].
  - apply Exists_exists in Hex as (x & Hx & E). rewrite <- E in *.
    apply (IH (put_nul buf q'.2) x Hx). by unfold put_nul; rewrite length_insert.
  - unfold put_nuls. cbn [fold_left]. fold (put_nuls (put_nul buf q'.2) qs). rewrite put_nuls_other.
    + by apply list_lookup_insert_eq.
    + intros x Hx E. apply Hno, Exists_exists. eauto.
Qed.

Lemma upto_nul_stop l : 0 ∉ l → ∀ t, upto_nul (l ++ 0 :: t) = l ∧ upto_nul l = l.
Proof.
  induction l as [|c l IH]; intros Hl t; cbn; [done|]. apply not_elem_of_cons in Hl as [Hc Hl].
  destruct (Z.eqb_spec c 0); [done|]. destruct (IH Hl t) as [-> ->]. done.
Qed.

(** After [nulterminate] the pointer to a string's start is the string. *)
Lemma cstr_slice buf c q :
  0 ∉ buf → Forall (word_at buf) (spans c) → q ∈ spans c → cstr (nulterminate buf c) q.1 = slice_of buf q.
Proof.
  intros Hnul Hall Hq. rewrite nulterminate_puts. unfold cstr, slice_of.
  pose proof (proj1 (Forall_forall _ _) Hall) as Hw. destruct (Hw q Hq) as [Hr Hin Hend].
  set (b := put_nuls buf (spans c)). unfold zlen in *.
  assert (Hpre : take (Z.to_nat (q.2 - q.1)) (drop (Z.to_nat q.1) b) = take (Z.to_nat (q.2 - q.1)) (drop (Z.to_nat q.1) buf)).
  { apply list_eq. intros i. destruct (decide (i < Z.to_nat (q.2 - q.1))%nat) as [Hi|]; [|by rewrite !lookup_take_ge by lia].
    rewrite !lookup_take_lt, !lookup_drop by done. unfold b. apply put_nuls_other. intros x Hx E.
    destruct (Hw x Hx) as [Xr Xin Xend]. unfold zlen in *. destruct Xend as [Xe|Xe]; [lia|].
    rewrite Hin in Xe by lia. done. }
  set (w := take _ (drop _ buf)) in *.
  assert (Hw0 : 0 ∉ w). { intros H. apply Hnul. unfold w in H. by apply elem_of_take in H as (i & H & _); rewrite lookup_drop in H; apply list_elem_of_lookup_2 in H. }
  rewrite <- (take_drop (Z.to_nat (q.2 - q.1)) (drop (Z.to_nat q.1) b)), Hpre, drop_drop.
  replace (Z.to_nat q.1 + Z.to_nat (q.2 - q.1))%nat with (Z.to_nat q.2) by lia.
  destruct (decide (q.2 = Z.of_nat (length buf))) as [E|Hne].
  - rewrite drop_ge, app_nil_r; [by apply (upto_nul_stop w Hw0 [])|]. unfold b. rewrite put_nuls_length. lia.
  - rewrite (drop_S _ 0 (Z.to_nat q.2)); [by apply upto_nul_stop|]. apply put_nuls_end; [done|]. lia.
Qed.

Lemma map_cmd_ext {B} (f g : span → B) c : (∀ q, q ∈ spans c → f q = g q) → map_cmd f c = map_cmd g c.
Proof.
  induction c as [argv|c IH file m d|l IHl r IHr|l IHl r IHr|c IH]; cbn [map_cmd spans]; intros H.
  - f_equal. apply list_fmap_ext. intros i q Hq. apply H. by eapply list_elem_of_lookup_2.
  - setoid_rewrite elem_of_app in H. rewrite (H file) by (right; by left). f_equal. apply IH. auto.
  - setoid_rewrite elem_of_app in H. f_equal; auto.
  - setoid_rewrite elem_of_app in H. f_equal; auto.
  - f_equal. auto.
Qed.

Lemma strings_slices buf c :
  0 ∉ buf → Forall (word_at buf) (spans c) → strings (nulterminate buf c) c = map_cmd (slice_of buf) c.
Proof. intros Hnul Hall. unfold strings. apply map_cmd_ext. intros q Hq. by apply cstr_slice. Qed.

(** C35: the shell's parser, on every line without a NUL, comes to an end: either
    it reports a syntax error, or it returns a command all of whose strings are
    maximal runs of word characters of the line, and the NULs it writes into the
    line afterwards end each string exactly there, whatever the other strings. *)
Theorem parsecmd_total buf :
  0 ∉ buf →
  match parsecmd buf with
  | Ok (c, buf') => Forall (word_at buf) (spans c) ∧ strings buf' c = map_cmd (slice_of buf) c
  | Panic _ => True
  | Fault | Hang => False
  end.
Proof.
  intros Hnul. unfold parsecmd. destruct (parse_all buf Hnul (parse_fuel buf)) as [H _].
  specialize (H 0 ltac:(unfold zlen; lia) ltac:(unfold parse_fuel, zlen; lia)).
  destruct (parseline _ buf _ 0) as [[c ps]| | |]; try done. destruct H as [_ Hall]. rewrite bind_Ok.
  destruct (peek buf (zlen buf) ps []) as [b p]. destruct (negb (p =? zlen buf)); [done|].
  split; [done|]. by apply strings_slices.
Qed.

Lemma parsecmd_total_witness :
  match parsecmd (chars "(ls;cat<a)|wc>b&") with Ok _ => True | _ => False end ∧
  match parsecmd (chars "(ls;cat<a)|wc>b&") with
  | Ok (c, buf') =>
      Forall (word_at (chars "(ls;cat<a)|wc>b&")) (spans c) ∧ strings buf' c = map_cmd (slice_of (chars "(ls;cat<a)|wc>b&")) c
  | Panic _ => True
  | Fault | Hang => False
  end.
Proof.
  split; [vm_compute; exact I|]. apply parsecmd_total. apply (bool_decide_eq_true_1 _). vm_compute. reflexivity.
Defined.
