(* ===== verification/ShPrint.v ===== *)
(** * The parser of the shell reads back every command.

    A command is written as a sequence of tokens, with parentheses where the
    grammar needs them; the parser, given the line that holds the tokens with
    spaces between them and a newline after the last, builds that command. *)

From Stdlib Require Import ZifyBool.
From S2P Require Import Prelude Fcntl Ulib Sh ShParse.

(** ** Writing a command *)

(** The four levels of the grammar, as the four functions of the parser. *)
Inductive level := LExec | LPipe | LBack | LLine.

Definition paren (body : list (list Z)) : list (list Z) := [chars "("] ++ body ++ [chars ")"].

Definition op_of (mode : Z) : list Z :=
  if mode =? O_RDONLY then chars "<"
  else if mode =? Z.lor (Z.lor O_WRONLY O_CREATE) O_TRUNC then chars ">" else chars ">>".

Fixpoint toks (c : cmd (list Z)) (lv : level) : list (list Z) :=
  match c with
  | EXEC argv => argv
  | REDIR c' file mode _ => toks c' LExec ++ [op_of mode; file]
  | PIPE l r =>
      let body := toks l LExec ++ [chars "|"] ++ toks r LPipe in
      match lv with LExec => paren body | _ => body end
  | BACK c' =>
      let body := toks c' LBack ++ [chars "&"] in
      match lv with LExec | LPipe => paren body | _ => body end
  | LIST l r =>
      let body := toks l LBack ++ [chars ";"] ++ toks r LLine in
      match lv with LLine => body | _ => paren body end
  end.

Definition sep (ts : list (list Z)) : Z := match ts with [] => 10 | _ => 32 end.

Fixpoint render (ts : list (list Z)) : list Z :=
  match ts with
  | [] => []
  | t :: ts' => t ++ sep ts' :: render ts'
  end.

Definition print_cmd (c : cmd (list Z)) : list Z := render (toks c LLine).

(** ** The commands that have a text *)

Definition is_word (w : list Z) : bool := negb (zlen w =? 0) && forallb (λ c, wordc c && negb (c =? 0)) w.

Definition redir_ok (mode fd : Z) : bool :=
  ((mode =? O_RDONLY) && (fd =? 0)) ||
  ((mode =? Z.lor (Z.lor O_WRONLY O_CREATE) O_TRUNC) && (fd =? 1)) ||
  ((mode =? Z.lor O_WRONLY O_CREATE) && (fd =? 1)).

Fixpoint cmd_ok (c : cmd (list Z)) : bool :=
  match c with
  | EXEC argv => forallb is_word argv && (zlen argv <? MAXARGS)
  | REDIR c' file mode fd => cmd_ok c' && is_word file && redir_ok mode fd
  | PIPE l r | LIST l r => cmd_ok l && cmd_ok r
  | BACK c' => cmd_ok c'
  end.

(** Redirections by themselves. *)
Definition rd : Type := list Z * Z * Z.
Definition rd_ok (r : rd) : bool := is_word r.1.1 && redir_ok r.1.2 r.2.
Definition rtoks (rs : list rd) : list (list Z) := concat ((λ r, [op_of r.1.2; r.1.1]) <$> rs).
Definition rwrap (c : cmd (list Z)) (rs : list rd) : cmd (list Z) := fold_left (λ c r, REDIR c r.1.1 r.1.2 r.2) rs c.

(** What a token starts with. *)
Definition tok_ok (t : list Z) : bool := match t with c :: _ => negb (is_space c) && negb (c =? 0) | [] => false end.

(** What comes next starts with one of the bytes of [set], if there is more. *)
Definition follows (set : string) (ts : list (list Z)) : bool :=
  match ts with
  | [] => true
  | (c :: _) :: _ => if strchr (chars set) c then true else false
  | _ => false
  end.

Lemma render_cons t ts : render (t :: ts) = t ++ sep ts :: render ts.
Proof. done. Qed.

Lemma sep_space ts : is_space (sep ts) = true.
Proof. by destruct ts. Qed.

Lemma word_head w : is_word w = true → ∃ c w', w = c :: w' ∧ wordc c = true ∧ c ≠ 0.
Proof.
  unfold is_word. intros H. apply andb_true_iff in H as [H1 H2]. destruct w as [|c w]; [done|]. exists c, w. cbn in H2.
  split; [done|]. lia.
Qed.

Lemma word_tok w : is_word w = true → tok_ok w = true.
Proof. intros H. destruct (word_head w H) as (c & w' & -> & Hc & H0). unfold wordc in Hc. cbn. lia. Qed.

Lemma op_tok m : tok_ok (op_of m) = true.
Proof. unfold op_of. by repeat case_match. Qed.

Lemma rtoks_ok rs : forallb rd_ok rs = true → forallb tok_ok (rtoks rs) = true.
Proof.
  induction rs as [|r rs IH]; [done|]. cbn [forallb]. intros H. apply andb_true_iff in H as [Hr H]. unfold rd_ok in Hr.
  apply andb_true_iff in Hr as [Hw _]. change (rtoks (r :: rs)) with (op_of r.1.2 :: r.1.1 :: rtoks rs). cbn [forallb].
  by rewrite op_tok, word_tok, IH.
Qed.

Lemma words_ok ws : forallb is_word ws = true → forallb tok_ok ws = true.
Proof. rewrite !forallb_forall. intros H x Hx. by apply word_tok, H. Qed.

Lemma paren_ok ts : forallb tok_ok ts = true → forallb tok_ok (paren ts) = true.
Proof. intros H. unfold paren. cbn. rewrite forallb_app, H. done. Qed.

Lemma toks_ok c : ∀ lv, cmd_ok c = true → forallb tok_ok (toks c lv) = true.
Proof.
  induction c as [argv|c IH file m d|l IHl r IHr|l IHl r IHr|c IH]; intros lv; cbn [cmd_ok toks]; intros H.
  - apply andb_true_iff in H as [H _]. by apply words_ok.
  - apply andb_true_iff in H as [H _]. apply andb_true_iff in H as [H Hw]. rewrite forallb_app, IH by done. cbn.
    by rewrite op_tok, word_tok.
  - apply andb_true_iff in H as [H1 H2]. destruct lv; [apply paren_ok|..]; by rewrite forallb_app, IHl; cbn; rewrite ?IHr.
  - apply andb_true_iff in H as [H1 H2]. destruct lv; [apply paren_ok..|]; by rewrite forallb_app, IHl; cbn; rewrite ?IHr.
  - destruct lv; [apply paren_ok|apply paren_ok|..]; by rewrite forallb_app, IH.
Qed.

(** A command is a base under some redirections, written after it. *)
Definition base (c : cmd (list Z)) : Prop := match c with REDIR _ _ _ _ => False | _ => True end.

Fixpoint csize (c : cmd (list Z)) : nat :=
  match c with
  | EXEC _ => 1
  | REDIR c' _ _ _ | BACK c' => S (csize c')
  | PIPE l r | LIST l r => S (csize l + csize r)
  end.

Lemma rwrap_snoc c rs r : rwrap c (rs ++ [r]) = REDIR (rwrap c rs) r.1.1 r.1.2 r.2.
Proof. unfold rwrap. by rewrite fold_left_app. Qed.

Lemma rtoks_snoc rs r : rtoks (rs ++ [r]) = rtoks rs ++ [op_of r.1.2; r.1.1].
Proof. unfold rtoks. rewrite fmap_app, concat_app. done. Qed.

Lemma unwrap c :
  cmd_ok c = true →
  ∃ b rs, c = rwrap b rs ∧ base b ∧ cmd_ok b = true ∧ forallb rd_ok rs = true ∧ toks c LExec = toks b LExec ++ rtoks rs ∧
    (csize b < csize c ∨ b = c ∧ rs = [])%nat.
Proof.
  induction c as [argv|c IH file m d|l _ r _|l _ r _|c _]; intros H;
    try (eexists _, []; split; [reflexivity|]; split; [exact I|]; split; [done|]; split; [done|]; split; [by rewrite app_nil_r|]; by right).
  cbn [cmd_ok] in H. apply andb_true_iff in H as [H Hr]. apply andb_true_iff in H as [H Hw].
  destruct (IH H) as (b & rs & -> & Hb & Hok & Hrs & Et & Hsz). exists b, (rs ++ [(file, m, d)]).
  rewrite rwrap_snoc, rtoks_snoc, forallb_app, Hrs. cbn. unfold rd_ok. cbn. rewrite Hw, Hr, Et, <- app_assoc.
  split_and!; try done. left. destruct Hsz as [|[E _]]; [|rewrite <- E]; lia.
Qed.

(** ** Tokens of a line *)

Section line.
Context (buf : list Z).
Let es := zlen buf.

(** [l] is what is left of the line at [s]. *)
Definition suf (s : Z) (l : list Z) : Prop := 0 ≤ s ∧ s + zlen l = es ∧ drop (Z.to_nat s) buf = l.

Lemma suf_le s l : suf s l → 0 ≤ s ≤ es ∧ es - s = zlen l.
Proof using Type. unfold suf, zlen. lia. Qed.

Lemma suf_chr s c l : suf s (c :: l) → chr buf s = c.
Proof using Type.
  intros (H0 & H1 & H2). unfold chr. replace (Z.to_nat s) with (Z.to_nat s + 0)%nat by lia. rewrite <- lookup_drop, H2. done.
Qed.

Lemma suf_nil s : suf s [] → s = es ∧ chr buf s = 0.
Proof using Type. intros (H0 & H1 & H2). unfold zlen in H1. cbn in H1. split; [lia|]. apply chr_end. unfold es in *. lia. Qed.

Lemma suf_app s a l : suf s (a ++ l) → suf (s + zlen a) l.
Proof using Type.
  intros (H0 & H1 & H2). unfold suf, zlen in *. rewrite length_app in H1. split_and!; [lia..|].
  rewrite Z2Nat.inj_add, <- drop_drop, H2, Nat2Z.id by lia. apply drop_app_length.
Qed.

Lemma suf_cons s c l : suf s (c :: l) → suf (s + 1) l.
Proof using Type. apply (suf_app s [c]). Qed.

Lemma suf_slice s a l : suf s (a ++ l) → slice_of buf (s, s + zlen a) = a.
Proof using Type.
  intros (H0 & H1 & H2). unfold slice_of. cbn [fst snd]. rewrite H2. unfold zlen.
  replace (Z.to_nat (s + Z.of_nat (length a) - s)) with (length a) by lia. apply take_app_length.
Qed.

(** What is left starts with a token, or is nothing. *)
Definition starts (l : list Z) : Prop := match l with c :: _ => is_space c = false | [] => True end.

Lemma spaces_here s l : suf s l → starts l → spaces buf s es = s.
Proof using Type.
  intros Hs Hl. unfold spaces. destruct l as [|c l].
  - destruct (suf_nil _ Hs) as [-> _]. by rewrite Z.sub_diag.
  - destruct (Z.to_nat (es - s)); [done|]. cbn [skip_space]. rewrite (suf_chr _ _ _ Hs). cbn in Hl. by rewrite Hl, andb_false_r.
Qed.

Lemma spaces_one s x l : is_space x = true → suf s (x :: l) → starts l → spaces buf s es = s + 1.
Proof using Type.
  intros Hx Hs Hl. destruct (suf_le _ _ Hs) as [H0 Hn]. pose proof (suf_chr _ _ _ Hs) as Hc. pose proof (suf_cons _ _ _ Hs) as Hs1.
  pose proof (spaces_here _ _ Hs1 Hl) as He. unfold spaces in *. unfold zlen in Hn. cbn in Hn.
  destruct (Z.to_nat (es - s)) as [|n] eqn:En; [lia|]. cbn [skip_space]. rewrite Hc.
  rewrite (proj2 (Z.ltb_lt s es)) by lia. cbn [andb]. rewrite Hx.
  replace n with (Z.to_nat (es - (s + 1))) by lia. done.
Qed.

Lemma peek_here s l ts :
  suf s l → starts l → peek buf es s ts = (match l with c :: _ => negb (c =? 0) && (if strchr ts c then true else false) | [] => false end, s).
Proof using Type.
  intros Hs Hl. unfold peek. rewrite (spaces_here _ _ Hs Hl). destruct l as [|c l].
  - by destruct (suf_nil _ Hs) as [_ ->].
  - by rewrite (suf_chr _ _ _ Hs).
Qed.

Lemma gettoken_nil s : suf s [] → gettoken buf es s = (0, (s, s), s).
Proof using Type.
  intros Hs. unfold gettoken. rewrite (spaces_here _ _ Hs I). destruct (suf_nil _ Hs) as [_ ->]. cbn [Z.eqb].
  by rewrite (spaces_here _ _ Hs I).
Qed.

Definition sym (c : Z) : bool := (c =? 124) || (c =? 40) || (c =? 41) || (c =? 59) || (c =? 38) || (c =? 60).

Lemma sym_nonspace c : sym c = true → is_space c = false ∧ c ≠ 0 ∧ c ≠ 62.
Proof using Type.
  clear. unfold sym. intros H. assert (Hc : c ∈ [124; 40; 41; 59; 38; 60]) by (rewrite !elem_of_cons; lia).
  clear H. repeat (apply elem_of_cons in Hc as [->|Hc]; [done|]). by apply elem_of_nil in Hc.
Qed.

Lemma gettoken_sym s c x l : sym c = true → is_space x = true → suf s (c :: x :: l) → starts l → gettoken buf es s = (c, (s, s + 1), s + 2).
Proof using Type.
  intros Hc Hx Hs Hl. destruct (sym_nonspace c Hc) as (Hsp & H0 & _). unfold gettoken.
  rewrite (spaces_here s (c :: x :: l) Hs Hsp), (suf_chr _ _ _ Hs), (proj2 (Z.eqb_neq _ _) H0). fold (sym c). rewrite Hc.
  rewrite (spaces_one _ _ _ Hx (suf_cons _ _ _ Hs) Hl). f_equal; lia.
Qed.

Lemma gettoken_gt s x l : is_space x = true → suf s (62 :: x :: l) → starts l → gettoken buf es s = (62, (s, s + 1), s + 2).
Proof using Type.
  intros Hx Hs Hl. unfold gettoken. rewrite (spaces_here s (62 :: x :: l) Hs eq_refl), (suf_chr _ _ _ Hs). cbn [Z.eqb Pos.eqb orb].
  rewrite (suf_chr _ _ _ (suf_cons _ _ _ Hs)). assert (Hne : x ≠ 62) by by intros ->. rewrite (proj2 (Z.eqb_neq _ _) Hne). rewrite (spaces_one _ _ _ Hx (suf_cons _ _ _ Hs) Hl). f_equal; lia.
Qed.

Lemma gettoken_gtgt s x l : is_space x = true → suf s (62 :: 62 :: x :: l) → starts l → gettoken buf es s = (43, (s, s + 2), s + 3).
Proof using Type.
  intros Hx Hs Hl. unfold gettoken. rewrite (spaces_here s (62 :: 62 :: x :: l) Hs eq_refl), (suf_chr _ _ _ Hs). cbn [Z.eqb Pos.eqb orb].
  rewrite (suf_chr _ _ _ (suf_cons _ _ _ Hs)). cbn [Z.eqb Pos.eqb].
  pose proof (suf_app s [62; 62] _ Hs) as Hs2. change (zlen [62; 62]) with 2 in Hs2. rewrite (spaces_one _ _ _ Hx Hs2 Hl). f_equal; lia.
Qed.

Lemma skip_word_here w n s x l :
  is_space x = true → forallb (λ c, wordc c && negb (c =? 0)) w = true → suf s (w ++ x :: l) → (length w < n)%nat → skip_word n buf s es = s + zlen w.
Proof using Type.
  intros Hx. revert n s. induction w as [|c w IH]; intros n s Hw Hs Hn; (destruct n as [|n]; [cbn in Hn; lia|]); cbn [skip_word].
  - cbn [app] in Hs. rewrite (suf_chr _ _ _ Hs). rewrite Hx. cbn [negb]. rewrite andb_false_r. unfold zlen. cbn. lia.
  - cbn [app forallb] in *. apply andb_true_iff in Hw as [Hc Hw]. apply andb_true_iff in Hc as [Hc _].
    rewrite (suf_chr _ _ _ Hs). destruct (suf_le _ _ Hs) as [H0 Hle]. rewrite (proj2 (Z.ltb_lt s es)) by (unfold zlen in Hle; cbn in Hle; lia).
    cbn [andb]. fold (wordc c). rewrite Hc, (IH n (s + 1) Hw (suf_cons _ _ _ Hs)) by (cbn in Hn; lia). unfold zlen. cbn [length]. lia.
Qed.

Lemma gettoken_word s w x l :
  is_space x = true → is_word w = true → suf s (w ++ x :: l) → starts l → gettoken buf es s = (97, (s, s + zlen w), s + zlen w + 1).
Proof using Type.
  intros Hx Hw Hs Hl. destruct (word_head w Hw) as (c & w' & -> & Hc & H0). cbn [app] in Hs.
  pose proof Hc as Hc'. unfold wordc in Hc'. apply andb_true_iff in Hc' as [Hsp Hsy].
  apply negb_true_iff in Hsp, Hsy. unfold gettoken. rewrite (spaces_here s _ Hs Hsp), (suf_chr _ _ _ Hs), (proj2 (Z.eqb_neq _ _) H0).
  rewrite symbol_cases in Hsy. apply orb_false_iff in Hsy as [-> ->].
  unfold is_word in Hw. apply andb_true_iff in Hw as [_ Hw]. destruct (suf_le _ _ Hs) as [_ Hle].
  rewrite (skip_word_here (c :: w') _ s x l Hx Hw Hs); [|rewrite Hle; unfold zlen; cbn; rewrite length_app; cbn; lia].
  by rewrite (spaces_one _ _ _ Hx (suf_app s (c :: w') (x :: l) Hs) Hl).
Qed.

(** ** Redirections and arguments *)

Lemma starts_render ts : forallb tok_ok ts = true → starts (render ts).
Proof using Type.
  clear. destruct ts as [|t ts]; [done|]. rewrite render_cons. cbn [forallb]. intros H. apply andb_true_iff in H as [H _].
  destruct t as [|c t]; [done|]. cbn [app starts]. unfold tok_ok in H. by destruct (is_space c).
Qed.

Definition rd_of (r : redir) : rd := (slice_of buf (rd_file r), rd_mode r, rd_fd r).

(** The whole suffix is tokens; so it is after the first of them. *)
Lemma suf_tok s t ts : suf s (render (t :: ts)) → suf (s + zlen t + 1) (render ts).
Proof using Type. rewrite render_cons. intros H. apply (suf_cons _ (sep ts)), (suf_app _ _ _ H). Qed.

Lemma peek_toks s ts set :
  suf s (render ts) → forallb tok_ok ts = true →
  peek buf es s set = (match ts with (c :: _) :: _ => if strchr set c then true else false | _ => false end, s).
Proof using Type.
  intros Hs Hok. rewrite (peek_here _ _ set Hs (starts_render _ Hok)). destruct ts as [|[|c t] ts]; [done|done|].
  rewrite render_cons. cbn in *. by destruct (Z.eqb_spec c 0); [rewrite andb_false_r in Hok|].
Qed.

(** The operator and the file of a redirection. *)
Lemma gettoken_op s m d ts :
  redir_ok m d = true → suf s (render (op_of m :: ts)) → forallb tok_ok ts = true →
  ∃ tok q, gettoken buf es s = (tok, q, s + zlen (op_of m) + 1) ∧
    (if tok =? 60 then (m, d) = (O_RDONLY, 0)
     else if tok =? 62 then (m, d) = (Z.lor (Z.lor O_WRONLY O_CREATE) O_TRUNC, 1)
     else tok = 43 ∧ (m, d) = (Z.lor O_WRONLY O_CREATE, 1)).
Proof using Type.
  intros Hm Hs Hok. pose proof (starts_render _ Hok) as Hst. unfold redir_ok in Hm. rewrite render_cons in Hs.
  apply orb_true_iff in Hm as [Hm|Hm]; [apply orb_true_iff in Hm as [Hm|Hm]|]; apply andb_true_iff in Hm as [Em Ed];
    apply Z.eqb_eq in Em, Ed; subst.
  - exists 60, (s, s + 1). split; [|done]. rewrite (gettoken_sym s 60 _ (render ts) eq_refl (sep_space ts) Hs Hst). f_equal. change (zlen (op_of O_RDONLY)) with 1. lia.
  - exists 62, (s, s + 1). split; [|done]. rewrite (gettoken_gt s _ (render ts) (sep_space ts) Hs Hst). f_equal. change (zlen (op_of _)) with 1. lia.
  - exists 43, (s, s + 2). split; [|done]. rewrite (gettoken_gtgt s _ (render ts) (sep_space ts) Hs Hst). f_equal. change (zlen (op_of _)) with 2. lia.
Qed.

Lemma op_peek m : (match op_of m with c :: _ => if strchr (chars "<>") c then true else false | _ => false end) = true.
Proof using Type.
  clear. unfold op_of. destruct (m =? O_RDONLY); [reflexivity|]. by destruct (m =? _).
Qed.

Lemma parseredirs_print rs : ∀ fuel s ts,
  forallb rd_ok rs = true → suf s (render (rtoks rs ++ ts)) → forallb tok_ok ts = true →
  match ts with (c :: _) :: _ => strchr (chars "<>") c = None | _ => True end → es - s < Z.of_nat fuel →
  ∃ rs' s', parseredirs fuel buf es s = Ok (rs', s') ∧ suf s' (render ts) ∧ s ≤ s' ∧ rd_of <$> rs' = rs.
Proof using Type.
  induction rs as [|[[file m] d] rs IH]; intros fuel s ts Hrs Hs Hts Hno Hf;
    (destruct fuel as [|fuel]; [destruct (suf_le _ _ Hs); lia|]); cbn [parseredirs].
  - cbn [rtoks concat fmap list_fmap app] in Hs. rewrite (peek_toks _ _ _ Hs Hts). exists [], s.
    destruct ts as [|[|c t] ts]; try done. by rewrite Hno.
  - cbn [forallb] in Hrs. apply andb_true_iff in Hrs as [Hr Hrs]. unfold rd_ok in Hr. cbn [fst snd] in Hr. apply andb_true_iff in Hr as [Hw Hm].
    change (rtoks ((file, m, d) :: rs)) with (op_of m :: file :: rtoks rs) in Hs. cbn [app] in Hs.
    assert (Hok : forallb tok_ok (rtoks rs ++ ts) = true) by by rewrite forallb_app, rtoks_ok.
    assert (Hok1 : forallb tok_ok (file :: rtoks rs ++ ts) = true) by (cbn; by rewrite word_tok).
    assert (Hok2 : forallb tok_ok (op_of m :: file :: rtoks rs ++ ts) = true) by (cbn [forallb]; rewrite op_tok; exact Hok1).
    rewrite (peek_toks _ _ _ Hs Hok2), op_peek. destruct (gettoken_op _ _ _ _ Hm Hs Hok1) as (tok & q & -> & Htok).
    apply suf_tok in Hs. pose proof Hs as Hs'. rewrite render_cons in Hs. rewrite (gettoken_word _ _ _ _ (sep_space _) Hw Hs (starts_render _ Hok)). cbn [Z.eqb Pos.eqb negb].
    apply suf_tok in Hs'. set (s2 := s + zlen (op_of m) + 1 + zlen file + 1) in *.
    destruct (IH fuel s2 ts Hrs Hs' Hts Hno ltac:(unfold s2, zlen; lia)) as (rs' & s' & -> & Hsf & Hle & Ers). rewrite bind_Ok.
    eexists _, s'. split; [reflexivity|]. split; [done|]. split; [unfold s2, zlen in *; lia|]. rewrite fmap_app, Ers.
    destruct (tok =? 60); [|destruct (tok =? 62); [|destruct Htok as [-> Htok]]]; simplify_eq; cbn [Z.eqb Pos.eqb fmap list_fmap app]; unfold rd_of at 1; cbn [rd_file rd_mode rd_fd];
      by rewrite (suf_slice _ _ _ Hs).
Qed.

Lemma word_stop w set : is_word w = true → Forall (λ c, is_symbol c = true) (chars set) →
  match w with c :: _ => strchr (chars set) c = None | [] => True end.
Proof using Type.
  clear. intros Hw Hset. destruct (word_head w Hw) as (c & w' & -> & Hc & _). unfold wordc in Hc. apply andb_true_iff in Hc as [_ Hc].
  induction Hset as [|x l Hx Hl IH]; cbn; [done|]. destruct (x =? 0); [done|]. destruct (Z.eqb_spec x c) as [->|]; [by rewrite Hx in Hc|]. by rewrite IH.
Qed.

Lemma follows_stop set set' ts :
  follows set ts = true → forallb (λ c, if strchr (chars set') c then false else true) (chars set) = true →
  match ts with (c :: _) :: _ => strchr (chars set') c = None | _ => True end.
Proof using Type.
  clear. destruct ts as [|[|c t] ts]; cbn [follows]; try done. induction (chars set) as [|x l IH]; cbn; [done|].
  destruct (x =? 0); [done|]. destruct (Z.eqb_spec x c) as [->|]; intros H1 H2; apply andb_true_iff in H2 as [H2 H3].
  - by destruct (strchr (chars set') c).
  - apply IH; [|done]. by destruct (strchr l c).
Qed.

Lemma parseargs_print words : ∀ fuel s ts rs acc accr,
  forallb is_word words = true → forallb rd_ok rs = true → suf s (render (words ++ rtoks rs ++ ts)) → forallb tok_ok ts = true →
  follows ")|&;" ts = true → zlen acc + zlen words < MAXARGS → (words = [] → rs = []) → es - s < Z.of_nat fuel →
  ∃ argv rs' s', parseargs fuel buf es s acc accr = Ok (wrap rd_file (EXEC (acc ++ argv)) (accr ++ rs'), s') ∧
    suf s' (render ts) ∧ slice_of buf <$> argv = words ∧ rd_of <$> rs' = rs.
Proof using Type.
  induction words as [|w words IH]; intros fuel s ts rs acc accr Hw Hrs Hs Hts Hfo Hn Hnil Hf;
    (destruct fuel as [|fuel]; [destruct (suf_le _ _ Hs); lia|]); cbn [parseargs].
  - rewrite Hnil in * by done. cbn [app rtoks concat fmap list_fmap] in Hs. rewrite (peek_toks _ _ _ Hs Hts). exists [], [], s.
    rewrite !app_nil_r. destruct ts as [|[|c t] ts]; [|done|].
    + by rewrite (gettoken_nil _ Hs).
    + cbn [follows] in Hfo. assert (E : (if strchr (chars "|)&;") c then true else false) = true); [|by rewrite E].
      revert Hfo. clear. cbn [strchr]. change (chars ")|&;") with [41; 124; 38; 59]. change (chars "|)&;") with [124; 41; 38; 59].
      cbn [strchr]. rewrite !(Z.eqb_sym _ c). cbn [Z.eqb].
      destruct (c =? 124), (c =? 41), (c =? 38), (c =? 59); done.
  - cbn [forallb] in Hw. apply andb_true_iff in Hw as [Hw Hws].
    assert (Hok : forallb tok_ok (words ++ rtoks rs ++ ts) = true) by (by rewrite !forallb_app, rtoks_ok, words_ok).
    cbn [app] in Hs. assert (Hok1 : forallb tok_ok (w :: words ++ rtoks rs ++ ts) = true) by (cbn [forallb]; rewrite word_tok; done).
    rewrite (peek_toks _ _ _ Hs Hok1). pose proof (word_stop w "|)&;" Hw ltac:(vm_compute; repeat constructor)) as Hst.
    destruct w as [|c w]; [done|]. rewrite Hst. set (w0 := c :: w) in *.
    pose proof Hs as Hs'. rewrite render_cons in Hs. rewrite (gettoken_word _ _ _ _ (sep_space _) Hw Hs (starts_render _ Hok)). cbn [Z.eqb Pos.eqb negb].
    apply suf_tok in Hs'. rewrite (proj2 (Z.leb_gt _ _)) by (unfold zlen in *; rewrite length_app; cbn [length] in *; lia).
    set (s1 := s + zlen w0 + 1) in *. assert (Hlt : s < s1) by (unfold s1, zlen; lia).
    assert (Hsplit : ∃ ra rb, rs = ra ++ rb ∧ (words = [] → rb = []) ∧ forallb rd_ok ra = true ∧ forallb rd_ok rb = true ∧
      suf s1 (render (rtoks ra ++ (words ++ rtoks rb ++ ts))) ∧ forallb tok_ok (words ++ rtoks rb ++ ts) = true ∧
      match words ++ rtoks rb ++ ts with (c :: _) :: _ => strchr (chars "<>") c = None | _ => True end).
    { destruct words as [|w1 words].
      - exists rs, []. rewrite app_nil_r. split_and!; try done. by apply (follows_stop ")|&;").
      - exists [], rs. split_and!; try done. cbn [app]. apply andb_true_iff in Hws as [Hw1 _].
        pose proof (word_stop w1 "<>" Hw1 ltac:(vm_compute; repeat constructor)) as H1. by destruct w1. }
    destruct Hsplit as (ra & rb & -> & Hrb & Hra & Hrbok & Hsa & Hoka & Hnora).
    assert (Hf1 : es - s1 < Z.of_nat fuel) by (clear -Hlt Hf; lia).
    destruct (parseredirs_print ra fuel s1 _ Hra Hsa Hoka Hnora Hf1) as (ra' & s2 & -> & Hs2 & Hle & Era). rewrite bind_Ok.
    assert (Hf2 : es - s2 < Z.of_nat fuel) by (clear -Hf1 Hle; lia).
    assert (Hn2 : zlen (acc ++ [((s, s + zlen w0) : span)]) + zlen words < MAXARGS).
    { clear -Hn. unfold zlen in *. rewrite length_app. cbn [length] in *. lia. }
    destruct (IH fuel s2 ts rb _ (accr ++ ra') Hws Hrbok Hs2 Hts Hfo Hn2 Hrb Hf2) as (argv & rb' & s3 & -> & Hs3 & Ew & Erb).
    exists (((s, s + zlen w0) : span) :: argv), (ra' ++ rb'), s3. rewrite <- !app_assoc. cbn [app]. split; [done|]. split; [done|].
    rewrite fmap_cons, fmap_app, Ew, Era, Erb, (suf_slice _ _ _ Hs). done.
Qed.

(** ** The levels of the grammar *)

(** [f] reads the text of [c] at a level, whatever may follow it there. *)
Definition reads (f : nat → Z → outcome (cmd span * Z)) (k : Z) (set : string) (text : list (list Z)) (c : cmd (list Z)) : Prop :=
  ∀ fuel s ts,
    suf s (render (text ++ ts)) → forallb tok_ok ts = true → follows set ts = true → 4 * (es - s) + k ≤ Z.of_nat fuel →
    ∃ c' s', f fuel s = Ok (c', s') ∧ suf s' (render ts) ∧ map_cmd (slice_of buf) c' = c.

Definition Pexec c := reads (λ fuel s, parseexec fuel buf es s) 2 ")|&;" (toks c LExec) c.
Definition Ppipe c := reads (λ fuel s, parsepipe fuel buf es s) 3 ")&;" (toks c LPipe) c.
Definition Pline c := reads (λ fuel s, parseline fuel buf es s) 4 ")" (toks c LLine) c.

(** The commands that are put into the background: the loop of [parseline] has read
    [c] and goes on. *)
Definition Pback c : Prop :=
  ∀ fuel s ts,
    suf s (render (toks c LBack ++ ts)) → forallb tok_ok ts = true → follows ")&;" ts = true → 4 * (es - s) + 3 ≤ Z.of_nat fuel →
    ∃ c' s' f', ('(c0, ps) ← parsepipe fuel buf es s; parseback fuel buf es ps c0) = parseback f' buf es s' c' ∧
      suf s' (render ts) ∧ es - s' < Z.of_nat f' ∧ map_cmd (slice_of buf) c' = c.

Lemma map_wrap c rs : map_cmd (slice_of buf) (wrap rd_file c rs) = rwrap (map_cmd (slice_of buf) c) (rd_of <$> rs).
Proof using Type.
  unfold wrap, rwrap. revert c. induction rs as [|r rs IH]; intros c; cbn [fold_left fmap list_fmap]; [done|]. by rewrite IH.
Qed.

(** An operator of one byte. *)
Lemma gettoken_op1 s c ts :
  sym c = true → suf s (render ([c] :: ts)) → forallb tok_ok ts = true →
  gettoken buf es s = (c, (s, s + 1), s + 2) ∧ suf (s + 2) (render ts).
Proof using Type.
  intros Hc Hs Hok. split; [by apply (gettoken_sym s c (sep ts) (render ts)); [done|apply sep_space| |apply starts_render]|].
  apply suf_tok in Hs. unfold zlen in Hs. cbn [length] in Hs. by replace (s + 2) with (s + Z.of_nat 1 + 1) by lia.
Qed.

(** Nothing more at this level. *)
Lemma peek_no s ts set set' :
  suf s (render ts) → forallb tok_ok ts = true → follows set ts = true →
  forallb (λ c, if strchr (chars set') c then false else true) (chars set) = true → peek buf es s (chars set') = (false, s).
Proof using Type.
  intros Hs Hok Hf Hset. rewrite (peek_toks _ _ _ Hs Hok). pose proof (follows_stop set set' ts Hf Hset) as H.
  destruct ts as [|[|c t] ts]; try done. by rewrite H.
Qed.

Lemma peek_yes s c t ts set :
  suf s (render ((c :: t) :: ts)) → forallb tok_ok ((c :: t) :: ts) = true → strchr set c ≠ None → peek buf es s set = (true, s).
Proof using Type. intros Hs Hok Hc. rewrite (peek_toks _ _ _ Hs Hok). by destruct (strchr set c). Qed.

Lemma suf_mono s s' a b : suf s (render (a ++ b)) → suf s' (render b) → s ≤ s'.
Proof using Type.
  intros H H'. destruct (suf_le _ _ H) as [_ L], (suf_le _ _ H') as [_ L'].
  assert (Hle : (length (render b) ≤ length (render (a ++ b)))%nat); [|unfold zlen in *; lia].
  clear. induction a as [|t a IH]; cbn [app]; [done|]. rewrite render_cons, length_app. cbn [length]. lia.
Qed.

Lemma block_reads b rs :
  Pline b → cmd_ok b = true → forallb rd_ok rs = true →
  reads (λ fuel s, parseblock fuel buf es s) 1 ")|&;" (paren (toks b LLine) ++ rtoks rs) (rwrap b rs).
Proof using Type.
  intros Hb Hbok Hrs fuel s ts Hs Hts Hfo Hf. destruct fuel as [|fuel]; [destruct (suf_le _ _ Hs); lia|]. cbn [parseblock].
  unfold paren in Hs. rewrite <- !app_assoc in Hs. cbn [app] in Hs.
  assert (Hok1 : forallb tok_ok (rtoks rs ++ ts) = true) by by rewrite forallb_app, rtoks_ok.
  assert (Hok2 : forallb tok_ok (chars ")" :: rtoks rs ++ ts) = true) by done.
  assert (Hok3 : forallb tok_ok (toks b LLine ++ chars ")" :: rtoks rs ++ ts) = true) by by rewrite forallb_app, toks_ok.
  rewrite (peek_yes s _ _ _ (chars "(") Hs) by done. cbn [negb].
  destruct (gettoken_op1 s 40 _ eq_refl Hs Hok3) as [-> Hs1].
  destruct (Hb fuel (s + 2) _ Hs1 Hok2 eq_refl ltac:(lia)) as (c' & s2 & -> & Hs2 & Ec). rewrite bind_Ok.
  rewrite (peek_yes s2 _ _ _ (chars ")") Hs2) by done. cbn [negb].
  destruct (gettoken_op1 s2 41 _ eq_refl Hs2 Hok1) as [-> Hs3]. pose proof (suf_mono _ _ _ _ Hs1 Hs2).
  destruct (parseredirs_print rs fuel (s2 + 2) ts Hrs Hs3 Hts) as (rs' & s4 & -> & Hs4 & _ & Ers).
  { by apply (follows_stop ")|&;"). }
  { lia. }
  rewrite bind_Ok. eexists _, s4. split; [reflexivity|]. split; [done|]. by rewrite map_wrap, Ec, Ers.
Qed.


(** A line in parentheses, at the level of [parseexec]. *)
Lemma exec_paren b rs :
  Pline b → cmd_ok b = true → forallb rd_ok rs = true →
  reads (λ fuel s, parseexec fuel buf es s) 2 ")|&;" (paren (toks b LLine) ++ rtoks rs) (rwrap b rs).
Proof using Type.
  intros Hb Hok Hrs fuel s ts Hs Hts Hfo Hf. destruct fuel as [|fuel]; [destruct (suf_le _ _ Hs); lia|]. cbn [parseexec].
  assert (Hall : forallb tok_ok (paren (toks b LLine) ++ rtoks rs ++ ts) = true).
  { by rewrite !forallb_app, rtoks_ok, paren_ok by (done || by apply toks_ok). }
  pose proof Hs as Hs'. rewrite <- app_assoc in Hs'. unfold paren in Hs', Hall. cbn [app] in Hs', Hall.
  rewrite (peek_yes s _ _ _ (chars "(") Hs' Hall) by done. apply (block_reads b rs Hb Hok Hrs fuel s ts); done || lia.
Qed.

(** A program with its arguments, and redirections. *)
Lemma exec_words argv rs :
  cmd_ok (EXEC argv) = true → forallb rd_ok rs = true →
  reads (λ fuel s, parseexec fuel buf es s) 2 ")|&;" (argv ++ rtoks rs) (rwrap (EXEC argv) rs).
Proof using Type.
  cbn [cmd_ok]. intros Hok Hrs fuel s ts Hs Hts Hfo Hf. apply andb_true_iff in Hok as [Hw Hn]. destruct (suf_le _ _ Hs) as [Hb _].
  destruct fuel as [|fuel]; [lia|]. cbn [parseexec]. rewrite <- app_assoc in Hs.
  assert (Hall : forallb tok_ok (argv ++ rtoks rs ++ ts) = true) by by rewrite !forallb_app, rtoks_ok, words_ok.
  assert (Hpk : peek buf es s (chars "(") = (false, s)).
  { rewrite (peek_toks _ _ _ Hs Hall). f_equal. destruct argv as [|w argv]; cbn [app].
    - destruct rs as [|[[file m] d] rs]; [|cbn; unfold op_of; destruct (m =? O_RDONLY); [done|]; by destruct (m =? _)].
      cbn [rtoks fmap list_fmap concat app]. pose proof (follows_stop _ "(" ts Hfo eq_refl) as H. destruct ts as [|[|c t] ts]; try done. by rewrite H.
    - cbn [forallb] in Hw. apply andb_true_iff in Hw as [Hw _].
      pose proof (word_stop w "(" Hw ltac:(vm_compute; repeat constructor)) as H. destruct w; [done|]. by rewrite H. }
  rewrite Hpk. assert (Hsplit : ∃ ra rb, rs = ra ++ rb ∧ (argv = [] → rb = []) ∧ forallb rd_ok ra = true ∧ forallb rd_ok rb = true ∧
      suf s (render (rtoks ra ++ (argv ++ rtoks rb ++ ts))) ∧ forallb tok_ok (argv ++ rtoks rb ++ ts) = true ∧
      match argv ++ rtoks rb ++ ts with (c :: _) :: _ => strchr (chars "<>") c = None | _ => True end).
  { destruct argv as [|w1 words].
    - exists rs, []. rewrite app_nil_r. split_and!; try done. by apply (follows_stop ")|&;").
    - exists [], rs. split_and!; try done. cbn [app]. apply andb_true_iff in Hw as [Hw1 _].
      pose proof (word_stop w1 "<>" Hw1 ltac:(vm_compute; repeat constructor)) as H1. by destruct w1. }
  destruct Hsplit as (ra & rb & -> & Hrb & Hra & Hrbok & Hsa & Hoka & Hnora).
  destruct (parseredirs_print ra fuel s _ Hra Hsa Hoka Hnora ltac:(lia)) as (ra' & s2 & -> & Hs2 & Hle & Era). rewrite bind_Ok.
  destruct (parseargs_print argv fuel s2 ts rb [] ra' Hw Hrbok Hs2 Hts Hfo) as (av & rb' & s3 & -> & Hs3 & Ew & Erb);
    [unfold zlen in *; cbn [length]; lia|done|lia|].
  eexists _, s3. split; [reflexivity|]. split; [done|]. rewrite map_wrap. cbn [map_cmd app]. by rewrite Ew, fmap_app, Era, Erb.
Qed.

Lemma exec_level c :
  cmd_ok c = true → (∀ b, (csize b < csize c)%nat → cmd_ok b = true → Pline b) → (base c → (∀ argv, c ≠ EXEC argv) → Pline c) → Pexec c.
Proof using Type.
  intros Hok IH Hself. destruct (unwrap c Hok) as (b & rs & Ec & Hb & Hbok & Hrs & Et & Hsz). unfold Pexec. rewrite Et, Ec.
  destruct (decide (csize b < csize c)%nat) as [Hlt|Hge].
  - pose proof (exec_paren b rs (IH b Hlt Hbok) Hbok Hrs) as Hp. destruct b; try done. by apply exec_words.
  - destruct Hsz as [|[-> ->]]; [done|]. pose proof (λ H, exec_paren c [] (Hself Hb H) Hok eq_refl) as Hp.
    destruct c; try done; [by apply exec_words|exact (Hp ltac:(done))..].
Qed.

Lemma pipe_level c : Pexec c → toks c LPipe = toks c LExec → Ppipe c.
Proof using Type.
  intros He Et fuel s ts Hs Hts Hfo Hf. destruct fuel as [|fuel]; [destruct (suf_le _ _ Hs); lia|]. cbn [parsepipe]. rewrite Et in Hs.
  assert (Hfo' : follows ")|&;" ts = true).
  { revert Hfo. destruct ts as [|[|x t] ts]; try done. cbn [follows]. change (chars ")&;") with [41; 38; 59]. change (chars ")|&;") with [41; 124; 38; 59].
    cbn [strchr]. repeat (case_match; try done). }
  destruct (He fuel s ts Hs Hts Hfo' ltac:(lia)) as (c' & s' & -> & Hs' & Ec). rewrite bind_Ok.
  rewrite (peek_no _ _ ")&;" "|" Hs' Hts Hfo eq_refl). eauto.
Qed.

Lemma pipe_pipe l r : cmd_ok l = true → cmd_ok r = true → Pexec l → Ppipe r → Ppipe (PIPE l r).
Proof using Type.
  intros Hlok Hrok Hl Hr fuel s ts Hs Hts Hfo Hf. destruct fuel as [|fuel]; [destruct (suf_le _ _ Hs); lia|]. cbn [parsepipe].
  cbn [toks] in Hs. rewrite <- !app_assoc in Hs. cbn [app] in Hs.
  assert (Hok1 : forallb tok_ok (toks r LPipe ++ ts) = true) by by rewrite forallb_app, toks_ok.
  assert (Hok2 : forallb tok_ok (chars "|" :: toks r LPipe ++ ts) = true) by done.
  destruct (Hl fuel s _ Hs Hok2 eq_refl ltac:(lia)) as (l' & s1 & -> & Hs1 & El). rewrite bind_Ok. pose proof (suf_mono _ _ _ _ Hs Hs1).
  rewrite (peek_yes s1 _ _ _ (chars "|") Hs1) by done. destruct (gettoken_op1 s1 124 _ eq_refl Hs1 Hok1) as [-> Hs2].
  destruct (Hr fuel (s1 + 2) ts Hs2 Hts Hfo ltac:(lia)) as (r' & s3 & -> & Hs3 & Er). rewrite bind_Ok.
  eexists _, s3. split; [reflexivity|]. split; [done|]. cbn [map_cmd]. by rewrite El, Er.
Qed.

Lemma back_level c : Ppipe c → toks c LBack = toks c LPipe → Pback c.
Proof using Type.
  intros Hp Et fuel s ts Hs Hts Hfo Hf. rewrite Et in Hs. destruct (Hp fuel s ts Hs Hts Hfo Hf) as (c' & s' & -> & Hs' & Ec).
  rewrite bind_Ok. exists c', s', fuel. split; [done|]. split; [done|]. split; [|done]. pose proof (suf_mono _ _ _ _ Hs Hs').
  destruct (suf_le _ _ Hs), (suf_le _ _ Hs'). lia.
Qed.

Lemma back_back c : Pback c → Pback (BACK c).
Proof using Type.
  intros Hc fuel s ts Hs Hts Hfo Hf. cbn [toks] in Hs. rewrite <- app_assoc in Hs. cbn [app] in Hs.
  assert (Hok : forallb tok_ok (chars "&" :: ts) = true) by done.
  destruct (Hc fuel s _ Hs Hok eq_refl Hf) as (c' & s1 & f & -> & Hs1 & Hlt & Ec). destruct (suf_le _ _ Hs1) as [Hb _].
  destruct f as [|f]; [lia|]. cbn [parseback]. rewrite (peek_yes s1 _ _ _ (chars "&") Hs1) by done.
  destruct (gettoken_op1 s1 38 _ eq_refl Hs1 Hts) as [-> Hs2]. exists (BACK c'), (s1 + 2), f.
  split; [done|]. split; [done|]. split; [lia|]. cbn. by rewrite Ec.
Qed.

(** [parseline] when the loop for [&] is done. *)
Lemma back_done c fuel s ts :
  Pback c → suf s (render (toks c LBack ++ ts)) → forallb tok_ok ts = true → follows ");" ts = true → 4 * (es - s) + 3 ≤ Z.of_nat fuel →
  ∃ c' s', ('(c0, ps) ← parsepipe fuel buf es s; parseback fuel buf es ps c0) = Ok (c', s') ∧ suf s' (render ts) ∧ map_cmd (slice_of buf) c' = c.
Proof using Type.
  intros Hc Hs Hts Hfo Hf. assert (Hfo' : follows ")&;" ts = true).
  { revert Hfo. destruct ts as [|[|x t] ts]; try done. cbn [follows]. change (chars ")&;") with [41; 38; 59]. change (chars ");") with [41; 59].
    cbn [strchr]. repeat (case_match; try done). }
  destruct (Hc fuel s ts Hs Hts Hfo' Hf) as (c' & s1 & f & -> & Hs1 & Hlt & Ec). destruct (suf_le _ _ Hs1) as [Hb _].
  destruct f as [|f]; [lia|]. cbn [parseback]. rewrite (peek_no _ _ ");" "&" Hs1 Hts Hfo eq_refl). eauto.
Qed.

Lemma line_unfold fuel s :
  parseline (S fuel) buf es s =
    ('(c, ps) ← ('(c0, ps0) ← parsepipe fuel buf es s; parseback fuel buf es ps0 c0);
     let '(more, ps) := peek buf es ps (chars ";") in
     if more then
       let '(_, _, ps) := gettoken buf es ps in
       '(r, ps) ← parseline fuel buf es ps;
       Ok (LIST c r, ps)
     else Ok (c, ps)).
Proof using Type. cbn [parseline]. by destruct (parsepipe fuel buf es s) as [[c p]| | |]. Qed.

Lemma line_level c : Pback c → toks c LLine = toks c LBack → Pline c.
Proof using Type.
  intros Hc Et fuel s ts Hs Hts Hfo Hf. destruct (suf_le _ _ Hs) as [Hb _]. destruct fuel as [|fuel]; [lia|].
  cbv beta. rewrite line_unfold. rewrite Et in Hs. assert (Hfo' : follows ");" ts = true).
  { revert Hfo. destruct ts as [|[|x t] ts]; try done. cbn [follows]. change (chars ");") with [41; 59]. change (chars ")") with [41].
    cbn [strchr]. repeat (case_match; try done). }
  destruct (back_done c fuel s ts Hc Hs Hts Hfo' ltac:(lia)) as (c' & s1 & -> & Hs1 & Ec). rewrite bind_Ok.
  rewrite (peek_no _ _ ")" ";" Hs1 Hts Hfo eq_refl). eauto.
Qed.

Lemma line_list l r : cmd_ok l = true → cmd_ok r = true → Pback l → Pline r → Pline (LIST l r).
Proof using Type.
  intros Hlok Hrok Hl Hr fuel s ts Hs Hts Hfo Hf. destruct (suf_le _ _ Hs) as [Hb _]. destruct fuel as [|fuel]; [lia|].
  cbv beta. rewrite line_unfold. cbn [toks] in Hs. rewrite <- !app_assoc in Hs. cbn [app] in Hs.
  assert (Hok1 : forallb tok_ok (toks r LLine ++ ts) = true) by by rewrite forallb_app, toks_ok.
  assert (Hok2 : forallb tok_ok (chars ";" :: toks r LLine ++ ts) = true) by done.
  destruct (back_done l fuel s _ Hl Hs Hok2 eq_refl ltac:(lia)) as (l' & s1 & -> & Hs1 & El). rewrite bind_Ok. pose proof (suf_mono _ _ _ _ Hs Hs1).
  rewrite (peek_yes s1 _ _ _ (chars ";") Hs1) by done. destruct (gettoken_op1 s1 59 _ eq_refl Hs1 Hok1) as [-> Hs2].
  destruct (Hr fuel (s1 + 2) ts Hs2 Hts Hfo ltac:(lia)) as (r' & s3 & -> & Hs3 & Er). rewrite bind_Ok.
  eexists _, s3. split; [reflexivity|]. split; [done|]. cbn [map_cmd]. by rewrite El, Er.
Qed.

Lemma levels n : ∀ c, (csize c < n)%nat → cmd_ok c = true → Pexec c ∧ Ppipe c ∧ Pback c ∧ Pline c.
Proof using Type.
  induction n as [|n IHn]; intros c Hn Hok; [lia|].
  assert (Hsub : ∀ b, (csize b < csize c)%nat → cmd_ok b = true → Pline b) by (intros b Hb Hbok; apply IHn; [lia|done]).
  destruct c as [argv|c file m d|l r|l r|c].
  - assert (Pexec (EXEC argv)) by (apply exec_level; [done|done|intros _ H; by destruct (H argv)]). assert (Ppipe (EXEC argv)) by by apply pipe_level.
    assert (Pback (EXEC argv)) by by apply back_level. split_and!; try done. by apply line_level.
  - assert (Pexec (REDIR c file m d)) by (apply exec_level; done). assert (Ppipe (REDIR c file m d)) by by apply pipe_level.
    assert (Pback (REDIR c file m d)) by by apply back_level. split_and!; try done. by apply line_level.
  - cbn [cmd_ok csize] in *. apply andb_true_iff in Hok as [Hl Hr]. destruct (IHn l ltac:(lia) Hl) as (El & _), (IHn r ltac:(lia) Hr) as (_ & Er & _).
    assert (Ppipe (PIPE l r)) by by apply pipe_pipe. assert (Pback (PIPE l r)) by by apply back_level.
    assert (Pline (PIPE l r)) by by apply line_level. split_and!; try done. apply exec_level; [cbn; by rewrite Hl|done|done].
  - cbn [cmd_ok csize] in *. apply andb_true_iff in Hok as [Hl Hr]. destruct (IHn l ltac:(lia) Hl) as (_ & _ & Bl & _), (IHn r ltac:(lia) Hr) as (_ & _ & _ & Lr).
    assert (Pline (LIST l r)) by by apply line_list. assert (Pexec (LIST l r)) by (apply exec_level; [cbn; by rewrite Hl|done|done]).
    assert (Ppipe (LIST l r)) by by apply pipe_level. split_and!; try done. by apply back_level.
  - cbn [cmd_ok csize] in *. destruct (IHn c ltac:(lia) Hok) as (_ & _ & Bc & _).
    assert (Pback (BACK c)) by by apply back_back. assert (Pline (BACK c)) by by apply line_level.
    assert (Pexec (BACK c)) by (apply exec_level; done). split_and!; try done. by apply pipe_level.
Qed.
End line.

(** ** The round trip *)

Lemma render_nul ts : forallb (λ t, negb (existsb (Z.eqb 0) t)) ts = true → 0 ∉ render ts.
Proof.
  induction ts as [|t ts IH]; intros H; [by apply not_elem_of_nil|]. cbn [forallb] in H. apply andb_true_iff in H as [Ht H].
  rewrite render_cons, not_elem_of_app, not_elem_of_cons. split_and!; [|by destruct ts|by apply IH]. intros Hin. apply negb_true_iff in Ht.
  apply (f_equal negb) in Ht. cbn in Ht. assert (Hx : existsb (Z.eqb 0) t = true); [|by rewrite Hx in Ht].
  apply existsb_exists. exists 0. split; [by apply list_elem_of_In|done].
Qed.

Lemma word_nul w : is_word w = true → negb (existsb (Z.eqb 0) w) = true.
Proof.
  unfold is_word. intros H. apply andb_true_iff in H as [_ H]. apply negb_true_iff, not_true_is_false. intros Hx.
  apply existsb_exists in Hx as (x & Hin & E). apply Z.eqb_eq in E. subst x. rewrite forallb_forall in H. specialize (H 0 Hin). done.
Qed.

(** What holds of words and of the operators holds of every token. *)
Lemma toks_forallb P c :
  (∀ w, is_word w = true → P w = true) → forallb P (chars <$> ["("; ")"; "|"; "&"; ";"; "<"; ">"; ">>"]) = true →
  ∀ lv, cmd_ok c = true → forallb P (toks c lv) = true.
Proof.
  intros Hw Hop. cbn [fmap list_fmap forallb] in Hop. rewrite !andb_true_iff in Hop. destruct Hop as (O1 & O2 & O3 & O4 & O5 & O6 & O7 & O8 & _).
  assert (Hpar : ∀ ts, forallb P ts = true → forallb P (paren ts) = true).
  { intros ts H. unfold paren. rewrite !forallb_app. cbn [forallb]. by rewrite O1, O2, H. }
  induction c as [argv|c IH file m d|l IHl r IHr|l IHl r IHr|c IH]; intros lv; cbn [cmd_ok toks]; rewrite ?andb_true_iff; intros H.
  - destruct H as [H _]. rewrite !forallb_forall in *. auto.
  - destruct H as [[H Hf] _]. rewrite forallb_app, IH by done. cbn [forallb]. rewrite (Hw file Hf).
    unfold op_of. repeat case_match; by rewrite ?O6, ?O7, ?O8.
  - destruct H as [H1 H2]. destruct lv; try apply Hpar; rewrite !forallb_app; cbn [forallb]; by rewrite IHl, IHr, O3.
  - destruct H as [H1 H2]. destruct lv; try apply Hpar; rewrite !forallb_app; cbn [forallb]; by rewrite IHl, IHr, O5.
  - destruct lv; try apply Hpar; rewrite !forallb_app; cbn [forallb]; by rewrite IH, O4.
Qed.

Lemma print_nul c : cmd_ok c = true → 0 ∉ print_cmd c.
Proof. intros H. apply render_nul, toks_forallb; [exact word_nul|done|done]. Qed.

(** The parser on the text of a command. *)
Lemma print_parsed c :
  cmd_ok c = true →
  ∃ c', parsecmd (print_cmd c) = Ok (c', nulterminate (print_cmd c) c') ∧ Forall (word_at (print_cmd c)) (spans c') ∧
    map_cmd (slice_of (print_cmd c)) c' = c.
Proof.
  intros Hok. set (buf := print_cmd c). assert (Hnul : 0 ∉ buf) by by apply print_nul.
  destruct (levels buf (S (csize c)) c ltac:(lia) Hok) as (_ & _ & _ & Hl).
  assert (Hs : suf buf 0 (render (toks c LLine ++ []))).
  { rewrite app_nil_r. unfold suf. split_and!; [done..|]. by rewrite drop_0. }
  destruct (Hl (parse_fuel buf) 0 [] Hs eq_refl eq_refl) as (c' & s' & E & Hs' & Ec).
  { unfold parse_fuel, zlen. lia. }
  pose proof (parse_all buf Hnul (parse_fuel buf)) as [Hp _]. specialize (Hp 0 ltac:(unfold zlen; lia) ltac:(unfold parse_fuel, zlen; lia)).
  rewrite E in Hp. destruct Hp as [_ Hw]. exists c'. split; [|done]. unfold parsecmd. rewrite E, bind_Ok.
  rewrite (peek_here buf s' [] [] Hs' I). destruct (suf_nil _ _ Hs') as [-> _]. by rewrite Z.eqb_refl.
Qed.

(** C17: the parser of the shell reads back every command: when a command with
    fewer than ten words per program is written out as a line of tokens, [parsecmd]
    of that line returns a command whose strings, found through the
    NULs it has put into the line, make up exactly the command written. *)
Theorem parsecmd_print c :
  cmd_ok c = true → ∃ c' buf', parsecmd (print_cmd c) = Ok (c', buf') ∧ strings buf' c' = c.
Proof.
  intros Hok. destruct (print_parsed c Hok) as (c' & E & Hw & Ec). eexists _, _. split; [exact E|].
  rewrite strings_slices; [done|by apply print_nul|done].
Qed.

Lemma parsecmd_print_witness :
  let w s := chars s in
  let c := LIST (BACK (PIPE (REDIR (EXEC [w "cat"]) (w "in") O_RDONLY 0) (BACK (EXEC [w "wc"; w "-l"]))))
                (REDIR (LIST (EXEC [w "ls"]) (EXEC [])) (w "out") (Z.lor O_WRONLY O_CREATE) 1) in
  ∃ c' buf', parsecmd (print_cmd c) = Ok (c', buf') ∧ strings buf' c' = c.
Proof. intros w c. apply parsecmd_print. vm_compute. reflexivity. Defined.
