(* ===== verification/ShRun.v ===== *)
(** * Running commands: [runcmd], [fork1], [getcmd] and [main] of [user/sh.c].

    A process of the shell is the tree of the system calls it makes. Any number
    of such processes run interleaved; each has its own table of open files, and
    the kernel's part (the lowest free descriptor, a copy of the table for a child,
    [wait] for a child that has ended) is the step relation. Every call that can
    fail may fail at any time. *)

From Stdlib Require Import ZifyBool.
From S2P Require Import Prelude Fcntl Ulib Sysfile Sh ShParse ShPrint.

(** ** The program *)

Inductive prog :=
| PExit (status : Z)
| PExec (path : list Z) (argv : list (list Z)) (k : prog)
| PClose (fd : Z) (k : prog)
| POpen (file : list Z) (mode : Z) (k : Z → prog)
| PDup (fd : Z) (k : prog)
| PPipe (k : Z → Z → Z → prog)
| PFork (k : Z → prog)
| PWait (k : prog)
| PChdir (path : list Z) (k : Z → prog)
| PFprintf (fd : Z) (msg : list Z) (k : prog)
| PSpin. (* a loop has used up its fuel *)

(** [panic] *)
Definition sh_panic (s : list Z) : prog := PFprintf 2 (s ++ [10]) (PExit 1).

Definition fork1 (k : Z → prog) : prog :=
  PFork (λ pid, if pid =? -1 then sh_panic (chars "fork") else k pid).

Fixpoint runcmd (c : cmd (list Z)) : prog :=
  match c with
  | EXEC argv =>
      match argv with
      | [] => PExit 1
      | a0 :: _ => PExec a0 argv (PFprintf 2 (chars "exec " ++ a0 ++ chars " failed" ++ [10]) (PExit 0))
      end
  | REDIR c' file mode fd =>
      PClose fd
        (POpen file mode (λ r,
           if r <? 0 then PFprintf 2 (chars "open " ++ file ++ chars " failed" ++ [10]) (PExit 1)
           else runcmd c'))
  | LIST l r => fork1 (λ pid, if pid =? 0 then runcmd l else PWait (runcmd r))
  | PIPE l r =>
      PPipe (λ res p0 p1,
        if res <? 0 then sh_panic (chars "pipe")
        else
          fork1 (λ pid,
            if pid =? 0 then PClose 1 (PDup p1 (PClose p0 (PClose p1 (runcmd l))))
            else
              fork1 (λ pid,
                if pid =? 0 then PClose 0 (PDup p0 (PClose p0 (PClose p1 (runcmd r))))
                else PClose p0 (PClose p1 (PWait (PWait (PExit 0)))))))
  | BACK c' => fork1 (λ pid, if pid =? 0 then runcmd c' else PExit 0)
  end.

(** The child of [main]: [runcmd(parsecmd(buf))]. *)
Definition run_line (buf : list Z) : outcome prog :=
  match parsecmd buf with
  | Ok (c, buf') => Ok (runcmd (strings buf' c))
  | Panic msg => Ok (sh_panic (chars msg))
  | Fault => Fault
  | Hang => Hang
  end.

(** The line [getcmd] leaves in a buffer of [nbuf] bytes, up to its NUL, and the
    rest of the input; [None] at the end of the input. *)
Definition getcmd (input : list Z) (nbuf : Z) : option (list Z) * list Z :=
  let '(l, rest) := Lib.gets input nbuf in
  let buf := upto_nul l in
  match buf with [] => (None, rest) | _ => (Some buf, rest) end.

(** [buf[0] == 'c' && buf[1] == 'd' && buf[2] == ' '] *)
Definition is_cd (buf : list Z) : bool := (chr buf 0 =? 99) && (chr buf 1 =? 100) && (chr buf 2 =? 32).

(** The loop of [main], which takes at least a byte of the input each time. *)
Fixpoint main_loop (fuel : nat) (input : list Z) : outcome prog :=
  match fuel with
  | O => Hang
  | S fuel' =>
      match getcmd input 100 with
      | (None, _) => Ok (PExit 0)
      | (Some buf, rest) =>
          next ← main_loop fuel' rest;
          if is_cd buf then
            let path := drop 3 (take (length buf - 1) buf) in
            Ok (PChdir path (λ r, if r <? 0 then PFprintf 2 (chars "cannot cd " ++ path ++ [10]) next else next))
          else
            child ← run_line buf;
            Ok (fork1 (λ pid, if pid =? 0 then child else PWait next))
      end
  end.

(** [while ((fd = open("console", O_RDWR)) >= 0)]: the fourth descriptor is not
    below 3. *)
Fixpoint open_console (fuel : nat) (k : prog) : prog :=
  match fuel with
  | O => PSpin
  | S fuel' =>
      POpen (chars "console") O_RDWR (λ fd,
        if 0 <=? fd then if 3 <=? fd then PClose fd k else open_console fuel' k
        else k)
  end.

Definition main (input : list Z) : outcome prog :=
  k ← main_loop (S (length input)) input;
  Ok (open_console 4 k).

(** ** The kernel's part *)

(** What a descriptor leads to: a file that was open before, a file opened here, or
    an end of a pipe. *)
Inductive ofile :=
| Inherited (n : Z)
| Opened (file : list Z) (mode : Z)
| PipeEnd (pipe : list nat) (writable : bool).

Notation table := (list (option ofile)).

Definition fd_close (t : table) (fd : Z) : table := if fd <? 0 then t else <[Z.to_nat fd := None]> t.
Definition fd_at (t : table) (fd : Z) : option ofile := if fd <? 0 then None else default None (t !! Z.to_nat fd).

(** The lowest free descriptor gets the file. *)
Definition fd_put (t : table) (f : ofile) : option (Z * table) :=
  match free_fd t 0 with
  | Some fd => Some (fd, <[Z.to_nat fd := Some f]> t)
  | None => None
  end.

Definition fd_dup (t : table) (fd : Z) : table :=
  match fd_at t fd with
  | Some f => match fd_put t f with Some (_, t') => t' | None => t end
  | None => t
  end.

Definition fd_pipe (t : table) (id : list nat) : option (Z * Z * table) :=
  match fd_put t (PipeEnd id false) with
  | Some (p0, t) => match fd_put t (PipeEnd id true) with Some (p1, t) => Some (p0, p1, t) | None => None end
  | None => None
  end.

(** A program that was started, with its arguments and its open files. *)
Record launch := mk_launch { la_path : list Z; la_argv : list (list Z); la_fds : table }.

Inductive status :=
| Shell (p : prog)     (* still runs the shell's code *)
| Program (l : launch) (* after [exec] *)
| Zombie
| Gone.                (* a parent has waited for it *)

(** A process is known by the way to it: its number among the children of its
    parent, then the parent's way. [made] counts what it has made. *)
Record process := mk_process { way : list nat; made : nat; fds : table; stat : status }.

Section machine.
Context (pid : list nat → Z) (Hpid : ∀ w, 0 < pid w).

(** One call of one process: the process after it, a child if one was made, and
    whether the call failed. Waiting needs the others, and comes below. *)
Inductive call : process → process → option process → bool → Prop :=
| call_exit w n t st : call (mk_process w n t (Shell (PExit st))) (mk_process w n t Zombie) None false
| call_exec w n t path argv k :
    call (mk_process w n t (Shell (PExec path argv k))) (mk_process w n t (Program (mk_launch path argv t))) None false
| call_exec_fails w n t path argv k : call (mk_process w n t (Shell (PExec path argv k))) (mk_process w n t (Shell k)) None true
| call_close w n t fd k : call (mk_process w n t (Shell (PClose fd k))) (mk_process w n (fd_close t fd) (Shell k)) None false
| call_open w n t file mode k fd t' :
    fd_put t (Opened file mode) = Some (fd, t') →
    call (mk_process w n t (Shell (POpen file mode k))) (mk_process w n t' (Shell (k fd))) None false
| call_open_fails w n t file mode k : call (mk_process w n t (Shell (POpen file mode k))) (mk_process w n t (Shell (k (-1)))) None true
| call_dup w n t fd k : call (mk_process w n t (Shell (PDup fd k))) (mk_process w n (fd_dup t fd) (Shell k)) None false
| call_pipe w n t k p0 p1 t' :
    fd_pipe t (n :: w) = Some (p0, p1, t') →
    call (mk_process w n t (Shell (PPipe k))) (mk_process w (S n) t' (Shell (k 0 p0 p1))) None false
| call_pipe_fails w n t k p0 p1 : call (mk_process w n t (Shell (PPipe k))) (mk_process w n t (Shell (k (-1) p0 p1))) None true
| call_fork w n t k :
    call (mk_process w n t (Shell (PFork k))) (mk_process w (S n) t (Shell (k (pid (n :: w)))))
      (Some (mk_process (n :: w) 0 t (Shell (k 0)))) false
| call_fork_fails w n t k : call (mk_process w n t (Shell (PFork k))) (mk_process w n t (Shell (k (-1)))) None true
| call_chdir w n t path k r : call (mk_process w n t (Shell (PChdir path k))) (mk_process w n t (Shell (k r))) None false
| call_fprintf w n t fd msg k : call (mk_process w n t (Shell (PFprintf fd msg k))) (mk_process w n t (Shell k)) None false
| call_ends w n t l : call (mk_process w n t (Program l)) (mk_process w n t Zombie) None false.

(** The processes and the programs started so far. *)
Record pool := mk_pool { procs : list process; started : list launch }.

Definition child_of (w : list nat) (p : process) : Prop := ∃ i, way p = i :: w.

Definition with_stat (p : process) (s : status) : process := mk_process (way p) (made p) (fds p) s.

Definition starts_now (p p' : process) : list launch :=
  match stat p, stat p' with Shell _, Program l => [l] | _, _ => [] end.

Inductive step : pool → bool → pool → Prop :=
| step_call ps log i p p' child failed :
    ps !! i = Some p → call p p' child failed →
    step (mk_pool ps log) failed (mk_pool (<[i := p']> ps ++ option_list child) (log ++ starts_now p p'))
| step_wait ps log i j w n t k z :
    ps !! i = Some (mk_process w n t (Shell (PWait k))) →
    ps !! j = Some z → child_of w z → stat z = Zombie →
    step (mk_pool ps log) false (mk_pool (<[j := with_stat z Gone]> (<[i := mk_process w n t (Shell k)]> ps)) log)
| step_wait_none ps log i w n t k :
    ps !! i = Some (mk_process w n t (Shell (PWait k))) →
    (∀ q, q ∈ ps → child_of w q → stat q = Gone) →
    step (mk_pool ps log) false (mk_pool (<[i := mk_process w n t (Shell k)]> ps) log).

(** Any number of steps; the flag says whether a call has failed. *)
Inductive steps : pool → bool → pool → Prop :=
| steps_refl s : steps s false s
| steps_snoc s b s' b' s'' : steps s b s' → step s' b' s'' → steps s (b || b') s''.

Definition ended (p : process) : Prop := match stat p with Zombie | Gone => True | _ => False end.
Definition all_ended (s : pool) : Prop := Forall ended (procs s).
End machine.

(** ** What a command stands for *)

(** The programs of a command with their open files. *)
Fixpoint plan (c : cmd (list Z)) (w : list nat) (n : nat) (t : table) : list launch :=
  match c with
  | EXEC argv => match argv with [] => [] | a0 :: _ => [mk_launch a0 argv t] end
  | REDIR c' file mode fd => plan c' w n (<[Z.to_nat fd := Some (Opened file mode)]> t)
  | PIPE l r =>
      plan l (S n :: w) 0 (<[1%nat := Some (PipeEnd (n :: w) true)]> t) ++
      plan r (S (S n) :: w) 0 (<[0%nat := Some (PipeEnd (n :: w) false)]> t)
  | LIST l r => plan l (n :: w) 0 t ++ plan r w (S n) t
  | BACK c' => plan c' (n :: w) 0 t
  end.

(** Descriptors 0, 1 and 2 are open, and a pipe can be made. *)
Definition std (t : table) : bool :=
  match t with
  | Some _ :: Some _ :: Some _ :: rest => (2 <=? length (filter (λ f, f = None) rest))%nat
  | _ => false
  end.

(** Redirections are of descriptors 0 and 1 only. *)
Fixpoint redirs_ok (c : cmd (list Z)) : bool :=
  match c with
  | EXEC _ => true
  | REDIR c' _ _ fd => redirs_ok c' && ((fd =? 0) || (fd =? 1))
  | PIPE l r | LIST l r => redirs_ok l && redirs_ok r
  | BACK c' => redirs_ok c'
  end.

(** ** Tables *)

Lemma free_fd_app {A} (a : list (option A)) r n : Forall is_Some a → free_fd (a ++ None :: r) n = Some (n + zlen a).
Proof.
  intros H. revert n. induction H as [|x a Hx H IH]; intros n; cbn [app free_fd]; [f_equal; unfold zlen; cbn; lia|].
  destruct Hx as [y ->]. rewrite IH. f_equal. unfold zlen. cbn [length]. lia.
Qed.

Lemma split_free {A} (l : list (option A)) :
  (1 ≤ length (filter (λ f, f = None) l))%nat →
  ∃ a b, l = a ++ None :: b ∧ Forall is_Some a ∧ length (filter (λ f, f = None) l) = S (length (filter (λ f, f = None) b)).
Proof.
  induction l as [|x l IH]; [cbn; lia|]. rewrite filter_cons. destruct (decide (x = None)) as [->|Hx]; intros H.
  - exists [], l. split_and!; [done|constructor|done].
  - destruct (IH H) as (a & b & -> & Ha & Hb). exists (x :: a), b. split_and!; [done| |done]. constructor; [|done]. by destruct x.
Qed.

Lemma fd_put_at (a c : table) f : Forall is_Some a → fd_put (a ++ None :: c) f = Some (zlen a, a ++ Some f :: c).
Proof.
  intros Ha. unfold fd_put. rewrite (free_fd_app a c 0 Ha), Z.add_0_l. unfold zlen. rewrite Nat2Z.id.
  do 2 f_equal. rewrite insert_app_r_alt, Nat.sub_diag by done. done.
Qed.

(** The two descriptors of a new pipe, and the table without them. *)
Lemma std_pipe t id :
  std t = true →
  ∃ a b c, t = a ++ None :: b ++ None :: c ∧ Forall is_Some a ∧ Forall is_Some b ∧ (3 ≤ length a)%nat ∧
    fd_pipe t id = Some (zlen a, zlen a + 1 + zlen b, a ++ Some (PipeEnd id false) :: b ++ Some (PipeEnd id true) :: c).
Proof.
  unfold std. destruct t as [|[f0|] [|[f1|] [|[f2|] rest]]]; try done. intros H. apply Nat.leb_le in H.
  destruct (split_free rest ltac:(lia)) as (a & r & -> & Ha & Hr). destruct (split_free r ltac:(lia)) as (b & c & -> & Hb & _).
  exists (Some f0 :: Some f1 :: Some f2 :: a), b, c. set (a' := Some f0 :: Some f1 :: Some f2 :: a).
  assert (Ha' : Forall is_Some a') by (unfold a'; repeat (constructor; [done|]); done).
  split; [done|]. split; [done|]. split; [done|]. split; [unfold a'; cbn; lia|].
  change (Some f0 :: Some f1 :: Some f2 :: a ++ None :: b ++ None :: c) with (a' ++ None :: b ++ None :: c).
  unfold fd_pipe. rewrite (fd_put_at a' _ _ Ha').
  replace (a' ++ Some (PipeEnd id false) :: b ++ None :: c) with ((a' ++ Some (PipeEnd id false) :: b) ++ None :: c) by by rewrite <- app_assoc.
  rewrite fd_put_at by (apply Forall_app; split; [done|by constructor]). rewrite <- app_assoc. do 2 f_equal.
  f_equal. unfold zlen. rewrite length_app. cbn [length]. lia.
Qed.

Lemma std_set t i f : std t = true → (i < 2)%nat → std (<[i := Some f]> t) = true ∧ is_Some (t !! i).
Proof.
  unfold std. destruct t as [|[f0|] [|[f1|] [|[f2|] rest]]]; try done. intros H Hi. destruct i as [|[|i]]; [done|done|lia].
Qed.

(** [close(fd)] and the next [open] of the shell: the file gets the descriptor. *)
Lemma redir_fd t fd f :
  std t = true → (fd =? 0) || (fd =? 1) = true → fd_put (fd_close t fd) f = Some (fd, <[Z.to_nat fd := Some f]> t).
Proof.
  unfold std. destruct t as [|[f0|] [|[f1|] [|[f2|] rest]]]; try done. intros _ Hfd.
  apply orb_true_iff in Hfd as [E|E]; apply Z.eqb_eq in E; subst; done.
Qed.

(** [close(i); dup(p); close(p[0]); close(p[1])] in a child of a pipe. *)
Lemma plumb a b c i f0 f1 :
  let t := a ++ None :: b ++ None :: c in
  let t' := a ++ Some f0 :: b ++ Some f1 :: c in
  std t = true → Forall is_Some a → (3 ≤ length a)%nat → i = 0 ∨ i = 1 →
  (let p := zlen a in
   fd_close (fd_close (fd_dup (fd_close t' i) p) (zlen a)) (zlen a + 1 + zlen b) = <[Z.to_nat i := Some f0]> t) ∧
  (let p := zlen a + 1 + zlen b in
   fd_close (fd_close (fd_dup (fd_close t' i) p) (zlen a)) (zlen a + 1 + zlen b) = <[Z.to_nat i := Some f1]> t).
Proof.
  intros t t' Hstd Ha Hlen Hi. destruct a as [|[g0|] [|[g1|] [|[g2|] a]]]; try (cbn in Hlen; lia);
    try (by repeat match goal with H : Forall is_Some (_ :: _) |- _ => apply Forall_cons in H as [? ?] end;
         match goal with H : is_Some None |- _ => by destruct H end).
  set (p0 := zlen _). set (p1 := p0 + 1 + zlen b). unfold zlen in p0. cbn [length] in p0.
  assert (Hdup : ∀ p f, 3 ≤ p → t' !! Z.to_nat p = Some (Some f) → fd_dup (fd_close t' i) p = <[Z.to_nat i := Some f]> t').
  { intros p f Hp Hf. unfold fd_dup, fd_at. rewrite (proj2 (Z.ltb_ge p 0)) by lia.
    replace (fd_close t' i !! Z.to_nat p) with (t' !! Z.to_nat p);
      [|unfold fd_close; destruct Hi as [-> | ->]; cbn [Z.ltb Z.compare]; symmetry; apply list_lookup_insert_ne; lia].
    rewrite Hf. cbn [default]. by destruct Hi as [-> | ->]. }
  assert (Hback : ∀ f, fd_close (fd_close (<[Z.to_nat i := Some f]> t') p0) p1 = <[Z.to_nat i := Some f]> t).
  { intros f. unfold fd_close. rewrite !(proj2 (Z.ltb_ge _ 0)) by (unfold p1, p0, zlen; lia).
    rewrite (list_insert_insert_ne _ (Z.to_nat p0)), (list_insert_insert_ne _ (Z.to_nat p1)) by (unfold p1, p0, zlen; lia). f_equal.
    unfold t', t. rewrite insert_app_r_alt by (unfold p0; cbn [length]; lia).
    replace (Z.to_nat p0 - _)%nat with 0%nat by (unfold p0; cbn [length]; lia). cbn [insert list_insert].
    rewrite insert_app_r_alt by (unfold p1, p0, zlen; cbn [length]; lia).
    replace (Z.to_nat p1 - _)%nat with (S (length b + 0)) by (unfold p1, p0, zlen; cbn [length]; lia). cbn [insert list_insert].
    do 2 f_equal. by rewrite (insert_app_r b _ 0). }
  split; cbv zeta.
  - rewrite (Hdup p0 f0); [apply Hback|unfold p0; lia|]. unfold t'. rewrite lookup_app_r by (unfold p0; cbn [length]; lia).
    by replace (Z.to_nat p0 - _)%nat with 0%nat by (unfold p0; cbn [length]; lia).
  - rewrite (Hdup _ f1); [apply Hback|unfold p1, p0, zlen; lia|]. unfold t'. rewrite lookup_app_r by (unfold p1, p0, zlen; cbn [length]; lia).
    replace (Z.to_nat p1 - _)%nat with (S (length b + 0)) by (unfold p1, p0, zlen; cbn [length]; lia).
    change ((b ++ Some f1 :: c) !! (length b + 0)%nat = Some (Some f1)). by rewrite lookup_app_r, Nat.add_0_r, Nat.sub_diag by lia.
Qed.

(** ** What a program still has to start *)

(** Only prints and exits. *)
Fixpoint quiet (p : prog) : bool :=
  match p with PExit _ => true | PFprintf _ _ k => quiet k | _ => false end.

Section shell.
Context (pid : list nat → Z) (Hpid : ∀ w, 0 < pid w).

(** The programs a process and its children will start when nothing fails. *)
Fixpoint residual (p : prog) (w : list nat) (n : nat) (t : table) : list launch :=
  match p with
  | PExit _ | PSpin => []
  | PExec path argv _ => [mk_launch path argv t]
  | PClose fd k => residual k w n (fd_close t fd)
  | POpen file mode k =>
      match fd_put t (Opened file mode) with
      | Some (fd, t') => residual (k fd) w n t'
      | None => residual (k (-1)) w n t
      end
  | PDup fd k => residual k w n (fd_dup t fd)
  | PPipe k =>
      match fd_pipe t (n :: w) with
      | Some (p0, p1, t') => residual (k 0 p0 p1) w (S n) t'
      | None => residual (k (-1) 0 0) w n t
      end
  | PFork k => residual (k 0) (n :: w) 0 t ++ residual (k (pid (n :: w))) w (S n) t
  | PChdir _ k => residual (k 0) w n t
  | PWait k | PFprintf _ _ k => residual k w n t
  end.

(** A program that gives up after a failure, except for a failed [chdir]. *)
Fixpoint careful (p : prog) : Prop :=
  match p with
  | PExit _ => True
  | PSpin => False
  | PExec _ _ k => quiet k = true
  | PClose _ k | PDup _ k | PWait k | PFprintf _ _ k => careful k
  | POpen _ _ k => (∀ r, careful (k r)) ∧ quiet (k (-1)) = true
  | PPipe k => ∀ r p0 p1, careful (k r p0 p1) ∧ quiet (k (-1) p0 p1) = true
  | PFork k => (∀ r, careful (k r)) ∧ quiet (k (-1)) = true
  | PChdir _ k => ∀ r, careful (k r) ∧ ∀ w n t, residual (k r) w n t = residual (k 0) w n t
  end.

Lemma quiet_nothing p : quiet p = true → careful p ∧ ∀ w n t, residual p w n t = [].
Proof using Type. induction p; cbn; done || auto. Qed.

Lemma fork1_careful k : (∀ r, careful (k r)) → careful (fork1 k).
Proof using Type. intros H. unfold fork1. cbn. split; [|done]. intros r. destruct (r =? -1); [done|apply H]. Qed.

Lemma runcmd_careful c : careful (runcmd c).
Proof using Type.
  induction c as [[|a argv]|c IH file m d|l IHl r IHr|l IHl r IHr|c IH]; cbn [runcmd]; try done.
  - cbn. split; [|done]. intros r. destruct (r <? 0); done.
  - intros res p0 p1. cbn. split; [|done]. destruct (res <? 0); [done|]. apply fork1_careful. intros x. destruct (x =? 0); [done|].
    apply fork1_careful. intros y. by destruct (y =? 0).
  - apply fork1_careful. intros x. by destruct (x =? 0).
  - apply fork1_careful. intros x. by destruct (x =? 0).
Qed.

Lemma residual_fork1 k w n t : residual (fork1 k) w n t = residual (k 0) (n :: w) 0 t ++ residual (k (pid (n :: w))) w (S n) t.
Proof using Hpid. unfold fork1. cbn [residual Z.eqb]. rewrite (proj2 (Z.eqb_neq _ (-1))); [done|]. specialize (Hpid (n :: w)). lia. Qed.

(** The program of a command starts the programs of the command. *)
Lemma runcmd_plan c : ∀ w n t, redirs_ok c = true → std t = true → residual (runcmd c) w n t = plan c w n t.
Proof using Hpid.
  assert (Hne : ∀ w', (pid w' =? 0) = false) by (intros w'; specialize (Hpid w'); lia).
  induction c as [[|a argv]|c IH file m d|l IHl r IHr|l IHl r IHr|c IH]; intros w n t Hok Hstd; cbn [runcmd plan redirs_ok] in *; try done.
  - apply andb_true_iff in Hok as [Hok Hd]. cbn [residual]. rewrite (redir_fd t d _ Hstd Hd), (proj2 (Z.ltb_ge d 0)) by lia.
    apply IH; [done|]. apply std_set; [done|lia].
  - apply andb_true_iff in Hok as [Hl Hr]. cbn [residual]. destruct (std_pipe t (n :: w) Hstd) as (a & b & c & Et & Ha & Hb & Hlen & ->).
    cbn [Z.ltb Z.compare]. rewrite residual_fork1, Hne, residual_fork1, Hne. cbn [Z.eqb residual].
    rewrite Et in Hstd. destruct (plumb a b c 1 (PipeEnd (n :: w) false) (PipeEnd (n :: w) true) Hstd Ha Hlen ltac:(by right)) as [_ ->].
    destruct (plumb a b c 0 (PipeEnd (n :: w) false) (PipeEnd (n :: w) true) Hstd Ha Hlen ltac:(by left)) as [-> _].
    rewrite <- Et in *. rewrite IHl, IHr, app_nil_r by (done || by apply std_set; [|lia]). done.
  - apply andb_true_iff in Hok as [Hl Hr]. rewrite residual_fork1, Hne. cbn [Z.eqb residual]. by rewrite IHl, IHr.
  - rewrite residual_fork1, Hne. cbn [Z.eqb residual]. by rewrite app_nil_r, IH.
Qed.

(** ** Any interleaving *)

Definition pending (p : process) : list launch :=
  match stat p with Shell pr => residual pr (way p) (made p) (fds p) | _ => [] end.

Definition good (p : process) : Prop := match stat p with Shell pr => careful pr | _ => True end.

Lemma call_ok p p' child failed :
  call pid p p' child failed → good p →
  Forall good (p' :: option_list child) ∧
  if failed then pending p' = [] ∧ starts_now p p' = [] ∧ child = None
  else pending p ≡ₚ starts_now p p' ++ pending p' ++ (option_list child ≫= pending).
Proof using Type.
  unfold good, pending, starts_now. intros Hc Hg.
  destruct Hc; cbn [stat way made fds option_list mbind list_bind] in *; rewrite ?app_nil_r;
    try (match goal with H : _ = Some _ |- _ => cbn [residual]; rewrite H end).
  all: try (split; [repeat constructor; cbn in *; try done; by apply Hg|]).
  all: try done.
  - split; [repeat constructor; cbn; by apply quiet_nothing|]. split; [by apply quiet_nothing|done].
  - destruct Hg as [H1 H2]. split_and!; try done. by apply quiet_nothing.
  - destruct (Hg (-1) p0 p1) as [H1 H2]. split_and!; try done. by apply quiet_nothing.
  - cbn. rewrite app_nil_r, Permutation_app_comm. done.
  - destruct Hg as [H1 H2]. split_and!; try done. by apply quiet_nothing.
  - destruct (Hg r) as [_ ->]. done.
Qed.

Lemma pool_split (ps : list process) i p :
  ps !! i = Some p → ∃ l1 l2, ps = l1 ++ p :: l2 ∧ ∀ p', <[i := p']> ps = l1 ++ p' :: l2.
Proof using Type.
  clear. intros H. exists (take i ps), (drop (S i) ps). split; [by rewrite take_drop_middle|].
  intros p'. rewrite insert_take_drop; [done|]. by apply lookup_lt_Some in H.
Qed.

(** The programs started and those still to start. *)
Definition total (s : pool) : list launch := started s ++ (procs s ≫= pending).

Record pool_ok (b : bool) (s : pool) (all : list launch) : Prop := {
  po_good : Forall good (procs s);
  po_sub : total s ⊆+ all;
  po_all : b = false → total s ≡ₚ all;
}.

(** A process that goes on as planned. *)
Lemma pool_ok_same b s s' all : pool_ok b s all → Forall good (procs s') → total s' = total s → pool_ok b s' all.
Proof using Type. intros [Hg Hs Ha] Hg' E. by constructor; rewrite ?E. Qed.

Lemma wait_same ps i w n t k :
  ps !! i = Some (mk_process w n t (Shell (PWait k))) → Forall good ps →
  Forall good (<[i := mk_process w n t (Shell k)]> ps) ∧ (<[i := mk_process w n t (Shell k)]> ps ≫= pending) = (ps ≫= pending).
Proof using Type.
  intros Hi Hg. destruct (pool_split _ _ _ Hi) as (l1 & l2 & -> & ->). apply Forall_app in Hg as [G1 G2]. apply Forall_cons in G2 as [G2 G3].
  split; [apply Forall_app; split; [done|]; by constructor|]. by rewrite !bind_app.
Qed.

Lemma step_pool_ok b b' s s' all : pool_ok b s all → step pid s b' s' → pool_ok (b || b') s' all.
Proof using Type.
  intros Hok Hst. destruct Hst as [ps log i p p' child failed Hi Hc|ps log i j w n t k z Hi Hj Hch Hz|ps log i w n t k Hi Hno].
  - destruct Hok as [Hg Hs Ha]. destruct (pool_split _ _ _ Hi) as (l1 & l2 & -> & E). cbn [procs] in *.
    apply Forall_app in Hg as [G1 G2]. apply Forall_cons in G2 as [G2 G3]. destruct (call_ok _ _ _ _ Hc G2) as [Gp Hp].
    apply Forall_cons in Gp as [Gp Gc]. unfold total in *. cbn [procs started] in *. rewrite E. set (new := option_list child) in *.
    assert (Hpf : Forall good (l1 ++ p' :: l2)) by (apply Forall_app; split; [done|by constructor]).
    assert (El : (l1 ++ p :: l2) ≫= pending ≡ₚ pending p ++ (l1 ++ l2) ≫= pending).
    { rewrite !bind_app. cbn. by rewrite (Permutation_app_swap_app (l1 ≫= pending)). }
    assert (El' : ((l1 ++ p' :: l2) ++ new) ≫= pending ≡ₚ pending p' ++ (new ≫= pending) ++ (l1 ++ l2) ≫= pending).
    { rewrite !bind_app. cbn. rewrite (Permutation_app_swap_app (l1 ≫= pending)), <- app_assoc. f_equiv. apply Permutation_app_comm. }
    destruct failed.
    + destruct Hp as (Hp' & Hst & ->). rewrite Hst, (app_nil_r log). constructor; cbn [procs started]; [apply Forall_app; auto| |by rewrite orb_true_r].
      unfold total. cbn [procs started]. rewrite El', Hp'. cbn. etrans; [|exact Hs]. rewrite El. apply submseteq_skips_l, submseteq_inserts_l. done.
    + rewrite orb_false_r. assert (Et : (log ++ starts_now p p') ++ ((l1 ++ p' :: l2) ++ new) ≫= pending ≡ₚ log ++ (l1 ++ p :: l2) ≫= pending).
      { rewrite El', El, Hp, <- !app_assoc. done. }
      constructor; unfold total; cbn [procs started]; [apply Forall_app; auto|by rewrite Et|intros ->; by rewrite Et, Ha].
  - rewrite orb_false_r. destruct (wait_same _ _ _ _ _ _ Hi (po_good _ _ _ Hok)) as [G E]. cbn [procs] in *.
    assert (Hne : i ≠ j) by (intros ->; rewrite Hi in Hj; by simplify_eq). rewrite <- (list_lookup_insert_ne _ _ _ (mk_process w n t (Shell k)) Hne) in Hj.
    destruct (pool_split _ _ _ Hj) as (l1 & l2 & El & Ei). rewrite Ei. rewrite El in G, E. apply Forall_app in G as [G1 G2]. apply Forall_cons in G2 as [_ G3].
    apply (pool_ok_same _ _ _ _ Hok); cbn [procs]; [apply Forall_app; split; [done|by constructor]|].
    unfold total. cbn [procs started]. rewrite <- E, !bind_app. cbn. unfold pending at 2 4. by rewrite Hz.
  - rewrite orb_false_r. destruct (wait_same _ _ _ _ _ _ Hi (po_good _ _ _ Hok)) as [G E].
    apply (pool_ok_same _ _ _ _ Hok); cbn [procs]; [done|]. unfold total. cbn [procs started]. by rewrite E.
Qed.

Lemma steps_pool_ok s b s' all : steps pid s b s' → pool_ok false s all → pool_ok b s' all.
Proof using Type. intros H Hok. induction H as [|s b s' b' s'' H IH Hst]; [done|]. apply (step_pool_ok _ _ s'); auto. Qed.

(** A process that starts a program, alone. *)
Definition alone (p : prog) (t : table) : pool := mk_pool [mk_process [] 0 t (Shell p)] [].

Lemma alone_ok p t : careful p → pool_ok false (alone p t) (residual p [] 0 t).
Proof using Type.
  intros H. constructor; [by repeat constructor|..]; unfold total; cbn; unfold pending; cbn; by rewrite app_nil_r.
Qed.

Lemma ended_pending ps : Forall ended ps → ps ≫= pending = [].
Proof using Type.
  induction 1 as [|p ps Hp H IH]; cbn; [done|]. rewrite IH. unfold ended, pending in *. by destruct (stat p).
Qed.

Lemma launches p t b s :
  careful p → steps pid (alone p t) b s →
  started s ⊆+ residual p [] 0 t ∧ (b = false → all_ended s → started s ≡ₚ residual p [] 0 t).
Proof using Type.
  intros Hp Hs. destruct (steps_pool_ok _ _ _ _ Hs (alone_ok p t Hp)) as [_ Hsub Hall]. unfold total in *. split.
  - etrans; [|exact Hsub]. by apply submseteq_inserts_r.
  - intros Hb He. specialize (Hall Hb). by rewrite ended_pending, app_nil_r in Hall.
Qed.

(** A process that can go on by itself does. *)
Lemma call_progress p pr :
  stat p = Shell pr → careful pr → (∀ k, pr ≠ PWait k) → ∃ p' child failed, call pid p p' child failed.
Proof using Type.
  destruct p as [w n t st]. cbn [stat]. intros -> Hc Hw.
  destruct pr as [st|path argv k|fd k|file mode k|fd k|k|k|k|path k|fd msg k|]; [..|done];
    [eexists _, _, _; by constructor..| | | | |eexists _, _, _; by constructor].
  - exists (mk_process w n t (Shell (k (-1) 0 0))), None, true. constructor.
  - eexists _, _, _. apply call_fork.
  - by destruct (Hw k).
  - exists (mk_process w n t (Shell (k 0))), None, false. constructor.
Qed.

Lemma longest (P : process → Prop) `{∀ p, Decision (P p)} ps :
  Exists P ps → ∃ p, p ∈ ps ∧ P p ∧ ∀ q, q ∈ ps → P q → (length (way q) ≤ length (way p))%nat.
Proof using Type.
  clear Hpid pid. intros He. induction ps as [|p ps IH]; [by apply Exists_nil in He|]. destruct (decide (Exists P ps)) as [Hps|Hno].
  - destruct (IH Hps) as (m & Hm & Pm & Hmax). destruct (decide (P p)) as [Pp|Np].
    + destruct (decide (length (way p) ≤ length (way m))%nat) as [Hle|Hgt].
      * exists m. split; [by right|]. split; [done|]. intros q Hq Pq. apply elem_of_cons in Hq as [->|Hq]; [done|auto].
      * exists p. split; [by left|]. split; [done|]. intros q Hq Pq. apply elem_of_cons in Hq as [->|Hq]; [done|]. specialize (Hmax q Hq Pq). lia.
    + exists m. split; [by right|]. split; [done|]. intros q Hq Pq. apply elem_of_cons in Hq as [->|Hq]; [done|auto].
  - apply Exists_cons in He as [Pp|]; [|done]. exists p. split; [by left|]. split; [done|]. intros q Hq Pq.
    apply elem_of_cons in Hq as [->|Hq]; [done|]. destruct Hno. apply Exists_exists. eauto.
Qed.

#[local] Instance ended_dec p : Decision (¬ ended p).
Proof using Type. unfold ended. destruct (stat p); apply _. Defined.

#[local] Instance zombie_dec w p : Decision (child_of w p ∧ stat p = Zombie).
Proof using Type.
  clear Hpid pid. apply and_dec; [|destruct (stat p); by (left + right)].
  unfold child_of. destruct (way p) as [|i w']; [right; by intros [i E]|].
  destruct (decide (w' = w)) as [->|Hne]; [left; by exists i|right; intros [j E]; by simplify_eq].
Defined.

Lemma waits_or_not pr : (∃ k, pr = PWait k) ∨ ∀ k, pr ≠ PWait k.
Proof using Type. destruct pr; try (by right). left. eauto. Qed.

(** As long as a process has not ended, one can go on: the one deepest in the tree
    waits only for processes that have ended. *)
Lemma pool_progress s : Forall good (procs s) → ¬ all_ended s → ∃ b s', step pid s b s'.
Proof using Type.
  intros Hg Hne. destruct s as [ps log]. cbn [procs] in *. unfold all_ended in Hne. cbn [procs] in Hne.
  assert (Hex : Exists (λ p, ¬ ended p) ps).
  { destruct (decide (Exists (λ p, ¬ ended p) ps)) as [|Hno]; [done|]. destruct Hne. apply Forall_forall. intros p Hp.
    destruct (decide (¬ ended p)) as [Hn|Hn]; [destruct Hno; apply Exists_exists; eauto|]. unfold ended in *. by destruct (stat p); tauto. }
  destruct (longest _ ps Hex) as (p & Hp & Hpe & Hmax). apply list_elem_of_lookup_1 in Hp as [i Hi].
  pose proof (proj1 (Forall_forall _ _) Hg p (list_elem_of_lookup_2 _ _ _ Hi)) as Gp. destruct (stat p) as [pr|l| |] eqn:Est;
    try (destruct Hpe; unfold ended; by rewrite Est).
  - unfold good in Gp. rewrite Est in Gp. destruct (waits_or_not pr) as [[k ->]|Hnw].
    + destruct p as [w n t st]. cbn [stat] in Est. subst st. clear Gp.
      destruct (decide (Exists (λ q, child_of w q ∧ stat q = Zombie) ps)) as [Hz|Hno].
      * apply Exists_exists in Hz as (z & Hz & Hch & Ez). apply list_elem_of_lookup_1 in Hz as [j Hj]. eexists _, _. by eapply step_wait.
      * eexists _, _. eapply step_wait_none; [done|]. intros q Hq Hch. destruct (decide (¬ ended q)) as [Hqe|Hqe].
        -- specialize (Hmax q Hq Hqe). destruct Hch as [x Ex]. rewrite Ex in Hmax. cbn in Hmax. lia.
        -- destruct (stat q) eqn:Eq; try (destruct Hqe; unfold ended; by rewrite Eq); [|done]. destruct Hno. apply Exists_exists. eauto.
    + destruct (call_progress p pr Est Gp) as (p' & child & failed & Hc); [done|]. eexists _, _. by eapply step_call.
  - destruct p as [w n t st]. cbn [stat] in Est. subst st. eexists _, _. eapply step_call; [done|constructor].
Qed.
End shell.

(** ** The lines of [main] *)

(** A command that fits a line, has a word in it, and does not start with [cd]. *)
Definition line_ok (c : cmd (list Z)) : bool :=
  cmd_ok c && negb (zlen (toks c LLine) =? 0) && (zlen (print_cmd c) <? 100) && negb (is_cd (print_cmd c)).

(** The programs of several lines, each line a child of the shell. *)
Fixpoint main_plan (cs : list (cmd (list Z))) (n : nat) (t : table) : list launch :=
  match cs with [] => [] | c :: cs' => plan c [n] 0 t ++ main_plan cs' (S n) t end.

Definition clean (t : list Z) : bool := forallb (λ c, negb ((c =? 0) || (c =? 10) || (c =? 13))) t.

Lemma word_clean w : is_word w = true → clean w = true.
Proof.
  unfold is_word, clean. intros H. apply andb_true_iff in H as [_ H]. rewrite forallb_forall in *. intros c Hc. specialize (H c Hc).
  apply andb_true_iff in H as [Hw H0]. apply negb_true_iff. unfold wordc in Hw.
  destruct (Z.eqb_spec c 10) as [->|]; [done|]. destruct (Z.eqb_spec c 13) as [->|]; [done|]. lia.
Qed.

Lemma render_line ts : ts ≠ [] → forallb clean ts = true → ∃ l, render ts = l ++ [10] ∧ clean l = true.
Proof.
  induction ts as [|t ts IH]; [done|]. intros _ H. cbn [forallb] in H. apply andb_true_iff in H as [Ht H]. rewrite render_cons.
  destruct ts as [|t' ts]; [by exists t|]. destruct (IH ltac:(done) H) as (l & -> & Hl). exists (t ++ 32 :: l). cbn [sep].
  split; [by rewrite <- app_assoc|]. unfold clean in *. rewrite forallb_app, Ht. done.
Qed.

Lemma gets_line l rest fuel i max :
  clean l = true → i + zlen l + 1 < max → (length l < fuel)%nat → Lib.gets_loop fuel (l ++ 10 :: rest) i max = (l ++ [10], rest).
Proof.
  revert fuel i. induction l as [|c l IH]; intros fuel i Hl Hi Hf; (destruct fuel as [|fuel]; [cbn in Hf; lia|]); cbn [app Lib.gets_loop].
  - by rewrite (proj2 (Z.ltb_lt (i + 1) max)) by (unfold zlen in Hi; cbn in Hi; lia).
  - unfold zlen in Hi. cbn [length] in Hi, Hf. rewrite (proj2 (Z.ltb_lt (i + 1) max)) by lia.
    unfold clean in Hl. cbn [forallb] in Hl. apply andb_true_iff in Hl as [Hc Hl]. replace ((c =? 10) || (c =? 13)) with false by lia.
    rewrite (IH fuel (i + 1) Hl) by (unfold zlen; lia). done.
Qed.

Lemma upto_nul_clean l : clean l = true → upto_nul (l ++ [10]) = l ++ [10].
Proof.
  induction l as [|c l IH]; [done|]. unfold clean. cbn [forallb app upto_nul]. intros H. apply andb_true_iff in H as [Hc H].
  destruct (Z.eqb_spec c 0); [subst; done|]. by rewrite IH.
Qed.

Lemma cmd_redirs c : cmd_ok c = true → redirs_ok c = true.
Proof.
  induction c as [argv|c IH file m d|l IHl r IHr|l IHl r IHr|c IH]; cbn [cmd_ok redirs_ok]; rewrite ?andb_true_iff; try done.
  - intros [[H _] Hr]. split; [auto|]. unfold redir_ok in Hr. lia.
  - intros [H1 H2]. auto.
  - intros [H1 H2]. auto.
Qed.

Lemma getcmd_line c rest : line_ok c = true → getcmd (print_cmd c ++ rest) 100 = (Some (print_cmd c), rest).
Proof.
  unfold line_ok. rewrite !andb_true_iff. intros [[[Hok Hne] Hlen] _].
  destruct (render_line (toks c LLine)) as (l & El & Hl).
  { by destruct (toks c LLine). }
  { by apply toks_forallb; [exact word_clean|..]. }
  fold (print_cmd c) in El. unfold getcmd, Lib.gets. rewrite El in *. rewrite <- app_assoc. cbn [app].
  apply Z.ltb_lt in Hlen. unfold zlen in Hlen. rewrite length_app in Hlen. cbn [length] in Hlen.
  rewrite gets_line by (done || unfold zlen; lia). rewrite upto_nul_clean by done. by destruct l.
Qed.

Lemma run_line_print c : cmd_ok c = true → run_line (print_cmd c) = Ok (runcmd c).
Proof.
  intros Hok. destruct (print_parsed c Hok) as (c' & E & Hw & Ec). unfold run_line. rewrite E. do 2 f_equal.
  rewrite strings_slices; [done|by apply print_nul|done].
Qed.

Lemma main_loop_lines pid (Hpid : ∀ w, 0 < pid w) t cs : ∀ fuel n,
  std t = true → forallb line_ok cs = true → (length (concat (print_cmd <$> cs)) < fuel)%nat →
  ∃ p, main_loop fuel (concat (print_cmd <$> cs)) = Ok p ∧ careful pid p ∧ residual pid p [] n t = main_plan cs n t.
Proof.
  induction cs as [|c cs IH]; intros fuel n Hstd Hcs Hf; (destruct fuel as [|fuel]; [lia|]); cbn [main_loop].
  { by exists (PExit 0). }
  cbn [fmap list_fmap concat forallb] in *. apply andb_true_iff in Hcs as [Hc Hcs]. rewrite (getcmd_line c _ Hc).
  pose proof Hc as Hc'. unfold line_ok in Hc'. rewrite !andb_true_iff in Hc'. destruct Hc' as [[[Hok Hne] _] Hcd].
  rewrite length_app in Hf. assert (Hpos : (0 < length (print_cmd c))%nat).
  { unfold print_cmd. destruct (toks c LLine) as [|t0 ts]; [done|]. rewrite render_cons, length_app. cbn. lia. }
  destruct (IH fuel (S n) Hstd Hcs ltac:(lia)) as (p & -> & Hp & Hres). rewrite bind_Ok.
  apply negb_true_iff in Hcd. rewrite Hcd, (run_line_print c Hok), bind_Ok. eexists. split; [reflexivity|]. split.
  - apply fork1_careful. intros r. destruct (r =? 0); [apply runcmd_careful|done].
  - rewrite residual_fork1 by done. rewrite (proj2 (Z.eqb_neq (pid [n]) 0)) by (specialize (Hpid [n]); lia). cbn [Z.eqb residual main_plan].
    by rewrite runcmd_plan, Hres by (done || by apply cmd_redirs).
Qed.

(** The loop that makes sure descriptors 0, 1 and 2 are open leaves a table alone
    in which they are. *)
Lemma open_console_std pid k w n t : std t = true → residual pid (open_console 4 k) w n t = residual pid k w n t.
Proof.
  intros Hstd. destruct (std_pipe t [] Hstd) as (a & b & c & -> & Ha & _ & Hlen & _). cbn [open_console residual].
  rewrite (fd_put_at a _ _ Ha). rewrite (proj2 (Z.leb_le 0 (zlen a))), (proj2 (Z.leb_le 3 (zlen a))) by (unfold zlen; lia).
  cbn [residual]. f_equal. unfold fd_close. rewrite (proj2 (Z.ltb_ge (zlen a) 0)) by (unfold zlen; lia). unfold zlen. rewrite Nat2Z.id.
  by rewrite insert_app_r_alt, Nat.sub_diag by done.
Qed.

(** C8: the loop of the shell's [main], given the lines of any commands that fit
    them and started with descriptors 0 to 2 open and two more free: however its processes and those of the programs interleave and whatever
    calls fail, every program started is one the commands name, with the
    descriptors the command says - redirections in place, the ends of its pipes at
    0 and 1, and no other pipe end open; and when no call fails, all of them have
    been started once everything has ended. *)
Theorem main_launches pid t cs b s :
  (∀ w, 0 < pid w) → std t = true → forallb line_ok cs = true →
  let input := concat (print_cmd <$> cs) in
  ∃ p, main_loop (S (length input)) input = Ok p ∧
    (steps pid (alone p t) b s →
     started s ⊆+ main_plan cs 0 t ∧ (b = false → all_ended s → started s ≡ₚ main_plan cs 0 t)).
Proof.
  intros Hpid Hstd Hcs input. destruct (main_loop_lines pid Hpid t cs (S (length input)) 0 Hstd Hcs ltac:(unfold input; lia)) as (p & E & Hp & Hres).
  exists p. split; [done|]. intros Hs. rewrite <- Hres. by apply launches.
Qed.

(** The processes of the shell never get stuck: whatever has happened so far
    while a command runs, as long as one of its processes has not ended, some
    process can go on - no process waits for one that waits for it. *)
Theorem runcmd_progress pid c t b s :
  steps pid (alone (runcmd c) t) b s → ¬ all_ended s → ∃ b' s', step pid s b' s'.
Proof.
  intros Hs. apply pool_progress. apply (steps_pool_ok _ _ _ _ _ Hs (alone_ok pid _ t (runcmd_careful pid c))).
Qed.

(** A run of the line [ls]. *)
Definition std3 : table := [Some (Inherited 0); Some (Inherited 1); Some (Inherited 2); None; None].
Definition ls_launch : launch := mk_launch (chars "ls") [chars "ls"] std3.
Definition ls_done : pool := mk_pool [mk_process [] 1 std3 Zombie; mk_process [0%nat] 0 std3 Gone] [ls_launch].

Lemma ls_runs p :
  main_loop 4 (chars "ls" ++ [10]) = Ok p → steps (λ _, 7) (alone p std3) false ls_done.
Proof.
  intros E. vm_compute in E. injection E as <-.
  match goal with |- steps _ ?s _ _ => pose proof (steps_refl (λ _, 7) s) as H end.
  eapply steps_snoc in H; [|eapply (step_call _ _ _ 0); [reflexivity|apply call_fork]].
  eapply steps_snoc in H; [|eapply (step_call _ _ _ 1); [reflexivity|apply call_exec]].
  eapply steps_snoc in H; [|eapply (step_call _ _ _ 1); [reflexivity|apply call_ends]].
  eapply steps_snoc in H; [|eapply (step_wait _ _ _ 0 1); [reflexivity|reflexivity|by exists 0%nat|reflexivity]].
  eapply steps_snoc in H; [|eapply (step_call _ _ _ 0); [reflexivity|apply call_exit]].
  exact H.
Qed.

Lemma main_launches_witness :
  let c := EXEC [chars "ls"] in
  ∃ p, main_loop 4 (concat (print_cmd <$> [c])) = Ok p ∧ steps (λ _, 7) (alone p std3) false ls_done ∧
    started ls_done ≡ₚ main_plan [c] 0 std3.
Proof.
  intros c. destruct (main_launches (λ _, 7) std3 [c] false ls_done) as (p & E & H).
  - intros _. lia.
  - reflexivity.
  - vm_compute. reflexivity.
  - exists p. assert (Hs : steps (λ _, 7) (alone p std3) false ls_done) by (apply ls_runs; exact E).
    split; [exact E|]. split; [exact Hs|]. destruct (H Hs) as [_ Hall]. apply Hall; [reflexivity|]. repeat constructor.
Defined.

Lemma runcmd_progress_witness :
  let s := alone (runcmd (PIPE (EXEC [chars "ls"]) (EXEC [chars "wc"]))) std3 in
  ∃ b' s', step (λ _, 7) s b' s'.
Proof.
  intros s. apply (runcmd_progress (λ _, 7) (PIPE (EXEC [chars "ls"]) (EXEC [chars "wc"])) std3 false s); [apply steps_refl|].
  intros H. apply Forall_cons in H as [H _]. exact H.
Defined.
