(* ===== verification/Umalloc.v ===== *)
(** * The user-level allocator: [user/umalloc.c].

    The memory of the process is seen as headers: [hdr] holds the header at every
    address where one was written, and a header that was never written is zero. Only
    the static [base] and the heap may be touched. [sbrk] is the kernel's: it
    answers with the old break, or refuses. *)

From Stdlib Require Import ZifyBool Sorting.Sorted.
From S2P Require Import Prelude.

Record header := mk_header { hptr : Z; hsize : Z }.
Definition HSZ : Z := 16.

Record uheap := mk_uheap { hdr : gmap Z header; freep : Z; brk : Z }.

Section umalloc.
(** The address of [base], the start of the heap, and whether the kernel grants [n]
    more bytes. *)
Context (BASE LO : Z) (grants : Z → Z → bool).

Definition may_touch (s : uheap) (p : Z) : bool := (p =? BASE) || ((LO <=? p) && (p + HSZ <=? brk s)).

Definition get_hdr (s : uheap) (p : Z) : outcome header :=
  if may_touch s p then Ok (default (mk_header 0 0) (hdr s !! p)) else Fault.

Definition put_hdr (s : uheap) (p : Z) (x : header) : uheap := mk_uheap (<[p := x]> (hdr s)) (freep s) (brk s).

Definition set_ptr (s : uheap) (p v : Z) : outcome uheap :=
  x ← get_hdr s p; Ok (put_hdr s p (mk_header v (hsize x))).

Definition set_size (s : uheap) (p v : Z) : outcome uheap :=
  x ← get_hdr s p; Ok (put_hdr s p (mk_header (hptr x) v)).

Definition set_freep (s : uheap) (p : Z) : uheap := mk_uheap (hdr s) p (brk s).

(** The loop of [free]: the free block after which [bp] belongs. *)
Fixpoint free_find (fuel : nat) (s : uheap) (bp p : Z) : outcome Z :=
  match fuel with
  | O => Hang
  | S fuel' =>
      x ← get_hdr s p;
      if (p <? bp) && (bp <? hptr x) then Ok p
      else if (hptr x <=? p) && ((p <? bp) || (bp <? hptr x)) then Ok p
      else free_find fuel' s bp (hptr x)
  end.

Definition free (fuel : nat) (s : uheap) (ap : Z) : outcome uheap :=
  let bp := ap - HSZ in
  p ← free_find fuel s bp (freep s);
  b ← get_hdr s bp;
  x ← get_hdr s p;
  s ← (if bp + HSZ * hsize b =? hptr x then
         y ← get_hdr s (hptr x);
         s ← set_size s bp (u32 (hsize b + hsize y));
         x ← get_hdr s p;
         y ← get_hdr s (hptr x);
         set_ptr s bp (hptr y)
       else set_ptr s bp (hptr x));
  x ← get_hdr s p;
  s ← (if p + HSZ * hsize x =? bp then
         b ← get_hdr s bp;
         s ← set_size s p (u32 (hsize x + hsize b));
         b ← get_hdr s bp;
         set_ptr s p (hptr b)
       else set_ptr s p bp);
  Ok (set_freep s p).

(** [sbrk(n)], with [sys_sbrk] and [growproc]: a negative [n] that reaches below
    zero changes nothing. *)
Definition sbrk (s : uheap) (n : Z) : Z * uheap :=
  if n <? 0 then (brk s, mk_uheap (hdr s) (freep s) (if brk s + n <? 0 then brk s else brk s + n))
  else if grants (brk s) n then (brk s, mk_uheap (hdr s) (freep s) (brk s + n))
  else (-1, s).

Definition morecore (fuel : nat) (s : uheap) (nu : Z) : outcome (Z * uheap) :=
  let nu := if nu <? 4096 then 4096 else nu in
  let '(p, s) := sbrk s (i32 (nu * HSZ)) in
  if p =? -1 then Ok (0, s)
  else
    s ← set_size s p nu;
    s ← free fuel s (p + HSZ);
    Ok (freep s, s).

Fixpoint malloc_loop (fuel : nat) (s : uheap) (nunits prevp p : Z) : outcome (Z * uheap) :=
  match fuel with
  | O => Hang
  | S fuel' =>
      x ← get_hdr s p;
      if nunits <=? hsize x then
        if hsize x =? nunits then
          s ← set_ptr s prevp (hptr x);
          Ok (p + HSZ, set_freep s prevp)
        else
          s ← set_size s p (u32 (hsize x - nunits));
          x ← get_hdr s p;
          let p := p + HSZ * hsize x in
          s ← set_size s p nunits;
          Ok (p + HSZ, set_freep s prevp)
      else if p =? freep s then
        '(p, s) ← morecore fuel s nunits;
        if p =? 0 then Ok (0, s)
        else
          x ← get_hdr s p;
          malloc_loop fuel' s nunits p (hptr x)
      else malloc_loop fuel' s nunits p (hptr x)
  end.

Definition malloc (fuel : nat) (s : uheap) (nbytes : Z) : outcome (Z * uheap) :=
  let nunits := u32 ((nbytes + HSZ - 1) / HSZ + 1) in
  s ← (if freep s =? 0 then
         s ← set_ptr s BASE BASE;
         s ← set_size s BASE 0;
         Ok (set_freep s BASE)
       else Ok s);
  x ← get_hdr s (freep s);
  malloc_loop fuel s nunits (freep s) (hptr x).
End umalloc.

(** ** The invariant of the user-level allocator, and the walks over its free list.

    The free blocks form a ring through [base], in the order of their addresses and
    with a gap between any two of them; together with the blocks handed out they
    tile the heap. *)

(** A block: the address of its header and its size in units. *)
Notation block := (Z * Z)%type.

Definition bend (b : block) : Z := b.1 + HSZ * b.2.
Definition apart (b c : block) : Prop := bend b ≤ c.1 ∨ bend c ≤ b.1.
Definition gap (b c : block) : Prop := bend b < c.1.

(** The blocks met from [a] on until [z]. *)
Fixpoint seg (s : uheap) (a : Z) (l : list block) (z : Z) : Prop :=
  match l with
  | [] => a = z
  | b :: l' => a = b.1 ∧ ∃ nx, hdr s !! b.1 = Some (mk_header nx b.2) ∧ seg s nx l' z
  end.

Lemma seg_app s l1 : ∀ a l2 z, seg s a (l1 ++ l2) z ↔ ∃ m, seg s a l1 m ∧ seg s m l2 z.
Proof.
  induction l1 as [|b l1 IH]; intros a l2 z; cbn [app seg].
  - split; [intros H; by exists a|by intros (m & -> & H)].
  - split.
    + intros (-> & nx & Hb & H). apply IH in H as (m & H1 & H2). exists m. split; [|done]. split; [done|]. by exists nx.
    + intros (m & (-> & nx & Hb & H1) & H2). split; [done|]. exists nx. split; [done|]. apply IH. eauto.
Qed.

(** A segment does not see writes elsewhere. *)
Lemma seg_frame s s' l : ∀ a z, (∀ b, b ∈ l → hdr s' !! b.1 = hdr s !! b.1) → seg s a l z → seg s' a l z.
Proof.
  induction l as [|b l IH]; intros a z H; cbn [seg]; [done|]. intros (-> & nx & Hb & Hs). split; [done|].
  exists nx. split; [rewrite H; [done|by left]|]. apply IH; [|done]. intros c Hc. apply H. by right.
Qed.

(** Replacing the part of a list behind one of its blocks. *)
Lemma seg_splice s s' a G1 pv pn pn' M M' G2 z :
  seg s a (G1 ++ (pv, pn) :: M ++ G2) z →
  (∀ b, b ∈ G1 ++ G2 → hdr s' !! b.1 = hdr s !! b.1) →
  (∀ m g, hdr s !! pv = Some (mk_header m pn) → seg s m M g → ∃ m', hdr s' !! pv = Some (mk_header m' pn') ∧ seg s' m' M' g) →
  seg s' a (G1 ++ (pv, pn') :: M' ++ G2) z.
Proof.
  intros H Hf Hn. apply seg_app in H as (x & H1 & H2). cbn [seg] in H2. destruct H2 as (-> & m & Hpv & H2). cbn [fst snd] in *.
  apply seg_app in H2 as (g & HM & HG). destruct (Hn m g Hpv HM) as (m' & Hpv' & HM').
  apply seg_app. exists pv. split; [eapply seg_frame; [|exact H1]; intros b Hb; apply Hf, elem_of_app; by left|].
  split; [done|]. exists m'. split; [done|]. apply seg_app. exists g. split; [done|].
  eapply seg_frame; [|exact HG]. intros b Hb. apply Hf, elem_of_app. by right.
Qed.

Lemma seg_start s a b l z : seg s a (b :: l) z → a = b.1.
Proof. by intros [-> _]. Qed.

(** ** The invariant *)

Section inv.
Context (BASE LO : Z).

(** The free list alone. *)
Record flist (s : uheap) (L : list block) : Prop := {
  fl_ring : seg s BASE ((BASE, 0) :: L) BASE;
  fl_sorted : StronglySorted gap L;
  fl_free : Forall (λ b, LO ≤ b.1 ∧ 0 < b.2 ∧ bend b ≤ brk s ∧ (HSZ | b.1)) L;
  fl_freep : freep s ∈ ((BASE, 0) :: L).*1;
  fl_brk : LO ≤ brk s ≤ 2 ^ 31 ∧ (HSZ | brk s);
}.

(** With the blocks handed out: [A] gives their sizes. *)
Record used (s : uheap) (L : list block) (A : gmap Z Z) : Prop := {
  us_in : ∀ a n, A !! a = Some n → LO ≤ a ∧ 0 < n ∧ bend (a, n) ≤ brk s ∧ (HSZ | a) ∧ (hsize <$> hdr s !! a) = Some n;
  us_free : ∀ b a n, b ∈ L → A !! a = Some n → apart b (a, n);
  us_used : ∀ a n a' n', A !! a = Some n → A !! a' = Some n' → a ≠ a' → apart (a, n) (a', n');
  us_cover : ∀ x, LO ≤ x < brk s →
    (∃ b, b ∈ L ∧ b.1 ≤ x < bend b) ∨ (∃ a n, A !! a = Some n ∧ a ≤ x < bend (a, n));
}.
End inv.

(** Predecessors in a ring are predecessors in the list, when the block found is
    not the first. *)
Lemma ring_pred {A} (F1 F2 : list A) f x R0 b R1 :
  F2 ++ F1 ++ [f] = R0 ++ b :: R1 → head (F1 ++ [f]) = Some x → x ≠ b →
  ∃ G1 pv G2, F1 ++ f :: F2 = G1 ++ pv :: b :: G2 ∧ last (f :: R0) = Some pv.
Proof.
  intros E Hx Hne. destruct (decide (length R0 < length F2)%nat) as [Hlt|Hge].
  - assert (E2 : ∃ R1', F2 = R0 ++ b :: R1').
    { exists (take (length F2 - length R0 - 1) R1). apply (f_equal (take (length F2))) in E. rewrite take_app_length, take_app_ge in E by lia. rewrite E at 1. f_equal. destruct (length F2 - length R0)%nat as [|k] eqn:El; [lia|]. by replace (S k - 1)%nat with k by lia. }
    destruct E2 as [R1' ->]. destruct (last (f :: R0)) as [pv|] eqn:El; [|by apply last_None in El].
    apply last_Some in El as [X EX]. exists (F1 ++ X), pv, R1'. split; [|done].
    change (f :: R0 ++ b :: R1') with ((f :: R0) ++ b :: R1'). rewrite EX, <- !app_assoc. done.
  - assert (E2 : ∃ R0', R0 = F2 ++ R0' ∧ F1 ++ [f] = R0' ++ b :: R1).
    { exists (drop (length F2) R0). split.
      - apply (f_equal (take (length F2))) in E. rewrite take_app_length, take_app_le in E by lia.
        rewrite E at 1. by rewrite take_drop.
      - apply (f_equal (drop (length F2))) in E. rewrite drop_app_length, drop_app_le in E by lia. done. }
    destruct E2 as (R0' & -> & E2). destruct R0' as [|r R0'].
    { rewrite E2 in Hx. cbn in Hx. congruence. }
    destruct (last (r :: R0')) as [pv|] eqn:El; [|by apply last_None in El]. pose proof El as El'. apply last_Some in El' as [X EX].
    exists X, pv, (R1 ++ F2). split.
    + change (f :: F2) with ([f] ++ F2). rewrite app_assoc, E2, EX, <- !app_assoc. done.
    + rewrite app_comm_cons, last_app, El. done.
Qed.

Lemma gap_trans_pos b c d : 0 < c.2 → gap b c → gap c d → gap b d.
Proof. unfold gap, bend, HSZ. lia. Qed.

Lemma sorted_app {A} (R : A → A → Prop) l1 l2 :
  StronglySorted R (l1 ++ l2) ↔ StronglySorted R l1 ∧ StronglySorted R l2 ∧ ∀ x y, x ∈ l1 → y ∈ l2 → R x y.
Proof.
  induction l1 as [|a l1 IH]; cbn [app].
  - split; [|tauto]. intros H. split_and!; [constructor|done|]. by intros x y Hx%elem_of_nil.
  - split.
    + intros H. inversion H as [|? ? H1 H2]; subst. apply IH in H1 as (S1 & S2 & H12). apply Forall_app in H2 as [F1 F2].
      split_and!; [by constructor|done|]. intros x y Hx Hy. apply elem_of_cons in Hx as [->|Hx]; [|auto]. by eapply Forall_forall in F2.
    + intros (S1 & S2 & H12). inversion S1 as [|? ? H1 H2]; subst. constructor.
      * apply IH. split_and!; [done|done|]. intros x y Hx Hy. apply H12; [by right|done].
      * apply Forall_app. split; [done|]. apply Forall_forall. intros y Hy. apply H12; [by left|done].
Qed.

(** ** Walks *)

Section walk.
Context (BASE LO : Z) (HB : 0 < BASE ∧ BASE + HSZ ≤ LO) (grants : Z → Z → bool).

Lemma get_hdr_ok s p x : may_touch BASE LO s p = true → hdr s !! p = Some x → get_hdr BASE LO s p = Ok x.
Proof using Type. intros H1 H2. unfold get_hdr. by rewrite H1, H2. Qed.

Lemma touch_ok s L b : flist BASE LO s L → b ∈ (BASE, 0) :: L → may_touch BASE LO s b.1 = true.
Proof using HB.
  intros HL Hb. unfold may_touch. apply elem_of_cons in Hb as [->|Hb]; [by rewrite Z.eqb_refl|].
  pose proof (proj1 (Forall_forall _ _) (fl_free _ _ _ _ HL) b Hb) as H. unfold bend, HSZ in *. cbn in H. lia.
Qed.

(** The search of [malloc] passes blocks that are too small. *)
Lemma malloc_skip s nunits R0 : ∀ fuel prevp p z,
  seg s p R0 z → (∀ b, b ∈ R0 → may_touch BASE LO s b.1 = true ∧ b.2 < nunits ∧ b.1 ≠ freep s) →
  malloc_loop BASE LO grants (length R0 + fuel) s nunits prevp p =
    malloc_loop BASE LO grants fuel s nunits (default prevp (last R0.*1)) z.
Proof using HB.
  induction R0 as [|b R0 IH]; intros fuel prevp p z Hs Hb; [cbn in *; by subst|]. destruct Hs as (-> & nx & Hh & Hs).
  destruct (Hb b ltac:(by left)) as (H1 & H2 & H3). cbn [length Nat.add malloc_loop]. rewrite (get_hdr_ok _ _ _ H1 Hh), bind_Ok. cbn [hsize hptr].
  rewrite (proj2 (Z.leb_gt nunits b.2) H2), (proj2 (Z.eqb_neq b.1 (freep s)) H3), (IH fuel b.1 nx z Hs) by (intros c Hc; apply Hb; by right).
  f_equal. rewrite fmap_cons. destruct R0 as [|c R0]; [done|]. rewrite fmap_cons, last_cons_cons.
  destruct (last (c.1 :: R0.*1)) eqn:E; [done|]. by apply last_None in E.
Qed.

Definition addr_lt (b c : block) : Prop := b.1 < c.1.

(** The search of [free] passes blocks below the one before [bp]. *)
Lemma find_low s bp R0 : ∀ fuel p z,
  seg s p R0 z.1 → StronglySorted addr_lt (R0 ++ [z]) → z.1 < bp → (∀ b, b ∈ R0 → may_touch BASE LO s b.1 = true) →
  free_find BASE LO (length R0 + fuel) s bp p = free_find BASE LO fuel s bp z.1.
Proof using HB.
  induction R0 as [|b R0 IH]; intros fuel p z Hs Hso Hz Ht; [cbn in *; by subst|]. destruct Hs as (-> & nx & Hh & Hs).
  cbn [length Nat.add free_find]. rewrite (get_hdr_ok _ _ _ (Ht b ltac:(by left)) Hh), bind_Ok. cbn [hptr].
  cbn [app] in Hso. inversion Hso as [|? ? Hso' Hfa]; subst. rewrite Forall_forall in Hfa.
  assert (Hnx : b.1 < nx ∧ nx < bp).
  { destruct R0 as [|c R0].
    - cbn in Hs. subst nx. specialize (Hfa z ltac:(apply elem_of_app; right; by left)). unfold addr_lt in Hfa. lia.
    - apply seg_start in Hs. subst nx. pose proof (Hfa c ltac:(by left)) as H1. cbn [app] in Hso'. inversion Hso' as [|? ? _ Hfa']; subst.
      rewrite Forall_forall in Hfa'. specialize (Hfa' z ltac:(apply elem_of_app; right; by left)). unfold addr_lt in *. lia. }
  replace ((b.1 <? bp) && (bp <? nx)) with false by lia. replace ((nx <=? b.1) && _) with false by lia.
  apply IH; [done..|]. intros c Hc. apply Ht. by right.
Qed.

(** It passes blocks above [bp], and comes back to [base]. *)
Lemma find_high s bp R0 : ∀ fuel p,
  seg s p R0 BASE → StronglySorted addr_lt R0 → BASE < bp → (∀ b, b ∈ R0 → bp < b.1 ∧ may_touch BASE LO s b.1 = true) →
  free_find BASE LO (length R0 + fuel) s bp p = free_find BASE LO fuel s bp BASE.
Proof using HB.
  induction R0 as [|b R0 IH]; intros fuel p Hs Hso Hz Ht; [cbn in *; by subst|]. destruct Hs as (-> & nx & Hh & Hs).
  destruct (Ht b ltac:(by left)) as [Hb Htb]. cbn [length Nat.add free_find]. rewrite (get_hdr_ok _ _ _ Htb Hh), bind_Ok. cbn [hptr].
  inversion Hso as [|? ? Hso' Hfa]; subst. rewrite Forall_forall in Hfa.
  assert (Hnx : nx = BASE ∨ b.1 < nx).
  { destruct R0 as [|c R0]; [by left|right]. apply seg_start in Hs. subst nx. apply (Hfa c). by left. }
  replace ((b.1 <? bp) && (bp <? nx)) with false by lia. replace ((nx <=? b.1) && _) with false by lia.
  apply IH; [done..|]. intros c Hc. apply Ht. by right.
Qed.

Lemma flist_addr s L : flist BASE LO s L → StronglySorted addr_lt ((BASE, 0) :: L).
Proof using HB.
  intros HL. pose proof (fl_free _ _ _ _ HL) as Hf. rewrite Forall_forall in Hf. constructor.
  - pose proof (fl_sorted _ _ _ _ HL) as Hso. clear HL. induction Hso as [|b L Hso IH Hfa]; constructor.
    + apply IH. intros x Hx. apply Hf. by right.
    + eapply Forall_impl; [exact Hfa|]. intros c Hc. specialize (Hf b ltac:(by left)). unfold gap, addr_lt, bend, HSZ in *. cbn in *. lia.
  - apply Forall_forall. intros b Hb. specialize (Hf b Hb). unfold addr_lt, HSZ in *. cbn in *. lia.
Qed.

(** The place of a new block in the list. *)
Lemma free_find_ok s L1 L2 bp fuel :
  flist BASE LO s (L1 ++ L2) → (∀ b, b ∈ L1 → b.1 < bp) → (∀ b, b ∈ L2 → bp < b.1) → BASE < bp →
  (length (L1 ++ L2) + 2 ≤ fuel)%nat →
  ∃ G1 pv, (BASE, 0) :: L1 = G1 ++ [pv] ∧ free_find BASE LO fuel s bp (freep s) = Ok pv.1.
Proof using HB.
  intros HL H1 H2 Hbp Hf. destruct (exists_last (l := (BASE, 0) :: L1) ltac:(done)) as (G1 & pv & EG). exists G1, pv. split; [done|].
  pose proof (flist_addr _ _ HL) as Hso. pose proof (fl_ring _ _ _ _ HL) as Hr. pose proof (fl_freep _ _ _ _ HL) as Hfp.
  assert (Ht : ∀ b, b ∈ (BASE, 0) :: L1 ++ L2 → may_touch BASE LO s b.1 = true) by (intros b; by apply touch_ok).
  rewrite app_comm_cons, EG in Hso, Hr, Hfp, Ht. rewrite <- app_assoc in Hr, Hso, Ht. cbn [app] in Hr, Hso, Ht.
  assert (Hlen : (length G1 + length L2 = length (L1 ++ L2))%nat).
  { apply (f_equal length) in EG. rewrite !length_app in *. cbn in EG. lia. }
  assert (Hpv : pv.1 < bp).
  { assert (Hin : pv ∈ (BASE, 0) :: L1) by (rewrite EG; apply elem_of_app; right; by left). apply elem_of_cons in Hin as [->|Hin]; [done|auto]. }
  apply seg_app in Hr as (m & Hg & Hr). pose proof (seg_start _ _ _ _ _ Hr) as ->. destruct Hr as (_ & nx & Hh & Hl2).
  assert (Hstop : ∀ f, free_find BASE LO (S f) s bp pv.1 = Ok pv.1).
  { intros f. cbn [free_find]. rewrite (get_hdr_ok _ _ _ (Ht pv ltac:(apply elem_of_app; right; by left)) Hh), bind_Ok. cbn [hptr].
    destruct L2 as [|c L2].
    - cbn in Hl2. subst nx. assert (HBp : BASE ≤ pv.1).
      { destruct G1 as [|g G1]; cbn [app] in EG; injection EG as E1 E2; [subst; done|]. inversion Hso as [|? ? _ Hfa]; subst.
        rewrite Forall_forall in Hfa. specialize (Hfa pv ltac:(apply elem_of_app; right; by left)). unfold addr_lt in Hfa. cbn in Hfa. lia. }
      replace ((pv.1 <? bp) && (bp <? BASE)) with false by lia. by replace ((BASE <=? pv.1) && _) with true by lia.
    - apply seg_start in Hl2. subst nx. specialize (H2 c ltac:(by left)). by replace ((pv.1 <? bp) && (bp <? c.1)) with true by lia. }
  apply sorted_app in Hso as (So1 & So2 & So12). inversion So2 as [|? ? So3 _]; subst.
  assert (Hlow : ∀ X Y f p, G1 = X ++ Y → seg s p Y pv.1 → free_find BASE LO (length Y + S f) s bp p = Ok pv.1).
  { intros X Y f p -> HY. rewrite (find_low s bp Y (S f) p pv HY); [apply Hstop| |done|].
    - apply sorted_app in So1 as (_ & SY & _). apply sorted_app. split_and!; [done|by repeat constructor|].
      intros x y Hx Hy. apply list_elem_of_singleton in Hy as ->. apply So12; [apply elem_of_app; by right|by left].
    - intros b Hb. apply Ht. rewrite !elem_of_app. auto. }
  rewrite fmap_app, elem_of_app, fmap_app, elem_of_app in Hfp.
  destruct Hfp as [[Hfp|Hfp]|Hfp].
  - apply list_elem_of_fmap in Hfp as (c & Ec & Hc). apply list_elem_of_split in Hc as (X & Y & ->). apply seg_app in Hg as (x & _ & Hy).
    pose proof (seg_start _ _ _ _ _ Hy) as ->. rewrite Ec. replace fuel with (length (c :: Y) + S (fuel - length (c :: Y) - 1))%nat; [by eapply Hlow|].
    rewrite length_app in Hlen. cbn [length] in *. lia.
  - apply list_elem_of_singleton in Hfp as ->. replace fuel with (S (fuel - 1)) by lia. apply Hstop.
  - apply list_elem_of_fmap in Hfp as (c & Ec & Hc). apply list_elem_of_split in Hc as (X & Y & ->). apply seg_app in Hl2 as (x & _ & Hy).
    pose proof (seg_start _ _ _ _ _ Hy) as ->. rewrite Ec. rewrite length_app in Hlen.
    replace fuel with (length (c :: Y) + (length G1 + S (fuel - length (c :: Y) - length G1 - 1)))%nat by (cbn [length] in *; lia).
    rewrite (find_high s bp (c :: Y) _ _ Hy); [apply (Hlow [] G1); [done|] | | done |].
    + destruct G1 as [|g G1]; cbn [app] in EG; injection EG as E1 E2; subst; [by cbn in *|exact Hg].
    + apply sorted_app in So3 as (_ & So3 & _). done.
    + intros b Hb. split; [apply H2, elem_of_app; by right|]. apply Ht. rewrite !elem_of_app, elem_of_cons, elem_of_app. auto.
Qed.
End walk.
