(* ===== verification/UmallocThm.v ===== *)
(** * What the user-level allocator guarantees. *)

From Stdlib Require Import ZifyBool Sorting.Sorted.
From S2P Require Import Prelude Umalloc.

Section umalloc.
Context (BASE LO : Z) (HB : 0 < BASE ∧ BASE + HSZ ≤ LO).

Lemma set_ptr_ok s p v x :
  may_touch BASE LO s p = true → hdr s !! p = Some x → set_ptr BASE LO s p v = Ok (put_hdr s p (mk_header v (hsize x))).
Proof using Type. intros H1 H2. unfold set_ptr. by rewrite (get_hdr_ok _ _ _ _ _ H1 H2). Qed.

Lemma set_size_ok s p v x :
  may_touch BASE LO s p = true → hdr s !! p = Some x → set_size BASE LO s p v = Ok (put_hdr s p (mk_header (hptr x) v)).
Proof using Type. intros H1 H2. unfold set_size. by rewrite (get_hdr_ok _ _ _ _ _ H1 H2). Qed.

Lemma put_hdr_at s p x : hdr (put_hdr s p x) !! p = Some x.
Proof using Type. apply lookup_insert_eq. Qed.

Lemma put_hdr_ne s p q x : p ≠ q → hdr (put_hdr s p x) !! q = hdr s !! q.
Proof using Type. apply lookup_insert_ne. Qed.

(** A sorted list is cut where a new block belongs. *)
Lemma cut_list L bp n :
  StronglySorted gap L → (∀ b, b ∈ L → 0 < b.2) → 0 < n → (∀ b, b ∈ L → apart b (bp, n)) →
  ∃ L1 L2, L = L1 ++ L2 ∧ (∀ b, b ∈ L1 → bend b ≤ bp) ∧ (∀ b, b ∈ L2 → bend (bp, n) ≤ b.1).
Proof using Type.
  clear HB. intros Hso Hpos Hn Hap. induction Hso as [|b L Hso IH Hfa].
  { exists [], []. split_and!; [done|..]; by intros b Hb%elem_of_nil. }
  destruct IH as (L1 & L2 & -> & H1 & H2); [intros c Hc; apply Hpos; by right|intros c Hc; apply Hap; by right|].
  rewrite Forall_forall in Hfa. destruct (Hap b ltac:(by left)) as [Hlo|Hhi]; cbn [fst] in *.
  - exists (b :: L1), L2. split_and!; [done| |done]. intros c Hc. apply elem_of_cons in Hc as [->|Hc]; auto.
  - exists [], (b :: L1 ++ L2). split_and!; [done|by intros c Hc%elem_of_nil|]. intros c Hc. apply elem_of_cons in Hc as [->|Hc]; [done|].
    specialize (Hfa c Hc). specialize (Hpos b ltac:(by left)). unfold gap, bend, HSZ in *. cbn in *. lia.
Qed.

(** The first half of [free]: the new block takes over the block behind it when they
    touch. *)
Lemma free_upper s L2 nx pa pn bp n x0 :
  hdr s !! pa = Some (mk_header nx pn) → hdr s !! bp = Some (mk_header x0 n) → pa ≠ bp →
  may_touch BASE LO s pa = true → may_touch BASE LO s bp = true → (∀ b, b ∈ L2 → may_touch BASE LO s b.1 = true ∧ 0 < b.2 ∧ bend b ≤ 2 ^ 31 ∧ bp < b.1) →
  seg s nx L2 BASE → BASE < bp → 0 < n →
  ∃ n1 L2r nr,
    (if bp + HSZ * n =? nx then
       y ← get_hdr BASE LO s nx;
       s ← set_size BASE LO s bp (u32 (n + hsize y));
       x ← get_hdr BASE LO s pa;
       y ← get_hdr BASE LO s (hptr x);
       set_ptr BASE LO s bp (hptr y)
     else set_ptr BASE LO s bp nx) = Ok (put_hdr s bp (mk_header nr n1)) ∧
    seg s nr L2r BASE ∧
    ((n1 = n ∧ L2r = L2 ∧ ∀ b, head L2 = Some b → bend (bp, n) ≠ b.1) ∨ ∃ m, L2 = (bend (bp, n), m) :: L2r ∧ n1 = n + m).
Proof using HB.
  intros Hpa Hbp Hne Tpa Tbp Tl Hs HBp Hn. destruct (Z.eqb_spec (bp + HSZ * n) nx) as [E|E].
  - destruct L2 as [|[y m] L2]; [cbn in Hs; unfold HSZ in *; lia|]. destruct Hs as (E2 & ny & Hy & Hs). cbn [fst snd] in *. subst nx. subst y.
    destruct (Tl (bp + HSZ * n, m) ltac:(by left)) as (Ty & Hm & Hend & Hlt). unfold bend in Hend. cbn [fst snd] in *.
    exists (n + m), L2, ny. split; [|split; [done|right; exists m; done]].
    rewrite (get_hdr_ok _ _ _ _ _ Ty Hy), bind_Ok. cbn [hsize].
    rewrite (set_size_ok _ _ _ _ Tbp Hbp), bind_Ok. cbn [hptr].
    rewrite (get_hdr_ok BASE LO _ pa (mk_header (bp + HSZ * n) pn)); [|exact Tpa|rewrite put_hdr_ne by congruence; done]. rewrite bind_Ok. cbn [hptr].
    rewrite (get_hdr_ok BASE LO _ (bp + HSZ * n) (mk_header ny m)); [|exact Ty|rewrite put_hdr_ne by (unfold HSZ; lia); done]. rewrite bind_Ok. cbn [hptr].
    rewrite (set_ptr_ok _ bp _ (mk_header x0 (u32 (n + m)))); [|exact Tbp|apply put_hdr_at]. cbn [hsize].
    unfold put_hdr. cbn [hdr freep brk]. rewrite insert_insert_eq. do 4 f_equal. unfold u32. apply Z.mod_small. unfold HSZ in *. lia.
  - exists n, L2, nx. split; [|split; [done|left]]; [by rewrite (set_ptr_ok _ _ _ _ Tbp Hbp)|]. split; [done|]. split; [done|].
    intros b Hb E'. destruct L2 as [|c L2]; [done|]. apply seg_start in Hs. cbn in Hb. injection Hb as ->. unfold bend in E'. cbn in E'. lia.
Qed.

(** What [free] leaves behind: the bytes of the list and of the block are those of
    the new list, and nothing else has changed. *)
Record freed (s s' : uheap) (L L' : list block) (bp n : Z) : Prop := {
  fd_list : flist BASE LO s' L';
  fd_brk : brk s' = brk s;
  fd_len : (length L' ≤ S (length L))%nat;
  fd_other : ∀ x, x ≠ bp → x ∉ ((BASE, 0) :: L).*1 → hdr s' !! x = hdr s !! x;
  fd_apart : ∀ c, 0 < c.2 → (∀ b, b ∈ L → apart b c) → apart (bp, n) c → ∀ b, b ∈ L' → apart b c;
  fd_cover : ∀ x, (∃ b, b ∈ L ∧ b.1 ≤ x < bend b) ∨ bp ≤ x < bend (bp, n) → ∃ b, b ∈ L' ∧ b.1 ≤ x < bend b;
  fd_holds : ∃ b, b ∈ L' ∧ b.1 ≤ bp ∧ bend (bp, n) ≤ bend b;
}.

(** The sorted list with the block put in and joined with its neighbours. *)
Lemma joined s L1 L2 bp n n1 L2r :
  (∀ b, b ∈ L1 ++ L2 → LO ≤ b.1 ∧ 0 < b.2 ∧ bend b ≤ brk s ∧ (HSZ | b.1)) → StronglySorted gap (L1 ++ L2) → 0 < n → LO ≤ bp → (HSZ | bp) → bend (bp, n) ≤ brk s →
  (∀ b, b ∈ L1 → bend b ≤ bp) → (∀ b, b ∈ L2 → bend (bp, n) ≤ b.1) →
  (n1 = n ∧ L2r = L2 ∧ ∀ b, head L2 = Some b → bend (bp, n) ≠ b.1) ∨ (∃ m, L2 = (bend (bp, n), m) :: L2r ∧ n1 = n + m) →
  StronglySorted gap ((bp, n1) :: L2r) ∧ Forall (λ b, LO ≤ b.1 ∧ 0 < b.2 ∧ bend b ≤ brk s ∧ (HSZ | b.1)) ((bp, n1) :: L2r) ∧
  (∀ b, b ∈ L2r → b ∈ L2) ∧ n ≤ n1 ∧ (length L2r ≤ length L2)%nat ∧
  (∀ c, 0 < c.2 → (∀ b, b ∈ L2 → apart b c) → apart (bp, n) c → apart (bp, n1) c) ∧
  (∀ x, (∃ b, b ∈ L2 ∧ b.1 ≤ x < bend b) ∨ bp ≤ x < bend (bp, n) → ∃ b, b ∈ (bp, n1) :: L2r ∧ b.1 ≤ x < bend b).
Proof using Type.
  clear HB. intros Hf Hso Hn Hlo Hal Hhi H1 H2 Hc. apply sorted_app in Hso as (_ & So2 & _).
  assert (F2 : ∀ b, b ∈ L2 → LO ≤ b.1 ∧ 0 < b.2 ∧ bend b ≤ brk s ∧ (HSZ | b.1)) by (intros b Hb; apply Hf, elem_of_app; by right).
  destruct Hc as [(-> & -> & Hne)|(m & -> & ->)].
  - split_and!; try done; try lia.
    + constructor; [done|]. apply Forall_forall. intros b Hb. destruct L2 as [|c L2]; [by apply elem_of_nil in Hb|].
      pose proof (H2 c ltac:(by left)) as Hc. specialize (Hne c eq_refl). apply elem_of_cons in Hb as [->|Hb]; [unfold gap; lia|].
      inversion So2 as [|? ? _ Hfa]; subst. rewrite Forall_forall in Hfa. specialize (Hfa b Hb). destruct (F2 c ltac:(by left)) as (_ & Hp & _).
      unfold gap, bend, HSZ in *. cbn in *. lia.
    + constructor; [done|]. by apply Forall_forall.
    + intros x [(b & Hb & Hx)|Hx]; [exists b; split; [by right|done]|]. exists (bp, n). split; [by left|done].
  - set (y := bend (bp, n)) in *. destruct (F2 (y, m) ltac:(by left)) as (Y1 & Y2 & Y3 & Y4). cbn [fst snd] in *.
    inversion So2 as [|? ? So3 Hfa]; subst. rewrite Forall_forall in Hfa.
    assert (Ey : bend (bp, n + m) = bend (y, m)) by (unfold y, bend, HSZ; cbn; lia).
    split_and!; try lia.
    + constructor; [done|]. apply Forall_forall. intros b Hb. specialize (Hfa b Hb). unfold gap in *. lia.
    + constructor; [cbn [fst snd]; rewrite Ey; split_and!; done || lia|]. apply Forall_forall. intros b Hb. apply F2. by right.
    + intros b Hb. by right.
    + cbn [length]. lia.
    + intros c Hp Hap Hbp. specialize (Hap (y, m) ltac:(by left)). unfold y, apart, bend, HSZ in *. cbn in *. lia.
    + intros x [(b & Hb & Hx)|Hx].
      * apply elem_of_cons in Hb as [->|Hb]; [|exists b; split; [by right|done]]. exists (bp, n + m). split; [by left|]. rewrite Ey.
        unfold y, bend, HSZ in *. cbn in *. lia.
      * exists (bp, n + m). split; [by left|]. rewrite Ey. unfold y, bend, HSZ in *. cbn in *. lia.
Qed.

(** The second half of [free]: the block is joined with the one before it, or put
    behind it. *)
Lemma free_lower s1 pa pn nx bp n1 nr :
  hdr s1 !! pa = Some (mk_header nx pn) → hdr s1 !! bp = Some (mk_header nr n1) → pa ≠ bp →
  may_touch BASE LO s1 pa = true → may_touch BASE LO s1 bp = true → 0 ≤ pn + n1 < 2 ^ 32 →
  (x ← get_hdr BASE LO s1 pa;
   s ← (if pa + HSZ * hsize x =? bp then
          b ← get_hdr BASE LO s1 bp;
          s ← set_size BASE LO s1 pa (u32 (hsize x + hsize b));
          b ← get_hdr BASE LO s bp;
          set_ptr BASE LO s pa (hptr b)
        else set_ptr BASE LO s1 pa bp);
   Ok (set_freep s pa)) =
  Ok (set_freep (put_hdr s1 pa (if bend (pa, pn) =? bp then mk_header nr (pn + n1) else mk_header bp pn)) pa).
Proof using Type.
  intros Hpa Hbp Hne Tpa Tbp Hsz. rewrite (get_hdr_ok _ _ _ _ _ Tpa Hpa), bind_Ok. cbn [hsize]. unfold bend. cbn [fst snd].
  destruct (pa + HSZ * pn =? bp); [|by rewrite (set_ptr_ok _ _ _ _ Tpa Hpa)].
  rewrite (get_hdr_ok _ _ _ _ _ Tbp Hbp), bind_Ok, (set_size_ok _ _ _ _ Tpa Hpa), bind_Ok. cbn [hsize hptr].
  rewrite (get_hdr_ok BASE LO _ bp (mk_header nr n1)); [|exact Tbp|by rewrite put_hdr_ne]. rewrite bind_Ok. cbn [hptr].
  rewrite (set_ptr_ok _ pa _ (mk_header nx (u32 (pn + n1)))); [|exact Tpa|apply put_hdr_at]. rewrite bind_Ok. cbn [hsize].
  unfold put_hdr. cbn [hdr freep brk]. rewrite insert_insert_eq. do 5 f_equal. unfold u32. by apply Z.mod_small.
Qed.

(** The state after [free], before the new list is read off. *)
Record placed (s s' : uheap) (L1 L2 L2r G1 : list block) (pa pn bp n n1 nr : Z) : Prop := {
  pl_list : flist BASE LO s (L1 ++ L2);
  pl_block : 0 < n ∧ LO ≤ bp ∧ (HSZ | bp) ∧ bend (bp, n) ≤ brk s;
  pl_low : ∀ b, b ∈ L1 → bend b ≤ bp;
  pl_high : ∀ b, b ∈ L2 → bend (bp, n) ≤ b.1;
  pl_pred : (BASE, 0) :: L1 = G1 ++ [(pa, pn)];
  pl_cases : (n1 = n ∧ L2r = L2 ∧ ∀ b, head L2 = Some b → bend (bp, n) ≠ b.1) ∨ (∃ m, L2 = (bend (bp, n), m) :: L2r ∧ n1 = n + m);
  pl_before : seg s' BASE G1 pa;
  pl_after : seg s' nr L2r BASE;
  pl_pa : hdr s' !! pa = Some (if bend (pa, pn) =? bp then mk_header nr (pn + n1) else mk_header bp pn);
  pl_bp : hdr s' !! bp = Some (mk_header nr n1);
  pl_same : brk s' = brk s ∧ freep s' = pa ∧ ∀ x, x ≠ bp → x ≠ pa → hdr s' !! x = hdr s !! x;
}.

Lemma placed_joined s s' L1 L2 L2r G1 pa pn bp n n1 nr :
  placed s s' L1 L2 L2r G1 pa pn bp n n1 nr → bend (pa, pn) = bp → ∃ L', freed s s' (L1 ++ L2) L' bp n.
Proof using HB.
  intros [HL (Hn & Hlo & Hal & Hhi) H1 H2 EG Hc Sg S2 Hpa Hbp (Hbrk & Hfp & Hoth)] Ej.
  pose proof (fl_free _ _ _ _ HL) as Hfr. rewrite Forall_forall in Hfr.
  destruct (joined s L1 L2 bp n n1 L2r Hfr (fl_sorted _ _ _ _ HL) Hn Hlo Hal Hhi H1 H2 Hc) as (Js & Jf & Ji & Jn & Jl & Ja & Jc).
  apply Forall_cons in Jf as [Jf0 Jf1]. cbn [fst snd] in Jf0. apply StronglySorted_inv in Js as [Js0 Js1].
  pose proof (fl_sorted _ _ _ _ HL) as Hso. apply sorted_app in Hso as (So1 & _ & So12).
  assert (EK : ∃ K, G1 = (BASE, 0) :: K ∧ L1 = K ++ [(pa, pn)]).
  { destruct G1 as [|g K]; cbn [app] in EG; simplify_eq; [unfold bend, HSZ in *; cbn in *; lia|]. by exists K. }
  destruct EK as (K & -> & ->). rewrite (proj2 (Z.eqb_eq _ _) Ej) in Hpa. destruct (Hfr (pa, pn)) as (Q1 & Q2 & Q3 & Q4); [rewrite !elem_of_app; left; right; by left|].
  assert (Ee : bend (pa, pn + n1) = bend (bp, n1)) by (rewrite <- Ej; unfold bend, HSZ; cbn; lia).
  assert (HK : ∀ b, b ∈ K → b ∈ (K ++ [(pa, pn)]) ++ L2) by (intros b Hb; rewrite !elem_of_app; auto).
  assert (HR : ∀ b, b ∈ L2r → b ∈ (K ++ [(pa, pn)]) ++ L2) by (intros b Hb%Ji; rewrite !elem_of_app; auto).
  exists (K ++ (pa, pn + n1) :: L2r). constructor; [constructor|done|..].
  - rewrite app_comm_cons. apply seg_app. exists pa. split; [done|]. split; [done|]. exists nr. done.
  - apply sorted_app in So1 as (SoK & _ & SoKp). apply sorted_app. split_and!; [done| |].
    + constructor; [done|]. eapply Forall_impl; [exact Js1|]. intros b. unfold gap. by rewrite Ee.
    + intros x y Hx Hy. apply elem_of_cons in Hy as [->|Hy]; [apply (SoKp x (pa, pn) Hx); by left|]. apply So12; [apply elem_of_app; by left|auto].
  - rewrite Hbrk. apply Forall_app. split; [apply Forall_forall; intros b Hb; by apply Hfr, HK|]. constructor; [|done]. cbn [fst snd] in *. rewrite Ee. split_and!; [lia|lia|lia|done].
  - rewrite Hfp, fmap_cons, fmap_app, elem_of_cons, elem_of_app. right. right. by left.
  - rewrite Hbrk. apply HL.
  - rewrite !length_app. cbn [length]. lia.
  - intros x Hx Hx'. apply Hoth; [done|]. intros ->. apply Hx'. rewrite fmap_cons, !fmap_app. rewrite elem_of_cons, !elem_of_app. right. left. right. by left.
  - intros c Hp Hb Hbc b Hin. apply elem_of_app in Hin as [Hin|Hin]; [auto|]. apply elem_of_cons in Hin as [->|Hin]; [|auto].
    pose proof (Hb (pa, pn) ltac:(rewrite !elem_of_app; left; right; by left)) as C1.
    pose proof (Ja c Hp ltac:(intros d Hd; apply Hb, elem_of_app; by right) Hbc) as C2. unfold apart in *. rewrite Ee. unfold bend, HSZ in *. cbn in *. lia.
  - intros x Hx. assert (Hd : (∃ b, b ∈ K ∧ b.1 ≤ x < bend b) ∨ pa ≤ x < bp ∨ ((∃ b, b ∈ L2 ∧ b.1 ≤ x < bend b) ∨ bp ≤ x < bend (bp, n))).
    { destruct Hx as [(b & Hb & Hx)|Hx]; [|auto]. rewrite !elem_of_app, list_elem_of_singleton in Hb. destruct Hb as [[Hb| ->]|Hb]; [eauto|cbn [fst] in *; rewrite Ej in Hx; auto|eauto 6]. }
    destruct Hd as [(b & Hb & Hd)|[Hd|Hd]].
    + exists b. split; [apply elem_of_app; by left|done].
    + exists (pa, pn + n1). split; [apply elem_of_app; right; by left|]. rewrite Ee. unfold bend, HSZ in *. cbn in *. lia.
    + destruct (Jc x Hd) as (b & Hb & Hx'). apply elem_of_cons in Hb as [->|Hb].
      * exists (pa, pn + n1). split; [apply elem_of_app; right; by left|]. rewrite Ee. unfold bend, HSZ in *. cbn in *. lia.
      * exists b. split; [apply elem_of_app; right; by right|done].
  - exists (pa, pn + n1). split; [apply elem_of_app; right; by left|]. rewrite Ee. unfold bend, HSZ in *. cbn in *. lia.
Qed.

Lemma placed_apart s s' L1 L2 L2r G1 pa pn bp n n1 nr :
  placed s s' L1 L2 L2r G1 pa pn bp n n1 nr → bend (pa, pn) ≠ bp → ∃ L', freed s s' (L1 ++ L2) L' bp n.
Proof using HB.
  intros [HL (Hn & Hlo & Hal & Hhi) H1 H2 EG Hc Sg S2 Hpa Hbp (Hbrk & Hfp & Hoth)] Ej.
  pose proof (fl_free _ _ _ _ HL) as Hfr. rewrite Forall_forall in Hfr.
  destruct (joined s L1 L2 bp n n1 L2r Hfr (fl_sorted _ _ _ _ HL) Hn Hlo Hal Hhi H1 H2 Hc) as (Js & Jf & Ji & Jn & Jl & Ja & Jc).
  pose proof (fl_sorted _ _ _ _ HL) as Hso. apply sorted_app in Hso as (So1 & _ & So12).
  rewrite (proj2 (Z.eqb_neq _ _) Ej) in Hpa.
  assert (Hpin : pa ∈ ((BASE, 0) :: L1).*1) by (rewrite EG, fmap_app; apply elem_of_app; right; by left).
  exists (L1 ++ (bp, n1) :: L2r). constructor; [constructor|done|..].
  - rewrite app_comm_cons, EG, <- app_assoc. cbn [app]. apply seg_app. exists pa. split; [done|]. split; [done|]. exists bp. split; [done|].
    split; [done|]. exists nr. done.
  - apply sorted_app. split_and!; [done|done|]. intros x y Hx Hy. apply elem_of_cons in Hy as [->|Hy]; [|by apply So12; [|apply Ji]].
    unfold gap. cbn [fst]. pose proof (H1 x Hx) as Hle. destruct (decide (x = (pa, pn))) as [->|Hne]; [lia|].
    destruct G1 as [|g K]; cbn [app] in EG; [injection EG as _ _ ->; by apply elem_of_nil in Hx|injection EG as _ ->].
    pose proof (H1 (pa, pn) ltac:(apply elem_of_app; right; by left)) as Hpl.
    apply elem_of_app in Hx as [Hx|Hx]; [|by apply list_elem_of_singleton in Hx]. apply sorted_app in So1 as (_ & _ & So1).
    specialize (So1 x (pa, pn) Hx ltac:(by left)). pose proof (Hfr (pa, pn) ltac:(rewrite !elem_of_app; left; right; by left)) as (_ & Hp & _).
    unfold gap, bend, HSZ in *. cbn in *. lia.
  - rewrite Hbrk. apply Forall_app. split; [apply Forall_forall; intros b Hb; apply Hfr, elem_of_app; by left|done].
  - rewrite Hfp, app_comm_cons, fmap_app, elem_of_app. by left.
  - rewrite Hbrk. apply HL.
  - rewrite !length_app. cbn [length]. lia.
  - intros x Hx Hx'. apply Hoth; [done|]. intros ->. apply Hx'. rewrite app_comm_cons, fmap_app, elem_of_app. by left.
  - intros c Hp Hb Hbc b Hin. apply elem_of_app in Hin as [Hin|Hin]; [apply Hb, elem_of_app; by left|]. apply elem_of_cons in Hin as [->|Hin]; [|apply Hb, elem_of_app; auto].
    apply Ja; [done| |done]. intros d Hd. apply Hb, elem_of_app. by right.
  - intros x Hx. assert (Hd : (∃ b, b ∈ L1 ∧ b.1 ≤ x < bend b) ∨ ((∃ b, b ∈ L2 ∧ b.1 ≤ x < bend b) ∨ bp ≤ x < bend (bp, n))).
    { destruct Hx as [(b & Hb & Hx)|Hx]; [|auto]. apply elem_of_app in Hb as [Hb|Hb]; eauto. }
    destruct Hd as [(b & Hb & Hd)|Hd]; [exists b; split; [apply elem_of_app; by left|done]|].
    destruct (Jc x Hd) as (b & Hb & Hx'). exists b. split; [apply elem_of_app; by right|done].
  - exists (bp, n1). split; [apply elem_of_app; right; by left|]. unfold bend, HSZ. cbn. lia.
Qed.

Lemma free_insert s L bp n fuel :
  flist BASE LO s L → (∀ b, b ∈ L → apart b (bp, n)) → 0 < n → LO ≤ bp → bend (bp, n) ≤ brk s → (HSZ | bp) →
  (hsize <$> hdr s !! bp) = Some n → (length L + 2 ≤ fuel)%nat →
  ∃ s' L', free BASE LO fuel s (bp + HSZ) = Ok s' ∧ freed s s' L L' bp n.
Proof using HB.
  intros HL Hap Hn Hlo Hhi Hal Hsz Hf. pose proof (fl_free _ _ _ _ HL) as Hfr. rewrite Forall_forall in Hfr. destruct (fl_brk _ _ _ _ HL) as [Hbrk Hbal].
  destruct (cut_list L bp n (fl_sorted _ _ _ _ HL)) as (L1 & L2 & -> & H1 & H2); [intros b Hb; by apply Hfr|done|done|].
  assert (P : ∀ b, b ∈ L1 ++ L2 → 0 < b.2 ∧ bend b ≤ 2 ^ 31 ∧ b.1 ≠ bp).
  { intros b Hb. destruct (Hfr b Hb) as (F1 & F2 & F3 & F4). split_and!; [done|lia|]. intros E. apply elem_of_app in Hb as [Hb|Hb].
    - specialize (H1 b Hb). unfold bend, HSZ in *. lia.
    - specialize (H2 b Hb). unfold bend, HSZ in *. cbn in *. lia. }
  assert (HBp : BASE < bp) by (unfold HSZ in HB; lia).
  destruct (free_find_ok BASE LO HB s L1 L2 bp fuel HL) as (G1 & [pa pn] & EG & Efind);
    [intros b Hb; destruct (P b ltac:(apply elem_of_app; by left)); specialize (H1 b Hb); unfold bend, HSZ in *; lia
    |intros b Hb; specialize (H2 b Hb); unfold bend, HSZ in *; cbn in *; lia|done|done|]. cbn [fst] in Efind.
  pose proof (flist_addr BASE LO HB _ _ HL) as Hadr. pose proof (fl_ring _ _ _ _ HL) as Hr. rewrite app_comm_cons, EG, <- app_assoc in Hr, Hadr. cbn [app] in Hr, Hadr.
  assert (Ht : ∀ b, b ∈ (BASE, 0) :: L1 ++ L2 → may_touch BASE LO s b.1 = true) by (intros b; by apply touch_ok).
  assert (Hpin : (pa, pn) ∈ (BASE, 0) :: L1) by (rewrite EG; apply elem_of_app; right; by left).
  assert (Hpv : pa < bp ∧ bend (pa, pn) ≤ bp ∧ 0 ≤ pn ≤ 2 ^ 31).
  { apply elem_of_cons in Hpin as [E|Hin]; [injection E as -> ->; unfold bend; cbn; lia|].
    destruct (P (pa, pn) ltac:(apply elem_of_app; by left)) as (P1 & P2 & _), (Hfr (pa, pn) ltac:(apply elem_of_app; by left)) as (Q1 & _).
    specialize (H1 _ Hin). unfold bend, HSZ in *. cbn in *. lia. }
  apply seg_app in Hr as (m & Hg & Hm & nx & Hpa & Hl2). cbn [fst snd] in *. subst m.
  destruct (hdr s !! bp) as [[x0 n']|] eqn:Hbp; [|done]. cbn in Hsz. injection Hsz as ->.
  assert (Tpa : may_touch BASE LO s pa = true).
  { apply (Ht (pa, pn)). rewrite app_comm_cons. apply elem_of_app. by left. }
  assert (Tbp : may_touch BASE LO s bp = true) by (unfold may_touch, bend, HSZ in *; cbn in *; lia).
  destruct (free_upper s L2 nx pa pn bp n x0 Hpa Hbp ltac:(lia) Tpa Tbp) as (n1 & L2r & nr & Eup & Hs2 & Hc); [|done|done|done|].
  { intros b Hb. split; [apply Ht; right; apply elem_of_app; by right|]. destruct (P b ltac:(apply elem_of_app; by right)) as (P1 & P2 & _).
    specialize (H2 b Hb). unfold bend, HSZ in *. cbn in *. lia. }
  destruct (joined s L1 L2 bp n n1 L2r Hfr (fl_sorted _ _ _ _ HL) Hn Hlo Hal Hhi H1 H2 Hc) as (Js & Jf & Ji & Jn & Jl & Ja & Jc).
  inversion Jf as [|? ? Jf0 Jf1]; subst. cbn [fst snd] in Jf0. inversion Js as [|? ? Js0 Js1]; subst.
  set (s1 := put_hdr s bp (mk_header nr n1)) in *.
  set (s' := set_freep (put_hdr s1 pa (if bend (pa, pn) =? bp then mk_header nr (pn + n1) else mk_header bp pn)) pa).
  assert (Efree : free BASE LO fuel s (bp + HSZ) = Ok s').
  { unfold free. replace (bp + HSZ - HSZ) with bp by lia. rewrite Efind, bind_Ok, (get_hdr_ok _ _ _ _ _ Tbp Hbp), bind_Ok, (get_hdr_ok _ _ _ _ _ Tpa Hpa), bind_Ok.
    cbn [hsize hptr]. rewrite Eup, bind_Ok. apply (free_lower s1 pa pn nx bp n1 nr); [unfold s1; rewrite put_hdr_ne by lia; done|apply put_hdr_at|lia|done|done|].
    unfold bend, HSZ in *. cbn in *. lia. }
  assert (Hoth : ∀ x, x ≠ bp → x ≠ pa → hdr s' !! x = hdr s !! x).
  { intros x Hx1 Hx2. unfold s', set_freep. cbn [hdr]. rewrite put_hdr_ne by done. unfold s1. by rewrite put_hdr_ne. }
  assert (Hpa' : hdr s' !! pa = Some (if bend (pa, pn) =? bp then mk_header nr (pn + n1) else mk_header bp pn)) by apply put_hdr_at.
  assert (Hbp' : hdr s' !! bp = Some (mk_header nr n1)).
  { unfold s', set_freep. cbn [hdr]. rewrite put_hdr_ne by lia. apply put_hdr_at. }
  exists s'. apply sorted_app in Hadr as (_ & A2 & A12). inversion A2 as [|? ? _ A3]; subst. rewrite Forall_forall in A3.
  assert (Sg : seg s' BASE G1 pa).
  { eapply seg_frame; [|exact Hg]. intros b Hb. apply Hoth.
    - assert (Hin : b ∈ (BASE, 0) :: L1) by (rewrite EG; apply elem_of_app; by left). apply elem_of_cons in Hin as [->|Hin]; [cbn; lia|]. apply P, elem_of_app. by left.
    - specialize (A12 b (pa, pn) Hb ltac:(by left)). unfold addr_lt in A12. cbn in A12. lia. }
  assert (S2 : seg s' nr L2r BASE).
  { eapply seg_frame; [|exact Hs2]. intros b Hb%Ji. apply Hoth; [apply P, elem_of_app; by right|]. specialize (A3 b Hb). unfold addr_lt in A3. cbn in A3. lia. }
  assert (Hp : placed s s' L1 L2 L2r G1 pa pn bp n n1 nr) by (constructor; done || by split_and!).
  assert (Hres : ∃ L', freed s s' (L1 ++ L2) L' bp n).
  { destruct (decide (bend (pa, pn) = bp)); [eapply placed_joined|eapply placed_apart]; done. }
  destruct Hres as [L' Hres]. by exists L'.
Qed.

(** What [malloc] leaves behind when it finds a block: its tail is cut off. *)
Record taken (s s' : uheap) (L L' : list block) (q k : Z) : Prop := {
  tk_list : flist BASE LO s' L';
  tk_brk : brk s' = brk s;
  tk_size : (hsize <$> hdr s' !! q) = Some k;
  tk_other : ∀ x, x ≠ q → x ∉ ((BASE, 0) :: L).*1 → hdr s' !! x = hdr s !! x;
  tk_in : LO ≤ q ∧ bend (q, k) ≤ brk s ∧ (HSZ | q);
  tk_new : ∀ b, b ∈ L' → apart b (q, k);
  tk_apart : ∀ c, (∀ b, b ∈ L → apart b c) → (∀ b, b ∈ L' → apart b c) ∧ apart (q, k) c;
  tk_cover : ∀ x, (∃ b, b ∈ L ∧ b.1 ≤ x < bend b) → (∃ b, b ∈ L' ∧ b.1 ≤ x < bend b) ∨ q ≤ x < bend (q, k);
}.

Lemma apart_sub b c d : b.1 ≤ c.1 → bend c ≤ bend b → apart b d → apart c d.
Proof using Type. clear. unfold apart, bend, HSZ. lia. Qed.

(** The block [b] behind [pv] in the list. *)
Section take.
Context (s : uheap) (L1 G2 G1 : list block) (pv b : block) (bnx k : Z).
Context (HL : flist BASE LO s (L1 ++ b :: G2)) (EG : (BASE, 0) :: L1 = G1 ++ [pv]) (Hb : hdr s !! b.1 = Some (mk_header bnx b.2)) (Hk : 0 < k ≤ b.2).

Lemma take_facts :
  (∀ c, c ∈ L1 ++ b :: G2 → LO ≤ c.1 ∧ 0 < c.2 ∧ bend c ≤ brk s ∧ (HSZ | c.1)) ∧
  (∀ c, c ∈ L1 → gap c b) ∧ (∀ c, c ∈ G2 → gap b c) ∧ StronglySorted gap (L1 ++ G2) ∧
  (∀ c, c ∈ G1 → c.1 < pv.1) ∧ (∀ c, c ∈ G2 → pv.1 < c.1) ∧ pv.1 < b.1 ∧
  seg s BASE G1 pv.1 ∧ hdr s !! pv.1 = Some (mk_header b.1 pv.2) ∧ seg s bnx G2 BASE.
Proof using HB HL EG Hb.
  pose proof (fl_free _ _ _ _ HL) as Hfr. rewrite Forall_forall in Hfr. pose proof (fl_sorted _ _ _ _ HL) as Hso. apply sorted_app in Hso as (So1 & So2 & So12).
  apply StronglySorted_inv in So2 as [So2 Hfa]. rewrite Forall_forall in Hfa.
  pose proof (flist_addr BASE LO HB _ _ HL) as Hadr. pose proof (fl_ring _ _ _ _ HL) as Hr. rewrite app_comm_cons, EG, <- app_assoc in Hadr, Hr. cbn [app] in Hadr, Hr.
  apply sorted_app in Hadr as (_ & A2 & A12). apply StronglySorted_inv in A2 as [_ A3]. rewrite Forall_forall in A3.
  apply seg_app in Hr as (m & Hg & Hr). destruct Hr as (-> & m1 & Hpv & Hr). destruct Hr as (-> & m2 & Hb' & Hr). rewrite Hb in Hb'. injection Hb' as <-.
  split_and!; try done.
  - intros c Hc. apply So12; [done|by left].
  - apply sorted_app. split_and!; [done|done|]. intros x y Hx Hy. apply So12; [done|by right].
  - intros c Hc. apply (A12 c pv Hc). by left.
  - intros c Hc. apply (A3 c). by right.
  - apply (A3 b). by left.
Qed.

Lemma take_all : b.2 = k → taken s (set_freep (put_hdr s pv.1 (mk_header bnx pv.2)) pv.1) (L1 ++ b :: G2) (L1 ++ G2) b.1 k.
Proof using HB HL EG Hb Hk.
  intros <-. destruct take_facts as (Hf & T1 & T2 & T3 & T4 & T5 & T6 & T7 & T8 & T9).
  assert (Hin : ∀ c, c ∈ L1 ++ G2 → c ∈ L1 ++ b :: G2) by (intros c; rewrite !elem_of_app, elem_of_cons; tauto).
  assert (Hpin : pv.1 ∈ ((BASE, 0) :: L1).*1) by (rewrite EG, fmap_app; apply elem_of_app; right; by left).
  assert (Hbin : b ∈ L1 ++ b :: G2) by (apply elem_of_app; right; by left). destruct (Hf b Hbin) as (B1 & B2 & B3 & B4).
  assert (Hap : ∀ c, c ∈ L1 ++ G2 → apart c b).
  { intros c Hc. unfold apart. apply elem_of_app in Hc as [Hc|Hc]; [left|right]; [specialize (T1 c Hc)|specialize (T2 c Hc)]; unfold gap in *; lia. }
  assert (Eb : (b.1, b.2) = b) by by destruct b.
  constructor; cbn [brk set_freep put_hdr]; rewrite ?Eb; try done.
  - constructor; cbn [brk freep set_freep put_hdr]; try done.
    + rewrite app_comm_cons, EG, <- app_assoc. cbn [app]. apply seg_app. exists pv.1. split.
      * eapply seg_frame; [|exact T7]. intros c Hc. cbn. rewrite lookup_insert_ne; [done|]. specialize (T4 c Hc). lia.
      * split; [done|]. exists bnx. cbn. split; [apply lookup_insert_eq|]. eapply seg_frame; [|exact T9]. intros c Hc. cbn. rewrite lookup_insert_ne; [done|]. specialize (T5 c Hc). lia.
    + apply Forall_forall. auto.
    + rewrite app_comm_cons, fmap_app, elem_of_app. by left.
    + apply HL.
  - cbn. rewrite lookup_insert_ne by lia. by rewrite Hb.
  - intros x Hx Hx'. cbn. rewrite lookup_insert_ne; [done|]. intros <-. apply Hx'. rewrite app_comm_cons, fmap_app, elem_of_app. by left.
  - intros c Hc. split; [auto|by apply Hc].
  - intros x (c & Hc & Hx). rewrite elem_of_app, elem_of_cons in Hc. destruct Hc as [Hc|[->|Hc]]; [left; exists c; rewrite elem_of_app; auto|by right|left; exists c; rewrite elem_of_app; auto].
Qed.

Lemma take_tail z :
  k < b.2 → let q := b.1 + HSZ * (b.2 - k) in
  taken s (set_freep (put_hdr (put_hdr s b.1 (mk_header bnx (b.2 - k))) q (mk_header z k)) pv.1) (L1 ++ b :: G2) (L1 ++ (b.1, b.2 - k) :: G2) q k.
Proof using HB HL EG Hb Hk.
  intros Hlt q. destruct take_facts as (Hf & T1 & T2 & T3 & T4 & T5 & T6 & T7 & T8 & T9).
  assert (Hpin : pv.1 ∈ ((BASE, 0) :: L1).*1) by (rewrite EG, fmap_app; apply elem_of_app; right; by left).
  assert (Hbin : b ∈ L1 ++ b :: G2) by (apply elem_of_app; right; by left). destruct (Hf b Hbin) as (B1 & B2 & B3 & B4).
  assert (Eq : bend (b.1, b.2 - k) = q ∧ bend (q, k) = bend b ∧ b.1 < q ∧ q < bend b) by (unfold q, bend, HSZ; cbn; lia). destruct Eq as (Q1 & Q2 & Q3 & Q4).
  assert (Hlow : ∀ c, c ∈ (BASE, 0) :: L1 → c.1 < b.1).
  { intros c Hc. rewrite EG in Hc. apply elem_of_app in Hc as [Hc|Hc]; [specialize (T4 c Hc); lia|]. by apply list_elem_of_singleton in Hc as ->. }
  assert (Hhig : ∀ c, c ∈ G2 → bend b < c.1) by exact T2.
  constructor; cbn [brk set_freep put_hdr]; try done.
  - constructor; cbn [brk freep set_freep put_hdr]; try done.
    + rewrite app_comm_cons. apply seg_app. exists b.1. split.
      * rewrite EG. apply seg_app. exists pv.1. assert (Hg : ∀ c, c ∈ (BASE, 0) :: L1 → hdr (set_freep (put_hdr (put_hdr s b.1 (mk_header bnx (b.2 - k))) q (mk_header z k)) pv.1) !! c.1 = hdr s !! c.1).
        { intros c Hc. cbn. specialize (Hlow c Hc). by rewrite !lookup_insert_ne by lia. }
        split; [eapply seg_frame; [|exact T7]; intros c Hc; apply Hg; rewrite EG; apply elem_of_app; by left|]. split; [done|]. exists b.1. split; [|done].
        rewrite Hg; [done|]. rewrite EG. apply elem_of_app. right. by left.
      * split; [done|]. exists bnx. cbn. rewrite lookup_insert_ne by (cbn; lia). split; [apply lookup_insert_eq|].
        eapply seg_frame; [|exact T9]. intros c Hc. cbn. specialize (Hhig c Hc). by rewrite !lookup_insert_ne by lia.
    + apply sorted_app. apply sorted_app in T3 as (S1 & S2 & S12). split_and!; [done|constructor; [done|]|].
      * apply Forall_forall. intros c Hc. specialize (Hhig c Hc). unfold gap. lia.
      * intros x y Hx Hy. apply elem_of_cons in Hy as [->|Hy]; [exact (T1 x Hx)|auto].
    + apply Forall_forall. intros c Hc. rewrite elem_of_app, elem_of_cons in Hc. destruct Hc as [Hc|[->|Hc]]; [apply Hf, elem_of_app; by left| |apply Hf, elem_of_app; right; by right].
      rewrite Q1. cbn. split_and!; [lia|lia|lia|done].
    + rewrite app_comm_cons, fmap_app, elem_of_app. by left.
    + apply HL.
  - cbn. by rewrite lookup_insert_eq.
  - intros x Hx Hx'. cbn. rewrite !lookup_insert_ne; [done| |done]. intros <-. apply Hx'. rewrite fmap_cons, fmap_app, elem_of_cons, elem_of_app. right. right. by left.
  - split_and!; [lia|lia|]. unfold q. apply Z.divide_add_r; [done|apply Z.divide_factor_l].
  - intros c Hc. unfold apart. rewrite elem_of_app, elem_of_cons in Hc. destruct Hc as [Hc|[->|Hc]].
    + specialize (T1 c Hc). unfold gap in T1. cbn. lia.
    + cbn [fst]. lia.
    + specialize (Hhig c Hc). lia.
  - intros c Hc. pose proof (Hc b Hbin) as Hcb. split; [|apply (apart_sub b); [cbn; lia|lia|done]].
    intros d Hd. rewrite elem_of_app, elem_of_cons in Hd. destruct Hd as [Hd|[->|Hd]]; [apply Hc, elem_of_app; by left| |apply Hc, elem_of_app; right; by right].
    apply (apart_sub b); [done|lia|done].
  - intros x (c & Hc & Hx). rewrite elem_of_app, elem_of_cons in Hc. destruct Hc as [Hc|[->|Hc]];
      [left; exists c; rewrite elem_of_app, elem_of_cons; auto| |left; exists c; rewrite elem_of_app, elem_of_cons; auto].
    destruct (decide (x < q)); [left; exists (b.1, b.2 - k); rewrite elem_of_app, elem_of_cons, Q1; cbn; split; [auto|lia]|right; lia].
Qed.
End take.

(** The ring, read from the block after [freep]. *)
Lemma ring_from s L :
  flist BASE LO s L →
  ∃ F1 f F2 nx, (BASE, 0) :: L = F1 ++ f :: F2 ∧ f.1 = freep s ∧ hdr s !! f.1 = Some (mk_header nx f.2) ∧ seg s nx (F2 ++ F1) f.1 ∧
    (∀ c, c ∈ F2 ++ F1 → c.1 ≠ freep s).
Proof using HB.
  intros HL. pose proof (fl_freep _ _ _ _ HL) as Hin. apply list_elem_of_fmap in Hin as (f & Ef & Hin). apply list_elem_of_split in Hin as (F1 & F2 & EF).
  pose proof (fl_ring _ _ _ _ HL) as Hr. pose proof (flist_addr BASE LO HB _ _ HL) as Hadr. rewrite EF in Hr, Hadr.
  apply seg_app in Hr as (m & H1 & Hf & nx & Hh & H2). subst m. exists F1, f, F2, nx. split_and!; [done..| |].
  - apply seg_app. exists BASE. done.
  - apply sorted_app in Hadr as (_ & A2 & A12). apply StronglySorted_inv in A2 as [_ A3]. rewrite Forall_forall in A3.
    intros c Hc. rewrite Ef. apply elem_of_app in Hc as [Hc|Hc]; [specialize (A3 c Hc)|specialize (A12 c f Hc ltac:(by left))]; unfold addr_lt in *; lia.
Qed.

Lemma first_fit (k : Z) (R : list block) :
  (∃ b, b ∈ R ∧ k ≤ b.2) → ∃ R0 b R1, R = R0 ++ b :: R1 ∧ k ≤ b.2 ∧ ∀ c, c ∈ R0 → c.2 < k.
Proof using Type.
  clear. induction R as [|c R IH]; intros (b & Hb & Hk); [by apply elem_of_nil in Hb|]. destruct (decide (k ≤ c.2)) as [Hc|Hc].
  - exists [], c, R. split_and!; [done|done|]. by intros d Hd%elem_of_nil.
  - apply elem_of_cons in Hb as [->|Hb]; [done|]. destruct IH as (R0 & d & R1 & -> & Hd & H0); [eauto|]. exists (c :: R0), d, R1. split_and!; [done|done|].
    intros e He. apply elem_of_cons in He as [->|He]; [lia|auto].
Qed.

(** The last step of the search: a block that is large enough. *)
Lemma malloc_hit grants s L1 G2 G1 pv b bnx k fuel :
  flist BASE LO s (L1 ++ b :: G2) → (BASE, 0) :: L1 = G1 ++ [pv] → hdr s !! b.1 = Some (mk_header bnx b.2) → 0 < k ≤ b.2 →
  ∃ q s' L', malloc_loop BASE LO grants (S fuel) s k pv.1 b.1 = Ok (q + HSZ, s') ∧ taken s s' (L1 ++ b :: G2) L' q k.
Proof using HB.
  intros HL EG Hb Hk. destruct (take_facts s L1 G2 G1 pv b bnx HL EG Hb) as (Hf & _ & _ & _ & _ & _ & T6 & _ & T8 & _).
  destruct (Hf b ltac:(apply elem_of_app; right; by left)) as (B1 & B2 & B3 & B4). destruct (fl_brk _ _ _ _ HL) as [Hbrk _].
  assert (Tb : may_touch BASE LO s b.1 = true) by (apply (touch_ok BASE LO HB s _ b HL); right; apply elem_of_app; right; by left).
  assert (Tpv : may_touch BASE LO s pv.1 = true).
  { apply (touch_ok BASE LO HB s _ pv HL). rewrite app_comm_cons, EG, !elem_of_app. left. right. by left. }
  cbn [malloc_loop]. rewrite (get_hdr_ok _ _ _ _ _ Tb Hb), bind_Ok. cbn [hsize hptr]. rewrite (proj2 (Z.leb_le k b.2)) by lia.
  destruct (Z.eqb_spec b.2 k) as [E|E].
  - rewrite (set_ptr_ok _ _ _ _ Tpv T8), bind_Ok. cbn [hsize]. eexists _, _, _. split; [reflexivity|]. by apply (take_all s L1 G2 G1 pv b bnx k HL EG Hb Hk).
  - set (q := b.1 + HSZ * (b.2 - k)). assert (Eu : u32 (b.2 - k) = b.2 - k) by (unfold u32; apply Z.mod_small; unfold bend, HSZ in *; lia).
    rewrite (set_size_ok _ _ _ _ Tb Hb), bind_Ok, Eu. cbn [hptr].
    rewrite (get_hdr_ok BASE LO _ b.1 (mk_header bnx (b.2 - k))); [|exact Tb|apply put_hdr_at]. rewrite bind_Ok. cbn [hsize]. fold q.
    assert (Tq : may_touch BASE LO (put_hdr s b.1 (mk_header bnx (b.2 - k))) q = true) by (unfold may_touch, q, bend, HSZ, put_hdr in *; cbn [brk]; lia).
    unfold set_size, get_hdr. rewrite Tq, !bind_Ok.
    eexists _, _, _. split; [reflexivity|]. apply (take_tail s L1 G2 G1 pv b bnx k HL EG Hb Hk). lia.
Qed.

Lemma malloc_found grants s L k fuel nx fn :
  flist BASE LO s L → 0 < k → (∃ b, b ∈ L ∧ k ≤ b.2) → hdr s !! freep s = Some (mk_header nx fn) → (length L + 2 ≤ fuel)%nat →
  ∃ q s' L', malloc_loop BASE LO grants fuel s k (freep s) nx = Ok (q + HSZ, s') ∧ taken s s' L L' q k.
Proof using HB.
  intros HL Hk (b0 & Hb0 & Hk0) Hfp Hf. destruct (ring_from s L HL) as (F1 & f & F2 & nx' & EF & Ef & Hff & Hs & Hne).
  rewrite Ef, Hfp in Hff. injection Hff as <- ->.
  destruct (first_fit k (F2 ++ F1 ++ [f])) as (R0 & b & R1 & ER & Hkb & HR0).
  { exists b0. split; [|done]. assert (Hin : b0 ∈ (BASE, 0) :: L) by by right. rewrite EF in Hin. revert Hin. rewrite !elem_of_app, !elem_of_cons, elem_of_nil. tauto. }
  assert (Hsub : ∃ R1', F2 ++ F1 = R0 ++ R1').
  { destruct R1 as [|r R1 _] using rev_ind.
    - rewrite app_assoc in ER. apply app_inj_tail in ER as [-> ->]. exists []. by rewrite app_nil_r.
    - rewrite app_comm_cons, !app_assoc in ER. apply app_inj_tail in ER as [E _]. eauto. }
  assert (Hlen : (length R0 ≤ length L)%nat).
  { destruct Hsub as [R1' E]. apply (f_equal length) in E, EF. rewrite !length_app in *. cbn [length] in *. lia. }
  destruct (ring_pred F1 F2 f (BASE, 0) R0 b R1 ER) as (G1 & pv & G2 & EG & Elast).
  { destruct F1 as [|g F1]; cbn in EF |- *; by injection EF as -> _. }
  { intros <-. cbn in Hkb. lia. }
  rewrite <- EF in EG. assert (EL : ∃ L1, L = L1 ++ b :: G2 ∧ (BASE, 0) :: L1 = G1 ++ [pv]).
  { destruct G1 as [|g G1]; cbn [app] in EG; injection EG as E1 E2; [exists []; by rewrite E2, E1|].
    exists (G1 ++ [pv]). rewrite E2, <- app_assoc. by rewrite E1. }
  destruct EL as (L1 & -> & EL).
  assert (Hring : seg s nx (R0 ++ b :: R1) nx).
  { rewrite <- ER, app_assoc. apply seg_app. exists f.1. split; [done|]. split; [done|]. exists nx. split; [by rewrite Ef|done]. }
  apply seg_app in Hring as (z & Hr0 & Hz & bnx & Hb & _). subst z.
  replace fuel with (length R0 + S (fuel - length R0 - 1))%nat by lia. rewrite (malloc_skip BASE LO HB grants s k R0 _ (freep s) nx b.1 Hr0).
  - replace (default (freep s) (last R0.*1)) with pv.1; [by eapply malloc_hit|].
    rewrite fmap_last. destruct R0 as [|r R0]; [cbn in Elast; injection Elast as <-; cbn; done|].
    rewrite last_cons_cons in Elast. rewrite Elast. done.
  - intros c Hc. split_and!; [|auto|].
    + apply (touch_ok BASE LO HB s _ c HL). rewrite EF. destruct Hsub as [R1' E]. assert (Hin : c ∈ F2 ++ F1) by (rewrite E; apply elem_of_app; by left).
      revert Hin. rewrite !elem_of_app, elem_of_cons. tauto.
    + apply Hne. destruct Hsub as [R1' ->]. apply elem_of_app. by left.
Qed.

(** Without a block that is large enough the search comes to [freep] and asks for
    more. *)
Lemma malloc_none grants s L k fuel nx fn :
  flist BASE LO s L → 0 < k → (∀ b, b ∈ L → b.2 < k) → hdr s !! freep s = Some (mk_header nx fn) →
  malloc_loop BASE LO grants (length L + S fuel) s k (freep s) nx =
    ('(p, s) ← morecore BASE LO grants (S fuel) s k;
     if p =? 0 then Ok (0, s) else x ← get_hdr BASE LO s p; malloc_loop BASE LO grants fuel s k p (hptr x)).
Proof using HB.
  intros HL Hk Hno Hfp. destruct (ring_from s L HL) as (F1 & f & F2 & nx' & EF & Ef & Hff & Hs & Hne).
  rewrite Ef, Hfp in Hff. injection Hff as <- ->.
  assert (Hsmall : ∀ c, c ∈ (BASE, 0) :: L → c.2 < k) by (intros c Hc; apply elem_of_cons in Hc as [->|Hc]; [done|auto]).
  assert (Hsub : ∀ c, c ∈ F2 ++ F1 → c ∈ (BASE, 0) :: L) by (intros c; rewrite EF, !elem_of_app, elem_of_cons; tauto).
  assert (Hfin : f ∈ (BASE, 0) :: L) by (rewrite EF, elem_of_app, elem_of_cons; tauto).
  replace (length L + S fuel)%nat with (length (F2 ++ F1) + S fuel)%nat.
  2: { apply (f_equal length) in EF. rewrite !length_app in *. cbn [length] in *. lia. }
  rewrite (malloc_skip BASE LO HB grants s k _ _ _ _ _ Hs); [|intros c Hc; split_and!; [by eapply touch_ok; auto|auto|auto]].
  cbn [malloc_loop]. rewrite (get_hdr_ok BASE LO s f.1 (mk_header nx f.2)); [|by eapply touch_ok|by rewrite Ef]. rewrite bind_Ok. cbn [hsize hptr].
  rewrite (proj2 (Z.leb_gt k f.2)) by auto. rewrite Ef, Z.eqb_refl. done.
Qed.

Context (grants : Z → Z → bool) (Hgr : ∀ b n, grants b n = true → b + n ≤ 2 ^ 31).

(** [morecore]: refused, or a new block at the break is put on the list. *)
Lemma morecore_ok s L k fuel :
  flist BASE LO s L → 0 < k → k * HSZ < 2 ^ 31 → (length L + 2 ≤ fuel)%nat →
  let nu := Z.max k 4096 in
  (grants (brk s) (nu * HSZ) = false ∧ morecore BASE LO grants fuel s k = Ok (0, s)) ∨
  ∃ s1 s' L', morecore BASE LO grants fuel s k = Ok (freep s', s') ∧ freed s1 s' L L' (brk s) nu ∧
    brk s1 = brk s + nu * HSZ ∧ ∀ x, x ≠ brk s → hdr s1 !! x = hdr s !! x.
Proof using HB Hgr.
  intros HL Hk Hlim Hf nu. unfold morecore. replace (if k <? 4096 then 4096 else k) with nu by (unfold nu; destruct (Z.ltb_spec k 4096); lia).
  assert (Ei : i32 (nu * HSZ) = nu * HSZ).
  { apply i32_small. unfold nu, HSZ in *. destruct (Z.max_spec k 4096) as [[_ ->]|[_ ->]]; lia. }
  rewrite Ei. unfold sbrk. rewrite (proj2 (Z.ltb_ge (nu * HSZ) 0)) by (unfold nu, HSZ; lia). destruct (grants (brk s) (nu * HSZ)) eqn:Eg; [right|by left].
  destruct (fl_brk _ _ _ _ HL) as [Hbrk Hal]. specialize (Hgr _ _ Eg). rewrite (proj2 (Z.eqb_neq (brk s) (-1))) by (unfold HSZ in *; lia).
  set (s0 := mk_uheap (hdr s) (freep s) (brk s + nu * HSZ)).
  assert (Tp : may_touch BASE LO s0 (brk s) = true) by (unfold may_touch, s0, nu, HSZ in *; cbn [brk]; lia).
  unfold set_size at 1, get_hdr at 1. rewrite Tp, !bind_Ok. set (s1 := put_hdr s0 (brk s) _).
  pose proof (fl_free _ _ _ _ HL) as Hfr. rewrite Forall_forall in Hfr.
  assert (Hot : ∀ x, x ≠ brk s → hdr s1 !! x = hdr s !! x) by (intros x Hx; unfold s1; by rewrite put_hdr_ne).
  assert (HL1 : flist BASE LO s1 L).
  { constructor; cbn [brk freep s1 s0 put_hdr].
    - eapply seg_frame; [|apply HL]. intros b Hb. apply Hot. apply elem_of_cons in Hb as [->|Hb]; [cbn; unfold HSZ in *; lia|].
      destruct (Hfr b Hb) as (F1 & F2 & F3 & _). unfold bend, HSZ in *. lia.
    - apply HL.
    - apply Forall_forall. intros b Hb. destruct (Hfr b Hb) as (F1 & F2 & F3 & F4). split_and!; [lia|lia|unfold nu, HSZ in *; lia|done].
    - apply HL.
    - split; [unfold nu, HSZ in *; lia|]. apply Z.divide_add_r; [done|apply Z.divide_factor_r]. }
  destruct (free_insert s1 L (brk s) nu fuel HL1) as (s' & L' & Ef & Hfd).
  - intros b Hb. destruct (Hfr b Hb) as (_ & _ & F3 & _). by left.
  - unfold nu. lia.
  - lia.
  - unfold bend, s1, s0. cbn. lia.
  - done.
  - unfold s1. by rewrite put_hdr_at.
  - done.
  - exists s1, s', L'. rewrite Ef, bind_Ok. done.
Qed.

(** ** With the blocks in use *)

Lemma used_freed s s' L L' A bp n :
  flist BASE LO s L → used LO s L A → A !! bp = Some n → freed s s' L L' bp n → used LO s' L' (delete bp A).
Proof using HB.
  intros HL [U1 U2 U3 U4] Hbp Hfd. pose proof (fl_free _ _ _ _ HL) as Hfr. rewrite Forall_forall in Hfr. constructor.
  - intros a m Ha. apply lookup_delete_Some in Ha as [Hne Ha]. destruct (U1 a m Ha) as (V1 & V2 & V3 & V4 & V5). rewrite (fd_brk _ _ _ _ _ _ Hfd). split_and!; try done.
    rewrite (fd_other _ _ _ _ _ _ Hfd); [done|done|]. intros Hin. apply list_elem_of_fmap in Hin as (b & E & Hin).
    apply elem_of_cons in Hin as [->|Hin]; [cbn in E; unfold HSZ in *; lia|]. specialize (U2 b a m Hin Ha). destruct (Hfr b Hin) as (_ & F2 & _). unfold apart, bend, HSZ in *. cbn in *. lia.
  - intros b a m Hb Ha. apply lookup_delete_Some in Ha as [Hne Ha]. destruct (U1 a m Ha) as (V1 & V2 & _).
    apply (fd_apart _ _ _ _ _ _ Hfd (a, m) V2); [intros c Hc; by apply U2|by apply U3|done].
  - intros a m a' m' Ha Ha' Hne. apply lookup_delete_Some in Ha as [_ Ha]. apply lookup_delete_Some in Ha' as [_ Ha']. by apply U3.
  - intros x Hx. rewrite (fd_brk _ _ _ _ _ _ Hfd) in Hx. destruct (U4 x Hx) as [Hc|(a & m & Ha & Hc)]; [left; apply (fd_cover _ _ _ _ _ _ Hfd); by left|].
    destruct (decide (a = bp)) as [->|Hne].
    + left. apply (fd_cover _ _ _ _ _ _ Hfd). right. rewrite Hbp in Ha. by injection Ha as ->.
    + right. exists a, m. by rewrite lookup_delete_ne.
Qed.

(** A new piece of the heap goes on the free list. *)
Lemma used_grown s s1 s' L L' A nu :
  flist BASE LO s L → used LO s L A → 0 < nu → freed s1 s' L L' (brk s) nu → brk s1 = brk s + nu * HSZ →
  (∀ x, x ≠ brk s → hdr s1 !! x = hdr s !! x) → used LO s' L' A.
Proof using HB.
  intros HL [U1 U2 U3 U4] Hnu Hfd Hbrk Hoth. pose proof (fl_free _ _ _ _ HL) as Hfr. rewrite Forall_forall in Hfr. constructor.
  - intros a m Ha. destruct (U1 a m Ha) as (V1 & V2 & V3 & V4 & V5). rewrite (fd_brk _ _ _ _ _ _ Hfd), Hbrk. unfold bend, HSZ in V3. cbn in V3.
    split_and!; try done; [unfold bend, HSZ; cbn; lia|]. rewrite (fd_other _ _ _ _ _ _ Hfd); [rewrite Hoth; [done|lia]|lia|].
    intros Hin. apply list_elem_of_fmap in Hin as (b & E & Hin). apply elem_of_cons in Hin as [->|Hin]; [cbn in E; unfold HSZ in *; lia|].
    specialize (U2 b a m Hin Ha). destruct (Hfr b Hin) as (_ & F2 & _). unfold apart, bend, HSZ in *. cbn in *. lia.
  - intros b a m Hb Ha. destruct (U1 a m Ha) as (V1 & V2 & V3 & _). apply (fd_apart _ _ _ _ _ _ Hfd (a, m) V2); [intros c Hc; by apply U2| |done]. right. done.
  - done.
  - intros x Hx. rewrite (fd_brk _ _ _ _ _ _ Hfd), Hbrk in Hx. destruct (decide (x < brk s)) as [Hlt|Hge].
    + destruct (U4 x ltac:(lia)) as [Hc|Hc]; [left; apply (fd_cover _ _ _ _ _ _ Hfd); by left|by right].
    + left. apply (fd_cover _ _ _ _ _ _ Hfd). right. unfold bend, HSZ in *. cbn. lia.
Qed.

Lemma used_taken s s' L L' A q k :
  flist BASE LO s L → used LO s L A → 0 < k → taken s s' L L' q k → A !! q = None ∧ used LO s' L' (<[q := k]> A).
Proof using HB.
  intros HL [U1 U2 U3 U4] Hk Ht. pose proof (fl_free _ _ _ _ HL) as Hfr. rewrite Forall_forall in Hfr.
  destruct (tk_in _ _ _ _ _ _ Ht) as (I1 & I2 & I3).
  assert (Hq : ∀ a m, A !! a = Some m → apart (q, k) (a, m)) by (intros a m Ha; apply (tk_apart _ _ _ _ _ _ Ht (a, m)); intros b Hb; by apply U2).
  assert (Hno : A !! q = None).
  { destruct (A !! q) as [m|] eqn:E; [|done]. specialize (Hq q m E). destruct (U1 q m E) as (_ & V2 & _). unfold apart, bend, HSZ in Hq. cbn in Hq. lia. }
  split; [done|]. constructor.
  - intros a m Ha. apply lookup_insert_Some in Ha as [[<- <-]|[Hne Ha]].
    + rewrite (tk_brk _ _ _ _ _ _ Ht). split_and!; try done. apply Ht.
    + destruct (U1 a m Ha) as (V1 & V2 & V3 & V4 & V5). rewrite (tk_brk _ _ _ _ _ _ Ht). split_and!; try done.
      rewrite (tk_other _ _ _ _ _ _ Ht); [done|done|]. intros Hin. apply list_elem_of_fmap in Hin as (b & E & Hin).
      apply elem_of_cons in Hin as [->|Hin]; [cbn in E; unfold HSZ in *; lia|]. specialize (U2 b a m Hin Ha). destruct (Hfr b Hin) as (_ & F2 & _). unfold apart, bend, HSZ in *. cbn in *. lia.
  - intros b a m Hb Ha. apply lookup_insert_Some in Ha as [[<- <-]|[Hne Ha]]; [by apply Ht|].
    apply (tk_apart _ _ _ _ _ _ Ht (a, m)); [intros c Hc; by apply U2|done].
  - intros a m a' m' Ha Ha' Hne. apply lookup_insert_Some in Ha as [[<- <-]|[Hn1 Ha]]; apply lookup_insert_Some in Ha' as [[<- <-]|[Hn2 Ha']]; [done|auto| |by apply U3].
    specialize (Hq a m Ha). unfold apart in *. tauto.
  - intros x Hx. rewrite (tk_brk _ _ _ _ _ _ Ht) in Hx. destruct (U4 x Hx) as [Hc|(a & m & Ha & Hc)].
    + destruct (tk_cover _ _ _ _ _ _ Ht x Hc) as [Hc'|Hc']; [by left|]. right. exists q, k. by rewrite lookup_insert_eq.
    + right. exists a, m. rewrite lookup_insert_ne by congruence. done.
Qed.

(** The allocator before its first call, and from then on. *)
Definition heap_ok (s : uheap) (A : gmap Z Z) : Prop :=
  (freep s = 0 ∧ A = ∅ ∧ brk s = LO ∧ LO ≤ 2 ^ 31 ∧ (HSZ | LO)) ∨ ∃ L, flist BASE LO s L ∧ used LO s L A.

(** Enough steps for two rounds through the free list. *)
Definition malloc_fuel (s : uheap) : nat := Z.to_nat ((brk s - LO) / 8 + 8).

Lemma flist_length s L : flist BASE LO s L → HSZ * zlen L ≤ brk s - LO.
Proof using Type.
  intros HL. pose proof (fl_free _ _ _ _ HL) as Hfr. rewrite Forall_forall in Hfr. pose proof (fl_sorted _ _ _ _ HL) as Hso. destruct (fl_brk _ _ _ _ HL) as [Hb _].
  assert (H : ∀ lo, lo ≤ brk s → (∀ b, b ∈ L → lo ≤ b.1) → HSZ * zlen L ≤ brk s - lo); [|apply H; [lia|intros b Hb'; by apply Hfr]].
  clear HL. clear HB Hgr. induction Hso as [|b L Hso IH Hfa]; intros lo Hlo Hge; [unfold zlen, HSZ; cbn; lia|].
  destruct (Hfr b ltac:(by left)) as (F1 & F2 & F3 & _). specialize (Hge b ltac:(by left)) as Hb'. rewrite Forall_forall in Hfa.
  assert (IH' : HSZ * zlen L ≤ brk s - bend b).
  { apply IH; [intros c Hc; apply Hfr; by right|done|]. intros c Hc. specialize (Hfa c Hc). unfold gap in Hfa. lia. }
  unfold zlen, bend, HSZ in *. cbn [length] in *. lia.
Qed.

Lemma fuel_enough s L fuel : flist BASE LO s L → (malloc_fuel s ≤ fuel)%nat → (2 * length L + 8 ≤ fuel)%nat.
Proof using Type.
  clear HB Hgr. intros HL Hf. pose proof (flist_length s L HL) as Hl. unfold malloc_fuel, zlen, HSZ in *.
  assert (2 * Z.of_nat (length L) ≤ (brk s - LO) / 8) by (apply Z.div_le_lower_bound; lia). lia.
Qed.

(** The rest of [malloc], once the list is there. *)
Lemma malloc_list s L A k fuel nx fn :
  flist BASE LO s L → used LO s L A → 0 < k → k * HSZ < 2 ^ 31 → hdr s !! freep s = Some (mk_header nx fn) → (2 * length L + 8 ≤ fuel)%nat →
  ∃ p s', malloc_loop BASE LO grants fuel s k (freep s) nx = Ok (p, s') ∧
    ((p = 0 ∧ s' = s ∧ grants (brk s) (Z.max k 4096 * HSZ) = false) ∨
     (∃ q, p = q + HSZ ∧ A !! q = None ∧ LO ≤ q ∧ heap_ok s' (<[q := k]> A))).
Proof using HB Hgr.
  intros HL HU Hk Hlim Hfp Hf. destruct (decide (Exists (λ b, k ≤ b.2) L)) as [Hex|Hno].
  - apply Exists_exists in Hex. destruct (malloc_found grants s L k fuel nx fn HL Hk Hex Hfp ltac:(lia)) as (q & s' & L' & E & Ht).
    exists (q + HSZ), s'. split; [done|]. right. exists q. destruct (used_taken _ _ _ _ _ _ _ HL HU Hk Ht) as [Hq HU']. split_and!; try done; [apply Ht|].
    right. exists L'. split; [apply Ht|done].
  - assert (Hall : ∀ b, b ∈ L → b.2 < k).
    { intros b Hb. destruct (decide (k ≤ b.2)); [|lia]. destruct Hno. apply Exists_exists. eauto. }
    replace fuel with (length L + S (fuel - length L - 1))%nat by lia. rewrite (malloc_none grants s L k _ nx fn HL Hk Hall Hfp).
    destruct (morecore_ok s L k (S (fuel - length L - 1)) HL Hk Hlim ltac:(lia)) as [[Eg ->]|(s1 & s' & L' & -> & Hfd & Hbrk & Hoth)].
    { rewrite bind_Ok. exists 0, s. split; [done|]. left. done. }
    rewrite bind_Ok. pose proof (fd_list _ _ _ _ _ _ Hfd) as HL'. pose proof (used_grown s s1 s' L L' A (Z.max k 4096) HL HU ltac:(lia) Hfd Hbrk Hoth) as HU'.
    destruct (ring_from s' L' HL') as (F1 & f & F2 & nx' & EF & Ef & Hff & _). rewrite Ef in Hff.
    assert (Hnz : freep s' ≠ 0).
    { pose proof (flist_addr BASE LO HB _ _ HL') as Hadr. apply StronglySorted_inv in Hadr as [_ Hfa]. rewrite Forall_forall in Hfa.
      pose proof (fl_freep _ _ _ _ HL') as Hin. apply list_elem_of_fmap in Hin as (c & -> & Hin). apply elem_of_cons in Hin as [->|Hin]; [cbn; lia|].
      specialize (Hfa c Hin). unfold addr_lt in Hfa. cbn in Hfa. lia. }
    rewrite (proj2 (Z.eqb_neq _ _) Hnz), (get_hdr_ok BASE LO s' (freep s') (mk_header nx' f.2)); [|rewrite <- Ef; apply (touch_ok BASE LO HB s' L' f HL'); rewrite EF; apply elem_of_app; right; by left|exact Hff].
    rewrite bind_Ok. cbn [hptr]. destruct (fd_holds _ _ _ _ _ _ Hfd) as (b & Hb & Hb1 & Hb2).
    pose proof (fd_len _ _ _ _ _ _ Hfd). destruct (malloc_found grants s' L' k (fuel - length L - 1) nx' f.2 HL' Hk) as (q & s2 & L2 & E & Ht); [|done|lia|].
    { exists b. split; [done|]. unfold bend, HSZ in Hb2. cbn in Hb2. lia. }
    exists (q + HSZ), s2. split; [done|]. right. exists q. destruct (used_taken _ _ _ _ _ _ _ HL' HU' Hk Ht) as [Hq HU2]. split_and!; try done; [apply Ht|].
    right. exists L2. split; [apply Ht|done].
Qed.

(** The first call makes the ring of [base] alone. *)
Lemma first_ring s A :
  freep s = 0 → A = ∅ → brk s = LO → LO ≤ 2 ^ 31 → (HSZ | LO) →
  let s0 := set_freep (put_hdr s BASE (mk_header BASE 0)) BASE in flist BASE LO s0 [] ∧ used LO s0 [] A.
Proof using HB.
  intros Hfp -> Hbrk Hlo Hal s0. split; constructor; cbn [brk freep s0 set_freep put_hdr]; rewrite ?Hbrk.
  - split; [done|]. exists BASE. cbn. rewrite lookup_insert_eq. done.
  - constructor.
  - constructor.
  - by left.
  - split; [unfold HSZ in *; lia|done].
  - intros a n Ha. by rewrite lookup_empty in Ha.
  - by intros b a n Hb%elem_of_nil.
  - intros a n a' n' Ha. by rewrite lookup_empty in Ha.
  - intros x Hx. lia.
Qed.

Lemma first_set s :
  (s1 ← set_ptr BASE LO s BASE BASE; s2 ← set_size BASE LO s1 BASE 0; Ok (set_freep s2 BASE)) =
  Ok (set_freep (put_hdr s BASE (mk_header BASE 0)) BASE).
Proof using Type.
  unfold set_ptr, set_size, get_hdr, may_touch. rewrite Z.eqb_refl. cbn [orb]. rewrite !bind_Ok, put_hdr_at. cbn [default hptr].
  unfold put_hdr. cbn [hdr freep brk]. by rewrite insert_insert_eq.
Qed.

Lemma malloc_units nbytes : 0 ≤ nbytes ≤ 2 ^ 30 →
  let k := u32 ((nbytes + HSZ - 1) / HSZ + 1) in 0 < k ∧ k * HSZ < 2 ^ 31 ∧ nbytes + HSZ ≤ HSZ * k.
Proof using Type.
  clear HB Hgr. intros Hn k. unfold HSZ in *. pose proof (Z.div_mod (nbytes + 16 - 1) 16 ltac:(lia)). pose proof (Z.mod_pos_bound (nbytes + 16 - 1) 16 ltac:(lia)).
  assert (Ek : k = (nbytes + 16 - 1) / 16 + 1) by (unfold k; apply u32_small; lia). rewrite Ek. lia.
Qed.
End umalloc.

(** ** What the callers see *)

(** C19: [malloc] of the user library, asked for at most 2^30 bytes while the kernel
    lets the heap grow only below address 2^31, in any state its calls can lead
    to, returns: either a block that was not in use, large enough for the bytes
    asked for with its header, aligned, inside the heap and apart from every block
    in use; or null, when the kernel refuses to grow the heap, and then no block
    in use is affected. (Without the bounds the claim fails: asked for 2^31 bytes,
    it reaches a fault, [malloc_huge].) *)
Theorem malloc_correct BASE LO grants s A nbytes fuel :
  0 < BASE ∧ BASE + HSZ ≤ LO → (∀ b n, grants b n = true → b + n ≤ 2 ^ 31) →
  heap_ok BASE LO s A → 0 ≤ nbytes ≤ 2 ^ 30 → (malloc_fuel LO s ≤ fuel)%nat →
  ∃ p s', malloc BASE LO grants fuel s nbytes = Ok (p, s') ∧
    ((p = 0 ∧ heap_ok BASE LO s' A ∧ ∃ n, nbytes ≤ n ∧ grants (brk s) n = false) ∨
     ∃ n, A !! (p - HSZ) = None ∧ nbytes + HSZ ≤ HSZ * n ∧ (HSZ | p) ∧ LO + HSZ ≤ p ∧ p + nbytes ≤ brk s' ∧
       (∀ a m, A !! a = Some m → p + nbytes ≤ a ∨ a + HSZ * m ≤ p - HSZ) ∧
       heap_ok BASE LO s' (<[p - HSZ := n]> A)).
Proof.
  intros HB Hgr Hok Hn Hf. destruct (malloc_units nbytes Hn) as (Hk & Hlim & Hbig). unfold malloc. set (k := u32 _) in *.
  assert (Hrest : ∀ s0 L nx fn, flist BASE LO s0 L → used LO s0 L A → brk s0 = brk s → hdr s0 !! freep s0 = Some (mk_header nx fn) → (2 * length L + 8 ≤ fuel)%nat →
    ∃ p s', malloc_loop BASE LO grants fuel s0 k (freep s0) nx = Ok (p, s') ∧
    ((p = 0 ∧ heap_ok BASE LO s' A ∧ ∃ n, nbytes ≤ n ∧ grants (brk s) n = false) ∨
     ∃ n, A !! (p - HSZ) = None ∧ nbytes + HSZ ≤ HSZ * n ∧ (HSZ | p) ∧ LO + HSZ ≤ p ∧ p + nbytes ≤ brk s' ∧
       (∀ a m, A !! a = Some m → p + nbytes ≤ a ∨ a + HSZ * m ≤ p - HSZ) ∧ heap_ok BASE LO s' (<[p - HSZ := n]> A))).
  { intros s0 L nx fn HL HU Hbrk Hfp Hfu. destruct (malloc_list BASE LO HB grants Hgr s0 L A k fuel nx fn HL HU Hk Hlim Hfp Hfu) as (p & s' & E & Hres).
    exists p, s'. split; [done|]. destruct Hres as [(-> & -> & Eg)|(q & -> & Hq & Hlo & Hok')].
    - left. split; [done|]. split; [right; eauto|]. exists (Z.max k 4096 * HSZ). rewrite Hbrk in Eg. split; [unfold HSZ in *; lia|done].
    - right. exists k. replace (q + HSZ - HSZ) with q by lia. destruct Hok' as [(_ & E' & _)|(L' & HL' & HU')].
      { apply (f_equal (lookup q)) in E'. by rewrite lookup_insert_eq, lookup_empty in E'. }
      destruct (us_in _ _ _ _ HU' q k ltac:(apply lookup_insert_eq)) as (V1 & V2 & V3 & V4 & _). unfold bend in V3. cbn in V3.
      split_and!; try done; [apply Z.divide_add_r; [done|apply Z.divide_refl]|lia|lia| |right; eauto].
      intros a m Ha. assert (Hne : q ≠ a) by congruence.
      pose proof (us_used _ _ _ _ HU' q k a m ltac:(apply lookup_insert_eq) ltac:(by rewrite lookup_insert_ne) Hne) as Hap. unfold apart, bend in Hap. cbn in Hap. lia. }
  destruct Hok as [(Hfp & HA & Hbrk & Hlo & Hal)|(L & HL & HU)].
  - rewrite Hfp. cbn [Z.eqb]. destruct (first_ring BASE LO HB s A Hfp HA Hbrk Hlo Hal) as [HL HU].
    rewrite first_set, bind_Ok. cbn [freep set_freep].
    rewrite (get_hdr_ok BASE LO _ BASE (mk_header BASE 0)); [|unfold may_touch; by rewrite Z.eqb_refl|apply lookup_insert_eq]. rewrite bind_Ok.
    apply (Hrest _ [] BASE 0 HL HU); [done|apply lookup_insert_eq|]. cbn [length].
    assert (H8 : malloc_fuel LO s = 8%nat) by (unfold malloc_fuel; by rewrite Hbrk, Z.sub_diag). lia.
  - destruct (ring_from BASE LO HB s L HL) as (F1 & f & F2 & nx & EF & Ef & Hff & _). rewrite Ef in Hff.
    assert (Hfin : f ∈ (BASE, 0) :: L) by (rewrite EF; apply elem_of_app; right; by left).
    assert (Hnz : freep s ≠ 0).
    { rewrite <- Ef. apply elem_of_cons in Hfin as [->|Hin]; [cbn; lia|]. pose proof (proj1 (Forall_forall _ _) (fl_free _ _ _ _ HL) f Hin) as (F & _). unfold HSZ in *. lia. }
    rewrite (proj2 (Z.eqb_neq _ _) Hnz), bind_Ok, (get_hdr_ok BASE LO s (freep s) (mk_header nx f.2)); [|rewrite <- Ef; by apply (touch_ok BASE LO HB s L f HL)|exact Hff].
    rewrite bind_Ok. apply (Hrest s L nx f.2 HL HU); [done|done|]. by apply (fuel_enough BASE LO s L fuel HL).
Qed.

(** C20: [free] of a block in use, whatever its place in the list and whether or not
    it touches its neighbours, gives back exactly that block: the others stay as
    they are, and it comes back without touching memory outside the heap. *)
Theorem free_correct BASE LO s A p n fuel :
  0 < BASE ∧ BASE + HSZ ≤ LO → heap_ok BASE LO s A → A !! (p - HSZ) = Some n → (malloc_fuel LO s ≤ fuel)%nat →
  ∃ s', free BASE LO fuel s p = Ok s' ∧ brk s' = brk s ∧ heap_ok BASE LO s' (delete (p - HSZ) A).
Proof.
  intros HB Hok Hp Hf. destruct Hok as [(_ & -> & _)|(L & HL & HU)]; [by rewrite lookup_empty in Hp|].
  destruct (us_in _ _ _ _ HU _ _ Hp) as (V1 & V2 & V3 & V4 & V5). pose proof (fuel_enough BASE LO s L fuel HL Hf).
  destruct (free_insert BASE LO HB s L (p - HSZ) n fuel HL) as (s' & L' & E & Hfd); try done; [intros b Hb; by apply (us_free _ _ _ _ HU)|lia|].
  replace (p - HSZ + HSZ) with p in E by lia. exists s'. split; [done|]. split; [apply Hfd|]. right. exists L'. split; [apply Hfd|].
  by apply (used_freed BASE LO HB s s' L L' A _ n HL HU Hp Hfd).
Qed.

Definition grants1M (b n : Z) : bool := b + n <=? 2 ^ 20.

Lemma malloc_correct_witness :
  let s := mk_uheap ∅ 0 4096 in
  ∃ p s', malloc 16 4096 grants1M 8 s 100 = Ok (p, s') ∧
    ((p = 0 ∧ heap_ok 16 4096 s' ∅ ∧ ∃ n, 100 ≤ n ∧ grants1M (brk s) n = false) ∨
     ∃ n, (∅ : gmap Z Z) !! (p - HSZ) = None ∧ 100 + HSZ ≤ HSZ * n ∧ (HSZ | p) ∧ 4096 + HSZ ≤ p ∧ p + 100 ≤ brk s' ∧
       (∀ a m, (∅ : gmap Z Z) !! a = Some m → p + 100 ≤ a ∨ a + HSZ * m ≤ p - HSZ) ∧
       heap_ok 16 4096 s' (<[p - HSZ := n]> ∅)).
Proof.
  intros s. apply malloc_correct.
  - unfold HSZ. lia.
  - intros b n H. unfold grants1M in H. lia.
  - left. cbn. split_and!; try done. exists 256. reflexivity.
  - lia.
  - vm_compute. lia.
Defined.

(** One block in use, and nothing free. *)
Definition one_block : uheap := mk_uheap (<[16 := mk_header 16 0]> {[4096 := mk_header 0 2]}) 16 4128.

Lemma one_block_ok : heap_ok 16 4096 one_block {[4096 := 2]}.
Proof.
  right. exists []. split; constructor; cbn [brk one_block].
  - split; [done|]. by exists 16.
  - constructor.
  - constructor.
  - by left.
  - split; [lia|]. by exists 258.
  - intros a n Ha. apply lookup_singleton_Some in Ha as [<- <-]. split_and!; try done. by exists 256.
  - by intros b a n Hb%elem_of_nil.
  - intros a n a' n' Ha Ha'. apply lookup_singleton_Some in Ha as [<- <-]. by apply lookup_singleton_Some in Ha' as [<- <-].
  - intros x Hx. right. exists 4096, 2. split; [done|]. unfold bend, HSZ. cbn. lia.
Qed.

Lemma free_correct_witness :
  ∃ s', free 16 4096 12 one_block 4112 = Ok s' ∧ brk s' = brk one_block ∧ heap_ok 16 4096 s' (delete (4112 - HSZ) {[4096 := 2]}).
Proof.
  apply (free_correct 16 4096 one_block {[4096 := 2]} 4112 2 12).
  - unfold HSZ. lia.
  - exact one_block_ok.
  - reflexivity.
  - vm_compute. lia.
Defined.

(** Beyond the range of [int] the bytes asked of [sbrk] become negative: the call
    succeeds without giving memory, and [morecore] writes past the end of the heap. *)
Lemma malloc_huge BASE LO grants h b :
  0 < BASE ∧ BASE + HSZ ≤ LO → LO ≤ b < 2 ^ 31 - HSZ →
  malloc BASE LO grants 8 (mk_uheap h 0 b) (2 ^ 31) = Fault.
Proof.
  intros HB Hb. unfold malloc. cbn [freep Z.eqb]. rewrite first_set, bind_Ok. cbn [freep set_freep].
  rewrite (get_hdr_ok BASE LO _ BASE (mk_header BASE 0)); [|unfold may_touch; by rewrite Z.eqb_refl|apply lookup_insert_eq]. rewrite bind_Ok.
  cbn [hptr]. change (u32 _) with 134217729. cbn [malloc_loop].
  rewrite (get_hdr_ok BASE LO _ BASE (mk_header BASE 0)); [|unfold may_touch; by rewrite Z.eqb_refl|apply lookup_insert_eq]. rewrite bind_Ok.
  cbn [hsize Z.leb Z.compare freep set_freep]. rewrite Z.eqb_refl. unfold morecore. change (i32 _) with (-2147483632). unfold sbrk.
  cbn [Z.ltb Z.compare brk hdr freep set_freep put_hdr]. rewrite (proj2 (Z.ltb_lt (b + _) 0)) by (unfold HSZ in *; lia).
  rewrite (proj2 (Z.eqb_neq b (-1))) by (unfold HSZ in *; lia). unfold set_size, get_hdr, may_touch. cbn [brk].
  rewrite (proj2 (Z.eqb_neq b BASE)) by (unfold HSZ in *; lia). rewrite (proj2 (Z.leb_gt (b + HSZ) b)) by (unfold HSZ; lia). by rewrite andb_false_r.
Qed.
