(* ===== verification/Mkfs.v ===== *)
(** * The image builder: [mkfs/mkfs.c].

    The image is a function from block numbers to blocks, and how many of them the
    file holds; [struct dinode] is the
    disk part of the kernel's inode. [xshort] and [xint] make the bytes of a field
    little-endian on any host, which is how the fields are written here. The program
    gives up through [die] or a failed [assert]; both are [Panic]. A host file is its
    contents, and [read] delivers them in pieces. *)

From Stdlib Require Import ZifyBool.
From S2P Require Import Prelude Block Bio Log Fs Grep.

Definition FSSIZE : Z := 2000.
Definition NINODES : Z := 200.

Definition nbitmap : Z := FSSIZE / (BSIZE * 8) + 1.
Definition ninodeblocks : Z := NINODES / IPB + 1.
Definition nlog : Z := LOGSIZE.
Definition nmeta : Z := 2 + nlog + ninodeblocks + nbitmap.
Definition nblocks : Z := FSSIZE - nmeta.

Definition mksb : superblock :=
  mk_sb FSMAGIC FSSIZE nblocks NINODES nlog 2 (2 + nlog) (2 + nlog + ninodeblocks).

Record mk := mk_mk { im : Z → list Z; nsect : Z; freeinode : Z; freeblock : Z }.

Definition wsect (s : mk) (sec : Z) (buf : list Z) : mk :=
  mk_mk (<[sec := buf]> (im s)) (Z.max (nsect s) (sec + 1)) (freeinode s) (freeblock s).

Definition rsect (s : mk) (sec : Z) : outcome (list Z) :=
  if sec <? nsect s then Ok (im s sec) else Panic "read".

Definition next_block (s : mk) : mk := mk_mk (im s) (nsect s) (freeinode s) (u32 (freeblock s + 1)).

(** An inode without contents, for the parts that are not on disk. *)
Definition dinode_of (i type nlink : Z) : inode := mk_inode ROOTDEV i 1 true true type 0 0 nlink 0 (replicate 13 0).

Definition winode (s : mk) (x : inode) : outcome mk :=
  let bn := IBLOCK (inum x) mksb in
  d ← rsect s bn;
  Ok (wsect s bn (put_dinode d x)).

Definition rinode (s : mk) (i : Z) : outcome inode :=
  d ← rsect s (IBLOCK i mksb);
  Ok (load_dinode d (dinode_of i 0 0)).

Definition mk_ialloc (s : mk) (type : Z) : outcome (Z * mk) :=
  let i := freeinode s in
  let s := mk_mk (im s) (nsect s) (u32 (i + 1)) (freeblock s) in
  s ← winode s (dinode_of i type 1);
  Ok (i, s).

(** The block of byte [fbn * BSIZE] of the file, which is allocated if need be. *)
Definition iappend_block (s : mk) (x : inode) (fbn : Z) : outcome (Z * inode * mk) :=
  if fbn <? NDIRECT then
    a ← arr_get (iaddrs x) fbn;
    '(x, s) ← (if a =? 0 then l ← arr_set (iaddrs x) fbn (freeblock s); Ok (set_iaddrs x l, next_block s) else Ok (x, s));
    a ← arr_get (iaddrs x) fbn;
    Ok (a, x, s)
  else
    a ← arr_get (iaddrs x) NDIRECT;
    '(x, s) ← (if a =? 0 then l ← arr_set (iaddrs x) NDIRECT (freeblock s); Ok (set_iaddrs x l, next_block s) else Ok (x, s));
    a ← arr_get (iaddrs x) NDIRECT;
    indirect ← rsect s a;
    let o := 4 * (fbn - NDIRECT) in
    if rd 4 indirect o =? 0 then
      let indirect := wr 4 indirect o (freeblock s) in
      let s := wsect (next_block s) a indirect in
      Ok (rd 4 indirect o, x, s)
    else Ok (rd 4 indirect o, x, s).

Fixpoint iappend_loop (fuel : nat) (s : mk) (x : inode) (off : Z) (p : list Z) : outcome (inode * Z * mk) :=
  match fuel with
  | O => Hang
  | S fuel' =>
      if 0 <? zlen p then
        let fbn := off / BSIZE in
        if negb (fbn <? MAXFILE) then Panic "assert"
        else
          '(b, x, s) ← iappend_block s x fbn;
          let n1 := Z.min (zlen p) ((fbn + 1) * BSIZE - off) in
          d ← rsect s b;
          let s := wsect s b (splice (off - fbn * BSIZE) (take (Z.to_nat n1) p) d) in
          iappend_loop fuel' s x (u32 (off + n1)) (drop (Z.to_nat n1) p)
      else Ok (x, off, s)
  end.

Definition iappend (s : mk) (i : Z) (p : list Z) : outcome mk :=
  x ← rinode s i;
  '(x, off, s) ← iappend_loop (S (length p)) s x (isize x) p;
  winode s (set_isize x off).

(** The first [used] bits of a block. *)
Fixpoint set_bits (n : nat) (buf : list Z) (i : Z) : outcome (list Z) :=
  match n with
  | O => Ok buf
  | S n' =>
      v ← arr_get buf (i / 8);
      buf ← arr_set buf (i / 8) (Z.lor v (Z.shiftl 1 (i mod 8)));
      set_bits n' buf (i + 1)
  end.

Definition mk_balloc (s : mk) (n : Z) : outcome mk :=
  if negb (n <? BSIZE * 8) then Panic "assert"
  else
    buf ← set_bits (Z.to_nat n) (replicate (Z.to_nat BSIZE) 0) 0;
    Ok (wsect s (sb_bmapstart mksb) buf).

(** A directory entry: the inode number and the name, cut or padded to [DIRSIZ]. *)
Definition entry (i : Z) (name : list Z) : list Z :=
  to_le 2 i ++ take (Z.to_nat DIRSIZ) (name ++ replicate (Z.to_nat DIRSIZ) 0).

(** The eight words of the superblock. *)
Definition sb_bytes (b : superblock) : list Z :=
  concat (to_le 4 <$> [sb_magic b; sb_size b; sb_nblocks b; sb_ninodes b; sb_nlog b; sb_logstart b; sb_inodestart b; sb_bmapstart b]).

(** The name a file gets: without a leading ["user/"], then without an underscore. *)
Definition shortname (path : list Z) : outcome (list Z) :=
  let n := if decide (take 5 path = chars "user/") then drop 5 path else path in
  if decide (47 ∈ n) then Panic "assert"
  else Ok (match n with c :: n' => if c =? 95 then n' else n | [] => n end).

(** [while ((cc = read(fd, buf, sizeof(buf))) > 0) iappend(inum, buf, cc)] *)
Fixpoint copy_file (fuel : nat) (read : list Z → Z → Z) (s : mk) (i : Z) (rest : list Z) : outcome mk :=
  match fuel with
  | O => Hang
  | S fuel' =>
      let cc := read rest BSIZE in
      if 0 <? cc then
        s ← iappend s i (take (Z.to_nat cc) rest);
        copy_file fuel' read s i (drop (Z.to_nat cc) rest)
      else Ok s
  end.

Fixpoint add_files (read : list Z → Z → Z) (s : mk) (files : list (list Z * list Z)) : outcome mk :=
  match files with
  | [] => Ok s
  | (path, data) :: files' =>
      name ← shortname path;
      '(i, s) ← mk_ialloc s T_FILE;
      s ← iappend s ROOTINO (entry i name);
      s ← copy_file (S (length data)) read s i data;
      add_files read s files'
  end.

Definition mkfs (read : list Z → Z → Z) (files : list (list Z * list Z)) : outcome mk :=
  let zeroes := mk_mk (λ _, replicate (Z.to_nat BSIZE) 0) FSSIZE 1 nmeta in
  let s := wsect zeroes 1 (splice 0 (sb_bytes mksb) (replicate (Z.to_nat BSIZE) 0)) in
  '(rootino, s) ← mk_ialloc s T_DIR;
  if negb (rootino =? ROOTINO) then Panic "assert"
  else
    s ← iappend s rootino (entry rootino (chars "."));
    s ← iappend s rootino (entry rootino (chars ".."));
    s ← add_files read s files;
    x ← rinode s rootino;
    let off := u32 ((isize x / BSIZE + 1) * BSIZE) in
    s ← winode s (set_isize x off);
    mk_balloc s (freeblock s).
