(* ===== verification/MkfsInv.v ===== *)
(** * The invariant of [mkfs/mkfs.c].

    While the program runs, the bitmap is not on the image yet: the blocks in use
    are those below [freeblock]. [raw s V] says that [V] is the image with the bitmap
    filled in, so that taking the next block is an [allocated] step of the kernel's
    file system and appending bytes to a file is one of its [wrote] steps. *)

From Stdlib Require Import ZifyBool.
From S2P Require Import Prelude Bits Block Bio BioProof Log LogProof LogOps Fs FsBlock FsInode FsDinode FsFile FsThm Mkfs.

#[global] Instance mk_layout : Layout 30 2 mksb.
Proof. constructor; vm_compute; done. Qed.

Local Notation used := (used mksb).
Local Notation is_data := (is_data mksb).
Local Notation is_bitmap := (is_bitmap mksb).
Local Notation allocated := (allocated mksb).
Local Notation file_ok := (file_ok 1 mksb).
Local Notation grown := (grown 1 mksb).
Local Notation wrote := (wrote 1 mksb).

(** The block of the bitmap. *)
Notation BM := (sb_bmapstart mksb).

Lemma mk_vals : BM = 45 ∧ datastart mksb = 46 ∧ nmeta = 46 ∧ FSSIZE = 2000 ∧ sb_size mksb = 2000 ∧ NINODES = 200.
Proof. by vm_compute. Qed.

Record raw (s : mk) (V : Z → list Z) : Prop := {
  rw_same : ∀ k, k ≠ BM → V k = im s k;
  rw_len : ∀ k, zlen (V k) = BSIZE;
  rw_used : ∀ b, 0 ≤ b < FSSIZE → used V b = (b <? freeblock s);
  rw_range : nmeta ≤ freeblock s ≤ FSSIZE;
  rw_nsect : nsect s = FSSIZE;
  rw_fresh : ∀ k, freeblock s ≤ k < FSSIZE → V k = zeroblock;
}.

Lemma raw_reserved s V : raw s V → reserved mksb V.
Proof.
  intros R b Hb. destruct mk_vals as (E1 & E2 & E3 & E4 & E5 & E6). pose proof (rw_range _ _ R).
  rewrite (rw_used _ _ R); lia.
Qed.

Lemma rsect_ok s V b : raw s V → b ≠ BM → b < FSSIZE → rsect s b = Ok (V b).
Proof. intros R Hb Hl. unfold rsect. rewrite (rw_nsect _ _ R), (rw_same _ _ R) by done. by destruct (Z.ltb_spec b FSSIZE); [|lia]. Qed.

(** A block in use is rewritten. *)
Lemma raw_wsect s V b d :
  raw s V → 0 ≤ b < freeblock s → b ≠ BM → zlen d = BSIZE → raw (wsect s b d) (<[b := d]> V).
Proof.
  intros [R1 R2 R3 R4 R5 R6] Hb Hn Hd. destruct mk_vals as (E1 & E2 & E3 & E4 & E5 & E6). constructor; cbn.
  - intros k Hk. destruct (decide (b = k)) as [<-|Hne]; [by rewrite !fn_lookup_insert|].
    rewrite !fn_lookup_insert_ne by done. auto.
  - intros k. destruct (decide (b = k)) as [<-|Hne]; [by rewrite fn_lookup_insert|].
    rewrite fn_lookup_insert_ne by done. auto.
  - intros c Hc. rewrite <- R3 by done. apply (used_ext 1 30 2 mksb); [|rewrite E5; lia].
    intros k [Hk1 Hk2]. apply fn_lookup_insert_ne. lia.
  - done.
  - rewrite R5. lia.
  - intros k Hk. rewrite fn_lookup_insert_ne by lia. auto.
Qed.

(** [freeblock++] *)
Lemma raw_next s V :
  raw s V → freeblock s < FSSIZE →
  ∃ V', allocated V V' (freeblock s) ∧ raw (next_block s) V' ∧ (∀ k, k ≠ BM → V' k = V k) ∧
    freeblock (next_block s) = freeblock s + 1.
Proof.
  intros R Hlt. pose proof R as [R1 R2 R3 R4 R5 R6]. destruct mk_vals as (E1 & E2 & E3 & E4 & E5 & E6). set (r := freeblock s) in *.
  assert (Eu : u32 (r + 1) = r + 1) by (apply u32_small; lia).
  assert (EB : BBLOCK r mksb = BM).
  { rewrite (bblock_eq 1 30 2 mksb) by lia. rewrite Z.div_small; [done|]. change BPB with 8192. lia. }
  assert (Em : r mod BPB = r) by (apply Z.mod_small; change BPB with 8192; lia).
  assert (Hnb : nbits (V (BBLOCK r mksb)) = BPB) by (unfold nbits; rewrite R2; done).
  destruct (set_bit_ok (V (BBLOCK r mksb)) (r mod BPB)) as (v & d & _ & _ & Hu).
  { rewrite Hnb, Em. change BPB with 8192. lia. }
  assert (Hused : ∀ b, 0 ≤ b < FSSIZE → used (<[BM := d]> V) b = if r =? b then true else used V b).
  { intros b Hb. rewrite <- EB. apply (used_update 1 30 2 mksb); [lia|done|lia]. }
  assert (Hother : ∀ k, k ≠ BM → (<[BM := d]> V) k = V k) by (intros k Hk; by apply fn_lookup_insert_ne).
  exists (<[BM := d]> V). split; [|split; [|done]]; constructor; cbn; fold r.
  - split; lia.
  - rewrite R3; lia.
  - intros b Hb. rewrite R3; lia.
  - intros b Hb. apply Hused. lia.
  - rewrite Hother by lia. apply R6. lia.
  - intros k _ Hk. apply Hother. intros ->. apply Hk. unfold FsBlock.is_bitmap. lia.
  - intros k Hk. rewrite Hother by done. auto.
  - intros k. destruct (decide (k = BM)) as [->|Hk]; [rewrite fn_lookup_insert|rewrite Hother by done; auto].
    destruct Hu as [Hl _]. rewrite Hl. apply R2.
  - intros b Hb. rewrite Hused, R3, Eu by lia. destruct (Z.eqb_spec r b); lia.
  - lia.
  - done.
  - intros k Hk. rewrite Hother by lia. apply R6. lia.
Qed.

Lemma data_low s V b : raw s V → is_data b → used V b = true → 46 ≤ b < freeblock s ∧ b ≠ BM.
Proof.
  intros R Hd Hu. destruct mk_vals as (E1 & E2 & E3 & E4 & E5 & E6). destruct Hd as [Hd1 Hd2].
  rewrite (rw_used _ _ R) in Hu by lia. lia.
Qed.

(** ** One block of a file *)

(** Block [j] of the file is the new one, and no other block changed. *)
Record adds (s : mk) (V : Z → list Z) (x : inode) (j : Z) (s' : mk) (V' : Z → list Z) (x' : inode) : Prop := {
  ad_raw : raw s' V';
  ad_grown : grown V x V' x';
  ad_next : freeblock s' = freeblock s + 1;
  ad_inode : freeinode s' = freeinode s;
  ad_blk : ∀ k, 0 ≤ k ≤ IND → blk V' x' k = if k =? j then freeblock s else blk V x k;
}.

Lemma slot_adds s V x i :
  raw s V → file_ok V x → 0 ≤ i ≤ NDIRECT → blk V x (slot i) = 0 → freeblock s < FSSIZE →
  ∃ l V', arr_set (iaddrs x) i (freeblock s) = Ok l ∧ adds s V x (slot i) (next_block s) V' (set_iaddrs x l).
Proof.
  intros R Hf Hi Hz Hlt. destruct (raw_next s V R Hlt) as (V' & Ha & R' & Hs & En). pose proof IND_val as (EI & EN & EM & EB).
  destruct mk_vals as (E1 & E2 & E3 & E4 & E5 & E6).
  pose proof (fo_len _ _ _ _ Hf) as Hl. pose proof (blk_slot 1 30 2 mksb V V' x (freeblock s) i Hf Ha Hi Hz) as Hb.
  eexists _, V'. split; [apply arr_set_in_range; lia|]. constructor; try done.
  eapply (grown_intro 1 30 2 mksb V x V' V' _ (freeblock s) (slot i)); try done.
  - by eapply raw_reserved.
  - unfold slot. rewrite EI. destruct (i =? NDIRECT); lia.
  - unfold set_iaddrs; cbn. by rewrite zlen_insert.
Qed.

Lemma ind_adds s V x bn :
  raw s V → file_ok V x → NDIRECT ≤ bn < IND → blk V x IND ≠ 0 → blk V x bn = 0 → freeblock s < FSSIZE →
  let a := blk V x IND in
  let d := wr 4 (V a) (4 * (bn - NDIRECT)) (freeblock s) in
  ∃ V', adds s V x bn (wsect (next_block s) a d) V' x.
Proof.
  intros R Hf Hbn Hn Hz Hlt a d. destruct (raw_next s V R Hlt) as (V1 & Ha & R1 & Hs & En). pose proof IND_val as (EI & EN & EM & EB).
  destruct (fo_data _ _ _ _ Hf IND ltac:(lia) Hn) as [Hd Hu]. fold a in Hd, Hu, Hn.
  destruct (data_low s V a R Hd Hu) as [Hal Hab].
  assert (Hld : zlen (V a) = BSIZE) by apply R.
  pose proof (blk_wr 1 30 2 mksb V V1 x (freeblock s) bn Hf Ha Hbn Hn Hld) as Hb. fold a d in Hb.
  exists (<[a := d]> V1). constructor; try done.
  - apply raw_wsect; [done|lia|done|]. unfold d. rewrite zlen_wr; lia.
  - eapply (grown_intro 1 30 2 mksb V x V1 _ x (freeblock s) bn); try done.
    + by eapply raw_reserved.
    + lia.
    + by rewrite set_iaddrs_same.
    + apply Hf.
    + intros k Hk. by rewrite fn_lookup_insert_ne.
Qed.

(** ** Appending to a file *)

(** The blocks a file of [sz] bytes takes, the indirect block among them. *)
Definition nb (sz : Z) : Z := (sz + (BSIZE - 1)) / BSIZE + (if NDIRECT * BSIZE <? sz then 1 else 0).

(** The file has just the blocks of its first [off] bytes. *)
Record ends (V : Z → list Z) (x : inode) (off : Z) : Prop := {
  en_blk : ∀ i, 0 ≤ i < MAXFILE → blk V x i ≠ 0 ↔ i * BSIZE < off;
  en_ind : blk V x IND ≠ 0 ↔ NDIRECT * BSIZE < off;
}.

(** What its last block holds from [off] on is zero. *)
Definition slack (V : Z → list Z) (x : inode) (off : Z) : Prop :=
  ∀ o, off ≤ o < MAXFILE * BSIZE → blk V x (o / BSIZE) ≠ 0 → fbyte V x o = 0.

(** Arithmetic on byte offsets and block numbers. *)
Ltac offs := change BSIZE with 1024 in *; change NDIRECT with 12 in *; repeat case_match; Z.to_euclidean_division_equations; lia.

(** The first [n] bytes of block [off / BSIZE] and the blocks before it. *)
Lemma nb_within off k : 0 ≤ off → 0 < k ≤ BSIZE - off mod BSIZE → nb (off + k) = nb (off + 1).
Proof. intros H0 Hk. unfold nb. offs. Qed.

Lemma nb_mono a b : a ≤ b → nb a ≤ nb b.
Proof. intros H. unfold nb. offs. Qed.

Lemma ends_within V x off k : 0 ≤ off → 0 < k ≤ BSIZE - off mod BSIZE → ends V x (off + 1) → ends V x (off + k).
Proof.
  intros H0 Hk [E1 E2]. constructor; [intros i Hi; rewrite E1 by done|rewrite E2]; offs.
Qed.

Lemma zeroblock_default i : default 0 (zeroblock !! i) = 0.
Proof. unfold zeroblock. destruct (replicate _ 0 !! i) as [v|] eqn:E; [|done]. by apply lookup_replicate in E as [-> _]. Qed.

Lemma slack_grown V x off V' x' : 0 ≤ off → grown V x V' x' → slack V x off → slack V' x' off.
Proof.
  intros H0 G Hs o Ho Hn. pose proof (offset_block o ltac:(lia)) as Hi. unfold fbyte in *.
  destruct (decide (blk V x (o / BSIZE) = 0)) as [Ez|Ez].
  - rewrite (gr_zero _ _ _ _ _ _ G) by (done || lia). apply zeroblock_default.
  - destruct (gr_old _ _ _ _ _ _ G (o / BSIZE) ltac:(lia) Ez) as [-> Hv]. rewrite Hv by lia. by apply Hs.
Qed.

(** The file may have gained blocks, and has those of its first [off] bytes. *)
Record reaches (s : mk) (V : Z → list Z) (x : inode) (n off : Z) (s' : mk) (V' : Z → list Z) (x' : inode) : Prop := {
  rc_raw : raw s' V';
  rc_grown : grown V x V' x';
  rc_next : freeblock s' = freeblock s + n;
  rc_inode : freeinode s' = freeinode s;
  rc_ends : ends V' x' off;
}.

Lemma blk_nonzero s V x i : raw s V → file_ok V x → 0 ≤ i ≤ IND → blk V x i ≠ 0 → 46 ≤ blk V x i < freeblock s ∧ blk V x i ≠ BM.
Proof. intros R Hf Hi Hn. destruct (fo_data _ _ _ _ Hf i Hi Hn). by apply (data_low s V). Qed.

(** The part of [iappend_block] that goes through the indirect block. *)
Lemma iappend_ind_ok s V x fbn :
  raw s V → file_ok V x → NDIRECT ≤ fbn < IND → blk V x IND ≠ 0 → (blk V x fbn = 0 → freeblock s < FSSIZE) →
  let o := 4 * (fbn - NDIRECT) in
  ∃ s' V',
    (indirect ← rsect s (blk V x IND);
     if rd 4 indirect o =? 0 then
       let indirect' := wr 4 indirect o (freeblock s) in
       let s1 := wsect (next_block s) (blk V x IND) indirect' in
       Ok (rd 4 indirect' o, x, s1)
     else Ok (rd 4 indirect o, x, s)) = Ok (blk V' x fbn, x, s') ∧
    if blk V x fbn =? 0 then adds s V x fbn s' V' x else s' = s ∧ V' = V.
Proof.
  intros R Hf Hb Hn Hroom o. pose proof IND_val as (EI & EN & EM & EB).
  destruct mk_vals as (E1 & E2 & E3 & E4 & E5 & E6). pose proof (rw_range _ _ R).
  destruct (blk_nonzero s V x IND R Hf ltac:(lia) Hn) as [Hr Hbm].
  rewrite (rsect_ok s V) by (done || lia). rewrite bind_Ok. cbv zeta.
  assert (Erd : rd 4 (V (blk V x IND)) o = blk V x fbn).
  { rewrite (blk_indirect V x fbn) by lia. rewrite <- (blk_ind V x). by destruct (Z.eqb_spec (blk V x IND) 0). }
  rewrite Erd. destruct (Z.eqb_spec (blk V x fbn) 0) as [Ez|Ez]; [|by exists s, V].
  destruct (ind_adds s V x fbn R Hf Hb Hn Ez (Hroom Ez)) as (V' & Ha). exists (wsect (next_block s) (blk V x IND) (wr 4 (V (blk V x IND)) o (freeblock s))), V'. split; [|done].
  rewrite (ad_blk _ _ _ _ _ _ _ Ha), Z.eqb_refl by lia. rewrite rd_wr; [|lia|rewrite (rw_len _ _ R); lia].
  rewrite Z.mod_small; [done|]. change (2 ^ (8 * Z.of_nat 4)) with 4294967296. lia.
Qed.

Lemma adds_ends s V x off s' V' x' :
  adds s V x (off / BSIZE) s' V' x' → raw s V → ends V x off → 0 ≤ off < MAXFILE * BSIZE → off mod BSIZE = 0 →
  off / BSIZE ≠ NDIRECT → ends V' x' (off + 1).
Proof.
  intros A R [E1 E2] Hoff Hm Hne. pose proof IND_val as (EI & EN & EM & EB). pose proof (offset_block off Hoff).
  pose proof (rw_range _ _ R) as Hr. change nmeta with 46 in Hr.
  constructor.
  - intros i Hi. rewrite (ad_blk _ _ _ _ _ _ _ A) by lia. destruct (Z.eqb_spec i (off / BSIZE)) as [->|Hn]; [|rewrite E1 by done]; offs.
  - rewrite (ad_blk _ _ _ _ _ _ _ A) by lia. destruct (Z.eqb_spec IND (off / BSIZE)); [lia|]. rewrite E2. offs.
Qed.

Lemma adds2_ends s V x off s1 V1 x1 s' V' x' :
  adds s V x IND s1 V1 x1 → adds s1 V1 x1 (off / BSIZE) s' V' x' → raw s V → ends V x off →
  0 ≤ off < MAXFILE * BSIZE → off mod BSIZE = 0 → off / BSIZE = NDIRECT → ends V' x' (off + 1).
Proof.
  intros A B R [E1 E2] Hoff Hm He. pose proof IND_val as (EI & EN & EM & EB).
  pose proof (rw_range _ _ R) as Hr. change nmeta with 46 in Hr.
  pose proof (ad_next _ _ _ _ _ _ _ A). constructor.
  - intros i Hi. rewrite (ad_blk _ _ _ _ _ _ _ B), (ad_blk _ _ _ _ _ _ _ A) by lia.
    destruct (Z.eqb_spec i (off / BSIZE)) as [->|Hn]; [offs|]. destruct (Z.eqb_spec i IND); [lia|]. rewrite E1 by done. offs.
  - rewrite (ad_blk _ _ _ _ _ _ _ B), (ad_blk _ _ _ _ _ _ _ A), Z.eqb_refl by lia. destruct (Z.eqb_spec IND (off / BSIZE)); offs.
Qed.

(** The blocks the next byte of the file takes. *)
Definition need (off : Z) : Z := if off mod BSIZE =? 0 then if off / BSIZE =? NDIRECT then 2 else 1 else 0.

Section block.
Context (s : mk) (V : Z → list Z) (x : inode) (off : Z).
Hypothesis (R : raw s V) (Hf : file_ok V x) (He : ends V x off) (Hoff : 0 ≤ off < MAXFILE * BSIZE)
  (Hroom : freeblock s + need off ≤ FSSIZE).

Lemma reaches_same : off mod BSIZE ≠ 0 → reaches s V x (need off) (off + 1) s V x.
Proof using R Hf He Hoff.
  intros Hm. pose proof He as [G1 G2]. constructor; [done|by apply (grown_refl 1 mksb); [|eapply raw_reserved]|unfold need; case_match; lia|done|].
  constructor; [intros i Hi; rewrite G1 by done|rewrite G2]; offs.
Qed.

Lemma reaches_adds s' V' x' :
  off mod BSIZE = 0 → off / BSIZE ≠ NDIRECT → adds s V x (off / BSIZE) s' V' x' → reaches s V x (need off) (off + 1) s' V' x'.
Proof using R He Hoff.
  intros Hm Hq A. assert (En : need off = 1) by (unfold need; repeat case_match; lia). rewrite En.
  constructor; [apply A|apply A|apply (ad_next _ _ _ _ _ _ _ A)|apply (ad_inode _ _ _ _ _ _ _ A)|]. by eapply adds_ends.
Qed.

Lemma iappend_direct_ok :
  off / BSIZE < NDIRECT →
  ∃ s' V' x', iappend_block s x (off / BSIZE) = Ok (blk V' x' (off / BSIZE), x', s') ∧
    reaches s V x (need off) (off + 1) s' V' x'.
Proof using R Hf He Hoff Hroom.
  intros Hd. pose proof IND_val as (EI & EN & EM & EB). pose proof (offset_block off Hoff) as Hb.
  pose proof (en_blk _ _ _ He (off / BSIZE) ltac:(lia)) as H1.
  unfold iappend_block. destruct (Z.ltb_spec (off / BSIZE) NDIRECT); [|lia].
  rewrite (arr_get_iaddr 1 mksb V) by (done || lia). rewrite bind_Ok, <- (blk_direct V) by done.
  destruct (Z.eqb_spec (blk V x (off / BSIZE)) 0) as [Ez|Ez].
  - assert (Hm : off mod BSIZE = 0) by offs. assert (Hn : need off = 1) by (unfold need; repeat case_match; lia).
    assert (Es : slot (off / BSIZE) = off / BSIZE) by (unfold slot; case_match; lia).
    destruct (slot_adds s V x (off / BSIZE)) as (l & V' & El & A); rewrite ?Es; try done; try lia. rewrite Es in A.
    call El. rewrite bind_Ok. pose proof (gr_file _ _ _ _ _ _ (ad_grown _ _ _ _ _ _ _ A)) as Hf'. cbv beta iota.
    rewrite (arr_get_iaddr 1 mksb V') by (done || lia). rewrite bind_Ok, <- (blk_direct V') by done.
    eexists _, V', _. split; [done|]. apply reaches_adds; [done|lia|done].
  - assert (Hm : off mod BSIZE ≠ 0) by offs. rewrite bind_Ok. cbv beta iota.
    rewrite (arr_get_iaddr 1 mksb V) by (done || lia). rewrite bind_Ok, <- (blk_direct V) by done. exists s, V, x. split; [done|].
    by apply reaches_same.
Qed.

(** The first block that needs the indirect one takes both. *)
Lemma iappend_first_ok :
  NDIRECT ≤ off / BSIZE → blk V x IND = 0 →
  ∃ s' V' x', iappend_block s x (off / BSIZE) = Ok (blk V' x' (off / BSIZE), x', s') ∧
    reaches s V x (need off) (off + 1) s' V' x'.
Proof using R Hf He Hoff Hroom.
  intros Hd Ez. pose proof IND_val as (EI & EN & EM & EB). pose proof (offset_block off Hoff) as Hb.
  pose proof (en_blk _ _ _ He (off / BSIZE) ltac:(lia)) as H1. pose proof (en_ind _ _ _ He) as H2.
  assert (Hm : off mod BSIZE = 0 ∧ off / BSIZE = NDIRECT) by offs. destruct Hm as [Hm Hq].
  assert (Hn : need off = 2) by (unfold need; repeat case_match; lia). pose proof Hroom as Hro. rewrite Hn in Hro |- *.
  pose proof (rw_range _ _ R) as Hr. change nmeta with 46 in Hr.
  unfold iappend_block. destruct (Z.ltb_spec (off / BSIZE) NDIRECT); [lia|].
  rewrite (arr_get_iaddr 1 mksb V) by (done || lia). rewrite bind_Ok, <- (blk_ind V), Ez, Z.eqb_refl.
  destruct (slot_adds s V x NDIRECT) as (l & V1 & El & A); try done; try lia. change (slot NDIRECT) with IND in A.
  call El. rewrite bind_Ok. cbv beta iota. pose proof (gr_file _ _ _ _ _ _ (ad_grown _ _ _ _ _ _ _ A)) as Hf1.
  rewrite (arr_get_iaddr 1 mksb V1) by (done || lia). rewrite bind_Ok, <- (blk_ind V1). set (x1 := set_iaddrs x l) in *.
  pose proof (ad_blk _ _ _ _ _ _ _ A) as Hk. pose proof (ad_next _ _ _ _ _ _ _ A).
  assert (Hz1 : blk V1 x1 (off / BSIZE) = 0).
  { rewrite Hk by lia. destruct (Z.eqb_spec (off / BSIZE) IND); [lia|]. destruct (decide (blk V x (off / BSIZE) = 0)) as [|Hne]; [done|].
    apply H1 in Hne. offs. }
  destruct (iappend_ind_ok (next_block s) V1 x1 (off / BSIZE)) as (s' & V' & E & B);
    [apply A|done|lia|rewrite Hk, Z.eqb_refl; lia|lia|].
  cbv zeta in E. rewrite E. rewrite Hz1 in B. cbn [Z.eqb] in B.
  exists s', V', x1. split; [done|]. constructor; [apply B|eapply (grown_trans 1 30 2 mksb); [apply A|apply B]|..].
  - rewrite (ad_next _ _ _ _ _ _ _ B). lia.
  - by rewrite (ad_inode _ _ _ _ _ _ _ B).
  - by eapply adds2_ends.
Qed.

Lemma iappend_indirect_ok :
  NDIRECT ≤ off / BSIZE → blk V x IND ≠ 0 →
  ∃ s' V' x', iappend_block s x (off / BSIZE) = Ok (blk V' x' (off / BSIZE), x', s') ∧
    reaches s V x (need off) (off + 1) s' V' x'.
Proof using R Hf He Hoff Hroom.
  intros Hd Ez. pose proof IND_val as (EI & EN & EM & EB). pose proof (offset_block off Hoff) as Hb.
  pose proof (en_blk _ _ _ He (off / BSIZE) ltac:(lia)) as H1. pose proof (en_ind _ _ _ He) as H2.
  unfold iappend_block. destruct (Z.ltb_spec (off / BSIZE) NDIRECT); [lia|].
  rewrite (arr_get_iaddr 1 mksb V) by (done || lia). rewrite bind_Ok, <- (blk_ind V).
  destruct (Z.eqb_spec (blk V x IND) 0); [done|]. rewrite bind_Ok. cbv beta iota.
  rewrite (arr_get_iaddr 1 mksb V) by (done || lia). rewrite bind_Ok, <- (blk_ind V).
  assert (Hz : blk V x (off / BSIZE) = 0 → off mod BSIZE = 0 ∧ off / BSIZE ≠ NDIRECT) by offs.
  destruct (iappend_ind_ok s V x (off / BSIZE)) as (s' & V' & E & B); try done; try lia.
  { intros [Hm Hq]%Hz. pose proof Hroom as Hro. unfold need in Hro. rewrite Hm in Hro. cbn [Z.eqb] in Hro. case_match; lia. }
  cbv zeta in E. rewrite E. exists s', V', x. split; [done|]. destruct (Z.eqb_spec (blk V x (off / BSIZE)) 0) as [Ef|Ef].
  - destruct (Hz Ef). by apply reaches_adds.
  - destruct B as [-> ->]. apply reaches_same. offs.
Qed.

(** [iappend_block] gives the block of byte [off], and the file has the blocks of one
    byte more. *)
Lemma iappend_block_ok :
  ∃ s' V' x', iappend_block s x (off / BSIZE) = Ok (blk V' x' (off / BSIZE), x', s') ∧
    reaches s V x (need off) (off + 1) s' V' x'.
Proof using R Hf He Hoff Hroom.
  destruct (Z.lt_ge_cases (off / BSIZE) NDIRECT); [by apply iappend_direct_ok|].
  destruct (decide (blk V x IND = 0)); [by apply iappend_first_ok|by apply iappend_indirect_ok].
Qed.
End block.

(** The bytes [bs] are at the end of the file. *)
Record appended (s : mk) (V : Z → list Z) (x : inode) (off : Z) (bs : list Z) (s' : mk) (V' : Z → list Z) (x' : inode) : Prop := {
  ap_raw : raw s' V';
  ap_wrote : wrote V x off bs V' x';
  ap_ends : ends V' x' (off + zlen bs);
  ap_slack : slack V' x' (off + zlen bs);
  ap_next : freeblock s' = freeblock s + (nb (off + zlen bs) - nb off);
  ap_inode : freeinode s' = freeinode s;
}.

Lemma appended_nil s V x off :
  raw s V → file_ok V x → ends V x off → slack V x off → 0 ≤ off ≤ MAXFILE * BSIZE → appended s V x off [] s V x.
Proof.
  intros R Hf He Hs Hoff. constructor; change (zlen (@nil Z)) with 0; rewrite ?Z.add_0_r; try done; [|lia].
  apply (wrote_grown 1 mksb); [done|]. apply (grown_refl 1 mksb); [done|by eapply raw_reserved].
Qed.

Lemma appended_trans s V x off a s1 V1 x1 b s2 V2 x2 :
  appended s V x off a s1 V1 x1 → appended s1 V1 x1 (off + zlen a) b s2 V2 x2 → appended s V x off (a ++ b) s2 V2 x2.
Proof.
  intros [A1 A2 A3 A4 A5 A6] [B1 B2 B3 B4 B5 B6]. constructor; rewrite ?zlen_app, ?Z.add_assoc; try done.
  - by eapply (file_wrote_trans 1 30 2 mksb).
  - lia.
  - lia.
Qed.

Lemma nb_next off k : 0 ≤ off → 0 < k ≤ BSIZE - off mod BSIZE → nb (off + k) = nb off + need off.
Proof. intros H Hk. unfold nb, need. offs. Qed.

(** Storing the bytes in a block the file has. *)
Lemma appended_store s V x off a :
  raw s V → file_ok V x → ends V x (off + 1) → slack V x off → 0 ≤ off → off + zlen a ≤ MAXFILE * BSIZE →
  0 < zlen a ≤ BSIZE - off mod BSIZE →
  let b := blk V x (off / BSIZE) in
  let V' := <[b := splice (off mod BSIZE) a (V b)]> V in
  46 ≤ b < freeblock s ∧ b ≠ BM ∧ raw (wsect s b (splice (off mod BSIZE) a (V b))) V' ∧ wrote V x off a V' x ∧
  ends V' x (off + zlen a) ∧ slack V' x (off + zlen a).
Proof.
  intros R Hf He Hs H0 Hmax Ha b V'. pose proof IND_val as (EI & EN & EM & EB).
  assert (Hb : 0 ≤ off / BSIZE < IND) by (apply offset_block; lia).
  assert (Hn : b ≠ 0) by (apply (en_blk _ _ _ He); [lia|offs]).
  destruct (blk_nonzero s V x (off / BSIZE) R Hf ltac:(lia) Hn) as [Hr Hbm]. fold b in Hr, Hbm.
  pose proof (Z.mod_pos_bound off BSIZE ltac:(done)) as Hm. pose proof (rw_len _ _ R) as Hl.
  assert (W : wrote V x off a V' x) by (apply (wrote_store 1 30 2 mksb); [done|by eapply raw_reserved|done|done|done|done|done]).
  assert (Hblk : ∀ i, blk V' x i = blk V x i).
  { intros i. apply (blk_ext V V'). intros Hi. unfold V'. rewrite <- (blk_ind V) in *. apply fn_lookup_insert_ne. intros Hbi.
    enough (off / BSIZE = IND) by lia. apply (fo_inj _ _ _ _ Hf); (done || lia). }
  split; [done|]. split; [done|]. split; [apply raw_wsect; [done|lia|done|rewrite zlen_splice; rewrite ?Hl; lia]|]. split; [done|]. split.
  - destruct (ends_within V x off (zlen a) H0 Ha He) as [G1 G2]. constructor; [intros i Hi; rewrite Hblk; auto|by rewrite Hblk].
  - intros o Ho. rewrite Hblk. intros Hbo. rewrite (wo_bytes _ _ _ _ _ _ _ _ W) by (auto; lia).
    rewrite decide_False by lia. apply Hs; [lia|done].
Qed.

Lemma iappend_turn s V x off a :
  raw s V → file_ok V x → ends V x off → slack V x off → 0 ≤ off → off + zlen a ≤ MAXFILE * BSIZE →
  0 < zlen a ≤ BSIZE - off mod BSIZE → freeblock s + need off ≤ FSSIZE →
  ∃ b d s1 x1, iappend_block s x (off / BSIZE) = Ok (b, x1, s1) ∧ rsect s1 b = Ok d ∧
    ∃ V', appended s V x off a (wsect s1 b (splice (off mod BSIZE) a d)) V' x1.
Proof.
  intros R Hf He Hs H0 Hmax Ha Hroom. destruct mk_vals as (_ & _ & _ & E4 & _ & _).
  destruct (iappend_block_ok s V x off R Hf He ltac:(lia) Hroom) as (s1 & V1 & x1 & E & [C1 C2 C3 C4 C5]).
  pose proof (gr_file _ _ _ _ _ _ C2) as Hf1. pose proof (slack_grown _ _ _ _ _ H0 C2 Hs) as Hs1.
  destruct (appended_store s1 V1 x1 off a C1 Hf1 C5 Hs1 H0 Hmax Ha) as (Hr & Hb & R' & W & He' & Hs').
  pose proof (rw_range _ _ C1). eexists _, _, s1, x1. split; [done|]. split; [apply rsect_ok; [done|done|lia]|].
  eexists. constructor; [done| |done|done| |done].
  - change a with ([] ++ a). eapply (file_wrote_trans 1 30 2 mksb); [apply (wrote_grown 1 mksb); [lia|done]|].
    change (zlen (@nil Z)) with 0. by rewrite Z.add_0_r.
  - cbn. rewrite C3, nb_next by done. lia.
Qed.

Lemma iappend_loop_ok fuel : ∀ s V x off p,
  raw s V → file_ok V x → ends V x off → slack V x off → 0 ≤ off → off + zlen p ≤ MAXFILE * BSIZE →
  freeblock s + (nb (off + zlen p) - nb off) ≤ FSSIZE → (length p < fuel)%nat →
  ∃ s' V' x', iappend_loop fuel s x off p = Ok (x', off + zlen p, s') ∧ appended s V x off p s' V' x'.
Proof.
  induction fuel as [|fuel IH]; intros s V x off p R Hf He Hs H0 Hmax Hroom Hfuel; [lia|]. cbn [iappend_loop].
  pose proof IND_val as (EI & EN & EM & EB). pose proof (Z.mod_pos_bound off BSIZE ltac:(done)) as Hm.
  destruct (Z.ltb_spec 0 (zlen p)) as [Hp|Hp].
  2:{ destruct p; [|unfold zlen in Hp; cbn in Hp; lia]. exists s, V, x. change (zlen (@nil Z)) with 0 in *. rewrite Z.add_0_r in *. split; [done|]. by apply appended_nil; try lia. }
  pose proof (offset_block off ltac:(lia)) as Hb. destruct (Z.ltb_spec (off / BSIZE) MAXFILE); [|lia]. cbn [negb].
  replace ((off / BSIZE + 1) * BSIZE - off) with (BSIZE - off mod BSIZE) by offs.
  replace (off - off / BSIZE * BSIZE) with (off mod BSIZE) by offs.
  set (k := Z.min (zlen p) (BSIZE - off mod BSIZE)). assert (Hk0 : 0 < k ≤ zlen p ∧ k ≤ BSIZE - off mod BSIZE) by lia. set (a := take (Z.to_nat k) p). set (q := drop (Z.to_nat k) p).
  assert (Epq : p = a ++ q) by (symmetry; apply take_drop).
  assert (Hk : zlen a = k) by (clearbody k; unfold a, zlen in *; rewrite length_take; lia).
  assert (Hq : zlen p = k + zlen q) by (rewrite <- Hk, Epq at 1; apply zlen_app).
  pose proof (zlen_nonneg q). pose proof (nb_next off k H0 ltac:(lia)) as Hn.
  pose proof (nb_mono (off + k) (off + zlen p) ltac:(lia)).
  destruct (iappend_turn s V x off a) as (b & d & s1 & x1 & E1 & Ed & V1 & A); try done; try lia.
  call E1. call Ed. rewrite u32_small by (rewrite EM, EB in *; lia).
  pose proof (wo_file _ _ _ _ _ _ _ _ (ap_wrote _ _ _ _ _ _ _ _ A)) as Hf1.
  pose proof (ap_next _ _ _ _ _ _ _ _ A) as En. rewrite Hk in En.
  pose proof A as [A1 _ A3 A4 _ _]. rewrite Hk in A3, A4.
  destruct (IH (wsect s1 b (splice (off mod BSIZE) a d)) V1 x1 (off + k) q) as (s' & V' & x' & E & B); try done; try lia.
  { rewrite En. replace (off + k + zlen q) with (off + zlen p) by lia. lia. } { unfold zlen in *. lia. }
  exists s', V', x'. rewrite E. split; [do 3 f_equal; lia|]. rewrite Epq. eapply appended_trans; [done|]. by rewrite Hk.
Qed.
