(* ===== verification/MkfsThm.v ===== *)
(** * What [mkfs/mkfs.c] leaves on the image.

    Abstractly the program keeps a list of files, each a type and its bytes: [ialloc]
    adds an empty one and [iappend] adds bytes to one. [img s V F] relates that list to
    the image, in the terms of the kernel's file system: every inode is [file_ok], two
    files share no block, and the blocks in use are the metadata and the files'. *)

From Stdlib Require Import ZifyBool.
From S2P Require Import Prelude Bits Block Bio BioProof Log LogProof LogOps Fs FsBlock FsInode FsDinode FsFile FsThm FsDir Grep Mkfs MkfsInv.

Local Notation used := (used mksb).
Local Notation is_data := (is_data mksb).
Local Notation file_ok := (file_ok 1 mksb).
Local Notation written := (written 1 mksb).

(** ** Files of the image *)

(** Inode [i] as it is on the image. *)
Definition inode_at (V : Z → list Z) (i : Z) : inode := load_dinode (V (IBLOCK i mksb)) (dinode_of i 0 0).

Notation file_spec := (Z * list Z)%type.
Definition blocks (F : list file_spec) : Z := foldr (λ f n, nb (zlen f.2) + n) 0 F.

Record file_at (V : Z → list Z) (x : inode) (f : file_spec) : Prop := {
  fa_file : file_ok V x;
  fa_fits : inode_fits x;
  fa_type : itype x = f.1;
  fa_link : inlink x = 1;
  fa_size : isize x = zlen f.2;
  fa_data : fbytes V x 0 (zlen f.2) = f.2;
  fa_ends : ends V x (zlen f.2);
  fa_slack : slack V x (zlen f.2);
}.

(** The superblock. *)
Definition sb_block : list Z := splice 0 (sb_bytes mksb) zeroblock.

Record img (s : mk) (V : Z → list Z) (F : list file_spec) : Prop := {
  ig_raw : raw s V;
  ig_next : freeinode s = 1 + zlen F;
  ig_room : zlen F < NINODES;
  ig_blocks : freeblock s = nmeta + blocks F;
  ig_file : ∀ j f, F !! j = Some f → file_at V (inode_at V (1 + Z.of_nat j)) f;
  ig_disj : ∀ i j, i ≠ j → (i < length F)%nat → (j < length F)%nat →
    disjoint_files V (inode_at V (1 + Z.of_nat i)) (inode_at V (1 + Z.of_nat j));
  ig_free : ∀ i, 1 + zlen F ≤ i < NINODES → itype (inode_at V i) = 0;
  ig_super : V 1 = sb_block;
  ig_log : ∀ k, 2 ≤ k < 32 → V k = zeroblock;
}.

Lemma blocks_insert F j f g :
  F !! j = Some f → blocks (<[j := g]> F) = blocks F - nb (zlen f.2) + nb (zlen g.2).
Proof.
  revert j. induction F as [|h F IH]; intros [|j] E; try done.
  - injection E as ->. cbn. lia.
  - pose proof (IH j E) as H. change (<[S j := g]> (h :: F)) with (h :: <[j := g]> F). unfold blocks in *. cbn [foldr]. lia.
Qed.

Lemma blocks_app F G : blocks (F ++ G) = blocks F + blocks G.
Proof. unfold blocks. induction F as [|f F IH]; cbn; [done|]. rewrite IH. lia. Qed.

Lemma blocks_cons f F : blocks (f :: F) = nb (zlen f.2) + blocks F.
Proof. done. Qed.

Lemma nb_nonneg {A} (l : list A) : 0 ≤ nb (zlen l).
Proof. assert (0 ≤ zlen l) by (unfold zlen; lia). pose proof (nb_mono 0 (zlen l) ltac:(lia)) as H0. change (nb 0) with 0 in H0. lia. Qed.

Lemma blocks_nonneg F : 0 ≤ blocks F.
Proof. induction F as [|f F IH]; [done|]. rewrite blocks_cons. pose proof (nb_nonneg f.2). lia. Qed.

(** Only the identity of the inode matters when it is read from the disk. *)
Lemma load_dinode_key d x y :
  idev x = idev y → inum x = inum y → iref x = iref y → ilocked x = ilocked y → load_dinode d x = load_dinode d y.
Proof. unfold load_dinode. by intros -> -> -> ->. Qed.

(** The parts of an inode that are not on disk. *)
Definition fresh (x : inode) (i : Z) : Prop := idev x = 1 ∧ inum x = i ∧ iref x = 1 ∧ ilocked x = true ∧ ivalid x = true.

Lemma fresh_inode_at V i : fresh (inode_at V i) i.
Proof. done. Qed.

Lemma written_inode_at V x off bs V' x' i :
  written V x off bs V' x' → (∀ k, zlen (V k) = BSIZE) → fresh x i → inode_fits x' → inode_at V' i = x'.
Proof.
  intros W Hl (F1 & F2 & F3 & F4 & F5) Hfit. pose proof (wn_meta _ _ _ _ _ _ _ _ W) as Em.
  assert (fresh x' i) as (G1 & G2 & G3 & G4 & G5) by (rewrite Em; done).
  unfold inode_at. rewrite <- F2, (wn_disk _ _ _ _ _ _ _ _ W), F2.
  rewrite (load_dinode_key _ _ x') by done. rewrite load_put_dinode by done. destruct x'; cbn in *; by subst.
Qed.

Lemma written_inode_at_ne V x off bs V' x' i j :
  written V x off bs V' x' → (∀ k, zlen (V k) = BSIZE) → inum x = i → 0 ≤ i < NINODES → 0 ≤ j < NINODES → j ≠ i →
  inode_at V' j = inode_at V j.
Proof.
  intros W Hl Hx Hi Hj Hne. unfold inode_at.
  apply (written_inodes 1 30 2 mksb V x off bs V' x' (dinode_of j 0 0)); [done|done|by rewrite Hx|done|by rewrite Hx].
Qed.

(** The block numbers of a file fit their fields. *)
Lemma file_addrs V x : file_ok V x → Forall (λ a, 0 ≤ a < 2 ^ 32) (iaddrs x).
Proof.
  intros Hf. pose proof IND_val as (EI & EN & EM & EB). destruct mk_vals as (_ & _ & _ & _ & E5 & _).
  apply Forall_lookup. intros i a Ha. pose proof (lookup_lt_Some _ _ _ Ha) as Hi. pose proof (fo_len _ _ _ _ Hf) as Hl.
  assert (Hia : iaddr x (Z.of_nat i) = a) by (unfold iaddr; by rewrite Nat2Z.id, Ha).
  destruct (decide (a = 0)) as [->|Hn]; [lia|]. assert (He : ∃ k, 0 ≤ k ≤ IND ∧ blk V x k = a).
  { destruct (decide (Z.of_nat i = NDIRECT)) as [E|E].
    - exists IND. split; [lia|]. by rewrite blk_ind, <- E.
    - exists (Z.of_nat i). unfold zlen in Hl. split; [lia|]. rewrite blk_direct by lia. done. }
  destruct He as (k & Hk & Eb). destruct (fo_data _ _ _ _ Hf k Hk) as [Hd _]; [congruence|].
  apply (data_range 1 30 2 mksb) in Hd. lia.
Qed.

Lemma file_at_other V x off bs V' x' y f :
  file_ok V x → written V x off bs V' x' → 0 ≤ inum x < NINODES → disjoint_files V x y → file_at V y f → file_at V' y f.
Proof.
  intros Hf W Hi Hd [A1 A2 A3 A4 A5 A6 A7 A8]. pose proof IND_val as (EI & EN & EM & EB).
  pose proof (written_other 1 30 2 mksb V x off bs V' x' y Hf W A1 Hd Hi) as Hsame.
  destruct (written_isolated 1 30 2 mksb V x off bs V' x' y Hf W A1 Hd Hi) as (B1 & _ & B3).
  constructor; try done.
  - etrans; [|exact A6]. apply list_fmap_ext. intros k j Hj. apply lookup_seq in Hj as [-> Hj]. apply B3. lia.
  - destruct A7 as [E1 E2]. constructor.
    + intros k Hk. destruct (Hsame k ltac:(lia)) as [-> _]. auto.
    + destruct (Hsame IND ltac:(lia)) as [-> _]. auto.
  - intros o Ho. pose proof (offset_block o ltac:(unfold zlen in *; lia)). destruct (Hsame (o / BSIZE) ltac:(lia)) as [Eb Ev].
    rewrite Eb. intros Hn. unfold fbyte. rewrite Eb, Ev by done. apply A8; done.
Qed.

Lemma disjoint_sym V x y : disjoint_files V x y → disjoint_files V y x.
Proof. intros H i j Hi Hj Hn E. apply (H j i); [done|done|congruence|done]. Qed.

Lemma iblock_low i : 0 ≤ i < NINODES → 32 ≤ IBLOCK i mksb < 45.
Proof. intros Hi. apply (iblock_range 1 30 2 mksb) in Hi as [H1 H2]. split; [exact H1|exact H2]. Qed.

(** A step that writes inode [i] of the image: its file is [f] afterwards, and the
    others are as they were. *)
Section step.
Context (s : mk) (V : Z → list Z) (F : list file_spec) (j : nat) (x : inode) (off : Z) (bs : list Z)
  (s' : mk) (V' : Z → list Z) (x' : inode) (G : list file_spec) (f : file_spec).
Hypothesis (I : img s V F) (Hf : file_ok V x) (Hx : fresh x (1 + Z.of_nat j)) (W : written V x off bs V' x') (Hfit : inode_fits x').
Hypothesis (Hdj : ∀ k, k ≠ j → (k < length F)%nat → disjoint_files V x (inode_at V (1 + Z.of_nat k))).
Hypothesis (Hlen : (length F ≤ length G)%nat) (HG : G !! j = Some f) (Hother : ∀ k, k ≠ j → G !! k = F !! k).
Hypothesis (Hroom : zlen G < NINODES).

Lemma step_range : 0 ≤ 1 + Z.of_nat j < NINODES.
Proof using HG Hroom. clear -HG Hroom. pose proof (lookup_lt_Some _ _ _ HG). unfold zlen in *. lia. Qed.

Lemma step_same k : k ≠ 1 + Z.of_nat j → 0 ≤ k < NINODES → inode_at V' k = inode_at V k.
Proof using I Hx W HG Hroom.
  intros Hk Hr. eapply written_inode_at_ne; [done|apply I|apply Hx|apply step_range|done|done].
Qed.

Lemma step_file k : k ≠ j → (k < length G)%nat → (k < length F)%nat ∧ 0 ≤ 1 + Z.of_nat k < NINODES.
Proof using Hother Hroom.
  intros Hk Hl. split; [|clear -Hl Hroom; unfold zlen in *; lia]. apply lookup_lt_is_Some_1. rewrite <- Hother by done. by apply lookup_lt_is_Some_2.
Qed.

Lemma img_step :
  raw s' V' → file_at V' x' f → freeinode s' = 1 + zlen G → freeblock s' = nmeta + blocks G → img s' V' G.
Proof using I Hf Hx W Hfit Hdj Hlen HG Hother Hroom.
  intros R' Ha Hn Hb. pose proof step_range as Hi. pose proof (lookup_lt_Some _ _ _ HG) as Hjl.
  pose proof Hx as (_ & Hxi & _). assert (Hix : 0 ≤ inum x < NINODES) by (by rewrite Hxi).
  assert (Ej : inode_at V' (1 + Z.of_nat j) = x') by (eapply written_inode_at; [done|apply I|done|done]).
  assert (Hs : ∀ k, k ≠ j → (k < length G)%nat → inode_at V' (1 + Z.of_nat k) = inode_at V (1 + Z.of_nat k)).
  { intros k Hk Hl. destruct (step_file k Hk Hl). apply step_same; [lia|done]. }
  assert (Hy : ∀ k, k ≠ j → (k < length G)%nat → ∃ g, F !! k = Some g ∧ file_at V (inode_at V (1 + Z.of_nat k)) g).
  { intros k Hk Hl. destruct (step_file k Hk Hl) as [Hl' _]. destruct (lookup_lt_is_Some_2 F k Hl') as [g Eg].
    exists g. split; [done|]. by apply (ig_file _ _ _ I). }
  assert (Hiso : ∀ k, k ≠ j → (k < length G)%nat → disjoint_files V' x' (inode_at V (1 + Z.of_nat k))).
  { intros k Hk Hl. destruct (Hy k Hk Hl) as (g & _ & Hg). destruct (step_file k Hk Hl).
    by apply (written_isolated 1 30 2 mksb V x off bs V' x'); [done|done|apply Hg|apply Hdj|]. }
  assert (Hlow : ∀ k, 0 ≤ k < 32 → V' k = V k).
  { intros k Hk. destruct mk_vals as (E1 & E2 & _). pose proof (iblock_low _ Hi). apply (wn_frame _ _ _ _ _ _ _ _ W).
    - intros [? ?]. lia.
    - rewrite Hxi. lia.
    - intros [? ?]. lia. }
  constructor; try done.
  - intros k g Hk. destruct (decide (k = j)) as [->|Hne]; [rewrite Ej; congruence|].
    pose proof (lookup_lt_Some _ _ _ Hk) as Hl. rewrite Hs by done. rewrite Hother in Hk by done. destruct (step_file k Hne Hl).
    eapply file_at_other; [done|done|done|by apply Hdj|by apply (ig_file _ _ _ I)].
  - intros a b Hab Ha' Hb'. destruct (decide (a = j)) as [->|Haj]; [|destruct (decide (b = j)) as [->|Hbj]].
    + rewrite Ej, Hs by done. auto.
    + rewrite Ej, Hs by done. apply disjoint_sym. auto.
    + rewrite !Hs by done. destruct (step_file a Haj Ha'), (step_file b Hbj Hb').
      destruct (Hy a Haj Ha') as (g & _ & Hg), (Hy b Hbj Hb') as (h & _ & Hh).
      pose proof (written_other 1 30 2 mksb V x off bs V' x' _ Hf W (fa_file _ _ _ Hg) (Hdj a Haj ltac:(done)) Hix) as Sa.
      pose proof (written_other 1 30 2 mksb V x off bs V' x' _ Hf W (fa_file _ _ _ Hh) (Hdj b Hbj ltac:(done)) Hix) as Sb.
      intros p q Hp Hq. destruct (Sa p Hp) as [-> _], (Sb q Hq) as [-> _]. by apply (ig_disj _ _ _ I).
  - intros k Hk. rewrite step_same by (unfold zlen in *; lia). apply (ig_free _ _ _ I). unfold zlen in *. lia.
  - rewrite Hlow by lia. apply I.
  - intros k Hk. rewrite Hlow by lia. by apply (ig_log _ _ _ I).
Qed.
End step.

(** ** Operations on the image *)

Lemma winode_ok s V x :
  raw s V → 0 ≤ inum x < NINODES → zlen (iaddrs x) = NDIRECT + 1 →
  let k := IBLOCK (inum x) mksb in
  ∃ s', winode s x = Ok s' ∧ raw s' (<[k := put_dinode (V k) x]> V) ∧ freeinode s' = freeinode s ∧ freeblock s' = freeblock s.
Proof.
  intros R Hi Hl k. pose proof (iblock_low _ Hi) as Hk. fold k in Hk. destruct mk_vals as (E1 & _ & E3 & E4 & _).
  pose proof (rw_range _ _ R). unfold winode. fold k. rewrite (rsect_ok s V) by (done || lia). rewrite bind_Ok.
  eexists. split; [done|]. split; [|done]. apply raw_wsect; [done|lia|lia|]. by apply zlen_put_dinode; [apply R|].
Qed.

Lemma rinode_ok s V i : raw s V → 0 ≤ i < NINODES → rinode s i = Ok (inode_at V i).
Proof.
  intros R Hi. pose proof (iblock_low _ Hi). destruct mk_vals as (E1 & _ & _ & E4 & _).
  unfold rinode. rewrite (rsect_ok s V) by (done || lia). done.
Qed.

Lemma img_index s V F j f : img s V F → F !! j = Some f → 0 ≤ 1 + Z.of_nat j < NINODES.
Proof. intros I E. pose proof (ig_room _ _ _ I). pose proof (lookup_lt_Some _ _ _ E). unfold zlen in *. lia. Qed.

(** The contents after more bytes were written at the end. *)
Lemma written_contents V x c p V' x' :
  written V x (zlen c) p V' x' → isize x = zlen c → fbytes V x 0 (zlen c) = c → fbytes V' x' 0 (zlen (c ++ p)) = c ++ p.
Proof.
  intros W Hs Hc. pose proof (zlen_nonneg c). pose proof (zlen_nonneg p). rewrite zlen_app, fbytes_app by lia. f_equal.
  - etrans; [|exact Hc]. apply list_fmap_ext. intros k o Ho. apply lookup_seq in Ho as [-> Ho].
    rewrite (wn_bytes _ _ _ _ _ _ _ _ W) by (rewrite (wn_size _ _ _ _ _ _ _ _ W); lia). by rewrite decide_False by lia.
  - rewrite Z.add_0_l. by eapply (written_fbytes 1 mksb V x).
Qed.

(** The blocks of a file are not those of the inodes. *)
Lemma blk_inode_write V x k d :
  file_ok V x → 32 ≤ k < 45 →
  (∀ i, blk (<[k := d]> V) x i = blk V x i) ∧
  ∀ o, 0 ≤ o < MAXFILE * BSIZE → blk V x (o / BSIZE) ≠ 0 → fbyte (<[k := d]> V) x o = fbyte V x o.
Proof.
  intros Hf Hk. pose proof IND_val as (EI & _). destruct mk_vals as (_ & E2 & _).
  assert (Hd : ∀ i, 0 ≤ i ≤ IND → blk V x i ≠ 0 → k ≠ blk V x i).
  { intros i Hi Hn. destruct (fo_data _ _ _ _ Hf i Hi Hn) as [[Hd _] _]. lia. }
  assert (Hb : ∀ i, blk (<[k := d]> V) x i = blk V x i).
  { intros i. apply (blk_ext V). intros Hn. rewrite <- (blk_ind V) in *. apply fn_lookup_insert_ne. apply Hd; [lia|done]. }
  split; [done|]. intros o Ho Hn. pose proof (offset_block o Ho). unfold fbyte. rewrite Hb, fn_lookup_insert_ne; [done|]. apply Hd; [lia|done].
Qed.

(** The inode of a file that grew is written back. *)
Lemma img_append s V F j t c p s1 V1 x1 :
  img s V F → F !! j = Some (t, c) → appended s V (inode_at V (1 + Z.of_nat j)) (zlen c) p s1 V1 x1 →
  ∃ s' V', winode s1 (set_isize x1 (zlen c + zlen p)) = Ok s' ∧ img s' V' (<[j := (t, c ++ p)]> F).
Proof.
  intros I Ej [A1 A2 A3 A4 A5 A6]. pose proof (img_index _ _ _ _ _ I Ej) as Hi. set (i := 1 + Z.of_nat j) in *.
  pose proof (ig_file _ _ _ I _ _ Ej) as Ha. fold i in Ha. set (x := inode_at V i) in *. assert (Hsz : isize x = zlen c) by exact (fa_size _ _ _ Ha).
  pose proof (zlen_nonneg c). pose proof (zlen_nonneg p). pose proof (wo_range _ _ _ _ _ _ _ _ A2) as [_ Hmax].
  pose proof (wo_meta _ _ _ _ _ _ _ _ A2) as Em. pose proof (wo_file _ _ _ _ _ _ _ _ A2) as Hf1.
  pose proof (written_intro 1 30 2 mksb V x (zlen c) p V1 x1 A2 ltac:(lia) (fa_file _ _ _ Ha) Hi) as W. cbv zeta in W.
  replace (isize x `max` (zlen c + zlen p)) with (zlen c + zlen p) in W by lia.
  set (x' := set_isize x1 (zlen c + zlen p)) in *. assert (Ei : inum x' = i) by (unfold x'; rewrite Em; done).
  destruct (winode_ok s1 V1 x' A1) as (s' & Ew & R' & Fi & Fb); [by rewrite Ei|apply Hf1|]. rewrite Ei in R'. change (inum x) with i in W.
  destruct (blk_inode_write V1 x1 (IBLOCK i mksb) (put_dinode (V1 (IBLOCK i mksb)) x') Hf1 (iblock_low _ Hi)) as [Hb Hy].
  set (V' := <[IBLOCK i mksb := put_dinode (V1 (IBLOCK i mksb)) x']> V1) in *.
  pose proof (fa_fits _ _ _ Ha) as [I1 I2 I3 I4 I5 I6 I7]. pose proof (wn_file _ _ _ _ _ _ _ _ W) as Hf'.
  assert (Hfit : inode_fits x').
  { pose proof IND_val as (_ & _ & EM & EB). rewrite EM, EB in Hmax.
    constructor; [..|cbn; lia|by apply (file_addrs V')|apply Hf']; unfold x'; rewrite Em; done. }
  exists s', V'. split; [done|].
  eapply (img_step s V F j x (zlen c) p s' V' x' _ (t, c ++ p)); try done; [apply Ha|..].
  - intros k Hk Hl. by apply (ig_disj _ _ _ I); [auto|eapply lookup_lt_Some|].
  - by rewrite length_insert.
  - apply list_lookup_insert_eq. by eapply lookup_lt_Some.
  - intros k Hk. by apply list_lookup_insert_ne.
  - rewrite zlen_insert. apply I.
  - constructor; cbn [fst snd]; [done|done|..].
    + unfold x'. rewrite Em. exact (fa_type _ _ _ Ha).
    + unfold x'. rewrite Em. exact (fa_link _ _ _ Ha).
    + by rewrite zlen_app.
    + eapply written_contents; [done|done|exact (fa_data _ _ _ Ha)].
    + rewrite zlen_app. destruct A3 as [G1 G2]. constructor; [intros k Hk|]; change (blk V' x') with (blk V' x1); rewrite Hb; auto.
    + rewrite zlen_app. intros o Ho. change (blk V' x') with (blk V' x1). change (fbyte V' x') with (fbyte V' x1). rewrite Hb. intros Hn.
      rewrite Hy by (done || lia). by apply A4.
  - rewrite zlen_insert, Fi, A6. apply I.
  - rewrite (blocks_insert F j (t, c)) by done. cbn. rewrite zlen_app, Fb, A5, (ig_blocks _ _ _ I). lia.
Qed.

Lemma iappend_ok s V F j t c p :
  img s V F → F !! j = Some (t, c) → zlen c + zlen p ≤ MAXFILE * BSIZE →
  freeblock s + (nb (zlen c + zlen p) - nb (zlen c)) ≤ FSSIZE →
  ∃ s' V', iappend s (1 + Z.of_nat j) p = Ok s' ∧ img s' V' (<[j := (t, c ++ p)]> F).
Proof.
  intros I Ej Hmax Hroom. pose proof (img_index _ _ _ _ _ I Ej) as Hi. pose proof (ig_file _ _ _ I _ _ Ej) as Ha.
  pose proof (zlen_nonneg c). unfold iappend. rewrite (rinode_ok s V) by (done || apply I). rewrite bind_Ok, (fa_size _ _ _ Ha). cbn [snd].
  destruct (iappend_loop_ok (S (length p)) s V (inode_at V (1 + Z.of_nat j)) (zlen c) p) as (s1 & V1 & x1 & E & A);
    try done; try apply I; try apply Ha; try lia.
  call E. by eapply img_append.
Qed.

(** An inode without blocks. *)
Lemma dinode_of_blk V i t l k : blk V (dinode_of i t l) k = 0.
Proof.
  assert (Ha : ∀ a, iaddr (dinode_of i t l) a = 0).
  { intros a. unfold iaddr. change (iaddrs _) with (replicate 13 0). destruct (replicate 13 0 !! _) as [v|] eqn:E; [|done].
    by apply lookup_replicate in E as [-> _]. }
  unfold blk. rewrite !Ha. by repeat case_match.
Qed.

Lemma dinode_of_file V i t l : file_ok V (dinode_of i t l).
Proof.
  constructor; [done|done|vm_compute; split; discriminate|..].
  - intros k Hk. by rewrite dinode_of_blk.
  - intros k m Hk Hm. by rewrite dinode_of_blk.
  - intros k Hk Hs. change (isize _) with 0 in Hs. change BSIZE with 1024 in Hs. lia.
Qed.

Lemma mk_ialloc_ok s V F t :
  img s V F → zlen F + 1 < NINODES → 0 ≤ t < 2 ^ 15 →
  ∃ s' V', mk_ialloc s t = Ok (1 + zlen F, s') ∧ img s' V' (F ++ [(t, [])]).
Proof.
  intros I Hn Ht. pose proof (zlen_nonneg F). destruct mk_vals as (_ & _ & _ & _ & _ & E6). pose proof (ig_raw _ _ _ I) as R.
  set (i := 1 + zlen F). set (x := dinode_of i t 1). assert (Hi : 0 ≤ i < NINODES) by lia.
  set (s0 := mk_mk (im s) (nsect s) (i + 1) (freeblock s)).
  assert (R0 : raw s0 V) by (destruct R; by constructor).
  destruct (winode_ok s0 V x R0 Hi eq_refl) as (s' & Ew & R' & Fi & Fb). change (inum x) with i in R'.
  assert (W0 : wrote 1 mksb V x 0 [] V x).
  { apply (wrote_grown 1 mksb); [vm_compute; split; discriminate|]. apply (grown_refl 1 mksb); [apply dinode_of_file|by eapply raw_reserved]. }
  pose proof (written_intro 1 30 2 mksb V x 0 [] V x W0 ltac:(done) (dinode_of_file V i t 1) Hi) as W. cbv zeta in W.
  change (inum x) with i in W. change (set_isize x (isize x `max` (0 + zlen []))) with x in W.
  set (V' := <[IBLOCK i mksb := put_dinode (V (IBLOCK i mksb)) x]> V) in *. exists s', V'. split.
  { unfold mk_ialloc. rewrite (ig_next _ _ _ I). fold i. rewrite u32_small by lia. fold s0. fold x. by rewrite Ew. }
  assert (Hfit : inode_fits x).
  { constructor; cbn; try lia; [|done]. repeat constructor; lia. }
  assert (Ej : 1 + Z.of_nat (length F) = i) by done.
  eapply (img_step s V F (length F) x 0 [] s' V' x _ (t, [])); try done.
  - apply dinode_of_file.
  - intros k Hk Hl a b Ha Hb. unfold x. by rewrite dinode_of_blk.
  - rewrite length_app. cbn. lia.
  - by apply list_lookup_middle.
  - intros k Hk. destruct (decide (k < length F)%nat); [by apply lookup_app_l|].
    rewrite !lookup_ge_None_2; [done|lia|rewrite length_app; cbn; lia].
  - rewrite zlen_app. change (zlen [(t, @nil Z)]) with 1. lia.
  - constructor; try done; [apply dinode_of_file|..].
    + constructor; [intros k Hk|]; unfold x; rewrite dinode_of_blk; change (zlen (t, @nil Z).2) with 0.
      * change BSIZE with 1024. lia.
      * done.
    + intros o Ho. unfold x. by rewrite dinode_of_blk.
  - rewrite Fi, zlen_app. change (zlen [(t, @nil Z)]) with 1. cbn. lia.
  - rewrite Fb, blocks_app. cbn -[Z.add]. rewrite (ig_blocks _ _ _ I). change (nb (zlen [])) with 0. lia.
Qed.

Lemma list_insert_same {A} (l : list A) i x : l !! i = Some x → <[i := x]> l = l.
Proof. intros E. apply list_eq. intros k. destruct (decide (i = k)) as [<-|Hn]; [rewrite list_lookup_insert_eq; [done|by eapply lookup_lt_Some]|by rewrite list_lookup_insert_ne]. Qed.

Section copy.
Context (read : list Z → Z → Z) {RD : Reads read}.

Lemma copy_file_ok fuel : ∀ s V F j t c rest,
  img s V F → F !! j = Some (t, c) → zlen c + zlen rest ≤ MAXFILE * BSIZE →
  freeblock s + (nb (zlen c + zlen rest) - nb (zlen c)) ≤ FSSIZE → (length rest < fuel)%nat →
  ∃ s' V', copy_file fuel read s (1 + Z.of_nat j) rest = Ok s' ∧ img s' V' (<[j := (t, c ++ rest)]> F).
Proof using RD.
  induction fuel as [|fuel IH]; intros s V F j t c rest I Ej Hmax Hroom Hfuel; [lia|]. cbn [copy_file].
  destruct rest as [|z l] eqn:Er.
  { rewrite read_none by auto. cbn. exists s, V. split; [done|]. by rewrite app_nil_r, list_insert_same. }
  rewrite <- Er in *. pose proof (read_some rest BSIZE ltac:(done) ltac:(by rewrite Er)) as Hcc. set (cc := read rest BSIZE) in *.
  destruct (Z.ltb_spec 0 cc); [|lia]. set (a := take (Z.to_nat cc) rest). set (q := drop (Z.to_nat cc) rest).
  assert (Epq : rest = a ++ q) by (symmetry; apply take_drop). pose proof (zlen_nonneg c).
  assert (Hk : zlen a = cc) by (clearbody cc; clear -Hcc; unfold a, zlen in *; rewrite length_take; lia).
  assert (Hq : zlen rest = cc + zlen q) by (rewrite <- Hk, Epq at 1; apply zlen_app). pose proof (zlen_nonneg q).
  pose proof (nb_mono (zlen c + cc) (zlen c + zlen rest) ltac:(lia)).
  destruct (iappend_ok s V F j t c a I Ej) as (s1 & V1 & E1 & I1); [lia|rewrite Hk; lia|]. call E1.
  destruct (IH s1 V1 (<[j := (t, c ++ a)]> F) j t (c ++ a) q) as (s' & V' & E & I'); [done|..].
  - apply list_lookup_insert_eq. by eapply lookup_lt_Some.
  - rewrite zlen_app. lia.
  - rewrite (ig_blocks _ _ _ I1), (blocks_insert F j (t, c)) by done. cbn [snd]. rewrite !zlen_app, Hk.
    rewrite (ig_blocks _ _ _ I) in Hroom. replace (zlen c + cc + zlen q) with (zlen c + zlen rest) by lia. lia.
  - unfold zlen in *. lia.
  - exists s', V'. split; [done|]. rewrite list_insert_insert_eq, <- app_assoc, <- Epq in I'. done.
Qed.

(** The entries of files [names], whose inodes are [i], [i + 1], ... *)
Fixpoint numbered (i : Z) (names : list (list Z)) : list (Z * list Z) :=
  match names with [] => [] | n :: names' => (i, n) :: numbered (i + 1) names' end.

Definition listing (i : Z) (names : list (list Z)) : list Z := concat (uncurry entry <$> numbered i names).

Lemma listing_cons i n names : listing i (n :: names) = entry i n ++ listing (i + 1) names.
Proof. done. Qed.

Lemma zlen_entry i n : zlen (entry i n) = DIRENT.
Proof. unfold entry, zlen. rewrite length_app, length_to_le, length_take, length_app, length_replicate. change DIRENT with 16. change DIRSIZ with 14. lia. Qed.

Lemma zlen_listing i names : zlen (listing i names) = DIRENT * zlen names.
Proof.
  revert i. induction names as [|n names IH]; intros i; [done|].
  rewrite listing_cons, zlen_app, zlen_entry, IH. unfold zlen. cbn [length]. change DIRENT with 16. lia.
Qed.

(** The files as [mkfs] makes them. *)
Definition specs (files : list (list Z * list Z)) : list file_spec := (λ f, (T_FILE, f.2)) <$> files.

Lemma add_files_ok files : ∀ s V r G names,
  img s V ((T_DIR, r) :: G) → Forall2 (λ f n, shortname f.1 = Ok n) files names →
  Forall (λ f, zlen f.2 ≤ MAXFILE * BSIZE) files → zlen G + zlen files + 1 < NINODES →
  zlen r + DIRENT * zlen files ≤ MAXFILE * BSIZE →
  freeblock s + (nb (zlen r + DIRENT * zlen files) - nb (zlen r)) + blocks (specs files) ≤ FSSIZE →
  ∃ s' V', add_files read s files = Ok s' ∧ img s' V' ((T_DIR, r ++ listing (2 + zlen G) names) :: G ++ specs files).
Proof using RD.
  induction files as [|[path data] files IH]; intros s V r G names I Hn Hs Hino Hdir Hroom.
  { apply Forall2_nil_inv_l in Hn as ->. exists s, V. cbn. by rewrite !app_nil_r. }
  apply Forall2_cons_inv_l in Hn as (n & names' & En & Hn & ->). apply Forall_cons_1 in Hs as [Hd Hs]. cbn [fst snd] in *.
  assert (Ef : zlen ((path, data) :: files) = 1 + zlen files) by (unfold zlen; cbn [length]; lia). rewrite Ef in *.
  change (specs ((path, data) :: files)) with ((T_FILE, data) :: specs files) in *. change (blocks ((T_FILE, data) :: specs files)) with (nb (zlen data) + blocks (specs files)) in Hroom.
  assert (EG : zlen ((T_DIR, r) :: G) = 1 + zlen G) by (unfold zlen; cbn [length]; lia).
  assert (ED : DIRENT = 16) by done. pose proof (zlen_nonneg files). pose proof (zlen_nonneg G). pose proof (zlen_nonneg r). pose proof (zlen_nonneg data).
  pose proof (nb_mono (zlen r + DIRENT) (zlen r + DIRENT * (1 + zlen files)) ltac:(lia)) as Hm.
  pose proof (nb_nonneg data). pose proof (blocks_nonneg (specs files)). cbn [add_files]. call En.
  destruct (mk_ialloc_ok s V _ T_FILE I) as (s1 & V1 & E1 & I1); [lia|done|]. call E1. rewrite EG.
  pose proof (ig_blocks _ _ _ I) as B0. rewrite blocks_cons in B0. cbn [snd] in B0. set (i := 1 + (1 + zlen G)).
  destruct (iappend_ok s1 V1 _ 0 T_DIR r (entry i n) I1 eq_refl) as (s2 & V2 & E2 & I2); rewrite ?zlen_entry; [lia| |].
  { rewrite (ig_blocks _ _ _ I1), blocks_app, !blocks_cons. cbn [snd]. change (nb (zlen [])) with 0. change (blocks []) with 0. lia. }
  change (1 + Z.of_nat 0) with ROOTINO in E2. call E2.
  change (<[0%nat := ?x]> (((T_DIR, r) :: G) ++ ?l)) with (x :: G ++ l) in I2.
  destruct (copy_file_ok (S (length data)) s2 V2 _ (S (length G)) T_FILE [] data I2) as (s3 & V3 & E3 & I3).
  { cbn. by apply list_lookup_middle. } { done. }
  { rewrite (ig_blocks _ _ _ I2), blocks_cons, blocks_app, blocks_cons. cbn [snd]. rewrite zlen_app, zlen_entry.
    change (zlen []) with 0. change (nb 0) with 0. change (blocks []) with 0. rewrite !Z.add_0_l. lia. } { lia. }
  replace (1 + Z.of_nat (S (length G))) with i in E3 by (unfold i, zlen; lia). call E3.
  change (<[S (length G) := ?x]> (?y :: ?l)) with (y :: <[length G := x]> l) in I3.
  rewrite insert_app_r_alt, Nat.sub_diag in I3 by lia. change (<[0%nat := ?x]> [?y]) with [x] in I3. rewrite app_nil_l in I3.
  destruct (IH s3 V3 (r ++ entry i n) (G ++ [(T_FILE, data)]) names') as (s' & V' & E & I'); try done.
  - rewrite zlen_app. change (zlen [(T_FILE, data)]) with 1. lia.
  - rewrite zlen_app, zlen_entry. lia.
  - rewrite (ig_blocks _ _ _ I3), blocks_cons, blocks_app, blocks_cons. cbn [snd]. rewrite zlen_app, zlen_entry.
    change (blocks []) with 0. replace (zlen r + DIRENT + DIRENT * zlen files) with (zlen r + DIRENT * (1 + zlen files)) by lia. lia.
  - exists s', V'. split; [done|]. rewrite zlen_app in I'. change (zlen [(T_FILE, data)]) with 1 in I'. rewrite listing_cons.
    replace (2 + zlen G) with i by (unfold i; lia). replace (2 + (zlen G + 1)) with (i + 1) in I' by (unfold i; lia).
    rewrite <- !app_assoc in I'. exact I'.
Qed.
End copy.

(** ** The bitmap *)

Lemma set_bits_ok n : ∀ buf i,
  0 ≤ i → i + Z.of_nat n ≤ nbits buf →
  ∃ buf', set_bits n buf i = Ok buf' ∧ zlen buf' = zlen buf ∧
    ∀ j, 0 ≤ j → bit buf' j = if decide (i ≤ j < i + Z.of_nat n) then true else bit buf j.
Proof.
  induction n as [|n IH]; intros buf i Hi Hn.
  { exists buf. split; [done|]. split; [done|]. intros j Hj. by rewrite decide_False by lia. }
  destruct (set_bit_ok buf i) as (v & b & Eg & Es & Hl & Hb); [lia|]. cbn [set_bits]. call Eg.
  change (Z.shiftl 1 (i mod 8)) with (bmask i). call Es.
  destruct (IH b (i + 1)) as (buf' & E & Hl' & Hb'); [lia|unfold nbits in *; lia|].
  exists buf'. split; [done|]. split; [congruence|]. intros j Hj. rewrite Hb', Hb by done.
  destruct (Z.eqb_spec i j); repeat case_decide; (done || lia).
Qed.

Lemma bit_zeroblock j : bit zeroblock j = false.
Proof. unfold bit. rewrite zeroblock_default. apply Z.bits_0. Qed.

(** The bitmap block that [balloc] writes. *)
Lemma bitmap_ok n :
  0 ≤ n ≤ FSSIZE →
  ∃ buf, set_bits (Z.to_nat n) zeroblock 0 = Ok buf ∧ zlen buf = BSIZE ∧ ∀ b, 0 ≤ b → bit buf b = (b <? n).
Proof.
  intros Hn. destruct mk_vals as (_ & _ & _ & E4 & _). assert (Hz : nbits zeroblock = 8192) by (unfold nbits; rewrite zeroblock_zlen; done).
  destruct (set_bits_ok (Z.to_nat n) zeroblock 0) as (buf & E & Hl & Hb); [done|lia|]. exists buf. split; [done|].
  split; [rewrite Hl; apply zeroblock_zlen|]. intros b H0. rewrite Hb, bit_zeroblock by done. case_decide; lia.
Qed.

Lemma used_bitmap V b : 0 ≤ b < FSSIZE → used V b = bit (V BM) b.
Proof.
  intros Hb. destruct mk_vals as (_ & _ & _ & E4 & E5 & _). unfold FsBlock.used. rewrite (bblock_eq 1 30 2 mksb) by lia.
  rewrite Z.div_small, Z.mod_small by (change BPB with 8192; lia). done.
Qed.

(** A file depends on the data blocks and on which of them are in use. *)
Lemma file_at_agree V V' x f :
  (∀ k, is_data k → V' k = V k) → (∀ b, 0 ≤ b < FSSIZE → used V' b = used V b) →
  file_at V x f → file_at V' x f ∧ ∀ i, blk V' x i = blk V x i.
Proof.
  intros Hs Hu [A1 A2 A3 A4 A5 A6 [A7 A7'] A8]. pose proof IND_val as (EI & EN & EM & EB). destruct mk_vals as (_ & _ & _ & E4 & E5 & _).
  assert (Hd : ∀ i, 0 ≤ i ≤ IND → blk V x i ≠ 0 → V' (blk V x i) = V (blk V x i)).
  { intros i Hi Hn. apply Hs. by apply (fo_data _ _ _ _ A1). }
  assert (Hk : ∀ i, blk V' x i = blk V x i).
  { intros i. apply (blk_ext V). rewrite <- (blk_ind V). intros Hn. apply Hd; [lia|done]. }
  assert (Hf' : ∀ o, 0 ≤ o < MAXFILE * BSIZE → blk V x (o / BSIZE) ≠ 0 → fbyte V' x o = fbyte V x o).
  { intros o Ho Hn. pose proof (offset_block o Ho). unfold fbyte. rewrite Hk, Hd; [done|lia|done]. }
  split; [|exact Hk]. constructor; [|exact A2|exact A3|exact A4|exact A5|..].
  - apply (file_ok_ext 1 30 2 mksb V V'); [auto| |done]. intros b Hbr. apply Hu. lia.
  - etrans; [|exact A6]. pose proof (fo_size _ _ _ _ A1). apply list_fmap_ext. intros k o Ho. apply lookup_seq in Ho as [-> Ho].
    apply Hf'; [lia|]. apply (fo_full _ _ _ _ A1); [apply Z.div_pos; [lia|done]|].
    pose proof (Z.mul_div_le (0 + Z.of_nat (0 + k)) BSIZE ltac:(done)). lia.
  - constructor; [intros i Hi'|]; rewrite Hk; auto.
  - intros o Ho. pose proof (zlen_nonneg f.2). rewrite Hk. intros Hn. rewrite Hf' by (done || lia). by apply A8.
Qed.

Lemma img_ext s V F s' V' :
  img s V F → raw s' V' → (∀ k, k ≠ BM → V' k = V k) → freeinode s' = freeinode s → freeblock s' = freeblock s → img s' V' F.
Proof.
  intros [I1 I2 I3 I4 I5 I6 I7 I8 I9] R' Hs Hi Hb. pose proof IND_val as (EI & EN & EM & EB).
  destruct mk_vals as (E1 & E2 & _ & E4 & E5 & _).
  assert (Ei : ∀ i, 0 ≤ i < NINODES → inode_at V' i = inode_at V i).
  { intros i Hr. pose proof (iblock_low _ Hr). unfold inode_at. rewrite Hs; [done|lia]. }
  assert (Hr : ∀ j f, F !! j = Some f → 0 ≤ 1 + Z.of_nat j < NINODES).
  { intros j f E. apply lookup_lt_Some in E. unfold zlen in *. lia. }
  assert (Hl : ∀ j, (j < length F)%nat → ∃ f, F !! j = Some f) by (intros j Hj; by apply lookup_lt_is_Some_2).
  assert (Hag : ∀ j f, F !! j = Some f → file_at V' (inode_at V (1 + Z.of_nat j)) f ∧ ∀ i, blk V' (inode_at V (1 + Z.of_nat j)) i = blk V (inode_at V (1 + Z.of_nat j)) i).
  { intros j f Ej. apply file_at_agree; [| |by apply I5].
    - intros k [Hk _]. apply Hs. lia.
    - intros b Hbr. by rewrite (rw_used _ _ R'), (rw_used _ _ I1), Hb by lia. }
  constructor; [exact R'|congruence|exact I3|congruence|..].
  - intros j f Ej. rewrite (Ei _ (Hr _ _ Ej)). by apply Hag.
  - intros a b Hab Ha Hb'. destruct (Hl a Ha) as [f Ef], (Hl b Hb') as [g Eg].
    rewrite (Ei _ (Hr _ _ Ef)), (Ei _ (Hr _ _ Eg)). intros p q Hp Hq.
    destruct (Hag _ _ Ef) as [_ ->], (Hag _ _ Eg) as [_ ->]. by apply I6.
  - intros i Hi'. pose proof (zlen_nonneg F). rewrite Ei by lia. auto.
  - rewrite Hs by lia. done.
  - intros k Hk. rewrite Hs by lia. auto.
Qed.

(** [balloc] completes the image. *)
Lemma mk_balloc_ok s V F :
  img s V F → ∃ s', mk_balloc s (freeblock s) = Ok s' ∧ img s' (im s') F ∧ freeblock s' = freeblock s.
Proof.
  intros I. pose proof (ig_raw _ _ _ I) as R. destruct mk_vals as (E1 & E2 & E3 & E4 & E5 & _). pose proof (rw_range _ _ R) as Hr.
  destruct (bitmap_ok (freeblock s)) as (buf & E & Hl & Hb); [lia|]. unfold mk_balloc. change (BSIZE * 8) with 8192.
  destruct (Z.ltb_spec (freeblock s) 8192); [|lia]. cbn [negb]. change (replicate (Z.to_nat BSIZE) 0) with zeroblock. call E.
  eexists. split; [done|]. split; [|done]. cbn [im wsect].
  assert (Hs : ∀ k, k ≠ BM → (<[BM := buf]> (im s)) k = V k).
  { intros k Hk. rewrite fn_lookup_insert_ne by done. symmetry. by apply (rw_same _ _ R). }
  eapply img_ext; [done| |done|done|done]. destruct R as [R1 R2 R3 R4 R5 R6]. constructor; cbn; try done.
  - intros k. destruct (decide (k = BM)) as [->|Hk]; [by rewrite fn_lookup_insert|by rewrite Hs].
  - intros b Hb'. rewrite used_bitmap, fn_lookup_insert by done. apply Hb. lia.
  - rewrite R5. done.
  - intros k Hk. rewrite Hs by lia. auto.
Qed.

(** The image before the first file: all blocks are zero but the superblock. *)
Lemma img_init :
  ∃ V, img (wsect (mk_mk (λ _, zeroblock) FSSIZE 1 nmeta) 1 sb_block) V [].
Proof.
  destruct mk_vals as (E1 & E2 & E3 & E4 & E5 & E6). destruct (bitmap_ok 46) as (buf & _ & Hl & Hb); [lia|].
  set (W := <[1 := sb_block]> (λ _ : Z, zeroblock)). exists (<[BM := buf]> W).
  assert (Hs : ∀ k, k ≠ BM → (<[BM := buf]> W) k = W k) by (intros; by apply fn_lookup_insert_ne).
  assert (Hz : ∀ k, k ≠ 1 → W k = zeroblock) by (intros; unfold W; by rewrite fn_lookup_insert_ne).
  assert (H1 : W 1 = sb_block) by (unfold W; by rewrite fn_lookup_insert).
  constructor; cbn [freeinode freeblock wsect]; [|reflexivity|reflexivity|rewrite E3; reflexivity|intros j f; by rewrite lookup_nil| | |rewrite Hs by lia; exact H1|].
  - constructor; cbn [im freeblock nsect wsect]; [exact Hs| | |lia|lia|].
    + intros k. destruct (decide (k = BM)) as [->|Hk]; [by rewrite fn_lookup_insert|]. rewrite Hs by done.
      destruct (decide (k = 1)) as [->|Hk1]; [rewrite H1; vm_compute; reflexivity|rewrite Hz by done; apply zeroblock_zlen].
    + intros b Hb'. rewrite used_bitmap, fn_lookup_insert by done. rewrite Hb by lia. lia.
    + intros k Hk. rewrite Hs, Hz by lia. done.
  - intros i j _ Hi. cbn in Hi. lia.
  - intros i Hi. assert (Hr : 0 ≤ i < NINODES) by (unfold zlen in Hi; cbn in Hi; lia). pose proof (iblock_low _ Hr).
    unfold inode_at. rewrite Hs, Hz by lia. cbn [itype load_dinode inum dinode_of]. unfold rd, slice, zeroblock. rewrite drop_replicate, take_replicate.
    generalize (Z.to_nat (Z.of_nat 2) `min` (Z.to_nat BSIZE - Z.to_nat (dioff i)))%nat. intros n.
    assert (of_le (replicate n 0) = 0) as -> by (induction n as [|n IHn]; cbn [replicate of_le]; [done|rewrite IHn; done]). done.
  - intros k Hk. rewrite Hs, Hz by lia. done.
Qed.

(** ** The root directory *)

(** The rest of the last block may count as bytes of the file. *)
Lemma appended_zeros s V x off k :
  raw s V → file_ok V x → ends V x off → slack V x off → 0 ≤ off → off mod BSIZE ≠ 0 →
  0 < k ≤ BSIZE - off mod BSIZE → off + k ≤ MAXFILE * BSIZE →
  appended s V x off (replicate (Z.to_nat k) 0) s V x.
Proof.
  intros R Hf He Hs H0 Hm Hk Hmax. assert (Hl : zlen (replicate (Z.to_nat k) 0) = k) by (unfold zlen; rewrite length_replicate; lia).
  assert (Hend : ∀ a, 0 < a ≤ BSIZE - off mod BSIZE → ends V x (off + a)).
  { intros a Ha. destruct He as [E1 E2]. constructor; [intros i Hi; rewrite E1 by done|rewrite E2]; offs. }
  assert (Hblk : ∀ o, off ≤ o < off + k → blk V x (o / BSIZE) ≠ 0).
  { intros o Ho. pose proof (offset_block o ltac:(lia)) as Hb. change IND with MAXFILE in Hb.
    apply (en_blk _ _ _ (Hend k Hk)); [done|]. pose proof (Z.mul_div_le o BSIZE ltac:(done)). lia. }
  constructor; rewrite ?Hl; try done; [|by apply Hend| |].
  - constructor; rewrite ?Hl; try done.
    + by eapply raw_reserved.
    + by rewrite set_iaddrs_same.
    + intros o Ho Hor. case_decide as Hd; [|done]. rewrite (Hs o) by (auto; lia).
      destruct (replicate _ 0 !! _) as [v|] eqn:E; [by apply lookup_replicate in E as [-> _]|done].
  - intros o Ho Hn. apply Hs; [lia|done].
  - assert (nb (off + k) = nb off) as -> by (unfold nb; offs). lia.
Qed.

Lemma fbytes_slice V x n a k :
  0 ≤ a → 0 ≤ k → a + k ≤ n → fbytes V x a k = slice a k (fbytes V x 0 n).
Proof.
  intros Ha Hk Hn. replace n with (a + (k + (n - a - k))) by lia. rewrite !fbytes_app by lia. rewrite Z.add_0_l.
  pose proof (zlen_fbytes V x 0 a Ha) as L1. pose proof (zlen_fbytes V x a k Hk) as L2. unfold slice, zlen in *.
  rewrite drop_app_length' by lia. by rewrite take_app_length' by lia.
Qed.

Lemma slice_entries es zs k e :
  Forall (λ e, zlen e = DIRENT) es → es !! k = Some e → slice (DIRENT * Z.of_nat k) DIRENT (concat es ++ zs) = e.
Proof.
  intros Hes. revert k. induction Hes as [|e' es He' Hes IH]; intros [|k] E; try done; cbn [concat]; rewrite <- app_assoc.
  - injection E as ->. unfold slice, zlen in *. change (Z.to_nat (DIRENT * Z.of_nat 0)) with 0%nat. rewrite drop_0. apply take_app_length'. lia.
  - etrans; [|exact (IH k E)]. unfold slice. f_equal. change DIRENT with 16 in *. unfold zlen in He'.
    replace (Z.to_nat (16 * Z.of_nat (S k))) with (length e' + Z.to_nat (16 * Z.of_nat k))%nat by lia. by rewrite drop_app_add.
Qed.

Lemma entry_name i n : dname (de_name (entry i n)) = dname n.
Proof.
  unfold dname. apply cut_ext. intros j Hj. unfold de_name, entry, slice.
  rewrite drop_app_length' by by rewrite length_to_le. rewrite lookup_take_lt, lookup_take_lt by done.
  destruct (decide (j < length n)%nat) as [Hl|Hl]; [by rewrite lookup_app_l|].
  rewrite lookup_app_r by lia. rewrite (lookup_ge_None_2 n) by lia. destruct (replicate _ 0 !! _) as [v|] eqn:E; [|done].
  by apply lookup_replicate in E as [-> _].
Qed.

Lemma entry_inum i n : 0 ≤ i < 2 ^ 16 → de_inum (entry i n) = i.
Proof.
  intros Hi. unfold de_inum, rd, slice, entry. rewrite drop_0, take_app_length' by by rewrite length_to_le.
  apply of_to_le_small. done.
Qed.

Lemma entry_bytes i n : bytes n → bytes (entry i n).
Proof.
  intros Hn. apply Forall_app. split; [apply to_le_bytes|]. apply Forall_take, Forall_app. split; [done|].
  apply Forall_replicate. lia.
Qed.

(** The directory of the root. *)
Definition dir_list (names : list (list Z)) : list (Z * list Z) := (ROOTINO, chars ".") :: (ROOTINO, chars "..") :: numbered 2 names.

Lemma numbered_lookup i names k p : numbered i names !! k = Some p → p.1 = i + Z.of_nat k ∧ names !! k = Some p.2.
Proof.
  revert i k. induction names as [|n names IH]; intros i [|k] E; try done; cbn in *.
  - injection E as <-. cbn. split; [lia|done].
  - apply IH in E as [E1 E2]. split; [lia|done].
Qed.

Lemma length_numbered i names : length (numbered i names) = length names.
Proof. revert i. induction names as [|n names IH]; intros i; cbn; [done|]. by rewrite IH. Qed.

Lemma dir_list_ok names k i n :
  Forall bytes names → dir_list names !! k = Some (i, n) → 0 ≤ i < 2 + zlen names ∧ bytes n.
Proof.
  intros Hb E. unfold zlen. destruct k as [|[|k]]; cbn in E; [injection E as <- <-..|].
  - split; [unfold ROOTINO; lia|]. repeat constructor; lia.
  - split; [unfold ROOTINO; lia|]. repeat constructor; lia.
  - apply numbered_lookup in E as [E1 E2]. cbn in *. pose proof (lookup_lt_Some _ _ _ E2). split; [lia|].
    rewrite Forall_lookup in Hb. by eapply Hb.
Qed.

(** The bytes of the root directory, up to the end of its last block. *)
Definition pad (n : Z) : Z := BSIZE - (DIRENT * (2 + n)) mod BSIZE.
Definition root_bytes (names : list (list Z)) : list Z :=
  concat (uncurry entry <$> dir_list names) ++ replicate (Z.to_nat (pad (zlen names))) 0.

Lemma zlen_dir_list names : zlen (concat (uncurry entry <$> dir_list names)) = DIRENT * (2 + zlen names).
Proof.
  change (concat _) with (entry ROOTINO (chars ".") ++ entry ROOTINO (chars "..") ++ listing 2 names).
  rewrite !zlen_app, !zlen_entry, zlen_listing. change DIRENT with 16. lia.
Qed.

(** What the kernel sees in the directory. *)
Lemma entries_dir V x names zs :
  isize x = DIRENT * (2 + zlen names) + Z.of_nat zs → isize x mod DIRENT = 0 → itype x = T_DIR → zlen names + 2 ≤ 2 ^ 16 → Forall bytes names →
  fbytes V x 0 (isize x) = concat (uncurry entry <$> dir_list names) ++ replicate zs 0 →
  dir_ok V x ∧
  (∀ k i n, dir_list names !! k = Some (i, n) → de_inum (dent V x (Z.of_nat k)) = i ∧ dname (de_name (dent V x (Z.of_nat k))) = dname n) ∧
  (∀ k, 2 + zlen names ≤ k < nent x → de_inum (dent V x k) = 0).
Proof.
  intros Hsz Hmod Ht Hl Hb Hc. assert (ED : DIRENT = 16) by done. pose proof (zlen_nonneg names).
  assert (Hes : Forall (λ e, zlen e = DIRENT) (uncurry entry <$> dir_list names)).
  { apply Forall_fmap, Forall_true. intros [i n]. apply zlen_entry. }
  assert (Ed : isize x = DIRENT * nent x) by (unfold nent; rewrite ED in *; Z.to_euclidean_division_equations; lia).
  assert (Hlen : length (dir_list names) = Z.to_nat (2 + zlen names)) by (unfold dir_list, zlen; cbn; rewrite length_numbered; lia).
  assert (Hent : ∀ k i n, dir_list names !! k = Some (i, n) → dent V x (Z.of_nat k) = entry i n).
  { intros k i n E. pose proof (lookup_lt_Some _ _ _ E). unfold dent. rewrite (fbytes_slice V x (isize x)) by lia. rewrite Hc.
    apply slice_entries; [done|]. by rewrite list_lookup_fmap, E. }
  assert (Hz : ∀ k, 2 + zlen names ≤ k < nent x → ∃ m, dent V x k = replicate m 0).
  { intros k Hk. unfold dent. rewrite (fbytes_slice V x (isize x)) by lia. rewrite Hc. unfold slice.
    assert (Hcl : length (concat (uncurry entry <$> dir_list names)) = Z.to_nat (DIRENT * (2 + zlen names))).
    { replace (2 + zlen names) with (Z.of_nat (length (dir_list names))) by lia. clear -Hes ED. rewrite <- (length_fmap (uncurry entry)).
      induction Hes as [|e es He _ IH]; [done|]. cbn [concat length]. rewrite length_app, IH. unfold zlen in He. lia. }
    rewrite drop_app_ge by lia. rewrite drop_replicate, take_replicate. eauto. }
  split; [|split].
  - constructor; [done|done|]. intros j Hj. destruct (decide (j < 2 + zlen names)) as [Hlt|Hge].
    + destruct (lookup_lt_is_Some_2 (dir_list names) (Z.to_nat j)) as [[i n] E]; [lia|]. rewrite <- (Z2Nat.id j), (Hent _ _ _ E) by lia.
      apply entry_bytes. by eapply dir_list_ok.
    + destruct (Hz j) as [m ->]; [lia|]. apply Forall_replicate. lia.
  - intros k i n E. rewrite (Hent _ _ _ E). destruct (dir_list_ok _ _ _ _ Hb E). split; [apply entry_inum; lia|apply entry_name].
  - intros k Hk. destruct (Hz k Hk) as [m ->]. unfold de_inum, rd, slice. rewrite drop_0, take_replicate.
    generalize (Z.to_nat (Z.of_nat 2) `min` m)%nat. intros n. induction n as [|n IHn]; [done|]. cbn [replicate of_le]. rewrite IHn. done.
Qed.

Lemma root_dir V x names :
  zlen names + 2 ≤ 2 ^ 16 → Forall bytes names → file_at V x (T_DIR, root_bytes names) →
  dir_ok V x ∧
  (∀ k i n, dir_list names !! k = Some (i, n) → de_inum (dent V x (Z.of_nat k)) = i ∧ dname (de_name (dent V x (Z.of_nat k))) = dname n) ∧
  (∀ k, 2 + zlen names ≤ k < nent x → de_inum (dent V x k) = 0).
Proof.
  intros Hl Hb Ha.
  assert (Hsz : isize x = DIRENT * (2 + zlen names) + Z.of_nat (Z.to_nat (pad (zlen names)))).
  { rewrite (fa_size _ _ _ Ha). cbn [snd]. unfold root_bytes. rewrite zlen_app, zlen_dir_list. unfold zlen at 2. by rewrite length_replicate. }
  apply (entries_dir V x names (Z.to_nat (pad (zlen names))) Hsz); [|exact (fa_type _ _ _ Ha)|done|done|].
  - rewrite Hsz. unfold pad. clear. change BSIZE with 1024. change DIRENT with 16. Z.to_euclidean_division_equations. lia.
  - rewrite (fa_size _ _ _ Ha). exact (fa_data _ _ _ Ha).
Qed.

(** ** The whole program *)

(** The blocks the image takes: the metadata, the root directory and the files. *)
Definition capacity (files : list (list Z * list Z)) : Z := nmeta + nb (DIRENT * (2 + zlen files)) + blocks (specs files).

Section whole.
Context (read : list Z → Z → Z) {RD : Reads read} (files : list (list Z * list Z)) (names : list (list Z)).
Hypothesis (Hnames : Forall2 (λ f n, shortname f.1 = Ok n) files names) (Hbytes : Forall bytes names)
  (Hsizes : Forall (λ f, zlen f.2 ≤ MAXFILE * BSIZE) files) (Hino : zlen files + 1 < NINODES)
  (Hroot : (zlen files + 2) mod 64 ≠ 0) (Hcap : capacity files ≤ FSSIZE).

Lemma names_len : zlen names = zlen files.
Proof using Hnames. unfold zlen. by rewrite (Forall2_length Hnames). Qed.

(** The files are there, and the root directory has its entries. *)
Lemma mkfs_files :
  ∃ s V, img s V ((T_DIR, concat (uncurry entry <$> dir_list names)) :: specs files) ∧
    mkfs read files = (x ← rinode s ROOTINO;
                       s1 ← winode s (set_isize x (u32 ((isize x / BSIZE + 1) * BSIZE)));
                       mk_balloc s1 (freeblock s1)).
Proof using RD Hnames Hsizes Hino Hcap.
  destruct img_init as (V0 & I0). unfold mkfs. change (replicate (Z.to_nat BSIZE) 0) with zeroblock. fold sb_block.
  set (s0 := wsect _ 1 sb_block) in *. destruct mk_vals as (_ & _ & _ & E4 & _ & E6). pose proof (zlen_nonneg files).
  assert (Hm : nb DIRENT = 1 ∧ nb (DIRENT + DIRENT) = 1) by done. destruct Hm as [Hm1 Hm2].
  assert (ED : DIRENT = 16) by done. assert (EX : MAXFILE * BSIZE = 274432) by done.
  pose proof (nb_mono (DIRENT + DIRENT) (DIRENT * (2 + zlen files)) ltac:(lia)) as Hm3.
  pose proof (blocks_nonneg (specs files)). pose proof Hcap as Hc. unfold capacity in Hc.
  destruct (mk_ialloc_ok s0 V0 [] T_DIR I0) as (s1 & V1 & E1 & I1); [done|done|]. call E1. change (negb (1 + zlen [] =? ROOTINO)) with false. cbv iota.
  destruct (iappend_ok s1 V1 _ 0 T_DIR [] (entry ROOTINO (chars ".")) I1 eq_refl) as (s2 & V2 & E2 & I2); rewrite ?zlen_entry.
  { done. } { rewrite (ig_blocks _ _ _ I1). cbn [app]. rewrite blocks_cons. cbn [snd]. change (zlen []) with 0. change (nb 0) with 0. change (blocks []) with 0. rewrite !Z.add_0_l. lia. }
  change (1 + zlen []) with ROOTINO. change (1 + Z.of_nat 0) with ROOTINO in E2. call E2. change (<[0%nat := ?x]> ([] ++ [?y])) with [x] in I2. rewrite app_nil_l in I2.
  destruct (iappend_ok s2 V2 _ 0 T_DIR _ (entry ROOTINO (chars "..")) I2 eq_refl) as (s3 & V3 & E3 & I3); rewrite ?zlen_entry.
  { done. } { rewrite (ig_blocks _ _ _ I2). rewrite blocks_cons. cbn [snd]. rewrite zlen_entry. change (blocks []) with 0. lia. }
  change (1 + Z.of_nat 0) with ROOTINO in E3. call E3. change (<[0%nat := ?x]> [?y]) with [x] in I3.
  destruct (add_files_ok read files s3 V3 _ [] names I3 Hnames Hsizes) as (s4 & V4 & E & I4); rewrite ?zlen_app, ?zlen_entry; change (zlen (@nil (Z * list Z))) with 0.
  { lia. } { lia. } { rewrite (ig_blocks _ _ _ I3), blocks_cons. cbn [snd]. rewrite zlen_app, !zlen_entry. change (blocks []) with 0.
    replace (DIRENT + DIRENT + DIRENT * zlen files) with (DIRENT * (2 + zlen files)) by lia. lia. }
  call E. exists s4, V4. split; [|done]. rewrite <- app_assoc in I4. exact I4.
Qed.

Lemma mkfs_img :
  ∃ s, mkfs read files = Ok s ∧ img s (im s) ((T_DIR, root_bytes names) :: specs files) ∧ freeblock s = capacity files.
Proof using RD Hnames Hsizes Hino Hroot Hcap.
  destruct mkfs_files as (s & V & I & ->). destruct mk_vals as (_ & _ & _ & E4 & _ & E6). pose proof (zlen_nonneg files) as Hn.
  set (c := concat (uncurry entry <$> dir_list names)) in *. assert (ED : DIRENT = 16) by done.
  assert (Hc : zlen c = DIRENT * (2 + zlen files)).
  { unfold c. by rewrite zlen_dir_list, names_len. }
  pose proof (ig_file _ _ _ I 0%nat _ eq_refl) as Ha. change (1 + Z.of_nat 0) with ROOTINO in Ha. pose proof Hroot as Hr. pose proof Hino as Hi.
  assert (Hm : zlen c mod BSIZE ≠ 0) by (rewrite Hc, ED; clear -Hr Hn; offs).
  set (pd := pad (zlen names)) in *.
  assert (Hp : pd = BSIZE - zlen c mod BSIZE ∧ 0 < pd ≤ BSIZE) by (unfold pd, pad; rewrite names_len, <- Hc; clear; offs). destruct Hp as [Hp Hp0].
  rewrite (rinode_ok s V) by (apply I || done). rewrite bind_Ok, (fa_size _ _ _ Ha). cbn [snd].
  assert (Hu : u32 ((zlen c / BSIZE + 1) * BSIZE) = zlen c + pd).
  { rewrite u32_small; [rewrite Hp; clear; offs|]. rewrite Hc, ED. clear -Hn Hi E6. offs. }
  rewrite Hu. assert (Hz : zlen (replicate (Z.to_nat pd) 0) = pd) by (unfold zlen; rewrite length_replicate; lia).
  destruct (img_append s V _ 0 T_DIR c (replicate (Z.to_nat pd) 0) s V (inode_at V ROOTINO) I eq_refl) as (s1 & V1 & E1 & I1).
  { apply appended_zeros; [apply I|apply Ha|apply Ha|apply Ha|lia|done|lia|]. rewrite Hp, Hc, ED. change (MAXFILE * BSIZE) with 274432. clear -Hn Hi E6. offs. }
  rewrite Hz in E1. call E1. change (<[0%nat := ?x]> (?y :: ?l)) with (x :: l) in I1.
  destruct (mk_balloc_ok s1 V1 _ I1) as (s2 & E2 & I2 & Eb). exists s2. split; [done|]. split; [exact I2|].
  rewrite (ig_blocks _ _ _ I2), blocks_cons. unfold capacity. cbn [snd]. rewrite zlen_app, Hz, Hp, Hc.
  assert (nb (DIRENT * (2 + zlen files) + (BSIZE - (DIRENT * (2 + zlen files)) mod BSIZE)) = nb (DIRENT * (2 + zlen files))) as ->.
  { rewrite Hc in Hm. clear -Hm. unfold nb. offs. } lia.
Qed.
End whole.

Lemma sb_roundtrip : parse_sb sb_block = mksb.
Proof. vm_compute. reflexivity. Qed.

(** C15: on files whose names have no slash, which fit a file each and together the
    disk and the inodes, the image builder ends with a file system: the superblock
    holds the layout and the log is empty; the bitmap has just the blocks that were
    handed out, as many as the files need; the root is a directory whose entries are
    itself twice and then the files by their short names, in order, with free entries
    after them; inode [2 + j] is a regular file with one link and the bytes of file
    [j]; no two files share a block, and all other inodes are free. The root's size is
    rounded to the end of its last block, so the number of entries must not fill it. *)
Theorem mkfs_correct read {RD : Reads read} files names :
  Forall2 (λ f n, shortname f.1 = Ok n) files names → Forall bytes names →
  Forall (λ f, zlen f.2 ≤ MAXFILE * BSIZE) files → zlen files + 1 < NINODES →
  (zlen files + 2) mod 64 ≠ 0 → capacity files ≤ FSSIZE →
  ∃ s, mkfs read files = Ok s ∧
    let V := im s in
    let root := inode_at V ROOTINO in
    parse_sb (V 1) = mksb ∧ (∀ k, 2 ≤ k < 32 → V k = zeroblock) ∧
    (∀ b, 0 ≤ b < FSSIZE → FsBlock.used mksb V b = (b <? capacity files)) ∧
    FsInode.file_ok 1 mksb V root ∧ dir_ok V root ∧ inlink root = 1 ∧
    (∀ k i n, dir_list names !! k = Some (i, n) →
       de_inum (dent V root (Z.of_nat k)) = i ∧ dname (de_name (dent V root (Z.of_nat k))) = dname n) ∧
    (∀ k, 2 + zlen files ≤ k < nent root → de_inum (dent V root k) = 0) ∧
    (∀ j path data, files !! j = Some (path, data) →
       let x := inode_at V (2 + Z.of_nat j) in
       itype x = T_FILE ∧ inlink x = 1 ∧ isize x = zlen data ∧ FsInode.file_ok 1 mksb V x ∧ fbytes V x 0 (zlen data) = data) ∧
    (∀ i j, (i < 1 + length files)%nat → (j < 1 + length files)%nat → i ≠ j →
       disjoint_files V (inode_at V (1 + Z.of_nat i)) (inode_at V (1 + Z.of_nat j))) ∧
    (∀ i, 2 + zlen files ≤ i < NINODES → itype (inode_at V i) = 0).
Proof.
  intros Hn Hb Hs Hi Hr Hc. destruct (mkfs_img read files names Hn Hs Hi Hr Hc) as (s & E & I & Hf). exists s. split; [done|].
  cbv zeta. pose proof (ig_file _ _ _ I 0%nat _ eq_refl) as Ha. change (1 + Z.of_nat 0) with ROOTINO in Ha.
  assert (Hl : zlen names = zlen files) by by eapply names_len. destruct mk_vals as (_ & _ & _ & _ & _ & E6).
  destruct (root_dir (im s) (inode_at (im s) ROOTINO) names) as (D1 & D2 & D3); [lia|done|done|].
  rewrite Hl in D3. split; [rewrite (ig_super _ _ _ I); exact sb_roundtrip|]. split; [apply I|].
  split; [intros b Hb'; rewrite (rw_used _ _ (ig_raw _ _ _ I)), Hf by done; done|].
  split; [exact (fa_file _ _ _ Ha)|]. split; [done|]. split; [exact (fa_link _ _ _ Ha)|]. split; [done|]. split; [done|]. split; [|split].
  - intros j path data Ej. assert (Ej' : ((T_DIR, root_bytes names) :: specs files) !! S j = Some (T_FILE, data)).
    { rewrite lookup_cons. unfold specs. by rewrite list_lookup_fmap, Ej. }
    pose proof (ig_file _ _ _ I _ _ Ej') as B. replace (1 + Z.of_nat (S j)) with (2 + Z.of_nat j) in B by lia.
    exact (conj (fa_type _ _ _ B) (conj (fa_link _ _ _ B) (conj (fa_size _ _ _ B) (conj (fa_file _ _ _ B) (fa_data _ _ _ B))))).
  - intros i j Hi' Hj Hij. by apply (ig_disj _ _ _ I); [|cbn; unfold specs; rewrite length_fmap..].
  - intros i Hi'. apply (ig_free _ _ _ I). unfold zlen in *. cbn [length]. unfold specs. rewrite length_fmap. lia.
Qed.

(** Two programs and a text on the image. *)
Definition demo_files : list (list Z * list Z) :=
  [(chars "README", chars "xv6 is a teaching system"); (chars "user/_cat", chars "cat"); (chars "user/_sh", [])].

Lemma demo_files_ok :
  Forall2 (λ f n, shortname f.1 = Ok n) demo_files [chars "README"; chars "cat"; chars "sh"] ∧
  Forall bytes [chars "README"; chars "cat"; chars "sh"] ∧ Forall (λ f, zlen f.2 ≤ MAXFILE * BSIZE) demo_files ∧
  zlen demo_files + 1 < NINODES ∧ (zlen demo_files + 2) mod 64 ≠ 0 ∧ capacity demo_files ≤ FSSIZE.
Proof.
  split; [repeat constructor|]. split; [repeat constructor; done|]. split; [repeat constructor; done|].
  split; [done|]. split; done.
Qed.

Lemma mkfs_correct_witness :
  ∃ s, mkfs read3 demo_files = Ok s ∧ parse_sb (im s 1) = mksb ∧
    fbytes (im s) (inode_at (im s) 2) 0 24 = chars "xv6 is a teaching system".
Proof.
  destruct demo_files_ok as (H1 & H2 & H3 & H4 & H5 & H6).
  destruct (mkfs_correct read3 demo_files _ H1 H2 H3 H4 H5 H6) as (s & E & A1 & _ & _ & _ & _ & _ & _ & _ & A9 & _).
  exists s. split; [done|]. split; [done|]. by destruct (A9 0%nat _ _ eq_refl) as (_ & _ & _ & _ & ?).
Defined.
