(* ===== verification/FsInit.v ===== *)
(** * Mounting: [readsb] and [fsinit] of [kernel/file/fs.c], on any disk a crash may
    leave and on the image [mkfs] makes. *)

From Stdlib Require Import ZifyBool.
From S2P Require Import Prelude Bits Block Bio BioProof Log LogProof LogThm LogOps LogSafe Fs FsBlock FsInode FsDinode FsFile FsThm FsDir FileIO.
From S2P Require Import Grep Mkfs MkfsInv MkfsThm.

(** Recovery leaves no operation under way. *)
Lemma initlog_ops st dev S N s :
  initlog st dev S N = Ok s → outstanding (lg s) = 0 ∧ committing (lg s) = 0.
Proof.
  unfold initlog. change (BSIZE <=? 4 * (LOGSIZE + 1)) with false. cbv iota. unfold recover_from_log, read_head, install_trans, write_head.
  intros E. unbind. repeat case_match. unbind. by subst.
Qed.

(** Block 1 read through an idle cache. *)
Lemma readsb_ok d st :
  bio_ok d st ∅ ∅ →
  ∃ st', readsb st d = Ok (parse_sb (BioProof.view d st 1), st') ∧ bio_ok d st' ∅ ∅ ∧ disk st' = disk st ∧ Bio.writes st' = Bio.writes st ∧
    ∀ k, BioProof.view d st' k = BioProof.view d st k.
Proof.
  intros Hok. unfold readsb.
  destruct (bread_ok d st ∅ ∅ 1 Hok) as (b & st1 & E1 & (Hok1 & Hp1 & Hv1 & Hs1 & Hd1 & Hw1 & _) & _); [set_solver|by right|].
  call E1. rewrite (data_of_ok d st1 _ ∅ b 1) by done. rewrite bind_Ok.
  destruct (brelse_ok d st1 _ ∅ b 1 Hok1) as (st2 & E2 & (Hok2 & Hp2 & Hv2 & Hs2) & Hd2 & Hw2); [set_solver|done| |].
  { right. rewrite Hv1, Hd1. by apply (BioProof.view_clean d _ ∅ ∅). }
  call E2. rewrite Hv1. exists st2. split; [done|]. split; [by rewrite release_one in Hok2|]. split; [congruence|]. split; [congruence|].
  intros k. destruct (decide (k = 1)) as [->|Hk]; [congruence|].
  rewrite (sb_view _ _ _ _ _ Hs2) by done. by apply (sb_view _ _ _ _ _ Hs1).
Qed.

Lemma fsinit_ok dev N S `{LA : LogArea dev N S} dk V l t :
  recovers_to N S dk V l → (∀ b, b ∈ l → zlen (V b) = BSIZE) →
  let b := parse_sb (disk_read dk 1) in
  sb_logstart b = S → sb_nlog b = N →
  ∃ st, binit dk = Ok st ∧
    if sb_magic b =? FSMAGIC then
      ∃ s V', fsinit st t dev = Ok s ∧ idle dev N S b s V' ∧ itable s = t ∧ ∀ k, ¬ in_log N S k → V' k = V k
    else fsinit st t dev = Panic "invalid file system".
Proof.
  intros Hr HV b ES EN. destruct (binit_ok dev dk (la_dev dev N S) (rt_len _ _ _ _ _ Hr)) as (st & Est & Hok & Hdk & Hws & Hv).
  exists st. split; [done|]. destruct (readsb_ok dev st Hok) as (st1 & E1 & Hok1 & Hd1 & Hw1 & Hv1).
  unfold fsinit. call E1. rewrite Hv. fold b. destruct (Z.eqb_spec (sb_magic b) FSMAGIC); [|done]. cbn [negb].
  assert (Hv' : ∀ k, BioProof.view dev st1 k = disk_read dk k) by (intros k; rewrite Hv1; apply Hv).
  destruct (recovers_initlog_from dev N (la_dev dev N S) S dk V l st1 Hr HV Hok1 ltac:(congruence) ltac:(congruence) Hv') as (s & E & Hlog & _ & _ & Hview).
  rewrite ES, EN. call E. destruct (initlog_ops _ _ _ _ _ E) as [O1 O2].
  exists (mk_fs s b t), (BioProof.view dev (cache s)). split; [reflexivity|]. split; [|exact (conj eq_refl Hview)].
  constructor; [|exact O1|exact O2]. constructor; [|reflexivity]. constructor; [exact Hlog|reflexivity|]. intros k Hk. destruct (not_elem_of_empty k Hk).
Qed.

(** The file system of [mksb], of which [mkfs] makes an image. *)
Lemma recovers_mounts dk V l t :
  recovers_to 30 2 dk V l → (∀ b, b ∈ l → zlen (V b) = BSIZE) → parse_sb (disk_read dk 1) = mksb →
  ∃ st s V', binit dk = Ok st ∧ fsinit st t 1 = Ok s ∧ idle 1 30 2 mksb s V' ∧ ∀ k, ¬ in_log 30 2 k → V' k = V k.
Proof.
  intros Hr HV Hb. destruct (fsinit_ok 1 30 2 dk V l t Hr HV) as (st & Est & H); [by rewrite Hb..|].
  rewrite Hb in H. destruct H as (s & V' & E & I & _ & Hk). exists st, s, V'. exact (conj Est (conj E (conj I Hk))).
Qed.

(** C31: mounting after any crash. On a disk that recovers to the contents [V],
    whose block 1 holds a superblock that gives the log area, [fsinit] either rejects
    the magic number, or replays the log and leaves a file system with no operation
    under way, whose blocks outside the log are [V]. *)
Theorem fsinit_correct dev N S `{LA : LogArea dev N S} dk V l t :
  recovers_to N S dk V l → (∀ b, b ∈ l → zlen (V b) = BSIZE) →
  let b := parse_sb (disk_read dk 1) in
  sb_logstart b = S → sb_nlog b = N →
  ∃ st, binit dk = Ok st ∧
    if sb_magic b =? FSMAGIC then
      ∃ s V', fsinit st t dev = Ok s ∧ idle dev N S b s V' ∧ itable s = t ∧ ∀ k, ¬ in_log N S k → V' k = V k
    else fsinit st t dev = Panic "invalid file system".
Proof. exact (fsinit_ok dev N S dk V l t). Qed.

(** Without a crash: the contents are those of the disk. *)
Lemma fsinit_correct_witness :
  ∃ st, binit (<[1 := sb_block]> ∅) = Ok st ∧ ∃ s V, fsinit st iinit 1 = Ok s ∧ idle 1 30 2 mksb s V ∧ V 1 = sb_block.
Proof.
  set (dk := (<[1 := sb_block]> ∅ : disk_t)).
  assert (Hd : ∀ k, k ≠ 1 → disk_read dk k = zeroblock) by (intros k Hk; unfold dk; rewrite disk_read_insert_ne by done; done).
  assert (H1 : disk_read dk 1 = sb_block) by (apply disk_read_insert_eq).
  assert (Hr : recovers_to 30 2 dk (disk_read dk) []).
  { constructor.
    - constructor; [lia|lia|vm_compute; discriminate|vm_compute; reflexivity|constructor|]. intros b Hb; destruct (not_elem_of_nil b Hb).
    - rewrite Hd by done. constructor; [exact zeroblock_len|vm_compute; reflexivity|]. intros i b Hi. rewrite lookup_nil in Hi. discriminate Hi.
    - intros k. destruct (decide (k = 1)) as [->|Hk]; [rewrite H1; vm_compute; reflexivity|rewrite Hd by done; exact zeroblock_len].
    - intros i b Hi. rewrite lookup_nil in Hi. discriminate Hi.
    - intros k _ _. exact eq_refl. }
  destruct (fsinit_correct 1 30 2 dk (disk_read dk) [] iinit Hr) as (st & Est & H); [intros b Hb; destruct (not_elem_of_nil b Hb)|rewrite H1; vm_compute; reflexivity..|].
  rewrite H1, sb_roundtrip in H. exists st. split; [done|]. destruct H as (s & V & E & I & _ & HV). exists s, V. split; [done|]. split; [done|].
  rewrite HV, H1; [done|]. unfold in_log. lia.
Defined.

(** ** The image of [mkfs] *)

(** The disk that holds the image. *)
Definition image_disk (s : mk) : disk_t := list_to_map ((λ k, (k, im s k)) <$> seqZ 0 FSSIZE).

Lemma image_disk_read s k :
  disk_read (image_disk s) k = if decide (0 ≤ k < FSSIZE) then im s k else zeroblock.
Proof.
  unfold disk_read, image_disk. set (l := (λ k, (k, im s k)) <$> seqZ 0 FSSIZE).
  assert (Hf : l.*1 = seqZ 0 FSSIZE) by (unfold l; rewrite <- list_fmap_compose; apply list_fmap_id).
  case_decide as Hk.
  - assert (El : (list_to_map l : disk_t) !! k = Some (im s k)); [|by rewrite El].
    apply elem_of_list_to_map; [rewrite Hf; apply NoDup_seqZ|].
    apply (list_elem_of_fmap_2' (λ k, (k, im s k)) (seqZ 0 FSSIZE) k); [apply elem_of_seqZ; lia|done].
  - assert (El : (list_to_map l : disk_t) !! k = None); [|by rewrite El].
    apply not_elem_of_list_to_map. rewrite Hf, elem_of_seqZ. lia.
Qed.

Lemma image_recovers s F : img s (im s) F → recovers_to 30 2 (image_disk s) (disk_read (image_disk s)) [].
Proof.
  intros I. destruct mk_vals as (E1 & _ & _ & E4 & _). pose proof (ig_raw _ _ _ I) as R. constructor.
  - constructor; [lia|lia|vm_compute; discriminate|vm_compute; reflexivity|constructor|]. intros b Hb; destruct (not_elem_of_nil b Hb).
  - rewrite image_disk_read, decide_True, (ig_log _ _ _ I) by lia.
    constructor; [exact zeroblock_len|vm_compute; reflexivity|]. intros i b Hi. rewrite lookup_nil in Hi. discriminate Hi.
  - intros k. rewrite image_disk_read. case_decide; [exact (rw_len _ _ R k)|exact zeroblock_len].
  - intros i b Hi. rewrite lookup_nil in Hi. discriminate Hi.
  - intros k _ _. reflexivity.
Qed.

(** The kernel mounts it, and sees its files. *)
Lemma image_mounts s F :
  img s (im s) F →
  ∃ st f V, binit (image_disk s) = Ok st ∧ fsinit st iinit ROOTDEV = Ok f ∧ idle 1 30 2 mksb f V ∧
    reserved mksb V ∧ (∀ b, 0 ≤ b < FSSIZE → FsBlock.used mksb V b = (b <? freeblock s)) ∧
    ∀ j g, F !! j = Some g → file_at V (inode_at V (1 + Z.of_nat j)) g.
Proof.
  intros I. destruct mk_vals as (E1 & E2 & E3 & E4 & E5 & E6). pose proof (ig_raw _ _ _ I) as R.
  assert (H1 : parse_sb (disk_read (image_disk s) 1) = mksb).
  { rewrite image_disk_read, decide_True, (ig_super _ _ _ I) by lia. exact sb_roundtrip. }
  destruct (recovers_mounts (image_disk s) _ [] iinit (image_recovers s F I)) as (st & f & V & Est & Ef & Hi & HV).
  { intros b Hb; destruct (not_elem_of_nil b Hb). } { exact H1. }
  exists st, f, V. split; [exact Est|]. split; [exact Ef|]. split; [exact Hi|].
  assert (Hs : ∀ k, 32 ≤ k < FSSIZE → V k = im s k).
  { intros k Hk. rewrite HV by (unfold in_log; lia). by rewrite image_disk_read, decide_True by lia. }
  assert (Hu : ∀ b, 0 ≤ b < FSSIZE → FsBlock.used mksb V b = FsBlock.used mksb (im s) b).
  { intros b Hb. by rewrite !used_bitmap, Hs by lia. }
  split; [intros b Hb; rewrite Hu, (raw_reserved s (im s) R b Hb); [done|lia]|].
  split; [intros b Hb; rewrite Hu by done; by apply (rw_used _ _ R)|]. intros j g Ej.
  assert (Hj : 0 ≤ 1 + Z.of_nat j < NINODES) by by eapply img_index. pose proof (iblock_low _ Hj).
  assert (inode_at V (1 + Z.of_nat j) = inode_at (im s) (1 + Z.of_nat j)) as -> by (unfold inode_at; rewrite Hs by lia; done).
  apply (file_at_agree (im s)); [|done|by apply (ig_file _ _ _ I)]. intros k [Hk1 Hk2]. apply Hs. lia.
Qed.

(** C6: the kernel boots on what the image builder made. For the same files as in
    [mkfs_correct], reading the image into an empty buffer cache and mounting it
    succeeds: the file system is idle, the metadata blocks are in use, the root is a
    directory with the entries of the files, and inode [2 + j] has the bytes of file
    [j]. So the two programs agree on the layout of the disk. *)
Theorem mkfs_boots read {RD : Reads read} files names :
  Forall2 (λ f n, shortname f.1 = Ok n) files names → Forall bytes names →
  Forall (λ f, zlen f.2 ≤ MAXFILE * BSIZE) files → zlen files + 1 < NINODES →
  (zlen files + 2) mod 64 ≠ 0 → capacity files ≤ FSSIZE →
  ∃ s st f V, mkfs read files = Ok s ∧ binit (image_disk s) = Ok st ∧ fsinit st iinit ROOTDEV = Ok f ∧
    idle 1 30 2 mksb f V ∧ reserved mksb V ∧
    (∀ b, 0 ≤ b < FSSIZE → FsBlock.used mksb V b = (b <? capacity files)) ∧
    let root := inode_at V ROOTINO in
    file_ok 1 mksb V root ∧ dir_ok V root ∧
    (∀ k i n, dir_list names !! k = Some (i, n) →
       de_inum (dent V root (Z.of_nat k)) = i ∧ dname (de_name (dent V root (Z.of_nat k))) = dname n) ∧
    (∀ j path data, files !! j = Some (path, data) →
       let x := inode_at V (2 + Z.of_nat j) in
       itype x = T_FILE ∧ isize x = zlen data ∧ file_ok 1 mksb V x ∧ fbytes V x 0 (zlen data) = data).
Proof.
  intros Hn Hb Hs Hi Hr Hc. destruct (mkfs_img read files names Hn Hs Hi Hr Hc) as (s & E & I & Hf).
  destruct (image_mounts s _ I) as (st & f & V & Est & Ef & Hid & Hres & Hu & Hfile). rewrite Hf in Hu.
  exists s, st, f, V. split; [exact E|]. split; [exact Est|]. split; [exact Ef|]. split; [exact Hid|]. split; [exact Hres|]. split; [exact Hu|].
  cbv zeta. pose proof (Hfile 0%nat _ eq_refl) as Ha. change (1 + Z.of_nat 0) with ROOTINO in Ha.
  assert (Hl : zlen names = zlen files) by by eapply names_len. destruct mk_vals as (_ & _ & _ & _ & _ & E6).
  destruct (root_dir V (inode_at V ROOTINO) names) as (D1 & D2 & _); [lia|exact Hb|exact Ha|].
  split; [exact (fa_file _ _ _ Ha)|]. split; [exact D1|]. split; [exact D2|]. intros j path data Ej.
  pose proof (Hfile (S j) (T_FILE, data)) as B. rewrite lookup_cons in B. unfold specs in B. rewrite list_lookup_fmap, Ej in B.
  specialize (B eq_refl). replace (1 + Z.of_nat (S j)) with (2 + Z.of_nat j) in B by lia.
  exact (conj (fa_type _ _ _ B) (conj (fa_size _ _ _ B) (conj (fa_file _ _ _ B) (fa_data _ _ _ B)))).
Qed.

Lemma mkfs_boots_witness :
  ∃ s st f V, mkfs read3 demo_files = Ok s ∧ binit (image_disk s) = Ok st ∧ fsinit st iinit ROOTDEV = Ok f ∧
    idle 1 30 2 mksb f V ∧ fbytes V (inode_at V 3) 0 3 = chars "cat".
Proof.
  destruct demo_files_ok as (H1 & H2 & H3 & H4 & H5 & H6).
  destruct (mkfs_boots read3 demo_files _ H1 H2 H3 H4 H5 H6) as (s & st & f & V & E & Est & Ef & Hi & _ & _ & _ & _ & _ & A).
  exists s, st, f, V. split; [exact E|]. split; [exact Est|]. split; [exact Ef|]. split; [exact Hi|].
  by destruct (A 1%nat _ _ eq_refl) as (_ & _ & _ & ?).
Defined.
