(* ===== verification/Asm.v ===== *)
(** * The code in assembly: [kernel/startup/trampoline.S], [kernelvec.S] and
    [entry.S], [kernel/process/swtch.S], on the part of RISC-V it uses.

    A hart has its registers, its control registers and the memory. Loads and stores
    go through the Sv39 page table [satp] points to, which the hardware reads from
    memory; without paging, and in machine mode, addresses are physical. The TLB is
    not modelled entry by entry: after a write of [satp] translations may be stale
    until the next [sfence.vma], and before it all accesses must be complete, so a
    program that breaks one of these rules is a [Fault]. *)

From Stdlib Require Import ZifyBool.
From stdpp Require Import functions.
From S2P Require Import Prelude Riscv Ram Kalloc Vm VmProof.

(** ** Registers *)

Inductive reg :=
| Ra | Sp | Gp | Tp | T0 | T1 | T2 | S0 | S1 | A0 | A1 | A2 | A3 | A4 | A5 | A6 | A7
| S2 | S3 | S4 | S5 | S6 | S7 | S8 | S9 | S10 | S11 | T3 | T4 | T5 | T6.

#[global] Instance reg_eq_dec : EqDecision reg.
Proof. solve_decision. Defined.

Inductive csr :=
| Mhartid | Mstatus | Mepc | Sstatus | Sip | Sie | Mie | Sepc | Medeleg | Mideleg | Stvec | Mtvec
| Pmpcfg0 | Pmpaddr0 | Satp | Sscratch | Mscratch | Scause | Stval | Mcounteren | Time.

#[global] Instance csr_eq_dec : EqDecision csr.
Proof. solve_decision. Defined.

Inductive priv := Machine | Supervisor | User.

(** Whether accesses are under way, and whether translations may be stale. *)
Inductive tlb_state := Clean | Busy | Stale.

Record hw := mk_hw { regs : reg → Z; csrs : csr → Z; hram : ram; mode : priv; tlb : tlb_state }.

Definition set_reg (h : hw) (r : reg) (v : Z) : hw := mk_hw (<[r := v]> (regs h)) (csrs h) (hram h) (mode h) (tlb h).
Definition set_csr (h : hw) (c : csr) (v : Z) : hw := mk_hw (regs h) (<[c := v]> (csrs h)) (hram h) (mode h) (tlb h).
Definition set_hram (h : hw) (m : ram) : hw := mk_hw (regs h) (csrs h) m (mode h) (tlb h).
Definition set_tlb (h : hw) (t : tlb_state) : hw := mk_hw (regs h) (csrs h) (hram h) (mode h) t.

(** ** Address translation *)

(** The three entries the hardware reads for [va], the last one first. *)
Definition satp_root (satp : Z) : Z := Z.shiftl (Z.land satp (2 ^ 44 - 1)) 12.
Definition pte2 (satp va : Z) : Z := satp_root satp + 8 * PX 2 va.
Definition pte1 (m : ram) (satp va : Z) : Z := PTE2PA (ld64 m (pte2 satp va)) + 8 * PX 1 va.
Definition pte0 (m : ram) (satp va : Z) : Z := PTE2PA (ld64 m (pte1 m satp va)) + 8 * PX 0 va.

(** An entry that points to a table of the next level. *)
Definition is_node (pte : Z) : bool := has pte PTE_V && negb (has pte (Z.lor PTE_R (Z.lor PTE_W PTE_X))).

(** The physical address of [va] for an access by the kernel that needs permission
    [perm]. *)
Definition sv39 (m : ram) (satp perm va : Z) : option Z :=
  if negb ((0 <=? va) && (va <? MAXVA)) then None
  else if negb (is_node (ld64 m (pte2 satp va))) then None
  else if negb (is_node (ld64 m (pte1 m satp va))) then None
  else
    let e := ld64 m (pte0 m satp va) in
    if has e PTE_V && has e perm && negb (has e PTE_U) then Some (PTE2PA e + va mod PGSIZE) else None.

Definition translate (h : hw) (perm va : Z) : option Z :=
  match mode h with
  | Machine => Some va
  | _ => if csrs h Satp =? 0 then Some va else sv39 (hram h) (csrs h Satp) perm va
  end.

(** An access of eight bytes, which must be aligned. *)
Definition access (h : hw) (perm va : Z) : outcome Z :=
  if negb (va mod 8 =? 0) then Fault
  else
    match tlb h, translate h perm va with
    | Stale, _ => Fault
    | _, Some pa => Ok pa
    | _, None => Fault
    end.

(** ** Instructions *)

Inductive instr :=
| SD (rs : reg) (o : Z) (b : reg)
| LD (rd : reg) (o : Z) (b : reg)
| LI (rd : reg) (v : Z)
| ADDI (rd rs : reg) (v : Z)
| ADD (rd r1 r2 : reg)
| MUL (rd r1 r2 : reg)
| CSRR (rd : reg) (c : csr)
| CSRW (c : csr) (rs : reg)
| CSRRW (rd : reg) (c : csr) (rs : reg)
| SFENCE
| JR (rs : reg)
| RET
| SRET
| MRET
| CALL (f : Z).

(** How a stretch of code ends. *)
Inductive ends_in := Next | Jump (pc : Z) | Sret | Mret | Call (f : Z).

Definition step (h : hw) (i : instr) : outcome (ends_in * hw) :=
  match i with
  | SD rs o b =>
      pa ← access h PTE_W (u64 (regs h b + o));
      Ok (Next, set_tlb (set_hram h (st64 (hram h) pa (regs h rs))) Busy)
  | LD rd o b =>
      pa ← access h PTE_R (u64 (regs h b + o));
      Ok (Next, set_tlb (set_reg h rd (ld64 (hram h) pa)) Busy)
  | LI rd v => Ok (Next, set_reg h rd v)
  | ADDI rd rs v => Ok (Next, set_reg h rd (u64 (regs h rs + v)))
  | ADD rd r1 r2 => Ok (Next, set_reg h rd (u64 (regs h r1 + regs h r2)))
  | MUL rd r1 r2 => Ok (Next, set_reg h rd (u64 (regs h r1 * regs h r2)))
  | CSRR rd c => Ok (Next, set_reg h rd (csrs h c))
  | CSRW c rs =>
      if decide (c = Satp) then
        match tlb h with
        | Clean => Ok (Next, set_tlb (set_csr h Satp (regs h rs)) Stale)
        | _ => Fault
        end
      else Ok (Next, set_csr h c (regs h rs))
  | CSRRW rd c rs => Ok (Next, set_reg (set_csr h c (regs h rs)) rd (csrs h c))
  | SFENCE => Ok (Next, set_tlb h Clean)
  | JR rs => match tlb h with Stale => Fault | _ => Ok (Jump (regs h rs), h) end
  | RET => match tlb h with Stale => Fault | _ => Ok (Jump (regs h Ra), h) end
  | SRET => match tlb h with Stale => Fault | _ => Ok (Sret, h) end
  | MRET => Ok (Mret, h)
  | CALL f => Ok (Call f, h)
  end.

(** A stretch of code, up to the instruction that leaves it; the rest follows a call. *)
Fixpoint run (code : list instr) (h : hw) : outcome (ends_in * hw * list instr) :=
  match code with
  | [] => Ok (Next, h, [])
  | i :: code' =>
      '(e, h) ← step h i;
      match e with Next => run code' h | _ => Ok (e, h, code') end
  end.

(** ** [trampoline.S] *)

Definition uservec : list instr :=
  [CSRW Sscratch A0;
   LI A0 TRAPFRAME;
   SD Ra 40 A0; SD Sp 48 A0; SD Gp 56 A0; SD Tp 64 A0; SD T0 72 A0; SD T1 80 A0; SD T2 88 A0; SD S0 96 A0;
   SD S1 104 A0; SD A1 120 A0; SD A2 128 A0; SD A3 136 A0; SD A4 144 A0; SD A5 152 A0; SD A6 160 A0; SD A7 168 A0;
   SD S2 176 A0; SD S3 184 A0; SD S4 192 A0; SD S5 200 A0; SD S6 208 A0; SD S7 216 A0; SD S8 224 A0; SD S9 232 A0;
   SD S10 240 A0; SD S11 248 A0; SD T3 256 A0; SD T4 264 A0; SD T5 272 A0; SD T6 280 A0;
   CSRR T0 Sscratch;
   SD T0 112 A0;
   LD Sp 8 A0;
   LD Tp 32 A0;
   LD T0 16 A0;
   LD T1 0 A0;
   SFENCE;
   CSRW Satp T1;
   SFENCE;
   JR T0].

Definition userret : list instr :=
  [SFENCE;
   CSRW Satp A0;
   SFENCE;
   LI A0 TRAPFRAME;
   LD Ra 40 A0; LD Sp 48 A0; LD Gp 56 A0; LD Tp 64 A0; LD T0 72 A0; LD T1 80 A0; LD T2 88 A0; LD S0 96 A0;
   LD S1 104 A0; LD A1 120 A0; LD A2 128 A0; LD A3 136 A0; LD A4 144 A0; LD A5 152 A0; LD A6 160 A0; LD A7 168 A0;
   LD S2 176 A0; LD S3 184 A0; LD S4 192 A0; LD S5 200 A0; LD S6 208 A0; LD S7 216 A0; LD S8 224 A0; LD S9 232 A0;
   LD S10 240 A0; LD S11 248 A0; LD T3 256 A0; LD T4 264 A0; LD T5 272 A0; LD T6 280 A0;
   LD A0 112 A0;
   SRET].

(** ** [swtch.S]: [swtch(old, new)] *)

Definition swtch : list instr :=
  [SD Ra 0 A0; SD Sp 8 A0; SD S0 16 A0; SD S1 24 A0; SD S2 32 A0; SD S3 40 A0; SD S4 48 A0; SD S5 56 A0;
   SD S6 64 A0; SD S7 72 A0; SD S8 80 A0; SD S9 88 A0; SD S10 96 A0; SD S11 104 A0;
   LD Ra 0 A1; LD Sp 8 A1; LD S0 16 A1; LD S1 24 A1; LD S2 32 A1; LD S3 40 A1; LD S4 48 A1; LD S5 56 A1;
   LD S6 64 A1; LD S7 72 A1; LD S8 80 A1; LD S9 88 A1; LD S10 96 A1; LD S11 104 A1;
   RET].

(** ** [kernelvec.S] *)

Definition kernelvec (kerneltrap : Z) : list instr :=
  [ADDI Sp Sp (-256);
   SD Ra 0 Sp; SD Sp 8 Sp; SD Gp 16 Sp; SD Tp 24 Sp; SD T0 32 Sp; SD T1 40 Sp; SD T2 48 Sp; SD S0 56 Sp;
   SD S1 64 Sp; SD A0 72 Sp; SD A1 80 Sp; SD A2 88 Sp; SD A3 96 Sp; SD A4 104 Sp; SD A5 112 Sp; SD A6 120 Sp;
   SD A7 128 Sp; SD S2 136 Sp; SD S3 144 Sp; SD S4 152 Sp; SD S5 160 Sp; SD S6 168 Sp; SD S7 176 Sp; SD S8 184 Sp;
   SD S9 192 Sp; SD S10 200 Sp; SD S11 208 Sp; SD T3 216 Sp; SD T4 224 Sp; SD T5 232 Sp; SD T6 240 Sp;
   CALL kerneltrap;
   LD Ra 0 Sp; LD Sp 8 Sp; LD Gp 16 Sp; LD T0 32 Sp; LD T1 40 Sp; LD T2 48 Sp; LD S0 56 Sp;
   LD S1 64 Sp; LD A0 72 Sp; LD A1 80 Sp; LD A2 88 Sp; LD A3 96 Sp; LD A4 104 Sp; LD A5 112 Sp; LD A6 120 Sp;
   LD A7 128 Sp; LD S2 136 Sp; LD S3 144 Sp; LD S4 152 Sp; LD S5 160 Sp; LD S6 168 Sp; LD S7 176 Sp; LD S8 184 Sp;
   LD S9 192 Sp; LD S10 200 Sp; LD S11 208 Sp; LD T3 216 Sp; LD T4 224 Sp; LD T5 232 Sp; LD T6 240 Sp;
   ADDI Sp Sp 256;
   SRET].

Definition timervec : list instr :=
  [CSRRW A0 Mscratch A0;
   SD A1 0 A0; SD A2 8 A0; SD A3 16 A0;
   LD A1 24 A0;
   LD A2 32 A0;
   LD A3 0 A1;
   ADD A3 A3 A2;
   SD A3 0 A1;
   LI A1 2;
   CSRW Sip A1;
   LD A3 16 A0; LD A2 8 A0; LD A1 0 A0;
   CSRRW A0 Mscratch A0;
   MRET].

(** ** [entry.S] *)

Definition _entry (stack0 start : Z) : list instr :=
  [LI Sp stack0;
   LI A0 (1024 * 4);
   CSRR A1 Mhartid;
   ADDI A1 A1 1;
   MUL A0 A0 A1;
   ADD Sp Sp A0;
   CALL start].

(** ** Saving and restoring registers in assembly.

    The code of [Asm] is mostly runs of stores and loads of registers at offsets from
    a base register. A [window] is a range of virtual addresses that the page table
    maps to a range of memory, and that stays mapped when memory in [W] is written;
    in a window such a run is one map from registers to words. *)

(** ** Windows *)

Definition paged (md : priv) (satp : Z) : Prop := md ≠ Machine ∧ satp ≠ 0.

(** The entries the hardware reads to translate [va]. *)
Definition walks (m : ram) (satp va : Z) : list Z := [pte2 satp va; pte1 m satp va; pte0 m satp va].

Definition xlate (md : priv) (satp : Z) (m : ram) (perm va : Z) : option Z :=
  match md with
  | Machine => Some va
  | _ => if satp =? 0 then Some va else sv39 m satp perm va
  end.

Record window (md : priv) (satp : Z) (m : ram) (W : Z → Prop) (B P n : Z) : Prop := {
  wi_base : 0 ≤ B ∧ B + n ≤ 2 ^ 64 ∧ B mod 8 = 0;
  wi_map : ∀ o perm, 0 ≤ o → o + 8 ≤ n → o mod 8 = 0 → perm = PTE_R ∨ perm = PTE_W →
    xlate md satp m perm (B + o) = Some (P + o);
  wi_apart : paged md satp → ∀ o a w, 0 ≤ o → o + 8 ≤ n → a ∈ walks m satp (B + o) → W w → a + 8 ≤ w ∨ w + 8 ≤ a;
}.

Lemma sv39_same m m' satp perm va :
  (∀ a, a ∈ walks m satp va → ld64 m' a = ld64 m a) → sv39 m' satp perm va = sv39 m satp perm va ∧ walks m' satp va = walks m satp va.
Proof.
  intros H. assert (E2 : ld64 m' (pte2 satp va) = ld64 m (pte2 satp va)) by (apply H; left).
  assert (P1 : pte1 m' satp va = pte1 m satp va) by (unfold pte1; by rewrite E2).
  assert (E1 : ld64 m' (pte1 m satp va) = ld64 m (pte1 m satp va)) by (apply H; right; left).
  assert (P0 : pte0 m' satp va = pte0 m satp va) by (unfold pte0; by rewrite P1, E1).
  assert (E0 : ld64 m' (pte0 m satp va) = ld64 m (pte0 m satp va)) by (apply H; right; right; left).
  split; [|unfold walks; by rewrite P1, P0]. unfold sv39. by rewrite P1, P0, E2, E1, E0.
Qed.

(** A store to [W] leaves the window. *)
Lemma window_store md satp m W B P n w v :
  window md satp m W B P n → W w → window md satp (st64 m w v) W B P n.
Proof.
  intros [H1 H2 H3] Hw.
  assert (Hs : paged md satp → ∀ o perm, 0 ≤ o → o + 8 ≤ n →
    sv39 (st64 m w v) satp perm (B + o) = sv39 m satp perm (B + o) ∧ walks (st64 m w v) satp (B + o) = walks m satp (B + o)).
  { intros Hp o perm Ho Hn. apply sv39_same. intros a Ha. apply ld64_st64_ne. by apply (H3 Hp o). }
  constructor; [done|..].
  - intros o perm Ho Hn Hm Hperm. rewrite <- (H2 o perm Ho Hn Hm Hperm). unfold xlate. destruct md; [done|..].
    all: destruct (Z.eqb_spec satp 0); [done|]; by apply Hs.
  - intros Hp o a u Ho Hn. destruct (Hs Hp o PTE_R Ho Hn) as [_ ->]. by apply H3.
Qed.

Lemma access_ok h W B P n o perm :
  window (mode h) (csrs h Satp) (hram h) W B P n → tlb h ≠ Stale → 0 ≤ o → o + 8 ≤ n → o mod 8 = 0 → perm = PTE_R ∨ perm = PTE_W →
  access h perm (u64 (B + o)) = Ok (P + o).
Proof.
  intros Hwin Ht Ho Hn Hm Hp. pose proof Hwin as [[H0 [H1 H2]] H3 _]. rewrite u64_small by lia. unfold access.
  assert ((B + o) mod 8 = 0) as -> by (Z.to_euclidean_division_equations; lia). cbn [negb Z.eqb].
  change (translate h perm (B + o)) with (xlate (mode h) (csrs h Satp) (hram h) perm (B + o)). rewrite H3 by done. by destruct (tlb h).
Qed.

(** ** Runs of stores and loads *)

Definition saves (rs : list reg) (off : reg → Z) (b : reg) : list instr := (λ r, SD r (off r) b) <$> rs.
Definition loads (rs : list reg) (off : reg → Z) (b : reg) : list instr := (λ r, LD r (off r) b) <$> rs.

(** The offsets lie in the window, and the words do not overlap. *)
Record offsets (rs : list reg) (off : reg → Z) (n : Z) : Prop := {
  of_range : ∀ r, r ∈ rs → 0 ≤ off r ∧ off r + 8 ≤ n ∧ off r mod 8 = 0;
  of_apart : ∀ r r', r ∈ rs → r' ∈ rs → r ≠ r' → off r + 8 ≤ off r' ∨ off r' + 8 ≤ off r;
}.

Lemma offsets_tail r rs off n : offsets (r :: rs) off n → offsets rs off n.
Proof. intros [H1 H2]. constructor; intros; [apply H1|apply H2]; by try right. Qed.

Definition store_all (m : ram) (P : Z) (rs : list reg) (off f : reg → Z) : ram := foldl (λ m r, st64 m (P + off r) (f r)) m rs.

Lemma store_all_cons m P r rs off f : store_all m P (r :: rs) off f = store_all (st64 m (P + off r) (f r)) P rs off f.
Proof. done. Qed.

Lemma store_all_other m P rs off f a :
  (∀ r, r ∈ rs → a + 8 ≤ P + off r ∨ P + off r + 8 ≤ a) → ld64 (store_all m P rs off f) a = ld64 m a.
Proof.
  revert m. induction rs as [|r rs IH]; intros m H; [done|]. rewrite store_all_cons, IH by (intros; apply H; by right).
  apply ld64_st64_ne. apply H. by left.
Qed.

Lemma store_all_byte m P rs off f a :
  (∀ r, r ∈ rs → a < P + off r ∨ P + off r + 8 ≤ a) → ld8 (store_all m P rs off f) a = ld8 m a.
Proof.
  revert m. induction rs as [|r rs IH]; intros m H; [done|]. rewrite store_all_cons, IH by (intros; apply H; by right).
  apply ld8_st64_ne. apply H. by left.
Qed.

Lemma store_all_at m P rs off f n r :
  offsets rs off n → NoDup rs → (∀ r, 0 ≤ f r < 2 ^ 64) → r ∈ rs → ld64 (store_all m P rs off f) (P + off r) = f r.
Proof.
  intros Ho Hd Hf. revert m. induction rs as [|r' rs IH]; intros m Hr; [by apply elem_of_nil in Hr|].
  apply NoDup_cons in Hd as [Hn Hd]. rewrite store_all_cons. apply elem_of_cons in Hr as [->|Hr].
  - rewrite store_all_other; [by apply ld64_st64|]. intros r Hr. assert (r ≠ r') by (intros ->; done).
    destruct (of_apart _ _ _ Ho r r'); [by right|by left|done|lia|lia].
  - apply IH; [by eapply offsets_tail|done|done].
Qed.

Lemma window_store_all md satp m W B P n Q rs off f :
  window md satp m W B P n → (∀ r, r ∈ rs → W (Q + off r)) → window md satp (store_all m Q rs off f) W B P n.
Proof.
  revert m. induction rs as [|r rs IH]; intros m H Hin; [exact H|]. rewrite store_all_cons.
  apply IH; [|intros; apply Hin; by right]. apply window_store; [exact H|apply Hin; by left].
Qed.

Lemma run_cons i code h e h' : step h i = Ok (e, h') → run (i :: code) h = match e with Next => run code h' | _ => Ok (e, h', code) end.
Proof. intros E. cbn [run]. by rewrite E, bind_Ok. Qed.

Lemma run_saves rs off b P n W rest : ∀ h,
  window (mode h) (csrs h Satp) (hram h) W (regs h b) P n → tlb h ≠ Stale → offsets rs off n → (∀ r, r ∈ rs → W (P + off r)) →
  ∃ t, t ≠ Stale ∧ run (saves rs off b ++ rest) h = run rest (set_tlb (set_hram h (store_all (hram h) P rs off (regs h))) t) ∧
    window (mode h) (csrs h Satp) (store_all (hram h) P rs off (regs h)) W (regs h b) P n.
Proof.
  induction rs as [|r rs IH]; intros h Hw Ht Ho HW.
  { exists (tlb h). by destruct h. }
  destruct (of_range _ _ _ Ho r ltac:(by left)) as (O1 & O2 & O3).
  change (saves (r :: rs) off b ++ rest) with (SD r (off r) b :: (saves rs off b ++ rest)).
  set (h1 := set_tlb (set_hram h (st64 (hram h) (P + off r) (regs h r))) Busy).
  rewrite (run_cons _ _ h Next h1).
  2:{ cbn [step]. rewrite (access_ok h W (regs h b) P n) by auto. by rewrite bind_Ok. }
  destruct (IH h1) as (t & Ht' & E & Hw'); [by apply window_store; [|apply HW; left]|done|by eapply offsets_tail|intros; apply HW; by right|].
  exists t. done.
Qed.

Definition load_all (m : ram) (P : Z) (rs : list reg) (off : reg → Z) (f : reg → Z) : reg → Z :=
  foldl (λ f r, <[r := ld64 m (P + off r)]> f) f rs.

Lemma load_all_cons m P r rs off f : load_all m P (r :: rs) off f = load_all m P rs off (<[r := ld64 m (P + off r)]> f).
Proof. done. Qed.

Lemma load_all_ne m P rs off f r : r ∉ rs → load_all m P rs off f r = f r.
Proof.
  revert f. induction rs as [|q rs IH]; intros f Hin; [done|]. apply not_elem_of_cons in Hin as [Hq Hin].
  rewrite load_all_cons, IH by done. by rewrite fn_lookup_insert_ne.
Qed.

Lemma load_all_at m P rs off f r : r ∈ rs → load_all m P rs off f r = ld64 m (P + off r).
Proof.
  revert f. induction rs as [|r' rs IH]; intros f Hr; [by apply elem_of_nil in Hr|]. rewrite load_all_cons.
  destruct (decide (r ∈ rs)) as [Hin|Hin]; [by apply IH|]. apply elem_of_cons in Hr as [->|Hr]; [|done].
  rewrite load_all_ne by done. by rewrite fn_lookup_insert.
Qed.

Lemma run_loads rs off b P n W rest : ∀ h,
  window (mode h) (csrs h Satp) (hram h) W (regs h b) P n → tlb h ≠ Stale → offsets rs off n → b ∉ rs →
  ∃ t, t ≠ Stale ∧ run (loads rs off b ++ rest) h =
    run rest (mk_hw (load_all (hram h) P rs off (regs h)) (csrs h) (hram h) (mode h) t).
Proof.
  induction rs as [|r rs IH]; intros h Hw Ht Ho Hb.
  { exists (tlb h). by destruct h. }
  apply not_elem_of_cons in Hb as [Hbr Hb]. destruct (of_range _ _ _ Ho r ltac:(by left)) as (O1 & O2 & O3).
  change (loads (r :: rs) off b ++ rest) with (LD r (off r) b :: (loads rs off b ++ rest)).
  set (h1 := set_tlb (set_reg h r (ld64 (hram h) (P + off r))) Busy).
  rewrite (run_cons _ _ h Next h1).
  2:{ cbn [step]. rewrite (access_ok h W (regs h b) P n) by auto. by rewrite bind_Ok. }
  destruct (IH h1) as (t & Ht' & E); [|done|by eapply offsets_tail|done|by exists t].
  cbn. rewrite fn_lookup_insert_ne by done. done.
Qed.
