(* ===== verification/AsmThm.v ===== *)
(** * What the assembly code does: traps from user mode and back, kernel traps, the
    timer and context switches. *)

From Stdlib Require Import ZifyBool.
From stdpp Require Import functions.
From S2P Require Import Prelude Riscv Ram Kalloc Vm VmProof Asm.

Definition all_regs : list reg :=
  [Ra; Sp; Gp; Tp; T0; T1; T2; S0; S1; A0; A1; A2; A3; A4; A5; A6; A7; S2; S3; S4; S5; S6; S7; S8; S9; S10; S11; T3; T4; T5; T6].

(** Whether a given register is in a given list. *)
Ltac isin := apply (bool_decide_unpack _); vm_compute; exact I.

Lemma elem_of_all_regs r : r ∈ all_regs.
Proof. apply (bool_decide_unpack (r ∈ all_regs)). by destruct r. Qed.

Definition word_regs (f : reg → Z) : Prop := ∀ r, 0 ≤ f r < 2 ^ 64.

(** Decides [offsets] on a given table. *)
Definition offsets_b (rs : list reg) (off : reg → Z) (n : Z) : bool :=
  forallb (λ r, (0 <=? off r) && (off r + 8 <=? n) && (off r mod 8 =? 0)) rs &&
  forallb (λ r, forallb (λ r', bool_decide (r = r') || (off r + 8 <=? off r') || (off r' + 8 <=? off r)) rs) rs.

Lemma offsets_b_ok rs off n : offsets_b rs off n = true → offsets rs off n.
Proof.
  unfold offsets_b. intros [H1 H2]%andb_true_iff. rewrite forallb_forall in H1, H2. constructor.
  - intros r Hr%list_elem_of_In. apply H1 in Hr. lia.
  - intros r r' Hr%list_elem_of_In Hr'%list_elem_of_In Hne. apply H2 in Hr. rewrite forallb_forall in Hr. apply Hr in Hr'.
    rewrite bool_decide_eq_false_2 in Hr' by done. lia.
Qed.

(** ** Traps from user mode *)

(** Where [struct trapframe] keeps a register. *)
Definition tf_off (r : reg) : Z :=
  match r with
  | Ra => 40 | Sp => 48 | Gp => 56 | Tp => 64 | T0 => 72 | T1 => 80 | T2 => 88 | S0 => 96 | S1 => 104
  | A0 => 112 | A1 => 120 | A2 => 128 | A3 => 136 | A4 => 144 | A5 => 152 | A6 => 160 | A7 => 168
  | S2 => 176 | S3 => 184 | S4 => 192 | S5 => 200 | S6 => 208 | S7 => 216 | S8 => 224 | S9 => 232
  | S10 => 240 | S11 => 248 | T3 => 256 | T4 => 264 | T5 => 272 | T6 => 280
  end.

Definition tf_regs : list reg := [Ra; Sp; Gp; Tp; T0; T1; T2; S0; S1; A1; A2; A3; A4; A5; A6; A7; S2; S3; S4; S5; S6; S7; S8; S9; S10; S11; T3; T4; T5; T6].

Lemma tf_regs_offsets : offsets tf_regs tf_off 288.
Proof. apply offsets_b_ok. vm_compute. reflexivity. Qed.

Lemma tf_regs_nodup : NoDup tf_regs.
Proof. apply (bool_decide_unpack (NoDup tf_regs)). vm_compute. exact I. Qed.

Lemma tf_regs_all r : r = A0 ∨ r ∈ tf_regs.
Proof. destruct (decide (r = A0)); [by left|right]. apply (bool_decide_unpack (r ∈ tf_regs)). by destruct r. Qed.

(** The words of the trapframe at [tf]. *)
Definition in_tf (tf w : Z) : Prop := tf ≤ w ∧ w + 8 ≤ tf + 288.

(** [TRAPFRAME] is mapped to the trapframe at [tf] by the page table [satp]. *)
Definition tf_mapped (satp : Z) (m : ram) (tf : Z) : Prop := window Supervisor satp m (in_tf tf) TRAPFRAME tf 288.

(** The words for the kernel, in the registers [uservec] loads them into. *)
Definition kernel_off (r : reg) : Z := match r with Sp => 8 | Tp => 32 | T0 => 16 | _ => 0 end.

Lemma kernel_offsets : offsets [Sp; Tp; T0; T1] kernel_off 288.
Proof. apply offsets_b_ok. vm_compute. reflexivity. Qed.

Lemma uservec_code :
  uservec = CSRW Sscratch A0 :: LI A0 TRAPFRAME :: saves tf_regs tf_off A0 ++
    CSRR T0 Sscratch :: SD T0 112 A0 :: loads [Sp; Tp; T0; T1] kernel_off A0 ++ [SFENCE; CSRW Satp T1; SFENCE; JR T0].
Proof. reflexivity. Qed.

Lemma step_store h W P n r o b :
  window (mode h) (csrs h Satp) (hram h) W (regs h b) P n → tlb h ≠ Stale → 0 ≤ o → o + 8 ≤ n → o mod 8 = 0 →
  step h (SD r o b) = Ok (Next, set_tlb (set_hram h (st64 (hram h) (P + o) (regs h r))) Busy).
Proof. intros. cbn [step]. rewrite (access_ok h W (regs h b) P n) by auto. by rewrite bind_Ok. Qed.

Lemma step_load h W P n r o b :
  window (mode h) (csrs h Satp) (hram h) W (regs h b) P n → tlb h ≠ Stale → 0 ≤ o → o + 8 ≤ n → o mod 8 = 0 →
  step h (LD r o b) = Ok (Next, set_tlb (set_reg h r (ld64 (hram h) (P + o))) Busy).
Proof. intros. cbn [step]. rewrite (access_ok h W (regs h b) P n) by auto. by rewrite bind_Ok. Qed.

(** The memory [uservec] leaves: the registers of the process are in its trapframe. *)
Definition saved_tf (m : ram) (tf : Z) (f : reg → Z) : ram := st64 (store_all m tf tf_regs tf_off f) (tf + 112) (f A0).

Lemma saved_tf_reg m tf f r : word_regs f → ld64 (saved_tf m tf f) (tf + tf_off r) = f r.
Proof.
  intros Hf. unfold saved_tf. destruct (tf_regs_all r) as [->|Hr]; [by apply ld64_st64|].
  rewrite ld64_st64_ne; [eapply store_all_at; [exact tf_regs_offsets|exact tf_regs_nodup|done|done]|].
  assert (r ≠ A0) by (intros ->; revert Hr; isin). destruct r; cbn; (done || lia).
Qed.

Lemma saved_tf_byte m tf f a : a < tf + 40 ∨ tf + 288 ≤ a → ld8 (saved_tf m tf f) a = ld8 m a.
Proof.
  intros Ha. unfold saved_tf. rewrite ld8_st64_ne by lia. apply store_all_byte. intros r Hr.
  destruct (of_range _ _ _ tf_regs_offsets r Hr) as (? & ? & _). assert (40 ≤ tf_off r) by by destruct r. lia.
Qed.

Lemma saved_tf_word m tf f o : 0 ≤ o → o + 8 ≤ 40 → ld64 (saved_tf m tf f) (tf + o) = ld64 m (tf + o).
Proof.
  intros H0 Ho. unfold saved_tf. rewrite ld64_st64_ne by lia. apply store_all_other. intros r Hr. assert (40 ≤ tf_off r) by by destruct r. lia.
Qed.

Lemma uservec_ok h tf :
  mode h = Supervisor → tlb h ≠ Stale → tf_mapped (csrs h Satp) (hram h) tf →
  let m := saved_tf (hram h) tf (regs h) in
  ∃ h', run uservec h = Ok (Jump (ld64 m (tf + 16)), h', []) ∧ hram h' = m ∧ mode h' = Supervisor ∧ tlb h' = Clean ∧
    regs h' Sp = ld64 m (tf + 8) ∧ regs h' Tp = ld64 m (tf + 32) ∧ csrs h' = <[Satp := ld64 m (tf + 0)]> (<[Sscratch := regs h A0]> (csrs h)).
Proof.
  intros Hm Ht Hw m. rewrite uservec_code.
  rewrite (run_cons _ _ h Next (set_csr h Sscratch (regs h A0))) by done. set (h0 := set_csr h Sscratch (regs h A0)).
  rewrite (run_cons _ _ h0 Next (set_reg h0 A0 TRAPFRAME)) by done. set (h1 := set_reg h0 A0 TRAPFRAME).
  assert (Hw1 : window (mode h1) (csrs h1 Satp) (hram h1) (in_tf tf) (regs h1 A0) tf 288).
  { cbn [mode csrs hram regs h1 set_reg h0 set_csr]. rewrite Hm, fn_lookup_insert, fn_lookup_insert_ne by done. exact Hw. }
  assert (HW : ∀ r, r ∈ tf_regs → in_tf tf (tf + tf_off r)).
  { intros r Hr. destruct (of_range _ _ _ tf_regs_offsets r Hr) as (? & ? & _). unfold in_tf. lia. }
  edestruct (run_saves tf_regs tf_off A0 tf 288 (in_tf tf)) as (t & Ht1 & -> & Hw2); [exact Hw1|done|exact tf_regs_offsets|exact HW|].
  set (h2 := set_tlb _ t). set (h3 := set_reg h2 T0 (regs h A0)). rewrite (run_cons _ _ h2 Next h3).
  2:{ cbn. by rewrite fn_lookup_insert. }
  assert (Em : st64 (hram h3) (tf + 112) (regs h3 T0) = m).
  { unfold m, saved_tf. cbn. by rewrite fn_lookup_insert. }
  set (h4 := set_tlb (set_hram h3 m) Busy). rewrite (run_cons _ _ h3 Next h4).
  2:{ rewrite (step_store h3 (in_tf tf) tf 288); [by rewrite Em|exact Hw2|exact Ht1|lia|lia|done]. }
  edestruct (run_loads [Sp; Tp; T0; T1] kernel_off A0 tf 288 (in_tf tf)) as (t5 & Ht5 & ->).
  { cbn [mode csrs hram regs h4 set_tlb set_hram]. rewrite <- Em. apply window_store; [exact Hw2|unfold in_tf; lia]. }
  { done. } { exact kernel_offsets. } { isin. }
  set (h5 := mk_hw _ _ _ _ t5). assert (Er : ∀ r, r ∈ [Sp; Tp; T0; T1] → regs h5 r = ld64 m (tf + kernel_off r)).
  { intros r Hr. cbn [regs h5 hram h4 set_tlb set_hram]. by apply load_all_at. }
  assert (Ec : csrs h5 = <[Sscratch := regs h A0]> (csrs h)) by done.
  assert (Eo : hram h5 = m ∧ mode h5 = Supervisor) by done. clearbody h5.
  set (h8 := set_tlb (set_csr h5 Satp (regs h5 T1)) Clean). exists h8. split.
  { change (Ok (Jump (regs h5 T0), h8, @nil instr) = Ok (Jump (ld64 m (tf + 16)), h8, [])). by rewrite (Er T0) by isin. }
  destruct Eo as [E1 E2]. split; [done|]. split; [done|]. split; [done|]. split; [apply (Er Sp); isin|]. split; [apply (Er Tp); isin|].
  cbn. by rewrite Ec, (Er T1) by isin.
Qed.

(** ** Returns to user mode *)

Lemma userret_code :
  userret = SFENCE :: CSRW Satp A0 :: SFENCE :: LI A0 TRAPFRAME :: loads tf_regs tf_off A0 ++ [LD A0 112 A0; SRET].
Proof. reflexivity. Qed.

Lemma userret_ok h tf :
  mode h = Supervisor → tf_mapped (regs h A0) (hram h) tf →
  ∃ h', run userret h = Ok (Sret, h', []) ∧ (∀ r, regs h' r = ld64 (hram h) (tf + tf_off r)) ∧ hram h' = hram h ∧
    mode h' = Supervisor ∧ csrs h' = <[Satp := regs h A0]> (csrs h).
Proof.
  intros Hm Hw. rewrite userret_code. set (h3 := set_tlb (set_csr h Satp (regs h A0)) Clean). set (h4 := set_reg h3 A0 TRAPFRAME).
  set (code := loads tf_regs tf_off A0 ++ [LD A0 112 A0; SRET]).
  change (run (SFENCE :: CSRW Satp A0 :: SFENCE :: LI A0 TRAPFRAME :: code) h) with (run code h4). unfold code.
  assert (Hw4 : window (mode h4) (csrs h4 Satp) (hram h4) (in_tf tf) (regs h4 A0) tf 288).
  { cbn [mode csrs hram regs h4 set_reg h3 set_csr set_tlb]. rewrite Hm, !fn_lookup_insert. exact Hw. }
  edestruct (run_loads tf_regs tf_off A0 tf 288 (in_tf tf)) as (t & Ht & ->); [exact Hw4|done|exact tf_regs_offsets|isin|].
  set (h5 := mk_hw _ _ _ _ t). assert (Er : ∀ r, r ∈ tf_regs → regs h5 r = ld64 (hram h) (tf + tf_off r)).
  { intros r Hr. cbn [regs h5]. by apply load_all_at. }
  assert (Ea : regs h5 A0 = TRAPFRAME) by (cbn [regs h5]; rewrite load_all_ne by isin; done).
  set (h6 := set_tlb (set_reg h5 A0 (ld64 (hram h) (tf + 112))) Busy). rewrite (run_cons _ _ h5 Next h6).
  2:{ rewrite (step_load h5 (in_tf tf) tf 288); [done| |done|lia|lia|done]. rewrite Ea. exact Hw4. }
  exists h6. split; [done|]. split; [|done]. intros r. cbn [regs h6 set_tlb set_reg].
  destruct (tf_regs_all r) as [->|Hr]; [by rewrite fn_lookup_insert|]. rewrite fn_lookup_insert_ne by (intros <-; revert Hr; isin). by apply Er.
Qed.

(** ** Context switches *)

(** Where [struct context] keeps a register. *)
Definition ctx_off (r : reg) : Z :=
  match r with
  | Ra => 0 | Sp => 8 | S0 => 16 | S1 => 24 | S2 => 32 | S3 => 40 | S4 => 48 | S5 => 56
  | S6 => 64 | S7 => 72 | S8 => 80 | S9 => 88 | S10 => 96 | S11 => 104 | _ => 112
  end.

(** The registers a function keeps for its caller, and the return address. *)
Definition ctx_regs : list reg := [Ra; Sp; S0; S1; S2; S3; S4; S5; S6; S7; S8; S9; S10; S11].

Definition in_ctx (c w : Z) : Prop := c ≤ w ∧ w + 8 ≤ c + 112.

Lemma ctx_offsets : offsets ctx_regs ctx_off 112.
Proof. apply offsets_b_ok. vm_compute. reflexivity. Qed.

Lemma ctx_nodup : NoDup ctx_regs.
Proof. apply (bool_decide_unpack (NoDup ctx_regs)). vm_compute. exact I. Qed.

Lemma ctx_in c r : r ∈ ctx_regs → in_ctx c (c + ctx_off r).
Proof. intros Hr. destruct (of_range _ _ _ ctx_offsets r Hr) as (? & ? & _). unfold in_ctx. lia. Qed.

Lemma swtch_code : swtch = saves ctx_regs ctx_off A0 ++ loads ctx_regs ctx_off A1 ++ [RET].
Proof. reflexivity. Qed.

(** The contexts at [old] and [new] are mapped where the arguments point. *)
Record ctx_args (h : hw) (old new : Z) : Prop := {
  ca_old : window (mode h) (csrs h Satp) (hram h) (in_ctx old) (regs h A0) old 112;
  ca_new : window (mode h) (csrs h Satp) (hram h) (in_ctx old) (regs h A1) new 112;
  ca_apart : old + 112 ≤ new ∨ new + 112 ≤ old;
  ca_tlb : tlb h ≠ Stale;
}.

Lemma swtch_ok h old new :
  ctx_args h old new →
  ∃ h', run swtch h = Ok (Jump (ld64 (hram h) (new + 0)), h', []) ∧
    (∀ r, regs h' r = if decide (r ∈ ctx_regs) then ld64 (hram h) (new + ctx_off r) else regs h r) ∧
    hram h' = store_all (hram h) old ctx_regs ctx_off (regs h) ∧ csrs h' = csrs h ∧ mode h' = mode h.
Proof.
  intros [Ho Hn Hap Ht]. rewrite swtch_code.
  edestruct (run_saves ctx_regs ctx_off A0 old 112 (in_ctx old)) as (t & Ht1 & -> & _); [exact Ho|done|exact ctx_offsets|by apply ctx_in|].
  set (m := store_all (hram h) old ctx_regs ctx_off (regs h)). set (h1 := set_tlb _ t).
  edestruct (run_loads ctx_regs ctx_off A1 new 112 (in_ctx old) [RET] h1) as (t2 & Ht2 & ->); [|exact Ht1|exact ctx_offsets|isin|].
  { apply window_store_all; [exact Hn|by apply ctx_in]. }
  set (h2 := mk_hw _ _ _ _ t2).
  assert (Hw : ∀ r, r ∈ ctx_regs → ld64 m (new + ctx_off r) = ld64 (hram h) (new + ctx_off r)).
  { intros r Hr. apply store_all_other. intros r' Hr'. pose proof (ctx_in old r' Hr') as [? ?]. pose proof (ctx_in new r Hr) as [? ?]. lia. }
  assert (Hr : ∀ r, regs h2 r = if decide (r ∈ ctx_regs) then ld64 (hram h) (new + ctx_off r) else regs h r).
  { intros r. cbn [regs h2]. case_decide; [rewrite load_all_at by done; by apply Hw|by rewrite load_all_ne]. }
  exists h2. split; [|done]. assert (run [RET] h2 = Ok (Jump (regs h2 Ra), h2, [])) as ->; [|by rewrite Hr].
  cbn [run step]. change (tlb h2) with t2. by destruct t2.
Qed.

(** C16: a kernel thread that switches away resumes where it was. After
    [swtch(old, new)] left the context at [old], any later [swtch] to that context,
    from any thread on any hart, whose memory still has what was saved there, returns
    to the caller of the first one with its stack pointer and all the registers a
    function must keep as they were, and it is [new]'s return address the first one
    goes to. *)
Theorem swtch_resumes h old new :
  ctx_args h old new → word_regs (regs h) →
  ∃ h1, run swtch h = Ok (Jump (ld64 (hram h) (new + 0)), h1, []) ∧
    (∀ r, r ∈ ctx_regs → regs h1 r = ld64 (hram h) (new + ctx_off r)) ∧
    (∀ a, a < old ∨ old + 112 ≤ a → ld8 (hram h1) a = ld8 (hram h) a) ∧
    ∀ h2 c, ctx_args h2 c old → (∀ r, r ∈ ctx_regs → ld64 (hram h2) (old + ctx_off r) = ld64 (hram h1) (old + ctx_off r)) →
      ∃ h3, run swtch h2 = Ok (Jump (regs h Ra), h3, []) ∧ ∀ r, r ∈ ctx_regs → regs h3 r = regs h r.
Proof.
  intros Ha Hw. destruct (swtch_ok h old new Ha) as (h1 & E1 & Hr1 & Hm1 & _ & _). exists h1. split; [exact E1|].
  split; [intros r Hr; by rewrite Hr1, decide_True|]. split.
  { intros a Hout. rewrite Hm1. apply store_all_byte. intros r Hr. pose proof (ctx_in old r Hr) as [? ?]. lia. }
  intros h2 c Ha2 Hk. destruct (swtch_ok h2 c old Ha2) as (h3 & E3 & Hr3 & _).
  assert (Hs : ∀ r, r ∈ ctx_regs → ld64 (hram h2) (old + ctx_off r) = regs h r).
  { intros r Hr. rewrite Hk, Hm1 by done. eapply store_all_at; [exact ctx_offsets|exact ctx_nodup|done|done]. }
  exists h3. split; [|intros r Hr; by rewrite Hr3, decide_True, Hs]. rewrite E3. change (old + 0) with (old + ctx_off Ra). by rewrite Hs by isin.
Qed.

(** Without paging every range is a window. *)
Lemma window_bare md satp m W B n : ¬ paged md satp → 0 ≤ B → B + n ≤ 2 ^ 64 → B mod 8 = 0 → window md satp m W B B n.
Proof.
  intros Hp H0 H1 H2. constructor; [done| |done]. intros o perm _ _ _ _. unfold xlate. destruct md; [done|..].
  all: destruct (Z.eqb_spec satp 0); [done|]; by destruct Hp.
Qed.

(** A hart without paging whose argument registers point to two contexts. *)
Definition demo_switch (a0 a1 : Z) (m : ram) : hw :=
  mk_hw (λ r, match r with A0 => a0 | A1 => a1 | _ => 8 * ctx_off r end) (λ _, 0) m Supervisor Clean.

Lemma demo_switch_args a0 a1 m :
  0 ≤ a0 < 2 ^ 32 → 0 ≤ a1 < 2 ^ 32 → a0 mod 8 = 0 → a1 mod 8 = 0 → a0 + 112 ≤ a1 ∨ a1 + 112 ≤ a0 → ctx_args (demo_switch a0 a1 m) a0 a1.
Proof. intros. constructor; [| |done|done]; (apply window_bare; [by intros [_ H']|cbn; lia|cbn; lia|done]). Qed.

Lemma swtch_resumes_witness :
  ∃ h1, run swtch (demo_switch 0x1000 0x2000 ∅) = Ok (Jump 0, h1, []) ∧
    ∃ h3, run swtch (demo_switch 0x3000 0x1000 (hram h1)) = Ok (Jump 0, h3, []) ∧ regs h3 S11 = 832.
Proof.
  destruct (swtch_resumes (demo_switch 0x1000 0x2000 ∅) 0x1000 0x2000) as (h1 & E1 & _ & _ & H).
  - apply demo_switch_args; (lia || done).
  - intros r. destruct r; vm_compute; split; (discriminate || reflexivity).
  - exists h1. split; [exact E1|]. destruct (H (demo_switch 0x3000 0x1000 (hram h1)) 0x3000) as (h3 & E3 & Hr).
    + apply demo_switch_args; (lia || done).
    + intros r _. reflexivity.
    + exists h3. split; [exact E3|]. apply (Hr S11). isin.
Defined.

(** ** Traps from the kernel *)

Definition kv_off (r : reg) : Z :=
  match r with
  | Ra => 0 | Sp => 8 | Gp => 16 | Tp => 24 | T0 => 32 | T1 => 40 | T2 => 48 | S0 => 56 | S1 => 64
  | A0 => 72 | A1 => 80 | A2 => 88 | A3 => 96 | A4 => 104 | A5 => 112 | A6 => 120 | A7 => 128
  | S2 => 136 | S3 => 144 | S4 => 152 | S5 => 160 | S6 => 168 | S7 => 176 | S8 => 184 | S9 => 192
  | S10 => 200 | S11 => 208 | T3 => 216 | T4 => 224 | T5 => 232 | T6 => 240
  end.

Definition kv_rest : list reg :=
  [Gp; T0; T1; T2; S0; S1; A0; A1; A2; A3; A4; A5; A6; A7; S2; S3; S4; S5; S6; S7; S8; S9; S10; S11; T3; T4; T5; T6].

Definition kernelvec_tail : list instr := loads [Ra] kv_off Sp ++ LD Sp 8 Sp :: loads kv_rest kv_off Sp ++ [ADDI Sp Sp 256; SRET].

Lemma kernelvec_code f : kernelvec f = ADDI Sp Sp (-256) :: saves all_regs kv_off Sp ++ CALL f :: kernelvec_tail.
Proof. reflexivity. Qed.

Lemma kv_offsets : offsets all_regs kv_off 256.
Proof. apply offsets_b_ok. vm_compute. reflexivity. Qed.

Lemma kv_offsets_of rs : (∀ r, r ∈ rs → r ∈ all_regs) → offsets rs kv_off 256.
Proof. intros H. destruct kv_offsets as [H1 H2]. constructor; auto. Qed.

Lemma all_nodup : NoDup all_regs.
Proof. apply (bool_decide_unpack (NoDup all_regs)). vm_compute. exact I. Qed.

Definition in_frame (P w : Z) : Prop := P ≤ w ∧ w + 8 ≤ P + 256.

(** The frame below the stack pointer is mapped to [P]. *)
Definition frame_mapped (h : hw) (B P : Z) : Prop := window (mode h) (csrs h Satp) (hram h) (in_frame P) B P 256.

Lemma kernelvec_restores h P B f :
  frame_mapped h B P → regs h Sp = B → tlb h ≠ Stale → ld64 (hram h) (P + 8) = B →
  (∀ r, r ≠ Tp → r ≠ Sp → ld64 (hram h) (P + kv_off r) = f r) →
  ∃ h', run kernelvec_tail h = Ok (Sret, h', []) ∧ hram h' = hram h ∧ csrs h' = csrs h ∧
    ∀ r, regs h' r = match r with Tp => regs h Tp | Sp => u64 (B + 256) | _ => f r end.
Proof.
  intros Hw Hb Ht Hsp Hf. unfold kernelvec_tail. rewrite <- Hb in Hw.
  edestruct (run_loads [Ra] kv_off Sp P 256 (in_frame P)) as (t1 & Ht1 & ->); [exact Hw|exact Ht|apply kv_offsets_of; intros; apply elem_of_all_regs|isin|].
  set (h1 := mk_hw _ _ _ _ t1). assert (Es : regs h1 Sp = regs h Sp) by (cbn [regs h1]; rewrite load_all_ne by isin; done).
  set (h2 := set_tlb (set_reg h1 Sp B) Busy). rewrite (run_cons _ _ h1 Next h2).
  2:{ rewrite (step_load h1 (in_frame P) P 256); [cbn [hram h1]; by rewrite Hsp| |done|lia|lia|done]. rewrite Es. exact Hw. }
  edestruct (run_loads kv_rest kv_off Sp P 256 (in_frame P) [ADDI Sp Sp 256; SRET] h2) as (t3 & Ht3 & ->);
    [|done|apply kv_offsets_of; intros; apply elem_of_all_regs|isin|].
  { cbn [mode csrs hram regs h2 set_tlb set_reg h1]. rewrite fn_lookup_insert, <- Hb. exact Hw. }
  set (h3 := mk_hw _ _ _ _ t3). assert (E3 : ∀ r, regs h3 r = match r with Tp => regs h Tp | Sp => B | _ => f r end).
  { intros r. cbn [regs h3]. destruct (decide (r ∈ kv_rest)) as [Hr|Hr].
    - rewrite load_all_at by done. cbn [hram h2 set_tlb set_reg h1]. destruct r; try (apply Hf; done); exfalso; revert Hr; isin.
    - rewrite load_all_ne by done. cbn [regs h2 set_tlb set_reg h1]. destruct r; try (exfalso; apply Hr; isin).
      + rewrite fn_lookup_insert_ne, load_all_at by (done || isin). by apply Hf.
      + by rewrite fn_lookup_insert.
      + rewrite fn_lookup_insert_ne, load_all_ne by (done || isin). done. }
  set (h4 := set_reg h3 Sp (u64 (B + 256))). exists h4. split.
  { rewrite (run_cons _ _ h3 Next h4); [|cbn [step]; by rewrite (E3 Sp)]. cbn [run step]. change (tlb h4) with t3. by destruct t3. }
  split; [done|]. split; [done|]. intros r. cbn [regs h4 set_reg]. destruct (decide (r = Sp)) as [->|Hr]; [by rewrite fn_lookup_insert|].
  rewrite fn_lookup_insert_ne, E3 by done. by destruct r.
Qed.

(** C32: an interrupt of the kernel is invisible to the interrupted kernel code.
    [kernelvec] saves all registers in a frame of 256 bytes below the stack pointer and
    calls [kerneltrap] with the stack pointer at the frame; nothing above the frame
    changes. When the handler returns on the same stack with the frame as it was, on
    whatever hart, the code restores every register but the thread pointer, which
    stays that of the hart it now runs on, and ends in [sret]. *)
Theorem kernelvec_transparent kerneltrap h P :
  256 ≤ regs h Sp → word_regs (regs h) → tlb h ≠ Stale → frame_mapped h (regs h Sp - 256) P →
  ∃ h1 rest, run (kernelvec kerneltrap) h = Ok (Call kerneltrap, h1, rest) ∧ regs h1 Sp = regs h Sp - 256 ∧ csrs h1 = csrs h ∧
    (∀ a, a < P ∨ P + 256 ≤ a → ld8 (hram h1) a = ld8 (hram h) a) ∧
    ∀ h2, regs h2 Sp = regs h1 Sp → tlb h2 ≠ Stale → frame_mapped h2 (regs h1 Sp) P →
      (∀ r, ld64 (hram h2) (P + kv_off r) = ld64 (hram h1) (P + kv_off r)) →
      ∃ h3, run rest h2 = Ok (Sret, h3, []) ∧ regs h3 Tp = regs h2 Tp ∧ hram h3 = hram h2 ∧ csrs h3 = csrs h2 ∧
        ∀ r, r ≠ Tp → regs h3 r = regs h r.
Proof.
  intros Hsp Hw Ht Hm. rewrite kernelvec_code. pose proof (Hw Sp) as Hws. set (B := regs h Sp - 256) in *.
  set (h0 := set_reg h Sp B). rewrite (run_cons _ _ h Next h0).
  2:{ cbn [step]. unfold h0, B. rewrite u64_small by lia. done. }
  assert (Hin : ∀ r, r ∈ all_regs → in_frame P (P + kv_off r)).
  { intros r Hr. destruct (of_range _ _ _ kv_offsets r Hr) as (? & ? & _). unfold in_frame. lia. }
  assert (Hb : regs h0 Sp = B) by (cbn [regs h0 set_reg]; apply fn_lookup_insert).
  assert (Hm0 : window (mode h0) (csrs h0 Satp) (hram h0) (in_frame P) (regs h0 Sp) P 256) by (rewrite Hb; exact Hm).
  edestruct (run_saves all_regs kv_off Sp P 256 (in_frame P)) as (t & Ht1 & -> & _); [exact Hm0|exact Ht|exact kv_offsets|exact Hin|].
  set (h1 := set_tlb _ t). exists h1, kernelvec_tail. split; [reflexivity|]. split; [exact Hb|]. split; [reflexivity|].
  assert (Hr0 : word_regs (regs h0)).
  { intros r. cbn [regs h0 set_reg]. destruct (decide (r = Sp)) as [->|Hn]; [rewrite fn_lookup_insert; lia|rewrite fn_lookup_insert_ne by done; apply Hw]. }
  assert (Hs : ∀ r, ld64 (hram h1) (P + kv_off r) = regs h0 r).
  { intros r. eapply store_all_at; [exact kv_offsets|exact all_nodup|exact Hr0|apply elem_of_all_regs]. }
  split; [intros a Ha; apply store_all_byte; intros r Hr; destruct (Hin r Hr); lia|].
  change (regs h1 Sp) with (regs h0 Sp). rewrite Hb. intros h2 Hsp2 Ht2 Hm2 Hsame.
  destruct (kernelvec_restores h2 P B (regs h)) as (h3 & E3 & Hm3 & Hc3 & Hr3); [exact Hm2|exact Hsp2|exact Ht2|..].
  { change (P + 8) with (P + kv_off Sp). by rewrite Hsame, Hs. }
  { intros r _ Hr. rewrite Hsame, Hs. cbn [regs h0 set_reg]. by rewrite fn_lookup_insert_ne. }
  exists h3. split; [exact E3|]. split; [exact (Hr3 Tp)|]. split; [exact Hm3|]. split; [exact Hc3|].
  intros r Hr. rewrite Hr3. destruct r; try reflexivity; [|by destruct Hr]. unfold B. rewrite u64_small by lia. lia.
Qed.

Lemma kernelvec_transparent_witness :
  ∃ h1 rest, run (kernelvec 0x80004000) (set_reg (demo_switch 0 0 ∅) Sp 0x3000) = Ok (Call 0x80004000, h1, rest) ∧
    ∃ h3, run rest h1 = Ok (Sret, h3, []) ∧ regs h3 S11 = 832.
Proof.
  set (h := set_reg (demo_switch 0 0 ∅) Sp 0x3000).
  assert (Hf : ∀ g, csrs g Satp = 0 → frame_mapped g 0x2f00 0x2f00).
  { intros g E. apply window_bare; [by intros [_ H']|lia|lia|reflexivity]. }
  destruct (kernelvec_transparent 0x80004000 h 0x2f00) as (h1 & rest & E & Hsp & Hc & _ & H).
  - vm_compute. discriminate.
  - intros r. destruct r; vm_compute; split; (discriminate || reflexivity).
  - discriminate.
  - apply Hf. reflexivity.
  - exists h1, rest. split; [exact E|].
    assert (Ht : tlb h1 ≠ Stale) by (intros Ht; apply (f_equal (λ o, match o with Ok (_, g, _) => match tlb g with Stale => true | _ => false end | _ => true end)) in E; rewrite Ht in E; vm_compute in E; discriminate E).
    destruct (H h1 eq_refl Ht) as (h3 & E3 & _ & _ & _ & Hr); [rewrite Hsp; apply Hf; by rewrite Hc|reflexivity|].
    exists h3. split; [exact E3|]. apply (Hr S11). discriminate.
Defined.

(** ** The timer *)

Definition tv_off (r : reg) : Z := match r with A1 => 0 | A2 => 8 | _ => 16 end.

Lemma ld_machine h r o b :
  mode h = Machine → tlb h ≠ Stale → 0 ≤ regs h b + o < 2 ^ 64 → (regs h b + o) mod 8 = 0 →
  step h (LD r o b) = Ok (Next, set_tlb (set_reg h r (ld64 (hram h) (regs h b + o))) Busy).
Proof. intros Hm Ht Hr Ha. cbn [step]. unfold access, translate. rewrite Hm, u64_small, Ha by lia. cbn. by destruct (tlb h). Qed.

Lemma sd_machine h r o b :
  mode h = Machine → tlb h ≠ Stale → 0 ≤ regs h b + o < 2 ^ 64 → (regs h b + o) mod 8 = 0 →
  step h (SD r o b) = Ok (Next, set_tlb (set_hram h (st64 (hram h) (regs h b + o) (regs h r))) Busy).
Proof. intros Hm Ht Hr Ha. cbn [step]. unfold access, translate. rewrite Hm, u64_small, Ha by lia. cbn. by destruct (tlb h). Qed.

Definition tv_regs : list reg := [A1; A2; A3].

Lemma tv_offsets : offsets tv_regs tv_off 24.
Proof. apply offsets_b_ok. vm_compute. reflexivity. Qed.

(** Its code up to the restoring of the registers. *)
Definition tv_front (rest : list instr) : list instr :=
  CSRRW A0 Mscratch A0 :: saves tv_regs tv_off A0 ++
  LD A1 24 A0 :: LD A2 32 A0 :: LD A3 0 A1 :: ADD A3 A3 A2 :: SD A3 0 A1 :: LI A1 2 :: CSRW Sip A1 :: rest.

Lemma timervec_code : timervec = tv_front (loads [A3; A2; A1] tv_off A0 ++ [CSRRW A0 Mscratch A0; MRET]).
Proof. reflexivity. Qed.

(** The scratch area [start] sets up for this hart. *)
Record timer_area (h : hw) (sc cmp iv : Z) : Prop := {
  ta_mode : mode h = Machine;
  ta_tlb : tlb h ≠ Stale;
  ta_sc : csrs h Mscratch = sc;
  ta_range : 0 ≤ sc ∧ sc + 40 ≤ 2 ^ 64 ∧ sc mod 8 = 0;
  ta_cmp : ld64 (hram h) (sc + 24) = cmp;
  ta_cmp_range : 0 ≤ cmp ∧ cmp + 8 ≤ 2 ^ 64 ∧ cmp mod 8 = 0;
  ta_iv : ld64 (hram h) (sc + 32) = iv;
  ta_apart : cmp + 8 ≤ sc ∨ sc + 40 ≤ cmp;
}.

Lemma timer_front h sc cmp iv rest :
  timer_area h sc cmp iv →
  ∃ h', run (tv_front rest) h = run rest h' ∧ regs h' A0 = sc ∧ (∀ r, r ≠ A0 → r ∉ tv_regs → regs h' r = regs h r) ∧
    hram h' = st64 (store_all (hram h) sc tv_regs tv_off (regs h)) cmp (u64 (ld64 (hram h) cmp + iv)) ∧
    csrs h' = <[Sip := 2]> (<[Mscratch := regs h A0]> (csrs h)) ∧ mode h' = Machine ∧ tlb h' ≠ Stale.
Proof.
  intros [M T HS (R1 & R2 & R3) HC (C1 & C2 & C3) HI HA]. unfold tv_front.
  set (h0 := set_reg (set_csr h Mscratch (regs h A0)) A0 sc). rewrite (run_cons _ _ h Next h0) by (cbn [step]; by rewrite HS).
  assert (A : regs h0 A0 = sc) by (cbn [regs h0 set_reg]; apply fn_lookup_insert).
  assert (Hwin : ∀ g, mode g = Machine → window (mode g) (csrs g Satp) (hram g) (λ _, True) sc sc 24).
  { intros g ->. apply window_bare; [by intros [? _]|lia|lia|done]. }
  edestruct (run_saves tv_regs tv_off A0 sc 24 (λ _, True)) as (t & Ht & -> & _); [rewrite A; by apply Hwin|exact T|exact tv_offsets|done|].
  set (m1 := store_all (hram h0) sc tv_regs tv_off (regs h0)). set (h1 := set_tlb _ t).
  assert (Ho : ∀ a, a + 8 ≤ sc ∨ sc + 24 ≤ a → ld64 m1 a = ld64 (hram h) a).
  { intros a Ha. apply store_all_other. intros r Hr. destruct (of_range _ _ _ tv_offsets r Hr) as (? & ? & _). lia. }
  set (h2 := set_tlb (set_reg h1 A1 cmp) Busy). rewrite (run_cons _ _ h1 Next h2).
  2:{ change (regs h1) with (regs h0). rewrite ld_machine; change (regs h1) with (regs h0); rewrite ?A; [|done|done|lia|by rewrite Z.add_mod, R3 by lia].
      change (hram h1) with m1. rewrite Ho, HC by lia. done. }
  set (h3 := set_tlb (set_reg h2 A2 iv) Busy). assert (A2' : regs h2 A0 = sc) by (cbn [regs h2 set_reg set_tlb]; by rewrite fn_lookup_insert_ne).
  rewrite (run_cons _ _ h2 Next h3).
  2:{ rewrite ld_machine; rewrite ?A2'; [|done|done|lia|by rewrite Z.add_mod, R3 by lia]. change (hram h2) with m1. rewrite Ho, HI by lia. done. }
  set (v := ld64 (hram h) cmp). assert (A3' : regs h3 A1 = cmp) by (cbn [regs h3 h2 set_reg set_tlb]; rewrite fn_lookup_insert_ne by done; apply fn_lookup_insert).
  set (h4 := set_tlb (set_reg h3 A3 v) Busy). rewrite (run_cons _ _ h3 Next h4).
  2:{ rewrite ld_machine; rewrite ?A3'; [|done|done|lia|by rewrite Z.add_0_r]. change (hram h3) with m1. rewrite Z.add_0_r, Ho by lia. done. }
  set (h5 := set_reg h4 A3 (u64 (v + iv))). rewrite (run_cons _ _ h4 Next h5).
  2:{ cbn [step]. assert (regs h4 A3 = v) as -> by (cbn [regs h4 set_reg set_tlb]; apply fn_lookup_insert).
      assert (regs h4 A2 = iv) as ->; [|done]. cbn [regs h4 h3 set_reg set_tlb]. rewrite fn_lookup_insert_ne by done. apply fn_lookup_insert. }
  set (m2 := st64 m1 cmp (u64 (v + iv))). set (h6 := set_tlb (set_hram h5 m2) Busy). rewrite (run_cons _ _ h5 Next h6).
  2:{ assert (E1 : regs h5 A1 = cmp) by (cbn [regs h5 h4 set_reg set_tlb]; rewrite !fn_lookup_insert_ne by done; exact A3').
      rewrite sd_machine; rewrite ?E1; [|done|done|lia|by rewrite Z.add_0_r]. change (hram h5) with m1. rewrite Z.add_0_r.
      assert (regs h5 A3 = u64 (v + iv)) as -> by (cbn [regs h5 set_reg]; apply fn_lookup_insert). done. }
  set (h8 := set_csr (set_reg h6 A1 2) Sip 2).
  assert (Estep : run (LI A1 2 :: CSRW Sip A1 :: rest) h6 = run rest h8).
  { rewrite (run_cons _ _ h6 Next (set_reg h6 A1 2)) by done. rewrite (run_cons _ _ (set_reg h6 A1 2) Next h8); [done|].
    cbn [step]. rewrite decide_False by done. cbn [regs set_reg]. by rewrite fn_lookup_insert. }
  rewrite Estep. exists h8. split; [done|]. assert (A8 : regs h8 A0 = sc).
  { cbn [regs h8 h6 h5 h4 h3 set_csr set_reg set_tlb set_hram]. rewrite !fn_lookup_insert_ne by done. exact A2'. }
  split; [exact A8|]. split; [|done]. intros r Hr Hn. apply not_elem_of_cons in Hn as [N1 [N2 [N3 _]%not_elem_of_cons]%not_elem_of_cons].
  cbn [regs h8 h6 h5 h4 h3 h2 h1 h0 set_csr set_reg set_tlb set_hram]. by rewrite !fn_lookup_insert_ne by congruence.
Qed.

(** C33: the machine-mode timer handler. It moves the hart's compare register on by
    the interval, makes a software interrupt pending for the supervisor, and returns
    with every register and the scratch pointer as they were; beyond the compare
    register it writes only the first three words of its scratch area. *)
Theorem timervec_correct h sc cmp iv :
  timer_area h sc cmp iv → word_regs (regs h) →
  ∃ h', run timervec h = Ok (Mret, h', []) ∧ (∀ r, regs h' r = regs h r) ∧ (∀ c, csrs h' c = if decide (c = Sip) then 2 else csrs h c) ∧
    ld64 (hram h') cmp = u64 (ld64 (hram h) cmp + iv) ∧
    ∀ a, (a < cmp ∨ cmp + 8 ≤ a) → (a < sc ∨ sc + 24 ≤ a) → ld8 (hram h') a = ld8 (hram h) a.
Proof.
  intros Ha Hw. pose proof Ha as [M T HS (R1 & R2 & R3) HC (C1 & C2 & C3) HI HA]. rewrite timervec_code.
  destruct (timer_front h sc cmp iv (loads [A3; A2; A1] tv_off A0 ++ [CSRRW A0 Mscratch A0; MRET]) Ha) as (h8 & -> & A8 & Hk & Hm & Hc & Hmd & Ht).
  edestruct (run_loads [A3; A2; A1] tv_off A0 sc 24 (λ _, True)) as (t9 & _ & ->); [|exact Ht|apply offsets_b_ok; vm_compute; reflexivity|isin|].
  { rewrite A8, Hmd. apply window_bare; [by intros [? _]|lia|lia|done]. }
  set (h9 := mk_hw _ _ _ _ t9). set (m1 := store_all (hram h) sc tv_regs tv_off (regs h)) in *.
  assert (Hs : ∀ r, r ∈ tv_regs → ld64 (hram h8) (sc + tv_off r) = regs h r).
  { intros r Hr. destruct (of_range _ _ _ tv_offsets r Hr) as (? & ? & _). rewrite Hm, ld64_st64_ne by lia.
    apply (store_all_at (hram h) sc tv_regs tv_off (regs h) 24 r tv_offsets); [isin|exact Hw|exact Hr]. }
  assert (H9 : ∀ r, r ≠ A0 → regs h9 r = regs h r).
  { intros r Hr. cbn [regs h9]. destruct (decide (r ∈ [A3; A2; A1])) as [Hin|Hin].
    - rewrite load_all_at by done. apply Hs. revert Hin. unfold tv_regs. rewrite !elem_of_cons. tauto.
    - rewrite load_all_ne by done. apply Hk; [done|]. revert Hin. unfold tv_regs. rewrite !elem_of_cons. tauto. }
  assert (H9a : regs h9 A0 = sc) by (cbn [regs h9]; rewrite load_all_ne by isin; exact A8).
  set (h10 := set_reg (set_csr h9 Mscratch sc) A0 (regs h A0)). exists h10. split; [|split; [|split; [|split]]].
  - rewrite (run_cons _ _ h9 Next h10); [done|]. cbn [step]. rewrite H9a. cbn [csrs h9]. rewrite Hc, fn_lookup_insert_ne, fn_lookup_insert by done. done.
  - intros r. cbn [regs h10 set_reg set_csr]. destruct (decide (r = A0)) as [->|Hr]; [by rewrite fn_lookup_insert|].
    rewrite fn_lookup_insert_ne by done. by apply H9.
  - intros c. cbn [csrs h10 set_reg set_csr h9]. rewrite Hc. destruct (decide (c = Mscratch)) as [->|Hn]; [by rewrite fn_lookup_insert, decide_False by done|].
    rewrite (fn_lookup_insert_ne _ Mscratch) by done. case_decide as Hd; [subst; apply fn_lookup_insert|]. by rewrite !fn_lookup_insert_ne by done.
  - change (hram h10) with (hram h8). rewrite Hm. apply ld64_st64. unfold u64. apply Z.mod_pos_bound. lia.
  - intros a Hc' Hs'. change (hram h10) with (hram h8). rewrite Hm, ld8_st64_ne by lia. apply store_all_byte. intros r Hr.
    destruct (of_range _ _ _ tv_offsets r Hr) as (? & ? & _). lia.
Qed.

Lemma timervec_correct_witness :
  ∃ h', run timervec (mk_hw tf_off (λ _, 0x1000) (st64 (st64 ∅ (0x1000 + 24) 0x2000) (0x1000 + 32) 1000000) Machine Clean) = Ok (Mret, h', []) ∧
    ld64 (hram h') 0x2000 = 1000000 ∧ regs h' A0 = 112.
Proof.
  destruct (timervec_correct (mk_hw tf_off (λ _, 0x1000) (st64 (st64 ∅ (0x1000 + 24) 0x2000) (0x1000 + 32) 1000000) Machine Clean) 0x1000 0x2000 1000000)
    as (h' & E & Hr & _ & Hc & _).
  - constructor; try reflexivity; try discriminate; try lia; (split; [lia|split; [lia|reflexivity]]).
  - intros r. destruct r; vm_compute; split; (discriminate || reflexivity).
  - exists h'. split; [exact E|]. split; [exact Hc|exact (Hr A0)].
Defined.

(** ** The entry point *)

(** Each hart gets its own 4096 bytes of [stack0]. *)
Lemma entry_stack stack0 start h NCPU :
  0 ≤ csrs h Mhartid < NCPU → 0 ≤ stack0 → stack0 + 4096 * NCPU < 2 ^ 64 →
  ∃ h', run (_entry stack0 start) h = Ok (Call start, h', []) ∧ regs h' Sp = stack0 + 4096 * (csrs h Mhartid + 1) ∧
    hram h' = hram h ∧ csrs h' = csrs h.
Proof.
  intros Hh H0 H1. eexists. split; [reflexivity|]. split; [|done]. cbn. rewrite !fn_lookup_insert.
  repeat first [rewrite fn_lookup_insert_ne by done|rewrite fn_lookup_insert].
  rewrite (u64_small (csrs h Mhartid + 1)) by lia. rewrite (u64_small (1024 * 4 * _)) by lia. rewrite u64_small by lia. lia.
Qed.
