(* ===== verification/AsmTrap.v ===== *)
(** * Traps end to end: the trampoline and [trap.c] together.

    The page tables of [Vm] are what the hardware reads: a page table that is [pt_ok]
    and has the trapframe at [TRAPFRAME] gives [uservec] and [userret] their window.
    Then a timer interrupt of a running process is followed from the first instruction
    of [uservec] through [usertrap] to the scheduler, and from there, on whatever hart
    the process is resumed, through [usertrapret] to the [sret] of [userret]. *)

From Stdlib Require Import ZifyBool.
From stdpp Require Import functions.
From S2P Require Import Prelude Riscv Bio Virtio Spinlock Sched Ram Kalloc Vm VmProof Fs Printf Uart Pipe Console Kern File Proc ProcTree Exec Sysfile Syscall Trap.
From S2P Require Import Asm AsmThm.

(** ** The hardware reads the tables of [Vm] *)

Lemma land_shifted a k : 0 ≤ k < 2 ^ 10 → Z.land (u64 (Z.shiftl a 10)) k = 0.
Proof.
  intros Hk. apply Z.bits_inj'. intros n Hn. rewrite Z.land_spec, Z.bits_0. unfold u64.
  destruct (Z.lt_ge_cases n 10) as [Hl|Hg].
  - rewrite Z.mod_pow2_bits_low, Z.shiftl_spec_low by lia. done.
  - rewrite (Z.bits_above_log2 k n); [apply andb_false_r|lia|].
    destruct (Z.eq_dec k 0) as [->|]; [cbn; lia|]. assert (Z.log2 k < 10) by (apply Z.log2_lt_pow2; lia). lia.
Qed.

Lemma has_leaf pa flags k : 0 ≤ k < 2 ^ 10 → has (Z.lor (PA2PTE pa) flags) k = has flags k.
Proof. intros Hk. unfold has, PA2PTE. by rewrite Z.land_lor_distr_l, land_shifted. Qed.

Lemma satp_root_ok root : page_addr root → satp_root (MAKE_SATP root) = root.
Proof.
  intros [Hal Hr]. unfold satp_root, MAKE_SATP, SATP_SV39. change (2 ^ 44 - 1) with (Z.ones 44).
  rewrite Z.land_lor_distr_l. change (Z.land (Z.shiftl 8 60) (Z.ones 44)) with 0. rewrite Z.lor_0_l, Z.land_ones by lia.
  rewrite Z.shiftr_div_pow2, Z.shiftl_mul_pow2 by lia. unfold PGSIZE in Hal.
  rewrite Z.mod_small by (Z.to_euclidean_division_equations; lia). Z.to_euclidean_division_equations. lia.
Qed.

Lemma satp_nonzero root : MAKE_SATP root ≠ 0.
Proof.
  unfold MAKE_SATP, SATP_SV39. intros E%Z.lor_eq_0_l. discriminate E.
Qed.

Lemma node_enc p : page_addr p → is_node (enc (Some p)) = true ∧ PTE2PA (enc (Some p)) = p.
Proof.
  intros Hp. split; [|by apply enc_PTE2PA]. unfold is_node. cbn [enc]. by rewrite !has_leaf.
Qed.

(** The entries on the way to page [v] are those of [T]. *)
Lemma walk_tables m T root v o :
  pt_ok m T root → is_vpn v → is_Some (slot T v) → 0 ≤ o < PGSIZE →
  let va := v * PGSIZE + o in
  0 ≤ va < MAXVA ∧ is_node (ld64 m (pte2 (MAKE_SATP root) va)) = true ∧ is_node (ld64 m (pte1 m (MAKE_SATP root) va)) = true ∧
  ld64 m (pte0 m (MAKE_SATP root) va) = entry m T v ∧
  ∀ a, a ∈ walks m (MAKE_SATP root) va → ∃ p, p ∈ table_pages T ∧ p ≤ a ∧ a + 8 ≤ p + PGSIZE.
Proof.
  intros Hpt Hv [a Ha] Ho va. unfold slot in Ha. destruct (T !! vpath v) as [p0|] eqn:E0; [|done]. injection Ha as Ha.
  assert (Hva : 0 ≤ va < MAXVA) by (unfold va, is_vpn, PGSIZE in *; change MAXVA with (2 ^ 38); lia).
  assert (Evp : va / PGSIZE = v) by (unfold va, PGSIZE in *; Z.to_euclidean_division_equations; lia).
  destruct (PX_vpn va Hva) as (X2 & X1 & X0). rewrite Evp in *. set (i2 := v / 2 ^ 18) in *. set (i1 := v / 2 ^ 9 mod 512) in *.
  change (vpath v) with ([i2] ++ [i1]) in E0.
  destruct (pt_closed _ _ _ Hpt [i2] i1) as ([p1 E1] & Hi1 & _); [by rewrite E0|].
  destruct (pt_closed _ _ _ Hpt [] i2) as (_ & Hi2 & _); [by cbn; rewrite E1|].
  pose proof (pt_root _ _ _ Hpt) as Er. pose proof (pt_page _ _ _ Hpt _ _ Er) as Hpr.
  pose proof (pt_page _ _ _ Hpt _ _ E1) as Hp1. pose proof (pt_page _ _ _ Hpt _ _ E0) as Hp0.
  assert (P2 : pte2 (MAKE_SATP root) va = root + 8 * i2) by (unfold pte2; by rewrite satp_root_ok, X2).
  assert (L2 : ld64 m (root + 8 * i2) = enc (Some p1)) by (rewrite (pt_nodes _ _ _ Hpt [] root i2 Er) by (cbn; lia); cbn; by rewrite E1).
  destruct (node_enc p1 Hp1) as [N1 D1]. destruct (node_enc p0 Hp0) as [N0 D0].
  assert (P1 : pte1 m (MAKE_SATP root) va = p1 + 8 * i1) by (unfold pte1; by rewrite P2, L2, D1, X1).
  assert (L1 : ld64 m (p1 + 8 * i1) = enc (Some p0)) by (rewrite (pt_nodes _ _ _ Hpt [i2] p1 i1 E1) by (cbn; lia); cbn; cbn in E0; by rewrite E0).
  assert (P0 : pte0 m (MAKE_SATP root) va = p0 + 8 * (v mod 512)) by (unfold pte0; by rewrite P1, L1, D0, X0).
  split; [done|]. split; [by rewrite P2, L2|]. split; [by rewrite P1, L1|]. split.
  { rewrite P0. unfold entry, slot. change (vpath v) with ([i2] ++ [i1]). by rewrite E0. }
  intros b Hb. unfold walks in Hb. rewrite P2, P1, P0 in Hb. pose proof (Z.mod_pos_bound v 512 ltac:(lia)). unfold PGSIZE.
  assert (Himg : ∀ k p, T !! k = Some p → p ∈ table_pages T) by (intros k p E; apply elem_of_map_img; eauto).
  rewrite !elem_of_cons in Hb. destruct Hb as [->|[->|[->|Hb]]]; [exists root|exists p1|exists p0|by apply elem_of_nil in Hb]; (split; [eauto|lia]).
Qed.

(** The entry [mappages] makes for the trapframe. *)
Definition tf_entry (tf : Z) : Z := Z.lor (Z.lor (PA2PTE tf) (Z.lor PTE_R PTE_W)) PTE_V.

Lemma tf_mapped_tables m T root tf :
  pt_ok m T root → entry m T (TRAPFRAME / PGSIZE) = tf_entry tf → page_addr tf → tf ∉ table_pages T →
  tf_mapped (MAKE_SATP root) m tf.
Proof.
  intros Hpt He Htf Hn. set (v := TRAPFRAME / PGSIZE) in *. assert (Hv : is_vpn v) by (vm_compute; split; [discriminate|reflexivity]).
  assert (Hs : is_Some (slot T v)).
  { unfold entry in He. destruct (slot T v) as [a|]; [eauto|]. apply (f_equal (λ x, has x PTE_V)) in He. unfold tf_entry in He.
    rewrite <- Z.lor_assoc, has_leaf in He by done. discriminate He. }
  assert (ET : TRAPFRAME = v * PGSIZE) by (vm_compute; reflexivity).
  constructor.
  - vm_compute. split; [discriminate|]. split; [discriminate|reflexivity].
  - intros o perm H0 Ho Hm Hp. unfold xlate. destruct (Z.eqb_spec (MAKE_SATP root) 0) as [E|_]; [by apply satp_nonzero in E|].
    rewrite ET. destruct (walk_tables m T root v o Hpt Hv Hs) as (Hva & N2 & N1 & L0 & _); [unfold PGSIZE; lia|].
    unfold sv39. rewrite N2, N1, L0, He. cbn [negb]. destruct ((0 <=? v * PGSIZE + o) && (v * PGSIZE + o <? MAXVA)) eqn:Eb; [|lia]. cbn [negb].
    unfold tf_entry. rewrite <- Z.lor_assoc. destruct Htf as [Hal Hr]. rewrite !has_leaf by (destruct Hp as [-> | ->]; done).
    assert (has (Z.lor (Z.lor PTE_R PTE_W) PTE_V) perm = true) as -> by (destruct Hp as [-> | ->]; done). cbn.
    rewrite PTE2PA_PA2PTE by (done || lia). do 2 f_equal. unfold PGSIZE. Z.to_euclidean_division_equations. lia.
  - intros _ o a w H0 Ho Ha [Hw1 Hw2]. rewrite ET in Ha.
    destruct (walk_tables m T root v o Hpt Hv Hs) as (_ & _ & _ & _ & Hpg); [unfold PGSIZE; lia|].
    destruct (Hpg a Ha) as (p & Hp & Hl & Hu). assert (Hpa : page_addr p) by (apply elem_of_map_img in Hp as (k & Ek); by eapply pt_page).
    assert (p ≠ tf) by congruence. destruct (page_addr_ne p tf Hpa Htf ltac:(done)); unfold PGSIZE in *; lia.
Qed.

(** Memory with the same table pages has the same tables. *)
Lemma pt_ok_same m m' T root :
  (∀ pg a, pg ∈ table_pages T → pg ≤ a < pg + PGSIZE → ld8 m' a = ld8 m a) → pt_ok m T root →
  pt_ok m' T root ∧ ∀ v, entry m' T v = entry m T v.
Proof.
  intros Hs [P1 P2 P3 P4 P5 P6].
  assert (Hld : ∀ k p i, T !! k = Some p → 0 ≤ i < 512 → ld64 m' (p + 8 * i) = ld64 m (p + 8 * i)).
  { intros k p i Hk Hi. apply ld_le_ext. intros a Ha. apply (Hs p); [apply elem_of_map_img; eauto|unfold PGSIZE; lia]. }
  split.
  - constructor; try done. intros k p i Hk Hl Hi. rewrite (Hld k) by done. by apply P6.
  - intros v. unfold entry, slot. destruct (T !! vpath v) as [p|] eqn:E; [|done]. cbn. apply (Hld _ _ _ E). apply Z.mod_pos_bound. lia.
Qed.

(** ** A timer interrupt of a user process *)

Section trap.
Context {heap : Type} `{AL : Allocator heap}.
Context (trampoline forkret : Z) (lsr rhr : nat → Z) (pad : list Z) (kernelvec_addr uservec_addr usertrap_addr irq : Z).
Implicit Types (k : @kern heap).

Local Notation usertrap := (usertrap trampoline forkret lsr rhr pad kernelvec_addr uservec_addr usertrap_addr irq).
Local Notation usertrapret := (usertrapret trampoline uservec_addr usertrap_addr).

(** The words [usertrapret] writes in the trapframe at [tf]. *)
Definition tf_words (m : ram) (tf satp sp tp : Z) : ram :=
  st64 (st64 (st64 (st64 m (tf + 0) satp) (tf + 8) sp) (tf + 16) usertrap_addr) (tf + 32) tp.

Lemma tf_words_reg m tf satp sp tp r : ld64 (tf_words m tf satp sp tp) (tf + tf_off r) = ld64 m (tf + tf_off r).
Proof. assert (40 ≤ tf_off r) by by destruct r. unfold tf_words. by rewrite !ld64_st64_ne by lia. Qed.

Lemma tf_words_mapped s m tf satp sp tp : tf_mapped s m tf → tf_mapped s (tf_words m tf satp sp tp) tf.
Proof. intros H. unfold tf_words. do 4 (apply window_store; [|unfold in_tf; lia]). exact H. Qed.

(** Up to the switch to the scheduler. *)
Lemma usertrap_timer fuel k dk cur p (h : hart) :
  get_proc k cur = Ok p → pkilled p = 0 → Z.land (sstatus h) SSTATUS_SPP = 0 → scause h = SOFTWARE_INTR →
  ∃ k' h', usertrap fuel k dk cur h = Ok (Yielded k' dk h') ∧ get_proc k' cur = Ok (yield_enter p) ∧
    vram (kvm k') = st64 (vram (kvm k)) (trapframe p + 24) (sepc h).
Proof.
  intros Hp Hk Hspp Hsc. unfold usertrap, Trap.usertrap. rewrite Hspp. cbn [negb Z.eqb]. rewrite Hp, bind_Ok. cbn [scause w_stvec]. rewrite Hsc.
  change (SOFTWARE_INTR =? 8) with false. cbv iota. unfold devintr, external. cbn [scause w_stvec]. rewrite Hsc.
  change (negb (Z.land SOFTWARE_INTR 0x8000000000000000 =? 0) && (Z.land SOFTWARE_INTR 0xff =? 9)) with false.
  change (SOFTWARE_INTR =? SOFTWARE_INTR) with true. cbv iota. rewrite bind_Ok. cbv beta iota. change (negb (2 =? 0)) with true. cbv iota. rewrite bind_Ok. cbv beta iota.
  set (k1 := tf_set k p TF_EPC (sepc (w_stvec h kernelvec_addr))).
  set (k2 := if tp (w_stvec h kernelvec_addr) =? 0 then clockintr k1 (Some cur) else k1).
  assert (Hp2 : get_proc k2 cur = Ok p) by (unfold k2; destruct (tp _ =? 0); [by apply get_proc_wakeup|exact Hp]).
  assert (Hm2 : vram (kvm k2) = st64 (vram (kvm k)) (trapframe p + 24) (sepc h)) by (unfold k2; by destruct (tp _ =? 0)).
  unfold usertrap_finish, killed. rewrite Hp2, bind_Ok, bind_Ok, Hk. cbn [negb Z.eqb]. change (2 =? 2) with true. cbv iota.
  unfold yield. rewrite Hp2, bind_Ok. apply get_proc_ok in Hp2 as [H0 Hl]. pose proof (lookup_lt_Some _ _ _ Hl).
  assert (Es : put_proc k2 cur (yield_enter p) = Ok (with_procs k2 (<[Z.to_nat cur := yield_enter p]> (procs k2)))).
  { unfold put_proc. rewrite arr_set_in_range by (unfold zlen; lia). done. }
  rewrite Es, bind_Ok. eexists _, _. split; [done|]. split; [by apply put_get_proc in Es|exact Hm2].
Qed.

(** From the return of [yield] on. *)
Lemma usertrapret_ok k cur q (h : hart) :
  get_proc k cur = Ok q →
  ∃ k' h', usertrapret k cur h = Ok (k', h', MAKE_SATP (pagetable q)) ∧ sepc h' = tf_get k q TF_EPC ∧
    vram (kvm k') = tf_words (vram (kvm k)) (trapframe q) (satp h) (kstack q + PGSIZE) (tp h).
Proof.
  intros Hq. unfold Trap.usertrapret. rewrite Hq, bind_Ok. eexists _, _. split; [reflexivity|]. split; [|reflexivity].
  cbn [sepc w_sepc]. unfold tf_get. cbn [kvm with_vm vram with_ram tf_set].
  unfold TF_KERNEL_SATP, TF_KERNEL_SP, TF_KERNEL_TRAP, TF_KERNEL_HARTID, TF_EPC. by rewrite !(ld64_st64_ne _ _ _ (trapframe q + 24)) by lia.
Qed.

(** What the rest of the kernel leaves alone while process [p] waits for its turn: its
    page table, its trapframe, and the pages that hold them. *)
Record undisturbed (p : proc) (T : tables) (cur : Z) (k k' : @kern heap) : Prop := {
  ud_proc : ∃ q, get_proc k' cur = Ok q ∧ pagetable q = pagetable p ∧ trapframe q = trapframe p;
  ud_pages : ∀ pg a, pg = trapframe p ∨ pg ∈ table_pages T → pg ≤ a < pg + PGSIZE → ld8 (vram (kvm k')) a = ld8 (vram (kvm k)) a;
}.

(** The tables and the registers survive in the trapframe. *)
Lemma undisturbed_ok p T cur k (h : hw) k1 k2 epc :
  pt_ok (vram (kvm k)) T (pagetable p) → entry (vram (kvm k)) T (TRAPFRAME / PGSIZE) = tf_entry (trapframe p) →
  page_addr (trapframe p) → trapframe p ∉ table_pages T → word_regs (regs h) → 0 ≤ epc < 2 ^ 64 →
  vram (kvm k1) = st64 (saved_tf (vram (kvm k)) (trapframe p) (regs h)) (trapframe p + 24) epc → undisturbed p T cur k1 k2 →
  tf_mapped (MAKE_SATP (pagetable p)) (vram (kvm k2)) (trapframe p) ∧ ld64 (vram (kvm k2)) (trapframe p + 24) = epc ∧
  ∀ r, ld64 (vram (kvm k2)) (trapframe p + tf_off r) = regs h r.
Proof.
  intros Hpt He Htf Hn Hw Hepc Hm1 [_ Hpg]. set (tf := trapframe p) in *.
  assert (Hld : ∀ o, 0 ≤ o → o + 8 ≤ 288 → ld64 (vram (kvm k2)) (tf + o) = ld64 (vram (kvm k1)) (tf + o)).
  { intros o H0 Ho. apply ld_le_ext. intros a Ha. apply (Hpg tf); [by left|unfold PGSIZE; lia]. }
  destruct (pt_ok_same (vram (kvm k)) (vram (kvm k2)) T (pagetable p)) as [Hpt2 He2]; [|done|].
  { intros pg a Hin Ha. rewrite (Hpg pg) by auto. assert (Hpa : page_addr pg) by (apply elem_of_map_img in Hin as (key & Ek); by eapply pt_page).
    assert (pg ≠ tf) by congruence. pose proof (page_addr_ne pg tf Hpa Htf ltac:(done)). unfold PGSIZE in *.
    rewrite Hm1, ld8_st64_ne, saved_tf_byte by lia. done. }
  split; [|split].
  - apply (tf_mapped_tables _ T); try done. by rewrite He2.
  - rewrite Hld, Hm1 by lia. by apply ld64_st64.
  - intros r. assert (40 ≤ tf_off r ∧ tf_off r + 8 ≤ 288) by by destruct r. rewrite Hld, Hm1, ld64_st64_ne by lia. by apply saved_tf_reg.
Qed.

(** C5: a timer interrupt is invisible to the user program. The hart runs process
    [cur] on its page table, which is well formed and has its trapframe at
    [TRAPFRAME]. Then [uservec] leaves for the kernel's trap handler with the kernel's
    page table, stack and hart number from the trapframe, and [usertrap], on the memory
    [uservec] left, makes the process runnable and gives up the CPU. Whatever the
    kernel does before the process is resumed, as long as it leaves the process's page
    table and trapframe and their pages alone, and whatever hart it is resumed on:
    [usertrapret] returns, and [userret] then ends in [sret] with every register of the
    process, its page table and its program counter as they were, and with the number
    of the new hart in the trapframe for the next trap. No instruction of the
    trampoline uses a stale translation on the way. *)
Theorem interrupt_transparent fuel k dk cur p T (h : hw) (hh : hart) :
  get_proc k cur = Ok p → pkilled p = 0 →
  pt_ok (vram (kvm k)) T (pagetable p) → entry (vram (kvm k)) T (TRAPFRAME / PGSIZE) = tf_entry (trapframe p) →
  page_addr (trapframe p) → trapframe p ∉ table_pages T →
  mode h = Supervisor → tlb h ≠ Stale → word_regs (regs h) → hram h = vram (kvm k) → csrs h Satp = MAKE_SATP (pagetable p) →
  Z.land (sstatus hh) SSTATUS_SPP = 0 → scause hh = SOFTWARE_INTR → 0 ≤ sepc hh < 2 ^ 64 →
  ∃ h1, run uservec h = Ok (Jump (tf_get k p TF_KERNEL_TRAP), h1, []) ∧
    csrs h1 Satp = tf_get k p TF_KERNEL_SATP ∧ regs h1 Sp = tf_get k p TF_KERNEL_SP ∧ regs h1 Tp = tf_get k p TF_KERNEL_HARTID ∧
    ∃ k1 hh1, usertrap fuel (with_vm k (with_ram (kvm k) (hram h1))) dk cur hh = Ok (Yielded k1 dk hh1) ∧
      get_proc k1 cur = Ok (yield_enter p) ∧
      ∀ k2 hh2, undisturbed p T cur k1 k2 → 0 ≤ tp hh2 < 2 ^ 64 →
      ∃ k3 hh3 sa, usertrapret k2 cur hh2 = Ok (k3, hh3, sa) ∧ sepc hh3 = sepc hh ∧ tf_get k3 p TF_KERNEL_HARTID = tp hh2 ∧
        ∀ h2, mode h2 = Supervisor → hram h2 = vram (kvm k3) → regs h2 A0 = sa →
        ∃ h3, run userret h2 = Ok (Sret, h3, []) ∧ (∀ r, regs h3 r = regs h r) ∧ csrs h3 Satp = csrs h Satp.
Proof.
  intros Hp Hk Hpt He Htf Hn Hmd Ht Hw Hr Hs Hspp Hsc Hpc.
  pose proof (tf_mapped_tables _ _ _ _ Hpt He Htf Hn) as Hmap. rewrite <- Hr, <- Hs in Hmap.
  destruct (uservec_ok h (trapframe p) Hmd Ht Hmap) as (h1 & E & Hm & _ & _ & Hsp & Htp & Hc).
  rewrite !saved_tf_word in E, Hsp, Htp, Hc by lia. exists h1. unfold tf_get at 1 2 3 4. rewrite <- Hr. split; [exact E|].
  split; [by rewrite Hc, fn_lookup_insert|]. split; [exact Hsp|]. split; [exact Htp|].
  set (k0 := with_vm k (with_ram (kvm k) (hram h1))).
  destruct (usertrap_timer fuel k0 dk cur p hh) as (k1 & hh1 & Eu & Hp1 & Hm1); [exact Hp|done..|].
  exists k1, hh1. split; [exact Eu|]. split; [exact Hp1|]. intros k2 hh2 Hud Htp2.
  cbn [kvm k0 with_vm vram with_ram] in Hm1. rewrite Hm, Hr in Hm1.
  destruct (undisturbed_ok p T cur k h k1 k2 (sepc hh) Hpt He Htf Hn Hw Hpc Hm1 Hud) as (Hmap2 & Hepc2 & Hreg2).
  destruct Hud as [(q & Hq & Eq1 & Eq2) _]. destruct (usertrapret_ok k2 cur q hh2 Hq) as (k3 & hh3 & Er & Hpc3 & Hm3). rewrite Eq1, Eq2 in *.
  exists k3, hh3, (MAKE_SATP (pagetable p)). split; [exact Er|]. split; [rewrite Hpc3; unfold tf_get; by rewrite Eq2|].
  split; [unfold tf_get; rewrite Hm3; by apply ld64_st64|]. intros h2 Hmd2 Hr2 Ha2.
  destruct (userret_ok h2 (trapframe p) Hmd2) as (h3 & E3 & Hr3 & _ & _ & Hc3); [rewrite Ha2, Hr2, Hm3; by apply tf_words_mapped|].
  exists h3. split; [exact E3|]. split; [|by rewrite Hc3, fn_lookup_insert, Ha2]. intros r. rewrite Hr3, Hr2, Hm3, tf_words_reg. apply Hreg2.
Qed.
End trap.

(** ** Example: a page table with the trapframe only *)

Definition demo_tables : tables := <[[] := 0x10000]> (<[[255] := 0x11000]> (<[[255; 511] := 0x12000]> ∅)).

Definition demo_memory : ram :=
  st64 (st64 (st64 ∅ (0x10000 + 8 * 255) (enc (Some 0x11000))) (0x11000 + 8 * 511) (enc (Some 0x12000))) (0x12000 + 8 * 510) (tf_entry 0x20000).

Lemma ld64_empty a : ld64 ∅ a = 0.
Proof. done. Qed.

Lemma demo_tables_lookup k p : demo_tables !! k = Some p → (k = [] ∧ p = 0x10000) ∨ (k = [255] ∧ p = 0x11000) ∨ (k = [255; 511] ∧ p = 0x12000).
Proof.
  unfold demo_tables. rewrite !lookup_insert_Some. intros [[<- <-]|[_ [[<- <-]|[_ [[<- <-]|[_ H]]]]]]; [auto..|by rewrite lookup_empty in H].
Qed.

Lemma demo_tables_pt : pt_ok demo_memory demo_tables 0x10000.
Proof.
  constructor.
  - done.
  - intros k p [[-> ->]|[[-> ->]|[-> ->]]]%demo_tables_lookup; vm_compute; split; done.
  - intros k k' p [[-> ->]|[[-> ->]|[-> ->]]]%demo_tables_lookup [[-> ?]|[[-> ?]|[-> ?]]]%demo_tables_lookup; (done || lia).
  - intros k i [p [[E _]|[[E _]|[E _]]]%demo_tables_lookup]; [by destruct k|..].
    + apply (app_inj_2 k [] [i] [255]) in E as [-> [= ->]]; [|done]. split; [by eexists|]. split; [lia|cbn; lia].
    + apply (app_inj_2 k [255] [i] [511]) in E as [-> [= ->]]; [|done]. split; [by eexists|]. split; [lia|cbn; lia].
  - intros i k [p [[E _]|[[E _]|[E _]]]%demo_tables_lookup]; [done|injection E as -> _; lia..].
  - intros k p i [[-> ->]|[[-> ->]|[-> ->]]]%demo_tables_lookup Hl Hi; [..|cbn in Hl; lia]; unfold demo_memory.
    + rewrite (ld64_st64_ne _ (0x12000 + 8 * 510)), (ld64_st64_ne _ (0x11000 + 8 * 511)) by lia.
      destruct (decide (i = 255)) as [->|Hn]; [by rewrite ld64_st64 by done|]. rewrite ld64_st64_ne, ld64_empty by lia.
      assert (demo_tables !! ([] ++ [i]) = None) as ->; [|done]. unfold demo_tables. cbn [app]. by rewrite !lookup_insert_ne by congruence.
    + rewrite (ld64_st64_ne _ (0x12000 + 8 * 510)) by lia.
      destruct (decide (i = 511)) as [->|Hn]; [by rewrite ld64_st64 by done|]. rewrite !ld64_st64_ne, ld64_empty by lia.
      assert (demo_tables !! ([255] ++ [i]) = None) as ->; [|done]. unfold demo_tables. cbn [app]. by rewrite !lookup_insert_ne by congruence.
Qed.

Definition demo_trapped : @kern Buddy.buddy :=
  with_procs (with_vm demo_kern2 (with_ram (kvm demo_kern2) demo_memory)) [set_trapframe (set_pagetable zero_proc 0x10000) 0x20000].

Definition demo_hw : hw := mk_hw (λ r, tf_off r) (λ _, MAKE_SATP 0x10000) demo_memory Supervisor Busy.

(** The process is resumed on hart 2. *)
Lemma interrupt_transparent_witness :
  ∃ h1, run uservec demo_hw = Ok (Jump 0, h1, []) ∧
    ∃ k1 hh1, Trap.usertrap 0x80007000 0x80002000 (λ _, 32) (λ _, 0) [0; 0; 0; 0] 0x80003000 0x80007000 0x80004000 0 10%nat
      (with_vm demo_trapped (with_ram (kvm demo_trapped) (hram h1))) demo_disk 0 (demo_hart SOFTWARE_INTR) = Ok (Yielded k1 demo_disk hh1) ∧
    ∃ k3 hh3 sa, Trap.usertrapret 0x80007000 0x80007000 0x80004000 k1 0 (mk_hart 2 0 0 0 0 0 0 0 []) = Ok (k3, hh3, sa) ∧ sepc hh3 = 0x1000.
Proof.
  destruct (interrupt_transparent 0x80007000 0x80002000 (λ _, 32) (λ _, 0) [0; 0; 0; 0] 0x80003000 0x80007000 0x80004000 0 10%nat
    demo_trapped demo_disk 0 (set_trapframe (set_pagetable zero_proc 0x10000) 0x20000) demo_tables demo_hw (demo_hart SOFTWARE_INTR))
    as (h1 & E & _ & _ & _ & k1 & hh1 & Eu & Hp1 & Hres).
  - reflexivity.
  - reflexivity.
  - exact demo_tables_pt.
  - vm_compute. reflexivity.
  - vm_compute. split; done.
  - intros (k & Hk)%elem_of_map_img. apply demo_tables_lookup in Hk as [[_ E]|[[_ E]|[_ E]]]; discriminate E.
  - reflexivity.
  - discriminate.
  - intros r. destruct r; vm_compute; split; (discriminate || reflexivity).
  - reflexivity.
  - reflexivity.
  - reflexivity.
  - reflexivity.
  - cbn. lia.
  - exists h1. split; [exact E|]. exists k1, hh1. split; [exact Eu|].
    destruct (Hres k1 (mk_hart 2 0 0 0 0 0 0 0 [])) as (k3 & hh3 & sa & Er & Hpc & _).
    + constructor; [|reflexivity]. eexists. split; [exact Hp1|]. split; reflexivity.
    + cbn. lia.
    + exists k3, hh3, sa. split; [exact Er|exact Hpc].
Defined.
