(* ===== verification/Start.v ===== *)
(** * Start-up: [kernel/startup/start.c] and [main.c], with the accessors of
    [kernel/hardware/riscv.h] they use.

    Each hart enters [start] in machine mode, and leaves it for [main] in supervisor
    mode with its timer running. In [main] hart 0 initialises the kernel while the
    others wait for [started]. The harts of RISC-V need not see each other's stores in
    the order they were made: [main] is a step relation in which the stores of hart 0
    become visible one at a time in any order, and the other harts may work with what
    they saw earlier, except where the code has a fence. *)

From Stdlib Require Import ZifyBool.
From stdpp Require Import functions.
From S2P Require Import Prelude Riscv Ram Kalloc Vm Asm AsmThm.

(** ** Control registers *)

Definition MSTATUS_MPP_MASK : Z := Z.shiftl 3 11.
Definition MSTATUS_MPP_S : Z := Z.shiftl 1 11.
Definition MSTATUS_MIE : Z := Z.shiftl 1 3.
Definition SIE_SEIE : Z := Z.shiftl 1 9.
Definition SIE_STIE : Z := Z.shiftl 1 5.
Definition SIE_SSIE : Z := Z.shiftl 1 1.
Definition MIE_MTIE : Z := Z.shiftl 1 7.

Definition r_mhartid (h : hw) : Z := csrs h Mhartid.
Definition r_mstatus (h : hw) : Z := csrs h Mstatus.
Definition w_mstatus (h : hw) (x : Z) : hw := set_csr h Mstatus x.
Definition w_mepc (h : hw) (x : Z) : hw := set_csr h Mepc x.
Definition r_sie (h : hw) : Z := csrs h Sie.
Definition w_sie (h : hw) (x : Z) : hw := set_csr h Sie x.
Definition r_mie (h : hw) : Z := csrs h Mie.
Definition w_mie (h : hw) (x : Z) : hw := set_csr h Mie x.
Definition w_medeleg (h : hw) (x : Z) : hw := set_csr h Medeleg x.
Definition w_mideleg (h : hw) (x : Z) : hw := set_csr h Mideleg x.
Definition w_mtvec (h : hw) (x : Z) : hw := set_csr h Mtvec x.
Definition w_pmpcfg0 (h : hw) (x : Z) : hw := set_csr h Pmpcfg0 x.
Definition w_pmpaddr0 (h : hw) (x : Z) : hw := set_csr h Pmpaddr0 x.
Definition w_mscratch (h : hw) (x : Z) : hw := set_csr h Mscratch x.
Definition r_tp (h : hw) : Z := regs h Tp.
Definition w_tp (h : hw) (x : Z) : hw := set_reg h Tp x.
Definition sfence_vma (h : hw) : hw := set_tlb h Clean.

(** Turning translation off takes effect at once; a new page table is subject to the
    rules of [Asm]. *)
Definition w_satp (h : hw) (x : Z) : outcome hw :=
  if x =? 0 then Ok (set_csr h Satp 0)
  else match tlb h with Clean => Ok (set_tlb (set_csr h Satp x) Stale) | _ => Fault end.

Definition set_mode (h : hw) (p : priv) : hw := mk_hw (regs h) (csrs h) (hram h) p (tlb h).

(** [mret]: back to the mode in MPP, at [mepc]. MIE takes the value of MPIE, which is
    set, and MPP becomes user mode. *)
Definition mret (h : hw) : Z * hw :=
  let x := csrs h Mstatus in
  let p := Z.land (Z.shiftr x 11) 3 in
  let x' := Z.lor (Z.land x (Z.lnot (Z.lor MSTATUS_MPP_MASK MSTATUS_MIE)))
                  (Z.lor (Z.shiftl 1 7) (if Z.testbit x 7 then MSTATUS_MIE else 0)) in
  (csrs h Mepc, set_mode (set_csr h Mstatus x') (if p =? 0 then User else if p =? 1 then Supervisor else Machine)).

(** Words of memory in C code. *)
Definition load64 (h : hw) (a : Z) : outcome (Z * hw) :=
  pa ← access h PTE_R a; Ok (ld64 (hram h) pa, set_tlb h Busy).
Definition store64 (h : hw) (a v : Z) : outcome hw :=
  pa ← access h PTE_W a; Ok (set_tlb (set_hram h (st64 (hram h) pa v)) Busy).

(** ** [start.c] *)

Definition NCPU : Z := 8.
Definition CLINT : Z := 0x2000000.
Definition CLINT_MTIMECMP (hartid : Z) : Z := u64 (CLINT + 0x4000 + 8 * hartid).
Definition CLINT_MTIME : Z := CLINT + 0xBFF8.

Section start.
(** The symbols of the linker. *)
Context (timer_scratch main timervec : Z).

(** An element past the end of [timer_scratch] is a fault. *)
Definition timerinit (h : hw) : outcome hw :=
  let id := i32 (r_mhartid h) in
  let interval := 1000000 in
  '(t, h) ← load64 h CLINT_MTIME;
  h ← store64 h (CLINT_MTIMECMP id) (u64 (t + interval));
  if negb ((0 <=? id) && (id <? NCPU)) then Fault
  else
    let scratch := timer_scratch + 40 * id in
    h ← store64 h (scratch + 24) (CLINT_MTIMECMP id);
    h ← store64 h (scratch + 32) interval;
    let h := w_mscratch h scratch in
    let h := w_mtvec h timervec in
    let h := w_mstatus h (Z.lor (r_mstatus h) MSTATUS_MIE) in
    Ok (w_mie h (Z.lor (r_mie h) MIE_MTIE)).

(** The program counter and the state after the [mret]. *)
Definition start (h : hw) : outcome (Z * hw) :=
  let x := r_mstatus h in
  let x := Z.land x (Z.lnot MSTATUS_MPP_MASK) in
  let x := Z.lor x MSTATUS_MPP_S in
  let h := w_mstatus h x in
  let h := w_mepc h main in
  h ← w_satp h 0;
  let h := w_medeleg h 0xffff in
  let h := w_mideleg h 0xffff in
  let h := w_sie h (Z.lor (Z.lor (Z.lor (r_sie h) SIE_SEIE) SIE_STIE) SIE_SSIE) in
  let h := w_pmpaddr0 h 0x3fffffffffffff in
  let h := w_pmpcfg0 h 0xf in
  h ← timerinit h;
  let id := i32 (r_mhartid h) in
  let h := w_tp h (u64 id) in
  Ok (mret h).
End start.

(** [cpuid] of [process/proc.c]. *)
Definition cpuid (h : hw) : Z := i32 (r_tp h).

(** *** What [start] leaves behind *)

Lemma mpp_supervisor x :
  Z.land (Z.shiftr (Z.lor (Z.lor (Z.land x (Z.lnot MSTATUS_MPP_MASK)) MSTATUS_MPP_S) MSTATUS_MIE) 11) 3 = 1.
Proof.
  rewrite !Z.shiftr_lor, Z.shiftr_land, !Z.land_lor_distr_l, <- Z.land_assoc.
  change (Z.land (Z.shiftr (Z.lnot MSTATUS_MPP_MASK) 11) 3) with 0. by rewrite Z.land_0_r.
Qed.

Lemma access_machine h perm va : mode h = Machine → tlb h ≠ Stale → va mod 8 = 0 → access h perm va = Ok va.
Proof. intros Hm Ht Ha. unfold access, translate. rewrite Hm, Ha. cbn. by destruct (tlb h). Qed.

Lemma store64_machine h a v :
  mode h = Machine → tlb h ≠ Stale → a mod 8 = 0 → store64 h a v = Ok (set_tlb (set_hram h (st64 (hram h) a v)) Busy).
Proof. intros. unfold store64. by rewrite access_machine. Qed.

Lemma has_lor_l x y k : has x k = true → has (Z.lor x y) k = true.
Proof.
  unfold has. rewrite Z.land_lor_distr_l. destruct (Z.eqb_spec (Z.lor (Z.land x k) (Z.land y k)) 0) as [E|]; [|done].
  apply Z.lor_eq_0_l in E. by rewrite E.
Qed.

Lemma has_lor_r x y k : has y k = true → has (Z.lor x y) k = true.
Proof. rewrite Z.lor_comm. apply has_lor_l. Qed.

Section start_proof.
Context (timer_scratch main timervec : Z).

(** Where [timer_scratch] may lie: aligned, and away from the timer's registers. *)
Definition scratch_placed : Prop :=
  timer_scratch mod 8 = 0 ∧ CLINT + 0xC000 ≤ timer_scratch ∧ timer_scratch + 40 * NCPU ≤ 2 ^ 64.

Definition hart_scratch (id : Z) : Z := timer_scratch + 40 * id.

(** The words [timerinit] of hart [id] writes. *)
Definition timer_words (m : ram) (id : Z) : ram :=
  st64 (st64 (st64 m (CLINT_MTIMECMP id) (u64 (ld64 m CLINT_MTIME + 1000000))) (hart_scratch id + 24) (CLINT_MTIMECMP id))
    (hart_scratch id + 32) 1000000.

Lemma mtimecmp_eq id : 0 ≤ id < NCPU → CLINT_MTIMECMP id = CLINT + 0x4000 + 8 * id.
Proof. unfold NCPU, CLINT_MTIMECMP, CLINT. intros. apply u64_small. lia. Qed.

Lemma mtimecmp_place id :
  0 ≤ id < NCPU → 0 ≤ CLINT_MTIMECMP id ∧ CLINT_MTIMECMP id + 8 ≤ CLINT + 0xC000 ∧ CLINT_MTIMECMP id mod 8 = 0.
Proof. intros H. rewrite mtimecmp_eq by done. unfold NCPU, CLINT in *. Z.to_euclidean_division_equations. lia. Qed.

Lemma hart_scratch_place id :
  scratch_placed → 0 ≤ id < NCPU → CLINT + 0xC000 ≤ hart_scratch id ∧ hart_scratch id + 40 ≤ 2 ^ 64 ∧ hart_scratch id mod 8 = 0.
Proof. unfold scratch_placed, hart_scratch, NCPU. intros (A & B & C) H. Z.to_euclidean_division_equations. lia. Qed.

Lemma timerinit_ok h :
  mode h = Machine → tlb h ≠ Stale → 0 ≤ csrs h Mhartid < NCPU → scratch_placed →
  timerinit timer_scratch timervec h =
    Ok (mk_hw (regs h)
         (<[Mie := Z.lor (csrs h Mie) MIE_MTIE]> (<[Mstatus := Z.lor (csrs h Mstatus) MSTATUS_MIE]>
           (<[Mtvec := timervec]> (<[Mscratch := hart_scratch (csrs h Mhartid)]> (csrs h)))))
         (timer_words (hram h) (csrs h Mhartid)) Machine Busy).
Proof.
  intros Hm Ht Hid Hs. set (id := csrs h Mhartid) in *.
  destruct (mtimecmp_place id Hid) as (C1 & C2 & C3). destruct (hart_scratch_place id Hs Hid) as (S1 & S2 & S3).
  assert (Ei : i32 (r_mhartid h) = id) by (apply i32_small; unfold NCPU in Hid; unfold r_mhartid; fold id; lia).
  unfold timerinit. rewrite Ei. unfold load64. rewrite (access_machine h) by done. rewrite !bind_Ok. cbv beta iota zeta.
  rewrite store64_machine by (first [exact Hm | exact C3 | intros E; discriminate E]).
  rewrite bind_Ok. destruct ((0 <=? id) && (id <? NCPU)) eqn:Eb; [|lia]. cbn [negb]. fold (hart_scratch id).
  do 2 (rewrite store64_machine by (first [exact Hm | intros E; discriminate E | Z.to_euclidean_division_equations; lia]); rewrite bind_Ok).
  f_equal. unfold w_mie, w_mstatus, w_mtvec, w_mscratch, r_mie, r_mstatus, set_csr. cbn [regs csrs hram mode tlb set_tlb set_hram].
  rewrite Hm. unfold timer_words. rewrite !fn_lookup_insert_ne by done. reflexivity.
Qed.

(** C30: [start] hands every hart over to [main] in supervisor mode with its own timer
    running. From machine mode it returns to [main] with paging off, all traps delegated,
    the supervisor's interrupts and the machine timer enabled, all of physical memory
    accessible and the hart number in [tp], where [cpuid] finds it. The timer is due
    1000000 cycles from now, and when it fires the scratch area is what [timervec]
    needs. Of memory nothing is written but the hart's timer register and the two
    last words of its own scratch area, so no hart disturbs another; of the general
    registers only [tp] is set. *)
Theorem start_correct h :
  mode h = Machine → tlb h ≠ Stale → 0 ≤ csrs h Mhartid < NCPU → scratch_placed →
  let id := csrs h Mhartid in
  ∃ h', start timer_scratch main timervec h = Ok (main, h') ∧ mode h' = Supervisor ∧ csrs h' Satp = 0 ∧
    csrs h' Medeleg = 0xffff ∧ csrs h' Mideleg = 0xffff ∧ csrs h' Pmpaddr0 = 0x3fffffffffffff ∧ csrs h' Pmpcfg0 = 0xf ∧
    has (csrs h' Sie) SIE_SEIE = true ∧ has (csrs h' Sie) SIE_STIE = true ∧ has (csrs h' Sie) SIE_SSIE = true ∧
    has (csrs h' Mie) MIE_MTIE = true ∧ csrs h' Mtvec = timervec ∧ cpuid h' = id ∧ (∀ r, r ≠ Tp → regs h' r = regs h r) ∧
    ld64 (hram h') (CLINT_MTIMECMP id) = u64 (ld64 (hram h) CLINT_MTIME + 1000000) ∧
    timer_area (set_mode h' Machine) (hart_scratch id) (CLINT_MTIMECMP id) 1000000 ∧
    ∀ a, a < CLINT_MTIMECMP id ∨ CLINT_MTIMECMP id + 8 ≤ a → a < hart_scratch id + 24 ∨ hart_scratch id + 40 ≤ a →
      ld8 (hram h') a = ld8 (hram h) a.
Proof.
  intros Hm Ht Hid Hs id. destruct (mtimecmp_place id Hid) as (C1 & C2 & C3). destruct (hart_scratch_place id Hs Hid) as (S1 & S2 & S3).
  unfold start, w_satp. cbn [Z.eqb]. rewrite bind_Ok.
  match goal with |- context [timerinit _ _ ?g] => set (h0 := g) end.
  assert (E0 : csrs h0 Mhartid = id) by reflexivity.
  rewrite (timerinit_ok h0) by (first [exact Hm|exact Ht|exact Hs|rewrite E0; exact Hid]). rewrite bind_Ok, E0.
  set (h1 := mk_hw _ _ _ _ Busy).
  assert (Ei : i32 id = id) by (apply i32_small; unfold NCPU in Hid; fold id in Hid; lia).
  assert (E1 : i32 (r_mhartid h1) = id) by exact Ei. rewrite E1. unfold mret.
  assert (Est : csrs (w_tp h1 (u64 id)) Mstatus = Z.lor (Z.lor (Z.land (csrs h Mstatus) (Z.lnot MSTATUS_MPP_MASK)) MSTATUS_MPP_S) MSTATUS_MIE) by reflexivity.
  rewrite Est, mpp_supervisor. change (1 =? 0) with false. change (1 =? 1) with true. cbv iota.
  set (x := Z.lor (Z.land _ (Z.lnot (Z.lor _ _))) _). clearbody x.
  set (h2 := set_mode _ Supervisor). exists h2. repeat (split; [reflexivity|]).
  change (csrs h2 Sie) with (Z.lor (Z.lor (Z.lor (csrs h Sie) SIE_SEIE) SIE_STIE) SIE_SSIE).
  change (csrs h2 Mie) with (Z.lor (csrs h Mie) MIE_MTIE). change (hram h2) with (timer_words (hram h) id).
  split; [by do 2 apply has_lor_l; apply has_lor_r|]. split; [by apply has_lor_l, has_lor_r|]. split; [by apply has_lor_r|].
  split; [by apply has_lor_r|]. split; [reflexivity|].
  split. { unfold cpuid, r_tp. change (regs h2 Tp) with (u64 id). rewrite u64_small; [exact Ei|unfold NCPU in Hid; fold id in Hid; lia]. }
  split. { intros r Hr. by destruct r. }
  assert (Hu : ∀ z, 0 ≤ u64 z < 2 ^ 64) by (intros z; apply Z.mod_pos_bound; lia).
  split. { unfold timer_words. rewrite !ld64_st64_ne by lia. by apply ld64_st64. }
  split.
  - split; [reflexivity|intros E; discriminate E|reflexivity|unfold CLINT in *; lia| |unfold CLINT in *; lia| |lia].
    + change (ld64 (timer_words (hram h) id) (hart_scratch id + 24) = CLINT_MTIMECMP id). unfold timer_words.
      rewrite ld64_st64_ne by lia. apply ld64_st64. unfold CLINT in *. lia.
    + change (ld64 (timer_words (hram h) id) (hart_scratch id + 32) = 1000000). unfold timer_words. by apply ld64_st64.
  - intros a H1 H2. unfold timer_words. rewrite !ld8_st64_ne by lia. done.
Qed.
End start_proof.

(** Hart 3 of 8, as the emulator starts it. *)
Lemma start_correct_witness :
  ∃ h', start 0x80010000 0x80001000 0x80005000 (mk_hw (λ _, 0) (λ c, if decide (c = Mhartid) then 3 else 0) ∅ Machine Clean) =
    Ok (0x80001000, h') ∧ mode h' = Supervisor ∧ cpuid h' = 3.
Proof.
  destruct (start_correct 0x80010000 0x80001000 0x80005000 (mk_hw (λ _, 0) (λ c, if decide (c = Mhartid) then 3 else 0) ∅ Machine Clean))
    as (h' & E & M & _ & _ & _ & _ & _ & _ & _ & _ & _ & _ & C & _); [reflexivity|discriminate|split; [discriminate|reflexivity]| |].
  - split; [reflexivity|]. split; discriminate.
  - exists h'. exact (conj E (conj M C)).
Defined.

(** ** [main.c] *)

(** The calls of [main]. *)
Inductive kcall :=
| Consoleinit | Printfinit | Printf | Kinit | Kvminit | Kvminithart | Procinit | Trapinit | Trapinithart
| Plicinit | Plicinithart | Binit | Iinit | Fileinit | Virtio_disk_init | Userinit | Scheduler.

#[global] Instance kcall_eq_dec : EqDecision kcall.
Proof. solve_decision. Defined.

Inductive stmt := Do (c : kcall) | Fence | SetStarted | WaitStarted.

#[global] Instance stmt_eq_dec : EqDecision stmt.
Proof. solve_decision. Defined.

Definition main (id : Z) : list stmt :=
  (if id =? 0 then
     [Do Consoleinit; Do Printfinit; Do Printf; Do Printf; Do Printf; Do Kinit; Do Kvminit; Do Kvminithart; Do Procinit;
      Do Trapinit; Do Trapinithart; Do Plicinit; Do Plicinithart; Do Binit; Do Iinit; Do Fileinit; Do Virtio_disk_init;
      Do Userinit; Fence; SetStarted]
   else
     [WaitStarted; Fence; Do Printf; Do Kvminithart; Do Trapinithart; Do Plicinithart])
  ++ [Do Scheduler].

(** What a call writes, and the flag. *)
Inductive store := Init (c : kcall) | Started.

#[global] Instance store_eq_dec : EqDecision store.
Proof. solve_decision. Defined.

(** [pend] are the stores of hart 0 that the other harts cannot see yet, [vis] those
    they can; [seen] are the stores a hart works with, [code] is what it has still to
    do, and [did] the calls it has made. *)
Record boot := mk_boot { pend : list store; vis : list store; seen : Z → list store; code : Z → list stmt; did : Z → list kcall }.

Definition boot0 : boot := mk_boot [] [] (λ _, []) main (λ _, []).

Inductive boot_step (s : boot) : boot → Prop :=
| boot_init c r :
    code s 0 = Do c :: r →
    boot_step s (mk_boot (Init c :: pend s) (vis s) (<[0 := Init c :: seen s 0]> (seen s)) (<[0 := r]> (code s)) (<[0 := c :: did s 0]> (did s)))
| boot_set r :
    code s 0 = SetStarted :: r →
    boot_step s (mk_boot (Started :: pend s) (vis s) (seen s) (<[0 := r]> (code s)) (did s))
| boot_call i c r :
    i ≠ 0 → code s i = Do c :: r →
    boot_step s (mk_boot (pend s) (vis s) (seen s) (<[i := r]> (code s)) (<[i := c :: did s i]> (did s)))
| boot_wait i r :
    code s i = WaitStarted :: r → Started ∈ vis s →
    boot_step s (mk_boot (pend s) (vis s) (seen s) (<[i := r]> (code s)) (did s))
| boot_fence i r :
    code s i = Fence :: r → (i = 0 → pend s = []) →
    boot_step s (mk_boot (pend s) (vis s) (<[i := vis s ++ seen s i]> (seen s)) (<[i := r]> (code s)) (did s))
| boot_flush l x l' :
    pend s = l ++ x :: l' →
    boot_step s (mk_boot (l ++ l') (x :: vis s) (seen s) (code s) (did s))
| boot_see i x :
    x ∈ vis s →
    boot_step s (mk_boot (pend s) (vis s) (<[i := x :: seen s i]> (seen s)) (code s) (did s)).

(** The initialisations by hart 0 that a call relies on: [kvminit] and
    [virtio_disk_init] allocate pages, [userinit] takes a process, pages and the root
    directory, the scheduler runs processes and takes interrupts. *)
Definition needs (c : kcall) : list kcall :=
  match c with
  | Printf => [Consoleinit; Printfinit]
  | Kvminit => [Kinit]
  | Kvminithart => [Kvminit]
  | Plicinithart => [Plicinit]
  | Virtio_disk_init => [Kinit]
  | Userinit => [Kinit; Procinit; Iinit]
  | Scheduler => [Consoleinit; Printfinit; Kinit; Kvminit; Procinit; Trapinit; Plicinit; Binit; Iinit; Fileinit; Virtio_disk_init; Userinit]
  | _ => []
  end.

(** ... and what the same hart has done before. *)
Definition here (c : kcall) : list kcall :=
  match c with Scheduler => [Kvminithart; Trapinithart; Plicinithart] | _ => [] end.

(** *** The order of [main] *)

Lemma by_split (f : list stmt → list stmt → bool) l pre suf :
  forallb (λ n, f (take n l) (drop n l)) (seq 0 (S (length l))) = true → l = pre ++ suf → f pre suf = true.
Proof.
  intros H ->. rewrite forallb_forall in H. specialize (H (length pre)).
  rewrite take_app_length, drop_app_length in H. apply H. apply in_seq. rewrite length_app. lia.
Qed.

Definition starts_with (x : stmt) (l : list stmt) : bool := bool_decide (head l = Some x).
Definition has_stmt (x : stmt) (l : list stmt) : bool := bool_decide (x ∈ l).

(** The calls of hart 0 before it sets [started]. *)
Definition inits : list kcall := needs Scheduler ++ [Printf; Kvminithart; Trapinithart; Plicinithart].

Definition all_done (cs : list kcall) (l : list stmt) : bool := forallb (λ c, has_stmt (Do c) l) cs.

Lemma all_done_spec cs l : all_done cs l = true → ∀ c, c ∈ cs → Do c ∈ l.
Proof.
  unfold all_done. rewrite forallb_forall. intros H c Hc. specialize (H c). rewrite <- list_elem_of_In in H.
  apply H in Hc. by apply bool_decide_eq_true in Hc.
Qed.

(** Whether a call finds what it needs among the statements before it. *)
Definition call_ok (cs : kcall → list kcall) (pre suf : list stmt) : bool :=
  match suf with Do c :: _ => all_done (cs c) pre | _ => true end.

Lemma main_other i : i ≠ 0 → main i = main 1.
Proof. intros H. unfold main. destruct (Z.eqb_spec i 0); done. Qed.

Lemma main_call0 pre c r cs :
  cs = needs ∨ cs = here → main 0 = pre ++ Do c :: r → ∀ d, d ∈ cs c → Do d ∈ pre.
Proof.
  intros Hcs E. apply all_done_spec. change (call_ok cs pre (Do c :: r) = true). revert E. apply by_split.
  by destruct Hcs as [-> | ->]; vm_compute.
Qed.

Lemma main_call i pre c r : i ≠ 0 → main i = pre ++ Do c :: r → Fence ∉ Do c :: r ∧ ∀ d, d ∈ here c → Do d ∈ pre.
Proof.
  intros Hi E. rewrite (main_other i Hi) in E. split.
  - intros H. assert (B : match Do c :: r with Do _ :: _ => negb (has_stmt Fence (Do c :: r)) | _ => true end = true)
      by (exact (by_split (λ _ l, match l with Do _ :: _ => negb (has_stmt Fence l) | _ => true end) (main 1) _ _ ltac:(by vm_compute) E)).
    unfold has_stmt in B. by rewrite bool_decide_eq_true_2 in B.
  - apply all_done_spec. change (call_ok here pre (Do c :: r) = true). revert E. by apply by_split; vm_compute.
Qed.

Lemma main_fence0 pre r : main 0 = pre ++ Fence :: r → ∀ d, d ∈ inits → Do d ∈ pre.
Proof.
  intros E. apply all_done_spec. change (match Fence :: r with Fence :: _ => all_done inits pre | _ => true end = true). revert E.
  exact (λ E, by_split (λ pre l, match l with Fence :: _ => all_done inits pre | _ => true end) (main 0) _ _ ltac:(by vm_compute) E).
Qed.

(** A later statement is not reached before an earlier one. *)
Lemma main_order i x y pre l :
  forallb (λ n, has_stmt y (drop n (main i)) || negb (has_stmt x (drop n (main i)))) (seq 0 (S (length (main i)))) = true →
  main i = pre ++ l → y ∉ l → x ∉ l.
Proof.
  intros Hc E Hy Hx. pose proof (by_split (λ _ l, has_stmt y l || negb (has_stmt x l)) _ _ _ Hc E) as B. unfold has_stmt in B.
  by rewrite (bool_decide_eq_false_2 (y ∈ l)), (bool_decide_eq_true_2 (x ∈ l)) in B.
Qed.

(** A statement occurs only once. *)
Lemma main_once i x pre l :
  forallb (λ n, negb (starts_with x (drop n (main i)) && has_stmt x (tail (drop n (main i))))) (seq 0 (S (length (main i)))) = true →
  main i = pre ++ x :: l → x ∉ l.
Proof.
  intros Hc E Hx. pose proof (by_split (λ _ l, negb (starts_with x l && has_stmt x (tail l))) _ _ _ Hc E) as B.
  unfold starts_with, has_stmt in B. cbn in B. by rewrite bool_decide_eq_true_2, bool_decide_eq_true_2 in B.
Qed.

(** *** The invariant *)

Definition published (s : boot) : Prop := ∀ d, d ∈ inits → Init d ∈ vis s.

Record boot_ok (s : boot) : Prop := {
  bk_code : ∀ i, ∃ pre, main i = pre ++ code s i ∧ ∀ d, Do d ∈ pre →
    d ∈ did s i ∧ (i = 0 → Init d ∈ seen s 0 ∧ (Init d ∈ pend s ∨ Init d ∈ vis s));
  bk_fence : Fence ∉ code s 0 → published s;
  bk_started : Started ∈ pend s ∨ Started ∈ vis s ↔ SetStarted ∉ code s 0;
  bk_seen : ∀ i, i ≠ 0 → (WaitStarted ∉ code s i → published s) ∧
    (Fence ∉ code s i → ∀ d, d ∈ inits → Init d ∈ seen s i);
}.

(** One hart passes a statement; what is recorded only grows. *)
Lemma code_advance s s' i x r :
  boot_ok s → code s i = x :: r → code s' = <[i := r]> (code s) →
  (∀ j c, c ∈ did s j → c ∈ did s' j) → (∀ y, y ∈ seen s 0 → y ∈ seen s' 0) →
  (∀ y, y ∈ pend s ∨ y ∈ vis s → y ∈ pend s' ∨ y ∈ vis s') →
  (∀ c, x = Do c → c ∈ did s' i ∧ (i = 0 → Init c ∈ seen s' 0 ∧ (Init c ∈ pend s' ∨ Init c ∈ vis s'))) →
  ∀ j, ∃ pre, main j = pre ++ code s' j ∧ ∀ d, Do d ∈ pre →
    d ∈ did s' j ∧ (j = 0 → Init d ∈ seen s' 0 ∧ (Init d ∈ pend s' ∨ Init d ∈ vis s')).
Proof.
  intros Hok Ec Ec' Hd Hs Hv Hx j. destruct (bk_code s Hok j) as (pre & Em & Hp).
  assert (Hold : ∀ d, Do d ∈ pre → d ∈ did s' j ∧ (j = 0 → Init d ∈ seen s' 0 ∧ (Init d ∈ pend s' ∨ Init d ∈ vis s'))).
  { intros d Hin. destruct (Hp d Hin) as [A B]. split; [by apply Hd|]. intros E. destruct (B E) as [B1 B2]. split; [by apply Hs|by apply Hv]. }
  destruct (decide (j = i)) as [->|Hne].
  - exists (pre ++ [x]). rewrite Ec', fn_lookup_insert, <- app_assoc, Em, Ec. split; [done|].
    intros d [Hin|Hin]%elem_of_app; [by apply Hold|]. apply list_elem_of_singleton in Hin. by apply Hx.
  - exists pre. rewrite Ec', fn_lookup_insert_ne by done. by split.
Qed.

(** ... or none does. *)
Lemma code_same s s' :
  boot_ok s → code s' = code s → did s' = did s → (∀ y, y ∈ seen s 0 → y ∈ seen s' 0) →
  (∀ y, y ∈ pend s ∨ y ∈ vis s → y ∈ pend s' ∨ y ∈ vis s') →
  ∀ j, ∃ pre, main j = pre ++ code s' j ∧ ∀ d, Do d ∈ pre →
    d ∈ did s' j ∧ (j = 0 → Init d ∈ seen s' 0 ∧ (Init d ∈ pend s' ∨ Init d ∈ vis s')).
Proof.
  intros Hok Ec Ed Hs Hv j. destruct (bk_code s Hok j) as (pre & Em & Hp). exists pre. rewrite Ec, Ed. split; [done|].
  intros d Hin. destruct (Hp d Hin) as [A B]. split; [done|]. intros E. destruct (B E) as [B1 B2]. split; [by apply Hs|by apply Hv].
Qed.

(** A statement other than [x] is passed by hart [i]: whether [x] is still to come
    does not change. *)
Lemma ahead_insert (f : Z → list stmt) i j x y r :
  f i = y :: r → x ≠ y → (x ∉ (<[i := r]> f) j ↔ x ∉ f j).
Proof.
  intros E Hne. destruct (decide (j = i)) as [->|Hj].
  - rewrite fn_lookup_insert, E. rewrite not_elem_of_cons. naive_solver.
  - by rewrite fn_lookup_insert_ne.
Qed.

Lemma boot0_ok : boot_ok boot0.
Proof.
  split; cbn [boot0 code pend vis seen did].
  - intros i. exists []. split; [done|]. intros d H. by apply not_elem_of_nil in H.
  - intros H. exfalso. apply H. by apply (bool_decide_unpack _); vm_compute.
  - split; [by intros [H|H]; apply not_elem_of_nil in H|]. intros H. exfalso. apply H. by apply (bool_decide_unpack _); vm_compute.
  - intros i Hi. rewrite (main_other i Hi). split; intros H; exfalso; apply H; by apply (bool_decide_unpack _); vm_compute.
Qed.

Lemma started_published s : boot_ok s → Started ∈ vis s → published s.
Proof.
  intros Hok Hs. apply (bk_fence s Hok). destruct (bk_code s Hok 0) as (pre & Em & _).
  eapply (main_order 0 Fence SetStarted pre); [by vm_compute|exact Em|]. apply (bk_started s Hok). by right.
Qed.

Lemma fence_waited i pre r : i ≠ 0 → main i = pre ++ Fence :: r → WaitStarted ∉ Fence :: r.
Proof.
  intros Hi E Hw. rewrite (main_other i Hi) in E.
  pose proof (by_split (λ _ l, negb (starts_with Fence l && has_stmt WaitStarted l)) (main 1) _ _ ltac:(by vm_compute) E) as B.
  unfold starts_with, has_stmt in B. cbn [head] in B. by rewrite bool_decide_eq_true_2, bool_decide_eq_true_2 in B.
Qed.

Lemma wait_not_zero s i r : boot_ok s → code s i = WaitStarted :: r → i ≠ 0.
Proof.
  intros Hok E ->. destruct (bk_code s Hok 0) as (pre & Em & _). rewrite E in Em.
  assert (H : WaitStarted ∈ main 0) by (rewrite Em; apply elem_of_app; right; apply list_elem_of_here).
  revert H. by apply (bool_decide_unpack _); vm_compute.
Qed.

Lemma fence_ok s i r :
  boot_ok s → code s i = Fence :: r → (i = 0 → pend s = []) →
  boot_ok (mk_boot (pend s) (vis s) (<[i := vis s ++ seen s i]> (seen s)) (<[i := r]> (code s)) (did s)).
Proof.
  intros Hok Ec Hp.
  split; [|cbn [code pend vis seen did]..].
  - apply (code_advance s _ i Fence r Hok Ec); cbn [code pend vis seen did]; [done|done| |done|discriminate].
    intros y Hy. destruct (decide (i = 0)) as [->|]; [rewrite fn_lookup_insert; set_solver|by rewrite fn_lookup_insert_ne].
  - destruct (decide (i = 0)) as [->|]; [|rewrite fn_lookup_insert_ne by done; apply (bk_fence s Hok)].
    intros _ d Hd. destruct (bk_code s Hok 0) as (pre & Em & Hpre). rewrite Ec in Em.
    destruct (Hpre d (main_fence0 _ _ Em d Hd)) as [_ H]. destruct (H eq_refl) as [_ [H'|H']]; [|exact H'].
    rewrite Hp in H' by done. by apply not_elem_of_nil in H'.
  - rewrite (ahead_insert _ _ _ _ _ _ Ec) by done. apply (bk_started s Hok).
  - intros j Hj. rewrite (ahead_insert _ _ _ WaitStarted _ _ Ec) by done. destruct (bk_seen s Hok j Hj) as [A B]. split; [exact A|].
    destruct (decide (j = i)) as [->|]; [|rewrite !fn_lookup_insert_ne by done; exact B].
    intros _ d Hd. rewrite fn_lookup_insert. apply elem_of_app. left. apply A; [|exact Hd].
    destruct (bk_code s Hok i) as (pre & Em & _). rewrite Ec in *. by eapply fence_waited.
Qed.

Lemma flush_ok s l x l' :
  boot_ok s → pend s = l ++ x :: l' → boot_ok (mk_boot (l ++ l') (x :: vis s) (seen s) (code s) (did s)).
Proof.
  intros Hok Ep.
  assert (Hset : ∀ y, y ∈ pend s ∨ y ∈ vis s ↔ y ∈ l ++ l' ∨ y ∈ x :: vis s) by (intros y; rewrite Ep; set_solver).
  split; [|cbn [code pend vis seen did]..].
  - apply (code_same s _ Hok); cbn [code pend vis seen did]; [done|done|done|]. intros y. apply Hset.
  - intros H d Hd. apply list_elem_of_further. by apply (bk_fence s Hok).
  - rewrite <- Hset. apply (bk_started s Hok).
  - intros j Hj. destruct (bk_seen s Hok j Hj) as [A B]. split; [|exact B]. intros H d Hd. apply list_elem_of_further. by apply A.
Qed.

Lemma see_ok s i x :
  boot_ok s → x ∈ vis s → boot_ok (mk_boot (pend s) (vis s) (<[i := x :: seen s i]> (seen s)) (code s) (did s)).
Proof.
  intros Hok Hx.
  assert (Hsub : ∀ j y, y ∈ seen s j → y ∈ (<[i := x :: seen s i]> (seen s)) j).
  { intros j y Hy. destruct (decide (j = i)) as [->|]; [rewrite fn_lookup_insert; by apply list_elem_of_further|by rewrite fn_lookup_insert_ne]. }
  split; [|cbn [code pend vis seen did]..].
  - apply (code_same s _ Hok); cbn [code pend vis seen did]; [done|done|apply Hsub|done].
  - apply (bk_fence s Hok).
  - apply (bk_started s Hok).
  - intros j Hj. destruct (bk_seen s Hok j Hj) as [A B]. split; [exact A|]. intros H d Hd. apply Hsub. by apply B.
Qed.

Lemma boot_step_ok s s' : boot_ok s → boot_step s s' → boot_ok s'.
Proof.
  intros Hok [c r Ec|r Ec|i c r Hi Ec|i r Ec Hs|i r Ec Hp|l x l' Ep|i x Hx].
  - split; [|cbn [code pend vis seen did]..].
    + apply (code_advance s _ 0 (Do c) r Hok Ec); cbn [code pend vis seen did]; [done|..].
      * intros j d Hd. destruct (decide (j = 0)) as [->|]; [rewrite fn_lookup_insert; by apply list_elem_of_further|by rewrite fn_lookup_insert_ne].
      * intros y Hy. rewrite fn_lookup_insert. by apply list_elem_of_further.
      * set_solver.
      * intros d [= ->]. rewrite !fn_lookup_insert. set_solver.
    + rewrite (ahead_insert _ _ _ _ _ _ Ec) by done. apply (bk_fence s Hok).
    + rewrite (ahead_insert _ _ _ _ _ _ Ec) by done. rewrite <- (bk_started s Hok), elem_of_cons. naive_solver.
    + intros j Hj. rewrite !fn_lookup_insert_ne by done. exact (bk_seen s Hok j Hj).
  - split; [|cbn [code pend vis seen did]..].
    + apply (code_advance s _ 0 SetStarted r Hok Ec); cbn [code pend vis seen did]; [done|done|done|set_solver|discriminate].
    + rewrite (ahead_insert _ _ _ _ _ _ Ec) by done. apply (bk_fence s Hok).
    + split; [|set_solver]. intros _. rewrite fn_lookup_insert. destruct (bk_code s Hok 0) as (pre & Em & _). rewrite Ec in Em.
      eapply main_once; [|exact Em]. by vm_compute.
    + intros j Hj. rewrite !fn_lookup_insert_ne by done. exact (bk_seen s Hok j Hj).
  - split; [|cbn [code pend vis seen did]..].
    + apply (code_advance s _ i (Do c) r Hok Ec); cbn [code pend vis seen did]; [done|..]; [|done|done|].
      * intros j d Hd. destruct (decide (j = i)) as [->|]; [rewrite fn_lookup_insert; by apply list_elem_of_further|by rewrite fn_lookup_insert_ne].
      * intros d [= ->]. rewrite fn_lookup_insert. split; [apply list_elem_of_here|done].
    + rewrite fn_lookup_insert_ne by done. apply (bk_fence s Hok).
    + rewrite fn_lookup_insert_ne by done. apply (bk_started s Hok).
    + intros j Hj. rewrite !(ahead_insert _ _ _ _ _ _ Ec) by done. exact (bk_seen s Hok j Hj).
  - pose proof (wait_not_zero s i r Hok Ec) as Hi. split; [|cbn [code pend vis seen did]..].
    + by apply (code_advance s _ i WaitStarted r Hok Ec).
    + rewrite fn_lookup_insert_ne by done. apply (bk_fence s Hok).
    + rewrite fn_lookup_insert_ne by done. apply (bk_started s Hok).
    + intros j Hj. split; [intros _; exact (started_published s Hok Hs)|]. rewrite (ahead_insert _ _ _ _ _ _ Ec) by done. apply (bk_seen s Hok j Hj).
  - by apply fence_ok.
  - by apply flush_ok.
  - by apply see_ok.
Qed.

Lemma boot_reach_ok s : rtc boot_step boot0 s → boot_ok s.
Proof.
  intros H. remember boot0 as s0 eqn:E0. assert (Hok : boot_ok s0) by (rewrite E0; exact boot0_ok). clear E0.
  induction H as [|s0 s1 s2 Hs _ IH]; [exact Hok|]. apply IH. by eapply boot_step_ok.
Qed.

(** *** Every hart gets through *)

Lemma flush_all s :
  ∃ s', rtc boot_step s s' ∧ pend s' = [] ∧ code s' = code s ∧ (∀ x, x ∈ pend s ∨ x ∈ vis s → x ∈ vis s').
Proof.
  remember (pend s) as l eqn:E. revert s E. induction l as [|x l IH]; intros s E.
  - exists s. split; [done|]. split; [done|]. split; [done|]. intros y [H|H]; [by apply not_elem_of_nil in H|done].
  - destruct (IH (mk_boot l (x :: vis s) (seen s) (code s) (did s)) eq_refl) as (s' & Hr & Ep & Ec & Hv).
    exists s'. split; [eapply rtc_l; [exact (boot_flush s [] x l (eq_sym E))|exact Hr]|]. split; [done|]. split; [exact Ec|].
    cbn [vis] in Hv. intros y Hy. apply Hv. set_solver.
Qed.

(** Hart [i] runs to its end, if its only wait is over. *)
Lemma run_hart l : ∀ s i,
  code s i = l → (i = 0 → WaitStarted ∉ l) → (i ≠ 0 → SetStarted ∉ l ∧ Started ∈ vis s) →
  ∃ s', rtc boot_step s s' ∧ code s' i = [] ∧ (∀ j, j ≠ i → code s' j = code s j) ∧ (∀ x, x ∈ vis s → x ∈ vis s').
Proof.
  induction l as [|x l IH]; intros s i Ec H0 H1; [by exists s|].
  destruct (flush_all s) as (s1 & R1 & Ep & Ec1 & Hv1).
  assert (Hst : ∃ s2, boot_step s1 s2 ∧ code s2 = <[i := l]> (code s1) ∧ vis s2 = vis s1).
  { rewrite <- Ec1 in Ec. destruct x as [c| | |].
    - destruct (decide (i = 0)) as [->|Hi]; eexists; (split; [first [exact (boot_init _ _ _ Ec)|exact (boot_call _ _ _ _ Hi Ec)]|done]).
    - eexists. split; [by eapply boot_fence|done].
    - destruct (decide (i = 0)) as [->|Hi]; [eexists; split; [by eapply boot_set|done]|]. destruct (H1 Hi) as [H _]. set_solver.
    - destruct (decide (i = 0)) as [->|Hi]; [set_solver|]. destruct (H1 Hi) as [_ H].
      eexists. split; [eapply boot_wait; [exact Ec|apply Hv1; by right]|done]. }
  destruct Hst as (s2 & S2 & Ec2 & Ev2).
  destruct (IH s2 i) as (s' & R' & E' & Hj & Hv).
  - by rewrite Ec2, fn_lookup_insert.
  - intros ->. specialize (H0 eq_refl). set_solver.
  - intros Hi. destruct (H1 Hi) as [A B]. split; [set_solver|]. rewrite Ev2. apply Hv1. by right.
  - exists s'. split; [etrans; [exact R1|]; by eapply rtc_l|]. split; [done|]. split.
    + intros j Hne. by rewrite Hj, Ec2, fn_lookup_insert_ne, Ec1.
    + intros y Hy. apply Hv. rewrite Ev2. apply Hv1. by right.
Qed.

Lemma needs_inits c d : d ∈ needs c → d ∈ inits.
Proof.
  assert (H : Forall (λ d, d ∈ inits) (needs c)) by (destruct c; by apply (bool_decide_unpack _); vm_compute).
  intros Hd. rewrite Forall_forall in H. by apply H.
Qed.

Lemma run_harts n : ∀ s,
  boot_ok s → code s 0 = [] → Started ∈ vis s →
  ∃ s', rtc boot_step s s' ∧ code s' 0 = [] ∧ ∀ i, 0 ≤ i ≤ Z.of_nat n → code s' i = [].
Proof.
  induction n as [|n IH]; intros s Hok E0 Hs.
  - exists s. split; [done|]. split; [done|]. intros i Hi. by replace i with 0 by lia.
  - destruct (IH s Hok E0 Hs) as (s1 & R1 & E1 & H1).
    assert (Hok1 : boot_ok s1) by (clear -Hok R1; induction R1; [done|]; by eauto using boot_step_ok).
    assert (Hs1 : Started ∈ vis s1) by (clear -Hs R1; induction R1 as [|a b c Hab _ IHr]; [done|]; apply IHr; destruct Hab; cbn [vis]; set_solver).
    set (k := Z.of_nat (S n)). destruct (run_hart (code s1 k) s1 k eq_refl) as (s2 & R2 & E2 & Hj & _); [lia| |].
    + intros Hk. split; [|done]. destruct (bk_code s1 Hok1 k) as (pre & Em & _). rewrite (main_other k Hk) in Em. intros H.
      assert (Hm : SetStarted ∈ main 1) by (rewrite Em; apply elem_of_app; by right). revert Hm. by apply (bool_decide_unpack _); vm_compute.
    + exists s2. split; [by etrans|]. split; [by rewrite Hj by lia|]. intros i Hi.
      destruct (decide (i = k)) as [->|]; [done|]. rewrite Hj by done. apply H1. lia.
Qed.

(** C13: the start of the kernel is orderly on any number of harts, in whatever order they
    run and in whatever order their stores reach each other. Whenever a hart is about to
    make one of the calls of [main], it works with the effects of every initialisation
    of hart 0 the call relies on, and it has itself made the calls that prepare it;
    and from every state that can be reached all harts can still get into their
    scheduler. *)
Theorem boot_correct s :
  rtc boot_step boot0 s →
  (∀ i c r, code s i = Do c :: r → (∀ d, d ∈ needs c → Init d ∈ seen s i) ∧ (∀ d, d ∈ here c → d ∈ did s i)) ∧
  ∃ s', rtc boot_step s s' ∧ ∀ i, 0 ≤ i < NCPU → code s' i = [].
Proof.
  intros Hr. pose proof (boot_reach_ok s Hr) as Hok. split.
  - intros i c r Ec. destruct (bk_code s Hok i) as (pre & Em & Hp). rewrite Ec in Em. destruct (decide (i = 0)) as [->|Hi].
    + split; intros d Hd; [apply (Hp d)|apply (Hp d)]; eauto using main_call0.
    + destruct (main_call i pre c r Hi Em) as [Hf Hh]. split; [|intros d Hd; by apply Hp, Hh].
      intros d Hd. apply (bk_seen s Hok i Hi); [by rewrite Ec|]. by eapply needs_inits.
  - destruct (run_hart (code s 0) s 0 eq_refl) as (s1 & R1 & E1 & _ & _); [|done|].
    { intros _ H. destruct (bk_code s Hok 0) as (pre & Em & _). assert (Hm : WaitStarted ∈ main 0) by (rewrite Em; apply elem_of_app; by right).
      revert Hm. by apply (bool_decide_unpack _); vm_compute. }
    destruct (flush_all s1) as (s2 & R2 & _ & E2 & Hv). assert (R : rtc boot_step boot0 s2) by (etrans; [exact Hr|]; by etrans).
    assert (Hok1 : boot_ok s1) by (apply boot_reach_ok; etrans; [exact Hr|exact R1]).
    destruct (run_harts 7 s2) as (s3 & R3 & _ & H3); [by apply boot_reach_ok|by rewrite E2| |].
    + apply Hv. apply (bk_started s1 Hok1). rewrite E1. apply not_elem_of_nil.
    + exists s3. split; [etrans; [exact R1|]; by etrans|]. unfold NCPU. intros i Hi. apply H3. lia.
Qed.

(** The whole start, and the first call of hart 0 on the way. *)
Lemma boot_correct_witness :
  rtc boot_step boot0 boot0 ∧ (∀ d, d ∈ here Consoleinit → d ∈ did boot0 0) ∧
  ∃ s, rtc boot_step boot0 s ∧ ∀ i, 0 ≤ i < NCPU → code s i = [].
Proof.
  destruct (boot_correct boot0 (rtc_refl boot_step boot0)) as [H1 H2].
  split; [exact (rtc_refl boot_step boot0)|]. split; [|exact H2].
  exact (proj2 (H1 0 Consoleinit (tail (main 0)) eq_refl)).
Defined.
