(* ===== verification/Kvm.v ===== *)
(** * The kernel's own page table: [kvmmake] and [kvminit] of [memory/vm.c], and how
    [kvminithart] turns paging on.

    The table maps devices and memory to themselves, the text without write permission,
    the trampoline at the top and below it one stack per process, each under an
    unmapped page. The theorem follows the table into the hardware: when [satp] is
    loaded, every address of the kernel means what it meant before. *)

From Stdlib Require Import ZifyBool.
From stdpp Require Import functions.
From S2P Require Import Prelude Riscv Ram Kalloc Vm VmProof VmUser VmThm Asm AsmThm AsmTrap Trap Start.

(** ** What the hardware makes of a well-formed table *)

(** The way to a page that has no entry ends early. *)
Lemma walk_none m T root va :
  pt_ok m T root → 0 ≤ va < MAXVA → slot T (va / PGSIZE) = None →
  is_node (ld64 m (pte2 (MAKE_SATP root) va)) = false ∨ is_node (ld64 m (pte1 m (MAKE_SATP root) va)) = false.
Proof.
  intros Hpt Hva Hs. destruct (PX_vpn va Hva) as (X2 & X1 & _). set (v := va / PGSIZE) in *.
  pose proof (vpn_of va Hva) as Hv. fold v in Hv.
  set (i2 := v / 2 ^ 18) in *. set (i1 := v / 2 ^ 9 mod 512) in *. unfold slot in Hs.
  assert (Hi2 : 0 ≤ i2 < 512) by (unfold i2, is_vpn in *; Z.to_euclidean_division_equations; lia).
  assert (Hi1 : 0 ≤ i1 < 512) by (unfold i1; apply Z.mod_pos_bound; lia).
  pose proof (pt_root _ _ _ Hpt) as Er. pose proof (pt_page _ _ _ Hpt _ _ Er) as Hpr.
  assert (P2 : pte2 (MAKE_SATP root) va = root + 8 * i2) by (unfold pte2; by rewrite satp_root_ok, X2).
  pose proof (pt_nodes _ _ _ Hpt [] root i2 Er ltac:(cbn; lia) Hi2) as L2. cbn [app] in L2.
  destruct (T !! [i2]) as [p1|] eqn:E1; [|left; by rewrite P2, L2].
  pose proof (pt_page _ _ _ Hpt _ _ E1) as Hp1. destruct (node_enc p1 Hp1) as [_ D1].
  assert (P1 : pte1 m (MAKE_SATP root) va = p1 + 8 * i1) by (unfold pte1; by rewrite P2, L2, D1, X1).
  pose proof (pt_nodes _ _ _ Hpt [i2] p1 i1 E1 ltac:(cbn; lia) Hi1) as L1. cbn [app] in L1.
  right. rewrite P1, L1. change (vpath v) with [i2; i1] in Hs. by destruct (T !! [i2; i1]).
Qed.

Lemma sv39_entry m T root perm va :
  pt_ok m T root → 0 ≤ va < MAXVA →
  sv39 m (MAKE_SATP root) perm va =
    let e := entry m T (va / PGSIZE) in
    if has e PTE_V && has e perm && negb (has e PTE_U) then Some (PTE2PA e + va mod PGSIZE) else None.
Proof.
  intros Hpt Hva. unfold sv39. destruct ((0 <=? va) && (va <? MAXVA)) eqn:Eb; [|lia]. cbn [negb].
  destruct (slot T (va / PGSIZE)) as [a|] eqn:Es.
  - destruct (walk_tables m T root (va / PGSIZE) (va mod PGSIZE) Hpt (vpn_of va Hva)) as (_ & N2 & N1 & L0 & _);
      [by rewrite Es|apply Z.mod_pos_bound; unfold PGSIZE; lia|].
    replace (va / PGSIZE * PGSIZE + va mod PGSIZE) with va in * by (unfold PGSIZE; Z.to_euclidean_division_equations; lia).
    by rewrite N2, N1, L0.
  - unfold entry. rewrite Es. destruct (walk_none m T root va Hpt Hva Es) as [-> | ->]; [done|]. by destruct (is_node _).
Qed.

Lemma sv39_mkpte m T root va pa fl perm :
  pt_ok m T root → 0 ≤ va < MAXVA → entry m T (va / PGSIZE) = mkpte pa fl →
  pa mod PGSIZE = 0 → 0 ≤ pa < 2 ^ 56 → 0 ≤ fl < 2 ^ 10 → has fl PTE_U = false → 0 ≤ perm < 2 ^ 10 → has PTE_V perm = false →
  sv39 m (MAKE_SATP root) perm va = if has fl perm then Some (pa + va mod PGSIZE) else None.
Proof.
  intros Hpt Hva He Hal Hpa Hfl Hu Hperm Hpv. rewrite (sv39_entry m T root perm va Hpt Hva). cbv zeta. rewrite He, mkpte_lor.
  assert (Hr : 0 ≤ Z.lor fl PTE_V < 2 ^ 10) by (apply lor_range; unfold PTE_V; lia).
  rewrite !has_leaf by (done || lia). rewrite PTE2PA_PA2PTE by done.
  assert (Hl : ∀ k, has (Z.lor fl PTE_V) k = has fl k || has PTE_V k).
  { intros k. unfold has. rewrite Z.land_lor_distr_l. destruct (Z.eqb_spec (Z.lor (Z.land fl k) (Z.land PTE_V k)) 0) as [E|E].
    - apply Z.lor_eq_0_iff in E as [-> ->]. done.
    - destruct (Z.eqb_spec (Z.land fl k) 0) as [E1|]; [|done]. destruct (Z.eqb_spec (Z.land PTE_V k) 0) as [E2|]; [|done]. by rewrite E1, E2 in E. }
  rewrite !Hl, Hu, Hpv, !orb_false_r. change (has PTE_V PTE_V) with true. change (has PTE_V PTE_U) with false. rewrite orb_true_r. cbn. by rewrite andb_true_r.
Qed.

(** ** Regions *)

Definition RW : Z := Z.lor PTE_R PTE_W.
Definition RX : Z := Z.lor PTE_R PTE_X.

(** [r_n] pages at [r_va] that mean the memory at [r_pa]. *)
Record region := mk_region { r_va : Z; r_n : Z; r_pa : Z; r_perm : Z }.

Definition r_end (r : region) : Z := r_va r + r_n r * PGSIZE.

Record region_ok (r : region) : Prop := {
  ro_va : r_va r mod PGSIZE = 0;
  ro_low : 0 ≤ r_va r;
  ro_n : 0 < r_n r;
  ro_high : r_end r ≤ MAXVA;
  ro_pa : r_pa r mod PGSIZE = 0;
  ro_pa_low : 0 ≤ r_pa r;
  ro_pa_high : r_pa r + r_n r * PGSIZE + 2 * PGSIZE ≤ 2 ^ 56;
  ro_perm : r_perm r = RW ∨ r_perm r = RX;
}.

Definition away (r q : region) : Prop := r_end r ≤ r_va q ∨ r_end q ≤ r_va r.

Lemma ro_pages r : region_ok r → r_va r = r_va r / PGSIZE * PGSIZE ∧ 0 ≤ r_va r / PGSIZE ∧ r_va r / PGSIZE + r_n r ≤ 2 ^ 26.
Proof.
  intros [A B C D _ _ _ _]. unfold r_end in D. change MAXVA with (2 ^ 38) in D. unfold PGSIZE in *.
  Z.to_euclidean_division_equations. lia.
Qed.

Section kvm.
Context {heap : Type} `{AL : Allocator heap}.
Implicit Types (s : @vm heap) (T : tables) (H : gmap Z Z) (L : list region).

(** The table maps exactly the regions of [L]; what was allocated in [H0] still is. *)
Record kernel_pt (H0 : gmap Z Z) s T (root : Z) H L : Prop := {
  kp_vm : vm_ok s T root H;
  kp_ok : Forall region_ok L;
  kp_in : ∀ r j, r ∈ L → 0 ≤ j < r_n r → entry (vram s) T (r_va r / PGSIZE + j) = mkpte (r_pa r + j * PGSIZE) (r_perm r);
  kp_out : ∀ w, is_vpn w → (∀ r, r ∈ L → w * PGSIZE < r_va r ∨ r_end r ≤ w * PGSIZE) → entry (vram s) T w = 0;
  kp_live : ∀ q z, H0 !! q = Some z → H !! q = Some z ∧ q ∉ table_pages T;
}.

(** Pages that are live stay live and out of the table when it grows. *)
Lemma extends_live s T H s' T' H' q z :
  extends s T H s' T' H' → H !! q = Some z → q ∉ table_pages T → H' !! q = Some z ∧ q ∉ table_pages T'.
Proof.
  intros Hx Hq Hn. pose proof (not_table_extends _ _ _ _ _ _ _ _ Hx Hq Hn). split; [|done].
  by rewrite (e_live _ _ _ _ _ _ Hx).
Qed.

Lemma kvmmap_ok H0 s T root H L r :
  kernel_pt H0 s T root H L → region_ok r → Forall (away r) L →
  kvmmap s root (r_va r) (r_pa r) (r_n r * PGSIZE) (r_perm r) = Panic "kvmmap" ∨
  ∃ s' T' H', kvmmap s root (r_va r) (r_pa r) (r_n r * PGSIZE) (r_perm r) = Ok s' ∧ kernel_pt H0 s' T' root H' (L ++ [r]) ∧
    extends s T H s' T' H'.
Proof.
  intros [Hvm Hall Hin Hout Hlive] Hr Haw. destruct (ro_pages r Hr) as (Ev & Hv & Hvn). set (v := r_va r / PGSIZE) in *.
  pose proof Hr as [A1 A2 A3 A4 A5 A6 A7 A8]. rewrite Forall_forall in Haw.
  assert (En : (r_va r + r_n r * PGSIZE - 1) / PGSIZE - v + 1 = r_n r) by (unfold PGSIZE in *; Z.to_euclidean_division_equations; lia).
  destruct (mappages_ok s T root H (r_va r) (r_n r * PGSIZE) (r_pa r) (r_perm r) Hvm) as (x & s' & T' & H' & j & E & Hvm' & Hx & Hj & He);
    [done|unfold PGSIZE; lia|exact A4|done|exact A7|by destruct A8 as [-> | ->]| |].
  { fold v. rewrite En. intros w Hw. rewrite Hout; [done|unfold is_vpn; lia|]. intros q Hq.
    destruct (Haw q Hq) as [Hd|Hd]; unfold r_end, PGSIZE in *; lia. }
  fold v in He, Hj. rewrite En in Hj. unfold kvmmap. rewrite E, bind_Ok. cbv beta iota.
  destruct Hj as [[-> ->]|[-> _]]; [right|by left]. exists s', T', H'. split; [done|]. split; [|done]. split; [done| | | |].
  - apply Forall_app. split; [done|]. by constructor.
  - intros q i Hq Hi. assert (Hrq : region_ok q) by (rewrite Forall_forall in Hall; apply elem_of_app in Hq as [?|Hq]; [by apply Hall|apply list_elem_of_singleton in Hq; by subst q]).
    destruct (ro_pages q Hrq) as (Evq & Hvq & Hvnq). rewrite He by (unfold is_vpn; lia). unfold mapped.
    apply elem_of_app in Hq as [Hq|Hq]; [|apply list_elem_of_singleton in Hq; subst q].
    + rewrite <- (Hin q i Hq Hi). destruct (_ && _) eqn:Eb; [|done]. destruct (Haw q Hq) as [Hd|Hd]; unfold r_end, PGSIZE in *; lia.
    + fold v. destruct (_ && _) eqn:Eb; [|lia]. do 2 f_equal. unfold PGSIZE. lia.
  - intros w Hw Hno. rewrite He by done. unfold mapped. destruct (_ && _) eqn:Eb.
    + destruct (Hno r) as [Hd|Hd]; [set_solver|..]; unfold r_end, PGSIZE in *; lia.
    + apply Hout; [done|]. intros q Hq. apply Hno. set_solver.
  - intros q z Hq. destruct (Hlive q z Hq) as [B1 B2]. by eapply extends_live.
Qed.

(** ** The stacks *)

Definition kstack_region (i : nat) (p : Z) : region := mk_region (KSTACK (Z.of_nat i)) 1 p RW.
Definition kstacks (ps : list Z) : list region := imap kstack_region ps.

(** The pages are new, distinct, and not part of the table. *)
Record stacks_ok (H0 H : gmap Z Z) T (ps : list Z) : Prop := {
  so_nodup : NoDup ps;
  so_page : ∀ p, p ∈ ps → H0 !! p = None ∧ H !! p = Some PGSIZE ∧ p ∉ table_pages T;
}.

Definition below_stacks (r : region) : Prop := r_end r ≤ KSTACK 63 - PGSIZE ∨ TRAMPOLINE ≤ r_va r.

Lemma kstack_region_ok i p : (i < 64)%nat → page_addr p → p < 2 ^ 55 → region_ok (kstack_region i p).
Proof.
  intros Hi [Hal Hp] Hp'. unfold kstack_region. assert (E : KSTACK (Z.of_nat i) = (2 ^ 26 - 1 - 2 * (Z.of_nat i + 1)) * PGSIZE).
  { unfold KSTACK, TRAMPOLINE. change MAXVA with (2 ^ 26 * PGSIZE). lia. }
  split; cbn [r_va r_n r_pa r_perm]; unfold r_end; cbn [r_va r_n]; rewrite ?E; change MAXVA with (2 ^ 26 * PGSIZE); unfold PGSIZE in *; try lia.
  - by rewrite Z.mod_mul by lia.
Qed.

Lemma kstack_away i p L ps : (length ps = i)%nat → (i < 64)%nat → Forall below_stacks L → Forall (away (kstack_region i p)) (L ++ kstacks ps).
Proof.
  intros Hl Hi HL. apply Forall_app. split.
  - eapply Forall_impl; [exact HL|]. intros r [Hr|Hr]; [right|left]; unfold r_end at 1, kstack_region; cbn [r_va r_n];
      unfold r_end, KSTACK, TRAMPOLINE, PGSIZE in *; cbn [r_va r_n] in *; lia.
  - apply Forall_forall. intros r (j & q & -> & Hj)%elem_of_lookup_imap. pose proof (lookup_lt_Some _ _ _ Hj).
    left. unfold r_end, kstack_region, KSTACK, PGSIZE. cbn [r_va r_n]. lia.
Qed.

Lemma kernel_pt_alloc H0 s T root H L p s' :
  kernel_pt H0 s T root H L → vram s' = vram s → H !! p = None → al_live (vheap s') (<[p := PGSIZE]> H) →
  kernel_pt H0 s' T root (<[p := PGSIZE]> H) L.
Proof.
  intros [[V1 V2 V3 V4] Hall Hin Hout Hlive] Em Hp Hl. rewrite <- Em in V2, V3, Hin, Hout. split; [|done|done|done|].
  - split; [done|done|done|]. intros k q Hq. rewrite lookup_insert_ne; [by eapply V4|]. intros ->. rewrite (V4 _ _ Hq) in Hp. done.
  - intros q z Hq. destruct (Hlive q z Hq) as [B1 B2]. split; [|done]. rewrite lookup_insert_ne; [done|]. intros ->. by rewrite B1 in Hp.
Qed.

Lemma stacks_ok_extends H0 s0 s T root H s' T' H' ps p :
  vm_ok s0 T root H → H !! p = None → (∀ q z, H0 !! q = Some z → H !! q = Some z ∧ q ∉ table_pages T) →
  extends s T (<[p := PGSIZE]> H) s' T' H' → stacks_ok H0 H T ps → stacks_ok H0 H' T' (ps ++ [p]).
Proof.
  intros Hok Hp Hlive Hx [Hnd Hps].
  assert (Hnt : p ∉ table_pages T).
  { intros Hin. apply elem_of_table_pages in Hin as [k Hk]. rewrite (vo_owned _ _ _ _ Hok _ _ Hk) in Hp. done. }
  split.
  - apply NoDup_app. split; [done|]. split; [|apply NoDup_singleton]. intros q Hq Hq'%list_elem_of_singleton. subst q.
    destruct (Hps p Hq) as (_ & E & _). by rewrite E in Hp.
  - intros q [Hq|Hq]%elem_of_app.
    + destruct (Hps q Hq) as (B1 & B2 & B3). split; [done|]. eapply extends_live; [exact Hx| |exact B3].
      rewrite lookup_insert_ne; [done|]. intros ->. by rewrite B2 in Hp.
    + apply list_elem_of_singleton in Hq. subst q. split.
      * destruct (H0 !! p) as [z|] eqn:E; [|done]. destruct (Hlive p z E) as [E' _]. by rewrite E' in Hp.
      * eapply extends_live; [exact Hx| |exact Hnt]. by rewrite lookup_insert_eq.
Qed.

Lemma proc_mapstacks_loop_ok H0 L root n : ∀ s T H ps,
  Forall below_stacks L → kernel_pt H0 s T root H (L ++ kstacks ps) → stacks_ok H0 H T ps → (length ps + n ≤ 64)%nat →
  let o := proc_mapstacks_loop n s root (Z.of_nat (length ps)) in
  o = Panic "kalloc" ∨ o = Panic "kvmmap" ∨
  ∃ s' T' H' ps', o = Ok s' ∧ kernel_pt H0 s' T' root H' (L ++ kstacks ps') ∧ stacks_ok H0 H' T' ps' ∧ length ps' = (length ps + n)%nat.
Proof.
  induction n as [|n IH]; intros s T H ps HL Hk Hs Hn o.
  - right; right. exists s, T, H, ps. split_and!; try done.
  - unfold o. cbn [proc_mapstacks_loop]. destruct (vm_alloc_ok s H (vo_live _ _ _ _ (kp_vm _ _ _ _ _ _ Hk))) as (p & s1 & -> & Em & Hc).
    rewrite bind_Ok. destruct Hc as [[-> ->]|(Hnz & Hp & Hpa & Hl)]; [by left|]. destruct (Z.eqb_spec p 0); [done|].
    pose proof (kernel_pt_alloc H0 s T root H _ p s1 Hk Em Hp Hl) as Hk1.
    pose proof (al_range _ _ p PGSIZE Hl ltac:(by rewrite lookup_insert_eq)) as Hrg.
    destruct (kvmmap_ok H0 s1 T root _ _ (kstack_region (length ps) p) Hk1) as [E|(s2 & T2 & H2 & E & Hk2 & Hx)].
    + apply kstack_region_ok; [lia|done|unfold PHYSTOP, KERNBASE in Hrg; lia].
    + apply kstack_away; [done|lia|done].
    + right; left. cbn [kstack_region r_va r_n r_pa r_perm] in E. change (1 * PGSIZE) with PGSIZE in E. unfold RW in E. by rewrite E.
    + cbn [kstack_region r_va r_n r_pa r_perm] in E. change (1 * PGSIZE) with PGSIZE in E. unfold RW in E. rewrite E, bind_Ok.
      rewrite <- app_assoc in Hk2. assert (Ek : kstacks ps ++ [kstack_region (length ps) p] = kstacks (ps ++ [p])).
      { unfold kstacks. rewrite imap_app. cbn. by rewrite Nat.add_0_r. }
      rewrite Ek in Hk2. replace (Z.of_nat (length ps) + 1) with (Z.of_nat (length (ps ++ [p]))) by (rewrite length_app; cbn; lia).
      destruct (IH s2 T2 H2 (ps ++ [p]) HL Hk2) as [E'|[E'|(s' & T' & H' & ps' & E' & R)]];
        [exact (stacks_ok_extends _ _ _ _ _ _ _ _ _ _ _ (kp_vm _ _ _ _ _ _ Hk) Hp (kp_live _ _ _ _ _ _ Hk) Hx Hs)|rewrite length_app; cbn; lia|by left|by right; left|].
      right; right. exists s', T', H', ps'. split; [done|]. destruct R as (R1 & R2 & R3). split_and!; try done. rewrite R3, length_app. cbn. lia.
Qed.

(** ** [kvmmake] *)

Definition kernel_regions (etext trampoline : Z) : list region :=
  [mk_region UART0 1 UART0 RW; mk_region VIRTIO0 1 VIRTIO0 RW; mk_region PLIC 0x400 PLIC RW;
   mk_region KERNBASE ((etext - KERNBASE) / PGSIZE) KERNBASE RX; mk_region etext ((PHYSTOP - etext) / PGSIZE) etext RW;
   mk_region TRAMPOLINE 1 trampoline RX].

(** Out of memory. *)
Definition no_memory {A} (o : outcome A) : Prop := o = Fault ∨ o = Panic "kvmmap" ∨ o = Panic "kalloc".

(** What [kvmmake] maps first, in [n] steps. *)
Lemma kvmmake_start s H :
  al_live (vheap s) H → bytes_ok (vram s) →
  ∃ kpgtbl s1, vm_alloc s = Ok (kpgtbl, s1) ∧
    (kpgtbl = 0 ∨ kpgtbl ≠ 0 ∧ ∃ T H1, kernel_pt H (with_ram s1 (memset (vram s1) kpgtbl 0 PGSIZE)) T kpgtbl H1 []).
Proof.
  intros Hl Hb. destruct (uvmcreate_ok s H Hl Hb) as (r & s' & E & Hc). unfold uvmcreate in E.
  destruct (vm_alloc_ok s H Hl) as (p & s1 & E1 & Em & Hc1). rewrite E1, bind_Ok in E. exists p, s1. split; [done|].
  destruct Hc1 as [[-> _]|(Hnz & Hp & _)]; [by left|]. destruct (Z.eqb_spec p 0); [done|]. injection E as <- <-. right. split; [done|].
  destruct Hc as [[-> _]|(_ & Hu & He)]; [done|]. exists {[ [] := p ]}, (<[p := PGSIZE]> H). split; [exact (uo_vm _ _ _ _ _ Hu)|done| |by intros w _ _|].
  - intros q j Hq. by apply not_elem_of_nil in Hq.
  - intros q z Hq. assert (q ≠ p) by (intros ->; by rewrite Hq in Hp). split; [by rewrite lookup_insert_ne|].
    intros [k [_ Hk]%lookup_singleton_Some]%elem_of_table_pages. done.
Qed.

Section layout.
Context (etext trampoline : Z).
Hypothesis (Het : etext mod PGSIZE = 0) (Hlo : KERNBASE < etext) (Hhi : etext < PHYSTOP).
Hypothesis (Htr : page_addr trampoline) (Htr' : trampoline < PHYSTOP).

Lemma text_size : (etext - KERNBASE) / PGSIZE * PGSIZE = etext - KERNBASE.
Proof using Het. unfold KERNBASE, PGSIZE in *. Z.to_euclidean_division_equations. lia. Qed.

Lemma data_size : (PHYSTOP - etext) / PGSIZE * PGSIZE = PHYSTOP - etext.
Proof using Het. unfold PHYSTOP, KERNBASE, PGSIZE in *. Z.to_euclidean_division_equations. lia. Qed.

(** Linear facts about the regions. *)
Local Ltac layout :=
  pose proof text_size; pose proof data_size; unfold below_stacks, away, r_end, KSTACK; cbn [r_va r_n r_pa r_perm];
  unfold UART0, VIRTIO0, PLIC, KERNBASE, PHYSTOP, TRAMPOLINE in *; unfold KERNBASE in *; change MAXVA with (2 ^ 38); unfold PGSIZE in *; lia.

Lemma kernel_regions_ok : Forall region_ok (kernel_regions etext trampoline).
Proof using Het Hhi Hlo Htr Htr'.
  destruct Htr as [Ht1 Ht2]. unfold kernel_regions. repeat (apply Forall_cons; split); [..|apply Forall_nil; done];
    (split; cbn [r_va r_n r_pa r_perm]; first [by left|by right|done|layout]).
Qed.

Lemma kernel_regions_apart : ForallOrdPairs (λ r q, away q r) (kernel_regions etext trampoline).
Proof using Het Hhi Hlo.
  unfold kernel_regions.
  repeat (apply FOP_cons; [repeat (apply Forall_cons; split); [..|apply Forall_nil; done]; layout|]). apply FOP_nil.
Qed.

Lemma kernel_regions_below : Forall below_stacks (kernel_regions etext trampoline).
Proof using Het Hhi Hlo. unfold kernel_regions. repeat (apply Forall_cons; split); [..|apply Forall_nil; done]; layout. Qed.

(** The regions of a list, mapped one after the other. *)
Fixpoint map_regions {A} (s : @vm heap) (root : Z) (L : list region) (f : @vm heap → outcome A) : outcome A :=
  match L with
  | [] => f s
  | r :: L' => s ← kvmmap s root (r_va r) (r_pa r) (r_n r * PGSIZE) (r_perm r); map_regions s root L' f
  end.

Lemma map_regions_ok {A} H0 root (f : @vm heap → outcome A) L2 : ∀ L1 s T H,
  kernel_pt H0 s T root H L1 → Forall region_ok L2 → ForallOrdPairs (λ r q, away q r) (L1 ++ L2) →
  map_regions s root L2 f = Panic "kvmmap" ∨
  ∃ s' T' H', map_regions s root L2 f = f s' ∧ kernel_pt H0 s' T' root H' (L1 ++ L2).
Proof using Type.
  induction L2 as [|r L2 IH]; intros L1 s T H Hk Hok Hap.
  - right. exists s, T, H. by rewrite app_nil_r.
  - apply Forall_cons in Hok as [Hr Hok]. cbn [map_regions].
    destruct (kvmmap_ok H0 s T root H L1 r Hk Hr) as [->|(s1 & T1 & H1 & -> & Hk1 & _)]; [|by left|].
    { apply Forall_forall. intros q Hq. clear -Hq Hap. induction L1 as [|x L1 IH]; [by apply not_elem_of_nil in Hq|].
      cbn [app] in Hap. inversion Hap as [|? ? B1 B2]; subst. apply elem_of_cons in Hq as [->|Hq]; [|by apply IH].
      rewrite Forall_forall in B1. apply B1. set_solver. }
    rewrite bind_Ok. replace (L1 ++ r :: L2) with ((L1 ++ [r]) ++ L2) in * by by rewrite <- app_assoc. by apply (IH _ _ T1 H1).
Qed.
End layout.

(** The hardware maps exactly the regions of [L], each with its permissions. *)
Definition is_perm (perm : Z) : Prop := perm = PTE_R ∨ perm = PTE_W ∨ perm = PTE_X.

Record translates (tr : Z → Z → option Z) L : Prop := {
  tr_in : ∀ r o perm, r ∈ L → 0 ≤ o < r_n r * PGSIZE → is_perm perm →
    tr perm (r_va r + o) = if has (r_perm r) perm then Some (r_pa r + o) else None;
  tr_out : ∀ va perm, 0 ≤ va < MAXVA → (∀ r, r ∈ L → va < r_va r ∨ r_end r ≤ va) → tr perm va = None;
}.

Lemma kernel_pt_translates H0 s T root H L :
  kernel_pt H0 s T root H L → translates (sv39 (vram s) (MAKE_SATP root)) L.
Proof.
  intros [Hvm Hall Hin Hout _]. pose proof (vo_pt _ _ _ _ Hvm) as Hpt. rewrite Forall_forall in Hall. split.
  - intros r o perm Hr Ho Hp. pose proof (Hall r Hr) as Hok. destruct (ro_pages r Hok) as (Ev & Hv & Hvn).
    set (j := o / PGSIZE). assert (Hj : 0 ≤ j < r_n r) by (unfold j, PGSIZE in *; Z.to_euclidean_division_equations; lia).
    assert (Ed : (r_va r + o) / PGSIZE = r_va r / PGSIZE + j) by (unfold j; rewrite Ev at 1; rewrite Z.add_comm, Z.div_add by done; lia).
    assert (Em : (r_va r + o) mod PGSIZE = o mod PGSIZE) by (rewrite Ev, Z.add_comm; apply Z.mod_add; done).
    destruct Hok as [A1 A2 A3 A4 A5 A6 A7 A8]. unfold r_end in A4. change MAXVA with (2 ^ 38) in A4.
    rewrite (sv39_mkpte (vram s) T root _ (r_pa r + j * PGSIZE) (r_perm r) perm Hpt).
    + rewrite Em. replace (r_pa r + j * PGSIZE + o mod PGSIZE) with (r_pa r + o) by (unfold j, PGSIZE; Z.to_euclidean_division_equations; lia). done.
    + change MAXVA with (2 ^ 38). lia.
    + rewrite Ed. by apply Hin.
    + rewrite Z.mod_add by done. done.
    + unfold PGSIZE in *. lia.
    + by destruct A8 as [-> | ->].
    + by destruct A8 as [-> | ->].
    + by destruct Hp as [->|[-> | ->]].
    + by destruct Hp as [->|[-> | ->]].
  - intros va perm Hva Hno. rewrite (sv39_entry _ T) by done. cbv zeta. rewrite Hout; [done|by apply vpn_of|].
    intros r Hr. destruct (ro_pages r (Hall r Hr)) as (Ev & _ & _). destruct (Hno r Hr) as [Hd|Hd]; [left|right].
    + unfold PGSIZE in *. Z.to_euclidean_division_equations. lia.
    + unfold r_end in *. rewrite Ev in *. unfold PGSIZE in *. Z.to_euclidean_division_equations. lia.
Qed.

Lemma kvmmake_ok s H etext trampoline :
  al_live (vheap s) H → bytes_ok (vram s) → etext mod PGSIZE = 0 → KERNBASE < etext → etext < PHYSTOP →
  page_addr trampoline → trampoline < PHYSTOP →
  no_memory (kvmmake s etext trampoline) ∨
  ∃ root s' T H' ps, kvmmake s etext trampoline = Ok (root, s') ∧
    kernel_pt H s' T root H' (kernel_regions etext trampoline ++ kstacks ps) ∧ stacks_ok H H' T ps ∧ length ps = Z.to_nat NPROC.
Proof.
  intros Hl Hb He1 He2 He3 Ht1 Ht2. unfold kvmmake. destruct (kvmmake_start s H Hl Hb) as (root & s1 & -> & Hc). rewrite bind_Ok. cbv beta iota.
  destruct Hc as [->|(Hnz & T1 & H1 & Hk1)]; [left; by left|]. destruct (Z.eqb_spec root 0); [done|]. set (s2 := with_ram _ _) in *.
  match goal with |- no_memory ?o ∨ _ =>
    assert (E : o = map_regions s2 root (kernel_regions etext trampoline) (λ s, s ← proc_mapstacks s root; Ok (root, s))) end.
  { unfold kernel_regions. cbn [map_regions r_va r_n r_pa r_perm]. by rewrite text_size, data_size. }
  rewrite E. clear E.
  destruct (map_regions_ok H root (λ s, s ← proc_mapstacks s root; Ok (root, s)) (kernel_regions etext trampoline) [] s2 T1 H1 Hk1)
    as [->|(s3 & T3 & H3 & -> & Hk3)]; [by apply kernel_regions_ok|by apply kernel_regions_apart|left; right; by left|].
  unfold proc_mapstacks. destruct (proc_mapstacks_loop_ok H (kernel_regions etext trampoline) root (Z.to_nat NPROC) s3 T3 H3 [])
    as [E|[E|(s4 & T4 & H4 & ps & E & R1 & R2 & R3)]].
  - by apply kernel_regions_below.
  - change (kstacks []) with (@nil region). by rewrite app_nil_r.
  - split; [apply NoDup_nil_2|]. intros p Hp. by apply not_elem_of_nil in Hp.
  - done.
  - change (Z.of_nat (length [])) with 0 in E. rewrite E. left. right. by right.
  - change (Z.of_nat (length [])) with 0 in E. rewrite E. left. right. by left.
  - change (Z.of_nat (length [])) with 0 in E. rewrite E, bind_Ok. right. by exists root, s4, T4, H4, ps.
Qed.

(** ** [kvminit] and [kvminithart] *)

(** The new value of [kernel_pagetable]. *)
Definition kvminit (s : @vm heap) (etext trampoline : Z) : outcome (Z * @vm heap) := kvmmake s etext trampoline.
End kvm.

Definition kvminithart (h : hw) (kernel_pagetable : Z) : outcome hw :=
  let h := sfence_vma h in
  h ← w_satp h (MAKE_SATP kernel_pagetable);
  Ok (sfence_vma h).

Lemma kvminithart_ok h root :
  kvminithart h root = Ok (mk_hw (regs h) (<[Satp := MAKE_SATP root]> (csrs h)) (hram h) (mode h) Clean).
Proof.
  unfold kvminithart, w_satp. destruct (Z.eqb_spec (MAKE_SATP root) 0) as [E|_]; [by apply satp_nonzero in E|]. reflexivity.
Qed.

(** The page below a stack is no part of any region. *)
Lemma guard_range i o : 0 ≤ i < NPROC → 0 ≤ o < PGSIZE → 0 ≤ KSTACK i - PGSIZE + o < MAXVA.
Proof. unfold NPROC, KSTACK, TRAMPOLINE. change MAXVA with (2 ^ 38). unfold PGSIZE. lia. Qed.

Lemma guard_stack i j p o : 0 ≤ o < PGSIZE →
  KSTACK i - PGSIZE + o < r_va (kstack_region j p) ∨ r_end (kstack_region j p) ≤ KSTACK i - PGSIZE + o.
Proof. unfold r_end, kstack_region, KSTACK. cbn [r_va r_n]. unfold PGSIZE. lia. Qed.

Lemma guard_below i r o : 0 ≤ i < NPROC → 0 ≤ o < PGSIZE → below_stacks r →
  KSTACK i - PGSIZE + o < r_va r ∨ r_end r ≤ KSTACK i - PGSIZE + o.
Proof. unfold below_stacks, NPROC, KSTACK, PGSIZE. lia. Qed.

Section paging.
Context {heap : Type} `{AL : Allocator heap}.

(** C7: turning paging on leaves the kernel where it is. [kvminit] runs out of memory (it
    faults at a null page or panics in [kvmmap] or [proc_mapstacks]) or builds a page table that the hardware, once [kvminithart] has loaded it, reads as
    exactly this map: the UART, the disk, the interrupt controller, the text (not
    writable) and the rest of memory at their own addresses, the trampoline page at
    [TRAMPOLINE], and below it a stack for each of the 64 processes, on pages that were
    free, are all different and belong to no table. Every other address faults, the
    guard page of each stack among them. No access uses a stale translation, and
    what was allocated before stays allocated. *)
Theorem paging_on s H etext trampoline h :
  al_live (vheap s) H → bytes_ok (vram s) → etext mod PGSIZE = 0 → KERNBASE < etext → etext < PHYSTOP →
  page_addr trampoline → trampoline < PHYSTOP → mode h = Supervisor →
  no_memory (kvminit s etext trampoline) ∨
  ∃ root s' T H' ps h', kvminit s etext trampoline = Ok (root, s') ∧ kvminithart (set_hram h (vram s')) root = Ok h' ∧
    mode h' = Supervisor ∧ tlb h' = Clean ∧ regs h' = regs h ∧ hram h' = vram s' ∧
    translates (translate h') (kernel_regions etext trampoline ++ kstacks ps) ∧
    (∀ va, KERNBASE ≤ va < PHYSTOP → translate h' PTE_R va = Some va) ∧
    (∀ i, 0 ≤ i < NPROC → ∀ perm o, 0 ≤ o < PGSIZE → translate h' perm (KSTACK i - PGSIZE + o) = None) ∧
    length ps = Z.to_nat NPROC ∧ stacks_ok H H' T ps ∧ ∀ q z, H !! q = Some z → H' !! q = Some z.
Proof.
  intros Hl Hb He1 He2 He3 Ht1 Ht2 Hm. unfold kvminit.
  destruct (kvmmake_ok s H etext trampoline Hl Hb He1 He2 He3 Ht1 Ht2) as [Hn|(root & s' & T & H' & ps & E & Hk & Hs & Hlen)]; [by left|right].
  exists root, s', T, H', ps. eexists. split; [exact E|]. split; [apply kvminithart_ok|]. set (h' := mk_hw _ _ _ _ Clean).
  assert (Etr : ∀ perm va, translate h' perm va = sv39 (vram s') (MAKE_SATP root) perm va).
  { intros perm va. unfold translate. cbn [mode h' csrs hram set_hram]. rewrite Hm, fn_lookup_insert.
    destruct (Z.eqb_spec (MAKE_SATP root) 0) as [E0|_]; [by apply satp_nonzero in E0|done]. }
  destruct (kernel_pt_translates _ _ _ _ _ _ Hk) as [Tin Tout].
  split; [exact Hm|]. split; [done|]. split; [done|]. split; [done|].
  split. { split; intros; rewrite Etr; [by apply Tin|by apply Tout]. }
  split.
  { intros va Hva. rewrite Etr. destruct (Z.lt_ge_cases va etext).
    - specialize (Tin (mk_region KERNBASE ((etext - KERNBASE) / PGSIZE) KERNBASE RX) (va - KERNBASE) PTE_R). cbn [r_va r_n r_pa r_perm] in Tin.
      rewrite text_size in Tin by done. replace (KERNBASE + (va - KERNBASE)) with va in Tin by lia.
      apply Tin; [unfold kernel_regions; set_solver|lia|by left].
    - specialize (Tin (mk_region etext ((PHYSTOP - etext) / PGSIZE) etext RW) (va - etext) PTE_R). cbn [r_va r_n r_pa r_perm] in Tin.
      rewrite data_size in Tin by done. replace (etext + (va - etext)) with va in Tin by lia.
      apply Tin; [unfold kernel_regions; set_solver|lia|by left]. }
  split; [|split; [exact Hlen|]; split; [exact Hs|]; intros q z Hq; by apply (kp_live _ _ _ _ _ _ Hk)].
  intros i Hi perm o Ho. rewrite Etr. apply Tout; [by apply guard_range|].
  intros r [Hr|Hr]%elem_of_app.
  - pose proof (kernel_regions_below etext trampoline He1 He2 He3) as Hbl. rewrite Forall_forall in Hbl. by apply guard_below, Hbl.
  - apply elem_of_lookup_imap in Hr as (j & p & -> & _). by apply guard_stack.
Qed.
End paging.

(** A heap of 112 KiB, text of 32 KiB with the trampoline as its last page. *)
Lemma paging_on_witness :
  let s := demo_vm0 in let h := mk_hw (λ _, 0) (λ _, 0) ∅ Supervisor Busy in
  page_addr 0x80007000 ∧
  (no_memory (kvminit s 0x80008000 0x80007000) ∨
   ∃ root s' h', kvminit s 0x80008000 0x80007000 = Ok (root, s') ∧ kvminithart (set_hram h (vram s')) root = Ok h' ∧
     ∀ va, KERNBASE ≤ va < PHYSTOP → translate h' PTE_R va = Some va).
Proof.
  intros s h. assert (Ht : page_addr 0x80007000) by (split; [reflexivity|split; reflexivity]). split; [exact Ht|].
  assert (Hb : bytes_ok (vram s)) by exact bytes_ok_empty.
  destruct (paging_on s ∅ 0x80008000 0x80007000 h demo_vm0_live Hb eq_refl eq_refl eq_refl Ht eq_refl eq_refl)
    as [Hn|(root & s' & T & H' & ps & h' & E1 & E2 & _ & _ & _ & _ & _ & E3 & _)]; [left; exact Hn|right].
  exists root, s', h'. exact (conj E1 (conj E2 E3)).
Defined.
