(* ===== verification/Utils.v ===== *)
(** * Small user programs: [echo], [kill], [ln], [mkdir], [rm], [zombie], [forktest],
    [init] and [pingpong] of [user/].

    A program is the tree of the system calls it makes, with a branch for every answer.
    [printf] writes its bytes one call at a time, as the library does. For [pingpong]
    the calls get a meaning: any number of processes run interleaved over pipes, which
    are queues of at most [PIPESIZE] bytes as [Pipe] shows them to be. *)

From Stdlib Require Import ZifyBool.
From stdpp Require Import functions relations.
From S2P Require Import Prelude Printf Pipe Kern Proc Fcntl Ulib.

Inductive uprog :=
| UExit (status : Z)
| URead (fd n : Z) (k : Z → list Z → uprog)
| UWrite (fd : Z) (b : list Z) (k : Z → uprog)
| UOpen (path : list Z) (mode : Z) (k : Z → uprog)
| UMknod (path : list Z) (major minor : Z) (k : Z → uprog)
| UDup (fd : Z) (k : Z → uprog)
| UPipe (k : Z → Z → Z → uprog)
| UFork (k : Z → uprog)
| UWait (k : Z → uprog)
| UExec (path : list Z) (argv : list (list Z)) (k : uprog)
| UKill (pid : Z) (k : Z → uprog)
| ULink (old new : list Z) (k : Z → uprog)
| UUnlink (path : list Z) (k : Z → uprog)
| UMkdir (path : list Z) (k : Z → uprog)
| UGetpid (k : Z → uprog)
| USleep (n : Z) (k : Z → uprog)
| USpin. (* a loop has used up its fuel *)

(** ** Output *)

(** [putc] for each byte. *)
Fixpoint uputs (fd : Z) (l : list Z) (k : uprog) : uprog :=
  match l with [] => k | c :: l' => UWrite fd [c] (λ _, uputs fd l' k) end.

Definition ufprintf (fd : Z) (fmt : list Z) (ap : list va) (k : uprog) : uprog :=
  match User.vprintf fmt ap with Ok l => uputs fd l k | _ => USpin end.

Definition newline : list Z := [10].

(** ** The programs; [argv] does not hold the name of the program. *)

Fixpoint echo (argv : list (list Z)) : uprog :=
  match argv with
  | [] => UExit 0
  | a :: argv' => UWrite 1 a (λ _, UWrite 1 (if decide (argv' = []) then newline else chars " ") (λ _, echo argv'))
  end.

Fixpoint kill_all (argv : list (list Z)) : uprog :=
  match argv with [] => UExit 0 | a :: argv' => UKill (Lib.atoi a) (λ _, kill_all argv') end.

Definition ukill (argv : list (list Z)) : uprog :=
  if zlen argv + 1 <? 2 then ufprintf 2 (chars "usage: kill pid..." ++ newline) [] (UExit 1) else kill_all argv.

Definition ln (argv : list (list Z)) : uprog :=
  match argv with
  | [old; new] =>
      ULink old new (λ r,
        if r <? 0 then ufprintf 2 (chars "link %s %s: failed" ++ newline) [VStr (Some old); VStr (Some new)] (UExit 0) else UExit 0)
  | _ => ufprintf 2 (chars "Usage: ln old new" ++ newline) [] (UExit 1)
  end.

Fixpoint mkdir_all (argv : list (list Z)) : uprog :=
  match argv with
  | [] => UExit 0
  | a :: argv' =>
      UMkdir a (λ r,
        if r <? 0 then ufprintf 2 (chars "mkdir: %s failed to create" ++ newline) [VStr (Some a)] (UExit 0) else mkdir_all argv')
  end.

Definition umkdir (argv : list (list Z)) : uprog :=
  if zlen argv + 1 <? 2 then ufprintf 2 (chars "Usage: mkdir files..." ++ newline) [] (UExit 1) else mkdir_all argv.

Fixpoint rm_all (argv : list (list Z)) : uprog :=
  match argv with
  | [] => UExit 0
  | a :: argv' =>
      UUnlink a (λ r,
        if r <? 0 then ufprintf 2 (chars "rm: %s failed to delete" ++ newline) [VStr (Some a)] (UExit 0) else rm_all argv')
  end.

Definition rm (argv : list (list Z)) : uprog :=
  if zlen argv + 1 <? 2 then ufprintf 2 (chars "Usage: rm files..." ++ newline) [] (UExit 1) else rm_all argv.

Definition zombie : uprog := UFork (λ pid, if 0 <? pid then USleep 5 (λ _, UExit 0) else UExit 0).

(** [forktest.c]: fork until it fails, then wait for every child. *)
Definition print (s : list Z) (k : uprog) : uprog := UWrite 1 s (λ _, k).

Definition FORKS : nat := 1000.

Fixpoint wait_all (n : nat) : uprog :=
  match n with
  | O => UWait (λ r, if negb (r =? -1) then print (chars "wait got too many" ++ newline) (UExit 1)
                     else print (chars "fork test OK" ++ newline) (UExit 0))
  | S n' => UWait (λ r, if r <? 0 then print (chars "wait stopped early" ++ newline) (UExit 1) else wait_all n')
  end.

(** [left] more forks, after [n] that succeeded. *)
Fixpoint fork_loop (left n : nat) : uprog :=
  match left with
  | O => print (chars "fork claimed to work N times!" ++ newline) (UExit 1)
  | S left' => UFork (λ pid, if pid <? 0 then wait_all n else if pid =? 0 then UExit 0 else fork_loop left' (S n))
  end.

Definition forktest : uprog := print (chars "fork test" ++ newline) (fork_loop FORKS 0).

(** [init.c]: the loop runs for [n] shells, each with [m] calls of [wait]. *)
Section init_waits.
Context (restart : uprog).
Fixpoint init_wait (m : nat) (pid : Z) : uprog :=
  match m with
  | O => USpin
  | S m' =>
      UWait (λ wpid,
        if wpid =? pid then restart
        else if wpid <? 0 then ufprintf 1 (chars "init: wait returned an error" ++ newline) [] (UExit 1)
        else init_wait m' pid)
  end.
End init_waits.

Fixpoint init_loop (n m : nat) : uprog :=
  match n with
  | O => USpin
  | S n' =>
      ufprintf 1 (chars "init: starting sh" ++ newline) []
        (UFork (λ pid,
           if pid <? 0 then ufprintf 1 (chars "init: fork failed" ++ newline) [] (UExit 1)
           else if pid =? 0 then UExec (chars "sh") [chars "sh"] (ufprintf 1 (chars "init: exec sh failed" ++ newline) [] (UExit 1))
           else init_wait (init_loop n' m) m pid))
  end.

Definition init (n m : nat) : uprog :=
  let rest := UDup 0 (λ _, UDup 0 (λ _, init_loop n m)) in
  UOpen (chars "console") O_RDWR (λ r,
    if r <? 0 then UMknod (chars "console") CONSOLE 0 (λ _, UOpen (chars "console") O_RDWR (λ _, rest)) else rest).

(** ** [pingpong.c] *)

Definition pipe_new (k : Z → Z → uprog) : uprog :=
  UPipe (λ r input output,
    if negb (r =? 0) then ufprintf 2 (chars "error: pipe failed" ++ newline) [] (UExit 1) else k input output).

(** The string in a buffer of [n] zeros that starts with the bytes read. *)
Definition response (n : nat) (b : list Z) : list Z := until_nul (b ++ replicate (n - length b) 0).

Definition got (b : list Z) (k : uprog) : uprog :=
  UGetpid (λ pid, ufprintf 1 (chars "%d: got %s" ++ newline) [VInt pid; VStr (Some (response 5 b))] k).

Definition read_failed : uprog := ufprintf 2 (chars "error: read failed" ++ newline) [] (UExit 3).
Definition write_failed : uprog := ufprintf 2 (chars "error: write failed" ++ newline) [] (UExit 3).

Definition process_child (input output : Z) (k : uprog) : uprog :=
  URead input 4 (λ r b,
    if negb (r =? 4) then read_failed
    else got b (UWrite output (chars "pong") (λ r, if negb (r =? 4) then write_failed else k))).

Definition process_parent (input output : Z) (k : uprog) : uprog :=
  UWrite output (chars "ping") (λ r,
    if negb (r =? 4) then write_failed
    else URead input 4 (λ r b, if negb (r =? 4) then read_failed else got b k)).

Definition pingpong : uprog :=
  pipe_new (λ parent_input parent_output,
    pipe_new (λ child_input child_output,
      UFork (λ pid,
        if pid <? 0 then ufprintf 2 (chars "error: fork failed" ++ newline) [] (UExit 2)
        else if pid =? 0 then process_child parent_input child_output (UExit 0)
        else process_parent child_input parent_output (UExit 0)))).

(** ** Processes and pipes *)

Inductive file_end := RdEnd (p : nat) | WrEnd (p : nat) | Tty.

Record uproc := mk_uproc { uprg : uprog; ufds : gmap Z file_end }.

Record uworld := mk_uworld { uprocs : gmap Z uproc; uqueues : list (list Z); utty : list Z; ustatus : gmap Z Z }.

(** The lowest free descriptor. *)
Definition fd_free (t : gmap Z file_end) : option Z :=
  head (filter (λ fd, t !! fd = None) (Z.of_nat <$> seq 0 (Z.to_nat NOFILE))).

(** A process has this end open. *)
Definition is_open (w : uworld) (e : file_end) : Prop := ∃ pid x fd, uprocs w !! pid = Some x ∧ ufds x !! fd = Some e.

Definition set_proc (w : uworld) (pid : Z) (x : uproc) : uworld := mk_uworld (<[pid := x]> (uprocs w)) (uqueues w) (utty w) (ustatus w).
Definition set_queue (w : uworld) (p : nat) (q : list Z) : uworld := mk_uworld (uprocs w) (<[p := q]> (uqueues w)) (utty w) (ustatus w).
Definition add_queue (w : uworld) : uworld := mk_uworld (uprocs w) (uqueues w ++ [[]]) (utty w) (ustatus w).
Definition add_tty (w : uworld) (b : list Z) : uworld := mk_uworld (uprocs w) (uqueues w) (utty w ++ b) (ustatus w).

(** The calls [pingpong] makes. [pipe] and [fork] find room; a read waits for data while
    the write end is open, and a write of more than fits goes on when there is room. *)
Inductive ustep (w : uworld) : uworld → Prop :=
| ustep_exit pid st t :
    uprocs w !! pid = Some (mk_uproc (UExit st) t) →
    ustep w (mk_uworld (delete pid (uprocs w)) (uqueues w) (utty w) (<[pid := st]> (ustatus w)))
| ustep_getpid pid k t :
    uprocs w !! pid = Some (mk_uproc (UGetpid k) t) →
    ustep w (set_proc w pid (mk_uproc (k pid) t))
| ustep_pipe pid k t a b :
    uprocs w !! pid = Some (mk_uproc (UPipe k) t) → let p := length (uqueues w) in
    fd_free t = Some a → fd_free (<[a := RdEnd p]> t) = Some b →
    ustep w (add_queue (set_proc w pid (mk_uproc (k 0 a b) (<[b := WrEnd p]> (<[a := RdEnd p]> t)))))
| ustep_fork pid k t child :
    uprocs w !! pid = Some (mk_uproc (UFork k) t) → 0 < child < 2 ^ 31 → uprocs w !! child = None → ustatus w !! child = None →
    ustep w (set_proc (set_proc w pid (mk_uproc (k child) t)) child (mk_uproc (k 0) t))
| ustep_read pid fd n k t p q :
    uprocs w !! pid = Some (mk_uproc (URead fd n k) t) → t !! fd = Some (RdEnd p) → uqueues w !! p = Some q → q ≠ [] →
    let b := take (Z.to_nat n) q in
    ustep w (set_queue (set_proc w pid (mk_uproc (k (zlen b) b) t)) p (drop (Z.to_nat n) q))
| ustep_read_end pid fd n k t p :
    uprocs w !! pid = Some (mk_uproc (URead fd n k) t) → t !! fd = Some (RdEnd p) → uqueues w !! p = Some [] → ¬ is_open w (WrEnd p) →
    ustep w (set_proc w pid (mk_uproc (k 0 []) t))
| ustep_write pid fd b k t p q :
    uprocs w !! pid = Some (mk_uproc (UWrite fd b k) t) → t !! fd = Some (WrEnd p) → uqueues w !! p = Some q → is_open w (RdEnd p) →
    zlen q + zlen b ≤ PIPESIZE →
    ustep w (set_queue (set_proc w pid (mk_uproc (k (zlen b)) t)) p (q ++ b))
| ustep_write_part pid fd b k t p q :
    uprocs w !! pid = Some (mk_uproc (UWrite fd b k) t) → t !! fd = Some (WrEnd p) → uqueues w !! p = Some q → is_open w (RdEnd p) →
    zlen q < PIPESIZE < zlen q + zlen b → let m := PIPESIZE - zlen q in
    ustep w (set_queue (set_proc w pid (mk_uproc (UWrite fd (drop (Z.to_nat m) b) (λ r, k (if r <? 0 then r else r + m))) t)) p (q ++ take (Z.to_nat m) b))
| ustep_write_broken pid fd b k t p :
    uprocs w !! pid = Some (mk_uproc (UWrite fd b k) t) → t !! fd = Some (WrEnd p) → ¬ is_open w (RdEnd p) →
    ustep w (set_proc w pid (mk_uproc (k (-1)) t))
| ustep_tty pid fd b k t :
    uprocs w !! pid = Some (mk_uproc (UWrite fd b k) t) → t !! fd = Some Tty →
    ustep w (add_tty (set_proc w pid (mk_uproc (k (zlen b)) t)) b).

Definition console_fds : gmap Z file_end := {[0 := Tty; 1 := Tty; 2 := Tty]}.

(** One process with [prog], as the shell starts it. *)
Definition launched (prog : uprog) (pid : Z) : uworld := mk_uworld {[pid := mk_uproc prog console_fds]} [] [] ∅.

(** ** [pingpong] *)

Definition decimal (x : Z) : list Z := match User.printint x 10 true with Ok l => l | _ => [] end.

Definition line (pid : Z) (s : list Z) : list Z := decimal pid ++ chars ": got " ++ s ++ newline.

Lemma got_line pid s k : 0 ≤ pid < 2 ^ 31 →
  ufprintf 1 (chars "%d: got %s" ++ newline) [VInt pid; VStr (Some s)] k = uputs 1 (line pid s) k.
Proof.
  intros Hp. destruct (atoi_printint pid Hp) as (l & E & _). unfold line, decimal. rewrite E. unfold ufprintf.
  assert (Ev : User.vprintf (chars "%d: got %s" ++ newline) [VInt pid; VStr (Some s)] = Ok (l ++ chars ": got " ++ s ++ newline)); [|by rewrite Ev].
  let x := eval vm_compute in (chars "%d: got %s" ++ newline) in change (chars "%d: got %s" ++ newline) with x.
  let x := eval vm_compute in (chars ": got ") in change (chars ": got ") with x.
  assert (Ec : User.conversion 100 [VInt pid; VStr (Some s)] = Ok (l, [VStr (Some s)])).
  { unfold User.conversion. cbn [Z.eqb Pos.eqb va_int]. rewrite bind_Ok. cbv beta iota. by rewrite E. }
  unfold User.vprintf. cbn [User.vprintf_loop Z.eqb Pos.eqb negb PERCENT]. rewrite Ec, bind_Ok. reflexivity.
Qed.

(** The descriptors of both processes after the two calls of [pipe]. *)
Definition pp_fds : gmap Z file_end := {[0 := Tty; 1 := Tty; 2 := Tty; 3 := RdEnd 0; 4 := WrEnd 0; 5 := RdEnd 1; 6 := WrEnd 1]}.

Definition ping : list Z := chars "ping".
Definition pong : list Z := chars "pong".

(** What the child does after it has printed, and the parent after it has written. *)
Definition child_answer : uprog := UWrite 6 pong (λ r, if negb (r =? 4) then write_failed else UExit 0).
Definition parent_read : uprog := URead 5 4 (λ r b, if negb (r =? 4) then read_failed else got b (UExit 0)).

Section pingpong.
Context (pid child : Z).
Hypothesis (Hpid : 0 < pid < 2 ^ 31) (Hchild : 0 < child < 2 ^ 31) (Hne : pid ≠ child).

(** The two processes, the two pipes and the terminal; [None] is a process that has
    ended with status 0. *)
Definition pp_world (P C : option uprog) (q0 q1 out : list Z) : uworld :=
  mk_uworld
    (match P, C with
     | Some g, Some g' => {[pid := mk_uproc g pp_fds; child := mk_uproc g' pp_fds]}
     | Some g, None => {[pid := mk_uproc g pp_fds]}
     | None, Some g' => {[child := mk_uproc g' pp_fds]}
     | None, None => ∅
     end)
    [q0; q1] out
    (match P, C with Some _, Some _ => ∅ | Some _, None => {[child := 0]} | None, Some _ => {[pid := 0]} | None, None => {[pid := 0; child := 0]} end).

Lemma pp_lookup P C q0 q1 out x y :
  uprocs (pp_world P C q0 q1 out) !! x = Some y ↔
  (x = pid ∧ ∃ g, P = Some g ∧ y = mk_uproc g pp_fds) ∨ (x = child ∧ ∃ g, C = Some g ∧ y = mk_uproc g pp_fds).
Proof using Hne.
  clear Hpid Hchild. cbn [pp_world uprocs]. destruct P as [g|], C as [g'|].
  - rewrite lookup_insert_Some, lookup_singleton_Some. naive_solver.
  - rewrite lookup_singleton_Some. naive_solver.
  - rewrite lookup_singleton_Some. naive_solver.
  - rewrite lookup_empty. naive_solver.
Qed.

Lemma pp_set_parent g g' C q0 q1 out :
  set_proc (pp_world (Some g) C q0 q1 out) pid (mk_uproc g' pp_fds) = pp_world (Some g') C q0 q1 out.
Proof using Type. unfold set_proc. destruct C; cbn; by rewrite ?insert_insert_eq, ?insert_singleton_eq. Qed.

Lemma pp_set_child P g g' q0 q1 out :
  set_proc (pp_world P (Some g) q0 q1 out) child (mk_uproc g' pp_fds) = pp_world P (Some g') q0 q1 out.
Proof using Hne.
  unfold set_proc. destruct P; cbn; [|by rewrite insert_singleton_eq]. f_equal. rewrite insert_insert_ne by done. by rewrite insert_singleton_eq.
Qed.

Definition pp_exit (w : uworld) (x : Z) : uworld := mk_uworld (delete x (uprocs w)) (uqueues w) (utty w) (<[x := 0]> (ustatus w)).

Lemma pp_exit_parent g C q0 q1 out : pp_exit (pp_world (Some g) C q0 q1 out) pid = pp_world None C q0 q1 out.
Proof using Hne.
  unfold pp_exit. destruct C; cbn.
  - f_equal. rewrite delete_insert_eq. by rewrite delete_singleton_ne.
  - f_equal. by rewrite delete_singleton_eq.
Qed.

Lemma pp_exit_child P g q0 q1 out : pp_exit (pp_world P (Some g) q0 q1 out) child = pp_world P None q0 q1 out.
Proof using Hne.
  unfold pp_exit. destruct P; cbn.
  - f_equal. rewrite delete_insert_ne by done. by rewrite delete_singleton_eq.
  - rewrite delete_singleton_eq. f_equal. rewrite <- !insert_empty. by rewrite insert_insert_ne.
Qed.

(** *** What a process can do *)

Definition acts (w : uworld) (x : Z) (g : uprog) (w' : uworld) : Prop :=
  match g with
  | UExit st => w' = mk_uworld (delete x (uprocs w)) (uqueues w) (utty w) (<[x := st]> (ustatus w))
  | UGetpid k => w' = set_proc w x (mk_uproc (k x) pp_fds)
  | URead fd n k => ∃ p q, pp_fds !! fd = Some (RdEnd p) ∧ uqueues w !! p = Some q ∧ q ≠ [] ∧
      w' = set_queue (set_proc w x (mk_uproc (k (zlen (take (Z.to_nat n) q)) (take (Z.to_nat n) q)) pp_fds)) p (drop (Z.to_nat n) q)
  | UWrite fd b k =>
      (pp_fds !! fd = Some Tty ∧ w' = add_tty (set_proc w x (mk_uproc (k (zlen b)) pp_fds)) b) ∨
      ∃ p q, pp_fds !! fd = Some (WrEnd p) ∧ uqueues w !! p = Some q ∧
        (w' = set_queue (set_proc w x (mk_uproc (k (zlen b)) pp_fds)) p (q ++ b) ∨ PIPESIZE < zlen q + zlen b)
  | UPipe _ | UFork _ => True
  | _ => False
  end.

Lemma pp_fds_end fd e : pp_fds !! fd = Some e → e = Tty ∨ ∃ fd', pp_fds !! fd' = Some (match e with RdEnd p => WrEnd p | WrEnd p => RdEnd p | Tty => Tty end).
Proof using Type.
  unfold pp_fds. rewrite !lookup_insert_Some, lookup_singleton_Some.
  intros [[<- <-]|[_ [[<- <-]|[_ [[<- <-]|[_ [[<- <-]|[_ [[<- <-]|[_ [[<- <-]|[_ [<- <-]]]]]]]]]]]]]; [by left|by left|by left|right..];
    [exists 4|exists 3|exists 6|exists 5]; reflexivity.
Qed.

(** Each process has both ends of each pipe open, so neither sees the other end closed. *)
Lemma step_acts P C q0 q1 out w' :
  ustep (pp_world P C q0 q1 out) w' →
  ∃ x g, (x = pid ∧ P = Some g ∨ x = child ∧ C = Some g) ∧ acts (pp_world P C q0 q1 out) x g w'.
Proof using Hne.
  clear Hpid Hchild. set (w := pp_world P C q0 q1 out).
  assert (Hl : ∀ x g t, uprocs w !! x = Some (mk_uproc g t) → t = pp_fds ∧ (x = pid ∧ P = Some g ∨ x = child ∧ C = Some g)).
  { intros x g t Hx. apply pp_lookup in Hx as [(-> & g' & -> & [= -> ->])|(-> & g' & -> & [= -> ->])]; auto. }
  assert (Ho : ∀ x g fd e, uprocs w !! x = Some (mk_uproc g pp_fds) → pp_fds !! fd = Some e → is_open w e) by (intros x g fd e Hx He; by exists x, (mk_uproc g pp_fds), fd).
  intros [x st t Hx|x k t Hx|x k t a b Hx p _ _|x k t c Hx _ _ _|x fd n k t p q Hx Hf Hq Hn b|x fd n k t p Hx Hf Hq Hn|x fd b k t p q Hx Hf Hq Ho' Hs|
          x fd b k t p q Hx Hf Hq Ho' Hs m|x fd b k t p Hx Hf Hn|x fd b k t Hx Hf];
    destruct (Hl _ _ _ Hx) as [-> Hxg]; eexists x, _; (split; [exact Hxg|]); cbn [acts].
  - reflexivity.
  - reflexivity.
  - exact I.
  - exact I.
  - by exists p, q.
  - exfalso. destruct (pp_fds_end _ _ Hf) as [?|[fd' Hf']]; [done|]. apply Hn. by eapply Ho.
  - right. exists p, q. auto.
  - right. exists p, q. split; [done|]. split; [done|]. right. lia.
  - exfalso. destruct (pp_fds_end _ _ Hf) as [?|[fd' Hf']]; [done|]. apply Hn. by eapply Ho.
  - left. by split.
Qed.

(** *** The course of the conversation *)

Definition conversation : list Z := line child ping ++ line pid pong.

Local Notation n1 := (length (line child ping)).
Local Notation n2 := (length (line pid pong)).

(** The child has sent its answer, and may have ended. *)
Inductive child_done : option uprog → nat → Prop :=
| child_exits : child_done (Some (UExit 0)) 1
| child_gone : child_done None 0.

(** The states after the fork, with a bound on the steps to come. *)
Inductive pp_at : uworld → nat → Prop :=
| at_start : pp_at (pp_world (Some (process_parent 5 4 (UExit 0))) (Some (process_child 3 6 (UExit 0))) [] [] []) (n1 + n2 + 12)
| at_sent : pp_at (pp_world (Some parent_read) (Some (process_child 3 6 (UExit 0))) ping [] []) (n1 + n2 + 11)
| at_heard : pp_at (pp_world (Some parent_read) (Some (got ping child_answer)) [] [] []) (n1 + n2 + 10)
| at_child a l : a ++ l = line child ping →
    pp_at (pp_world (Some parent_read) (Some (uputs 1 l child_answer)) [] [] a) (length l + n2 + 9)
| at_answered C e : child_done C e → pp_at (pp_world (Some parent_read) C [] pong (line child ping)) (n2 + 4 + e)
| at_got C e : child_done C e → pp_at (pp_world (Some (got pong (UExit 0))) C [] [] (line child ping)) (n2 + 3 + e)
| at_parent C e a l : child_done C e → a ++ l = conversation →
    pp_at (pp_world (Some (uputs 1 l (UExit 0))) C [] [] a) (length l + 1 + e)
| at_end C e : child_done C e → pp_at (pp_world None C [] [] conversation) e.

Lemma pp_at_prefix w m : pp_at w m → utty w `prefix_of` conversation.
Proof using Type.
  intros [| | |a l E|C e _|C e _|C e a l _ E|C e _]; cbn [utty pp_world]; try apply prefix_nil.
  - exists (l ++ line pid pong). unfold conversation. by rewrite <- E, <- app_assoc.
  - by exists (line pid pong).
  - by exists (line pid pong).
  - by exists l.
  - done.
Qed.

(** The child ends: nothing else changes. *)
Lemma child_done_acts P C e x g q0 q1 out w' :
  child_done C e → C = Some g → acts (pp_world P C q0 q1 out) child g w' → x = child →
  w' = pp_world P None q0 q1 out ∧ e = 1%nat.
Proof using Hne.
  intros [] Eg; [injection Eg as <-|done]. cbn [acts]. intros -> _. split; [|done]. apply pp_exit_child.
Qed.

Lemma pp_at_step w m w' : pp_at w m → ustep w w' → ∃ m', (m' < m)%nat ∧ pp_at w' m'.
Proof using Hchild Hne Hpid.
  assert (R1 : response 5 ping = ping) by (vm_compute; reflexivity). assert (R2 : response 5 pong = pong) by (vm_compute; reflexivity).
  intros [| | |a l E|C e Hc|C e Hc|C e a l Hc E|C e Hc] Hs; apply step_acts in Hs as (x & g & [[-> Eg]|[-> Eg]] & Ha).
  all: try (destruct (child_done_acts _ _ _ _ _ _ _ _ _ Hc Eg Ha eq_refl) as [-> ->]).
  all: try discriminate Eg. all: try (injection Eg as <-).
  - destruct Ha as [[E _]|(p & q & [= <-] & [= <-] & [->|Hf])]; [discriminate E| |by vm_compute in Hf].
    rewrite pp_set_parent. exists (n1 + n2 + 11)%nat. split; [lia|]. exact at_sent.
  - by destruct Ha as (p & q & [= <-] & [= <-] & Hq & _).
  - by destruct Ha as (p & q & [= <-] & [= <-] & Hq & _).
  - destruct Ha as (p & q & [= <-] & [= <-] & _ & ->). rewrite pp_set_child. exists (n1 + n2 + 10)%nat. split; [lia|]. exact at_heard.
  - by destruct Ha as (p & q & [= <-] & [= <-] & Hq & _).
  - cbn [got acts] in Ha. rewrite R1, got_line in Ha by lia. rewrite Ha, pp_set_child. exists (n1 + n2 + 9)%nat. split; [lia|]. by apply (at_child []).
  - by destruct Ha as (p & q & [= <-] & [= <-] & Hq & _).
  - destruct l as [|c l]; cbn [uputs] in Ha.
    + destruct Ha as [[E' _]|(p & q & [= <-] & [= <-] & [->|Hf])]; [discriminate E'| |by vm_compute in Hf].
      rewrite pp_set_child. rewrite app_nil_r in E. subst a. exists (n2 + 4 + 1)%nat. split; [cbn; lia|]. exact (at_answered _ _ child_exits).
    + destruct Ha as [[_ ->]|(p & q & E' & _)]; [|discriminate E']. rewrite pp_set_child. exists (length l + n2 + 9)%nat. split; [cbn; lia|].
      apply at_child. by rewrite <- app_assoc.
  - destruct Ha as (p & q & [= <-] & [= <-] & _ & ->). rewrite pp_set_parent. exists (n2 + 3 + e)%nat. split; [lia|]. exact (at_got _ _ Hc).
  - exists (n2 + 4 + 0)%nat. split; [lia|]. apply at_answered. constructor.
  - cbn [got acts] in Ha. rewrite R2, got_line in Ha by lia. rewrite Ha, pp_set_parent. exists (n2 + 1 + e)%nat. split; [lia|]. by apply at_parent.
  - exists (n2 + 3 + 0)%nat. split; [lia|]. apply at_got. constructor.
  - destruct l as [|c l]; cbn [uputs] in Ha.
    + rewrite app_nil_r in E. subst a. cbn [acts] in Ha. rewrite Ha. exists e. split; [cbn; lia|].
      match goal with |- pp_at ?g _ => change g with (pp_exit (pp_world (Some (UExit 0)) C [] [] conversation) pid) end. rewrite pp_exit_parent. by apply at_end.
    + destruct Ha as [[_ ->]|(p & q & E' & _)]; [|discriminate E']. rewrite pp_set_parent. exists (length l + 1 + e)%nat. split; [cbn; lia|].
      apply at_parent; [done|]. by rewrite <- app_assoc.
  - exists (length l + 1 + 0)%nat. split; [lia|]. apply at_parent; [constructor|done].
  - exists 0%nat. split; [lia|]. apply at_end. constructor.
Qed.

Lemma pp_at_progress w m : pp_at w m → (∃ w', ustep w w') ∨ w = pp_world None None [] [] conversation.
Proof using Hne.
  clear Hpid Hchild.
  assert (LP : ∀ g C q0 q1 out, uprocs (pp_world (Some g) C q0 q1 out) !! pid = Some (mk_uproc g pp_fds)) by (intros; apply pp_lookup; eauto).
  assert (LC : ∀ P g q0 q1 out, uprocs (pp_world P (Some g) q0 q1 out) !! child = Some (mk_uproc g pp_fds)) by (intros; apply pp_lookup; eauto).
  intros [| | |a l E|C e Hc|C e Hc|C e a l Hc E|C e Hc].
  - left. eexists. eapply (ustep_write _ pid 4); [apply LP|reflexivity|reflexivity| |by vm_compute]. by exists pid, (mk_uproc (process_parent 5 4 (UExit 0)) pp_fds), 3.
  - left. eexists. eapply (ustep_read _ child 3); [apply LC|reflexivity|reflexivity|discriminate].
  - left. eexists. eapply (ustep_getpid _ child). apply LC.
  - left. destruct l as [|c l]; eexists.
    + eapply (ustep_write _ child 6); [apply LC|reflexivity|reflexivity| |by vm_compute]. by exists pid, (mk_uproc parent_read pp_fds), 5.
    + eapply (ustep_tty _ child 1); [apply LC|reflexivity].
  - left. eexists. eapply (ustep_read _ pid 5); [apply LP|reflexivity|reflexivity|discriminate].
  - left. eexists. eapply (ustep_getpid _ pid). apply LP.
  - left. destruct l as [|c l]; eexists.
    + eapply (ustep_exit _ pid). apply LP.
    + eapply (ustep_tty _ pid 1); [apply LP|reflexivity].
  - destruct Hc; [left; eexists; eapply (ustep_exit _ child); apply LC|by right].
Qed.

(** *** Before the fork *)

Definition second_pipe (parent_input parent_output : Z) : uprog :=
  pipe_new (λ child_input child_output,
    UFork (λ c,
      if c <? 0 then ufprintf 2 (chars "error: fork failed" ++ newline) [] (UExit 2)
      else if c =? 0 then process_child parent_input child_output (UExit 0)
      else process_parent child_input parent_output (UExit 0))).

Definition pp_fork : uprog :=
  UFork (λ c,
    if c <? 0 then ufprintf 2 (chars "error: fork failed" ++ newline) [] (UExit 2)
    else if c =? 0 then process_child 3 6 (UExit 0)
    else process_parent 5 4 (UExit 0)).

Definition one_pipe : uworld := mk_uworld {[pid := mk_uproc (second_pipe 3 4) (<[4 := WrEnd 0]> (<[3 := RdEnd 0]> console_fds))]} [[]] [] ∅.
Definition two_pipes : uworld := mk_uworld {[pid := mk_uproc pp_fork pp_fds]} [[]; []] [] ∅.

(** A single process that calls [pipe]. *)
Lemma pipe_step k t Q out st w' a b :
  fd_free t = Some a → fd_free (<[a := RdEnd (length Q)]> t) = Some b →
  ustep (mk_uworld {[pid := mk_uproc (UPipe k) t]} Q out st) w' ↔
  w' = mk_uworld {[pid := mk_uproc (k 0 a b) (<[b := WrEnd (length Q)]> (<[a := RdEnd (length Q)]> t))]} (Q ++ [[]]) out st.
Proof using Type.
  clear Hpid Hchild Hne. intros Ea Eb. set (w := mk_uworld _ _ _ _).
  assert (Es : ∀ y, add_queue (set_proc w pid y) = mk_uworld {[pid := y]} (Q ++ [[]]) out st)
    by (intros y; unfold add_queue, set_proc; cbn; by rewrite insert_singleton_eq).
  split.
  - intros Hs. destruct Hs as [x s t' Hx|x k' t' Hx|x k' t' a' b' Hx p Ea' Eb'|x k' t' c Hx|x fd n k' t' p q Hx|x fd n k' t' p Hx|x fd b' k' t' p q Hx|
      x fd b' k' t' p q Hx|x fd b' k' t' p Hx|x fd b' k' t' Hx]; cbn in Hx; apply lookup_singleton_Some in Hx as [<- Hx]; try discriminate Hx.
    injection Hx as <- <-. unfold p in *. change (uqueues w) with Q in *. rewrite Ea in Ea'. injection Ea' as <-. rewrite Eb in Eb'. injection Eb' as <-. apply Es.
  - intros ->. rewrite <- Es. apply (ustep_pipe w pid k t a b); [apply lookup_singleton_eq|exact Ea|exact Eb].
Qed.
End pingpong.

Lemma fork_step pid w' :
  0 < pid → ustep (two_pipes pid) w' →
  ∃ child, 0 < child < 2 ^ 31 ∧ pid ≠ child ∧ pp_at pid child w' (length (line child ping) + length (line pid pong) + 12).
Proof.
  intros Hpid Hs. destruct Hs as [x s t' Hx|x k' t' Hx|x k' t' a' b' Hx p Ea' Eb'|x k' t' c Hx Hc Hn _|x fd n k' t' p q Hx|x fd n k' t' p Hx|x fd b' k' t' p q Hx|
      x fd b' k' t' p q Hx|x fd b' k' t' p Hx|x fd b' k' t' Hx]; cbn in Hx; apply lookup_singleton_Some in Hx as [<- Hx]; try discriminate Hx.
  injection Hx as <- <-. cbn in Hn. apply lookup_singleton_None in Hn. exists c. split; [done|]. split; [done|].
  match goal with |- pp_at _ _ ?g _ => assert (E : g = pp_world pid c (Some (process_parent 5 4 (UExit 0))) (Some (process_child 3 6 (UExit 0))) [] [] []) end;
    [|rewrite E; apply at_start].
  destruct (Z.ltb_spec c 0); [lia|]. destruct (Z.eqb_spec c 0); [lia|]. unfold set_proc, pp_world. cbn [uprocs two_pipes uqueues utty ustatus].
  f_equal. rewrite insert_singleton_eq. rewrite <- !insert_empty. by rewrite insert_insert_ne.
Qed.

Lemma fork_ready pid : 0 < pid → ∃ w', ustep (two_pipes pid) w'.
Proof.
  intros Hpid. destruct (decide (pid = 1)) as [->|Hne]; eexists.
  - eapply (ustep_fork _ 1 _ pp_fds 2); [apply lookup_singleton_eq|lia|by apply lookup_singleton_None|apply lookup_empty].
  - eapply (ustep_fork _ pid _ pp_fds 1); [apply lookup_singleton_eq|lia|by apply lookup_singleton_None|apply lookup_empty].
Qed.

Lemma pipe_new_step pid k t Q out st w' a b :
  fd_free t = Some a → fd_free (<[a := RdEnd (length Q)]> t) = Some b →
  ustep (mk_uworld {[pid := mk_uproc (pipe_new k) t]} Q out st) w' ↔
  w' = mk_uworld {[pid := mk_uproc (k a b) (<[b := WrEnd (length Q)]> (<[a := RdEnd (length Q)]> t))]} (Q ++ [[]]) out st.
Proof.
  exact (pipe_step pid (λ r input output,
    if negb (r =? 0) then ufprintf 2 (chars "error: pipe failed" ++ newline) [] (UExit 1) else k input output) t Q out st w' a b).
Qed.

Lemma first_pipe_step pid w' : ustep (launched pingpong pid) w' ↔ w' = one_pipe pid.
Proof. exact (pipe_new_step pid second_pipe console_fds [] [] ∅ w' 3 4 eq_refl eq_refl). Qed.

Lemma second_pipe_step pid w' : ustep (one_pipe pid) w' ↔ w' = two_pipes pid.
Proof.
  assert (E : <[6 := WrEnd 1]> (<[5 := RdEnd 1]> (<[4 := WrEnd 0]> (<[3 := RdEnd 0]> console_fds))) = pp_fds) by (vm_compute; reflexivity).
  unfold two_pipes. rewrite <- E.
  exact (pipe_new_step pid (λ child_input child_output,
    UFork (λ c,
      if c <? 0 then ufprintf 2 (chars "error: fork failed" ++ newline) [] (UExit 2)
      else if c =? 0 then process_child 3 child_output (UExit 0)
      else process_parent child_input 4 (UExit 0))) (<[4 := WrEnd 0]> (<[3 := RdEnd 0]> console_fds)) [[]] [] ∅ w' 5 6 eq_refl eq_refl).
Qed.

Definition pp_reach (pid : Z) (w : uworld) : Prop :=
  w = launched pingpong pid ∨ w = one_pipe pid ∨ w = two_pipes pid ∨
  ∃ child m, 0 < child < 2 ^ 31 ∧ pid ≠ child ∧ pp_at pid child w m.

Lemma pp_reach_step pid w w' : 0 < pid < 2 ^ 31 → pp_reach pid w → ustep w w' → pp_reach pid w'.
Proof.
  intros Hp [->|[->|[->|(c & m & Hc & Hne & Hat)]]] Hs.
  - right; left. by apply first_pipe_step.
  - right; right; left. by apply second_pipe_step.
  - destruct (fork_step pid w' ltac:(lia) Hs) as (c & Hc & Hne & Hat). right; right; right. eauto 6.
  - destruct (pp_at_step pid c Hp Hc Hne w m w' Hat Hs) as (m' & _ & Hat'). right; right; right. eauto 6.
Qed.

Lemma pp_reach_sn pid w : 0 < pid < 2 ^ 31 → pp_reach pid w → sn ustep w.
Proof.
  intros Hp. assert (Hat : ∀ c, 0 < c < 2 ^ 31 → pid ≠ c → ∀ m w, pp_at pid c w m → sn ustep w).
  { intros c Hc Hne m. induction m as [m IH] using lt_wf_ind. intros v Hv. constructor. intros v' Hs.
    destruct (pp_at_step pid c Hp Hc Hne v m v' Hv Hs) as (m' & Hm & Hv'). by apply (IH m'). }
  assert (H3 : sn ustep (two_pipes pid)).
  { constructor. intros v Hs. destruct (fork_step pid v ltac:(lia) Hs) as (c & Hc & Hne & Hv). by eapply Hat. }
  assert (H2 : sn ustep (one_pipe pid)) by (constructor; intros v Hs; apply second_pipe_step in Hs; by subst v).
  intros [->|[->|[->|(c & m & Hc & Hne & Hv)]]]; [|done|done|by eapply Hat].
  constructor. intros v Hs. apply first_pipe_step in Hs. by subst v.
Qed.

(** C29: [pingpong] holds the conversation it is named after. Started with descriptors 0 to
    2 on the terminal, when its [pipe] calls and its [fork] succeed, whatever the order
    in which parent and child run: every run ends; at every moment the terminal shows a beginning of the child's line
    "<pid>: got ping" followed by the parent's line "<pid>: got pong"; and when
    nothing can go on, both lines are there and both processes have ended with
    status 0. *)
Theorem pingpong_correct pid w :
  0 < pid < 2 ^ 31 → rtc ustep (launched pingpong pid) w →
  sn ustep w ∧ (∃ child, utty w `prefix_of` conversation pid child) ∧
  (nf ustep w → ∃ child, child ≠ pid ∧ utty w = conversation pid child ∧ uprocs w = ∅ ∧ ustatus w = {[pid := 0; child := 0]}).
Proof.
  intros Hp Hr. assert (Hw : pp_reach pid w).
  { remember (launched pingpong pid) as w0 eqn:E0. assert (H0 : pp_reach pid w0) by by left. clear E0.
    induction Hr as [|x y z Hs _ IH]; [done|]. apply IH. by eapply pp_reach_step. }
  split; [by eapply pp_reach_sn|]. split.
  - destruct Hw as [->|[->|[->|(c & m & _ & _ & Hat)]]]; [exists 0; apply prefix_nil..|]. exists c. by eapply pp_at_prefix.
  - intros Hnf. destruct Hw as [->|[->|[->|(c & m & Hc & Hne & Hat)]]].
    + exfalso. apply Hnf. exists (one_pipe pid). by apply first_pipe_step.
    + exfalso. apply Hnf. exists (two_pipes pid). by apply second_pipe_step.
    + exfalso. apply Hnf. apply fork_ready. lia.
    + destruct (pp_at_progress pid c Hne w m Hat) as [Hgo| ->]; [by destruct (Hnf Hgo)|]. by exists c.
Qed.

Lemma pingpong_correct_witness :
  rtc ustep (launched pingpong 3) (launched pingpong 3) ∧ sn ustep (launched pingpong 3).
Proof.
  destruct (pingpong_correct 3 (launched pingpong 3) ltac:(lia) (rtc_refl ustep _)) as [H _].
  split; [exact (rtc_refl ustep _)|exact H].
Defined.

(** What the terminal shows in the end, for processes 3 and 4. *)
Example conversation_3_4 : conversation 3 4 = chars "4: got ping" ++ newline ++ chars "3: got pong" ++ newline.
Proof. vm_compute. reflexivity. Qed.

(** ** [init] runs one shell at a time *)

(** The answers a program gets to [fork] and [wait]; the other calls may answer
    anything. In [init] itself [fork] answers a pid or -1. *)
Inductive event := Forked (r : Z) | Waited (r : Z).

Inductive emits : uprog → list event → uprog → Prop :=
| emits_here g : emits g [] g
| emits_write fd b k r l g : emits (k r) l g → emits (UWrite fd b k) l g
| emits_open path mode k r l g : emits (k r) l g → emits (UOpen path mode k) l g
| emits_mknod path mj mn k r l g : emits (k r) l g → emits (UMknod path mj mn k) l g
| emits_dup fd k r l g : emits (k r) l g → emits (UDup fd k) l g
| emits_fork k r l g : r ≠ 0 → emits (k r) l g → emits (UFork k) (Forked r :: l) g
| emits_wait k r l g : emits (k r) l g → emits (UWait k) (Waited r :: l) g.

(** A shell is started only when there is none, and one that has ended is followed by
    another; after a failure there is nothing more. *)
Fixpoint one_shell (sh : option Z) (l : list event) : Prop :=
  match l, sh with
  | [], _ => True
  | Forked r :: l', None => if r <? 0 then l' = [] else one_shell (Some r) l'
  | Waited r :: l', Some p => if r =? p then one_shell None l' else if r <? 0 then l' = [] else one_shell sh l'
  | _, _ => False
  end.

Lemma emits_uputs fd b k l g (R : list event → Prop) :
  R [] → (∀ l g, emits k l g → R l) → emits (uputs fd b k) l g → R l.
Proof.
  intros H0 Hk. induction b as [|c b IH]; cbn [uputs]; [apply Hk|]. intros E. inversion E; subst; [done|by apply IH].
Qed.

Lemma emits_fprintf fd fmt ap k l g (R : list event → Prop) :
  R [] → (∀ l g, emits k l g → R l) → emits (ufprintf fd fmt ap k) l g → R l.
Proof.
  intros H0 Hk. unfold ufprintf. destruct (User.vprintf fmt ap); [by apply emits_uputs|..]; intros E; by inversion E.
Qed.

Lemma emits_exit fd fmt ap st l g : emits (ufprintf fd fmt ap (UExit st)) l g → l = [].
Proof. apply (emits_fprintf fd fmt ap (UExit st) l g (λ l, l = [])); [done|]. intros l' g' E. by inversion E. Qed.

Lemma init_wait_ok restart m : (∀ l g, emits restart l g → one_shell None l) →
  ∀ pid l g, emits (init_wait restart m pid) l g → one_shell (Some pid) l.
Proof.
  intros Hr. induction m as [|m IH]; intros pid l g E; cbn [init_wait] in E; inversion E; subst; [done|done|]. cbn [one_shell].
  destruct (r =? pid); [by eapply Hr|]. destruct (r <? 0); [by eapply emits_exit|by eapply IH].
Qed.

Lemma init_loop_ok n m : ∀ l g, emits (init_loop n m) l g → one_shell None l.
Proof.
  induction n as [|n IH]; intros l g E; cbn [init_loop] in E; [by inversion E|]. revert E. apply emits_fprintf; [done|].
  intros l' g' E. inversion E; subst; [done|]. cbn [one_shell]. destruct (r <? 0); [by eapply emits_exit|].
  destruct (Z.eqb_spec r 0); [done|]. eapply init_wait_ok; [exact IH|done].
Qed.

(** Whatever the system calls answer, [init] starts a shell only when the last one has
    ended, and waits again when some other process has. *)
Lemma init_one_shell n m l g : emits (init n m) l g → one_shell None l.
Proof.
  assert (Hrest : ∀ l g, emits (UDup 0 (λ _, UDup 0 (λ _, init_loop n m))) l g → one_shell None l).
  { intros l' g' E. inversion E as [| | | |fd k r l1 g1 E1| |]; subst; [done|]. inversion E1; subst; [done|]. by eapply init_loop_ok. }
  intros E. unfold init in E. inversion E as [| |path mode k r l1 g1 E1| | | |]; subst; [done|].
  destruct (r <? 0); [|by eapply Hrest]. inversion E1 as [| | |path mj mn k r' l1 g1 E2| | |]; subst; [done|].
  inversion E2; subst; [done|]. by eapply Hrest.
Qed.

(** ** [echo] *)

Fixpoint echoed (argv : list (list Z)) : list Z :=
  match argv with [] => [] | [a] => a ++ newline | a :: argv' => a ++ chars " " ++ echoed argv' end.

Lemma echo_prints argv pid : ∀ out,
  rtc ustep (mk_uworld {[pid := mk_uproc (echo argv) console_fds]} [] out ∅) (mk_uworld ∅ [] (out ++ echoed argv) {[pid := 0]}).
Proof.
  assert (Hw : ∀ b k out, ustep (mk_uworld {[pid := mk_uproc (UWrite 1 b k) console_fds]} [] out ∅)
    (mk_uworld {[pid := mk_uproc (k (zlen b)) console_fds]} [] (out ++ b) ∅)).
  { intros b k out. set (w := mk_uworld _ _ _ _). replace (mk_uworld _ _ _ _) with (add_tty (set_proc w pid (mk_uproc (k (zlen b)) console_fds)) b).
    - apply (ustep_tty w pid 1 b k console_fds); [apply lookup_singleton_eq|reflexivity].
    - unfold add_tty, set_proc. cbn. by rewrite insert_singleton_eq. }
  induction argv as [|a argv IH]; intros out; cbn [echo].
  - apply rtc_once. cbn [echoed]. rewrite app_nil_r. set (w := mk_uworld _ _ _ _).
    replace (mk_uworld _ _ _ _) with (mk_uworld (delete pid (uprocs w)) (uqueues w) (utty w) (<[pid := 0]> (ustatus w)));
      [apply (ustep_exit w pid 0 console_fds), lookup_singleton_eq|cbn; by rewrite delete_singleton_eq].
  - eapply rtc_l; [apply Hw|]. eapply rtc_l; [apply Hw|]. replace (out ++ echoed (a :: argv)) with
      (((out ++ a) ++ if decide (argv = []) then newline else chars " ") ++ echoed argv); [apply IH|].
    destruct argv as [|a' argv]; cbn [echoed]; [rewrite app_nil_r|]; rewrite <- !app_assoc; done.
Qed.
